(* ===== verification/_CoqProject ===== *)
-Q . S2P
Prelude.v
GoText.v
GoJson.v
Effects.v
Sql.v
Numbering.v
BusinessHours.v
Phone.v
AiContract.v
ToolLoop.v
Catalog.v
Resolver.v
Confirmations.v
Confirmer.v
Usage.v
Ledger.v
Hub.v
Assignment.v
Visibility.v
Attendance.v
Distribution.v
TransferApi.v
GoAny.v
Templating.v
Template.v
FlowGraph.v
FlowRunner.v
ChatProcessor.v
Sla.v
Reaper.v
Merge.v
Presence.v
Permissions.v
Accounts.v
Migration.v
Access.v
AccountsApi.v
Sessions.v
SignOn.v
Gate.v
Tenancy.v
Supers.v
Entry.v
Takeover.v
Runes.v
Chunking.v
SearchText.v
Markdown.v
Knowledge.v
KnowledgeApi.v
KnowledgeIndex.v
Retrieval.v
Briefing.v
KnowledgeRuns.v
Campaigns.v
CampaignApi.v
CampaignWorker.v
CampaignSends.v
CampaignRules.v
CampaignJobs.v
CampaignRuns.v
Occurrences.v
OccurrenceCatalogue.v
OccurrenceTexts.v
OccurrenceApi.v
OccurrenceWarrants.v
OccurrenceGate.v
OccurrenceRules.v
OccurrenceProtocols.v
OccurrenceHome.v
OccurrenceStages.v
OccurrencePipeline.v
OccurrenceRuns.v
Sales.v
SalesApi.v
SalesOrders.v
SalesRules.v
SalesLives.v
SalesTimeline.v
SalesRuns.v
