(* ===== verification/Prelude.v ===== *)
(** * Whatc: verification library

    Whatc is a WhatsApp Business platform written in Go: a multi-tenant server that receives
    Meta's webhooks, lets agents answer customers over a WebSocket, distributes conversations,
    runs chatbots with an AI that may call tools, and keeps a ledger of what Meta charges.
    This library models the parts that carry those rules and proves what they are for. File
    names below are under [src/]; the definitions keep the names of the Go functions.

    ** How the program is modelled

    - Values: a Go [string] is its bytes ([GoText]); [uuid.UUID] is an [N] with 0 for
      [uuid.Nil]; [time.Time] is nanoseconds since the zero time in [Z], with [t.Sub]
      saturating and [time.Duration] arithmetic wrapping at 64 bits; [float64] is binary64 of
      [SpecFloat]; decoded JSON is the type [json] below. [encoding/json]'s scanner and string
      encoder are written out in [GoJson].
    - Database: a table is the list of its rows ([Sql] has UPDATE, COUNT, First and ORDER BY);
      a statement is a function of the state that a failure may prevent, or may report although
      it was applied, and a transaction is all or nothing ([Effects], monad [Db], notation
      [x ←? m; k] for [if err != nil { return err }]). Theorems hold for every list of failures
      ([w_faults]); a unique index is part of the statement that can violate it.
    - Goroutines: a program is a tree of atomic operations ([prog]); [pool_step] interleaves any
      number of them and may crash any of them between two operations. Safety is proved by
      [pool_state_invariant] and [pool_state_relation]; what one goroutine may do, against every
      answer of its environment, by the logic [ensures], with the trace so far as ghost state
      where order matters, and by [credits_sound] where something may only happen as often as
      something else was won.
    - Code outside [src/] (gorm, Redis, WebSocket frames, HMAC and randomness, Unicode tables)
      is a parameter; what is assumed of it is a named hypothesis of the theorem.

    ** Files, what they model, and what their theorems show

    - [Prelude]: identifiers, time, JSON values, floats, tactics ([break_match], [bool_hyps],
      [decide_case]). [GoText], [GoJson], [Effects], [Sql]: the foundations above.
    - [BusinessHours] (internal/businesshours): [Within], the chatbot's rule, and [Schedule],
      what the AI tool reports, agree on every configuration; on stored ones the rule is the
      numeric one.
    - [Phone] (internal/contactutil/contactutil.go, documento.go, internal/utils/phone.go): the
      two spellings of a Brazilian mobile have the same identities and no other number shares
      them; CPF and CNPJ check digits determine each other.
    - [Merge] (internal/contactutil/merge.go, on [Phone]): the union-find with path halving
      groups exactly the contacts connected through shared identities, and folding a group is
      all or nothing and complete.
    - [AiContract], [ToolLoop] (internal/ai/ai.go, tools.go, errors.go, toolloop.go,
      toolflatten.go): the contract of tool calling and the loop that serves the model's calls.
      The loop stays within its limits whatever the model answers, only sends requests the
      adapters accept, accounts for what it did, and flattens old exchanges into one labelled
      line per item. [loop_steps] recurses on the number of steps left, which is
      [MaxSteps]: no other fuel.
    - [Catalog], [Resolver] (internal/aitools/aitools.go, policy.go, write.go, resolver.go,
      audit.go): which tools exist, who may call them, and the governed call: audited first,
      decided by the policy, and for a tool that writes only a proposal.
    - [Confirmations] (internal/aitools/confirmations.go, internal/models/ai_tool_confirmations.go):
      the table of proposals, the proposal transaction, the lookup of a button, and each
      change of state as a compare-and-set. Under any interleaving the confirmations move only
      along their state machine, and leaving "pending" is won once.
    - [Confirmer] (internal/aitools/confirmer.go): the tap and the reconciler, on the interface
      of the store. An action is carried out only after every check, with the stored scope and
      arguments, and at most once per authorization and reconciler claim, crashes included.
    - [Usage] (internal/usage/types.go, compute.go, rates.go, countries.go, the usage part of
      internal/config/config.go): the settlement of one message: idempotent, a function of the
      set of events, consistent, never regressing; the price and the country found.
    - [Ledger] (internal/usage/record.go, settle.go, reprice.go, parts of integrity.go, on
      [Usage]): the ledger is a history under any interleaving; settling stores what [Compute_]
      says and nothing else; recording leaves the message accounted for.
    - [Hub] (internal/websocket/hub.go, client.go, messages.go): connections as a step relation.
      No send on a closed channel, presence is exactly the changes of "has a live connection",
      a broadcast reaches exactly those it is for.
    - [Assignment] (internal/assignment): eligibility, round robin and load balancing: whoever
      is chosen is eligible, the choice is the longest waiting or a least loaded, the rotation
      is fair. Its interface [PresenceSource] is what it needs of presence.
    - [Presence] (the wiring in cmd/whatomate/main.go): [Hub] implements [PresenceSource], so an
      assigned agent has a live connection.
    - [Visibility] (internal/handlers/conversation_visibility.go, [HasPermission] and the default
      team of internal/handlers/cache.go): the decision about one conversation and the SQL
      scope of the listings agree, except for the conversations that a deleted account's default
      team lists and nobody may open.

    - [Attendance] (agent_transfers.go, customer_waiting.go, ownership_history.go and the tables in
      internal/models): the tables of the attendances, every statement that changes them, and
      the unique index. Under any interleaving of the goroutines that run these statements a
      contact has at most one active attendance, and its owner only changes in the ways named.
    - [Distribution] (distribution.go, reassign.go, away_tolerance.go, contact_status.go, the
      transfer constructors of agent_transfers.go): who gets a conversation, the gate in front
      of every agent send, and the sweep that takes conversations from absent agents.
    - [TransferApi] (the HTTP handlers of agent_transfers.go): assigning, picking, returning and
      closing: authorized, first in first out, atomic.
    - [Sla] (sla_processor.go): the deadlines, the passes of the processor and what each may do;
      [Reaper] (the presence reaper): an agent is released only after being away long enough.
    - [GoAny], [Template] (template_engine.go): decoded JSON as the flows hold it, and the
      templates. When every brace belongs to a tag and the data holds none, a template is rendered
      whatever its loops ([tags] reads a text as an automaton would, so that a match can only lie
      between tags); a list with a text that spells a loop is shown to hang the goroutine.
    - [FlowGraph] (internal/flowgraph/flowgraph.go, chatbot_graph_types.go,
      chatbot_flow_migration.go): the graphs, reading them, and the back-fill from the older
      steps, whose graphs are always readable and well formed.
    - [FlowRunner] (chatbot_graph_runner.go, flow_transfer_routing.go,
      xprocess_integration_secrets.go, and of chatbot_processor.go the sending of buttons and the
      configured request): one inbound message through a flow. It sends a bounded number of
      messages, is silent once it hands over, and leaves a session that ended or waits at a
      question, saved unless it came to a node its graph does not have.
    - [ChatProcessor] (chatbot_processor.go): what an inbound message is, how it is saved and who
      answers it: the chatbot speaks only when no person attends the contact, but for the answer
      to a tap on a confirmation button, whose handling is [Confirmer.HandleTap].

    - [Permissions] (internal/models/roles.go, permission_catalog.go, the keys of roles.go and
      users.go): the catalogue of permissions, the system roles' lists and the keys: well formed,
      and a set of permissions survives the trip through its keys. [Accounts] (internal/models):
      the tables of organizations, users, memberships and roles, with their unique indexes.
    - [Migration] (internal/database/postgres.go, permissions_backfill.go, cmd/whatomate/main.go):
      what a start does to the accounts: seeding and the twelve permission backfills. The
      backfills converge from any interruption and widen nobody's access; the theorems also
      show the starts that fail for good or leave a default password behind.
    - [AccountsApi] (roles.go, users.go, organization.go, org_placement.go, and of cache.go and
      app.go the permissions and who asks): the requests on roles, users and members as programs
      over the statements on the accounts and the cache. [Access] (internal/models/models.go,
      sso.go): API keys, identity providers and the claims of tokens. [Sessions] (auth.go): signing
      in, registering, refreshing, changing organization. [SignOn] (sso.go): single sign-on and
      its configuration. [Gate] (internal/middleware/middleware.go, csrf.go, cookies.go, apikeys.go
      and the gate of cmd/whatomate/main.go): who a request is taken for. All of them are requests
      on one state, [AccountsApi.State].
    - [Tenancy]: roles and cached permissions never cross organizations, whatever the
      interleaving of those requests. [Supers]: only a super administrator appoints one. Both
      are proved by the rely/guarantee logic [guards] of [Effects]. [Entry]: what every path asks
      before it lets somebody in, before it signs a token, and that a refresh token is spent
      once. [Takeover]: concrete runs of the ways in that stay open.

    - [Runes] (words, lines and trimming of a text as runes), [Chunking] (internal/knowledge/normalize.go,
      chunk.go): a text is cut into overlapping pieces that carry all of its words, less the characters
      that the cleaning erases. [SearchText]
      (stopwords.go, plain.go): the form that is indexed and searched; a customer's text becomes
      words, never operators. [Markdown] (chunk.go): sections per heading.
    - [Knowledge] (store.go, internal/models/knowledge.go), [KnowledgeApi] (knowledge.go and
      internal/knowledge/manuals.go): the documents, their chunks, and the requests and imports
      that change them. [KnowledgeIndex]: however these are interleaved and interrupted, the
      index is what the documents say.
    - [Retrieval] (internal/knowledge/retriever.go, lexical.go, assemble.go, knowledge.go,
      chatbot_knowledge.go): searching, the reference material of a prompt, who may read.
      [Briefing]: customers and staff are told only what is shared with them, within the budget.
      [KnowledgeRuns]: concrete runs.

    - [Templating] (internal/templateutil/templateutil.go, pkg/whatsapp/message.go and the parameters of
      internal/worker/worker.go): the variables of a template message and the components sent for
      them. The text stored is the text the customer sees, for the bodies for which it is.
    - [Campaigns] (internal/models/bulk.go, internal/queue), [CampaignApi] (campaigns.go), [CampaignWorker]
      (internal/worker/worker.go, internal/queue/redis.go, GetOrCreateContact of
      internal/contactutil/contactutil.go, the status events of webhook.go): bulk sends, from the
      requests through the stream of jobs to the worker and back. [CampaignSends]: under any
      interleaving every message goes to a recipient of the campaign from its own organization's
      account, and there is at most one per delivery of a job. [CampaignRules]: what the worker has
      read before it sends, and whom an import never adds. [CampaignJobs]: a job marks and counts
      its recipient once. [CampaignRuns]: concrete runs, with those that go wrong.

    - [Occurrences] (internal/models/occurrences.go, occurrence_*.go), [OccurrenceCatalogue]
      (occurrence_stages.go, occurrence_categories.go, occurrence_what_happened.go,
      occurrence_processes.go, occurrence_sla_policies.go, and the catalogue of
      occurrence_process_messages.go), [OccurrenceTexts] (protocol numbers, purchase documents and
      their summary, suggested messages), [OccurrenceApi] (occurrences.go, occurrence_protocol.go,
      occurrence_documents.go, occurrence_reply.go, occurrence_send.go): the cases of a contact and
      what an organization configures for them, as programs over statements with their unique
      indexes. [OccurrenceWarrants] says what each operation on a case must have seen before it;
      [OccurrenceGate] and [OccurrenceRules] prove that every request complies, so
      that a case is changed only by somebody who may touch it. On that ground, whatever the
      interleaving, the interruptions and the failures: [OccurrenceProtocols], a protocol number is
      given once, also after its case was deleted; [OccurrenceHome], everything a case refers to is
      of its organization, except for the unit and department of a team that one of its transfers
      names, which the code reads by id alone (that ids are not given twice is a hypothesis on the
      answers of the operations);
      [OccurrenceStages], a case is closed exactly when it is in a closing stage, as long as nobody
      edits whether a stage closes. [OccurrencePipeline]: requests on the stages, one after the
      other, keep one initial stage and a closing one. [OccurrenceRuns]: concrete runs, with those
      in which an edited stage leaves its cases closed or open, a first stage made by hand stops
      every case, and a transfer's team labels a case with another organization's unit.

    - [Numbering]: what the counters of cases and of opportunities share, as classes
      ([CounterRows], [Tagging]) and the lemmas proved against them.
      [Sales] (internal/models/sales_opportunity.go, sales_opportunity_protocol.go and the writes of
      sales_opportunities.go, sales_opportunity_xprocess_link.go and xprocess_reconciler.go): the
      opportunities of the sales funnel, their events and their links to orders of X2, the ERP, with
      the unique indexes of internal/database/postgres.go; a [change] is an UPDATE of an opportunity
      with its WHERE. [SalesApi] (those handlers, sales_opportunity_quantities.go,
      sales_opportunity_summary.go): the requests of the funnel and what the chatbot and the pickup of
      an attendance call, as programs ([FProg]) over statements. [SalesOrders] (pkg/xprocess/client.go,
      xprocess_reconciler.go, xprocess_discovery.go, sales_opportunity_xprocess_candidates.go): the
      client of X2, following the linked orders, and matching orders nobody linked: an order is
      linked by itself only when it is the only candidate of the document and fits only one
      opportunity, whatever the order of the answers. [SalesRules] says what an operation must have
      seen before it and proves that every program complies, so that an opportunity is changed only
      by somebody who sees it or by the routines that may. On that ground, under any interleaving,
      interruption and failure: [SalesLives], an opportunity lives one life under one number, and
      the tables stay sound with one open opportunity per contact. [SalesTimeline]: a closing is recorded at most once,
      where no opportunity is deleted. [SalesRuns]: concrete runs on a scheduler of turns. The day of a number has eight
      characters: a hypothesis where numbers are compared.

    The handlers above without a directory are in internal/handlers.

    Interactions: [ToolLoop] calls tools through the operations [Resolver] implements; [Resolver]
    stores proposals through the operation [Confirmations.Propose] implements; [Confirmer] uses
    the store through [store_op], whose meaning is given by the statements of [Confirmations];
    [Ledger] settles with [Usage.Compute_]; [Merge] groups with [Phone.PhoneIdentities];
    [Presence] joins [Hub] and [Assignment]; [Distribution], [TransferApi], [Sla] and [Reaper] are
    programs over the statements of [Attendance]; [FlowRunner] embeds those of [Distribution]
    ([att_prog]) and [ChatProcessor] those of [FlowRunner] ([chat_prog]), so what is proved of
    the parts is used for the whole ([extends_prog_lift]).

    ** Bounds and fuel

    Every recursion is structural except those that carry a counter; those of [Chunking],
    [SearchText], [Markdown] and [Knowledge.batches] consume a rune or a row each round and get
    the length. Of the others: [Merge.find] runs
    [i] rounds because parents never point upwards ([find_spec] shows that is enough);
    [Usage.shortest_code] tries the three lengths a calling code has; the JSON scanner consumes
    a byte per step; [Template.processConditionals] shortens its text each round, so the text's
    length is enough; [Template.processForLoops] takes its fuel from the caller, since the code's
    loop may not end ([template_returns]: one more than the ends of loops in the template is
    enough when no brace is loose; [loop_feeds_itself]: none is when a value spells a loop); [FlowRunner.run_loop] has the code's own limit of 100 nodes. Channel buffers (256),
    history (5 snapshots) and AI limits are the code's constants.

    ** Not modelled, and why

    The text of log lines and of most errors; the encoding of ids and times; panics of the
    runtime other than those stated; caches that only shorten reads (their answers are inputs);
    the paging of the integrity sweeps; sockets and HTTP; the walk over an HTML manual; signing and parsing of tokens, bcrypt,
    the exchange with an identity provider. Of the rest of the program: the listings, the
    call transfer machine, team chat, the screens that configure X2 and the bodies of the AI's
    tools are not modelled. Of the occurrences and the opportunities,
    audit log rows and notifications over the WebSocket are operations that leave no state. *)
From stdpp Require Export base tactics numbers list gmap strings option sorting.
From Stdlib Require Export ZArith Lia Bool.
From Stdlib Require Import SpecFloat.

#[global] Set Default Goal Selector "!".
#[global] Open Scope string_scope.
#[global] Open Scope list_scope.
#[global] Open Scope Z_scope.

(** * Identifiers and time

    [uuid.UUID] is a 128-bit value; only equality, the order (as the database
    compares it) and [uuid.Nil] matter to the code, so it is an [N] with [0] for
    [uuid.Nil]. A [*uuid.UUID] is an [option]. *)
Abbreviation uuid := N (only parsing).
Definition nil_uuid : uuid := 0%N.

(** [time.Time] as nanoseconds since Go's zero time ([time.Time{}] is [0]). *)
Abbreviation instant := Z (only parsing).
Abbreviation duration := Z (only parsing).
Definition is_zero_time (t : instant) : bool := t =? 0.

Definition max_int64 : Z := 2 ^ 63 - 1.
Definition min_int64 : Z := - 2 ^ 63.

(** [t.Sub(u)]: the difference, saturated at the extremes of [time.Duration]. *)
Definition time_sub (t u : instant) : duration :=
  Z.max min_int64 (Z.min max_int64 (t - u)).

Definition second : duration := 1000000000.
Definition minute : duration := 60 * second.
Definition hour : duration := 60 * minute.

(** Two's complement wrap-around of Go's 64-bit [int] and [time.Duration]. *)
Definition wrap64 (z : Z) : Z := (z + 2 ^ 63) mod 2 ^ 64 - 2 ^ 63.

Lemma wrap64_id z : min_int64 <= z <= max_int64 -> wrap64 z = z.
Proof.
  unfold wrap64, min_int64, max_int64. intros H.
  rewrite Z.mod_small by lia. lia.
Qed.

Lemma time_sub_ge t u d : min_int64 < d <= max_int64 -> d <= time_sub t u <-> u + d <= t.
Proof. unfold time_sub, min_int64, max_int64. lia. Qed.

(** * Tactics and hints shared by the components *)
Create HintDb whatc discriminated.

(** Case analysis on every boolean test and match of the goal. *)
Ltac break_match :=
  match goal with
  | |- context [ if ?b then _ else _ ] => destruct b eqn:?
  | |- context [ match ?x with _ => _ end ] => destruct x eqn:?
  end.

Ltac break_match_in H :=
  match type of H with
  | context [ if ?b then _ else _ ] => destruct b eqn:?
  | context [ match ?x with _ => _ end ] => destruct x eqn:?
  end.

(** Case analysis on one proposition, reduced in the tests of the goal. *)
Ltac decide_case P E :=
  destruct (decide P) as [E | E];
  [rewrite ?(bool_decide_eq_true_2 P E) | rewrite ?(bool_decide_eq_false_2 P E)].

(** Turn boolean facts of the context into propositions. *)
Ltac bool_hyps :=
  repeat match goal with
  | H : _ && _ = true |- _ => apply andb_true_iff in H as [? ?]
  | H : _ || _ = false |- _ => apply orb_false_iff in H as [? ?]
  | H : negb _ = true |- _ => apply negb_true_iff in H
  | H : negb _ = false |- _ => apply negb_false_iff in H
  | H : (_ =? _) = true |- _ => apply Z.eqb_eq in H
  | H : (_ =? _) = false |- _ => apply Z.eqb_neq in H
  | H : (_ <? _) = true |- _ => apply Z.ltb_lt in H
  | H : (_ <? _) = false |- _ => apply Z.ltb_ge in H
  | H : (_ <=? _) = true |- _ => apply Z.leb_le in H
  | H : (_ <=? _) = false |- _ => apply Z.leb_gt in H
  | H : bool_decide _ = true |- _ => apply bool_decide_eq_true in H
  | H : bool_decide _ = false |- _ => apply bool_decide_eq_false in H
  end.

(** * Lists *)
Lemma find_app {A} (f : A -> bool) l k :
  List.find f (l ++ k) = match List.find f l with Some x => Some x | None => List.find f k end.
Proof. induction l as [| x l IH]; [done |]. simpl. by destruct (f x). Qed.

(** [sort.SliceStable]. *)
Fixpoint sort_insert {A} (le : A -> A -> bool) (x : A) (l : list A) : list A :=
  match l with
  | [] => [x]
  | y :: l' => if le x y then x :: l else y :: sort_insert le x l'
  end.
Definition stable_sort {A} (le : A -> A -> bool) (l : list A) : list A := foldr (sort_insert le) [] l.

Lemma sort_insert_perm {A} (le : A -> A -> bool) x l : sort_insert le x l ≡ₚ x :: l.
Proof. induction l as [| y l IH]; [done |]. simpl. destruct (le x y); [done |]. rewrite IH. apply Permutation_swap. Qed.
Lemma stable_sort_perm {A} (le : A -> A -> bool) l : stable_sort le l ≡ₚ l.
Proof. induction l as [| x l IH]; [done |]. simpl. by rewrite sort_insert_perm, IH. Qed.

Lemma NoDup_map_inj {A B} (f : A -> B) l x y : NoDup (map f l) -> x ∈ l -> y ∈ l -> f x = f y -> x = y.
Proof.
  induction l as [| z l IH]; [intros _ H; by apply not_elem_of_nil in H |]. simpl.
  intros [Hz Hl]%NoDup_cons [-> | Hx]%elem_of_cons [-> | Hy]%elem_of_cons E; [done | | | by apply IH];
    destruct Hz; apply list_elem_of_fmap; eauto.
Qed.

(** * JSON values

    What [encoding/json] decodes into an [any]: numbers are [float64] (here the
    IEEE 754 binary64 values of [SpecFloat]), an object is a list of its fields. *)
Inductive json : Type :=
  | JNull
  | JBool (b : bool)
  | JNum (f : spec_float)
  | JStr (s : string)
  | JArr (l : list json)
  | JObj (fields : list (string * json)).

(** [m[k]] on a [map[string]any]: [None] when the key is absent. *)
Fixpoint assoc {A} (k : string) (l : list (string * A)) : option A :=
  match l with
  | [] => None
  | (k', v) :: l' => if String.eqb k k' then Some v else assoc k l'
  end.

(** The comma-ok type assertions [v.(map[string]any)], [.(float64)], ... *)
Definition as_obj (v : json) : option (list (string * json)) :=
  match v with JObj o => Some o | _ => None end.
Definition as_num (v : option json) : option spec_float :=
  match v with Some (JNum f) => Some f | _ => None end.
Definition as_str (v : option json) : option string :=
  match v with Some (JStr s) => Some s | _ => None end.
Definition as_bool (v : option json) : option bool :=
  match v with Some (JBool b) => Some b | _ => None end.

(** * float64 *)
Definition f64_add : spec_float -> spec_float -> spec_float := SFadd 53 1024.
Definition f64_mul : spec_float -> spec_float -> spec_float := SFmul 53 1024.
Definition f64_div : spec_float -> spec_float -> spec_float := SFdiv 53 1024.
Definition f64_of_int (z : Z) : spec_float := binary_normalize 53 1024 z 0 false.
Definition f64_zero : spec_float := S754_zero false.

(** [int(f)]: truncation towards zero. A value [int] cannot hold becomes the
    minimum [int], as the conversion instruction of amd64 does. *)
Definition f64_to_int (f : spec_float) : Z :=
  match f with
  | S754_zero _ => 0
  | S754_finite s m e =>
      let v := Z.shiftl (Zpos m) e in
      let v := if s then - v else v in
      if (min_int64 <=? v) && (v <=? max_int64) then v else min_int64
  | S754_infinity _ | S754_nan => min_int64
  end.
