(* ===== verification/GoText.v ===== *)
(** Go strings: a [string] is the sequence of its bytes, as in Go. This file holds
    the functions of package [strings] the components use and their lemmas. *)
From S2P Require Import Prelude.
From Stdlib Require Import Ascii.

(** [len(s)]. *)
Definition str_len (s : string) : Z := Z.of_nat (String.length s).

(** [a <= b] and [a < b] on strings compare bytes. *)
Definition str_le (a b : string) : bool := String.leb a b.

Definition byte_val (c : ascii) : Z := Z.of_N (N_of_ascii c).
Definition is_digit (c : ascii) : bool := (48 <=? byte_val c) && (byte_val c <=? 57).
Definition digit_val (c : ascii) : Z := byte_val c - 48.
Definition digit_char (d : Z) : ascii := ascii_of_N (Z.to_N (48 + d)).

(** Two decimal digits, zero padded ([%02d] for 0..99). *)
Definition two_digits (n : Z) : string :=
  String (digit_char (n / 10)) (String (digit_char (n mod 10)) EmptyString).

Lemma byte_val_range c : 0 <= byte_val c < 256.
Proof.
  unfold byte_val. pose proof (N_ascii_bounded c). lia.
Qed.

Lemma byte_val_inj a b : byte_val a = byte_val b -> a = b.
Proof.
  unfold byte_val. intros H. apply N2Z.inj in H.
  by rewrite <- (ascii_N_embedding a), <- (ascii_N_embedding b), H.
Qed.

Lemma byte_val_digit_char d : 0 <= d <= 9 -> byte_val (digit_char d) = 48 + d.
Proof.
  intros H. unfold byte_val, digit_char. rewrite N_ascii_embedding by lia. lia.
Qed.

Lemma digit_char_val c : is_digit c = true -> digit_char (digit_val c) = c.
Proof.
  intros H. apply byte_val_inj. unfold is_digit, digit_val in *. bool_hyps.
  rewrite byte_val_digit_char by lia. lia.
Qed.

(** [strings.Builder] / [+] on strings is [+:+]; [str_le] is lexicographic. *)
Lemma str_app_cons a s t : String a s +:+ t = String a (s +:+ t).
Proof. done. Qed.

Lemma str_app_nil_l t : "" +:+ t = t.
Proof. done. Qed.

Lemma str_app_nil_r s : s +:+ "" = s.
Proof. induction s as [| a s IH]; [done |]. by rewrite str_app_cons, IH. Qed.

Lemma str_app_assoc s t u : s +:+ t +:+ u = (s +:+ t) +:+ u.
Proof. induction s as [| a s IH]; [done |]. by rewrite !str_app_cons, IH. Qed.

Create Rewrite HintDb str_app.
#[export] Hint Rewrite str_app_cons str_app_nil_l str_app_nil_r : str_app.

Lemma str_le_cons a b s t :
  str_le (String a s) (String b t) =
  if byte_val a =? byte_val b then str_le s t else byte_val a <? byte_val b.
Proof.
  unfold str_le, String.leb. simpl. unfold Ascii.compare, byte_val.
  destruct (N.compare_spec (N_of_ascii a) (N_of_ascii b)) as [E | E | E].
  - rewrite E, Z.eqb_refl. done.
  - rewrite (proj2 (Z.eqb_neq _ _)) by lia. symmetry. apply Z.ltb_lt. lia.
  - rewrite (proj2 (Z.eqb_neq _ _)) by lia. symmetry. apply Z.ltb_ge. lia.
Qed.

(** [sort.Strings]: the sorted permutation. *)
Definition str_ltb_rel (a b : string) : Prop := str_le a b = true.
#[global] Instance str_ltb_rel_dec : RelDecision str_ltb_rel := fun a b => decide (str_le a b = true).
Definition sort_strings (l : list string) : list string := merge_sort str_ltb_rel l.

Lemma str_le_refl a : str_le a a = true.
Proof.
  induction a as [| c a IH]; [done |]. rewrite str_le_cons, Z.eqb_refl. done.
Qed.
Lemma str_le_total a b : str_le a b = true \/ str_le b a = true.
Proof.
  revert b. induction a as [| c a IH]; intros [| d b]; [auto.. |].
  rewrite !str_le_cons, (Z.eqb_sym (byte_val d)). destruct (Z.eqb_spec (byte_val c) (byte_val d)); [apply IH | lia].
Qed.
Lemma str_le_trans a b c : str_le a b = true -> str_le b c = true -> str_le a c = true.
Proof.
  revert b c. induction a as [| x a IH]; intros [| y b] [| z c]; try done.
  rewrite !str_le_cons.
  destruct (Z.eqb_spec (byte_val x) (byte_val y)), (Z.eqb_spec (byte_val y) (byte_val z)),
    (Z.eqb_spec (byte_val x) (byte_val z)); try lia; eauto.
Qed.
#[global] Instance str_ltb_rel_total : Total str_ltb_rel.
Proof. intros a b. apply str_le_total. Qed.
#[global] Instance str_ltb_rel_trans : Transitive str_ltb_rel.
Proof. intros a b c. apply str_le_trans. Qed.

Lemma sort_strings_perm l : sort_strings l ≡ₚ l.
Proof. apply merge_sort_Permutation. Qed.
Lemma sort_strings_sorted l : StronglySorted str_ltb_rel (sort_strings l).
Proof. apply (StronglySorted_merge_sort _ _). Qed.

Lemma str_le_nil t : str_le "" t = true.
Proof. by destruct t. Qed.

(** Comparing zero-padded two-digit numbers as text compares the numbers. *)
Lemma str_le_two_digits m n s t :
  0 <= m < 100 -> 0 <= n < 100 ->
  str_le (two_digits m +:+ s) (two_digits n +:+ t) =
  if m =? n then str_le s t else m <? n.
Proof.
  intros Hm Hn. unfold two_digits. autorewrite with str_app.
  assert (0 <= m / 10 <= 9 /\ 0 <= m mod 10 <= 9) as [? ?]
    by (split; [split; [apply Z.div_pos | apply Z.lt_succ_r, Z.div_lt_upper_bound] | pose proof (Z.mod_pos_bound m 10)]; lia).
  assert (0 <= n / 10 <= 9 /\ 0 <= n mod 10 <= 9) as [? ?]
    by (split; [split; [apply Z.div_pos | apply Z.lt_succ_r, Z.div_lt_upper_bound] | pose proof (Z.mod_pos_bound n 10)]; lia).
  rewrite !str_le_cons, !byte_val_digit_char by lia.
  pose proof (Z.div_mod m 10). pose proof (Z.div_mod n 10).
  destruct (Z.eqb_spec (48 + m / 10) (48 + n / 10)), (Z.eqb_spec (48 + m mod 10) (48 + n mod 10)),
    (Z.eqb_spec m n), (Z.ltb_spec m n), (Z.ltb_spec (48 + m / 10) (48 + n / 10)),
    (Z.ltb_spec (48 + m mod 10) (48 + n mod 10)); try done; lia.
Qed.

(** ** Prefixes, slices and substrings *)

(** [strings.HasPrefix(s, p)]. *)
Fixpoint has_prefix (p s : string) : bool :=
  match p, s with
  | EmptyString, _ => true
  | String a p', String b s' => Ascii.eqb a b && has_prefix p' s'
  | String _ _, EmptyString => false
  end.

(** [strings.Contains(s, sub)]. *)
Fixpoint str_contains (sub s : string) : bool :=
  has_prefix sub s ||
  match s with
  | EmptyString => false
  | String _ s' => str_contains sub s'
  end.

(** [s[n:]] and [s[:n]] for an [n] within the string. *)
Fixpoint str_drop (n : nat) (s : string) : string :=
  match n, s with
  | O, _ => s
  | S n', String _ s' => str_drop n' s'
  | S _, EmptyString => EmptyString
  end.
Fixpoint str_take (n : nat) (s : string) : string :=
  match n, s with
  | S n', String a s' => String a (str_take n' s')
  | _, _ => EmptyString
  end.

(** [s[i]]: [None] is the out-of-range panic. *)
Fixpoint str_index (s : string) (i : nat) : option ascii :=
  match s, i with
  | String a _, O => Some a
  | String _ s', S i' => str_index s' i'
  | EmptyString, _ => None
  end.

Definition byte_is (c : option ascii) (b : ascii) : bool :=
  match c with Some a => Ascii.eqb a b | None => false end.
Definition byte_between (c : option ascii) (lo hi : ascii) : bool :=
  match c with
  | Some a => (byte_val lo <=? byte_val a) && (byte_val a <=? byte_val hi)
  | None => false
  end.

(** The bytes of [s] that satisfy [f], in order. *)
Fixpoint str_filter (f : ascii -> bool) (s : string) : string :=
  match s with
  | EmptyString => EmptyString
  | String a s' => if f a then String a (str_filter f s') else str_filter f s'
  end.

Fixpoint str_forallb (f : ascii -> bool) (s : string) : bool :=
  match s with
  | EmptyString => true
  | String a s' => f a && str_forallb f s'
  end.

(** The parts written one after the other to a [strings.Builder]. *)
Definition str_concat (parts : list string) : string := foldr String.append "" parts.

(** How many bytes of [s] satisfy [f]. *)
Definition str_count (f : ascii -> bool) (s : string) : Z := str_len (str_filter f s).

(** [strings.Join(parts, sep)]. *)
Fixpoint str_join (sep : string) (parts : list string) : string :=
  match parts with
  | [] => ""
  | [p] => p
  | p :: rest => p +:+ sep +:+ str_join sep rest
  end.

Lemma str_filter_all f s : str_forallb f s = true -> str_filter f s = s.
Proof.
  induction s as [| a s IH]; simpl; [done |]. intros H. bool_hyps.
  rewrite H. by rewrite IH.
Qed.

Lemma str_forallb_filter f s : str_forallb f (str_filter f s) = true.
Proof. induction s as [| a s IH]; simpl; [done |]. destruct (f a) eqn:E; simpl; by rewrite ?E. Qed.

Lemma str_filter_idem f s : str_filter f (str_filter f s) = str_filter f s.
Proof. apply str_filter_all, str_forallb_filter. Qed.

Lemma str_filter_app f s t : str_filter f (s +:+ t) = str_filter f s +:+ str_filter f t.
Proof.
  induction s as [| a s IH]; [done |]. rewrite str_app_cons. simpl.
  destruct (f a); [| done]. by rewrite IH.
Qed.

Lemma str_forallb_app f s t : str_forallb f (s +:+ t) = str_forallb f s && str_forallb f t.
Proof.
  induction s as [| a s IH]; [done |]. rewrite str_app_cons. simpl.
  by rewrite IH, andb_assoc.
Qed.

Lemma str_forallb_concat f parts :
  str_forallb f (str_concat parts) = forallb (str_forallb f) parts.
Proof.
  induction parts as [| p parts IH]; [done |].
  change (str_forallb f (p +:+ str_concat parts) = str_forallb f p && forallb (str_forallb f) parts).
  by rewrite str_forallb_app, IH.
Qed.

Lemma str_forallb_impl (f g : ascii -> bool) s :
  (forall c, f c = true -> g c = true) -> str_forallb f s = true -> str_forallb g s = true.
Proof. intros Hfg. induction s as [| a s IH]; simpl; [done |]. intros H. bool_hyps. by rewrite Hfg, IH. Qed.

Lemma str_len_app s t : str_len (s +:+ t) = str_len s + str_len t.
Proof.
  unfold str_len. induction s as [| a s IH]; [done |]. rewrite str_app_cons. simpl. lia.
Qed.

Lemma str_count_app f s t : str_count f (s +:+ t) = str_count f s + str_count f t.
Proof. unfold str_count. by rewrite str_filter_app, str_len_app. Qed.

Lemma str_count_none f s : str_forallb (fun c => negb (f c)) s = true -> str_count f s = 0.
Proof.
  unfold str_count. induction s as [| a s IH]; [done |]. simpl. intros H. bool_hyps.
  rewrite H. by apply IH.
Qed.

Lemma str_len_nonneg s : 0 <= str_len s.
Proof. unfold str_len. lia. Qed.

Lemma str_take_drop n s : str_take n s +:+ str_drop n s = s.
Proof.
  revert s. induction n as [| n IH]; intros [| a s]; try done.
  simpl. by rewrite str_app_cons, IH.
Qed.

Lemma str_len_take n s : str_len (str_take n s) = Z.min (Z.of_nat n) (str_len s).
Proof.
  unfold str_len. revert s. induction n as [| n IH]; intros [| a s]; simpl; try lia.
  specialize (IH s). lia.
Qed.

Lemma str_len_drop n s : str_len (str_drop n s) = Z.max 0 (str_len s - Z.of_nat n).
Proof.
  unfold str_len. revert s. induction n as [| n IH]; intros [| a s]; simpl; try lia.
  specialize (IH s). lia.
Qed.

Lemma str_take_app s t : str_take (String.length s) (s +:+ t) = s.
Proof. induction s as [| a s IH]; [by destruct t |]. rewrite str_app_cons. simpl. by rewrite IH. Qed.

Lemma str_take_take j k s : (j <= k)%nat -> str_take j (str_take k s) = str_take j s.
Proof.
  revert k s. induction j as [| j IH]; intros [| k] [| a s] H; try done; try lia. simpl. by rewrite IH by lia.
Qed.

(** Of two prefixes of a string, one is a prefix of the other. *)
Lemma has_prefix_linear p q s :
  has_prefix p s = true -> has_prefix q s = true -> has_prefix p q = true \/ has_prefix q p = true.
Proof.
  revert q s. induction p as [| a p IH]; intros [| b q] [| c s]; simpl; auto; try done.
  intros H1 H2. bool_hyps. apply Ascii.eqb_eq in H, H1. subst.
  rewrite Ascii.eqb_refl. simpl. eauto.
Qed.

Lemma has_prefix_app p s : has_prefix p (p +:+ s) = true.
Proof.
  induction p as [| a p IH]; [done |]. rewrite str_app_cons. simpl.
  by rewrite Ascii.eqb_refl, IH.
Qed.

Lemma has_prefix_true p s : has_prefix p s = true -> exists t, s = p +:+ t.
Proof.
  revert s. induction p as [| a p IH]; intros s H; [by exists s |].
  destruct s as [| b s]; simpl in H; [done |]. bool_hyps.
  apply Ascii.eqb_eq in H as ->. destruct (IH s) as [t ->]; [done |]. by exists t.
Qed.

Lemma str_len_pos_inv s p :
  str_len s = Z.pos p -> exists c s', s = String c s' /\ str_len s' = Z.pred (Z.pos p).
Proof.
  destruct s as [| c s']; [done |]. intros H. exists c, s'. split; [done |].
  unfold str_len in *. simpl in *. lia.
Qed.

Lemma str_len_0_inv s : str_len s = 0 -> s = "".
Proof. by destruct s. Qed.

(** Names the bytes of every string variable whose length is a known literal. *)
Ltac split_bytes :=
  repeat match goal with
  | H : str_len ?s = Z.pos _ |- _ =>
      is_var s;
      let c := fresh "c" in let t := fresh "t" in let E := fresh "E" in
      apply str_len_pos_inv in H as (c & t & E & H); subst s; let n := type of H in match n with _ = ?r => let r' := eval vm_compute in r in change r with r' in H end
  | H : str_len ?s = 0 |- _ => is_var s; apply str_len_0_inv in H; subst s
  end.

Lemma str_index_app_l s t i : (i < String.length s)%nat -> str_index (s +:+ t) i = str_index s i.
Proof.
  revert i. induction s as [| a s IH]; intros i Hi; simpl in Hi; [lia |].
  rewrite str_app_cons. destruct i; [done |]. simpl. apply IH. lia.
Qed.

Lemma str_index_app_r s t i : str_index (s +:+ t) (String.length s + i) = str_index t i.
Proof. induction s as [| a s IH]; [done |]. rewrite str_app_cons. apply IH. Qed.

Lemma str_index_none s i : str_index s i = None -> (String.length s <= i)%nat.
Proof. revert i. induction s as [| a s IH]; intros [| i]; simpl; try done; [lia |]. intros H%IH. lia. Qed.

(** ** UTF-8

    [utf8.DecodeRuneInString]: the first code point and its width; an invalid or truncated
    sequence is [RuneError] with width 1. *)
Definition rune_error : Z := 65533.

Definition cont_between (s : string) (i : nat) (lo hi : Z) : option Z :=
  match str_index s i with
  | Some c => if (lo <=? byte_val c) && (byte_val c <=? hi) then Some (byte_val c mod 64) else None
  | None => None
  end.

Definition decode_rune (s : string) : option (Z * nat) :=
  match s with
  | EmptyString => None
  | String a _ =>
      let b := byte_val a in
      let bad := Some (rune_error, 1%nat) in
      if b <? 128 then Some (b, 1%nat)
      else if (194 <=? b) && (b <=? 223) then
        match cont_between s 1 128 191 with
        | Some c1 => Some ((b - 192) * 64 + c1, 2%nat)
        | None => bad
        end
      else if (224 <=? b) && (b <=? 239) then
        match cont_between s 1 (if b =? 224 then 160 else 128) (if b =? 237 then 159 else 191),
              cont_between s 2 128 191 with
        | Some c1, Some c2 => Some ((b - 224) * 4096 + c1 * 64 + c2, 3%nat)
        | _, _ => bad
        end
      else if (240 <=? b) && (b <=? 244) then
        match cont_between s 1 (if b =? 240 then 144 else 128) (if b =? 244 then 143 else 191),
              cont_between s 2 128 191, cont_between s 3 128 191 with
        | Some c1, Some c2, Some c3 => Some ((b - 240) * 262144 + c1 * 4096 + c2 * 64 + c3, 4%nat)
        | _, _, _ => bad
        end
      else bad
  end.

(** [utf8.RuneStart(b)]: not a continuation byte. *)
Definition rune_start (c : ascii) : bool := negb ((128 <=? byte_val c) && (byte_val c <? 192)).

(** The runes [range s] visits, with the bytes each one was decoded from. [fuel] is the
    number of bytes left, which [runes] sets to the length of the string. *)
Fixpoint runes_fuel (fuel : nat) (s : string) : list (Z * string) :=
  match fuel with
  | O => []
  | S fuel' =>
      match decode_rune s with
      | None => []
      | Some (r, n) => (r, str_take n s) :: runes_fuel fuel' (str_drop n s)
      end
  end.
Definition runes (s : string) : list (Z * string) := runes_fuel (String.length s) s.

Lemma decode_rune_width s r n : decode_rune s = Some (r, n) -> (1 <= n <= 4)%nat.
Proof.
  unfold decode_rune. destruct s as [| a s]; [done |]. intros H.
  repeat break_match_in H; injection H as <- <-; lia.
Qed.

Lemma cont_between_some s i lo hi v :
  128 <= lo -> hi <= 191 -> cont_between s i lo hi = Some v ->
  exists c, str_index s i = Some c /\ lo <= byte_val c <= hi /\ v = byte_val c - 128.
Proof.
  unfold cont_between. intros Hlo Hhi H. destruct (str_index s i) as [c |]; [| done].
  exists c. break_match_in H; [| done]. bool_hyps. injection H as <-. split_and!; [done | lia.. |].
  symmetry. apply Z.mod_unique with 2; lia.
Qed.

(** A code point is one ASCII byte, or its bytes are all above ASCII. *)
Lemma decode_rune_bytes s r n :
  decode_rune s = Some (r, n) ->
  (exists a, str_take n s = String a "" /\ byte_val a = r /\ r < 128) \/
  (128 <= r /\ str_forallb (fun c => 128 <=? byte_val c) (str_take n s) = true).
Proof.
  unfold decode_rune. destruct s as [| a s]; [done |]. intros H.
  destruct (byte_val a <? 128) eqn:Ha; [injection H as <- <-; left; exists a; split_and!; [by destruct s | done | lia] |].
  right. pose proof (byte_val_range a). bool_hyps.
  assert (Hhi : (128 <=? byte_val a) = true) by lia.
  assert (H1 : 128 <= rune_error /\ str_forallb (fun c => 128 <=? byte_val c) (str_take 1 (String a s)) = true)
    by (split; [unfold rune_error; lia | destruct s; simpl; by rewrite Hhi]).
  repeat break_match_in H; injection H as <- <-; try exact H1; bool_hyps;
    repeat match goal with E : cont_between _ _ _ _ = Some ?v |- _ =>
      apply cont_between_some in E as (? & ? & ? & ->); [| first [lia | case_match; lia].. ] end;
    (split; [lia |]).
  all: simpl in *; destruct s as [| ? s]; [done |]; simpl in *; simplify_eq.
  all: try (destruct s as [| ? s]; [done |]; simpl in *; simplify_eq).
  all: try (destruct s as [| ? s]; [done |]; simpl in *; simplify_eq).
  all: simpl; lia.
Qed.

(** What holds of every rune decoded from somewhere holds of all of [runes s]. *)
Lemma runes_all (P : Z * string -> Prop) s :
  (forall t r n, decode_rune t = Some (r, n) -> P (r, str_take n t)) -> Forall P (runes s).
Proof.
  intros HP. unfold runes. generalize (String.length s) as fuel. intros fuel. revert s.
  induction fuel as [| fuel IH]; intros s; simpl; [constructor |].
  destruct (decode_rune s) as [[r n] |] eqn:E; constructor; [by apply HP | apply IH].
Qed.

(** [strings.TrimRight(s, " ")]. *)
Fixpoint trim_right_spaces (s : string) : string :=
  match s with
  | EmptyString => EmptyString
  | String a s' =>
      let t := trim_right_spaces s' in
      if String.eqb t "" && Ascii.eqb a " " then EmptyString else String a t
  end.

Lemma trim_right_spaces_len s : str_len (trim_right_spaces s) <= str_len s.
Proof.
  unfold str_len. induction s as [| a s IH]; simpl; [done |].
  destruct (String.eqb _ _ && _); simpl; lia.
Qed.

(** [unicode.IsSpace]. *)
Definition is_space (r : Z) : bool :=
  ((9 <=? r) && (r <=? 13)) || (r =? 32) || (r =? 133) || (r =? 160) || (r =? 5760) ||
  ((8192 <=? r) && (r <=? 8202)) || (r =? 8232) || (r =? 8233) || (r =? 8239) ||
  (r =? 8287) || (r =? 12288).

(** [strings.TrimSpace(s) == ""]. *)
Definition blank (s : string) : bool := forallb (fun x => is_space (fst x)) (runes s).

(** ** Decimal numbers: [%d] of an [int], [strconv.Itoa]. *)
Fixpoint digits_fuel (fuel : nat) (n : Z) (acc : string) : string :=
  match fuel with
  | O => acc
  | S fuel' =>
      let acc := String (digit_char (n mod 10)) acc in
      if n <? 10 then acc else digits_fuel fuel' (n / 10) acc
  end.
(** A number below [2^64] has at most 20 digits. *)
Definition itoa (n : Z) : string :=
  if n <? 0 then "-" +:+ digits_fuel 20 (- n) "" else digits_fuel 20 n "".

Lemma is_digit_digit_char d : 0 <= d <= 9 -> is_digit (digit_char d) = true.
Proof. intros H. unfold is_digit. rewrite byte_val_digit_char by lia. lia. Qed.

Lemma digits_fuel_forallb (f : ascii -> bool) fuel n acc :
  (forall d, 0 <= d <= 9 -> f (digit_char d) = true) ->
  str_forallb f acc = true -> str_forallb f (digits_fuel fuel n acc) = true.
Proof.
  intros Hf. revert n acc. induction fuel as [| fuel IH]; intros n acc Hacc; simpl; [done |].
  pose proof (Z.mod_pos_bound n 10 ltac:(lia)) as Hm.
  destruct (n <? 10); simpl; [| apply IH; simpl]; rewrite Hf, Hacc by lia; done.
Qed.

(** No byte of a printed number is a line break. *)
Lemma itoa_forallb (f : ascii -> bool) n :
  (forall d, 0 <= d <= 9 -> f (digit_char d) = true) -> f "-"%char = true ->
  str_forallb f (itoa n) = true.
Proof.
  intros Hf Hm. unfold itoa. destruct (n <? 0).
  - rewrite str_forallb_app. simpl (str_forallb f "-"). rewrite Hm. by apply digits_fuel_forallb.
  - by apply digits_fuel_forallb.
Qed.
