(* ===== verification/GoJson.v ===== *)
(** Package [encoding/json] as the components use it: the scanner that validates a
    document byte by byte, [json.Compact], [json.Valid], and the encoding of a string. *)
From S2P Require Import Prelude GoText.
From Stdlib Require Import Ascii.

(** ** The scanner *)
Inductive parse_state := ParseObjectKey | ParseObjectValue | ParseArrayValue.
Inductive scan_state :=
  | SBeginValueOrEmpty | SBeginValue | SBeginStringOrEmpty | SBeginString | SEndValue | SEndTop
  | SInString | SInStringEsc | SInStringEscU (n : nat)
  | SNeg | S1 | S0 | SDot | SDot0 | SE | SESign | SE0
  | SLiteral (rest : string).

(** What one byte gives: an error, or whether the byte belongs to the value (white space
    between tokens does not) with the next state. *)
Definition scan_result := option (bool * scan_state * list parse_state).

Definition json_space (c : ascii) : bool :=
  Ascii.eqb c " " || Ascii.eqb c (ascii_of_N 9) || Ascii.eqb c (ascii_of_N 10) || Ascii.eqb c (ascii_of_N 13).
Definition is_quote (c : ascii) : bool := byte_val c =? 34.
Definition is_backslash (c : ascii) : bool := byte_val c =? 92.
Definition is_hex (c : ascii) : bool :=
  is_digit c || byte_between (Some c) "a" "f" || byte_between (Some c) "A" "F".
Definition is_exp (c : ascii) : bool := Ascii.eqb c "e" || Ascii.eqb c "E".

(** [maxNestingDepth] of the package. *)
Definition push (next : scan_state) (p : parse_state) (stack : list parse_state) : scan_result :=
  if Z.of_nat (length stack) + 1 <=? 10000 then Some (true, next, p :: stack) else None.
Definition pop (stack : list parse_state) : scan_result :=
  match stack with
  | _ :: [] => Some (true, SEndTop, [])
  | _ :: rest => Some (true, SEndValue, rest)
  | [] => None
  end.

Definition scan_end_value (stack : list parse_state) (c : ascii) : scan_result :=
  match stack with
  | [] => if json_space c then Some (false, SEndTop, []) else None
  | top :: rest =>
      if json_space c then Some (false, SEndValue, stack)
      else
        match top with
        | ParseObjectKey => if Ascii.eqb c ":" then Some (true, SBeginValue, ParseObjectValue :: rest) else None
        | ParseObjectValue =>
            if Ascii.eqb c "," then Some (true, SBeginString, ParseObjectKey :: rest)
            else if Ascii.eqb c "}" then pop stack else None
        | ParseArrayValue =>
            if Ascii.eqb c "," then Some (true, SBeginValue, stack)
            else if Ascii.eqb c "]" then pop stack else None
        end
  end.

Definition scan_begin_value (stack : list parse_state) (c : ascii) : scan_result :=
  if json_space c then Some (false, SBeginValue, stack)
  else if Ascii.eqb c "{" then push SBeginStringOrEmpty ParseObjectKey stack
  else if Ascii.eqb c "[" then push SBeginValueOrEmpty ParseArrayValue stack
  else if is_quote c then Some (true, SInString, stack)
  else if Ascii.eqb c "-" then Some (true, SNeg, stack)
  else if Ascii.eqb c "0" then Some (true, S0, stack)
  else if is_digit c then Some (true, S1, stack)
  else if Ascii.eqb c "t" then Some (true, SLiteral "rue", stack)
  else if Ascii.eqb c "f" then Some (true, SLiteral "alse", stack)
  else if Ascii.eqb c "n" then Some (true, SLiteral "ull", stack)
  else None.

Definition scan_begin_string (stack : list parse_state) (c : ascii) : scan_result :=
  if json_space c then Some (false, SBeginString, stack)
  else if is_quote c then Some (true, SInString, stack) else None.

Definition scan_zero (stack : list parse_state) (c : ascii) : scan_result :=
  if Ascii.eqb c "." then Some (true, SDot, stack)
  else if is_exp c then Some (true, SE, stack)
  else scan_end_value stack c.

Definition scan_esign (stack : list parse_state) (c : ascii) : scan_result :=
  if is_digit c then Some (true, SE0, stack) else None.

Definition scan_step (st : scan_state) (stack : list parse_state) (c : ascii) : scan_result :=
  match st with
  | SBeginValueOrEmpty =>
      if json_space c then Some (false, SBeginValueOrEmpty, stack)
      else if Ascii.eqb c "]" then scan_end_value stack c else scan_begin_value stack c
  | SBeginValue => scan_begin_value stack c
  | SBeginStringOrEmpty =>
      if json_space c then Some (false, SBeginStringOrEmpty, stack)
      else if Ascii.eqb c "}" then scan_end_value (ParseObjectValue :: tail stack) c
      else scan_begin_string stack c
  | SBeginString => scan_begin_string stack c
  | SEndValue => scan_end_value stack c
  | SEndTop => if json_space c then Some (false, SEndTop, stack) else None
  | SInString =>
      if is_quote c then Some (true, SEndValue, stack)
      else if is_backslash c then Some (true, SInStringEsc, stack)
      else if byte_val c <? 32 then None
      else Some (true, SInString, stack)
  | SInStringEsc =>
      if is_quote c || is_backslash c || Ascii.eqb c "/" || Ascii.eqb c "b" || Ascii.eqb c "f" ||
         Ascii.eqb c "n" || Ascii.eqb c "r" || Ascii.eqb c "t"
      then Some (true, SInString, stack)
      else if Ascii.eqb c "u" then Some (true, SInStringEscU 3, stack) else None
  | SInStringEscU n =>
      if is_hex c then
        Some (true, match n with O => SInString | S n => SInStringEscU n end, stack)
      else None
  | SNeg =>
      if Ascii.eqb c "0" then Some (true, S0, stack)
      else if is_digit c then Some (true, S1, stack) else None
  | S1 => if is_digit c then Some (true, S1, stack) else scan_zero stack c
  | S0 => scan_zero stack c
  | SDot => if is_digit c then Some (true, SDot0, stack) else None
  | SDot0 =>
      if is_digit c then Some (true, SDot0, stack)
      else if is_exp c then Some (true, SE, stack) else scan_end_value stack c
  | SE => if Ascii.eqb c "+" || Ascii.eqb c "-" then Some (true, SESign, stack) else scan_esign stack c
  | SESign => scan_esign stack c
  | SE0 => if is_digit c then Some (true, SE0, stack) else scan_end_value stack c
  | SLiteral rest =>
      match rest with
      | String a rest' =>
          if Ascii.eqb c a then
            Some (true, match rest' with EmptyString => SEndValue | _ => SLiteral rest' end, stack)
          else None
      | EmptyString => None
      end
  end.

(** [scan.eof()]: the value is complete. *)
Definition scan_eof (st : scan_state) (stack : list parse_state) : bool :=
  match st with
  | SEndTop => true
  | _ => match scan_step st stack " " with Some (_, SEndTop, _) => true | _ => false end
  end.

Fixpoint compact_from (st : scan_state) (stack : list parse_state) (s : string) : option string :=
  match s with
  | EmptyString => if scan_eof st stack then Some "" else None
  | String c s' =>
      match scan_step st stack c with
      | None => None
      | Some (keep, st', stack') =>
          match compact_from st' stack' s' with
          | None => None
          | Some out => Some (if keep then String c out else out)
          end
      end
  end.

(** [json.Compact]: [None] is the error. *)
Definition json_compact (s : string) : option string := compact_from SBeginValue [] s.
Definition json_valid (s : string) : bool := match json_compact s with Some _ => true | None => false end.

(** Examples are written with single quotes for double ones. *)
Fixpoint dq (s : string) : string :=
  match s with
  | EmptyString => EmptyString
  | String c s' => String (if Ascii.eqb c "'" then ascii_of_N 34 else c) (dq s')
  end.
Example compact_1 : json_compact (dq "{ 'a' : [ 1.5e3 , true,null ] } ") = Some (dq "{'a':[1.5e3,true,null]}").
Proof. reflexivity. Qed.
Example compact_2 : map json_compact [dq "{'a':1,}"; "01"; ""; " 7"; "{} {}"; "[1"; "-"]
  = [None; None; None; Some "7"; None; None; None].
Proof. reflexivity. Qed.
Example compact_3 : json_compact (dq "['\u00e9\n', -0.1E+2 ,[],{} ]") = Some (dq "['\u00e9\n',-0.1E+2,[],{}]").
Proof. reflexivity. Qed.

(** ** Encoding a string

    [Encoder.Encode(s)] with [SetEscapeHTML(false)], without the line break it ends with. *)
Definition hex_char (d : Z) : ascii := if d <? 10 then digit_char d else ascii_of_N (Z.to_N (87 + d)).
Definition escape_u4 (r : Z) : string :=
  "\u" +:+ String (hex_char (r / 4096)) (String (hex_char (r / 256 mod 16))
    (String (hex_char (r / 16 mod 16)) (String (hex_char (r mod 16)) ""))).

Definition encode_rune (r : Z) (bytes : string) : string :=
  if (r =? 34) || (r =? 92) then "\" +:+ bytes
  else if r =? 8 then "\b" else if r =? 12 then "\f" else if r =? 10 then "\n"
  else if r =? 13 then "\r" else if r =? 9 then "\t"
  else if r <? 32 then escape_u4 r
  else if (r =? rune_error) && (str_len bytes =? 1) then "\ufffd"
  else if (r =? 8232) || (r =? 8233) then escape_u4 r
  else bytes.

Definition dquote : string := String (ascii_of_N 34) EmptyString.
Definition json_string (s : string) : string :=
  dquote +:+ str_concat (map (fun x => encode_rune (fst x) (snd x)) (runes s)) +:+ dquote.

Example json_string_1 : json_string (dq "a'b\é") = dq "'a\'b\\é'".
Proof. vm_compute. reflexivity. Qed.
Example json_string_2 : json_string (String (ascii_of_N 10) (String (ascii_of_N 1) (String (ascii_of_N 255) "x")))
  = dq "'\n\u0001\ufffdx'".
Proof. vm_compute. reflexivity. Qed.

(** ** No line breaks *)
Definition not_newline (c : ascii) : bool := negb (Ascii.eqb (ascii_of_N 10) c).
Abbreviation one_line s := (str_forallb not_newline s).

(** The literals the scanner expects have no line break. *)
Definition literal_ok (st : scan_state) : bool :=
  match st with SLiteral rest => one_line rest | _ => true end.

Lemma scan_end_value_ok stack c keep st stack' :
  scan_end_value stack c = Some (keep, st, stack') ->
  literal_ok st = true /\ (c = ascii_of_N 10 -> keep = false).
Proof.
  unfold scan_end_value, pop. intros H.
  assert (Hs : c = ascii_of_N 10 -> json_space c = true) by (by intros ->).
  repeat break_match_in H; simplify_eq; split; try done; intros Hc; specialize (Hs Hc); congruence.
Qed.

Lemma scan_begin_value_ok stack c keep st stack' :
  scan_begin_value stack c = Some (keep, st, stack') ->
  literal_ok st = true /\ (c = ascii_of_N 10 -> keep = false).
Proof.
  unfold scan_begin_value, push. intros H.
  assert (Hs : c = ascii_of_N 10 -> json_space c = true) by (by intros ->).
  repeat break_match_in H; simplify_eq; split; try done; intros Hc; specialize (Hs Hc); congruence.
Qed.

Lemma scan_step_ok st stack c keep st' stack' :
  literal_ok st = true -> scan_step st stack c = Some (keep, st', stack') ->
  literal_ok st' = true /\ (c = ascii_of_N 10 -> keep = false).
Proof.
  intros Hl H.
  destruct st as [ | | | | | | | | n | | | | | | | | | rest]; simpl in H;
    unfold scan_begin_string, scan_zero, scan_esign in H;
    try (destruct rest as [| a rest]; [done |]; simpl in Hl; bool_hyps);
    repeat (first [ exact (scan_end_value_ok _ _ _ _ _ H) | exact (scan_begin_value_ok _ _ _ _ _ H) | break_match_in H ]);
    simplify_eq; split; try done; intros ->; try done.
  all: try match goal with E : Ascii.eqb _ ?a = true |- _ => apply Ascii.eqb_eq in E; subst a end; done.
Qed.

Lemma compact_from_one_line st stack s out :
  literal_ok st = true -> compact_from st stack s = Some out -> one_line out = true.
Proof.
  revert st stack out. induction s as [| c s IH]; intros st stack out Hl H; simpl in H.
  - destruct (scan_eof st stack); by simplify_eq.
  - destruct (scan_step st stack c) as [[[keep st'] stack'] |] eqn:E; [| done].
    destruct (scan_step_ok _ _ _ _ _ _ Hl E) as [Hl' Hk].
    destruct (compact_from st' stack' s) as [out' |] eqn:E'; [| done].
    specialize (IH _ _ _ Hl' E'). simplify_eq. destruct keep; [| done]. simpl.
    rewrite IH, andb_true_r. unfold not_newline. apply negb_true_iff, Ascii.eqb_neq.
    intros <-. by specialize (Hk eq_refl).
Qed.

(** What [json.Compact] writes is on one line. *)
Lemma json_compact_one_line s out : json_compact s = Some out -> one_line out = true.
Proof. by apply compact_from_one_line. Qed.


Lemma hex_char_not_newline d : 0 <= d < 16 -> not_newline (hex_char d) = true.
Proof.
  intros H. assert (d = 0 \/ d = 1 \/ d = 2 \/ d = 3 \/ d = 4 \/ d = 5 \/ d = 6 \/ d = 7 \/ d = 8 \/
    d = 9 \/ d = 10 \/ d = 11 \/ d = 12 \/ d = 13 \/ d = 14 \/ d = 15) as E by lia.
  by repeat destruct E as [-> | E]; subst.
Qed.

Lemma escape_u4_one_line r : 0 <= r < 65536 -> one_line (escape_u4 r) = true.
Proof.
  intros H. unfold escape_u4. rewrite str_forallb_app. simpl.
  assert (0 <= r / 4096 < 16) by (split; [apply Z.div_pos | apply Z.div_lt_upper_bound]; lia).
  rewrite !hex_char_not_newline; try done; apply Z.mod_pos_bound; lia.
Qed.

Lemma encode_rune_one_line t r n :
  decode_rune t = Some (r, n) -> one_line (encode_rune r (str_take n t)) = true.
Proof.
  intros H. unfold encode_rune.
  assert (Hb : r <> 10 -> one_line (str_take n t) = true).
  { intros Hr. apply decode_rune_bytes in H as [(a & -> & <- & _) | [_ H]].
    - simpl. rewrite andb_true_r. unfold not_newline. apply negb_true_iff, Ascii.eqb_neq.
      by intros <-.
    - eapply str_forallb_impl; [| done]. intros c Hc. apply negb_true_iff, Ascii.eqb_neq.
      intros <-. done. }
  assert (Hp : 0 <= r).
  { apply decode_rune_bytes in H as [(a & _ & <- & _) | [H _]]; [apply byte_val_range | lia]. }
  repeat (case_match; bool_hyps; try done); rewrite ?str_forallb_app, ?Hb by lia; try done;
    try (apply escape_u4_one_line; lia).
Qed.

(** A JSON string is on one line, whatever it encodes. *)
Lemma json_string_one_line s : one_line (json_string s) = true.
Proof.
  unfold json_string. rewrite !str_forallb_app, str_forallb_concat.
  rewrite (proj2 (forallb_forall _ _)); [done |]. intros x (y & <- & Hy)%in_map_iff.
  pose proof (runes_all (fun x => one_line (encode_rune (fst x) (snd x)) = true) s) as HF.
  rewrite List.Forall_forall in HF. apply HF; [| done]. intros t r n Ht. by apply (encode_rune_one_line t).
Qed.
