(* ===== verification/Effects.v ===== *)
(** Effects: Go's (value, error) results, database statements that may fail, transactions,
    and programs whose atomic operations interleave with those of other goroutines. *)
From S2P Require Import Prelude.

(** * Results *)
Inductive result (E A : Type) : Type :=
  | Ok (a : A)
  | Err (e : E).
Arguments Ok {E A} a.
Arguments Err {E A} e.

Definition is_ok {E A} (r : result E A) : bool :=
  match r with Ok _ => true | Err _ => false end.

(** * Database access

    A statement can succeed, fail without effect, or (a connection lost while waiting for
    the answer) be applied and still report an error. Which of the three happens is not the
    program's choice: [w_faults] says it for the statements to come, in order, and every
    theorem is about all such lists. An exhausted list means no more failures. *)
Inductive fault := NoFault | FailBefore | FailAfter.

Record world (D : Type) := World { w_data : D; w_faults : list fault }.
Arguments World {D} w_data w_faults.
Arguments w_data {D} w.
Arguments w_faults {D} w.

Definition next_fault (fs : list fault) : fault * list fault :=
  match fs with [] => (NoFault, []) | f :: fs' => (f, fs') end.

Definition Db (D A : Type) : Type := world D -> A * world D.

#[global] Instance db_ret D : MRet (Db D) := fun A a w => (a, w).
#[global] Instance db_bind D : MBind (Db D) :=
  fun A B f m w => let '(a, w') := m w in f a w'.

(** The error a failed statement reports, in a component's own type of errors. *)
Class DbErr (E : Type) := db_err : E.

Section Statements.
Context {D E : Type} `{!DbErr E}.

(** One statement: [f] is what it does to the data and the error it may itself raise
    (no such row, a unique violation). *)
Definition exec {A} (f : D -> result E A * D) : Db D (result E A) := fun w =>
  match next_fault (w_faults w) with
  | (NoFault, fs) => let '(r, d) := f (w_data w) in (r, World d fs)
  | (FailBefore, fs) => (Err db_err, World (w_data w) fs)
  | (FailAfter, fs) => (Err db_err, World (snd (f (w_data w))) fs)
  end.

Definition query {A} (f : D -> result E A) : Db D (result E A) := exec (fun d => (f d, d)).

(** [if err != nil { return err }] *)
Definition try_bind {A B} (m : Db D (result E A)) (k : A -> Db D (result E B)) : Db D (result E B) :=
  r ← m; match r with Ok a => k a | Err e => mret (Err e) end.

(** [db.Transaction(body)]: an error of the body rolls everything back; the commit is a
    statement of its own and can fail like any other. *)
Definition transaction {A} (body : Db D (result E A)) : Db D (result E A) := fun w =>
  let '(r, w') := body w in
  match r with
  | Err e => (Err e, World (w_data w) (w_faults w'))
  | Ok a =>
      match next_fault (w_faults w') with
      | (NoFault, fs) => (Ok a, World (w_data w') fs)
      | (FailBefore, fs) => (Err db_err, World (w_data w) fs)
      | (FailAfter, fs) => (Err db_err, World (w_data w') fs)
      end
  end.

(** A transaction leaves the data as it was or as its body, having succeeded, made it. *)
Lemma transaction_all_or_nothing {A} (body : Db D (result E A)) w r w' :
  transaction body w = (r, w') ->
  (w_data w' = w_data w /\ is_ok r = false) \/
  (w_data w' = w_data (snd (body w)) /\ is_ok (fst (body w)) = true).
Proof.
  unfold transaction. destruct (body w) as [[a | e] w1]; simpl.
  - destruct (next_fault (w_faults w1)) as [[] fs]; intros [= <- <-]; simpl; auto.
  - intros [= <- <-]; auto.
Qed.

Lemma transaction_ok {A} (body : Db D (result E A)) w a w' :
  transaction body w = (Ok a, w') -> exists w1, body w = (Ok a, w1) /\ w_data w' = w_data w1.
Proof.
  unfold transaction. destruct (body w) as [[b | e] w1]; [| done].
  destruct (next_fault (w_faults w1)) as [[] fs]; intros [= -> <-]; eauto.
Qed.

Lemma exec_ok {A} (f : D -> result E A * D) w a w' :
  exec f w = (Ok a, w') -> f (w_data w) = (Ok a, w_data w').
Proof.
  unfold exec. destruct (next_fault (w_faults w)) as [[] fs]; [| done..].
  destruct (f (w_data w)) as [r d]. by intros [= -> <-].
Qed.

(** Whatever happens, a statement leaves the data as it was or as it made it. *)
Lemma exec_data {A} (f : D -> result E A * D) w r w' :
  exec f w = (r, w') -> w_data w' = w_data w \/ w_data w' = snd (f (w_data w)).
Proof.
  unfold exec. destruct (next_fault (w_faults w)) as [[] fs].
  - destruct (f (w_data w)); intros [= <- <-]; auto.
  - intros [= <- <-]; auto.
  - intros [= <- <-]; auto.
Qed.

Lemma query_data {A} (f : D -> result E A) w r w' :
  query f w = (r, w') -> w_data w' = w_data w.
Proof. intros H. by apply exec_data in H as [H | H]. Qed.

Lemma exec_no_faults {A} (f : D -> result E A * D) d :
  exec f (World d []) = (fst (f d), World (snd (f d)) []).
Proof. unfold exec. simpl. by destruct (f d). Qed.
End Statements.

(** What a statement or a transaction may answer and leave behind, over all failures. *)
Definition db_sem {D E A} (m : Db D (result E A)) (d : D) (r : result E A) (d' : D) : Prop :=
  exists fs fs', m (World d fs) = (r, World d' fs').

Lemma db_sem_exec {D E A} `{!DbErr E} (f : D -> result E A * D) d r d' :
  db_sem (exec f) d r d' <-> (r, d') = f d \/ (r = Err db_err /\ (d' = d \/ d' = snd (f d))).
Proof.
  unfold db_sem, exec. split.
  - intros (fs & fs' & H). simpl in H. destruct (next_fault fs) as [[] fs0]; [| simplify_eq; auto..].
    destruct (f d) as [r0 d0]. simplify_eq. auto.
  - intros [H | [-> [-> | ->]]].
    + exists [], []. simpl. destruct (f d). by simplify_eq.
    + exists [FailBefore], []. done.
    + exists [FailAfter], []. done.
Qed.

Lemma exec_ok_sem {D E A} `{!DbErr E} (f : D -> result E A * D) d a d' :
  db_sem (exec f) d (Ok a) d' -> f d = (Ok a, d').
Proof. by intros [<- | [? _]]%db_sem_exec. Qed.

Lemma db_sem_transaction {D E A} `{!DbErr E} (m : Db D (result E A)) d r d' :
  db_sem (transaction m) d r d' ->
  (d' = d /\ is_ok r = false) \/ (exists a, db_sem m d (Ok a) d' /\ (r = Ok a \/ r = Err db_err)).
Proof.
  intros (fs & fs' & H). unfold transaction in H.
  destruct (m (World d fs)) as [[a | e] [d1 fs1]] eqn:E1; simpl in H; [| simplify_eq; auto].
  destruct (next_fault fs1) as [[] fs2] eqn:En; simplify_eq; [right; exists a; split; [by exists fs, fs1 | auto] | auto |
    right; exists a; split; [by exists fs, fs1 | auto]].
Qed.

Lemma db_sem_ret {D E A} (x : result E A) (d : D) r d' : db_sem (mret x) d r d' <-> r = x /\ d' = d.
Proof.
  split; [intros (fs & fs' & H); unfold mret, db_ret in H; by simplify_eq |].
  intros [-> ->]. by exists [], [].
Qed.

Lemma db_sem_try {D E A B} (m : Db D (result E A)) (k : A -> Db D (result E B)) d r d' :
  db_sem (try_bind m k) d r d' ->
  (exists e, db_sem m d (Err e) d' /\ r = Err e) \/
  (exists a d1, db_sem m d (Ok a) d1 /\ db_sem (k a) d1 r d').
Proof.
  intros (fs & fs' & H). unfold try_bind, mbind, db_bind in H.
  destruct (m (World d fs)) as [[a | e] [d1 fs1]] eqn:E1.
  - right. exists a, d1. split; [by exists fs, fs1 | by exists fs1, fs'].
  - left. unfold mret, db_ret in H. simplify_eq. exists e. split; [by exists fs, fs' | done].
Qed.

(** A statement of a transaction that went through. *)
Lemma db_sem_step {D E A B} `{!DbErr E} (f : D -> result E A * D) (k : A -> Db D (result E B)) d b d' :
  db_sem (try_bind (exec f) k) d (Ok b) d' -> exists a d1, f d = (Ok a, d1) /\ db_sem (k a) d1 (Ok b) d'.
Proof. intros [(e & _ & ?) | (a & d1 & Hf%exec_ok_sem & Hk)]%db_sem_try; [done |]. by exists a, d1. Qed.

Lemma db_sem_query {D E A} `{!DbErr E} (f : D -> result E A) d r d' :
  db_sem (query f) d r d' -> d' = d /\ (r = f d \/ r = Err db_err).
Proof.
  intros H. apply db_sem_exec in H as [H | [-> H]]; [simplify_eq; auto |].
  split; [by destruct H | auto].
Qed.

Lemma try_bind_ok {D E A B} (m : Db D (result E A)) (k : A -> Db D (result E B)) w b w' :
  try_bind m k w = (Ok b, w') -> exists a w1, m w = (Ok a, w1) /\ k a w1 = (Ok b, w').
Proof. unfold try_bind, mbind, db_bind. destruct (m w) as [[a | e] w1]; [by exists a, w1 | done]. Qed.

(** ** Computations that respect a relation

    [keeps R m]: whatever fails, the data [m] leaves behind is related to the data it found. *)
Definition keeps {D} (R : D -> D -> Prop) {A} (m : Db D A) : Prop := forall w x w', m w = (x, w') -> R (w_data w) (w_data w').

Section Keeps.
Context {D E : Type} `{!DbErr E} (R : D -> D -> Prop) `{!PreOrder R}.

Lemma keeps_ret {A} (a : A) : keeps R (mret a).
Proof. intros w x w' [= <- <-]. reflexivity. Qed.
Lemma keeps_bind {A B} (m : Db D A) (k : A -> Db D B) : keeps R m -> (forall a, keeps R (k a)) -> keeps R (m ≫= k).
Proof.
  intros Hm Hk w x w'. unfold mbind, db_bind. destruct (m w) as [a w1] eqn:E1. intros E2.
  etrans; [by eapply Hm | by eapply Hk].
Qed.
Lemma keeps_exec {A} (f : D -> result E A * D) : (forall s, R s (snd (f s))) -> keeps R (exec f).
Proof. intros H w x w' [-> | ->]%exec_data; [reflexivity | apply H]. Qed.
Lemma keeps_query {A} (f : D -> result E A) : keeps R (query f).
Proof. intros w x w' ->%query_data. reflexivity. Qed.
Lemma keeps_try {A B} (m : Db D (result E A)) (k : A -> Db D (result E B)) :
  keeps R m -> (forall a, keeps R (k a)) -> keeps R (try_bind m k).
Proof. intros Hm Hk. apply keeps_bind; [done |]. intros [a | e]; [done | apply keeps_ret]. Qed.
Lemma keeps_transaction {A} (m : Db D (result E A)) : keeps R m -> keeps R (transaction m).
Proof.
  intros Hm w x w' [[-> _] | [-> _]]%transaction_all_or_nothing; [reflexivity |]. destruct (m w) as [r w1] eqn:E1. by eapply Hm.
Qed.
Lemma keeps_sem {A} (m : Db D (result E A)) s r s' : keeps R m -> db_sem m s r s' -> R s s'.
Proof. intros H (fs & fs' & E1). exact (H _ _ _ E1). Qed.
End Keeps.
#[export] Hint Resolve keeps_ret keeps_query keeps_transaction : whatc.

Ltac solve_keeps :=
  repeat match goal with
  | |- keeps _ (try_bind _ _) => apply keeps_try; [apply _ | |]
  | |- keeps _ (_ ≫= _) => apply keeps_bind; [apply _ | |]
  | |- forall _, keeps _ _ => intros ?
  | |- keeps _ (mret _) => apply keeps_ret; apply _
  | |- keeps _ (query _) => apply keeps_query; apply _
  | |- keeps _ (transaction _) => apply keeps_transaction; [apply _ |]
  | |- keeps _ (match ?x with _ => _ end) => destruct x
  | |- keeps _ (if ?x then _ else _) => destruct x
  | |- keeps _ _ => solve [auto with whatc]
  end.

Notation "x ←? m ; k" := (try_bind m (fun x => k))
  (at level 20, m at level 100, k at level 200, only parsing) : stdpp_scope.
Notation "' x ←? m ; k" := (try_bind m (fun x => k))
  (at level 20, x pattern, m at level 100, k at level 200, only parsing) : stdpp_scope.

(** * Programs

    A goroutine as a tree of atomic operations [Op X] (one database statement or
    transaction, one call of a port). [prog_run] is the goroutine running alone;
    [pool_step] interleaves any number of them, one operation at a time, and lets any of
    them stop for good between two operations (a crash of its process). *)
Inductive prog (Op : Type -> Type) (A : Type) : Type :=
  | Ret (a : A)
  | Do {X : Type} (op : Op X) (k : X -> prog Op A).
Arguments Ret {Op A} a.
Arguments Do {Op A X} op k.

Fixpoint prog_bind {Op A B} (f : A -> prog Op B) (p : prog Op A) : prog Op B :=
  match p with
  | Ret a => f a
  | Do op k => Do op (fun x => prog_bind f (k x))
  end.
#[global] Instance prog_mret Op : MRet (prog Op) := fun A a => Ret a.
#[global] Instance prog_mbind Op : MBind (prog Op) := fun A B f p => prog_bind f p.

(** The program of a component run by a larger one, whose operations include its own. *)
Fixpoint prog_lift {Op Op' : Type -> Type} (f : forall X, Op X -> Op' X) {A} (p : prog Op A) : prog Op' A :=
  match p with
  | Ret a => Ret a
  | Do op k => Do (f _ op) (fun x => prog_lift f (k x))
  end.

Definition call {Op : Type -> Type} {X : Type} (op : Op X) : prog Op X := Do op Ret.

(** A step of a request that answers it when it fails. *)
Definition or_refuse {Op : Type -> Type} {R A B} (p : prog Op (A + R)) (k : A -> prog Op (B + R)) : prog Op (B + R) :=
  r ← p; match r with inl a => k a | inr e => mret (inr e) end.
Definition answering {Op : Type -> Type} {R A} (p : prog Op (A + R)) (k : A -> prog Op R) : prog Op R :=
  r ← p; match r with inl a => k a | inr e => mret e end.
Notation "x ←! p ; k" := (answering p (fun x => k)) (at level 20, p at level 100, k at level 200, only parsing) : stdpp_scope.
Notation "' x ←! p ; k" := (answering p (fun x => k)) (at level 20, x pattern, p at level 100, k at level 200, only parsing) : stdpp_scope.

Section Programs.
Context {Op : Type -> Type} {S : Type}.

(** A goroutine running alone against operations that compute: [handle] says what one does
    to the shared state. *)
Fixpoint prog_run {A} (handle : forall X, Op X -> S -> X * S) (p : prog Op A) (s : S) : A * S :=
  match p with
  | Ret a => (a, s)
  | Do op k => let '(x, s') := handle _ op s in prog_run handle (k x) s'
  end.

Lemma prog_run_bind {A B} handle (p : prog Op A) (f : A -> prog Op B) s :
  prog_run handle (p ≫= f) s = let '(a, s') := prog_run handle p s in prog_run handle (f a) s'.
Proof.
  revert s. induction p as [a | X op k IH]; intros s; simpl; [done |].
  destruct (handle X op s). apply IH.
Qed.

(** What one operation may answer and do to the shared state: the rest of the world (other
    services, the clock, failures) makes it a relation. *)
Context (sem : forall X, Op X -> S -> X -> S -> Prop).

(** The goroutines in flight, all with results of type [A]. One that has not started yet is
    one that has not made its first operation. *)
Inductive pool_step {A} : S * list (prog Op A) -> S * list (prog Op A) -> Prop :=
  | step_op s pre X (op : Op X) k post x s' :
      sem X op s x s' ->
      pool_step (s, pre ++ Do op k :: post) (s', pre ++ k x :: post)
  | step_crash s pre p post :
      pool_step (s, pre ++ p :: post) (s, pre ++ post).

Definition pool_steps {A} := rtc (@pool_step A).

(** Rule induction for an invariant of the interleavings. *)
Lemma pool_invariant {A} (I : S * list (prog Op A) -> Prop) c c' :
  (forall c1 c2, I c1 -> pool_step c1 c2 -> I c2) -> pool_steps c c' -> I c -> I c'.
Proof. intros Hstep. induction 1; eauto. Qed.

(** An invariant of the state alone: every operation preserves it. *)
Lemma pool_state_invariant {A} (I : S -> Prop) c c' :
  (forall X (op : Op X) s x s', sem X op s x s' -> I s -> I s') ->
  @pool_steps A c c' -> I (fst c) -> I (fst c').
Proof.
  intros Hsem. apply (pool_invariant (fun c => I (fst c))).
  intros c1 c2 HI Hstep. inversion Hstep; subst; simpl in *; eauto.
Qed.

(** A relation between the states before and after that every operation respects. *)
Lemma pool_state_relation {A} (R : S -> S -> Prop) `{!PreOrder R} (c c' : S * list (prog Op A)) :
  (forall X (op : Op X) s x s', sem X op s x s' -> R s s') ->
  pool_steps c c' -> R (fst c) (fst c').
Proof.
  intros Hsem. induction 1 as [c | c1 c2 c3 Hstep _ IH]; [reflexivity |].
  transitivity (fst c2); [| done]. inversion Hstep; subst; simpl; [by eapply Hsem | reflexivity].
Qed.

(** Running a goroutine alone is one of the interleavings. *)
Lemma prog_run_steps {A} handle (p : prog Op A) s a s' :
  (forall X (op : Op X) s, sem X op s (fst (handle X op s)) (snd (handle X op s))) ->
  prog_run handle p s = (a, s') -> pool_steps (s, [p]) (s', [Ret a]).
Proof.
  intros Hsem. revert s. induction p as [b | X op k IH]; intros s H; simpl in H.
  - injection H as -> ->. constructor.
  - pose proof (Hsem X op s) as Hs. destruct (handle X op s) as [x s1].
    eapply rtc_l; [| by apply (IH x)]. by apply (step_op s [] X op k [] x s1).
Qed.
End Programs.

(** ** The operations of a program

    [only P p]: whatever it is answered, every operation of [p] satisfies [P]. *)
Fixpoint only {Op : Type -> Type} (P : forall X, Op X -> Prop) {A} (p : prog Op A) : Prop :=
  match p with
  | Ret a => True
  | Do op k => P _ op /\ forall x, only P (k x)
  end.

Lemma only_bind {Op : Type -> Type} (P : forall X, Op X -> Prop) {A B} (p : prog Op A) (f : A -> prog Op B) :
  only P p -> (forall a, only P (f a)) -> only P (p ≫= f).
Proof. intros Hp Hf. induction p as [a | X op k IH]; simpl in *; [apply Hf |]. destruct Hp. split; [done |]. intros x. by apply IH. Qed.
Lemma only_mono {Op : Type -> Type} (P Q : forall X, Op X -> Prop) {A} (p : prog Op A) :
  (forall X (op : Op X), P X op -> Q X op) -> only P p -> only Q p.
Proof. intros H. induction p as [a | X op k IH]; simpl; [done |]. intros [Hop Hk]. split; [by apply H |]. intros x. by apply IH. Qed.

(** ** One goroutine running alone, over all answers and failures: how it may end. *)
Fixpoint runs {Op : Type -> Type} {S : Type} (sem : forall X, Op X -> S -> X -> S -> Prop) {A} (p : prog Op A) (s : S) (a : A) (s' : S) : Prop :=
  match p with
  | Ret b => b = a /\ s' = s
  | Do op k => exists x s1, sem _ op s x s1 /\ runs sem (k x) s1 a s'
  end.
Section Runs.
Context {Op : Type -> Type} {S : Type} (sem : forall X, Op X -> S -> X -> S -> Prop).

Lemma runs_bind {A B} (p : prog Op A) (f : A -> prog Op B) s b s' :
  runs sem (p ≫= f) s b s' -> exists a s1, runs sem p s a s1 /\ runs sem (f a) s1 b s'.
Proof.
  revert s. induction p as [a | X op k IH]; intros s; simpl; [by exists a, s |].
  intros (x & s1 & Hop & H). apply IH in H as (a & s2 & H1 & H2). exists a, s2. split; [by exists x, s1 | done].
Qed.
Lemma runs_call_bind {X B} (op : Op X) (f : X -> prog Op B) s b s' :
  runs sem (call op ≫= f) s b s' -> exists x s1, sem X op s x s1 /\ runs sem (f x) s1 b s'.
Proof. done. Qed.
(** A relation every allowed operation respects relates the ends of a run. *)
Lemma runs_relation {A} (R : S -> S -> Prop) `{!PreOrder R} (P : forall X, Op X -> Prop) (p : prog Op A) s a s' :
  (forall X (op : Op X) s x s', P X op -> sem X op s x s' -> R s s') ->
  only P p -> runs sem p s a s' -> R s s'.
Proof.
  intros HR. revert s. induction p as [b | X op k IH]; intros s; simpl; [by intros _ [_ ->] |].
  intros [Hop Hk] (x & s1 & Hx & H). transitivity s1; [by eapply HR | by eapply IH].
Qed.
(** Running alone against operations that compute is one of these. *)
Lemma prog_run_runs {A} (handle : forall X, Op X -> S -> X * S) (p : prog Op A) s :
  (forall X (op : Op X) s, sem X op s (fst (handle X op s)) (snd (handle X op s))) ->
  runs sem p s (fst (prog_run handle p s)) (snd (prog_run handle p s)).
Proof.
  intros H. revert s. induction p as [a | X op k IH]; intros s; simpl; [done |]. pose proof (H X op s) as Hs.
  destruct (handle X op s) as [x s1]. exists x, s1. split; [done | apply IH].
Qed.
End Runs.

(** * What each goroutine guarantees the others

    [R] is what every operation may rely on between two moments, a preorder, and [I] an
    invariant. [guards p s Q]: started in a state later than [s], and whatever the others do
    that [R] and [I] allow between its operations, each operation of [p] respects them, and
    what [p] returns satisfies [Q] in the state its last operation left. *)
Section Guards.
Context {Op : Type -> Type} {S : Type} (sem : forall X, Op X -> S -> X -> S -> Prop).
Context (R : S -> S -> Prop) `{!PreOrder R} (I : S -> Prop).

Fixpoint guards {A} (p : prog Op A) (s : S) (Q : A -> S -> Prop) : Prop :=
  match p with
  | Ret a => Q a s
  | Do op k => forall s1 x s2, R s s1 -> I s1 -> sem _ op s1 x s2 -> R s1 s2 /\ I s2 /\ guards (k x) s2 Q
  end.

(** What holds of the answer has to survive the steps of others. *)
Definition stable {A} (Q : A -> S -> Prop) : Prop := forall a s s', R s s' -> Q a s -> Q a s'.

Lemma guards_later {A} (p : prog Op A) s s' Q : stable Q -> R s s' -> guards p s Q -> guards p s' Q.
Proof.
  intros HQ HR. destruct p as [a | X op k]; simpl; [by apply HQ |]. intros H s1 x s2 H1. apply H. by etrans.
Qed.
Lemma guards_mono {A} (p : prog Op A) s (Q Q' : A -> S -> Prop) : (forall a s', R s s' -> Q a s' -> Q' a s') -> guards p s Q -> guards p s Q'.
Proof.
  revert s. induction p as [a | X op k IH]; intros s HQ; simpl; [apply HQ; reflexivity |]. intros H s1 x s2 H1 H2 H3.
  destruct (H s1 x s2 H1 H2 H3) as (H4 & H5 & H6). split_and!; [done | done |]. apply (IH x s2); [| done]. intros a s' Hs'. apply HQ. do 2 (etrans; [done |]). done.
Qed.
Lemma guards_bind {A B} (p : prog Op A) (f : A -> prog Op B) s Q : guards p s (fun a s' => guards (f a) s' Q) -> guards (p ≫= f) s Q.
Proof.
  revert s. induction p as [a | X op k IH]; intros s; simpl; [done |]. intros H s1 x s2 H1 H2 H3.
  destruct (H s1 x s2 H1 H2 H3) as (H4 & H5 & H6). split_and!; [done | done |]. by apply IH.
Qed.
(** A part whose operations respect [R] and [I] at any moment. *)
Lemma guards_only {A} (P : forall X, Op X -> Prop) (p : prog Op A) s (Q : A -> S -> Prop) :
  (forall X (op : Op X) s1 x s2, P X op -> I s1 -> sem X op s1 x s2 -> R s1 s2 /\ I s2) ->
  only P p -> (forall a s', R s s' -> Q a s') -> guards p s Q.
Proof.
  intros HP. revert s. induction p as [a | X op k IH]; intros s; simpl; [intros _ H; by apply H |]. intros [Hop Hk] HQ s1 x s2 H1 H2 H3.
  destruct (HP _ _ _ _ _ Hop H2 H3) as [H4 H5]. split_and!; [done | done |]. apply IH; [done |]. intros a s' H6. apply HQ. do 2 (etrans; [done |]). done.
Qed.
(** No interleaving of such goroutines, and no crash, breaks either; what is left of the
    goroutines is such again. *)
Definition guarded_pool {A} (c : S * list (prog Op A)) : Prop := I (fst c) /\ Forall (fun p => guards p (fst c) (fun _ _ => True)) (snd c).
Lemma guards_steps {A} (c c' : S * list (prog Op A)) : pool_steps sem c c' -> guarded_pool c -> R (fst c) (fst c') /\ guarded_pool c'.
Proof.
  induction 1 as [c | c1 c2 c3 Hstep _ IH]; [by split |]. intros [HI Hps].
  destruct Hstep as [s pre X op k post x s' Hs | s pre p post]; simpl in *.
  - apply Forall_app in Hps as [Hpre [Hp Hpost]%Forall_cons]. destruct (Hp s x s') as (HR & HI' & Hk); [reflexivity | done | done |].
    destruct IH as [H1 H2]; [split; [done |] | split; [by etrans | done]].
    assert (Hl : forall l : list (prog Op A), Forall (fun p => guards p s (fun _ _ => True)) l -> Forall (fun p => guards p s' (fun _ _ => True)) l).
    { intros l Hl. eapply Forall_impl; [exact Hl |]. intros q. by apply guards_later. }
    apply Forall_app. split; [by apply Hl |]. constructor; [done | by apply Hl].
  - apply IH. split; [done |]. apply Forall_app in Hps as [Hpre [_ Hpost]%Forall_cons]. apply Forall_app. by split.
Qed.
Lemma guards_sound {A} (c c' : S * list (prog Op A)) :
  pool_steps sem c c' -> I (fst c) -> Forall (fun p => guards p (fst c) (fun _ _ => True)) (snd c) -> R (fst c) (fst c') /\ I (fst c').
Proof. intros H HI Hps. destruct (guards_steps c c' H) as [H1 [H2 _]]; [by split | by split]. Qed.
End Guards.

(** * A program logic for programs

    [ensures p g Q]: starting in ghost state [g], every operation [p] performs satisfies
    [pre] in the ghost state of that moment, and if every operation is answered as [post]
    allows (which also says how the ghost state moves), a value [p] returns satisfies [Q].
    The answers are otherwise arbitrary: they are the moves of the environment. The ghost
    state is whatever a property has to remember: nothing ([unit]), a count of operations,
    the operations so far. *)
Section Logic.
Context {Op : Type -> Type} {G : Type}.
Context (pre : forall X, Op X -> G -> Prop) (post : forall X, Op X -> G -> X -> G -> Prop).

Fixpoint ensures {A} (p : prog Op A) (g : G) (Q : A -> G -> Prop) : Prop :=
  match p with
  | Ret a => Q a g
  | Do op k => pre _ op g /\ forall x g', post _ op g x g' -> ensures (k x) g' Q
  end.

Lemma ensures_mono {A} (p : prog Op A) g (Q R : A -> G -> Prop) :
  (forall a g', Q a g' -> R a g') -> ensures p g Q -> ensures p g R.
Proof.
  intros HQR. revert g. induction p as [a | X op k IH]; intros g; simpl; [auto |].
  intros [Hpre Hk]. split; [done |]. intros x g' Hx. by apply IH, Hk.
Qed.

Lemma ensures_bind {A B} (p : prog Op A) g (f : A -> prog Op B) (Q : B -> G -> Prop) :
  ensures p g (fun a g' => ensures (f a) g' Q) -> ensures (p ≫= f) g Q.
Proof.
  revert g. induction p as [a | X op k IH]; intros g; simpl; [auto |].
  intros [Hpre Hk]. split; [done |]. intros x g' Hx. by apply IH, Hk.
Qed.

Lemma ensures_ret {A} (a : A) g (Q : A -> G -> Prop) : Q a g -> ensures (mret a) g Q.
Proof. done. Qed.

Lemma ensures_call_bind {X B} (op : Op X) g (f : X -> prog Op B) (Q : B -> G -> Prop) :
  pre _ op g -> (forall x g', post _ op g x g' -> ensures (f x) g' Q) ->
  ensures (call op ≫= f) g Q.
Proof. simpl. auto. Qed.

(** What [ensures] says of the program running alone, when the handler answers as [post]
    allows; [ghost] reads the ghost state off the handler's. *)
Lemma ensures_run {S A} (handle : forall X, Op X -> S -> X * S) (ghost : S -> G)
    (p : prog Op A) Q s :
  (forall X (op : Op X) s, post _ op (ghost s) (fst (handle X op s)) (ghost (snd (handle X op s)))) ->
  ensures p (ghost s) Q ->
  Q (fst (prog_run handle p s)) (ghost (snd (prog_run handle p s))).
Proof.
  intros Hpost. revert s. induction p as [a | X op k IH]; intros s; simpl; [auto |].
  intros [_ Hk]. pose proof (Hpost X op s) as H.
  destruct (handle X op s) as [x s'] eqn:E. apply IH, Hk, H.
Qed.
End Logic.

(** Case analysis on the next operation of a program under [ensures]. *)
Ltac ensures_op := apply ensures_call_bind; [| intros ? ? ?].

(** ** Traces

    With the list of the operations answered so far, newest first, as the ghost state, a
    precondition can ask what has to have happened before an operation. *)
Inductive event (Op : Type -> Type) : Type :=
  | Ev {X : Type} (op : Op X) (x : X).
Arguments Ev {Op X} op x.

Definition trace_post {Op : Type -> Type} X (op : Op X) (g : list (event Op)) (x : X) (g' : list (event Op)) : Prop :=
  g' = Ev op x :: g.

Lemma trace_run {Op : Type -> Type} {S A} (handle : forall X, Op X -> S -> X * S)
    pre (p : prog Op A) Q g s :
  ensures pre trace_post p g Q -> exists g', Q (fst (prog_run handle p s)) g'.
Proof.
  revert g s. induction p as [a | X op k IH]; intros g s; simpl; [eauto |].
  intros [_ Hk]. destruct (handle X op s) as [x s']. eapply IH, Hk. done.
Qed.

(** Answers that are also restricted by a contract. *)
Definition trace_contract {Op : Type -> Type} (contract : forall X, Op X -> X -> Prop) X (op : Op X)
    (g : list (event Op)) (x : X) (g' : list (event Op)) : Prop :=
  g' = Ev op x :: g /\ contract X op x.

(** A trace only grows, so what holds of every longer trace holds at the end. *)
Lemma ensures_grows {Op : Type -> Type} {A} contract (p : prog Op A) g (Q : A -> list (event Op) -> Prop) :
  (forall a l, Q a (l ++ g)) -> ensures (fun _ _ _ => True) (trace_contract contract) p g Q.
Proof.
  revert g. induction p as [a | X op k IH]; intros g H; simpl; [apply (H a []) |].
  split; [done |]. intros x g' [-> _]. apply IH. intros a l. rewrite cons_middle, app_assoc. apply H.
Qed.

(** Operations that are always allowed extend the trace and ask for nothing. *)
Lemma ensures_only {Op : Type -> Type} {A} (P : forall X, Op X -> Prop) pre contract (p : prog Op A) g (Q : A -> list (event Op) -> Prop) :
  (forall X (op : Op X) g, P X op -> pre X op g) -> only P p -> (forall a l, Q a (l ++ g)) ->
  ensures pre (trace_contract contract) p g Q.
Proof.
  intros HP. revert g. induction p as [a | X op k IH]; intros g Hp H; simpl; [apply (H a []) |]. destruct Hp as [Hop Hk].
  split; [by apply HP |]. intros x g' [-> _]. apply IH; [done |]. intros a l. rewrite cons_middle, app_assoc. apply H.
Qed.

(** [extends p g R]: as [ensures], with a trace that only grows; the form that composes. *)
Definition later {Op : Type -> Type} (g g' : list (event Op)) : Prop := exists l, g' = l ++ g.
Lemma later_in {Op : Type -> Type} (e : event Op) g g' : later g g' -> e ∈ g -> e ∈ g'.
Proof. intros [l ->] H. apply elem_of_app. by right. Qed.
#[global] Instance later_preorder Op : PreOrder (@later Op).
Proof. split; [by exists [] |]. intros g1 g2 g3 [l ->] [l' ->]. exists (l' ++ l). by rewrite app_assoc. Qed.
Lemma later_cons {Op : Type -> Type} (e : event Op) g : later g (e :: g).
Proof. by exists [e]. Qed.

Section Extends.
Context {Op : Type -> Type} (pre : forall X, Op X -> list (event Op) -> Prop) (contract : forall X, Op X -> X -> Prop).

Definition extends {A} (p : prog Op A) (g : list (event Op)) (R : A -> list (event Op) -> Prop) : Prop :=
  ensures pre (trace_contract contract) p g (fun a g' => later g g' /\ R a g').

Lemma extends_ret {A} (a : A) g (R : A -> list (event Op) -> Prop) : R a g -> extends (mret a) g R.
Proof. intros H. apply ensures_ret. by split. Qed.
Lemma extends_mono {A} (p : prog Op A) g (R R' : A -> list (event Op) -> Prop) :
  (forall a g', later g g' -> R a g' -> R' a g') -> extends p g R -> extends p g R'.
Proof. intros H. apply ensures_mono. intros a g' [H1 H2]. split; [done | by apply H]. Qed.
Lemma extends_bind {A B} (p : prog Op A) (f : A -> prog Op B) g (P : A -> list (event Op) -> Prop) R :
  extends p g P -> (forall a g', later g g' -> P a g' -> extends (f a) g' R) -> extends (p ≫= f) g R.
Proof.
  intros Hp Hf. apply ensures_bind. eapply ensures_mono; [| exact Hp]. intros a g' [H1 H2].
  eapply ensures_mono; [| by apply Hf]. intros b g'' [H3 H4]. split; [by etrans | done].
Qed.
Lemma extends_call {X B} (op : Op X) (f : X -> prog Op B) g R :
  pre _ op g -> (forall x, contract _ op x -> extends (f x) (Ev op x :: g) R) -> extends (call op ≫= f) g R.
Proof.
  intros Hpre Hf. apply ensures_call_bind; [done |]. intros x g' [-> Hx]. eapply ensures_mono; [| by apply Hf].
  intros b g' [H1 H2]. split; [| done]. etrans; [apply later_cons | exact H1].
Qed.
Lemma extends_pre (pre' : forall X, Op X -> list (event Op) -> Prop) {A} (p : prog Op A) g Q :
  (forall X (op : Op X) g, pre X op g -> pre' X op g) ->
  ensures pre (trace_contract contract) p g Q -> ensures pre' (trace_contract contract) p g Q.
Proof.
  intros H. revert g. induction p as [a | X op k IH]; intros g; [done |]. intros [H1 H2]. split; [by apply H |].
  intros x g' Hx. by apply IH, H2.
Qed.
Lemma extends_assoc {A B C} (p : prog Op A) (f : A -> prog Op B) (k : B -> prog Op C) g R :
  extends (p ≫= fun a => f a ≫= k) g R -> extends ((p ≫= f) ≫= k) g R.
Proof.
  unfold extends. generalize (fun a g' => later g g' /\ R a g') as Q. intros Q. revert g.
  induction p as [a | X op q IH]; intros g; [done |]. intros [Hpre Hq]. split; [done |]. intros x g' Hx. by apply IH, Hq.
Qed.
Lemma extends_call_end {X} (op : Op X) g R :
  pre _ op g -> (forall x, contract _ op x -> R x (Ev op x :: g)) -> extends (call op) g R.
Proof. intros H1 H2. split; [done |]. intros x g' [-> Hx]. split; [apply later_cons | by apply H2]. Qed.
Lemma extends_only {A} (P : forall X, Op X -> Prop) (p : prog Op A) g :
  (forall X (op : Op X) g, P X op -> pre X op g) -> only P p -> extends p g (fun _ _ => True).
Proof. intros HP Hp. apply (ensures_only P); [done | done |]. intros a l. split; [by exists l | done]. Qed.
Lemma extends_ensures {A} (p : prog Op A) g R : extends p g R -> ensures pre (trace_contract contract) p g (fun _ _ => True).
Proof. by apply ensures_mono. Qed.
Lemma extends_answering {A B} (p : prog Op (A + B)) (k : A -> prog Op B) g P R :
  extends p g P -> (forall a g', later g g' -> P (inl a) g' -> extends (k a) g' R) -> (forall b g', later g g' -> P (inr b) g' -> R b g') ->
  extends (answering p k) g R.
Proof. intros Hp Hk Hr. eapply extends_bind; [exact Hp |]. intros [a | b] g' Hl Hg; [by apply Hk | by apply extends_ret, Hr]. Qed.
Lemma extends_refuse {A B C} (p : prog Op (A + C)) (k : A -> prog Op (B + C)) g P R :
  extends p g P -> (forall a g', later g g' -> P (inl a) g' -> extends (k a) g' R) -> (forall c g', later g g' -> P (inr c) g' -> R (inr c) g') ->
  extends (or_refuse p k) g R.
Proof. intros Hp Hk Hr. eapply extends_bind; [exact Hp |]. intros [a | c] g' Hl Hg; [by apply Hk | by apply extends_ret, Hr]. Qed.
(** In a run whose states answer as the contract says. *)
Lemma ensures_runs {S A} (sem : forall X, Op X -> S -> X -> S -> Prop) (I : S -> Prop) (P : forall X, Op X -> Prop) (p : prog Op A) g Q s a s' :
  (forall X (op : Op X) s x s', P X op -> I s -> sem X op s x s' -> contract X op x /\ I s') ->
  only P p -> ensures pre (trace_contract contract) p g Q -> I s -> runs sem p s a s' -> I s' /\ exists g', Q a g'.
Proof.
  intros Hsem. revert g s. induction p as [b | X op k IH]; intros g s; simpl; [intros _ HQ HI [-> ->]; split; [done | by exists g] |].
  intros [Hop Hk] [_ He] HI (x & s1 & Hx & Hr). destruct (Hsem X op s x s1 Hop HI Hx) as [Hc HI1]. eapply (IH x); [apply Hk | by apply He | done | done].
Qed.
End Extends.

(** ** From what a goroutine has seen to what holds of the state

    [witnessed e s]: the answer of [e] was given in a state of the past, from which [R] leads to
    [s]. A program that performs an operation only after the events that justify it guards [R]
    and [I], if the operation does whenever these events were witnessed. *)
Section Witnessed.
Context {Op : Type -> Type} {S : Type} (sem : forall X, Op X -> S -> X -> S -> Prop).
Context (R : S -> S -> Prop) `{!PreOrder R} (I : S -> Prop) (pre : forall X, Op X -> list (event Op) -> Prop).
Context (contract : forall X, Op X -> X -> Prop) (Hcon : forall X (op : Op X) s x s', sem X op s x s' -> contract X op x).
Definition witnessed (e : event Op) (s : S) : Prop := match e with Ev op x => exists s0 s1, I s0 /\ sem _ op s0 x s1 /\ R s0 s1 /\ R s1 s end.
Lemma ensures_guards {A} (p : prog Op A) g s Q :
  (forall X (op : Op X) g s x s', pre X op g -> (forall e, e ∈ g -> witnessed e s) -> I s -> sem X op s x s' -> R s s' /\ I s') ->
  ensures pre (trace_contract contract) p g Q -> (forall e, e ∈ g -> witnessed e s) -> guards sem R I p s (fun _ _ => True).
Proof.
  intros Hstep. revert g s. induction p as [a | X op k IH]; intros g s; simpl; [done |]. intros [Hop Hk] Hg s1 x s2 H1 HI Hx.
  assert (Hg1 : forall e, e ∈ g -> witnessed e s1).
  { intros e He. apply Hg in He. destruct e as [Y op' y]. destruct He as (s3 & s4 & H3 & H4 & H5 & H6). exists s3, s4. split_and!; try done. by etrans. }
  destruct (Hstep X op g s1 x s2 Hop Hg1 HI Hx) as [HR HI2]. split_and!; [done | done |]. apply (IH x (Ev op x :: g)); [apply Hk; split; [done | by eapply Hcon] |].
  intros e [-> | He]%elem_of_cons.
  - exists s1, s2. by split_and!.
  - apply Hg1 in He. destruct e as [Y op' y]. destruct He as (s3 & s4 & H3 & H4 & H5 & H6). exists s3, s4. split_and!; try done. by etrans.
Qed.
End Witnessed.

(** ** Programs of a component run by a larger one *)
Lemma only_lift {Op Op' : Type -> Type} (f : forall X, Op X -> Op' X) (P : forall X, Op X -> Prop) (Q : forall X, Op' X -> Prop) {A} (p : prog Op A) :
  (forall X (op : Op X), P X op -> Q X (f X op)) -> only P p -> only Q (prog_lift f p).
Proof. intros H. induction p as [a | X op k IH]; simpl; [done |]. intros [Hop Hk]. split; [by apply H |]. intros x. by apply IH. Qed.
Section Lifted.
Context {Op Op' : Type -> Type} (f : forall X, Op X -> Op' X).
Context (pre : forall X, Op' X -> list (event Op') -> Prop) (contract : forall X, Op' X -> X -> Prop).
Lemma extends_lift_bind {A B} (p : prog Op A) (k : A -> prog Op B) g P R :
  extends pre contract (prog_lift f p) g P -> (forall a g', later g g' -> P a g' -> extends pre contract (prog_lift f (k a)) g' R) ->
  extends pre contract (prog_lift f (p ≫= k)) g R.
Proof.
  unfold extends. intros Hp Hk. enough (H : ensures pre (trace_contract contract) (prog_lift f (p ≫= k)) g (fun b g'' => exists g', later g g' /\ later g' g'' /\ R b g'')).
  { eapply ensures_mono; [| exact H]. intros b g'' (g' & H1 & H2 & HR). split; [by etrans | done]. }
  set (g0 := g) in Hk |- * at 2. assert (H0 : later g0 g) by reflexivity.
  enough (Hgen : forall g1, ensures pre (trace_contract contract) (prog_lift f p) g1 (fun a g' => later g0 g' /\ P a g') ->
    ensures pre (trace_contract contract) (prog_lift f (p ≫= k)) g1 (fun b g'' => exists g', later g0 g' /\ later g' g'' /\ R b g'')) by by apply Hgen.
  clear Hp H0. induction p as [a | X op k' IH]; intros g1; simpl.
  - intros [Hl HP]. eapply ensures_mono; [| by apply Hk]. intros b g'' [H1 H2]. by exists g1.
  - intros [Hop Hk']. split; [done |]. intros x g' Hx. by apply IH, Hk'.
Qed.
End Lifted.

(** What a program does alone it does inside a larger one: [h] is the trace before it. *)
Definition lift_event {Op Op' : Type -> Type} (f : forall X, Op X -> Op' X) (e : event Op) : event Op' :=
  match e with Ev op x => Ev (f _ op) x end.
Lemma extends_prog_lift {Op Op' : Type -> Type} (f : forall X, Op X -> Op' X) pre contract pre' contract'
    (h : list (event Op')) {A} (p : prog Op A) t (R : A -> list (event Op) -> Prop) :
  (forall X (op : Op X) t, pre X op t -> pre' X (f X op) (map (lift_event f) t ++ h)) ->
  (forall X (op : Op X) x, contract' X (f X op) x -> contract X op x) ->
  extends pre contract p t R ->
  extends pre' contract' (prog_lift f p) (map (lift_event f) t ++ h) (fun a g => exists t', g = map (lift_event f) t' ++ h /\ R a t').
Proof.
  intros Hpre Hcon. unfold extends.
  assert (H : forall Q, ensures pre (trace_contract contract) p t Q ->
    ensures pre' (trace_contract contract') (prog_lift f p) (map (lift_event f) t ++ h) (fun a g => exists t', g = map (lift_event f) t' ++ h /\ Q a t')).
  { intros Q. revert t. induction p as [a | X op k IH]; intros t; [by exists t |]. intros [H1 H2]. split; [by apply Hpre |].
    intros x g [-> Hx]. apply (IH x (Ev op x :: t)), H2. split; [done | by apply Hcon]. }
  intros Hp. eapply ensures_mono; [| apply H, Hp]. intros a g (t' & -> & [l ->] & HR). split; [| by exists (l ++ t)].
  exists (map (lift_event f) l). by rewrite map_app, app_assoc.
Qed.

(** Unfolds a program's next operations and matches until nothing is left to check. *)
Ltac solve_only :=
  repeat match goal with
  | |- only _ (mret _) => exact I
  | |- only _ (Ret _) => exact I
  | |- only _ (call _) => split; [try done | intros ?; exact I]
  | |- only _ (Do _ (fun e : Empty_set => _)) => split; [try done | intros []]
  | |- only _ (_ ≫= _) => apply only_bind; [| intros ?]
  | |- only _ (match ?x with _ => _ end) => destruct x
  | |- only _ (if ?x then _ else _) => destruct x
  | |- only _ _ => solve [auto with whatc]
  end.

(** ** Goroutines that keep to a class of operations

    Their interleavings are also interleavings of the operations restricted to it. *)
Section Classes.
Context {Op : Type -> Type} {S : Type} (sem : forall X, Op X -> S -> X -> S -> Prop) (contract : forall X, Op X -> X -> Prop) (P : forall X, Op X -> Prop).
Context (Hcon : forall X (op : Op X) s x s', sem X op s x s' -> contract X op x).
Abbreviation keeps_to p := (ensures (fun X (op : Op X) (_ : unit) => P X op) (fun X (op : Op X) _ x _ => contract X op x) p tt (fun _ _ => True)).
Lemma trace_keeps_to {A} pre (p : prog Op A) g Q : (forall X (op : Op X) g, pre X op g -> P X op) -> ensures pre (trace_contract contract) p g Q -> keeps_to p.
Proof.
  intros HP. revert g. induction p as [a | X op k IH]; intros g; [done |]. intros [H1 H2]. split; [by eapply HP |]. intros x [] Hx. eapply IH, H2. by split.
Qed.
Lemma class_pool {A} (c c' : S * list (prog Op A)) : pool_steps sem c c' -> Forall (fun p => keeps_to p) (snd c) -> pool_steps (fun X op s x s' => P X op /\ sem X op s x s') c c'.
Proof.
  induction 1 as [c | c1 c2 c3 Hstep _ IH]; [constructor |]. intros Hps. destruct Hstep as [s pre X op k post x s' Hs | s pre p post]; simpl in *;
    apply Forall_app in Hps as [Hpre [Hp Hpost]%Forall_cons].
  - destruct Hp as [HP Hk]. eapply rtc_l; [by apply (step_op _ s pre X op k post x s') |]. apply IH, Forall_app. split; [done |]. constructor; [apply Hk; by eapply Hcon | done].
  - eapply rtc_l; [apply step_crash |]. apply IH, Forall_app. by split.
Qed.
End Classes.

(** ** Credits

    Some operations cost a credit (carrying out an action), the right answer of others grants
    one (winning a compare-and-set). [affordable p n]: with [n] credits, [p] never performs
    an operation it cannot pay for, whatever it is answered. *)
Section Credits.
Context {Op : Type -> Type} {S : Type}.
Context (cost : forall X, Op X -> nat) (gain : forall X, Op X -> X -> nat).
(** What is known of the answers. *)
Context (contract : forall X, Op X -> X -> Prop).

Definition credit_pre X (op : Op X) (n : nat) : Prop := (cost _ op <= n)%nat.
Definition credit_post X (op : Op X) (n : nat) (x : X) (n' : nat) : Prop :=
  contract _ op x /\ n' = (n - cost _ op + gain _ op x)%nat.

Abbreviation affordable p n := (ensures credit_pre credit_post p n (fun _ _ => True)).

Context (sem : forall X, Op X -> S -> X -> S -> Prop) (I : S -> Prop) (spent granted : S -> nat).
Context (sem_contract : forall X (op : Op X) s x s', I s -> sem X op s x s' -> contract _ op x).
Context (sem_inv : forall X (op : Op X) s x s', I s -> sem X op s x s' -> I s').
Context (sem_spent : forall X (op : Op X) s x s', I s -> sem X op s x s' ->
  (spent s' <= spent s + cost _ op)%nat).
Context (sem_granted : forall X (op : Op X) s x s', I s -> sem X op s x s' ->
  (granted s + gain _ op x <= granted s')%nat).

(** Goroutines that start with no credit never spend more than was granted, however they are
    interleaved and wherever they crash. *)
Lemma credits_sound {A} s (ps : list (prog Op A)) s' ps' :
  I s -> (spent s <= granted s)%nat -> Forall (fun p => affordable p 0%nat) ps ->
  pool_steps sem (s, ps) (s', ps') -> (spent s' <= granted s')%nat.
Proof.
  intros HI Hle Hps Hsteps.
  set (Inv := fun c : S * list (prog Op A) => I (fst c) /\
    exists ns, Forall2 (fun p n => affordable p n) (snd c) ns /\ (spent (fst c) + sum_list ns <= granted (fst c))%nat).
  assert (HInv : Inv (s', ps')); [| destruct HInv as (_ & ns & _ & Hn); simpl in Hn; lia].
  refine (pool_invariant sem Inv (s, ps) (s', ps') _ Hsteps _).
  - intros c1 c2 (HI1 & ns & Hall & Hn) Hstep. destruct Hstep as [s1 pre X op k post x s2 Hs | s1 pre p post];
      simpl in *; apply Forall2_app_inv_l in Hall as (n1 & n2 & H1 & H2 & ->);
      apply Forall2_cons_inv_l in H2 as (n & n3 & Hp & H3 & ->).
    + split; [by eapply sem_inv |]. destruct Hp as [Hc Hk]. unfold credit_pre in Hc.
      exists (n1 ++ (n - cost _ op + gain _ op x)%nat :: n3). split.
      * apply Forall2_app; [done |]. constructor; [apply Hk; split; [by eapply sem_contract | done] | done].
      * pose proof (sem_spent _ op _ _ _ HI1 Hs). pose proof (sem_granted _ op _ _ _ HI1 Hs).
        simpl. rewrite sum_list_with_app in *. simpl in *. lia.
    + split; [done |]. exists (n1 ++ n3). split; [by apply Forall2_app |].
      simpl. rewrite sum_list_with_app in *. simpl in *. lia.
  - split; [done |]. simpl. clear Hsteps. exists (replicate (length ps) 0%nat). split.
    + induction Hps; simpl; constructor; done.
    + assert (sum_list (replicate (length ps) 0%nat) = 0%nat) as -> by (induction ps; simpl; [done | by inversion_clear Hps; auto]).
      lia.
Qed.
End Credits.
