(* ===== verification/Sql.v ===== *)
(** The SQL statements the components issue through gorm, on a table as the list of its
    rows: [UPDATE ... WHERE], its [RowsAffected], [COUNT], [ORDER BY ... LIMIT]. *)
From S2P Require Import Prelude.

Section Sql.
Context {Row : Type}.
Implicit Types (p q : Row -> bool) (f : Row -> Row) (rows : list Row).

(** [UPDATE t SET f WHERE p]. *)
Definition sql_update p f rows : list Row := map (fun r => if p r then f r else r) rows.
(** [SELECT COUNT] of the rows that satisfy [p], also the [RowsAffected] of an update. *)
Definition sql_count p rows : Z := Z.of_nat (length (List.filter p rows)).
(** [First]: some row that satisfies [p] (the code asks for one by a unique key). *)
Definition sql_first p rows : option Row := List.find p rows.

Lemma sql_update_lookup p f rows i :
  sql_update p f rows !! i = (fun r => if p r then f r else r) <$> rows !! i.
Proof. apply list_lookup_fmap. Qed.

Lemma sql_update_in p f rows r' :
  r' ∈ sql_update p f rows -> exists r, r ∈ rows /\ r' = if p r then f r else r.
Proof. intros (r & -> & Hr)%list_elem_of_fmap. eauto. Qed.

Lemma sql_update_id p f rows : (forall r, r ∈ rows -> p r = false) -> sql_update p f rows = rows.
Proof.
  intros H. unfold sql_update. induction rows as [| r rows IH]; [done |]. simpl.
  rewrite H by by left. by rewrite IH by (intros; apply H; by right).
Qed.

Lemma sql_count_nonneg p rows : 0 <= sql_count p rows.
Proof. unfold sql_count. lia. Qed.

Lemma sql_count_cons p r rows : sql_count p (r :: rows) = (if p r then 1 else 0) + sql_count p rows.
Proof. unfold sql_count. simpl. destruct (p r); simpl; lia. Qed.

Lemma sql_count_app p rows rows' : sql_count p (rows ++ rows') = sql_count p rows + sql_count p rows'.
Proof. unfold sql_count. rewrite List.filter_app, length_app. lia. Qed.

Lemma sql_count_zero p rows : sql_count p rows = 0 <-> forall r, r ∈ rows -> p r = false.
Proof.
  induction rows as [| r rows IH]; [split; [intros _ r Hr; by apply not_elem_of_nil in Hr | done] |].
  rewrite sql_count_cons. pose proof (sql_count_nonneg p rows). split.
  - intros H0. destruct (p r) eqn:E; [lia |].
    intros r' [-> | Hr']%elem_of_cons; [done |]. by apply (proj1 IH).
  - intros Hall. rewrite (Hall r) by by left. rewrite (proj2 IH); [done |]. intros; apply Hall; by right.
Qed.

Lemma sql_count_pos p rows : 0 < sql_count p rows <-> exists r, r ∈ rows /\ p r = true.
Proof.
  split.
  - induction rows as [| r rows IH]; [done |]. rewrite sql_count_cons. intros H.
    destruct (p r) eqn:E; [exists r; split; [by left | done] |].
    destruct IH as (r' & Hr' & Hp); [lia |]. exists r'. split; [by right | done].
  - intros (r & Hr & Hp). destruct (Z.eq_dec (sql_count p rows) 0) as [E | E].
    + rewrite sql_count_zero in E. rewrite (E r Hr) in Hp. done.
    + pose proof (sql_count_nonneg p rows). lia.
Qed.

Lemma sql_count_impl p q rows :
  (forall r, r ∈ rows -> p r = true -> q r = true) -> sql_count p rows <= sql_count q rows.
Proof.
  induction rows as [| r rows IH]; intros H; [done |]. rewrite !sql_count_cons.
  assert (IH' := IH (fun r' Hr => H r' (list_elem_of_further _ _ _ Hr))).
  destruct (p r) eqn:E; [rewrite (H r (list_elem_of_here _ _) E); lia |]. destruct (q r); lia.
Qed.

Lemma sql_count_update p q f rows :
  (forall r : Row, r ∈ rows -> p (if q r then f r else r) = p r) -> sql_count p (sql_update q f rows) = sql_count p rows.
Proof.
  induction rows as [| r rows IH]; intros H; [done |]. simpl. rewrite !sql_count_cons, IH by (intros r' Hr; apply H; by right).
  rewrite (H r (list_elem_of_here _ _)). done.
Qed.
Lemma sql_update_one p f rows :
  sql_count p rows = 1 -> exists i r, rows !! i = Some r /\ p r = true /\ sql_update p f rows = <[i := f r]> rows.
Proof.
  induction rows as [| r rows IH]; [done |]. rewrite sql_count_cons. simpl. destruct (p r) eqn:E; intros H.
  - exists 0%nat, r. split_and!; [done | done |]. simpl. f_equal. apply sql_update_id. apply sql_count_zero. lia.
  - destruct IH as (i & x & Hi & Hx & Hu); [lia |]. exists (S i), x. split_and!; [done | done |]. simpl. by f_equal.
Qed.
(** [ORDER BY ... LIMIT 1]: the first row in the order [before], a total preorder. *)
Fixpoint sql_min (before : Row -> Row -> bool) rows : option Row :=
  match rows with
  | [] => None
  | r :: rest => match sql_min before rest with
                 | Some x => Some (if before r x then r else x)
                 | None => Some r
                 end
  end.

Lemma sql_min_none before rows : sql_min before rows = None <-> rows = [].
Proof. destruct rows as [| r rest]; [done |]. simpl. split; [by destruct (sql_min before rest) | done]. Qed.

Lemma sql_min_in before rows m : sql_min before rows = Some m -> m ∈ rows.
Proof.
  revert m. induction rows as [| r rows IH]; [done |]. intros m. simpl. destruct (sql_min before rows) as [x |] eqn:E.
  - intros [= <-]. destruct (before r x); [by left | right; by apply IH].
  - intros [= <-]. by left.
Qed.

Lemma sql_min_spec before rows m :
  (forall a b, before a b = false -> before b a = true) ->
  (forall a b c, before a b = true -> before b c = true -> before a c = true) ->
  sql_min before rows = Some m -> m ∈ rows /\ forall r, r ∈ rows -> before m r = true.
Proof.
  intros Htot Htr. assert (Hrefl : forall a, before a a = true) by (intros a; destruct (before a a) eqn:E; eauto).
  revert m. induction rows as [| r rows IH]; [done |]. intros m. simpl. destruct (sql_min before rows) as [x |] eqn:E.
  - destruct (IH x eq_refl) as [Hx Hmin]. intros [= <-]. destruct (before r x) eqn:B; (split; [set_solver |]);
      intros r' [-> | Hr']%elem_of_cons; eauto.
  - apply sql_min_none in E as ->. intros [= <-]. split; [by left |]. by intros r' ->%list_elem_of_singleton.
Qed.
End Sql.
Lemma map_update_column {Row A} (f : Row -> A) p u (l : list Row) : (forall r, f (u r) = f r) -> map f (sql_update p u l) = map f l.
Proof. intros H. unfold sql_update. rewrite map_map. apply map_ext. intros r. destruct (p r); [apply H | done]. Qed.
Lemma existsb_not {A} (f : A -> bool) l x : existsb f l = false -> x ∈ l -> f x = false.
Proof. intros H Hx. apply not_true_iff_false. intros Hf. apply not_true_iff_false in H. apply H, existsb_exists. exists x. split; [by apply list_elem_of_In | done]. Qed.
