(* ===== verification/Numbering.v ===== *)
(** Numbers handed out by counters: a table of counters, one per key, and the rows that carry what
    was counted. Shared by the protocols of occurrences and the numbers of sales opportunities. *)
From S2P Require Import Prelude Effects Sql.

Definition int_range (n : Z) : Prop := 0 <= n <= max_int64.

(** * The counters

    [INSERT ... ON CONFLICT DO NOTHING], then [UPDATE ... RETURNING]: [keyed k] selects the row of a
    key, [new_counter k] is a new one. *)
Class CounterRows (Row Key : Type) := {
  keyed : Key -> Row -> bool; seq_of : Row -> Z; new_counter : Key -> Row; bumped_row : Row -> Row;
  keyed_inj : forall k k' r, keyed k r = true -> keyed k' r = true -> k = k';
  keyed_bumped : forall k r, keyed k (bumped_row r) = keyed k r;
  seq_bump : forall r, seq_of (bumped_row r) = seq_of r + 1;
  seq_zero : forall k, seq_of (new_counter k) = 0 }.
Section Counters.
Context {Row Key : Type} `{!CounterRows Row Key}.
Implicit Types (rows : list Row) (k : Key) (r : Row).
Definition last_of (rows : list Row) (k : Key) : Z := match sql_first (keyed k) rows with Some r => seq_of r | None => 0 end.
Definition with_row (k : Key) (rows : list Row) : list Row := if existsb (keyed k) rows then rows else rows ++ [new_counter k].

Lemma last_with_row k k' rows : last_of (with_row k rows) k' = last_of rows k'.
Proof.
  unfold last_of, with_row, sql_first. destruct (existsb (keyed k) rows); [done |]. rewrite find_app. destruct (List.find (keyed k') rows); [done |].
  simpl. destruct (keyed k' (new_counter k)); [apply seq_zero | done].
Qed.
Lemma first_update k k' rows : sql_first (keyed k) (sql_update (keyed k') bumped_row rows) = (fun r => if keyed k' r then bumped_row r else r) <$> sql_first (keyed k) rows.
Proof.
  unfold sql_first, sql_update. induction rows as [| r rows IH]; [done |]. simpl.
  replace (keyed k (if keyed k' r then bumped_row r else r)) with (keyed k r) by (destruct (keyed k' r); by rewrite ?keyed_bumped). destruct (keyed k r); [done | exact IH].
Qed.
(** The number is the one after the last, and is then the last; no other counter moves. *)
Lemma last_bump k rows r : sql_first (keyed k) rows = Some r ->
  last_of (sql_update (keyed k) bumped_row rows) k = seq_of r + 1 /\ forall k', k' = k \/ last_of (sql_update (keyed k) bumped_row rows) k' = last_of rows k'.
Proof.
  intros E. pose proof (find_some _ _ E) as [_ Hr]. split.
  - unfold last_of. rewrite first_update, E. simpl. by rewrite Hr, seq_bump.
  - intros k'. unfold last_of. rewrite first_update. destruct (sql_first (keyed k') rows) as [x |] eqn:Ex; simpl; [| by right].
    destruct (keyed k x) eqn:Ek; [left | by right]. apply find_some in Ex as [_ Ex]. by eapply keyed_inj.
Qed.
Lemma last_next k rows r : int_range (last_of rows k) -> sql_first (keyed k) (with_row k rows) = Some r -> (seq_of r =? max_int64) = false ->
  let rows' := sql_update (keyed k) bumped_row (with_row k rows) in
  seq_of r + 1 = last_of rows k + 1 /\ seq_of r + 1 <= max_int64 /\ last_of rows' k = seq_of r + 1 /\ forall k', k' = k \/ last_of rows' k' = last_of rows k'.
Proof.
  intros Hr E Em. destruct (last_bump _ _ _ E) as [H1 H2]. assert (Hl : last_of rows k = seq_of r) by (rewrite <- (last_with_row k); unfold last_of; by rewrite E).
  rewrite Hl in *. unfold int_range in Hr. split_and!; [done | lia | done |]. intros k'. rewrite <- (last_with_row k k' rows). apply H2.
Qed.
End Counters.

(** * What was counted

    An item has a tag, made of a key and a number of its counter; [became] is what may become of an
    item in time. *)
Class Tagging (Item Key Tag : Type) := {
  tag_of : Item -> Tag; tag_as : Key -> Z -> Tag; proper_key : Key -> Prop; became : Item -> Item -> Prop;
  #[global] became_preorder :: PreOrder became;
  became_tag : forall i j, became i j -> tag_of j = tag_of i;
  tag_as_inj : forall k k' n n', proper_key k -> proper_key k' -> int_range n -> int_range n' -> tag_as k n = tag_as k' n' -> k = k' /\ n = n' }.
Section Numbering.
Context {Item Key Tag : Type} `{!Tagging Item Key Tag}.
Implicit Types (last : Key -> Z) (items : list Item).
(** Every tag was counted, and one item has it. *)
Record numbered (last : Key -> Z) (items : list Item) : Prop := MkNumbered {
  nb_last : forall k, int_range (last k);
  nb_items : forall i, i ∈ items -> exists k n, proper_key k /\ 0 < n <= last k /\ tag_of i = tag_as k n;
  nb_unique : forall i j, i ∈ items -> j ∈ items -> tag_of i = tag_of j -> i = j }.
(** From one moment to a later one: a counter never goes back, and an item is what became of one
    of before, or has a tag that was not counted yet. *)
Record counting (last : Key -> Z) (items : list Item) (last' : Key -> Z) (items' : list Item) : Prop := MkCounting {
  co_last : forall k, last k <= last' k;
  co_items : forall i, i ∈ items' -> (exists j, j ∈ items /\ became j i) \/ exists k n, proper_key k /\ int_range n /\ last k < n /\ tag_of i = tag_as k n }.
Lemma counting_refl last items : counting last items last items.
Proof. split; [done |]. intros i Hi. left. by exists i. Qed.
Lemma counting_trans l1 i1 l2 i2 l3 i3 : counting l1 i1 l2 i2 -> counting l2 i2 l3 i3 -> counting l1 i1 l3 i3.
Proof.
  intros [A1 A2] [B1 B2]. split; [intros k; etrans; [apply A1 | apply B1] |]. intros i Hi. destruct (B2 i Hi) as [(j & Hj & Hji) | (k & n & Hk & Hn & Hlt & E)].
  - destruct (A2 j Hj) as [(h & Hh & Hhj) | (k & n & Hk & Hn & Hlt & E)]; [left; exists h; split; [done | by etrans] |].
    right. exists k, n. by rewrite (became_tag _ _ Hji).
  - right. exists k, n. split_and!; try done; [by apply Hn.. |]. specialize (A1 k). lia.
Qed.
(** Two items of a time and a later one. *)
Lemma counting_same last items last' items' i j : numbered last items -> counting last items last' items' -> i ∈ items -> j ∈ items' -> tag_of i = tag_of j -> became i j.
Proof.
  intros Hn Hc Hi Hj E. destruct (co_items _ _ _ _ Hc j Hj) as [(h & Hh & Hhj) | (k & n & Hk & Hr & Hlt & Ej)].
  - rewrite (became_tag _ _ Hhj) in E. by rewrite (nb_unique _ _ Hn i h Hi Hh E).
  - destruct (nb_items _ _ Hn i Hi) as (k' & n' & Hk' & Hn' & Ei). pose proof (nb_last _ _ Hn k') as Hl. unfold int_range in *. rewrite Ei, Ej in E.
    apply tag_as_inj in E as [-> ->]; [lia | done | done | unfold int_range; lia | done].
Qed.
(** A change that counts nothing: each item comes from one that was there. *)
Lemma counting_none last items last' items' (f : Item -> Item) : (forall k, last' k = last k) -> (forall i, i ∈ items' -> exists j, j ∈ items /\ i = f j) -> (forall i, i ∈ items -> became i (f i)) ->
  numbered last items -> counting last items last' items' /\ numbered last' items'.
Proof.
  intros Hl Hi Hf [H1 H2 H3]. split; split.
  - intros k. by rewrite Hl.
  - intros i (j & Hj & ->)%Hi. left. exists j. split; [done | by apply Hf].
  - intros k. by rewrite Hl.
  - intros i (j & Hj & ->)%Hi. destruct (H2 j Hj) as (k & n & Hk & Hn & E). exists k, n. by rewrite Hl, (became_tag _ _ (Hf j Hj)).
  - intros i i' (j & Hj & ->)%Hi (j' & Hj' & ->)%Hi E. rewrite (became_tag _ _ (Hf j Hj)), (became_tag _ _ (Hf j' Hj')) in E. by rewrite (H3 j j').
Qed.
(** A new item with the next number. *)
Lemma counting_next last items last' k n x : proper_key k -> n = last k + 1 -> n <= max_int64 -> last' k = n -> (forall k', k' = k \/ last' k' = last k') -> tag_of x = tag_as k n ->
  numbered last items -> counting last items last' (items ++ [x]) /\ numbered last' (items ++ [x]).
Proof.
  intros Hk Hn Hmax Hl Hother Hx [H1 H2 H3]. pose proof (H1 k) as Hr. unfold int_range in Hr.
  assert (Hmono : forall k', last k' <= last' k' /\ int_range (last' k')).
  { intros k'. pose proof (H1 k') as Hk'. unfold int_range in *. destruct (Hother k') as [-> | ->]; lia. }
  assert (Hnew : forall i, i ∈ items -> tag_of i <> tag_of x).
  { intros i Hi E. destruct (H2 i Hi) as (k' & n' & Hk' & Hn' & Ei). pose proof (H1 k') as Hr'. unfold int_range in Hr'. rewrite Ei, Hx in E.
    apply tag_as_inj in E as [-> ->]; [lia | done | done | unfold int_range; lia..]. }
  split; split.
  - intros k'. apply Hmono.
  - intros i [Hi | ->%list_elem_of_singleton]%elem_of_app; [left; by exists i |]. right. exists k, n. unfold int_range. split_and!; [done | lia.. | done].
  - intros k'. apply Hmono.
  - intros i [Hi | ->%list_elem_of_singleton]%elem_of_app.
    + destruct (H2 i Hi) as (k' & n' & Hk' & Hn' & E). exists k', n'. destruct (Hmono k'). split_and!; [done | lia.. | done].
    + exists k, n. split_and!; [done | lia.. | done].
  - intros i j [Hi | ->%list_elem_of_singleton]%elem_of_app [Hj | ->%list_elem_of_singleton]%elem_of_app E; [by apply H3 | by apply Hnew in E | | done].
    symmetry in E. by apply Hnew in E.
Qed.
End Numbering.
