(* ===== verification/BusinessHours.v ===== *)
(** Business hours ([internal/businesshours/businesshours.go]): the rule shared by
    the chatbot ([Within]) and the AI's get_business_hours tool ([Schedule]). *)
From S2P Require Import Prelude GoText.

(** The clock fields the rule reads: [now.Weekday()] (Sunday is 0) and
    [now.Format("15:04")], both of the server's local time. *)
Record wall := Wall { wl_weekday : Z; wl_hour : Z; wl_minute : Z }.

Definition hhmm (h m : Z) : string := two_digits h +:+ ":" +:+ two_digits m.
Definition format_15_04 (now : wall) : string := hhmm (wl_hour now) (wl_minute now).

Record hours_entry := HoursEntry {
  he_day : Z; he_enabled : bool; he_start : string; he_end : string; he_has_times : bool }.

(** [entry]: [None] when [ok] is false. A missing or mistyped field takes its zero value. *)
Definition entry (raw : json) : option hours_entry :=
  m ← as_obj raw;
  d ← as_num (assoc "day" m);
  let enabled := default false (as_bool (assoc "enabled" m)) in
  let start := as_str (assoc "start_time" m) in
  let end_ := as_str (assoc "end_time" m) in
  Some (HoursEntry (f64_to_int d) enabled (default "" start) (default "" end_)
          (bool_decide (is_Some start) && bool_decide (is_Some end_))).

Fixpoint Within (hours : list json) (now : wall) : bool :=
  match hours with
  | [] => false
  | raw :: rest =>
      match entry raw with
      | None => Within rest now
      | Some e =>
          if negb (he_day e =? wl_weekday now) then Within rest now
          else if negb (he_enabled e) then false
          else if negb (he_has_times e) then Within rest now
          else str_le (he_start e) (format_15_04 now) && str_le (format_15_04 now) (he_end e)
      end
  end.

Record DayHours := MkDayHours { dh_Day : Z; dh_Open : bool; dh_Start : string; dh_End : string }.

(** One iteration of the loop of [Schedule] over [out] and [decided]. *)
Definition schedule_step (st : list DayHours * list bool) (raw : json) : list DayHours * list bool :=
  let '(out, decided) := st in
  match entry raw with
  | None => st
  | Some e =>
      if (he_day e <? 0) || (6 <? he_day e) then st
      else
        let day := Z.to_nat (he_day e) in
        if default false (decided !! day) then st
        else if negb (he_enabled e) then (out, <[day := true]> decided)
        else if negb (he_has_times e) then st
        else (alter (fun d => MkDayHours (dh_Day d) true (he_start e) (he_end e)) day out,
              <[day := true]> decided)
  end.

Definition Schedule (hours : list json) : list DayHours :=
  let out := (fun i => MkDayHours (Z.of_nat i) false "" "") <$> seq 0 7 in
  fst (fold_left schedule_step hours (out, replicate 7 false)).

(** The rule both functions follow: the first usable entry of the day decides.
    [None]: no usable entry; [Some None]: the day is disabled. *)
Fixpoint first_usable (hours : list json) (day : Z) : option (option (string * string)) :=
  match hours with
  | [] => None
  | raw :: rest =>
      match entry raw with
      | Some e =>
          if negb (he_day e =? day) then first_usable rest day
          else if negb (he_enabled e) then Some None
          else if negb (he_has_times e) then first_usable rest day
          else Some (Some (he_start e, he_end e))
      | None => first_usable rest day
      end
  end.

Lemma Within_first_usable hours now :
  Within hours now =
  match first_usable hours (wl_weekday now) with
  | Some (Some (s, e)) => str_le s (format_15_04 now) && str_le (format_15_04 now) e
  | _ => false
  end.
Proof.
  induction hours as [| raw rest IH]; simpl; [done |].
  destruct (entry raw) as [e |]; [| done].
  by destruct (negb (he_day e =? wl_weekday now)), (negb (he_enabled e)), (negb (he_has_times e)).
Qed.

(** What the loop leaves at index [d], given what it found there. *)
Definition day_result (d : nat) (old : DayHours) (found : option (option (string * string))) : DayHours :=
  match found with
  | Some (Some (s, e)) => MkDayHours (dh_Day old) true s e
  | _ => old
  end.

Lemma schedule_loop hours out decided (d : nat) old :
  (d < 7)%nat -> length decided = 7%nat -> out !! d = Some old ->
  fst (fold_left schedule_step hours (out, decided)) !! d =
  Some (if default false (decided !! d) then old
        else day_result d old (first_usable hours (Z.of_nat d))).
Proof.
  revert out decided old. induction hours as [| raw rest IH]; intros out decided old Hd Hlen Hold.
  { simpl. by destruct (default false _). }
  cbn [fold_left first_usable schedule_step]. destruct (entry raw) as [e |]; [| by apply IH].
  destruct (Z.eqb_spec (he_day e) (Z.of_nat d)) as [Heq | Hne]; simpl.
  - rewrite Heq, Nat2Z.id.
    replace ((Z.of_nat d <? 0) || (6 <? Z.of_nat d)) with false
      by (symmetry; apply orb_false_iff; split; [apply Z.ltb_ge | apply Z.ltb_ge]; lia).
    destruct (default false (decided !! d)) eqn:Hdec.
    { rewrite (IH _ _ old) by done. by rewrite Hdec. }
    destruct (he_enabled e); simpl; [destruct (he_has_times e); simpl |].
    + erewrite IH; [| done | by rewrite length_insert | by rewrite list_lookup_alter_eq, Hold].
      rewrite list_lookup_insert_eq by lia. done.
    + rewrite (IH _ _ old) by done. by rewrite Hdec.
    + rewrite (IH _ _ old) by (done || by rewrite length_insert).
      by rewrite list_lookup_insert_eq by lia.
  - destruct ((he_day e <? 0) || (6 <? he_day e)) eqn:Hr; [by apply IH |]. bool_hyps.
    assert (Z.to_nat (he_day e) <> d) by lia.
    destruct (default false (decided !! Z.to_nat (he_day e))); [by apply IH |].
    destruct (he_enabled e); simpl; [destruct (he_has_times e); simpl |].
    + erewrite IH; [| done | by rewrite length_insert | by rewrite list_lookup_alter_ne].
      by rewrite list_lookup_insert_ne.
    + by apply IH.
    + erewrite IH; [| done | by rewrite length_insert | done].
      by rewrite list_lookup_insert_ne.
Qed.

Lemma Schedule_lookup hours (d : nat) :
  (d < 7)%nat ->
  Schedule hours !! d =
  Some (day_result d (MkDayHours (Z.of_nat d) false "" "") (first_usable hours (Z.of_nat d))).
Proof.
  intros Hd. unfold Schedule. erewrite schedule_loop; [| done | done |].
  - by rewrite lookup_replicate_2 by lia.
  - rewrite list_lookup_fmap, lookup_seq_lt by lia. done.
Qed.

(** The AI tool's schedule and the chatbot's rule cannot disagree: on any
    configured value, well formed or not, the moment is inside business hours
    exactly when the schedule shows that weekday open and the clock text is
    between its opening and its closing. *)
Theorem within_agrees_with_schedule hours now :
  0 <= wl_weekday now <= 6 ->
  exists d, Schedule hours !! Z.to_nat (wl_weekday now) = Some d /\
    dh_Day d = wl_weekday now /\
    Within hours now =
      (dh_Open d && (str_le (dh_Start d) (format_15_04 now) && str_le (format_15_04 now) (dh_End d))).
Proof.
  intros Hd. rewrite Schedule_lookup by lia. rewrite Z2Nat.id by lia.
  eexists; split; [done |]. rewrite Within_first_usable.
  destruct (first_usable hours (wl_weekday now)) as [[[s e] |] |]; done.
Qed.

(** The configuration the settings screen stores: one entry per weekday, times as HH:MM. *)
Record day_config := DayConfig {
  dc_day : Z; dc_enabled : bool; dc_open : Z * Z; dc_close : Z * Z }.

Definition valid_time (t : Z * Z) : Prop := 0 <= t.1 < 24 /\ 0 <= t.2 < 60.
Definition valid_day (c : day_config) : Prop :=
  0 <= dc_day c <= 6 /\ valid_time (dc_open c) /\ valid_time (dc_close c).

Definition encode_day (c : day_config) : json :=
  JObj [("day", JNum (f64_of_int (dc_day c))); ("enabled", JBool (dc_enabled c));
        ("start_time", JStr (hhmm (dc_open c).1 (dc_open c).2));
        ("end_time", JStr (hhmm (dc_close c).1 (dc_close c).2))].

Definition minutes (t : Z * Z) : Z := 60 * t.1 + t.2.

Lemma hhmm_le t u :
  valid_time t -> valid_time u ->
  str_le (hhmm t.1 t.2) (hhmm u.1 u.2) = (minutes t <=? minutes u).
Proof.
  intros [? ?] [? ?]. unfold hhmm, minutes.
  rewrite str_le_two_digits, !str_app_cons, !str_app_nil_l, str_le_cons, Z.eqb_refl by lia.
  rewrite <- (str_app_nil_r (two_digits t.2)), <- (str_app_nil_r (two_digits u.2)).
  rewrite str_le_two_digits, str_le_nil by lia.
  destruct (Z.eqb_spec t.1 u.1), (Z.eqb_spec t.2 u.2), (Z.ltb_spec t.2 u.2), (Z.ltb_spec t.1 u.1),
    (Z.leb_spec (60 * t.1 + t.2) (60 * u.1 + u.2)); try done; lia.
Qed.

Lemma entry_encode_day c :
  valid_day c ->
  entry (encode_day c) =
  Some (HoursEntry (dc_day c) (dc_enabled c) (hhmm (dc_open c).1 (dc_open c).2)
          (hhmm (dc_close c).1 (dc_close c).2) true).
Proof.
  intros [Hd _]. unfold entry, encode_day. simpl.
  assert (f64_to_int (f64_of_int (dc_day c)) = dc_day c) as ->; [| done].
  assert (dc_day c = 0 \/ dc_day c = 1 \/ dc_day c = 2 \/ dc_day c = 3 \/ dc_day c = 4 \/
          dc_day c = 5 \/ dc_day c = 6) as Hc by lia.
  repeat destruct Hc as [-> | Hc]; try rewrite Hc; vm_compute; done.
Qed.

(** Although the rule compares text, on a stored configuration it is the
    numeric rule: open exactly when the day's entry is enabled and the minute of
    the day is between opening and closing, both included. *)
Theorem within_is_numeric (cfg : list day_config) now :
  Forall valid_day cfg -> valid_time (wl_hour now, wl_minute now) ->
  Within (encode_day <$> cfg) now =
  match list_find (fun c => dc_day c = wl_weekday now) cfg with
  | Some (_, c) =>
      dc_enabled c && ((minutes (dc_open c) <=? minutes (wl_hour now, wl_minute now)) &&
                       (minutes (wl_hour now, wl_minute now) <=? minutes (dc_close c)))
  | None => false
  end.
Proof.
  intros Hcfg Hnow. induction Hcfg as [| c cfg Hc Hcfg IH]; [done |].
  cbn [fmap list_fmap Within list_find]. rewrite entry_encode_day by done. simpl.
  destruct (Z.eqb_spec (dc_day c) (wl_weekday now)) as [E | E].
  - rewrite decide_True by done. simpl. destruct (dc_enabled c); simpl; [| done].
    destruct Hc as (_ & ? & ?). unfold format_15_04.
    pose proof (hhmm_le (dc_open c) (wl_hour now, wl_minute now)) as H1.
    pose proof (hhmm_le (wl_hour now, wl_minute now) (dc_close c)) as H2.
    simpl in *. by rewrite H1, H2.
  - rewrite decide_False by done. simpl. rewrite IH.
    by destruct (list_find _ cfg) as [[? ?] |].
Qed.

Definition sample_hours : list json :=
  [JStr "junk"; JObj [("day", JNum (f64_of_int 1))];
   encode_day (DayConfig 1 true (9, 0) (18, 30)); encode_day (DayConfig 1 false (0, 0) (0, 0))].

Lemma within_agrees_with_schedule_witness :
  Within (drop 2 sample_hours) (Wall 1 18 30) = true /\
  exists d, Schedule sample_hours !! 1%nat = Some d /\ dh_Day d = 1 /\
    Within sample_hours (Wall 1 18 30) =
      (dh_Open d && (str_le (dh_Start d) "18:30" && str_le "18:30" (dh_End d))).
Proof.
  split; [vm_compute; reflexivity |].
  apply (within_agrees_with_schedule sample_hours (Wall 1 18 30)). simpl. lia.
Defined.

Lemma within_is_numeric_witness :
  Within (encode_day <$> [DayConfig 1 true (9, 0) (18, 30)]) (Wall 1 9 0) = true.
Proof.
  rewrite (within_is_numeric [DayConfig 1 true (9, 0) (18, 30)] (Wall 1 9 0)).
  - vm_compute. reflexivity.
  - repeat constructor; simpl; lia.
  - split; simpl; lia.
Defined.
