(* ===== verification/Phone.v ===== *)
(** Phone numbers and documents: [internal/utils/phone.go],
    [internal/contactutil/contactutil.go] (the identity of a subscriber) and
    [internal/contactutil/documento.go] (CPF and CNPJ check digits). *)
From S2P Require Import Prelude GoText.
From Stdlib Require Import SpecFloat Ascii.

(** ** Masking *)

Fixpoint stars (n : nat) : string :=
  match n with O => "" | S n' => String "*" (stars n') end.

Definition MaskPhoneNumber (phone : string) : string :=
  if str_len phone <=? 4 then phone
  else
    let k := (String.length phone - 4)%nat in
    stars k +:+ str_drop k phone.

(** [range s] visits runes; a digit is always a single byte, and no byte of a longer
    or of an invalid sequence is one, so counting digit bytes counts digit runes.
    0.7 is the [float64] nearest to it. *)
Definition f64_0_7 : spec_float := S754_finite false 6305039478318694 (-53).

Definition LooksLikePhoneNumber (s : string) : bool :=
  if str_len s <? 7 then false
  else
    let digitCount := str_count is_digit s in
    (7 <=? digitCount) &&
    SFltb f64_0_7 (SFdiv 53 1024 (f64_of_int digitCount) (f64_of_int (str_len s))).

Definition MaskIfPhoneNumber (s : string) : string :=
  if LooksLikePhoneNumber s then MaskPhoneNumber s else s.

(** ** Subscriber identity *)

Definition NormalizePhone (phone : string) : string := str_filter is_digit phone.

Definition brazilianDDDs : string :=
  " 11 12 13 14 15 16 17 18 19 21 22 24 27 28 31 32 33 34 35 37 38 41 42 43 44 45 46 47 48 49 51 53 54 55 61 62 63 64 65 66 67 68 69 71 73 74 75 77 79 81 82 83 84 85 86 87 88 89 91 92 93 94 95 96 97 98 99 ".

Definition CanonicalPhone (phone : string) : string :=
  let n := NormalizePhone phone in
  if ((str_len n =? 10) || ((str_len n =? 11) && byte_is (str_index n 2) "9"))
     && negb (has_prefix "55" n)
     && str_contains (" " +:+ str_take 2 n +:+ " ") brazilianDDDs
  then "55" +:+ n
  else n.

Definition brazilianMobileAlternate (n : string) : string :=
  if negb (has_prefix "55" n) then ""
  else if str_len n =? 13 then
    if byte_is (str_index n 4) "9" then str_take 4 n +:+ str_drop 5 n else ""
  else if str_len n =? 12 then
    if byte_between (str_index n 4) "6" "9" then str_take 4 n +:+ "9" +:+ str_drop 4 n else ""
  else "".

Definition bare_form (id : string) : list string :=
  if has_prefix "55" id && ((str_len id =? 12) || (str_len id =? 13))
  then [str_drop 2 id] else [].

Definition PhoneIdentities (phone : string) : list string :=
  let normalized := CanonicalPhone phone in
  let ids := [normalized] in
  let alt := brazilianMobileAlternate normalized in
  let ids := if String.eqb alt "" then ids else ids ++ [alt] in
  ids ++ (ids ≫= bare_form).

Definition phoneMatchSet (phone : string) : list string :=
  PhoneIdentities phone ≫= (fun id => [id; "+" +:+ id]).

(** ** CPF and CNPJ *)

Inductive doc_error := ErrInvalidDocumento.

(** [int(digits[i]-'0')]: byte subtraction wraps. *)
Definition digit_at (digits : string) (i : nat) : Z :=
  match str_index digits i with
  | Some c => (byte_val c - 48) mod 256
  | None => 0
  end.

Definition mod11 (digits : string) (weights : list Z) : ascii :=
  let sum := foldr Z.add 0 (imap (fun i w => digit_at digits i * w) weights) in
  let r := sum mod 11 in
  if 2 <=? r then ascii_of_N (Z.to_N ((48 + 11 - r) mod 256)) else "0"%char.

Definition all_same (c : string) : bool :=
  match c with
  | EmptyString => true
  | String a _ => str_count (Ascii.eqb a) c =? str_len c
  end.

Definition ValidCPF (c : string) : bool :=
  if negb (str_len c =? 11) || all_same c then false
  else byte_is (str_index c 9) (mod11 c [10; 9; 8; 7; 6; 5; 4; 3; 2]) &&
       byte_is (str_index c 10) (mod11 c [11; 10; 9; 8; 7; 6; 5; 4; 3; 2]).

Definition ValidCNPJ (c : string) : bool :=
  if negb (str_len c =? 14) || all_same c then false
  else byte_is (str_index c 12) (mod11 c [5; 4; 3; 2; 9; 8; 7; 6; 5; 4; 3; 2]) &&
       byte_is (str_index c 13) (mod11 c [6; 5; 4; 3; 2; 9; 8; 7; 6; 5; 4; 3; 2]).

Definition NormalizeDocumento (raw : string) : string + doc_error :=
  let digits := NormalizePhone raw in
  if str_len digits =? 0 then inl ""
  else if (str_len digits =? 11) && ValidCPF digits then inl digits
  else if (str_len digits =? 14) && ValidCNPJ digits then inl digits
  else inr ErrInvalidDocumento.

Example cpf_ok : NormalizeDocumento "529.982.247-25" = inl "52998224725".
Proof. vm_compute. done. Qed.
Example ids_ok : PhoneIdentities "+55 71 99123-4567" =
  ["5571991234567"; "557191234567"; "71991234567"; "7191234567"].
Proof. vm_compute. done. Qed.
Example mask_ok : MaskIfPhoneNumber "+5571991234567" = "**********4567".
Proof. vm_compute. done. Qed.

(** ** Lemmas *)

Lemma NormalizePhone_digits s : str_forallb is_digit s = true -> NormalizePhone s = s.
Proof. apply str_filter_all. Qed.

Lemma NormalizePhone_all_digits s : str_forallb is_digit (NormalizePhone s) = true.
Proof. apply str_forallb_filter. Qed.

Lemma CanonicalPhone_all_digits s : str_forallb is_digit (CanonicalPhone s) = true.
Proof.
  unfold CanonicalPhone. break_match; [| apply NormalizePhone_all_digits].
  rewrite str_forallb_app, NormalizePhone_all_digits. done.
Qed.

(** A number that already has its country code, or whose length is not that of a bare
    Brazilian one, is its own canonical form. *)
Lemma CanonicalPhone_fixed s :
  str_forallb is_digit s = true ->
  has_prefix "55" s = true \/ 12 <= str_len s -> CanonicalPhone s = s.
Proof.
  intros Hd H. unfold CanonicalPhone. rewrite NormalizePhone_digits by done.
  destruct H as [H | H].
  - by rewrite H, andb_false_r.
  - rewrite (proj2 (Z.eqb_neq _ 10)), (proj2 (Z.eqb_neq _ 11)) by lia. done.
Qed.

(** [len(NormalizePhone(s))] never exceeds [len(s)]. *)
Lemma str_len_filter f s : str_len (str_filter f s) <= str_len s.
Proof.
  unfold str_len. induction s as [| a s IH]; simpl; [done |].
  destruct (f a); simpl; lia.
Qed.

(** The four spellings of the mobile number with area code [dd] and the 8-digit
    subscriber [sub]. *)
Definition mobile_spellings (dd sub : string) : list string :=
  ["55" +:+ dd +:+ "9" +:+ sub; "55" +:+ dd +:+ sub; dd +:+ "9" +:+ sub; dd +:+ sub].

Definition area_code (dd : string) : bool :=
  (str_len dd =? 2) && str_forallb is_digit dd && negb (has_prefix "55" dd) &&
  str_contains (" " +:+ dd +:+ " ") brazilianDDDs.
Definition subscriber (sub : string) : bool := (str_len sub =? 8) && str_forallb is_digit sub.
Definition mobile_range (sub : string) : bool := byte_between (str_index sub 0) "6" "9".

(** Exposes the bytes of [dd] and [sub] and the digit facts about each of them. *)
Ltac expose_spelling :=
  unfold area_code, subscriber in *; bool_hyps; split_bytes; simpl str_forallb in *; bool_hyps;
  autorewrite with str_app in *.

Ltac digit_facts :=
  simpl; repeat match goal with H : is_digit _ = true |- _ => rewrite H; clear H end; try done.

Lemma PhoneIdentities_canonical p q :
  CanonicalPhone p = CanonicalPhone q -> PhoneIdentities p = PhoneIdentities q.
Proof. unfold PhoneIdentities. by intros ->. Qed.

Section Spellings.
Context (dd sub : string).
Hypothesis Hdd : area_code dd = true.
Hypothesis Hsub : subscriber sub = true.

Lemma spelling_identities_13 :
  PhoneIdentities ("55" +:+ dd +:+ "9" +:+ sub) = mobile_spellings dd sub.
Proof using Hdd Hsub.
  expose_spelling. unfold PhoneIdentities.
  rewrite CanonicalPhone_fixed; [reflexivity | digit_facts | by left].
Qed.

(** The legacy 8-digit form grows the ninth digit only in the mobile range. *)
Lemma spelling_identities_12 :
  PhoneIdentities ("55" +:+ dd +:+ sub) =
  if mobile_range sub
  then ["55" +:+ dd +:+ sub; "55" +:+ dd +:+ "9" +:+ sub; dd +:+ sub; dd +:+ "9" +:+ sub]
  else ["55" +:+ dd +:+ sub; dd +:+ sub].
Proof using Hdd Hsub.
  expose_spelling. unfold PhoneIdentities, mobile_range.
  rewrite CanonicalPhone_fixed; [| digit_facts | by left].
  change (str_index (String c ?t) 0) with (Some c).
  match goal with |- context [brazilianMobileAlternate ?n] =>
    change (brazilianMobileAlternate n) with
      (if byte_between (Some c) "6" "9" then str_take 4 n +:+ "9" +:+ str_drop 4 n else "") end.
  by destruct (byte_between (Some c) "6" "9").
Qed.

Lemma canonical_bare (s : string) :
  str_forallb is_digit s = true -> str_len s = 10 \/ (str_len s = 11 /\ byte_is (str_index s 2) "9" = true) ->
  str_take 2 s = dd -> CanonicalPhone s = "55" +:+ s.
Proof using Hdd.
  clear dependent sub. intros Hs Hlen Hdd2. unfold area_code in Hdd. bool_hyps.
  unfold CanonicalPhone. rewrite NormalizePhone_digits, Hdd2 by done.
  assert (has_prefix "55" s = false) as ->.
  { assert (0 <= str_len s - 2) by lia. expose_spelling.
    destruct s as [| a [| b s]]; try done. simpl in Hdd2. injection Hdd2 as -> ->. done. }
  match goal with H : str_contains _ _ = true |- _ => rewrite H end.
  by destruct Hlen as [-> | [-> ->]].
Qed.

Lemma spelling_canonical_11 : CanonicalPhone (dd +:+ "9" +:+ sub) = "55" +:+ dd +:+ "9" +:+ sub.
Proof using Hdd Hsub.
  pose proof canonical_bare as Hc. expose_spelling.
  apply Hc; [digit_facts | right; split; reflexivity | reflexivity].
Qed.

Lemma spelling_canonical_10 : CanonicalPhone (dd +:+ sub) = "55" +:+ dd +:+ sub.
Proof using Hdd Hsub.
  pose proof canonical_bare as Hc. expose_spelling.
  apply Hc; [digit_facts | left; reflexivity | reflexivity].
Qed.

Lemma canonical_13 : CanonicalPhone ("55" +:+ dd +:+ "9" +:+ sub) = "55" +:+ dd +:+ "9" +:+ sub.
Proof using Hdd Hsub.
  expose_spelling. apply CanonicalPhone_fixed; [digit_facts | by left].
Qed.
Lemma canonical_12 : CanonicalPhone ("55" +:+ dd +:+ sub) = "55" +:+ dd +:+ sub.
Proof using Hdd Hsub.
  expose_spelling. apply CanonicalPhone_fixed; [digit_facts | by left].
Qed.
End Spellings.

(** ** Properties *)

(** One subscriber, one identity set. For every Brazilian mobile number (area code
    other than 55, subscriber in the mobile range) the four spellings under which it is
    typed, stored or reported, with or without the country code and with or without the
    added ninth digit, have the same set of identities, namely those four spellings. *)
Theorem mobile_spellings_share_identities dd sub p :
  area_code dd = true -> subscriber sub = true -> mobile_range sub = true ->
  p ∈ mobile_spellings dd sub ->
  Permutation (PhoneIdentities p) (mobile_spellings dd sub).
Proof.
  intros Hdd Hsub Hmob Hp.
  assert (Permutation (PhoneIdentities ("55" +:+ dd +:+ sub)) (mobile_spellings dd sub)) as H12.
  { rewrite spelling_identities_12, Hmob by done. unfold mobile_spellings.
    rewrite Permutation_swap. do 2 constructor. apply Permutation_swap. }
  pose proof (spelling_identities_13 dd sub Hdd Hsub) as H13.
  unfold mobile_spellings in Hp. rewrite !elem_of_cons, elem_of_nil in Hp.
  destruct Hp as [-> | [-> | [-> | [-> | []]]]].
  - by rewrite H13.
  - done.
  - rewrite (PhoneIdentities_canonical _ ("55" +:+ dd +:+ "9" +:+ sub)), H13; [done |].
    by rewrite spelling_canonical_11, canonical_13.
  - rewrite (PhoneIdentities_canonical _ ("55" +:+ dd +:+ sub)); [done |].
    by rewrite spelling_canonical_10, canonical_12.
Qed.

Lemma mobile_spellings_share_identities_witness :
  area_code "71" = true /\
  Permutation (PhoneIdentities "7191234567") (mobile_spellings "71" "91234567").
Proof.
  split; [reflexivity |].
  apply (mobile_spellings_share_identities "71" "91234567");
    [reflexivity | reflexivity | reflexivity |].
  do 3 apply list_elem_of_further. apply list_elem_of_here.
Defined.

(** The ninth digit is dropped whatever follows it, but added back only in the
    mobile range. So a 13-digit mobile number always claims the identity of the
    12-digit number, while the 12-digit number claims the mobile one exactly when its
    subscriber starts with 6 to 9: for any other first digit (a landline such as
    "55 11 4123-4567" next to the mobile "55 11 9 4123-4567") the two subscribers share
    an identity and are matched as one. *)
Theorem ninth_digit_identity dd sub :
  area_code dd = true -> subscriber sub = true ->
  "55" +:+ dd +:+ sub ∈ PhoneIdentities ("55" +:+ dd +:+ "9" +:+ sub) /\
  ("55" +:+ dd +:+ "9" +:+ sub ∈ PhoneIdentities ("55" +:+ dd +:+ sub) <-> mobile_range sub = true).
Proof.
  intros Hdd Hsub. rewrite spelling_identities_13, spelling_identities_12 by done. split.
  - unfold mobile_spellings. apply list_elem_of_further, list_elem_of_here.
  - destruct (mobile_range sub); split; intros H; try done.
    + apply list_elem_of_further, list_elem_of_here.
    + exfalso. rewrite !elem_of_cons, elem_of_nil in H.
      destruct H as [H | [H | []]]; apply (f_equal str_len) in H;
        rewrite !str_len_app in H; change (str_len "9") with 1 in H;
        change (str_len "55") with 2 in H; lia.
Qed.

Lemma ninth_digit_identity_witness :
  area_code "11" = true /\ mobile_range "41234567" = false /\
  "551141234567" ∈ PhoneIdentities "5511941234567".
Proof.
  split; [reflexivity |]. split; [reflexivity |].
  apply (ninth_digit_identity "11" "41234567"); reflexivity.
Defined.

Lemma NormalizeDocumento_ok raw d :
  NormalizeDocumento raw = inl d ->
  d = NormalizePhone raw /\
  (str_len d = 0 \/ (str_len d = 11 /\ ValidCPF d = true) \/ (str_len d = 14 /\ ValidCNPJ d = true)).
Proof.
  unfold NormalizeDocumento. intros H.
  destruct (Z.eqb_spec (str_len (NormalizePhone raw)) 0) as [E | E].
  { injection H as <-. split; [by rewrite (str_len_0_inv _ E) | by left]. }
  repeat break_match_in H; bool_hyps; try done; injection H as <-; auto.
Qed.

(** What a document is stored as is its own normal form. An accepted document is
    the digits of what was typed (so any mask gives the same result), has 0, 11 or 14
    of them, and normalizing it again changes nothing and cannot fail. *)
Theorem documento_normal_form raw d :
  NormalizeDocumento raw = inl d ->
  NormalizeDocumento d = inl d /\ d = NormalizePhone raw /\
  (str_len d = 0 \/ str_len d = 11 \/ str_len d = 14).
Proof.
  intros H. destruct (NormalizeDocumento_ok _ _ H) as [-> Hlen].
  split; [| split; [done |]; by intuition].
  unfold NormalizeDocumento, NormalizePhone in *. rewrite str_filter_idem. exact H.
Qed.

Lemma documento_normal_form_witness :
  NormalizeDocumento "529.982.247-25" = inl "52998224725" /\
  NormalizeDocumento "52998224725" = inl "52998224725".
Proof.
  split; [vm_compute; reflexivity |].
  apply (documento_normal_form "529.982.247-25"). vm_compute. reflexivity.
Defined.

Lemma all_same_app s t : s <> "" -> all_same (s +:+ t) = true -> all_same s = true.
Proof.
  destruct s as [| a s]; [done |]. intros _. rewrite str_app_cons. unfold all_same, str_count.
  rewrite <- str_app_cons, str_filter_app, !str_len_app. intros H. bool_hyps. apply Z.eqb_eq.
  pose proof (str_len_filter (Ascii.eqb a) (String a s)).
  pose proof (str_len_filter (Ascii.eqb a) t). lia.
Qed.

Lemma byte_is_Some a b : byte_is (Some a) b = true <-> a = b.
Proof. unfold byte_is. apply Ascii.eqb_eq. Qed.

(** The check digit reads only as many digits as there are weights. *)
Lemma mod11_app s t ws :
  (length ws <= String.length s)%nat -> mod11 (s +:+ t) ws = mod11 s ws.
Proof.
  intros H. unfold mod11. erewrite (imap_ext _ (fun i w => digit_at s i * w)); [done |].
  intros i w Hi%lookup_lt_Some. simpl. unfold digit_at. by rewrite str_index_app_l by lia.
Qed.

Lemma ValidCPF_two base a b :
  str_len base = 9 -> all_same base = false ->
  ValidCPF (base +:+ String a (String b "")) = true <->
  a = mod11 base [10; 9; 8; 7; 6; 5; 4; 3; 2] /\
  b = mod11 (base +:+ String a "") [11; 10; 9; 8; 7; 6; 5; 4; 3; 2].
Proof.
  intros Hlen Hsame. assert (String.length base = 9)%nat as Hn by (unfold str_len in Hlen; lia).
  unfold ValidCPF. rewrite str_len_app, Hlen.
  destruct (all_same (base +:+ String a (String b ""))) eqn:Ha.
  { apply all_same_app in Ha; [congruence | by intros ->]. }
  change (negb (9 + str_len (String a (String b "")) =? 11) || false) with false. cbn match.
  rewrite <- Hn at 1. rewrite <- (Nat.add_0_r (String.length base)), str_index_app_r.
  replace 10%nat with (String.length base + 1)%nat by lia. rewrite str_index_app_r.
  rewrite mod11_app by (simpl; lia).
  change (String a (String b "")) with (String a "" +:+ String b "") at 3.
  rewrite str_app_assoc, (mod11_app (base +:+ String a "")).
  - rewrite andb_true_iff. simpl str_index. by rewrite !byte_is_Some.
  - pose proof (str_len_app base (String a "")) as Hl. rewrite Hlen in Hl.
    unfold str_len in Hl. simpl in *. lia.
Qed.

(** The two check digits of a CPF are determined by its first nine digits: unless
    those are all equal, exactly one ending of the number validates, and it has two
    characters. *)
Theorem cpf_check_digits_unique base :
  str_len base = 9 -> all_same base = false ->
  exists s, str_len s = 2 /\ ValidCPF (base +:+ s) = true /\
    forall t, ValidCPF (base +:+ t) = true -> t = s.
Proof.
  intros Hlen Hsame. set (x := mod11 base [10; 9; 8; 7; 6; 5; 4; 3; 2]).
  exists (String x (String (mod11 (base +:+ String x "") [11; 10; 9; 8; 7; 6; 5; 4; 3; 2]) "")).
  split; [reflexivity |]. split; [by apply ValidCPF_two |]. intros t Ht.
  assert (str_len t = 2) as Hlt.
  { unfold ValidCPF in Ht. rewrite str_len_app, Hlen in Ht.
    destruct (Z.eqb_spec (9 + str_len t) 11); [lia | done]. }
  split_bytes. apply ValidCPF_two in Ht as [-> ->]; done.
Qed.

Lemma cpf_check_digits_unique_witness :
  all_same "529982247" = false /\
  exists s, str_len s = 2 /\ ValidCPF ("529982247" +:+ s) = true /\
    forall t, ValidCPF ("529982247" +:+ t) = true -> t = s.
Proof. split; [reflexivity |]. apply (cpf_check_digits_unique "529982247"); reflexivity. Defined.
