(* ===== verification/AiContract.v ===== *)
(** The provider-neutral contract of tool calling ([internal/ai/ai.go],
    [internal/ai/tools.go], [internal/ai/errors.go]): messages, tool definitions, and the
    checks every adapter makes before it builds a request. *)
From S2P Require Import Prelude GoText GoJson.
From Stdlib Require Import Ascii.

(** ** Messages *)
Abbreviation Role := string (only parsing).
Definition RoleUser : Role := "user".
Definition RoleAssistant : Role := "assistant".
Definition RoleTool : Role := "tool".

(** [json.RawMessage] is the bytes as they came; [Opaque] is nil when the adapter set none. *)
Record ToolCall := MkToolCall {
  tc_ID : string; tc_Name : string; tc_Arguments : string; tc_Opaque : option string }.
Record ToolResult := MkToolResult {
  tr_CallID : string; tr_Name : string; tr_Content : string; tr_IsError : bool }.
Record Message := MkMessage {
  m_Role : Role; m_Content : string; m_ToolCalls : list ToolCall; m_ToolResults : list ToolResult }.

(** ** Errors *)
Inductive ErrorKind :=
  | KindAuth | KindRateLimit | KindInvalidRequest | KindProvider | KindTimeout
  | KindNetwork | KindEmptyResponse | KindBadResponse | KindInvalidToolCall.
Record ai_error := AiError { ae_Provider : string; ae_Kind : ErrorKind; ae_Message : string }.

Definition kindForStatus (status : Z) : ErrorKind :=
  if (status =? 401) || (status =? 403) then KindAuth
  else if status =? 429 then KindRateLimit
  else if (400 <=? status) && (status <? 500) then KindInvalidRequest
  else KindProvider.

(** ** Tool definitions *)

(** [Parameters] is the document the bytes parse to: [None] for empty or malformed bytes. *)
Record ToolDefinition := MkToolDefinition {
  td_Name : string; td_Description : string; td_Parameters : option json }.

(** [^[a-zA-Z0-9_-]{1,64}$] *)
Definition tool_name_char (c : ascii) : bool :=
  is_digit c || byte_between (Some c) "a" "z" || byte_between (Some c) "A" "Z" ||
  Ascii.eqb c "_" || Ascii.eqb c "-".
Definition toolNameRE (name : string) : bool :=
  (1 <=? str_len name) && (str_len name <=? 64) && str_forallb tool_name_char name.

Definition ascii_lower (c : ascii) : ascii :=
  if byte_between (Some c) "A" "Z" then ascii_of_N (N_of_ascii c + 32) else c.
Fixpoint str_lower (s : string) : string :=
  match s with EmptyString => EmptyString | String a s' => String (ascii_lower a) (str_lower s') end.

(** Decoding into [struct{ Type string `json:"type"` }]: keys match without regard to case,
    the last match wins, [null] leaves the field, any other non-string is an error. *)
Fixpoint decode_type_field (fields : list (string * json)) (acc : string) : option string :=
  match fields with
  | [] => Some acc
  | (k, v) :: rest =>
      if String.eqb (str_lower k) "type" then
        match v with
        | JStr s => decode_type_field rest s
        | JNull => decode_type_field rest acc
        | _ => None
        end
      else decode_type_field rest acc
  end.

Definition schema_type (doc : option json) : option string :=
  match doc with
  | Some (JObj fields) => decode_type_field fields ""
  | Some JNull => Some ""
  | _ => None
  end.

Inductive tool_error := ErrToolName | ErrToolParameters.

Definition Validate (d : ToolDefinition) : option tool_error :=
  if negb (toolNameRE (td_Name d)) then Some ErrToolName
  else if bool_decide (schema_type (td_Parameters d) = Some "object") then None
  else Some ErrToolParameters.

Inductive tools_error := ToolInvalid (e : tool_error) | ToolDuplicate (name : string).

(** The loop of [validateTools]; [seen] is the set of names met so far. *)
Fixpoint validate_tools_from (seen : list string) (tools : list ToolDefinition) : option tools_error :=
  match tools with
  | [] => None
  | t :: rest =>
      match Validate t with
      | Some e => Some (ToolInvalid e)
      | None =>
          if bool_decide (td_Name t ∈ seen) then Some (ToolDuplicate (td_Name t))
          else validate_tools_from (td_Name t :: seen) rest
      end
  end.
Definition validateTools (tools : list ToolDefinition) : option tools_error :=
  validate_tools_from [] tools.

(** ** Conversations *)
Definition invalid_request (provider msg : string) : ai_error :=
  AiError provider KindInvalidRequest msg.

Definition err_calls_role := "tool calls on a non-assistant message".
Definition err_results_role := "tool results must be on a RoleTool message".
Definition err_unanswered := "tool calls are not followed by their results".
Definition err_call_ids := "tool call without a unique id and name".
Definition err_one_result := "every tool call needs exactly one result".
Definition err_unknown_call := "tool result for an unknown call".

(** The set [want] of call ids, or [None] when an id is empty or repeated or a name empty. *)
Fixpoint wanted_ids (want : list string) (calls : list ToolCall) : option (list string) :=
  match calls with
  | [] => Some want
  | c :: rest =>
      if String.eqb (tc_ID c) "" || String.eqb (tc_Name c) "" || bool_decide (tc_ID c ∈ want)
      then None
      else wanted_ids (tc_ID c :: want) rest
  end.

(** Every result answers a call still in [want], which it then leaves. *)
Fixpoint results_answer (want : list string) (got : list ToolResult) : bool :=
  match got with
  | [] => true
  | r :: rest =>
      bool_decide (tr_CallID r ∈ want) &&
      results_answer (filter (fun x => x <> tr_CallID r) want) rest
  end.

(** One iteration of the loop: [m] is message [i], [next] is message [i+1] if there is one. *)
Definition check_message (m : Message) (next : option Message) : option string :=
  if bool_decide (m_ToolCalls m <> []) && negb (String.eqb (m_Role m) RoleAssistant)
  then Some err_calls_role
  else if (bool_decide (m_ToolResults m <> []) || String.eqb (m_Role m) RoleTool) &&
          (negb (String.eqb (m_Role m) RoleTool) || bool_decide (m_ToolResults m = []))
  then Some err_results_role
  else if bool_decide (m_ToolCalls m = []) then None
  else
    match next with
    | None => Some err_unanswered
    | Some n =>
        if negb (String.eqb (m_Role n) RoleTool) then Some err_unanswered
        else
          match wanted_ids [] (m_ToolCalls m) with
          | None => Some err_call_ids
          | Some want =>
              if negb (length (m_ToolResults n) =? length want)%nat then Some err_one_result
              else if negb (results_answer want (m_ToolResults n)) then Some err_unknown_call
              else None
          end
    end.

Fixpoint check_messages (msgs : list Message) : option string :=
  match msgs with
  | [] => None
  | m :: rest =>
      match check_message m (head rest) with
      | Some e => Some e
      | None => check_messages rest
      end
  end.

Definition validateConversation (provider : string) (msgs : list Message) : option ai_error :=
  match check_messages msgs with
  | Some e => Some (invalid_request provider e)
  | None =>
      match last msgs with
      | Some m => if bool_decide (m_ToolCalls m <> []) then Some (invalid_request provider err_unanswered) else None
      | None => None
      end
  end.

(** ** Requests and answers *)
Record Request := MkRequest {
  rq_Model : string; rq_System : string; rq_Messages : list Message; rq_MaxTokens : Z;
  rq_Temperature : SpecFloat.spec_float; rq_Tools : list ToolDefinition; rq_ToolChoice : string }.
Record Usage := MkUsage { us_InputTokens : Z; us_OutputTokens : Z; us_TotalTokens : Z }.
Inductive FinishReason := FinishStop | FinishToolCalls | FinishLength | FinishOther.
Record Response := MkResponse {
  rs_Text : string; rs_Model : string; rs_Usage : Usage;
  rs_ToolCalls : list ToolCall; rs_Finish : FinishReason }.
(** What the loop asks of a [Provider] besides [Complete]. *)
Record Provider := MkProvider { p_Name : string; p_ToolCalling : bool }.

Definition checkToolRequest (provider : string) (req : Request) : option ai_error :=
  match validateTools (rq_Tools req) with
  | Some _ => Some (invalid_request provider "tools")
  | None => validateConversation provider (rq_Messages req)
  end.

(** [argsObject]: the arguments are a JSON object; the empty string some providers send
    stands for the empty one. [json.Unmarshal] into a map accepts a valid document whose
    value is an object ([null] leaves the map nil, which the code refuses). *)
Definition argsObject (raw : string) : option string :=
  if String.eqb raw "" then Some "{}"
  else
    match json_compact raw with
    | Some (String c _) => if Ascii.eqb c "{" then Some raw else None
    | _ => None
    end.

(** The loop of the Chat Completions adapter over the calls of the answer: each is its id,
    name and arguments as the provider sent them. [None] is [invalidToolCall]. *)
Fixpoint openai_calls (wire : list (string * string * string)) : option (list ToolCall) :=
  match wire with
  | [] => Some []
  | (id, name, raw) :: rest =>
      match argsObject raw with
      | None => None
      | Some args =>
          if String.eqb id "" || String.eqb name "" then None
          else
            match openai_calls rest with
            | None => None
            | Some calls => Some (MkToolCall id name args None :: calls)
            end
      end
  end.

Definition finishFromOpenAI (r : string) : FinishReason :=
  if String.eqb r "stop" then FinishStop
  else if String.eqb r "tool_calls" || String.eqb r "function_call" then FinishToolCalls
  else if String.eqb r "length" then FinishLength
  else FinishOther.

(** The end of [openAICompat.Complete], from the decoded answer on. *)
Definition openai_response (tools : list ToolDefinition) (text model : string) (usage : Usage)
    (finish : string) (wire : list (string * string * string)) : option Response :=
  match (if bool_decide (tools = []) then Some [] else openai_calls wire) with
  | None => None
  | Some calls =>
      let f := finishFromOpenAI finish in
      match calls with
      | [] => Some (MkResponse text model usage [] f)
      | _ =>
          match f with
          | FinishLength => None
          | _ => Some (MkResponse text model usage calls FinishToolCalls)
          end
      end
  end.

(** ** Lemmas *)

(** Calls with distinct non-empty ids and non-empty names: what a conversation may carry. *)
Definition calls_ok (calls : list ToolCall) : Prop :=
  Forall (fun c => tc_ID c <> "" /\ tc_Name c <> "") calls /\ NoDup (map tc_ID calls).

Lemma wanted_ids_ok want calls :
  calls_ok calls -> (forall c, c ∈ calls -> tc_ID c ∉ want) ->
  wanted_ids want calls = Some (rev (map tc_ID calls) ++ want).
Proof.
  revert want. induction calls as [| c calls IH]; intros want [HF HN] Hw; simpl; [done |].
  apply Forall_cons in HF as [[Hid Hn] HF]. apply NoDup_cons in HN as [Hc HN].
  apply String.eqb_neq in Hid, Hn. rewrite Hid, Hn, bool_decide_eq_false_2 by (apply Hw; set_solver).
  simpl. rewrite IH.
  - by rewrite <- app_assoc.
  - by split.
  - intros c' Hc'. rewrite not_elem_of_cons. split; [| apply Hw; set_solver].
    intros E. apply Hc. rewrite <- E. by apply list_elem_of_fmap_2.
Qed.

(** Results in the order of their calls answer them, whatever else is wanted. *)
Lemma results_answer_ok want got :
  NoDup (map tr_CallID got) -> (forall r, r ∈ got -> tr_CallID r ∈ want) -> results_answer want got = true.
Proof.
  revert want. induction got as [| r got IH]; intros want HN Hw; simpl; [done |].
  apply NoDup_cons in HN as [Hr HN].
  rewrite bool_decide_eq_true_2 by (apply Hw; set_solver). simpl. apply IH; [done |].
  intros r' Hr'. rewrite list_elem_of_filter. split; [| apply Hw; set_solver].
  intros E. apply Hr. rewrite <- E. by apply list_elem_of_fmap_2.
Qed.

(** A message without tool calls passes or fails whatever follows it. *)
Lemma check_message_no_calls m next next' :
  m_ToolCalls m = [] -> check_message m next = check_message m next'.
Proof. unfold check_message. intros ->. simpl. by repeat case_match. Qed.

Lemma check_messages_app l r :
  (forall m, last l = Some m -> m_ToolCalls m = []) ->
  check_messages l = None -> check_messages r = None -> check_messages (l ++ r) = None.
Proof.
  induction l as [| m l IH]; intros Hlast Hl Hr; [done |].
  destruct l as [| m' l].
  - simpl in *. specialize (Hlast m eq_refl).
    rewrite (check_message_no_calls m (head r) None Hlast). by destruct (check_message m None).
  - change (last (m :: m' :: l)) with (last (m' :: l)) in Hlast.
    change (match check_message m (Some m') with Some e => Some e | None => check_messages ((m' :: l) ++ r) end = None).
    change (check_messages (m :: m' :: l)) with
      (match check_message m (Some m') with Some e => Some e | None => check_messages (m' :: l) end) in Hl.
    destruct (check_message m (Some m')); [done |]. by apply IH.
Qed.

(** The conversation is one a request may carry. *)
Definition conversation_ok (msgs : list Message) : Prop :=
  check_messages msgs = None /\ (forall m, last msgs = Some m -> m_ToolCalls m = []).

Lemma conversation_ok_validate provider msgs :
  conversation_ok msgs <-> validateConversation provider msgs = None.
Proof.
  unfold conversation_ok, validateConversation. destruct (check_messages msgs); [by split; [intros [? _] |] |].
  destruct (last msgs) as [m |]; [| done].
  case_bool_decide as H; split; try done.
  - intros [_ Hm]. by specialize (Hm m eq_refl).
  - intros _. split; [done |]. intros m' [= <-]. by destruct (m_ToolCalls m).
Qed.

Lemma conversation_ok_app l r : conversation_ok l -> conversation_ok r -> conversation_ok (l ++ r).
Proof.
  intros [Hl Hll] [Hr Hlr]. split; [by apply check_messages_app |].
  intros m. rewrite last_app. destruct (last r) as [mr |]; intros H; simplify_eq; eauto.
Qed.

(** One round of the loop: an answer with calls, and a result for each, in order. *)
Lemma conversation_ok_round content calls results :
  calls <> [] -> calls_ok calls -> map tr_CallID results = map tc_ID calls ->
  conversation_ok [MkMessage RoleAssistant content calls []; MkMessage RoleTool "" [] results].
Proof.
  intros Hne Hok Hids. split; [| intros m [= <-]; done].
  assert (Hr : results <> []) by (intros ->; by destruct calls).
  simpl check_messages. unfold check_message. simpl.
  rewrite wanted_ids_ok; [| done | set_solver].
  rewrite (bool_decide_eq_true_2 (calls <> [])), (bool_decide_eq_false_2 (calls = [])) by done.
  rewrite app_nil_r, length_rev, length_map.
  rewrite <- (length_map tc_ID calls), <- Hids, length_map, Nat.eqb_refl. simpl.
  destruct Hok as [_ HN]. rewrite results_answer_ok.
  - rewrite (bool_decide_eq_true_2 (results <> [])), (bool_decide_eq_false_2 (results = [])) by done. done.
  - by rewrite Hids.
  - intros r Hr'. apply list_elem_of_In. rewrite <- in_rev. apply list_elem_of_In.
    rewrite ?Hids, <- ?Hids. by apply list_elem_of_fmap_2.
Qed.

Lemma openai_calls_ids wire calls :
  openai_calls wire = Some calls -> Forall (fun c => tc_ID c <> "" /\ tc_Name c <> "") calls.
Proof.
  revert calls. induction wire as [| [[id name] raw] wire IH]; intros calls H; simpl in H.
  - injection H as <-. constructor.
  - repeat break_match_in H; simplify_eq. bool_hyps. constructor; [| by apply IH].
    by split; apply String.eqb_neq.
Qed.
