(* ===== verification/Catalog.v ===== *)
(** The catalog of the tools the chatbot's AI may call and the policy that decides about a
    call ([internal/aitools/aitools.go], [policy.go] and the specification part of
    [write.go]). *)
From S2P Require Import Prelude GoText AiContract.

(** ** Tools as code declares them *)
Inductive Risk := RiskRead | RiskWrite | RiskOther (s : string).
#[global] Instance Risk_eq_dec : EqDecision Risk.
Proof. solve_decision. Defined.

Inductive ActorKind := ActorAI | ActorHuman | ActorSystem.
Record Actor := MkActor { a_Kind : ActorKind; a_Ref : string }.
Definition AIActor (feature : string) : Actor := MkActor ActorAI feature.

Record Scope := MkScope {
  sc_OrganizationID : uuid; sc_ContactID : option uuid; sc_SessionID : option uuid;
  sc_WhatsAppAccount : string }.

(** Texts of the server; [None] is a nil function. *)
Record ConfirmSpec := MkConfirmSpec {
  cs_Prompt : option (duration -> string);
  cs_ConfirmLabel : string; cs_DeclineLabel : string;
  cs_DeclinedText : string; cs_ExpiredText : string;
  cs_OutcomeText : option (string -> string) }.

Definition maxButtonTitle : Z := 20.
(** [len([]rune(s))] *)
Definition rune_count (s : string) : Z := Z.of_nat (length (runes s)).

Definition confirm_valid (c : option ConfirmSpec) : bool :=
  match c with
  | None => false
  | Some c =>
      bool_decide (cs_Prompt c <> None) && bool_decide (cs_OutcomeText c <> None) &&
      negb (String.eqb (cs_DeclinedText c) "") && negb (String.eqb (cs_ExpiredText c) "") &&
      negb (String.eqb (cs_ConfirmLabel c) "") && negb (String.eqb (cs_DeclineLabel c) "") &&
      (rune_count (cs_ConfirmLabel c) <=? maxButtonTitle) &&
      (rune_count (cs_DeclineLabel c) <=? maxButtonTitle)
  end.

Section Catalog.
(** The factories of read and of write tools. *)
Context {RF WF : Type}.

Record ToolSpec := MkToolSpec {
  ts_Name : string; ts_Description : string; ts_Parameters : option json;
  ts_Risk : Risk; ts_Features : list string;
  ts_Factory : option RF; ts_WriteFactory : option WF; ts_Confirm : option ConfirmSpec }.

(** [ToolSpec{}], what a map read of an unknown name gives. *)
Definition zero_spec : ToolSpec := MkToolSpec "" "" None (RiskOther "") [] None None None.

Definition Definition_ (s : ToolSpec) : ToolDefinition :=
  MkToolDefinition (ts_Name s) (ts_Description s) (ts_Parameters s).

(** [for _, f := range s.Features] *)
Definition featureAllowed (s : ToolSpec) (feature : string) : bool :=
  match ts_Features s with
  | [] => true
  | fs => existsb (fun f => String.eqb f feature) fs
  end.

(** ** The catalog *)
Inductive catalog_error :=
  | BadDefinition (e : tool_error) | NoRisk | NoFactory | ReadWithWrite
  | NoWriteFactory | WriteWithRead | IncompleteConfirmation | DuplicateTool.

Record Catalog := MkCatalog { cat_specs : gmap string ToolSpec; cat_names : list string }.

(** What [NewCatalog] checks of one spec before it looks for a duplicate. *)
Definition check_spec (s : ToolSpec) : option catalog_error :=
  match Validate (Definition_ s) with
  | Some e => Some (BadDefinition e)
  | None =>
      match ts_Risk s with
      | RiskRead =>
          if bool_decide (ts_Factory s = None) then Some NoFactory
          else if negb (bool_decide (ts_WriteFactory s = None)) || negb (bool_decide (ts_Confirm s = None))
          then Some ReadWithWrite else None
      | RiskWrite =>
          if bool_decide (ts_WriteFactory s = None) then Some NoWriteFactory
          else if negb (bool_decide (ts_Factory s = None)) then Some WriteWithRead
          else if negb (confirm_valid (ts_Confirm s)) then Some IncompleteConfirmation else None
      | RiskOther _ => Some NoRisk
      end
  end.

(** The loop over the specs; [names] in the order they were appended. *)
Fixpoint add_specs (specs : list ToolSpec) (m : gmap string ToolSpec) (names : list string)
    : option catalog_error * gmap string ToolSpec * list string :=
  match specs with
  | [] => (None, m, names)
  | s :: rest =>
      match check_spec s with
      | Some e => (Some e, m, names)
      | None =>
          match m !! ts_Name s with
          | Some _ => (Some DuplicateTool, m, names)
          | None => add_specs rest (<[ts_Name s := s]> m) (names ++ [ts_Name s])
          end
      end
  end.

Definition NewCatalog (specs : list ToolSpec) : catalog_error + Catalog :=
  match add_specs specs ∅ [] with
  | (Some e, _, _) => inl e
  | (None, m, names) => inr (MkCatalog m (sort_strings names))
  end.

(** A nil catalog ([None]) has no tools. *)
Definition Get (c : option Catalog) (name : string) : ToolSpec * bool :=
  match c with
  | None => (zero_spec, false)
  | Some c => match cat_specs c !! name with Some s => (s, true) | None => (zero_spec, false) end
  end.
Definition Names (c : option Catalog) : list string :=
  match c with None => [] | Some c => cat_names c end.
End Catalog.
Arguments ToolSpec : clear implicits.
Arguments Catalog : clear implicits.

(** ** The policy *)
Inductive DenyReason :=
  | DenyGlobalOff | DenyUnknownTool | DenyNotEnabled | DenyFeatureNotAllowed
  | DenyWriteDisabled | DenyConfirmationUnavailable | DenyLoopLimit
  | DenyAuditUnavailable | DenyArgsTooLarge
  | AIToolDenyProviderNotValidated | AIToolDenyChatbotDisabled | AIToolDenyTampered.
#[global] Instance DenyReason_eq_dec : EqDecision DenyReason.
Proof. solve_decision. Defined.

Record PolicyInput := MkPolicyInput {
  pi_GlobalEnabled : bool; pi_Known : bool; pi_OrgEnabled : bool; pi_Risk : Risk;
  pi_FeatureAllowed : bool; pi_WriteEnabled : bool; pi_ConfirmationAvailable : bool }.

(** [v_Reason] is [None] for the empty reason of an allowed call. *)
Record Verdict := MkVerdict { v_Allowed : bool; v_Reason : option DenyReason; v_NeedsConfirmation : bool }.
Definition deny (r : DenyReason) : Verdict := MkVerdict false (Some r) false.

Definition Authorize (i : PolicyInput) : Verdict :=
  if negb (pi_GlobalEnabled i) then deny DenyGlobalOff
  else if negb (pi_Known i) then deny DenyUnknownTool
  else if negb (pi_OrgEnabled i) then deny DenyNotEnabled
  else if negb (pi_FeatureAllowed i) then deny DenyFeatureNotAllowed
  else
    match pi_Risk i with
    | RiskRead => MkVerdict true None false
    | RiskWrite =>
        if negb (pi_WriteEnabled i) then deny DenyWriteDisabled
        else if negb (pi_ConfirmationAvailable i) then deny DenyConfirmationUnavailable
        else MkVerdict true None true
    | RiskOther _ => deny DenyConfirmationUnavailable
    end.

(** What an allowed call has: the conjunction of the policy's conditions. *)
Definition permitted (i : PolicyInput) : Prop :=
  pi_GlobalEnabled i = true /\ pi_Known i = true /\ pi_OrgEnabled i = true /\
  pi_FeatureAllowed i = true /\
  (pi_Risk i = RiskRead \/
   (pi_Risk i = RiskWrite /\ pi_WriteEnabled i = true /\ pi_ConfirmationAvailable i = true)).

Lemma Authorize_allowed i : v_Allowed (Authorize i) = true <-> permitted i.
Proof.
  destruct i as [[] [] [] r [] w a]; unfold Authorize, permitted; simpl;
    try (split; [done | by intros (? & ? & ? & ? & _)]).
  destruct r, w, a; simpl; intuition congruence.
Qed.

Lemma Authorize_reason i : v_Allowed (Authorize i) = false <-> exists r, v_Reason (Authorize i) = Some r.
Proof.
  destruct i as [[] [] [] r [] w a]; unfold Authorize; simpl; try (by split; eauto).
  destruct r, w, a; simpl; split; try done; try (by intros [? ?]); eauto.
Qed.

Lemma Authorize_write i :
  v_NeedsConfirmation (Authorize i) = true <-> v_Allowed (Authorize i) = true /\ pi_Risk i = RiskWrite.
Proof.
  destruct i as [[] [] [] r [] w a]; unfold Authorize; simpl; try (by split; [| intros [? ?]]).
  destruct r, w, a; simpl; intuition congruence.
Qed.

(** ** What a catalog holds *)
Section CatalogProofs.
Context {RF WF : Type}.
Implicit Types s : ToolSpec RF WF.

(** A spec of the catalog: a read tool has only a read factory, a write tool only a write
    factory and a complete confirmation. *)
Definition spec_ok s : Prop :=
  Validate (Definition_ s) = None /\
  ((ts_Risk s = RiskRead /\ (exists f, ts_Factory s = Some f) /\ ts_WriteFactory s = None /\ ts_Confirm s = None) \/
   (ts_Risk s = RiskWrite /\ (exists f, ts_WriteFactory s = Some f) /\ ts_Factory s = None /\
    confirm_valid (ts_Confirm s) = true)).

Lemma check_spec_ok s : check_spec s = None <-> spec_ok s.
Proof.
  unfold check_spec, spec_ok. destruct (Validate (Definition_ s)); [split; [done | by intros [? _]] |].
  destruct (ts_Risk s), (ts_Factory s) as [f |], (ts_WriteFactory s) as [g |]; simpl;
    rewrite ?bool_decide_eq_true_2, ?bool_decide_eq_false_2 by done; simpl;
    try (split; [done | intros [_ [(? & [? ?] & ? & ?) | (? & [? ?] & ? & ?)]]; done]).
  - case_bool_decide; simpl; split; try done; [by eauto 10 |].
    intros [_ [(? & _ & _ & ?) | (? & _)]]; done.
  - destruct (confirm_valid (ts_Confirm s)); simpl; split; try done; [by eauto 10 |].
    intros [_ [(? & _) | (_ & _ & _ & ?)]]; done.
Qed.

Lemma add_specs_ok specs m names m' names' :
  add_specs specs m names = (None, m', names') ->
  (forall n, n ∈ names <-> is_Some (m !! n)) -> NoDup names ->
  (forall n s, m !! n = Some s -> ts_Name s = n) ->
  names' = names ++ map ts_Name specs /\ NoDup names' /\ Forall (fun s => check_spec s = None) specs /\
  (forall n s, m' !! n = Some s <-> m !! n = Some s \/ (s ∈ specs /\ ts_Name s = n)).
Proof.
  revert m names. induction specs as [| s specs IH]; intros m names H Hdom HN Hm; simpl in H.
  - injection H as <- <-. split_and!; [by rewrite app_nil_r | done | constructor |].
    intros n s. split; [auto | intros [? | [Hs _]]; [done | by apply not_elem_of_nil in Hs]].
  - destruct (check_spec s) eqn:Hs; [done |]. destruct (m !! ts_Name s) eqn:Hl; [done |].
    assert (Hnew : ts_Name s ∉ names) by (rewrite Hdom, Hl; by intros [? ?]).
    apply IH in H as (-> & HN' & HF & Hget).
    + split_and!; [by rewrite <- app_assoc | done | by constructor |].
      intros n s'. rewrite Hget, elem_of_cons, lookup_insert_Some. split.
      * intros [[(<- & ->) | [_ ?]] | [? ?]]; auto.
      * intros [? | [[-> | ?] <-]]; auto. left. right. split; [| done]. intros <-. congruence.
    + intros n. rewrite elem_of_app, list_elem_of_singleton, Hdom, lookup_insert_is_Some'.
      split; intros [? | ?]; auto.
    + apply NoDup_app. split_and!; [done | | apply NoDup_singleton].
      intros n Hn. rewrite list_elem_of_singleton. by intros ->.
    + intros n s'. rewrite lookup_insert_Some. intros [(<- & <-) | [_ ?]]; auto.
Qed.

Lemma NewCatalog_facts (specs : list (ToolSpec RF WF)) c :
  NewCatalog specs = inr c ->
  Forall spec_ok specs /\
  (forall n s, Get (Some c) n = (s, true) <-> s ∈ specs /\ ts_Name s = n) /\
  Names (Some c) ≡ₚ map ts_Name specs /\ NoDup (Names (Some c)) /\ StronglySorted str_ltb_rel (Names (Some c)).
Proof.
  unfold NewCatalog. destruct (add_specs specs ∅ []) as [[[e |] m] names] eqn:E; intros [= <-].
  apply add_specs_ok in E as (-> & HN & HF & Hget).
  - simpl. pose proof (sort_strings_perm (map ts_Name specs)) as Hp. split_and!.
    + eapply Forall_impl; [done |]. intros s. apply check_spec_ok.
    + intros n s. specialize (Hget n). destruct (m !! n) as [s' |] eqn:El.
      * specialize (Hget s). rewrite lookup_empty in Hget. split; [intros [= ->]; by destruct (proj1 Hget eq_refl) |].
        intros Hs. destruct Hget as [_ Hget]. specialize (Hget (or_intror Hs)). by injection Hget as ->.
      * split; [done |]. intros Hs. destruct (Hget s) as [_ H]. by specialize (H (or_intror Hs)).
    + done.
    + by rewrite Hp.
    + apply sort_strings_sorted.
  - intros n. rewrite lookup_empty. split; [intros Hn; by apply not_elem_of_nil in Hn | by intros [? ?]].
  - constructor.
  - intros n s. by rewrite lookup_empty.
Qed.

(** A catalog that was built holds exactly the given specs under their names, each name
    once and in order, and every spec is complete for its class of risk: in particular no
    write tool can be built with the factory of a read tool. *)
Theorem NewCatalog_sound (specs : list (ToolSpec RF WF)) c :
  NewCatalog specs = inr c ->
  Forall spec_ok specs /\
  (forall n s, Get (Some c) n = (s, true) <-> s ∈ specs /\ ts_Name s = n) /\
  Names (Some c) ≡ₚ map ts_Name specs /\ NoDup (Names (Some c)) /\ StronglySorted str_ltb_rel (Names (Some c)).
Proof. apply NewCatalog_facts. Qed.
End CatalogProofs.

Definition example_read : ToolSpec nat nat :=
  MkToolSpec "get_business_hours" "" (Some (JObj [("type", JStr "object")])) RiskRead [] (Some 0%nat) None None.
Lemma NewCatalog_sound_witness :
  exists c, NewCatalog [example_read] = inr c /\ Get (Some c) "get_business_hours" = (example_read, true).
Proof.
  eexists. split; [vm_compute; reflexivity |].
  refine (proj2 (proj1 (proj2 (NewCatalog_sound [example_read] _ _)) _ _) _).
  - vm_compute. reflexivity.
  - split; [constructor | reflexivity].
Defined.

(** The policy denies by default: a call is allowed exactly when every condition of its
    class holds, a denial always has a reason, and an allowed write only proposes. *)
Theorem Authorize_decides i :
  (v_Allowed (Authorize i) = true <-> permitted i) /\
  (v_Allowed (Authorize i) = false <-> exists r, v_Reason (Authorize i) = Some r) /\
  (v_NeedsConfirmation (Authorize i) = true <-> v_Allowed (Authorize i) = true /\ pi_Risk i = RiskWrite).
Proof. split_and!; [apply Authorize_allowed | apply Authorize_reason | apply Authorize_write]. Qed.
