(* ===== verification/Resolver.v ===== *)
(** The governed resolver of one run of the tool loop ([internal/aitools/resolver.go]): what
    is offered to the model, what answers each name it sends, and the audit around a call.
    The auditor, the tools and the confirmation store are the operations of [gov_op]. *)
From S2P Require Import Prelude GoText GoJson Effects AiContract Catalog ToolLoop.

Definition genericUnavailable : string := "error: this tool is not available".
Definition genericFailed : string := "error: tool failed".

(** [models.AIToolCall*] of an outcome and [Outcome.ErrorKind] ([None] when it did not fail). *)
Inductive CallStatus := AIToolCallExecuted | AIToolCallFailed.
Inductive RunErrorKind := KToolError | KPanic | KTimeout.

Record Attempt := MkAttempt {
  at_RunID : uuid; at_Step : Z; at_Call : ToolCall; at_Risk : Risk; at_Actor : Actor; at_Scope : Scope }.
Record Outcome := MkOutcome {
  o_Status : CallStatus; o_ResultBytes : Z; o_Truncated : bool; o_ResultError : bool;
  o_ErrorKind : option RunErrorKind; o_Duration : duration }.

(** What building and running a tool gives: the factory returned nil, the tool (or the
    factory) panicked, it failed with or without a deadline, or it answered. *)
Inductive run_answer (A : Type) := RNil | RPanic | RTimeout | RError | RDone (a : A).
Arguments RNil {A}. Arguments RPanic {A}. Arguments RTimeout {A}. Arguments RError {A}.
Arguments RDone {A} a.

Inductive ProposeError := ErrTooManyProposals | ErrRecentlyDeclined | ErrProposeOther.

Definition result_of (content : string) (is_error : bool) : ToolResult := MkToolResult "" "" content is_error.
Definition unavailable : ToolResult := result_of genericUnavailable true.

(** [NotAvailableResult]: the encoder writes the keys in order; the reasons are plain words. *)
Definition NotAvailableResult (reason : string) : ToolResult :=
  result_of (dq "{'reason':'" +:+ reason +:+ dq "','status':'not_available','transfer_performed':false}") false.
Definition NotAvailableAlreadyWithAgent : string := "already_with_agent".
Definition NotAvailableOutsideHours : string := "outside_business_hours".
Definition NotAvailableTooManyRequests : string := "too_many_requests".
Definition NotAvailableRecentlyDeclined : string := "recently_declined".

Section Resolver.
(** The factories, the proposals' arguments and the stored confirmations. *)
Context {RF WF Args Conf : Type}.
Abbreviation ToolSpec := (ToolSpec RF WF).

(** [PendingConfirmation], without the run-independent [TTL]. *)
Record PendingConfirmation := MkPending {
  pc_Token : string; pc_Confirmation : Conf; pc_Spec : option ConfirmSpec; pc_ToolName : string }.

Record ResolverConfig := MkResolverConfig {
  rc_Catalog : option (Catalog RF WF); rc_GlobalEnabled : bool; rc_Enabled : gset string;
  rc_Actor : Actor; rc_Scope : Scope; rc_WriteEnabled : bool; rc_ConfirmationAvailable : bool;
  rc_HasStore : bool; rc_RunID : uuid; rc_MaxResultBytes : Z }.

(** The mutable part of a [Resolver]: the step counter and the latest proposal. *)
Record RState := MkRState { rs_step : Z; rs_pending : option PendingConfirmation }.

Record ProposeInput := MkProposeInput {
  pin_Scope : Scope; pin_RunID : uuid; pin_Tool : string; pin_Args : Args; pin_ProposalCallID : option uuid }.

Inductive gov_op : Type -> Type :=
  | ORequested (a : Attempt) : gov_op (option uuid)
  | ODenied (a : Attempt) (reason : DenyReason) : gov_op bool
  | OFinish (id : uuid) (o : Outcome) : gov_op bool
  | ORunRead (f : RF) (sc : Scope) (c : ToolCall) : gov_op (run_answer ToolResult)
  | OPropose (f : WF) (sc : Scope) (c : ToolCall) : gov_op (run_answer (option Args * ToolResult))
  | OStorePropose (i : ProposeInput) : gov_op (result ProposeError (string * Conf))
  | ONow : gov_op instant.

(** [NewResolver]: the organization's enabled tools are read once, for the run; a source that
    is missing or fails leaves none. [fresh] is the new run id. *)
Definition NewResolver (cfg : ResolverConfig) (given : option (gset string))
    (src : option (result string (gset string))) (fresh : uuid) (default_catalog : Catalog RF WF) : ResolverConfig :=
  let enabled :=
    match given with
    | Some e => e
    | None => if rc_GlobalEnabled cfg then match src with Some (Ok e) => e | _ => ∅ end else ∅
    end in
  MkResolverConfig (Some (default default_catalog (rc_Catalog cfg))) (rc_GlobalEnabled cfg) enabled
    (rc_Actor cfg) (rc_Scope cfg) (rc_WriteEnabled cfg) (rc_ConfirmationAvailable cfg) (rc_HasStore cfg)
    (if N.eqb (rc_RunID cfg) nil_uuid then fresh else rc_RunID cfg)
    (or_default (rc_MaxResultBytes cfg) (MaxResultBytes DefaultLimits)).

Definition verdict (cfg : ResolverConfig) (name : string) : ToolSpec * Verdict :=
  let '(spec, known) := Get (rc_Catalog cfg) name in
  (spec, Authorize (MkPolicyInput (rc_GlobalEnabled cfg) known (bool_decide (name ∈ rc_Enabled cfg))
     (ts_Risk spec) (known && featureAllowed spec (a_Ref (rc_Actor cfg)))
     (rc_WriteEnabled cfg) (rc_ConfirmationAvailable cfg))).

Definition Definitions (cfg : ResolverConfig) : list ToolDefinition :=
  flat_map (fun name => let '(spec, v) := verdict cfg name in
                        if v_Allowed v then [Definition_ spec] else [])
    (Names (rc_Catalog cfg)).

(** What [Resolve] hands to the loop: never the real tool. *)
Inductive ResolvedTool := deniedTool (reason : option DenyReason) | governedTool (spec : ToolSpec).

Definition Resolve (cfg : ResolverConfig) (name : string) : ResolvedTool :=
  let '(spec, v) := verdict cfg name in
  if v_Allowed v then governedTool spec else deniedTool (v_Reason v).

Section Run.
Context (cfg : ResolverConfig).

Definition no_opaque (c : ToolCall) : ToolCall :=
  MkToolCall (tc_ID c) (tc_Name c) (tc_Arguments c) None.

(** [r.attempt]: counts the step. *)
Definition attempt (st : RState) (c : ToolCall) (risk : Risk) : Attempt * RState :=
  (MkAttempt (rc_RunID cfg) (rs_step st + 1) (no_opaque c) risk (rc_Actor cfg) (rc_Scope cfg),
   MkRState (rs_step st + 1) (rs_pending st)).

(** [r.recordDenied]: a failure is only logged. *)
Definition recordDenied (a : Attempt) (reason : DenyReason) : prog gov_op unit :=
  _ ← call (ODenied a reason); mret tt.

(** [deniedTool.Execute] and [deniedTool.Reject] do the same. The reason of a denied verdict
    is never empty ([Authorize_reason]). *)
Definition denied_answer (reason : option DenyReason) (st : RState) (c : ToolCall)
    : prog gov_op (RState * ToolResult) :=
  let '(spec, _) := Get (rc_Catalog cfg) (tc_Name c) in
  let '(a, st) := attempt st c (ts_Risk spec) in
  _ ← recordDenied a (default DenyConfirmationUnavailable reason);
  mret (st, unavailable).

Definition governed_Reject (spec : ToolSpec) (st : RState) (c : ToolCall) : prog gov_op (RState * ToolResult) :=
  let '(a, st) := attempt st c (ts_Risk spec) in
  _ ← recordDenied a DenyArgsTooLarge;
  mret (st, unavailable).

(** [g.run]: the real tool is built and run; [inr] is an error kind. *)
Definition run_read (spec : ToolSpec) (c : ToolCall) : prog gov_op (ToolResult + RunErrorKind) :=
  match ts_Factory spec with
  | None => mret (inr KPanic) (* calling a nil function *)
  | Some f =>
      x ← call (ORunRead f (rc_Scope cfg) c);
      mret match x with
           | RNil | RError => inr KToolError
           | RPanic => inr KPanic
           | RTimeout => inr KTimeout
           | RDone res => inl res
           end
  end.

(** [g.propose]: the tool proposes, the proposal is stored. *)
Definition propose (spec : ToolSpec) (st : RState) (c : ToolCall) (proposalCallID : uuid)
    : prog gov_op (RState * (ToolResult + RunErrorKind)) :=
  match ts_WriteFactory spec with
  | None => mret (st, inr KPanic)
  | Some f =>
      x ← call (OPropose f (rc_Scope cfg) c);
      match x with
      | RNil | RError => mret (st, inr KToolError)
      | RPanic => mret (st, inr KPanic)
      | RTimeout => mret (st, inr KTimeout)
      | RDone (None, res) => mret (st, inl res)
      | RDone (Some args, res) =>
          s ← call (OStorePropose (MkProposeInput (rc_Scope cfg) (rc_RunID cfg) (ts_Name spec) args
                                     (Some proposalCallID)));
          match s with
          | Err ErrProposeOther => mret (st, inr KToolError)
          | Err ErrTooManyProposals => mret (st, inl (NotAvailableResult NotAvailableTooManyRequests))
          | Err ErrRecentlyDeclined => mret (st, inl (NotAvailableResult NotAvailableRecentlyDeclined))
          | Ok (token, conf) =>
              mret (MkRState (rs_step st) (Some (MkPending token conf (ts_Confirm spec) (ts_Name spec))), inl res)
          end
      end
  end.

(** [r.finish]: a second try of the write of the outcome, never of the tool. *)
Definition finish (id : uuid) (o : Outcome) : prog gov_op unit :=
  ok ← call (OFinish id o);
  if ok : bool then mret tt else _ ← call (OFinish id o); mret tt.

(** The outcome of a run and what the model hears. *)
Definition outcome_of (x : ToolResult + RunErrorKind) (took : duration) : Outcome * ToolResult :=
  match x with
  | inl res =>
      (MkOutcome AIToolCallExecuted (str_len (tr_Content res)) (rc_MaxResultBytes cfg <? str_len (tr_Content res))
         (tr_IsError res) None took, res)
  | inr k => (MkOutcome AIToolCallFailed 0 (rc_MaxResultBytes cfg <? 0) false (Some k) took, result_of genericFailed true)
  end.

(** The frame both kinds of tool share: "requested" first, then the tool, then the outcome. *)
Definition audited (st : RState) (a : Attempt) (body : uuid -> prog gov_op (RState * (ToolResult + RunErrorKind)))
    : prog gov_op (RState * ToolResult) :=
  id ← call (ORequested a);
  match id with
  | None => _ ← recordDenied a DenyAuditUnavailable; mret (st, unavailable)
  | Some id =>
      started ← call ONow;
      '(st, x) ← body id;
      ended ← call ONow;
      let '(o, res) := outcome_of x (time_sub ended started) in
      _ ← finish id o;
      mret (st, res)
  end.

Definition executeWrite (spec : ToolSpec) (st : RState) (c : ToolCall) : prog gov_op (RState * ToolResult) :=
  if negb (rc_HasStore cfg) then denied_answer (Some DenyConfirmationUnavailable) st c
  else
    let '(a, st) := attempt st c RiskWrite in
    audited st a (fun id => propose spec st c id).

Definition governed_Execute (spec : ToolSpec) (st : RState) (c : ToolCall) : prog gov_op (RState * ToolResult) :=
  let '(_, v) := verdict cfg (ts_Name spec) in
  if negb (v_Allowed v) then denied_answer (v_Reason v) st c
  else if bool_decide (ts_Risk spec = RiskWrite) then executeWrite spec st c
  else
    let '(a, st) := attempt st c (ts_Risk spec) in
    audited st a (fun _ => x ← run_read spec c; mret (st, x)).

Definition Execute (t : ResolvedTool) (st : RState) (c : ToolCall) : prog gov_op (RState * ToolResult) :=
  match t with
  | deniedTool reason => denied_answer reason st c
  | governedTool spec => governed_Execute spec st c
  end.
Definition Reject (t : ResolvedTool) (st : RState) (c : ToolCall) : prog gov_op (RState * ToolResult) :=
  match t with
  | deniedTool reason => denied_answer reason st c
  | governedTool spec => governed_Reject spec st c
  end.

Fixpoint RecordAborted (st : RState) (calls : list ToolCall) : prog gov_op RState :=
  match calls with
  | [] => mret st
  | c :: rest =>
      let '(spec, _) := Get (rc_Catalog cfg) (tc_Name c) in
      let '(a, st) := attempt st (no_opaque c) (ts_Risk spec) in
      _ ← recordDenied a DenyLoopLimit;
      RecordAborted st rest
  end.
End Run.
End Resolver.

(** ** What is offered and what may run *)
Section ResolverProofs.
Context {RF WF Args Conf : Type}.
Context (cfg : ResolverConfig (RF := RF) (WF := WF)).
Abbreviation gop := (@gov_op RF WF Args Conf).

(** The tool [spec], known under [name], passes every condition of the policy. *)
Definition available (name : string) (spec : ToolSpec RF WF) : Prop :=
  Get (rc_Catalog cfg) name = (spec, true) /\ rc_GlobalEnabled cfg = true /\ name ∈ rc_Enabled cfg /\
  featureAllowed spec (a_Ref (rc_Actor cfg)) = true /\
  (ts_Risk spec = RiskRead \/
   (ts_Risk spec = RiskWrite /\ rc_WriteEnabled cfg = true /\ rc_ConfirmationAvailable cfg = true)).

Lemma verdict_available name spec v :
  verdict cfg name = (spec, v) -> v_Allowed v = true <-> available name spec.
Proof.
  unfold verdict, available. destruct (Get (rc_Catalog cfg) name) as [s known] eqn:E. intros [= -> <-].
  rewrite Authorize_allowed. unfold permitted. simpl. rewrite bool_decide_eq_true. destruct known; simpl.
  - intuition congruence.
  - split; [intros (_ & H & _); done |]. intros (H & _). done.
Qed.

Lemma Resolve_governed name spec : Resolve cfg name = governedTool spec <-> available name spec.
Proof.
  unfold Resolve. destruct (verdict cfg name) as [s v] eqn:E.
  assert (Hs : forall spec, available name spec -> s = spec)
    by (intros ? [Hs _]; unfold verdict in E; rewrite Hs in E; congruence).
  destruct (v_Allowed v) eqn:Ev; split; try done.
  - intros [= ->]. by apply (verdict_available _ _ _ E).
  - intros Ha. by rewrite (Hs spec Ha).
  - intros Ha. specialize (Hs spec Ha). subst s. apply (verdict_available _ _ _ E) in Ha. congruence.
Qed.

(** Every tool the catalog knows is listed under its own name. *)
Definition catalog_listed (c : option (Catalog RF WF)) : Prop :=
  forall n s, Get c n = (s, true) -> n ∈ Names c /\ ts_Name s = n.

Lemma NewCatalog_listed (specs : list (ToolSpec RF WF)) c : NewCatalog specs = inr c -> catalog_listed (Some c).
Proof.
  intros H n s Hs. destruct (NewCatalog_facts _ _ H) as (_ & Hget & Hp & _).
  apply Hget in Hs as [Hin <-]. split; [| done]. rewrite Hp. by apply list_elem_of_fmap_2.
Qed.

Lemma Definitions_offered d :
  catalog_listed (rc_Catalog cfg) ->
  d ∈ Definitions cfg <-> exists name spec, available name spec /\ d = Definition_ spec.
Proof.
  intros Hl. unfold Definitions. rewrite list_elem_of_In, in_flat_map. split.
  - intros (name & _ & Hd). destruct (verdict cfg name) as [spec v] eqn:E.
    destruct (v_Allowed v) eqn:Ev; [| done]. destruct Hd as [<- | []].
    exists name, spec. split; [by apply (verdict_available _ _ _ E) | done].
  - intros (name & spec & Ha & ->). exists name. pose proof Ha as [Hs _]. split.
    + apply list_elem_of_In. by apply (Hl name spec).
    + destruct (verdict cfg name) as [s v] eqn:E.
      assert (s = spec) as -> by (unfold verdict in E; rewrite Hs in E; by injection E).
      rewrite (proj2 (verdict_available _ _ _ E) Ha). by left.
Qed.

(** *** The trace of one call *)
Definition is_run (e : event gop) : bool :=
  match e with Ev op _ => match op with ORunRead _ _ _ | OPropose _ _ _ => true | _ => false end end.
Definition is_ask (e : event gop) : bool :=
  match e with Ev op _ => match op with ORequested _ | ODenied _ _ => true | _ => false end end.

(** The call was recorded as requested, and nothing ran since. *)
Definition requested (c : ToolCall) (risk : Risk) (g : list (event gop)) : Prop :=
  (exists a id, Ev (ORequested a) (Some id) ∈ g /\ at_Call a = no_opaque c /\ at_Risk a = risk) /\
  Forall (fun e => is_run e = false) g.

(** What has to hold, and to have happened, when an operation is performed. *)
Definition governed_pre (c : ToolCall) X (op : gop X) (g : list (event gop)) : Prop :=
  match op with
  | ORunRead f sc c' =>
      c' = c /\ sc = rc_Scope cfg /\ requested c RiskRead g /\
      exists name spec, available name spec /\ ts_Risk spec = RiskRead /\ ts_Factory spec = Some f
  | OPropose f sc c' =>
      c' = c /\ sc = rc_Scope cfg /\ requested c RiskWrite g /\ rc_HasStore cfg = true /\
      exists name spec, available name spec /\ ts_Risk spec = RiskWrite /\ ts_WriteFactory spec = Some f
  | OStorePropose i =>
      pin_Scope i = rc_Scope cfg /\ pin_RunID i = rc_RunID cfg /\
      exists f res, Ev (OPropose f (rc_Scope cfg) c) (RDone (Some (pin_Args i), res)) ∈ g
  | OFinish id _ => exists a, Ev (ORequested a) (Some id) ∈ g
  | _ => True
  end.

(** The call was recorded, with its number in the run. *)
Definition recorded (st : @RState Conf) (c : ToolCall) (g : list (event gop)) : Prop :=
  exists a, (Ev (ORequested a) None ∈ g \/ (exists id, Ev (ORequested a) (Some id) ∈ g) \/
             (exists r ok, Ev (ODenied a r) ok ∈ g)) /\
    at_Call a = no_opaque c /\ at_Step a = rs_step st + 1 /\ at_RunID a = rc_RunID cfg /\
    at_Actor a = rc_Actor cfg /\ at_Scope a = rc_Scope cfg.

Definition executed_post (st : @RState Conf) (c : ToolCall) (x : @RState Conf * ToolResult) (g : list (event gop)) : Prop :=
  rs_step (fst x) = rs_step st + 1 /\ recorded st c g /\
  (Forall (fun e => is_run e = false) g -> tr_IsError (snd x) = true).

Abbreviation governed c := (ensures (governed_pre c) trace_post).
Abbreviation rstate := (@RState Conf).

Lemma denied_answer_ok reason (st : rstate) c c0 :
  governed c0 (denied_answer cfg reason st c) [] (executed_post st c).
Proof.
  unfold denied_answer. destruct (Get (rc_Catalog cfg) (tc_Name c)) as [spec known]. simpl.
  split; [done |]. intros ok g ->. split_and!; [done | | done].
  eexists. split; [right; right; eexists _, _; left |]. done.
Qed.

(** What the body of a call does after "requested": it may run its tool, and if it runs none
    it fails. *)
Definition body_post (st : rstate) (g : list (event gop)) (x : rstate * (ToolResult + RunErrorKind))
    (g' : list (event gop)) : Prop :=
  rs_step (fst x) = rs_step st /\ (exists l, g' = l ++ g) /\
  (Forall (fun e => is_run e = false) g' -> exists k, snd x = inr k).

Lemma audited_ok c (st0 : rstate) risk body :
  (forall st id g, requested c risk g -> governed c (body st id) g (body_post st g)) ->
  governed c (let '(a, st) := attempt cfg st0 c risk in audited cfg st a (body st)) [] (executed_post st0 c).
Proof.
  intros Hbody. simpl. set (a := MkAttempt _ _ _ _ _ _). set (st := MkRState _ _).
  split; [done |]. intros [id |] g ->; simpl.
  - split; [done |]. intros started g ->. apply ensures_bind.
    eapply ensures_mono; [| apply Hbody; split; [exists a, id; by split_and!; [right; left | |] | by repeat constructor]].
    intros [st' x] g' (Hst & (l & ->) & Hrun). simpl in Hst, Hrun. simpl. split; [done |]. intros ended g ->.
    destruct (outcome_of cfg x (time_sub ended started)) as [o res] eqn:Eo.
    assert (Hreq : Ev (ORequested a) (Some id) ∈ l ++ [Ev ONow started; Ev (ORequested a) (Some id)]) by set_solver.
    assert (Hend : forall g', (exists l', g' = l' ++ l ++ [Ev ONow started; Ev (ORequested a) (Some id)]) ->
      executed_post st0 c (st', res) g').
    { intros g' [l' ->]. split_and!; simpl; [by rewrite Hst | exists a; split; [right; left; exists id; set_solver | done] |].
      intros [_ HF]%Forall_app. apply Hrun in HF as [k ->]. simpl in Eo. by injection Eo as <- <-. }
    simpl. split; [exists a; set_solver |]. intros ok g ->. destruct ok; simpl.
    + apply Hend. by eexists [_; _].
    + split; [exists a; set_solver |]. intros ok g ->. apply Hend. by eexists [_; _; _].
  - split; [done |]. intros ok g ->. split_and!; [done | | done].
    exists a. split; [left; right; left | done].
Qed.

Lemma run_read_ok c name spec (st : rstate) g :
  available name spec -> ts_Risk spec = RiskRead -> requested c RiskRead g ->
  governed c (x ← run_read cfg spec c; mret (st, x)) g (body_post st g).
Proof.
  intros Ha Hr Hq. unfold run_read. destruct (ts_Factory spec) as [f |] eqn:E; simpl.
  - split; [split_and!; try done; by exists name, spec |]. intros x g' ->.
    split_and!; [done | by eexists [_] |]. by intros [? _]%Forall_cons.
  - split_and!; [done | by exists [] | by eexists].
Qed.

Lemma propose_ok c name spec (st : rstate) id g :
  available name spec -> ts_Risk spec = RiskWrite -> rc_HasStore cfg = true -> requested c RiskWrite g ->
  governed c (propose cfg spec st c id) g (body_post st g).
Proof.
  intros Ha Hr Hs Hq. unfold propose. destruct (ts_WriteFactory spec) as [f |] eqn:E; simpl;
    [| split_and!; [done | by exists [] | by eexists]].
  split; [split_and!; try done; by exists name, spec |]. intros x g' ->.
  assert (Hend : forall l st' y, rs_step st' = rs_step st ->
    body_post st g (st', y) (l ++ Ev (OPropose f (rc_Scope cfg) c) x :: g)).
  { intros l st' y Hst. split_and!; [done | exists (l ++ [Ev (OPropose f (rc_Scope cfg) c) x]); by rewrite <- app_assoc |].
    by intros [_ [? _]%Forall_cons]%Forall_app. }
  destruct x as [| | | | [[args |] res]]; try by apply (Hend []).
  simpl. split; [split_and!; [done.. |]; exists f, res; left |]. intros y g' ->.
  destruct y as [[token conf] | []]; by eapply (Hend [_]).
Qed.
End ResolverProofs.

(** What the resolver offers is what it will run: a definition is offered exactly for the
    tools that pass the policy, and exactly those names resolve to a governed tool; every
    other name the model may send resolves to the tool that only records its denial. *)
Theorem offered_iff_available {RF WF} (cfg : ResolverConfig (RF := RF) (WF := WF)) specs cat :
  NewCatalog specs = inr cat -> rc_Catalog cfg = Some cat ->
  (forall d, d ∈ Definitions cfg <-> exists name spec, available cfg name spec /\ d = Definition_ spec) /\
  (forall name spec, Resolve cfg name = governedTool spec <-> available cfg name spec) /\
  (forall name, (exists r, Resolve cfg name = deniedTool (Some r)) <-> ~ exists spec, available cfg name spec).
Proof.
  intros Hc Hcfg. split_and!.
  - intros d. apply Definitions_offered. rewrite Hcfg. by apply (NewCatalog_listed specs).
  - apply Resolve_governed.
  - intros name. destruct (Resolve cfg name) as [reason | spec] eqn:E.
    + split.
      * intros _ [spec Ha]. apply Resolve_governed in Ha. congruence.
      * intros _. unfold Resolve, verdict in E. destruct (Get (rc_Catalog cfg) name) as [s k].
        destruct (v_Allowed _) eqn:Ev; [done |]. injection E as <-.
        apply Authorize_reason in Ev as [r ->]. by exists r.
    + split; [by intros [? ?] |]. intros H. destruct H. exists spec. by apply Resolve_governed.
Qed.

(** C37: whatever the auditor, the tools and the store answer, one call of a resolved tool is
    counted and recorded before anything runs; at most one tool is built, once, only when the
    policy allows it at that moment and its request was recorded; a write tool only proposes,
    and what is stored is what it proposed; when nothing ran the model hears an error. *)
Theorem call_governed {RF WF Args Conf} (cfg : ResolverConfig (RF := RF) (WF := WF)) specs cat name (st : @RState Conf) c :
  NewCatalog specs = inr cat -> rc_Catalog cfg = Some cat ->
  ensures (governed_pre (Args := Args) cfg c) trace_post (Execute cfg (Resolve cfg name) st c) []
    (executed_post cfg st c).
Proof.
  intros Hc Hcfg. assert (Hl : catalog_listed (rc_Catalog cfg)) by (rewrite Hcfg; by apply (NewCatalog_listed specs)).
  destruct (Resolve cfg name) as [reason | spec] eqn:E; [apply denied_answer_ok |].
  apply Resolve_governed in E. pose proof E as [Hs _]. pose proof (Hl _ _ Hs) as [_ Hn].
  simpl. unfold governed_Execute. destruct (verdict cfg (ts_Name spec)) as [s v] eqn:Ev.
  rewrite Hn in Ev. assert (s = spec) as -> by (unfold verdict in Ev; rewrite Hs in Ev; by injection Ev).
  rewrite (proj2 (verdict_available cfg _ _ _ Ev) E). simpl.
  case_bool_decide as Hw; [unfold executeWrite; destruct (rc_HasStore cfg) eqn:Hst; simpl negb; cbv iota |].
  - apply (audited_ok cfg c st RiskWrite (fun st id => propose cfg spec st c id)).
    intros st' id g Hq. by apply (propose_ok cfg c name).
  - apply denied_answer_ok.
  - assert (Hr : ts_Risk spec = RiskRead) by (destruct E as (_ & _ & _ & _ & [? | [? _]]); done).
    rewrite Hr. apply (audited_ok cfg c st RiskRead (fun st _ => x ← run_read cfg spec c; mret (st, x))).
    intros st' id g Hq. by apply (run_read_ok cfg c name).
Qed.

Definition example_write : ToolSpec nat nat :=
  MkToolSpec "request_agent_transfer" "" (Some (JObj [("type", JStr "object")])) RiskWrite ["chatbot_reply"] None (Some 7%nat)
    (Some (MkConfirmSpec (Some (fun _ => "Transfer?")) "Sim" "Não" "Ok" "Expirou" (Some (fun _ => "Pronto")))).
Definition example_config : ResolverConfig (RF := nat) (WF := nat) :=
  MkResolverConfig (match NewCatalog [example_read; example_write] with inr c => Some c | _ => None end)
    true {[ "get_business_hours"; "request_agent_transfer" ]} (AIActor "chatbot_reply")
    (MkScope 1 (Some 2%N) (Some 3%N) "acc") true true true 9 8192.

Lemma offered_iff_available_witness :
  (exists cat, NewCatalog [example_read; example_write] = inr cat /\ rc_Catalog example_config = Some cat) /\
  Resolve example_config "request_agent_transfer" = governedTool example_write.
Proof.
  split; [eexists; split; vm_compute; reflexivity |].
  refine (proj2 (proj1 (proj2 (offered_iff_available example_config [example_read; example_write] _ _ _)) _ _) _).
  - vm_compute. reflexivity.
  - vm_compute. reflexivity.
  - split_and!; try (vm_compute; reflexivity). right. vm_compute. auto.
Defined.

Lemma call_governed_witness :
  exists cat, NewCatalog [example_read; example_write] = inr cat /\ rc_Catalog example_config = Some cat /\
  ensures (governed_pre (Args := nat) example_config (MkToolCall "c1" "get_business_hours" "{}" None)) trace_post
    (Execute example_config (Resolve example_config "get_business_hours") (MkRState (Conf := nat) 0 None)
       (MkToolCall "c1" "get_business_hours" "{}" None)) []
    (executed_post example_config (MkRState 0 None) (MkToolCall "c1" "get_business_hours" "{}" None)).
Proof.
  eexists. split; [vm_compute; reflexivity |]. split; [vm_compute; reflexivity |].
  refine (call_governed example_config [example_read; example_write] _ "get_business_hours" _ _ _ _).
  - vm_compute. reflexivity.
  - vm_compute. reflexivity.
Defined.
