(* ===== verification/Confirmations.v ===== *)
(** The store of the customer's confirmations of what the AI proposed
    ([internal/aitools/confirmations.go], table [ai_tool_confirmations] of
    [internal/models/ai_tool_confirmations.go]): the proposal transaction, the lookup of a
    button, and every change of state as a compare-and-set. *)
From S2P Require Import Prelude GoText Effects Sql Catalog.

(** ** Rows *)
Inductive Status :=
  | Pending | Confirmed | Executed | NotExecuted | Failed | Declined | Expired | Superseded | Denied.
#[global] Instance Status_eq_dec : EqDecision Status.
Proof. solve_decision. Defined.

Definition OutcomeCreated : string := "created".
Definition OutcomeAlreadyActive : string := "already_active".
Definition OutcomeOutsideHours : string := "outside_hours".
Inductive ConfErrorKind := ErrReconcileStale | ErrReconcileExhausted | ErrExecution.

(** A stored proposal: the columns no statement updates. *)
Record Proposed := MkProposed {
  c_ID : uuid; c_Org : uuid; c_Contact : uuid; c_Session : uuid; c_RunID : uuid; c_Tool : string;
  c_TokenHash : string; c_Args : json; c_Digest : string; c_ProposedAt : instant; c_ExpiresAt : instant;
  c_ProposalCallID : option uuid }.

(** What became of it; the empty string of a text column is [None] or [""]. *)
Record Progress := MkProgress {
  g_Status : Status; g_Outcome : string; g_DenialReason : option DenyReason; g_ErrorKind : option ConfErrorKind;
  g_ConfirmedAt : option instant; g_FinishedAt : option instant;
  g_ConfirmedBy : option uuid; g_ConfirmWAMID : string;
  g_ClaimedAt : option instant; g_Attempts : Z;
  g_ExecutionCallID : option uuid; g_TransferID : option uuid }.

Record Confirmation := MkConfirmation { c_prop : Proposed; c_prog : Progress }.
Definition c_Status (c : Confirmation) : Status := g_Status (c_prog c).
Definition id_of (c : Confirmation) : uuid := c_ID (c_prop c).
Arguments c_Status !c /.
Arguments id_of !c /.

Definition new_progress : Progress :=
  MkProgress Pending "" None None None None None "" None 0 None None.

(** The assignments of an [Updates(map[string]any{...})]. *)
Inductive column :=
  | CStatus (s : Status) | COutcome (o : string) | CDenialReason (r : option DenyReason)
  | CErrorKind (k : option ConfErrorKind) | CConfirmedAt (t : instant) | CFinishedAt (t : instant)
  | CConfirmedBy (c : uuid) | CConfirmWAMID (w : string) | CClaimedAt (t : instant) | CAttemptsPlusOne
  | CExecutionCallID (i : uuid) | CTransferID (i : uuid).

Definition set_column (g : Progress) (c : column) : Progress :=
  let '(MkProgress st ou dr ek ca fa cb cw cl at' ex tr) := g in
  match c with
  | CStatus s => MkProgress s ou dr ek ca fa cb cw cl at' ex tr
  | COutcome o => MkProgress st o dr ek ca fa cb cw cl at' ex tr
  | CDenialReason r => MkProgress st ou r ek ca fa cb cw cl at' ex tr
  | CErrorKind k => MkProgress st ou dr k ca fa cb cw cl at' ex tr
  | CConfirmedAt t => MkProgress st ou dr ek (Some t) fa cb cw cl at' ex tr
  | CFinishedAt t => MkProgress st ou dr ek ca (Some t) cb cw cl at' ex tr
  | CConfirmedBy c => MkProgress st ou dr ek ca fa (Some c) cw cl at' ex tr
  | CConfirmWAMID w => MkProgress st ou dr ek ca fa cb w cl at' ex tr
  | CClaimedAt t => MkProgress st ou dr ek ca fa cb cw (Some t) at' ex tr
  | CAttemptsPlusOne => MkProgress st ou dr ek ca fa cb cw cl (at' + 1) ex tr
  | CExecutionCallID i => MkProgress st ou dr ek ca fa cb cw cl at' (Some i) tr
  | CTransferID i => MkProgress st ou dr ek ca fa cb cw cl at' ex (Some i)
  end.
Definition set_columns (cols : list column) (c : Confirmation) : Confirmation :=
  MkConfirmation (c_prop c) (foldl set_column (c_prog c) cols).

(** ** Errors *)
Inductive store_error :=
  | SErrDb | SErrNotFound | SErrTooManyProposals | SErrRecentlyDeclined | SErrIncomplete | SErrNoSecret
  | SErrToken | SErrBadOutcome.
#[global] Instance store_error_db : DbErr store_error := SErrDb.

Record ConfirmationParams := MkParams { p_TTL : duration; p_Limit : Z; p_Window : duration; p_Cooldown : duration }.

Abbreviation table := (list Confirmation) (only parsing).
Abbreviation Sdb A := (Db table (result store_error A)) (only parsing).

(** ** The compare-and-set *)
Definition cas_where (id : uuid) (from : list Status) (c : Confirmation) : bool :=
  N.eqb (id_of c) id && bool_decide (c_Status c ∈ from).

(** [RowsAffected == 1] of [UPDATE ... WHERE id = ? AND status IN ?]. *)
Definition transition (id : uuid) (from : list Status) (set : list column) : Sdb bool :=
  exec (fun t => (Ok (sql_count (cas_where id from) t =? 1), sql_update (cas_where id from) (set_columns set) t)).

Definition Decline (id : uuid) (now : instant) : Sdb bool :=
  transition id [Pending] [CStatus Declined; CFinishedAt now].
Definition Expire (id : uuid) (now : instant) : Sdb bool :=
  transition id [Pending] [CStatus Expired; CFinishedAt now].
Definition Deny (id : uuid) (reason : DenyReason) (now : instant) : Sdb bool :=
  transition id [Pending] [CStatus Denied; CDenialReason (Some reason); CFinishedAt now].
Definition CloseNotExecuted (id : uuid) (outcome : string) (now : instant) : Sdb bool :=
  transition id [Pending] [CStatus NotExecuted; COutcome outcome; CFinishedAt now].
Definition Confirm (id byContact : uuid) (wamid : string) (now : instant) : Sdb bool :=
  transition id [Pending] [CStatus Confirmed; CConfirmedAt now; CConfirmedBy byContact; CConfirmWAMID wamid].

Record FinishInput := MkFinishInput {
  f_Status : Status; f_Outcome : string; f_TransferID : option uuid; f_ErrorKind : option ConfErrorKind;
  f_DenialReason : option DenyReason; f_ExecutionCallID : option uuid }.

Definition finish_status (s : Status) : bool :=
  match s with Executed | NotExecuted | Failed | Denied => true | _ => false end.

Definition Finish (id : uuid) (i : FinishInput) (now : instant) : Sdb bool :=
  if negb (finish_status (f_Status i)) then mret (Err SErrBadOutcome)
  else
    transition id [Confirmed]
      ([CStatus (f_Status i); COutcome (f_Outcome i); CErrorKind (f_ErrorKind i);
        CDenialReason (f_DenialReason i); CFinishedAt now] ++
       match f_TransferID i with Some t => [CTransferID t] | None => [] end ++
       match f_ExecutionCallID i with Some c => [CExecutionCallID c] | None => [] end).

Definition SetExecutionCall (id callID : uuid) : Sdb unit :=
  exec (fun t => (Ok tt, sql_update (fun c => N.eqb (id_of c) id) (set_columns [CExecutionCallID callID]) t)).

(** ** Queries *)
Definition is_before (t : option instant) (cutoff : instant) : bool :=
  match t with Some t => t <? cutoff | None => false end.
(** [reconcile_claimed_at IS NULL OR reconcile_claimed_at < ?] *)
Definition unclaimed (c : Confirmation) (cutoff : instant) : bool :=
  match g_ClaimedAt (c_prog c) with None => true | Some t => t <? cutoff end.

(** [ORDER BY confirmed_at ASC], rows without one last. *)
Definition confirmed_order (a b : Confirmation) : Prop :=
  match g_ConfirmedAt (c_prog a), g_ConfirmedAt (c_prog b) with
  | Some x, Some y => x <= y
  | Some _, None => True
  | None, None => True
  | None, Some _ => False
  end.
#[global] Instance confirmed_order_dec : RelDecision confirmed_order.
Proof. intros a b. unfold confirmed_order. repeat case_match; apply _. Defined.

Definition StuckConfirmed (minAge : duration) (maxAttempts limit : Z) (now : instant) : Sdb (list Confirmation) :=
  let cutoff := now - minAge in
  query (fun t => Ok (take (Z.to_nat limit) (merge_sort confirmed_order (List.filter (fun c =>
    bool_decide (c_Status c = Confirmed) && is_before (g_ConfirmedAt (c_prog c)) cutoff &&
    (g_Attempts (c_prog c) <? maxAttempts) && unclaimed c cutoff) t)))).

Definition ExhaustedConfirmed (minAge : duration) (maxAttempts limit : Z) (now : instant) : Sdb (list Confirmation) :=
  let cutoff := now - minAge in
  query (fun t => Ok (take (Z.to_nat limit) (merge_sort confirmed_order (List.filter (fun c =>
    bool_decide (c_Status c = Confirmed) && (maxAttempts <=? g_Attempts (c_prog c)) && unclaimed c cutoff) t)))).

Definition claim_where (id : uuid) (cutoff : instant) (c : Confirmation) : bool :=
  N.eqb (id_of c) id && bool_decide (c_Status c = Confirmed) && unclaimed c cutoff.

Definition ClaimReconcile (id : uuid) (minAge : duration) (now : instant) : Sdb bool :=
  exec (fun t => (Ok (sql_count (claim_where id (now - minAge)) t =? 1),
                  sql_update (claim_where id (now - minAge)) (set_columns [CClaimedAt now; CAttemptsPlusOne]) t)).

Definition Get_ (id : uuid) : Sdb Confirmation :=
  query (fun t => match sql_first (fun c => N.eqb (id_of c) id) t with Some c => Ok c | None => Err SErrNotFound end).

(** The first query of [Lookup]. *)
Definition by_token (hash : string) (org contact : uuid) : Sdb Confirmation :=
  query (fun t => match sql_first (fun c => String.eqb (c_TokenHash (c_prop c)) hash &&
                          N.eqb (c_Org (c_prop c)) org && N.eqb (c_Contact (c_prop c)) contact) t with
                  | Some c => Ok c | None => Err SErrNotFound end).

(** ** The proposal transaction *)
Definition same_subject (p : Proposed) (c : Confirmation) : bool :=
  N.eqb (c_Org (c_prop c)) (c_Org p) && N.eqb (c_Contact (c_prop c)) (c_Contact p) &&
  String.eqb (c_Tool (c_prop c)) (c_Tool p).
Definition recently_declined (params : ConfirmationParams) (p : Proposed) (now : instant) (c : Confirmation) : bool :=
  same_subject p c && bool_decide (c_Status c = Declined) &&
  match g_FinishedAt (c_prog c) with Some t => now - p_Cooldown params <=? t | None => false end.
Definition in_window (params : ConfirmationParams) (p : Proposed) (now : instant) (c : Confirmation) : bool :=
  same_subject p c && (now - p_Window params <=? c_ProposedAt (c_prop c)).
Definition pending_of (p : Proposed) (c : Confirmation) : bool :=
  same_subject p c && bool_decide (c_Status c = Pending).

Definition duplicate_of (p : Proposed) (c : Confirmation) : bool :=
  N.eqb (id_of c) (c_ID p) || String.eqb (c_TokenHash (c_prop c)) (c_TokenHash p).

(** [tx.Create(&conf)]: the primary key and the token hash are unique. *)
Definition insert (p : Proposed) : Sdb unit :=
  exec (fun t => if existsb (duplicate_of p) t then (Err SErrDb, t)
                 else (Ok tt, t ++ [MkConfirmation p new_progress])).

(** The body of the transaction; the advisory lock is held to its end, so the proposals for
    one contact run one after the other. *)
Definition propose_body (params : ConfirmationParams) (p : Proposed) (now : instant) : Sdb unit :=
  _ ←? query (fun _ => Ok tt);
  declined ←? (if 0 <? p_Cooldown params then query (fun t => Ok (sql_count (recently_declined params p now) t))
               else mret (Ok 0));
  if 0 <? declined then mret (Err SErrRecentlyDeclined)
  else
    recent ←? query (fun t => Ok (sql_count (in_window params p now) t));
    if p_Limit params <=? recent then mret (Err SErrTooManyProposals)
    else
      _ ←? exec (fun t => (Ok tt, sql_update (pending_of p) (set_columns [CStatus Superseded; CFinishedAt now]) t));
      insert p.

Definition propose_tx (params : ConfirmationParams) (p : Proposed) (now : instant) : Sdb unit :=
  transaction (propose_body params p now).

(** ** The operations a caller of the store performs, one at a time *)
Inductive store_op : Type -> Type :=
  | SNow : store_op instant
  | SNewToken : store_op (option string)
  | SNewID : store_op uuid
  | SCountSessions (session org contact : uuid) : store_op Z
  | SPropose (p : Proposed) (now : instant) : store_op (result store_error unit)
  | SByToken (hash : string) (org contact : uuid) : store_op (result store_error Confirmation)
  | SGet (id : uuid) : store_op (result store_error Confirmation)
  | SDecline (id : uuid) (now : instant) : store_op (result store_error bool)
  | SExpire (id : uuid) (now : instant) : store_op (result store_error bool)
  | SDeny (id : uuid) (reason : DenyReason) (now : instant) : store_op (result store_error bool)
  | SCloseNotExecuted (id : uuid) (outcome : string) (now : instant) : store_op (result store_error bool)
  | SConfirm (id byContact : uuid) (wamid : string) (now : instant) : store_op (result store_error bool)
  | SFinish (id : uuid) (i : FinishInput) (now : instant) : store_op (result store_error bool)
  | SSetExecutionCall (id callID : uuid) : store_op (result store_error unit)
  | SStuck (minAge : duration) (maxAttempts limit : Z) (now : instant) : store_op (result store_error (list Confirmation))
  | SExhausted (minAge : duration) (maxAttempts limit : Z) (now : instant) : store_op (result store_error (list Confirmation))
  | SClaim (id : uuid) (minAge : duration) (now : instant) : store_op (result store_error bool).

(** What an operation does to the table; clock, randomness and sessions answer anything. *)
Definition store_sem (params : ConfirmationParams) X (op : store_op X) (t : table) (x : X) (t' : table) : Prop :=
  match op in store_op X return X -> Prop with
  | SNow | SNewToken | SNewID | SCountSessions _ _ _ => fun _ => t' = t
  | SPropose p now => fun r => db_sem (propose_tx params p now) t r t'
  | SByToken hash org contact => fun r => db_sem (by_token hash org contact) t r t'
  | SGet id => fun r => db_sem (Get_ id) t r t'
  | SDecline id now => fun r => db_sem (Decline id now) t r t'
  | SExpire id now => fun r => db_sem (Expire id now) t r t'
  | SDeny id reason now => fun r => db_sem (Deny id reason now) t r t'
  | SCloseNotExecuted id outcome now => fun r => db_sem (CloseNotExecuted id outcome now) t r t'
  | SConfirm id by_ wamid now => fun r => db_sem (Confirm id by_ wamid now) t r t'
  | SFinish id i now => fun r => db_sem (Finish id i now) t r t'
  | SSetExecutionCall id c => fun r => db_sem (SetExecutionCall id c) t r t'
  | SStuck a m l now => fun r => db_sem (StuckConfirmed a m l now) t r t'
  | SExhausted a m l now => fun r => db_sem (ExhaustedConfirmed a m l now) t r t'
  | SClaim id a now => fun r => db_sem (ClaimReconcile id a now) t r t'
  end x.

Section Store.
(** The hash of a token and the keyed digest of an action ([None] without a server secret). *)
Context (HashToken : string -> string).
Context (ActionDigest : uuid -> uuid -> string -> json -> option string).
Context (params : ConfirmationParams).

Definition Propose (sc : Scope) (run : uuid) (tool : string) (args : json) (proposalCall : option uuid)
    : prog store_op (result store_error (string * Proposed)) :=
  match sc_ContactID sc, sc_SessionID sc with
  | Some contact, Some session =>
      if N.eqb (sc_OrganizationID sc) nil_uuid then mret (Err SErrIncomplete)
      else
        match ActionDigest (sc_OrganizationID sc) contact tool args with
        | None => mret (Err SErrNoSecret)
        | Some digest =>
            token ← call SNewToken;
            match token with
            | None => mret (Err SErrToken)
            | Some token =>
                now ← call SNow;
                id ← call SNewID;
                let p := MkProposed id (sc_OrganizationID sc) contact session run tool (HashToken token) args digest
                           now (now + p_TTL params) proposalCall in
                r ← call (SPropose p now);
                mret match r with Ok _ => Ok (token, p) | Err e => Err e end
            end
        end
  | _, _ => mret (Err SErrIncomplete)
  end.

Inductive LookupResult := LookupOK | LookupNotFound | LookupNotPending | LookupExpired | LookupTampered.

Definition Lookup (token : string) (org contact session : uuid)
    : prog store_op (option Confirmation * LookupResult) :=
  if String.eqb token "" || N.eqb org nil_uuid || N.eqb contact nil_uuid || N.eqb session nil_uuid
  then mret (None, LookupNotFound)
  else
    r ← call (SByToken (HashToken token) org contact);
    match r with
    | Err _ => mret (None, LookupNotFound)
    | Ok c =>
        if negb (N.eqb (c_Session (c_prop c)) session) then mret (None, LookupNotFound)
        else
          sessions ← call (SCountSessions (c_Session (c_prop c)) org contact);
          if sessions =? 0 then mret (None, LookupNotFound)
          else if negb (bool_decide (c_Status c = Pending)) then mret (Some c, LookupNotPending)
          else
            now ← call SNow;
            if negb (now <? c_ExpiresAt (c_prop c)) then mret (Some c, LookupExpired)
            else
              mret (Some c,
                if bool_decide (ActionDigest (c_Org (c_prop c)) (c_Contact (c_prop c)) (c_Tool (c_prop c)) (c_Args (c_prop c))
                                = Some (c_Digest (c_prop c)))
                then LookupOK else LookupTampered)
    end.
End Store.

(** ** The states a confirmation goes through *)
Definition edge (s s' : Status) : Prop :=
  match s with
  | Pending => s' ∈ [Confirmed; Declined; Expired; Superseded; Denied; NotExecuted]
  | Confirmed => s' ∈ [Executed; NotExecuted; Failed; Denied]
  | _ => False
  end.
Definition terminal (s : Status) : bool :=
  match s with Pending | Confirmed => false | _ => true end.

Lemma edge_terminal s s' : rtc edge s s' -> terminal s = true -> s' = s.
Proof. intros H. destruct H as [| s1 s2 s3 He _]; [done |]. by destruct s1. Qed.

Lemma edge_to_pending s s' : rtc edge s s' -> s' = Pending -> s = Pending.
Proof.
  induction 1 as [| s1 s2 s3 He _ IH]; [done |]. intros ->. specialize (IH eq_refl). subst.
  exfalso. destruct s1; simpl in He; rewrite ?elem_of_cons in He; destruct_or?; try done;
    by apply not_elem_of_nil in He.
Qed.

(** What later statements leave of a row. *)
Record row_le (c c' : Confirmation) : Prop := {
  rl_prop : c_prop c' = c_prop c;
  rl_status : rtc edge (c_Status c) (c_Status c');
  rl_confirmed : g_ConfirmedAt (c_prog c) <> None -> g_ConfirmedAt (c_prog c') <> None;
  rl_attempts : g_Attempts (c_prog c) <= g_Attempts (c_prog c') }.
#[global] Instance row_le_preorder : PreOrder row_le.
Proof.
  split.
  - intros c. by split.
  - intros c1 c2 c3 [Hp1 Hs1 Hc1 Ha1] [Hp2 Hs2 Hc2 Ha2]. split; [congruence | by etrans | auto | lia].
Qed.

(** The columns agree with the status. *)
Definition row_wf (c : Confirmation) : Prop :=
  let g := c_prog c in
  (match g_Status g with
   | Pending => g_ConfirmedAt g = None /\ g_FinishedAt g = None
   | Confirmed => g_ConfirmedAt g <> None /\ g_FinishedAt g = None
   | Executed | Failed => g_ConfirmedAt g <> None /\ g_FinishedAt g <> None
   | Declined | Expired | Superseded => g_ConfirmedAt g = None /\ g_FinishedAt g <> None
   | NotExecuted | Denied => g_FinishedAt g <> None
   end) /\
  0 <= g_Attempts g /\ (g_ConfirmedAt g = None -> g_Attempts g = 0).

Definition row_ok (c c' : Confirmation) : Prop := row_le c c' /\ (row_wf c -> row_wf c').

Record table_ok (t : table) : Prop := {
  tk_rows : Forall row_wf t;
  tk_ids : NoDup (map id_of t);
  tk_tokens : NoDup (map (fun c => c_TokenHash (c_prop c)) t);
  tk_pending : forall c c', c ∈ t -> c' ∈ t -> c_Status c = Pending -> pending_of (c_prop c) c' = true -> c' = c }.

(** Rows stay, in place, and move on; new ones arrive pending. *)
Definition table_le (t t' : table) : Prop :=
  exists old new, t' = old ++ new /\ Forall2 row_le t old /\
    Forall (fun c => row_le (MkConfirmation (c_prop c) new_progress) c) new.
#[global] Instance table_le_preorder : PreOrder table_le.
Proof.
  split.
  - intros t. exists t, []. split_and!; [by rewrite app_nil_r | reflexivity | done].
  - intros t1 t2 t3 (old & new & -> & Hold & Hnew) (old' & new' & -> & Hold' & Hnew').
    apply Forall2_app_inv_l in Hold' as (o1 & o2 & H1 & H2 & ->).
    exists o1, (o2 ++ new'). split_and!; [by rewrite <- app_assoc | by etrans |].
    apply Forall_app. split; [| done]. clear -H2 Hnew. induction H2 as [| c c' l l' Hc _ IH]; [done |].
    apply Forall_cons in Hnew as [Hn Hnew]. constructor; [| by apply IH].
    pose proof (rl_prop _ _ Hc) as ->. by etrans.
Qed.

Definition table_step (t t' : table) : Prop := table_le t t' /\ (table_ok t -> table_ok t').
#[global] Instance table_step_preorder : PreOrder table_step.
Proof.
  split; [by split |]. intros t1 t2 t3 [H1 H1'] [H2 H2']. split; [by etrans | auto].
Qed.

Lemma table_step_update p f t :
  (forall c, p c = true -> row_ok c (f c)) -> table_step t (sql_update p f t).
Proof.
  intros Hf. assert (Hrow : forall c, row_ok c (if p c then f c else c)).
  { intros c. destruct (p c) eqn:E; [by apply Hf | by split]. }
  split.
  - exists (sql_update p f t), []. split_and!; [by rewrite app_nil_r | | done].
    induction t as [| c t IH]; constructor; [apply Hrow | done].
  - intros [Hr Hi Ht Hp].
    assert (Hprop : forall c, c_prop (if p c then f c else c) = c_prop c) by (intros c; apply Hrow).
    split.
    + apply Forall_forall. intros c' (c & Hc & ->)%sql_update_in. apply Hrow. by eapply Forall_forall in Hr.
    + unfold sql_update. rewrite map_map. erewrite map_ext; [done |]. intros c. unfold id_of. by rewrite Hprop.
    + unfold sql_update. rewrite map_map. erewrite map_ext; [done |]. intros c. simpl. by rewrite Hprop.
    + intros c1' c2' (c1 & Hc1 & ->)%sql_update_in (c2 & Hc2 & ->)%sql_update_in Hs H.
      assert (Hs1 : c_Status c1 = Pending) by (eapply edge_to_pending; [apply Hrow | done]).
      unfold pending_of, same_subject in H. rewrite !Hprop in H. bool_hyps.
      assert (c_Status c2 = Pending) by (eapply edge_to_pending; [apply Hrow | done]).
      assert (c2 = c1) as ->; [| done]. apply Hp; try done. unfold pending_of, same_subject.
      repeat (apply andb_true_iff; split); try done. by apply bool_decide_eq_true.
Qed.

Lemma table_step_exec {A} (f : table -> result store_error A * table) t r t' :
  table_step t (snd (f t)) -> db_sem (exec f) t r t' -> table_step t t'.
Proof.
  intros H [E | [_ [-> | ->]]]%db_sem_exec; [by rewrite <- E in H | done | done].
Qed.

Lemma table_step_query {A} (f : table -> result store_error A) t r t' : db_sem (query f) t r t' -> table_step t t'.
Proof. intros H. by apply db_sem_query in H as [-> _]. Qed.

(** An update that only moves rows of [from] along an edge to [s] and keeps the columns in
    step. *)
Definition moves (from : list Status) (set : list column) : Prop :=
  forall c, c_Status c ∈ from -> row_ok c (set_columns set c).

Lemma moves_transition id from set t r t' :
  moves from set -> db_sem (transition id from set) t r t' -> table_step t t'.
Proof.
  intros Hm. apply table_step_exec. simpl. apply table_step_update. intros c H. unfold cas_where in H. bool_hyps. by apply Hm.
Qed.

Ltac solve_moves :=
  intros [p [st ou dr ek ca fa cb cw cl at' ex tr]] Hst; simpl in Hst;
  apply list_elem_of_singleton in Hst; subst st;
  split; [split; simpl; try done; try lia; try (apply rtc_once; simpl; set_solver);
          intros; simplify_eq; auto | unfold row_wf; simpl; intuition (congruence || lia)].

Lemma moves_close s cols now :
  s ∈ [Declined; Expired; Superseded; Denied; NotExecuted] ->
  Forall (fun c => match c with COutcome _ | CDenialReason _ => True | _ => False end) cols ->
  moves [Pending] (CStatus s :: cols ++ [CFinishedAt now]).
Proof.
  intros Hs Hc [p g] Hst%list_elem_of_singleton.
  assert (H : forall g, g_Status g = s -> 
    let g' := foldl set_column g (cols ++ [CFinishedAt now]) in
    g_Status g' = s /\ g_ConfirmedAt g' = g_ConfirmedAt g /\ g_FinishedAt g' = Some now /\ g_Attempts g' = g_Attempts g).
  { clear -Hc. induction cols as [| c cols IH]; intros g Hg; [by destruct g |].
    apply Forall_cons in Hc as [Hc Hcs]. specialize (IH Hcs).
    destruct c; try done; destruct g; simpl in *; exact (IH (MkProgress _ _ _ _ _ _ _ _ _ _ _ _) Hg). }
  destruct g as [st ou dr ek ca fa cb cw cl at' ex tr]. unfold c_Status in Hst. simpl in Hst. subst st.
  destruct (H (MkProgress s ou dr ek ca fa cb cw cl at' ex tr) eq_refl) as (H1 & H2 & H3 & H4).
  split; [split; [done | apply rtc_once | intros Ht | ] |]; unfold c_Status, set_columns, row_wf; simpl in *.
  - rewrite H1. rewrite !elem_of_cons in *. tauto.
  - congruence.
  - rewrite H4. lia.
  - rewrite H1, H2, H3, H4. intros ([-> ->] & ? & ?).
    rewrite !elem_of_cons, elem_of_nil in Hs. destruct_or?; subst; try done; split_and!; done.
Qed.

Lemma moves_confirm now by_ wamid :
  moves [Pending] [CStatus Confirmed; CConfirmedAt now; CConfirmedBy by_; CConfirmWAMID wamid].
Proof. solve_moves. Qed.

Lemma moves_finish i now :
  finish_status (f_Status i) = true ->
  moves [Confirmed]
    ([CStatus (f_Status i); COutcome (f_Outcome i); CErrorKind (f_ErrorKind i); CDenialReason (f_DenialReason i);
      CFinishedAt now] ++
     match f_TransferID i with Some t => [CTransferID t] | None => [] end ++
     match f_ExecutionCallID i with Some c => [CExecutionCallID c] | None => [] end).
Proof.
  destruct i as [s o [tr0 |] ek0 dr0 [ex0 |]]; destruct s; intros Hs; try done; solve_moves.
Qed.

Lemma claim_moves id cutoff now c :
  claim_where id cutoff c = true -> row_ok c (set_columns [CClaimedAt now; CAttemptsPlusOne] c).
Proof.
  intros H. unfold claim_where in H. bool_hyps. revert H1.
  destruct c as [p [st ou dr ek ca fa cb cw cl at' ex tr]]. simpl. unfold c_Status. simpl. intros ->.
  split; [by split; simpl; [| | | lia] | unfold row_wf; simpl; intuition (congruence || lia)].
Qed.

(** ** The proposal transaction *)
Definition superseded_by (p : Proposed) (now : instant) (t : table) : table :=
  sql_update (pending_of p) (set_columns [CStatus Superseded; CFinishedAt now]) t.

Record proposed_to (params : ConfirmationParams) (p : Proposed) (now : instant) (t t' : table) : Prop := {
  pt_table : t' = superseded_by p now t ++ [MkConfirmation p new_progress];
  pt_limit : sql_count (in_window params p now) t < p_Limit params;
  pt_cooldown : 0 < p_Cooldown params -> forall c, c ∈ t -> recently_declined params p now c = false;
  pt_fresh : forall c, c ∈ t -> id_of c <> c_ID p /\ c_TokenHash (c_prop c) <> c_TokenHash p }.

Lemma superseded_prop p now t c' :
  c' ∈ superseded_by p now t -> exists c, c ∈ t /\ c_prop c' = c_prop c.
Proof. intros (c & Hc & ->)%sql_update_in. exists c. split; [done |]. by destruct (pending_of p c). Qed.

Lemma insert_ok p t r t' :
  db_sem (insert p) t (Ok r) t' ->
  t' = t ++ [MkConfirmation p new_progress] /\ Forall (fun c => duplicate_of p c = false) t.
Proof.
  intros [E | [? _]]%db_sem_exec; [| done]. destruct (existsb (duplicate_of p) t) eqn:Hd; simplify_eq.
  split; [done |]. apply Forall_forall. intros c Hc. destruct (duplicate_of p c) eqn:E; [| done].
  assert (existsb (duplicate_of p) t = true); [| congruence]. apply existsb_exists. exists c. split; [by apply list_elem_of_In | done].
Qed.

Lemma propose_body_ok params p now t r t' :
  db_sem (propose_body params p now) t (Ok r) t' -> proposed_to params p now t t'.
Proof.
  intros [(e & _ & ?) | (u & t1 & H0 & H)]%db_sem_try; [done |]. apply db_sem_query in H0 as [-> _]; clear u.
  apply db_sem_try in H as [(e & _ & ?) | (declined & t1 & H1 & H)]; [done |].
  assert (t1 = t /\ (0 < p_Cooldown params -> declined = sql_count (recently_declined params p now) t)) as [-> Hdec].
  { destruct (0 <? p_Cooldown params) eqn:E; bool_hyps.
    - apply db_sem_query in H1 as [-> [? | ?]]; by simplify_eq.
    - apply db_sem_ret in H1 as [_ ->]. split; [done | lia]. }
  clear H1.
  destruct (0 <? declined) eqn:Ed; [by apply db_sem_ret in H as [? _] |]. bool_hyps.
  apply db_sem_try in H as [(e & _ & ?) | (recent & t1 & H1 & H)]; [done |].
  apply db_sem_query in H1 as [-> [? | ?]]; simplify_eq.
  destruct (p_Limit params <=? _) eqn:El; [by apply db_sem_ret in H as [? _] |]. bool_hyps.
  apply db_sem_try in H as [(e & _ & ?) | (u' & t1 & H1 & H)]; [done |].
  apply db_sem_exec in H1 as [E | [? _]]; simplify_eq. apply insert_ok in H as [-> Hdup]. split; [done | lia | |].
  - intros Hc c Hin. apply (proj1 (sql_count_zero _ t)); [| done]. rewrite <- Hdec by done.
    pose proof (sql_count_nonneg (recently_declined params p now) t). rewrite <- Hdec in * by done. lia.
  - intros c Hc. rewrite Forall_forall in Hdup.
    assert (Hin : (if pending_of p c then set_columns [CStatus Superseded; CFinishedAt now] c else c)
      ∈ sql_update (pending_of p) (set_columns [CStatus Superseded; CFinishedAt now]) t)
      by (apply (list_elem_of_fmap_2 (fun r => if pending_of p r then _ r else r)); done).
    specialize (Hdup _ Hin). unfold duplicate_of in Hdup.
    destruct (pending_of p c); simpl in Hdup; apply orb_false_iff in Hdup as [H1 H2];
      (split; [by apply N.eqb_neq | by apply String.eqb_neq]).
Qed.

Lemma propose_tx_sem params p now t r t' :
  db_sem (propose_tx params p now) t r t' -> t' = t \/ proposed_to params p now t t'.
Proof.
  intros [[-> _] | (a & H & _)]%db_sem_transaction; [auto |]. right. by apply propose_body_ok in H.
Qed.

Lemma same_subject_sym p g c : same_subject (c_prop c) (MkConfirmation p g) = same_subject p c.
Proof.
  unfold same_subject. simpl. by rewrite N.eqb_sym, (N.eqb_sym (c_Contact p)), String.eqb_sym.
Qed.

(** No row of the subject is pending once it was superseded. *)
Lemma superseded_not_pending p now t c' : c' ∈ superseded_by p now t -> pending_of p c' = false.
Proof.
  intros (c & Hc & ->)%sql_update_in. destruct (pending_of p c) eqn:E; [| done].
  unfold pending_of. rewrite bool_decide_eq_false_2; [apply andb_false_r |]. by destruct c as [? []].
Qed.

Lemma table_step_propose params p now t t' : proposed_to params p now t t' -> table_step t t'.
Proof.
  intros [-> _ _ Hfresh]. unfold table_step.
  assert (Hs : table_step t (superseded_by p now t)).
  { apply table_step_update. intros c H. unfold pending_of in H. bool_hyps.
    apply (moves_close Superseded [] now); [set_solver | done | by rewrite H0; left]. }
  destruct Hs as [Hle Hok]. split.
  - destruct Hle as (old & new & E & Hold & Hnew). exists old, (new ++ [MkConfirmation p new_progress]).
    split_and!; [by rewrite E, <- app_assoc | done |]. apply Forall_app. split; [done |]. by repeat constructor.
  - intros Ht. specialize (Hok Ht) as [Hr Hi Hk Hp].
    assert (Hf : forall c', c' ∈ superseded_by p now t -> id_of c' <> c_ID p /\ c_TokenHash (c_prop c') <> c_TokenHash p).
    { intros c' (c & Hc & E)%superseded_prop. unfold id_of. rewrite E. by apply Hfresh. }
    split.
    + apply Forall_app. split; [done |]. repeat constructor; done.
    + rewrite map_app. apply NoDup_app. split_and!; [done | | apply NoDup_singleton].
      intros i (c & -> & Hc)%list_elem_of_fmap. simpl. rewrite list_elem_of_singleton. by apply Hf.
    + rewrite map_app. apply NoDup_app. split_and!; [done | | apply NoDup_singleton].
      intros i (c & -> & Hc)%list_elem_of_fmap. simpl. rewrite list_elem_of_singleton. by apply Hf.
    + intros c c' [Hc | ->%list_elem_of_singleton]%elem_of_app [Hc' | ->%list_elem_of_singleton]%elem_of_app Hst H; try done.
      * by apply Hp.
      * exfalso. pose proof (superseded_not_pending _ _ _ _ Hc) as Hn. unfold pending_of in *. bool_hyps.
        rewrite same_subject_sym in H. rewrite H, bool_decide_eq_true_2 in Hn by done. done.
      * exfalso. simpl in H. by rewrite (superseded_not_pending _ _ _ _ Hc') in H.
Qed.

(** Every operation of the store moves the table forward. *)
Lemma store_sem_step params X (op : store_op X) t x t' : store_sem params X op t x t' -> table_step t t'.
Proof.
  destruct op; simpl; try (by intros ->); try apply table_step_query.
  - intros [-> | H]%propose_tx_sem; [done |]. by eapply table_step_propose.
  - apply moves_transition, (moves_close Declined []); [set_solver | constructor].
  - apply moves_transition, (moves_close Expired []); [set_solver | constructor].
  - apply moves_transition, (moves_close Denied [CDenialReason (Some reason)]); [set_solver | by repeat constructor].
  - apply moves_transition, (moves_close NotExecuted [COutcome outcome]); [set_solver | by repeat constructor].
  - apply moves_transition, moves_confirm.
  - unfold Finish. destruct (finish_status (f_Status i)) eqn:E; simpl.
    + apply moves_transition. by apply moves_finish.
    + intros [_ ->]%db_sem_ret. done.
  - apply table_step_exec, table_step_update. intros [p [st ou dr ek ca fa cb cw cl at' ex tr]] _.
    split; [by split | done].
  - apply table_step_exec, table_step_update. intros c H. by eapply claim_moves.
Qed.

(** C20: in every interleaving of any number of processes using the store, with statements
    that fail before or after taking effect and processes that crash, the table stays well
    formed (unique ids and tokens, columns in step with the status, at most one pending
    proposal per contact and tool), proposals never change, each confirmation only moves
    along the edges of its state machine, and one that reached an end stays there. *)
Theorem confirmations_state_machine {A} params (t t' : table) (ps ps' : list (prog store_op A)) :
  pool_steps (store_sem params) (t, ps) (t', ps') -> table_ok t ->
  table_ok t' /\
  forall i c, t !! i = Some c -> exists c', t' !! i = Some c' /\ c_prop c' = c_prop c /\
    rtc edge (c_Status c) (c_Status c') /\ (terminal (c_Status c) = true -> c_Status c' = c_Status c).
Proof.
  intros H Ht. pose proof (pool_state_relation _ table_step _ _ (store_sem_step params) H) as [Hle Hok].
  split; [by apply Hok |]. intros i c Hc. destruct Hle as (old & new & E & Hold & _). simpl in E, Hold.
  destruct (Forall2_lookup_l _ _ _ _ _ Hold Hc) as (c' & Hc' & [Hp Hs _ _]).
  exists c'. split_and!; [| done.. | by apply edge_terminal].
  rewrite E. by apply lookup_app_l_Some.
Qed.

Definition example_params : ConfirmationParams := MkParams (10 * minute) 3 hour 0.
Definition example_proposal : Proposed :=
  MkProposed 7 1 2 3 4 "request_agent_transfer" "hash" (JObj []) "digest" 100 (100 + 10 * minute) None.
Lemma confirmations_state_machine_witness :
  let t := [MkConfirmation example_proposal new_progress] in
  exists t', pool_steps (store_sem example_params) (t, [call (SConfirm 7 2 "wamid" 200)]) (t', [Ret (Ok true)]) /\
  table_ok t /\ table_ok t' /\ map c_Status t' = [Confirmed].
Proof.
  simpl. eexists. match goal with |- ?P /\ ?Q /\ _ /\ _ => assert (HP : P); [| assert (HQ : Q); [| split; [exact HP | split; [exact HQ |]]]] end.
  - eapply rtc_l; [| apply rtc_refl]. apply (step_op _ _ [] _ (SConfirm 7 2 "wamid" 200) Ret [] (Ok true)).
    apply db_sem_exec. left. reflexivity.
  - split; [by repeat constructor | apply NoDup_singleton | apply NoDup_singleton |].
    intros c c' ->%list_elem_of_singleton ->%list_elem_of_singleton _ _. reflexivity.
  - split; [exact (proj1 (confirmations_state_machine _ _ _ _ _ HP HQ)) | reflexivity].
Defined.

(** A proposal is recorded whole or not at all; when it is, the contact was under the
    limit of the window and out of the pause after a refusal, and the new proposal is then
    the only pending one for the contact and the tool. *)
Theorem propose_recorded params p now t r t' :
  db_sem (propose_tx params p now) t r t' -> table_ok t ->
  (t' = t /\ is_ok r = false) \/
  (table_ok t' /\ MkConfirmation p new_progress ∈ t' /\
   (forall c, c ∈ t' -> pending_of p c = true -> c = MkConfirmation p new_progress) /\
   sql_count (in_window params p now) t < p_Limit params /\
   sql_count (in_window params p now) t' <= p_Limit params /\
   (0 < p_Cooldown params -> forall c, c ∈ t -> recently_declined params p now c = false)).
Proof.
  intros [[-> Hr] | (a & H & _)]%db_sem_transaction Ht; [auto |]. right.
  apply propose_body_ok in H. pose proof (table_step_propose _ _ _ _ _ H) as [_ Hok].
  destruct H as [-> Hlim Hcool _].
  assert (Hin : MkConfirmation p new_progress ∈ superseded_by p now t ++ [MkConfirmation p new_progress]) by set_solver.
  split_and!; [by apply Hok | done | | done | | done].
  - intros c [Hc | ->%list_elem_of_singleton]%elem_of_app Hp; [| done].
    by rewrite (superseded_not_pending _ _ _ _ Hc) in Hp.
  - rewrite sql_count_app. unfold superseded_by. rewrite sql_count_update.
    + rewrite sql_count_cons. change (sql_count _ []) with 0. destruct (in_window params p now _); lia.
    + intros c _. by destruct (pending_of p c).
Qed.

Lemma propose_recorded_witness :
  exists t', db_sem (propose_tx example_params example_proposal 100) [] (Ok tt) t' /\ table_ok [] /\
    MkConfirmation example_proposal new_progress ∈ t'.
Proof.
  assert (H : db_sem (propose_tx example_params example_proposal 100) [] (Ok tt)
    [MkConfirmation example_proposal new_progress]) by (exists [], []; vm_compute; reflexivity).
  assert (Ht : table_ok []) by (split; try constructor; intros c c' Hc; by apply not_elem_of_nil in Hc).
  eexists. split; [exact H |]. split; [exact Ht |].
  destruct (propose_recorded _ _ _ _ _ _ H Ht) as [[E _] | (_ & Hin & _)]; [discriminate E | exact Hin].
Defined.

(** Where a row with this id is, given unique ids. *)
Lemma table_ok_id t i c c' : table_ok t -> t !! i = Some c -> c' ∈ t -> id_of c' = id_of c -> c' = c.
Proof.
  intros Ht Hc (j & Hj)%list_elem_of_lookup Hid.
  assert (i = j) as ->; [| congruence]. apply (NoDup_lookup _ i j (id_of c) (tk_ids _ Ht));
    rewrite list_lookup_fmap, ?Hc, ?Hj; simpl; congruence.
Qed.

Lemma cas_count id from t i c :
  table_ok t -> t !! i = Some c -> id_of c = id -> c_Status c ∉ from -> sql_count (cas_where id from) t = 0.
Proof.
  intros Ht Hc Hid Hs. apply sql_count_zero. intros c' Hc'. unfold cas_where.
  destruct (N.eqb_spec (id_of c') id) as [E |]; [| done]. simpl.
  rewrite (table_ok_id t i c c') by (done || congruence). by apply bool_decide_eq_false.
Qed.

(** The compare-and-set from pending is won once: after a confirmation was confirmed (or
    declined, expired, denied, closed) by the caller that was told so, whatever happened in
    between, no other compare-and-set from pending on it succeeds or changes anything. *)
Theorem confirm_wins_once (id : uuid) set set' t t1 t2 r t3 :
  table_ok t -> db_sem (transition id [Pending] set) t (Ok true) t1 -> moves [Pending] set ->
  (forall c, c_Status (set_columns set c) <> Pending) ->
  table_step t1 t2 -> db_sem (transition id [Pending] set') t2 r t3 -> r <> Ok true /\ t3 = t2.
Proof.
  intros Ht H1 Hmoves Hset H2 H3.
  assert (Ht1 : table_ok t1) by by apply (moves_transition _ _ _ _ _ _ Hmoves H1).
  assert (Ht2 : table_ok t2) by by apply H2.
  apply db_sem_exec in H1 as [E1 | [? _]]; [| done]. injection E1 as Hcount ->.
  assert (0 < sql_count (cas_where id [Pending]) t) as (c & Hc & Hw)%sql_count_pos by lia.
  apply list_elem_of_lookup in Hc as [i Hi].
  assert (Hi1 : sql_update (cas_where id [Pending]) (set_columns set) t !! i = Some (set_columns set c))
    by by rewrite sql_update_lookup, Hi; simpl; rewrite Hw.
  destruct H2 as [(old & new & -> & Hold & _) _].
  destruct (Forall2_lookup_l _ _ _ _ _ Hold Hi1) as (c2 & Hc2 & [Hp Hs _ _]).
  assert (Hz : sql_count (cas_where id [Pending]) (old ++ new) = 0).
  { apply (cas_count _ _ _ i c2); [done | by apply lookup_app_l_Some | |].
    - unfold id_of. rewrite Hp. simpl. unfold cas_where in Hw. bool_hyps. by apply N.eqb_eq.
    - rewrite list_elem_of_singleton. intros E. by apply (Hset c), (edge_to_pending _ _ Hs). }
  assert (Hu : sql_update (cas_where id [Pending]) (set_columns set') (old ++ new) = old ++ new)
    by by apply sql_update_id, sql_count_zero.
  apply db_sem_exec in H3 as [E3 | [-> [-> | ->]]].
  - rewrite Hz, Hu in E3. by injection E3 as -> ->.
  - done.
  - simpl. by rewrite Hu.
Qed.

Lemma confirm_wins_once_witness :
  let t := [MkConfirmation example_proposal new_progress] in
  exists t1, db_sem (Confirm 7 2 "wamid" 200) t (Ok true) t1 /\
  forall r t3, db_sem (Decline 7 300) t1 r t3 -> r <> Ok true /\ t3 = t1.
Proof.
  simpl. eexists. split; [apply db_sem_exec; left; vm_compute; reflexivity |]. intros r t3 H3.
  refine (confirm_wins_once 7 _ _ [MkConfirmation example_proposal new_progress] _ _ _ _ _ _
            (moves_confirm 200 2 "wamid") _ _ H3).
  - split; [by repeat constructor | apply NoDup_singleton | apply NoDup_singleton |].
    intros c c' ->%list_elem_of_singleton ->%list_elem_of_singleton _ _. reflexivity.
  - apply db_sem_exec. left. vm_compute. reflexivity.
  - intros [? []]. done.
  - reflexivity.
Defined.
