(* ===== verification/Confirmer.v ===== *)
(** The customer's tap on a confirmation button and the reconciler of what a crash left
    unfinished ([internal/aitools/confirmer.go]). The store is the interface of
    [Confirmations]; the live settings, the transfers, the audit and the write tool itself
    are the other operations of [confirm_op]. *)
From S2P Require Import Prelude GoText GoJson Effects Sql AiContract Catalog ToolLoop Resolver Confirmations.

Definition FeatureChatbotReply : string := "chatbot_reply".
Definition DeniedText : string := "Não foi possível concluir essa solicitação agora.".

Record Notification := MkNotification {
  n_OrgID : uuid; n_ContactID : uuid; n_Account : string; n_Text : string; n_OutsideHours : bool }.
Record Tap := MkTap {
  t_Token : string; t_OrgID : uuid; t_ContactID : uuid; t_SessionID : uuid; t_Account : string;
  t_WAMID : string; t_Decline : bool }.
Inductive TapResult := TapIgnored | TapReply (text : string) (outside_hours : bool).
Definition ignored : TapResult := TapIgnored.
Definition reply (text : string) : TapResult := TapReply text false.
Definition outsideHours : TapResult := TapReply "" true.

Record ExecResult := MkExecResult { er_Outcome : string; er_TransferID : option uuid }.

Section Confirmer.
Context {RF WF : Type}.
Context (HashToken : string -> string).
Context (ActionDigest : uuid -> uuid -> string -> json -> option string).
(** [uuid.UUID.String]. *)
Context (uuid_string : uuid -> string).

Record Confirmer := MkConfirmer {
  cf_Catalog : option (Catalog RF WF); cf_HasTransfers : bool; cf_HasNotify : bool;
  cf_MinAge : duration; cf_MaxAttempts : Z; cf_Params : ConfirmationParams }.
Context (cf : Confirmer).

(** [OWriteExecute] builds the tool with its factory and executes it, for confirmation [id]. *)
Inductive confirm_op : Type -> Type :=
  | OStore {X} (op : store_op X) : confirm_op X
  | OGlobalEnabled : confirm_op bool
  | OWriteEnabled : confirm_op bool
  | OProviderValidated (org : uuid) : confirm_op bool
  | OChatbotEnabled (org : uuid) (account : string) : confirm_op bool
  | OEnabledTools (org : uuid) : confirm_op (option (gset string))
  | OSessionAccount (session : uuid) : confirm_op string
  | OHasActive (org contact : uuid) : confirm_op bool
  | OWithinBusinessHours (org : uuid) (account : string) : confirm_op bool
  | OFindAITransfer (org contact : uuid) (since : instant) : confirm_op (option uuid)
  | OAuditRequested (a : Attempt) : confirm_op (option uuid)
  | OAuditDenied (a : Attempt) (reason : DenyReason) : confirm_op bool
  | OAuditFinish (id : uuid) (o : Outcome) : confirm_op bool
  | OWriteExecute (f : WF) (sc : Scope) (id : uuid) (args : json) (confirmedAt : instant) : confirm_op (run_answer ExecResult)
  | OTime : confirm_op instant
  | ONotify (n : Notification) : confirm_op unit.

Definition store {X} (op : store_op X) : prog confirm_op X := call (OStore op).
Definition s_now : prog confirm_op instant := store SNow.

(** [won, _ := c.Store.X(...)]: an error is not a win. *)
Definition won (r : result store_error bool) : bool := match r with Ok b => b | Err _ => false end.
Definition won_store (op : store_op (result store_error bool)) : prog confirm_op bool :=
  r ← store op; mret (won r).

Definition writeSpec (name : string) : ToolSpec RF WF * bool :=
  let '(s, ok) := Get (cf_Catalog cf) name in
  (s, ok && bool_decide (ts_Risk s = RiskWrite) && negb (bool_decide (ts_WriteFactory s = None)) &&
      confirm_valid (ts_Confirm s)).

(** The re-authorization: [None] when the action may go on. *)
Definition reauthorize (c : Confirmation) (spec : ToolSpec RF WF) (account : string)
    : prog confirm_op (option DenyReason) :=
  let org := c_Org (c_prop c) in
  global ← call OGlobalEnabled;
  if negb global then mret (Some DenyGlobalOff)
  else
    enabled ← call (OEnabledTools org);
    match enabled with
    | None => mret (Some DenyNotEnabled)
    | Some enabled =>
        write ← call OWriteEnabled;
        let v := Authorize (MkPolicyInput true true (bool_decide (ts_Name spec ∈ enabled)) (ts_Risk spec)
                   (featureAllowed spec FeatureChatbotReply) write true) in
        if negb (v_Allowed v) then mret (v_Reason v)
        else
          provider ← call (OProviderValidated org);
          if negb provider then mret (Some AIToolDenyProviderNotValidated)
          else
            chatbot ← call (OChatbotEnabled org account);
            if negb chatbot then mret (Some AIToolDenyChatbotDisabled) else mret None
    end.

Definition scope_of (c : Confirmation) (account : string) : Scope :=
  MkScope (c_Org (c_prop c)) (Some (c_Contact (c_prop c))) (Some (c_Session (c_prop c))) account.
Definition attempt_of (c : Confirmation) (account : string) : Attempt :=
  MkAttempt (c_RunID (c_prop c)) 1
    (MkToolCall ("confirmation:" +:+ uuid_string (id_of c)) (c_Tool (c_prop c)) "{}" None)
    RiskWrite (MkActor ActorHuman "customer_confirmation") (scope_of c account).

Definition recordDenial (c : Confirmation) (account : string) (reason : DenyReason) : prog confirm_op unit :=
  _ ← call (OAuditDenied (attempt_of c account) reason); mret tt.

(** [spec.Confirm.OutcomeText(o)], and the other texts; a write spec always has them. *)
Definition outcome_text (spec : ToolSpec RF WF) (o : string) : string :=
  match ts_Confirm spec with
  | Some cs => match cs_OutcomeText cs with Some f => f o | None => "" end
  | None => ""
  end.
Definition expired_text (spec : ToolSpec RF WF) : string :=
  match ts_Confirm spec with Some cs => cs_ExpiredText cs | None => "" end.
Definition declined_text (spec : ToolSpec RF WF) : string :=
  match ts_Confirm spec with Some cs => cs_DeclinedText cs | None => "" end.

(** What [runWrite] makes of the run: a result, or whether the error was a deadline. *)
Definition run_outcome (x : run_answer ExecResult) : ExecResult + bool :=
  match x with
  | RDone r => inl r
  | RTimeout => inr true
  | RNil | RPanic | RError => inr false
  end.

Definition runWrite (c : Confirmation) (spec : ToolSpec RF WF) (account : string) : prog confirm_op (ExecResult + bool) :=
  match ts_WriteFactory spec with
  | None => mret (inr false)
  | Some f =>
      confirmedAt ← match g_ConfirmedAt (c_prog c) with Some t => mret t | None => call OTime end;
      x ← call (OWriteExecute f (scope_of c account) (id_of c) (c_Args (c_prop c)) confirmedAt);
      mret (run_outcome x)
  end.

(** What the run says: what to store, the audited outcome and the customer's text. *)
Definition conclude (spec : ToolSpec RF WF) (callID : uuid) (x : ExecResult + bool) (took : duration)
    : FinishInput * Outcome * TapResult :=
  let done := MkOutcome AIToolCallExecuted 0 false false None took in
  match x with
  | inr deadline =>
      (MkFinishInput Failed "" None (Some ErrExecution) None (Some callID),
       MkOutcome AIToolCallFailed 0 false false (Some (if deadline : bool then KTimeout else KToolError)) took,
       reply DeniedText)
  | inl r =>
      if String.eqb (er_Outcome r) OutcomeCreated then
        (MkFinishInput Executed (er_Outcome r) (er_TransferID r) None None (Some callID), done,
         reply (outcome_text spec (er_Outcome r)))
      else if String.eqb (er_Outcome r) OutcomeOutsideHours then
        (MkFinishInput NotExecuted (er_Outcome r) None None None (Some callID), done, outsideHours)
      else
        (MkFinishInput NotExecuted (er_Outcome r) None None None (Some callID), done,
         reply (outcome_text spec (er_Outcome r)))
  end.

Definition executeConfirmed (c : Confirmation) (spec : ToolSpec RF WF) (account : string) : prog confirm_op TapResult :=
  callID ← call (OAuditRequested (attempt_of c account));
  match callID with
  | None => mret ignored
  | Some callID =>
      started ← call OTime;
      x ← runWrite c spec account;
      ended ← call OTime;
      let '(fin, out, text) := conclude spec callID x (time_sub ended started) in
      now ← s_now;
      r ← store (SFinish (id_of c) fin now);
      match r with
      | Err _ => mret ignored
      | Ok _ => _ ← call (OAuditFinish callID out); mret text
      end
  end.

(** [if won, _ := c.Store.X(...); won { return text }; return ignored()] *)
Definition close_with (op : instant -> store_op (result store_error bool)) (text : TapResult) : prog confirm_op TapResult :=
  now ← s_now;
  w ← won_store (op now);
  mret (if w : bool then text else ignored).
Definition deny_with (c : Confirmation) (account : string) (reason : DenyReason) : prog confirm_op TapResult :=
  now ← s_now;
  w ← won_store (SDeny (id_of c) reason now);
  if w : bool then _ ← recordDenial c account reason; mret (reply DeniedText) else mret ignored.

(** The checks on the transfers before the compare-and-set; [None] when the tap goes on. *)
Definition transfer_state (c : Confirmation) (spec : ToolSpec RF WF) (account : string) : prog confirm_op (option TapResult) :=
  if negb (cf_HasTransfers cf) then mret None
  else
    active ← call (OHasActive (c_Org (c_prop c)) (c_Contact (c_prop c)));
    if active : bool then
      x ← close_with (SCloseNotExecuted (id_of c) OutcomeAlreadyActive) (reply (outcome_text spec OutcomeAlreadyActive));
      mret (Some x)
    else
      within ← call (OWithinBusinessHours (c_Org (c_prop c)) account);
      if negb within then
        x ← close_with (SCloseNotExecuted (id_of c) OutcomeOutsideHours) outsideHours; mret (Some x)
      else mret None.

(** From the confirmation that is pending, valid and not declined to the end of the tap. *)
Definition confirm_and_execute (tap : Tap) (c : Confirmation) (spec : ToolSpec RF WF) (account : string) : prog confirm_op TapResult :=
  reason ← reauthorize c spec account;
  match reason with
  | Some reason => deny_with c account reason
  | None =>
      closed ← transfer_state c spec account;
      match closed with
      | Some x => mret x
      | None =>
          now ← s_now;
          w ← won_store (SConfirm (id_of c) (t_ContactID tap) (t_WAMID tap) now);
          if negb w then mret ignored
          else
            confirmed ← store (SGet (id_of c));
            match confirmed with
            | Err _ => mret ignored
            | Ok confirmed => executeConfirmed confirmed spec account
            end
      end
  end.

Definition HandleTap (tap : Tap) : prog confirm_op TapResult :=
  '(c, res) ← prog_lift (@OStore) (Lookup HashToken ActionDigest (t_Token tap) (t_OrgID tap) (t_ContactID tap) (t_SessionID tap));
  match c, res with
  | None, _ | _, LookupNotFound | _, LookupNotPending => mret ignored
  | Some c, _ =>
      let '(spec, ok) := writeSpec (c_Tool (c_prop c)) in
      if negb ok then close_with (SDeny (id_of c) DenyUnknownTool) (reply DeniedText)
      else
        account ← (if String.eqb (t_Account tap) "" then call (OSessionAccount (c_Session (c_prop c)))
                   else mret (t_Account tap));
        match res with
        | LookupExpired => close_with (SExpire (id_of c)) (reply (expired_text spec))
        | LookupTampered => deny_with c account AIToolDenyTampered
        | _ =>
            if t_Decline tap then close_with (SDecline (id_of c)) (reply (declined_text spec))
            else confirm_and_execute tap c spec account
        end
  end.

(** ** The reconciler *)
Definition notify (c : Confirmation) (account text : string) (outside : bool) : prog confirm_op unit :=
  if cf_HasNotify cf && (negb (String.eqb text "") || outside)
  then call (ONotify (MkNotification (c_Org (c_prop c)) (c_Contact (c_prop c)) account text outside))
  else mret tt.

Definition finish_with (c : Confirmation) (i : FinishInput) : prog confirm_op bool :=
  now ← s_now; won_store (SFinish (id_of c) i now).

Definition reconcile_checked (c : Confirmation) (confirmedAt : instant) (spec : ToolSpec RF WF) (account : string) : prog confirm_op unit :=
  now ← s_now;
  if p_TTL (cf_Params cf) <? time_sub now confirmedAt then
    _ ← finish_with c (MkFinishInput Failed "" None (Some ErrReconcileStale) None None); mret tt
  else
    reason ← reauthorize c spec account;
    match reason with
    | Some reason =>
        w ← finish_with c (MkFinishInput Denied "" None None (Some reason) None);
        if w : bool then _ ← recordDenial c account reason; notify c account DeniedText false else mret tt
    | None =>
        existing ← (if cf_HasTransfers cf
                    then call (OFindAITransfer (c_Org (c_prop c)) (c_Contact (c_prop c)) confirmedAt) else mret None);
        match existing with
        | Some tid =>
            w ← finish_with c (MkFinishInput Executed OutcomeCreated (Some tid) None None None);
            if w : bool then notify c account (outcome_text spec OutcomeCreated) false else mret tt
        | None =>
            r ← executeConfirmed c spec account;
            match r with TapReply text outside => notify c account text outside | TapIgnored => mret tt end
        end
    end.

Definition reconcileOne (id : uuid) : prog confirm_op unit :=
  r ← store (SGet id);
  match r with
  | Err _ => mret tt
  | Ok c =>
      match c_Status c, g_ConfirmedAt (c_prog c) with
      | Confirmed, Some confirmedAt =>
          account ← call (OSessionAccount (c_Session (c_prop c)));
          let '(spec, ok) := writeSpec (c_Tool (c_prop c)) in
          if negb ok then _ ← finish_with c (MkFinishInput Denied "" None None (Some DenyUnknownTool) None); mret tt
          else reconcile_checked c confirmedAt spec account
      | _, _ => mret tt
      end
  end.

Fixpoint fail_exhausted (rows : list Confirmation) : prog confirm_op unit :=
  match rows with
  | [] => mret tt
  | c :: rest =>
      _ ← finish_with c (MkFinishInput Failed "" None (Some ErrReconcileExhausted) None None);
      fail_exhausted rest
  end.

Fixpoint reconcile_rows (rows : list Confirmation) (worked : Z) : prog confirm_op Z :=
  match rows with
  | [] => mret worked
  | c :: rest =>
      now ← s_now;
      w ← won_store (SClaim (id_of c) (cf_MinAge cf) now);
      if negb w then reconcile_rows rest worked
      else _ ← reconcileOne (id_of c); reconcile_rows rest (worked + 1)
  end.

Definition Reconcile : prog confirm_op Z :=
  now ← s_now;
  exhausted ← store (SExhausted (cf_MinAge cf) (cf_MaxAttempts cf) 50 now);
  _ ← match exhausted with Ok rows => fail_exhausted rows | Err _ => mret tt end;
  now ← s_now;
  rows ← store (SStuck (cf_MinAge cf) (cf_MaxAttempts cf) 50 now);
  match rows with
  | Err _ => mret 0
  | Ok rows => reconcile_rows rows 0
  end.
End Confirmer.

(** ** What has to have happened before the action is carried out *)
Section Authorization.
Context {RF WF : Type}.
Context (uuid_string : uuid -> string).
Abbreviation cop := (@confirm_op WF).
Implicit Types (g : list (event cop)) (c : Confirmation) (spec : ToolSpec RF WF).

(** The live state let the action through, in the events [g]. *)
Record reauthorized c spec (account : string) g : Prop := {
  ra_global : Ev OGlobalEnabled true ∈ g;
  ra_enabled : exists tools, Ev (OEnabledTools (c_Org (c_prop c))) (Some tools) ∈ g /\ ts_Name spec ∈ tools;
  ra_feature : featureAllowed spec FeatureChatbotReply = true;
  ra_write : ts_Risk spec = RiskWrite -> Ev OWriteEnabled true ∈ g;
  ra_provider : Ev (OProviderValidated (c_Org (c_prop c))) true ∈ g;
  ra_chatbot : Ev (OChatbotEnabled (c_Org (c_prop c)) account) true ∈ g }.

Record transfer_free c (account : string) g : Prop := {
  tf_active : Ev (OHasActive (c_Org (c_prop c)) (c_Contact (c_prop c))) false ∈ g;
  tf_hours : Ev (OWithinBusinessHours (c_Org (c_prop c)) account) true ∈ g }.

Definition not_executed (e : event cop) : bool :=
  match e with Ev op _ => match op with OWriteExecute _ _ _ _ _ => false | _ => true end end.

(** The action runs with the factory, the scope and the arguments of confirmation [c], which
    [Auth] justifies; its request was audited and nothing ran before. *)
Definition executes_with (Auth : Confirmation -> ToolSpec RF WF -> string -> list (event cop) -> Prop)
    X (op : cop X) (g : list (event cop)) : Prop :=
  match op with
  | OWriteExecute f sc id args _ =>
      exists c spec account,
        id = id_of c /\ args = c_Args (c_prop c) /\ sc = scope_of c account /\
        ts_WriteFactory spec = Some f /\ Auth c spec account g /\
        (exists callID, Ev (OAuditRequested (attempt_of uuid_string c account)) (Some callID) ∈ g) /\
        Forall (fun e => not_executed e = true) g
  | _ => True
  end.

Abbreviation traced Auth := (ensures (executes_with Auth) trace_post).

(** A part of the program that only asks: it executes nothing and the trace grows. *)
Definition asks {A} Auth (p : prog cop A) (Q : A -> list (event cop) -> Prop) : Prop :=
  forall g, Forall (fun e => not_executed e = true) g ->
    traced Auth p g (fun a g' => (exists l, g' = l ++ g) /\ Forall (fun e => not_executed e = true) g' /\ Q a g').

Lemma reauthorize_asks Auth c spec account :
  asks Auth (reauthorize c spec account) (fun r g => r = None -> reauthorized c spec account g).
Proof.
  intros g Hg. unfold reauthorize. simpl. split; [done |]. intros global g1 ->.
  destruct global; simpl; [| split_and!; [by eexists [_] | by constructor | done]].
  split; [done |]. intros enabled g2 ->.
  destruct enabled as [tools |]; simpl; [| split_and!; [by eexists [_; _] | by repeat constructor | done]].
  split; [done |]. intros write g3 ->.
  destruct (v_Allowed _) eqn:Hv; simpl.
  2: { split_and!; [by eexists [_; _; _] | by repeat constructor |]. apply Authorize_reason in Hv as [r ->]. done. }
  apply Authorize_allowed in Hv as (_ & _ & Htool & Hfeat & Hrisk). simpl in *.
  split; [done |]. intros provider g4 ->.
  destruct provider; simpl; [| split_and!; [by eexists [_; _; _; _] | by repeat constructor | done]].
  split; [done |]. intros chatbot g5 ->.
  destruct chatbot; simpl; [| split_and!; [by eexists [_; _; _; _; _] | by repeat constructor | done]].
  split_and!; [by eexists [_; _; _; _; _] | by repeat constructor |]. intros _.
  apply bool_decide_eq_true in Htool. split; try done; try set_solver.
  intros Hr. destruct Hrisk as [? | (_ & -> & _)]; [congruence | set_solver].
Qed.

Lemma close_with_traced Auth op text g Q :
  (forall x g', Q x g') -> traced Auth (close_with op text) g Q.
Proof. intros HQ. simpl. split; [done |]. intros now g1 ->. split; [done |]. intros r g2 ->. apply HQ. Qed.

Lemma deny_with_traced Auth c account reason g Q :
  (forall x g', Q x g') -> traced Auth (deny_with uuid_string c account reason) g Q.
Proof.
  intros HQ. simpl. split; [done |]. intros now g1 ->. split; [done |]. intros r g2 ->.
  destruct (won r); simpl; [split; [done |]; intros ok g3 -> |]; apply HQ.
Qed.

(** Carrying the action out: what justifies it is what the events show at that moment. *)
Lemma executeConfirmed_traced (Auth : Confirmation -> ToolSpec RF WF -> string -> list (event cop) -> Prop)
    c spec account g (Q : TapResult -> list (event cop) -> Prop) :
  Forall (fun e => not_executed e = true) g -> (forall l, Auth c spec account (l ++ g)) -> (forall x g', Q x g') ->
  traced Auth (executeConfirmed uuid_string c spec account) g Q.
Proof.
  intros Hg HA HQ. unfold executeConfirmed. simpl. split; [done |]. intros callID g1 ->.
  destruct callID as [callID |]; simpl; [| apply HQ]. split; [done |]. intros started g2 ->.
  apply ensures_bind. unfold runWrite.
  assert (Hend : forall x g', traced Auth (ended ← call OTime;
      let '(fin, out, text) := conclude spec callID x (time_sub ended started) in
      now ← s_now; r ← store (SFinish (id_of c) fin now);
      match r with Err _ => mret ignored | Ok _ => _ ← call (OAuditFinish callID out); mret text end) g' Q).
  { intros x g'. simpl. split; [done |]. intros ended g3 ->. destruct (conclude _ _ _ _) as [[fin out] text]. simpl.
    split; [done |]. intros now g4 ->. split; [done |]. intros r g5 ->.
    destruct r; simpl; [split; [done |]; intros ok g6 -> |]; apply HQ. }
  destruct (ts_WriteFactory spec) as [f |] eqn:Ef; [| exact (Hend (inr false) _)].
  assert (Hrun : forall l t, Forall (fun e => not_executed e = true) l ->
    executes_with Auth _ (OWriteExecute f (scope_of c account) (id_of c) (c_Args (c_prop c)) t)
      (l ++ Ev OTime started :: Ev (OAuditRequested (attempt_of uuid_string c account)) (Some callID) :: g)).
  { intros l t Hl. exists c, spec, account. split_and!; try done.
    - specialize (HA (l ++ [Ev OTime started; Ev (OAuditRequested (attempt_of uuid_string c account)) (Some callID)])).
      by rewrite <- app_assoc in HA.
    - exists callID. set_solver.
    - apply Forall_app. split; [done |]. by repeat constructor. }
  destruct (g_ConfirmedAt (c_prog c)) as [t |].
  - refine (conj (Hrun [] t _) _); [done |]. intros x g3 ->. exact (Hend (run_outcome x) _).
  - split; [done |]. intros t g3 ->. refine (conj (Hrun [_] t _) _); [by repeat constructor |].
    intros x g4 ->. exact (Hend (run_outcome x) _).
Qed.

Context (HashToken : string -> string).
Context (ActionDigest : uuid -> uuid -> string -> json -> option string).
Context (cf : Confirmer (RF := RF) (WF := WF)).

(** The tap is on this confirmation, and it was pending, valid and untouched. *)
Record tap_matches (tap : Tap) c g : Prop := {
  tm_row : Ev (OStore (SByToken (HashToken (t_Token tap)) (t_OrgID tap) (t_ContactID tap))) (Ok c) ∈ g;
  tm_session : c_Session (c_prop c) = t_SessionID tap;
  tm_session_lives : exists n, n <> 0 /\
    Ev (OStore (SCountSessions (t_SessionID tap) (t_OrgID tap) (t_ContactID tap))) n ∈ g;
  tm_pending : c_Status c = Pending;
  tm_valid : exists now, Ev (OStore SNow) now ∈ g /\ now < c_ExpiresAt (c_prop c);
  tm_digest : ActionDigest (c_Org (c_prop c)) (c_Contact (c_prop c)) (c_Tool (c_prop c)) (c_Args (c_prop c))
              = Some (c_Digest (c_prop c));
  tm_confirmed : t_Decline tap = false }.

(** Why a tap may carry out what the row [c] says: it is the row the compare-and-set on the
    matched confirmation [c0] was won for, after everything else was checked. *)
Definition tap_authorizes (tap : Tap) c spec (account : string) g : Prop :=
  exists c0,
    tap_matches tap c0 g /\ writeSpec cf (c_Tool (c_prop c0)) = (spec, true) /\
    reauthorized c0 spec account g /\ (cf_HasTransfers cf = true -> transfer_free c0 account g) /\
    (exists now, Ev (OStore (SConfirm (id_of c0) (t_ContactID tap) (t_WAMID tap) now)) (Ok true) ∈ g) /\
    Ev (OStore (SGet (id_of c0))) (Ok c) ∈ g.

Lemma tap_matches_mono tap c l g : tap_matches tap c g -> tap_matches tap c (l ++ g).
Proof. intros [? ? (n & ? & ?) ? (now & ? & ?) ? ?]. split; try done; [set_solver | exists n; split; [done | set_solver] | exists now; split; [set_solver | done]]. Qed.
Lemma reauthorized_mono c spec account l g : reauthorized c spec account g -> reauthorized c spec account (l ++ g).
Proof. intros [? (tools & ? & ?) ? Hw ? ?]. split; try done; try set_solver. Qed.
Lemma transfer_free_mono c account l g : transfer_free c account g -> transfer_free c account (l ++ g).
Proof. intros [? ?]. split; set_solver. Qed.

Lemma tap_authorizes_mono tap c spec account l g :
  tap_authorizes tap c spec account g -> tap_authorizes tap c spec account (l ++ g).
Proof.
  intros (c0 & Hm & Hs & Hr & Ht & (now & Hc) & Hg). exists c0.
  split_and!; [by apply tap_matches_mono | done | by apply reauthorized_mono | | exists now; set_solver | set_solver].
  intros HT. by apply transfer_free_mono, Ht.
Qed.

Lemma confirm_and_execute_traced tap c0 spec account g :
  tap_matches tap c0 g -> writeSpec cf (c_Tool (c_prop c0)) = (spec, true) ->
  Forall (fun e => not_executed e = true) g ->
  traced (tap_authorizes tap) (confirm_and_execute uuid_string cf tap c0 spec account) g (fun _ _ => True).
Proof.
  intros Hm Hs Hg. unfold confirm_and_execute. apply ensures_bind.
  eapply ensures_mono; [| by apply reauthorize_asks]. intros reason g1 ((l1 & ->) & Hg1 & Hra).
  destruct reason as [reason |]; [by apply deny_with_traced |]. specialize (Hra eq_refl).
  assert (Hgo : forall l, Forall (fun e => not_executed e = true) (l ++ l1 ++ g) ->
    (cf_HasTransfers cf = true -> transfer_free c0 account (l ++ l1 ++ g)) ->
    traced (tap_authorizes tap) (now ← s_now;
      w ← won_store (SConfirm (id_of c0) (t_ContactID tap) (t_WAMID tap) now);
      if negb w then mret ignored
      else
        confirmed ← store (SGet (id_of c0));
        match confirmed with
        | Err _ => mret ignored
        | Ok confirmed => executeConfirmed uuid_string confirmed spec account
        end) (l ++ l1 ++ g) (fun _ _ => True)).
  { intros l Hl Ht. simpl. split; [done |]. intros now g2 ->. split; [done |]. intros r g3 ->.
    destruct r as [[] | e]; simpl; try done. split; [done |]. intros [c | e] g4 ->; [| done].
    apply executeConfirmed_traced; [by repeat constructor | | done]. intros l'. apply tap_authorizes_mono.
    exists c0. split_and!; [| done | | | exists now; set_solver | set_solver].
    - rewrite app_assoc. by apply (tap_matches_mono _ _ (_ :: _ :: _ :: (l ++ l1))).
    - by apply (reauthorized_mono _ _ _ (_ :: _ :: _ :: l)).
    - intros HT. by apply (transfer_free_mono _ _ [_; _; _]), Ht. }
  unfold transfer_state. destruct (cf_HasTransfers cf) eqn:HT; [| by apply (Hgo [])].
  simpl negb. cbv iota. split; [done |]. intros active g2 ->. destruct active.
  - apply ensures_bind, ensures_bind, close_with_traced. done.
  - split; [done |]. intros within g3 ->. destruct within.
    + apply (Hgo [_; _]); [by repeat constructor |]. intros _. split; set_solver.
    + apply ensures_bind, ensures_bind, close_with_traced. done.
Qed.
End Authorization.

(** C2: a tap carries an action out only when, in this tap and before, a row with the hash of
    its token was found for this organization, contact and session, pending, unexpired and
    with an intact digest; the tap confirms; every switch, the organization's opt-in, the
    provider and the chatbot were read on, and no transfer stood in the way; this tap won the
    compare-and-set for that very confirmation; and the request was audited. The action then
    runs at most once, in the scope and with the arguments stored. *)
Theorem tap_executes_only_when_authorized {RF WF} HashToken ActionDigest uuid_string
    (cf : Confirmer (RF := RF) (WF := WF)) (tap : Tap) :
  ensures (executes_with uuid_string (tap_authorizes HashToken ActionDigest cf tap)) trace_post
    (HandleTap HashToken ActionDigest uuid_string cf tap) [] (fun _ _ => True).
Proof.
  unfold HandleTap, Lookup. destruct (_ || _); [done |]. simpl. split; [done |].
  intros [c | e] g1 ->; [| done]. simpl. destruct (N.eqb_spec (c_Session (c_prop c)) (t_SessionID tap)) as [Hsess |]; [| done].
  simpl. split; [done |]. intros n g2 ->. destruct (Z.eqb_spec n 0) as [| Hn]; [done |]. simpl.
  case_bool_decide as Hp; [| done]. simpl. split; [done |]. intros now g3 ->.
  assert (Hclose : forall op text g, ensures (executes_with uuid_string (tap_authorizes HashToken ActionDigest cf tap)) trace_post
    (close_with (WF := WF) op text) g (fun _ _ => True)) by (intros; by apply close_with_traced).
  assert (Hacc : forall (k : string -> prog (@confirm_op WF) TapResult) g,
    (forall account l, Forall (fun e => not_executed e = true) l ->
       ensures (executes_with uuid_string (tap_authorizes HashToken ActionDigest cf tap)) trace_post
       (k account) (l ++ g) (fun _ _ => True)) ->
    ensures (executes_with uuid_string (tap_authorizes HashToken ActionDigest cf tap)) trace_post
      ((if String.eqb (t_Account tap) "" then call (OSessionAccount (c_Session (c_prop c))) else mret (t_Account tap)) ≫= k)
      g (fun _ _ => True)).
  { intros k g Hk. destruct (String.eqb _ _); [split; [done |]; intros account g4 ->; apply (Hk _ [_]); by repeat constructor | by apply (Hk _ [])]. }
  destruct (now <? c_ExpiresAt (c_prop c)) eqn:Hx; [case_bool_decide as Hd |]; simpl;
    destruct (writeSpec cf (c_Tool (c_prop c))) as [spec ok] eqn:Hs;
    (destruct ok; simpl negb; cbv iota; [| apply Hclose]); apply Hacc; intros account l Hl.
  - destruct (t_Decline tap) eqn:Hdec; [apply Hclose |]. bool_hyps.
    apply confirm_and_execute_traced; [| done | apply Forall_app; split; [done | by repeat constructor]].
    split; try done; [set_solver | exists n; split; [done | rewrite <- Hsess; set_solver] |
      exists now; split; [set_solver | done]].
  - by apply deny_with_traced.
  - apply Hclose.
Qed.

(** ** Reconciling *)
Section Reconciling.
Context {RF WF : Type}.
Context (uuid_string : uuid -> string).
Context (cf : Confirmer (RF := RF) (WF := WF)).
Abbreviation cop := (@confirm_op WF).
Implicit Types (g : list (event cop)) (c : Confirmation) (spec : ToolSpec RF WF).

(** Why the reconciler may carry out the row [c] it read: it is confirmed and its
    authorization is still fresh, the whole re-authorization passed again, and no transfer
    the confirmation already created was found. *)
Definition reconcile_authorizes (id : uuid) c spec (account : string) g : Prop :=
  Ev (OStore (SGet id)) (Ok c) ∈ g /\ c_Status c = Confirmed /\ writeSpec cf (c_Tool (c_prop c)) = (spec, true) /\
  (exists confirmedAt now, g_ConfirmedAt (c_prog c) = Some confirmedAt /\ Ev (OStore SNow) now ∈ g /\
     time_sub now confirmedAt <= p_TTL (cf_Params cf) /\
     (cf_HasTransfers cf = true ->
      Ev (OFindAITransfer (c_Org (c_prop c)) (c_Contact (c_prop c)) confirmedAt) None ∈ g)) /\
  reauthorized c spec account g.

Lemma reconcile_authorizes_mono id c spec account l g :
  reconcile_authorizes id c spec account g -> reconcile_authorizes id c spec account (l ++ g).
Proof.
  intros (Hc & Hs & Hw & (confirmedAt & now & Hca & Hn & Ht & Hf) & Hr).
  split_and!; [set_solver | done | done | | by apply reauthorized_mono].
  exists confirmedAt, now. split_and!; [done | set_solver | done |]. intros HT. specialize (Hf HT). set_solver.
Qed.

Abbreviation traced id := (ensures (executes_with uuid_string (reconcile_authorizes id)) trace_post).

Lemma notify_traced id c account text outside g Q : (forall x g', Q x g') -> traced id (notify cf c account text outside) g Q.
Proof. intros HQ. unfold notify. destruct (_ && _); simpl; [split; [done |]; intros u g1 -> |]; apply HQ. Qed.

Lemma finish_with_traced id c i g (Q : bool -> list (event cop) -> Prop) :
  (forall w g', Q w g') -> traced id (finish_with c i) g Q.
Proof. intros HQ. simpl. split; [done |]. intros now g1 ->. split; [done |]. intros r g2 ->. apply HQ. Qed.

Lemma reconcile_checked_traced id c confirmedAt spec account g :
  Ev (OStore (SGet id)) (Ok c) ∈ g -> c_Status c = Confirmed -> g_ConfirmedAt (c_prog c) = Some confirmedAt ->
  writeSpec cf (c_Tool (c_prop c)) = (spec, true) -> Forall (fun e => not_executed e = true) g ->
  traced id (reconcile_checked uuid_string cf c confirmedAt spec account) g (fun _ _ => True).
Proof.
  intros Hc Hst Hca Hs Hg. unfold reconcile_checked, s_now, store. apply ensures_call_bind; [done |]. intros now g1 ->. cbv beta.
  destruct (_ <? _) eqn:Ht; [by apply ensures_bind, finish_with_traced |]. bool_hyps.
  apply ensures_bind. eapply ensures_mono; [| apply reauthorize_asks; by constructor].
  intros reason g2 ((l2 & ->) & Hg2 & Hra). destruct reason as [reason |].
  { apply ensures_bind, finish_with_traced. intros [] g3; simpl; [| done].
    split; [done |]. intros ok g4 ->. by apply notify_traced. }
  specialize (Hra eq_refl).
  assert (Hgo : forall l, Forall (fun e => not_executed e = true) l ->
    (cf_HasTransfers cf = true -> Ev (OFindAITransfer (c_Org (c_prop c)) (c_Contact (c_prop c)) confirmedAt) None ∈ l) ->
    traced id (r ← executeConfirmed uuid_string c spec account;
      match r with TapReply text outside => notify cf c account text outside | TapIgnored => mret tt end)
      (l ++ l2 ++ Ev (OStore SNow) now :: g) (fun _ _ => True)).
  { intros l Hl Hf. apply ensures_bind, executeConfirmed_traced.
    - by apply Forall_app.
    - intros l'. apply reconcile_authorizes_mono. split_and!; [set_solver | done | done | | by apply reauthorized_mono].
      exists confirmedAt, now. split_and!; [done | set_solver | done |]. intros HT. specialize (Hf HT). set_solver.
    - intros [| text outside] g'; [done | by apply notify_traced]. }
  destruct (cf_HasTransfers cf) eqn:HT; [| by apply (Hgo [])].
  split; [done |]. intros existing g3 ->. destruct existing as [tid |].
  - apply ensures_bind, finish_with_traced. intros [] g4; simpl; [by apply notify_traced | done].
  - apply (Hgo [_]); [by repeat constructor | set_solver].
Qed.
End Reconciling.

(** Reconciling a confirmation carries its action out only if the row just read is still
    confirmed, its authorization is not older than the validity of a confirmation, the whole
    re-authorization passed again, the transfer it would create does not exist yet, and the
    request was audited; it runs it at most once. *)
Theorem reconcile_executes_only_when_authorized {RF WF} uuid_string (cf : Confirmer (RF := RF) (WF := WF)) (id : uuid) :
  ensures (executes_with uuid_string (reconcile_authorizes cf id)) trace_post
    (reconcileOne uuid_string cf id) [] (fun _ _ => True).
Proof.
  unfold reconcileOne, store. apply ensures_call_bind; [done |]. intros [c | e] g1 ->; cbv beta iota; [| done].
  destruct (c_Status c) eqn:Hst; try exact I. destruct (g_ConfirmedAt (c_prog c)) as [confirmedAt |] eqn:Hca; [| exact I].
  apply ensures_call_bind; [done |]. intros account g2 ->; cbv beta. destruct (writeSpec cf (c_Tool (c_prop c))) as [spec ok] eqn:Hs.
  destruct ok; simpl negb; cbv iota; [| by apply ensures_bind, finish_with_traced].
  apply reconcile_checked_traced; try done; [set_solver | by repeat constructor].
Qed.

(** ** How often an action can run

    The state the processes share: the table of confirmations and, in order, the
    confirmations whose action was carried out. *)
Record cstate := MkCState { cs_table : list Confirmation; cs_executed : list uuid }.

(** The store behaves as [Confirmations] says; the settings, the transfers, the audit, the
    clock and the tool answer anything. *)
Definition confirm_sem {WF} (params : ConfirmationParams) X (op : @confirm_op WF X) (s : cstate) (x : X) (s' : cstate) : Prop :=
  match op in confirm_op X return X -> Prop with
  | OStore sop => fun x => store_sem params _ sop (cs_table s) x (cs_table s') /\ cs_executed s' = cs_executed s
  | OWriteExecute _ _ id _ _ => fun _ => cs_table s' = cs_table s /\ cs_executed s' = id :: cs_executed s
  | _ => fun _ => s' = s
  end x.

(** How often the action of [id] ran, and how often it was authorized: once by the
    compare-and-set, once more by each claim of a reconciler. *)
Definition executions (id : uuid) (s : cstate) : nat := length (List.filter (N.eqb id) (cs_executed s)).
Definition grants_of (c : Confirmation) : nat :=
  (match g_ConfirmedAt (c_prog c) with Some _ => 1 | None => 0 end + Z.to_nat (g_Attempts (c_prog c)))%nat.
Definition grants (id : uuid) (t : list Confirmation) : nat :=
  sum_list_with grants_of (List.filter (fun c => N.eqb id (id_of c)) t).

Section Counting.
Context {WF : Type} (id : uuid).
Abbreviation cop := (@confirm_op WF).

Definition exec_cost X (op : cop X) : nat :=
  match op with OWriteExecute _ _ i _ _ => if N.eqb id i then 1 else 0 | _ => 0 end.
Definition store_gain X (op : store_op X) (x : X) : nat :=
  match op in store_op X return X -> nat with
  | SConfirm i _ _ _ | SClaim i _ _ => fun r => if N.eqb id i && won r then 1 else 0
  | _ => fun _ => 0
  end%nat x.
Definition exec_gain X (op : cop X) (x : X) : nat :=
  match op in confirm_op X return X -> nat with OStore sop => store_gain _ sop | _ => fun _ => 0%nat end x.
Definition get_contract X (op : cop X) (x : X) : Prop :=
  match op in confirm_op X return X -> Prop with
  | OStore sop => match sop in store_op X return X -> Prop with
                  | SGet i => fun r => match r with Ok c => id_of c = i | Err _ => True end
                  | _ => fun _ => True
                  end
  | _ => fun _ => True
  end x.

Abbreviation paid p n Q := (ensures (credit_pre exec_cost) (credit_post exec_cost exec_gain get_contract) p n Q).

(** A part of a program that carries nothing out: it keeps the credits it has. *)
Definition harmless {A} (p : prog cop A) : Prop :=
  forall n (Q : A -> nat -> Prop), (forall x n', (n <= n')%nat -> Q x n') -> paid p n Q.

Lemma harmless_ret {A} (a : A) : harmless (mret a).
Proof. intros n Q HQ. by apply HQ. Qed.

Lemma harmless_op_bind {X A} (op : cop X) (k : X -> prog cop A) :
  exec_cost _ op = 0%nat -> (forall x, harmless (k x)) -> harmless (call op ≫= k).
Proof.
  intros H0 Hk n Q HQ. apply ensures_call_bind; [unfold credit_pre; lia |]. intros x n' [_ ->].
  apply Hk. intros y n'' Hn. apply HQ. lia.
Qed.

Lemma harmless_bind {A B} (p : prog cop A) (k : A -> prog cop B) :
  harmless p -> (forall x, harmless (k x)) -> harmless (p ≫= k).
Proof.
  intros Hp Hk n Q HQ. apply ensures_bind, Hp. intros x n' Hn. apply Hk. intros y n'' Hn'. apply HQ. lia.
Qed.

Lemma harmless_op {X} (op : cop X) : exec_cost _ op = 0%nat -> harmless (call op).
Proof.
  intros H0 n Q HQ. split; [unfold credit_pre; lia |]. intros x n' [_ ->]. apply HQ. lia.
Qed.

(** The store never carries anything out. *)
Lemma harmless_lift {A} (p : prog store_op A) : harmless (prog_lift (@OStore WF) p).
Proof.
  induction p as [a | X op k IH]; [apply harmless_ret |]. by apply (harmless_op_bind (OStore op)).
Qed.
End Counting.

Create HintDb harmless discriminated.
#[local] Hint Resolve harmless_ret harmless_lift : harmless.
#[local] Hint Extern 1 (harmless _ (call _)) => apply harmless_op; reflexivity : harmless.

(** Takes the operations of a program one by one. *)
Ltac harmless_steps :=
  repeat first
    [ solve [auto with harmless]
    | apply harmless_op_bind; [reflexivity |]; intros ?; cbv beta iota
    | apply harmless_bind; [| intros ?; cbv beta iota]
    | match goal with
      | |- harmless _ (if ?b then _ else _) => destruct b
      | |- harmless _ (match ?x with _ => _ end) => destruct x
      end ].

Section Harmless.
Context {RF WF : Type} (uuid_string : uuid -> string) (cf : Confirmer (RF := RF) (WF := WF)) (id : uuid).
Abbreviation harmless := (harmless (WF := WF) id).

Lemma reauthorize_harmless c (spec : ToolSpec RF WF) account : harmless (reauthorize c spec account).
Proof. unfold reauthorize. harmless_steps. Qed.
Lemma close_with_harmless op text : harmless (close_with op text).
Proof. unfold close_with, won_store, s_now, store. harmless_steps. Qed.
Lemma recordDenial_harmless c account reason : harmless (recordDenial uuid_string c account reason).
Proof. unfold recordDenial. harmless_steps. Qed.
Lemma deny_with_harmless c account reason : harmless (deny_with uuid_string c account reason).
Proof. unfold deny_with, won_store, s_now, store, recordDenial. harmless_steps. Qed.
Lemma transfer_state_harmless c (spec : ToolSpec RF WF) account : harmless (transfer_state cf c spec account).
Proof. unfold transfer_state, close_with, won_store, s_now, store. harmless_steps. Qed.
Lemma notify_harmless c account text outside : harmless (notify cf c account text outside).
Proof. unfold notify. harmless_steps. Qed.
Lemma finish_with_harmless c i : harmless (finish_with c i).
Proof. unfold finish_with, won_store, s_now, store. harmless_steps. Qed.
Lemma fail_exhausted_harmless rows : harmless (fail_exhausted rows).
Proof.
  induction rows as [| c rows IH]; cbn [fail_exhausted]; [apply harmless_ret |].
  apply harmless_bind; [apply finish_with_harmless | done].
Qed.
End Harmless.
#[local] Hint Resolve reauthorize_harmless close_with_harmless recordDenial_harmless deny_with_harmless
  transfer_state_harmless notify_harmless finish_with_harmless fail_exhausted_harmless : harmless.

Section Paid.
Context {RF WF : Type} (HashToken : string -> string).
Context (ActionDigest : uuid -> uuid -> string -> json -> option string).
Context (uuid_string : uuid -> string) (cf : Confirmer (RF := RF) (WF := WF)) (id : uuid).
Abbreviation paid p n Q :=
  (ensures (credit_pre (exec_cost (WF := WF) id)) (credit_post (exec_cost id) (exec_gain id) get_contract) p n Q).

(** Carrying an action out takes one credit, of its own confirmation. *)
Lemma executeConfirmed_paid c (spec : ToolSpec RF WF) account n (Q : TapResult -> nat -> Prop) :
  (id_of c = id -> (1 <= n)%nat) -> (forall x n', Q x n') ->
  paid (executeConfirmed uuid_string c spec account) n Q.
Proof.
  intros Hn HQ. unfold executeConfirmed, s_now, store. apply ensures_call_bind; [unfold credit_pre; simpl; lia |].
  intros [callID |] n1 [_ ->]; [| apply HQ]. apply ensures_call_bind; [unfold credit_pre; simpl; lia |].
  intros started n2 [_ ->]. cbv beta. simpl exec_cost. simpl exec_gain. apply ensures_bind. unfold runWrite.
  assert (Hend : forall x n', paid (ended ← call OTime;
      let '(fin, out, text) := conclude spec callID x (time_sub ended started) in
      now ← call (OStore SNow); r ← call (OStore (SFinish (id_of c) fin now));
      match r with Err _ => mret ignored | Ok _ => _ ← call (OAuditFinish callID out); mret text end) n' Q).
  { intros x n'. assert (H : harmless (WF := WF) id (ended ← call OTime;
      let '(fin, out, text) := conclude spec callID x (time_sub ended started) in
      now ← call (OStore SNow); r ← call (OStore (SFinish (id_of c) fin now));
      match r with Err _ => mret ignored | Ok _ => _ ← call (OAuditFinish callID out); mret text end)).
    { harmless_steps. }
    apply H. auto. }
  destruct (ts_WriteFactory spec) as [f |]; [| exact (Hend (inr false) _)]. apply ensures_bind.
  assert (Hrun : forall t n', (n <= n')%nat ->
    paid (x ← call (OWriteExecute f (scope_of c account) (id_of c) (c_Args (c_prop c)) t); mret (run_outcome x)) n'
      (fun x n'' => paid (ended ← call OTime;
      let '(fin, out, text) := conclude spec callID x (time_sub ended started) in
      now ← call (OStore SNow); r ← call (OStore (SFinish (id_of c) fin now));
      match r with Err _ => mret ignored | Ok _ => _ ← call (OAuditFinish callID out); mret text end) n'' Q)).
  { intros t n' Hle. apply ensures_call_bind.
    - unfold credit_pre. simpl. destruct (N.eqb_spec id (id_of c)) as [E |]; [specialize (Hn (eq_sym E)) |]; lia.
    - intros x n'' _. apply Hend. }
  destruct (g_ConfirmedAt (c_prog c)) as [t |].
  - apply Hrun. lia.
  - split; [unfold credit_pre; simpl; lia |]. intros t n' [_ ->]. apply Hrun. simpl. lia.
Qed.

Lemma HandleTap_paid tap : paid (HandleTap HashToken ActionDigest uuid_string cf tap) 0%nat (fun _ _ => True).
Proof.
  unfold HandleTap. apply ensures_bind, harmless_lift. intros [c res] n _.
  destruct c as [c |]; [| done].
  assert (Hgo : forall account spec n, paid (confirm_and_execute uuid_string cf tap c spec account) n (fun _ _ => True)).
  { clear n. intros account spec n. unfold confirm_and_execute, won_store, s_now, store.
    apply ensures_bind, reauthorize_harmless. intros [reason |] n1 _; [by apply deny_with_harmless |].
    apply ensures_bind, transfer_state_harmless. intros [x |] n2 _; [done |].
    apply ensures_call_bind; [unfold credit_pre; simpl; lia |]. intros now n3 [_ ->]. cbv beta.
    apply ensures_bind, ensures_call_bind; [unfold credit_pre; simpl; lia |]. intros r n4 [_ ->].
    destruct (won r) eqn:Hw; cbv beta; simpl; rewrite ?Hw; simpl; [| done].
    split; [unfold credit_pre; simpl; lia |]. intros [c' | e] n5 [Hc' ->]; [| done]. simpl in Hc'.
    apply executeConfirmed_paid; [| done]. intros E. simpl. rewrite <- Hc', E, N.eqb_refl, ?Hw. simpl. lia. }
  assert (Hacc : forall (k : string -> prog (@confirm_op WF) TapResult) n,
    (forall account n, paid (k account) n (fun _ _ => True)) ->
    paid ((if String.eqb (t_Account tap) "" then call (OSessionAccount (c_Session (c_prop c))) else mret (t_Account tap)) ≫= k)
      n (fun _ _ => True)).
  { clear n. intros k n Hk. destruct (String.eqb _ _); [| apply Hk].
    apply ensures_call_bind; [unfold credit_pre; simpl; lia |]. intros account n1 [_ ->]. apply Hk. }
  destruct res; try done; destruct (writeSpec cf _) as [spec ok]; destruct ok; simpl negb; cbv iota;
    try by apply close_with_harmless.
  all: apply Hacc; intros account n1; try by apply close_with_harmless.
  - destruct (t_Decline tap); [by apply close_with_harmless | apply Hgo].
  - by apply deny_with_harmless.
Qed.

Lemma reconcileOne_paid i n : (i = id -> (1 <= n)%nat) -> paid (reconcileOne uuid_string cf i) n (fun _ _ => True).
Proof.
  intros Hn. unfold reconcileOne, store. apply ensures_call_bind; [unfold credit_pre; simpl; lia |].
  intros [c | e] n1 [Hc ->]; [| done]. cbv beta iota. simpl in Hc.
  destruct (c_Status c); try exact I. destruct (g_ConfirmedAt (c_prog c)) as [confirmedAt |]; [| exact I].
  apply ensures_call_bind; [unfold credit_pre; simpl; lia |]. intros account n2 [_ ->]. cbv beta.
  destruct (writeSpec cf _) as [spec []]; simpl negb; cbv iota; [| by apply ensures_bind, finish_with_harmless].
  unfold reconcile_checked, s_now, store. apply ensures_call_bind; [unfold credit_pre; simpl; lia |].
  intros now n3 [_ ->]. cbv beta. destruct (_ <? _); [by apply ensures_bind, finish_with_harmless |].
  apply ensures_bind, reauthorize_harmless. intros [reason |] n4 Hn4.
  { apply ensures_bind, finish_with_harmless. intros [] n5 _; [| done].
    apply ensures_bind, recordDenial_harmless. intros u n6 _. by apply notify_harmless. }
  assert (Hgo : forall n', (n4 <= n')%nat -> paid (r ← executeConfirmed uuid_string c spec account;
      match r with TapReply text outside => notify cf c account text outside | TapIgnored => mret tt end) n' (fun _ _ => True)).
  { intros n' Hle. apply ensures_bind, executeConfirmed_paid.
    - intros E. specialize (Hn ltac:(congruence)). simpl in Hn4. lia.
    - intros [| text outside] n'' ; [done | by apply notify_harmless]. }
  destruct (cf_HasTransfers cf); [| by apply Hgo].
  apply ensures_call_bind; [unfold credit_pre; simpl; lia |]. intros [tid |] n5 [_ ->]; [| apply Hgo; simpl; lia].
  apply ensures_bind, finish_with_harmless. intros [] n6 _; [by apply notify_harmless | done].
Qed.

Lemma reconcile_rows_paid rows worked n : paid (reconcile_rows uuid_string cf rows worked) n (fun _ _ => True).
Proof.
  revert worked n. induction rows as [| c rows IH]; intros worked n; [done |]. cbn [reconcile_rows]. unfold s_now, won_store, store.
  apply ensures_call_bind; [unfold credit_pre; simpl; lia |]. intros now n1 [_ ->]. cbv beta.
  apply ensures_bind, ensures_call_bind; [unfold credit_pre; simpl; lia |]. intros r n2 [_ ->].
  change (paid (if negb (won r) then reconcile_rows uuid_string cf rows worked
    else _ ← reconcileOne uuid_string cf (id_of c); reconcile_rows uuid_string cf rows (worked + 1))
    (n - 0 + 0 - 0 + exec_gain (WF := WF) id _ (OStore (SClaim (id_of c) (cf_MinAge cf) now)) r)%nat (fun _ _ => True)).
  destruct (won r) eqn:Hw; [| apply IH]. simpl negb. cbv iota. apply ensures_bind.
  eapply ensures_mono; [| apply reconcileOne_paid]; [intros u n3 _; apply IH |].
  intros <-. simpl. rewrite N.eqb_refl, Hw. simpl. lia.
Qed.

Lemma Reconcile_paid : paid (Reconcile uuid_string cf) 0%nat (fun _ _ => True).
Proof.
  unfold Reconcile, s_now, store. apply ensures_call_bind; [unfold credit_pre; simpl; lia |]. intros now n1 _. cbv beta.
  apply ensures_call_bind; [unfold credit_pre; simpl; lia |]. intros exhausted n2 _. cbv beta.
  apply ensures_bind. assert (H : harmless (WF := WF) id (match exhausted with Ok rows => fail_exhausted rows | Err _ => mret tt end))
    by (destruct exhausted; auto with harmless).
  apply H. intros u n3 _. apply ensures_call_bind; [unfold credit_pre; simpl; lia |]. intros now' n4 _. cbv beta.
  apply ensures_call_bind; [unfold credit_pre; simpl; lia |]. intros [rows | e] n5 _; [| done]. apply reconcile_rows_paid.
Qed.
End Paid.

(** ** The store and the credits *)
Section Grants.
Context {WF : Type} (params : ConfirmationParams) (id : uuid).
Abbreviation cop := (@confirm_op WF).

Lemma grants_app t t' : grants id (t ++ t') = (grants id t + grants id t')%nat.
Proof. unfold grants. by rewrite List.filter_app, sum_list_with_app. Qed.

Lemma row_le_grants c c' : row_le c c' -> (grants_of c <= grants_of c')%nat.
Proof.
  intros [_ _ Hc Ha]. unfold grants_of.
  destruct (g_ConfirmedAt (c_prog c)), (g_ConfirmedAt (c_prog c')); try lia. by destruct Hc.
Qed.

Lemma row_le_id c c' : row_le c c' -> id_of c' = id_of c.
Proof. intros H. unfold id_of. by rewrite (rl_prop _ _ H). Qed.

Lemma table_le_grants t t' : table_le t t' -> (grants id t <= grants id t')%nat.
Proof.
  intros (old & new & -> & Hold & _). rewrite grants_app.
  enough (grants id t <= grants id old)%nat by lia. unfold grants.
  induction Hold as [| c c' t old Hc _ IH]; [done |]. simpl. rewrite (row_le_id _ _ Hc).
  apply row_le_grants in Hc. destruct (N.eqb id _); simpl; lia.
Qed.

(** An update that gives one more grant to a row of [id] it changes. *)
Lemma update_grants p f t :
  (forall c, p c = true -> row_le c (f c)) ->
  (exists c, c ∈ t /\ p c = true /\ id_of c = id /\ (grants_of c + 1 <= grants_of (f c))%nat) ->
  (grants id t + 1 <= grants id (sql_update p f t))%nat.
Proof.
  intros Hf (c & Hc & Hp & Hid & Hg). apply list_elem_of_split in Hc as (l1 & l2 & ->).
  unfold sql_update. rewrite map_app. simpl. rewrite Hp.
  assert (Hle : forall l, (grants id l <= grants id (map (fun r => if p r then f r else r) l))%nat).
  { intros l. apply table_le_grants. exists (map (fun r => if p r then f r else r) l), [].
    split_and!; [by rewrite app_nil_r | | done]. induction l as [| r l IH]; constructor; [| done].
    destruct (p r) eqn:E; [by apply Hf | done]. }
  pose proof (Hle l1). pose proof (Hle l2). rewrite !grants_app. unfold grants in *. simpl.
  rewrite (row_le_id _ _ (Hf c Hp)), Hid, N.eqb_refl. simpl. lia.
Qed.

Lemma confirm_grants t by_ wamid now t' :
  table_ok t -> db_sem (Confirm id by_ wamid now) t (Ok true) t' -> (grants id t + 1 <= grants id t')%nat.
Proof.
  intros Ht [E | [? _]]%db_sem_exec; [| done]. injection E as Hn ->.
  assert (0 < sql_count (cas_where id [Pending]) t) as (c & Hc & Hw)%sql_count_pos by lia.
  apply update_grants; [intros c' Hw' |].
  - unfold cas_where in Hw'. bool_hyps. by apply (moves_confirm now by_ wamid).
  - exists c. split_and!; try done; unfold cas_where in Hw; bool_hyps; [by apply N.eqb_eq |].
    apply list_elem_of_singleton in H0. pose proof (tk_rows _ Ht) as HF. rewrite Forall_forall in HF. specialize (HF c Hc).
    destruct c as [p [st ou dr ek ca fa cb cw cl at' ex tr]]. simpl in H0. subst st.
    destruct HF as [[Hca _] _]. simpl in Hca. subst ca. unfold grants_of. simpl. lia.
Qed.

Lemma claim_grants t minAge now t' :
  table_ok t -> db_sem (ClaimReconcile id minAge now) t (Ok true) t' -> (grants id t + 1 <= grants id t')%nat.
Proof.
  intros Ht [E | [? _]]%db_sem_exec; [| done]. injection E as Hn ->.
  assert (0 < sql_count (claim_where id (now - minAge)) t) as (c & Hc & Hw)%sql_count_pos by lia.
  apply update_grants; [intros c' Hw'; by apply (claim_moves id (now - minAge)) |].
  exists c. split_and!; try done; unfold claim_where in Hw; bool_hyps; [by apply N.eqb_eq |].
  pose proof (tk_rows _ Ht) as HF. rewrite Forall_forall in HF. specialize (HF c Hc) as (_ & Ha & _).
  destruct c as [p [st ou dr ek ca fa cb cw cl at' ex tr]]. unfold grants_of. simpl in *. lia.
Qed.

Lemma confirm_sem_contract X (op : cop X) s x s' :
  table_ok (cs_table s) -> confirm_sem params X op s x s' -> get_contract X op x.
Proof.
  intros _. destruct op as [X sop | | | | | | | | | | | | | | |]; simpl; try done. intros [H _].
  destruct sop; try done. simpl in H. apply db_sem_query in H as [_ H]. destruct H as [H | H]; subst x; [| done].
  destruct (sql_first _ _) eqn:E; [| done]. apply List.find_some in E as [_ E]. by apply N.eqb_eq.
Qed.

Lemma confirm_sem_inv X (op : cop X) s x s' :
  table_ok (cs_table s) -> confirm_sem params X op s x s' -> table_ok (cs_table s').
Proof.
  intros Ht. destruct op; simpl; try (by intros ->); intros [H H']; [| by rewrite H].
  by apply (store_sem_step _ _ _ _ _ _ H).
Qed.

Lemma confirm_sem_spent X (op : cop X) s x s' :
  table_ok (cs_table s) -> confirm_sem params X op s x s' ->
  (executions id s' <= executions id s + exec_cost id X op)%nat.
Proof.
  intros _. unfold executions. destruct op; simpl; try (intros ->; lia); intros [_ ->]; [lia |].
  simpl. destruct (N.eqb _ _); simpl; lia.
Qed.

Lemma confirm_sem_granted X (op : cop X) s x s' :
  table_ok (cs_table s) -> confirm_sem params X op s x s' ->
  (grants id (cs_table s) + exec_gain id X op x <= grants id (cs_table s'))%nat.
Proof.
  intros Ht. destruct op as [X sop | | | | | | | | | | | | | | |]; simpl; try (intros ->; lia);
    [| intros [-> _]; lia]. intros [H _].
  pose proof (table_le_grants _ _ (proj1 (store_sem_step _ _ _ _ _ _ H))) as Hle.
  destruct sop; simpl in *; try lia.
  - destruct (N.eqb_spec id id0) as [<- |]; [| simpl; lia]. destruct x as [[] |]; simpl; try lia.
    by eapply confirm_grants.
  - destruct (N.eqb_spec id id0) as [<- |]; [| simpl; lia]. destruct x as [[] |]; simpl; try lia.
    by eapply claim_grants.
Qed.
End Grants.

(** What the processes are asked to do. *)
Inductive request :=
  | RTap (tap : Tap)
  | RReconcile
  | RPropose (sc : Scope) (run : uuid) (tool : string) (args : json) (call : option uuid).

Definition serve {RF WF} HashToken ActionDigest uuid_string (cf : Confirmer (RF := RF) (WF := WF)) (r : request)
    : prog (@confirm_op WF) unit :=
  match r with
  | RTap tap => _ ← HandleTap HashToken ActionDigest uuid_string cf tap; mret tt
  | RReconcile => _ ← Reconcile uuid_string cf; mret tt
  | RPropose sc run tool args call =>
      _ ← prog_lift (@OStore WF) (Propose HashToken ActionDigest (cf_Params cf) sc run tool args call); mret tt
  end.

(** However many taps, proposals and sweeps of the reconciler run at once, however their
    database statements fail and wherever they crash, the action of a confirmation runs at
    most once for the customer's authorization plus once for each claim of a reconciler; so
    never for a confirmation nobody confirmed. *)
Theorem executions_bounded {RF WF} HashToken ActionDigest uuid_string (cf : Confirmer (RF := RF) (WF := WF))
    (requests : list request) t t' executed ps id :
  table_ok t ->
  pool_steps (confirm_sem (cf_Params cf))
    (MkCState t [], map (serve HashToken ActionDigest uuid_string cf) requests) (MkCState t' executed, ps) ->
  (length (List.filter (N.eqb id) executed) <= grants id t')%nat /\
  ((forall c, c ∈ t' -> id_of c = id -> g_ConfirmedAt (c_prog c) = None) -> id ∉ executed).
Proof.
  intros Ht H.
  assert (Hb : (executions id (MkCState t' executed) <= grants id t')%nat).
  { refine (credits_sound (exec_cost id) (exec_gain id) get_contract (confirm_sem (cf_Params cf))
      (fun s => table_ok (cs_table s)) (executions id) (fun s => grants id (cs_table s))
      (confirm_sem_contract _) (confirm_sem_inv _) (confirm_sem_spent _ id) (confirm_sem_granted _ id)
      (MkCState t []) _ (MkCState t' executed) ps Ht _ _ H).
    - unfold executions. simpl. lia.
    - apply Forall_forall. intros p (r & <- & _)%list_elem_of_In%in_map_iff. destruct r as [tap | | sc run tool args cl]; unfold serve.
      + refine (ensures_bind _ _ (HandleTap _ _ _ cf tap) _ _ _ _). eapply ensures_mono; [| apply HandleTap_paid]. done.
      + refine (ensures_bind _ _ (Reconcile _ cf) _ _ _ _). eapply ensures_mono; [| apply Reconcile_paid]. done.
      + refine (ensures_bind _ _ (prog_lift _ _) _ _ _ _). by apply harmless_lift. }
  split; [done |]. intros Hnone Hin. unfold executions in Hb. simpl in Hb.
  assert (Hok : table_ok t').
  { refine (pool_state_invariant _ (fun s : cstate => table_ok (cs_table s)) _ _ _ H Ht).
    intros X op s x s' Hs Hi. by eapply confirm_sem_inv. }
  assert (Hz : grants id t' = 0%nat).
  { unfold grants. pose proof (tk_rows _ Hok) as Hrows. clear -Hnone Hrows. induction t' as [| c t' IH]; [done |].
    apply Forall_cons in Hrows as [Hc Hrows]. simpl.
    assert (IH' : sum_list_with grants_of (List.filter (fun c => N.eqb id (id_of c)) t') = 0%nat)
      by (apply IH; [intros c' Hc'; apply Hnone; by right | done]).
    destruct (N.eqb_spec id (id_of c)) as [E |]; simpl; [| done].
    destruct Hc as (_ & _ & Ha). unfold grants_of.
    specialize (Hnone c (list_elem_of_here _ _) (eq_sym E)). rewrite Hnone, Ha by done. simpl. exact IH'. }
  assert (Hpos : (0 < length (List.filter (N.eqb id) executed))%nat).
  { destruct (List.filter (N.eqb id) executed) eqn:E; [| simpl; lia]. exfalso.
    assert (Hf : In id (List.filter (N.eqb id) executed)) by (apply filter_In; split; [by apply list_elem_of_In | apply N.eqb_refl]).
    by rewrite E in Hf. }
  lia.
Qed.

(** A tap that wins, executes and is then recorded. *)
Definition example_cf : Confirmer (RF := nat) (WF := nat) :=
  MkConfirmer (match NewCatalog [example_write] with inr c => Some c | _ => None end) false false minute 5 example_params.
Definition example_tap : Tap := MkTap "tok" 1 2 3 "acc" "wamid" false.
Definition example_digest (o c : uuid) (t : string) (a : json) : option string := Some "digest".

(** The operations answer as if everything were on and no statement failed. *)
Definition answer_db {A} (m : Db (list Confirmation) (result store_error A)) (s : cstate) : result store_error A * cstate :=
  let '(r, w) := m (World (cs_table s) []) in (r, MkCState (w_data w) (cs_executed s)).
Definition example_store X (op : store_op X) (s : cstate) : X * cstate :=
  match op in store_op X return X * cstate with
  | SNow => (200, s) | SNewToken => (None, s) | SNewID => (0%N, s) | SCountSessions _ _ _ => (1, s)
  | SPropose p now => answer_db (propose_tx example_params p now) s
  | SByToken hash org contact => answer_db (by_token hash org contact) s
  | SGet id => answer_db (Get_ id) s
  | SDecline id now => answer_db (Decline id now) s
  | SExpire id now => answer_db (Expire id now) s
  | SDeny id reason now => answer_db (Deny id reason now) s
  | SCloseNotExecuted id outcome now => answer_db (CloseNotExecuted id outcome now) s
  | SConfirm id by_ wamid now => answer_db (Confirm id by_ wamid now) s
  | SFinish id i now => answer_db (Finish id i now) s
  | SSetExecutionCall id c => answer_db (SetExecutionCall id c) s
  | SStuck a m l now => answer_db (StuckConfirmed a m l now) s
  | SExhausted a m l now => answer_db (ExhaustedConfirmed a m l now) s
  | SClaim id a now => answer_db (ClaimReconcile id a now) s
  end.
Definition example_answers X (op : @confirm_op nat X) (s : cstate) : X * cstate :=
  match op in confirm_op X return X * cstate with
  | OStore sop => example_store _ sop s
  | OGlobalEnabled | OWriteEnabled | OProviderValidated _ | OChatbotEnabled _ _ | OWithinBusinessHours _ _ => (true, s)
  | OEnabledTools _ => (Some {[ "request_agent_transfer" ]}, s)
  | OSessionAccount _ => ("acc", s) | OHasActive _ _ => (false, s) | OFindAITransfer _ _ _ => (None, s)
  | OAuditRequested _ => (Some 5%N, s) | OAuditDenied _ _ => (true, s) | OAuditFinish _ _ => (true, s)
  | OWriteExecute _ _ id _ _ => (RDone (MkExecResult OutcomeCreated (Some 9%N)), MkCState (cs_table s) (id :: cs_executed s))
  | OTime => (200, s) | ONotify _ => (tt, s)
  end.

Lemma answer_db_sem {A} (m : Db (list Confirmation) (result store_error A)) s :
  db_sem m (cs_table s) (fst (answer_db m s)) (cs_table (snd (answer_db m s))) /\
  cs_executed (snd (answer_db m s)) = cs_executed s.
Proof.
  unfold answer_db. destruct (m (World (cs_table s) [])) as [r [d fs]] eqn:E. split; [| done]. by exists [], fs.
Qed.

Lemma example_answers_sem X (op : @confirm_op nat X) s :
  confirm_sem example_params X op s (fst (example_answers X op s)) (snd (example_answers X op s)).
Proof. destruct op as [X sop | | | | | | | | | | | | | | |]; try done. destruct sop; simpl; try done; apply answer_db_sem. Qed.

Example tap_example :
  let s := MkCState [MkConfirmation example_proposal new_progress] [] in
  let '(_, s') := prog_run example_answers (serve (fun _ => "hash") example_digest (fun _ => "id") example_cf (RTap example_tap)) s in
  cs_executed s' = [7%N] /\ map c_Status (cs_table s') = [Executed] /\ grants 7 (cs_table s') = 1%nat.
Proof. vm_compute. done. Qed.

Lemma executions_bounded_witness :
  let t := [MkConfirmation example_proposal new_progress] in
  exists t' executed ps,
  table_ok t /\
  pool_steps (confirm_sem (cf_Params example_cf))
    (MkCState t [], map (serve (fun _ => "hash") example_digest (fun _ => "id") example_cf) [RTap example_tap])
    (MkCState t' executed, ps) /\
  executed = [7%N] /\ (length (List.filter (N.eqb 7) executed) <= grants 7 t')%nat.
Proof.
  intros t. assert (Ht : table_ok t).
  { split; [by repeat constructor | apply NoDup_singleton | apply NoDup_singleton |].
    intros c c' ->%list_elem_of_singleton ->%list_elem_of_singleton _ _. reflexivity. }
  destruct (prog_run example_answers (serve (fun _ => "hash") example_digest (fun _ => "id") example_cf (RTap example_tap)) (MkCState t []))
    as [u [t' executed]] eqn:E.
  pose proof (prog_run_steps _ _ _ _ _ _ example_answers_sem E) as H.
  exists t', executed, [Ret u]. split_and!; [exact Ht | exact H | |].
  - vm_compute in E. by injection E as <- <- <-.
  - exact (proj1 (executions_bounded _ _ _ example_cf [RTap example_tap] _ _ _ _ 7 Ht H)).
Defined.
