(* ===== verification/Usage.v ===== *)
(** The settlement of the WhatsApp consumption ledger ([internal/usage/types.go],
    [compute.go], [countries.go], [rates.go] and the usage parameters of
    [internal/config/config.go]): from a ledger row and the set of Meta's events to a
    billing state and an estimated cost. *)
From S2P Require Import Prelude GoText.
From Stdlib Require Import Ascii SpecFloat.

(** ** Data *)
Inductive BillingState :=
  | StatePending | StateAwaitingPricing | StatePriced | StateNotBillable | StateNoRate
  | StateUnconfirmed | StateSendFailed | StateFailed.
#[global] Instance BillingState_eq_dec : EqDecision BillingState.
Proof. solve_decision. Defined.
Inductive Direction := DirectionIncoming | DirectionOutgoing.
#[global] Instance Direction_eq_dec : EqDecision Direction.
Proof. solve_decision. Defined.

Record Pricing := MkPricing { p_Billable : bool; p_Model : string; p_Category : string }.
#[global] Instance Pricing_eq_dec : EqDecision Pricing.
Proof. solve_decision. Defined.

(** A [models.JSONB]: the fields of an object, none when it is NULL. *)
Abbreviation jsonb := (list (string * json)) (only parsing).

(** The columns the settlement owns; [Settlement] of the code. *)
Record Settlement := MkSettlement {
  s_State : BillingState; s_Billable : option bool; s_Category : string; s_Model : string;
  s_ConversationID : string; s_MetaPricing : list (string * json); s_History : list (list (string * json));
  s_Diverged : bool; s_Cost : option spec_float; s_Currency : string; s_RateID : option uuid;
  s_RepricedAt : option instant }.

(** The columns it only reads. *)
Record UsageFacts := MkFacts {
  f_Direction : Direction; f_Country : string; f_DeclaredCategory : string; f_Quantity : Z; f_SentAt : instant }.

Record PricingEvent := MkEvent {
  e_Status : string; e_EventAt : instant; e_ReceivedAt : instant; e_HasPricing : bool;
  e_Pricing : list (string * json); e_Conversation : list (string * json); e_Country : string;
  e_ErrorCode : Z; e_ErrorTitle : string }.

Record WhatsAppRate := MkRate {
  r_ID : uuid; r_Org : uuid; r_Country : string; r_Category : string; r_Price : spec_float; r_Currency : string;
  r_ValidFrom : Z; r_ValidTo : option Z }.

(** ** The operational parameters *)
Record UsageConfig := MkUsageConfig {
  RecordEnabled : option bool; UnlinkedAfterMinutes : option Z; IntegrityIntervalMinutes : option Z;
  IntegrityWindowHours : option Z; UndeliveredAfterHours : option Z; UnlinkedAttentionHours : option Z }.
Definition usageInt (v : option Z) (def : Z) : Z := default def v.
Definition Enabled (c : UsageConfig) : bool := default true (RecordEnabled c).
Definition UnlinkedAfter (c : UsageConfig) : duration := wrap64 (usageInt (UnlinkedAfterMinutes c) 15 * minute).
Definition IntegrityInterval (c : UsageConfig) : duration := wrap64 (usageInt (IntegrityIntervalMinutes c) 5 * minute).
Definition IntegrityWindow (c : UsageConfig) : duration := wrap64 (usageInt (IntegrityWindowHours c) 48 * hour).
Definition UndeliveredAfter (c : UsageConfig) : duration := wrap64 (usageInt (UndeliveredAfterHours c) 72 * hour).

(** [validate]: whether the configuration loads. *)
Definition validate (c : UsageConfig) : bool :=
  forallb (fun v => match v with Some n => 0 <? n | None => true end)
    [UnlinkedAfterMinutes c; UnlinkedAttentionHours c; IntegrityIntervalMinutes c; IntegrityWindowHours c; UndeliveredAfterHours c].

(** ** Pricing snapshots *)
Definition pricingFromJSON (j : list (string * json)) : option Pricing :=
  match j with
  | [] => None
  | _ => Some (MkPricing (default false (as_bool (assoc "billable" j))) (default "" (as_str (assoc "pricing_model" j)))
                 (default "" (as_str (assoc "category" j))))
  end.
Definition pricingToJSON (p : Pricing) : list (string * json) :=
  [("billable", JBool (p_Billable p)); ("pricing_model", JStr (p_Model p)); ("category", JStr (p_Category p))].
Definition pricingOf (e : PricingEvent) : option Pricing :=
  if e_HasPricing e then pricingFromJSON (e_Pricing e) else None.

Lemma pricing_roundtrip p : pricingFromJSON (pricingToJSON p) = Some p.
Proof. by destruct p. Qed.

(** ** The order of the events *)
Definition event_le (a b : PricingEvent) : Prop :=
  e_EventAt a < e_EventAt b \/ (e_EventAt a = e_EventAt b /\ e_ReceivedAt a <= e_ReceivedAt b).
#[global] Instance event_le_dec : RelDecision event_le.
Proof. intros a b. unfold event_le. apply _. Defined.
#[global] Instance event_le_total : Total event_le.
Proof. intros a b. unfold event_le. lia. Qed.
#[global] Instance event_le_trans : Transitive event_le.
Proof. intros a b c. unfold event_le. lia. Qed.

(** [sort.SliceStable] by the time of the event, then of its reception. *)
Definition ordered (events : list PricingEvent) : list PricingEvent := merge_sort event_le events.

(** What the loop over the ordered events leaves: whether one failed, whether one was
    delivered, the latest pricing and the latest conversation id. *)
Record EventSummary := MkSummary {
  es_failed : bool; es_delivered : bool; es_latest : option Pricing; es_conv : string }.
Definition summary_step (s : EventSummary) (e : PricingEvent) : EventSummary :=
  MkSummary (es_failed s || String.eqb (e_Status e) "failed")
    (es_delivered s || String.eqb (e_Status e) "delivered" || String.eqb (e_Status e) "read")
    (match pricingOf e with Some p => Some p | None => es_latest s end)
    (let id := default "" (as_str (assoc "id" (e_Conversation e))) in if String.eqb id "" then es_conv s else id).
Definition summarize (events : list PricingEvent) : EventSummary :=
  foldl summary_step (MkSummary false false None "") (ordered events).

Definition maxPricingHistory : nat := 5.

(** [float64(maxInt(q, 1)) * price] *)
Definition cost_of (quantity : Z) (price : spec_float) : spec_float := f64_mul (f64_of_int (Z.max quantity 1)) price.

Section Compute.
(** [strings.ToLower] and [strings.EqualFold]. *)
Context (ToLower : string -> string) (EqualFold : string -> string -> bool).
(** The price in force, if any. *)
Context (rates : option (string -> string -> instant -> option WhatsAppRate)) (now : instant) (cfg : UsageConfig).

(** The pricing snapshot: a different one replaces the current, which goes to the history.
    The boolean says whether it did. *)
Definition apply_pricing (fx : UsageFacts) (row s : Settlement) (p : Pricing) : Settlement * bool :=
  let changed := match pricingFromJSON (s_MetaPricing row) with Some old => negb (bool_decide (old = p)) | None => false end in
  let hist := if changed then
                let h := s_History row ++ [s_MetaPricing row] in drop (length h - maxPricingHistory) h
              else s_History s in
  let cat := ToLower (p_Category p) in
  (MkSettlement (s_State s) (s_Billable s) cat (p_Model p) (s_ConversationID s) (pricingToJSON p) hist
     (negb (String.eqb (f_DeclaredCategory fx) "") && negb (String.eqb cat "") && negb (EqualFold (f_DeclaredCategory fx) cat))
     (s_Cost s) (s_Currency s) (s_RateID s) (if changed then Some now else s_RepricedAt s), changed).

(** The billing state, cost, currency and rate, given what is billable and the events. *)
Definition decide_state (fx : UsageFacts) (billable : option bool) (cat : string) (sm : EventSummary)
    : BillingState * option spec_float * string * option uuid :=
  if es_failed sm && match billable with None => true | Some b => negb b end then (StateFailed, Some f64_zero, "", None)
  else
    match billable with
    | Some false => (StateNotBillable, Some f64_zero, "", None)
    | Some true =>
        match match rates with Some f => f (f_Country fx) cat (f_SentAt fx) | None => None end with
        | None => (StateNoRate, None, "", None)
        | Some r => (StatePriced, Some (cost_of (f_Quantity fx) (r_Price r)), r_Currency r, Some (r_ID r))
        end
    | None =>
        if es_delivered sm then (StateAwaitingPricing, None, "", None)
        else if negb (is_zero_time (f_SentAt fx)) && (UndeliveredAfter cfg <=? time_sub now (f_SentAt fx))
        then (StateUnconfirmed, Some f64_zero, "", None)
        else (StatePending, None, "", None)
    end.

Definition Compute_ (fx : UsageFacts) (row : Settlement) (events : list PricingEvent) : Settlement :=
  if bool_decide (s_State row = StateSendFailed) then row
  else if bool_decide (f_Direction fx = DirectionIncoming) then
    MkSettlement StateNotBillable (Some false) (s_Category row) (s_Model row) (s_ConversationID row) (s_MetaPricing row)
      (s_History row) (s_Diverged row) (Some f64_zero) "" None (s_RepricedAt row)
  else
    let sm := summarize events in
    let conv := if String.eqb (es_conv sm) "" then s_ConversationID row else es_conv sm in
    let s := MkSettlement (s_State row) (s_Billable row) (s_Category row) (s_Model row) conv (s_MetaPricing row) (s_History row)
               (s_Diverged row) (s_Cost row) (s_Currency row) (s_RateID row) (s_RepricedAt row) in
    let '(s, changed) := match es_latest sm with Some p => apply_pricing fx row s p | None => (s, false) end in
    let billable := match es_latest sm with
                    | Some p => Some (p_Billable p)
                    | None => if es_failed sm then Some false else None
                    end in
    let '(state, cost, currency, rate) := decide_state fx billable (s_Category s) sm in
    let other_rate := match s_RateID row, rate with Some a, Some b => negb (N.eqb a b) | _, _ => false end in
    MkSettlement state billable (s_Category s) (s_Model s) (s_ConversationID s) (s_MetaPricing s) (s_History s)
      (s_Diverged s) cost currency rate
      (if other_rate && negb changed then Some now else s_RepricedAt s).
End Compute.

(** [DiffersFrom]: whether applying the settlement changes the row. *)
Definition floatEq (a b : option spec_float) : bool :=
  match a, b with None, None => true | Some x, Some y => SFeqb x y | _, _ => false end.
Definition pricingEq (a b : list (string * json)) : bool := bool_decide (pricingFromJSON a = pricingFromJSON b).
Definition DiffersFrom (s row : Settlement) : bool :=
  negb (bool_decide (s_State s = s_State row)) || negb (bool_decide (s_Billable s = s_Billable row)) ||
  negb (String.eqb (s_Category s) (s_Category row)) || negb (String.eqb (s_Model s) (s_Model row)) ||
  negb (String.eqb (s_ConversationID s) (s_ConversationID row)) || negb (Bool.eqb (s_Diverged s) (s_Diverged row)) ||
  negb (floatEq (s_Cost s) (s_Cost row)) || negb (String.eqb (s_Currency s) (s_Currency row)) ||
  negb (bool_decide (s_RateID s = s_RateID row)) || negb (length (s_History s) =? length (s_History row))%nat ||
  negb (pricingEq (s_MetaPricing s) (s_MetaPricing row)).

(** ** The events as a set *)

(** The last [Some] that [g] gives along a list. *)
Definition last_by {A B} (g : A -> option B) (l : list A) : option B :=
  foldl (fun acc e => match g e with Some x => Some x | None => acc end) None l.

Lemma last_by_snoc {A B} (g : A -> option B) l e :
  last_by g (l ++ [e]) = match g e with Some x => Some x | None => last_by g l end.
Proof. unfold last_by. by rewrite foldl_app. Qed.

(** On a sorted list it is the value of a maximal element among those with one. *)
Lemma last_by_max {A B} (R : A -> A -> Prop) (g : A -> option B) l :
  StronglySorted R l -> Reflexive R ->
  match last_by g l with
  | Some x => exists e, e ∈ l /\ g e = Some x /\ forall e', e' ∈ l -> g e' <> None -> R e' e
  | None => forall e, e ∈ l -> g e = None
  end.
Proof.
  intros Hs HR. induction l as [| e l IH] using rev_ind; [intros e He; by apply not_elem_of_nil in He |].
  rewrite last_by_snoc. apply StronglySorted_app in Hs as (Hle & Hs & _). specialize (IH Hs).
  destruct (g e) as [x |] eqn:E.
  - exists e. split_and!; [set_solver | done |]. intros e' [He' | ->%list_elem_of_singleton]%elem_of_app _; [| done].
    apply Hle; [done | by left].
  - destruct (last_by g l) as [x |].
    + destruct IH as (e0 & He0 & Hg & Hmax). exists e0. split_and!; [set_solver | done |].
      intros e' [He' | ->%list_elem_of_singleton]%elem_of_app Hn; [by apply Hmax | by rewrite E in Hn].
    + intros e' [He' | ->%list_elem_of_singleton]%elem_of_app; [by apply IH | done].
Qed.

Definition conv_of (e : PricingEvent) : option string :=
  let id := default "" (as_str (assoc "id" (e_Conversation e))) in if String.eqb id "" then None else Some id.
Definition is_failed (e : PricingEvent) : bool := String.eqb (e_Status e) "failed".
Definition is_delivered (e : PricingEvent) : bool := String.eqb (e_Status e) "delivered" || String.eqb (e_Status e) "read".

Lemma summarize_eq events :
  summarize events = MkSummary (existsb is_failed (ordered events)) (existsb is_delivered (ordered events))
    (last_by pricingOf (ordered events)) (default "" (last_by conv_of (ordered events))).
Proof.
  unfold summarize. induction (ordered events) as [| e l IH] using rev_ind; [done |].
  rewrite foldl_app, IH, !last_by_snoc, !existsb_app. simpl. unfold summary_step, is_failed, is_delivered, conv_of.
  simpl. rewrite !orb_false_r, <- ?orb_assoc. by destruct (String.eqb (default _ _) "").
Qed.

(** Events are told apart by when they happened and were received. *)
Definition distinct_times (events : list PricingEvent) : Prop :=
  forall e e', e ∈ events -> e' ∈ events -> e_EventAt e = e_EventAt e' -> e_ReceivedAt e = e_ReceivedAt e' -> e = e'.

Lemma ordered_in e events : e ∈ ordered events <-> e ∈ events.
Proof. unfold ordered. by rewrite merge_sort_Permutation. Qed.

Lemma ordered_sorted events : StronglySorted event_le (ordered events).
Proof. apply (StronglySorted_merge_sort _ _). Qed.

Lemma last_by_set {B} (g : PricingEvent -> option B) l l' :
  (forall e, e ∈ l <-> e ∈ l') -> distinct_times l ->
  last_by g (ordered l) = last_by g (ordered l').
Proof.
  intros Hset Hd.
  pose proof (last_by_max event_le g _ (ordered_sorted l) ltac:(intros e; unfold event_le; lia)) as H1.
  pose proof (last_by_max event_le g _ (ordered_sorted l') ltac:(intros e; unfold event_le; lia)) as H2.
  destruct (last_by g (ordered l)) as [x |], (last_by g (ordered l')) as [x' |]; try done.
  - destruct H1 as (e & He & Hg & Hmax), H2 as (e' & He' & Hg' & Hmax').
    assert (event_le e e') by (apply Hmax'; [by apply ordered_in, Hset, ordered_in | congruence]).
    assert (event_le e' e) by (apply Hmax; [by apply ordered_in, Hset, ordered_in | congruence]).
    assert (e = e') as ->; [| congruence].
    rewrite ordered_in in He, He'. apply Hd; [done | by apply Hset | unfold event_le in *; lia..].
  - destruct H1 as (e & He & Hg & _). rewrite H2 in Hg by by apply ordered_in, Hset, ordered_in. done.
  - destruct H2 as (e & He & Hg & _). rewrite H1 in Hg by by apply ordered_in, Hset, ordered_in. done.
Qed.

Lemma existsb_set (f : PricingEvent -> bool) l l' : (forall e, e ∈ l <-> e ∈ l') -> existsb f (ordered l) = existsb f (ordered l').
Proof.
  intros Hset. apply eq_true_iff_eq. rewrite !existsb_exists. setoid_rewrite <- list_elem_of_In.
  setoid_rewrite ordered_in. by setoid_rewrite Hset.
Qed.

Lemma summarize_set l l' : (forall e, e ∈ l <-> e ∈ l') -> distinct_times l -> summarize l = summarize l'.
Proof.
  intros Hset Hd. rewrite !summarize_eq.
  by rewrite (existsb_set is_failed l l'), (existsb_set is_delivered l l'), (last_by_set pricingOf l l'), (last_by_set conv_of l l').
Qed.

(** ** The settlement *)
Section ComputeProofs.
Context (ToLower : string -> string) (EqualFold : string -> string -> bool).
Context (rates : option (string -> string -> instant -> option WhatsAppRate)) (cfg : UsageConfig).
Abbreviation Compute now := (Compute_ ToLower EqualFold rates now cfg).

(** What is billable according to the events. *)
Definition billable_of (sm : EventSummary) : option bool :=
  match es_latest sm with Some p => Some (p_Billable p) | None => if es_failed sm then Some false else None end.

Definition settled_fields (s : Settlement) : BillingState * option spec_float * string * option uuid :=
  (s_State s, s_Cost s, s_Currency s, s_RateID s).

(** The fields a settled outgoing row has. *)
Lemma compute_outgoing now fx row events :
  s_State row <> StateSendFailed -> f_Direction fx = DirectionOutgoing ->
  let s := Compute now fx row events in let sm := summarize events in
  settled_fields s = decide_state rates now cfg fx (billable_of sm) (s_Category s) sm /\
  s_Billable s = billable_of sm /\
  match es_latest sm with
  | Some p => s_Category s = ToLower (p_Category p) /\ s_Model s = p_Model p /\ s_MetaPricing s = pricingToJSON p
  | None => s_Category s = s_Category row /\ s_Model s = s_Model row /\ s_MetaPricing s = s_MetaPricing row
  end.
Proof.
  intros Hs Hd. unfold Compute_, billable_of. rewrite bool_decide_eq_false_2 by done. rewrite Hd. simpl.
  destruct (es_latest (summarize events)) as [p |]; unfold apply_pricing; simpl;
    destruct (decide_state _ _ _ _ _ _ _) as [[[state cost] currency] rate] eqn:E; simpl; done.
Qed.

Lemma decide_not_send_failed now fx b cat sm st c cur r :
  decide_state rates now cfg fx b cat sm = (st, c, cur, r) -> st <> StateSendFailed.
Proof. unfold decide_state. intros H. repeat case_match; simplify_eq; done. Qed.
End ComputeProofs.

(** Settling the settled row again. *)
Lemma compute_fixpoint ToLower EqualFold rates now cfg fx row events :
  let s := Compute_ ToLower EqualFold rates now cfg fx row events in Compute_ ToLower EqualFold rates now cfg fx s events = s.
Proof.
  intros s. assert (Hs : Compute_ ToLower EqualFold rates now cfg fx row events = s) by done. clearbody s. revert Hs.
  unfold Compute_ at 1. case_bool_decide as Hsf.
  { intros <-. unfold Compute_. by rewrite bool_decide_eq_true_2. }
  destruct (f_Direction fx) eqn:Hd; simpl.
  { intros <-. unfold Compute_. by rewrite Hd. }
  unfold apply_pricing. destruct (es_latest (summarize events)) as [p |] eqn:Hl; simpl;
    destruct (decide_state _ _ _ _ _ _ _) as [[[state cost] currency] rate] eqn:E; simpl; intros <-;
    pose proof (decide_not_send_failed _ _ _ _ _ _ _ _ _ _ _ E) as Hst;
    unfold Compute_; simpl; rewrite bool_decide_eq_false_2 by done; rewrite Hd; simpl; rewrite Hl; unfold apply_pricing; simpl;
    rewrite ?(bool_decide_eq_true_2 (MkPricing _ _ _ = p)) by (by destruct p); simpl; rewrite E;
    destruct rate as [r |]; rewrite ?N.eqb_refl; simpl; by destruct (String.eqb (es_conv _) "").
Qed.

(** A cost, when there is one, that is a number. *)
Definition cost_is_number (s : Settlement) : Prop := match s_Cost s with Some c => SFeqb c c = true | None => True end.

Lemma differs_self s : cost_is_number s -> DiffersFrom s s = false.
Proof.
  intros Hc. unfold DiffersFrom, pricingEq. rewrite !bool_decide_eq_true_2, !String.eqb_refl, Nat.eqb_refl, Bool.eqb_reflx by done.
  simpl. unfold floatEq, cost_is_number in *. destruct (s_Cost s); [by rewrite Hc | done].
Qed.

(** Settling is idempotent: settling the settled row again, with the same events, prices
    and clock, changes nothing, and [DiffersFrom] sees it (for prices that are numbers). *)
Theorem Compute_idempotent ToLower EqualFold rates now cfg fx row events :
  let s := Compute_ ToLower EqualFold rates now cfg fx row events in
  Compute_ ToLower EqualFold rates now cfg fx s events = s /\
  (match s_Cost s with Some c => SFeqb c c = true | None => True end -> DiffersFrom s s = false).
Proof. intros s. split; [apply compute_fixpoint | apply differs_self]. Qed.

(** The settlement depends on the events as a set: their order of arrival and repetitions
    do not matter, as long as no two different events share both their times. *)
Theorem Compute_event_set ToLower EqualFold rates now cfg fx row events events' :
  (forall e, e ∈ events <-> e ∈ events') -> distinct_times events ->
  Compute_ ToLower EqualFold rates now cfg fx row events = Compute_ ToLower EqualFold rates now cfg fx row events'.
Proof. intros Hset Hd. unfold Compute_. by rewrite (summarize_set events events'). Qed.

(** ** What a settled row says *)

(** How much is known: nothing, delivered, or what is billable. *)
Definition knowledge (s : Settlement) : Z :=
  match s_State s with
  | StatePending | StateUnconfirmed | StateSendFailed => 0
  | StateAwaitingPricing => 1
  | StatePriced | StateNoRate | StateNotBillable | StateFailed => 2
  end.

(** The fields agree with the state: only a billable message with a price in force has a
    cost other than zero, it is quantity times that price, and what is not known has none. *)
Definition cost_agrees (rates : option (string -> string -> instant -> option WhatsAppRate)) (fx : UsageFacts) (s : Settlement) : Prop :=
  match s_State s with
  | StatePriced => exists f r, rates = Some f /\ f (f_Country fx) (s_Category s) (f_SentAt fx) = Some r /\
      s_Billable s = Some true /\ s_Cost s = Some (cost_of (f_Quantity fx) (r_Price r)) /\
      s_Currency s = r_Currency r /\ s_RateID s = Some (r_ID r)
  | StateNoRate => s_Billable s = Some true /\ s_Cost s = None /\ s_RateID s = None
  | StateNotBillable | StateFailed => s_Billable s = Some false /\ s_Cost s = Some f64_zero /\ s_RateID s = None
  | StateUnconfirmed => s_Billable s = None /\ s_Cost s = Some f64_zero /\ s_RateID s = None
  | StateAwaitingPricing | StatePending => s_Billable s = None /\ s_Cost s = None /\ s_RateID s = None
  | StateSendFailed => False
  end.

Lemma history_bound (ToLower : string -> string) EqualFold rates now cfg fx row events :
  (length (s_History row) <= maxPricingHistory)%nat ->
  (length (s_History (Compute_ ToLower EqualFold rates now cfg fx row events)) <= maxPricingHistory)%nat.
Proof.
  intros H. unfold Compute_, apply_pricing. repeat (case_match; simplify_eq; simpl in *; try done).
  all: rewrite length_drop, length_app; simpl; lia.
Qed.

(** A settled row (one the API did not refuse) carries a state, what is billable, a cost
    and a price that agree: unknown is never a silent zero, the amount always comes from the
    price table, and at most five earlier snapshots are kept. *)
Theorem Compute_consistent ToLower EqualFold rates now cfg fx row events :
  s_State row <> StateSendFailed ->
  let s := Compute_ ToLower EqualFold rates now cfg fx row events in
  (f_Direction fx = DirectionIncoming -> s_State s = StateNotBillable /\ s_Billable s = Some false /\ s_Cost s = Some f64_zero) /\
  (f_Direction fx = DirectionOutgoing -> cost_agrees rates fx s) /\
  ((length (s_History row) <= maxPricingHistory)%nat -> (length (s_History s) <= maxPricingHistory)%nat).
Proof.
  intros Hs s. split_and!; [| | apply history_bound].
  - intros Hd. unfold s, Compute_. rewrite bool_decide_eq_false_2 by done. by rewrite Hd.
  - intros Hd. destruct (compute_outgoing ToLower EqualFold rates cfg now fx row events Hs Hd) as (H & Hb & _).
    fold s in H, Hb. unfold cost_agrees, settled_fields in *. unfold decide_state, billable_of in *.
    destruct (s_State s), (es_failed (summarize events)), (es_latest (summarize events)) as [[[] ? ?] |];
      simpl in *; repeat (case_match; simplify_eq; simpl in *); try done; eauto 10;
      injection H; intros; eauto 10.
Qed.

(** Settling never regresses: with more events, later and with any prices, a message
    known to be delivered stays known, and one whose charge was decided stays decided. *)
Theorem Compute_never_regresses ToLower EqualFold rates rates' now now' cfg fx row row' events events' :
  s_State row <> StateSendFailed -> s_State row' <> StateSendFailed -> f_Direction fx = DirectionOutgoing ->
  (forall e, e ∈ events -> e ∈ events') ->
  knowledge (Compute_ ToLower EqualFold rates now cfg fx row events) <=
  knowledge (Compute_ ToLower EqualFold rates' now' cfg fx row' events').
Proof.
  intros Hs Hs' Hd Hsub.
  destruct (compute_outgoing ToLower EqualFold rates cfg now fx row events Hs Hd) as (H & _ & _).
  destruct (compute_outgoing ToLower EqualFold rates' cfg now' fx row' events' Hs' Hd) as (H' & _ & _).
  set (s := Compute_ _ _ _ _ _ _ row _) in *. set (s' := Compute_ _ _ _ _ _ _ row' _) in *.
  assert (Hex : forall f, existsb f (ordered events) = true -> existsb f (ordered events') = true).
  { intros f. rewrite !existsb_exists. intros (e & He & Hf). exists e. split; [| done].
    apply list_elem_of_In, ordered_in, Hsub, ordered_in. by apply list_elem_of_In. }
  assert (Hl : es_latest (summarize events) <> None -> es_latest (summarize events') <> None).
  { rewrite !summarize_eq. simpl. intros Hn.
    pose proof (last_by_max event_le pricingOf _ (ordered_sorted events) ltac:(intros e; unfold event_le; lia)) as H1.
    pose proof (last_by_max event_le pricingOf _ (ordered_sorted events') ltac:(intros e; unfold event_le; lia)) as H2.
    destruct (last_by pricingOf (ordered events)) as [x |]; [| done].
    destruct H1 as (e & He & Hg & _). destruct (last_by pricingOf (ordered events')); [done |].
    rewrite H2 in Hg; [done |]. by apply ordered_in, Hsub, ordered_in. }
  assert (Hf : es_failed (summarize events) = true -> es_failed (summarize events') = true)
    by (rewrite !summarize_eq; apply Hex).
  assert (Hdv : es_delivered (summarize events) = true -> es_delivered (summarize events') = true)
    by (rewrite !summarize_eq; apply Hex).
  clearbody s s'. clear Hex. unfold settled_fields, decide_state, billable_of, knowledge in *.
  destruct (es_latest (summarize events)) as [[[] ? ?] |], (es_latest (summarize events')) as [[[] ? ?] |],
    (es_failed (summarize events)), (es_failed (summarize events')), (es_delivered (summarize events)), (es_delivered (summarize events'));
    simpl in *; try (by destruct Hl); try (by specialize (Hf eq_refl)); try (by specialize (Hdv eq_refl));
    repeat (case_match; simplify_eq; simpl in *); try done; lia.
Qed.

(** ** The price in force *)
Definition day_of (t : instant) : Z := t / (24 * hour).

Definition rate_matches (org : uuid) (country category : string) (day : Z) (r : WhatsAppRate) : bool :=
  N.eqb (r_Org r) org && String.eqb (r_Category r) category &&
  (String.eqb (r_Country r) country || String.eqb (r_Country r) "*") &&
  (r_ValidFrom r <=? day) && match r_ValidTo r with None => true | Some d => day <=? d end.

(** [ORDER BY CASE WHEN country = '*' THEN 1 ELSE 0 END, valid_from DESC]. *)
Definition rate_before (a b : WhatsAppRate) : bool :=
  let star r := if String.eqb (r_Country r) "*" then 1 else 0 in
  (star a <? star b) || ((star a =? star b) && (r_ValidFrom b <=? r_ValidFrom a)).

Fixpoint first_rate (rates : list WhatsAppRate) : option WhatsAppRate :=
  match rates with
  | [] => None
  | r :: rest => match first_rate rest with
                 | Some r' => if rate_before r r' then Some r else Some r'
                 | None => Some r
                 end
  end.

Definition LookupRate (table : list WhatsAppRate) (org : uuid) (country category : string) (at_ : instant) : option WhatsAppRate :=
  first_rate (List.filter (rate_matches org country category (day_of at_)) table).

Lemma rate_before_total a b : rate_before a b = false -> rate_before b a = true.
Proof. unfold rate_before. repeat case_match; lia. Qed.
Lemma rate_before_trans a b c : rate_before a b = true -> rate_before b c = true -> rate_before a c = true.
Proof. unfold rate_before. repeat case_match; lia. Qed.
Lemma rate_before_refl a : rate_before a a = true.
Proof. unfold rate_before. lia. Qed.

Lemma first_rate_spec rates :
  match first_rate rates with
  | Some r => r ∈ rates /\ forall r', r' ∈ rates -> rate_before r r' = true
  | None => rates = []
  end.
Proof.
  induction rates as [| r rates IH]; [done |]. simpl. destruct (first_rate rates) as [r1 |].
  - destruct IH as [Hin Hb]. destruct (rate_before r r1) eqn:E.
    + split; [by left |]. intros r' [-> | Hr']%elem_of_cons; [apply rate_before_refl |].
      eapply rate_before_trans; [done | by apply Hb].
    + split; [by right |]. intros r' [-> | Hr']%elem_of_cons; [by apply rate_before_total | by apply Hb].
  - subst. split; [by left |]. intros r' ->%list_elem_of_singleton. apply rate_before_refl.
Qed.

(** The price found is registered for the organization and category and valid on the
    calendar day, both ends included; a price of the exact country is preferred to the
    fallback, then the latest one; and none is found only when none applies. *)
Theorem LookupRate_best table org country category at_ :
  match LookupRate table org country category at_ with
  | Some r =>
      r ∈ table /\ r_Org r = org /\ r_Category r = category /\ r_ValidFrom r <= day_of at_ /\
      (forall d, r_ValidTo r = Some d -> day_of at_ <= d) /\
      (forall r', r' ∈ table -> rate_matches org country category (day_of at_) r' = true -> country <> "*" ->
         r_Country r' = country -> r_Country r = country /\ r_ValidFrom r' <= r_ValidFrom r)
  | None => forall r', r' ∈ table -> rate_matches org country category (day_of at_) r' = false
  end.
Proof.
  unfold LookupRate. pose proof (first_rate_spec (List.filter (rate_matches org country category (day_of at_)) table)) as H.
  destruct (first_rate _) as [r |].
  - destruct H as [Hin Hb]. apply list_elem_of_In, filter_In in Hin as [Hin Hm].
    apply list_elem_of_In in Hin. pose proof Hm as Hm'. unfold rate_matches in Hm. bool_hyps.
    apply N.eqb_eq in H. apply String.eqb_eq in H3. split_and!; [done.. | |].
    + intros d Hd. rewrite Hd in H0. lia.
    + intros r' Hr' Hmr Hc E. assert (Hb' := Hb r' ltac:(apply list_elem_of_In, filter_In; split; [by apply list_elem_of_In | done])).
      unfold rate_before in Hb'. rewrite E, (proj2 (String.eqb_neq country "*")) in Hb' by done.
      destruct (String.eqb_spec (r_Country r) "*"); [lia |]. apply orb_true_iff in H2 as [H2 | H2]; [| done]. apply String.eqb_eq in H2.
      split; [done | lia].
  - intros r' Hr'. destruct (rate_matches _ _ _ _ r') eqn:E; [| done].
    assert (Hf : r' ∈ List.filter (rate_matches org country category (day_of at_)) table)
      by (apply list_elem_of_In, filter_In; split; [by apply list_elem_of_In | done]).
    rewrite H in Hf. by apply not_elem_of_nil in Hf.
Qed.

(** ** Countries *)
Definition addRange (prefix : string) (from to : Z) : list string :=
  map (fun i => prefix +:+ String (digit_char (from + Z.of_nat i)) "") (seq 0 (Z.to_nat (to - from + 1))).

Definition callingCodes : list string :=
  ["1"; "7";
   "20"; "27"; "30"; "31"; "32"; "33"; "34"; "36"; "39"; "40"; "41"; "43"; "44"; "45"; "46"; "47"; "48"; "49";
   "51"; "52"; "53"; "54"; "55"; "56"; "57"; "58"; "60"; "61"; "62"; "63"; "64"; "65"; "66";
   "81"; "82"; "84"; "86"; "90"; "91"; "92"; "93"; "94"; "95"; "98";
   "211"; "212"; "213"; "216"; "218"; "290"; "291"; "297"; "298"; "299"; "420"; "421"; "423";
   "670"; "672"; "673"; "674"; "675"; "676"; "677"; "678"; "679"; "680"; "681"; "682"; "683"; "685"; "686"; "687"; "688"; "689"; "690"; "691"; "692";
   "850"; "852"; "853"; "855"; "856"; "880"; "886"; "970"; "971"; "972"; "973"; "974"; "975"; "976"; "977";
   "992"; "993"; "994"; "995"; "996"; "998"; "385"; "386"; "387"; "389"] ++
  flat_map (fun p => addRange p 0 9) ["22"; "23"; "24"; "25"; "26"] ++
  flat_map (fun p => addRange p 0 9) ["35"; "50"; "59"; "96"] ++
  addRange "37" 0 9 ++ addRange "38" 0 3.
Definition is_code (s : string) : bool := existsb (String.eqb s) callingCodes.

(** The first [n] digits of the number, whatever stands between them. *)
Fixpoint first_digits (n : nat) (s : string) : string :=
  match n, s with
  | S n', String c s' => if is_digit c then String c (first_digits n' s') else first_digits n s'
  | _, _ => EmptyString
  end.

(** [for n := 1; n <= len(d); n++]: the shortest prefix that is a code. *)
Fixpoint shortest_code (d : string) (n left : nat) : string :=
  match left with
  | O => ""
  | S left' => if is_code (str_take n d) then str_take n d else shortest_code d (S n) left'
  end.
Definition CountryOf (phone : string) : string :=
  let d := first_digits 3 phone in shortest_code d 1 (String.length d).

Lemma first_digits_filter n s : first_digits n s = str_take n (str_filter is_digit s).
Proof.
  revert n. induction s as [| c s IH]; intros [| n]; try done. cbn [first_digits str_filter].
  destruct (is_digit c); [simpl; by rewrite IH | apply IH].
Qed.

Lemma codes_prefix_free :
  forallb (fun c => forallb (fun c' => String.eqb c c' || negb (has_prefix c c')) callingCodes) callingCodes = true /\
  forallb (fun c => (1 <=? str_len c) && (str_len c <=? 3) && str_forallb is_digit c) callingCodes = true.
Proof. split; vm_compute; reflexivity. Qed.

Lemma is_code_in s : is_code s = true <-> In s callingCodes.
Proof.
  unfold is_code. rewrite existsb_exists. split.
  - intros (c & Hc & ->%String.eqb_eq). done.
  - intros H. exists s. split; [done | apply String.eqb_refl].
Qed.

Lemma code_facts c : In c callingCodes ->
  1 <= str_len c <= 3 /\ forall c', In c' callingCodes -> has_prefix c c' = true -> c = c'.
Proof.
  intros Hc. destruct codes_prefix_free as [Hp Hl]. rewrite forallb_forall in Hp, Hl.
  specialize (Hp c Hc). specialize (Hl c Hc). rewrite forallb_forall in Hp. bool_hyps. split; [lia |].
  intros c' Hc' Hpre. specialize (Hp c' Hc'). rewrite Hpre, orb_false_r in Hp. by apply String.eqb_eq.
Qed.

Lemma shortest_code_spec d n left :
  (n + left = S (String.length d))%nat ->
  (exists k, (n <= k < n + left)%nat /\ shortest_code d n left = str_take k d /\ is_code (str_take k d) = true) \/
  (shortest_code d n left = "" /\ forall k, (n <= k < n + left)%nat -> is_code (str_take k d) = false).
Proof.
  revert n. induction left as [| left IH]; intros n Hn; simpl; [right; split; [done | lia] |].
  destruct (is_code (str_take n d)) eqn:E; [left; exists n; split_and!; [lia.. | done | done] |].
  destruct (IH (S n) ltac:(lia)) as [(k & Hk & H1 & H2) | [H1 H2]].
  - left. exists k. split_and!; [lia.. | done | done].
  - right. split; [done |]. intros k Hk. destruct (decide (k = n)) as [-> |]; [done | apply H2; lia].
Qed.

(** [CountryOf] depends only on the digits of the number: it is the one calling code
    they start with, and empty exactly when they start with none. *)
Theorem CountryOf_spec phone c :
  (CountryOf phone = c /\ c <> "") <-> (In c callingCodes /\ has_prefix c (str_filter is_digit phone) = true).
Proof.
  assert (Hd : first_digits 3 phone = str_take 3 (str_filter is_digit phone)) by apply first_digits_filter.
  unfold CountryOf. set (d := first_digits 3 phone) in *. set (ds := str_filter is_digit phone) in *.
  assert (Hpre : forall k, (k <= 3)%nat -> str_take k d = str_take k ds) by (intros k Hk; rewrite Hd; by apply str_take_take).
  assert (Hlen : (String.length d <= 3)%nat).
  { pose proof (str_len_take 3 ds). rewrite <- Hd in H. unfold str_len in H. lia. }
  destruct (shortest_code_spec d 1 (String.length d) ltac:(lia)) as [(k & Hk & -> & Hcode) | [-> Hnone]].
  - rewrite Hpre in * by lia. apply is_code_in in Hcode. pose proof (code_facts _ Hcode) as [Hl Hfree].
    assert (Hp : has_prefix (str_take k ds) ds = true) by (rewrite <- (str_take_drop k ds) at 2; apply has_prefix_app).
    split; [intros [<- _]; done |]. intros [Hc Hpc]. split; [| intros ->; apply code_facts in Hc as [Hc _]; unfold str_len in Hc; simpl in Hc; lia].
    destruct (has_prefix_linear (str_take k ds) c ds Hp Hpc) as [H | H]; [by apply Hfree |].
    pose proof (code_facts _ Hc) as [_ Hfree']. symmetry. by apply Hfree'.
  - split; [by intros [<- ?] |]. intros [Hc Hpc]. exfalso. pose proof (code_facts _ Hc) as [Hl _].
    apply has_prefix_true in Hpc as [t Ht].
    set (k := String.length c). assert (Hk : Z.of_nat k = str_len c) by done.
    assert (Htake : str_take k ds = c) by (rewrite Ht; apply str_take_app).
    assert (is_code (str_take k d) = false) as E.
    { apply Hnone. assert (str_len c <= str_len d); [| unfold str_len in *; lia].
      rewrite Hd, str_len_take. rewrite Ht, str_len_app. pose proof (str_len_nonneg t). lia. }
    rewrite Hpre, Htake in E by lia. apply not_true_iff_false in E. by apply E, is_code_in.
Qed.

(** ** Witnesses: a delivered, then priced, message *)
Definition ex_cfg : UsageConfig := MkUsageConfig None None None None None None.
Definition ex_facts : UsageFacts := MkFacts DirectionOutgoing "55" "UTILITY" 1 1000.
Definition ex_row : Settlement := MkSettlement StatePending None "" "" "" [] [] false None "" None None.
Definition ex_delivered : PricingEvent := MkEvent "delivered" 2000 2001 false [] [] "55" 0 "".
Definition ex_priced : PricingEvent :=
  MkEvent "read" 3000 3001 true (pricingToJSON (MkPricing true "CBP" "utility")) [("id", JStr "conv")] "55" 0 "".
Definition ex_rate : WhatsAppRate := MkRate 9 1 "55" "utility" (f64_of_int 3) "BRL" 0 None.
Definition ex_rates : option (string -> string -> instant -> option WhatsAppRate) :=
  Some (fun country cat t => LookupRate [ex_rate] 1 country cat t).
Abbreviation ex_compute := (Compute_ (fun s => s) String.eqb ex_rates 5000 ex_cfg ex_facts).

Example settle_priced : let s := ex_compute ex_row [ex_priced; ex_delivered] in
  (s_State s, s_Cost s, s_ConversationID s) = (StatePriced, Some (cost_of 1 (f64_of_int 3)), "conv").
Proof. vm_compute. done. Qed.

Lemma Compute_event_set_witness :
  distinct_times [ex_priced; ex_delivered] /\
  ex_compute ex_row [ex_priced; ex_delivered] = ex_compute ex_row [ex_delivered; ex_priced; ex_delivered].
Proof.
  assert (Hd : distinct_times [ex_priced; ex_delivered]).
  { intros e e' He He' Ht _. rewrite !elem_of_cons, elem_of_nil in He, He'.
    destruct He as [-> | [-> | []]], He' as [-> | [-> | []]]; try reflexivity; discriminate Ht. }
  split; [exact Hd |]. apply Compute_event_set; [| exact Hd]. intros e. rewrite !elem_of_cons. tauto.
Defined.

Lemma Compute_consistent_witness :
  s_State ex_row <> StateSendFailed /\ cost_agrees ex_rates ex_facts (ex_compute ex_row [ex_priced; ex_delivered]).
Proof.
  assert (H : s_State ex_row <> StateSendFailed) by discriminate. split; [exact H |].
  exact (proj1 (proj2 (Compute_consistent (fun s => s) String.eqb ex_rates 5000 ex_cfg ex_facts ex_row
    [ex_priced; ex_delivered] H)) eq_refl).
Defined.

Lemma Compute_never_regresses_witness :
  knowledge (ex_compute ex_row [ex_delivered]) = 1 /\
  knowledge (ex_compute ex_row [ex_delivered]) <= knowledge (ex_compute ex_row [ex_priced; ex_delivered]).
Proof.
  split; [vm_compute; reflexivity |]. apply Compute_never_regresses; try discriminate; [reflexivity |].
  intros e. rewrite !elem_of_cons. tauto.
Defined.
