(* ===== verification/Ledger.v ===== *)
(** The consumption ledger in the database ([internal/usage/record.go], [settle.go],
    [reprice.go] and the row-creating parts of [integrity.go]): one row per message, the
    append-only log of Meta's events, and the statements and transactions on them. *)
From S2P Require Import Prelude GoText Effects Sql Usage.
From Stdlib Require Import Ascii SpecFloat.

(** ** Rows *)
Inductive ActorType := ActorAgent | ActorAI | ActorFlow | ActorCampaign | ActorSystem | ActorExternalApp | ActorContact.
Inductive LinkState := LinkLinked | LinkUnlinked.
Inductive UnitSource := UnitFromAgent | UnitFromTeam | UnitNone.

(** [Origin]; [o_ActorType] is [None] for the zero value. *)
Record Origin := MkOrigin {
  o_ActorType : option ActorType; o_ActorUserID : option uuid; o_TeamID : option uuid; o_FlowID : option uuid;
  o_FlowNodeID : string; o_CampaignID : option uuid; o_OccurrenceID : option uuid; o_AIUsageLogID : option uuid;
  o_Detail : string; o_Inferred : bool }.
Definition no_origin : Origin := MkOrigin None None None None "" None None None "" false.

(** What a row says about its message besides the settlement. *)
Record About := MkAbout {
  ab_ContactID : option uuid; ab_MessageType : string; ab_TemplateName : string; ab_TemplateID : string;
  ab_Origin : Origin; ab_UnitID : option uuid; ab_UnitSource : UnitSource }.

Record UsageRow := MkRow {
  u_ID : uuid; u_Org : uuid; u_Account : string; u_MessageID : option uuid; u_Wamid : string;
  u_About : About; u_Facts : UsageFacts; u_Set : Settlement; u_Link : LinkState;
  u_SettledAt : option instant }.

Record LoggedEvent := MkLogged { le_Org : uuid; le_Account : string; le_Wamid : string; le_Event : PricingEvent }.

Record Ledger := MkLedger { l_rows : list UsageRow; l_events : list LoggedEvent; l_rates : list WhatsAppRate }.

(** The columns of [models.Message] the recording reads. *)
Record Message := MkMessage {
  msg_ID : uuid; msg_Org : uuid; msg_Account : string; msg_Wamid : string; msg_Direction : Direction;
  msg_ContactID : uuid; msg_ConversationID : string; msg_Type : string; msg_TemplateName : string;
  msg_CreatedAt : instant; msg_Failed : bool; msg_SentByUserID : option uuid; msg_CampaignID : option uuid }.

Inductive usage_error := UErrDb | UErrUnique | UErrNotFound.
#[global] Instance usage_error_db : DbErr usage_error := UErrDb.
#[global] Instance usage_error_eq_dec : EqDecision usage_error.
Proof. solve_decision. Defined.
Abbreviation Ldb A := (Db Ledger (result usage_error A)) (only parsing).

(** ** Statements *)

(** The unique keys: the id, the message, and the wamid of an account. *)
Definition same_wamid (org : uuid) (account wamid : string) (r : UsageRow) : bool :=
  N.eqb (u_Org r) org && String.eqb (u_Account r) account && String.eqb (u_Wamid r) wamid.
Definition same_message (m : option uuid) (r : UsageRow) : bool :=
  match m, u_MessageID r with Some a, Some b => N.eqb a b | _, _ => false end.
Definition conflicts (new r : UsageRow) : bool :=
  N.eqb (u_ID r) (u_ID new) || same_message (u_MessageID new) r ||
  (negb (String.eqb (u_Wamid new) "") && same_wamid (u_Org new) (u_Account new) (u_Wamid new) r).

Definition with_rows (l : Ledger) (rows : list UsageRow) : Ledger := MkLedger rows (l_events l) (l_rates l).

(** [INSERT ... ON CONFLICT DO NOTHING]; whether a row was inserted. *)
Definition insert_row (new : UsageRow) : Ldb bool :=
  exec (fun l => if existsb (conflicts new) (l_rows l) then (Ok false, l)
                 else (Ok true, with_rows l (l_rows l ++ [new]))).

(** The row of this wamid that has no message yet. *)
Definition orphan (org : uuid) (account wamid : string) (r : UsageRow) : bool :=
  same_wamid org account wamid r && bool_decide (u_MessageID r = None).

(** The unlinked row takes what the recorded message knows. *)
Definition complete (new r : UsageRow) : UsageRow :=
  MkRow (u_ID r) (u_Org r) (u_Account r) (u_MessageID new) (u_Wamid r) (u_About new)
    (MkFacts (f_Direction (u_Facts new)) (f_Country (u_Facts new)) (f_DeclaredCategory (u_Facts new))
       (f_Quantity (u_Facts r)) (f_SentAt (u_Facts new)))
    (u_Set r) LinkLinked (u_SettledAt r).

(** The unique indexes hold of a table. *)
Fixpoint unique_keys (rows : list UsageRow) : bool :=
  match rows with [] => true | r :: rest => negb (existsb (conflicts r) rest) && unique_keys rest end.

(** An [UPDATE] of columns that a unique index covers. *)
Definition update_checked (p : UsageRow -> bool) (f : UsageRow -> UsageRow) (l : Ledger) : result usage_error unit * Ledger :=
  let rows := sql_update p f (l_rows l) in
  if unique_keys rows then (Ok tt, with_rows l rows) else (Err UErrUnique, l).

Definition complete_orphan (new : UsageRow) : Ldb unit :=
  exec (update_checked (orphan (u_Org new) (u_Account new) (u_Wamid new)) (complete new)).

Definition set_billing (st : BillingState) (s : Settlement) : Settlement :=
  MkSettlement st (Some false) (s_Category s) (s_Model s) (s_ConversationID s) (s_MetaPricing s) (s_History s) (s_Diverged s)
    (Some f64_zero) (s_Currency s) (s_RateID s) (s_RepricedAt s).
Definition with_settlement (r : UsageRow) (s : Settlement) (settledAt : option instant) : UsageRow :=
  MkRow (u_ID r) (u_Org r) (u_Account r) (u_MessageID r) (u_Wamid r) (u_About r) (u_Facts r) s (u_Link r) settledAt.
Definition with_wamid (wamid : string) (r : UsageRow) : UsageRow :=
  MkRow (u_ID r) (u_Org r) (u_Account r) (u_MessageID r) wamid (u_About r) (u_Facts r) (u_Set r) (u_Link r) (u_SettledAt r).
Definition adopt (m : uuid) (r : UsageRow) : UsageRow :=
  MkRow (u_ID r) (u_Org r) (u_Account r) (Some m) (u_Wamid r) (u_About r) (u_Facts r) (u_Set r) LinkLinked (u_SettledAt r).

(** [MarkSendFailed]: the API refused the send. *)
Definition mark_send_failed (org message : uuid) (now : instant) : Ldb unit :=
  exec (fun l => (Ok tt, with_rows l (sql_update
    (fun r => same_message (Some message) r && N.eqb (u_Org r) org && String.eqb (u_Wamid r) "")
    (fun r => with_settlement r (set_billing StateSendFailed (u_Set r)) (Some now)) (l_rows l)))).

(** [tx.Model(...).Where("id = ?").Update("wamid", wamid)] *)
Definition set_wamid (id : uuid) (wamid : string) : Ldb unit :=
  exec (update_checked (fun r => N.eqb (u_ID r) id) (with_wamid wamid)).

(** The transaction of [AttachWamid]. *)
Definition attach_body (org message : uuid) (account wamid : string) : Ldb unit :=
  own ←? query (fun l => Ok (sql_first (same_message (Some message)) (l_rows l)));
  match own with
  | None => exec (update_checked (orphan org account wamid) (adopt message))
  | Some own =>
      if String.eqb (u_Wamid own) "" then
        _ ←? exec (fun l => (Ok tt, with_rows l (List.filter (fun r => negb (orphan org account wamid r)) (l_rows l))));
        set_wamid (u_ID own) wamid
      else mret (Ok tt)
  end.

(** [RecordStatusEvent]: whether the event is new (wamid, status and time are its key). *)
Definition event_conflicts (a b : LoggedEvent) : bool :=
  N.eqb (le_Org a) (le_Org b) && String.eqb (le_Account a) (le_Account b) && String.eqb (le_Wamid a) (le_Wamid b) &&
  String.eqb (e_Status (le_Event a)) (e_Status (le_Event b)) && (e_EventAt (le_Event a) =? e_EventAt (le_Event b)).
Definition insert_event (e : LoggedEvent) : Ldb bool :=
  exec (fun l => if existsb (event_conflicts e) (l_events l) then (Ok false, l)
                 else (Ok true, MkLedger (l_rows l) (l_events l ++ [e]) (l_rates l))).

(** ** Settling *)
Section Settle.
Context (ToLower : string -> string) (EqualFold : string -> string -> bool) (cfg : UsageConfig).

Definition events_of (l : Ledger) (r : UsageRow) : list PricingEvent :=
  map le_Event (List.filter (fun e => N.eqb (le_Org e) (u_Org r) && String.eqb (le_Account e) (u_Account r) &&
                                      String.eqb (le_Wamid e) (u_Wamid r)) (l_events l)).

(** The price [Compute] asks for, when it asks: one statement, whose failure is an error. *)
Definition asks_rate (r : UsageRow) (events : list PricingEvent) : bool :=
  negb (bool_decide (s_State (u_Set r) = StateSendFailed)) && bool_decide (f_Direction (u_Facts r) = DirectionOutgoing) &&
  bool_decide (billable_of (summarize events) = Some true).
Definition rate_for (r : UsageRow) (events : list PricingEvent) (l : Ledger) : option WhatsAppRate :=
  let cat := match es_latest (summarize events) with Some p => ToLower (p_Category p) | None => "" end in
  LookupRate (l_rates l) (u_Org r) (f_Country (u_Facts r)) cat (f_SentAt (u_Facts r)).

Definition settleRow (r : UsageRow) (now : instant) : Ldb bool :=
  events ←? query (fun l => Ok (events_of l r));
  rate ←? (if asks_rate r events then query (fun l => Ok (rate_for r events l)) else mret (Ok None));
  let s := Compute_ ToLower EqualFold (Some (fun _ _ _ => rate)) now cfg (u_Facts r) (u_Set r) events in
  if negb (DiffersFrom s (u_Set r)) then mret (Ok false)
  else
    let settledAt := if bool_decide (s_State s = StatePending) then None else Some now in
    _ ←? exec (fun l => (Ok tt, with_rows l (sql_update (fun x => N.eqb (u_ID x) (u_ID r)) (fun x => with_settlement x s settledAt) (l_rows l))));
    mret (Ok true).

Definition settle_tx (org : uuid) (account wamid : string) (now : instant) : Ldb unit :=
  transaction (
    row ←? query (fun l => Ok (sql_first (same_wamid org account wamid) (l_rows l)));
    match row with
    | None => mret (Ok tt)
    | Some r => _ ←? settleRow r now; mret (Ok tt)
    end).

Definition repriceOne (org id : uuid) (now : instant) : Ldb bool :=
  transaction (
    row ←? query (fun l => match sql_first (fun r => N.eqb (u_ID r) id && N.eqb (u_Org r) org) (l_rows l) with
                           | Some r => Ok r | None => Err UErrNotFound end);
    settleRow row now).

(** ** The operations of the recording, one statement or transaction each *)
Inductive ledger_op : Type -> Type :=
  | LNow : ledger_op instant
  | LNewID : ledger_op uuid
  | LEnabledFor (org : uuid) : ledger_op bool
  | LContact (id : uuid) : ledger_op (option (string * option uuid))
  | LUserUnit (id : uuid) : ledger_op (option uuid)
  | LTeamUnit (id : uuid) : ledger_op (option uuid)
  | LTemplate (org : uuid) (account name : string) : ledger_op (option (string * string))
  | LInsert (r : UsageRow) : ledger_op (result usage_error bool)
  | LComplete (r : UsageRow) : ledger_op (result usage_error unit)
  | LMarkFailed (org message : uuid) (now : instant) : ledger_op (result usage_error unit)
  | LAttach (org message : uuid) (account wamid : string) : ledger_op (result usage_error unit)
  | LInsertEvent (e : LoggedEvent) : ledger_op (result usage_error bool)
  | LSettle (org : uuid) (account wamid : string) (now : instant) : ledger_op (result usage_error unit)
  | LReprice (org id : uuid) (now : instant) : ledger_op (result usage_error bool)
  | LRepriceIDs (org cursor : uuid) : ledger_op (result usage_error (list uuid)).

(** Other tables, the clock and the panel switch answer anything. *)
Definition ledger_sem X (op : ledger_op X) (l : Ledger) (x : X) (l' : Ledger) : Prop :=
  match op in ledger_op X return X -> Prop with
  | LInsert r => fun x => db_sem (insert_row r) l x l'
  | LComplete r => fun x => db_sem (complete_orphan r) l x l'
  | LMarkFailed org m now => fun x => db_sem (mark_send_failed org m now) l x l'
  | LAttach org m account wamid => fun x => db_sem (transaction (attach_body org m account wamid)) l x l'
  | LInsertEvent e => fun x => db_sem (insert_event e) l x l'
  | LSettle org account wamid now => fun x => db_sem (settle_tx org account wamid now) l x l'
  | LReprice org id now => fun x => db_sem (repriceOne org id now) l x l'
  | _ => fun _ => l' = l
  end x.

Definition resolveUnit (o : Origin) (contactTeam : option uuid) : prog ledger_op (option uuid * UnitSource) :=
  agent ← match o_ActorUserID o with Some u => call (LUserUnit u) | None => mret None end;
  match agent with
  | Some unit => mret (Some unit, UnitFromAgent)
  | None =>
      team ← match match o_TeamID o with Some t => Some t | None => contactTeam end with
             | Some t => call (LTeamUnit t) | None => mret None end;
      mret match team with Some unit => (Some unit, UnitFromTeam) | None => (None, UnitNone) end
  end.

Definition classified (o : Origin) : Origin :=
  match o_ActorType o with
  | Some _ => o
  | None => MkOrigin (Some ActorSystem) (o_ActorUserID o) (o_TeamID o) (o_FlowID o) (o_FlowNodeID o) (o_CampaignID o)
              (o_OccurrenceID o) (o_AIUsageLogID o) "unclassified" true
  end.
Definition with_team (o : Origin) (team : option uuid) : Origin :=
  MkOrigin (o_ActorType o) (o_ActorUserID o) (match o_TeamID o with Some t => Some t | None => team end) (o_FlowID o)
    (o_FlowNodeID o) (o_CampaignID o) (o_OccurrenceID o) (o_AIUsageLogID o) (o_Detail o) (o_Inferred o).

(** The row of a message, before it is stored. *)
Definition row_of (m : Message) (o : Origin) (contact : option (string * option uuid)) (unit : option uuid * UnitSource)
    (template : option (string * string)) (id : uuid) (now : instant) : UsageRow :=
  let incoming := bool_decide (msg_Direction m = DirectionIncoming) in
  let set := MkSettlement (if incoming then StateNotBillable else StatePending) (if incoming then Some false else None) "" ""
               (msg_ConversationID m) [] [] false (if incoming then Some f64_zero else None) "" None None in
  MkRow id (msg_Org m) (msg_Account m) (Some (msg_ID m)) (msg_Wamid m)
    (MkAbout (Some (msg_ContactID m)) (msg_Type m) (msg_TemplateName m) (match template with Some (i, _) => i | None => "" end)
       (with_team o (match contact with Some (_, t) => t | None => None end)) (fst unit) (snd unit))
    (MkFacts (msg_Direction m) (CountryOf (match contact with Some (p, _) => p | None => "" end))
       (match template with Some (_, c) => c | None => "" end) 1
       (if is_zero_time (msg_CreatedAt m) then now else msg_CreatedAt m))
    set LinkLinked None.

Definition Record_ (m : Message) (o : Origin) : prog ledger_op (result usage_error unit) :=
  on ← call (LEnabledFor (msg_Org m));
  if negb on then mret (Ok tt)
  else
    contact ← call (LContact (msg_ContactID m));
    let o := classified o in
    unit ← resolveUnit o (match contact with Some (_, t) => t | None => None end);
    now ← call LNow;
    template ← (if String.eqb (msg_TemplateName m) "" then mret None
                else call (LTemplate (msg_Org m) (msg_Account m) (msg_TemplateName m)));
    id ← call LNewID;
    let row := row_of m o contact unit template id now in
    r ← call (LInsert row);
    match r with
    | Err e => mret (Err e)
    | Ok true => mret (Ok tt)
    | Ok false => if String.eqb (u_Wamid row) "" then mret (Ok tt) else call (LComplete row)
    end.

Definition MarkSendFailed (org message : uuid) : prog ledger_op (result usage_error unit) :=
  on ← call (LEnabledFor org);
  if negb on then mret (Ok tt) else now ← call LNow; call (LMarkFailed org message now).

Definition Settle (org : uuid) (account wamid : string) : prog ledger_op (result usage_error unit) :=
  if String.eqb wamid "" then mret (Ok tt)
  else
    on ← call (LEnabledFor org);
    if negb on then mret (Ok tt) else now ← call LNow; call (LSettle org account wamid now).

Definition AttachWamid (org message : uuid) (account wamid : string) : prog ledger_op (result usage_error unit) :=
  if String.eqb wamid "" then mret (Ok tt)
  else
    on ← call (LEnabledFor org);
    if negb on then mret (Ok tt)
    else
      r ← call (LAttach org message account wamid);
      match r with Err e => mret (Err e) | Ok _ => Settle org account wamid end.

(** One status webhook entry, and the event logged for it. *)
Record StatusEvent := MkStatusEvent {
  se_Org : uuid; se_Account : string; se_Wamid : string; se_Status : string; se_EventAt : instant; se_Pricing : option Pricing;
  se_ConversationID : string; se_ConversationOrigin : string; se_Country : string; se_ErrorCode : Z; se_ErrorTitle : string }.
Definition event_row (ev : StatusEvent) (now : instant) : LoggedEvent :=
  MkLogged (se_Org ev) (se_Account ev) (se_Wamid ev)
    (MkEvent (se_Status ev) (se_EventAt ev) now (bool_decide (is_Some (se_Pricing ev)))
       (match se_Pricing ev with Some p => pricingToJSON p | None => [] end)
       (if String.eqb (se_ConversationID ev) "" && String.eqb (se_ConversationOrigin ev) "" then []
        else [("id", JStr (se_ConversationID ev)); ("origin", JStr (se_ConversationOrigin ev))])
       (se_Country ev) (se_ErrorCode ev) (se_ErrorTitle ev)).
Definition RecordStatusEvent (ev : StatusEvent) : prog ledger_op (result usage_error bool) :=
  on ← call (LEnabledFor (se_Org ev));
  if negb on then mret (Ok false) else now ← call LNow; call (LInsertEvent (event_row ev now)).

(** [recordInferred]: the origin guessed from what the message says. *)
Definition inferred_origin (m : Message) : Origin :=
  match msg_Direction m with
  | DirectionIncoming => MkOrigin (Some ActorContact) None None None "" None None None "" true
  | DirectionOutgoing =>
      match msg_SentByUserID m with
      | Some u => MkOrigin (Some ActorAgent) (Some u) None None "" None None None "" true
      | None =>
          match msg_CampaignID m with
          | Some c => MkOrigin (Some ActorCampaign) None None None "" (Some c) None None "campaign" true
          | None => MkOrigin (Some ActorSystem) None None None "" None None None "unclassified" true
          end
      end
  end.
Definition recordInferred (m : Message) : prog ledger_op (result usage_error unit) :=
  r ← Record_ m (inferred_origin m);
  match r with
  | Err e => mret (Err e)
  | Ok _ =>
      if bool_decide (msg_Direction m = DirectionOutgoing) && String.eqb (msg_Wamid m) "" && msg_Failed m
      then MarkSendFailed (msg_Org m) (msg_ID m)
      else if String.eqb (msg_Wamid m) "" then mret (Ok tt)
      else Settle (msg_Org m) (msg_Account m) (msg_Wamid m)
  end.

(** One candidate of [sweepUnlinked]: a wamid Meta reported on and no row has. *)
Definition unlinked_row (id org : uuid) (account wamid country : string) (firstEventAt : instant) : UsageRow :=
  MkRow id org account None wamid
    (MkAbout None "" "" "" (MkOrigin (Some ActorSystem) None None None "" None None None "unlinked" true) None UnitNone)
    (MkFacts DirectionOutgoing country "" 1 firstEventAt)
    (MkSettlement StatePending None "" "" "" [] [] false None "" None None) LinkUnlinked None.
Definition sweep_candidate (org : uuid) (account wamid country : string) (firstEventAt : instant) : prog ledger_op (result usage_error unit) :=
  id ← call LNewID;
  r ← call (LInsert (unlinked_row id org account wamid country firstEventAt));
  match r with
  | Ok true => Settle org account wamid
  | Ok false => mret (Ok tt)
  | Err e => mret (Err e)
  end.
End Settle.

(** ** The unique indexes *)
Lemma conflicts_sym a b : conflicts a b = conflicts b a.
Proof.
  unfold conflicts, same_message, same_wamid. rewrite (N.eqb_sym (u_ID b)). f_equal; [f_equal |].
  - destruct (u_MessageID a), (u_MessageID b); try done. apply N.eqb_sym.
  - rewrite (N.eqb_sym (u_Org b)), (String.eqb_sym (u_Account b)), (String.eqb_sym (u_Wamid b) (u_Wamid a)).
    destruct (String.eqb_spec (u_Wamid a) (u_Wamid b)) as [-> | ]; [done |]. by rewrite !andb_false_r.
Qed.

Lemma conflicts_none r rows : existsb (conflicts r) rows = false <-> forall x, x ∈ rows -> conflicts r x = false.
Proof.
  rewrite <- not_true_iff_false, existsb_exists. setoid_rewrite <- list_elem_of_In. split.
  - intros H x Hx. apply not_true_iff_false. eauto.
  - intros H (x & Hx & Hc). by rewrite H in Hc.
Qed.

Lemma unique_keys_app new rows : unique_keys rows = true -> existsb (conflicts new) rows = false -> unique_keys (rows ++ [new]) = true.
Proof.
  induction rows as [| r rows IH]; [done |]. simpl. rewrite !andb_true_iff, !negb_true_iff, orb_false_iff.
  intros [Hr Hu] [Hn Hc]. split; [| auto]. rewrite existsb_app, orb_false_iff. simpl. by rewrite orb_false_r, conflicts_sym.
Qed.

Lemma unique_keys_filter p rows : unique_keys rows = true -> unique_keys (List.filter p rows) = true.
Proof.
  induction rows as [| r rows IH]; [done |]. simpl. rewrite andb_true_iff, negb_true_iff. intros [Hr Hu].
  destruct (p r); [| auto]. simpl. rewrite andb_true_iff, negb_true_iff. split; [| auto].
  rewrite conflicts_none in Hr |- *. intros x Hx. apply Hr, list_elem_of_In. apply list_elem_of_In, List.filter_In in Hx. tauto.
Qed.

(** An update that leaves the keys alone. *)
Definition keeps_keys (f : UsageRow -> UsageRow) : Prop := forall r, u_ID (f r) = u_ID r /\ u_Org (f r) = u_Org r /\
  u_Account (f r) = u_Account r /\ u_MessageID (f r) = u_MessageID r /\ u_Wamid (f r) = u_Wamid r.
Lemma unique_keys_update p f rows : keeps_keys f -> unique_keys (sql_update p f rows) = unique_keys rows.
Proof.
  intros Hf. induction rows as [| r rows IH]; [done |]. simpl. fold (sql_update p f rows). rewrite IH. f_equal. f_equal.
  clear IH. induction rows as [| x rows IH]; [done |]. simpl. rewrite IH. f_equal. unfold conflicts, same_message, same_wamid.
  destruct (Hf r) as (H1 & H2 & H3 & H4 & H5), (Hf x) as (H1' & H2' & H3' & H4' & H5').
  destruct (p r), (p x); by rewrite ?H1, ?H2, ?H3, ?H4, ?H5, ?H1', ?H2', ?H3', ?H4', ?H5'.
Qed.

Lemma unique_row rows r x : unique_keys rows = true -> r ∈ rows -> x ∈ rows -> conflicts r x = true -> x = r.
Proof.
  induction rows as [| y rows IH]; simpl; [intros _ H; by apply not_elem_of_nil in H |].
  rewrite andb_true_iff, negb_true_iff, conflicts_none, !elem_of_cons. intros [Hy Hu] Hr Hx He.
  destruct Hr as [-> | Hr], Hx as [-> | Hx]; [done | | | auto].
  - by rewrite (Hy x Hx) in He.
  - rewrite conflicts_sym in He. by rewrite (Hy r Hr) in He.
Qed.
Lemma unique_id rows r x : unique_keys rows = true -> r ∈ rows -> x ∈ rows -> u_ID x = u_ID r -> x = r.
Proof. intros Hu Hr Hx E. apply (unique_row rows); [done..|]. unfold conflicts. by rewrite E, N.eqb_refl. Qed.

(** The row of a wamid. *)
Lemma first_wamid rows r org account wamid :
  unique_keys rows = true -> r ∈ rows -> wamid <> "" -> same_wamid org account wamid r = true ->
  sql_first (same_wamid org account wamid) rows = Some r.
Proof.
  intros Hu Hr Hw Hs. destruct (sql_first _ rows) as [x |] eqn:E.
  - apply find_some in E as [Hx Hx']. f_equal. apply (unique_row rows); [done | done | by apply list_elem_of_In |].
    unfold conflicts, same_wamid in *. rewrite !andb_true_iff, !N.eqb_eq, !String.eqb_eq in Hs, Hx'.
    destruct Hs as [[-> ->] ->], Hx' as [[-> ->] ->]. rewrite N.eqb_refl, !String.eqb_refl. simpl.
    destruct (String.eqb_spec wamid ""); [done |]. apply orb_true_r.
  - unfold sql_first in E. apply list_elem_of_In in Hr. by rewrite (find_none _ _ E r Hr) in Hs.
Qed.

Lemma first_in {A} (p : A -> bool) rows r : sql_first p rows = Some r -> r ∈ rows /\ p r = true.
Proof. unfold sql_first. intros H%find_some. by rewrite list_elem_of_In. Qed.

(** ** What may become of a row *)

(** A row keeps its identity, what it says of its message and its wamid once it has one; a
    refused send stays refused. *)
Record row_grows (r r' : UsageRow) : Prop := MkGrows {
  rg_key : u_ID r' = u_ID r /\ u_Org r' = u_Org r /\ u_Account r' = u_Account r /\ u_MessageID r' = u_MessageID r;
  rg_about : u_About r' = u_About r /\ u_Facts r' = u_Facts r /\ u_Link r' = u_Link r;
  rg_wamid : u_Wamid r <> "" -> u_Wamid r' = u_Wamid r;
  rg_refused : s_State (u_Set r) = StateSendFailed -> s_State (u_Set r') = StateSendFailed }.
#[global] Instance row_grows_preorder : PreOrder row_grows.
Proof.
  split; [intros r; by split |].
  intros a b c [(E1 & E2 & E3 & E4) (F1 & F2 & F3) W R] [(E1' & E2' & E3' & E4') (F1' & F2' & F3') W' R'].
  split; [split_and!; congruence | split_and!; congruence | | auto]. intros Hw. rewrite W'; [auto |]. by rewrite W.
Qed.

Definition linked (r : UsageRow) : Prop := u_MessageID r <> None.
Record ledger_grows (l l' : Ledger) : Prop := MkLedgerGrows {
  lg_rows : forall r, r ∈ l_rows l -> linked r -> exists r', r' ∈ l_rows l' /\ row_grows r r';
  lg_events : exists more, l_events l' = l_events l ++ more;
  lg_rates : l_rates l' = l_rates l }.
#[global] Instance ledger_grows_preorder : PreOrder ledger_grows.
Proof.
  split; [intros l; split; [intros r Hr _; by exists r | exists []; by rewrite app_nil_r | done] |].
  intros a b c [R1 [m1 E1] P1] [R2 [m2 E2] P2]. split; [| exists (m1 ++ m2); by rewrite E2, E1, app_assoc | congruence].
  intros r Hr Hl. destruct (R1 r Hr Hl) as (r1 & Hr1 & G1).
  destruct (R2 r1 Hr1) as (r2 & Hr2 & G2); [unfold linked in *; by destruct G1 as [(_ & _ & _ & ->)] |].
  exists r2. split; [done |]. by etrans.
Qed.

(** From a ledger whose indexes hold to another one. *)
Definition evolves (l l' : Ledger) : Prop :=
  unique_keys (l_rows l) = true -> unique_keys (l_rows l') = true /\ ledger_grows l l'.
#[global] Instance evolves_preorder : PreOrder evolves.
Proof.
  split; [intros l Hl; by split |]. intros a b c H1 H2 Ha. destruct (H1 Ha) as [Hb G1], (H2 Hb) as [Hc G2].
  split; [done |]. by etrans.
Qed.

Lemma exec_evolves {A} (f : Ledger -> result usage_error A * Ledger) l r l' :
  evolves l (snd (f l)) -> db_sem (exec f) l r l' -> evolves l l'.
Proof. intros H [E | [_ [-> | ->]]]%db_sem_exec; [by rewrite <- E in H | done | done]. Qed.

Lemma transaction_evolves {A} (m : Ldb A) l r l' :
  (forall a l', db_sem m l (Ok a) l' -> evolves l l') -> db_sem (transaction m) l r l' -> evolves l l'.
Proof. intros H [[-> _] | (a & Hm & _)]%db_sem_transaction; [done | eauto]. Qed.

Lemma rows_evolve l rows :
  (unique_keys (l_rows l) = true -> unique_keys rows = true /\
     forall r, r ∈ l_rows l -> linked r -> exists r', r' ∈ rows /\ row_grows r r') ->
  evolves l (with_rows l rows).
Proof. intros H Hl. destruct (H Hl) as [Hu Hr]. split; [done |]. split; [done | exists []; simpl; by rewrite app_nil_r | done]. Qed.

Lemma update_grows p f rows r :
  r ∈ rows -> (p r = true -> row_grows r (f r)) -> exists r', r' ∈ sql_update p f rows /\ row_grows r r'.
Proof.
  intros Hr Hf. exists (if p r then f r else r). split; [by apply (list_elem_of_fmap_2 (fun r => if p r then f r else r)) |].
  destruct (p r); [by apply Hf | done].
Qed.

Lemma checked_evolves p f l :
  (unique_keys (l_rows l) = true -> forall r, r ∈ l_rows l -> linked r -> p r = true -> row_grows r (f r)) ->
  evolves l (snd (update_checked p f l)).
Proof.
  intros H. unfold update_checked. destruct (unique_keys (sql_update p f (l_rows l))) eqn:E; [| done].
  apply rows_evolve. intros Hl. split; [done |]. intros r Hr Hk. apply update_grows; eauto.
Qed.

Lemma orphan_linked org account wamid r : linked r -> orphan org account wamid r = false.
Proof. intros H. unfold orphan. rewrite (bool_decide_eq_false_2 _ H). apply andb_false_r. Qed.

Lemma insert_evolves new l r l' : db_sem (insert_row new) l r l' -> evolves l l'.
Proof.
  apply exec_evolves. destruct (existsb (conflicts new) (l_rows l)) eqn:E; [done |]. apply rows_evolve. intros Hl.
  split; [by apply unique_keys_app |]. intros r0 Hr _. exists r0. split; [apply elem_of_app; by left | done].
Qed.

Lemma mark_evolves org m now l r l' : db_sem (mark_send_failed org m now) l r l' -> evolves l l'.
Proof.
  apply exec_evolves, rows_evolve. intros Hl. split; [by rewrite unique_keys_update |].
  intros r0 Hr Hk. by apply update_grows.
Qed.

Lemma attach_evolves org m account wamid l a l' :
  db_sem (attach_body org m account wamid) l (Ok a) l' -> evolves l l'.
Proof.
  unfold attach_body. intros [(e & _ & ?) | (own & l1 & Hq & H)]%db_sem_try; [done |].
  apply db_sem_query in Hq as [-> [Hq | Hq]]; [| done]. injection Hq as ->.
  destruct (sql_first _ _) as [own |] eqn:Ho.
  2: { revert H. apply exec_evolves, checked_evolves. intros _ r _ Hk. by rewrite orphan_linked. }
  destruct (String.eqb_spec (u_Wamid own) "") as [Hw | Hw]; [| by apply db_sem_ret in H as [_ ->]].
  apply first_in in Ho as [Ho Hm]. assert (Hok : linked own) by (unfold linked, same_message in *; by destruct (u_MessageID own)).
  apply db_sem_try in H as [(e & _ & ?) | ([] & l2 & Hd & H)]; [done |].
  apply exec_ok_sem in Hd. injection Hd as <-.
  set (l2 := with_rows l _) in H.
  assert (Hsub : forall r, r ∈ l_rows l2 <-> r ∈ l_rows l /\ orphan org account wamid r = false).
  { intros r. simpl. rewrite list_elem_of_In, List.filter_In, negb_true_iff. by rewrite list_elem_of_In. }
  transitivity l2.
  - apply rows_evolve. intros Hl. split; [by apply unique_keys_filter |].
    intros r Hr Hk. exists r. split; [| done]. apply Hsub. by rewrite orphan_linked.
  - revert H. apply exec_evolves, checked_evolves. intros Hl r Hr Hk E%N.eqb_eq.
    assert (r = own) as -> by (apply (unique_id (l_rows l2)); [done | | done | done]; apply Hsub; by rewrite orphan_linked).
    split; [done | done | done | done].
Qed.

(** ** Settling one row *)
Section SettleProofs.
Context (ToLower : string -> string) (EqualFold : string -> string -> bool).
Context (cfg : UsageConfig).

(** The price table as [Compute] sees it. *)
Definition live_rates (l : Ledger) (org : uuid) : option (string -> string -> instant -> option WhatsAppRate) :=
  Some (fun country category at_ => LookupRate (l_rates l) org country category at_).

(** The settlement of a row by the ledger, and the ledger once it is stored. *)
Definition settlement_of (l : Ledger) (r : UsageRow) (now : instant) : Settlement :=
  Compute_ ToLower EqualFold (live_rates l (u_Org r)) now cfg (u_Facts r) (u_Set r) (events_of l r).
Definition settled (l : Ledger) (r : UsageRow) (now : instant) : Ledger :=
  let s := settlement_of l r now in
  if DiffersFrom s (u_Set r)
  then with_rows l (sql_update (fun x => N.eqb (u_ID x) (u_ID r))
         (fun x => with_settlement x s (if bool_decide (s_State s = StatePending) then None else Some now)) (l_rows l))
  else l.

(** [Compute] asks at most for one price, and [settleRow] reads exactly that one. *)
Lemma compute_asks l r now events :
  Compute_ ToLower EqualFold (Some (fun _ _ _ => if asks_rate r events then rate_for ToLower r events l else None)) now cfg
    (u_Facts r) (u_Set r) events =
  Compute_ ToLower EqualFold (live_rates l (u_Org r)) now cfg (u_Facts r) (u_Set r) events.
Proof.
  unfold Compute_, asks_rate, rate_for, live_rates, billable_of, apply_pricing. case_bool_decide as H1; [done |]. simpl.
  destruct (f_Direction (u_Facts r)); [done |]. simpl.
  destruct (es_latest (summarize events)) as [[[] model cat] |]; unfold decide_state; simpl; try done;
    destruct (es_failed (summarize events)); done.
Qed.

Lemma settleRow_sem l r now x l' :
  db_sem (settleRow ToLower EqualFold cfg r now) l x l' ->
  (l' = l \/ l' = settled l r now) /\ (is_ok x = true -> l' = settled l r now).
Proof.
  unfold settleRow. intros [(e & Hq & ->) | (events & l1 & Hq & H)]%db_sem_try.
  { apply db_sem_query in Hq as [-> _]. split; [auto | done]. }
  apply db_sem_query in Hq as [-> [Hq | Hq]]; [| done]. injection Hq as ->.
  apply db_sem_try in H as [(e & Hq & ->) | (rate & l1 & Hq & H)].
  { destruct (asks_rate r _); [apply db_sem_query in Hq as [-> _] | apply db_sem_ret in Hq as [_ ->]]; split; auto; done. }
  assert (l1 = l /\ rate = if asks_rate r (events_of l r) then rate_for ToLower r (events_of l r) l else None) as [-> ->].
  { destruct (asks_rate r _); [apply db_sem_query in Hq as [-> [[= ->] | Hq]] | apply db_sem_ret in Hq as [[= ->] ->]]; done. }
  clear Hq. rewrite compute_asks in H. unfold settled. fold (settlement_of l r now) in *.
  destruct (DiffersFrom (settlement_of l r now) (u_Set r)); simpl in H; [| apply db_sem_ret in H as [-> ->]; auto].
  apply db_sem_try in H as [(e & Hu & ->) | ([] & l1 & Hu & H)].
  - split; [| done]. apply db_sem_exec in Hu as [[=] | [_ [-> | ->]]]; auto.
  - apply exec_ok_sem in Hu. injection Hu as <-. apply db_sem_ret in H as [-> ->]. auto.
Qed.

Lemma settled_evolves l r now : r ∈ l_rows l -> evolves l (settled l r now).
Proof.
  intros Hr. unfold settled. destruct (DiffersFrom _ _); [| done]. apply rows_evolve. intros Hl.
  split; [by rewrite unique_keys_update |]. intros x Hx Hk. apply update_grows; [done |]. intros E%N.eqb_eq.
  assert (x = r) as -> by by apply (unique_id (l_rows l)). split; [done | done | done |].
  intros Hs. simpl. unfold settlement_of, Compute_. by rewrite bool_decide_eq_true_2.
Qed.

Lemma settle_evolves org account wamid now l x l' :
  db_sem (settle_tx ToLower EqualFold cfg org account wamid now) l x l' -> evolves l l'.
Proof.
  apply transaction_evolves. clear x l'. intros a l'. intros [(e & _ & ?) | (row & l1 & Hq & H)]%db_sem_try; [done |].
  apply db_sem_query in Hq as [-> [Hq | Hq]]; [| done]. injection Hq as ->.
  destruct (sql_first _ _) as [r |] eqn:Ho; [| by apply db_sem_ret in H as [_ ->]]. apply first_in in Ho as [Hr _].
  apply db_sem_try in H as [(e & _ & ?) | (b & l1 & H & Hret)]; [done |]. apply db_sem_ret in Hret as [_ ->].
  apply settleRow_sem in H as [_ ->]; [by apply settled_evolves | done].
Qed.

Lemma reprice_evolves org id now l x l' :
  db_sem (repriceOne ToLower EqualFold cfg org id now) l x l' -> evolves l l'.
Proof.
  apply transaction_evolves. clear x l'. intros a l'. intros [(e & _ & ?) | (r & l1 & Hq & H)]%db_sem_try; [done |].
  apply db_sem_query in Hq as [-> [Hq | Hq]]; [| done].
  destruct (sql_first _ _) as [r0 |] eqn:Ho; [| done]. injection Hq as ->. apply first_in in Ho as [Hr _].
  apply settleRow_sem in H as [_ ->]; [by apply settled_evolves | done].
Qed.

Lemma ledger_sem_evolves X (op : ledger_op X) l x l' : ledger_sem ToLower EqualFold cfg X op l x l' -> evolves l l'.
Proof.
  destruct op; simpl; try (intros ->; done).
  - apply insert_evolves.
  - apply exec_evolves, checked_evolves. intros _ r0 _ Hk. by rewrite orphan_linked.
  - apply mark_evolves.
  - apply transaction_evolves. intros ? ?. apply attach_evolves.
  - apply exec_evolves. destruct (existsb _ _); [done |]. intros Hl. split; [done |]. split; [| by eexists | done].
    intros r Hr _. by exists r.
  - apply settle_evolves.
  - apply reprice_evolves.
Qed.
End SettleProofs.

(** C36: the ledger is a history. However any number of recordings, webhooks, integrity jobs
    and repricings interleave, fail or crash: there is never more than one row per message or
    per wamid of an account, the log of events and the prices are never rewritten, and the
    row of a message is never lost: it keeps its message, its attribution and facts, and its
    wamid once it has one, and a refused send stays refused. *)
Theorem ledger_history ToLower EqualFold cfg {A} l (ps : list (prog ledger_op A)) l' ps' :
  unique_keys (l_rows l) = true ->
  pool_steps (ledger_sem ToLower EqualFold cfg) (l, ps) (l', ps') ->
  unique_keys (l_rows l') = true /\ ledger_grows l l'.
Proof.
  intros Hl H. revert Hl. change (evolves (fst (l, ps)) (fst (l', ps'))).
  apply (pool_state_relation (ledger_sem ToLower EqualFold cfg) evolves); [| done]. intros. by eapply ledger_sem_evolves.
Qed.

(** ** What settling stores *)
Section SettleSpec.
Context (ToLower : string -> string) (EqualFold : string -> string -> bool).
Context (cfg : UsageConfig).
Abbreviation settlement_of := (settlement_of ToLower EqualFold cfg).
Abbreviation settled := (settled ToLower EqualFold cfg).
Abbreviation settle_tx := (settle_tx ToLower EqualFold cfg).

Lemma settleRow_runs l r now :
  fst (settleRow ToLower EqualFold cfg r now (World l [])) = Ok (DiffersFrom (settlement_of l r now) (u_Set r)) /\
  snd (settleRow ToLower EqualFold cfg r now (World l [])) = World (settled l r now) [].
Proof.
  unfold settleRow, try_bind, mbind, db_bind, query. rewrite exec_no_faults. cbn [fst snd].
  assert (E : (if asks_rate r (events_of l r) then exec (fun d => (Ok (rate_for ToLower r (events_of l r) d), d))
               else mret (Ok None)) (World l []) =
    (Ok (E := usage_error) (if asks_rate r (events_of l r) then rate_for ToLower r (events_of l r) l else None), World l [])).
  { destruct (asks_rate r (events_of l r)); [by rewrite exec_no_faults | done]. }
  rewrite E. cbn [fst snd]. rewrite compute_asks. fold (settlement_of l r now).
  unfold Ledger.settled. destruct (DiffersFrom (settlement_of l r now) (u_Set r)); [| done]. cbn [negb]. cbv beta iota.
  by rewrite exec_no_faults.
Qed.

Lemma settle_runs l r org account wamid now :
  unique_keys (l_rows l) = true -> r ∈ l_rows l -> wamid <> "" -> same_wamid org account wamid r = true ->
  settle_tx org account wamid now (World l []) = (Ok tt, World (settled l r now) []).
Proof.
  intros Hu Hr Hw Hs. unfold Ledger.settle_tx, transaction, try_bind, mbind, db_bind, query. rewrite exec_no_faults.
  cbn [fst snd]. rewrite (first_wamid _ r) by done. destruct (settleRow_runs l r now) as [E1 E2].
  destruct (settleRow ToLower EqualFold cfg r now (World l [])) as [x w]. simpl in E1, E2. by subst x w.
Qed.

Lemma settled_row l r now :
  unique_keys (l_rows l) = true -> r ∈ l_rows l ->
  exists r1, r1 ∈ l_rows (settled l r now) /\ row_grows r r1 /\ u_Wamid r1 = u_Wamid r /\
    (DiffersFrom (settlement_of l r now) (u_Set r) = true -> u_Set r1 = settlement_of l r now) /\
    (DiffersFrom (settlement_of l r now) (u_Set r) = false -> r1 = r).
Proof.
  intros Hu Hr. unfold Ledger.settled. destruct (DiffersFrom (settlement_of l r now) (u_Set r)) eqn:D.
  - eexists. split; [apply list_elem_of_fmap_2, Hr |]. rewrite N.eqb_refl. simpl. split_and!; [| done..]. split; [done.. |].
    intros Hs. simpl. unfold Ledger.settlement_of, Compute_. by rewrite bool_decide_eq_true_2.
  - exists r. done.
Qed.

Lemma settled_twice l r now r1 :
  unique_keys (l_rows l) = true -> r1 ∈ l_rows (settled l r now) -> u_ID r1 = u_ID r -> r ∈ l_rows l ->
  (DiffersFrom (settlement_of l r now) (u_Set r) = true -> cost_is_number (settlement_of l r now)) ->
  settled (settled l r now) r1 now = settled l r now.
Proof.
  intros Hu Hr1 Hid Hr Hn. destruct (settled_row l r now Hu Hr) as (r2 & Hr2 & G & Hw & HD & HN).
  destruct (settled_evolves ToLower EqualFold cfg l r now Hr Hu) as [Hu' _].
  assert (r1 = r2) as -> by (apply (unique_id _ _ _ Hu'); [done | done |]; destruct G as [(-> & _) _ _ _]; done).
  unfold Ledger.settled at 1. set (l1 := settled l r now) in *.
  destruct (DiffersFrom (settlement_of l r now) (u_Set r)) eqn:D.
  - enough (E : settlement_of l1 r2 now = settlement_of l r now) by (rewrite E, HD, differs_self; auto).
    destruct G as [(_ & Ho & Ha & _) (_ & Hf & _) _ _]. unfold Ledger.settlement_of at 1, live_rates, events_of.
    rewrite Ho, Ha, Hw, Hf, HD by done. unfold l1, Ledger.settled. rewrite D. simpl.
    apply (compute_fixpoint ToLower EqualFold (live_rates l (u_Org r))).
  - rewrite (HN eq_refl). unfold l1, Ledger.settled. rewrite D. by rewrite D.
Qed.
End SettleSpec.

(** Settling a wamid stores exactly what [Compute] says of its row, from all the events
    logged for it and the price table of that moment, and touches nothing else: it does so
    when no statement fails, whatever fails the ledger is either untouched or so updated,
    success means so updated, and settling again at once changes nothing. *)
Theorem settle_stores_compute ToLower EqualFold cfg l r org account wamid now :
  unique_keys (l_rows l) = true -> r ∈ l_rows l -> wamid <> "" -> same_wamid org account wamid r = true ->
  let s := settlement_of ToLower EqualFold cfg l r now in
  let l1 := settled ToLower EqualFold cfg l r now in
  let settle := settle_tx ToLower EqualFold cfg org account wamid now in
  settle (World l []) = (Ok tt, World l1 []) /\
  (forall x l', db_sem settle l x l' -> (l' = l \/ l' = l1) /\ (x = Ok tt -> l' = l1)) /\
  (cost_is_number s -> settle (World l1 []) = (Ok tt, World l1 [])).
Proof.
  intros Hu Hr Hw Hs s l1 settle. split_and!; [by apply settle_runs | |].
  - intros x l' [[-> Hx] | ([] & H & Hx)]%db_sem_transaction; [split; [auto | by intros ->] |].
    apply db_sem_try in H as [(e & _ & ?) | (row & l2 & Hq & H)]; [done |].
    apply db_sem_query in Hq as [-> [Hq | Hq]]; [| done]. injection Hq as ->. rewrite (first_wamid _ r) in H by done.
    apply db_sem_try in H as [(e & _ & ?) | (b & l2 & H & Hret)]; [done |]. apply db_sem_ret in Hret as [_ ->].
    apply settleRow_sem in H as [_ ->]; [split; auto | done].
  - intros Hn. destruct (settled_row ToLower EqualFold cfg l r now Hu Hr) as (r1 & Hr1 & [(Hi & Ho & Ha & _) _ _ _] & Hw1 & _).
    destruct (settled_evolves ToLower EqualFold cfg l r now Hr Hu) as [Hu' _].
    unfold settle. rewrite (settle_runs ToLower EqualFold cfg l1 r1) by (try done; unfold same_wamid in *; by rewrite Ho, Ha, Hw1).
    unfold l1. by rewrite settled_twice.
Qed.

(** ** Recording one message *)
Section RecordSpec.
Context (ToLower : string -> string) (EqualFold : string -> string -> bool).
Context (cfg : UsageConfig).
(** The two switches, as they stand for each organization. *)
Context (enabled : uuid -> bool).

(** One recording alone: the answers of [ledger_sem], the switches, and identifiers that no
    row has yet. *)
Definition record_post X (op : ledger_op X) (l : Ledger) (x : X) (l' : Ledger) : Prop :=
  ledger_sem ToLower EqualFold cfg X op l x l' /\
  match op in ledger_op X return X -> Prop with
  | LEnabledFor org => fun x => x = enabled org
  | LNewID => fun x => forall r, r ∈ l_rows l -> u_ID r <> x
  | _ => fun _ => True
  end x.
Definition any_pre X (op : ledger_op X) (l : Ledger) : Prop := True.

(** The message has its row, or its wamid has one. *)
Definition covered (m : Message) (r : UsageRow) : Prop :=
  u_MessageID r = Some (msg_ID m) \/
  (msg_Wamid m <> "" /\ same_wamid (msg_Org m) (msg_Account m) (msg_Wamid m) r = true).

(** A new row says of the message what the caller said. *)
Definition describes (m : Message) (o : Origin) (r : UsageRow) : Prop :=
  u_MessageID r = Some (msg_ID m) /\ u_Org r = msg_Org m /\ u_Account r = msg_Account m /\ u_Wamid r = msg_Wamid m /\
  f_Direction (u_Facts r) = msg_Direction m /\ u_Link r = LinkLinked /\
  (exists team, ab_Origin (u_About r) = with_team (classified o) team) /\
  s_State (u_Set r) = (if bool_decide (msg_Direction m = DirectionIncoming) then StateNotBillable else StatePending).

Lemma resolveUnit_reads o team l : ensures any_pre record_post (resolveUnit o team) l (fun _ l' => l' = l).
Proof.
  unfold resolveUnit.
  assert (H2 : ensures any_pre record_post (team0 ← match match o_TeamID o with Some t => Some t | None => team end with
             | Some t => call (LTeamUnit t) | None => mret None end;
      mret match team0 with Some unit => (Some unit, UnitFromTeam) | None => (None, UnitNone) end) l (fun _ l' => l' = l)).
  { destruct (match o_TeamID o with Some t => Some t | None => team end); [| done].
    apply ensures_call_bind; [done |]. intros x g [-> _]. by destruct x. }
  destruct (o_ActorUserID o); [| exact H2]. apply ensures_call_bind; [done |]. intros x g [-> _]. cbv beta.
  destruct x; [done | exact H2].
Qed.

Lemma completed_covers m row l l' x :
  u_MessageID row = Some (msg_ID m) -> x ∈ l_rows l -> covered m x -> l' = snd (update_checked (orphan (u_Org row) (u_Account row) (u_Wamid row)) (complete row) l) ->
  fst (update_checked (orphan (u_Org row) (u_Account row) (u_Wamid row)) (complete row) l) = Ok tt ->
  exists r, r ∈ l_rows l' /\ covered m r.
Proof.
  intros Hm Hx Hc ->. unfold update_checked. destruct (unique_keys _); [| done]. intros _. simpl.
  exists (if orphan (u_Org row) (u_Account row) (u_Wamid row) x then complete row x else x).
  split; [by apply (list_elem_of_fmap_2 (fun r => if orphan _ _ _ r then complete row r else r)) |].
  destruct (orphan _ _ _ x); [by left | done].
Qed.

Lemma insert_answers row l r l' : db_sem (insert_row row) l r l' ->
  (r = Ok true /\ l' = with_rows l (l_rows l ++ [row])) \/
  (r = Ok false /\ l' = l /\ exists x, x ∈ l_rows l /\ conflicts row x = true) \/
  (r = Err UErrDb /\ (length (l_rows l') <= S (length (l_rows l)))%nat).
Proof.
  intros [H | [-> H]]%db_sem_exec.
  - destruct (existsb (conflicts row) (l_rows l)) eqn:E; simplify_eq; [| by left].
    apply existsb_exists in E as (x & Hx & Hc). right; left. split_and!; [done.. |]. exists x. by rewrite list_elem_of_In.
  - right; right. split; [done |]. destruct H as [-> | ->]; [lia |].
    destruct (existsb _ _); simpl; [lia |]. rewrite length_app. simpl. lia.
Qed.

Lemma complete_answers row l r l' : db_sem (complete_orphan row) l r l' ->
  let u := update_checked (orphan (u_Org row) (u_Account row) (u_Wamid row)) (complete row) l in
  length (l_rows l') = length (l_rows l) /\ (r = Ok tt -> l' = snd u /\ fst u = Ok tt).
Proof.
  intros H u. assert (Hu : length (l_rows (snd u)) = length (l_rows l)).
  { unfold u, update_checked. destruct (unique_keys _); [| done]. simpl. apply length_map. }
  apply db_sem_exec in H as [H | [-> [-> | ->]]]; [| done..]. assert (E : u = (r, l')) by done. rewrite E in Hu |- *. done.
Qed.

Lemma conflict_covers m o row l x :
  describes m o row -> (forall r, r ∈ l_rows l -> u_ID r <> u_ID row) -> x ∈ l_rows l -> conflicts row x = true -> covered m x.
Proof.
  intros (Hm & Ho & Ha & Hw & _) Hid Hx. unfold conflicts, covered. rewrite !orb_true_iff, andb_true_iff, negb_true_iff, String.eqb_neq.
  rewrite Hm, Ho, Ha, Hw. intros [[H%N.eqb_eq | H] | H]; [by destruct (Hid x Hx) | left | by right].
  unfold same_message in H. destruct (u_MessageID x); [| done]. apply N.eqb_eq in H. by subst.
Qed.

(** Recording a message that succeeds leaves it accounted for: with recording on, either
    exactly one row is appended, that says of the message what the caller said, or nothing is
    added and the message (or its wamid) already had a row, the unlinked one, if any, being
    completed with the message. With recording off nothing happens. A failure adds at most
    that row. *)
Theorem record_covers l m o :
  ensures any_pre record_post (Record_ m o) l (fun res l' =>
    (enabled (msg_Org m) = false -> res = Ok tt /\ l' = l) /\
    (enabled (msg_Org m) = true -> res = Ok tt ->
       (exists row, describes m o row /\ l' = with_rows l (l_rows l ++ [row])) \/
       (length (l_rows l') = length (l_rows l) /\ exists r, r ∈ l_rows l' /\ covered m r)) /\
    (length (l_rows l') <= S (length (l_rows l)))%nat).
Proof.
  unfold Record_. apply ensures_call_bind; [done |]. intros on g [-> ->]. cbv beta.
  destruct (enabled (msg_Org m)) eqn:E; simpl negb; cbv iota; [| split_and!; simpl; [done | done | lia]].
  apply ensures_call_bind; [done |]. intros contact g [-> _]. cbv beta.
  apply ensures_bind. eapply ensures_mono; [| apply resolveUnit_reads]. intros unit g ->.
  apply ensures_call_bind; [done |]. intros now g [-> _]. cbv beta.
  apply ensures_bind. apply (ensures_mono _ _ _ _ (fun _ l' => l' = l)); [intros template g -> |
    destruct (String.eqb _ _); [done | split; [done |]; by intros x g [-> _]]].
  apply ensures_call_bind; [done |]. intros id g [-> Hid]. cbv beta.
  set (row := row_of m _ contact unit template id now).
  assert (Hd : describes m o row) by (unfold describes, row; simpl; split_and!; [done..| by eexists |];
    by destruct (bool_decide _)).
  assert (Hi : u_ID row = id) by done. clearbody row. apply ensures_call_bind; [done |]. intros r g [Hr _]. cbv beta.
  apply insert_answers in Hr as [(-> & ->) | [(-> & -> & x & Hx & Hc) | (-> & Hlen)]].
  - split_and!; simpl; [done | intros _ _; left; eauto | rewrite length_app; simpl; lia].
  - assert (Hcov : covered m x) by (eapply conflict_covers; [exact Hd | by rewrite Hi | done..]).
    destruct (String.eqb_spec (u_Wamid row) "") as [Hw | Hw].
    + split_and!; simpl; [done | intros _ _; right; split; [done |]; by exists x | lia].
    + split; [done |]. intros r g [Hr _]. simpl. apply complete_answers in Hr as [Hlen Hok].
      split_and!; [done | | lia]. intros _ ->. right. split; [done |]. eapply completed_covers; [| exact Hx | | |];
      [apply Hd | exact Hcov | by apply Hok | by apply Hok].
  - split_and!; simpl; [done | done | lia].
Qed.
End RecordSpec.

(** ** Witnesses: a sent message whose price Meta has reported *)
Definition ex_usage_row : UsageRow := MkRow 5 1 "main" (Some 7%N) "wamid.A"
  (MkAbout (Some 3%N) "text" "" "" no_origin None UnitNone) ex_facts ex_row LinkLinked None.
Definition ex_ledger : Ledger :=
  MkLedger [ex_usage_row] [MkLogged 1 "main" "wamid.A" ex_delivered; MkLogged 1 "main" "wamid.A" ex_priced] [ex_rate].
Abbreviation ex_settle := (settle_tx (fun s => s) String.eqb ex_cfg 1 "main" "wamid.A" 5000).
Abbreviation ex_settled := (settled (fun s => s) String.eqb ex_cfg ex_ledger ex_usage_row 5000).

Lemma settle_stores_compute_witness :
  map (fun r => (s_State (u_Set r), s_Cost (u_Set r))) (l_rows ex_settled) = [(StatePriced, Some (cost_of 1 (f64_of_int 3)))] /\
  ex_settle (World ex_ledger []) = (Ok tt, World ex_settled []).
Proof.
  split; [vm_compute; reflexivity |].
  apply (settle_stores_compute (fun s => s) String.eqb ex_cfg ex_ledger ex_usage_row);
    [vm_compute; reflexivity | left | discriminate | vm_compute; reflexivity].
Defined.

Lemma ledger_history_witness :
  unique_keys (l_rows ex_ledger) = true /\ ledger_grows ex_ledger ex_settled.
Proof.
  assert (H : unique_keys (l_rows ex_ledger) = true) by (vm_compute; reflexivity). split; [exact H |].
  apply (ledger_history (fun s => s) String.eqb ex_cfg ex_ledger [call (LSettle 1 "main" "wamid.A" 5000)] ex_settled [Ret (Ok tt)] H).
  apply rtc_once, (step_op _ _ [] _ _ Ret [] (Ok tt)). exists [], []. vm_compute. reflexivity.
Defined.
