(* ===== verification/Hub.v ===== *)
(** The WebSocket hub ([internal/websocket/hub.go]) and the part of a connection it shares
    with the hub ([client.go]): who is registered, presence, and who receives what. *)
From S2P Require Import Prelude.
From stdpp Require Import gmap.

(** ** Messages *)
Record WSMessage := MkWS { ws_Type : string; ws_Payload : json }.
Record BroadcastMessage := MkBroadcast {
  bm_OrgID : uuid; bm_UserID : uuid; bm_ContactID : uuid; bm_Message : WSMessage;
  bm_RequireContactMatch : bool; bm_IgnoreContactFilter : bool; bm_AlsoUserID : uuid }.

Definition BroadcastToOrg (org : uuid) (msg : WSMessage) := MkBroadcast org nil_uuid nil_uuid msg false false nil_uuid.
Definition BroadcastToContact (org contact : uuid) (msg : WSMessage) := MkBroadcast org nil_uuid contact msg false false nil_uuid.
Definition BroadcastToContactViewers (org contact : uuid) (msg : WSMessage) := MkBroadcast org nil_uuid contact msg true false nil_uuid.
Definition BroadcastNewMessageToAuthorized (org contact : uuid) (msg : WSMessage) := MkBroadcast org nil_uuid contact msg false true nil_uuid.
Definition BroadcastToAuthorizedViewers := BroadcastNewMessageToAuthorized.
Definition BroadcastToUser (org user : uuid) (msg : WSMessage) := MkBroadcast org user nil_uuid msg false false nil_uuid.
Definition BroadcastToUsers (org : uuid) (users : list uuid) (msg : WSMessage) := map (fun u => BroadcastToUser org u msg) users.

(** ** State *)

(** A connection, by the address of its [Client]: [cl_send] is what waits in the buffered
    channel and [cl_open] whether it is not closed; [cl_reading] whether [ReadPump] runs. *)
Record Client := MkClient {
  cl_user : uuid; cl_org : uuid; cl_authenticated : bool; cl_contact : option uuid;
  cl_send : list string; cl_open : bool; cl_reading : bool }.
Definition sendBuffer : nat := 256.
Definition broadcastBuffer : nat := 256.

Abbreviation registry := (gmap uuid (gmap uuid (gset N))) (only parsing).

(** The hub and the connections; [h_presence] the notifications so far, newest first;
    [h_panicked] whether a send on, or a close of, a closed channel happened. *)
Record Hub := MkHub {
  h_clients : registry; h_store : gmap N Client; h_queue : list BroadcastMessage;
  h_presence : list (uuid * uuid * bool); h_panicked : bool }.
Definition NewHub : Hub := MkHub ∅ ∅ [] [] false.

Definition with_clients (h : Hub) (m : registry) : Hub := MkHub m (h_store h) (h_queue h) (h_presence h) (h_panicked h).
Definition with_store (h : Hub) (s : gmap N Client) : Hub := MkHub (h_clients h) s (h_queue h) (h_presence h) (h_panicked h).
Definition with_queue (h : Hub) (q : list BroadcastMessage) : Hub := MkHub (h_clients h) (h_store h) q (h_presence h) (h_panicked h).
Definition notifyPresence (h : Hub) (org user : uuid) (online : bool) : Hub :=
  MkHub (h_clients h) (h_store h) (h_queue h) ((org, user, online) :: h_presence h) (h_panicked h).
Definition panic (h : Hub) : Hub := MkHub (h_clients h) (h_store h) (h_queue h) (h_presence h) true.

Definition with_contact (c : Client) (contact : option uuid) : Client :=
  MkClient (cl_user c) (cl_org c) (cl_authenticated c) contact (cl_send c) (cl_open c) (cl_reading c).
Definition with_send (c : Client) (q : list string) : Client :=
  MkClient (cl_user c) (cl_org c) (cl_authenticated c) (cl_contact c) q (cl_open c) (cl_reading c).
Definition closed (c : Client) : Client :=
  MkClient (cl_user c) (cl_org c) (cl_authenticated c) (cl_contact c) (cl_send c) false (cl_reading c).
Definition stopped (c : Client) : Client :=
  MkClient (cl_user c) (cl_org c) (cl_authenticated c) (cl_contact c) (cl_send c) (cl_open c) false.
Definition authenticated (c : Client) (user org : uuid) : Client :=
  MkClient user org true (cl_contact c) (cl_send c) (cl_open c) (cl_reading c).
Definition NewUnauthenticatedClient : Client := MkClient nil_uuid nil_uuid false None [] true true.

(** ** Channels of a connection *)

(** [close(client.send)] *)
Definition close_send (id : N) (h : Hub) : Hub :=
  match h_store h !! id with
  | Some c => if cl_open c then with_store h (<[id := closed c]> (h_store h)) else panic h
  | None => h
  end.
(** [select { case client.send <- data: default: }] *)
Definition send (data : string) (h : Hub) (id : N) : Hub :=
  match h_store h !! id with
  | Some c =>
      if negb (cl_open c) then panic h
      else if (length (cl_send c) <? sendBuffer)%nat then with_store h (<[id := with_send c (cl_send c ++ [data])]> (h_store h))
      else h
  | None => h
  end.

(** ** Registration *)
Definition addClientLocked (id : N) (c : Client) (m : registry) : bool * registry :=
  let orgClients := default ∅ (m !! cl_org c) in
  let userClients := default ∅ (orgClients !! cl_user c) in
  (bool_decide (userClients = ∅), <[cl_org c := <[cl_user c := {[id]} ∪ userClients]> orgClients]> m).

Definition registerClient (id : N) (h : Hub) : Hub :=
  match h_store h !! id with
  | None => h
  | Some c =>
      let '(cameOnline, m) := addClientLocked id c (h_clients h) in
      let h := with_clients h m in
      if cameOnline then notifyPresence h (cl_org c) (cl_user c) true else h
  end.

(** The registry without the client; [None] when it is not registered. *)
Definition removeClientLocked (id : N) (c : Client) (m : registry) : option (bool * registry) :=
  match m !! cl_org c with
  | None => None
  | Some orgClients =>
      match orgClients !! cl_user c with
      | None => None
      | Some userClients =>
          if bool_decide (id ∈ userClients) then
            let userClients := userClients ∖ {[id]} in
            let lastConnection := bool_decide (userClients = ∅) in
            let orgClients := if lastConnection then delete (cl_user c) orgClients else <[cl_user c := userClients]> orgClients in
            Some (lastConnection, if bool_decide (orgClients = ∅) then delete (cl_org c) m else <[cl_org c := orgClients]> m)
          else None
      end
  end.

Definition unregisterClient (id : N) (h : Hub) : Hub :=
  match h_store h !! id with
  | None => h
  | Some c =>
      match removeClientLocked id c (h_clients h) with
      | None => h
      | Some (wentOffline, m) =>
          let h := close_send id (with_clients h m) in
          if wentOffline then notifyPresence h (cl_org c) (cl_user c) false else h
      end
  end.

(** ** Delivery *)
Section Delivery.
(** The rule of the application ([nil] when it was not injected) and [json.Marshal]. *)
Context (authorize : option (uuid -> uuid -> uuid -> bool)) (marshal : WSMessage -> option string).

Definition authorized (user org contact : uuid) : bool :=
  match authorize with Some f => f user org contact | None => true end.

(** The authorization gate. *)
Definition gate (msg : BroadcastMessage) (user : uuid) : bool :=
  authorized user (bm_OrgID msg) (bm_ContactID msg) ||
  (negb (N.eqb (bm_AlsoUserID msg) nil_uuid) && N.eqb user (bm_AlsoUserID msg)).

(** The interest filter reads [client.currentContact] twice, once to compare it with [nil]
    and once to follow it; [None] is the panic of following [nil]. *)
Definition interest_reads (msg : BroadcastMessage) (first second : option uuid) : option bool :=
  if bm_IgnoreContactFilter msg then Some true
  else match first with
       | None => Some (negb (bm_RequireContactMatch msg))
       | Some _ => match second with Some c => Some (N.eqb c (bm_ContactID msg)) | None => None end
       end.
Definition interest (msg : BroadcastMessage) (contact : option uuid) : bool := default false (interest_reads msg contact contact).

(** Whether the loop over the organization reaches the send for a client. *)
Definition wants (msg : BroadcastMessage) (c : Client) : bool :=
  N.eqb (bm_ContactID msg) nil_uuid || (gate msg (cl_user c) && interest msg (cl_contact c)).

Definition clients_of (users : gmap uuid (gset N)) : list N := u ← map_to_list users; elements (snd u).
Definition client_wants (h : Hub) (msg : BroadcastMessage) (id : N) : bool :=
  match h_store h !! id with Some c => wants msg c | None => false end.

Definition broadcastMessage (msg : BroadcastMessage) (h : Hub) : Hub :=
  match h_clients h !! bm_OrgID msg with
  | None => h
  | Some orgClients =>
      match marshal (bm_Message msg) with
      | None => h
      | Some data =>
          if negb (N.eqb (bm_UserID msg) nil_uuid) then
            match orgClients !! bm_UserID msg with
            | None => h
            | Some userClients => foldl (send data) h (elements userClients)
            end
          else foldl (send data) h (List.filter (client_wants h msg) (clients_of orgClients))
      end
  end.

(** [Hub.Broadcast] *)
Definition Broadcast (msg : BroadcastMessage) (h : Hub) : Hub :=
  if (length (h_queue h) <? broadcastBuffer)%nat then with_queue h (h_queue h ++ [msg]) else h.

(** ** Queries *)
Definition countClients (h : Hub) : nat :=
  sum_list (map (fun o => sum_list (map (fun u => size (snd u)) (map_to_list (snd o)))) (map_to_list (h_clients h))).
Definition IsUserOnline (h : Hub) (org user : uuid) : bool :=
  match h_clients h !! org with
  | Some orgClients => match orgClients !! user with Some us => (0 <? size us)%nat | None => false end
  | None => false
  end.
Definition OnlineUserIDs (h : Hub) (org : uuid) : list uuid :=
  match h_clients h !! org with
  | Some orgClients => map fst (List.filter (fun u => (0 <? size (snd u))%nat) (map_to_list orgClients))
  | None => []
  end.
Definition FilterOnlineUsers (h : Hub) (org : uuid) (userIDs : list uuid) : list uuid :=
  match h_clients h !! org with
  | Some orgClients => List.filter (fun u => match orgClients !! u with Some us => (0 <? size us)%nat | None => false end) userIDs
  | None => []
  end.

(** ** A connection's own goroutine *)

(** [json.Unmarshal] into a message, an [AuthPayload], a [SetContactPayload], and
    [uuid.Parse]; the encoding of the pong. *)
Context (decode : string -> option WSMessage) (auth_token contact_id : json -> option string) (parse_uuid : string -> option uuid).
Context (pong : string).

(** The verdict of [authFn] on a token is the environment's: [verdict]. *)
Definition handleAuthMessage (verdict : string -> option (uuid * uuid)) (data : string) : option (uuid * uuid) :=
  msg ← decode data;
  if negb (String.eqb (ws_Type msg) "auth") then None
  else
    token ← auth_token (ws_Payload msg);
    if String.eqb token "" then None else verdict token.

Definition handleSetContact (c : Client) (payload : json) : Client :=
  match contact_id payload with
  | None => c
  | Some "" => with_contact c None
  | Some s =>
      match parse_uuid s with
      | None => c
      | Some contact => if authorized (cl_user c) (cl_org c) contact then with_contact c (Some contact) else c
      end
  end.

Definition handleMessage (id : N) (c : Client) (data : string) (h : Hub) : Hub :=
  match decode data with
  | None => h
  | Some msg =>
      if String.eqb (ws_Type msg) "set_contact" then with_store h (<[id := handleSetContact c (ws_Payload msg)]> (h_store h))
      else if String.eqb (ws_Type msg) "ping" then send pong h id
      else h
  end.

(** The deferred end of [ReadPump]. *)
Definition hang_up (id : N) (c : Client) (h : Hub) : Hub :=
  let h := with_store h (<[id := stopped c]> (h_store h)) in
  if cl_authenticated c then unregisterClient id h else close_send id h.

(** One frame read by [ReadPump]; [None] is a read error or the end of the connection. *)
Definition ReadPump_frame (verdict : string -> option (uuid * uuid)) (id : N) (c : Client) (frame : option string) (h : Hub) : Hub :=
  match frame with
  | None => hang_up id c h
  | Some data =>
      if cl_authenticated c then handleMessage id c data h
      else match handleAuthMessage verdict data with
           | None => hang_up id c h
           | Some (user, org) => registerClient id (with_store h (<[id := authenticated c user org]> (h_store h)))
           end
  end.

(** The steps of the hub and of its connections, in any order. *)
Inductive hub_step : Hub -> Hub -> Prop :=
  | step_connect h id : h_store h !! id = None -> hub_step h (with_store h (<[id := NewUnauthenticatedClient]> (h_store h)))
  | step_frame h id c verdict frame :
      h_store h !! id = Some c -> cl_reading c = true -> hub_step h (ReadPump_frame verdict id c frame h)
  | step_write h id c data rest :
      h_store h !! id = Some c -> cl_send c = data :: rest ->
      hub_step h (with_store h (<[id := with_send c rest]> (h_store h)))
  | step_send h msg : hub_step h (Broadcast msg h)
  | step_deliver h msg rest : h_queue h = msg :: rest -> hub_step h (broadcastMessage msg (with_queue h rest)).
End Delivery.

(** ** The registry as a relation *)
Definition members (m : registry) (org user : uuid) : gset N := default ∅ (m !! org ≫= fun o => o !! user).
(** No empty inner map is kept. *)
Definition tidy (m : registry) : Prop :=
  forall org o, m !! org = Some o -> o <> ∅ /\ forall user us, o !! user = Some us -> us <> ∅.

Lemma size_pos (us : gset N) : (0 <? size us)%nat = negb (bool_decide (us = ∅)).
Proof.
  case_bool_decide as E; [by subst |]. simpl. apply Nat.ltb_lt.
  assert (size us <> 0%nat); [| lia]. intros H%size_empty_inv. apply E. by apply leibniz_equiv.
Qed.

Lemma online_members h org user : IsUserOnline h org user = negb (bool_decide (members (h_clients h) org user = ∅)).
Proof.
  unfold IsUserOnline, members. destruct (h_clients h !! org) as [o |]; simpl; [| done].
  destruct (o !! user) as [us |]; simpl; [apply size_pos | done].
Qed.

Lemma add_members id c m org user :
  members (snd (addClientLocked id c m)) org user =
  if bool_decide (org = cl_org c /\ user = cl_user c) then {[id]} ∪ members m org user else members m org user.
Proof.
  unfold addClientLocked, members. simpl. destruct (decide (org = cl_org c)) as [-> | Ho].
  - rewrite lookup_insert_eq. simpl. destruct (decide (user = cl_user c)) as [-> | Hu].
    + rewrite lookup_insert_eq, bool_decide_eq_true_2 by done. simpl.
      destruct (m !! cl_org c); simpl; [done | by rewrite lookup_empty].
    + rewrite lookup_insert_ne, bool_decide_eq_false_2 by naive_solver.
      destruct (m !! cl_org c); simpl; [done | by rewrite lookup_empty].
  - by rewrite lookup_insert_ne, bool_decide_eq_false_2 by naive_solver.
Qed.

Lemma add_first id c m : fst (addClientLocked id c m) = bool_decide (members m (cl_org c) (cl_user c) = ∅).
Proof. unfold addClientLocked, members. simpl. destruct (m !! cl_org c); simpl; [done | by rewrite lookup_empty]. Qed.

Lemma add_tidy id c m : tidy m -> tidy (snd (addClientLocked id c m)).
Proof.
  intros Ht org o. unfold addClientLocked. simpl. destruct (decide (org = cl_org c)) as [-> | Ho].
  2: { rewrite lookup_insert_ne by done. apply Ht. }
  rewrite lookup_insert_eq. intros [= <-]. split; [apply insert_non_empty |].
  intros user us. destruct (decide (user = cl_user c)) as [-> | Hu].
  - rewrite lookup_insert_eq. intros [= <-]. set_solver.
  - rewrite lookup_insert_ne by done. intros H. destruct (m !! cl_org c) as [o |] eqn:E; simpl in H; [by apply (Ht _ _ E) in H |].
    by rewrite lookup_empty in H.
Qed.

Lemma remove_members id c m b m' :
  removeClientLocked id c m = Some (b, m') ->
  id ∈ members m (cl_org c) (cl_user c) /\
  b = bool_decide (members m (cl_org c) (cl_user c) ∖ {[id]} = ∅) /\
  forall org user, members m' org user =
    if bool_decide (org = cl_org c /\ user = cl_user c) then members m org user ∖ {[id]} else members m org user.
Proof.
  unfold removeClientLocked, members. destruct (m !! cl_org c) as [o |] eqn:Eo; [| done]. simpl.
  destruct (o !! cl_user c) as [us |] eqn:Eu; [| done]. simpl. case_bool_decide as Hin; [| done].
  intros [= <- <-]. split_and!; [done | done |]. intros org user.
  set (o' := if bool_decide (us ∖ {[id]} = ∅) then delete (cl_user c) o else <[cl_user c:=us ∖ {[id]}]> o).
  assert (Ho' : default ∅ (o' !! user) = if bool_decide (user = cl_user c) then us ∖ {[id]} else default ∅ (o !! user)).
  { unfold o'. destruct (decide (user = cl_user c)) as [-> | Hu].
    - rewrite (bool_decide_eq_true_2 (cl_user c = cl_user c)) by done. case_bool_decide as E; [by rewrite lookup_delete_eq, E | by rewrite lookup_insert_eq].
    - rewrite (bool_decide_eq_false_2 (user = _)) by done. case_bool_decide; [by rewrite lookup_delete_ne | by rewrite lookup_insert_ne]. }
  clearbody o'. destruct (decide (org = cl_org c)) as [-> | Ho].
  - transitivity (default ∅ (o' !! user)).
    + clear Ho'. case_bool_decide as E; [rewrite lookup_delete_eq, E; simpl; by rewrite lookup_empty | by rewrite lookup_insert_eq].
    + rewrite Ho', Eo. simpl. clear Ho'. case_bool_decide as E; [subst; rewrite bool_decide_eq_true_2, Eu by done; done |].
      by rewrite bool_decide_eq_false_2 by naive_solver.
  - clear Ho'. rewrite (bool_decide_eq_false_2 (org = _ /\ _)) by naive_solver.
    case_bool_decide; [by rewrite lookup_delete_ne | by rewrite lookup_insert_ne].
Qed.

Lemma remove_some id c m : id ∈ members m (cl_org c) (cl_user c) -> exists b m', removeClientLocked id c m = Some (b, m').
Proof.
  unfold removeClientLocked, members. destruct (m !! cl_org c) as [o |]; simpl; [| set_solver].
  destruct (o !! cl_user c) as [us |]; simpl; [| set_solver]. intros H. rewrite bool_decide_eq_true_2 by done. eauto.
Qed.

Lemma remove_tidy id c m b m' : tidy m -> removeClientLocked id c m = Some (b, m') -> tidy m'.
Proof.
  intros Ht. unfold removeClientLocked. destruct (m !! cl_org c) as [o |] eqn:Eo; [| done].
  destruct (o !! cl_user c) as [us |] eqn:Eu; [| done]. case_bool_decide as Hin; [| done]. intros [= <- <-].
  set (o' := if bool_decide (us ∖ {[id]} = ∅) then delete (cl_user c) o else <[cl_user c:=us ∖ {[id]}]> o).
  assert (Ho' : forall user us', o' !! user = Some us' -> us' <> ∅).
  { intros user us'. unfold o'. destruct (Ht _ _ Eo) as [_ Hne]. case_bool_decide as E.
    - intros [_ H]%lookup_delete_Some. eauto.
    - intros [[_ <-] | [_ H]]%lookup_insert_Some; eauto. }
  clearbody o'. intros org oo. case_bool_decide as E.
  - intros [_ H]%lookup_delete_Some. eauto.
  - intros [[_ <-] | [_ H]]%lookup_insert_Some; eauto.
Qed.

(** ** The invariant *)

(** The last notification about a user, and that each one is a change. *)
Fixpoint last_presence (log : list (uuid * uuid * bool)) (org user : uuid) : bool :=
  match log with
  | [] => false
  | (o, u, online) :: rest => if bool_decide (org = o /\ user = u) then online else last_presence rest org user
  end.
Fixpoint edges (log : list (uuid * uuid * bool)) : Prop :=
  match log with
  | [] => True
  | (o, u, online) :: rest => last_presence rest o u = negb online /\ edges rest
  end.

Definition live (h : Hub) (org user : uuid) (id : N) : Prop :=
  exists c, h_store h !! id = Some c /\ cl_org c = org /\ cl_user c = user /\ cl_authenticated c = true /\ cl_reading c = true.

Record hub_ok (h : Hub) : Prop := MkHubOk {
  ok_tidy : tidy (h_clients h);
  ok_members : forall org user id, id ∈ members (h_clients h) org user <-> live h org user id;
  ok_open : forall id c, h_store h !! id = Some c -> cl_reading c = true -> cl_open c = true;
  ok_buffer : forall id c, h_store h !! id = Some c -> (length (cl_send c) <= sendBuffer)%nat;
  ok_queue : (length (h_queue h) <= broadcastBuffer)%nat;
  ok_panic : h_panicked h = false;
  ok_edges : edges (h_presence h);
  ok_presence : forall org user, last_presence (h_presence h) org user = IsUserOnline h org user }.

Lemma live_insert h id c' org user x :
  live (with_store h (<[id := c']> (h_store h))) org user x <->
  (if bool_decide (x = id) then cl_org c' = org /\ cl_user c' = user /\ cl_authenticated c' = true /\ cl_reading c' = true
   else live h org user x).
Proof.
  unfold live. simpl. case_bool_decide as E; [subst; rewrite lookup_insert_eq | by rewrite lookup_insert_ne by congruence].
  naive_solver.
Qed.

(** Changes to one connection that do not touch who it is. *)
Lemma update_ok h id c c' :
  hub_ok h -> h_store h !! id = Some c ->
  cl_org c' = cl_org c -> cl_user c' = cl_user c -> cl_authenticated c' = cl_authenticated c ->
  cl_reading c' = cl_reading c -> cl_open c' = cl_open c -> (length (cl_send c') <= sendBuffer)%nat ->
  hub_ok (with_store h (<[id := c']> (h_store h))).
Proof.
  intros [T M O B Q P E L] Hc Ho Hu Ha Hr Hop Hb. split; try done.
  - intros org user x. rewrite live_insert, (M org user x). case_bool_decide as Ex; [subst | done].
    rewrite Ho, Hu, Ha, Hr. unfold live. rewrite Hc. naive_solver.
  - intros x cx. simpl. rewrite lookup_insert_Some. intros [[<- <-] | [_ H]]; [rewrite Hr, Hop |]; eauto.
  - intros x cx. simpl. rewrite lookup_insert_Some. intros [[<- <-] | [_ H]]; eauto.
Qed.

Definition offer (data : string) (c : Client) : Client :=
  if (length (cl_send c) <? sendBuffer)%nat then with_send c (cl_send c ++ [data]) else c.

Lemma send_open data h id c :
  h_store h !! id = Some c -> cl_open c = true -> send data h id = with_store h (<[id := offer data c]> (h_store h)).
Proof.
  intros Hc Ho. unfold send, offer. rewrite Hc, Ho. simpl. destruct (_ <? _)%nat; [done |].
  rewrite insert_id by done. by destruct h.
Qed.

Lemma send_ok data h id c : hub_ok h -> h_store h !! id = Some c -> cl_open c = true -> hub_ok (send data h id).
Proof.
  intros Hh Hc Ho. rewrite (send_open data h id c Hc Ho).
  apply (update_ok h id c); [done | done | ..]; unfold offer; destruct (Nat.ltb_spec (length (cl_send c)) sendBuffer); try done.
  - simpl. rewrite length_app. simpl. lia.
  - by eapply ok_buffer.
Qed.

Lemma member_open h org user id : hub_ok h -> id ∈ members (h_clients h) org user ->
  exists c, h_store h !! id = Some c /\ cl_open c = true /\ cl_org c = org /\ cl_user c = user.
Proof. intros Hh (c & Hc & Ho & Hu & Ha & Hr)%(ok_members h Hh). exists c. split_and!; [done | by eapply ok_open | done | done]. Qed.

(** Sending the same data to several registered clients. *)
Lemma sends_ok data ids h :
  hub_ok h -> NoDup ids -> (forall id, id ∈ ids -> exists org user, id ∈ members (h_clients h) org user) ->
  let h' := foldl (send data) h ids in
  hub_ok h' /\ h_clients h' = h_clients h /\ h_queue h' = h_queue h /\
  forall id, h_store h' !! id = (fun c => if bool_decide (id ∈ ids) then offer data c else c) <$> h_store h !! id.
Proof.
  revert h. induction ids as [| i ids IH]; intros h Hh Hnd Hin; simpl.
  - split_and!; [done.. |]. intros id. by destruct (h_store h !! id).
  - apply NoDup_cons in Hnd as [Hi Hnd]. destruct (Hin i) as (org & user & Hm); [by left |].
    destruct (member_open h org user i Hh Hm) as (c & Hc & Ho & _).
    assert (Hcl : h_clients (send data h i) = h_clients h) by (by rewrite (send_open data h i c)).
    destruct (IH (send data h i)) as (Hok & Hcl' & Hq & Hst); [by apply (send_ok data h i c) | done | |].
    + intros id Hid. rewrite Hcl. apply Hin. by right.
    + split_and!; [done | congruence | rewrite Hq; by rewrite (send_open data h i c) |]. intros id. rewrite Hst.
      rewrite (send_open data h i c) by done. simpl. destruct (decide (id = i)) as [-> | Hne].
      * rewrite lookup_insert_eq, Hc. simpl. rewrite (bool_decide_eq_false_2 (i ∈ ids)), bool_decide_eq_true_2; [done | by left | done].
      * rewrite lookup_insert_ne by done. destruct (h_store h !! id); [| done]. simpl.
        rewrite (bool_decide_ext (id ∈ i :: ids) (id ∈ ids)); [done |]. rewrite elem_of_cons. naive_solver.
Qed.

Lemma clients_of_spec m org o id :
  m !! org = Some o -> id ∈ clients_of o <-> exists user, id ∈ members m org user.
Proof.
  intros Ho. unfold clients_of, members. rewrite Ho. simpl. rewrite list_elem_of_bind. split.
  - intros ([user us] & Hid & Hu%elem_of_map_to_list). exists user. rewrite Hu. simpl in *. by apply elem_of_elements in Hid.
  - intros [user H]. destruct (o !! user) as [us |] eqn:E; simpl in H; [| set_solver].
    exists (user, us). split; [by apply elem_of_elements | by apply elem_of_map_to_list].
Qed.

Lemma clients_of_NoDup h org o : hub_ok h -> h_clients h !! org = Some o -> NoDup (clients_of o).
Proof.
  intros Hh Ho. unfold clients_of.
  assert (Hd : forall u v, u ∈ map_to_list o -> v ∈ map_to_list o -> forall x, x ∈ elements u.2 -> x ∈ elements v.2 -> u = v).
  { intros [u us] [v vs] Hu%elem_of_map_to_list Hv%elem_of_map_to_list x Hx%elem_of_elements Hy%elem_of_elements. simpl in *.
    assert (H1 : x ∈ members (h_clients h) org u) by (unfold members; rewrite Ho; simpl; by rewrite Hu).
    assert (H2 : x ∈ members (h_clients h) org v) by (unfold members; rewrite Ho; simpl; by rewrite Hv).
    apply (member_open h org u x Hh) in H1 as (c & Hc & _ & _ & <-). apply (member_open h org v x Hh) in H2 as (c' & Hc' & _ & _ & <-).
    rewrite Hc in Hc'. injection Hc' as <-. congruence. }
  pose proof (NoDup_map_to_list o) as Hnd. revert Hd Hnd. induction (map_to_list o) as [| u l IH]; intros Hd Hnd; [constructor |].
  apply NoDup_cons in Hnd as [Hu Hnd]. simpl. apply NoDup_app. split_and!; [apply NoDup_elements | |].
  - intros x Hx (v & Hv & Hvl)%list_elem_of_bind. apply Hu. rewrite (Hd u v) with (x := x); [done | by left | by right | done | done].
  - apply IH; [| done]. intros a b Ha Hb. apply Hd; by right.
Qed.

Lemma register_ok h id c user org :
  hub_ok h -> h_store h !! id = Some c -> cl_reading c = true -> cl_authenticated c = false ->
  hub_ok (registerClient id (with_store h (<[id := authenticated c user org]> (h_store h)))).
Proof.
  intros Hh Hc Hr Ha. destruct Hh as [T M O B Q P E L]. unfold registerClient.
  set (c' := authenticated c user org). simpl h_store. rewrite lookup_insert_eq. simpl h_clients.
  pose proof (add_members id c' (h_clients h)) as Hm. pose proof (add_first id c' (h_clients h)) as Hf.
  pose proof (add_tidy id c' (h_clients h) T) as Ht.
  destruct (addClientLocked id c' (h_clients h)) as [first m]. simpl in Hm, Hf, Ht.
  set (h1 := with_clients _ m).
  assert (Hon : forall o u, IsUserOnline h1 o u = if bool_decide (o = org /\ u = user) then true else IsUserOnline h o u).
  { intros o u. rewrite !online_members. simpl. rewrite Hm. decide_case (o = org /\ u = user) Ex; [| done].
    rewrite bool_decide_eq_false_2; [done | set_solver]. }
  assert (Hok : edges (h_presence (if first then notifyPresence h1 org user true else h1)) /\
    forall o u, last_presence (h_presence (if first then notifyPresence h1 org user true else h1)) o u = IsUserOnline h1 o u).
  { assert (Hfirst : first = negb (IsUserOnline h org user)) by (rewrite online_members, negb_involutive; exact Hf).
    destruct first; simpl.
    - split; [split; [rewrite L; by destruct (IsUserOnline h org user) | done] |]. intros o u. rewrite Hon.
      decide_case (o = org /\ u = user) Ex; [done | apply L].
    - split; [done |]. intros o u. rewrite Hon, L. decide_case (o = org /\ u = user) Ex; [| done]. destruct Ex as [-> ->].
      by destruct (IsUserOnline h org user). }
  assert (Hopen : forall x cx, h_store h1 !! x = Some cx -> cl_reading cx = true -> cl_open cx = true).
  { intros x cx. simpl. rewrite lookup_insert_Some. intros [[<- <-] | [_ H]]; [| eauto]. simpl. intros _. by apply (O id). }
  assert (Hbuf : forall x cx, h_store h1 !! x = Some cx -> (length (cl_send cx) <= sendBuffer)%nat).
  { intros x cx. simpl. rewrite lookup_insert_Some. intros [[<- <-] | [_ H]]; [| eauto]. exact (B id c Hc). }
  assert (Hmem : forall o u x, x ∈ members m o u <-> live h1 o u x).
  { intros o u x. change (live h1 o u x) with (live (with_store h (<[id := c']> (h_store h))) o u x). rewrite live_insert, Hm.
    assert (Hid : id ∉ members (h_clients h) o u) by (rewrite M; intros (cx & Hcx & _ & _ & Hax & _); congruence).
    decide_case (x = id) Ex; decide_case (o = cl_org c' /\ u = cl_user c') Eo; subst;
      rewrite ?elem_of_union, ?elem_of_singleton, <- ?(M o u x); simpl in *; naive_solver. }
  destruct Hok as [He Hl]. destruct first; split; try done.
Qed.

(** The connections once [id] hung up: the others are as they were. *)
Definition gone (h : Hub) (id : N) (c : Client) : gmap N Client := <[id := closed (stopped c)]> (<[id := stopped c]> (h_store h)).
Lemma gone_lookup h id c x cx :
  gone h id c !! x = Some cx -> (x = id /\ cx = closed (stopped c)) \/ (x <> id /\ h_store h !! x = Some cx).
Proof. unfold gone. rewrite !lookup_insert_Some. naive_solver. Qed.
Lemma gone_live h id c o u x : live (with_store h (gone h id c)) o u x <-> live h o u x /\ x <> id.
Proof.
  unfold gone. change (live (with_store h ?s) o u x) with (live (with_store (with_store h (<[id := stopped c]> (h_store h))) s) o u x).
  rewrite (live_insert (with_store h (<[id := stopped c]> (h_store h)))). decide_case (x = id) Ex; [subst; naive_solver |].
  rewrite live_insert. decide_case (x = id) Ey; tauto.
Qed.

(** Taking a live connection out of the registry. *)
Lemma removed_registry h id c b m :
  hub_ok h -> h_store h !! id = Some c -> removeClientLocked id c (h_clients h) = Some (b, m) ->
  tidy m /\ (forall o u x, x ∈ members m o u <-> live h o u x /\ x <> id) /\
  (forall o u, negb (bool_decide (members m o u = ∅)) =
     if bool_decide (o = cl_org c /\ u = cl_user c) then negb b else IsUserOnline h o u) /\
  IsUserOnline h (cl_org c) (cl_user c) = true.
Proof.
  intros [T M _ _ _ _ _ _] Hc Hrm. destruct (remove_members _ _ _ _ _ Hrm) as (Hin & Hb & Hm). split_and!.
  - by eapply remove_tidy.
  - intros o u x. rewrite Hm. decide_case (o = cl_org c /\ u = cl_user c) Ex; [rewrite elem_of_difference, elem_of_singleton, M; tauto |].
    rewrite M. split; [| tauto]. intros Hx. split; [done |]. intros ->. apply Ex.
    destruct Hx as (cx & Hcx & <- & <- & _). rewrite Hc in Hcx. by injection Hcx as <-.
  - intros o u. rewrite Hm, online_members. decide_case (o = cl_org c /\ u = cl_user c) Ex; [| done]. destruct Ex as [-> ->]. by rewrite Hb.
  - rewrite online_members, bool_decide_eq_false_2; [done | set_solver].
Qed.

Lemma hang_up_ok h id c : hub_ok h -> h_store h !! id = Some c -> cl_reading c = true -> hub_ok (hang_up id c h).
Proof.
  intros Hh Hc Hr. pose proof (ok_open h Hh id c Hc Hr) as Ho. pose proof Hh as [T M O B Q P E L]. unfold hang_up.
  set (h1 := with_store h (<[id := stopped c]> (h_store h))).
  assert (Hc1 : h_store h1 !! id = Some (stopped c)) by apply lookup_insert_eq.
  assert (Hopen : forall x cx, gone h id c !! x = Some cx -> cl_reading cx = true -> cl_open cx = true).
  { intros x cx [[_ ->] | [_ H]]%gone_lookup; [done | eauto]. }
  assert (Hbuf : forall x cx, gone h id c !! x = Some cx -> (length (cl_send cx) <= sendBuffer)%nat).
  { intros x cx [[_ ->] | [_ H]]%gone_lookup; [exact (B id c Hc) | eauto]. }
  destruct (cl_authenticated c) eqn:Ha.
  - unfold unregisterClient. rewrite Hc1. change (h_clients h1) with (h_clients h).
    change (removeClientLocked id (stopped c)) with (removeClientLocked id c).
    destruct (remove_some id c (h_clients h)) as (b & m & Hrm); [apply M; exists c; done |]. rewrite Hrm.
    destruct (removed_registry h id c b m Hh Hc Hrm) as (Ht & Hm & Hon & Hwas).
    assert (Hcs : close_send id (with_clients h1 m) = with_clients (with_store h (gone h id c)) m).
    { unfold close_send. change (h_store (with_clients h1 m)) with (h_store h1). rewrite Hc1. simpl. by rewrite Ho. }
    rewrite Hcs. clear Hcs.
    destruct b; (split; [done | intros o u x; etrans; [apply Hm | symmetry; apply gone_live] | exact Hopen | exact Hbuf | done | done | |]).
    + simpl. split; [by rewrite L | done].
    + intros o u. rewrite online_members. simpl. rewrite Hon. decide_case (o = cl_org c /\ u = cl_user c) Ex; [done | apply L].
    + done.
    + intros o u. rewrite online_members. simpl. rewrite Hon, L.
      decide_case (o = cl_org c /\ u = cl_user c) Ex; [destruct Ex as [-> ->]; by rewrite Hwas | done].
  - unfold close_send. rewrite Hc1. simpl cl_open. rewrite Ho. split; try done.
    intros o u x. etrans; [| symmetry; exact (gone_live h id c o u x)]. rewrite <- M. simpl. split; [| tauto]. intros Hx. split; [done |]. intros ->.
    apply M in Hx as (cx & Hcx & _ & _ & Hax & _). congruence.
Qed.

Section HubProofs.
Context (authorize : option (uuid -> uuid -> uuid -> bool)) (marshal : WSMessage -> option string).
Abbreviation wants := (wants authorize).
Abbreviation broadcastMessage := (broadcastMessage authorize marshal).

(** The clients a message is for. *)
Definition receives (msg : BroadcastMessage) (c : Client) : bool :=
  N.eqb (cl_org c) (bm_OrgID msg) && cl_authenticated c && cl_reading c &&
  (if negb (N.eqb (bm_UserID msg) nil_uuid) then N.eqb (cl_user c) (bm_UserID msg) else wants msg c).

(** [broadcastMessage] as one send to each of a list of registered clients. *)
Lemma broadcast_sends msg h : hub_ok h ->
  exists ids data, broadcastMessage msg h = foldl (send data) h ids /\ NoDup ids /\
    (forall id, id ∈ ids -> exists org user, id ∈ members (h_clients h) org user) /\
    (marshal (bm_Message msg) = None -> ids = []) /\
    (forall d, marshal (bm_Message msg) = Some d -> d = data /\
       forall id c, h_store h !! id = Some c -> id ∈ ids <-> receives msg c = true).
Proof.
  intros Hh. unfold Hub.broadcastMessage.
  assert (Hlive : forall id c, h_store h !! id = Some c -> forall org user,
    id ∈ members (h_clients h) org user <-> cl_org c = org /\ cl_user c = user /\ cl_authenticated c = true /\ cl_reading c = true).
  { intros id c Hc org user. rewrite (ok_members h Hh). unfold live. rewrite Hc. naive_solver. }
  destruct (marshal (bm_Message msg)) as [data |] eqn:Em.
  2: { exists [], "". split; [by destruct (h_clients h !! bm_OrgID msg) |]. split_and!; [constructor | | done | done].
       intros id H. by apply not_elem_of_nil in H. }
  unfold receives. destruct (h_clients h !! bm_OrgID msg) as [o |] eqn:Eo.
  2: { exists [], data. split_and!; [done | constructor | intros id H; by apply not_elem_of_nil in H | done |].
       intros d [= <-]. split; [done |]. intros id c Hc. split; [intros H; by apply not_elem_of_nil in H |].
       rewrite !andb_true_iff, N.eqb_eq. intros [[[Horg Ha] Hr] _]. exfalso.
       assert (Hm : id ∈ members (h_clients h) (bm_OrgID msg) (cl_user c)) by by apply (Hlive id c Hc).
       unfold members in Hm. rewrite Eo in Hm. simpl in Hm. set_solver. }
  destruct (N.eqb (bm_UserID msg) nil_uuid); simpl negb; cbv iota.
  - exists (List.filter (client_wants authorize h msg) (clients_of o)), data.
    split_and!; [done | apply NoDup_ListNoDup, List.NoDup_filter, NoDup_ListNoDup; by eapply clients_of_NoDup | | done |].
    + intros id H. apply list_elem_of_In, List.filter_In in H as [H _]. apply list_elem_of_In in H.
      apply (clients_of_spec _ _ _ _ Eo) in H as [user H]. eauto.
    + intros d [= <-]. split; [done |]. intros id c Hc. rewrite list_elem_of_In, List.filter_In, <- list_elem_of_In.
      rewrite (clients_of_spec _ _ _ _ Eo), !andb_true_iff, N.eqb_eq. unfold client_wants. rewrite Hc.
      setoid_rewrite (Hlive id c Hc). naive_solver.
  - destruct (o !! bm_UserID msg) as [us |] eqn:Eu.
    + assert (Hus : forall id, id ∈ elements us <-> id ∈ members (h_clients h) (bm_OrgID msg) (bm_UserID msg)).
      { intros id. unfold members. rewrite Eo. simpl. rewrite Eu. simpl. apply elem_of_elements. }
      exists (elements us), data. split_and!; [done | apply NoDup_elements | | done |].
      * intros id H%Hus. eauto.
      * intros d [= <-]. split; [done |]. intros id c Hc. rewrite Hus, (Hlive id c Hc), !andb_true_iff, !N.eqb_eq. tauto.
    + exists [], data. split_and!; [done | constructor | intros id H; by apply not_elem_of_nil in H | done |].
      intros d [= <-]. split; [done |]. intros id c Hc. split; [intros H; by apply not_elem_of_nil in H |].
      rewrite !andb_true_iff, !N.eqb_eq. intros [[[Horg Ha] Hr] Hu]. exfalso.
      assert (Hm : id ∈ members (h_clients h) (bm_OrgID msg) (bm_UserID msg)) by by apply (Hlive id c Hc).
      unfold members in Hm. rewrite Eo in Hm. simpl in Hm. rewrite Eu in Hm. simpl in Hm. set_solver.
Qed.

Lemma broadcast_ok msg h : hub_ok h -> hub_ok (broadcastMessage msg h).
Proof. intros Hh. destruct (broadcast_sends msg h Hh) as (ids & data & -> & Hnd & Hin & _). by apply sends_ok. Qed.

Context (decode : string -> option WSMessage) (auth_token contact_id : json -> option string) (parse_uuid : string -> option uuid).
Context (pong : string).
Abbreviation hub_step := (hub_step authorize marshal decode auth_token contact_id parse_uuid pong).

Lemma set_contact_keeps c payload :
  let c' := handleSetContact authorize contact_id parse_uuid c payload in
  cl_org c' = cl_org c /\ cl_user c' = cl_user c /\ cl_authenticated c' = cl_authenticated c /\
  cl_reading c' = cl_reading c /\ cl_open c' = cl_open c /\ cl_send c' = cl_send c.
Proof. unfold handleSetContact. repeat case_match; done. Qed.

Lemma frame_ok verdict id c frame h :
  hub_ok h -> h_store h !! id = Some c -> cl_reading c = true ->
  hub_ok (ReadPump_frame authorize decode auth_token contact_id parse_uuid pong verdict id c frame h).
Proof.
  intros Hh Hc Hr. unfold ReadPump_frame. destruct frame as [data |]; [| by apply hang_up_ok].
  destruct (cl_authenticated c) eqn:Ha.
  - unfold handleMessage. destruct (decode data) as [msg |]; [| done]. destruct (String.eqb _ _).
    + destruct (set_contact_keeps c (ws_Payload msg)) as (H1 & H2 & H3 & H4 & H5 & H6).
      apply (update_ok h id c); try done. rewrite H6. by apply (ok_buffer h Hh id).
    + destruct (String.eqb _ _); [| done]. apply (send_ok pong h id c); [done | done |]. by apply (ok_open h Hh id).
  - destruct (handleAuthMessage _ _ _ _) as [[user org] |]; [by apply register_ok | by apply hang_up_ok].
Qed.

Lemma hub_step_ok h h' : hub_step h h' -> hub_ok h -> hub_ok h'.
Proof.
  intros Hs Hh. destruct Hs as [h id Hid | h id c verdict frame Hc Hr | h id c data rest Hc Hq | h msg | h msg rest Hq].
  - destruct Hh as [T M O B Q P E L]. split; try done.
    + intros org user x. rewrite live_insert, (M org user x). decide_case (x = id) Ex; [| done]. subst. unfold live. rewrite Hid. naive_solver.
    + intros x cx. simpl. rewrite lookup_insert_Some. intros [[<- <-] | [_ H]]; [done | eauto].
    + intros x cx. simpl. rewrite lookup_insert_Some. intros [[<- <-] | [_ H]]; [simpl; unfold sendBuffer; lia | eauto].
  - by apply frame_ok.
  - apply (update_ok h id c); try done. pose proof (ok_buffer h Hh id c Hc) as Hb. rewrite Hq in Hb. simpl in *. lia.
  - unfold Broadcast. destruct (Nat.ltb_spec (length (h_queue h)) broadcastBuffer); [| done].
    destruct Hh as [T M O B Q P E L]. split; try done. simpl. rewrite length_app. simpl. lia.
  - apply broadcast_ok. destruct Hh as [T M O B Q P E L]. split; try done. simpl. rewrite Hq in Q. simpl in Q. lia.
Qed.

Lemma new_hub_ok : hub_ok NewHub.
Proof.
  split; try done.
  - intros org user id. unfold members, live. cbn [h_clients h_store NewHub]. rewrite lookup_empty. cbn [mbind option_bind default].
    split; [set_solver | intros (c & H & _)]. by rewrite lookup_empty in H.
  - simpl. unfold broadcastBuffer. lia.
Qed.

Lemma reachable_ok h : rtc hub_step NewHub h -> hub_ok h.
Proof. intros H. pose proof new_hub_ok as Hok. induction H; eauto using hub_step_ok. Qed.
End HubProofs.

Lemma online_user_ids h org user : user ∈ OnlineUserIDs h org <-> IsUserOnline h org user = true.
Proof.
  unfold OnlineUserIDs, IsUserOnline. destruct (h_clients h !! org) as [o |].
  2: { split; [intros H; by apply not_elem_of_nil in H | done]. }
  rewrite list_elem_of_In, in_map_iff. setoid_rewrite List.filter_In. setoid_rewrite <- list_elem_of_In.
  setoid_rewrite elem_of_map_to_list'. split.
  - intros ([u us] & <- & Hu & Hs). simpl in *. by rewrite Hu.
  - destruct (o !! user) as [us |] eqn:E; [| done]. intros Hs. by exists (user, us).
Qed.

(** C39: whatever connections open, authenticate, select contacts and hang up, and whatever is
    broadcast meanwhile: nothing is ever sent on a closed channel and none is closed twice,
    the buffers stay within their sizes, a user is online exactly while one of its
    authenticated connections lives, every query says so, and the presence notifications are
    exactly the changes of that. *)
Theorem hub_invariant authorize marshal decode auth_token contact_id parse_uuid pong h :
  rtc (hub_step authorize marshal decode auth_token contact_id parse_uuid pong) NewHub h ->
  h_panicked h = false /\ (length (h_queue h) <= broadcastBuffer)%nat /\
  (forall id c, h_store h !! id = Some c -> (length (cl_send c) <= sendBuffer)%nat) /\
  (forall org user, (IsUserOnline h org user = true <-> exists id, live h org user id) /\
     (user ∈ OnlineUserIDs h org <-> IsUserOnline h org user = true) /\
     (forall users, user ∈ FilterOnlineUsers h org users <-> user ∈ users /\ IsUserOnline h org user = true) /\
     last_presence (h_presence h) org user = IsUserOnline h org user) /\
  edges (h_presence h).
Proof.
  intros H%reachable_ok. pose proof H as [T M O B Q P E L]. split_and!; [done | done | done | | done].
  intros org user. split_and!; [| apply online_user_ids | | done].
  - rewrite online_members, negb_true_iff, bool_decide_eq_false. split.
    + intros Hne. apply set_choose_L in Hne as [id Hid]. exists id. by apply M.
    + intros [id Hid%M]. set_solver.
  - intros users. unfold FilterOnlineUsers, IsUserOnline. destruct (h_clients h !! org) as [o |].
    + rewrite list_elem_of_In, List.filter_In, <- list_elem_of_In. done.
    + split; [intros Hn; by apply not_elem_of_nil in Hn | by intros [_ ?]].
Qed.

(** A broadcast puts its message, once, in the buffer of exactly the live connections it is
    for (of the named user; or, for a contact, those the rule authorizes, or of the one user
    let through by name, and that are interested), skips only full buffers, and changes
    nothing else; so an event about a contact never reaches a connection the rule refuses. *)
Theorem broadcast_delivers_exactly authorize marshal msg h :
  hub_ok h ->
  let h' := broadcastMessage authorize marshal msg h in
  h_clients h' = h_clients h /\ h_queue h' = h_queue h /\
  (forall id, h_store h' !! id = (fun c =>
     match marshal (bm_Message msg) with
     | Some data => if receives authorize msg c then offer data c else c
     | None => c
     end) <$> h_store h !! id) /\
  (forall id c c', h_store h !! id = Some c -> h_store h' !! id = Some c' -> c' <> c ->
     bm_UserID msg = nil_uuid -> bm_ContactID msg <> nil_uuid ->
     authorized authorize (cl_user c) (cl_org c) (bm_ContactID msg) = true \/
     (cl_user c = bm_AlsoUserID msg /\ bm_AlsoUserID msg <> nil_uuid)).
Proof.
  intros Hh h'. destruct (broadcast_sends authorize marshal msg h Hh) as (ids & data & E & Hnd & Hin & Hnone & Hsome).
  destruct (sends_ok data ids h Hh Hnd Hin) as (_ & Hcl & Hq & Hst). unfold h'. rewrite E. cbv zeta in *.
  assert (Hall : forall id, h_store (foldl (send data) h ids) !! id = (fun c =>
     match marshal (bm_Message msg) with
     | Some data => if receives authorize msg c then offer data c else c
     | None => c
     end) <$> h_store h !! id).
  { intros id. rewrite Hst. destruct (h_store h !! id) as [c |] eqn:Hc; [| done]. cbn [fmap option_fmap option_map]. f_equal.
    destruct (marshal (bm_Message msg)) as [d |].
    - destruct (Hsome d eq_refl) as [-> Hids]. specialize (Hids id c Hc). destruct (receives authorize msg c) eqn:R.
      + by rewrite bool_decide_eq_true_2 by by apply Hids.
      + rewrite bool_decide_eq_false_2; [done |]. rewrite Hids. done.
    - rewrite Hnone by done. by rewrite bool_decide_eq_false_2 by apply not_elem_of_nil. }
  split_and!; [done | done | done |]. intros id c c' Hc Hc' Hne Hu Hk. rewrite Hall, Hc in Hc'. injection Hc' as <-.
  destruct (marshal (bm_Message msg)); [| done]. destruct (receives authorize msg c) eqn:R; [| done]. clear Hne.
  unfold receives in R. rewrite Hu, N.eqb_refl in R. simpl in R. rewrite !andb_true_iff, N.eqb_eq in R.
  destruct R as [[[-> _] _] R]. unfold wants, gate in R. apply N.eqb_neq in Hk. rewrite Hk in R. simpl in R.
  rewrite andb_true_iff, orb_true_iff, andb_true_iff, negb_true_iff, !N.eqb_eq, N.eqb_neq in R. tauto.
Qed.

(** The hub reads [client.currentContact] twice while the connection's goroutine may write it:
    clearing the contact in between makes the hub follow a nil pointer. *)
Lemma interest_race_panics msg contact :
  bm_IgnoreContactFilter msg = false -> interest_reads msg (Some contact) None = None.
Proof. intros H. unfold interest_reads. by rewrite H. Qed.

(** Witnesses: one user of one organization, with two tabs of which one was closed. *)
Definition ex_connected : Hub := with_store NewHub {[1%N := NewUnauthenticatedClient]}.
Definition ex_hub : Hub :=
  registerClient 1 (with_store ex_connected (<[1%N := authenticated NewUnauthenticatedClient 7 9]> (h_store ex_connected))).
Definition ex_rule : option (uuid -> uuid -> uuid -> bool) := Some (fun user _ _ => N.eqb user 7).

Lemma hub_invariant_witness :
  IsUserOnline ex_hub 9 7 = true /\ h_panicked ex_hub = false.
Proof.
  split; [vm_compute; reflexivity |].
  apply (hub_invariant ex_rule (fun _ => Some "{}") (fun s => Some (MkWS s (JStr "token"))) (fun j => as_str (Some j)) (fun _ => None) (fun _ => None) "").
  eapply rtc_l; [apply (step_connect _ _ _ _ _ _ _ NewHub 1); reflexivity |].
  eapply rtc_l; [| apply rtc_refl].
  exact (step_frame _ _ _ _ _ _ _ ex_connected 1 NewUnauthenticatedClient (fun _ => Some (7%N, 9%N)) (Some "auth") eq_refl eq_refl).
Defined.

Lemma broadcast_delivers_exactly_witness :
  hub_ok ex_hub /\
  (cl_send <$> h_store (broadcastMessage ex_rule (fun _ => Some "{}") (BroadcastToContact 9 3 (MkWS "new_message" JNull)) ex_hub) !! 1%N)
    = Some ["{}"].
Proof.
  assert (H : hub_ok ex_hub) by (apply (register_ok ex_connected 1 NewUnauthenticatedClient 7 9); [| reflexivity..];
    apply (hub_step_ok None (fun _ => None) (fun _ => None) (fun _ => None) (fun _ => None) (fun _ => None) "" NewHub);
    [apply step_connect; reflexivity | apply new_hub_ok]).
  split; [exact H |].
  destruct (broadcast_delivers_exactly ex_rule (fun _ => Some "{}") (BroadcastToContact 9 3 (MkWS "new_message" JNull)) ex_hub H)
    as (_ & _ & Hst & _).
  rewrite Hst. vm_compute. reflexivity.
Defined.
