(* ===== verification/Assignment.v ===== *)
(** Agent assignment ([internal/assignment]): who is eligible, the cached configuration of a
    team, and the round-robin and load-balanced strategies. *)
From S2P Require Import Prelude Effects Sql.

(** ** The tables *)
Record AgentUser := MkUser { au_ID : uuid; au_IsActive : bool; au_IsAvailable : bool; au_Deleted : bool }.
Inductive AssignmentStrategy := RoundRobin | LoadBalanced | Manual | OtherStrategy.
#[global] Instance AssignmentStrategy_eq_dec : EqDecision AssignmentStrategy.
Proof. solve_decision. Defined.
Inductive TeamRole := TeamRoleManager | TeamRoleAgent | OtherRole.
#[global] Instance TeamRole_eq_dec : EqDecision TeamRole.
Proof. solve_decision. Defined.
Record Team := MkTeam {
  tm_ID : uuid; tm_IsActive : bool; tm_Strategy : AssignmentStrategy; tm_PerAgentTimeoutSecs : Z; tm_Deleted : bool }.
Record TeamMember := MkMember {
  mb_ID : uuid; mb_TeamID : uuid; mb_UserID : uuid; mb_Role : TeamRole; mb_LastAssignedAt : option instant; mb_Deleted : bool }.
(** The rows the load counters read: [ld_Counts] whether the status is one that counts. *)
Inductive TransferStatus := TransferActive | TransferResumed | TransferExpired.
Inductive CallTransferStatus := CallWaiting | CallConnected | CallOver.
#[global] Instance TransferStatus_eq_dec : EqDecision TransferStatus.
Proof. solve_decision. Defined.
#[global] Instance CallTransferStatus_eq_dec : EqDecision CallTransferStatus.
Proof. solve_decision. Defined.
Record Load {S : Type} := MkLoad { ld_Org : uuid; ld_Agent : option uuid; ld_Status : S; ld_CreatedAt : instant; ld_Deleted : bool }.
Arguments Load S : clear implicits.
(** [CallLog]; [cg_Busy] for the statuses initiating, ringing and answered. *)
Record CallLog := MkCallLog { cg_Agent : option uuid; cg_Busy : bool; cg_CreatedAt : instant; cg_Deleted : bool }.

Record TeamDb := MkTeamDb {
  t_users : list AgentUser; t_teams : list Team; t_members : list TeamMember;
  t_transfers : list (Load TransferStatus); t_calls : list (Load CallTransferStatus); t_callLogs : list CallLog }.
Definition with_members (d : TeamDb) (ms : list TeamMember) : TeamDb :=
  MkTeamDb (t_users d) (t_teams d) ms (t_transfers d) (t_calls d) (t_callLogs d).

Inductive assign_error := AErrDb.
#[global] Instance assign_error_db : DbErr assign_error := AErrDb.
Abbreviation Adb A := (Db TeamDb A) (only parsing).

(** A query whose error the code ignores: the zero value. *)
Definition query_or {A} (zero : A) (f : TeamDb -> A) : Adb A :=
  r ← query (E := assign_error) (fun d => Ok (f d));
  mret (match r with Ok a => a | Err _ => zero end).

(** ** Eligibility *)
Section Eligibility.
(** [PresenceFunc], [nil] when it was not set. *)
Context (presence : option (uuid -> uuid -> bool)).

Definition IsConnected (org user : uuid) : bool := match presence with Some f => f org user | None => true end.

Definition may_receive (ids : list uuid) (u : AgentUser) : bool :=
  existsb (N.eqb (au_ID u)) ids && au_IsAvailable u && au_IsActive u && negb (au_Deleted u).
Definition FilterEligible (org : uuid) (userIDs : list uuid) : Adb (list uuid) :=
  match userIDs with
  | [] => mret []
  | _ =>
      eligible ← query_or [] (fun d => map au_ID (List.filter (may_receive userIDs) (t_users d)));
      mret (match presence with None => eligible | Some f => List.filter (f org) eligible end)
  end.
Definition IsAgentEligible (org user : uuid) : Adb bool :=
  l ← FilterEligible org [user]; mret (Nat.eqb (length l) 1).

Inductive AgentState := AgentStateOnline | AgentStateAway | AgentStateOffline.
Definition AgentStateOf (connected available : bool) : AgentState :=
  if negb connected then AgentStateOffline else if negb available then AgentStateAway else AgentStateOnline.

Definition filterAvailable (org : uuid) (memberIDs excludeAgentIDs : list uuid) : Adb (list uuid) :=
  match memberIDs with
  | [] => mret []
  | _ =>
      match List.filter (fun id => negb (existsb (N.eqb id) excludeAgentIDs)) memberIDs with
      | [] => mret []
      | candidates => FilterEligible org candidates
      end
  end.

(** ** The cached configuration *)
Record TeamConfig := MkConfig { cf_Strategy : AssignmentStrategy; cf_PerAgentTimeoutSecs : Z; cf_MemberIDs : list uuid }.

(** [cached] is what the cache answered and [json.Unmarshal] accepted; the second result is
    what is stored in the cache. *)
Definition GetTeamConfig (team : uuid) (cached : option TeamConfig) : Adb (option TeamConfig * option TeamConfig) :=
  match cached with
  | Some cfg => mret (Some cfg, None)
  | None =>
      row ← query (E := assign_error) (fun d =>
        Ok (sql_first (fun t => N.eqb (tm_ID t) team && tm_IsActive t && negb (tm_Deleted t)) (t_teams d)));
      match row with
      | Ok (Some t) =>
          memberIDs ← query_or [] (fun d => map mb_UserID (List.filter (fun m =>
            N.eqb (mb_TeamID m) team && bool_decide (mb_Role m = TeamRoleAgent) && negb (mb_Deleted m)) (t_members d)));
          let cfg := MkConfig (tm_Strategy t) (tm_PerAgentTimeoutSecs t) memberIDs in
          mret (Some cfg, Some cfg)
      | _ => mret (None, None)
      end
  end.

(** ** Round robin *)

(** [ORDER BY last_assigned_at ASC NULLS FIRST, user_id ASC] *)
Definition assigned_before (a b : TeamMember) : bool :=
  match mb_LastAssignedAt a, mb_LastAssignedAt b with
  | None, Some _ => true
  | Some _, None => false
  | None, None => (mb_UserID a <=? mb_UserID b)%N
  | Some s, Some t => (s <? t) || ((s =? t) && (mb_UserID a <=? mb_UserID b)%N)
  end.
Definition in_rotation (team : uuid) (available : list uuid) (m : TeamMember) : bool :=
  N.eqb (mb_TeamID m) team && existsb (N.eqb (mb_UserID m)) available && negb (mb_Deleted m).
Definition assigned (now : instant) (m : TeamMember) : TeamMember :=
  MkMember (mb_ID m) (mb_TeamID m) (mb_UserID m) (mb_Role m) (Some now) (mb_Deleted m).

(** One transaction behind the team's advisory lock, which makes it atomic for the other
    assignments of the team. *)
Definition assignRoundRobin (team org : uuid) (memberIDs excludeAgentIDs : list uuid) (now : instant) : Adb (option uuid) :=
  r ← transaction (E := assign_error) (
    _ ←? query (fun _ => Ok tt);
    available ← filterAvailable org memberIDs excludeAgentIDs;
    match available with
    | [] => mret (Ok None)
    | _ =>
        m ←? query (fun d => Ok (sql_min assigned_before (List.filter (in_rotation team available) (t_members d))));
        match m with
        | None => mret (Ok None)
        | Some m =>
            _ ←? exec (fun d => (Ok tt, with_members d (sql_update
              (fun x => N.eqb (mb_ID x) (mb_ID m) && negb (mb_Deleted x)) (assigned now) (t_members d))));
            mret (Ok (Some (mb_UserID m)))
        end
    end);
  mret (match r with Ok selected => selected | Err _ => None end).

(** ** Load balanced *)
Definition LoadCounter : Type := uuid -> list uuid -> Adb (uuid -> Z).
Definition load_of {S} `{EqDecision S} (org : uuid) (statuses : list S) (loads : list (Load S)) (agent : uuid) : Z :=
  sql_count (fun l => N.eqb (ld_Org l) org && bool_decide (ld_Agent l = Some agent) && bool_decide (ld_Status l ∈ statuses) && negb (ld_Deleted l)) loads.
Definition ChatLoadCounter : LoadCounter := fun org agentIDs =>
  query_or (fun _ => 0) (fun d a => if existsb (N.eqb a) agentIDs then load_of org [TransferActive] (t_transfers d) a else 0).
Definition CallLoadCounter : LoadCounter := fun org agentIDs =>
  query_or (fun _ => 0) (fun d a => if existsb (N.eqb a) agentIDs then load_of org [CallWaiting; CallConnected] (t_calls d) a else 0).

Definition lighter (load : uuid -> Z) (best : Z * option uuid) (uid : uuid) : Z * option uuid :=
  let '(lowestCount, _) := best in
  if (lowestCount <? 0) || (load uid <? lowestCount) then (load uid, Some uid) else best.
Definition lightest (load : uuid -> Z) (available : list uuid) : option uuid := snd (foldl (lighter load) (-1, None) available).

Definition assignLoadBalanced (org : uuid) (memberIDs excludeAgentIDs : list uuid) (loadCounter : LoadCounter) : Adb (option uuid) :=
  available ← filterAvailable org memberIDs excludeAgentIDs;
  match available with
  | [] => mret None
  | _ => loadMap ← loadCounter org available; mret (lightest loadMap available)
  end.

Definition by_strategy (cfg : TeamConfig) (team org : uuid) (excludeAgentIDs : list uuid) (loadCounter : LoadCounter)
    (now : instant) : Adb (option uuid) :=
  match cf_Strategy cfg with
  | RoundRobin | OtherStrategy => assignRoundRobin team org (cf_MemberIDs cfg) excludeAgentIDs now
  | LoadBalanced => assignLoadBalanced org (cf_MemberIDs cfg) excludeAgentIDs loadCounter
  | Manual => mret None
  end.
(** The result, and what is stored in the cache. *)
Definition AssignToTeam (team org : uuid) (excludeAgentIDs : list uuid) (loadCounter : LoadCounter)
    (cached : option TeamConfig) (now : instant) : Adb (option uuid * option TeamConfig) :=
  '(cfg, store) ← GetTeamConfig team cached;
  match cfg with
  | None => mret (None, store)
  | Some cfg =>
      chosen ← by_strategy cfg team org excludeAgentIDs loadCounter now;
      mret (chosen, store)
  end.
Definition GetAvailableAgents (team org : uuid) (excludeAgentIDs : list uuid) (cached : option TeamConfig) : Adb (list uuid) :=
  '(cfg, _) ← GetTeamConfig team cached;
  match cfg with None => mret [] | Some cfg => filterAvailable org (cf_MemberIDs cfg) excludeAgentIDs end.

(** ** Calls *)
Definition activeCallMaxAge : duration := 3 * hour.
Definition IsAgentOnActiveCall (agent : uuid) (now : instant) : Adb bool :=
  let since := now - activeCallMaxAge in
  transfers ← query_or 0 (fun d => sql_count (fun c => bool_decide (ld_Agent c = Some agent) && bool_decide (ld_Status c = CallConnected) &&
                                     (since <? ld_CreatedAt c) && negb (ld_Deleted c)) (t_calls d));
  if 0 <? transfers then mret true
  else
    logs ← query_or 0 (fun d => sql_count (fun c => bool_decide (cg_Agent c = Some agent) && cg_Busy c && (since <? cg_CreatedAt c) &&
                                   negb (cg_Deleted c)) (t_callLogs d));
    mret (0 <? logs).
Definition ResolvePerAgentTimeout (teamTimeout globalDefault : Z) : Z :=
  if 0 <? teamTimeout then teamTimeout else if 0 <? globalDefault then globalDefault else 15.
End Eligibility.

(** ** Who is available *)
Lemma query_or_any {A} (zero : A) f w x w' :
  query_or zero f w = (x, w') -> w_data w' = w_data w /\ (x = f (w_data w) \/ x = zero).
Proof.
  unfold query_or, mbind, db_bind. destruct (query _ w) as [r w1] eqn:E. unfold mret, db_ret. intros [= <- <-].
  split; [by eapply query_data |]. destruct r as [a |]; [| by right]. left. apply exec_ok in E. by injection E as <-.
Qed.
Lemma query_or_run {A} (zero : A) f d : query_or zero f (World d []) = (f d, World d []).
Proof. unfold query_or, mbind, db_bind, query. by rewrite exec_no_faults. Qed.

Section Available.
Context (presence : option (uuid -> uuid -> bool)).

Definition eligible (d : TeamDb) (org user : uuid) : Prop :=
  IsConnected presence org user = true /\
  exists u, u ∈ t_users d /\ au_ID u = user /\ au_IsActive u = true /\ au_IsAvailable u = true /\ au_Deleted u = false.

Definition eligible_ids (d : TeamDb) (org : uuid) (ids : list uuid) : list uuid :=
  List.filter (IsConnected presence org) (map au_ID (List.filter (may_receive ids) (t_users d))).
Definition candidates (memberIDs exclude : list uuid) : list uuid :=
  List.filter (fun id => negb (existsb (N.eqb id) exclude)) memberIDs.
Definition available (d : TeamDb) (org : uuid) (memberIDs exclude : list uuid) : list uuid :=
  eligible_ids d org (candidates memberIDs exclude).

Lemma existsb_eqb_in u l : existsb (N.eqb u) l = true <-> u ∈ l.
Proof.
  rewrite existsb_exists. setoid_rewrite <- list_elem_of_In. setoid_rewrite N.eqb_eq. naive_solver.
Qed.

Lemma eligible_ids_in d org ids u : u ∈ eligible_ids d org ids <-> u ∈ ids /\ eligible d org u.
Proof.
  unfold eligible_ids, eligible, may_receive. rewrite list_elem_of_In, List.filter_In, in_map_iff.
  setoid_rewrite List.filter_In. setoid_rewrite <- list_elem_of_In. setoid_rewrite andb_true_iff. setoid_rewrite andb_true_iff.
  setoid_rewrite andb_true_iff. setoid_rewrite negb_true_iff. setoid_rewrite existsb_eqb_in. naive_solver.
Qed.

Lemma available_in d org members exclude u :
  u ∈ available d org members exclude <-> u ∈ members /\ (u ∉ exclude) /\ eligible d org u.
Proof.
  unfold available, candidates. rewrite eligible_ids_in, list_elem_of_In, List.filter_In, <- list_elem_of_In.
  rewrite negb_true_iff, <- not_true_iff_false, existsb_eqb_in. tauto.
Qed.

Lemma eligible_ids_nil d org : eligible_ids d org [] = [].
Proof.
  unfold eligible_ids. assert (H : List.filter (may_receive []) (t_users d) = []); [| by rewrite H].
  induction (t_users d) as [| u l IH]; [done | exact IH].
Qed.

Lemma filter_connected org l :
  match presence with None => l | Some f => List.filter (f org) l end = List.filter (IsConnected presence org) l.
Proof.
  unfold IsConnected. destruct presence as [f |]; [done |]. induction l as [| x l IH]; [done |]. simpl. by rewrite <- IH.
Qed.

(** Filtering reads only; a failed read leaves nobody. *)
Lemma filterAvailable_any org members exclude w l w' :
  filterAvailable presence org members exclude w = (l, w') ->
  w_data w' = w_data w /\ (l = available (w_data w) org members exclude \/ l = []).
Proof.
  unfold filterAvailable, available, candidates. destruct members as [| m ms].
  { intros [= <- <-]. split; [done |]. by right. }
  destruct (List.filter _ (m :: ms)) as [| c cs]; [intros [= <- <-]; split; [done | by right] |].
  unfold FilterEligible, mbind, db_bind. destruct (query_or _ _ w) as [x w1] eqn:E. apply query_or_any in E as [Hw Hx].
  intros [= <- <-]. split; [done |]. rewrite filter_connected. destruct Hx as [-> | ->]; [by left | by right].
Qed.
Lemma filterAvailable_run org members exclude d :
  filterAvailable presence org members exclude (World d []) = (available d org members exclude, World d []).
Proof.
  unfold filterAvailable, available, candidates. destruct members as [| m ms]; [by rewrite eligible_ids_nil |].
  destruct (List.filter _ (m :: ms)) as [| c cs]; [by rewrite eligible_ids_nil |].
  unfold FilterEligible, mbind, db_bind. rewrite query_or_run. cbn [fst snd]. unfold mret, db_ret. by rewrite filter_connected.
Qed.

(** ** Round robin *)
Lemma before_total a b : assigned_before a b = false -> assigned_before b a = true.
Proof.
  unfold assigned_before. destruct (mb_LastAssignedAt a), (mb_LastAssignedAt b); try done.
  - rewrite orb_false_iff, orb_true_iff, andb_false_iff, andb_true_iff, Z.ltb_ge, Z.ltb_lt, Z.eqb_eq, Z.eqb_neq, N.leb_gt, N.leb_le. lia.
  - rewrite N.leb_gt, N.leb_le. lia.
Qed.
Lemma before_trans a b c : assigned_before a b = true -> assigned_before b c = true -> assigned_before a c = true.
Proof.
  unfold assigned_before. destruct (mb_LastAssignedAt a), (mb_LastAssignedAt b), (mb_LastAssignedAt c); try done.
  - rewrite !orb_true_iff, !andb_true_iff, !Z.ltb_lt, !Z.eqb_eq, !N.leb_le. lia.
  - rewrite !N.leb_le. lia.
Qed.

(** The rows that take part, and the choice with its effect when nothing fails. *)
Definition rotation (team org : uuid) (members exclude : list uuid) (d : TeamDb) : list TeamMember :=
  List.filter (in_rotation team (available d org members exclude)) (t_members d).
Definition mark (m : TeamMember) (now : instant) (d : TeamDb) : TeamDb :=
  with_members d (sql_update (fun x => N.eqb (mb_ID x) (mb_ID m) && negb (mb_Deleted x)) (assigned now) (t_members d)).
Definition choose (team org : uuid) (members exclude : list uuid) (now : instant) (d : TeamDb) : option uuid * TeamDb :=
  match sql_min assigned_before (rotation team org members exclude d) with
  | Some m => (Some (mb_UserID m), mark m now d)
  | None => (None, d)
  end.

Lemma rotation_nobody team org members exclude d : available d org members exclude = [] -> rotation team org members exclude d = [].
Proof.
  intros E. unfold rotation. rewrite E. induction (t_members d) as [| m l IH]; [done |]. simpl.
  unfold in_rotation at 1. simpl. by rewrite andb_false_r.
Qed.

Lemma assignRoundRobin_run team org members exclude now d :
  assignRoundRobin presence team org members exclude now (World d []) =
  (fst (choose team org members exclude now d), World (snd (choose team org members exclude now d)) []).
Proof.
  unfold assignRoundRobin, transaction, try_bind, mbind, db_bind, query, choose. rewrite !exec_no_faults. cbn [fst snd].
  rewrite filterAvailable_run. destruct (available d org members exclude) as [| a l] eqn:E.
  { by rewrite rotation_nobody. }
  rewrite !exec_no_faults. cbn [fst snd]. unfold rotation. rewrite E.
  destruct (sql_min _ _) as [m |]; [| done]. by rewrite !exec_no_faults.
Qed.

(** Whatever fails, who is chosen was available, and the row marked is theirs. *)
Lemma assignRoundRobin_any team org members exclude now w u w' :
  assignRoundRobin presence team org members exclude now w = (Some u, w') ->
  choose team org members exclude now (w_data w) = (Some u, w_data w').
Proof.
  unfold assignRoundRobin, mbind, db_bind. destruct (transaction _ w) as [r w1] eqn:E. unfold mret, db_ret.
  destruct r as [s |]; [| done]. intros [= -> <-]. apply transaction_ok in E as (w2 & E & ->). unfold try_bind, mbind, db_bind in E.
  destruct (query _ w) as [[[] | e] w3] eqn:E3; [| done]. apply query_data in E3. rewrite <- E3.
  destruct (filterAvailable _ _ _ _ w3) as [l w4] eqn:E4. apply filterAvailable_any in E4 as [Hw [-> | ->]]; [| done].
  unfold choose, rotation. destruct (available _ _ _ _) as [| a l']; [done |].
  destruct (query _ w4) as [[m | e] w5] eqn:E5; [| done]. pose proof (query_data _ _ _ _ E5) as Hw5. apply exec_ok in E5.
  injection E5 as E5 _. rewrite Hw in E5. rewrite E5. destruct m as [m |]; [| done].
  destruct (exec _ w5) as [[[] | e] w6] eqn:E6; [| done]. apply exec_ok in E6. injection E6 as E6. unfold mret, db_ret in E.
  injection E as <- <-. unfold mark. by rewrite <- E6, Hw5, Hw.
Qed.
End Available.

(** ** Load balanced *)
Lemma lightest_spec load l :
  (forall a, 0 <= load a) ->
  match lightest load l with
  | Some u => u ∈ l /\ forall v, v ∈ l -> load u <= load v
  | None => l = []
  end.
Proof.
  intros Hpos. unfold lightest.
  enough (H : forall l0 best, match best with (c, Some b) => c = load b /\ b ∈ l0 /\ (forall v, v ∈ l0 -> load b <= load v) | (c, None) => c = -1 /\ l0 = [] end ->
    match snd (foldl (lighter load) best l) with
    | Some u => u ∈ l0 ++ l /\ forall v, v ∈ l0 ++ l -> load u <= load v | None => l0 ++ l = [] end).
  { by apply (H [] (-1, None)). }
  induction l as [| x l IH]; intros l0 [c [b |]]; simpl.
  - rewrite app_nil_r. tauto.
  - rewrite app_nil_r. tauto.
  - intros (-> & Hb & Hmin). rewrite cons_middle, app_assoc. apply IH.
    assert (Hx : forall v, v ∈ l0 ++ [x] -> v ∈ l0 \/ v = x) by (intros v; rewrite elem_of_app, list_elem_of_singleton; tauto).
    destruct (Z.ltb_spec (load b) 0) as [Hn | _]; [specialize (Hpos b); lia |]. simpl.
    destruct (Z.ltb_spec (load x) (load b)).
    + split_and!; [done | apply elem_of_app; right; by left |]. intros v [Hv | ->]%Hx; [specialize (Hmin v Hv); lia | lia].
    + split_and!; [done | apply elem_of_app; by left |]. intros v [Hv | ->]%Hx; [auto | lia].
  - intros [-> ->]. apply (IH [x]). split_and!; [done | by left |]. intros v ->%list_elem_of_singleton. lia.
Qed.

(** ** The dispatch *)
Lemma GetTeamConfig_any team cached w cfg store w' :
  GetTeamConfig team cached w = ((Some cfg, store), w') ->
  w_data w' = w_data w /\ (cached = Some cfg \/ (cached = None /\ store = Some cfg)).
Proof.
  unfold GetTeamConfig. destruct cached as [c |]; [intros [= <- <- <-]; auto |]. unfold mbind, db_bind.
  destruct (query _ w) as [r w1] eqn:E1. pose proof (query_data _ _ _ _ E1) as H1. destruct r as [[t |] |]; try done.
  destruct (query_or _ _ w1) as [ids w2] eqn:E2. apply query_or_any in E2 as [H2 _]. unfold mret, db_ret. intros [= <- <- <-].
  split; [congruence | auto].
Qed.

(** Whoever is assigned was available. *)
Lemma assigned_available presence team org exclude loadCounter cached now w u store w' :
  AssignToTeam presence team org exclude loadCounter cached now w = ((Some u, store), w') ->
  exists cfg, (cached = Some cfg \/ (cached = None /\ store = Some cfg)) /\
    cf_Strategy cfg <> Manual /\ u ∈ available presence (w_data w) org (cf_MemberIDs cfg) exclude.
Proof.
  unfold AssignToTeam, mbind, db_bind. destruct (GetTeamConfig team cached w) as [[[cfg |] st] w1] eqn:E1; [| done].
  apply GetTeamConfig_any in E1 as [H1 Hcfg].
  destruct (by_strategy _ cfg _ _ _ _ _ w1) as [chosen w2] eqn:E2. unfold mret, db_ret.
  intros [= -> <- <-]. exists cfg.
  assert (Hrr : assignRoundRobin presence team org (cf_MemberIDs cfg) exclude now w1 = (Some u, w2) ->
    u ∈ available presence (w_data w) org (cf_MemberIDs cfg) exclude).
  { intros H%assignRoundRobin_any. rewrite H1 in H. unfold choose in H. destruct (sql_min _ _) as [m |] eqn:Em; [| done].
    injection H as <- _. apply sql_min_spec in Em as [Em _]; [| apply before_total | apply before_trans].
    unfold rotation in Em. apply list_elem_of_In, List.filter_In in Em as [_ Em]. unfold in_rotation in Em. bool_hyps.
    by apply existsb_eqb_in. }
  split; [done |]. unfold by_strategy in E2. destruct (cf_Strategy cfg) eqn:Es; [split; [done | by apply Hrr] | | done | split; [done | by apply Hrr]].
  split; [done |]. unfold assignLoadBalanced, mbind, db_bind in E2.
  destruct (filterAvailable _ _ _ _ w1) as [l w3] eqn:E3. apply filterAvailable_any in E3 as [_ H3]. rewrite H1 in H3.
  destruct l as [| a l]; [done |]. destruct H3 as [H3 | ?]; [| done]. rewrite <- H3.
  destruct (loadCounter org (a :: l) w3) as [load w4]. unfold mret, db_ret in E2. injection E2 as E2 _.
  unfold lightest in E2.
  assert (Hin : forall l' best, (forall b, snd best = Some b -> b ∈ l' ++ (a :: l)) -> forall x, snd (foldl (lighter load) best (a :: l)) = Some x -> x ∈ l' ++ (a :: l)).
  { clear. generalize (a :: l). intros l0. induction l0 as [| y l0 IH]; intros l' [c best] Hb x; simpl; [by auto |].
    intros Hx. rewrite cons_middle, app_assoc. eapply IH; [| exact Hx]. intros b. rewrite <- app_assoc. simpl.
    destruct ((c <? 0) || (load y <? c)); simpl; [intros [= <-]; apply elem_of_app; right; by left | apply Hb]. }
  apply (Hin [] (-1, None)); done.
Qed.

(** Whoever is assigned, whatever the strategy, the load counter and the failures of the
    database, is a member of the team's configuration who was not excluded and is eligible:
    active, marked available and connected; a team in manual assigns nobody. *)
Theorem AssignToTeam_eligible presence team org exclude loadCounter cached now w u store w' :
  AssignToTeam presence team org exclude loadCounter cached now w = ((Some u, store), w') ->
  exists cfg, (cached = Some cfg \/ (cached = None /\ store = Some cfg)) /\
    cf_Strategy cfg <> Manual /\ u ∈ cf_MemberIDs cfg /\ (u ∉ exclude) /\ eligible presence (w_data w) org u.
Proof.
  intros (cfg & Hc & Hm & Hu)%assigned_available. exists cfg. by rewrite <- available_in.
Qed.


(** What the assignment needs of whoever tells presence: its answers are connections. *)
Class PresenceSource (H : Type) := MkPresenceSource {
  ps_online : H -> uuid -> uuid -> bool;
  ps_valid : H -> Prop;
  ps_connected : H -> uuid -> uuid -> Prop;
  ps_sound : forall h org user, ps_valid h -> ps_online h org user = true -> ps_connected h org user }.

(** An assignment that asks such a source chooses somebody connected. *)
Lemma assigned_connected `{PresenceSource H} h team org exclude loadCounter cached now w u store w' :
  ps_valid h ->
  AssignToTeam (Some (ps_online h)) team org exclude loadCounter cached now w = ((Some u, store), w') ->
  ps_connected h org u.
Proof. intros Hv (cfg & _ & _ & Hu)%assigned_available. apply available_in in Hu as (_ & _ & [Hon _]). by apply ps_sound. Qed.

(** When nothing fails, round robin chooses, among the available members, the one assigned
    longest ago (never first, then by identifier) and only marks that row; load balancing
    chooses one with the fewest active conversations and changes nothing; and nobody is
    chosen only when there is nobody to choose. *)
Theorem strategies_choose presence team org members exclude loadCounter load now d :
  (forall ids, loadCounter org ids (World d []) = (load, World d [])) -> (forall a, 0 <= load a) ->
  let rr := assignRoundRobin presence team org members exclude now (World d []) in
  let lb := assignLoadBalanced presence org members exclude loadCounter (World d []) in
  let rows := rotation presence team org members exclude d in
  let able := available presence d org members exclude in
  match fst rr with
  | Some u => exists m, m ∈ rows /\ mb_UserID m = u /\ (forall m', m' ∈ rows -> assigned_before m m' = true) /\
      snd rr = World (mark m now d) []
  | None => rows = [] /\ snd rr = World d []
  end /\
  match fst lb with
  | Some u => u ∈ able /\ (forall v, v ∈ able -> load u <= load v)
  | None => able = []
  end /\ snd lb = World d [].
Proof.
  intros Hlc Hpos rr lb rows able. split; [| split].
  - unfold rr. rewrite assignRoundRobin_run. unfold choose. cbn [fst snd]. fold rows.
    destruct (sql_min assigned_before rows) as [m |] eqn:E.
    + apply sql_min_spec in E as [Hm Hmin]; [| apply before_total | apply before_trans]. by exists m.
    + apply sql_min_none in E. done.
  - unfold lb, assignLoadBalanced, mbind, db_bind. rewrite filterAvailable_run. fold able.
    pose proof (lightest_spec load able Hpos) as H. destruct able as [| a l]; [done |]. rewrite Hlc. exact H.
  - unfold lb, assignLoadBalanced, mbind, db_bind. rewrite filterAvailable_run. fold able. destruct able; [done |]. by rewrite Hlc.
Qed.

(** The two counters of the source are such. *)
Lemma load_of_nonneg {S} `{EqDecision S} org (statuses : list S) loads a : 0 <= load_of org statuses loads a.
Proof. apply sql_count_nonneg. Qed.

(** ** Rotation *)
Section Rotation.
Context (presence : option (uuid -> uuid -> bool)) (team org : uuid) (members exclude : list uuid).

(** Assignments one after the other, at the given times. *)
Fixpoint assign_all (nows : list instant) (d : TeamDb) : list (option uuid) * TeamDb :=
  match nows with
  | [] => ([], d)
  | now :: rest =>
      let '(r, w) := assignRoundRobin presence team org members exclude now (World d []) in
      let '(rs, d') := assign_all rest (w_data w) in (r :: rs, d')
  end.

Definition older (start : instant) (m : TeamMember) : bool :=
  match mb_LastAssignedAt m with None => true | Some t => t <? start end.
Definition waiting (start : instant) (d : TeamDb) : list TeamMember :=
  List.filter (older start) (rotation presence team org members exclude d).

Lemma older_before start a b : assigned_before a b = true -> older start b = true -> older start a = true.
Proof.
  unfold assigned_before, older. destruct (mb_LastAssignedAt a), (mb_LastAssignedAt b); try done.
  rewrite orb_true_iff, andb_true_iff, !Z.ltb_lt, Z.eqb_eq. lia.
Qed.

Lemma chosen_waits start d m :
  sql_min assigned_before (rotation presence team org members exclude d) = Some m -> waiting start d <> [] -> m ∈ waiting start d.
Proof.
  intros [Hm Hmin]%sql_min_spec Hne; [| apply before_total | apply before_trans].
  destruct (waiting start d) as [| x l] eqn:E; [done |].
  assert (Hx : x ∈ waiting start d) by (rewrite E; by left). rewrite <- E.
  unfold waiting in Hx |- *. rewrite list_elem_of_In, List.filter_In, <- list_elem_of_In in Hx |- *. destruct Hx as [Hx Ho].
  split; [done |]. eapply older_before; [by apply Hmin | done].
Qed.

(** Marking the chosen row takes exactly it out of those who wait. *)
Lemma waiting_mark start now d m :
  NoDup (map mb_ID (t_members d)) -> start <= now -> m ∈ waiting start d ->
  waiting start d ≡ₚ m :: waiting start (mark m now d).
Proof.
  intros Hnd Hnow Hm. unfold waiting, rotation in *. change (available presence (mark m now d)) with (available presence d).
  set (av := available presence d org members exclude) in *. simpl t_members. revert Hnd Hm.
  induction (t_members d) as [| x l IH]; intros Hnd Hm; [by apply not_elem_of_nil in Hm |].
  simpl in Hnd. apply NoDup_cons in Hnd as [Hx Hnd]. simpl sql_update.
  assert (Hin : m ∈ List.filter (older start) (List.filter (in_rotation team av) l) -> m ∈ l /\ mb_ID x <> mb_ID m).
  { rewrite !list_elem_of_In, List.filter_In, List.filter_In. intros [[H _] _]. split; [done |]. intros E. apply Hx.
    apply list_elem_of_In. rewrite E. by apply in_map. }
  assert (Hrest : mb_ID x = mb_ID m -> sql_update (fun y => N.eqb (mb_ID y) (mb_ID m) && negb (mb_Deleted y)) (assigned now) l = l).
  { intros E. apply sql_update_id. intros y Hy. apply andb_false_iff. left. apply N.eqb_neq. intros Ey. apply Hx.
    rewrite E, <- Ey. apply list_elem_of_In, in_map. by apply list_elem_of_In. }
  destruct (N.eqb_spec (mb_ID x) (mb_ID m)) as [E | E].
  - assert (x = m) as ->.
    { simpl in Hm. destruct (in_rotation team av x); simpl in Hm; [destruct (older start x); simpl in Hm |];
        try (apply Hin in Hm as [_ ?]; done). apply elem_of_cons in Hm as [-> | Hm]; [done |]. by apply Hin in Hm as [_ ?]. }
    assert (Hb : in_rotation team av m = true /\ older start m = true).
    { rewrite !list_elem_of_In, List.filter_In, List.filter_In in Hm. tauto. }
    destruct Hb as [H1 H2]. pose proof H1 as Hd. unfold in_rotation in Hd. rewrite !andb_true_iff in Hd. destruct Hd as [_ Hd].
    simpl. rewrite Hd, H1. simpl. rewrite H2. fold (sql_update (fun y => N.eqb (mb_ID y) (mb_ID m) && negb (mb_Deleted y)) (assigned now) l).
    rewrite Hrest by done. change (in_rotation team av (assigned now m)) with (in_rotation team av m). rewrite H1. simpl.
    assert (Hno : older start (assigned now m) = false) by (unfold older; simpl; apply Z.ltb_ge; lia). by rewrite Hno.
  - simpl in Hm |- *. fold (sql_update (fun y => N.eqb (mb_ID y) (mb_ID m) && negb (mb_Deleted y)) (assigned now) l).
    destruct (in_rotation team av x); simpl in Hm |- *; [| by apply IH]. destruct (older start x); simpl in Hm |- *; [| by apply IH].
    apply elem_of_cons in Hm as [-> | Hm]; [done |]. rewrite (IH Hnd Hm). constructor.
Qed.

Lemma mark_ids m now d : map mb_ID (t_members (mark m now d)) = map mb_ID (t_members d).
Proof.
  simpl. induction (t_members d) as [| x l IH]; [done |]. simpl. f_equal; [by destruct (_ && _) | exact IH].
Qed.

Lemma assign_all_waiting start nows d :
  NoDup (map mb_ID (t_members d)) -> Forall (fun now => start <= now) nows -> length nows = length (waiting start d) ->
  fst (assign_all nows d) ≡ₚ map (fun m => Some (mb_UserID m)) (waiting start d).
Proof.
  revert d. induction nows as [| now nows IH]; intros d Hnd Hall Hlen.
  - by destruct (waiting start d).
  - inversion_clear Hall as [| ? ? Hnow Hall']. simpl. rewrite assignRoundRobin_run. unfold choose.
    destruct (sql_min _ _) as [m |] eqn:E.
    2: { apply sql_min_none in E. unfold waiting in Hlen. rewrite E in Hlen. done. }
    cbn [fst snd]. apply (chosen_waits start) in E; [| by intros En; rewrite En in Hlen].
    pose proof (waiting_mark start now d m Hnd Hnow E) as Hperm. pose proof (Permutation_length Hperm) as Hl.
    specialize (IH (mark m now d)). rewrite mark_ids in IH. simpl in Hl, Hlen. specialize (IH Hnd Hall' ltac:(lia)).
    cbn [w_data]. destruct (assign_all nows (mark m now d)) as [rs d']. simpl in IH |- *. rewrite Hperm. simpl. by constructor.
Qed.
End Rotation.

(** C40: the rotation is fair: as long as nobody's eligibility changes, as many consecutive
    assignments as there are members in the rotation (each at or after a moment before which
    all of them had last been assigned) give exactly one to each of them, whatever the times. *)
Theorem round_robin_rotation presence team org members exclude d start nows :
  let rows := rotation presence team org members exclude d in
  NoDup (map mb_ID (t_members d)) ->
  (forall m, m ∈ rows -> older start m = true) -> Forall (fun now => start <= now) nows -> length nows = length rows ->
  fst (assign_all presence team org members exclude nows d) ≡ₚ map (fun m => Some (mb_UserID m)) rows.
Proof.
  intros rows Hnd Hold Hall Hlen.
  assert (E : waiting presence team org members exclude start d = rows).
  { unfold waiting. fold rows. clear -Hold. induction rows as [| m l IH]; [done |]. simpl. rewrite Hold by by left. f_equal. apply IH.
    intros. apply Hold. by right. }
  rewrite <- E. by apply assign_all_waiting; [.. | rewrite E].
Qed.

(** The configuration of a team is cached even when its members could not be read. *)
Lemma failed_members_are_cached team t d :
  sql_first (fun t => N.eqb (tm_ID t) team && tm_IsActive t && negb (tm_Deleted t)) (t_teams d) = Some t ->
  fst (GetTeamConfig team None (World d [NoFault; FailBefore])) =
  (Some (MkConfig (tm_Strategy t) (tm_PerAgentTimeoutSecs t) []), Some (MkConfig (tm_Strategy t) (tm_PerAgentTimeoutSecs t) [])).
Proof. intros H. unfold GetTeamConfig, mbind, db_bind, query, exec. simpl. rewrite H. done. Qed.

(** ** Witnesses: a team of two, both connected *)
Definition ex_member (id user : uuid) (last : option instant) : TeamMember := MkMember id 4 user TeamRoleAgent last false.
Definition ex_team : TeamDb := MkTeamDb [MkUser 21 true true false; MkUser 22 true true false] [MkTeam 4 true RoundRobin 0 false]
  [ex_member 1 21 (Some 50); ex_member 2 22 None] [MkLoad _ 9 (Some 22%N) TransferActive 0 false] [] [].
Definition ex_presence : option (uuid -> uuid -> bool) := Some (fun _ _ => true).

Lemma AssignToTeam_eligible_witness :
  exists cfg, cf_Strategy cfg <> Manual /\ (22%N ∈ cf_MemberIDs cfg) /\ eligible ex_presence ex_team 9 22.
Proof.
  destruct (AssignToTeam_eligible ex_presence 4 9 [] ChatLoadCounter None 100 (World ex_team []) 22
    (Some (MkConfig RoundRobin 0 [21%N; 22%N])) (World (mark (ex_member 2 22 None) 100 ex_team) []) ltac:(vm_compute; reflexivity))
    as (cfg & _ & Hs & Hu & _ & He).
  exists cfg. split; [exact Hs | split; [exact Hu | exact He]].
Defined.

Lemma strategies_choose_witness :
  fst (assignLoadBalanced ex_presence 9 [21%N; 22%N] [] ChatLoadCounter (World ex_team [])) = Some 21%N /\
  snd (assignLoadBalanced ex_presence 9 [21%N; 22%N] [] (fun _ _ => query_or (fun _ => 0) (fun _ a => if N.eqb a 22 then 1 else 0)) (World ex_team []))
    = World ex_team [].
Proof.
  split; [vm_compute; reflexivity |].
  refine (proj2 (proj2 (strategies_choose ex_presence 4 9 [21%N; 22%N] [] (fun _ _ => query_or (fun _ => 0) (fun _ a => if N.eqb a 22 then 1 else 0))
    (fun a => if N.eqb a 22 then 1 else 0) 100 ex_team _ _))).
  - intros ids. reflexivity.
  - intros a. destruct (N.eqb a 22); lia.
Defined.

Lemma round_robin_rotation_witness :
  fst (assign_all ex_presence 4 9 [21%N; 22%N] [] [100; 100] ex_team) ≡ₚ [Some 21%N; Some 22%N].
Proof.
  refine (round_robin_rotation ex_presence 4 9 [21%N; 22%N] [] ex_team 60 [100; 100] _ _ _ _).
  - vm_compute. repeat constructor; rewrite ?list_elem_of_In; simpl; intuition discriminate.
  - intros m. vm_compute rotation. rewrite !elem_of_cons, elem_of_nil. intros [-> | [-> | []]]; reflexivity.
  - repeat constructor; lia.
  - vm_compute. reflexivity.
Defined.
