(* ===== verification/Visibility.v ===== *)
(** Who may see a conversation ([internal/handlers/conversation_visibility.go]): the decision
    for one contact and the SQL scope of the listings that translates it. *)
From S2P Require Import Prelude Sql.

(** ** The tables (what the rule reads) *)
Record Contact := MkContact {
  ct_ID : uuid; ct_Org : uuid; ct_Account : string; ct_AssignedUserID : option uuid; ct_TeamID : option uuid }.
(** [at_Active]: the status is active. *)
Record AgentTransfer := MkTransfer {
  at_Org : uuid; at_Contact : uuid; at_Active : bool; at_AgentID : option uuid; at_TeamID : option uuid;
  at_TransferredAt : instant; at_Deleted : bool }.
Record TeamMember := MkMember { mb_TeamID : uuid; mb_UserID : uuid; mb_Deleted : bool }.
Record WhatsAppAccount := MkAccount { wa_Org : uuid; wa_Name : string; wa_DefaultTeamID : option uuid; wa_Deleted : bool }.
Record VisDb := MkVisDb { v_transfers : list AgentTransfer; v_members : list TeamMember; v_accounts : list WhatsAppAccount }.

(** The settings of the organization that matter here. *)
Record AgentAssignmentConfig := MkSettings { StrictConversationVisibility : bool; AwayReassignEnabled : bool }.

(** ** Permissions *)
Record UserPermissions := MkPerms { IsSuperAdmin : bool; Permissions : list string }.
(** [None] when they could not be read. *)
Definition HasPermission (perms : option UserPermissions) (resource action : string) : bool :=
  match perms with
  | None => false
  | Some p => IsSuperAdmin p || existsb (fun q => String.eqb q (resource ++ ":" ++ action)) (Permissions p)
  end.

Section Rule.
Context (db : VisDb) (settings : option AgentAssignmentConfig) (perms : option UserPermissions).
Context (userID orgID : uuid).

Definition is_user (u : uuid) (o : option uuid) : bool := match o with Some x => N.eqb x u | None => false end.

(** ** The decision *)
Definition is_active (contact : uuid) (t : AgentTransfer) : bool :=
  N.eqb (at_Org t) orgID && N.eqb (at_Contact t) contact && at_Active t && negb (at_Deleted t).
Definition activeTransferFor (contact : uuid) : option AgentTransfer :=
  sql_min (fun a b => at_TransferredAt b <=? at_TransferredAt a) (List.filter (is_active contact) (v_transfers db)).

Definition userInTeam (user team : uuid) : bool :=
  0 <? sql_count (fun m => N.eqb (mb_TeamID m) team && N.eqb (mb_UserID m) user && negb (mb_Deleted m)) (v_members db).
Definition teams_of (user : uuid) : list uuid :=
  map mb_TeamID (List.filter (fun m => N.eqb (mb_UserID m) user && negb (mb_Deleted m)) (v_members db)).
Definition canViewTeamMember (viewer owner : uuid) : bool :=
  0 <? sql_count (fun m => N.eqb (mb_UserID m) owner && existsb (N.eqb (mb_TeamID m)) (teams_of viewer) && negb (mb_Deleted m)) (v_members db).

(** [getAccountDefaultTeamCached] when the cache holds nothing. *)
Definition accountDefaultTeamID (c : Contact) : option uuid :=
  if String.eqb (ct_Account c) "" then None
  else match sql_first (fun w => N.eqb (wa_Org w) orgID && String.eqb (wa_Name w) (ct_Account c) && negb (wa_Deleted w)) (v_accounts db) with
       | Some w => wa_DefaultTeamID w
       | None => None
       end.

Definition userOwnsContact (c : Contact) (ownerWins : bool) : bool :=
  let other := sql_count (fun t => is_active (ct_ID c) t &&
                 match at_AgentID t with Some a => negb (N.eqb a userID) | None => false end) (v_transfers db) in
  let mine := sql_count (fun t => is_active (ct_ID c) t && is_user userID (at_AgentID t)) (v_transfers db) in
  (is_user userID (ct_AssignedUserID c) && (negb ownerWins || (other =? 0))) || (0 <? mine).

Record conversationAccess := MkAccess { canView : bool; canInteract : bool }.
Definition both (ok : bool) : conversationAccess := MkAccess ok ok.

Definition authorizeConversation (c : Contact) : conversationAccess :=
  match settings with
  | Some (MkSettings true _) =>
      if HasPermission perms "conversations" "view_all" then both true
      else
        let hasViewTeam := HasPermission perms "conversations" "view_team" in
        let mine_or_team owner := N.eqb owner userID || (hasViewTeam && canViewTeamMember userID owner) in
        match activeTransferFor (ct_ID c) with
        | Some t =>
            match at_AgentID t, at_TeamID t with
            | Some agent, _ => both (mine_or_team agent)
            | None, Some team => both (userInTeam userID team)
            | None, None =>
                match accountDefaultTeamID c with Some team => both (userInTeam userID team) | None => both false end
            end
        | None =>
            match ct_AssignedUserID c with
            | Some owner => both (mine_or_team owner)
            | None =>
                match match ct_TeamID c with Some t => Some t | None => accountDefaultTeamID c end with
                | Some team => both (userInTeam userID team)
                | None => both false
                end
            end
        end
  | _ =>
      if HasPermission perms "contacts" "read" then both true
      else
        let ownerWins := match settings with Some s => AwayReassignEnabled s | None => false end in
        both (userOwnsContact c ownerWins)
  end.
Definition canViewConversation (c : Contact) : bool := canView (authorizeConversation c).
Definition canInteractWithConversation (c : Contact) : bool := canInteract (authorizeConversation c).

(** ** The scope: the [WHERE] of [scopeVisibleConversations] on one contact *)

(** [id IN (SELECT contact_id FROM agent_transfers WHERE organization_id = ? AND status =
    'active' AND p)] *)
Definition in_transfers (c : Contact) (p : AgentTransfer -> bool) : bool :=
  existsb (fun t => N.eqb (at_Contact t) (ct_ID c))
    (List.filter (fun t => N.eqb (at_Org t) orgID && at_Active t && p t && negb (at_Deleted t)) (v_transfers db)).
(** [x IN (SELECT ...)], not true of a [NULL]. *)
Definition in_list (o : option uuid) (l : list uuid) : bool := match o with Some x => existsb (N.eqb x) l | None => false end.
Definition acctDefault (c : Contact) (teams : list uuid) : bool :=
  existsb (fun w => String.eqb (wa_Name w) (ct_Account c) && N.eqb (wa_Org w) (ct_Org c) && in_list (wa_DefaultTeamID w) teams) (v_accounts db).
Definition is_null (o : option uuid) : bool := match o with None => true | _ => false end.

Definition scopeVisibleConversations (c : Contact) : bool :=
  match settings with
  | Some (MkSettings true _) =>
      if HasPermission perms "conversations" "view_all" then true
      else
        let myTeams := teams_of userID in
        let activeSub := in_transfers c (fun _ => true) in
        let activeAgentMine := in_transfers c (fun t => is_user userID (at_AgentID t)) in
        let activeTeamMine := in_transfers c (fun t => is_null (at_AgentID t) && in_list (at_TeamID t) myTeams) in
        let activeGeneral := in_transfers c (fun t => is_null (at_AgentID t) && is_null (at_TeamID t)) in
        let cond :=
          activeAgentMine || activeTeamMine || (activeGeneral && acctDefault c myTeams) ||
          (negb activeSub && is_user userID (ct_AssignedUserID c)) ||
          (negb activeSub && is_null (ct_AssignedUserID c) && in_list (ct_TeamID c) myTeams) ||
          (negb activeSub && is_null (ct_AssignedUserID c) && is_null (ct_TeamID c) && acctDefault c myTeams) in
        if HasPermission perms "conversations" "view_team" then
          let viewTeamScope := map mb_UserID (List.filter (fun m => existsb (N.eqb (mb_TeamID m)) myTeams && negb (mb_Deleted m)) (v_members db)) in
          let activeAgentTeam := in_transfers c (fun t => in_list (at_AgentID t) viewTeamScope) in
          cond || activeAgentTeam || (negb activeSub && in_list (ct_AssignedUserID c) viewTeamScope)
        else cond
  | _ =>
      if HasPermission perms "contacts" "read" then true
      else
        let mine := in_transfers c (fun t => is_user userID (at_AgentID t)) in
        if match settings with Some s => AwayReassignEnabled s | None => false end then
          let ownedByOther := in_transfers c (fun t => match at_AgentID t with Some a => negb (N.eqb a userID) | None => false end) in
          (is_user userID (ct_AssignedUserID c) && negb ownedByOther) || mine
        else is_user userID (ct_AssignedUserID c) || mine
  end.
End Rule.

(** ** The two agree *)
Section Agreement.
Context (db : VisDb) (org : uuid) (c : Contact).

(** The unique index of one active attendance per contact. *)
Definition one_active : Prop :=
  forall t t', t ∈ v_transfers db -> t' ∈ v_transfers db -> is_active org (ct_ID c) t = true -> is_active org (ct_ID c) t' = true -> t = t'.
(** The unique index of account names, for those that are not deleted. *)
Definition accounts_unique : Prop :=
  forall w w', w ∈ v_accounts db -> w' ∈ v_accounts db -> wa_Deleted w = false -> wa_Deleted w' = false ->
    wa_Org w = org -> wa_Org w' = org -> wa_Name w = ct_Account c -> wa_Name w' = ct_Account c -> w = w'.
(** The default team of the account decides: neither an attendance nor the portfolio names an
    agent or a team. *)
Definition default_team_governs : Prop :=
  match activeTransferFor db org (ct_ID c) with
  | Some t => at_AgentID t = None /\ at_TeamID t = None
  | None => ct_AssignedUserID c = None /\ ct_TeamID c = None
  end.
(** A deleted (or nameless) account under the contact's name has a default team of the user. *)
Definition stale_account (user : uuid) : Prop :=
  exists w team, w ∈ v_accounts db /\ wa_Org w = org /\ wa_Name w = ct_Account c /\ wa_DefaultTeamID w = Some team /\
    userInTeam db user team = true /\ (wa_Deleted w = true \/ wa_Name w = "").
(** What the listings show and nobody may open. *)
Definition listed_by_stale_account (settings : option AgentAssignmentConfig) (perms : option UserPermissions) (user : uuid) : Prop :=
  (exists away, settings = Some (MkSettings true away)) /\ HasPermission perms "conversations" "view_all" = false /\
  default_team_governs /\ stale_account user.

Lemma in_transfers_eq p :
  in_transfers db org c p = (0 <? sql_count (fun t => is_active org (ct_ID c) t && p t) (v_transfers db)).
Proof.
  apply eq_true_iff_eq. rewrite Z.ltb_lt, sql_count_pos. unfold in_transfers, is_active. rewrite existsb_exists.
  setoid_rewrite List.filter_In. setoid_rewrite <- list_elem_of_In. setoid_rewrite andb_true_iff. setoid_rewrite andb_true_iff.
  setoid_rewrite andb_true_iff. setoid_rewrite andb_true_iff. naive_solver.
Qed.

Lemma in_transfers_active p : one_active ->
  in_transfers db org c p = match activeTransferFor db org (ct_ID c) with Some t => p t | None => false end.
Proof.
  intros H1. rewrite in_transfers_eq. apply eq_true_iff_eq. rewrite Z.ltb_lt, sql_count_pos. unfold activeTransferFor.
  destruct (sql_min _ _) as [t |] eqn:E.
  - apply sql_min_spec in E as [Ht _]; [| intros a b; rewrite Z.leb_gt, Z.leb_le; lia | intros a b x; rewrite !Z.leb_le; lia].
    rewrite list_elem_of_In, List.filter_In, <- list_elem_of_In in Ht. destruct Ht as [Ht Ha]. split.
    + intros (t' & Ht' & [Ha' Hp]%andb_true_iff). by rewrite (H1 t t' Ht Ht' Ha Ha').
    + intros Hp. exists t. by rewrite Ha.
  - apply sql_min_none in E. split; [| done]. intros (t' & Ht' & [Ha' _]%andb_true_iff).
    assert (Hin : t' ∈ List.filter (is_active org (ct_ID c)) (v_transfers db)) by (rewrite list_elem_of_In, List.filter_In, <- list_elem_of_In; done).
    rewrite E in Hin. by apply not_elem_of_nil in Hin.
Qed.

Lemma in_teams_of user team : existsb (N.eqb team) (teams_of db user) = userInTeam db user team.
Proof.
  apply eq_true_iff_eq. unfold userInTeam, teams_of. rewrite Z.ltb_lt, sql_count_pos, existsb_exists.
  setoid_rewrite in_map_iff. setoid_rewrite List.filter_In. setoid_rewrite <- list_elem_of_In. setoid_rewrite N.eqb_eq.
  setoid_rewrite andb_true_iff. setoid_rewrite andb_true_iff. setoid_rewrite N.eqb_eq. naive_solver.
Qed.

Lemma in_team_scope viewer owner :
  existsb (N.eqb owner) (map mb_UserID (List.filter (fun m => existsb (N.eqb (mb_TeamID m)) (teams_of db viewer) && negb (mb_Deleted m)) (v_members db)))
  = canViewTeamMember db viewer owner.
Proof.
  apply eq_true_iff_eq. unfold canViewTeamMember. rewrite Z.ltb_lt, sql_count_pos, existsb_exists.
  setoid_rewrite in_map_iff. setoid_rewrite List.filter_In. setoid_rewrite <- list_elem_of_In. setoid_rewrite N.eqb_eq.
  setoid_rewrite andb_true_iff. setoid_rewrite andb_true_iff. setoid_rewrite N.eqb_eq. naive_solver.
Qed.

Lemma acct_default_iff user : ct_Org c = org -> accounts_unique ->
  acctDefault db c (teams_of db user) = true <->
  match accountDefaultTeamID db org c with Some team => userInTeam db user team | None => false end = true \/ stale_account user.
Proof.
  intros Ho Hu. unfold acctDefault, accountDefaultTeamID. rewrite existsb_exists, Ho.
  setoid_rewrite <- list_elem_of_In. setoid_rewrite andb_true_iff. setoid_rewrite andb_true_iff. setoid_rewrite String.eqb_eq.
  setoid_rewrite N.eqb_eq. split.
  - intros (w & Hw & [Hn Hworg] & Hin). destruct (wa_DefaultTeamID w) as [team |] eqn:Et; [| done]. simpl in Hin. rewrite in_teams_of in Hin.
    destruct (wa_Deleted w) eqn:Hdel; [right; exists w, team; tauto |].
    destruct (String.eqb_spec (ct_Account c) ""); [right; exists w, team; split_and!; try done; right; congruence |]. left.
    destruct (sql_first _ _) as [w' |] eqn:Ef.
    + apply find_some in Ef as [Hw' Hp]. rewrite !andb_true_iff, N.eqb_eq, String.eqb_eq, negb_true_iff in Hp. destruct Hp as [[? ?] ?].
      rewrite (Hu w' w) by (try done; by apply list_elem_of_In). by rewrite Et.
    + exfalso. unfold sql_first in Ef. apply list_elem_of_In in Hw as Hw'. pose proof (find_none _ _ Ef w Hw') as Hnone. cbv beta in Hnone.
      by rewrite Hworg, Hn, N.eqb_refl, String.eqb_refl, Hdel in Hnone.
  - intros [Hin | (w & team & Hw & Hworg & Hn & Et & Hin & _)]; [| exists w; rewrite Et; simpl; by rewrite in_teams_of].
    destruct (String.eqb_spec (ct_Account c) ""); [done |]. destruct (sql_first _ _) as [w |] eqn:Ef; [| done].
    apply find_some in Ef as [Hw Hp]. rewrite !andb_true_iff, N.eqb_eq, String.eqb_eq in Hp.
    destruct (wa_DefaultTeamID w) as [team |] eqn:Et; [| done]. exists w. rewrite list_elem_of_In. split; [done |].
    rewrite Et. simpl. rewrite in_teams_of. tauto.
Qed.
End Agreement.

(** C21: what the listings show and what may be opened.  For a contact of the organization, in every
    mode and for every state of attendances, portfolio and teams (with at most one active attendance
    of the contact and unique names among the accounts that are not deleted): the SQL scope shows
    the contact exactly when its conversation may be opened, or, in strict mode and without
    view_all, when the default team of its account decides and a deleted (or nameless) account of
    that name has a default team the user is in; and interacting is allowed exactly when seeing
    is. *)
Theorem visibility_scope_exact db settings perms user org c :
  ct_Org c = org -> one_active db org c -> accounts_unique db org c ->
  (scopeVisibleConversations db settings perms user org c = true <->
   canViewConversation db settings perms user org c = true \/ listed_by_stale_account db org c settings perms user) /\
  canInteractWithConversation db settings perms user org c = canViewConversation db settings perms user org c.
Proof.
  intros Ho H1 Hal. split.
  2: { unfold canInteractWithConversation, canViewConversation, authorizeConversation. repeat case_match; done. }
  unfold scopeVisibleConversations, canViewConversation, authorizeConversation, listed_by_stale_account.
  assert (Hoff : forall ownerWins : bool,
    (if ownerWins then (is_user user (ct_AssignedUserID c) && negb (in_transfers db org c (fun t =>
         match at_AgentID t with Some a => negb (N.eqb a user) | None => false end))) || in_transfers db org c (fun t => is_user user (at_AgentID t))
     else is_user user (ct_AssignedUserID c) || in_transfers db org c (fun t => is_user user (at_AgentID t))) =
    userOwnsContact db user org c ownerWins).
  { intros ownerWins. unfold userOwnsContact. rewrite !in_transfers_eq.
    set (o := sql_count _ _). set (m := sql_count _ _). assert (0 <= o) by apply sql_count_nonneg. destruct ownerWins; simpl.
    - do 2 f_equal. apply eq_true_iff_eq. rewrite negb_true_iff, Z.ltb_ge, Z.eqb_eq. lia.
    - by rewrite andb_true_r. }
  destruct settings as [[[] ow] |]; cbn [AwayReassignEnabled].
  2: { destruct (HasPermission _ _ _); [naive_solver | rewrite Hoff; naive_solver]. }
  2: { destruct (HasPermission _ _ _); [naive_solver | rewrite (Hoff false); naive_solver]. }
  destruct (HasPermission perms "conversations" "view_all"); [naive_solver |].
  rewrite !(in_transfers_active db org c _ H1). pose proof (acct_default_iff db org c user Ho Hal) as HD.
  set (D := acctDefault db c (teams_of db user)) in *. unfold default_team_governs. assert (Haway : exists away, Some (MkSettings true ow) = Some (MkSettings true away)) by by exists ow.
  destruct (activeTransferFor db org (ct_ID c)) as [t |]; simpl.
  - destruct (at_AgentID t) as [agent |]; simpl; [| destruct (at_TeamID t) as [team |]; simpl].
    + rewrite in_team_scope. destruct (HasPermission _ _ _), (N.eqb agent user), (canViewTeamMember db user agent); intuition congruence.
    + rewrite in_teams_of. destruct (HasPermission _ _ _), (userInTeam db user team); intuition congruence.
    + destruct (HasPermission _ _ _); rewrite ?orb_false_r; rewrite HD; destruct (accountDefaultTeamID db org c) as [team |]; [destruct (userInTeam db user team) | | destruct (userInTeam db user team) |]; intuition congruence.
  - destruct (ct_AssignedUserID c) as [owner |]; simpl; [| destruct (ct_TeamID c) as [team |]; simpl].
    + rewrite in_team_scope. destruct (HasPermission _ _ _), (N.eqb owner user), (canViewTeamMember db user owner); intuition congruence.
    + rewrite in_teams_of. destruct (HasPermission _ _ _), (userInTeam db user team); intuition congruence.
    + destruct (HasPermission _ _ _); rewrite ?orb_false_r; rewrite HD; destruct (accountDefaultTeamID db org c) as [team |]; [destruct (userInTeam db user team) | | destruct (userInTeam db user team) |]; intuition congruence.
Qed.

(** ** Witnesses: a team's own number *)
Definition ex_vis_db (deleted : bool) : VisDb :=
  MkVisDb [] [MkMember 4 7 false] [MkAccount 9 "sales" (Some 4%N) deleted].
Definition ex_strict : option AgentAssignmentConfig := Some (MkSettings true false).
Definition ex_perms : option UserPermissions := Some (MkPerms false ["contacts:read"]).
Definition ex_contact : Contact := MkContact 3 9 "sales" None None.

Lemma visibility_scope_exact_witness :
  scopeVisibleConversations (ex_vis_db false) ex_strict ex_perms 7 9 ex_contact = true /\
  (scopeVisibleConversations (ex_vis_db true) ex_strict ex_perms 7 9 ex_contact = true <->
   canViewConversation (ex_vis_db true) ex_strict ex_perms 7 9 ex_contact = true \/ listed_by_stale_account (ex_vis_db true) 9 ex_contact ex_strict ex_perms 7).
Proof.
  split; [vm_compute; reflexivity |].
  refine (proj1 (visibility_scope_exact (ex_vis_db true) ex_strict ex_perms 7 9 ex_contact eq_refl _ _)).
  - intros t t' Ht. simpl in Ht. set_solver.
  - intros w w' Hw Hw' _ _ _ _ _ _. simpl in Hw, Hw'. apply list_elem_of_singleton in Hw as ->. by apply list_elem_of_singleton in Hw' as ->.
Defined.

(** The account's deletion matters: the scope does not look at it, so in strict mode the
    listings of a team still show the conversations of a deleted account of which the team
    was the default, and none of them can be opened. *)
Theorem deleted_account_still_listed :
  exists db settings perms user org c,
    ct_Org c = org /\ one_active db org c /\
    scopeVisibleConversations db settings perms user org c = true /\
    canViewConversation db settings perms user org c = false.
Proof.
  exists (ex_vis_db true), ex_strict, ex_perms, 7%N, 9%N, ex_contact. split_and!; [done | | by vm_compute | by vm_compute].
  intros t t' Ht. simpl in Ht. set_solver.
Qed.
