(* ===== verification/Attendance.v ===== *)
(** Attendances in the database (the statements of [internal/handlers/distribution.go],
    [agent_transfers.go], [contact_status.go], [customer_waiting.go], [away_tolerance.go] and
    [sla_processor.go], the index of [internal/database/active_transfer_index.go]): the rows,
    every statement and transaction on them, and what no interleaving of them can break. *)
From S2P Require Import Prelude Effects Sql Assignment BusinessHours.

(** ** Rows *)
Inductive ContactStatus := ContactStatusNew | ContactStatusInProgress | ContactStatusResolved.
#[global] Instance ContactStatus_eq_dec : EqDecision ContactStatus.
Proof. solve_decision. Defined.
Inductive TransferSource := SourceManual | SourceFlow | SourceKeyword | SourceChatbotDisabled | SourceAgentInitiated | SourceAIConfirmed | SourceOther (s : string).
#[global] Instance TransferSource_eq_dec : EqDecision TransferSource.
Proof. solve_decision. Defined.

Record SLATracking := MkSLA {
  ResponseDeadline : option instant; ResolutionDeadline : option instant; EscalationAt : option instant; ExpiresAt : option instant;
  PickedUpAt : option instant; FirstResponseAt : option instant; EscalationLevel : Z; EscalatedAt : option instant;
  Breached : bool; BreachedAt : option instant }.
Definition new_sla : SLATracking := MkSLA None None None None None None 0 None false None.

(** The columns no statement changes once the row is there. *)
Record Opening := MkOpening {
  op_ID : uuid; op_Org : uuid; op_Contact : uuid; op_Account : string; op_Phone : string; op_Source : TransferSource;
  op_RoutingReason : option string; op_TransferredAt : instant }.
Record AgentTransfer := MkAttendance {
  tr_Open : Opening; tr_Status : TransferStatus; tr_AgentID : option uuid; tr_TeamID : option uuid; tr_By : option uuid;
  tr_Notes : string; tr_ResumedAt : option instant; tr_ResumedBy : option uuid; tr_SLA : SLATracking; tr_Deleted : bool }.
Definition tr_ID (t : AgentTransfer) : uuid := op_ID (tr_Open t).
Definition tr_Org (t : AgentTransfer) : uuid := op_Org (tr_Open t).
Definition tr_Contact (t : AgentTransfer) : uuid := op_Contact (tr_Open t).
Definition tr_TransferredAt (t : AgentTransfer) : instant := op_TransferredAt (tr_Open t).

Record Contact := MkContactRow {
  c_ID : uuid; c_Org : uuid; c_Account : string; c_Phone : string; c_AssignedUserID : option uuid; c_TeamID : option uuid;
  c_Status : ContactStatus; c_LastMessageAt : option instant; c_ChatbotLastMessageAt : option instant; c_ReminderSent : bool;
  c_Deleted : bool }.
Record ChatbotSession := MkSession { cs_Org : uuid; cs_Contact : uuid; cs_Active : bool; cs_CompletedAt : option instant; cs_Deleted : bool }.
Record SalesOpportunity := MkOpp {
  so_ID : uuid; so_Org : uuid; so_Contact : uuid; so_Aberta : bool; so_Direcionada : bool; so_StageChangedAt : instant;
  so_AssignedUserID : option uuid; so_Breached : bool; so_BreachedAt : option instant; so_Deleted : bool }.
Record Occurrence := MkOccurrence { oc_Org : uuid; oc_SLA : SLATracking; oc_ClosedAt : option instant; oc_Deleted : bool }.
Record MessageRow := MkMessageRow {
  m_Org : uuid; m_Contact : uuid; m_Incoming : bool; m_SentBy : option uuid; m_CreatedAt : instant; m_Deleted : bool }.
(** [user_availability_logs]. *)
Record AvailabilityLog := MkLog { al_Org : uuid; al_User : uuid; al_Available : bool; al_StartedAt : instant; al_EndedAt : option instant }.
(** [agent_transfer_assignments], the history of who was responsible. *)
Record OwnershipRow := MkOwnership {
  ow_Org : uuid; ow_Transfer : uuid; ow_Team : option uuid; ow_From : option uuid; ow_To : option uuid; ow_Reason : string;
  ow_Actor : option uuid; ow_At : instant; ow_Level : Z; ow_Breached : bool }.

(** The settings of an organization (the account [""] is its default row). *)
Record BusinessHoursConfig := MkHours { bh_Enabled : bool; bh_Hours : list json; bh_OutOfHoursMessage : string }.
Record AgentAssignmentConfig := MkAgentAssignment {
  AllowQueuePickup : bool; AssignToSameAgent : bool; AwayReassignEnabled : bool; AwayReassignAfterMins : Z }.
Record SLAConfig := MkSLAConfig {
  sla_Enabled : bool; ResponseMinutes : Z; ResolutionMinutes : Z; EscalationMinutes : Z; AutoCloseHours : Z;
  AutoCloseMessage : string; WarningMessage : string; EscalationNotifyIDs : list string; OccurrenceEnabled : bool;
  SalesOpportunityEnabled : bool }.
Record ClientInactivityConfig := MkInactivity {
  ReminderEnabled : bool; ReminderMinutes : Z; ReminderMessage : string; AutoCloseMinutes : Z; ci_AutoCloseMessage : string;
  CloseInactiveAttendances : bool }.
Record ChatbotSettings := MkChatbotSettings {
  st_Org : uuid; st_Account : string; st_IsEnabled : bool; BusinessHours : BusinessHoursConfig; AgentAssignment : AgentAssignmentConfig;
  SLA : SLAConfig; ClientInactivity : ClientInactivityConfig; st_Deleted : bool }.

Record Att := MkAtt {
  a_transfers : list AgentTransfer; a_contacts : list Contact; a_sessions : list ChatbotSession; a_opps : list SalesOpportunity;
  a_occurrences : list Occurrence; a_messages : list MessageRow; a_logs : list AvailabilityLog; a_settings : list ChatbotSettings;
  a_history : list OwnershipRow; a_teams : TeamDb }.
Definition with_transfers (s : Att) x := MkAtt x (a_contacts s) (a_sessions s) (a_opps s) (a_occurrences s) (a_messages s) (a_logs s) (a_settings s) (a_history s) (a_teams s).
Definition with_contacts (s : Att) x := MkAtt (a_transfers s) x (a_sessions s) (a_opps s) (a_occurrences s) (a_messages s) (a_logs s) (a_settings s) (a_history s) (a_teams s).
Definition with_sessions (s : Att) x := MkAtt (a_transfers s) (a_contacts s) x (a_opps s) (a_occurrences s) (a_messages s) (a_logs s) (a_settings s) (a_history s) (a_teams s).
Definition with_opps (s : Att) x := MkAtt (a_transfers s) (a_contacts s) (a_sessions s) x (a_occurrences s) (a_messages s) (a_logs s) (a_settings s) (a_history s) (a_teams s).
Definition with_occurrences (s : Att) x := MkAtt (a_transfers s) (a_contacts s) (a_sessions s) (a_opps s) x (a_messages s) (a_logs s) (a_settings s) (a_history s) (a_teams s).
Definition with_messages (s : Att) x := MkAtt (a_transfers s) (a_contacts s) (a_sessions s) (a_opps s) (a_occurrences s) x (a_logs s) (a_settings s) (a_history s) (a_teams s).
Definition with_history (s : Att) x := MkAtt (a_transfers s) (a_contacts s) (a_sessions s) (a_opps s) (a_occurrences s) (a_messages s) (a_logs s) (a_settings s) x (a_teams s).
Definition with_teams (s : Att) x := MkAtt (a_transfers s) (a_contacts s) (a_sessions s) (a_opps s) (a_occurrences s) (a_messages s) (a_logs s) (a_settings s) (a_history s) x.

Inductive att_error := AErrDb | AErrUnique (index : string) | ErrTransferAlreadyActive | ErrConversationOwned.
#[global] Instance att_error_db : DbErr att_error := AErrDb.
#[global] Instance att_error_eq_dec : EqDecision att_error.
Proof. solve_decision. Defined.

(** ** Columns *)
Definition set_sla (f : SLATracking -> SLATracking) (t : AgentTransfer) : AgentTransfer :=
  MkAttendance (tr_Open t) (tr_Status t) (tr_AgentID t) (tr_TeamID t) (tr_By t) (tr_Notes t) (tr_ResumedAt t) (tr_ResumedBy t) (f (tr_SLA t)) (tr_Deleted t).
Definition set_agent (agent : option uuid) (t : AgentTransfer) : AgentTransfer :=
  MkAttendance (tr_Open t) (tr_Status t) agent (tr_TeamID t) (tr_By t) (tr_Notes t) (tr_ResumedAt t) (tr_ResumedBy t) (tr_SLA t) (tr_Deleted t).
Definition set_team (team : option uuid) (t : AgentTransfer) : AgentTransfer :=
  MkAttendance (tr_Open t) (tr_Status t) (tr_AgentID t) team (tr_By t) (tr_Notes t) (tr_ResumedAt t) (tr_ResumedBy t) (tr_SLA t) (tr_Deleted t).
Definition set_by (by_ : option uuid) (t : AgentTransfer) : AgentTransfer :=
  MkAttendance (tr_Open t) (tr_Status t) (tr_AgentID t) (tr_TeamID t) by_ (tr_Notes t) (tr_ResumedAt t) (tr_ResumedBy t) (tr_SLA t) (tr_Deleted t).
Definition sla_deadlines (r1 r2 e x : option instant) (s : SLATracking) : SLATracking :=
  MkSLA r1 r2 e x (PickedUpAt s) (FirstResponseAt s) (EscalationLevel s) (EscalatedAt s) (Breached s) (BreachedAt s).
Definition sla_pickup (at_ : option instant) (s : SLATracking) : SLATracking :=
  MkSLA (ResponseDeadline s) (ResolutionDeadline s) (EscalationAt s) (ExpiresAt s) at_ (FirstResponseAt s) (EscalationLevel s) (EscalatedAt s) (Breached s) (BreachedAt s).
Definition sla_breach (at_ : option instant) (s : SLATracking) : SLATracking :=
  MkSLA (ResponseDeadline s) (ResolutionDeadline s) (EscalationAt s) (ExpiresAt s) (PickedUpAt s) (FirstResponseAt s) (EscalationLevel s) (EscalatedAt s) true at_.
Definition sla_response (at_ : option instant) (s : SLATracking) : SLATracking :=
  MkSLA (ResponseDeadline s) (ResolutionDeadline s) (EscalationAt s) (ExpiresAt s) (PickedUpAt s) at_ (EscalationLevel s) (EscalatedAt s) (Breached s) (BreachedAt s).
Definition sla_expiry (at_ : option instant) (s : SLATracking) : SLATracking :=
  MkSLA (ResponseDeadline s) (ResolutionDeadline s) (EscalationAt s) at_ (PickedUpAt s) (FirstResponseAt s) (EscalationLevel s) (EscalatedAt s) (Breached s) (BreachedAt s).
Definition sla_escalation_at (at_ : option instant) (s : SLATracking) : SLATracking :=
  MkSLA (ResponseDeadline s) (ResolutionDeadline s) at_ (ExpiresAt s) (PickedUpAt s) (FirstResponseAt s) (EscalationLevel s) (EscalatedAt s) (Breached s) (BreachedAt s).
Definition sla_level (level : Z) (at_ : option instant) (s : SLATracking) : SLATracking :=
  MkSLA (ResponseDeadline s) (ResolutionDeadline s) (EscalationAt s) (ExpiresAt s) (PickedUpAt s) (FirstResponseAt s) level at_ (Breached s) (BreachedAt s).

(** The pickup columns of an assignment: [picked_up_at], and [sla_breached_at] when the pickup
    writes a breach. *)
Record PickupUpdate := MkPickup { pk_At : instant; pk_Breach : option (option instant) }.
Definition apply_pickup (p : option PickupUpdate) (s : SLATracking) : SLATracking :=
  match p with
  | None => s
  | Some p => match pk_Breach p with Some b => sla_breach b (sla_pickup (Some (pk_At p)) s) | None => sla_pickup (Some (pk_At p)) s end
  end.
(** The columns a move writes. *)
Record MoveUpdate := MkMove { mv_To : option uuid; mv_Team : option (option uuid); mv_Pickup : option PickupUpdate }.
Definition apply_move (u : MoveUpdate) (t : AgentTransfer) : AgentTransfer :=
  let t := set_sla (apply_pickup (mv_Pickup u)) (set_agent (mv_To u) t) in
  match mv_Team u with Some team => set_team team t | None => t end.
(** The columns a close writes. *)
Inductive CloseStatus := CloseResumed | CloseExpired.
Definition closed_status (c : CloseStatus) : TransferStatus :=
  match c with CloseResumed => TransferResumed | CloseExpired => TransferExpired end.
Record CloseUpdate := MkClose { cl_Status : CloseStatus; cl_ResumedAt : instant; cl_ResumedBy : option (option uuid); cl_Notes : option string }.
Definition apply_close (u : CloseUpdate) (t : AgentTransfer) : AgentTransfer :=
  MkAttendance (tr_Open t) (closed_status (cl_Status u)) (tr_AgentID t) (tr_TeamID t) (tr_By t)
    (match cl_Notes u with Some n => n | None => tr_Notes t end) (Some (cl_ResumedAt u))
    (match cl_ResumedBy u with Some b => b | None => tr_ResumedBy t end) (tr_SLA t) (tr_Deleted t).
Definition set_assigned (u : option uuid) (c : Contact) : Contact :=
  MkContactRow (c_ID c) (c_Org c) (c_Account c) (c_Phone c) u (c_TeamID c) (c_Status c) (c_LastMessageAt c) (c_ChatbotLastMessageAt c) (c_ReminderSent c) (c_Deleted c).
Definition set_contact_team (u : option uuid) (c : Contact) : Contact :=
  MkContactRow (c_ID c) (c_Org c) (c_Account c) (c_Phone c) (c_AssignedUserID c) u (c_Status c) (c_LastMessageAt c) (c_ChatbotLastMessageAt c) (c_ReminderSent c) (c_Deleted c).
Definition set_status (u : ContactStatus) (c : Contact) : Contact :=
  MkContactRow (c_ID c) (c_Org c) (c_Account c) (c_Phone c) (c_AssignedUserID c) (c_TeamID c) u (c_LastMessageAt c) (c_ChatbotLastMessageAt c) (c_ReminderSent c) (c_Deleted c).
Definition set_tracking (at_ : option instant) (sent : bool) (c : Contact) : Contact :=
  MkContactRow (c_ID c) (c_Org c) (c_Account c) (c_Phone c) (c_AssignedUserID c) (c_TeamID c) (c_Status c) (c_LastMessageAt c) at_ sent (c_Deleted c).

(** ** What the statements select *)
Definition is_status (st : TransferStatus) (t : AgentTransfer) : bool := bool_decide (tr_Status t = st).
Definition has_id (id : uuid) (t : AgentTransfer) : bool := N.eqb (tr_ID t) id && negb (tr_Deleted t).
(** The predicate of the partial unique index, and of "the contact's active attendance". *)
Definition active_of (org contact : uuid) (t : AgentTransfer) : bool :=
  N.eqb (tr_Org t) org && N.eqb (tr_Contact t) contact && is_status TransferActive t && negb (tr_Deleted t).
Definition newest_first (a b : AgentTransfer) : bool :=
  (tr_TransferredAt b <? tr_TransferredAt a) || ((tr_TransferredAt b =? tr_TransferredAt a) && (tr_ID a <=? tr_ID b)%N).
Definition oldest_first (a b : AgentTransfer) : bool :=
  (tr_TransferredAt a <? tr_TransferredAt b) || ((tr_TransferredAt a =? tr_TransferredAt b) && (tr_ID a <=? tr_ID b)%N).
Definition activeTransferFor (org contact : uuid) (s : Att) : option AgentTransfer :=
  sql_min newest_first (List.filter (active_of org contact) (a_transfers s)).
Definition hasActiveAgentTransfer (org contact : uuid) (s : Att) : bool := 0 <? sql_count (active_of org contact) (a_transfers s).
Definition active_of_agent (org agent : uuid) (t : AgentTransfer) : bool :=
  bool_decide (tr_AgentID t = Some agent) && N.eqb (tr_Org t) org && is_status TransferActive t && negb (tr_Deleted t).

(** [waitingLateralSQL] and [customerWaitingCond]: the newest instants of the two sides. *)
Definition last_instant (p : MessageRow -> bool) (s : Att) : option instant :=
  m_CreatedAt <$> sql_min (fun a b => m_CreatedAt b <=? m_CreatedAt a) (List.filter (fun m => p m && negb (m_Deleted m)) (a_messages s)).
Definition last_in (t : AgentTransfer) : Att -> option instant :=
  last_instant (fun m => N.eqb (m_Org m) (tr_Org t) && N.eqb (m_Contact m) (tr_Contact t) && m_Incoming m).
Definition last_agent (t : AgentTransfer) : Att -> option instant :=
  last_instant (fun m => N.eqb (m_Org m) (tr_Org t) && N.eqb (m_Contact m) (tr_Contact t) && negb (m_Incoming m) && bool_decide (is_Some (m_SentBy m))).
Definition customerWaitingCond (t : AgentTransfer) (s : Att) : bool :=
  match last_in t s, last_agent t s with
  | Some i, Some a => a <? i
  | Some _, None => true
  | None, _ => false
  end.
Definition agentWaitingCond (t : AgentTransfer) (s : Att) : bool :=
  match last_agent t s, last_in t s with
  | Some a, Some i => i <=? a
  | Some _, None => true
  | None, _ => false
  end.
Definition customerWaitingTransferIDs (org agent : uuid) (s : Att) : list uuid :=
  map tr_ID (List.filter (fun t => active_of_agent org agent t && customerWaitingCond t s) (a_transfers s)).
(** The [COUNT] of [isCustomerWaiting]: by identifier, whatever the row's status. *)
Definition isCustomerWaiting (id : uuid) (s : Att) : bool :=
  0 <? sql_count (fun t => N.eqb (tr_ID t) id && customerWaitingCond t s) (a_transfers s).

(** An open away interval that began at or before [cutoff], of a user still marked away. *)
Definition is_away (s : Att) (user : uuid) : bool :=
  existsb (fun u => N.eqb (au_ID u) user && negb (au_IsAvailable u)) (t_users (a_teams s)).
Definition away_since (org : uuid) (cutoff : instant) (s : Att) (l : AvailabilityLog) : bool :=
  N.eqb (al_Org l) org && negb (al_Available l) && bool_decide (al_EndedAt l = None) && (al_StartedAt l <=? cutoff) && is_away s (al_User l).
Definition awayLongerThan (org agent : uuid) (tolerance : duration) (now : instant) (s : Att) : bool :=
  0 <? sql_count (fun l => away_since org (now - tolerance) s l && N.eqb (al_User l) agent) (a_logs s).
Definition awayAgents (org : uuid) (cutoff : instant) (s : Att) : list uuid :=
  remove_dups (map al_User (List.filter (fun l => away_since org cutoff s l && existsb (active_of_agent org (al_User l)) (a_transfers s)) (a_logs s))).

(** The rows of [TeamDb] the load counters count are the attendances. *)
Definition load_row (t : AgentTransfer) : Load TransferStatus :=
  MkLoad _ (tr_Org t) (tr_AgentID t) (tr_Status t) (tr_TransferredAt t) (tr_Deleted t).
Definition team_view (s : Att) : TeamDb :=
  MkTeamDb (t_users (a_teams s)) (t_teams (a_teams s)) (t_members (a_teams s)) (map load_row (a_transfers s)) (t_calls (a_teams s)) (t_callLogs (a_teams s)).

(** ** Statements *)
Definition ActiveTransferIndexName : string := "idx_agent_transfers_one_active_per_contact".

(** The columns the SLA pass writes on one row. *)
Inductive SLAUpdate :=
  | SetExpiresAt (at_ : instant)
  | SetEscalationAt (at_ : instant)
  | SetFirstResponseAt (at_ : instant)
  | Escalate (level : Z) (now : instant) (breach : bool).
Definition apply_sla (u : SLAUpdate) (s : SLATracking) : SLATracking :=
  match u with
  | SetExpiresAt x => sla_expiry (Some x) s
  | SetEscalationAt x => sla_escalation_at (Some x) s
  | SetFirstResponseAt x => sla_response (Some x) s
  | Escalate level now breach => let s := sla_level level (Some now) s in if breach then sla_breach (Some now) s else s
  end.

Inductive write : Type -> Type :=
  | WCreate (t : AgentTransfer) : write unit
  | WClaim (id agent : uuid) (p : option PickupUpdate) : write Z
  | WMove (id : uuid) (from : option uuid) (u : MoveUpdate) : write Z
  | WSLA (id : uuid) (u : SLAUpdate) : write unit
  | WMarkBreached (org : uuid) (now : instant) : write Z
  | WAssignContact (id : uuid) (user : option uuid) : write unit
  | WUnassignContact (id user : uuid) : write unit
  | WTracking (contact : uuid) (last : option instant) (sent : bool) : write unit
  | WReminderSent (contact : uuid) : write unit
  | WCancelSessions (org contact : uuid) (now : instant) : write unit
  | WAssignOpportunity (id agent : uuid) : write unit
  | WHistory (row : OwnershipRow) : write unit
  | WMarkOccurrences (org : uuid) (now : instant) (resolution : bool) : write unit
  | WMarkOpportunities (org : uuid) (now : instant) : write unit.

(** The rows the marking passes mark. *)
Definition overdue (now : instant) (d : option instant) : bool := match d with Some d => d <? now | None => false end.
Definition mark_breached (org : uuid) (now : instant) (t : AgentTransfer) : bool :=
  N.eqb (tr_Org t) org && is_status TransferActive t && negb (Breached (tr_SLA t)) && overdue now (ResponseDeadline (tr_SLA t)) &&
  bool_decide (tr_AgentID t = None) && negb (tr_Deleted t).
Definition mark_occurrence (org : uuid) (now : instant) (resolution : bool) (o : Occurrence) : bool :=
  N.eqb (oc_Org o) org && negb (Breached (oc_SLA o)) && negb (oc_Deleted o) &&
  (if resolution then overdue now (ResolutionDeadline (oc_SLA o)) && bool_decide (oc_ClosedAt o = None)
   else overdue now (ResponseDeadline (oc_SLA o)) && bool_decide (FirstResponseAt (oc_SLA o) = None)).
Definition mark_opportunity (org : uuid) (deadline : instant) (o : SalesOpportunity) : bool :=
  N.eqb (so_Org o) org && so_Direcionada o && so_Aberta o && (so_StageChangedAt o <? deadline) && negb (so_Breached o) && negb (so_Deleted o).

Definition update_transfers (p : AgentTransfer -> bool) (f : AgentTransfer -> AgentTransfer) (s : Att) : Att :=
  with_transfers s (sql_update p f (a_transfers s)).
Definition update_contacts (p : Contact -> bool) (f : Contact -> Contact) (s : Att) : Att :=
  with_contacts s (sql_update p f (a_contacts s)).
Definition contact_id (id : uuid) (c : Contact) : bool := N.eqb (c_ID c) id && negb (c_Deleted c).

Definition claimable (id : uuid) (t : AgentTransfer) : bool :=
  has_id id t && is_status TransferActive t && bool_decide (tr_AgentID t = None).
Definition movable (id : uuid) (from : option uuid) (t : AgentTransfer) : bool :=
  has_id id t && is_status TransferActive t && bool_decide (tr_AgentID t = from).

Definition run_write {X} (w : write X) (s : Att) : result att_error X * Att :=
  match w in write X return result att_error X * Att with
  | WCreate t =>
      if existsb (fun r => N.eqb (tr_ID r) (tr_ID t)) (a_transfers s) then (Err (AErrUnique "agent_transfers_pkey"), s)
      else if is_status TransferActive t && negb (tr_Deleted t) && existsb (active_of (tr_Org t) (tr_Contact t)) (a_transfers s)
      then (Err (AErrUnique ActiveTransferIndexName), s)
      else (Ok tt, with_transfers s (a_transfers s ++ [t]))
  | WClaim id agent p =>
      (Ok (sql_count (claimable id) (a_transfers s)),
       update_transfers (claimable id) (fun t => set_sla (apply_pickup p) (set_agent (Some agent) t)) s)
  | WMove id from u => (Ok (sql_count (movable id from) (a_transfers s)), update_transfers (movable id from) (apply_move u) s)
  | WSLA id u => (Ok tt, update_transfers (has_id id) (set_sla (apply_sla u)) s)
  | WMarkBreached org now =>
      (Ok (sql_count (mark_breached org now) (a_transfers s)), update_transfers (mark_breached org now) (set_sla (sla_breach (Some now))) s)
  | WAssignContact id user => (Ok tt, update_contacts (contact_id id) (set_assigned user) s)
  | WUnassignContact id user =>
      (Ok tt, update_contacts (fun c => contact_id id c && bool_decide (c_AssignedUserID c = Some user)) (set_assigned None) s)
  | WTracking id last sent => (Ok tt, update_contacts (contact_id id) (set_tracking last sent) s)
  | WReminderSent id => (Ok tt, update_contacts (contact_id id) (fun c => set_tracking (c_ChatbotLastMessageAt c) true c) s)
  | WCancelSessions org contact now =>
      (Ok tt, with_sessions s (sql_update (fun c => N.eqb (cs_Org c) org && N.eqb (cs_Contact c) contact && cs_Active c && negb (cs_Deleted c))
         (fun c => MkSession (cs_Org c) (cs_Contact c) false (Some now) (cs_Deleted c)) (a_sessions s)))
  | WAssignOpportunity id agent =>
      (Ok tt, with_opps s (sql_update (fun o => N.eqb (so_ID o) id && bool_decide (so_AssignedUserID o = None) && negb (so_Deleted o))
         (fun o => MkOpp (so_ID o) (so_Org o) (so_Contact o) (so_Aberta o) (so_Direcionada o) (so_StageChangedAt o) (Some agent)
                     (so_Breached o) (so_BreachedAt o) (so_Deleted o)) (a_opps s)))
  | WHistory row => (Ok tt, with_history s (a_history s ++ [row]))
  | WMarkOccurrences org now resolution =>
      (Ok tt, with_occurrences s (sql_update (mark_occurrence org now resolution)
         (fun o => MkOccurrence (oc_Org o) (sla_breach (Some now) (oc_SLA o)) (oc_ClosedAt o) (oc_Deleted o)) (a_occurrences s)))
  | WMarkOpportunities org now =>
      (Ok tt, with_opps s (sql_update (mark_opportunity org (now - 7 * 24 * hour))
         (fun o => MkOpp (so_ID o) (so_Org o) (so_Contact o) (so_Aberta o) (so_Direcionada o) (so_StageChangedAt o) (so_AssignedUserID o)
                     true (Some now) (so_Deleted o)) (a_opps s)))
  end.

(** ** The SLA columns of one attendance *)

(** [UpdateSLAOnPickup] and [UpdateSLAOnFirstResponse] on the loaded row. *)
Definition UpdateSLAOnPickup (now : instant) (s : SLATracking) : SLATracking :=
  match PickedUpAt s with
  | Some _ => s
  | None =>
      let s := sla_pickup (Some now) s in
      match ResponseDeadline s with
      | Some d => if d <? now then sla_breach (Some now) s else s
      | None => s
      end
  end.
Definition UpdateSLAOnFirstResponse (now : instant) (s : SLATracking) : SLATracking :=
  match FirstResponseAt s with Some _ => s | None => sla_response (Some now) s end.

(** [now.Add(time.Duration(n) * unit)], when [n] is positive. *)
Definition deadline_after (now : instant) (n : Z) (unit_ : duration) (old : option instant) : option instant :=
  if 0 <? n then Some (now + wrap64 (n * unit_)) else old.
Definition SetSLADeadlines (now : instant) (settings : ChatbotSettings) (s : SLATracking) : SLATracking :=
  let c := SLA settings in
  if negb (sla_Enabled c) then s
  else sla_deadlines (deadline_after now (ResponseMinutes c) minute (ResponseDeadline s))
         (deadline_after now (ResolutionMinutes c) minute (ResolutionDeadline s))
         (deadline_after now (EscalationMinutes c) minute (EscalationAt s))
         (deadline_after now (AutoCloseHours c) hour (ExpiresAt s)) s.

(** ** Transactions *)
Abbreviation Tdb A := (Db Att (result att_error A)) (only parsing).
Definition exec_write {X} (w : write X) : Tdb X := exec (run_write w).

(** The conditional update of [transitionContactStatusDB], on the loaded contact: whether a row
    changed. An empty [from] allows any origin. The history row it appends goes to another
    table, in a savepoint whose failure is ignored. *)
Definition may_transition (c : Contact) (from : list ContactStatus) (r : Contact) : bool :=
  contact_id (c_ID c) r && (bool_decide (from = []) || bool_decide (c_Status r ∈ from)).
Definition transition_status (c : Contact) (to : ContactStatus) (from : list ContactStatus) : Tdb bool :=
  if bool_decide (c_Status c = to) then mret (Ok false)
  else
    n ←? exec (fun s => (Ok (sql_count (may_transition c from) (a_contacts s)), update_contacts (may_transition c from) (set_status to) s));
    mret (Ok (negb (n =? 0))).

(** [releaseContactTx]: what it writes depends on the contact as the caller loaded it. *)
Definition releaseContactTx (c : Contact) : Tdb bool :=
  _ ←? (match c_AssignedUserID c with Some _ => exec_write (WAssignContact (c_ID c) None) | None => mret (Ok tt) end);
  _ ←? (match c_TeamID c with
        | Some _ => exec (fun s => (Ok tt, update_contacts (contact_id (c_ID c)) (set_contact_team None) s))
        | None => mret (Ok tt)
        end);
  transition_status c ContactStatusResolved [].

(** The transaction of [closeAttendance]: the row, then the release of the contact when it
    could be loaded. *)
Definition close_tx (id : uuid) (u : CloseUpdate) (contact : option Contact) : Tdb bool :=
  transaction (
    _ ←? exec (fun s => (Ok tt, update_transfers (has_id id) (apply_close u) s));
    match contact with None => mret (Ok false) | Some c => releaseContactTx c end).

Definition open_opportunity (org contact : uuid) (s : Att) : option SalesOpportunity :=
  sql_first (fun o => N.eqb (so_Org o) org && N.eqb (so_Contact o) contact && so_Aberta o && negb (so_Deleted o)) (a_opps s).
(** [assignOpenSalesOpportunityToAgent] in a transaction: no failure of it is reported. *)
Definition assign_opportunity_tx (org contact agent : uuid) : Db Att unit :=
  o ← query (E := att_error) (fun s => Ok (open_opportunity org contact s));
  match o with
  | Ok (Some o) => match so_AssignedUserID o with
                   | None => _ ← exec_write (WAssignOpportunity (so_ID o) agent); mret tt
                   | Some _ => mret tt
                   end
  | _ => mret tt
  end.

(** The queues [PickNextTransfer] picks from. *)
Inductive PickFilter := AnyQueue | GeneralQueue | TeamQueue (team : uuid) | OwnQueues (teams : list uuid).
Definition in_queues (q : PickFilter) (t : AgentTransfer) : bool :=
  match q, tr_TeamID t with
  | AnyQueue, _ => true
  | GeneralQueue, None => true
  | GeneralQueue, Some _ => false
  | TeamQueue x, Some y => N.eqb x y
  | TeamQueue _, None => false
  | OwnQueues _, None => true
  | OwnQueues l, Some y => existsb (N.eqb y) l
  end.
Definition waiting_in (org : uuid) (q : PickFilter) (t : AgentTransfer) : bool :=
  N.eqb (tr_Org t) org && is_status TransferActive t && bool_decide (tr_AgentID t = None) && in_queues q t && negb (tr_Deleted t).
(** The picked row as [Save] writes it. *)
Definition picked (user : uuid) (now : instant) (t : AgentTransfer) : AgentTransfer :=
  set_sla (UpdateSLAOnPickup now) (set_by (match tr_By t with Some b => Some b | None => Some user end) (set_agent (Some user) t)).
Definition save_row (t : AgentTransfer) (s : Att) : Att := update_transfers (has_id (tr_ID t)) (fun _ => t) s.

(** The transaction of [PickNextTransfer]: [SELECT ... FOR UPDATE SKIP LOCKED] locks the row it
    reads until the commit and passes over those [locked] by other transactions. [None]: no
    transfer in the queue (or the read failed, which is answered the same). *)
Definition pick_tx (org user : uuid) (q : PickFilter) (pin : bool) (now : instant) (locked : uuid -> bool) : Tdb (option AgentTransfer) :=
  transaction (
    r ← query (E := att_error) (fun s => Ok (sql_min oldest_first (List.filter (fun t => waiting_in org q t && negb (locked (tr_ID t))) (a_transfers s))));
    match r with
    | Ok (Some t) =>
        let t' := picked user now t in
        _ ←? exec (fun s => (Ok tt, save_row t' s));
        _ ←? (if pin then
                c ← query (E := att_error) (fun s => Ok (sql_first (contact_id (tr_Contact t)) (a_contacts s)));
                match c with
                | Ok (Some c) =>
                    match c_AssignedUserID c with
                    | None => _ ←? exec_write (WAssignContact (tr_Contact t) (Some user));
                              _ ← assign_opportunity_tx (c_Org c) (c_ID c) user; mret (Ok tt)
                    | Some _ => mret (Ok tt)
                    end
                | _ => mret (Ok tt)
                end
              else mret (Ok tt));
        mret (Ok (Some t'))
    | _ => mret (Ok None)
    end).

(** ** The operations of the handlers and of the background passes *)

(** What they tell others: the audit log, the WebSocket, webhooks. *)
Inductive effect :=
  | EAudit (org : uuid) (actor : option uuid) (transfer : uuid) (event : string) (from to : option uuid) (detail : string)
  | ETransferCreated (t : AgentTransfer)
  | ETransferAssigned (t : AgentTransfer)
  | ETransferResumed (t : AgentTransfer)
  | ETransferUpdate (t : AgentTransfer) (kind : string)
  | EEscalation (t : AgentTransfer) (level : Z)
  | EWebhook (event : string) (t : AgentTransfer)
  | EContactStatus (contact : uuid) (old new : ContactStatus) (actor : option uuid).

Inductive att_op : Type -> Type :=
  | ANow : att_op instant
  | AWall : att_op wall
  | ANewID : att_op uuid
  | ASettings (org : uuid) (account : string) : att_op (option ChatbotSettings)
  | APermission (user : uuid) (resource action : string) (org : uuid) : att_op bool
  | AInteract (user org contact : uuid) : att_op bool
  | AConnected (org user : uuid) : att_op bool
  | AEligible (org agent : uuid) : att_op bool
  | AAssign (team org : uuid) (exclude : list uuid) : att_op (option uuid)
  | ARead {X : Type} (zero : X) (f : Att -> X) : att_op X
  | ATry {X : Type} (f : Att -> X) : att_op (result att_error X)
  | AWrite {X : Type} (w : write X) : att_op (result att_error X)
  | AClose (id : uuid) (u : CloseUpdate) (contact : option Contact) : att_op (result att_error bool)
  | ARelease (c : Contact) : att_op (result att_error bool)
  | AStatus (c : Contact) (to : ContactStatus) (from : list ContactStatus) : att_op (result att_error bool)
  | APick (org user : uuid) (q : PickFilter) (pin : bool) (now : instant) : att_op (result att_error (option AgentTransfer))
  | AMessage (org : uuid) (account : string) (contact : uuid) (text : string) : att_op bool
  | AEmit (e : effect) : att_op unit.

(** Sending a message inserts its row and may touch the contact's instants, nothing else of
    these tables. *)
Definition untimed (c : Contact) : Contact :=
  MkContactRow (c_ID c) (c_Org c) (c_Account c) (c_Phone c) (c_AssignedUserID c) (c_TeamID c) (c_Status c) None None false (c_Deleted c).
Definition message_sent (s s' : Att) : Prop :=
  exists ms cs, s' = with_messages (with_contacts s cs) (a_messages s ++ ms) /\ map untimed cs = map untimed (a_contacts s).

(** What each may answer. The clock, permissions, caches, connections and the sending of
    messages answer anything; eligibility and the choice of an agent are [Assignment]'s, on the
    tables of the moment and with the connections of that moment, whatever they are; reads that
    fail answer their zero value or an error; statements are [Effects.db_sem]. *)
Definition att_sem X (op : att_op X) (s : Att) (x : X) (s' : Att) : Prop :=
  match op in att_op X return X -> Prop with
  | AEligible org agent => fun x => s' = s /\ exists presence fs, x = fst (IsAgentEligible presence org agent (World (team_view s) fs))
  | AAssign team org exclude => fun x => exists presence cached now w store w',
      w_data w = team_view s /\ AssignToTeam presence team org exclude ChatLoadCounter cached now w = ((x, store), w') /\
      s' = with_teams s (with_members (a_teams s) (t_members (w_data w')))
  | ARead zero f => fun x => s' = s /\ (x = f s \/ x = zero)
  | ATry f => fun x => s' = s /\ (x = Ok (f s) \/ x = Err AErrDb)
  | AWrite w => fun x => db_sem (exec_write w) s x s'
  | AClose id u c => fun x => db_sem (close_tx id u c) s x s'
  | ARelease c => fun x => db_sem (transaction (releaseContactTx c)) s x s'
  | AStatus c to from => fun x => db_sem (transition_status c to from) s x s'
  | APick org user q pin now => fun x => exists locked, db_sem (pick_tx org user q pin now locked) s x s'
  | AMessage _ _ _ _ => fun _ => message_sent s s'
  | _ => fun _ => s' = s
  end x.

(** ** What no statement breaks *)

(** How a row may move: what it was opened with stays, closed is final, only an active row
    changes hands, and neither a pickup nor a breach is forgotten. *)
Record row_le (t t' : AgentTransfer) : Prop := {
  rl_open : tr_Open t' = tr_Open t;
  rl_deleted : tr_Deleted t' = tr_Deleted t;
  rl_closed : tr_Status t <> TransferActive -> tr_Status t' <> TransferActive;
  rl_owner : tr_Status t <> TransferActive -> tr_AgentID t' = tr_AgentID t /\ tr_TeamID t' = tr_TeamID t;
  rl_pickup : is_Some (PickedUpAt (tr_SLA t)) -> is_Some (PickedUpAt (tr_SLA t'));
  rl_breach : Breached (tr_SLA t) = true -> Breached (tr_SLA t') = true }.
#[global] Instance row_le_preorder : PreOrder row_le.
Proof.
  split; [split; auto |]. intros t1 t2 t3 [O1 D1 C1 W1 P1 B1] [O2 D2 C2 W2 P2 B2].
  split; [congruence | congruence | auto | | auto | auto]. intros H.
  destruct (W2 (C1 H)) as [-> ->]. by apply W1.
Qed.

Definition table_le (ts ts' : list AgentTransfer) : Prop :=
  exists old new, ts' = old ++ new /\ Forall2 row_le ts old.
#[global] Instance table_le_preorder : PreOrder table_le.
Proof.
  split.
  - intros ts. exists ts, []. split; [by rewrite app_nil_r | reflexivity].
  - intros t1 t2 t3 (o & n & -> & H) (o' & n' & -> & H'). apply Forall2_app_inv_l in H' as (o1 & o2 & H1 & H2 & ->).
    exists o1, (o2 ++ n'). split; [by rewrite <- app_assoc | by etrans].
Qed.

(** Identifiers are unique, and a contact has at most one active attendance. *)
Definition one_active (ts : list AgentTransfer) : Prop := forall org contact, sql_count (active_of org contact) ts <= 1.
Record att_ok (s : Att) : Prop := { ao_ids : NoDup (map tr_ID (a_transfers s)); ao_one : one_active (a_transfers s) }.

Definition att_step (s s' : Att) : Prop := att_ok s -> table_le (a_transfers s) (a_transfers s') /\ att_ok s'.
#[global] Instance att_step_preorder : PreOrder att_step.
Proof.
  split; [by split |]. intros s1 s2 s3 H1 H2 Hok. destruct (H1 Hok) as [L1 Hok2]. destruct (H2 Hok2) as [L2 Hok3].
  split; [by etrans | done].
Qed.

Lemma att_step_same s s' : a_transfers s' = a_transfers s -> att_step s s'.
Proof. intros E [H1 H2]. split; [by rewrite E | split; by rewrite E]. Qed.

Lemma active_of_le org contact t t' : row_le t t' -> active_of org contact t' = true -> active_of org contact t = true.
Proof.
  intros [Ho Hd Hc _ _ _]. unfold active_of, is_status, tr_Org, tr_Contact. rewrite Ho, Hd.
  rewrite !andb_true_iff, !bool_decide_eq_true. intros [[[H1 H2] Hs] H3]. split_and!; try done.
  destruct (decide (tr_Status t = TransferActive)) as [E | E]; [done | by destruct (Hc E)].
Qed.

Lemma rows_le_ok ts ts' : Forall2 row_le ts ts' ->
  map tr_ID ts' = map tr_ID ts /\ forall org contact, sql_count (active_of org contact) ts' <= sql_count (active_of org contact) ts.
Proof.
  induction 1 as [| t t' l l' Ht _ [IH1 IH2]]; [done |]. split.
  - simpl. unfold tr_ID at 1 3. by rewrite (rl_open _ _ Ht), IH1.
  - intros org contact. rewrite !sql_count_cons. specialize (IH2 org contact).
    destruct (active_of org contact t') eqn:E; [rewrite (active_of_le _ _ _ _ Ht E); lia | destruct (active_of org contact t); lia].
Qed.

Lemma att_step_rows s s' : Forall2 row_le (a_transfers s) (a_transfers s') -> att_step s s'.
Proof.
  intros H [H1 H2]. split; [exists (a_transfers s'), []; by rewrite app_nil_r |].
  destruct (rows_le_ok _ _ H) as [Hid Hc]. split; [by rewrite Hid |]. intros o c. specialize (Hc o c); specialize (H2 o c); lia.
Qed.

Lemma att_step_update p f s :
  (att_ok s -> forall t, t ∈ a_transfers s -> p t = true -> row_le t (f t)) -> att_step s (update_transfers p f s).
Proof.
  intros Hf Hok. specialize (Hf Hok). revert Hok. apply att_step_rows. simpl.
  induction (a_transfers s) as [| t l IH]; [constructor |].
  constructor; [| apply IH; intros; apply Hf; [by right | done]]. destruct (p t) eqn:E; [apply Hf; [by left | done] | reflexivity].
Qed.

(** ** Every operation keeps the table *)
Lemma sla_row_le f t :
  (is_Some (PickedUpAt (tr_SLA t)) -> is_Some (PickedUpAt (f (tr_SLA t)))) ->
  (Breached (tr_SLA t) = true -> Breached (f (tr_SLA t)) = true) -> row_le t (set_sla f t).
Proof. by split. Qed.

Lemma apply_pickup_le p s :
  (is_Some (PickedUpAt s) -> is_Some (PickedUpAt (apply_pickup p s))) /\ (Breached s = true -> Breached (apply_pickup p s) = true).
Proof. destruct p as [[x [b |]] |]; simpl; eauto. Qed.
Lemma apply_sla_le u s :
  (is_Some (PickedUpAt s) -> is_Some (PickedUpAt (apply_sla u s))) /\ (Breached s = true -> Breached (apply_sla u s) = true).
Proof. destruct u as [| | | l n []]; simpl; eauto. Qed.
Lemma UpdateSLAOnPickup_le now s :
  is_Some (PickedUpAt (UpdateSLAOnPickup now s)) /\ (Breached s = true -> Breached (UpdateSLAOnPickup now s) = true).
Proof. unfold UpdateSLAOnPickup. destruct (PickedUpAt s) eqn:E; [rewrite E; eauto |]. simpl. repeat case_match; simpl; eauto. Qed.

Lemma active_status t : is_status TransferActive t = true -> tr_Status t = TransferActive.
Proof. unfold is_status. intros. by bool_hyps. Qed.

(** What changes hands is active. *)
Lemma move_row_le agent team p t : is_status TransferActive t = true ->
  row_le t (apply_move (MkMove agent team p) t) /\ row_le t (set_sla (apply_pickup p) (set_agent agent t)).
Proof.
  intros H%active_status. destruct (apply_pickup_le p (tr_SLA t)) as [H1 H2].
  split; (split; [| | | by intros [] | |]); unfold apply_move; destruct team; simpl; auto.
Qed.

Lemma count_existsb org contact ts : existsb (active_of org contact) ts = false -> sql_count (active_of org contact) ts = 0.
Proof.
  intros H. apply sql_count_zero. intros t Ht. apply not_true_iff_false. intros E.
  enough (existsb (active_of org contact) ts = true) by congruence. apply existsb_exists. exists t. split; [by apply list_elem_of_In | done].
Qed.

Lemma create_step t s : att_step s (snd (run_write (WCreate t) s)).
Proof.
  simpl. destruct (existsb _ (a_transfers s)) eqn:Eid; [done |].
  destruct (is_status TransferActive t && negb (tr_Deleted t) && existsb (active_of (tr_Org t) (tr_Contact t)) (a_transfers s)) eqn:Ea; [done |].
  intros [H1 H2]. split; [exists (a_transfers s), [t]; by split |]. split; simpl.
  - rewrite map_app. apply NoDup_app. split_and!; [done | | apply NoDup_singleton]. simpl. intros i Hi ->%list_elem_of_singleton.
    apply list_elem_of_fmap in Hi as (r & Hr1 & Hr2). apply not_true_iff_false in Eid. apply Eid, existsb_exists.
    exists r. split; [by apply list_elem_of_In | by apply N.eqb_eq].
  - intros org contact. rewrite sql_count_app, sql_count_cons. specialize (H2 org contact).
    destruct (active_of org contact t) eqn:E; [| simpl; unfold sql_count at 2; simpl; lia].
    unfold active_of in E. rewrite !andb_true_iff, !N.eqb_eq in E. destruct E as [[[<- <-] Es] Ed]. rewrite Es, Ed in Ea.
    simpl in Ea. rewrite (count_existsb _ _ _ Ea). unfold sql_count. simpl. lia.
Qed.

Lemma write_step {X} (w : write X) s : att_step s (snd (run_write w s)).
Proof.
  destruct w; try (by apply att_step_same); [by apply create_step | ..]; simpl; apply att_step_update; intros _ r _ Hr.
  - unfold claimable in Hr. bool_hyps. by apply (move_row_le (Some agent) None p r).
  - destruct u. unfold movable in Hr. bool_hyps. by apply move_row_le.
  - destruct (apply_sla_le u (tr_SLA r)). by apply sla_row_le.
  - by apply sla_row_le.
Qed.

(** ** The transactions *)
Section Transactions.
Context (R : Att -> Att -> Prop) `{!PreOrder R} (R_same : forall s s', a_transfers s' = a_transfers s -> R s s').

Lemma keeps_contacts {A} (r : Att -> result att_error A) p f : keeps R (exec (fun s => (r s, update_contacts p f s))).
Proof. apply keeps_exec; [apply _ |]. intros s. by apply R_same. Qed.
Lemma keeps_assign_contact id user : keeps R (exec_write (WAssignContact id user)).
Proof. apply keeps_exec; [apply _ |]. intros s. by apply R_same. Qed.
Lemma keeps_assign_opp id user : keeps R (exec_write (WAssignOpportunity id user)).
Proof. apply keeps_exec; [apply _ |]. intros s. by apply R_same. Qed.
#[local] Hint Resolve keeps_contacts keeps_assign_contact keeps_assign_opp : whatc.
Lemma keeps_transition c to from : keeps R (transition_status c to from).
Proof. unfold transition_status. solve_keeps. Qed.
#[local] Hint Resolve keeps_transition : whatc.
Lemma keeps_release c : keeps R (releaseContactTx c).
Proof. unfold releaseContactTx. solve_keeps. Qed.
#[local] Hint Resolve keeps_release : whatc.
Lemma keeps_assign_opportunity org contact agent : keeps R (assign_opportunity_tx org contact agent).
Proof. unfold assign_opportunity_tx. solve_keeps. Qed.
#[local] Hint Resolve keeps_assign_opportunity : whatc.

Lemma keeps_close id u c : (forall s, R s (update_transfers (has_id id) (apply_close u) s)) -> keeps R (close_tx id u c).
Proof.
  intros H. unfold close_tx. apply keeps_transaction; [apply _ |]. apply keeps_try; [apply _ | | solve_keeps].
  apply keeps_exec; [apply _ | done].
Qed.

(** The picked row is read and saved in the same state of the table. *)
Lemma keeps_pick org user q pin now locked :
  (forall s t, t ∈ a_transfers s -> waiting_in org q t = true -> R s (save_row (picked user now t) s)) ->
  keeps R (pick_tx org user q pin now locked).
Proof.
  intros HR. unfold pick_tx. apply keeps_transaction; [apply _ |]. intros w x w'. unfold mbind at 1, db_bind at 1.
  destruct (query _ w) as [r w1] eqn:E1. pose proof (query_data _ _ _ _ E1) as Hw.
  destruct r as [[t |] | e]; [| intros [= <- <-]; by rewrite Hw | intros [= <- <-]; by rewrite Hw].
  apply exec_ok in E1. injection E1 as Em _. apply sql_min_in, list_elem_of_In, List.filter_In in Em as [Ht Hwait].
  apply andb_true_iff in Hwait as [Hwait _]. rewrite <- Hw in Ht |- *. apply list_elem_of_In in Ht.
  unfold try_bind at 1, mbind at 1, db_bind at 1. destruct (exec _ w1) as [r w2] eqn:E2.
  assert (S : R (w_data w1) (w_data w2)) by (apply exec_data in E2 as [-> | ->]; [done | by apply HR]).
  destruct r as [a | e]; [| by intros [= <- <-]]. intros E. etrans; [exact S |]. revert E.
  match goal with |- ?m w2 = _ -> _ => enough (H : keeps R m) by apply H end. solve_keeps.
Qed.
End Transactions.

Lemma close_row_le u t : row_le t (apply_close u t).
Proof. split; simpl; auto. intros _. by destruct (cl_Status u). Qed.

Lemma pick_row_le user now t : is_status TransferActive t = true -> row_le t (picked user now t).
Proof.
  intros H%active_status. destruct (UpdateSLAOnPickup_le now (tr_SLA t)) as [H1 H2].
  split; simpl; auto. by intros [].
Qed.
Lemma waiting_active org q t : waiting_in org q t = true -> is_status TransferActive t = true /\ tr_AgentID t = None.
Proof. unfold waiting_in. rewrite !andb_true_iff, bool_decide_eq_true. tauto. Qed.

(** A row saved back is the only one written: identifiers are unique. *)
Lemma row_by_id s t t' : att_ok s -> t ∈ a_transfers s -> t' ∈ a_transfers s -> tr_ID t' = tr_ID t -> t' = t.
Proof.
  intros [Hnd _] [i Hi]%list_elem_of_lookup [j Hj]%list_elem_of_lookup Hid.
  assert (i = j) as ->; [| congruence].
  apply (NoDup_lookup (map tr_ID (a_transfers s)) i j (tr_ID t)); [done | |]; rewrite list_lookup_fmap; [by rewrite Hi | rewrite Hj; simpl; by rewrite Hid].
Qed.
Lemma has_id_eq id t : has_id id t = true -> tr_ID t = id.
Proof. unfold has_id. rewrite andb_true_iff, N.eqb_eq. tauto. Qed.
Lemma save_step org q user now t s :
  t ∈ a_transfers s -> waiting_in org q t = true -> att_step s (save_row (picked user now t) s).
Proof.
  intros Ht [Ha _]%waiting_active. apply att_step_update. intros Hok t' Ht' Hid%has_id_eq.
  rewrite (row_by_id s t t' Hok Ht Ht' Hid). by apply pick_row_le.
Qed.

Lemma att_op_step X (op : att_op X) s x s' : att_sem X op s x s' -> att_step s s'.
Proof.
  destruct op; simpl; try (by intros ->); try (by intros [-> _]).
  - intros (pr & ca & now & w & st & w' & _ & _ & ->). by apply att_step_same.
  - apply keeps_sem, keeps_exec; [apply _ | apply write_step].
  - apply keeps_sem, keeps_close; [apply _ | apply att_step_same |]. intros s1. apply att_step_update. intros _ t _ _. apply close_row_le.
  - apply keeps_sem, keeps_transaction, keeps_release; apply _ || apply att_step_same.
  - apply keeps_sem, keeps_transition; [apply _ | apply att_step_same].
  - intros [locked H]. revert H. apply keeps_sem, keeps_pick; [apply _ | apply att_step_same | intros; by eapply save_step].
  - intros (ms & cs & -> & _). by apply att_step_same.
Qed.

(** C1: whatever handlers and background passes run at the same time, wherever each stops and
    whatever fails, a contact never has more than one active attendance, and every row only
    moves forward: what it was opened with stays, closed is final, only an active attendance
    changes hands, and a recorded pickup or breach is never forgotten. *)
Theorem one_active_attendance {A} (ps ps' : list (prog att_op A)) s s' :
  att_ok s -> pool_steps att_sem (s, ps) (s', ps') -> att_ok s' /\ table_le (a_transfers s) (a_transfers s').
Proof.
  intros Hok Hsteps. apply and_comm.
  exact (pool_state_relation att_sem att_step (s, ps) (s', ps') att_op_step Hsteps Hok).
Qed.

(** ** Compare and set *)
Lemma count_by_id id ts (p : AgentTransfer -> bool) :
  NoDup (map tr_ID ts) -> (forall t, p t = true -> tr_ID t = id) -> sql_count p ts <= 1.
Proof.
  intros Hnd Hp. induction ts as [| t l IH]; [done |]. simpl in Hnd. apply NoDup_cons in Hnd as [Hn Hnd]. rewrite sql_count_cons.
  destruct (p t) eqn:E; [| specialize (IH Hnd); lia].
  enough (sql_count p l = 0) by lia. apply sql_count_zero. intros r Hr. apply not_true_iff_false. intros Er. apply Hn.
  rewrite (Hp _ E), <- (Hp _ Er). by apply list_elem_of_fmap_2.
Qed.

(** A conditional update by identifier, when it answers: it found nothing and changed nothing,
    or it changed exactly the one row that satisfied its condition at that moment. *)
Definition cas_done (p : AgentTransfer -> bool) (f : AgentTransfer -> AgentTransfer) (n : Z) (s s' : Att) : Prop :=
  (n = 0 /\ s' = s /\ forall t, t ∈ a_transfers s -> p t = false) \/
  (n = 1 /\ exists i t, a_transfers s !! i = Some t /\ p t = true /\ s' = with_transfers s (<[i := f t]> (a_transfers s))).
Lemma cas_update p f id s :
  att_ok s -> (forall t, p t = true -> tr_ID t = id) ->
  cas_done p f (sql_count p (a_transfers s)) s (update_transfers p f s).
Proof.
  intros [Hnd _] Hp. pose proof (count_by_id id _ p Hnd Hp) as Hle. pose proof (sql_count_nonneg p (a_transfers s)).
  destruct (Z.eq_dec (sql_count p (a_transfers s)) 0) as [E | E].
  - left. pose proof (proj1 (sql_count_zero _ _) E) as Hz. split_and!; [done | | done].
    unfold update_transfers. rewrite sql_update_id by done. by destruct s.
  - right. split; [lia |]. destruct (sql_update_one p f (a_transfers s)) as (i & t & Hi & Ht & Hu); [lia |].
    exists i, t. split_and!; [done | done |]. unfold update_transfers. by rewrite Hu.
Qed.

(** ** Who may take an attendance from whom *)

(** Every row keeps its owner, or was active and changed hands as [ch] says; none reopens. *)
Definition may_move (ch : AgentTransfer -> option uuid -> Prop) (t t' : AgentTransfer) : Prop :=
  (tr_AgentID t' = tr_AgentID t \/ (tr_Status t = TransferActive /\ ch t (tr_AgentID t'))) /\
  (tr_Status t' = TransferActive -> tr_Status t = TransferActive).
Definition handover ch (s s' : Att) : Prop :=
  forall i t, a_transfers s !! i = Some t -> exists t', a_transfers s' !! i = Some t' /\ may_move ch t t'.
Definition nobody (t : AgentTransfer) (b : option uuid) : Prop := False.
Definition to_picker (user : uuid) (t : AgentTransfer) (b : option uuid) : Prop := tr_AgentID t = None /\ b = Some user.

Lemma handover_preorder ch :
  (forall t1 t2 b, tr_AgentID t2 = tr_AgentID t1 -> ch t2 b -> ch t1 b) ->
  (forall t1 t2 b, ch t1 (tr_AgentID t2) -> ch t2 b -> False) -> PreOrder (handover ch).
Proof.
  intros Hc Hn. split; [intros s i t H; exists t; split; [done | split; auto] |]. intros s1 s2 s3 H12 H23 i t H.
  destruct (H12 i t H) as (t2 & H2 & C2 & S2). destruct (H23 i t2 H2) as (t3 & H3 & C3 & S3). exists t3. split; [done |].
  split; [| auto]. destruct C2 as [E2 | [A2 N2]], C3 as [E3 | [A3 N3]].
  - left. congruence.
  - right. split; [auto | by eapply Hc].
  - right. split; [done | by rewrite E3].
  - exfalso. exact (Hn t t2 _ N2 N3).
Qed.
#[global] Instance handover_nobody : PreOrder (handover nobody).
Proof. apply handover_preorder; [by intros ? ? ? _ [] | by intros ? ? ? []]. Qed.
#[global] Instance handover_picker user : PreOrder (handover (to_picker user)).
Proof.
  apply handover_preorder; [intros t1 t2 b E [H ->]; split; congruence |]. intros t1 t2 b [_ E] [N _]. congruence.
Qed.

Lemma handover_same ch s s' : a_transfers s' = a_transfers s -> handover ch s s'.
Proof. intros E i t H. exists t. rewrite E. split; [done | split; auto]. Qed.
Lemma handover_update ch p f s :
  (forall t, t ∈ a_transfers s -> p t = true -> may_move ch t (f t)) -> handover ch s (update_transfers p f s).
Proof.
  intros Hf i t H. simpl. rewrite sql_update_lookup, H. eexists. split; [done |].
  destruct (p t) eqn:E; [apply Hf; [by apply list_elem_of_lookup_2 in H | done] | split; auto].
Qed.
Lemma handover_exec {A} ch (f : Att -> result att_error A * Att) s r s' :
  handover ch s (snd (f s)) -> db_sem (exec f) s r s' -> handover ch s s'.
Proof. intros H [E | [_ [-> | ->]]]%db_sem_exec; [by rewrite <- E in H | by apply handover_same | done]. Qed.

(** The owners an operation names: the one it takes from and the one it gives to. *)
Definition names {X} (op : att_op X) (t : AgentTransfer) (b : option uuid) : Prop :=
  match op with
  | AWrite (WClaim id agent _) => tr_ID t = id /\ tr_AgentID t = None /\ b = Some agent
  | AWrite (WMove id from u) => tr_ID t = id /\ tr_AgentID t = from /\ b = mv_To u
  | APick _ user _ _ _ => to_picker user t b
  | _ => False
  end.

Lemma write_handover {X} (w : write X) s : handover (names (AWrite w)) s (snd (run_write w s)).
Proof.
  destruct w; try (by apply handover_same).
  - simpl. repeat case_match; try (by apply handover_same). intros i r Hr. exists r. split; [by apply lookup_app_l_Some | split; auto].
  - apply handover_update. intros r _ H. unfold claimable in H. rewrite !andb_true_iff, bool_decide_eq_true in H.
    destruct H as [[Hid%has_id_eq Hs%active_status] Hn]. split; [right | done]. by split_and!.
  - apply handover_update. intros r _ H. unfold movable in H. rewrite !andb_true_iff, bool_decide_eq_true in H.
    destruct H as [[Hid%has_id_eq Hs%active_status] Hn]. split; [right; split; [done |]; split_and!; [done | done |] | done].
    unfold apply_move. by destruct (mv_Team u).
  - apply handover_update. intros r _ _. split; auto.
  - apply handover_update. intros r _ _. split; auto.
Qed.

(** A pick, on a table whose identifiers are unique. *)
Definition picks_ok (user : uuid) (s s' : Att) : Prop := att_ok s -> att_ok s' /\ handover (to_picker user) s s'.
#[global] Instance picks_ok_preorder user : PreOrder (picks_ok user).
Proof.
  split; [intros s H; split; [done | reflexivity] |]. intros s1 s2 s3 H1 H2 Hok. destruct (H1 Hok) as [Hok2 L1].
  destruct (H2 Hok2) as [Hok3 L2]. split; [done | by etrans].
Qed.
Lemma pick_handover org user q pin now locked s x s' :
  att_ok s -> db_sem (pick_tx org user q pin now locked) s x s' -> handover (to_picker user) s s'.
Proof.
  intros Hok Hsem. enough (H : picks_ok user s s') by apply (H Hok). revert Hsem. apply keeps_sem, keeps_pick; [apply _ | |].
  - intros s1 s2 E Hok1. split; [by apply (att_step_same s1 s2 E) | by apply handover_same].
  - intros s1 r Hr Hw Hok1. split; [by apply (save_step org q user now r s1 Hr Hw) |]. apply handover_update.
    intros r' Hr' Hid%has_id_eq. rewrite (row_by_id s1 r r' Hok1 Hr Hr' Hid). apply waiting_active in Hw as [Ha Hn].
    split; [right | done]. split; [by apply active_status | by split].
Qed.

(** C19: Nobody loses an attendance to an operation that did not name them: in every state and
    under every failure, an operation that changes who is responsible for an attendance is a
    claim, a move or a pick, the attendance was active, and its owner was the one the operation
    says it takes from (nobody, for a claim or a pick). *)
Theorem owner_changes_named X (op : att_op X) s x s' i t t' :
  att_ok s -> att_sem X op s x s' -> a_transfers s !! i = Some t -> a_transfers s' !! i = Some t' ->
  tr_AgentID t' <> tr_AgentID t -> tr_Status t = TransferActive /\ names op t (tr_AgentID t').
Proof.
  intros Hok Hsem Hi Hi' Hne. enough (H : handover (names op) s s').
  { destruct (H i t Hi) as (t2 & H2 & [E | E] & _); [congruence |]. by replace t' with t2 by congruence. }
  clear i t t' Hi Hi' Hne.
  assert (Hweak : handover nobody s s' -> handover (names op) s s').
  { intros H i t Ht. destruct (H i t Ht) as (t' & ? & [? | [_ []]] & ?). exists t'. split; [done | split; auto]. }
  destruct op; simpl in Hsem; try (by subst; apply handover_same); try (by destruct Hsem as [-> _]; apply handover_same).
  - destruct Hsem as (pr & ca & now & w & st & w' & _ & _ & ->). by apply handover_same.
  - revert Hsem. apply handover_exec, write_handover.
  - apply Hweak. revert Hsem. apply keeps_sem, keeps_close; [apply _ | by intros; apply handover_same |].
    intros s1. apply handover_update. intros r _ _. split; [by left |]. simpl. by destruct (cl_Status u).
  - apply Hweak. revert Hsem. apply keeps_sem, keeps_transaction, keeps_release; apply _ || (intros; by apply handover_same).
  - apply Hweak. revert Hsem. apply keeps_sem, keeps_transition; [apply _ | intros; by apply handover_same].
  - destruct Hsem as [locked Hsem]. by eapply pick_handover.
  - destruct Hsem as (ms & cs & -> & _). by apply handover_same.
Qed.

(** ** A run without failures

    One goroutine alone, no failure, everyone connected, at a fixed time: the operations
    computed, for evaluating the programs on concrete inputs. *)
Section Alone.
Context (now : instant) (settings : option ChatbotSettings) (granted : bool).

Definition on_db {X} (m : Tdb X) (s : Att) : result att_error X * Att :=
  let '(x, w) := m (World s []) in (x, w_data w).
Definition att_run X (op : att_op X) (s : Att) : X * Att :=
  match op in att_op X return X * Att with
  | ANow => (now, s)
  | AWall => (Wall 1 12 0, s)
  | ANewID => (N.of_nat (100 + length (a_transfers s)), s)
  | ASettings _ _ => (settings, s)
  | APermission _ _ _ _ => (granted, s)
  | AInteract _ _ _ => (true, s)
  | AConnected _ _ => (true, s)
  | AEligible org agent => (fst (IsAgentEligible None org agent (World (team_view s) [])), s)
  | AAssign team org exclude =>
      let '((x, _), w) := AssignToTeam None team org exclude ChatLoadCounter None now (World (team_view s) []) in
      (x, with_teams s (with_members (a_teams s) (t_members (w_data w))))
  | ARead zero f => (f s, s)
  | ATry f => (Ok (f s), s)
  | AWrite w => on_db (exec_write w) s
  | AClose id u c => on_db (close_tx id u c) s
  | ARelease c => on_db (transaction (releaseContactTx c)) s
  | AStatus c to from => on_db (transition_status c to from) s
  | APick org user q pin now => on_db (pick_tx org user q pin now (fun _ => false)) s
  | AMessage _ _ _ _ => (true, s)
  | AEmit _ => (tt, s)
  end.

Lemma on_db_sem {X} (m : Tdb X) s : db_sem m s (fst (on_db m s)) (snd (on_db m s)).
Proof. unfold on_db, db_sem. destruct (m (World s [])) as [x [d fs]] eqn:E. by exists [], fs. Qed.
Lemma att_run_sem X (op : att_op X) s : att_sem X op s (fst (att_run X op s)) (snd (att_run X op s)).
Proof.
  destruct op; simpl; try done; try (by auto); try apply on_db_sem.
  - split; [done |]. by exists None, [].
  - destruct (AssignToTeam _ _ _ _ _ _ _ _) as [[x st] w'] eqn:E. exists None, None, now, (World (team_view s) []), st, w'. done.
  - exists (fun _ => false). apply on_db_sem.
  - exists [], (a_contacts s). rewrite app_nil_r. by destruct s.
Qed.
(** The run is one of the interleavings. *)
Lemma att_run_steps {A} (p : prog att_op A) s :
  pool_steps att_sem (s, [p]) (snd (prog_run att_run p s), [Ret (fst (prog_run att_run p s))]).
Proof. apply (prog_run_steps att_sem att_run); [apply att_run_sem | apply surjective_pairing]. Qed.
End Alone.

(** ** Witnesses: an organization with one contact, one attendance waiting for agent 21 *)
Definition ex_opening (id contact : uuid) (at_ : instant) : Opening := MkOpening id 9 contact "main" "5511" SourceManual None at_.
Definition ex_waiting : AgentTransfer := MkAttendance (ex_opening 50 3 10) TransferActive None (Some 4%N) None "" None None new_sla false.
Definition ex_owned : AgentTransfer := set_agent (Some 21%N) ex_waiting.
Definition ex_contact : Contact := MkContactRow 3 9 "main" "5511" None None ContactStatusInProgress (Some 10) None false false.
Definition ex_att (ts : list AgentTransfer) : Att :=
  MkAtt ts [ex_contact] [] [] [] [] [] [] []
    (MkTeamDb [MkUser 21 true true false; MkUser 22 true true false] [MkTeam 4 true RoundRobin 0 false]
       [ex_member 1 21 None; ex_member 2 22 (Some 50)] [] [] []).
Lemma ex_att_ok t : att_ok (ex_att [t]).
Proof. split; [apply NoDup_singleton |]. intros o c. unfold ex_att, sql_count. simpl. destruct (active_of o c t); simpl; lia. Qed.

Lemma one_active_attendance_witness :
  att_ok (ex_att [ex_waiting]) /\
  let s' := snd (prog_run (att_run 100 None false) (call (AWrite (WClaim 50 22 None))) (ex_att [ex_waiting])) in
  att_ok s' /\ table_le [ex_waiting] (a_transfers s') /\ map tr_AgentID (a_transfers s') = [Some 22%N].
Proof.
  split; [apply ex_att_ok |]. intros s'.
  destruct (one_active_attendance [call (AWrite (WClaim 50 22 None))] _ (ex_att [ex_waiting]) s' (ex_att_ok _)
              (att_run_steps 100 None false (call (AWrite (WClaim 50 22 None))) (ex_att [ex_waiting]))) as [H1 H2].
  split; [exact H1 | split; [exact H2 | vm_compute; reflexivity]].
Defined.
Lemma owner_changes_named_witness :
  tr_Status ex_owned = TransferActive /\ names (AWrite (WMove 50 (Some 21%N) (MkMove (Some 22%N) None None))) ex_owned (Some 22%N).
Proof.
  apply (owner_changes_named _ (AWrite (WMove 50 (Some 21%N) (MkMove (Some 22%N) None None))) (ex_att [ex_owned]) (Ok 1)
           (ex_att [set_agent (Some 22%N) ex_owned]) 0 ex_owned (set_agent (Some 22%N) ex_owned)).
  - apply ex_att_ok.
  - exists [], []. vm_compute. reflexivity.
  - reflexivity.
  - reflexivity.
  - discriminate.
Defined.
