(* ===== verification/Distribution.v ===== *)
(** Distribution of attendances ([internal/handlers/distribution.go], [reassign.go],
    [away_tolerance.go], [ownership_history.go], the creating and returning parts of
    [agent_transfers.go], [internal/handlers/flow_transfer_routing.go]): the programs that
    create, claim, move and return attendances, over the operations of [Attendance]. *)
From S2P Require Import Prelude Effects Sql Assignment BusinessHours Attendance.

Abbreviation Prog A := (prog att_op A) (only parsing).
Abbreviation Res A := (result att_error A) (only parsing).
Record WhatsAppAccount := MkAcc { acc_Org : uuid; acc_Name : string }.

(** [a.Assigner != nil]: wired in the server, not in tools and tests. *)
Section Handlers.
Context (assigner : bool).

Definition isAgentEligible (org agent : uuid) : Prog bool :=
  if assigner then call (AEligible org agent)
  else n ← call (ARead 0 (fun s => sql_count (fun u => N.eqb (au_ID u) agent && au_IsAvailable u && au_IsActive u && negb (au_Deleted u)) (t_users (a_teams s))));
       mret (0 <? n).
Definition agentIneligibleReason (org : uuid) (agent : AgentUser) : Prog string :=
  if negb (au_IsActive agent) || negb (au_IsAvailable agent) then mret "Agent is currently away"
  else if assigner then
    on ← call (AConnected org (au_ID agent));
    mret (if negb on then "Agent is currently offline" else "")
  else mret "".

(** ** Audit and the history of owners *)
Definition distEventClaimed := "claimed".
Definition distEventAssigned := "assigned".
Definition distEventReleased := "released".
Definition distEventReturnedAway := "returned_away".
Definition distEventReturnedOffline := "returned_offline".
Definition distEventReturnedAwayTimeout := "returned_away_timeout".
Definition distEventReassignedAwayTimeout := "reassigned_away_timeout".
Definition distEventReassignedCustomerWaiting := "reassigned_customer_waiting".
Definition distEventAutoAssigned := "auto_assigned".
Definition distEventQueued := "queued".
Definition distEventConflict := "conflict".
Definition ownershipEvents : list string :=
  [distEventClaimed; distEventAssigned; distEventReleased; distEventReturnedAway; distEventReturnedOffline; distEventReturnedAwayTimeout;
   distEventReassignedAwayTimeout; distEventReassignedCustomerWaiting; distEventAutoAssigned; distEventQueued].

Definition recordOwnership (org : uuid) (actor : option uuid) (transfer : uuid) (reason : string) (from to : option uuid) : Prog unit :=
  now ← call ANow;
  t ← call (ATry (fun s => sql_first (fun t => has_id transfer t && N.eqb (tr_Org t) org) (a_transfers s)));
  let row := match t with
             | Ok (Some t) => MkOwnership org transfer (tr_TeamID t) from to reason actor now (EscalationLevel (tr_SLA t)) (Breached (tr_SLA t))
             | _ => MkOwnership org transfer None from to reason actor now 0 false
             end in
  _ ← call (AWrite (WHistory row)); mret tt.
Definition auditDistribution (org : uuid) (actor : option uuid) (transfer : uuid) (event : string) (from to : option uuid) (detail : string) : Prog unit :=
  _ ← call (AEmit (EAudit org actor transfer event from to detail));
  if existsb (String.eqb event) ownershipEvents then recordOwnership org actor transfer event from to else mret tt.
Definition auditNewTransfer (t : AgentTransfer) : Prog unit :=
  let org := tr_Org t in
  match tr_AgentID t with
  | Some agent =>
      if bool_decide (op_Source (tr_Open t) = SourceAgentInitiated)
      then auditDistribution org (Some agent) (tr_ID t) distEventClaimed None (Some agent) "agent-initiated attendance"
      else match tr_By t with
           | Some by_ => auditDistribution org (Some by_) (tr_ID t) distEventAssigned None (Some agent) "assigned at creation"
           | None => auditDistribution org None (tr_ID t) distEventAutoAssigned None (Some agent) "chosen by the distribution strategy"
           end
  | None => auditDistribution org None (tr_ID t) distEventQueued None None "no agent assigned; waiting in the queue"
  end.

(** ** The statements, with their errors translated *)
Definition isActiveTransferConflict (e : att_error) : bool :=
  match e with AErrUnique index => String.eqb index ActiveTransferIndexName | _ => false end.
Definition createTransferRow (t : AgentTransfer) : Prog (Res unit) :=
  r ← call (AWrite (WCreate t));
  mret match r with
       | Err e => Err (if isActiveTransferConflict e then ErrTransferAlreadyActive else e)
       | Ok _ => Ok tt
       end.

(** The pickup columns a claim writes, and the row as the caller holds it afterwards. *)
Definition pickup_columns (old new : SLATracking) : option PickupUpdate :=
  match PickedUpAt old, PickedUpAt new with
  | None, Some x => Some (MkPickup x (if Breached new && negb (Breached old) then Some (BreachedAt new) else None))
  | _, _ => None
  end.
Definition claimTransfer (t : AgentTransfer) (agent : uuid) : Prog (Res (option AgentTransfer)) :=
  sla ← match PickedUpAt (tr_SLA t) with
        | None => now ← call ANow; mret (UpdateSLAOnPickup now (tr_SLA t))
        | Some _ => mret (tr_SLA t)
        end;
  r ← call (AWrite (WClaim (tr_ID t) agent (pickup_columns (tr_SLA t) sla)));
  mret match r with
       | Err e => Err e
       | Ok n => Ok (if n =? 1 then Some (set_sla (fun _ => sla) (set_agent (Some agent) t)) else None)
       end.
Definition moveTransfer (id : uuid) (from : option uuid) (u : MoveUpdate) : Prog (Res bool) :=
  r ← call (AWrite (WMove id from u));
  mret match r with Err e => Err e | Ok n => Ok (n =? 1) end.

(** ** The relationship manager *)
Definition assignOpenSalesOpportunityToAgent (org contact agent : uuid) : Prog unit :=
  o ← call (ATry (open_opportunity org contact));
  match o with
  | Ok (Some o) => match so_AssignedUserID o with
                   | None => _ ← call (AWrite (WAssignOpportunity (so_ID o) agent)); mret tt
                   | Some _ => mret tt
                   end
  | _ => mret tt
  end.
Definition pins (settings : option ChatbotSettings) (c : Contact) : bool :=
  match settings with Some st => AssignToSameAgent (AgentAssignment st) && bool_decide (c_AssignedUserID c = None) | None => false end.
Definition pin_contact (settings : option ChatbotSettings) (c : Contact) (agent : uuid) : Prog unit :=
  if pins settings c then
    _ ← call (AWrite (WAssignContact (c_ID c) (Some agent)));
    assignOpenSalesOpportunityToAgent (c_Org c) (c_ID c) agent
  else mret tt.
Definition pinCarteiraOnClaim (c : Contact) (agent : uuid) : Prog unit :=
  settings ← call (ASettings (c_Org c) ""); pin_contact settings c agent.

(** ** Creating an attendance *)
Definition with_deadlines (settings : option ChatbotSettings) (t : AgentTransfer) : Prog AgentTransfer :=
  match settings with
  | Some st => if sla_Enabled (SLA st) then now ← call ANow; mret (set_sla (SetSLADeadlines now st) t) else mret t
  | None => mret t
  end.
Definition with_pickup (t : AgentTransfer) : Prog AgentTransfer :=
  match tr_AgentID t with
  | Some _ => now ← call ANow; mret (set_sla (UpdateSLAOnPickup now) t)
  | None => mret t
  end.
Definition saveAndFinalizeTransfer (t : AgentTransfer) (account : WhatsAppAccount) (c : Contact) (settings : option ChatbotSettings)
    (endChatbotSession : bool) : Prog (Res unit) :=
  t ← with_deadlines settings t;
  t ← with_pickup t;
  r ← createTransferRow t;
  match r with
  | Err e => mret (Err e)
  | Ok _ =>
      _ ← auditNewTransfer t;
      _ ← match tr_AgentID t with Some agent => pin_contact settings c agent | None => mret tt end;
      _ ← (if endChatbotSession then now ← call ANow; _ ← call (AWrite (WCancelSessions (acc_Org account) (c_ID c) now)); mret tt else mret tt);
      _ ← call (AEmit (ETransferCreated t));
      mret (Ok tt)
  end.

Definition new_transfer (id : uuid) (account : WhatsAppAccount) (c : Contact) (source : TransferSource) (agent team : option uuid)
    (notes : string) (reason : option string) (now : instant) : AgentTransfer :=
  MkAttendance (MkOpening id (acc_Org account) (c_ID c) (acc_Name account) (c_Phone c) source reason now)
    TransferActive agent team None notes None None new_sla false.

Definition outside_hours (settings : option ChatbotSettings) : Prog bool :=
  match settings with
  | Some st =>
      let bh := BusinessHours st in
      if bh_Enabled bh && negb (bool_decide (bh_Hours bh = [])) then now ← call AWall; mret (negb (Within (bh_Hours bh) now)) else mret false
  | None => mret false
  end.
Definition out_of_hours_message (settings : option ChatbotSettings) (account : WhatsAppAccount) (c : Contact) : Prog unit :=
  match settings with
  | Some st => if String.eqb (bh_OutOfHoursMessage (BusinessHours st)) "" then mret tt
               else _ ← call (AMessage (acc_Org account) (acc_Name account) (c_ID c) (bh_OutOfHoursMessage (BusinessHours st))); mret tt
  | None => mret tt
  end.
Definition hasActive (org contact : uuid) : Prog bool := call (ARead false (hasActiveAgentTransfer org contact)).

Inductive TransferOutcome := TransferCreated (id : uuid) | TransferAlreadyActive | TransferOutsideHours.
Definition routingReasonPtr (reason : string) : option string := if String.eqb reason "" then None else Some reason.
Definition transferToQueue (account : WhatsAppAccount) (c : Contact) (source : TransferSource) (notes routingReason : string) : Prog (Res TransferOutcome) :=
  has ← hasActive (acc_Org account) (c_ID c);
  if (has : bool) then mret (Ok TransferAlreadyActive)
  else
    settings ← call (ASettings (acc_Org account) (acc_Name account));
    out ← outside_hours settings;
    if (out : bool) then mret (Ok TransferOutsideHours)
    else
      id ← call ANewID; now ← call ANow;
      r ← saveAndFinalizeTransfer (new_transfer id account c source None None notes (routingReasonPtr routingReason) now) account c settings false;
      mret match r with
           | Ok _ => Ok (TransferCreated id)
           | Err e => if bool_decide (e = ErrTransferAlreadyActive) then Ok TransferAlreadyActive else Err e
           end.
Definition createTransferToQueueRouted (account : WhatsAppAccount) (c : Contact) (source : TransferSource) (routingReason : string) : Prog unit :=
  r ← transferToQueue account c source "" routingReason;
  match r with
  | Ok TransferOutsideHours => settings ← call (ASettings (acc_Org account) (acc_Name account)); out_of_hours_message settings account c
  | _ => mret tt
  end.
Definition openAgentInitiatedTransfer (account : WhatsAppAccount) (c : Contact) (agent : uuid) : Prog (Res unit) :=
  settings ← call (ASettings (acc_Org account) (acc_Name account));
  id ← call ANewID; now ← call ANow;
  saveAndFinalizeTransfer (new_transfer id account c SourceAgentInitiated (Some agent) None "" None now) account c settings true.

Definition same_agent (account : WhatsAppAccount) (c : Contact) (settings : option ChatbotSettings) : Prog (option uuid) :=
  match settings, c_AssignedUserID c with
  | Some st, Some user =>
      if AssignToSameAgent (AgentAssignment st) then ok ← isAgentEligible (acc_Org account) user; mret (if (ok : bool) then Some user else None)
      else mret None
  | _, _ => mret None
  end.
Definition createTransferFromKeyword (account : WhatsAppAccount) (c : Contact) : Prog unit :=
  has ← hasActive (acc_Org account) (c_ID c);
  if (has : bool) then mret tt
  else
    settings ← call (ASettings (acc_Org account) (acc_Name account));
    out ← outside_hours settings;
    if (out : bool) then out_of_hours_message settings account c
    else
      agent ← same_agent account c settings;
      id ← call ANewID; now ← call ANow;
      _ ← saveAndFinalizeTransfer (new_transfer id account c SourceKeyword agent None "" None now) account c settings true;
      mret tt.
Definition createTransferToTeam (account : WhatsAppAccount) (c : Contact) (team : uuid) (notes : string) (source : TransferSource) (routingReason : string) : Prog unit :=
  has ← hasActive (acc_Org account) (c_ID c);
  if (has : bool) then mret tt
  else
    settings ← call (ASettings (acc_Org account) (acc_Name account));
    out ← outside_hours settings;
    if (out : bool) then out_of_hours_message settings account c
    else
      agent ← (if assigner then call (AAssign team (acc_Org account) []) else mret None);
      id ← call ANewID; now ← call ANow;
      _ ← saveAndFinalizeTransfer (new_transfer id account c source agent (Some team) notes (routingReasonPtr routingReason) now) account c settings true;
      mret tt.
Definition willChatbotHandle (account : WhatsAppAccount) (c : Contact) : Prog bool :=
  has ← hasActive (acc_Org account) (c_ID c);
  if (has : bool) then mret false
  else settings ← call (ASettings (acc_Org account) (acc_Name account)); mret (match settings with Some st => st_IsEnabled st | None => false end).

(** [errors.Is(err, ErrTransferAlreadyActive)] *)
Definition already_active {A} (r : Res A) : bool := match r with Err e => bool_decide (e = ErrTransferAlreadyActive) | Ok _ => false end.

(** ** The gate in front of every agent send *)
Definition canOverrideConversationOwner (user org : uuid) : Prog bool :=
  w ← call (APermission user "transfers" "write" org);
  if (w : bool) then mret true else call (APermission user "conversations" "view_all" org).
Definition activeFor (org contact : uuid) : Prog (option AgentTransfer) := call (ARead None (activeTransferFor org contact)).

(** [passes] rounds are left; the second only runs when the first lost a race. *)
Fixpoint ensure_passes (passes : nat) (account : WhatsAppAccount) (c : Contact) (user : uuid) (allowOtherOwner : bool) : Prog (Res unit) :=
  match passes with
  | O => mret (Err ErrConversationOwned)
  | S passes =>
      let org := c_Org c in
      t ← activeFor org (c_ID c);
      match t with
      | None =>
          r ← openAgentInitiatedTransfer account c user;
          if already_active r then ensure_passes passes account c user allowOtherOwner else mret r
      | Some t =>
          match tr_AgentID t with
          | None =>
              r ← claimTransfer t user;
              match r with
              | Err e => mret (Err e)
              | Ok None =>
                  _ ← auditDistribution org (Some user) (tr_ID t) distEventConflict None None "claim on send lost the race";
                  ensure_passes passes account c user allowOtherOwner
              | Ok (Some t') =>
                  _ ← auditDistribution org (Some user) (tr_ID t) distEventClaimed None (Some user) "claimed by sending a message";
                  _ ← pinCarteiraOnClaim c user;
                  _ ← call (AEmit (ETransferAssigned t'));
                  mret (Ok tt)
              end
          | Some owner =>
              if N.eqb owner user then mret (Ok tt)
              else
                ok ← (if allowOtherOwner then mret true else canOverrideConversationOwner user org);
                if (ok : bool) then mret (Ok tt)
                else
                  _ ← auditDistribution org (Some user) (tr_ID t) distEventConflict (Some owner) None "send refused: conversation owned by another agent";
                  mret (Err ErrConversationOwned)
          end
      end
  end.
Definition ensureAgentOwnsConversation := ensure_passes 2.

(** ** Returning and reassigning *)
Definition returnAgentTransfer (reason : string) (row : AgentTransfer * option Contact) : Prog Z :=
  let '(t, c) := row in
  r ← moveTransfer (tr_ID t) (tr_AgentID t) (MkMove None None None);
  match r with
  | Ok true =>
      _ ← auditDistribution (tr_Org t) None (tr_ID t) reason (tr_AgentID t) None "";
      _ ← match c, tr_AgentID t with
          | Some c, Some agent =>
              if negb (String.eqb reason distEventReturnedAwayTimeout) && negb (N.eqb (tr_Contact t) nil_uuid) &&
                 bool_decide (c_AssignedUserID c = Some agent)
              then _ ← call (AWrite (WAssignContact (tr_Contact t) None)); mret tt
              else mret tt
          | _, _ => mret tt
          end;
      _ ← call (AEmit (ETransferAssigned (set_agent None t)));
      mret 1
  | _ => mret 0
  end.
Fixpoint sum_prog {A} (f : A -> Prog Z) (l : list A) : Prog Z :=
  match l with [] => mret 0 | x :: l => n ← f x; m ← sum_prog f l; mret (n + m) end.

(** [Preload("Contact")]: the row of the contact unless it is deleted. *)
Definition preload_contact (s : Att) (t : AgentTransfer) : option Contact := sql_first (contact_id (tr_Contact t)) (a_contacts s).
Definition returnAgentTransfers (user org : uuid) (reason : string) : Prog Z :=
  rows ← call (ATry (fun s => map (fun t => (t, preload_contact s t)) (List.filter (active_of_agent org user) (a_transfers s))));
  match rows with Ok rows => sum_prog (returnAgentTransfer reason) rows | Err _ => mret 0 end.
Definition ReturnAgentTransfersToQueue (user org : uuid) : Prog Z := returnAgentTransfers user org distEventReturnedAway.

Definition reassignAwayTransfer (t : AgentTransfer) (awayAgent : uuid) (toAgentEvent : string) : Prog bool :=
  if negb (bool_decide (tr_AgentID t = Some awayAgent)) then mret false
  else
    to ← match tr_TeamID t with
         | Some team => if assigner then call (AAssign team (tr_Org t) [awayAgent]) else mret None
         | None => mret None
         end;
    r ← moveTransfer (tr_ID t) (Some awayAgent) (MkMove to None None);
    match r with
    | Ok true =>
        let event := match to with Some _ => toAgentEvent | None => distEventReturnedAwayTimeout end in
        _ ← auditDistribution (tr_Org t) None (tr_ID t) event (Some awayAgent) to "";
        let t := set_agent to t in
        _ ← call (AEmit (ETransferAssigned t));
        _ ← match to with Some _ => call (AEmit (EWebhook "transfer.assigned" t)) | None => mret tt end;
        mret true
    | _ => mret false
    end.

(** ** The tolerance for agents who are away *)
Definition minAwayReassignMins : Z := 1.
Definition maxAwayReassignMins : Z := 1440.
Definition defaultAwayReassignMins : Z := 10.
Definition awayToleranceDuration (mins : Z) : duration :=
  let mins := if (mins <? minAwayReassignMins) || (maxAwayReassignMins <? mins) then defaultAwayReassignMins else mins in
  wrap64 (mins * minute).
Definition awayTolerance (org : uuid) : Prog (option duration) :=
  settings ← call (ASettings org "");
  mret match settings with
       | Some st => if AwayReassignEnabled (AgentAssignment st) then Some (awayToleranceDuration (AwayReassignAfterMins (AgentAssignment st))) else None
       | None => None
       end.
Definition ReevaluateOnCustomerReply (org contact : uuid) : Prog bool :=
  tolerance ← awayTolerance org;
  match tolerance with
  | None => mret false
  | Some tolerance =>
      t ← activeFor org contact;
      match t with
      | None => mret false
      | Some t =>
          match tr_AgentID t with
          | None => mret false
          | Some agent =>
              now ← call ANow;
              away ← call (ARead false (awayLongerThan org agent tolerance now));
              if negb away then mret false
              else
                waits ← call (ARead false (isCustomerWaiting (tr_ID t)));
                if negb waits then mret false else reassignAwayTransfer t agent distEventReassignedCustomerWaiting
          end
      end
  end.

Definition sweep_transfer (agent id : uuid) : Prog Z :=
  t ← call (ATry (fun s => sql_first (has_id id) (a_transfers s)));
  match t with
  | Ok (Some t) => ok ← reassignAwayTransfer t agent distEventReassignedAwayTimeout; mret (if (ok : bool) then 1 else 0)
  | _ => mret 0
  end.
Definition sweep_agent (org agent : uuid) : Prog Z :=
  ids ← call (ARead [] (customerWaitingTransferIDs org agent)); sum_prog (sweep_transfer agent) ids.
Definition sweepAwayOrganization (org : uuid) (mins : Z) (now : instant) : Prog Z :=
  agents ← call (ATry (awayAgents org (now - awayToleranceDuration mins)));
  match agents with Ok agents => sum_prog (sweep_agent org) agents | Err _ => mret 0 end.
Definition tolerant_row (st : ChatbotSettings) : bool :=
  String.eqb (st_Account st) "" && AwayReassignEnabled (AgentAssignment st) && negb (st_Deleted st).
Definition SweepAway (now : instant) : Prog Z :=
  orgs ← call (ATry (fun s => map (fun st => (st_Org st, AwayReassignAfterMins (AgentAssignment st))) (List.filter tolerant_row (a_settings s))));
  match orgs with Ok orgs => sum_prog (fun o => sweepAwayOrganization (fst o) (snd o) now) orgs | Err _ => mret 0 end.
Definition SweepAwayOrganization (org : uuid) (now : instant) : Prog Z :=
  st ← call (ATry (fun s => sql_first (fun st => N.eqb (st_Org st) org && tolerant_row st) (a_settings s)));
  match st with Ok (Some st) => sweepAwayOrganization org (AwayReassignAfterMins (AgentAssignment st)) now | _ => mret 0 end.
End Handlers.

(** ** What the bookkeeping may do *)

(** Everything but a write: reads, the environment, the audit log. *)
Definition bookkeeping X (op : att_op X) : Prop :=
  match op with
  | AWrite (WHistory _) => True
  | AWrite _ | AClose _ _ _ | ARelease _ | AStatus _ _ _ | APick _ _ _ _ _ => False
  | _ => True
  end.
Lemma audit_only org actor id event from to detail : only bookkeeping (auditDistribution org actor id event from to detail).
Proof. unfold auditDistribution, recordOwnership. solve_only. Qed.
#[export] Hint Resolve audit_only : whatc.

(** An answer some state of the database gives. *)
Definition plausible X (op : att_op X) (x : X) : Prop := exists s s', att_sem X op s x s'.
Abbreviation attends p g Q := (ensures (fun _ _ _ => True) (trace_contract plausible) p g Q).

(** ** Owning a conversation *)
Definition owns (s : Att) (id user : uuid) : Prop :=
  exists t, t ∈ a_transfers s /\ tr_ID t = id /\ tr_Status t = TransferActive /\ tr_Deleted t = false /\ tr_AgentID t = Some user.
(** Whatever the state it happens in, after the event [user] owns the attendance [id]. *)
Definition makes_owner (id user : uuid) (e : event att_op) : Prop :=
  match e with Ev op x => forall s s', att_ok s -> att_sem _ op s x s' -> owns s' id user end.

Lemma activeTransferFor_in org contact s t :
  activeTransferFor org contact s = Some t -> t ∈ a_transfers s /\ active_of org contact t = true.
Proof.
  unfold activeTransferFor. intros H%sql_min_in%list_elem_of_In%List.filter_In. by rewrite list_elem_of_In.
Qed.
Lemma active_of_spec org contact t :
  active_of org contact t = true <-> tr_Org t = org /\ tr_Contact t = contact /\ tr_Status t = TransferActive /\ tr_Deleted t = false.
Proof. unfold active_of, is_status. rewrite !andb_true_iff, !N.eqb_eq, bool_decide_eq_true, negb_true_iff. tauto. Qed.

Lemma read_makes_owner org contact t user :
  tr_AgentID t = Some user -> makes_owner (tr_ID t) user (Ev (ARead None (activeTransferFor org contact)) (Some t)).
Proof.
  intros Ha s s' _ [-> [H | ?]]; [| done]. symmetry in H. apply activeTransferFor_in in H as [Ht H].
  apply active_of_spec in H as (_ & _ & Hs & Hd). by exists t.
Qed.
Lemma create_makes_owner t user :
  tr_AgentID t = Some user -> tr_Status t = TransferActive -> tr_Deleted t = false -> makes_owner (tr_ID t) user (Ev (AWrite (WCreate t)) (Ok tt)).
Proof.
  intros Ha Hs Hd s s' _ H. apply exec_ok_sem in H. simpl in H. repeat case_match; simplify_eq.
  exists t. split_and!; try done. simpl. apply elem_of_app. right. by left.
Qed.
Lemma claim_makes_owner id user p : makes_owner id user (Ev (AWrite (WClaim id user p)) (Ok 1)).
Proof.
  intros s s' Hok H. apply exec_ok_sem in H. simpl in H. injection H as Hn <-.
  destruct (cas_update (claimable id) (fun t => set_sla (apply_pickup p) (set_agent (Some user) t)) id s Hok) as [(H0 & _) | (_ & i & t & Hi & Ht & ->)].
  - intros t. unfold claimable, has_id. intros. bool_hyps. by apply N.eqb_eq.
  - lia.
  - unfold claimable, has_id in Ht. rewrite !andb_true_iff, N.eqb_eq in Ht. destruct Ht as [[[Hid Hd] Hs] _].
    eexists. split; [simpl; apply list_elem_of_insert; by eapply lookup_lt_Some |]. simpl. split_and!; try done; [by apply active_status |].
    by apply negb_true_iff.
Qed.

Definition of_contact (c : Contact) (t : AgentTransfer) : Prop := tr_Org t = c_Org c /\ tr_Contact t = c_ID c.
(** What has happened when [user] may send: something made the attendance of this contact
    theirs, or it is somebody else's and the user was allowed to act on it anyway. *)
Definition gate_passed (c : Contact) (user : uuid) (allowOtherOwner : bool) (g : list (event att_op)) : Prop :=
  (exists t e, of_contact c t /\ e ∈ g /\ makes_owner (tr_ID t) user e) \/
  ((allowOtherOwner = true \/ exists r a, (r, a) ∈ [("transfers", "write"); ("conversations", "view_all")] /\
      Ev (APermission user r a (c_Org c)) true ∈ g) /\
   exists t owner, of_contact c t /\ Ev (ARead None (activeTransferFor (c_Org c) (c_ID c))) (Some t) ∈ g /\
     tr_AgentID t = Some owner /\ owner <> user).
Definition gated c user allow (r : Res unit) (g : list (event att_op)) : Prop := r = Ok tt -> gate_passed c user allow g.

Lemma save_makes_owner t account c settings fin user g :
  tr_AgentID t = Some user -> tr_Status t = TransferActive -> tr_Deleted t = false ->
  attends (saveAndFinalizeTransfer t account c settings fin) g (fun r g' => r = Ok tt -> exists e, e ∈ g' /\ makes_owner (tr_ID t) user e).
Proof.
  intros Ha Hs Hd. unfold saveAndFinalizeTransfer.
  set (like := fun (t' : AgentTransfer) (_ : list (event att_op)) => tr_Open t' = tr_Open t /\ tr_AgentID t' = Some user /\ tr_Status t' = TransferActive /\ tr_Deleted t' = false).
  apply ensures_bind, (ensures_mono _ _ _ _ like).
  2: { unfold with_deadlines. repeat case_match; simpl; split_and?; try done; intros; by split_and!. }
  intros t1 g1 (Ho1 & Ha1 & Hs1 & Hd1). apply ensures_bind, (ensures_mono _ _ _ _ like).
  2: { unfold with_pickup. rewrite Ha1. simpl. split; [done |]. intros; by split_and!. }
  intros t2 g2 (Ho2 & Ha2 & Hs2 & Hd2). apply ensures_bind. unfold createTransferRow. apply ensures_call_bind; [done |].
  intros r g3 [-> Hr]. simpl. destruct r as [[] | e]; [| simpl; by intros].
  apply ensures_grows. intros a l _. exists (Ev (AWrite (WCreate t2)) (Ok tt)). split; [apply elem_of_app; right; by left |].
  unfold tr_ID. rewrite <- Ho2. by apply create_makes_owner.
Qed.

Lemma read_of_contact c t s s' :
  att_sem _ (ARead None (activeTransferFor (c_Org c) (c_ID c))) s (Some t) s' -> of_contact c t.
Proof. intros [_ [H | ?]]; [| done]. symmetry in H. apply activeTransferFor_in in H as [_ H]. apply active_of_spec in H. by destruct H as (? & ? & _). Qed.

Lemma claim_gate c t user g (Q : Res (option AgentTransfer) -> list (event att_op) -> Prop) :
  (forall e l, Q (Err e) (l ++ g)) -> (forall l, Q (Ok None) (l ++ g)) ->
  (forall p t' l, Q (Ok (Some t')) (Ev (AWrite (WClaim (tr_ID t) user p)) (Ok 1) :: l ++ g)) ->
  of_contact c t -> attends (claimTransfer t user) g Q.
Proof.
  intros He Hn Hs Hc. unfold claimTransfer. apply ensures_bind.
  apply (ensures_mono _ _ _ _ (fun _ g' => exists l, g' = l ++ g)).
  2: { destruct (PickedUpAt _); simpl; [by exists [] |]. split; [done |]. intros x g' [-> _]. by exists [Ev ANow x]. }
  intros sla g1 [l ->]. apply ensures_call_bind; [done |]. intros r g2 [-> _]. simpl. destruct r as [n | e].
  - destruct (Z.eqb_spec n 1) as [-> | _]; [apply Hs |]. apply (Hn (Ev _ (Ok n) :: l)).
  - apply (He e (Ev _ (Err e) :: l)).
Qed.

Lemma passes_gated n account c user allow g :
  acc_Org account = c_Org c -> attends (ensure_passes n account c user allow) g (gated c user allow).
Proof.
  intros Horg. revert g. induction n as [| n IH]; intros g; cbn [ensure_passes]; [by intros ? |]. unfold activeFor.
  apply ensures_call_bind; [done |]. intros [t |] g1 [-> [s [s' Hp]]].
  2: { apply ensures_bind. unfold openAgentInitiatedTransfer. do 3 (apply ensures_call_bind; [done |]; intros ? ? [-> _]).
    eapply ensures_mono; [| by apply save_makes_owner]. intros r g4 Hr. destruct (already_active r); [apply IH |].
    intros Hok. destruct (Hr Hok) as (e & He & Hm). left. eexists _, e. split; [| split; [exact He | exact Hm]]. by split. }
  apply read_of_contact in Hp as Hc. destruct (tr_AgentID t) as [owner |] eqn:Ea.
  - destruct (N.eqb_spec owner user) as [-> | Hne].
    { intros _. left. exists t, (Ev (ARead None (activeTransferFor (c_Org c) (c_ID c))) (Some t)). split_and!; [done | by left | by apply read_makes_owner]. }
    assert (Hpass : forall g', g' = Ev (ARead None (activeTransferFor (c_Org c) (c_ID c))) (Some t) :: g \/
        (exists l, g' = l ++ Ev (ARead None (activeTransferFor (c_Org c) (c_ID c))) (Some t) :: g) ->
      (allow = true \/ exists r a, (r, a) ∈ [("transfers", "write"); ("conversations", "view_all")] /\ Ev (APermission user r a (c_Org c)) true ∈ g') ->
      gated c user allow (Ok tt) g').
    { intros g' Hg Hpm _. right. split; [done |]. exists t, owner. split_and!; try done.
      destruct Hg as [-> | [l ->]]; [by left | apply elem_of_app; right; by left]. }
    destruct allow; [apply Hpass; auto |].
    unfold canOverrideConversationOwner. apply ensures_bind, ensures_call_bind; [done |]. intros [] g2 [-> _].
    { apply Hpass; [right; by eexists [_] | right; eexists _, _; split; [by left | by left]]. }
    split; [done |]. intros [] g3 [-> _].
    { apply Hpass; [right; by eexists [_; _] | right; eexists _, _; split; [by right; left | by left]]. }
    apply ensures_bind, ensures_grows. by intros.
  - apply ensures_bind, (claim_gate c); [by intros | | | done].
    + intros l. apply ensures_bind. apply ensures_grows. intros _ l2. apply IH.
    + intros p t' l. apply ensures_grows. intros r l2 _. left.
      exists t, (Ev (AWrite (WClaim (tr_ID t) user p)) (Ok 1)). split_and!; [done | | apply claim_makes_owner]. apply elem_of_app; right; by left.
Qed.

(** C18: the gate in front of every agent send. Whatever else runs meanwhile and whatever fails,
    [ensureAgentOwnsConversation] answers [Ok] only after something made the contact's
    attendance the sender's (it already was, a claim was won, or the sender opened it), or, for
    an attendance of somebody else, after the caller's exemption or one of the two permissions:
    the loser of a race, and an agent writing into another's conversation, never get to send. *)
Theorem send_gate account c user allowOtherOwner :
  acc_Org account = c_Org c ->
  attends (ensureAgentOwnsConversation account c user allowOtherOwner) [] (gated c user allowOtherOwner).
Proof. apply passes_gated. Qed.

(** ** Sweeping the attendances of agents who are away *)
Section Sweep.
Context (assigner : bool) (now : instant).

(** What the sweep may do, after what: move an attendance in which the customer waits, from the
    agent it was listed for, who was away for the tolerance, to nobody or to whom the assigner
    chose without that agent; and write the history. *)
Definition sweep_move (id : uuid) (from : option uuid) (u : MoveUpdate) (g : list (event att_op)) : Prop :=
  exists org mins agents agent ids,
    from = Some agent /\ mv_Team u = None /\ mv_Pickup u = None /\
    Ev (ATry (awayAgents org (now - awayToleranceDuration mins))) (Ok agents) ∈ g /\ agent ∈ agents /\
    Ev (ARead [] (customerWaitingTransferIDs org agent)) ids ∈ g /\ id ∈ ids /\
    (mv_To u = None \/ exists team torg to, mv_To u = Some to /\ Ev (AAssign team torg [agent]) (Some to) ∈ g /\ to <> agent).
Definition sweep_pre X (op : att_op X) (g : list (event att_op)) : Prop :=
  match op with AWrite (WMove id from u) => sweep_move id from u g | _ => bookkeeping X op end.

Abbreviation sweeps p g Q := (ensures sweep_pre (trace_contract plausible) p g Q).

Lemma bookkeeping_pre X (op : att_op X) g : bookkeeping X op -> sweep_pre X op g.
Proof. destruct op; try done. by destruct w. Qed.

(** Whom the assigner chooses is not who it was told to leave out, and is eligible then. *)
Lemma assign_excludes team org exclude to s s' :
  att_sem _ (AAssign team org exclude) s (Some to) s' ->
  (to ∉ exclude) /\ exists presence, eligible presence (team_view s) org to.
Proof.
  intros (pr & ca & n & w & st & w' & Hw & Ha & _). apply assigned_available in Ha as (cfg & _ & _ & Hu).
  apply available_in in Hu as (_ & Hx & He). rewrite Hw in He. eauto.
Qed.

Lemma sum_sweeps {A} (f : A -> Prog Z) l (I : list (event att_op) -> Prop) :
  (forall x g, x ∈ l -> I g -> sweeps (f x) g (fun _ => I)) -> forall g, I g -> sweeps (sum_prog f l) g (fun _ => I).
Proof.
  induction l as [| x l IH]; intros Hf g HI; simpl; [done |]. apply ensures_bind.
  eapply ensures_mono; [| apply Hf; [by left | done]]. intros n g1 HI1. apply ensures_bind.
  eapply ensures_mono; [| apply IH; [| exact HI1]]; [done |]. intros y g2 Hy. apply Hf. by right.
Qed.

(** What was listed stays listed. *)
Definition listed_away org mins agent (g : list (event att_op)) : Prop :=
  exists agents, Ev (ATry (awayAgents org (now - awayToleranceDuration mins))) (Ok agents) ∈ g /\ agent ∈ agents.
Definition listed_waiting org agent id (g : list (event att_op)) : Prop :=
  exists ids, Ev (ARead [] (customerWaitingTransferIDs org agent)) ids ∈ g /\ id ∈ ids.
Lemma listed_away_grows org mins agent l g : listed_away org mins agent g -> listed_away org mins agent (l ++ g).
Proof. intros (a & H & ?). exists a. split; [apply elem_of_app; by right | done]. Qed.
Lemma listed_waiting_grows org agent id l g : listed_waiting org agent id g -> listed_waiting org agent id (l ++ g).
Proof. intros (a & H & ?). exists a. split; [apply elem_of_app; by right | done]. Qed.

Lemma reassign_sweeps org mins agent t why (I : list (event att_op) -> Prop) g :
  (forall l g, I g -> I (l ++ g)) -> listed_away org mins agent g -> listed_waiting org agent (tr_ID t) g -> I g ->
  sweeps (reassignAwayTransfer assigner t agent why) g (fun _ => I).
Proof.
  intros Hgrow Ha Hw HI. unfold reassignAwayTransfer. case_match; [done |].
  apply ensures_bind, (ensures_mono _ _ _ _ (fun to g' => (exists l, g' = l ++ g) /\
    (to = None \/ exists team torg x, to = Some x /\ Ev (AAssign team torg [agent]) (Some x) ∈ g' /\ x <> agent))).
  2: { destruct (tr_TeamID t) as [team |]; [destruct assigner |]; try (split; [by exists [] | by left]).
       split; [done |]. intros x g' [-> (s & s' & Hs)]. split; [by eexists [_] |]. destruct x as [x |]; [right | by left].
       exists team, (tr_Org t), x. split_and!; [done | by left |]. apply assign_excludes in Hs as [Hx _]. intros ->. apply Hx. by left. }
  intros to g1 [[l ->] Hto]. unfold moveTransfer. apply ensures_bind, ensures_call_bind.
  { destruct Ha as (agents & H1 & H2), Hw as (ids & H3 & H4). exists org, mins, agents, agent, ids.
    split_and!; try done; apply elem_of_app; by right. }
  intros r g2 [-> _]. apply ensures_ret. destruct r as [n | e]; [| apply (Hgrow (_ :: l)), HI].
  destruct (n =? 1); [| apply (Hgrow (_ :: l)), HI].
  eapply (ensures_only bookkeeping); [apply bookkeeping_pre | | intros a l2; by apply Hgrow, (Hgrow (_ :: l))].
  solve_only.
Qed.

Lemma sql_first_has id ts t : sql_first (has_id id) ts = Some t -> tr_ID t = id.
Proof. intros [_ H]%List.find_some. by apply has_id_eq. Qed.

Lemma agent_sweeps org mins agent g (I : list (event att_op) -> Prop) :
  (forall l g', I g' -> I (l ++ g')) -> (forall g', I g' -> listed_away org mins agent g') -> I g ->
  sweeps (sweep_agent assigner org agent) g (fun _ => I).
Proof.
  intros Hgrow Ha HI. unfold sweep_agent. apply ensures_call_bind; [done |]. intros ids g1 [-> _].
  set (e := Ev (ARead [] (customerWaitingTransferIDs org agent)) ids).
  eapply (ensures_mono _ _ _ _ (fun _ g' => I g' /\ e ∈ g')); [by intros ? ? [? _] |].
  apply (sum_sweeps _ _ (fun g' => I g' /\ e ∈ g')); [| split; [by apply (Hgrow [_]) | by left]].
  intros id g2 Hid [HI2 He]. unfold sweep_transfer. apply ensures_call_bind; [done |]. intros t g3 [-> (s & s' & _ & Ht)].
  assert (HI3 : forall x : event att_op, I (x :: g2) /\ e ∈ x :: g2) by (intros x; split; [by apply (Hgrow [_]) | by right]).
  destruct t as [[t |] | er]; [| by apply ensures_ret | by apply ensures_ret].
  destruct Ht as [Ht | ?]; [| done]. injection Ht as Ht. symmetry in Ht. apply sql_first_has in Ht as <-.
  apply ensures_bind. eapply ensures_mono; [| eapply (reassign_sweeps org mins agent t _ (fun g' => I g' /\ e ∈ g'))].
  - intros b g4 H4. by apply ensures_ret.
  - intros l g' [H1 H2]. split; [by apply Hgrow | apply elem_of_app; by right].
  - apply Ha. apply HI3.
  - exists ids. split; [apply HI3 | done].
  - apply HI3.
Qed.

Lemma organization_sweeps org mins g (I : list (event att_op) -> Prop) :
  (forall l g', I g' -> I (l ++ g')) -> I g -> sweeps (sweepAwayOrganization assigner org mins now) g (fun _ => I).
Proof.
  intros Hgrow HI. unfold sweepAwayOrganization. apply ensures_call_bind; [done |]. intros agents g1 [-> _].
  destruct agents as [agents | e]; [| by apply ensures_ret, (Hgrow [_])].
  set (e := Ev (ATry (awayAgents org (now - awayToleranceDuration mins))) (Ok agents)).
  eapply (ensures_mono _ _ _ _ (fun _ g' => I g' /\ e ∈ g')); [by intros ? ? [? _] |].
  apply (sum_sweeps _ _ (fun g' => I g' /\ e ∈ g')); [| split; [by apply (Hgrow [_]) | by left]].
  intros agent g2 Hin [HI2 He]. apply (agent_sweeps org mins); [| | by split].
  - intros l g' [H1 H2]. split; [by apply Hgrow | apply elem_of_app; by right].
  - intros g' [_ H']. by exists agents.
Qed.
End Sweep.

(** The sweep of away agents moves an attendance only from the agent it listed, who had been
    away for the organization's tolerance, and only when it listed the customer as waiting for
    that agent; it hands it to nobody or to another agent the assigner chose; besides moves it
    only writes the history. With [owner_changes_named], an attendance that somebody else took
    meanwhile is left alone. *)
Theorem sweep_takes_only_from_the_away assigner now :
  ensures (sweep_pre now) (trace_contract plausible) (SweepAway assigner now) [] (fun _ _ => True).
Proof.
  unfold SweepAway. apply ensures_call_bind; [done |]. intros [orgs | e] g1 [-> _]; [| by apply ensures_ret].
  apply (sum_sweeps now _ _ (fun _ => True)); [| done]. intros o g2 _ _. by apply organization_sweeps.
Qed.

(** ** The tolerance *)
Lemma tolerance_range mins : 1 * minute <= awayToleranceDuration mins <= 1440 * minute.
Proof.
  unfold awayToleranceDuration, minAwayReassignMins, maxAwayReassignMins, defaultAwayReassignMins, minute, second.
  destruct ((mins <? 1) || (1440 <? mins)) eqn:E; [by vm_compute |]. bool_hyps.
  rewrite wrap64_id; unfold min_int64, max_int64; lia.
Qed.

(** ** Witnesses *)
Definition ex_account : WhatsAppAccount := MkAcc 9 "main".
Lemma send_gate_witness :
  acc_Org ex_account = c_Org ex_contact /\
  attends (ensureAgentOwnsConversation ex_account ex_contact 22 false) [] (gated ex_contact 22 false) /\
  fst (prog_run (att_run 100 None false) (ensureAgentOwnsConversation ex_account ex_contact 22 false) (ex_att [ex_waiting])) = Ok tt /\
  fst (prog_run (att_run 100 None false) (ensureAgentOwnsConversation ex_account ex_contact 22 false) (ex_att [ex_owned])) = Err ErrConversationOwned /\
  map tr_AgentID (a_transfers (snd (prog_run (att_run 100 None false) (ensureAgentOwnsConversation ex_account ex_contact 22 false) (ex_att [])))) = [Some 22%N].
Proof.
  split; [reflexivity |]. split; [exact (send_gate ex_account ex_contact 22 false eq_refl) |]. vm_compute. split; [| split]; reflexivity.
Defined.
