(* ===== verification/TransferApi.v ===== *)
(** The requests on attendances ([internal/handlers/agent_transfers.go], [contact_status.go],
    [sendTransferConflict] of [distribution.go]): assigning, unassigning, picking, creating,
    resuming, and setting a conversation's status. *)
From S2P Require Import Prelude Effects Sql Assignment BusinessHours Attendance Distribution.

(** What the client is answered. *)
Inductive reply := Reply (code : Z) (message : string).
Definition is_success (r : reply) : bool := match r with Reply code _ => code =? 200 end.

(** ** Closing *)
Definition clear_tracking (contact : uuid) : Prog unit := _ ← call (AWrite (WTracking contact None false)); mret tt.
Definition notify_status (c : Contact) (to : ContactStatus) (actor : option uuid) : Prog unit :=
  call (AEmit (EContactStatus (c_ID c) (c_Status c) to actor)).
Definition closeAttendance (t : AgentTransfer) (c : option Contact) (u : CloseUpdate) (actor : option uuid) (webhook : string) : Prog (Res unit) :=
  r ← call (AClose (tr_ID t) u c);
  match r with
  | Err e => mret (Err e)
  | Ok changed =>
      _ ← match c with
          | Some c =>
              _ ← (if (changed : bool) then notify_status c ContactStatusResolved actor else mret tt);
              clear_tracking (c_ID c)
          | None => mret tt
          end;
      _ ← (if String.eqb webhook "" then mret tt else call (AEmit (EWebhook webhook t)));
      _ ← recordOwnership (tr_Org t) actor (tr_ID t) "closed" (tr_AgentID t) None;
      mret (Ok tt)
  end.
Definition releaseContact (c : Contact) (actor : option uuid) : Prog (Res unit) :=
  r ← call (ARelease c);
  match r with
  | Err e => mret (Err e)
  | Ok changed => _ ← (if (changed : bool) then notify_status c ContactStatusResolved actor else mret tt); mret (Ok tt)
  end.
Definition resumed (now : instant) (actor : option uuid) : CloseUpdate := MkClose CloseResumed now (Some actor) None.
Definition closeActiveAttendanceForContact (c : Contact) (actor : option uuid) : Prog (Res unit) :=
  r ← call (ATry (activeTransferFor (c_Org c) (c_ID c)));
  match r with
  | Err e => mret (Err e)
  | Ok None => releaseContact c actor
  | Ok (Some t) =>
      now ← call ANow;
      r ← closeAttendance t (Some c) (resumed now actor) actor "transfer.resumed";
      match r with
      | Err e => mret (Err e)
      | Ok _ => _ ← call (AEmit (ETransferResumed (apply_close (resumed now actor) t))); mret (Ok tt)
      end
  end.

Definition find_transfer (id org : uuid) : Prog (Res (option AgentTransfer)) :=
  call (ATry (fun s => sql_first (fun t => has_id id t && N.eqb (tr_Org t) org) (a_transfers s))).
Definition find_contact (id org : uuid) : Prog (Res (option Contact)) :=
  call (ATry (fun s => sql_first (fun c => contact_id id c && N.eqb (c_Org c) org) (a_contacts s))).

Definition ResumeFromTransfer (org user id : uuid) : Prog reply :=
  t ← find_transfer id org;
  match t with
  | Ok (Some t) =>
      if negb (is_status TransferActive t) then mret (Reply 400 "Transfer is not active")
      else
        c ← call (ATry (fun s => sql_first (contact_id (tr_Contact t)) (a_contacts s)));
        now ← call ANow;
        r ← closeAttendance t (match c with Ok c => c | Err _ => None end) (resumed now (Some user)) (Some user) "transfer.resumed";
        match r with
        | Err _ => mret (Reply 500 "Failed to resume transfer")
        | Ok _ =>
            _ ← call (AEmit (ETransferResumed (apply_close (resumed now (Some user)) t)));
            mret (Reply 200 "Transfer resumed, chatbot is now active for this contact")
        end
  | _ => mret (Reply 404 "Transfer not found")
  end.

Definition UpdateContactStatus (org user id : uuid) (to : option ContactStatus) : Prog reply :=
  ok ← call (APermission user "contacts" "write" org);
  if negb ok then mret (Reply 403 "You do not have permission to change contact status")
  else match to with
  | None => mret (Reply 400 "contact_status must be one of: new, in_progress, resolved")
  | Some to =>
      c ← find_contact id org;
      match c with
      | Ok (Some c) =>
          see ← call (AInteract user org (c_ID c));
          if negb see then mret (Reply 403 "You do not have access to this conversation")
          else
            r ← (if bool_decide (to = ContactStatusResolved) then closeActiveAttendanceForContact c (Some user)
                 else
                   r ← call (AStatus c to []);
                   match r with
                   | Err e => mret (Err e)
                   | Ok changed => _ ← (if (changed : bool) then notify_status c to (Some user) else mret tt); mret (Ok tt)
                   end);
            mret match r with Ok _ => Reply 200 "" | Err _ => Reply 500 "Failed to update contact status" end
      | _ => mret (Reply 404 "Contact not found")
      end
  end.

(** ** Assigning *)
Section Api.
(** [uuid.Parse], and the organization each account belongs to. *)
Context (assigner : bool) (parse_uuid : string -> option uuid) (org_of : uuid -> uuid).

Definition sendTransferConflict (org user id : uuid) : Prog reply :=
  _ ← auditDistribution org (Some user) id distEventConflict None None "assignment changed concurrently";
  _ ← find_transfer id org;
  mret (Reply 409 "Transfer was changed by someone else").
Definition find_user (id org : uuid) : Prog (option AgentUser) :=
  r ← call (ATry (fun s => sql_first (fun u => N.eqb (au_ID u) id && N.eqb (org_of id) org && negb (au_Deleted u)) (t_users (a_teams s))));
  mret (match r with Ok u => u | Err _ => None end).
Definition team_exists (only_active : bool) (id org : uuid) (s : Att) : bool :=
  existsb (fun t => N.eqb (tm_ID t) id && N.eqb (org_of id) org && (tm_IsActive t || negb only_active) && negb (tm_Deleted t)) (t_teams (a_teams s)).

(** An agent named by the request: who they are, or the answer. *)
Definition named_agent (org : uuid) (s : string) : Prog (uuid + reply) :=
  match parse_uuid s with
  | None => mret (inr (Reply 400 "Invalid agent_id"))
  | Some agent =>
      u ← find_user agent org;
      match u with
      | None => mret (inr (Reply 404 "Agent not found"))
      | Some u => reason ← agentIneligibleReason assigner org u;
                  mret (if String.eqb reason "" then inl agent else inr (Reply 400 reason))
      end
  end.
(** The target of [AssignAgentTransfer]; [inl None] returns the attendance to the queue. *)
Definition assign_target (org user : uuid) (write : bool) (t : AgentTransfer) (req : option string) : Prog (option uuid + reply) :=
  match req with
  | Some s =>
      if String.eqb s "" then mret (inl None)
      else if negb write then mret (inr (Reply 403 "You don't have permission to assign transfers to others"))
      else r ← named_agent org s; mret (match r with inl agent => inl (Some agent) | inr e => inr e end)
  | None =>
      if write then mret (inl None)
      else match tr_AgentID t with
           | Some owner => if N.eqb owner user then mret (inl (Some user))
                           else r ← sendTransferConflict org user (tr_ID t); mret (inr r)
           | None => mret (inl (Some user))
           end
  end.
Definition assign_team (org : uuid) (write : bool) (t : AgentTransfer) (req : option string) : Prog (option (option uuid) + reply) :=
  match req with
  | None => mret (inl None)
  | Some s =>
      if negb write then mret (inr (Reply 403 "You don't have permission to change team assignment"))
      else if String.eqb s "" then mret (inl (Some None))
      else match parse_uuid s with
           | None => mret (inr (Reply 400 "Invalid team_id"))
           | Some team => ok ← call (ARead false (team_exists false team org));
                          mret (if (ok : bool) then inl (Some (Some team)) else inr (Reply 400 "Team not found"))
           end
  end.
(** The pickup columns of an assignment: the breach is written whenever the row is breached. *)
Definition assign_pickup (t : AgentTransfer) (target : option uuid) : Prog (option PickupUpdate) :=
  match target, PickedUpAt (tr_SLA t) with
  | Some _, None =>
      now ← call ANow;
      let sla := UpdateSLAOnPickup now (tr_SLA t) in
      mret (Some (MkPickup now (if Breached sla then Some (BreachedAt sla) else None)))
  | _, _ => mret None
  end.
Definition assign_audit (org user : uuid) (id : uuid) (from to : option uuid) : Prog unit :=
  match to with
  | None => auditDistribution org (Some user) id distEventReleased from None "returned to the queue"
  | Some x =>
      if bool_decide (from = None) && N.eqb x user
      then auditDistribution org (Some user) id distEventClaimed None to "self-assigned"
      else auditDistribution org (Some user) id distEventAssigned from to ""
  end.
Definition assign_contact (c : option Contact) (org : uuid) (from to : option uuid) : Prog unit :=
  match c, to with
  | Some c, Some agent => settings ← call (ASettings org ""); pin_contact settings c agent
  | Some c, None => match from, c_AssignedUserID c with
                    | Some a, Some b => if N.eqb a b then _ ← call (AWrite (WAssignContact (c_ID c) None)); mret tt else mret tt
                    | _, _ => mret tt
                    end
  | None, _ => mret tt
  end.

Definition load_transfer (id org : uuid) (s : Att) : option (AgentTransfer * option Contact) :=
  match sql_first (fun t => has_id id t && N.eqb (tr_Org t) org) (a_transfers s) with
  | Some t => Some (t, preload_contact s t)
  | None => None
  end.
Definition AssignAgentTransfer (org user id : uuid) (reqAgent reqTeam : option string) : Prog reply :=
  canWrite ← call (APermission user "transfers" "write" org);
  row ← call (ATry (load_transfer id org));
  match row with
  | Ok (Some (t, c)) =>
      if negb (is_status TransferActive t) then mret (Reply 400 "Transfer is not active")
      else
        gate ← find_contact (tr_Contact t) org;
        match gate with
        | Ok (Some gc) =>
            see ← call (AInteract user org (c_ID gc));
            if negb see then mret (Reply 403 "You do not have access to this conversation")
            else
              target ← assign_target org user canWrite t reqAgent;
              match target with
              | inr e => mret e
              | inl target =>
                  team ← assign_team org canWrite t reqTeam;
                  match team with
                  | inr e => mret e
                  | inl team =>
                      pickup ← assign_pickup t target;
                      r ← moveTransfer (tr_ID t) (tr_AgentID t) (MkMove target team pickup);
                      match r with
                      | Err _ => mret (Reply 500 "Failed to assign transfer")
                      | Ok false => sendTransferConflict org user (tr_ID t)
                      | Ok true =>
                          _ ← assign_audit org user (tr_ID t) (tr_AgentID t) target;
                          _ ← assign_contact c org (tr_AgentID t) target;
                          let t' := apply_move (MkMove target team pickup) t in
                          _ ← call (AEmit (ETransferAssigned t'));
                          _ ← call (AEmit (EWebhook "transfer.assigned" t'));
                          mret (Reply 200 "Transfer assigned successfully")
                      end
                  end
              end
        | _ => mret (Reply 404 "Contact not found")
        end
  | _ => mret (Reply 404 "Transfer not found")
  end.

Definition UnassignTransfer (org user id : uuid) : Prog reply :=
  ok ← call (APermission user "transfers" "write" org);
  if negb ok then mret (Reply 403 "You do not have permission to unassign transfers")
  else
    row ← find_transfer id org;
    match row with
    | Ok (Some t) =>
        if negb (is_status TransferActive t) then mret (Reply 400 "Transfer is not active")
        else
          gate ← find_contact (tr_Contact t) org;
          match gate with
          | Ok (Some gc) =>
              see ← call (AInteract user org (c_ID gc));
              if negb see then mret (Reply 403 "You do not have access to this conversation")
              else
                r ← moveTransfer (tr_ID t) (tr_AgentID t) (MkMove None None None);
                match r with
                | Err _ => mret (Reply 500 "Failed to unassign transfer")
                | Ok false => sendTransferConflict org user (tr_ID t)
                | Ok true =>
                    _ ← auditDistribution org (Some user) (tr_ID t) distEventReleased (tr_AgentID t) None "unassigned";
                    _ ← match tr_AgentID t with
                        | Some agent => _ ← call (AWrite (WUnassignContact (tr_Contact t) agent)); mret tt
                        | None => mret tt
                        end;
                    _ ← call (AEmit (ETransferAssigned (set_agent None t)));
                    mret (Reply 200 "Transfer returned to the team queue")
                end
          | _ => mret (Reply 404 "Contact not found")
          end
    | _ => mret (Reply 404 "Transfer not found")
    end.

(** ** Picking from the queue *)

(** The queue of the request; [None]: the user is not a member of the team it names. *)
Definition pick_filter (full : bool) (teams : list uuid) (team : string) : option PickFilter :=
  if String.eqb team "" then Some (if full then AnyQueue else match teams with [] => GeneralQueue | _ => OwnQueues teams end)
  else if String.eqb team "general" then Some GeneralQueue
  else match parse_uuid team with
       | None => Some AnyQueue
       | Some t => if full || existsb (N.eqb t) teams then Some (TeamQueue t) else None
       end.
Definition PickNextTransfer (org user : uuid) (team : string) : Prog reply :=
  full ← call (APermission user "transfers" "write" org);
  pickup ← call (APermission user "transfers" "pickup" org);
  settings ← call (ASettings org "");
  if negb full && match settings with Some st => negb (AllowQueuePickup (AgentAssignment st)) | None => false end
  then mret (Reply 403 "Queue pickup is not allowed")
  else if negb full && negb pickup then mret (Reply 403 "You don't have permission to pick up transfers")
  else
    able ← isAgentEligible assigner org user;
    if negb able then mret (Reply 403 "You must be active, available and connected to pick up transfers")
    else
      teams ← call (ARead [] (fun s => map mb_TeamID (List.filter (fun m => N.eqb (mb_UserID m) user && negb (mb_Deleted m)) (t_members (a_teams s)))));
      match pick_filter full teams team with
      | None => mret (Reply 403 "You are not a member of this team")
      | Some q =>
          now ← call ANow;
          r ← call (APick org user q (match settings with Some st => AssignToSameAgent (AgentAssignment st) | None => false end) now);
          match r with
          | Err _ => mret (Reply 500 "Failed to pick transfer")
          | Ok None => mret (Reply 200 "No transfers in queue")
          | Ok (Some t) =>
              _ ← auditDistribution org (Some user) (tr_ID t) distEventClaimed None (Some user) "picked from queue";
              _ ← call (AEmit (ETransferAssigned t));
              mret (Reply 200 "Transfer picked successfully")
          end
      end.

(** ** Creating *)
Record CreateAgentTransferRequest := MkCreate {
  cr_ContactID : string; cr_Account : string; cr_AgentID : option string; cr_TeamID : option string; cr_Notes : string; cr_Source : option TransferSource }.
Definition create_team (org : uuid) (req : option string) : Prog (option uuid + reply) :=
  match req with
  | Some s =>
      if String.eqb s "" then mret (inl None)
      else match parse_uuid s with
           | None => mret (inr (Reply 400 "Invalid team_id"))
           | Some team => ok ← call (ARead false (team_exists true team org));
                          mret (if (ok : bool) then inl (Some team) else inr (Reply 400 "Team not found or inactive"))
           end
  | None => mret (inl None)
  end.
Definition default_agent (org : uuid) (settings : option ChatbotSettings) (c : Contact) (team : option uuid) : Prog (option uuid) :=
  match team with
  | Some team => if assigner then call (AAssign team org []) else same_agent assigner (MkAcc org "") c settings
  | None => same_agent assigner (MkAcc org "") c settings
  end.
Definition create_agent (org : uuid) (settings : option ChatbotSettings) (c : Contact) (team : option uuid) (req : option string) : Prog (option uuid + reply) :=
  match req with
  | Some s =>
      if negb (String.eqb s "") then r ← named_agent org s; mret (match r with inl a => inl (Some a) | inr e => inr e end)
      else a ← default_agent org settings c team; mret (inl a)
  | None => a ← default_agent org settings c team; mret (inl a)
  end.
Definition CreateAgentTransfer (org user : uuid) (req : CreateAgentTransferRequest) : Prog reply :=
  if String.eqb (cr_ContactID req) "" then mret (Reply 400 "contact_id is required")
  else match parse_uuid (cr_ContactID req) with
  | None => mret (Reply 400 "Invalid contact_id")
  | Some contact =>
      row ← find_contact contact org;
      match row with
      | Ok (Some c) =>
          has ← hasActive org contact;
          if (has : bool) then mret (Reply 409 "Contact already has an active transfer")
          else
            settings ← call (ASettings org (cr_Account req));
            team ← create_team org (cr_TeamID req);
            match team with
            | inr e => mret e
            | inl team =>
                agent ← create_agent org settings c team (cr_AgentID req);
                match agent with
                | inr e => mret e
                | inl agent =>
                    id ← call ANewID; now ← call ANow;
                    let t := MkAttendance (MkOpening id org contact (cr_Account req) (c_Phone c)
                               (match cr_Source req with Some s => s | None => SourceManual end) None now)
                               TransferActive agent team (Some user) (cr_Notes req) None None new_sla false in
                    t ← with_deadlines settings t;
                    t ← with_pickup t;
                    r ← createTransferRow t;
                    match r with
                    | Err e => mret (if bool_decide (e = ErrTransferAlreadyActive) then Reply 409 "Contact already has an active transfer"
                                     else Reply 500 "Failed to create transfer")
                    | Ok _ =>
                        _ ← auditNewTransfer t;
                        _ ← match agent with Some a => pin_contact settings c a | None => mret tt end;
                        now ← call ANow;
                        _ ← call (AWrite (WCancelSessions org contact now));
                        _ ← call (AEmit (ETransferCreated t));
                        _ ← call (AEmit (EWebhook "transfer.created" t));
                        mret (Reply 200 "Transfer created successfully")
                    end
                end
            end
      | _ => mret (Reply 404 "Contact not found")
      end
  end.
End Api.

(** ** What an assignment may do *)
Section Assigning.
Context (assigner : bool) (parse_uuid : string -> option uuid) (org_of : uuid -> uuid) (org user : uuid).

(** The move of one request, after what: the conversation was found open to the user, and the
    owner was read; then either the user may write transfers, and a named agent was found
    eligible; or the user takes for themselves what is nobody's or already theirs; or the
    request asks for "no agent", which needs no permission at all. *)
Definition interacted (g : list (event att_op)) : Prop := exists c, Ev (AInteract user org c) true ∈ g.
Definition may_write (g : list (event att_op)) : Prop := Ev (APermission user "transfers" "write" org) true ∈ g.
Definition assign_move (reqAgent : option string) (from : option uuid) (u : MoveUpdate) (g : list (event att_op)) : Prop :=
  interacted g /\
  match mv_To u with
  | Some a => (may_write g /\ (assigner = true -> Ev (AConnected org a) true ∈ g)) \/ (a = user /\ (from = None \/ from = Some user) /\ mv_Team u = None)
  | None => may_write g \/ (reqAgent = Some "" /\ mv_Team u = None)
  end.
Definition assign_pre (reqAgent : option string) X (op : att_op X) (g : list (event att_op)) : Prop :=
  match op with
  | AWrite (WMove _ from u) => assign_move reqAgent from u g
  | AWrite (WAssignContact _ _) | AWrite (WAssignOpportunity _ _) => True
  | _ => bookkeeping X op
  end.
Lemma assign_bookkeeping req X (op : att_op X) g : bookkeeping X op -> assign_pre req X op g.
Proof. destruct op; try done. by destruct w. Qed.

Abbreviation assigns req p g Q := (ensures (assign_pre req) (trace_contract plausible) p g Q).
Abbreviation later g := (fun g' => exists l, g' = l ++ g).

(** Reading and auditing: only the trace grows. *)
Lemma assigns_only req {A} (p : Prog A) g : only bookkeeping p -> assigns req p g (fun _ => later g).
Proof. intros H. apply (ensures_only bookkeeping); [by apply assign_bookkeeping | done |]. intros a l. by exists l. Qed.
Lemma conflict_only id : only bookkeeping (sendTransferConflict org user id).
Proof. unfold sendTransferConflict, find_transfer. solve_only. Qed.

Lemma named_agent_assigns req s g :
  assigns req (named_agent assigner parse_uuid org_of org s) g (fun r g' => later g g' /\
    match r with inl a => assigner = true -> Ev (AConnected org a) true ∈ g' | inr _ => True end).
Proof.
  unfold named_agent. destruct (parse_uuid s) as [agent |]; [| by split; [exists [] |]]. unfold find_user.
  apply ensures_bind, ensures_call_bind; [done |]. intros r g1 [-> (s1 & s2 & _ & Hr)]. apply ensures_ret.
  destruct r as [[u |] | e]; [| by split; [by eexists [_] |] | by split; [by eexists [_] |]].
  destruct Hr as [Hr | ?]; [| done]. injection Hr as Hr. symmetry in Hr. apply List.find_some in Hr as [_ Hr].
  rewrite !andb_true_iff, N.eqb_eq in Hr. destruct Hr as [[<- _] _].
  unfold agentIneligibleReason. apply ensures_bind. destruct (negb (au_IsActive u) || negb (au_IsAvailable u)).
  { apply ensures_ret. simpl. split; [by eexists [_] | done]. }
  destruct assigner; [| apply ensures_ret; simpl; split; [by eexists [_] | done]].
  apply ensures_call_bind; [done |]. intros on g2 [-> _]. simpl. destruct on; simpl; (split; [by eexists [_; _] |]); [intros _; by left | done].
Qed.

Lemma may_write_later g l : may_write g -> may_write (l ++ g).
Proof. intros. apply elem_of_app. by right. Qed.
Lemma interacted_later g l : interacted g -> interacted (l ++ g).
Proof. intros [c H]. exists c. apply elem_of_app. by right. Qed.

Lemma target_assigns canWrite t req g :
  (canWrite = true -> may_write g) ->
  assigns req (assign_target assigner parse_uuid org_of org user canWrite t req) g (fun r g' => later g g' /\
    match r with
    | inl (Some a) => (canWrite = true /\ (assigner = true -> Ev (AConnected org a) true ∈ g')) \/
                      (canWrite = false /\ a = user /\ (tr_AgentID t = None \/ tr_AgentID t = Some user))
    | inl None => canWrite = true \/ req = Some ""
    | inr _ => True
    end).
Proof.
  intros Hw. unfold assign_target. destruct req as [s |].
  - destruct (String.eqb_spec s "") as [-> | _]; [split; [by exists [] | auto] |].
    destruct canWrite; [| split; [by exists [] | done]]. simpl negb. cbv iota. apply ensures_bind.
    eapply ensures_mono; [| apply named_agent_assigns]. intros r g1 [Hl Hr]. apply ensures_ret. split; [done |].
    destruct r; [by left | done].
  - destruct canWrite; [split; [by exists [] | auto] |]. destruct (tr_AgentID t) as [owner |].
    + destruct (N.eqb_spec owner user) as [-> | _]; [split; [by exists [] | auto] |]. apply ensures_bind.
      eapply ensures_mono; [| apply assigns_only, conflict_only]. intros r g1 Hl. apply ensures_ret. done.
    + split; [by exists [] | auto].
Qed.

Lemma team_assigns canWrite t req reqTeam g :
  assigns req (assign_team parse_uuid org_of org canWrite t reqTeam) g (fun r g' => later g g' /\
    match r with inl (Some _) => canWrite = true | _ => True end).
Proof.
  unfold assign_team. destruct reqTeam as [s |]; [| split; [by exists [] | done]].
  destruct canWrite; [| split; [by exists [] | done]]. simpl negb. cbv iota.
  destruct (String.eqb s ""); [split; [by exists [] | done] |]. destruct (parse_uuid s); [| split; [by exists [] | done]].
  apply ensures_call_bind; [done |]. intros ok g1 [-> _]. apply ensures_ret. split; [by eexists [_] |]. by destruct ok.
Qed.

Lemma pickup_only t target : only bookkeeping (assign_pickup t target).
Proof. unfold assign_pickup. solve_only. Qed.

(** Once moved, only the contact's manager, its opportunity, the history and broadcasts are
    left to write. *)
Lemma after_move_assigns req t c target u g :
  assigns req (_ ← assign_audit org user (tr_ID t) (tr_AgentID t) target; _ ← assign_contact c org (tr_AgentID t) target;
               _ ← call (AEmit (ETransferAssigned u)); _ ← call (AEmit (EWebhook "transfer.assigned" u));
               mret (Reply 200 "Transfer assigned successfully")) g (fun _ _ => True).
Proof.
  apply (ensures_only (fun X op => forall g, assign_pre req X op g)); [by intros X op g' H; apply H | | done].
  assert (Ha : forall actor id ev from to d, only (fun X op => forall g, assign_pre req X op g) (auditDistribution org actor id ev from to d)).
  { intros. eapply only_mono; [| apply audit_only]. intros X op H g'. by apply assign_bookkeeping. }
  unfold assign_audit, assign_contact, pin_contact, assignOpenSalesOpportunityToAgent. solve_only; apply Ha.
Qed.

Lemma moved_assigns req canWrite t c target team g :
  interacted g -> (canWrite = true -> may_write g) ->
  match target with
  | Some a => (canWrite = true /\ (assigner = true -> Ev (AConnected org a) true ∈ g)) \/
              (canWrite = false /\ a = user /\ (tr_AgentID t = None \/ tr_AgentID t = Some user))
  | None => canWrite = true \/ req = Some ""
  end ->
  match team with Some _ => canWrite = true | None => True end ->
  assigns req (pickup ← assign_pickup t target;
               r ← moveTransfer (tr_ID t) (tr_AgentID t) (MkMove target team pickup);
               match r with
               | Err _ => mret (Reply 500 "Failed to assign transfer")
               | Ok false => sendTransferConflict org user (tr_ID t)
               | Ok true =>
                   _ ← assign_audit org user (tr_ID t) (tr_AgentID t) target;
                   _ ← assign_contact c org (tr_AgentID t) target;
                   let t' := apply_move (MkMove target team pickup) t in
                   _ ← call (AEmit (ETransferAssigned t'));
                   _ ← call (AEmit (EWebhook "transfer.assigned" t'));
                   mret (Reply 200 "Transfer assigned successfully")
               end) g (fun _ _ => True).
Proof.
  intros Hi Hw Ht Hteam. apply ensures_bind. eapply ensures_mono; [| apply assigns_only, pickup_only].
  intros pickup g1 [l ->]. unfold moveTransfer. apply ensures_bind, ensures_call_bind.
  - split; [by apply interacted_later |]. destruct target as [a |]; simpl.
    + destruct Ht as [[Hc Hon] | (Hc & -> & Hown)].
      * left. split; [by apply may_write_later, Hw |]. intros Ha. apply elem_of_app. right. by apply Hon.
      * right. split_and!; [done | done |]. destruct team; [congruence | done].
    + destruct canWrite; [left; by apply may_write_later, Hw |]. destruct Ht as [? | ->]; [done |].
      right. split; [done |]. by destruct team.
  - intros r g2 [-> _]. apply ensures_ret. destruct r as [n | e]; [| done]. destruct (n =? 1).
    + apply after_move_assigns.
    + eapply ensures_mono; [| apply assigns_only, conflict_only]. done.
Qed.
End Assigning.


(** The exception is real: a user without the permission, who may not unassign, sends "". *)
Example empty_agent_returns :
  let run := prog_run (att_run 100 None false) (AssignAgentTransfer true (fun _ => None) (fun _ => 9%N) 9 22 50 (Some "") None) (ex_att [ex_owned]) in
  fst run = Reply 200 "Transfer assigned successfully" /\ map tr_AgentID (a_transfers (snd run)) = [None] /\
  fst (prog_run (att_run 100 None false) (UnassignTransfer 9 22 50) (ex_att [ex_owned])) =
    Reply 403 "You do not have permission to unassign transfers".
Proof. vm_compute. split_and!; reflexivity. Qed.

(** ** Picking *)
Lemma oldest_total a b : oldest_first a b = false -> oldest_first b a = true.
Proof. unfold oldest_first. rewrite orb_false_iff, orb_true_iff, andb_false_iff, andb_true_iff, Z.ltb_ge, Z.ltb_lt, !Z.eqb_eq, Z.eqb_neq, N.leb_gt, N.leb_le. lia. Qed.
Lemma oldest_trans a b c : oldest_first a b = true -> oldest_first b c = true -> oldest_first a c = true.
Proof. unfold oldest_first. rewrite !orb_true_iff, !andb_true_iff, !Z.ltb_lt, !Z.eqb_eq, !N.leb_le. lia. Qed.
Lemma oldest_earlier a b : oldest_first a b = true -> tr_TransferredAt a <= tr_TransferredAt b.
Proof. unfold oldest_first. rewrite orb_true_iff, andb_true_iff, Z.ltb_lt, Z.eqb_eq. lia. Qed.

(** The part of the transaction after the row is saved. *)
Definition same_transfers (s s' : Att) : Prop := a_transfers s' = a_transfers s.
#[global] Instance same_transfers_preorder : PreOrder same_transfers.
Proof. split; [done |]. intros s1 s2 s3 H1 H2. unfold same_transfers in *. congruence. Qed.

Lemma saved_owner t user now s :
  t ∈ a_transfers s -> is_status TransferActive t = true -> tr_Deleted t = false ->
  picked user now t ∈ a_transfers (save_row (picked user now t) s) /\ owns (save_row (picked user now t) s) (tr_ID t) user.
Proof.
  intros [i Hi]%list_elem_of_lookup Ha Hd.
  assert (Hin : picked user now t ∈ a_transfers (save_row (picked user now t) s)).
  { apply list_elem_of_lookup. exists i. simpl. rewrite sql_update_lookup, Hi. simpl. unfold has_id.
    change (tr_ID (picked user now t)) with (tr_ID t). by rewrite N.eqb_refl, Hd. }
  split; [done |]. exists (picked user now t). split_and!; try done. by apply active_status.
Qed.

(** Picking is first in, first out and takes nothing from anybody: when the transaction
    answers with an attendance, it is the one waiting longest, without an agent, in the queues
    of the request (those locked by other transactions apart), and it is now the picker's, with
    its first pickup kept; when it answers there is none, no attendance changed. *)
Theorem pick_fifo org user q pin now locked s r s' :
  att_ok s -> db_sem (pick_tx org user q pin now locked) s r s' ->
  match r with
  | Ok (Some t') => exists t, t ∈ a_transfers s /\ waiting_in org q t = true /\ locked (tr_ID t) = false /\
      (forall t2, t2 ∈ a_transfers s -> waiting_in org q t2 = true -> locked (tr_ID t2) = false -> tr_TransferredAt t <= tr_TransferredAt t2) /\
      t' = picked user now t /\ t' ∈ a_transfers s' /\ owns s' (tr_ID t) user
  | Ok None => a_transfers s' = a_transfers s
  | Err _ => True
  end.
Proof.
  intros Hok (fs & fs' & H). destruct r as [r | e]; [| done]. apply transaction_ok in H as (w1 & H & Hd). simpl in Hd. subst s'.
  unfold mbind at 1, db_bind at 1 in H. destruct (query _ _) as [x w2] eqn:E1. pose proof (query_data _ _ _ _ E1) as Hw. simpl in Hw.
  destruct x as [[t |] | e]; [| by injection H as <- <-; rewrite Hw | by injection H as <- <-; rewrite Hw].
  apply exec_ok in E1. injection E1 as Em _. apply sql_min_spec in Em as [Hin Hmin]; [| apply oldest_total | apply oldest_trans].
  apply list_elem_of_In, List.filter_In in Hin as [Ht Hwait]. apply list_elem_of_In in Ht. apply andb_true_iff in Hwait as [Hwait Hlock].
  apply negb_true_iff in Hlock. unfold try_bind at 1, mbind at 1, db_bind at 1 in H. destruct (exec _ w2) as [[[] | e] w3] eqn:E2; [| done].
  apply exec_ok in E2. injection E2 as E2. rewrite Hw in E2.
  unfold try_bind at 1, mbind at 1, db_bind at 1 in H.
  match type of H with context [match ?m w3 with _ => _ end] => assert (Hk : keeps same_transfers m) end.
  { pose proof (keeps_assign_contact same_transfers ltac:(done)). pose proof (keeps_assign_opportunity same_transfers ltac:(done)). solve_keeps. }
  match type of H with context [match ?m w3 with _ => _ end] => destruct (m w3) as [[[] | e] w4] eqn:E3; [| done] end.
  injection H as <- <-. apply Hk in E3. unfold same_transfers in E3. rewrite <- E2 in E3. simpl w_data in *.
  pose proof (waiting_active _ _ _ Hwait) as [Ha _].
  assert (Hd : tr_Deleted t = false) by (unfold waiting_in in Hwait; rewrite !andb_true_iff, negb_true_iff in Hwait; tauto).
  destruct (saved_owner t user now s Ht Ha Hd) as [Hin (o & Ho & Hrest)].
  exists t. split_and!; try done.
  - intros t2 Ht2 Hw2 Hl2. apply oldest_earlier, Hmin. apply list_elem_of_In, List.filter_In. split; [by apply list_elem_of_In |]. by rewrite Hw2, Hl2.
  - by rewrite E3.
  - exists o. by rewrite E3.
Qed.

(** ** Who may pick from which queue *)
Section Picking.
Context (parse_uuid : string -> option uuid) (org user : uuid) (team : string).

Definition names_queue : Prop := team = "" \/ team = "general" \/ is_Some (parse_uuid team).
Definition pick_allowed (q : PickFilter) (g : list (event att_op)) : Prop :=
  Ev (AEligible org user) true ∈ g /\
  (Ev (APermission user "transfers" "write" org) true ∈ g \/
   (Ev (APermission user "transfers" "pickup" org) true ∈ g /\
    (names_queue -> exists teams, Ev (ARead [] (fun s => map mb_TeamID (List.filter (fun m => N.eqb (mb_UserID m) user && negb (mb_Deleted m)) (t_members (a_teams s))))) teams ∈ g /\
       forall t, in_queues q t = true -> tr_TeamID t = None \/ exists x, tr_TeamID t = Some x /\ x ∈ teams))).
Definition pick_pre X (op : att_op X) (g : list (event att_op)) : Prop :=
  match op with APick _ _ q _ _ => pick_allowed q g | _ => bookkeeping X op end.

Lemma pick_filter_own teams q t :
  names_queue -> pick_filter parse_uuid false teams team = Some q -> in_queues q t = true ->
  tr_TeamID t = None \/ exists x, tr_TeamID t = Some x /\ x ∈ teams.
Proof.
  unfold pick_filter, names_queue, in_queues. intros Hq. destruct (String.eqb_spec team "") as [-> | H1].
  - destruct teams as [| a l]; intros [= <-]; destruct (tr_TeamID t); auto; [done |]. intros Hx. right. eexists. split; [done |]. by apply existsb_eqb_in.
  - destruct (String.eqb_spec team "general") as [-> | H2].
    + intros [= <-]. destruct (tr_TeamID t); [done | auto].
    + destruct Hq as [? | [? | [x Hx]]]; [done | done |]. rewrite Hx. simpl. destruct (existsb (N.eqb x) teams) eqn:E; [| done].
      intros [= <-]. destruct (tr_TeamID t) as [y |]; [| done]. intros <-%N.eqb_eq. right. exists x. split; [done |]. by apply existsb_eqb_in.
Qed.
End Picking.

(** An attendance is only picked by a user who was found eligible and who may write
    transfers, or may pick them up and takes one of the general queue or of a team of theirs;
    the last holds for requests that name no team, "general", or a well formed identifier. *)
Theorem picks_authorized parse_uuid org user team :
  ensures (pick_pre parse_uuid org user team) (trace_contract plausible) (PickNextTransfer true parse_uuid org user team) [] (fun _ _ => True).
Proof.
  unfold PickNextTransfer. do 2 (apply ensures_call_bind; [done |]; intros ? ? [-> _]).
  rename x into full, x0 into pickup. apply ensures_call_bind; [done |]. intros settings g1 [-> _].
  destruct (negb full && _); [done |]. destruct (negb full && negb pickup) eqn:Ep; [done |].
  apply ensures_call_bind; [done |]. intros [] g2 [-> _]; [simpl negb; cbv iota | done].
  apply ensures_call_bind; [done |]. intros teams g3 [-> _].
  destruct (pick_filter parse_uuid full teams team) as [q |] eqn:Eq; [| done].
  apply ensures_call_bind; [done |]. intros now g4 [-> _]. apply ensures_call_bind.
  - split; [set_solver |]. destruct full; [left; set_solver | right]. simpl in Ep. apply negb_false_iff in Ep as ->. split; [set_solver |].
    intros Hq. exists teams. split; [set_solver |]. intros t. by apply (pick_filter_own parse_uuid team).
  - intros r g5 [-> _]. destruct r as [[t |] | e]; [| done | done].
    eapply (ensures_only bookkeeping); [| | done]; [intros X op g; destruct op; done |]. solve_only.
Qed.

(** A malformed team in the request lifts the restriction: an agent without any team, who may
    only pick up from the general queue, takes one of team 4. *)
Example malformed_team_picks_anywhere :
  pick_filter (fun _ => None) false [] "4?" = Some AnyQueue /\
  pick_filter (fun _ => None) false [] "" = Some GeneralQueue /\ in_queues GeneralQueue ex_waiting = false /\ in_queues AnyQueue ex_waiting = true.
Proof. vm_compute. split_and!; reflexivity. Qed.

(** ** Closing *)

(** What a complete close leaves, by the contact as it was loaded. *)
Definition unassigned (c : Contact) (s : Att) : Att :=
  match c_AssignedUserID c with Some _ => update_contacts (contact_id (c_ID c)) (set_assigned None) s | None => s end.
Definition unteamed (c : Contact) (s : Att) : Att :=
  match c_TeamID c with Some _ => update_contacts (contact_id (c_ID c)) (set_contact_team None) s | None => s end.
Definition resolved (c : Contact) (s : Att) : Att :=
  if bool_decide (c_Status c = ContactStatusResolved) then s
  else update_contacts (may_transition c []) (set_status ContactStatusResolved) s.
Definition released (c : Contact) (s : Att) : Att := resolved c (unteamed c (unassigned c s)).
Definition closed (id : uuid) (u : CloseUpdate) (c : option Contact) (s : Att) : Att :=
  let s := update_transfers (has_id id) (apply_close u) s in
  match c with Some c => released c s | None => s end.

Lemma release_sem c s b s' : db_sem (releaseContactTx c) s (Ok b) s' -> s' = released c s.
Proof.
  unfold releaseContactTx, released. intros [(e & _ & ?) | ([] & s1 & H1 & H)]%db_sem_try; [done |].
  assert (s1 = unassigned c s) as ->.
  { unfold unassigned. destruct (c_AssignedUserID c); [apply exec_ok_sem in H1; by injection H1 | by apply db_sem_ret in H1 as [_ ->]]. }
  clear H1. apply db_sem_try in H as [(e & _ & ?) | ([] & s2 & H2 & H)]; [done |].
  assert (s2 = unteamed c (unassigned c s)) as ->.
  { unfold unteamed. destruct (c_TeamID c); [apply exec_ok_sem in H2; by injection H2 | by apply db_sem_ret in H2 as [_ ->]]. }
  clear H2. unfold transition_status, resolved in *. case_bool_decide; [by apply db_sem_ret in H as [_ ->] |].
  apply db_sem_try in H as [(e & _ & ?) | (n & s3 & H3 & H)]; [done |]. apply exec_ok_sem in H3. injection H3 as _ <-.
  by apply db_sem_ret in H as [_ ->].
Qed.
Lemma close_sem id u c s r s' :
  db_sem (close_tx id u c) s r s' -> (s' = s /\ is_ok r = false) \/ s' = closed id u c s.
Proof.
  intros [? | (b & H & _)]%db_sem_transaction; [by left | right].
  apply db_sem_try in H as [(e & _ & ?) | ([] & s1 & H1 & H)]; [done |]. apply exec_ok_sem in H1. injection H1 as <-.
  unfold closed. destruct c as [c |]; [by apply release_sem in H | by apply db_sem_ret in H as [_ ->]].
Qed.

(** A contact nobody is responsible for. *)
Definition free (c : Contact) : Prop := c_AssignedUserID c = None /\ c_TeamID c = None /\ c_Status c = ContactStatusResolved.
Definition rows_are (id : uuid) (Q : Contact -> Prop) (s : Att) : Prop :=
  forall r, r ∈ a_contacts s -> contact_id id r = true -> Q r.
Lemma rows_update id (Q Q' : Contact -> Prop) (p : Contact -> bool) (f : Contact -> Contact) s :
  (forall r, contact_id id (f r) = contact_id id r) -> (forall r, contact_id id r = true -> Q r -> Q' (if p r then f r else r)) ->
  rows_are id Q s -> rows_are id Q' (update_contacts p f s).
Proof.
  intros Hid HQ H r' (r & Hr & ->)%sql_update_in Hr'. assert (Hi : contact_id id r = true) by (destruct (p r); [by rewrite <- Hid | done]).
  apply HQ; auto.
Qed.

Lemma released_free c s : rows_are (c_ID c) (fun r => r = c) s -> rows_are (c_ID c) free (released c s).
Proof.
  intros H. set (Q := fun (a t : bool) (r : Contact) => c_Status r = c_Status c /\
    c_AssignedUserID r = (if a then None else c_AssignedUserID c) /\ c_TeamID r = (if t then None else c_TeamID c)).
  assert (H1 : rows_are (c_ID c) (Q true false) (unassigned c s)).
  { unfold unassigned. destruct (c_AssignedUserID c) eqn:E; [| intros r Hr Hi; by rewrite (H r Hr Hi)].
    revert H. apply rows_update; [done |]. intros r Hi ->. by rewrite Hi. }
  assert (H2 : rows_are (c_ID c) (Q true true) (unteamed c (unassigned c s))).
  { unfold unteamed. destruct (c_TeamID c) eqn:E.
    - revert H1. apply rows_update; [done |]. intros r Hi (? & ? & ?). by rewrite Hi.
    - intros r Hr Hi. destruct (H1 r Hr Hi) as (? & ? & ?). split_and!; congruence. }
  unfold released, resolved. case_bool_decide as E.
  - intros r Hr Hi. destruct (H2 r Hr Hi) as (? & ? & ?). split_and!; congruence.
  - revert H2. apply rows_update; [done |]. intros r Hi (? & ? & ?). unfold may_transition. rewrite Hi. by split_and!.
Qed.

Lemma active_unique org contact s r t :
  att_ok s -> r ∈ a_transfers s -> t ∈ a_transfers s -> active_of org contact r = true -> active_of org contact t = true -> r = t.
Proof.
  intros [_ H] Hr Ht Er Et. specialize (H org contact). revert H Hr Ht. induction (a_transfers s) as [| x l IH]; [by intros _ ?%not_elem_of_nil |].
  rewrite sql_count_cons. pose proof (sql_count_nonneg (active_of org contact) l).
  assert (Hpos : forall y, y ∈ l -> active_of org contact y = true -> 0 < sql_count (active_of org contact) l).
  { intros y Hy Ey. apply sql_count_pos. by exists y. }
  intros Hle [-> | Hr]%elem_of_cons [-> | Ht]%elem_of_cons; [done | | |].
  - rewrite Er in Hle. specialize (Hpos t Ht Et). lia.
  - rewrite Et in Hle. specialize (Hpos r Hr Er). lia.
  - apply IH; try done. destruct (active_of org contact x); lia.
Qed.

Lemma released_transfers c s : a_transfers (released c s) = a_transfers s.
Proof. unfold released, resolved, unteamed, unassigned. by repeat case_match. Qed.
(** Closing leaves no attendance of the contact open: it had one at most. *)
Lemma closed_none_active t u c s :
  att_ok s -> t ∈ a_transfers s -> tr_Deleted t = false -> active_of (tr_Org t) (tr_Contact t) t = true ->
  hasActiveAgentTransfer (tr_Org t) (tr_Contact t) (closed (tr_ID t) u c s) = false.
Proof.
  intros Hok Ht Hd Ha. assert (E : a_transfers (closed (tr_ID t) u c s) = a_transfers (update_transfers (has_id (tr_ID t)) (apply_close u) s)).
  { unfold closed. destruct c; by rewrite ?released_transfers. }
  unfold hasActiveAgentTransfer. rewrite E. apply Z.ltb_ge. enough (H0 : sql_count (active_of (tr_Org t) (tr_Contact t)) (a_transfers (update_transfers (has_id (tr_ID t)) (apply_close u) s)) = 0) by lia.
  apply sql_count_zero. intros r' (r & Hr & ->)%sql_update_in. destruct (has_id (tr_ID t) r) eqn:Ei.
  - apply not_true_iff_false. intros (_ & _ & Hs & _)%active_of_spec. simpl in Hs. by destruct (cl_Status u).
  - apply not_true_iff_false. intros Hr'. enough (r = t) as -> by (unfold has_id in Ei; by rewrite N.eqb_refl, Hd in Ei).
    by apply (active_unique (tr_Org t) (tr_Contact t) s).
Qed.

(** A release does not touch the rows of other contacts. *)
Lemma contacts_elsewhere p f s i r : a_contacts s !! i = Some r -> p r = false -> a_contacts (update_contacts p f s) !! i = Some r.
Proof. intros Hi Hp. unfold update_contacts, sql_update. simpl. rewrite list_lookup_fmap, Hi. simpl. by rewrite Hp. Qed.
Lemma released_elsewhere c s i r : a_contacts s !! i = Some r -> contact_id (c_ID c) r = false -> a_contacts (released c s) !! i = Some r.
Proof.
  intros Hi Hr. unfold released, resolved, unteamed, unassigned.
  repeat case_match; repeat (apply contacts_elsewhere; [| unfold may_transition; by rewrite ?Hr]); done.
Qed.

(** C27: closing an active attendance and freeing its contact is one thing. Whatever fails, either
    nothing changed and the answer is an error, or the attendance's row was closed and no other
    attendance changed, the contact has no attendance open, and the contacts are as the close
    leaves them: when the caller could not load the contact none of them changed (the row is closed
    and its contact keeps its manager and team); when it could, no other row changed, and if the row
    was still as loaded it has no manager, no team, and is resolved. *)
Theorem close_is_atomic t u c s r s' :
  att_ok s -> t ∈ a_transfers s -> active_of (tr_Org t) (tr_Contact t) t = true ->
  db_sem (close_tx (tr_ID t) u c) s r s' ->
  (s' = s /\ is_ok r = false) \/
  (a_transfers s' = sql_update (has_id (tr_ID t)) (apply_close u) (a_transfers s) /\
   hasActiveAgentTransfer (tr_Org t) (tr_Contact t) s' = false /\
   match c with
   | None => a_contacts s' = a_contacts s
   | Some c =>
       (forall i row, a_contacts s !! i = Some row -> contact_id (c_ID c) row = false -> a_contacts s' !! i = Some row) /\
       (rows_are (c_ID c) (fun row => row = c) s -> rows_are (c_ID c) free s')
   end).
Proof.
  intros Hok Ht Ha Hsem. pose proof (proj1 (active_of_spec _ _ _) Ha) as (_ & _ & _ & Hd).
  apply close_sem in Hsem as [? | ->]; [by left | right].
  split; [unfold closed; destruct c; by rewrite ?released_transfers |]. split; [by apply closed_none_active |].
  destruct c as [c |]; [| done]. split; [intros i row Hi Hr; by apply released_elsewhere | intros H; by apply released_free].
Qed.

(** ** Resolving a conversation *)
Definition tidy (s s' : Att) : Prop := a_transfers s' = a_transfers s /\ forall id, rows_are id free s -> rows_are id free s'.
#[global] Instance tidy_preorder : PreOrder tidy.
Proof. split; [by split |]. intros s1 s2 s3 [E1 H1] [E2 H2]. split; [congruence | auto]. Qed.
Definition tidying X (op : att_op X) : Prop :=
  match op with AWrite (WTracking _ _ _) | AWrite (WHistory _) | AEmit _ | ANow | ATry _ => True | _ => False end.
Lemma tidying_tidy X (op : att_op X) s x s' : tidying X op -> att_sem X op s x s' -> tidy s s'.
Proof.
  destruct op; try done; simpl; [by intros _ -> | by intros _ [-> _] | | by intros _ ->].
  destruct w; try done; intros _ H; (assert (Hx : s' = s \/ s' = snd (run_write _ s)) by (apply db_sem_exec in H as [H | [_ H]]; [right; by rewrite <- H | exact H]));
    destruct Hx as [-> | ->]; try done.
  split; [done |]. intros id Hf. revert Hf. apply rows_update; [done |]. intros r _ Hr. by destruct (contact_id contact r).
Qed.
Lemma after_close_tidies t c (changed : bool) actor webhook : only tidying (
  _ ← (_ ← (if changed then notify_status c ContactStatusResolved actor else mret tt); clear_tracking (c_ID c));
  _ ← (if String.eqb webhook "" then mret tt else call (AEmit (EWebhook webhook t)));
  _ ← recordOwnership (tr_Org t) actor (tr_ID t) "closed" (tr_AgentID t) None;
  mret (Ok (E := att_error) tt)).
Proof. unfold notify_status, clear_tracking, recordOwnership. solve_only. Qed.

Lemma no_active_none org contact s : activeTransferFor org contact s = None -> hasActiveAgentTransfer org contact s = false.
Proof.
  unfold activeTransferFor, hasActiveAgentTransfer. intros E%sql_min_none. unfold sql_count. by rewrite E.
Qed.

(** Resolving a conversation is a close: run alone, whatever fails on the way, an answer
    without error leaves the contact with no open attendance, no manager and no team, and
    resolved: nothing keeps the chatbot out of a conversation nobody owns. *)
Theorem resolve_leaves_nothing_open c actor s s' :
  att_ok s -> rows_are (c_ID c) (fun r => r = c) s ->
  runs att_sem (closeActiveAttendanceForContact c actor) s (Ok tt) s' ->
  hasActiveAgentTransfer (c_Org c) (c_ID c) s' = false /\ rows_are (c_ID c) free s'.
Proof.
  intros Hok Hc. unfold closeActiveAttendanceForContact.
  intros (r & s1 & [-> Hr] & H)%runs_call_bind. destruct Hr as [-> | ->]; [| by destruct H].
  destruct (activeTransferFor (c_Org c) (c_ID c) s) as [t |] eqn:E.
  - apply runs_call_bind in H as (now & s1 & -> & H). apply runs_bind in H as (r & s2 & Hclose & H).
    destruct r as [[] | e]; [| by destruct H]. apply runs_call_bind in H as (x & s3 & -> & [_ ->]).
    unfold closeAttendance in Hclose. apply runs_call_bind in Hclose as (r & s3 & Hsem & H). destruct r as [changed | e]; [| by destruct H].
    apply activeTransferFor_in in E as [Ht Ha]. pose proof (proj1 (active_of_spec _ _ _) Ha) as (Ho & Hco & _ & Hd).
    rewrite <- Ho, <- Hco in Ha. pose proof (closed_none_active t (resumed now actor) (Some c) s Hok Ht Hd Ha) as Hn.
    rewrite Ho, Hco in Hn. simpl in Hsem. apply close_sem in Hsem as [[_ ?] | ->]; [done |].
    apply (runs_relation att_sem tidy tidying) in H as [E2 H2]; [| apply tidying_tidy | apply after_close_tidies].
    unfold hasActiveAgentTransfer at 1. rewrite E2. split; [exact Hn | apply H2; by apply released_free].
  - apply no_active_none in E. unfold releaseContact in H. apply runs_call_bind in H as (r & s1 & Hsem & H). destruct r as [changed | e]; [| by destruct H].
    simpl in Hsem. apply db_sem_transaction in Hsem as [[_ ?] | (b & Hrel & _)]; [done |]. apply release_sem in Hrel as ->.
    assert (E2 : tidy (released c s) s').
    { revert H. apply (runs_relation att_sem tidy tidying); [apply tidying_tidy |]. unfold notify_status. destruct changed; solve_only. }
    destruct E2 as [E2 H2]. split; [| by apply H2, released_free].
    unfold hasActiveAgentTransfer. by rewrite E2, released_transfers.
Qed.

(** ** Witnesses *)
Definition ex_manager : Contact := set_assigned (Some 21%N) (set_contact_team (Some 4%N) ex_contact).
Definition ex_attending : Att := with_contacts (ex_att [ex_owned]) [ex_manager].
Lemma ex_attending_ok : att_ok ex_attending.
Proof. destruct (ex_att_ok ex_owned) as [H1 H2]. by split. Qed.
Lemma ex_manager_current : rows_are (c_ID ex_manager) (fun r => r = ex_manager) ex_attending.
Proof. intros r Hr _. by apply list_elem_of_singleton in Hr. Qed.
Lemma close_is_atomic_witness :
  let s' := snd (on_db (close_tx 50 (resumed 70 (Some 21%N)) (Some ex_manager)) ex_attending) in
  hasActiveAgentTransfer 9 3 s' = false /\ rows_are 3 free s' /\ tr_AgentID <$> a_transfers s' = [Some 21%N].
Proof.
  intros s'. destruct (close_is_atomic ex_owned (resumed 70 (Some 21%N)) (Some ex_manager) ex_attending _ s' ex_attending_ok
    (list_elem_of_here _ _) eq_refl (on_db_sem _ _)) as [[_ H] | (_ & H1 & _ & H2)]; [vm_compute in H; discriminate H |].
  split; [exact H1 | split; [exact (H2 ex_manager_current) | vm_compute; reflexivity]].
Defined.
Lemma resolve_leaves_nothing_open_witness :
  hasActiveAgentTransfer 9 3 ex_attending = true /\
  exists s', hasActiveAgentTransfer 9 3 s' = false /\ rows_are 3 free s'.
Proof.
  split; [vm_compute; reflexivity |].
  pose (run := prog_run (att_run 70 None true) (closeActiveAttendanceForContact ex_manager (Some 21%N)) ex_attending).
  exists (snd run). apply (resolve_leaves_nothing_open ex_manager (Some 21%N) ex_attending (snd run) ex_attending_ok ex_manager_current).
  exact (prog_run_runs att_sem (att_run 70 None true) (closeActiveAttendanceForContact ex_manager (Some 21%N)) ex_attending (att_run_sem 70 None true)).
Defined.
Lemma pick_fifo_witness :
  att_ok (ex_att [ex_waiting]) /\ exists t, t ∈ [ex_waiting] /\ tr_ID t = 50%N /\ owns (snd (on_db (pick_tx 9 22 AnyQueue true 70 (fun _ => false)) (ex_att [ex_waiting]))) (tr_ID t) 22.
Proof.
  split; [apply ex_att_ok |].
  destruct (pick_fifo 9 22 AnyQueue true 70 (fun _ => false) (ex_att [ex_waiting]) _ _ (ex_att_ok _) (on_db_sem _ _)) as (t & Ht & _ & _ & _ & E & _ & Ho).
  exists t. split; [exact Ht | split; [by apply list_elem_of_singleton in Ht as -> | exact Ho]].
Defined.
