(* ===== verification/GoAny.v ===== *)
(** Go values of type [any], as decoded JSON and the program's own maps hold them, and the
    text functions the chatbot's engines share: the character classes of package [regexp],
    [strings.Index], [strings.Cut], [strings.TrimSpace], [strconv.Atoi]. *)
From S2P Require Import Prelude GoText.
From Stdlib Require Import Ascii SpecFloat.

(** [[]any] and [[]map[string]any] are both [AArr]; a [map[string]any] lists its entries,
    one per key. *)
Inductive any : Type :=
  | ANil
  | ABool (b : bool)
  | AInt (n : Z)
  | AFloat (f : spec_float)
  | AStr (s : string)
  | AArr (l : list any)
  | AMap (m : list (string * any)).
Abbreviation amap := (list (string * any)) (only parsing).

(** What decoding a document into an [any] gives. *)
Fixpoint of_json (j : json) : any :=
  match j with
  | JNull => ANil
  | JBool b => ABool b
  | JNum f => AFloat f
  | JStr s => AStr s
  | JArr l => AArr (map of_json l)
  | JObj o => AMap (map (fun e => (fst e, of_json (snd e))) o)
  end.

(** ** Maps *)

(** [m[k]], [m[k] = v], [maps.Copy(dst, src)]. *)
Definition map_get (k : string) (m : amap) : any := default ANil (assoc k m).
Definition map_set (k : string) (v : any) (m : amap) : amap :=
  (k, v) :: filter (fun e => negb (String.eqb (fst e) k) = true) m.
Definition map_copy (dst src : amap) : amap := fold_left (fun d e => map_set (fst e) (snd e) d) src dst.

(** [v.(string)], [v.(map[string]any)], [v.([]any)], [v.(bool)] with their zero values. *)
Definition any_str (v : any) : string := match v with AStr s => s | _ => "" end.
Definition any_map (v : any) : option amap := match v with AMap m => Some m | _ => None end.
Definition any_arr (v : any) : option (list any) := match v with AArr l => Some l | _ => None end.
Definition any_bool (v : any) : bool := match v with ABool b => b | _ => false end.
Definition any_nil (v : any) : bool := match v with ANil => true | _ => false end.

Lemma assoc_filter_ne {A} (k k' : string) (m : list (string * A)) :
  k <> k' -> assoc k (filter (fun e => negb (String.eqb (fst e) k') = true) m) = assoc k m.
Proof.
  intros Hne. induction m as [| [q v] m IH]; [done |].
  rewrite filter_cons. simpl. destruct (String.eqb_spec q k') as [-> | Hq]; simpl.
  - rewrite (proj2 (String.eqb_neq k k')) by done. exact IH.
  - by destruct (String.eqb k q).
Qed.

Lemma map_get_set k v m : map_get k (map_set k v m) = v.
Proof. unfold map_get, map_set. simpl. by rewrite String.eqb_refl. Qed.
Lemma map_get_set_ne k k' v m : k <> k' -> map_get k (map_set k' v m) = map_get k m.
Proof.
  intros Hne. unfold map_get, map_set. simpl. rewrite (proj2 (String.eqb_neq k k')) by done.
  by rewrite assoc_filter_ne.
Qed.

(** ** Text *)

(** [\s], [\w] and [\d] of RE2. *)
Definition re_space (c : ascii) : bool :=
  (byte_val c =? 9) || (byte_val c =? 10) || (byte_val c =? 12) || (byte_val c =? 13) || (byte_val c =? 32).
Definition re_alpha (c : ascii) : bool :=
  byte_between (Some c) "a" "z" || byte_between (Some c) "A" "Z" || Ascii.eqb c "_".
Definition re_word (c : ascii) : bool := re_alpha c || is_digit c.

(** The longest prefix of bytes in the class, and what follows. *)
Fixpoint str_span (f : ascii -> bool) (s : string) : string * string :=
  match s with
  | String c s' => if f c then let '(a, b) := str_span f s' in (String c a, b) else ("", s)
  | EmptyString => ("", "")
  end.

(** [strings.CutPrefix], [strings.Index], [strings.Cut]. *)
Definition cut_prefix (p s : string) : option string :=
  if has_prefix p s then Some (str_drop (String.length p) s) else None.
Fixpoint str_find (sub s : string) : option nat :=
  if has_prefix sub s then Some O
  else match s with EmptyString => None | String _ s' => S <$> str_find sub s' end.
Definition str_cut (sep s : string) : option (string * string) :=
  i ← str_find sep s; Some (str_take i s, str_drop (i + String.length sep) s).

(** [strings.TrimSpace]. *)
Fixpoint drop_spaces (l : list (Z * string)) : list (Z * string) :=
  match l with
  | (r, b) :: l' => if is_space r then drop_spaces l' else l
  | [] => []
  end.
Definition trim_space (s : string) : string :=
  str_concat (map snd (rev (drop_spaces (rev (drop_spaces (runes s)))))).

(** [filepath.Base] where the separator is a slash. *)
Definition is_slash (c : ascii) : bool := Ascii.eqb c "/".
Definition str_rev (s : string) : string := str_concat (map (fun x => String x "") (rev (String.list_ascii_of_string s))).
Definition base_name (s : string) : string :=
  if String.eqb s "" then "."
  else
    let r := snd (str_span is_slash (str_rev s)) in
    if String.eqb r "" then "/" else str_rev (fst (str_span (fun c => negb (is_slash c)) r)).
(** [strings.ToLower] as far as a comparison with an ASCII word can tell: the two letters
    outside ASCII whose lower case is in ASCII are mapped, the others are left as they are. *)
Definition lower_rune (x : Z * string) : string :=
  let '(r, b) := x in
  if (65 <=? r) && (r <=? 90) then String (ascii_of_N (Z.to_N (r + 32))) ""
  else if r =? 304 then "i" else if r =? 8490 then "k" else b.
Definition lower_ascii (s : string) : string := str_concat (map lower_rune (runes s)).

(** [strconv.Atoi]: a sign, decimal digits, and a value an [int] holds. *)
Fixpoint digits_value (acc : Z) (s : string) : Z :=
  match s with
  | EmptyString => acc
  | String c s' => digits_value (10 * acc + digit_val c) s'
  end.
Definition atoi (s : string) : option Z :=
  let '(neg, ds) :=
    match s with
    | String c s' => if Ascii.eqb c "-" then (true, s') else if Ascii.eqb c "+" then (false, s') else (false, s)
    | EmptyString => (false, s)
    end in
  if String.eqb ds "" || negb (str_forallb is_digit ds) then None
  else
    let v := if neg then - digits_value 0 ds else digits_value 0 ds in
    if (min_int64 <=? v) && (v <=? max_int64) then Some v else None.

Example atoi_1 : map atoi ["0"; "-12"; "+7"; ""; "-"; "1_0"; "9223372036854775808"] =
  [Some 0; Some (-12); Some 7; None; None; None; None].
Proof. reflexivity. Qed.
Example trim_1 : trim_space "  a b " = "a b". Proof. vm_compute. reflexivity. Qed.
Example cut_1 : str_cut "--" "a--b--c" = Some ("a", "b--c"). Proof. reflexivity. Qed.

Lemma str_span_app f s : fst (str_span f s) +:+ snd (str_span f s) = s.
Proof.
  induction s as [| c s IH]; [done |]. simpl. destruct (f c); [| done].
  destruct (str_span f s) as [a b]. simpl in *. by rewrite str_app_cons, IH.
Qed.
Lemma str_span_all f s : str_forallb f (fst (str_span f s)) = true.
Proof.
  induction s as [| c s IH]; [done |]. simpl. destruct (f c) eqn:E; [| done].
  destruct (str_span f s) as [a b]. simpl in *. by rewrite E, IH.
Qed.

Lemma str_drop_app s t : str_drop (String.length s) (s +:+ t) = t.
Proof. induction s as [| a s IH]; [done |]. rewrite str_app_cons. exact IH. Qed.

Lemma cut_prefix_some p s t : cut_prefix p s = Some t -> s = p +:+ t.
Proof.
  unfold cut_prefix. intros H. destruct (has_prefix p s) eqn:E; [| done]. injection H as <-.
  apply has_prefix_true in E as [t ->]. by rewrite str_drop_app.
Qed.
Lemma str_find_spec sub s i :
  str_find sub s = Some i -> s = str_take i s +:+ sub +:+ str_drop (i + String.length sub) s.
Proof.
  revert i. induction s as [| c s IH]; intros i; simpl.
  - destruct (has_prefix sub "") eqn:E; [| done]. intros [= <-].
    by destruct sub.
  - destruct (has_prefix sub (String c s)) eqn:E.
    + intros [= <-]. apply has_prefix_true in E as [t Ht]. rewrite Ht. simpl. by rewrite str_drop_app.
    + destruct (str_find sub s) as [j |] eqn:Ej; [| done]. intros [= <-]. simpl.
      rewrite str_app_cons. f_equal. by apply IH.
Qed.
Lemma str_cut_some sep s a b : str_cut sep s = Some (a, b) -> s = a +:+ sep +:+ b.
Proof.
  unfold str_cut. destruct (str_find sep s) as [i |] eqn:E; [| done]. simpl. intros [= <- <-].
  by apply str_find_spec.
Qed.

(** A cut needs the separator: without it in the text there is none. *)
Lemma str_find_contains sub s i : str_find sub s = Some i -> str_contains sub s = true.
Proof.
  revert i. induction s as [| c s IH]; intros i; simpl; destruct (has_prefix sub _); try done.
  destruct (str_find sub s) as [j |]; [| done]. intros _. simpl. by apply (IH j).
Qed.
Lemma str_contains_app_r sub s t : str_contains sub t = true -> str_contains sub (s +:+ t) = true.
Proof.
  intros H. induction s as [| c s IH]; [done |]. rewrite str_app_cons. simpl. rewrite IH. apply orb_true_r.
Qed.
Lemma str_contains_mid a sub b : str_contains sub (a +:+ sub +:+ b) = true.
Proof.
  apply str_contains_app_r. destruct (sub +:+ b) eqn:E; simpl; rewrite <- E, has_prefix_app; done.
Qed.

(** [strings.ToUpper], [strings.ReplaceAll(s, old, new)] for a non-empty [old], and
    [strings.TrimRight(s, cutset)] for one byte. *)
Definition upper_ascii (s : string) : string :=
  str_concat (map (fun x => let '(r, b) := x in if (97 <=? r) && (r <=? 122) then String (ascii_of_N (Z.to_N (r - 32))) "" else b) (runes s)).
Fixpoint replace_from (old new : string) (skip : nat) (s : string) : string :=
  match s with
  | EmptyString => ""
  | String c s' =>
      match skip with
      | S skip' => replace_from old new skip' s'
      | O => if has_prefix old s then new +:+ replace_from old new (String.length old - 1) s' else String c (replace_from old new O s')
      end
  end.
Definition str_replace_all (old new s : string) : string := replace_from old new O s.
Fixpoint trim_right (c : ascii) (s : string) : string :=
  match s with
  | EmptyString => ""
  | String a s' => let t := trim_right c s' in if String.eqb t "" && Ascii.eqb a c then "" else String a t
  end.
Example replace_1 : str_replace_all "ab" "X" "abcabab" = "XcXX". Proof. reflexivity. Qed.
Example trim_right_1 : trim_right "/" "https://h//" = "https://h". Proof. reflexivity. Qed.

(** Printed numbers. *)
Lemma digits_value_fuel fuel n acc : 0 <= n < 10 ^ Z.of_nat fuel -> (0 < fuel)%nat -> digits_value 0 (digits_fuel fuel n acc) = digits_value n acc.
Proof.
  revert n acc. induction fuel as [| fuel IH]; intros n acc Hn Hf; [lia |]. cbn [digits_fuel]. pose proof (Z.mod_pos_bound n 10 ltac:(lia)) as Hm.
  destruct (n <? 10) eqn:E.
  - cbn [digits_value]. unfold digit_val. rewrite byte_val_digit_char by lia. f_equal. rewrite Z.mod_small by lia. lia.
  - rewrite Nat2Z.inj_succ, Z.pow_succ_r in Hn by lia. rewrite IH.
    + cbn [digits_value]. unfold digit_val. rewrite byte_val_digit_char by lia. f_equal. pose proof (Z.div_mod n 10 ltac:(lia)). lia.
    + split; [apply Z.div_pos; lia | apply Z.div_lt_upper_bound; lia].
    + destruct fuel; [| lia]. simpl in Hn. lia.
Qed.
Lemma digits_fuel_head fuel n acc : (0 < fuel)%nat -> exists c s, digits_fuel fuel n acc = String c s /\ (str_forallb is_digit acc = true -> is_digit c = true).
Proof.
  intros Hf. assert (H : forall fuel n acc, (exists c s, acc = String c s /\ (is_digit c = true)) -> exists c s, digits_fuel fuel n acc = String c s /\ is_digit c = true).
  { clear. intros fuel. induction fuel as [| fuel IH]; intros n acc Ha; [done |]. cbn [digits_fuel]. pose proof (Z.mod_pos_bound n 10 ltac:(lia)).
    destruct (n <? 10); [| apply IH]; eexists _, _; (split; [reflexivity | apply is_digit_digit_char; lia]). }
  destruct fuel as [| fuel]; [lia |]. cbn [digits_fuel]. pose proof (Z.mod_pos_bound n 10 ltac:(lia)). assert (Hd : is_digit (digit_char (n mod 10)) = true) by (apply is_digit_digit_char; lia).
  destruct (n <? 10); [by eexists _, _ |]. destruct (H fuel (n / 10) (String (digit_char (n mod 10)) acc)) as (c & s & E & Hc); [by eexists _, _ |]. by exists c, s.
Qed.
Lemma atoi_itoa n : 0 <= n <= max_int64 -> atoi (itoa n) = Some n.
Proof.
  unfold max_int64. intros Hn. unfold itoa. destruct (n <? 0) eqn:E; [lia |]. destruct (digits_fuel_head 20 n "" ltac:(lia)) as (c & s & Hs & Hc).
  assert (Hd : str_forallb is_digit (digits_fuel 20 n "") = true) by (apply digits_fuel_forallb; [by intros; apply is_digit_digit_char | done]).
  assert (Hv : digits_value 0 (digits_fuel 20 n "") = n) by (apply digits_value_fuel; lia). specialize (Hc eq_refl).
  unfold atoi. rewrite Hs in *. assert (Hne : Ascii.eqb c "-" = false /\ Ascii.eqb c "+" = false).
  { split; apply Ascii.eqb_neq; intros ->; discriminate Hc. }
  destruct Hne as [-> ->]. cbn [String.eqb orb]. rewrite Hd. cbn [negb]. rewrite Hv. unfold min_int64, max_int64. replace ((- 2 ^ 63 <=? n) && (n <=? 2 ^ 63 - 1)) with true by lia. done.
Qed.
Lemma itoa_inj a b : 0 <= a <= max_int64 -> 0 <= b <= max_int64 -> itoa a = itoa b -> a = b.
Proof. intros Ha Hb E. apply (f_equal atoi) in E. rewrite !atoi_itoa in E by done. congruence. Qed.

(** ** [%06d] *)
Definition zeros (n : nat) : string := str_concat (repeat "0" n).
Definition pad6 (s : string) : string := zeros (6 - String.length s) +:+ s.
Lemma zeros_value n s : digits_value 0 (zeros n +:+ s) = digits_value 0 s.
Proof. induction n as [| n IH]; [done |]. exact IH. Qed.
Lemma itoa_value n : 0 <= n <= max_int64 -> digits_value 0 (itoa n) = n.
Proof. unfold max_int64. intros Hn. unfold itoa. destruct (n <? 0) eqn:E; [lia |]. apply digits_value_fuel; lia. Qed.
Lemma pad6_inj m n : 0 <= m <= max_int64 -> 0 <= n <= max_int64 -> pad6 (itoa m) = pad6 (itoa n) -> m = n.
Proof. intros Hm Hn E. apply (f_equal (digits_value 0)) in E. unfold pad6 in E. by rewrite !zeros_value, !itoa_value in E. Qed.
Lemma itoa_digits n : 0 <= n -> str_forallb is_digit (itoa n) = true.
Proof. intros Hn. unfold itoa. destruct (n <? 0) eqn:E; [lia |]. apply digits_fuel_forallb; [by intros; apply is_digit_digit_char | done]. Qed.
