(* ===== verification/Templating.v ===== *)
(** The parameters of a message template ([internal/templateutil/templateutil.go]) and the
    components WhatsApp is sent for them ([pkg/whatsapp/message.go]). *)
From S2P Require Import Prelude GoText GoAny.
From Stdlib Require Import Ascii SpecFloat.

(** * Names *)
(** [\{\{([^}]+)\}\}] at the start: the name and what follows. *)
Definition no_brace (c : ascii) : bool := negb (Ascii.eqb c "}").
Definition param_at (s : string) : option (string * string) :=
  match cut_prefix "{{" s with
  | None => None
  | Some t => let '(name, r) := str_span no_brace t in
              match cut_prefix "}}" r with Some rest => if String.eqb name "" then None else Some (name, rest) | None => None end
  end.
Fixpoint find_params (fuel : nat) (s : string) : list string :=
  match fuel with
  | O => []
  | S fuel' =>
      match param_at s with
      | Some (name, rest) => name :: find_params fuel' rest
      | None => match s with EmptyString => [] | String _ s' => find_params fuel' s' end
      end
  end.
Fixpoint first_names (seen : list string) (l : list string) : list string :=
  match l with
  | [] => []
  | x :: l' => let x := trim_space x in
               if String.eqb x "" || existsb (String.eqb x) seen then first_names seen l' else x :: first_names (seen ++ [x]) l'
  end.
Definition ExtParamNames (content : string) : list string := first_names [] (find_params (S (String.length content)) content).
Definition isPositionalParam (name : string) : bool := str_forallb is_digit name && negb (String.eqb name "").
(** [true]: no error. *)
Definition ValidateHeaderParamCount (content : string) : bool := (length (ExtParamNames content) <=? 1)%nat.
Definition ValidateNoMixedParams (content : string) : bool :=
  let names := ExtParamNames content in negb (existsb isPositionalParam names && existsb (fun n => negb (isPositionalParam n)) names).

Section Values.
(** [%v] of a [float64]. *)
Context (FormatG : spec_float -> string).
(** [fmt.Sprintf("%v")] of decoded JSON. *)
Fixpoint sprint_v (v : any) : string :=
  match v with
  | ANil => "<nil>"
  | ABool b => if b then "true" else "false"
  | AInt n => itoa n
  | AFloat f => FormatG f
  | AStr s => s
  | AArr l => "[" +:+ str_join " " ((fix go l := match l with [] => [] | x :: l' => sprint_v x :: go l' end) l) +:+ "]"
  | AMap m => "map[" +:+ str_join " " (sort_strings ((fix go m := match m with [] => [] | (k, x) :: m' => (k +:+ ":" +:+ sprint_v x) :: go m' end) m)) +:+ "]"
  end.

(** * Values *)
Definition named_or_positional {A} (params : list (string * A)) (i : nat) (name : string) : option A :=
  match assoc name params with Some v => Some v | None => assoc (itoa (Z.of_nat (S i))) params end.
Definition ResolveParamsFromMap (paramNames : list string) (params : list (string * string)) : list string :=
  match params with [] => [] | _ => imap (fun i name => default "" (named_or_positional params i name)) paramNames end.
Definition value_of (params : amap) (i : nat) (name : string) : string := match named_or_positional params i name with Some v => sprint_v v | None => "" end.
Definition ResolveParams (bodyContent : string) (params : amap) : list string :=
  match params with [] => [] | _ => imap (value_of params) (ExtParamNames bodyContent) end.
Definition braced (name : string) : string := "{{" +:+ name +:+ "}}".
Fixpoint replace_strings (params : list (string * string)) (i : nat) (names : list string) (content : string) : string :=
  match names with
  | [] => content
  | name :: names' =>
      replace_strings params (S i) names' (match named_or_positional params i name with Some v => str_replace_all (braced name) v content | None => content end)
  end.
Definition ReplaceWithStringParams (content : string) (params : list (string * string)) : string :=
  if String.eqb content "" then content else match params with [] => content | _ => replace_strings params 0 (ExtParamNames content) content end.
Fixpoint replace_params (params : amap) (i : nat) (names : list string) (content : string) : string :=
  match names with
  | [] => content
  | name :: names' =>
      let v := value_of params i name in
      replace_params params (S i) names' (str_replace_all (braced (itoa (Z.of_nat (S i)))) v (str_replace_all (braced name) v content))
  end.
Definition ReplaceWithJSONBParams (bodyContent content : string) (params : amap) : string :=
  match params with [] => content | _ => replace_params params 0 (ExtParamNames bodyContent) content end.

(** * Components *)
Record Param := MkParam { pa_Name : option string; pa_Text : string }.
Inductive Component :=
  | CHeaderText (p : Param)
  | CHeaderMedia (kind id : string) (filename : option string)
  | CBody (params : list Param)
  | CFlowButton (index : nat) (flow_token : string).
(** The order of the keys; of keys that spell one number, some order. *)
Definition numeric_le (a b : string) : Prop := default 0 (atoi a) <= default 0 (atoi b).
#[global] Instance numeric_le_dec a b : Decision (numeric_le a b).
Proof. unfold numeric_le. apply _. Defined.
Definition is_number (s : string) : bool := match atoi s with Some _ => true | None => false end.
Definition sortParamKeys (keys : list string) (forceLexical : bool) : list string :=
  if forceLexical || negb (forallb is_number keys) then sort_strings keys else merge_sort numeric_le keys.
Definition BodyParamsToComponents (bodyParams : gmap string string) : list Component :=
  let keys := map fst (map_to_list bodyParams) in
  match keys with
  | [] => []
  | _ => let named := negb (forallb is_number keys) in
         [CBody (map (fun k => MkParam (if named then Some k else None) (default "" (bodyParams !! k))) (sortParamKeys keys named))]
  end.
(** [None]: the header has more than one variable. *)
Definition HeaderTextParamsComponent (headerContent : string) (params fallback : gmap string string) : option (list Component) :=
  if negb (str_contains "{{" headerContent) then Some []
  else match ExtParamNames headerContent with
       | [] => Some []
       | [name] =>
           let value := default "" (params !! name) in
           Some [CHeaderText (MkParam (if is_number name then None else Some name) (if String.eqb value "" then default "" (fallback !! name) else value))]
       | _ => None
       end.
Definition BuildTemplateComponents (bodyParams : gmap string string) (headerType headerContent : string) (headerParams : gmap string string) (mediaID mediaFilename : string) : option (list Component) :=
  let kind := upper_ascii headerType in
  header ← (if String.eqb kind "TEXT" then HeaderTextParamsComponent headerContent headerParams bodyParams
            else if existsb (String.eqb kind) ["IMAGE"; "VIDEO"; "DOCUMENT"] then
              Some (if String.eqb mediaID "" then []
                    else [CHeaderMedia (lower_ascii headerType) mediaID (if String.eqb (lower_ascii headerType) "document" && negb (String.eqb mediaFilename "") then Some mediaFilename else None)])
            else Some []);
  Some (header ++ BodyParamsToComponents bodyParams).
(** [nanos i]: the clock when the [i]-th button is met. *)
Definition AutoButtonComponents (nanos : nat -> Z) (buttons : list any) : list Component :=
  omap id (imap (fun i raw => match raw with
                              | AMap btn => if String.eqb (upper_ascii (any_str (map_get "type" btn))) "FLOW" then Some (CFlowButton i ("flow_" +:+ itoa (nanos i))) else None
                              | _ => None
                              end) buttons).
End Values.

(** * Fragments: a text and the slots in it *)
Inductive fragment := Lit (s : string) | Slot (name : string).
Definition print_fragment (f : fragment) : string := match f with Lit s => s | Slot name => braced name end.
Definition print (l : list fragment) : string := str_concat (map print_fragment l).
Definition open_free (s : string) : bool := str_forallb (fun c => negb (Ascii.eqb c "{")) s.
Definition slot_name (name : string) : bool := open_free name && str_forallb no_brace name && negb (String.eqb name "").
Definition fragment_ok (f : fragment) : bool := match f with Lit s => open_free s | Slot name => slot_name name end.
Definition slots (l : list fragment) : list string := omap (fun f => match f with Slot n => Some n | Lit _ => None end) l.
Definition fill (n v : string) (f : fragment) : fragment := match f with Slot m => if String.eqb n m then Lit v else f | Lit _ => f end.

Lemma span_all f s t c : str_forallb f s = true -> f c = false -> str_span f (s +:+ String c t) = (s, String c t).
Proof.
  intros Hs Hc. induction s as [| a s IH]; [simpl; by rewrite Hc |]. rewrite str_app_cons. simpl in *. bool_hyps. rewrite H. by rewrite IH.
Qed.
Lemma param_at_slot name rest : slot_name name = true -> param_at (braced name +:+ rest) = Some (name, rest).
Proof.
  intros H. unfold slot_name in H. bool_hyps. unfold param_at, braced. rewrite <- !str_app_assoc. unfold cut_prefix at 1. rewrite has_prefix_app. simpl (str_drop _ _).
  rewrite str_app_nil_l. change ("}}" +:+ rest) with (String "}" (String "}" rest)). rewrite span_all by done. unfold cut_prefix. simpl. by destruct (String.eqb name "").
Qed.
Lemma param_at_other c s : c <> "{"%char -> param_at (String c s) = None.
Proof. intros H. unfold param_at, cut_prefix. cbn [has_prefix]. apply Ascii.eqb_neq in H. by rewrite Ascii.eqb_sym, H. Qed.
Lemma str_app_length s t : String.length (s +:+ t) = (String.length s + String.length t)%nat.
Proof. induction s as [| a s IH]; [done |]. rewrite str_app_cons. simpl. by rewrite IH. Qed.
Lemma find_params_lit fuel s t : open_free s = true -> (String.length s < fuel)%nat -> find_params fuel (s +:+ t) = find_params (fuel - String.length s) t.
Proof.
  revert fuel. induction s as [| c s IH]; intros fuel Hs Hf; [rewrite str_app_nil_l; f_equal; simpl; lia |]. destruct fuel as [| fuel]; [simpl in Hf; lia |].
  unfold open_free in Hs. simpl in Hs. bool_hyps. apply Ascii.eqb_neq in H. rewrite str_app_cons. cbn [find_params]. rewrite param_at_other by done.
  simpl in Hf. rewrite IH by (done || lia). f_equal.
Qed.
Lemma find_params_print l fuel : forallb fragment_ok l = true -> (String.length (print l) < fuel)%nat -> find_params fuel (print l) = slots l.
Proof.
  revert fuel. induction l as [| f l IH]; intros fuel Hl Hf; [by destruct fuel as [| fuel] |]. simpl in Hl. apply andb_prop in Hl as [Hfr Hl].
  unfold print in *. simpl in Hf |- *. rewrite str_app_length in Hf. destruct f as [s | n]; simpl in *.
  - rewrite find_params_lit by (done || lia). apply IH; [done | lia].
  - destruct fuel as [| fuel]; [lia |]. cbn [find_params]. rewrite param_at_slot by done. f_equal. apply IH; [done |].
    unfold braced in Hf. rewrite !str_app_length in Hf. simpl in Hf. lia.
Qed.

(** ** Filling one slot *)
Lemma prefix_slot n m rest : slot_name n = true -> slot_name m = true -> has_prefix (braced n) (braced m +:+ rest) = String.eqb n m.
Proof.
  intros Hn Hm. destruct (String.eqb n m) eqn:E; [apply String.eqb_eq in E as ->; apply has_prefix_app |]. apply not_true_iff_false. intros [t Ht]%has_prefix_true.
  apply String.eqb_neq in E. apply E. assert (H1 := param_at_slot m rest Hm). assert (H2 := param_at_slot n t Hn). rewrite Ht, H2 in H1. congruence.
Qed.
Lemma prefix_other n c s : c <> "{"%char -> has_prefix (braced n) (String c s) = false.
Proof. intros H. apply Ascii.eqb_neq in H. unfold braced. rewrite str_app_cons. cbn [has_prefix]. by rewrite Ascii.eqb_sym, H. Qed.
Lemma replace_skip old new s t : replace_from old new (String.length s) (s +:+ t) = replace_from old new 0 t.
Proof. induction s as [| c s IH]; [done |]. rewrite str_app_cons. exact IH. Qed.
Lemma replace_lit n v s t : open_free s = true -> replace_from (braced n) v 0 (s +:+ t) = s +:+ replace_from (braced n) v 0 t.
Proof.
  induction s as [| c s IH]; intros Hs; [done |]. unfold open_free in Hs. simpl in Hs. bool_hyps. apply Ascii.eqb_neq in H. rewrite !str_app_cons. cbn [replace_from].
  rewrite prefix_other by done. by rewrite IH.
Qed.
Lemma slot_open name : slot_name name = true -> open_free name = true /\ name <> "".
Proof. unfold slot_name. intros H. bool_hyps. split; [done | by apply String.eqb_neq]. Qed.
Lemma replace_hit old v t : old <> "" -> replace_from old v 0 (old +:+ t) = v +:+ replace_from old v 0 t.
Proof.
  destruct old as [| c o]; [done |]. intros _. rewrite str_app_cons. cbn [replace_from]. rewrite <- str_app_cons, has_prefix_app. f_equal.
  cbn [String.length]. rewrite Nat.sub_succ, Nat.sub_0_r. apply replace_skip.
Qed.
Lemma replace_miss old v c s : has_prefix old (String c s) = false -> replace_from old v 0 (String c s) = String c (replace_from old v 0 s).
Proof. intros H. cbn [replace_from]. by rewrite H. Qed.
Lemma braced_app m t : braced m +:+ t = String "{" (String "{" (m +:+ "}}" +:+ t)).
Proof. unfold braced. by rewrite <- !str_app_assoc. Qed.
Lemma replace_slot n v m t : slot_name n = true -> slot_name m = true ->
  replace_from (braced n) v 0 (braced m +:+ t) = (if String.eqb n m then v else braced m) +:+ replace_from (braced n) v 0 t.
Proof.
  intros Hn Hm. pose proof (prefix_slot n m t Hn Hm) as Hp. destruct (String.eqb n m) eqn:E; [apply String.eqb_eq in E as <-; by apply replace_hit |].
  destruct (slot_open m Hm) as [Ho Hne]. rewrite !braced_app in Hp |- *. rewrite replace_miss by done. rewrite replace_miss.
  - rewrite replace_lit by done. rewrite replace_lit by done. by rewrite braced_app.
  - destruct m as [| c m]; [done |]. unfold open_free in Ho. simpl in Ho. bool_hyps. unfold braced. rewrite !str_app_cons. cbn [has_prefix].
    rewrite (Ascii.eqb_sym "{" c), H. by rewrite andb_false_r.
Qed.
Lemma print_cons f l : print (f :: l) = print_fragment f +:+ print l.
Proof. done. Qed.
Lemma replace_print n v l : slot_name n = true -> forallb fragment_ok l = true -> str_replace_all (braced n) v (print l) = print (map (fill n v) l).
Proof.
  intros Hn. unfold str_replace_all. induction l as [| f l IH]; [done |]. cbn [forallb map]. intros [Hf Hl]%andb_prop. rewrite !print_cons. destruct f as [s | m].
  - cbn [print_fragment fill fragment_ok] in *. by rewrite replace_lit, IH.
  - cbn [print_fragment fill fragment_ok] in *. rewrite replace_slot, IH by done. by destruct (String.eqb n m).
Qed.
Lemma fill_ok n v l : open_free v = true -> forallb fragment_ok l = true -> forallb fragment_ok (map (fill n v) l) = true.
Proof.
  intros Hv H. rewrite forallb_forall in H |- *. intros f (g & <- & Hg)%in_map_iff. apply H in Hg. destruct g as [s | m]; simpl; [done |]. by destruct (String.eqb n m).
Qed.

(** ** Printed numbers *)
Lemma slot_itoa n : 0 <= n <= max_int64 -> slot_name (itoa n) = true.
Proof.
  intros Hn. assert (Hf : forall f, (forall d, 0 <= d <= 9 -> f (digit_char d) = true) -> f "-"%char = true -> str_forallb f (itoa n) = true) by (intros; by apply itoa_forallb).
  assert (Hd : forall c d, is_digit c = false -> 0 <= d <= 9 -> negb (Ascii.eqb (digit_char d) c) = true).
  { intros c d Hc Hd. apply negb_true_iff, Ascii.eqb_neq. intros <-. by rewrite is_digit_digit_char in Hc. }
  unfold slot_name, open_free. rewrite !Hf; [| intros d Hr; unfold no_brace; by apply Hd | done | intros d Hr; by apply Hd | done].
  cbn [andb]. apply negb_true_iff, String.eqb_neq. intros E. pose proof (atoi_itoa n Hn) as Ha. by rewrite E in Ha.
Qed.

(** ** Every slot by its value *)
Definition apply_values (f : string -> string) (g : fragment) : fragment := match g with Slot n => Lit (f n) | Lit _ => g end.
(** No variable is called by the number of an earlier one that has another name. *)
Definition orderly (names : list string) : Prop := forall i j, names !! j = Some (itoa (Z.of_nat (S i))) -> (j <= i)%nat.

Lemma fill_absent n v l : n ∉ slots l -> map (fill n v) l = l.
Proof.
  induction l as [| f l IH]; [done |]. intros H. destruct f as [s | m]; simpl in *; [by rewrite IH |].
  apply not_elem_of_cons in H as [Hne H]. rewrite IH by done. apply String.eqb_neq in Hne. by rewrite Hne.
Qed.
Lemma slots_fill n v l x : x ∈ slots (map (fill n v) l) <-> x ∈ slots l /\ x <> n.
Proof.
  induction l as [| f l IH]; simpl; [set_solver |]. destruct f as [s | m]; simpl; [done |]. destruct (String.eqb n m) eqn:E; simpl.
  - apply String.eqb_eq in E as <-. set_solver.
  - apply String.eqb_neq in E. set_solver.
Qed.
Lemma apply_fill f n l : map (apply_values f) (map (fill n (f n)) l) = map (apply_values f) l.
Proof.
  induction l as [| g l IH]; [done |]. simpl. rewrite IH. f_equal. destruct g as [s | m]; [done |]. simpl. destruct (String.eqb n m) eqn:E; [| done].
  apply String.eqb_eq in E as <-. done.
Qed.
Lemma apply_none f l : slots l = [] -> map (apply_values f) l = l.
Proof. induction l as [| [s | m] l IH]; [done | | done]. intros H. simpl in *. by rewrite IH. Qed.
Lemma slots_ok l n : forallb fragment_ok l = true -> n ∈ slots l -> slot_name n = true.
Proof.
  intros H Hn. unfold slots in Hn. apply list_elem_of_omap in Hn as (g & Hg & Hs). rewrite forallb_forall in H. apply list_elem_of_In, H in Hg. destruct g; [done |]. by simplify_eq/=.
Qed.
Definition trimmed (names : list string) : Prop := forall n, n ∈ names -> trim_space n = n.
Lemma existsb_in x l : existsb (String.eqb x) l = true <-> x ∈ l.
Proof. rewrite existsb_exists. setoid_rewrite <- list_elem_of_In. split; [intros (y & Hy & E); apply String.eqb_eq in E as ->; done | intros H; exists x; split; [done | apply String.eqb_refl]]. Qed.
Lemma first_names_spec seen l : trimmed l -> Forall (fun n => n <> "") l ->
  NoDup (first_names seen l) /\ (forall x, x ∈ first_names seen l <-> x ∈ l /\ x ∉ seen).
Proof.
  revert seen. induction l as [| x l IH]; intros seen Ht Hn; [split; [constructor | set_solver] |]. apply Forall_cons_1 in Hn as [Hx Hn]. cbn [first_names].
  assert (Ht' : trimmed l) by (intros n Hin; apply Ht; set_solver). rewrite (Ht x) by set_solver. apply String.eqb_neq in Hx. rewrite Hx. cbn [orb].
  destruct (existsb (String.eqb x) seen) eqn:E.
  - apply existsb_in in E. destruct (IH seen Ht' Hn) as [Hd Hs]. split; [done |]. intros y. rewrite Hs. set_solver.
  - assert (Hns : x ∉ seen) by (intros Hin; apply existsb_in in Hin; congruence). destruct (IH (seen ++ [x]) Ht' Hn) as [Hd Hs]. split.
    + constructor; [rewrite Hs; set_solver | done].
    + intros y. rewrite elem_of_cons, Hs. destruct (decide (y = x)); set_solver.
Qed.
Lemma names_of_print l : forallb fragment_ok l = true -> trimmed (slots l) ->
  NoDup (ExtParamNames (print l)) /\ (forall x, x ∈ ExtParamNames (print l) <-> x ∈ slots l).
Proof.
  intros Hl Ht. unfold ExtParamNames. rewrite find_params_print by (done || lia). destruct (first_names_spec [] (slots l)) as [Hd Hs]; [done | |].
  - apply Forall_forall. intros n Hn. eapply slots_ok in Hn; [| done]. by apply slot_open in Hn as [_ Hn].
  - split; [done |]. intros x. rewrite Hs. set_solver.
Qed.

Section Replacing.
Context (FormatG : spec_float -> string).
Lemma replace_params_apply params f : forall names i l, forallb fragment_ok l = true -> (forall x, x ∈ slots l -> x ∈ names) -> (forall n, n ∈ names -> slot_name n = true /\ open_free (f n) = true) ->
  (forall k n, names !! k = Some n -> f n = value_of FormatG params (i + k) n) ->
  (forall k j, names !! j = Some (itoa (Z.of_nat (S (i + k)))) -> (j <= k)%nat) -> Z.of_nat (i + length names) <= max_int64 ->
  replace_params FormatG params i names (print l) = print (map (apply_values f) l).
Proof.
  induction names as [| n names IH]; intros i l Hl Hs Hok Hf Hord Hlen.
  - cbn [replace_params]. rewrite apply_none; [done |]. destruct (slots l) as [| x xs]; [done |]. exfalso. specialize (Hs x). set_solver.
  - cbn [replace_params]. cbn [length] in Hlen. destruct (Hok n) as [Hn Hv]; [set_solver |]. pose proof (Hf 0%nat n eq_refl) as Hf0. rewrite Nat.add_0_r in Hf0. rewrite <- Hf0.
    set (m := itoa (Z.of_nat (S i))). assert (Hm : slot_name m = true) by (apply slot_itoa; lia).
    rewrite replace_print by done. rewrite replace_print by (done || by apply fill_ok).
    assert (Hsub : forall x, x ∈ slots (map (fill n (f n)) l) -> x ∈ names) by (intros x [Hx Hne]%slots_fill; apply Hs in Hx; set_solver).
    rewrite fill_absent.
    + rewrite (IH (S i)); [by rewrite apply_fill | by apply fill_ok | done | intros y Hy; apply Hok; set_solver | | | cbn; lia].
      * intros k y Hy. rewrite (Hf (S k) y Hy). f_equal. lia.
      * intros k j Hj. specialize (Hord (S k) (S j)). rewrite Nat.add_succ_r in Hord. apply Hord in Hj. lia.
    + intros Hin. apply Hsub, list_elem_of_lookup in Hin as [j Hj]. specialize (Hord 0%nat (S j)). rewrite Nat.add_0_r in Hord. apply Hord in Hj. lia.
Qed.
End Replacing.

(** * What the customer is shown and what is stored *)
Section Sending.
Context (FormatG : spec_float -> string).
(** The worker's parameters of the body. *)
Definition bodyParams (content : string) (params : amap) : gmap string string :=
  let paramNames := ExtParamNames content in
  foldl (fun m kv => <[kv.1 := kv.2]> m) ∅ (imap (fun i v => (default (itoa (Z.of_nat (S i))) (paramNames !! i), v)) (ResolveParams FormatG content params)).
(** WhatsApp's rule: a variable is the parameter of its name, or the one at its number. *)
Definition body_of (components : list Component) : list Param := mjoin (map (fun c => match c with CBody ps => ps | _ => [] end) components).
Definition shown (components : list Component) (name : string) : string :=
  let ps := body_of components in
  match find (fun p => bool_decide (pa_Name p = Some name)) ps with
  | Some p => pa_Text p
  | None => match atoi name with Some k => default "" (pa_Text <$> ps !! Z.to_nat (k - 1)) | None => "" end
  end.

Lemma insert_all {A} (l : list (string * A)) (m : gmap string A) : NoDup l.*1 -> foldl (fun m kv => <[kv.1 := kv.2]> m) m l = list_to_map l ∪ m.
Proof.
  revert m. induction l as [| [k v] l IH]; intros m Hd; simpl; [by rewrite (left_id_L ∅ (∪)) |]. apply NoDup_cons in Hd as [Hk Hd]. rewrite IH by done.
  rewrite <- insert_union_r by (by apply not_elem_of_list_to_map_1). by rewrite insert_union_l.
Qed.
Lemma imap_keys {A B C} (f : nat -> A -> B) (g : nat -> A -> C) l : (imap (fun i x => (f i x, g i x)) l).*1 = imap f l.
Proof. rewrite fmap_imap. by apply imap_ext. Qed.
Lemma imap_same {A} (l : list A) : imap (fun _ x => x) l = l.
Proof. apply list_eq. intros i. rewrite list_lookup_imap. by destruct (l !! i). Qed.
Lemma imap_imap {A B C} (f : nat -> B -> C) (g : nat -> A -> B) l : imap f (imap g l) = imap (fun i x => f i (g i x)) l.
Proof. apply list_eq. intros i. rewrite !list_lookup_imap. by destruct (l !! i). Qed.
Lemma bodyParams_list content params : params <> [] -> NoDup (ExtParamNames content) ->
  bodyParams content params = list_to_map (imap (fun i n => (n, value_of FormatG params i n)) (ExtParamNames content)).
Proof.
  intros Hp Hd. unfold bodyParams, ResolveParams. destruct params as [| kv params]; [done |]. rewrite imap_imap.
  rewrite (imap_ext _ (fun i n => (n, value_of FormatG (kv :: params) i n))) by (intros i x Hx; simpl; by rewrite Hx).
  rewrite insert_all; [apply (right_id_L ∅ (∪)) |]. by rewrite imap_keys, imap_same.
Qed.
Lemma bodyParams_at content params k n : params <> [] -> NoDup (ExtParamNames content) -> ExtParamNames content !! k = Some n ->
  bodyParams content params !! n = Some (value_of FormatG params k n).
Proof.
  intros Hp Hd Hk. rewrite bodyParams_list by done. apply elem_of_list_to_map; [by rewrite imap_keys, imap_same |].
  apply list_elem_of_lookup. exists k. rewrite list_lookup_imap, Hk. done.
Qed.
Lemma bodyParams_keys content params : params <> [] -> NoDup (ExtParamNames content) -> map fst (map_to_list (bodyParams content params)) ≡ₚ ExtParamNames content.
Proof.
  intros Hp Hd. rewrite bodyParams_list by done. rewrite <- (imap_same (ExtParamNames content)) at 2. rewrite <- (imap_keys (fun _ x => x) (value_of FormatG params)).
  apply (fmap_Permutation fst), map_to_list_to_map. by rewrite imap_keys, imap_same.
Qed.
(** ** The order of numbered parameters *)
Definition numbered (names : list string) : Prop := names = imap (fun i _ => itoa (Z.of_nat (S i))) names.
#[local] Instance numeric_total : Total numeric_le.
Proof. intros a b. unfold numeric_le. lia. Qed.
#[local] Instance numeric_trans : Transitive numeric_le.
Proof. intros a b c. unfold numeric_le. lia. Qed.
Definition key_value (k : string) : Z := default 0 (atoi k).
Lemma sorted_values l : StronglySorted numeric_le l -> StronglySorted Z.le (map key_value l).
Proof. induction 1 as [| x l Hs IH Hf]; [constructor |]. cbn [map]. constructor; [done |]. rewrite Forall_forall in Hf. apply Forall_forall. intros z Hz. apply list_elem_of_fmap in Hz as (y & -> & Hy). by apply Hf. Qed.
Lemma sorted_seq s n : StronglySorted Z.le (map Z.of_nat (seq s n)).
Proof. revert s. induction n as [| n IH]; intros s; [constructor |]. cbn [seq map]. constructor; [apply IH |]. apply Forall_forall. intros z Hz. apply list_elem_of_fmap in Hz as (y & -> & Hy). apply elem_of_seq in Hy. lia. Qed.
Lemma imap_seq_values (names : list string) : imap (fun i _ => Z.of_nat (S i)) names = map Z.of_nat (seq 1 (length names)).
Proof. apply list_eq. intros i. rewrite list_lookup_imap, list_lookup_fmap. destruct (decide (i < length names)%nat) as [Hi |]; [destruct (lookup_lt_is_Some_2 _ _ Hi) as [x ->]; rewrite lookup_seq_lt by lia; done | rewrite lookup_ge_None_2, lookup_seq_ge by lia; done]. Qed.
Lemma sort_numbered names keys : numbered names -> Z.of_nat (length names) <= max_int64 -> keys ≡ₚ names -> merge_sort numeric_le keys = names.
Proof.
  intros Hn Hlen Hp. set (s := merge_sort numeric_le keys). assert (Hs : s ≡ₚ names) by (unfold s; by rewrite merge_sort_Permutation).
  assert (Hat : forall x, x ∈ names -> exists i, atoi x = Some (Z.of_nat (S i)) /\ x = itoa (Z.of_nat (S i))).
  { intros x [i Hi]%list_elem_of_lookup. exists i. pose proof (lookup_lt_Some _ _ _ Hi). rewrite Hn, list_lookup_imap in Hi. destruct (names !! i); [| done]. simplify_eq/=. split; [| done].
    apply atoi_itoa. lia. }
  assert (Hv : forall x, x ∈ names -> itoa (key_value x) = x) by (intros x (i & Ha & ->)%Hat; unfold key_value; by rewrite Ha).
  assert (Hm : forall l, (forall x, x ∈ l -> x ∈ names) -> map itoa (map key_value l) = l).
  { intros l Hl. rewrite map_map. rewrite <- (map_id l) at 2. apply map_ext_in. intros x Hx%list_elem_of_In. by apply Hv, Hl. }
  rewrite <- (Hm s) by (intros x; by rewrite Hs). rewrite <- (Hm names) at 1 by done. f_equal. apply (StronglySorted_unique Z.le).
  - apply sorted_values. unfold s. apply StronglySorted_merge_sort; apply _.
  - assert (E : map key_value names = map Z.of_nat (seq 1 (length names))); [| rewrite E; apply sorted_seq]. rewrite <- imap_seq_values. rewrite (Hn : names = _) at 1.
    change (map key_value) with (fmap key_value : list string -> list Z). rewrite fmap_imap. apply imap_ext. intros i x Hi%lookup_lt_Some.
    simpl. unfold key_value. by rewrite atoi_itoa by lia.
  - by apply (fmap_Permutation key_value).
Qed.

Lemma find_param m keys n : n ∈ keys ->
  find (fun p => bool_decide (pa_Name p = Some n)) (map (fun k => MkParam (Some k) (default "" (m !! k))) keys) = Some (MkParam (Some n) (default "" ((m : gmap string string) !! n))).
Proof.
  induction keys as [| k keys IH]; [set_solver |]. intros H. cbn [map find pa_Name]. case_bool_decide as E; [by simplify_eq |]. apply IH. set_solver.
Qed.
Lemma find_no_param (keys : list string) (f : string -> string) n : find (fun p => bool_decide (pa_Name p = Some n)) (map (fun k => MkParam None (f k)) keys) = None.
Proof. induction keys as [| k keys IH]; [done |]. cbn [map find pa_Name]. by case_bool_decide. Qed.
Definition component_of (m : gmap string string) (keys : list string) (named : bool) : Component :=
  CBody (map (fun k => MkParam (if named then Some k else None) (default "" (m !! k))) (sortParamKeys keys named)).
Lemma components_of m n : n ∈ map fst (map_to_list m) -> BodyParamsToComponents m = [component_of m (map fst (map_to_list m)) (negb (forallb is_number (map fst (map_to_list m))))].
Proof. unfold BodyParamsToComponents. intros H. destruct (map fst (map_to_list m)) eqn:E; [set_solver | done]. Qed.
Lemma shown_named m keys n : n ∈ keys -> shown [component_of m keys true] n = default "" (m !! n).
Proof.
  intros H. unfold shown, body_of, component_of. cbn [map mjoin list_join]. rewrite app_nil_r. unfold sortParamKeys. cbn [orb]. rewrite find_param; [done |]. unfold sort_strings. by rewrite merge_sort_Permutation.
Qed.
Lemma shown_numbered m names keys k n : numbered names -> Z.of_nat (length names) <= max_int64 -> keys ≡ₚ names -> forallb is_number keys = true ->
  names !! k = Some n -> shown [component_of m keys false] n = default "" (m !! n).
Proof.
  intros Hn Hlen Hp Hnum Hk. unfold shown, body_of, component_of. cbn [map mjoin list_join]. rewrite app_nil_r. unfold sortParamKeys. rewrite Hnum. cbn [orb negb].
  rewrite (sort_numbered names) by done. rewrite find_no_param. pose proof (lookup_lt_Some _ _ _ Hk) as Hlt. pose proof Hk as Hk'. rewrite Hn, list_lookup_imap, Hk in Hk'. simplify_eq/=.
  rewrite atoi_itoa by lia. replace (Z.to_nat (Z.of_nat (S k) - 1)) with k by lia.
  change (map ?f names) with (f <$> names). rewrite list_lookup_fmap, Hk. done.
Qed.
End Sending.

(** * The stored text and the text the customer sees *)
(** Some variable has a name that is no number. *)
Definition named (names : list string) : Prop := exists n, n ∈ names /\ isPositionalParam n = false /\ is_number n = false.
Lemma itoa_positional n : 0 <= n <= max_int64 -> isPositionalParam (itoa n) = true.
Proof.
  intros Hn. unfold isPositionalParam. destruct (slot_open _ (slot_itoa n Hn)) as [_ Hne]. apply String.eqb_neq in Hne. rewrite Hne. cbn [negb]. rewrite andb_true_r.
  unfold itoa. destruct (n <? 0) eqn:E; [lia |]. apply digits_fuel_forallb; [by intros; apply is_digit_digit_char | done].
Qed.
Lemma named_free content n i : ValidateNoMixedParams content = true -> named (ExtParamNames content) -> n ∈ ExtParamNames content -> Z.of_nat (S i) <= max_int64 -> n <> itoa (Z.of_nat (S i)).
Proof.
  intros Hv (m & Hm & Hpos & _) Hn Hi ->. unfold ValidateNoMixedParams in Hv. apply negb_true_iff, andb_false_iff in Hv as [Hv | Hv].
  - apply not_true_iff_false in Hv. apply Hv, existsb_exists. exists (itoa (Z.of_nat (S i))). split; [by apply list_elem_of_In | apply itoa_positional; lia].
  - apply not_true_iff_false in Hv. apply Hv, existsb_exists. exists m. split; [by apply list_elem_of_In | by rewrite Hpos].
Qed.
Lemma numbered_at names k n : numbered names -> names !! k = Some n -> n = itoa (Z.of_nat (S k)).
Proof. intros Hn Hk. rewrite Hn, list_lookup_imap in Hk. destruct (names !! k); by simplify_eq/=. Qed.
Lemma numbers_all names : numbered names -> Z.of_nat (length names) <= max_int64 -> forall keys, keys ≡ₚ names -> forallb is_number keys = true.
Proof.
  intros Hn Hlen keys Hp. apply forallb_forall. intros x Hx%list_elem_of_In. rewrite Hp in Hx. apply list_elem_of_lookup in Hx as [i Hi]. pose proof (lookup_lt_Some _ _ _ Hi).
  apply numbered_at in Hi as ->; [| done]. unfold is_number. by rewrite atoi_itoa by lia.
Qed.
Lemma named_not_all names : named names -> forall keys, keys ≡ₚ names -> forallb is_number keys = false.
Proof. intros (n & Hn & _ & Hnum) keys Hp. apply not_true_iff_false. rewrite forallb_forall. intros H. rewrite <- Hp in Hn. apply list_elem_of_In, H in Hn. congruence. Qed.

Lemma assoc_in {A} k (v : A) m : assoc k m = Some v -> In (k, v) m.
Proof. induction m as [| [k' w] m IH]; [done |]. simpl. destruct (String.eqb _ _) eqn:E; [apply String.eqb_eq in E as ->; intros [= ->]; by left | intros H; right; by apply IH]. Qed.

Section Bubble.
Context (FormatG : spec_float -> string).
Lemma value_open params i n : (forall k v, In (k, v) params -> open_free (sprint_v FormatG v) = true) -> open_free (value_of FormatG params i n) = true.
Proof.
  intros H. unfold value_of, named_or_positional. destruct (assoc n params) as [v |] eqn:E1; [by eapply H, assoc_in |].
  destruct (assoc (itoa _) params) as [v |] eqn:E2; [by eapply H, assoc_in | done].
Qed.
(** What WhatsApp shows for the variable at [k]. *)
Lemma shown_at l params k n : let names := ExtParamNames (print l) in
  NoDup names -> params <> [] -> (numbered names \/ named names) -> Z.of_nat (length names) <= max_int64 -> names !! k = Some n ->
  shown (BodyParamsToComponents (bodyParams FormatG (print l) params)) n = value_of FormatG params k n.
Proof.
  intros names Hd Hp Hc Hlen Hk. pose proof (bodyParams_keys FormatG (print l) params Hp Hd) as Hkeys. pose proof (bodyParams_at FormatG (print l) params k n Hp Hd Hk) as Hm.
  assert (Hin : n ∈ map fst (map_to_list (bodyParams FormatG (print l) params))) by (rewrite Hkeys; by eapply list_elem_of_lookup_2). rewrite (components_of _ n) by done.
  destruct Hc as [Hc | Hc].
  - rewrite (numbers_all _ Hc Hlen _ Hkeys). cbn [negb]. rewrite (shown_numbered _ names _ k); [by rewrite Hm | done | done | done | by apply (numbers_all _ Hc Hlen) | done].
  - rewrite (named_not_all _ Hc _ Hkeys). cbn [negb]. rewrite shown_named by done. by rewrite Hm.
Qed.

(** C34: the message stored for a campaign's send is the message the recipient sees.  Where the
    worker sends the parameters it resolved and WhatsApp puts each where the body names it (by
    [parameter_name], or by its place among the numbered ones), the text
    [ReplaceWithJSONBParams] stores is that text, for a body whose opening braces are those of its
    variables, whose variables have no outer spaces, are not mixed and, when numbered, are numbered
    in order, and for at least one parameter, with no opening brace in any value. *)
Theorem bubble_shows_what_was_sent l params :
  forallb fragment_ok l = true -> trimmed (slots l) -> ValidateNoMixedParams (print l) = true ->
  numbered (ExtParamNames (print l)) \/ named (ExtParamNames (print l)) -> Z.of_nat (length (ExtParamNames (print l))) <= max_int64 ->
  params <> [] -> (forall k v, In (k, v) params -> open_free (sprint_v FormatG v) = true) ->
  ReplaceWithJSONBParams FormatG (print l) (print l) params = print (map (apply_values (shown (BodyParamsToComponents (bodyParams FormatG (print l) params)))) l).
Proof.
  intros Hl Ht Hv Hc Hlen Hp Hval. destruct (names_of_print l Hl Ht) as [Hd Hin]. assert (Hshown := fun k n => shown_at l params k n Hd Hp Hc Hlen).
  replace (ReplaceWithJSONBParams FormatG (print l) (print l) params) with (replace_params FormatG params 0 (ExtParamNames (print l)) (print l)) by (by destruct params).
  apply replace_params_apply; [done | by intros x; rewrite Hin | | exact Hshown | | done].
  - intros n Hn. split; [eapply slots_ok; [done | by apply Hin] |]. apply list_elem_of_lookup in Hn as [k Hk]. rewrite (Hshown k n Hk). by apply value_open.
  - intros k j Hj. pose proof (lookup_lt_Some _ _ _ Hj). destruct Hc as [Hc | Hc].
    + pose proof (numbered_at _ _ _ Hc Hj) as E. destruct (decide (S (0 + k) <= length (ExtParamNames (print l)))%nat); [apply itoa_inj in E; lia | lia].
    + destruct (decide (Z.of_nat (S (0 + k)) <= max_int64)); [| lia]. exfalso. eapply named_free; [done | done | eapply list_elem_of_lookup_2; exact Hj | | reflexivity]. done.
Qed.
End Bubble.

Definition no_floats (_ : spec_float) : string := "".
Definition order_body : list fragment := [Lit "Hi "; Slot "1"; Lit ", order "; Slot "2"; Lit " of "; Slot "1"].
Definition order_params : amap := [("2", AStr "#7"); ("1", AStr "Ana")].
Lemma bubble_shows_what_was_sent_witness :
  ReplaceWithJSONBParams no_floats (print order_body) (print order_body) order_params = "Hi Ana, order #7 of Ana" /\
  ReplaceWithJSONBParams no_floats (print order_body) (print order_body) order_params =
  print (map (apply_values (shown (BodyParamsToComponents (bodyParams no_floats (print order_body) order_params)))) order_body).
Proof.
  split; [vm_compute; reflexivity |]. apply (bubble_shows_what_was_sent no_floats order_body order_params); [reflexivity | | reflexivity | left; vm_compute; reflexivity | vm_compute; discriminate | discriminate |].
  - intros n Hn. repeat (apply elem_of_cons in Hn as [-> | Hn]; [vm_compute; reflexivity |]). by apply not_elem_of_nil in Hn.
  - intros k v [[= <- <-] | [[= <- <-] | []]]; vm_compute; reflexivity.
Defined.
(** Numbered out of order, the stored text is another. *)
Lemma disordered_numbers_differ :
  let l := [Slot "2"; Lit " "; Slot "1"] in let params := [("1", AStr "a"); ("2", AStr "b")] in
  ReplaceWithJSONBParams no_floats (print l) (print l) params = "b b" /\
  print (map (apply_values (shown (BodyParamsToComponents (bodyParams no_floats (print l) params)))) l) = "b a".
Proof. vm_compute. done. Qed.
(** A name written with spaces is resolved and sent, and its slot is never replaced. *)
Lemma spaced_name_not_replaced :
  ReplaceWithJSONBParams no_floats "Hi {{ name }}" "Hi {{ name }}" [("name", AStr "Ana")] = "Hi {{ name }}" /\
  shown (BodyParamsToComponents (bodyParams no_floats "Hi {{ name }}" [("name", AStr "Ana")])) "name" = "Ana".
Proof. vm_compute. done. Qed.
(** A value that looks like a later slot is replaced in turn. *)
Lemma value_replaced_again :
  ReplaceWithJSONBParams no_floats "{{1}} {{2}}" "{{1}} {{2}}" [("1", AStr "{{2}}"); ("2", AStr "b")] = "b b".
Proof. vm_compute. done. Qed.
