(* ===== verification/Template.v ===== *)
(** The chatbot's templates ([internal/handlers/template_engine.go]): for loops,
    conditionals and variables in outgoing texts, and the paths that read a value out of a
    nested one. The regular expressions are written as matchers: each has one way to match
    from a given place, because what follows a repetition is never in its class. *)
From S2P Require Import Prelude GoText GoAny.
From Stdlib Require Import Ascii SpecFloat.

(** [None] below: the function does not return a value, because it panicked or has not
    finished within its fuel. *)

(** ** Paths *)

(** [splitPath]: [cur] is what [current] holds, [inb] whether the inner loop is reading up
    to the closing bracket. *)
Fixpoint split_from (cur : string) (inb : bool) (path : string) : list string :=
  match path with
  | EmptyString => if String.eqb cur "" then [] else [cur]
  | String ch rest =>
      let cur' := cur +:+ String ch "" in
      if inb then split_from cur' (negb (Ascii.eqb ch "]")) rest
      else if Ascii.eqb ch "." then
        if String.eqb cur "" then split_from "" false rest else cur :: split_from "" false rest
      else if Ascii.eqb ch "[" then
        if String.eqb cur "" then split_from cur false rest else split_from cur' true rest
      else split_from cur' false rest
  end.
Definition splitPath (path : string) : list string := split_from "" false path.

(** [s[i:j]]: [None] is the panic of bounds out of order. *)
Definition str_slice (s : string) (i j : Z) : option string :=
  if (0 <=? i) && (i <=? j) && (j <=? str_len s) then Some (str_take (Z.to_nat (j - i)) (str_drop (Z.to_nat i) s))
  else None.

(** One part: [None] the panic, [Some None] the early [return nil]. *)
Definition path_step (current : any) (part : string) : option (option any) :=
  if any_nil current then Some None
  else
    match str_find "[" part with
    | Some idx =>
        indexStr ← str_slice part (Z.of_nat idx + 1) (str_len part - 1);
        Some (
          index ← atoi indexStr;
          let field := str_take idx part in
          current ← (if String.eqb field "" then Some current else map_get field <$> any_map current);
          arr ← any_arr current;
          if index <? 0 then None else arr !! Z.to_nat index)
    | None => Some (map_get part <$> any_map current)
    end.
Fixpoint path_steps (current : any) (parts : list string) : option any :=
  match parts with
  | [] => Some current
  | part :: rest =>
      r ← path_step current part;
      match r with Some v => path_steps v rest | None => Some ANil end
  end.

(** [data] is [None] for the nil map. *)
Definition getNestedValue (data : option amap) (path : string) : option any :=
  match data with
  | None => Some ANil
  | Some m => if String.eqb path "" then Some ANil else path_steps (AMap m) (splitPath path)
  end.

Definition extractResponseMapping (responseData : option amap) (mapping : list (string * string)) : option amap :=
  fold_left (fun acc e =>
    result ← acc; value ← getNestedValue responseData (snd e);
    Some (if any_nil value then result else map_set (fst e) value result)) mapping (Some []).

(** ** The patterns *)

(** The rest of [\w+(?:\.\w+)*] after its first byte. *)
Fixpoint path_rest (s : string) : nat :=
  match s with
  | EmptyString => O
  | String c s' =>
      if re_word c then S (path_rest s')
      else if Ascii.eqb c "." then
        match s' with String d _ => if re_word d then S (path_rest s') else O | EmptyString => O end
      else O
  end.
Definition match_path (s : string) : option (string * string) :=
  match s with
  | String c s' =>
      if re_word c then let n := S (path_rest s') in Some (str_take n s, str_drop n s) else None
  | EmptyString => None
  end.

(** [\s+] followed by a byte outside the class. *)
Definition spaces1 (s : string) : option string :=
  let '(ws, rest) := str_span re_space s in if String.eqb ws "" then None else Some rest.
Definition word1 (s : string) : option (string * string) :=
  let '(w, rest) := str_span re_word s in if String.eqb w "" then None else Some (w, rest).

(** A match of [forLoopPattern] here: its groups and what follows it. *)
Definition for_at (s : string) : option ((string * string * string) * string) :=
  s ← cut_prefix "{{for" s; s ← spaces1 s; '(itemVar, s) ← word1 s;
  s ← spaces1 s; s ← cut_prefix "in" s; s ← spaces1 s;
  '(arrayPath, s) ← match_path s; s ← cut_prefix "}}" s;
  '(loopBody, after) ← str_cut "{{endfor}}" s;
  Some ((itemVar, arrayPath, loopBody), after).

(** The last byte of a string, as a string. *)
Definition last_byte (s : string) : string := str_drop (String.length s - 1) s.

(** A match of [ifElsePattern]: with only white space before the braces, [\s+] gives its last
    byte to the condition, if it has another. *)
Definition if_at (s : string) : option ((string * string) * string) :=
  s ← cut_prefix "{{if" s;
  let '(ws, s) := str_span re_space s in
  let '(cond, s) := str_span (fun c => negb (Ascii.eqb c "}")) s in
  condition ← (if String.eqb ws "" then None
               else if String.eqb cond "" then if (2 <=? String.length ws)%nat then Some (last_byte ws) else None
               else Some cond);
  s ← cut_prefix "}}" s;
  '(body, after) ← str_cut "{{endif}}" s;
  Some ((condition, body), after).

(** The rest of the path of [variablePattern] after its first byte: inside a name, after an
    index, or inside the brackets. *)
Inductive var_state := VWord | VAfter | VIndex.
Definition index_ahead (s : string) : bool :=
  let '(ds, rest) := str_span is_digit s in negb (String.eqb ds "") && has_prefix "]" rest.
Fixpoint var_rest (st : var_state) (s : string) : nat :=
  match s with
  | EmptyString => O
  | String c s' =>
      let other :=
        if Ascii.eqb c "." then
          match s' with String d _ => if re_alpha d then S (var_rest VWord s') else O | EmptyString => O end
        else if Ascii.eqb c "[" then if index_ahead s' then S (var_rest VIndex s') else O
        else O in
      match st with
      | VWord => if re_word c then S (var_rest VWord s') else other
      | VAfter => other
      | VIndex => S (var_rest (if Ascii.eqb c "]" then VAfter else VIndex) s')
      end
  end.
(** A match of [variablePattern]: what is between the braces, white space included, and what
    follows. *)
Definition var_at (s : string) : option (string * string) :=
  s ← cut_prefix "{{" s;
  let '(ws1, s1) := str_span re_space s in
  match s1 with
  | String c s' =>
      if re_alpha c then
        let n := S (var_rest VWord s') in
        let '(ws2, s2) := str_span re_space (str_drop n s1) in
        after ← cut_prefix "}}" s2;
        Some (ws1 +:+ str_take n s1 +:+ ws2, after)
      else None
  | EmptyString => None
  end.

(** [conditionPattern]: path, operator, and the text compared with; a line break in the
    latter leaves no match. *)
Fixpoint first_prefix (ops : list string) (s : string) : string * string :=
  match ops with
  | [] => ("", s)
  | op :: ops' => match cut_prefix op s with Some rest => (op, rest) | None => first_prefix ops' s end
  end.
Definition cond_match (s : string) : option (string * string * string) :=
  '(varPath, s) ← match_path s;
  let s := snd (str_span re_space s) in
  let '(operator, s) := first_prefix ["=="; "!="; ">="; "<="; ">"; "<"] s in
  let s := snd (str_span re_space s) in
  if str_forallb (fun c => negb (Ascii.eqb c (ascii_of_N 10))) s then Some (varPath, operator, s) else None.

(** [FindStringSubmatchIndex]: the leftmost match, with the text before it. *)
Fixpoint re_find {A} (at_ : string -> option (A * string)) (s : string) : option (string * A * string) :=
  match at_ s with
  | Some (x, after) => Some ("", x, after)
  | None =>
      match s with
      | EmptyString => None
      | String c s' => '(before, x, after) ← re_find at_ s'; Some (String c before, x, after)
      end
  end.

(** ** Values

    [ParseFloat], [FormatFloat] ('f', shortest) and [Sprint] ([%v]) are [strconv]'s and
    [fmt]'s conversions between floats, or nested values, and text. *)
Section Rendering.
Context (ParseFloat : string -> option spec_float) (FormatFloat : spec_float -> string) (Sprint : any -> string).

(** [float64(int64(v)) == v]. *)
Definition integral (f : spec_float) : bool := SFeqb (f64_of_int (f64_to_int f)) f.

Definition isTruthy (value : any) : bool :=
  match value with
  | ANil => false
  | ABool b => b
  | AStr s => negb (String.eqb s "") && negb (String.eqb s "false") && negb (String.eqb s "0")
  | AInt n => negb (n =? 0)
  | AFloat f => negb (SFeqb f f64_zero)
  | AArr l => negb (bool_decide (l = []))
  | AMap m => (0 <? Z.of_nat (length m))
  end.

Definition compareEqual (value : any) (compareValue : string) : bool :=
  match value with
  | ANil => String.eqb compareValue "" || String.eqb compareValue "null" || String.eqb compareValue "nil"
  | AStr s => String.eqb s compareValue
  | ABool b => String.eqb (if b then "true" else "false") compareValue
  | AInt n => String.eqb (itoa n) compareValue
  | AFloat f => String.eqb (if integral f then itoa (f64_to_int f) else Sprint value) compareValue
  | AArr _ | AMap _ => String.eqb (Sprint value) compareValue
  end.

Definition compareNumeric (value : any) (compareValue : string) : Z :=
  let numValue :=
    match value with
    | AInt n => Some (f64_of_int n)
    | AFloat f => Some f
    | AStr s => ParseFloat s
    | _ => None
    end in
  match numValue with
  | None => 0
  | Some v =>
      match ParseFloat compareValue with
      | None => 0
      | Some c => if SFltb v c then -1 else if SFltb c v then 1 else 0
      end
  end.

Definition formatValue (value : any) : string :=
  match value with
  | ANil => ""
  | AStr s => s
  | AInt n => itoa n
  | AFloat f => if integral f then itoa (f64_to_int f) else FormatFloat f
  | ABool b => if b then "true" else "false"
  | AArr _ | AMap _ => Sprint value
  end.

(** The quotes around the value compared with. *)
Definition unquote (s : string) : string :=
  let quoted q := byte_is (str_index s 0) q && byte_is (str_index s (String.length s - 1)) q in
  if (2 <=? str_len s) && (quoted "'"%char || quoted (ascii_of_N 34)) then
    str_take (String.length s - 2) (str_drop 1 s)
  else s.

Definition evaluateCondition (condition : string) (data : amap) : option bool :=
  match cond_match (trim_space condition) with
  | None => Some false
  | Some (varPath, operator, rest) =>
      let compareValue := trim_space rest in
      value ← getNestedValue (Some data) varPath;
      if String.eqb operator "" then Some (isTruthy value)
      else
        let compareValue := unquote compareValue in
        Some (
          if String.eqb operator "==" then compareEqual value compareValue
          else if String.eqb operator "!=" then negb (compareEqual value compareValue)
          else if String.eqb operator ">" then 0 <? compareNumeric value compareValue
          else if String.eqb operator "<" then compareNumeric value compareValue <? 0
          else if String.eqb operator ">=" then 0 <=? compareNumeric value compareValue
          else compareNumeric value compareValue <=? 0)
  end.

(** ** The three passes *)

(** [variablePattern.ReplaceAllStringFunc]: [skip] bytes belong to the match just replaced. *)
Fixpoint vars_from (data : amap) (skip : nat) (s : string) : option string :=
  match s with
  | EmptyString => Some ""
  | String c s' =>
      match skip with
      | S skip' => vars_from data skip' s'
      | O =>
          match var_at s with
          | Some (path, after) =>
              value ← getNestedValue (Some data) path;
              rest ← vars_from data (String.length s' - String.length after) s';
              Some (formatValue value +:+ rest)
          | None => rest ← vars_from data O s'; Some (String c rest)
          end
      end
  end.
Definition processVariables (template : string) (data : amap) : option string := vars_from data O template.

(** [for { match := ...; if match == nil { break }; ... }]: [Some None] is the break. *)
Fixpoint loop_until_none (step : string -> option (option string)) (fuel : nat) (result : string) : option string :=
  match fuel with
  | O => None
  | S fuel' =>
      r ← step result;
      match r with None => Some result | Some result' => loop_until_none step fuel' result' end
  end.

(** One iteration of [processConditionals]. *)
Definition cond_step (data : amap) (result : string) : option (option string) :=
  match re_find if_at result with
  | None => Some None
  | Some (before, (condition, body), after) =>
      let '(ifPart, elsePart) := default (body, "") (str_cut "{{else}}" body) in
      holds ← evaluateCondition (trim_space condition) data;
      Some (Some (before +:+ (if holds : bool then ifPart else elsePart) +:+ after))
  end.
(** A replacement leaves a shorter text ([conditionals_return]), so its length is fuel enough. *)
Definition processConditionals (template : string) (data : amap) : option string :=
  loop_until_none (cond_step data) (S (String.length template)) template.

Definition maxLoopIterations : nat := 50.

(** The body for each of the first items. *)
Fixpoint for_items (data : amap) (itemVar loopBody : string) (i : Z) (items : list any) : option string :=
  match items with
  | [] => Some ""
  | item :: rest =>
      let loopData := map_set (itemVar +:+ "_index") (AInt i) (map_set itemVar item data) in
      processedBody ← processConditionals loopBody loopData;
      processedBody ← processVariables processedBody loopData;
      output ← for_items data itemVar loopBody (i + 1) rest;
      Some (processedBody +:+ output)
  end.

(** One iteration of [processForLoops]. *)
Definition for_step (data : amap) (result : string) : option (option string) :=
  match re_find for_at result with
  | None => Some None
  | Some (before, (itemVar, arrayPath, loopBody), after) =>
      arrayValue ← getNestedValue (Some data) arrayPath;
      output ← match arrayValue with
               | AArr arr => for_items data itemVar loopBody 0 (take maxLoopIterations arr)
               | _ => Some ""
               end;
      Some (Some (before +:+ output +:+ after))
  end.
Definition processForLoops (fuel : nat) (template : string) (data : amap) : option string :=
  loop_until_none (for_step data) fuel template.

Definition processTemplate (fuel : nat) (template : string) (data : option amap) : option string :=
  let data := default [] data in
  result ← processForLoops fuel template data;
  result ← processConditionals result data;
  processVariables result data.
End Rendering.

(** ** On concrete templates *)
Definition ex_f0 (s : string) : option spec_float := f64_of_int <$> atoi s.
Definition ex_tmpl := processTemplate ex_f0 (fun _ => "?") (fun _ => "?").
Definition ex_data : amap :=
  [("name", AStr "Ana"); ("n", AFloat (f64_of_int 7)); ("show", ABool true);
   ("items", AArr [AStr "a"; AStr "b"]);
   ("u", AMap [("tags", AArr [AMap [("id", AStr "x")]])])].
Example template_1 : map (fun t => ex_tmpl 5 t (Some ex_data))
  ["Hi {{name}}, {{n}} {{nope}}!"; "{{for i in items}}[{{i_index}}{{i}}]{{endfor}}";
   "{{if n >= 7}}yes{{else}}no{{endif}}/{{if name == 'Bia'}}B{{endif}}."; "{{u.tags[0].id}}";
   "{{if show}}{{for x in items}}{{if x == 'b'}}B{{endif}}{{endfor}}{{endif}}"; "{{ name }}|{{name }}|{{}}"] =
  [Some "Hi Ana, 7 !"; Some "[0a][1b]"; Some "yes/."; Some "x"; Some "B"; Some "||{{}}"].
Proof. vm_compute. reflexivity. Qed.
Example paths_1 : map splitPath ["user.profile.name"; "items[0].name"; "a..b"; "[1]"; "items["; "a[2"] =
  [["user"; "profile"; "name"]; ["items[0]"; "name"]; ["a"; "b"]; ["1]"]; ["items["]; ["a[2"]].
Proof. reflexivity. Qed.
Example mapping_1 : map (fun p => extractResponseMapping (Some ex_data) [("v", p)]) ["u.tags[0].id"; "x.y"; "items["; "."; "items[9]"] =
  [Some [("v", AStr "x")]; Some []; None; Some [("v", AMap ex_data)]; Some []].
Proof. vm_compute. reflexivity. Qed.

(** ** Replacements shorten the text *)

Lemma re_find_spec {A} (at_ : string -> option (A * string)) s before x after :
  re_find at_ s = Some (before, x, after) -> exists m, s = before +:+ m /\ at_ m = Some (x, after).
Proof.
  revert before. induction s as [| c s IH]; intros before; simpl; destruct (at_ _) as [[y a] |] eqn:E; try done.
  - intros [= <- -> ->]. by exists "".
  - intros [= <- -> ->]. by exists (String c s).
  - destruct (re_find at_ s) as [[[b y] a] |]; [| done]. simpl. intros [= <- -> ->].
    destruct (IH b eq_refl) as (m & -> & Hm). by exists m.
Qed.

Lemma cut_prefix_len p s t : cut_prefix p s = Some t -> str_len s = str_len p + str_len t.
Proof. intros ->%cut_prefix_some. apply str_len_app. Qed.
Lemma str_cut_len sep s a b : str_cut sep s = Some (a, b) -> str_len s = str_len a + str_len sep + str_len b.
Proof. intros ->%str_cut_some. rewrite !str_len_app. lia. Qed.
Lemma str_span_len f s a b : str_span f s = (a, b) -> str_len s = str_len a + str_len b.
Proof. intros E. rewrite <- (str_span_app f s), E. simpl. apply str_len_app. Qed.

Lemma if_at_len s cond body after :
  if_at s = Some ((cond, body), after) -> str_len body + str_len after < str_len s.
Proof.
  unfold if_at. intros (s1 & E1%cut_prefix_len & H)%bind_Some.
  destruct (str_span re_space s1) as [ws s2] eqn:Ew. apply str_span_len in Ew.
  destruct (str_span _ s2) as [co s3] eqn:Ec. apply str_span_len in Ec.
  apply bind_Some in H as (c' & _ & H). apply bind_Some in H as (s4 & E4%cut_prefix_len & H).
  apply bind_Some in H as ([b a] & E5%str_cut_len & H). injection H as _ <- <-.
  unfold str_len in *. simpl in *. lia.
Qed.

(** ** Paths that cannot panic *)
Fixpoint ends_in (c : ascii) (s : string) : bool :=
  match s with
  | EmptyString => false
  | String a s' => match s' with EmptyString => Ascii.eqb a c | _ => ends_in c s' end
  end.
Abbreviation open_end s := (ends_in "["%char s).

Lemma ends_in_app c s t : ends_in c (s +:+ t) = if String.eqb t "" then ends_in c s else ends_in c t.
Proof.
  destruct (String.eqb_spec t "") as [-> | Ht]; [by rewrite str_app_nil_r |].
  induction s as [| a s IH]; [done |]. rewrite str_app_cons. simpl. rewrite IH.
  destruct (s +:+ t) eqn:E; [| done]. by destruct s, t.
Qed.

Lemma ends_in_cons c a s : ends_in c (String a s) = if String.eqb s "" then Ascii.eqb a c else ends_in c s.
Proof. by destruct s. Qed.

Lemma split_from_closed path cur inb :
  (inb = false \/ path = "" -> open_end cur = false) -> open_end path = false ->
  Forall (fun p => open_end p = false) (split_from cur inb path).
Proof.
  revert cur inb. induction path as [| c path IH]; intros cur inb Hcur Hp; simpl.
  { destruct (String.eqb cur ""); [constructor |]. constructor; [by apply Hcur; right | constructor]. }
  assert (Hp' : open_end path = false).
  { rewrite ends_in_cons in Hp. destruct (String.eqb_spec path "") as [-> |]; done. }
  assert (Hc : path = "" -> Ascii.eqb c "[" = false).
  { intros ->. exact Hp. }
  assert (Happ : open_end (cur +:+ String c "") = Ascii.eqb c "[") by (by rewrite ends_in_app).
  destruct inb.
  { apply IH; [| done]. rewrite Happ. intros [H | ->]; [| by apply Hc].
    apply negb_false_iff, Ascii.eqb_eq in H as ->. done. }
  destruct (Ascii.eqb c ".") eqn:Ed.
  { destruct (String.eqb cur ""); [by apply IH |]. constructor; [apply Hcur; by left | by apply IH]. }
  destruct (Ascii.eqb c "[") eqn:Eo.
  { destruct (String.eqb_spec cur "") as [-> |]; apply IH; try done; intros [H | H]; try done.
    by rewrite (Hc H) in *. }
  apply IH; [| done]. by rewrite Happ.
Qed.

Lemma path_step_closed current part : open_end part = false -> is_Some (path_step current part).
Proof.
  intros Hp. unfold path_step. destruct (any_nil current); [done |].
  destruct (str_find "[" part) as [idx |] eqn:E; [| done]. apply str_find_spec in E.
  unfold str_slice. rewrite (proj2 (andb_true_iff _ _)); [done |].
  assert (Hl : Z.of_nat idx + 2 <= str_len part).
  { destruct (str_drop (idx + String.length "[") part) eqn:Ed.
    - rewrite E, ends_in_app in Hp. rewrite str_app_nil_r in Hp. simpl in Hp. done.
    - apply (f_equal str_len) in Ed. rewrite str_len_drop in Ed. unfold str_len in *. simpl in *. lia. }
  split; [apply andb_true_iff; split |]; apply Z.leb_le; lia.
Qed.

Lemma getNestedValue_closed data path : open_end path = false -> is_Some (getNestedValue data path).
Proof.
  intros Hp. unfold getNestedValue. destruct data as [m |]; [| done]. destruct (String.eqb path ""); [done |].
  unfold splitPath. pose proof (split_from_closed path "" false ltac:(done) Hp) as HF.
  generalize (AMap m) as cur. induction HF as [| part parts H1 _ IH]; intros cur; simpl; [done |].
  destruct (path_step_closed cur part H1) as [[v |] ->]; simpl; [apply IH | done].
Qed.

Lemma ends_in_forallb (f : ascii -> bool) c s : f c = false -> str_forallb f s = true -> ends_in c s = false.
Proof.
  intros Hc. induction s as [| a s IH]; [done |]. rewrite ends_in_cons. simpl. intros H. bool_hyps.
  destruct (String.eqb s ""); [| by apply IH]. apply Ascii.eqb_neq. by intros ->; congruence.
Qed.

(** The bytes of a dotted path. *)
Definition path_byte (c : ascii) : bool := re_word c || Ascii.eqb c ".".
Lemma path_rest_bytes s : str_forallb path_byte (str_take (path_rest s) s) = true.
Proof.
  induction s as [| c s IH]; [done |]. simpl.
  destruct (re_word c) eqn:E; [simpl; unfold path_byte at 1; by rewrite E |].
  destruct (Ascii.eqb c ".") eqn:Ed; [| done]. destruct s as [| d s']; [done |].
  destruct (re_word d); [| done]. change (str_take (S ?n) (String c ?x)) with (String c (str_take n x)).
  cbn [str_forallb]. unfold path_byte at 1. by rewrite Ed, orb_true_r, IH.
Qed.
Lemma match_path_closed s p r : match_path s = Some (p, r) -> open_end p = false.
Proof.
  destruct s as [| c s]; [done |]. unfold match_path. destruct (re_word c) eqn:E; [| done]. intros [= <- _].
  apply (ends_in_forallb path_byte); [done |]. simpl. unfold path_byte at 1. rewrite E. apply path_rest_bytes.
Qed.

(** What [variablePattern] takes never ends inside brackets. *)
Definition closing (s : string) : bool := has_prefix "]" (snd (str_span is_digit s)).

Lemma closing_cons c s :
  closing (String c s) = true -> Ascii.eqb c "]" = true \/ (is_digit c = true /\ closing s = true).
Proof.
  unfold closing. simpl. destruct (is_digit c) eqn:E.
  - destruct (str_span is_digit s) as [a b]. auto.
  - simpl. intros H. bool_hyps. left. by rewrite Ascii.eqb_sym.
Qed.

Lemma var_rest_closed st s :
  (st = VIndex -> closing s = true) ->
  open_end (str_take (var_rest st s) s) = false /\ (st = VIndex -> str_take (var_rest st s) s <> "").
Proof.
  revert st. induction s as [| c s IH]; intros st Hst; simpl; [split; [done |]; intros H; by specialize (Hst H) |].
  pose proof (proj1 (IH VWord ltac:(done))) as Hw.
  assert (Htake : forall n, str_take (S n) (String c s) = String c (str_take n s)) by done.
  set (other := if Ascii.eqb c "." then _ else _).
  assert (Ho : open_end (str_take other (String c s)) = false).
  { unfold other. destruct (Ascii.eqb_spec c ".") as [-> |].
    - destruct s as [| d s']; [done |]. destruct (re_alpha d); [| done].
      rewrite Htake, ends_in_cons. by destruct (String.eqb _ "").
    - destruct (Ascii.eqb_spec c "[") as [-> |]; [| done].
      destruct (index_ahead s) eqn:Ei; [| done]. unfold index_ahead in Ei.
      assert (Hc : closing s = true).
      { unfold closing. destruct (str_span is_digit s) as [ds rest]. by bool_hyps. }
      destruct (IH VIndex ltac:(done)) as [H1 H2]. specialize (H2 eq_refl).
      rewrite Htake, ends_in_cons. by rewrite (proj2 (String.eqb_neq _ _) H2). }
  destruct st.
  - split; [| done]. destruct (re_word c) eqn:E; [| done]. rewrite Htake, ends_in_cons.
    destruct (String.eqb _ ""); [| done]. apply Ascii.eqb_neq. by intros ->.
  - done.
  - split; [| by rewrite Htake]. rewrite Htake, ends_in_cons.
    destruct (closing_cons c s (Hst eq_refl)) as [Hc | [Hd Hc]].
    + rewrite Hc. pose proof (proj1 (IH VAfter ltac:(done))) as Ha.
      destruct (String.eqb _ ""); [| done]. apply Ascii.eqb_eq in Hc as ->. done.
    + assert (Hne : Ascii.eqb c "]" = false) by (apply Ascii.eqb_neq; by intros ->).
      rewrite Hne. destruct (IH VIndex ltac:(done)) as [H1 H2].
      by rewrite (proj2 (String.eqb_neq _ _) (H2 eq_refl)).
Qed.

Lemma var_at_closed s path after : var_at s = Some (path, after) -> open_end path = false.
Proof.
  unfold var_at. intros (s0 & _ & H)%bind_Some.
  destruct (str_span re_space s0) as [ws1 s1] eqn:E1. destruct s1 as [| c s']; [done |].
  destruct (re_alpha c) eqn:Ea; [| done].
  destruct (str_span re_space (str_drop _ (String c s'))) as [ws2 s2] eqn:E2.
  apply bind_Some in H as (a & _ & [= <- _]).
  assert (Hws : open_end ws2 = false).
  { apply (ends_in_forallb re_space); [done |]. pose proof (str_span_all re_space (str_drop (S (var_rest VWord s')) (String c s'))) as H.
    by rewrite E2 in H. }
  rewrite ends_in_app. change (str_take (S ?n) (String c ?x)) with (String c (str_take n x)).
  simpl (String.eqb _ ""). cbn iota. rewrite str_app_cons, ends_in_cons, ends_in_app, Hws.
  destruct (var_rest_closed VWord s' ltac:(done)) as [-> _].
  destruct (String.eqb _ ""); [| by destruct (String.eqb ws2 "")].
  apply Ascii.eqb_neq. by intros ->.
Qed.

(** ** Tags

    What a template is made of when each of its braces belongs to a tag, [{{...}}] with no brace
    inside: [tags] reads it byte by byte and gives the insides, in order. *)
Inductive mode := Outside | Opening | Inside (x : string) | Closing (x : string).
Definition mode_step (q : mode) (c : ascii) : option (mode * list string) :=
  match q with
  | Outside => if Ascii.eqb c "{" then Some (Opening, []) else if Ascii.eqb c "}" then None else Some (Outside, [])
  | Opening => if Ascii.eqb c "{" then Some (Inside "", []) else None
  | Inside x => if Ascii.eqb c "{" then None else if Ascii.eqb c "}" then Some (Closing x, []) else Some (Inside (x +:+ String c ""), [])
  | Closing x => if Ascii.eqb c "}" then Some (Outside, [x]) else None
  end.
Fixpoint scan (q : mode) (s : string) : option (mode * list string) :=
  match s with
  | EmptyString => Some (q, [])
  | String c s' => '(q1, t1) ← mode_step q c; '(q2, t2) ← scan q1 s'; Some (q2, t1 ++ t2)
  end.
Definition tags (s : string) : option (list string) := match scan Outside s with Some (Outside, ts) => Some ts | _ => None end.
(** The loops of a template end in as many tags. *)
Definition loop_ends (ts : list string) : nat := length (List.filter (String.eqb "endfor") ts).
Definition loops (template : string) : nat := loop_ends (default [] (tags template)).
Definition tidy (template : string) : bool := match tags template with Some _ => true | None => false end.

Lemma tags_scan s ts : tags s = Some ts <-> scan Outside s = Some (Outside, ts).
Proof. unfold tags. destruct (scan Outside s) as [[[] ?] |]; naive_solver. Qed.
Lemma scan_app q a b : scan q (a +:+ b) = '(q1, t1) ← scan q a; '(q2, t2) ← scan q1 b; Some (q2, t1 ++ t2).
Proof.
  revert q. induction a as [| c a IH]; intros q; [rewrite str_app_nil_l; simpl; by destruct (scan q b) as [[??] |] |].
  rewrite str_app_cons. simpl. destruct (mode_step q c) as [[q1 t1] |]; [| done]. simpl. rewrite IH.
  destruct (scan q1 a) as [[q2 t2] |]; [| done]. simpl. destruct (scan q2 b) as [[q3 t3] |]; [| done]. simpl. by rewrite app_assoc.
Qed.
Lemma tags_app a b t1 t2 : tags a = Some t1 -> tags b = Some t2 -> tags (a +:+ b) = Some (t1 ++ t2).
Proof. rewrite !tags_scan, scan_app. intros -> H. simpl. by rewrite H. Qed.
Lemma scan_split q a b q2 ts : scan q (a +:+ b) = Some (q2, ts) ->
  exists q1 t1 t2, scan q a = Some (q1, t1) /\ scan q1 b = Some (q2, t2) /\ ts = t1 ++ t2.
Proof.
  rewrite scan_app. intros ([q1 t1] & E1 & H)%bind_Some. apply bind_Some in H as ([q3 t2] & E2 & [= -> <-]). by exists q1, t1, t2.
Qed.
(** Opening and closing braces fall between tags. *)
Lemma tags_open a b ts : tags (a +:+ "{{" +:+ b) = Some ts ->
  exists t1 t2, tags a = Some t1 /\ tags ("{{" +:+ b) = Some t2 /\ ts = t1 ++ t2.
Proof.
  intros H%tags_scan. apply scan_split in H as (q & t1 & t2 & Ha & Hb & ->). exists t1, t2. rewrite !tags_scan.
  destruct q; [done | by apply scan_split in Hb as (? & ? & ? & Hc & _)..].
Qed.
Lemma tags_close a b ts : tags (a +:+ "}}" +:+ b) = Some ts ->
  exists t1 t2, tags (a +:+ "}}") = Some t1 /\ tags b = Some t2 /\ ts = t1 ++ t2.
Proof.
  rewrite str_app_assoc. intros H%tags_scan. apply scan_split in H as (q & t1 & t2 & Ha & Hb & ->). exists t1, t2. rewrite !tags_scan.
  assert (q = Outside) as ->; [| done]. apply scan_split in Ha as (q0 & ? & ? & _ & Hc & _). destruct q0; try done; by injection Hc.
Qed.
(** A block: a tag, a body, and the tag [{{x}}] that ends it. *)
Lemma tags_block before z body x after ts :
  tags (before +:+ ("{{" +:+ z +:+ "}}") +:+ body +:+ ("{{" +:+ x +:+ "}}") +:+ after) = Some ts ->
  exists t1 tz t2 tx t3, tags before = Some t1 /\ tags body = Some t2 /\ tags ("{{" +:+ x +:+ "}}") = Some tx /\ tags after = Some t3 /\
    ts = t1 ++ tz ++ t2 ++ tx ++ t3.
Proof.
  rewrite <- !str_app_assoc. intros (t1 & u1 & H1 & H & ->)%tags_open.
  rewrite str_app_assoc in H. apply tags_close in H as (tz & u2 & _ & H & ->).
  apply tags_open in H as (t2 & u3 & H2 & H & ->). rewrite str_app_assoc in H. apply tags_close in H as (tx & t3 & Hx & H3 & ->).
  exists t1, tz, t2, tx, t3. rewrite <- str_app_assoc in Hx. done.
Qed.
(** A tag that is read is there. *)
Definition pending (q : mode) : string :=
  match q with Outside => "" | Opening => "{" | Inside x => "{{" +:+ x | Closing x => "{{" +:+ x +:+ "}" end.
Lemma tag_there q s q' ts x : scan q s = Some (q', ts) -> x ∈ ts -> str_contains ("{{" +:+ x +:+ "}}") (pending q +:+ s) = true.
Proof.
  revert q ts. induction s as [| c s IH]; intros q ts; simpl scan; [intros [= _ <-] []%not_elem_of_nil |].
  destruct (mode_step q c) as [[q1 t1] |] eqn:Es; [| done]. simpl. destruct (scan q1 s) as [[q2 t2] |] eqn:E; [| done]. simpl.
  intros [= -> <-] [Hx | Hx]%elem_of_app.
  - destruct q; simpl in Es; repeat case_match; try done; injection Es as <- <-; try (by apply not_elem_of_nil in Hx).
    apply list_elem_of_singleton in Hx as ->. match goal with H : Ascii.eqb c _ = true |- _ => apply Ascii.eqb_eq in H as -> end.
    cbn [pending]. match goal with |- str_contains _ (("{{" +:+ ?x +:+ "}") +:+ _) = _ =>
      replace (("{{" +:+ x +:+ "}") +:+ String "}" s) with ("" +:+ ("{{" +:+ x +:+ "}}") +:+ s) by (by rewrite <- !str_app_assoc) end.
    apply str_contains_mid.
  - specialize (IH _ _ E Hx). destruct q; simpl in Es; repeat case_match; try done; injection Es as <- <-;
      try match goal with H : Ascii.eqb c _ = true |- _ => apply Ascii.eqb_eq in H as -> end; cbn [pending] in *.
    + exact IH.
    + rewrite str_app_nil_l in *. by apply (str_contains_app_r _ (String c "")).
    + exact IH.
    + by rewrite <- !str_app_assoc in *.
    + by rewrite <- !str_app_assoc in *.
    + rewrite str_app_nil_l in IH. apply str_contains_app_r. by apply (str_contains_app_r _ "}").
Qed.
Lemma tag_in s ts x : tags s = Some ts -> x ∈ ts -> str_contains ("{{" +:+ x +:+ "}}") s = true.
Proof. intros H%tags_scan Hx. by apply (tag_there _ _ _ _ _ H). Qed.

(** ** Conditionals and variables always return *)
Section Returns.
Context (ParseFloat : string -> option spec_float) (FormatFloat : spec_float -> string) (Sprint : any -> string).
Abbreviation evaluateCondition := (evaluateCondition ParseFloat Sprint).
Abbreviation processVariables := (processVariables FormatFloat Sprint).
Abbreviation cond_step := (cond_step ParseFloat Sprint).
Abbreviation processConditionals := (processConditionals ParseFloat Sprint).
Abbreviation processTemplate := (processTemplate ParseFloat FormatFloat Sprint).

Lemma evaluateCondition_returns condition data : is_Some (evaluateCondition condition data).
Proof.
  unfold Template.evaluateCondition. destruct (cond_match _) as [[[p op] rest] |] eqn:E; [| done].
  assert (Hp : open_end p = false).
  { unfold cond_match in E. apply bind_Some in E as ([q r] & E1%match_path_closed & E).
    destruct (first_prefix _ _) as [o s]. destruct (str_forallb _ _); [| done]. by injection E as <- _ _. }
  destruct (getNestedValue_closed (Some data) p Hp) as [v ->]. simpl. by destruct (String.eqb op "").
Qed.

Lemma processVariables_returns template data : is_Some (processVariables template data).
Proof.
  unfold Template.processVariables. generalize O as skip. induction template as [| c s IH]; intros skip; [done |].
  cbn [vars_from]. destruct skip as [| skip]; [| apply IH].
  destruct (var_at _) as [[path after] |] eqn:E.
  - apply var_at_closed in E. destruct (getNestedValue_closed (Some data) path E) as [v ->]. simpl.
    by destruct (IH (String.length s - String.length after)%nat) as [r ->].
  - by destruct (IH O) as [r ->].
Qed.

Lemma cond_step_shorter data result :
  exists r, cond_step data result = Some r /\ forall result', r = Some result' -> str_len result' < str_len result.
Proof.
  unfold Template.cond_step. destruct (re_find if_at result) as [[[before [cond body]] after] |] eqn:E;
    [| by exists None].
  destruct (default (body, "") (str_cut "{{else}}" body)) as [ifPart elsePart] eqn:Ee.
  destruct (evaluateCondition_returns (trim_space cond) data) as [b ->]. simpl. eexists. split; [done |].
  intros result' [= <-]. apply re_find_spec in E as (m & -> & Hm%if_at_len).
  assert (str_len ifPart <= str_len body /\ str_len elsePart <= str_len body) as [? ?].
  { destruct (str_cut "{{else}}" body) as [[x y] |] eqn:Ec; simpl in Ee; injection Ee as <- <-.
    - apply str_cut_len in Ec. pose proof (str_len_nonneg x). pose proof (str_len_nonneg y). unfold str_len in *. simpl in *. lia.
    - pose proof (str_len_nonneg body). unfold str_len in *. simpl. lia. }
  rewrite !str_len_app. destruct b; lia.
Qed.

(** A loop each of whose iterations leaves a shorter text returns. *)
Lemma loop_until_none_returns (step : string -> option (option string)) fuel s :
  (forall t, exists r, step t = Some r /\ forall t', r = Some t' -> str_len t' < str_len t) ->
  str_len s < Z.of_nat fuel ->
  exists out, loop_until_none step fuel s = Some out /\ step out = Some None /\ str_len out <= str_len s.
Proof.
  intros Hstep. revert s. induction fuel as [| fuel IH]; intros s Hf; simpl.
  { pose proof (str_len_nonneg s). lia. }
  destruct (Hstep s) as (r & E & Hr). rewrite E. simpl. destruct r as [t |].
  - specialize (Hr t eq_refl). destruct (IH t ltac:(lia)) as (out & ? & ? & ?). exists out. split_and!; [done.. | lia].
  - exists s. split_and!; [done.. | lia].
Qed.

Lemma conditionals_return template data :
  exists out, processConditionals template data = Some out /\ re_find if_at out = None /\ str_len out <= str_len template.
Proof.
  destruct (loop_until_none_returns (cond_step data) (S (String.length template)) template) as (out & E1 & E2 & E3).
  { intros t. apply cond_step_shorter. }
  { unfold str_len. lia. }
  exists out. split_and!; [done | | done]. unfold Template.cond_step in E2.
  destruct (re_find if_at out) as [[[b [c y]] a] |]; [| done].
  destruct (default _ _). destruct (Template.evaluateCondition _ _ _ _); simpl in E2; done.
Qed.

(** Every step of a match leaves the end of the text. *)
Definition is_suffix (t s : string) : Prop := exists a, s = a +:+ t.
#[local] Instance is_suffix_preorder : PreOrder is_suffix.
Proof.
  split; [by exists "" |]. intros x y z [a ->] [b ->]. exists (b +:+ a). apply str_app_assoc.
Qed.
Lemma cut_prefix_suffix p s t : cut_prefix p s = Some t -> is_suffix t s.
Proof. intros ->%cut_prefix_some. by exists p. Qed.
Lemma spaces1_suffix s t : spaces1 s = Some t -> is_suffix t s.
Proof.
  unfold spaces1. pose proof (str_span_app re_space s) as H. destruct (str_span re_space s) as [ws r].
  destruct (String.eqb ws ""); [done |]. intros [= <-]. by exists ws.
Qed.
Lemma word1_suffix s w t : word1 s = Some (w, t) -> is_suffix t s.
Proof.
  unfold word1. pose proof (str_span_app re_word s) as H. destruct (str_span re_word s) as [ws r].
  destruct (String.eqb ws ""); [done |]. intros [= _ <-]. by exists ws.
Qed.
Lemma match_path_suffix s p t : match_path s = Some (p, t) -> is_suffix t s.
Proof.
  destruct s as [| c s]; [done |]. unfold match_path. destruct (re_word c); [| done]. intros [= _ <-].
  exists (str_take (S (path_rest s)) (String c s)). symmetry. apply (str_take_drop (S (path_rest s)) (String c s)).
Qed.
Lemma for_at_contains s x after : for_at s = Some (x, after) -> str_contains "{{endfor}}" s = true.
Proof.
  unfold for_at. intros (s1 & H1%cut_prefix_suffix & H)%bind_Some.
  apply bind_Some in H as (s2 & H2%spaces1_suffix & H). apply bind_Some in H as ([i s3] & H3%word1_suffix & H).
  apply bind_Some in H as (s4 & H4%spaces1_suffix & H). apply bind_Some in H as (s5 & H5%cut_prefix_suffix & H).
  apply bind_Some in H as (s6 & H6%spaces1_suffix & H). apply bind_Some in H as ([p s7] & H7%match_path_suffix & H).
  apply bind_Some in H as (s8 & H8%cut_prefix_suffix & H). apply bind_Some in H as ([b a] & H9%str_cut_some & _).
  assert (Hs : is_suffix s8 s) by (do 7 (etransitivity; [eassumption |]); assumption).
  destruct Hs as [pre ->]. rewrite H9. apply str_contains_app_r, str_contains_mid.
Qed.

Lemma for_step_done template data :
  str_contains "{{endfor}}" template = false ->
  for_step ParseFloat FormatFloat Sprint data template = Some None.
Proof.
  intros Hfor. unfold for_step. destruct (re_find for_at template) as [[[before x] after] |] eqn:E; [| done].
  apply re_find_spec in E as (m & -> & Hm%for_at_contains).
  by rewrite str_contains_app_r in Hfor.
Qed.

(** On a template without the end of a loop the engine returns, whatever its braces and
    whatever the session holds. *)
Lemma loopless_returns template data :
  str_contains "{{endfor}}" template = false ->
  exists expanded out,
    processConditionals template (default [] data) = Some expanded /\
    re_find if_at expanded = None /\ str_len expanded <= str_len template /\
    processTemplate 1 template data = Some out.
Proof.
  intros Hfor. destruct (conditionals_return template (default [] data)) as (expanded & E1 & E2 & E3).
  destruct (processVariables_returns expanded (default [] data)) as [out E4].
  exists expanded, out. split_and!; try done.
  unfold Template.processTemplate, processForLoops. simpl. rewrite for_step_done by done. simpl. by rewrite E1.
Qed.

(** ** What a loop writes is read again *)
Definition self_loop : string := "{{for x in items}}{{x}}{{endfor}}".

Lemma self_loop_step data :
  map_get "items" data = AArr [AStr self_loop] ->
  for_step ParseFloat FormatFloat Sprint data self_loop = Some (Some self_loop).
Proof.
  intros Hd. unfold for_step.
  change (re_find for_at self_loop) with (Some ("", ("x", "items", "{{x}}"), "")). cbv beta iota.
  assert (Hg : forall k m, splitPath k = [k] -> str_find "[" k = None -> String.eqb k "" = false ->
                 getNestedValue (Some m) k = Some (map_get k m)).
  { intros k m H1 H2 H3. unfold getNestedValue. rewrite H3, H1. simpl. unfold path_step. by rewrite H2. }
  rewrite Hg by done. rewrite Hd. cbn [mbind option_bind take maxLoopIterations for_items].
  set (loopData := map_set _ _ _).
  assert (Hx : map_get "x" loopData = AStr self_loop).
  { unfold loopData. rewrite map_get_set_ne by done. apply map_get_set. }
  change (Template.processConditionals ParseFloat Sprint "{{x}}" loopData) with (Some "{{x}}").
  cbn [mbind option_bind]. unfold Template.processVariables. cbn [vars_from].
  change (var_at "{{x}}") with (Some ("x", "")). cbv beta iota. rewrite Hg by done. rewrite Hx. done.
Qed.

(** A list element that contains the loop it is shown in makes the engine run forever:
    the text a loop writes is searched for loops again. *)
Theorem loop_feeds_itself fuel data :
  map_get "items" data = AArr [AStr self_loop] -> processTemplate fuel self_loop (Some data) = None.
Proof.
  intros Hd. unfold Template.processTemplate, processForLoops.
  assert (H : loop_until_none (for_step ParseFloat FormatFloat Sprint data) fuel self_loop = None).
  { induction fuel as [| fuel IH]; simpl; [done |]. by rewrite self_loop_step. }
  simpl. by rewrite H.
Qed.
(** ** What a text with variables becomes *)
Inductive piece := Text (s : string) | Var (path : string).
Definition print_piece (p : piece) : string :=
  match p with Text s => s | Var path => "{{" +:+ path +:+ "}}" end.
Definition plain (s : string) : bool := str_forallb (fun c => negb (Ascii.eqb c "{")) s.
Definition var_name (path : string) : bool :=
  match path with
  | String c s => re_alpha c && (var_rest VWord s =? String.length s)%nat
  | EmptyString => false
  end.
Definition piece_ok (p : piece) : bool := match p with Text s => plain s | Var path => var_name path end.
Definition render_piece (data : amap) (p : piece) : option string :=
  match p with Text s => Some s | Var path => formatValue FormatFloat Sprint <$> getNestedValue (Some data) path end.

Lemma closing_app p t : closing p = true -> closing (p +:+ t) = true.
Proof.
  induction p as [| c p IH]; [done |]. intros H. rewrite str_app_cons. unfold closing in *. simpl in *.
  destruct (is_digit c); [| exact H]. destruct (str_span is_digit p), (str_span is_digit (p +:+ t)). by apply IH.
Qed.
Lemma index_ahead_app p t : index_ahead p = true -> index_ahead (p +:+ t) = true.
Proof.
  unfold index_ahead. destruct p as [| c p]; [done |]. rewrite str_app_cons. simpl.
  pose proof (closing_app p t) as Hc. unfold closing in Hc.
  destruct (is_digit c); [| done]. destruct (str_span is_digit p), (str_span is_digit (p +:+ t)). simpl in *. exact Hc.
Qed.
Lemma index_ahead_closing s : index_ahead s = true -> closing s = true.
Proof. unfold index_ahead, closing. destruct (str_span is_digit s). intros H. by bool_hyps. Qed.

Lemma var_rest_app st p t :
  (st = VIndex -> closing p = true) -> var_rest st p = String.length p ->
  var_rest st (p +:+ "}}" +:+ t) = String.length p.
Proof.
  revert st. induction p as [| c p IH]; intros st Hst H; [destruct st; try done; by specialize (Hst eq_refl) |].
  rewrite str_app_cons. cbn [var_rest String.length] in H |- *.
  set (q := p +:+ "}}" +:+ t) in *.
  assert (Hother : forall n, (if Ascii.eqb c "." then
                  match p with String d _ => if re_alpha d then S (var_rest VWord p) else O | EmptyString => O end
                else if Ascii.eqb c "[" then if index_ahead p then S (var_rest VIndex p) else O else O) = S n -> n = String.length p ->
      (if Ascii.eqb c "." then
                  match q with String d _ => if re_alpha d then S (var_rest VWord q) else O | EmptyString => O end
                else if Ascii.eqb c "[" then if index_ahead q then S (var_rest VIndex q) else O else O) = S n).
  { intros n Hn ->. destruct (Ascii.eqb c ".").
    - destruct p as [| d p']; [done |]. unfold q. rewrite str_app_cons. destruct (re_alpha d); [| done].
      f_equal. apply (IH VWord); [done | by injection Hn].
    - destruct (Ascii.eqb c "["); [| done]. destruct (index_ahead p) eqn:Ei; [| done].
      unfold q. rewrite index_ahead_app by done. f_equal. apply (IH VIndex); [by intros _; apply index_ahead_closing | by injection Hn]. }
  destruct st.
  - destruct (re_word c); [| by apply Hother]. f_equal. apply (IH VWord); [done | by injection H].
  - by apply Hother.
  - f_equal. injection H as H. destruct (closing_cons c p (Hst eq_refl)) as [Hc | [Hd Hc]].
    + rewrite Hc in *. by apply (IH VAfter).
    + assert (Hne : Ascii.eqb c "]" = false) by (apply Ascii.eqb_neq; by intros ->).
      rewrite Hne in *. by apply (IH VIndex).
Qed.

Lemma alpha_not_space c : re_alpha c = true -> re_space c = false.
Proof.
  unfold re_alpha, re_space. intros H.
  destruct (Ascii.eqb c "_") eqn:E; [apply Ascii.eqb_eq in E; by subst |]. rewrite orb_false_r in H.
  apply not_true_iff_false. intros Hs. unfold byte_between in H.
  change (byte_val "a") with 97 in H. change (byte_val "z") with 122 in H. change (byte_val "A") with 65 in H. change (byte_val "Z") with 90 in H.
  repeat match goal with
  | H : _ || _ = true |- _ => apply orb_true_iff in H as [H | H]
  | H : _ && _ = true |- _ => apply andb_true_iff in H as [? ?]
  end; bool_hyps; lia.
Qed.

Lemma var_at_name path t : var_name path = true -> var_at ("{{" +:+ path +:+ "}}" +:+ t) = Some (path, t).
Proof.
  destruct path as [| c s]; [done |]. unfold var_name. intros H. bool_hyps.
  match goal with E : (_ =? _)%nat = true |- _ => apply Nat.eqb_eq in E; rename E into Hl end.
  assert (Hc : re_alpha c = true) by done.
  unfold var_at, cut_prefix. rewrite has_prefix_app, str_drop_app. cbn [mbind option_bind].
  rewrite str_app_cons. cbn [str_span]. rewrite (alpha_not_space c Hc). cbv beta iota.
  rewrite Hc. rewrite (var_rest_app VWord s t ltac:(done) Hl).
  change (str_drop (S (String.length s)) (String c (s +:+ "}}" +:+ t))) with (str_drop (String.length s) (s +:+ "}}" +:+ t)).
  rewrite str_drop_app.
  change (str_take (S (String.length s)) (String c (s +:+ "}}" +:+ t))) with (String c (str_take (String.length s) (s +:+ "}}" +:+ t))).
  rewrite str_take_app. simpl. by rewrite str_app_nil_r.
Qed.

Lemma vars_from_skip data a t : vars_from FormatFloat Sprint data (String.length a) (a +:+ t) = vars_from FormatFloat Sprint data O t.
Proof. induction a as [| c a IH]; [done |]. rewrite str_app_cons. exact IH. Qed.

Lemma vars_from_plain data s t :
  plain s = true -> vars_from FormatFloat Sprint data O (s +:+ t) = String.append s <$> vars_from FormatFloat Sprint data O t.
Proof.
  induction s as [| c s IH]; intros Hs; [rewrite str_app_nil_l; by destruct (vars_from _ _ _ _ t) |].
  unfold plain in Hs. simpl in Hs. bool_hyps. rewrite str_app_cons. cbn [vars_from].
  replace (var_at (String c (s +:+ t))) with (@None (string * string)).
  - rewrite IH by done. by destruct (vars_from _ _ _ _ t).
  - unfold var_at, cut_prefix. cbn [has_prefix]. rewrite Ascii.eqb_sym, H. done.
Qed.

Lemma vars_from_match data c s path after :
  var_at (String c s) = Some (path, after) ->
  vars_from FormatFloat Sprint data O (String c s) =
  (value ← getNestedValue (Some data) path; rest ← vars_from FormatFloat Sprint data (String.length s - String.length after) s;
   Some (formatValue FormatFloat Sprint value +:+ rest)).
Proof. intros E. cbn [vars_from]. by rewrite E. Qed.

Lemma vars_from_var data path t :
  var_name path = true ->
  vars_from FormatFloat Sprint data O ("{{" +:+ path +:+ "}}" +:+ t) =
  (value ← getNestedValue (Some data) path; rest ← vars_from FormatFloat Sprint data O t;
   Some (formatValue FormatFloat Sprint value +:+ rest)).
Proof.
  intros Hp. pose proof (var_at_name path t Hp) as Hv.
  set (inner := path +:+ "}}") in *.
  assert (Hs : "{{" +:+ path +:+ "}}" +:+ t = String "{" (String "{" (inner +:+ t))) by (unfold inner; by rewrite <- str_app_assoc).
  rewrite Hs in *. rewrite vars_from_match with (path := path) (after := t) by done.
  replace (String.length (String "{" (inner +:+ t)) - String.length t)%nat with (String.length (String "{" inner)).
  - by rewrite <- (str_app_cons _ inner t), vars_from_skip.
  - pose proof (str_len_app inner t) as H. unfold str_len in H. cbn [String.length]. lia.
Qed.

(** A text with variables is rendered piece by piece: plain text is kept, each
    variable becomes its value's text, and nothing inside a value is interpreted. *)
Theorem variables_rendered ps data :
  forallb piece_ok ps = true ->
  processVariables (str_concat (map print_piece ps)) data = str_concat <$> mapM (render_piece data) ps.
Proof.
  unfold Template.processVariables. induction ps as [| p ps IH]; [done |]. cbn [forallb map]. intros H. bool_hyps.
  change (str_concat (print_piece p :: map print_piece ps)) with (print_piece p +:+ str_concat (map print_piece ps)).
  cbn [mapM]. destruct p as [s | path]; cbn [print_piece render_piece].
  - rewrite vars_from_plain, IH by done. destruct (mapM _ ps); reflexivity.
  - rewrite <- !str_app_assoc, vars_from_var, IH by done.
    destruct (getNestedValue _ path); [| reflexivity]. destruct (mapM _ ps); reflexivity.
Qed.
(** ** Templates with loops

    A text [clean] of braces cannot write a tag; neither can a value with such texts. *)
Definition braceless (s : string) : bool := str_forallb (fun c => negb (Ascii.eqb c "{") && negb (Ascii.eqb c "}")) s.
Fixpoint clean (v : any) : bool :=
  match v with
  | AStr s => braceless s
  | AArr l => forallb clean l
  | AMap m => forallb (fun e => braceless (fst e) && clean (snd e)) m
  | ANil | ABool _ | AInt _ | AFloat _ => true
  end.
Lemma braceless_scan s : braceless s = true -> scan Outside s = Some (Outside, []).
Proof.
  induction s as [| c s IH]; [done |]. unfold braceless in *. simpl. intros H. bool_hyps.
  rewrite H, H1. cbn [mbind option_bind]. by rewrite IH.
Qed.
Lemma clean_get k m : clean (AMap m) = true -> clean (map_get k m) = true.
Proof.
  unfold map_get. simpl. induction m as [| [q v] m IH]; [done |]. cbn [forallb assoc fst snd]. intros H. bool_hyps.
  destruct (String.eqb k q); [done | by apply IH].
Qed.
Lemma clean_set k v m : braceless k = true -> clean v = true -> clean (AMap m) = true -> clean (AMap (map_set k v m)) = true.
Proof.
  intros Hk Hv Hm. unfold map_set. simpl in *. rewrite Hk, Hv. simpl. apply forallb_forall. intros e He%list_elem_of_In.
  apply list_elem_of_filter in He as [_ He%list_elem_of_In]. rewrite forallb_forall in Hm. by apply Hm.
Qed.
Lemma path_step_clean current part v : clean current = true -> path_step current part = Some (Some v) -> clean v = true.
Proof.
  intros Hc. unfold path_step. destruct (any_nil current); [done |].
  assert (Hm : forall m k w, clean m = true -> map_get k <$> any_map m = Some w -> clean w = true).
  { intros m k w Hcm H. destruct m; try done. injection H as <-. by apply clean_get. }
  destruct (str_find "[" part) as [idx |]; [| intros [= H]; by eapply Hm].
  intros (ix & _ & [= H])%bind_Some. apply bind_Some in H as (i & _ & H). apply bind_Some in H as (cur & Hcur & H).
  assert (Hcc : clean cur = true) by (destruct (String.eqb _ ""); [by injection Hcur as <- | by eapply Hm]).
  apply bind_Some in H as (arr & Harr & H). destruct cur; try done. injection Harr as ->. simpl in Hcc.
  destruct (i <? 0); [done |]. apply list_elem_of_lookup_2, list_elem_of_In in H. rewrite forallb_forall in Hcc. by apply Hcc.
Qed.
Lemma getNestedValue_clean m path v : clean (AMap m) = true -> getNestedValue (Some m) path = Some v -> clean v = true.
Proof.
  intros Hm. unfold getNestedValue. destruct (String.eqb path ""); [by intros [= <-] |].
  revert Hm. generalize (AMap m) as cur. induction (splitPath path) as [| p ps IH]; intros cur Hc; simpl; [by intros [= <-] |].
  destruct (path_step cur p) as [[w |] |] eqn:E; simpl; [| by intros [= <-] | done]. apply IH. by eapply path_step_clean.
Qed.

(** What the fixed conversions print of numbers, and of values clean of braces, has none. *)
Context (FormatFloat_plain : forall f, braceless (FormatFloat f) = true).
Context (Sprint_plain : forall v, clean v = true -> braceless (Sprint v) = true).
Lemma formatValue_plain v : clean v = true -> braceless (formatValue FormatFloat Sprint v) = true.
Proof.
  assert (Hi : forall n, braceless (itoa n) = true).
  { intros n. apply itoa_forallb; [| done]. intros d Hd. apply andb_true_iff.
    assert (Hx : d ∈ [0; 1; 2; 3; 4; 5; 6; 7; 8; 9]) by (rewrite !elem_of_cons; lia).
    rewrite !elem_of_cons in Hx. destruct_or! Hx; try (subst; done). by apply not_elem_of_nil in Hx. }
  destruct v; simpl; intros H; [done | by destruct b | apply Hi | | exact H | by apply Sprint_plain..].
  destruct (integral f); [apply Hi | apply FormatFloat_plain].
Qed.

(** *** Where the matches are *)
Lemma has_prefix_longer p a b : has_prefix p a = true -> has_prefix p (a +:+ b) = true.
Proof. intros [t ->]%has_prefix_true. rewrite <- str_app_assoc. apply has_prefix_app. Qed.
Lemma str_cut_first sep s a b : sep <> "" -> str_cut sep s = Some (a, b) -> str_contains sep a = false.
Proof.
  intros Hsep. unfold str_cut. intros (i & Hi & [= <- _])%bind_Some. revert i Hi.
  assert (Hnil : str_contains sep "" = false) by (by destruct sep).
  induction s as [| c s IH]; intros i; simpl; destruct (has_prefix sep _) eqn:E; try done; [by intros [= <-] | by intros [= <-] |].
  intros (j & Hj & ->)%fmap_Some. change (str_take (S j) (String c s)) with (String c (str_take j s)). cbn [str_contains].
  rewrite (IH j Hj), orb_false_r. apply not_true_iff_false. intros H%(has_prefix_longer _ _ (str_drop j s)).
  rewrite str_app_cons, str_take_drop in H. congruence.
Qed.
Lemma for_at_shape s item path body after : for_at s = Some ((item, path, body), after) ->
  (exists z, s = ("{{" +:+ z +:+ "}}") +:+ body +:+ ("{{" +:+ "endfor" +:+ "}}") +:+ after) /\
  str_contains "{{endfor}}" body = false /\ str_forallb re_word item = true /\ open_end path = false.
Proof.
  unfold for_at. intros (s1 & ->%cut_prefix_some & H)%bind_Some.
  apply bind_Some in H as (s2 & H2%spaces1_suffix & H). apply bind_Some in H as ([i s3] & H3 & H).
  apply bind_Some in H as (s4 & H4%spaces1_suffix & H). apply bind_Some in H as (s5 & H5%cut_prefix_suffix & H).
  apply bind_Some in H as (s6 & H6%spaces1_suffix & H). apply bind_Some in H as ([p s7] & H7 & H).
  apply bind_Some in H as (s8 & H8%cut_prefix_some & H). apply bind_Some in H as ([b a] & H9 & [= <- <- <- <-]).
  split_and!; [| by eapply str_cut_first | | by eapply match_path_closed].
  - assert (Hs : is_suffix s7 s1) by (apply word1_suffix in H3; apply match_path_suffix in H7; do 5 (etransitivity; [eassumption |]); assumption).
    destruct Hs as [z ->]. apply str_cut_some in H9 as ->. exists ("for" +:+ z). rewrite H8. by rewrite <- !str_app_assoc.
  - unfold word1 in H3. pose proof (str_span_all re_word s2) as Hw. destruct (str_span re_word s2) as [w r].
    destruct (String.eqb w ""); [done |]. by injection H3 as <- _.
Qed.
Lemma if_at_shape s cond body after : if_at s = Some ((cond, body), after) ->
  exists z, s = ("{{" +:+ z +:+ "}}") +:+ body +:+ ("{{" +:+ "endif" +:+ "}}") +:+ after.
Proof.
  unfold if_at. intros (s1 & ->%cut_prefix_some & H)%bind_Some.
  pose proof (str_span_app re_space s1) as Ew. destruct (str_span re_space s1) as [ws s2].
  pose proof (str_span_app (fun c => negb (Ascii.eqb c "}")) s2) as Ec. destruct (str_span _ s2) as [co s3]. simpl in Ew, Ec. subst s1 s2.
  apply bind_Some in H as (c' & _ & H). apply bind_Some in H as (s4 & ->%cut_prefix_some & H).
  apply bind_Some in H as ([b a] & ->%str_cut_some & [= _ <- <-]). exists ("if" +:+ ws +:+ co). by rewrite <- !str_app_assoc.
Qed.
Lemma var_at_shape s path after : var_at s = Some (path, after) -> s = ("{{" +:+ path +:+ "}}") +:+ after.
Proof.
  unfold var_at. intros (s0 & ->%cut_prefix_some & H)%bind_Some.
  pose proof (str_span_app re_space s0) as E1. destruct (str_span re_space s0) as [ws1 s1]. simpl in E1. subst s0.
  destruct s1 as [| c s']; [done |]. destruct (re_alpha c); [| done]. cbv zeta in H. set (n := S (var_rest VWord s')) in *.
  pose proof (str_span_app re_space (str_drop n (String c s'))) as E2. destruct (str_span re_space (str_drop n (String c s'))) as [ws2 s2]. cbn [fst snd] in E2.
  apply bind_Some in H as (a & ->%cut_prefix_some & [= <- <-]).
  rewrite <- (str_take_drop n (String c s')) at 1. by rewrite <- E2, <- !str_app_assoc.
Qed.

(** *** What the passes keep *)
Definition loopless (s : string) : Prop := exists ts, tags s = Some ts /\ "endfor" ∉ ts.
Lemma loopless_app a b : loopless a -> loopless b -> loopless (a +:+ b).
Proof.
  intros (t1 & H1 & N1) (t2 & H2 & N2). exists (t1 ++ t2). split; [by apply tags_app |]. rewrite elem_of_app. tauto.
Qed.
Lemma tags_part before x after ts : tags (before +:+ ("{{" +:+ x +:+ "}}") +:+ after) = Some ts ->
  exists t1 tx t2, tags before = Some t1 /\ tags after = Some t2 /\ ts = t1 ++ tx ++ t2.
Proof.
  rewrite <- !str_app_assoc. intros (t1 & u & H1 & H & ->)%tags_open. rewrite str_app_assoc in H.
  apply tags_close in H as (tx & t2 & _ & H2 & ->). by exists t1, tx, t2.
Qed.
Lemma cond_step_loopless data s s' : loopless s -> cond_step data s = Some (Some s') -> loopless s'.
Proof.
  intros (ts & Hts & Hn). unfold Template.cond_step. destruct (re_find if_at s) as [[[before [cond body]] after] |] eqn:E; [| done].
  apply re_find_spec in E as (m & -> & [z ->]%if_at_shape). apply tags_block in Hts as (t1 & tz & t2 & tx & t3 & H1 & H2 & _ & H3 & ->).
  rewrite !elem_of_app in Hn.
  assert (Hb : forall a, loopless a -> loopless (before +:+ a +:+ after)).
  { intros a Ha. apply loopless_app; [exists t1; tauto |]. apply loopless_app; [done | exists t3; tauto]. }
  destruct (default (body, "") (str_cut "{{else}}" body)) as [x y] eqn:Ee.
  assert (Hxy : loopless x /\ loopless y).
  { destruct (str_cut "{{else}}" body) as [[a b] |] eqn:Ec; injection Ee as <- <-.
    - apply str_cut_some in Ec as ->. apply (tags_part _ "else") in H2 as (ta & te & tb & Ha & Hb' & ->).
      rewrite !elem_of_app in Hn. split; [exists ta | exists tb]; tauto.
    - split; [exists t2; tauto | exists []; split; [done | apply not_elem_of_nil]]. }
  intros (h & _ & [= <-])%bind_Some. apply Hb. destruct Hxy. by destruct h.
Qed.
Lemma conditionals_loopless template data out : loopless template -> processConditionals template data = Some out -> loopless out.
Proof.
  unfold Template.processConditionals. generalize (S (String.length template)) as fuel. intros fuel. revert template.
  induction fuel as [| fuel IH]; intros s Hs; simpl; [done |]. intros (r & E & H)%bind_Some.
  destruct r as [s' |]; [| by injection H as <-]. eapply IH; [| exact H]. by eapply cond_step_loopless.
Qed.
Lemma vars_from_tags data : clean (AMap data) = true -> forall n s q ts out, (String.length s <= n)%nat ->
  scan q s = Some (Outside, ts) -> vars_from FormatFloat Sprint data O s = Some out ->
  exists ts', scan q out = Some (Outside, ts') /\ ts' ⊆ ts.
Proof.
  intros Hd n. induction n as [| n IH]; intros [| c s] q ts out Hl Hs; try (simpl in Hl; lia).
  1, 2: intros [= <-]; by exists ts.
  destruct (var_at (String c s)) as [[path after] |] eqn:Ev.
  - rewrite (vars_from_match _ _ _ _ _ Ev). intros (v & Hv & H)%bind_Some. apply bind_Some in H as (rest & Hr & [= <-]).
    apply var_at_shape in Ev. rewrite Ev in Hs. apply scan_split in Hs as (q1 & t1 & t2 & Ht & Ha & ->).
    assert (q = Outside /\ q1 = Outside) as [-> ->].
    { apply scan_split in Ht as (q2 & u1 & u2 & Ho & Hc & _). apply scan_split in Hc as (q3 & u3 & u4 & _ & Hc & _).
      split; [by destruct q | by destruct q3; try done; injection Hc]. }
    assert (Es : exists w, s = w +:+ after) by (exists ("{" +:+ path +:+ "}}"); rewrite <- !str_app_assoc in Ev |- *; by injection Ev).
    destruct Es as [w ->]. pose proof (str_len_app w after) as Hx. unfold str_len in Hx. cbn [String.length] in Hl.
    replace (String.length (w +:+ after) - String.length after)%nat with (String.length w) in Hr by lia.
    rewrite vars_from_skip in Hr. destruct (IH after Outside t2 rest) as (ts' & H1 & H2); [lia | done | done |].
    exists ts'. split; [| set_solver]. rewrite scan_app, braceless_scan; [simpl; by rewrite H1 |].
    apply formatValue_plain. by eapply getNestedValue_clean.
  - cbn [vars_from]. rewrite Ev. intros (rest & Hr & [= <-])%bind_Some. cbn [scan] in *.
    apply bind_Some in Hs as ([q1 t1] & E1 & H). apply bind_Some in H as ([q2 t2] & E2 & [= -> <-]).
    destruct (IH s q1 t2 rest) as (ts' & H1 & H2); [simpl in Hl; lia | done | done |].
    exists (t1 ++ ts'). rewrite E1. cbn [mbind option_bind]. rewrite H1. split; [done | set_solver].
Qed.
Lemma variables_loopless template data out :
  clean (AMap data) = true -> loopless template -> processVariables template data = Some out -> loopless out.
Proof.
  intros Hd (ts & Hts%tags_scan & Hn) H. destruct (vars_from_tags data Hd _ _ _ _ _ (le_n _) Hts H) as (ts' & H1 & H2).
  exists ts'. rewrite tags_scan. split; [done | set_solver].
Qed.
Lemma word_braceless w : str_forallb re_word w = true -> braceless w = true.
Proof.
  apply str_forallb_impl. intros c Hc. apply andb_true_iff. split; apply negb_true_iff, Ascii.eqb_neq; intros ->; done.
Qed.
Lemma for_items_spec data item body items i :
  clean (AMap data) = true -> braceless item = true -> loopless body -> forallb clean items = true ->
  exists out, for_items ParseFloat FormatFloat Sprint data item body i items = Some out /\ loopless out.
Proof.
  intros Hd Hi Hb. revert i. induction items as [| x items IH]; intros i Hx; cbn [for_items]; [exists ""; split; [done |]; exists []; split; [done | apply not_elem_of_nil] |].
  cbn [forallb] in Hx. bool_hyps. cbv zeta. set (loopData := map_set _ _ _).
  assert (Hld : clean (AMap loopData) = true).
  { unfold loopData. apply clean_set; [| done | by apply clean_set]. unfold braceless in *. rewrite str_forallb_app, Hi. done. }
  destruct (conditionals_return body loopData) as (b1 & E1 & _ & _). destruct (processVariables_returns b1 loopData) as [b2 E2].
  destruct (IH (i + 1) ltac:(done)) as (rest & E3 & Hr). rewrite E1. cbn [mbind option_bind]. rewrite E2. cbn [mbind option_bind]. rewrite E3.
  exists (b2 +:+ rest). split; [done |]. apply loopless_app; [| done].
  eapply variables_loopless; [exact Hld | | exact E2]. eapply conditionals_loopless; [exact Hb | exact E1].
Qed.

(** One iteration of the outer loop writes no loop, and takes one away. *)
Lemma loop_ends_app a b : loop_ends (a ++ b) = (loop_ends a + loop_ends b)%nat.
Proof. unfold loop_ends. by rewrite List.filter_app, length_app. Qed.
Lemma loop_ends_none ts : "endfor" ∉ ts -> loop_ends ts = O.
Proof.
  intros Hn. unfold loop_ends. induction ts as [| t ts IH]; [done |]. rewrite not_elem_of_cons in Hn. cbn [List.filter].
  destruct (String.eqb_spec "endfor" t); [tauto | apply IH; tauto].
Qed.
Lemma for_step_tidy data s ts : clean (AMap data) = true -> tags s = Some ts ->
  exists r, for_step ParseFloat FormatFloat Sprint data s = Some r /\
    forall s', r = Some s' -> exists ts', tags s' = Some ts' /\ (loop_ends ts' < loop_ends ts)%nat.
Proof.
  intros Hd Hts. unfold for_step. destruct (re_find for_at s) as [[[before [[item path] body]] after] |] eqn:E; [| by exists None].
  apply re_find_spec in E as (m & -> & ([z ->] & Hnb & Hw & Hp)%for_at_shape).
  destruct (tags_block _ _ _ _ _ _ Hts) as (t1 & tz & t2 & tx & t3 & H1 & H2 & Hx & H3 & ->).
  injection Hx as <-.
  assert (Hbody : loopless body).
  { exists t2. split; [done |]. intros Hin. pose proof (tag_in _ _ _ H2 Hin) as Hc. change (str_contains "{{endfor}}" body = true) in Hc. congruence. }
  destruct (getNestedValue_closed (Some data) path Hp) as [v Hv]. rewrite Hv. cbn [mbind option_bind].
  assert (Hout : exists out, match v with AArr arr => for_items ParseFloat FormatFloat Sprint data item body 0 (take maxLoopIterations arr) | _ => Some "" end = Some out /\ loopless out).
  { destruct v as [| | | | | arr |]; try (exists ""; split; [done |]; exists []; split; [done | apply not_elem_of_nil]).
    apply for_items_spec; [done | by apply word_braceless | done |]. apply getNestedValue_clean in Hv; [| done]. simpl in Hv.
    apply forallb_forall. intros x Hxin%list_elem_of_In. rewrite forallb_forall in Hv. apply Hv, list_elem_of_In.
    by eapply elem_of_take in Hxin as (? & ? & _); eapply list_elem_of_lookup_2. }
  destruct Hout as (out & -> & to & Hto & Hno). eexists. split; [reflexivity |]. intros s' [= <-].
  exists (t1 ++ to ++ t3). split; [apply tags_app; [done | by apply tags_app] |].
  rewrite !loop_ends_app, (loop_ends_none to Hno). match goal with |- context [loop_ends [?x]] => change (loop_ends [x]) with 1%nat end. lia.
Qed.
Lemma for_loops_return data fuel s ts : clean (AMap data) = true -> tags s = Some ts -> (loop_ends ts < fuel)%nat ->
  exists out, processForLoops ParseFloat FormatFloat Sprint fuel s data = Some out /\ re_find for_at out = None /\ tidy out = true.
Proof.
  intros Hd. revert s ts. induction fuel as [| fuel IH]; intros s ts Hts Hf; [lia |].
  unfold processForLoops in *. simpl. destruct (for_step_tidy data s ts Hd Hts) as ([s' |] & E & Hr); rewrite E; simpl.
  - destruct (Hr s' eq_refl) as (ts' & Hts' & Hlt). apply (IH s' ts' Hts'). lia.
  - exists s. split; [done |]. split; [| unfold tidy; by rewrite Hts].
    unfold for_step in E. destruct (re_find for_at s) as [[[b [[i p] y]] a] |]; [| done]. exfalso. repeat (apply bind_Some in E as (? & _ & E)). done.
Qed.

(** C30: the engine returns. On a template whose braces all belong to tags and on data whose
    texts hold no brace, whatever loops, conditions, variables and paths the template has, as much
    fuel as it has ends of loops and one more is enough: every loop is expanded, then every
    condition is decided in a text that does not grow, and no path makes the engine panic. *)
Theorem template_returns fuel template data :
  tidy template = true -> clean (AMap (default [] data)) = true -> (loops template < fuel)%nat ->
  exists expanded decided out,
    processForLoops ParseFloat FormatFloat Sprint fuel template (default [] data) = Some expanded /\ re_find for_at expanded = None /\
    processConditionals expanded (default [] data) = Some decided /\ re_find if_at decided = None /\ str_len decided <= str_len expanded /\
    processTemplate fuel template data = Some out.
Proof.
  intros Ht Hd Hf. unfold tidy, loops in *. destruct (tags template) as [ts |] eqn:Hts; [| done].
  destruct (for_loops_return (default [] data) fuel template ts Hd Hts Hf) as (expanded & E1 & H1 & _).
  destruct (conditionals_return expanded (default [] data)) as (decided & E2 & H2 & H3).
  destruct (processVariables_returns decided (default [] data)) as [out E3].
  exists expanded, decided, out. split_and!; try done. unfold Template.processTemplate. rewrite E1. simpl. by rewrite E2.
Qed.
End Returns.

(** Two loops, one inside a condition; a text without its own end of loop. *)
Definition ex_loops : string := "{{if show}}{{for i in items}}[{{i}}]{{endfor}}{{endif}} {{name}} {{for x in u.tags}}{{x.id}}{{endfor}}".
Lemma template_returns_witness :
  loops ex_loops = 2%nat /\ processTemplate ex_f0 (fun _ => "?") (fun _ => "?") 3 ex_loops (Some ex_data) = Some "[a][b] Ana x" /\
  exists out, processTemplate ex_f0 (fun _ => "?") (fun _ => "?") 3 ex_loops (Some ex_data) = Some out.
Proof.
  split; [vm_compute; reflexivity |]. split; [vm_compute; reflexivity |].
  destruct (template_returns ex_f0 (fun _ => "?") (fun _ => "?") (fun _ => eq_refl) (fun _ _ => eq_refl) 3 ex_loops (Some ex_data))
    as (? & ? & out & _ & _ & _ & _ & _ & H); [vm_compute; reflexivity | vm_compute; reflexivity | vm_compute; lia | by exists out].
Defined.

Lemma loop_feeds_itself_witness :
  processTemplate ex_f0 (fun _ => "?") (fun _ => "?") 7 self_loop (Some [("items", AArr [AStr self_loop])]) = None.
Proof. apply loop_feeds_itself. reflexivity. Defined.

Lemma variables_rendered_witness :
  processVariables (fun _ => "?") (fun _ => "?") "Hi {{name}}, {{u.tags[0].id}}!" ex_data = Some "Hi Ana, x!".
Proof.
  change "Hi {{name}}, {{u.tags[0].id}}!" with (str_concat (map print_piece [Text "Hi "; Var "name"; Text ", "; Var "u.tags[0].id"; Text "!"])).
  rewrite variables_rendered; reflexivity.
Defined.
