(* ===== verification/FlowGraph.v ===== *)
(** Flow graphs ([internal/flowgraph/flowgraph.go], [internal/handlers/chatbot_graph_types.go])
    and the conversion of the older step lists ([internal/handlers/chatbot_flow_migration.go]). *)
From S2P Require Import Prelude GoText GoAny Effects Sql.
From Stdlib Require Import Ascii SpecFloat.

(** * The graph *)
Record Position := MkPosition { ps_X : spec_float; ps_Y : spec_float }.
Record Edge := MkEdge { e_From : string; e_To : string; e_Condition : string }.
(** [Config] is [None] for the nil map. *)
Record Node := MkNode { n_ID : string; n_Type : string; n_Label : string; n_Position : Position; n_Config : option amap }.
Record Graph := MkGraph {
  g_Version : Z; g_Nodes : list Node; g_Edges : list Edge; g_EntryNode : string;
  g_nodeMap : gmap string Node; g_edgeMap : gmap string (list Edge) }.

Definition BuildMaps (g : Graph) : Graph :=
  MkGraph (g_Version g) (g_Nodes g) (g_Edges g) (g_EntryNode g)
    (fold_left (fun m n => <[n_ID n := n]> m) (g_Nodes g) ∅)
    (fold_left (fun m e => <[e_From e := default [] (m !! e_From e) ++ [e]]> m) (g_Edges g) ∅).

(** [g.Node(id)]. *)
Definition graph_node (g : Graph) (id : string) : option Node := g_nodeMap g !! id.
Definition OutgoingEdges (g : Graph) (fromID : string) : list Edge := default [] (g_edgeMap g !! fromID).

Fixpoint resolve_from (def outcome : string) (es : list Edge) : string :=
  match es with
  | [] => def
  | e :: rest =>
      if String.eqb (e_Condition e) outcome then e_To e
      else resolve_from (if String.eqb (e_Condition e) "default" then e_To e else def) outcome rest
  end.
Definition ResolveEdge (g : Graph) (fromID outcome : string) : string :=
  resolve_from "" outcome (OutgoingEdges g fromID).

(** ** What the indexes hold *)
Lemma node_map_fold (ns : list Node) (m : gmap string Node) id :
  fold_left (fun m n => <[n_ID n := n]> m) ns m !! id =
  match List.find (fun n => String.eqb (n_ID n) id) (rev ns) with Some n => Some n | None => m !! id end.
Proof.
  revert m. induction ns as [| n ns IH]; intros m; [done |]. cbn [fold_left rev]. rewrite IH.
  rewrite find_app. destruct (List.find _ (rev ns)); [done |]. simpl.
  destruct (String.eqb_spec (n_ID n) id) as [<- | Hne]; [by rewrite lookup_insert_eq | by rewrite lookup_insert_ne].
Qed.

(** The last node of the list with the identifier is the one found. *)
Lemma graph_node_spec g id :
  graph_node (BuildMaps g) id = List.find (fun n => String.eqb (n_ID n) id) (rev (g_Nodes g)).
Proof.
  unfold graph_node, BuildMaps. simpl. rewrite node_map_fold, lookup_empty. by destruct (List.find _ _).
Qed.

Lemma graph_node_some g id n : graph_node (BuildMaps g) id = Some n -> n ∈ g_Nodes g /\ n_ID n = id.
Proof.
  rewrite graph_node_spec. intros [H1 H2]%List.find_some. apply String.eqb_eq in H2.
  split; [| done]. apply list_elem_of_In. by rewrite in_rev.
Qed.
Lemma graph_node_exists g id : (exists n, n ∈ g_Nodes g /\ n_ID n = id) -> is_Some (graph_node (BuildMaps g) id).
Proof.
  intros (n & Hn & <-). rewrite graph_node_spec. destruct (List.find _ _) as [x |] eqn:E; [done |].
  eapply List.find_none in E; [| apply in_rev; rewrite rev_involutive; apply list_elem_of_In; exact Hn].
  by rewrite String.eqb_refl in E.
Qed.

Lemma edge_map_fold (es : list Edge) (m : gmap string (list Edge)) id :
  default [] (fold_left (fun m e => <[e_From e := default [] (m !! e_From e) ++ [e]]> m) es m !! id) =
  default [] (m !! id) ++ List.filter (fun e => String.eqb (e_From e) id) es.
Proof.
  revert m. induction es as [| e es IH]; intros m; [by rewrite app_nil_r |]. cbn [fold_left List.filter].
  rewrite IH. destruct (String.eqb_spec (e_From e) id) as [<- | Hne].
  - rewrite lookup_insert_eq. simpl. by rewrite <- app_assoc.
  - by rewrite lookup_insert_ne.
Qed.

(** The edges leaving a node, in the order of the list. *)
Lemma OutgoingEdges_spec g id :
  OutgoingEdges (BuildMaps g) id = List.filter (fun e => String.eqb (e_From e) id) (g_Edges g).
Proof.
  unfold OutgoingEdges, BuildMaps. simpl. by rewrite edge_map_fold, lookup_empty.
Qed.

(** ** The rule of the traversal: the first edge for the outcome, else the last default one. *)
Definition edge_for (outcome : string) (e : Edge) : bool := String.eqb (e_Condition e) outcome.
Lemma resolve_from_spec def outcome es :
  resolve_from def outcome es =
  match List.find (edge_for outcome) es with
  | Some e => e_To e
  | None => match List.find (edge_for "default") (rev es) with Some e => e_To e | None => def end
  end.
Proof.
  revert def. induction es as [| e es IH]; intros def; [done |]. cbn [resolve_from List.find rev].
  unfold edge_for at 1. destruct (String.eqb (e_Condition e) outcome); [done |]. rewrite IH.
  destruct (List.find (edge_for outcome) es); [done |]. rewrite find_app.
  destruct (List.find (edge_for "default") (rev es)); [done |]. simpl. unfold edge_for.
  by destruct (String.eqb (e_Condition e) "default").
Qed.

Lemma ResolveEdge_target g from outcome :
  ResolveEdge (BuildMaps g) from outcome = "" \/
  exists e, e ∈ g_Edges g /\ e_From e = from /\ e_To e = ResolveEdge (BuildMaps g) from outcome /\
            (e_Condition e = outcome \/ e_Condition e = "default").
Proof.
  unfold ResolveEdge. rewrite resolve_from_spec, OutgoingEdges_spec.
  destruct (List.find (edge_for outcome) _) as [e |] eqn:E.
  - apply List.find_some in E as [Hin Hc]. apply filter_In in Hin as [Hin Hf]. apply String.eqb_eq in Hc, Hf.
    right. exists e. split_and!; [by apply list_elem_of_In | done | done | by left].
  - destruct (List.find (edge_for "default") _) as [e |] eqn:E'; [| by left].
    apply List.find_some in E' as [Hin Hc]. apply in_rev, filter_In in Hin as [Hin Hf]. apply String.eqb_eq in Hc, Hf.
    right. exists e. split_and!; [by apply list_elem_of_In | done | done | by right].
Qed.

(** * Reading a graph

    [json.Marshal] writes a stored document and [json.Unmarshal] reads it into the structs.
    Strings come back as valid UTF-8, numbers are decimal text in between. *)
Definition json_text (s : string) : string :=
  str_concat (map (fun x => if (fst x =? rune_error) && (str_len (snd x) =? 1)
                            then String (ascii_of_N 239) (String (ascii_of_N 191) (String (ascii_of_N 189) ""))
                            else snd x) (runes s)).
Fixpoint marshal_ok (v : any) : bool :=
  match v with
  | AFloat (S754_infinity _) | AFloat S754_nan => false
  | AArr l => forallb marshal_ok l
  | AMap m => forallb (fun e => marshal_ok (snd e)) m
  | _ => true
  end.
Fixpoint redecode (v : any) : any :=
  match v with
  | AInt n => AFloat (f64_of_int n)
  | AStr s => AStr (json_text s)
  | AArr l => AArr (map redecode l)
  | AMap m => AMap (map (fun e => (json_text (fst e), redecode (snd e))) m)
  | _ => v
  end.

(** A key of a document names a field of a struct whatever its case. *)
Definition fold_rune (x : Z * string) : string :=
  if fst x =? 383 then "s" else if fst x =? 304 then snd x else lower_rune x.
Definition fold_name (k : string) : string := str_concat (map fold_rune (runes k)).

(** The values a field is given, in the order they are written: keys are sorted. Of several
    spellings of one name the later values replace the earlier ones. *)
Definition key_le (a b : string * any) : bool := str_le (fst a) (fst b).
Definition field_values (name : string) (m : amap) : list any :=
  map snd (stable_sort key_le (filter (fun e => String.eqb (fold_name (fst e)) name = true) m)).
Definition read_field {A} (dec : any -> option A) (zero : A) (name : string) (m : amap) : option A :=
  fold_left (fun acc v => old ← acc; if any_nil v then Some old else dec v) (field_values name m) (Some zero).

Definition read_string (v : any) : option string := match v with AStr s => Some (json_text s) | _ => None end.
Definition read_float (v : any) : option spec_float :=
  match v with AFloat f => Some f | AInt n => Some (f64_of_int n) | _ => None end.
(** A [float64] is written without an exponent below [1e21]. *)
Definition read_int (v : any) : option Z :=
  match v with
  | AInt n => Some n
  | AFloat f => if SFeqb (f64_of_int (f64_to_int f)) f && (min_int64 <? f64_to_int f) then Some (f64_to_int f) else None
  | _ => None
  end.
Definition read_config (v : any) : option (option amap) :=
  match redecode v with AMap m => Some (Some m) | _ => None end.
Definition read_position (v : any) : option Position :=
  m ← any_map v; x ← read_field read_float f64_zero "x" m; y ← read_field read_float f64_zero "y" m;
  Some (MkPosition x y).
Definition zero_position : Position := MkPosition f64_zero f64_zero.
Definition zero_node : Node := MkNode "" "" "" zero_position None.
Definition read_node (v : any) : option Node :=
  if any_nil v then Some zero_node
  else
    m ← any_map v;
    id ← read_field read_string "" "id" m; type ← read_field read_string "" "type" m;
    label ← read_field read_string "" "label" m;
    position ← read_field read_position zero_position "position" m;
    config ← read_field read_config None "config" m;
    Some (MkNode id type label position config).
Definition read_edge (v : any) : option Edge :=
  if any_nil v then Some (MkEdge "" "" "")
  else
    m ← any_map v;
    from ← read_field read_string "" "from" m; to ← read_field read_string "" "to" m;
    condition ← read_field read_string "" "condition" m;
    Some (MkEdge from to condition).
Definition read_list {A} (dec : any -> option A) (v : any) : option (list A) := l ← any_arr v; mapM dec l.
Definition read_graph (m : amap) : option Graph :=
  version ← read_field read_int 0 "version" m;
  nodes ← read_field (read_list read_node) [] "nodes" m;
  edges ← read_field (read_list read_edge) [] "edges" m;
  entry ← read_field read_string "" "entry_node" m;
  Some (MkGraph version nodes edges entry ∅ ∅).

Inductive parse_error := ErrMarshal | ErrUnmarshal | ErrVersion (v : Z) | ErrNoEntry | ErrEntryMissing (id : string).

(** [parseChatGraph]: [Ok None] is the nil graph of a nil column. *)
Definition parseChatGraph (raw : option amap) : result parse_error (option Graph) :=
  match raw with
  | None => Ok None
  | Some m =>
      if negb (marshal_ok (AMap m)) then Err ErrMarshal
      else
        match read_graph m with
        | None => Err ErrUnmarshal
        | Some g =>
            if negb (g_Version g =? 2) then Err (ErrVersion (g_Version g))
            else if String.eqb (g_EntryNode g) "" then Err ErrNoEntry
            else
              let g := BuildMaps g in
              match graph_node g (g_EntryNode g) with
              | None => Err (ErrEntryMissing (g_EntryNode g))
              | Some _ => Ok (Some g)
              end
        end
  end.

Lemma parseChatGraph_inv raw g :
  parseChatGraph raw = Ok (Some g) ->
  exists g0, g = BuildMaps g0 /\ g_Version g = 2 /\ is_Some (graph_node g (g_EntryNode g)) /\ g_EntryNode g <> "".
Proof.
  unfold parseChatGraph. destruct raw as [m |]; [| done]. destruct (negb _); [done |].
  destruct (read_graph m) as [g0 |]; [| done]. destruct (Z.eqb_spec (g_Version g0) 2) as [Hv |]; [| done]. simpl.
  destruct (String.eqb_spec (g_EntryNode g0) ""); [done |].
  destruct (graph_node _ _) as [nd |] eqn:E; [| done]. intros [= <-].
  exists g0. split_and!; [done | exact Hv | by eexists | done].
Qed.

(** * The older step lists

    A row of chatbot_flow_steps; [st_ConditionalNext] lists its entries in the order [range]
    visits them. *)
Record ChatbotFlowStep := MkStep {
  st_StepName : string; st_StepOrder : Z; st_Message : string; st_MessageType : string;
  st_ApiConfig : amap; st_Buttons : list any; st_TransferConfig : amap;
  st_InputType : string; st_InputConfig : amap;
  st_ValidationRegex : string; st_ValidationError : string; st_StoreAs : string;
  st_NextStep : string; st_ConditionalNext : amap; st_SkipCondition : string; st_MaxRetries : Z }.

(** [j[key].(string)]. *)
Definition getStringFromJSONB (j : amap) (key : string) : string := any_str (map_get key j).

Definition v2SupportedMessageType (mt : string) : bool :=
  bool_decide (mt ∈ ["text"; "buttons"; "end"; "condition"; "timing"; "goto_flow"; "api_fetch"; "whatsapp_flow"; "transfer"]).

Definition textStepCapturesInput (step : ChatbotFlowStep) : bool :=
  (negb (String.eqb (st_InputType step) "") && negb (String.eqb (st_InputType step) "none")) ||
  (negb (String.eqb (st_StoreAs step) "") || negb (String.eqb (st_ValidationRegex step) "")).

Definition messageTypeToNodeTypeGo (messageType : string) : string :=
  if String.eqb messageType "text" then "message"
  else if String.eqb messageType "api_fetch" then "api_call"
  else messageType.

Definition step_node_type (step : ChatbotFlowStep) : string :=
  if String.eqb (st_MessageType step) "text" && textStepCapturesInput step then "prompt"
  else messageTypeToNodeTypeGo (st_MessageType step).

(** [x, _ := posMap["x"].(float64)]. *)
Definition any_float (v : any) : spec_float := match v with AFloat f => f | _ => f64_zero end.
Definition extractCanvasPositions (raw : amap) : list (string * Position) :=
  match map_get "node_positions" raw with
  | AMap positions =>
      omap (fun e => posMap ← any_map (snd e);
                     Some (fst e, MkPosition (any_float (map_get "x" posMap)) (any_float (map_get "y" posMap)))) positions
  | _ => []
  end.

(** [if s != "" { config[key] = s }]. *)
Definition set_nonempty (key s : string) (config : amap) : amap :=
  if String.eqb s "" then config else map_set key (AStr s) config.
Definition first_nonempty (a b : string) : string := if String.eqb a "" then b else a.
Definition object_or_empty (v : any) : any := match v with AMap m => AMap m | _ => AMap [] end.

Definition buildNodeConfig (nodeType : string) (step : ChatbotFlowStep) : amap :=
  let set k v c := map_set k v c in
  let message := st_Message step in
  let ic := st_InputConfig step in
  let ac := st_ApiConfig step in
  let tc := st_TransferConfig step in
  if String.eqb nodeType "message" then [("message", AStr message)]
  else if String.eqb nodeType "prompt" then
    let c := [("body", AStr message)] in
    let c := set_nonempty "validation_regex" (st_ValidationRegex step) c in
    let c := set_nonempty "validation_error" (st_ValidationError step) c in
    let c := set_nonempty "store_as" (st_StoreAs step) c in
    if 0 <? st_MaxRetries step then set "max_retries" (AInt (st_MaxRetries step)) c else c
  else if String.eqb nodeType "buttons" then
    set_nonempty "store_as" (st_StoreAs step) (set "buttons" (AArr (st_Buttons step)) [("body", AStr message)])
  else if String.eqb nodeType "end" then set_nonempty "message" message []
  else if String.eqb nodeType "condition" then [("expression", AStr (getStringFromJSONB ic "expression"))]
  else if String.eqb nodeType "timing" then
    [("schedule", AArr (default [] (any_arr (map_get "schedule" ic))))]
  else if String.eqb nodeType "goto_flow" then [("flow_id", AStr (getStringFromJSONB ic "flow_id"))]
  else if String.eqb nodeType "api_call" then
    let c := [("url", AStr (getStringFromJSONB ac "url"))] in
    let c := set "method" (AStr (first_nonempty (getStringFromJSONB ac "method") "GET")) c in
    let c := set "headers" (object_or_empty (map_get "headers" ac)) c in
    let c := set "body" (AStr (getStringFromJSONB ac "body")) c in
    let c := set "response_mapping" (object_or_empty (map_get "response_mapping" ac)) c in
    let c := set_nonempty "fallback_message" (getStringFromJSONB ac "fallback_message") c in
    set_nonempty "message_template" message c
  else if String.eqb nodeType "whatsapp_flow" then
    let c := [("flow_id", AStr (first_nonempty (getStringFromJSONB ic "whatsapp_flow_id") (getStringFromJSONB ic "flow_id")))] in
    let c := set "header" (AStr (first_nonempty (getStringFromJSONB ic "flow_header") (getStringFromJSONB ic "header"))) c in
    let c := set "cta" (AStr (first_nonempty (getStringFromJSONB ic "flow_cta") (getStringFromJSONB ic "cta"))) c in
    set_nonempty "body" message c
  else if String.eqb nodeType "transfer" then
    let c := set_nonempty "team_id" (getStringFromJSONB tc "team_id") [] in
    let c := set_nonempty "notes" (getStringFromJSONB tc "notes") c in
    set_nonempty "body" message c
  else [].

(** An edge of the document, and the set of step names as a predicate. *)
Definition edge_json (from to condition : string) : any :=
  AMap [("from", AStr from); ("to", AStr to); ("condition", AStr condition)].
Definition known (stepNames : list string) (target : string) : bool := bool_decide (target ∈ stepNames).

Definition buttonsEdges (step : ChatbotFlowStep) (nextSequential : string) (stepNames : list string) : list any :=
  let mapped := omap (fun e => if String.eqb (any_str (snd e)) "" then None else Some (fst e)) (st_ConditionalNext step) in
  omap (fun e =>
    let target := any_str (snd e) in
    if String.eqb target "" then None
    else if known stepNames target then Some (edge_json (st_StepName step) target ("button:" +:+ fst e)) else None)
    (st_ConditionalNext step) ++
  (if negb (String.eqb nextSequential "") && known stepNames nextSequential then
     omap (fun btn =>
       btnMap ← any_map btn;
       let id := any_str (map_get "id" btnMap) in
       if String.eqb id "" || bool_decide (id ∈ mapped) then None
       else Some (edge_json (st_StepName step) nextSequential ("button:" +:+ id))) (st_Buttons step)
   else []).

Definition branchEdges (step : ChatbotFlowStep) (handles stepNames : list string) : list any :=
  omap (fun h =>
    let target := any_str (map_get h (st_ConditionalNext step)) in
    if String.eqb target "" then None
    else if known stepNames target then Some (edge_json (st_StepName step) target h) else None) handles.

(** One iteration of [buildEdges]: [rest] are the steps after this one. *)
Definition step_edges (stepNames : list string) (step : ChatbotFlowStep) (rest : list ChatbotFlowStep) : list any :=
  let nextSequential := match rest with [] => "" | s :: _ => st_StepName s end in
  let mt := st_MessageType step in
  if String.eqb mt "buttons" then buttonsEdges step nextSequential stepNames
  else if String.eqb mt "condition" then branchEdges step ["true"; "false"] stepNames
  else if String.eqb mt "timing" then branchEdges step ["in_hours"; "out_of_hours"] stepNames
  else if bool_decide (mt ∈ ["transfer"; "end"; "goto_flow"]) then []
  else
    let target := first_nonempty (st_NextStep step) nextSequential in
    if negb (String.eqb target "") && known stepNames target then [edge_json (st_StepName step) target "default"] else [].
Fixpoint buildEdges (sorted : list ChatbotFlowStep) (stepNames : list string) : list any :=
  match sorted with
  | [] => []
  | step :: rest => step_edges stepNames step rest ++ buildEdges rest stepNames
  end.

Definition order_le (a b : ChatbotFlowStep) : bool := st_StepOrder a <=? st_StepOrder b.

Definition node_json (id type label : string) (position : Position) (config : amap) : any :=
  AMap [("id", AStr id); ("type", AStr type); ("label", AStr label);
        ("position", AMap [("x", AFloat (ps_X position)); ("y", AFloat (ps_Y position))]); ("config", AMap config)].
Definition startID : string := "__start__".
Definition start_node : any :=
  AMap [("id", AStr startID); ("type", AStr "start"); ("label", AStr "Start");
        ("position", AMap [("x", AInt 100); ("y", AInt 100)]); ("config", AMap [])].
Definition step_node (positions : list (string * Position)) (i : nat) (step : ChatbotFlowStep) : any :=
  let name := st_StepName step in
  let nodeType := step_node_type step in
  let pos := default (MkPosition (f64_of_int 300) (f64_of_int (Z.of_nat i * 150))) (assoc name positions) in
  node_json name nodeType name pos (buildNodeConfig nodeType step).

(** [None]: no graph. *)
Definition stepsToGraph (steps : list ChatbotFlowStep) (canvasLayout : amap) : option amap :=
  if bool_decide (steps = [] \/ negb (forallb (fun s => v2SupportedMessageType (st_MessageType s)) steps) = true) then None
  else
    let sorted := stable_sort order_le steps in
    let positions := extractCanvasPositions canvasLayout in
    let nodes := imap (step_node positions) sorted in
    let edges := buildEdges sorted (map st_StepName sorted) in
    let first := match sorted with s :: _ => st_StepName s | [] => "" end in
    Some [("version", AInt 2); ("nodes", AArr (start_node :: nodes));
          ("edges", AArr (edge_json startID first "default" :: edges)); ("entry_node", AStr startID)].

Definition ex_step (name : string) (order : Z) (mt : string) (next : string) : ChatbotFlowStep :=
  MkStep name order "Oi" mt [] [] [] "" [] "" "" "" next [] "" 3.
Example migrated_1 :
  match parseChatGraph (stepsToGraph [ex_step "b" 2 "text" ""; ex_step "a" 1 "text" ""; ex_step "z" 3 "end" ""] []) with
  | Ok (Some g) => map (fun n => (n_ID n, n_Type n, ResolveEdge g (n_ID n) "default")) (g_Nodes g)
  | _ => []
  end = [("__start__", "start", "a"); ("a", "message", "b"); ("b", "message", "z"); ("z", "end", "")].
Proof. vm_compute. reflexivity. Qed.

(** ** What parsing a converted document gives *)
Lemma read_field_one {A} (dec : any -> option A) zero name m v :
  field_values name m = [v] -> any_nil v = false -> read_field dec zero name m = dec v.
Proof. intros E Hv. unfold read_field. rewrite E. simpl. by rewrite Hv. Qed.

Lemma read_edge_json from to condition :
  read_edge (edge_json from to condition) = Some (MkEdge (json_text from) (json_text to) (json_text condition)).
Proof.
  unfold read_edge, edge_json. cbn [any_nil any_map mbind option_bind].
  by rewrite !(read_field_one _ _ _ _ (AStr _)) by reflexivity.
Qed.

Definition read_step_node (positions : list (string * Position)) (i : nat) (step : ChatbotFlowStep) : Node :=
  let name := json_text (st_StepName step) in
  let nodeType := step_node_type step in
  MkNode name (json_text nodeType) name
    (default (MkPosition (f64_of_int 300) (f64_of_int (Z.of_nat i * 150))) (assoc (st_StepName step) positions))
    (Some (map (fun e => (json_text (fst e), redecode (snd e))) (buildNodeConfig nodeType step))).

Lemma read_position_json p : read_position (AMap [("x", AFloat (ps_X p)); ("y", AFloat (ps_Y p))]) = Some p.
Proof.
  unfold read_position. cbn [any_map mbind option_bind].
  rewrite !(read_field_one _ _ _ _ (AFloat _)) by reflexivity. by destruct p.
Qed.

Lemma read_node_json positions i step :
  read_node (step_node positions i step) = Some (read_step_node positions i step).
Proof.
  unfold read_node, step_node, node_json. cbn [any_nil any_map mbind option_bind].
  rewrite !(read_field_one read_string _ _ _ (AStr _)) by reflexivity.
  rewrite (read_field_one read_position _ _ _ (AMap _)) by reflexivity. rewrite read_position_json.
  rewrite (read_field_one read_config _ _ _ (AMap _)) by reflexivity. done.
Qed.

Definition read_start : Node := MkNode startID "start" "Start" (MkPosition (f64_of_int 100) (f64_of_int 100)) (Some []).
Lemma read_start_json : read_node start_node = Some read_start.
Proof. vm_compute. reflexivity. Qed.

Lemma mapM_imap {A B C} (dec : B -> option C) (f : nat -> A -> B) (h : nat -> A -> C) l :
  (forall i x, dec (f i x) = Some (h i x)) -> mapM dec (imap f l) = Some (imap h l).
Proof.
  revert f h. induction l as [| x l IH]; intros f h H; [done |].
  rewrite !imap_cons. cbn [mapM]. rewrite H. cbn [mbind option_bind].
  rewrite (IH (f ∘ S) (h ∘ S)) by (intros; apply H). done.
Qed.

Lemma map_imap_const {A B C} (p : B -> C) (f : nat -> A -> B) (h : A -> C) l :
  (forall i x, p (f i x) = h x) -> map p (imap f l) = map h l.
Proof.
  revert f. induction l as [| x l IH]; intros f H; [done |].
  rewrite imap_cons. cbn [map]. rewrite H. f_equal. apply IH. intros. apply H.
Qed.

Definition is_edge (stepNames : list string) (v : any) : Prop :=
  exists f t c, v = edge_json f t c /\ f ∈ stepNames /\ t ∈ stepNames.

Lemma omap_Forall {A B} (P : B -> Prop) (f : A -> option B) l :
  (forall x y, f x = Some y -> P y) -> Forall P (omap f l).
Proof. intros H. apply Forall_forall. intros y (x & _ & E)%list_elem_of_omap. by apply (H x). Qed.

(** An edge is only written to a known step. *)
Ltac known_edge E :=
  cbv zeta in E; repeat break_match_in E; try done; injection E as <-; unfold known in *; bool_hyps; by repeat eexists.

Lemma step_edges_ok stepNames step rest :
  st_StepName step ∈ stepNames -> Forall (is_edge stepNames) (step_edges stepNames step rest).
Proof.
  intros Hs. unfold step_edges.
  assert (Hb : forall handles, Forall (is_edge stepNames) (branchEdges step handles stepNames)).
  { intros handles. apply omap_Forall. intros h y E. known_edge E. }
  destruct (String.eqb _ "buttons").
  { apply Forall_app. split; [apply omap_Forall; intros e y E; known_edge E |].
    destruct (negb _ && _) eqn:Hk; [| constructor]. unfold known in Hk. bool_hyps. apply omap_Forall. intros e y E.
    apply bind_Some in E as (m & _ & E). known_edge E. }
  destruct (String.eqb _ "condition"); [apply Hb |]. destruct (String.eqb _ "timing"); [apply Hb |].
  destruct (bool_decide _); [constructor |]. cbv zeta. destruct (negb _ && _) eqn:Hk; [| constructor].
  unfold known in Hk. bool_hyps. constructor; [by repeat eexists | constructor].
Qed.

Lemma buildEdges_ok sorted stepNames :
  (forall s, s ∈ sorted -> st_StepName s ∈ stepNames) -> Forall (is_edge stepNames) (buildEdges sorted stepNames).
Proof.
  induction sorted as [| s rest IH]; intros H; [constructor |]. apply Forall_app. split.
  - apply step_edges_ok, H. left.
  - apply IH. intros x Hx. apply H. by right.
Qed.

Lemma read_edges_json stepNames l :
  Forall (is_edge stepNames) l ->
  exists es, mapM read_edge l = Some es /\
    Forall (fun e => exists f t, e_From e = json_text f /\ e_To e = json_text t /\ f ∈ stepNames /\ t ∈ stepNames) es.
Proof.
  induction 1 as [| v l (f & t & c & -> & Hf & Ht) _ (es & E & Hes)]; [by exists [] |].
  cbn [mapM]. rewrite read_edge_json. cbn [mbind option_bind]. rewrite E. eexists. split; [done |].
  constructor; [by exists f, t | done].
Qed.

(** The node types a step can become. *)
Definition migrated_types : list string :=
  ["message"; "buttons"; "end"; "condition"; "timing"; "goto_flow"; "api_call"; "whatsapp_flow"; "transfer"; "prompt"].
Lemma step_node_type_known step :
  v2SupportedMessageType (st_MessageType step) = true ->
  step_node_type step ∈ migrated_types /\ json_text (step_node_type step) = step_node_type step.
Proof.
  unfold v2SupportedMessageType. intros H. bool_hyps. unfold step_node_type, messageTypeToNodeTypeGo.
  assert (E : forall s, s ∈ migrated_types -> s ∈ migrated_types /\ json_text s = s).
  { intros s Hs. split; [done |]. unfold migrated_types in Hs.
    repeat (apply elem_of_cons in Hs as [-> | Hs]; [reflexivity |]). by apply not_elem_of_nil in Hs. }
  apply E. destruct (_ && _); [set_solver |].
  repeat (apply elem_of_cons in H as [-> | H]; [simpl; set_solver |]). by apply not_elem_of_nil in H.
Qed.

(** The graph of a converted flow, before its indexes. *)
Record migrated_graph (steps : list ChatbotFlowStep) (g : Graph) : Prop := {
  mg_version : g_Version g = 2;
  mg_entry : g_EntryNode g = startID;
  mg_nodes : map n_ID (g_Nodes g) = startID :: map (fun s => json_text (st_StepName s)) (stable_sort order_le steps);
  mg_types : Forall (fun n => n_Type n ∈ "start" :: migrated_types) (g_Nodes g);
  mg_edges : Forall (fun e => e_From e ∈ map n_ID (g_Nodes g) /\ e_To e ∈ map n_ID (g_Nodes g)) (g_Edges g) }.

Lemma read_migrated steps canvas raw :
  stepsToGraph steps canvas = Some raw -> exists g, read_graph raw = Some g /\ migrated_graph steps g.
Proof.
  unfold stepsToGraph. destruct (bool_decide _) eqn:Hb; [done |]. apply bool_decide_eq_false in Hb.
  assert (Hall : forall s, s ∈ stable_sort order_le steps -> v2SupportedMessageType (st_MessageType s) = true).
  { intros s Hs. rewrite stable_sort_perm in Hs.
    assert (Hf : forallb (fun s => v2SupportedMessageType (st_MessageType s)) steps = true).
    { destruct (forallb _ steps) eqn:E; [done |]. exfalso. apply Hb. by right. }
    rewrite forallb_forall in Hf. apply Hf. by apply list_elem_of_In. }
  assert (Hne : stable_sort order_le steps <> []).
  { intros E. apply Hb. left. apply Permutation_nil. rewrite <- E. by rewrite stable_sort_perm. }
  set (sorted := stable_sort order_le steps) in *. set (positions := extractCanvasPositions canvas).
  destruct sorted as [| s0 rest] eqn:Es; [done |]. rewrite <- Es in *. intros [= <-].
  set (names := startID :: map st_StepName sorted).
  assert (Hedges : Forall (is_edge names) (edge_json startID (st_StepName s0) "default" :: buildEdges sorted (map st_StepName sorted))).
  { constructor.
    - exists startID, (st_StepName s0), "default". split_and!; [done | by left |]. right. rewrite Es. by left.
    - eapply Forall_impl; [apply buildEdges_ok; intros s Hs; by apply list_elem_of_fmap_2 |].
      intros v (f & t & c & -> & Hf & Ht). exists f, t, c. split_and!; [done | by right | by right]. }
  destruct (read_edges_json _ _ Hedges) as (es & Ees & Hes).
  eexists (MkGraph 2 (read_start :: imap (read_step_node positions) sorted) es startID ∅ ∅). split.
  { unfold read_graph.
    rewrite (read_field_one read_int _ _ _ (AInt 2)) by reflexivity. cbn [read_int mbind option_bind].
    rewrite (read_field_one (read_list read_node) _ _ _ (AArr _)) by reflexivity.
    rewrite (read_field_one (read_list read_edge) _ _ _ (AArr _)) by reflexivity.
    rewrite (read_field_one read_string _ _ _ (AStr startID)) by reflexivity.
    unfold read_list. cbn [any_arr mbind option_bind]. rewrite Ees.
    cbn [mapM]. rewrite read_start_json. cbn [mbind option_bind].
    rewrite (mapM_imap _ _ (read_step_node positions)) by (intros; apply read_node_json).
    cbn [mbind option_bind mret option_ret read_string]. done. }
  assert (Hids : map n_ID (read_start :: imap (read_step_node positions) sorted) = startID :: map (fun s => json_text (st_StepName s)) sorted).
  { cbn [map]. f_equal. by apply map_imap_const. }
  split; cbn [g_Version g_EntryNode g_Nodes g_Edges]; try done.
  - constructor; [by left |]. apply Forall_lookup. intros i n. rewrite list_lookup_imap.
    destruct (sorted !! i) as [s |] eqn:E; [| done]. intros [= <-]. right. unfold read_step_node. cbn [n_Type].
    destruct (step_node_type_known s) as [H1 ->]; [| done]. apply Hall. by eapply list_elem_of_lookup_2.
  - rewrite Hids. eapply Forall_impl; [exact Hes |]. intros e (f & t & -> & -> & Hf & Ht).
    assert (H : forall x, x ∈ names -> json_text x ∈ startID :: map (fun s => json_text (st_StepName s)) sorted).
    { intros x [-> | Hx]%elem_of_cons; [by left |]. right. apply list_elem_of_fmap in Hx as (s & -> & Hs).
      by apply (list_elem_of_fmap_2 (fun s => json_text (st_StepName s))). }
    auto.
Qed.

(** C29: converting a step list gives a graph the engine accepts, with the start node as
    its entry, one node of a known type per step in step order, and every edge between two
    nodes of the graph: following edges never leads to a missing node. *)
Theorem migrated_graph_parses steps canvas raw :
  stepsToGraph steps canvas = Some raw -> marshal_ok (AMap raw) = true ->
  exists g, parseChatGraph (Some raw) = Ok (Some g) /\ migrated_graph steps g /\
    is_Some (graph_node g startID) /\
    forall from outcome, is_Some (graph_node g from) ->
      ResolveEdge g from outcome = "" \/ is_Some (graph_node g (ResolveEdge g from outcome)).
Proof.
  intros Hs Hok. destruct (read_migrated _ _ _ Hs) as (g & Eg & Hg).
  assert (Hnode : forall id, id ∈ map n_ID (g_Nodes g) -> is_Some (graph_node (BuildMaps g) id)).
  { intros id (n & -> & Hn)%list_elem_of_fmap. apply graph_node_exists. by exists n. }
  assert (Hentry : is_Some (graph_node (BuildMaps g) startID)).
  { apply Hnode. rewrite (mg_nodes _ _ Hg). by left. }
  exists (BuildMaps g). split_and!.
  - unfold parseChatGraph. rewrite Hok, Eg. simpl. rewrite (mg_version _ _ Hg), (mg_entry _ _ Hg). simpl.
    destruct Hentry as [n Hn]. by rewrite Hn.
  - by destruct Hg.
  - done.
  - intros from outcome _. destruct (ResolveEdge_target g from outcome) as [H | (e & He & _ & <- & _)]; [by left | right].
    apply Hnode. pose proof (mg_edges _ _ Hg) as HF. rewrite Forall_forall in HF. by apply HF.
Qed.

Definition ex_steps : list ChatbotFlowStep :=
  [ex_step "b" 2 "text" ""; ex_step "a" 1 "api_fetch" "c"; ex_step "c" 3 "transfer" ""].
Lemma migrated_graph_parses_witness :
  match stepsToGraph ex_steps [] with
  | Some raw => match parseChatGraph (Some raw) with Ok (Some g) => ResolveEdge g "a" "http:2xx" = "c" | _ => False end
  | None => False
  end /\
  exists raw g, parseChatGraph (Some raw) = Ok (Some g) /\ migrated_graph ex_steps g.
Proof.
  split; [vm_compute; reflexivity |]. destruct (stepsToGraph ex_steps []) as [raw |] eqn:E; [| by vm_compute in E].
  exists raw. destruct (migrated_graph_parses ex_steps [] raw E) as (g & H1 & H2 & _); [| by exists g].
  vm_compute in E. injection E as <-. vm_compute. reflexivity.
Defined.

(** * The back-fill of stored flows

    The rows of chatbot_flows and of chatbot_flow_steps (live ones, with their flow's id);
    [lg_Legacy]: the older schema is there. *)
Record FlowMeta := MkFlowMeta { fm_ID : uuid; fm_Graph : option amap; fm_CanvasLayout : amap; fm_Deleted : bool }.
Record Legacy := MkLegacy { lg_Legacy : bool; lg_Flows : list FlowMeta; lg_Steps : list (uuid * ChatbotFlowStep) }.
Inductive backfill_error := ErrBackfill.
#[global] Instance backfill_db_err : DbErr backfill_error := ErrBackfill.

Definition graph_missing (f : FlowMeta) : bool :=
  match fm_Graph f with None | Some [] => negb (fm_Deleted f) | Some _ => false end.
Definition steps_of (s : Legacy) (id : uuid) : list ChatbotFlowStep :=
  map snd (List.filter (fun x => N.eqb (fst x) id) (lg_Steps s)).
Definition set_graph (g : amap) (f : FlowMeta) : FlowMeta := MkFlowMeta (fm_ID f) (Some g) (fm_CanvasLayout f) (fm_Deleted f).
Definition update_graph (id : uuid) (g : amap) (s : Legacy) : Legacy :=
  MkLegacy (lg_Legacy s) (sql_update (fun f => N.eqb (fm_ID f) id && negb (fm_Deleted f)) (set_graph g) (lg_Flows s)) (lg_Steps s).

(** The loop counts the flows converted. *)
Fixpoint backfill_loop (pending : list FlowMeta) (converted : Z) : Db Legacy (result backfill_error Z) :=
  match pending with
  | [] => mret (Ok converted)
  | p :: rest =>
      steps ←? query (fun s => Ok (steps_of s (fm_ID p)));
      match stepsToGraph steps (fm_CanvasLayout p) with
      | None => backfill_loop rest converted
      | Some graph => _ ←? exec (fun s => (Ok tt, update_graph (fm_ID p) graph s)); backfill_loop rest (converted + 1)
      end
  end.
Definition BackfillChatbotFlowGraph : Db Legacy (result backfill_error Z) :=
  fun w => if negb (lg_Legacy (w_data w)) then (Ok 0, w)
           else (pending ←? query (fun s => Ok (List.filter graph_missing (lg_Flows s))); backfill_loop pending 0) w.

(** What the back-fill makes of a row. *)
Definition filled (s : Legacy) (f : FlowMeta) : FlowMeta :=
  if graph_missing f then
    match stepsToGraph (steps_of s (fm_ID f)) (fm_CanvasLayout f) with Some g => set_graph g f | None => f end
  else f.
Definition partly_filled (s s' : Legacy) : Prop :=
  lg_Legacy s' = lg_Legacy s /\ lg_Steps s' = lg_Steps s /\
  Forall2 (fun f f' => f' = f \/ f' = filled s f) (lg_Flows s) (lg_Flows s').

Lemma filled_id s f : fm_ID (filled s f) = fm_ID f.
Proof. unfold filled. by repeat case_match. Qed.

Lemma update_filled s s' p g :
  NoDup (map fm_ID (lg_Flows s)) -> p ∈ lg_Flows s -> graph_missing p = true ->
  stepsToGraph (steps_of s (fm_ID p)) (fm_CanvasLayout p) = Some g ->
  partly_filled s s' -> partly_filled s (update_graph (fm_ID p) g s').
Proof.
  intros Hnd Hp Hm Hg (H1 & H2 & HF). split_and!; [done | done |]. unfold update_graph, sql_update. simpl.
  change (map ?h ?l) with (h <$> l). rewrite Forall2_fmap_r. apply Forall2_same_length_lookup_2; [by eapply Forall2_length |].
  intros i f f' Hf Hf'. pose proof (Forall2_lookup_lr _ _ _ _ _ _ HF Hf Hf') as Hff. apply list_elem_of_lookup_2 in Hf.
  simpl. destruct (N.eqb (fm_ID f') (fm_ID p) && negb (fm_Deleted f')) eqn:E; [| done]. right.
  apply andb_true_iff in E as [E _]. apply N.eqb_eq in E.
  assert (Hid : fm_ID f' = fm_ID f) by (destruct Hff as [-> | ->]; [done | apply filled_id]).
  assert (f = p) as ->.
  { rewrite Hid in E. clear -Hnd Hf Hp E. revert Hnd Hf Hp. generalize (lg_Flows s). intros l. induction l as [| x l IH]; [set_solver |].
    cbn [map]. intros [Hni Hnd]%NoDup_cons [-> | Hf]%elem_of_cons [-> | Hp]%elem_of_cons; try done.
    - exfalso. apply Hni. rewrite E. by apply list_elem_of_fmap_2.
    - exfalso. apply Hni. rewrite <- E. by apply list_elem_of_fmap_2.
    - by apply IH. }
  unfold filled. rewrite Hm, Hg. destruct Hff as [-> | ->]; [done |]. unfold filled. rewrite Hm, Hg. done.
Qed.

Lemma backfill_loop_fills s pending converted w r w' :
  NoDup (map fm_ID (lg_Flows s)) -> (forall p, p ∈ pending -> p ∈ lg_Flows s /\ graph_missing p = true) ->
  partly_filled s (w_data w) -> backfill_loop pending converted w = (r, w') -> partly_filled s (w_data w').
Proof.
  intros Hnd. revert converted w. induction pending as [| p rest IH]; intros converted w Hp Hs; cbn [backfill_loop].
  { by intros [= <- <-]. }
  unfold try_bind at 1. unfold mbind, db_bind.
  destruct (query _ w) as [[steps | e] w1] eqn:E1; pose proof (query_data _ _ _ _ E1) as Ew; [| intros [= <- <-]; by rewrite Ew].
  apply exec_ok in E1. injection E1 as <- _.
  assert (Hrest : forall p0, p0 ∈ rest -> p0 ∈ lg_Flows s /\ graph_missing p0 = true) by (intros; apply Hp; by right).
  assert (Hst : steps_of (w_data w) (fm_ID p) = steps_of s (fm_ID p)) by (unfold steps_of; by rewrite (proj1 (proj2 Hs))).
  rewrite Hst. destruct (stepsToGraph _ _) as [g |] eqn:Eg; [| apply IH; [done | by rewrite Ew]].
  unfold try_bind, mbind, db_bind. destruct (exec _ w1) as [[u | e] w2] eqn:E2.
  all: assert (Hs2 : partly_filled s (w_data w2)) by
      (apply exec_data in E2 as [-> | ->]; rewrite Ew; [done | apply update_filled; try done; apply Hp; by left]).
  - by apply IH.
  - by intros [= <- <-].
Qed.

(** Whatever fails, the back-fill only writes the graph of a live flow that had none,
    and writes there the conversion of that flow's own steps; run again over the rows it has
    filled it finds nothing of them to do. *)
Theorem backfill_fills_missing w r w' :
  NoDup (map fm_ID (lg_Flows (w_data w))) -> BackfillChatbotFlowGraph w = (r, w') ->
  partly_filled (w_data w) (w_data w') /\ forall f, filled (w_data w) (filled (w_data w) f) = filled (w_data w) f.
Proof.
  intros Hnd. assert (Hrefl : partly_filled (w_data w) (w_data w)).
  { split_and!; [done | done |]. apply Forall2_same_length_lookup_2; [done |]. intros i f f' -> [= ->]. by left. }
  intros E. split.
  - revert E. unfold BackfillChatbotFlowGraph. destruct (negb _); [by intros [= <- <-] |].
    unfold try_bind, mbind, db_bind. destruct (query _ w) as [[pending | e] w1] eqn:E1;
      pose proof (query_data _ _ _ _ E1) as Ew; [| by intros [= <- <-]; rewrite Ew].
    apply exec_ok in E1. injection E1 as <- _. apply backfill_loop_fills; [done | | by rewrite Ew].
    intros p Hp. apply list_elem_of_In, filter_In in Hp as [Hp Hm]. split; [by apply list_elem_of_In | done].
  - intros f. unfold filled at 2 3. destruct (graph_missing f) eqn:Hm.
    + destruct (stepsToGraph _ _) as [g |] eqn:Eg; unfold filled.
      * destruct (graph_missing (set_graph g f)) eqn:Hm2; [| done].
        exfalso. unfold stepsToGraph in Eg. destruct (bool_decide _); [done |]. by injection Eg as <-.
      * by rewrite Hm, Eg.
    + unfold filled. by rewrite Hm.
Qed.

Lemma backfill_fills_missing_witness :
  exists r w', BackfillChatbotFlowGraph (World (MkLegacy true [MkFlowMeta 4 None [] false] (map (fun s => (4%N, s)) ex_steps)) [NoFault; NoFault; FailAfter]) = (r, w') /\
    partly_filled (MkLegacy true [MkFlowMeta 4 None [] false] (map (fun s => (4%N, s)) ex_steps)) (w_data w').
Proof.
  do 2 eexists. split; [reflexivity |].
  eapply (backfill_fills_missing (World (MkLegacy true [MkFlowMeta 4 None [] false] (map (fun s => (4%N, s)) ex_steps)) [NoFault; NoFault; FailAfter])); [| reflexivity].
  repeat constructor; set_solver.
Defined.
