(* ===== verification/FlowRunner.v ===== *)
(** The runner of chatbot flows ([internal/handlers/chatbot_graph_runner.go],
    [flow_transfer_routing.go], [xprocess_integration_secrets.go], and of
    [chatbot_processor.go] the sending of buttons and the configured request): one inbound
    message against a session, node by node. *)
From S2P Require Import Prelude GoText GoAny Effects BusinessHours Template FlowGraph Attendance Distribution.
From Stdlib Require Import Ascii SpecFloat.

(** * Data *)
Record ChatbotFlow := MkFlow {
  fl_ID : uuid; fl_Name : string; fl_Account : string; fl_IsEnabled : bool;
  fl_TriggerKeywords : list string; fl_Graph : option amap }.

Inductive SessionStatus := SessionActive | SessionCompleted.
Record Session := MkChatSession {
  ss_ID : uuid; ss_Contact : uuid; ss_Account : string; ss_PhoneNumber : string; ss_Status : SessionStatus;
  ss_CurrentFlowID : option uuid; ss_CurrentStep : string; ss_StepRetries : Z; ss_SessionData : option amap;
  ss_LastActivityAt : instant; ss_CompletedAt : option instant }.
Definition with_status (x : SessionStatus) (s : Session) : Session :=
  MkChatSession (ss_ID s) (ss_Contact s) (ss_Account s) (ss_PhoneNumber s) x (ss_CurrentFlowID s) (ss_CurrentStep s) (ss_StepRetries s) (ss_SessionData s) (ss_LastActivityAt s) (ss_CompletedAt s).
Definition with_flow (x : option uuid) (s : Session) : Session :=
  MkChatSession (ss_ID s) (ss_Contact s) (ss_Account s) (ss_PhoneNumber s) (ss_Status s) x (ss_CurrentStep s) (ss_StepRetries s) (ss_SessionData s) (ss_LastActivityAt s) (ss_CompletedAt s).
Definition with_step (x : string) (s : Session) : Session :=
  MkChatSession (ss_ID s) (ss_Contact s) (ss_Account s) (ss_PhoneNumber s) (ss_Status s) (ss_CurrentFlowID s) x (ss_StepRetries s) (ss_SessionData s) (ss_LastActivityAt s) (ss_CompletedAt s).
Definition with_retries (x : Z) (s : Session) : Session :=
  MkChatSession (ss_ID s) (ss_Contact s) (ss_Account s) (ss_PhoneNumber s) (ss_Status s) (ss_CurrentFlowID s) (ss_CurrentStep s) x (ss_SessionData s) (ss_LastActivityAt s) (ss_CompletedAt s).
Definition with_data (x : option amap) (s : Session) : Session :=
  MkChatSession (ss_ID s) (ss_Contact s) (ss_Account s) (ss_PhoneNumber s) (ss_Status s) (ss_CurrentFlowID s) (ss_CurrentStep s) (ss_StepRetries s) x (ss_LastActivityAt s) (ss_CompletedAt s).
Definition with_times (last : instant) (completed : option instant) (s : Session) : Session :=
  MkChatSession (ss_ID s) (ss_Contact s) (ss_Account s) (ss_PhoneNumber s) (ss_Status s) (ss_CurrentFlowID s) (ss_CurrentStep s) (ss_StepRetries s) (ss_SessionData s) last completed.
(** [if s.SessionData == nil { s.SessionData = JSONB{} }; s.SessionData[k] = v]. *)
Definition set_var (k : string) (v : any) (s : Session) : Session := with_data (Some (map_set k v (default [] (ss_SessionData s)))) s.
Definition ensure_data (s : Session) : Session := with_data (Some (default [] (ss_SessionData s))) s.

(** The contact's columns the flows read besides those of the attendances. *)
Record ChatContact := MkChatContact {
  cc_Row : Contact; cc_ProfileName : string; cc_Type : string; cc_Unit : option uuid; cc_Department : option uuid; cc_Tags : list any }.
Definition with_tags (x : list any) (c : ChatContact) : ChatContact :=
  MkChatContact (cc_Row c) (cc_ProfileName c) (cc_Type c) (cc_Unit c) (cc_Department c) x.
Definition with_team (x : uuid) (c : ChatContact) : ChatContact :=
  MkChatContact (set_contact_team (Some x) (cc_Row c)) (cc_ProfileName c) (cc_Type c) (cc_Unit c) (cc_Department c) (cc_Tags c).

(** [chatNodeCtx]. *)
Record Ctx := MkCtx {
  cx_account : WhatsAppAccount; cx_contact : ChatContact; cx_session : Session;
  cx_userInput : string; cx_buttonID : string; cx_flowResponseData : amap; cx_consumed : bool }.
Definition set_session (s : Session) (c : Ctx) : Ctx :=
  MkCtx (cx_account c) (cx_contact c) s (cx_userInput c) (cx_buttonID c) (cx_flowResponseData c) (cx_consumed c).
Definition set_contact (x : ChatContact) (c : Ctx) : Ctx :=
  MkCtx (cx_account c) x (cx_session c) (cx_userInput c) (cx_buttonID c) (cx_flowResponseData c) (cx_consumed c).
Definition consume (c : Ctx) : Ctx :=
  MkCtx (cx_account c) (cx_contact c) (cx_session c) (cx_userInput c) (cx_buttonID c) (cx_flowResponseData c) true.
Definition on_session (f : Session -> Session) (c : Ctx) : Ctx := set_session (f (cx_session c)) c.

(** [nodeOutcome] and the errors of a run. *)
Record nodeOutcome := MkOutcome { no_outcome : string; no_yield : bool }.
Inductive run_error :=
  | ErrParse (e : parse_error) | ErrNoGraph | ErrNodeNotFound (id : string) | ErrRunaway
  | ErrSend | ErrNoButtons | ErrNoBody | ErrNodeType (t : string) | ErrSave
  | ErrGotoLoad | ErrGotoNoGraph | ErrGotoParse (e : parse_error).

(** ** What a run asks of the rest of the program

    Messages to the customer, with the origin the ledger records. *)
Inductive sender := FlowNode (flow : option uuid) (node detail : string) | AINode (flow : option uuid) (node detail : string) | Bot (detail : string) | AIReply (detail : string).
Inductive outgoing :=
  | OutText (content : string)
  | OutInteractive (type body : string) (buttons : list (string * string))
  | OutCTA (body text url : string)
  | OutFlow (flowID header body cta token screen : string).

Inductive chat_op : Type -> Type :=
  | CSend (by_ : sender) (contact : uuid) (m : outgoing) : chat_op bool
  | CLog (session : uuid) (text step : string) : chat_op unit
  | CSave (s : Session) : chat_op bool
  | CFlow (org id : uuid) : chat_op (option ChatbotFlow)
  | CHttp (method url body : string) (headers : list (string * string)) : chat_op (option (string * Z))
  | CSecret (org : uuid) : chat_op (option (string * string))
  | CAskAI (session : Session) (message : string) : chat_op (bool * option string)
  | CAIReady (org : uuid) (account : string) : chat_op bool
  | COrder (m : amap) : chat_op amap
  | CTeamCount (id org : uuid) (active : bool) : chat_op Z
  | CPlacementTeams (org unit_ department : uuid) : chat_op (option (list uuid))
  | CSetTeam (contact team : uuid) : chat_op bool
  | CSetTags (contact : uuid) (tags : list any) : chat_op bool
  | COpportunity (contact : uuid) : chat_op bool
  | CUnitName (id org : uuid) : chat_op (option string)
  | CDepartmentName (id org : uuid) : chat_op (option string)
  | CWhatsAppFlow (metaID : string) : chat_op (option (list any * option amap))
  | CWall : chat_op (wall)
  | CTime : chat_op instant
  | CUnixNano : chat_op Z
  | CHang : chat_op Empty_set
  | CPanic : chat_op Empty_set
  | CAtt {X : Type} (op : att_op X) : chat_op X.
Abbreviation Chat A := (prog chat_op A) (only parsing).
Definition att_prog {A} (p : prog att_op A) : Chat A := prog_lift (fun X op => CAtt op) p.

(** ** Reading a node's configuration *)
Definition cfg (n : Node) : amap := default [] (n_Config n).
Fixpoint stringFromConfig (c : amap) (keys : list string) : string :=
  match keys with
  | [] => ""
  | k :: rest => let v := any_str (map_get k c) in if String.eqb v "" then stringFromConfig c rest else v
  end.
Definition intFromConfig (c : amap) (key : string) (def : Z) : Z :=
  match map_get key c with AFloat f => f64_to_int f | AInt n => n | _ => def end.
Definition stringSliceFromConfig (c : amap) (key : string) : list string :=
  omap (fun e => match e with AStr s => if String.eqb (trim_space s) "" then None else Some s | _ => None end)
    (default [] (any_arr (map_get key c))).
Definition buttonsFromConfig (c : amap) : list amap := omap any_map (default [] (any_arr (map_get "buttons" c))).

(** [time.Parse("15:04", s)]: hour and minute. *)
Definition parse_15_04 (s : string) : option (Z * Z) :=
  let after_hour h rest :=
    match rest with
    | String c (String m1 (String m2 EmptyString)) =>
        if Ascii.eqb c ":" && is_digit m1 && is_digit m2 && (h <? 24) && (10 * digit_val m1 + digit_val m2 <? 60)
        then Some (h, 10 * digit_val m1 + digit_val m2) else None
    | _ => None
    end in
  match s with
  | String a rest =>
      if negb (is_digit a) then None
      else
        match rest with
        | String b rest' => if is_digit b then after_hour (10 * digit_val a + digit_val b) rest' else after_hour (digit_val a) rest
        | EmptyString => None
        end
  | EmptyString => None
  end.
Definition weekday_name (d : Z) : string :=
  nth (Z.to_nat d) ["sunday"; "monday"; "tuesday"; "wednesday"; "thursday"; "friday"; "saturday"] "".
Fixpoint evaluateTimingSchedule (now : wall) (schedule : list any) : string :=
  match schedule with
  | [] => "out_of_hours"
  | item :: rest =>
      match any_map item with
      | None => evaluateTimingSchedule now rest
      | Some entry =>
          if negb (String.eqb (lower_ascii (any_str (map_get "day" entry))) (weekday_name (wl_weekday now))) then evaluateTimingSchedule now rest
          else if negb (any_bool (map_get "enabled" entry)) then "out_of_hours"
          else
            match parse_15_04 (any_str (map_get "start_time" entry)), parse_15_04 (any_str (map_get "end_time" entry)) with
            | Some (h1, m1), Some (h2, m2) =>
                let nowMinutes := wl_hour now * 60 + wl_minute now in
                if (h1 * 60 + m1 <=? nowMinutes) && (nowMinutes <? h2 * 60 + m2) then "in_hours" else "out_of_hours"
            | _, _ => "out_of_hours"
            end
      end
  end.

(** [appendChatPath]. *)
Definition appendChatPath (s : Session) (n : Node) (outcome : string) : Session :=
  let entry := AMap [("node", AStr (n_ID n)); ("type", AStr (n_Type n)); ("label", AStr (n_Label n)); ("outcome", AStr outcome)] in
  let path := default [] (any_arr (map_get "__path__" (default [] (ss_SessionData s)))) in
  set_var "__path__" (AArr (path ++ [entry])) s.

(** * The executors

    [fuel] bounds the for loops of one template: a template still running then is one whose
    goroutine never comes back. [expr_run] is [expr.Compile] and [expr.Run] (None: an error),
    [regex] is [regexp.Compile] with [MatchString], [json_object] is [json.Unmarshal] into a
    [map[string]any], [uuid_parse] and [uuid_text] are package [uuid]'s. *)
Section Runner.
Context (ParseFloat : string -> option spec_float) (FormatFloat : spec_float -> string) (Sprint : any -> string) (fuel : nat).
Context (expr_run : string -> amap -> option any) (regex : string -> option (string -> bool)).
Context (json_object : string -> option (option amap)) (uuid_parse : string -> option uuid) (uuid_text : uuid -> string).
Context (assigner : bool).

Definition hang {A} : Chat A := Do CHang (fun e : Empty_set => match e with end).
Definition render (template : string) (data : option amap) : Chat string :=
  match processTemplate ParseFloat FormatFloat Sprint fuel template data with Some s => mret s | None => hang end.

Definition node_sender (c : Ctx) (n : Node) : sender := FlowNode (ss_CurrentFlowID (cx_session c)) (n_ID n) "".
Definition ai_sender (c : Ctx) (n : Node) : sender := AINode (ss_CurrentFlowID (cx_session c)) (n_ID n) "chatbot_flow_node".
Definition contact_of (c : Ctx) : uuid := c_ID (cc_Row (cx_contact c)).
Definition sendAndSaveTextMessage (by_ : sender) (contact : uuid) (text : string) : Chat bool := call (CSend by_ contact (OutText text)).
Definition logSessionMessage (c : Ctx) (text : string) (n : Node) : Chat unit := call (CLog (ss_ID (cx_session c)) text (n_ID n)).
Definition session_data (c : Ctx) : option amap := ss_SessionData (cx_session c).

(** [sendAndSaveInteractiveButtons]: [false] is the error. *)
Definition reply_button (i : nat) (btn : amap) : option (string * string) :=
  let id := any_str (map_get "id" btn) in
  let title := any_str (map_get "title" btn) in
  if String.eqb title "" then None else Some (if String.eqb id "" then "btn_" +:+ itoa (Z.of_nat i + 1) else id, title).
Definition cta_button (btn : amap) : option (option amap) :=
  let type := any_str (map_get "type" btn) in
  if String.eqb type "url" then Some (Some btn)
  else if String.eqb type "phone" then
    let phone := any_str (map_get "phone_number" btn) in
    Some (if String.eqb phone "" then None else Some [("title", map_get "title" btn); ("url", AStr ("tel:" +:+ phone))])
  else None.
Fixpoint send_cta (by_ : sender) (contact : uuid) (bodyText : string) (i : nat) (ctas : list amap) : Chat bool :=
  match ctas with
  | [] => mret true
  | b :: rest =>
      let title := any_str (map_get "title" b) in
      let url := any_str (map_get "url" b) in
      if String.eqb title "" || String.eqb url "" then send_cta by_ contact bodyText (S i) rest
      else
        ok ← call (CSend by_ contact (OutCTA (match i with O => bodyText | S _ => title end) title url));
        if (ok : bool) then send_cta by_ contact bodyText (S i) rest else mret false
  end.
Definition sendAndSaveInteractiveButtons (by_ : sender) (contact : uuid) (bodyText : string) (buttons : list amap) : Chat bool :=
  let replyButtons := List.filter (fun b => match cta_button b with None => true | Some _ => false end) buttons in
  let ctaButtons := if bool_decide (replyButtons = []) then omap (fun b => match cta_button b with Some (Some x) => Some x | _ => None end) buttons
                    else [] in
  let waButtons := omap id (imap reply_button (take 10 replyButtons)) in
  let type := if 3 <? Z.of_nat (length waButtons) then "list" else "button" in
  sent ← (if bool_decide (waButtons = []) then mret true else call (CSend by_ contact (OutInteractive type bodyText waButtons)));
  if negb (sent : bool) then mret false
  else
    ok ← send_cta by_ contact bodyText O (take 2 ctaButtons);
    if negb (ok : bool) then mret false
    else if bool_decide (replyButtons = []) && bool_decide (ctaButtons = []) then sendAndSaveTextMessage by_ contact bodyText
    else mret true.

Definition Exec := Node -> Ctx -> Chat (Ctx * result run_error nodeOutcome).
Definition advance (c : Ctx) (outcome : string) : Chat (Ctx * result run_error nodeOutcome) := mret (c, Ok (MkOutcome outcome false)).
Definition stay (c : Ctx) : Chat (Ctx * result run_error nodeOutcome) := mret (c, Ok (MkOutcome "" true)).
Definition fail (c : Ctx) (e : run_error) : Chat (Ctx * result run_error nodeOutcome) := mret (c, Err e).

(** A text message of a node, logged when it was sent; the node's error otherwise. *)
Definition say (n : Node) (c : Ctx) (text : string) (k : Chat (Ctx * result run_error nodeOutcome)) : Chat (Ctx * result run_error nodeOutcome) :=
  ok ← sendAndSaveTextMessage (node_sender c n) (contact_of c) text;
  if (ok : bool) then _ ← logSessionMessage c text n; k else fail c ErrSend.

Definition execChatMessage : Exec := fun n c =>
  let text := stringFromConfig (cfg n) ["message"; "text"] in
  if String.eqb text "" then advance c "default"
  else text ← render text (session_data c); say n c text (advance c "default").

(** The team and the opportunity of the button tapped. *)
Definition button_team (n : Node) (c : Ctx) (b : amap) : Chat Ctx :=
  let tid := any_str (map_get "team_id" b) in
  if String.eqb tid "" then mret c
  else
    match uuid_parse tid with
    | None => mret c
    | Some parsed =>
        count ← call (CTeamCount parsed (c_Org (cc_Row (cx_contact c))) false);
        if count =? 0 then mret c
        else ok ← call (CSetTeam (contact_of c) parsed); mret (if (ok : bool) then set_contact (with_team parsed (cx_contact c)) c else c)
    end.
Fixpoint tapped_button (id : string) (buttons : list amap) : option amap :=
  match buttons with
  | [] => None
  | b :: rest => if String.eqb (any_str (map_get "id" b)) id then Some b else tapped_button id rest
  end.
Definition take_button (n : Node) (c : Ctx) : Chat (Ctx * result run_error nodeOutcome) :=
  let c := consume c in
  let storeAs := stringFromConfig (cfg n) ["store_as"] in
  let value := first_nonempty (cx_userInput c) (cx_buttonID c) in
  let c := if String.eqb storeAs "" then c else on_session (set_var storeAs (AStr value)) c in
  c ← match tapped_button (cx_buttonID c) (buttonsFromConfig (cfg n)) with
      | None => mret c
      | Some b =>
          c ← button_team n c b;
          if any_bool (map_get "create_opportunity" b) then _ ← call (COpportunity (contact_of c)); mret c else mret c
      end;
  advance c ("button:" +:+ cx_buttonID c).

(** The user-facing fields of a button, rendered in place. *)
Fixpoint render_fields (keys : list string) (b : amap) (data : option amap) : Chat amap :=
  match keys with
  | [] => mret b
  | k :: rest =>
      let s := any_str (map_get k b) in
      if String.eqb s "" then render_fields rest b data
      else t ← render s data; render_fields rest (map_set k (AStr t) b) data
  end.
Fixpoint render_buttons (buttons : list amap) (data : option amap) : Chat (list amap) :=
  match buttons with
  | [] => mret []
  | b :: rest => b ← render_fields ["title"; "url"; "phone_number"] b data; bs ← render_buttons rest data; mret (b :: bs)
  end.
Definition execChatButtons : Exec := fun n c =>
  if negb (cx_consumed c) && negb (String.eqb (cx_buttonID c) "") then take_button n c
  else
    body ← render (first_nonempty (stringFromConfig (cfg n) ["body"; "message"; "text"]) (n_Label n)) (session_data c);
    match buttonsFromConfig (cfg n) with
    | [] => fail c ErrNoButtons
    | buttons =>
        buttons ← render_buttons buttons (session_data c);
        ok ← sendAndSaveInteractiveButtons (node_sender c n) (contact_of c) body buttons;
        if (ok : bool) then _ ← logSessionMessage c body n; stay c else fail c ErrSend
    end.

Definition handleChatPromptInvalid : Exec := fun n c =>
  let retries := ss_StepRetries (cx_session c) + 1 in
  let c := on_session (with_retries retries) c in
  if intFromConfig (cfg n) "max_retries" 3 <=? retries then advance (on_session (with_retries 0) c) "max_retries"
  else
    errorMsg ← render (first_nonempty (stringFromConfig (cfg n) ["validation_error"]) "Invalid input. Please try again.") (session_data c);
    say n c errorMsg (stay c).
Definition execChatPrompt : Exec := fun n c =>
  let body := stringFromConfig (cfg n) ["body"; "message"; "text"] in
  if String.eqb (cx_userInput c) "" || cx_consumed c then
    if String.eqb body "" then fail c ErrNoBody
    else rendered ← render body (session_data c); say n c rendered (stay c)
  else
    let c := consume c in
    let input := cx_userInput c in
    let validationRegex := stringFromConfig (cfg n) ["validation_regex"] in
    let invalid := if String.eqb validationRegex "" then false
                   else match regex validationRegex with None => false | Some matches => negb (matches input) end in
    if invalid then handleChatPromptInvalid n c
    else
      let storeAs := stringFromConfig (cfg n) ["store_as"] in
      let c := if String.eqb storeAs "" then c else on_session (set_var storeAs (AStr input)) c in
      advance (on_session (with_retries 0) c) "default".

(** ** Requests to other systems *)
Definition xprocessAPIKeyPlaceholder : string := "{{integrations.xprocess.api_key}}".
(** [None] is the error. *)
Definition resolveIntegrationSecrets (org : uuid) (config : amap) : Chat (option amap) :=
  match map_get "headers" config with
  | AMap headers =>
      if negb (existsb (fun e => str_contains xprocessAPIKeyPlaceholder (any_str (snd e))) headers) then mret (Some config)
      else
        integ ← call (CSecret org);
        mret match integ with
             | None => None
             | Some (baseURL, apiKey) =>
                 let rawURL := any_str (map_get "url" config) in
                 if negb (has_prefix (trim_right "/"%char baseURL +:+ "/") rawURL) then None
                 else
                   let resolve v := match v with AStr s => AStr (str_replace_all xprocessAPIKeyPlaceholder apiKey s) | _ => v end in
                   Some (map_set "headers" (AMap (map (fun e => (fst e, resolve (snd e))) headers)) config)
             end
  | _ => mret (Some config)
  end.

Fixpoint render_headers (headers : amap) (data : option amap) : Chat (list (string * string)) :=
  match headers with
  | [] => mret []
  | (key, AStr s) :: rest => v ← render s data; hs ← render_headers rest data; mret ((key, v) :: hs)
  | _ :: rest => render_headers rest data
  end.
(** The body and the status code; [None] is the error. *)
Definition executeConfiguredAPI (apiConfig : amap) (data : option amap) : Chat (option (string * Z)) :=
  let apiURL := any_str (map_get "url" apiConfig) in
  if String.eqb apiURL "" then mret None
  else
    apiURL ← render apiURL data;
    let method := upper_ascii (first_nonempty (any_str (map_get "method" apiConfig)) "GET") in
    let bodyTemplate := any_str (map_get "body" apiConfig) in
    body ← (if String.eqb bodyTemplate "" then mret "" else render bodyTemplate data);
    headers ← call (COrder (default [] (any_map (map_get "headers" apiConfig))));
    headers ← render_headers headers data;
    call (CHttp method apiURL body (("Content-Type", "application/json") :: ("Accept", "application/json") :: headers)).

(** [sessionData["phone_number"] = session.PhoneNumber]. *)
Definition seed_phone (c : Ctx) : Ctx := on_session (fun s => set_var "phone_number" (AStr (ss_PhoneNumber s)) s) c.
Definition success (statusCode : Z) : bool := negb ((statusCode <? 200) || (300 <=? statusCode)).
(** [response_mapping], applied to a body that is a JSON object; a path the engine cannot
    read ends the goroutine. *)
Definition map_response (n : Node) (respBody : string) (c : Ctx) : Chat Ctx :=
  match map_get "response_mapping" (cfg n) with
  | AMap ((_ :: _) as mapping) =>
      match json_object respBody with
      | None => mret c
      | Some jsonResp =>
          let mappingStrings := omap (fun e => match snd e with AStr path => Some (fst e, path) | _ => None end) mapping in
          match extractResponseMapping jsonResp mappingStrings with
          | None => Do CPanic (fun e : Empty_set => match e with end)
          | Some extracted => mret (on_session (fun s => with_data (Some (map_copy (default [] (ss_SessionData s)) extracted)) s) c)
          end
      end
  | _ => mret c
  end.
Definition execChatAPICall : Exec := fun n c =>
  resolved ← resolveIntegrationSecrets (acc_Org (cx_account c)) (cfg n);
  match resolved with
  | None => advance c "http:non2xx"
  | Some config =>
      let c := seed_phone c in
      answer ← executeConfiguredAPI config (session_data c);
      match answer with
      | None => advance c "http:non2xx"
      | Some (respBody, statusCode) =>
          if negb (success statusCode) then advance c "http:non2xx"
          else
            c ← map_response n respBody c;
            let tmpl := stringFromConfig (cfg n) ["message_template"] in
            if String.eqb tmpl "" then advance c "http:2xx"
            else
              rendered ← render tmpl (session_data c);
              if String.eqb rendered "" then advance c "http:2xx"
              else
                ok ← sendAndSaveTextMessage (node_sender c n) (contact_of c) rendered;
                if (ok : bool) then _ ← logSessionMessage c rendered n; advance c "http:2xx" else advance c "http:2xx"
      end
  end.
Definition execChatWebhook : Exec := fun n c =>
  let c := seed_phone c in
  _ ← executeConfiguredAPI (cfg n) (session_data c);
  advance c "default".

(** ** Branching and variables *)
Definition evaluateConditionExpression (expression : string) (data : option amap) : option bool :=
  out ← expr_run expression (default [] data);
  Some match out with
       | ABool b => b
       | ANil => false
       | AStr s => negb (String.eqb s "") && negb (String.eqb (lower_ascii s) "false")
       | AFloat f => negb (SFeqb f f64_zero)
       | AInt i => negb (i =? 0)
       | AArr _ | AMap _ => true
       end.
Definition execChatCondition : Exec := fun n c =>
  let expression := stringFromConfig (cfg n) ["expression"] in
  if String.eqb expression "" then advance c "false"
  else match evaluateConditionExpression expression (session_data c) with
       | Some true => advance c "true"
       | _ => advance c "false"
       end.
Definition execChatTiming : Exec := fun n c =>
  now ← call CWall; advance c (evaluateTimingSchedule now (default [] (any_arr (map_get "schedule" (cfg n))))).

(** The assignments, in the order [range] gives them. *)
Fixpoint assign_all (assignments : amap) (c : Ctx) : Chat Ctx :=
  match assignments with
  | [] => mret c
  | (name, raw) :: rest =>
      if String.eqb name "" then assign_all rest c
      else
        v ← match raw with AStr tmpl => s ← render tmpl (session_data c); mret (AStr s) | _ => mret raw end;
        assign_all rest (on_session (set_var name v) c)
  end.
Definition execChatSetVariable : Exec := fun n c =>
  match map_get "set" (cfg n) with
  | AMap ((_ :: _) as assignments) =>
      let c := on_session ensure_data c in
      ordered ← call (COrder assignments); c ← assign_all ordered c; advance c "default"
  | _ => advance c "default"
  end.

(** What an API context leaves in the session's variables ([fetchAPIContext]). *)
Definition context_vars (userMessage : string) (s : Session) : Session :=
  set_var "user_message" (AStr userMessage) (set_var "phone_number" (AStr (ss_PhoneNumber s)) s).
Definition execChatAIResponse : Exec := fun n c =>
  ready ← call (CAIReady (acc_Org (cx_account c)) (acc_Name (cx_account c)));
  if negb (ready : bool) then advance c "default"
  else
    let tmpl := stringFromConfig (cfg n) ["prompt_template"; "prompt"] in
    let c := if String.eqb tmpl "" then c else on_session ensure_data c in
    userMessage ← (if String.eqb tmpl "" then mret (cx_userInput c) else render tmpl (session_data c));
    '(touched, answer) ← call (CAskAI (cx_session c) userMessage);
    let c := if touched : bool then on_session (context_vars userMessage) c else c in
    match answer with
    | None => advance c "default"
    | Some answer =>
        if String.eqb answer "" then advance c "default"
        else
          ok ← sendAndSaveTextMessage (ai_sender c n) (contact_of c) answer;
          if (ok : bool) then _ ← logSessionMessage c answer n; advance c "default" else fail c ErrSend
    end.

(** ** Handing over to people *)
Definition merge_tags (old : list any) (tags : list string) : list string * bool :=
  let base := fold_left (fun seen t => match t with AStr s => if bool_decide (s ∈ seen) then seen else seen ++ [s] | _ => seen end) old [] in
  fold_left (fun acc t =>
    let t := trim_space t in
    if String.eqb t "" || bool_decide (t ∈ fst acc) then acc else (fst acc ++ [t], true)) tags (base, false).
Definition addContactTags (c : Ctx) (tags : list string) : Chat Ctx :=
  let '(merged, added) := merge_tags (cc_Tags (cx_contact c)) tags in
  if negb added then mret c
  else ok ← call (CSetTags (contact_of c) (map AStr merged)); mret (if (ok : bool) then set_contact (with_tags (map AStr merged) (cx_contact c)) c else c).

Definition flowTransferDestinationPlacement : string := "contact_placement".
Definition resolveContactPlacementTeam (c : ChatContact) : Chat (uuid * string) :=
  match cc_Unit c, cc_Department c with
  | Some u, Some d =>
      if negb (String.eqb (cc_Type c) "colaborador") then mret (nil_uuid, "no_contact_placement")
      else
        ids ← call (CPlacementTeams (c_Org (cc_Row c)) u d);
        mret match ids with
             | None | Some [] => (nil_uuid, "no_team_for_contact_placement")
             | Some [id] => (id, "contact_placement")
             | Some _ => (nil_uuid, "ambiguous_contact_placement")
             end
  | _, _ => mret (nil_uuid, "no_contact_placement")
  end.
Definition to_team (c : Ctx) (team : uuid) (notes reason : string) : Chat unit :=
  att_prog (createTransferToTeam assigner (cx_account c) (cc_Row (cx_contact c)) team notes SourceFlow reason).
Definition to_queue (c : Ctx) (reason : string) : Chat unit :=
  att_prog (createTransferToQueueRouted (cx_account c) (cc_Row (cx_contact c)) SourceFlow reason).
(** A configured team: neither empty nor the general queue. *)
Definition chosen_team (s : string) : option uuid :=
  if String.eqb s "" || String.eqb s "_general" then None else uuid_parse s.
Definition transferToFallback (n : Node) (c : Ctx) (notes reason : string) : Chat unit :=
  match chosen_team (stringFromConfig (cfg n) ["fallback_team_id"]) with
  | Some parsed =>
      count ← call (CTeamCount parsed (c_Org (cc_Row (cx_contact c))) true);
      if 0 <? count then to_team c parsed notes reason else to_queue c reason
  | None => to_queue c reason
  end.
Definition routeFlowTransfer (n : Node) (c : Ctx) (notes : string) : Chat unit :=
  if String.eqb (stringFromConfig (cfg n) ["destination"]) flowTransferDestinationPlacement then
    '(team, reason) ← resolveContactPlacementTeam (cx_contact c);
    if String.eqb reason "contact_placement" then to_team c team notes reason else transferToFallback n c notes reason
  else
    match chosen_team (stringFromConfig (cfg n) ["team_id"]) with
    | Some parsed => to_team c parsed notes "team_fixed"
    | None => to_queue c "team_fixed"
    end.
Definition execChatTransfer : Exec := fun n c =>
  let body := stringFromConfig (cfg n) ["body"; "message"; "text"] in
  _ ← (if String.eqb body "" then mret tt
       else message ← render body (session_data c);
            ok ← sendAndSaveTextMessage (node_sender c n) (contact_of c) message;
            if (ok : bool) then logSessionMessage c message n else mret tt);
  let rawNotes := stringFromConfig (cfg n) ["notes"] in
  notes ← (if String.eqb rawNotes "" then mret "" else render rawNotes (session_data c));
  let tags := stringSliceFromConfig (cfg n) "tags" in
  c ← (if bool_decide (tags = []) then mret c else addContactTags c tags);
  _ ← routeFlowTransfer n c notes;
  stay (on_session (with_status SessionCompleted) c).

(** ** Other flows and forms *)
Definition execChatGotoFlow : Exec := fun n c =>
  let target := stringFromConfig (cfg n) ["flow_id"] in
  if String.eqb target "" then advance c ""
  else
    match uuid_parse target with
    | None => advance c ""
    | Some targetID =>
        target ← call (CFlow (acc_Org (cx_account c)) targetID);
        match target with
        | None => advance c ""
        | Some target =>
            if negb (fl_IsEnabled target) then advance c ""
            else if negb (String.eqb (fl_Account target) (ss_Account (cx_session c))) then advance c ""
            else
              match fl_Graph target with
              | None => advance c ""
              | Some _ =>
                  let path := default [] (any_arr (map_get "__path__" (default [] (session_data c)))) in
                  let entry := AMap [("action", AStr "goto_flow"); ("flow", AStr (fl_Name target)); ("flow_id", AStr (uuid_text (fl_ID target)))] in
                  let c := on_session (set_var "__path__" (AArr (path ++ [entry]))) c in
                  advance (on_session (with_flow (Some (fl_ID target))) c) "goto"
              end
        end
    end.

Definition screen_id (screens : list any) : string :=
  match screens with AMap m :: _ => any_str (map_get "id" m) | _ => "" end.
Definition execChatWhatsAppFlow : Exec := fun n c =>
  if negb (cx_consumed c) && negb (bool_decide (length (cx_flowResponseData c) = O)) then
    let c := consume c in
    advance (on_session (fun s => with_data (Some (map_copy (default [] (ss_SessionData s)) (cx_flowResponseData c))) s) c) "default"
  else
    let flowID := stringFromConfig (cfg n) ["flow_id"] in
    if String.eqb flowID "" then advance c "default"
    else
      body ← render (stringFromConfig (cfg n) ["body"; "message"; "text"]) (session_data c);
      header ← render (stringFromConfig (cfg n) ["header"]) (session_data c);
      cta ← render (stringFromConfig (cfg n) ["cta"]) (session_data c);
      waFlow ← call (CWhatsAppFlow flowID);
      let firstScreen := match waFlow with
        | Some (screens, flowJSON) => first_nonempty (screen_id screens) (screen_id (default [] (any_arr (map_get "screens" (default [] flowJSON)))))
        | None => "" end in
      now ← call CUnixNano;
      let token := "chatbot_" +:+ uuid_text (ss_ID (cx_session c)) +:+ "_" +:+ n_ID n +:+ "_" +:+ itoa now in
      ok ← call (CSend (node_sender c n) (contact_of c) (OutFlow flowID header body cta token firstScreen));
      if (ok : bool) then _ ← logSessionMessage c body n; stay c else fail c ErrSend.

Definition execChatEnd : Exec := fun n c =>
  let msg := stringFromConfig (cfg n) ["message"] in
  if String.eqb msg "" then advance c ""
  else msg ← render msg (session_data c); say n c msg (advance c "").

Definition executeChatNode : Exec := fun n c =>
  let t := n_Type n in
  if String.eqb t "start" then advance c "default"
  else if String.eqb t "message" then execChatMessage n c
  else if String.eqb t "buttons" then execChatButtons n c
  else if String.eqb t "prompt" then execChatPrompt n c
  else if String.eqb t "api_call" then execChatAPICall n c
  else if String.eqb t "condition" then execChatCondition n c
  else if String.eqb t "timing" then execChatTiming n c
  else if String.eqb t "set_variable" then execChatSetVariable n c
  else if String.eqb t "ai_response" then execChatAIResponse n c
  else if String.eqb t "transfer" then execChatTransfer n c
  else if String.eqb t "webhook" then execChatWebhook n c
  else if String.eqb t "goto_flow" then execChatGotoFlow n c
  else if String.eqb t "whatsapp_flow" then execChatWhatsAppFlow n c
  else if String.eqb t "end" then execChatEnd n c
  else fail c (ErrNodeType t).

(** * The run *)

(** [persistChatSession]: the session as saved, and whether it was. *)
Definition persistChatSession (c : Ctx) : Chat (Ctx * bool) :=
  now ← call CTime;
  completed ← (let s := cx_session c in
               match ss_Status s, ss_CompletedAt s with
               | SessionCompleted, None => now ← call CTime; mret (Some now)
               | _, at_ => mret at_
               end);
  let c := on_session (with_times now completed) c in
  ok ← call (CSave (cx_session c)); mret (c, ok).
Definition finish (c : Ctx) : Chat (Ctx * result run_error unit) :=
  '(c, ok) ← persistChatSession c; mret (c, if (ok : bool) then Ok tt else Err ErrSave).
Definition abandon (c : Ctx) (e : run_error) : Chat (Ctx * result run_error unit) :=
  '(c, _) ← persistChatSession c; mret (c, Err e).

Definition skipped (n : Node) (c : Ctx) : bool :=
  let expr := stringFromConfig (cfg n) ["skip_condition"] in
  negb (String.eqb expr "") && default false (evaluateConditionExpression expr (session_data c)).

Definition maxChatGraphIterations : nat := 100.

(** The next node, or the end of the session. *)
Definition follow_edge (go_on : Ctx -> Chat (Ctx * result run_error unit)) (graph : Graph) (n : Node) (c : Ctx) (outcome : string) :
    Chat (Ctx * result run_error unit) :=
  let next := ResolveEdge graph (n_ID n) outcome in
  if String.eqb next "" then finish (on_session (with_status SessionCompleted) c) else go_on (on_session (with_step next) c).

(** [iterations] rounds are left; the flow and its graph change when a node jumps. *)
Fixpoint run_loop (iterations : nat) (flow : ChatbotFlow) (graph : Graph) (c : Ctx) : Chat (Ctx * result run_error unit) :=
  match iterations with
  | O => abandon c ErrRunaway
  | S iterations =>
      match graph_node graph (ss_CurrentStep (cx_session c)) with
      | None => mret (c, Err (ErrNodeNotFound (ss_CurrentStep (cx_session c))))
      | Some n =>
          let follow := follow_edge (run_loop iterations flow graph) graph n in
          if skipped n c then follow (on_session (fun s => appendChatPath s n "skipped") c) "default"
          else
            '(c, res) ← executeChatNode n c;
            match res with
            | Err e => abandon c e
            | Ok res =>
                let c := on_session (fun s => appendChatPath s n (no_outcome res)) c in
                if no_yield res then finish c
                else if bool_decide (ss_CurrentFlowID (cx_session c) <> None /\ ss_CurrentFlowID (cx_session c) <> Some (fl_ID flow)) then
                  newFlow ← call (CFlow (acc_Org (cx_account c)) (default nil_uuid (ss_CurrentFlowID (cx_session c))));
                  match newFlow with
                  | None => abandon c ErrGotoLoad
                  | Some newFlow =>
                      match fl_Graph newFlow with
                      | None => abandon c ErrGotoNoGraph
                      | Some raw =>
                          match parseChatGraph (Some raw) with
                          | Err e => abandon c (ErrGotoParse e)
                          | Ok None => abandon c ErrGotoNoGraph
                          | Ok (Some newGraph) => run_loop iterations newFlow newGraph (on_session (with_step (g_EntryNode newGraph)) c)
                          end
                      end
                  end
                else follow c (no_outcome res)
            end
      end
  end.

Definition seedContactRegistrationVars (c : Ctx) : Chat Ctx :=
  let contact := cx_contact c in
  let contactType := first_nonempty (cc_Type contact) "cliente" in
  let c := on_session (fun s => set_var "contact_department" (AStr "") (set_var "contact_unit" (AStr "") (set_var "contact_type" (AStr contactType) s))) c in
  if negb (String.eqb (cc_Type contact) "colaborador") then mret c
  else
    c ← match cc_Unit contact with
        | None => mret c
        | Some u => name ← call (CUnitName u (c_Org (cc_Row contact)));
                    mret match name with Some x => on_session (set_var "contact_unit" (AStr x)) c | None => c end
        end;
    match cc_Department contact with
    | None => mret c
    | Some d => name ← call (CDepartmentName d (c_Org (cc_Row contact)));
                mret match name with Some x => on_session (set_var "contact_department" (AStr x)) c | None => c end
    end.

Definition clear_trigger (c : Ctx) : Ctx :=
  MkCtx (cx_account c) (cx_contact c) (cx_session c) "" "" (cx_flowResponseData c) (cx_consumed c).
Definition runChatGraph (account : WhatsAppAccount) (contact : ChatContact) (session : Session) (flow : ChatbotFlow)
    (userInput buttonID : string) (flowResponseData : amap) : Chat (Ctx * result run_error unit) :=
  let c := MkCtx account contact session userInput buttonID flowResponseData false in
  match parseChatGraph (fl_Graph flow) with
  | Err e => mret (c, Err (ErrParse e))
  | Ok None => mret (c, Err ErrNoGraph)
  | Ok (Some graph) =>
      let c := on_session (fun s => set_var "contact_name" (AStr (cc_ProfileName contact)) (set_var "phone_number" (AStr (ss_PhoneNumber s)) s)) c in
      c ← seedContactRegistrationVars c;
      let c := if String.eqb (ss_CurrentStep (cx_session c)) "" then clear_trigger (on_session (with_step (g_EntryNode graph)) c) else c in
      run_loop maxChatGraphIterations flow graph c
  end.
End Runner.

(** * What a run does, whatever everything answers *)

(** Messages to the customer, by a node or by the transfer it makes. *)
Definition att_message {X} (op : att_op X) : bool := match op with AMessage _ _ _ _ => true | _ => false end.
Definition is_send {X} (op : chat_op X) : bool := match op with CSend _ _ _ => true | _ => false end.
Definition is_message {X} (op : chat_op X) : bool :=
  match op with CSend _ _ _ => true | CAtt op => att_message op | _ => false end.
Definition is_att {X} (op : chat_op X) : bool := match op with CAtt _ => true | _ => false end.
Fixpoint sends (g : list (event chat_op)) : Z :=
  match g with [] => 0 | Ev op _ :: g' => (if is_message op then 1 else 0) + sends g' end.
(** Nothing was handed over to people yet. *)
Definition quiet (g : list (event chat_op)) : Prop := forall X (op : chat_op X) x, Ev op x ∈ g -> is_att op = false.

Definition max_messages : Z := 101.
(** A message is only sent while fewer than the limit were, and a node only speaks before the
    conversation is handed over. *)
Definition run_pre X (op : chat_op X) (g : list (event chat_op)) : Prop :=
  (is_message op = true -> sends g < max_messages) /\ (is_send op = true -> quiet g).
(** The stored flows do not change during the run; a lookup may fail. *)
Definition answers (flows : uuid -> option ChatbotFlow) X (op : chat_op X) : X -> Prop :=
  match op in chat_op X return X -> Prop with
  | CFlow _ id => fun x => x = None \/ x = flows id
  | _ => fun _ => True
  end.

Lemma quiet_cons {X} (op : chat_op X) x g : is_att op = false -> quiet g -> quiet (Ev op x :: g).
Proof.
  intros Hop Hg Y op' x' [E | H]%elem_of_cons; [| by eapply Hg].
  apply (f_equal (fun e : event chat_op => match e with Ev o _ => is_att o end)) in E. simpl in E. by rewrite E.
Qed.
Lemma quiet_nil : quiet [].
Proof. by intros X op x H%elem_of_nil. Qed.
#[export] Hint Resolve quiet_cons quiet_nil : whatc.

(** A program of the attendances that sends at most [k] messages. *)
Fixpoint at_most (k : nat) {A} (p : prog att_op A) : Prop :=
  match p with
  | Ret _ => True
  | Do op f => if att_message op then match k with O => False | S k => forall x, at_most k (f x) end else forall x, at_most k (f x)
  end.
Definition silent X (op : att_op X) : Prop := att_message op = false.
Lemma at_most_bind k {A B} (p : prog att_op A) (f : A -> prog att_op B) :
  only silent p -> (forall a, at_most k (f a)) -> at_most k (p ≫= f).
Proof.
  intros Hp Hf. induction p as [a | X op q IH]; [apply Hf |]. destruct Hp as [Hop Hq].
  change (at_most k (Do op (fun x => q x ≫= f))). simpl. rewrite Hop. intros x. by apply IH.
Qed.
Lemma at_most_only k {A} (p : prog att_op A) : only silent p -> at_most k p.
Proof. induction p as [a | X op q IH]; [done |]. intros [Hop Hq]. simpl. rewrite Hop. intros x. by apply IH. Qed.

Lemma out_of_hours_at_most settings account c : at_most 1 (out_of_hours_message settings account c).
Proof. unfold out_of_hours_message. destruct settings; [| done]. by destruct (String.eqb _ ""). Qed.
Lemma saveAndFinalize_silent t account c settings b : only silent (saveAndFinalizeTransfer t account c settings b).
Proof.
  unfold saveAndFinalizeTransfer, with_deadlines, with_pickup, createTransferRow, auditNewTransfer, auditDistribution, recordOwnership,
    pin_contact, assignOpenSalesOpportunityToAgent. solve_only.
Qed.
Lemma outside_hours_silent settings : only silent (outside_hours settings).
Proof. unfold outside_hours. solve_only. Qed.
#[local] Hint Resolve saveAndFinalize_silent outside_hours_silent : whatc.

Lemma to_team_at_most assigner account c team notes source reason :
  at_most 1 (createTransferToTeam assigner account c team notes source reason).
Proof.
  unfold createTransferToTeam, hasActive. apply at_most_bind; [solve_only |]. intros []; [done |].
  apply at_most_bind; [solve_only |]. intros settings. apply at_most_bind; [solve_only |]. intros []; [apply out_of_hours_at_most |].
  apply at_most_only. solve_only.
Qed.
Lemma to_queue_at_most account c source reason : at_most 1 (createTransferToQueueRouted account c source reason).
Proof.
  unfold createTransferToQueueRouted, transferToQueue, hasActive. apply at_most_bind; [solve_only |].
  intros [[] | e]; try done. apply at_most_bind; [solve_only |]. intros settings. apply out_of_hours_at_most.
Qed.

Section Walk.
Context (flows : uuid -> option ChatbotFlow).
Abbreviation ext p g R := (extends run_pre (answers flows) p g R).

Lemma att_prog_walk k {A} (p : prog att_op A) g :
  at_most k p -> sends g + Z.of_nat k <= max_messages -> ext (att_prog p) g (fun _ g' => sends g' <= sends g + Z.of_nat k).
Proof.
  revert k g. induction p as [a | X op q IH]; intros k g Hp Hk; [apply extends_ret; lia |].
  assert (Hle : forall (j : nat) x, (Z.of_nat j + (if att_message op then 1 else 0) <= Z.of_nat k) -> at_most j (q x) ->
    ext (att_prog (q x)) (Ev (CAtt op) x :: g) (fun _ g' => sends g' <= sends g + Z.of_nat k)).
  { intros j x Hj Hq. eapply extends_mono; [| apply (IH x j); [done |]]; [intros a g' _ H | ]; simpl in *; destruct (att_message op); lia. }
  simpl in Hp. split.
  - split; [| done]. simpl. intros E. rewrite E in Hp. destruct k; [done | lia].
  - intros x g' [-> _]. assert (H : ext (att_prog (q x)) (Ev (CAtt op) x :: g) (fun _ g' => sends g' <= sends g + Z.of_nat k)).
    { destruct (att_message op) eqn:E; [destruct k as [| k]; [done |] |].
      - apply (Hle k); [rewrite ?E; lia | apply Hp].
      - apply (Hle k); [rewrite ?E; lia | apply Hp]. }
    eapply ensures_mono; [| exact H]. intros a g'' [H1 H2]. split; [| done]. etrans; [apply later_cons | exact H1].
Qed.

(** An operation that is neither a message nor part of a transfer. *)
Lemma plain_call {X B} (op : chat_op X) (f : X -> prog chat_op B) g R :
  is_message op = false -> is_att op = false ->
  (forall x, answers flows X op x -> ext (f x) (Ev op x :: g) R) -> ext (call op ≫= f) g R.
Proof.
  intros H1 H2 H3. apply extends_call; [| done]. split; [by rewrite H1 |]. intros H. exfalso. by destruct op.
Qed.
Lemma send_call {B} by_ c m (f : bool -> prog chat_op B) g R :
  sends g < max_messages -> quiet g -> (forall x, ext (f x) (Ev (CSend by_ c m) x :: g) R) -> ext (call (CSend by_ c m) ≫= f) g R.
Proof. intros H1 H2 H3. by apply extends_call; [split | intros x _]. Qed.

Context (ParseFloat : string -> option spec_float) (FormatFloat : spec_float -> string) (Sprint : any -> string) (fuel : nat).
Context (expr_run : string -> amap -> option any) (regex : string -> option (string -> bool)).
Context (json_object : string -> option (option amap)) (uuid_parse : string -> option uuid) (uuid_text : uuid -> string).
Context (assigner : bool).
Abbreviation render := (render ParseFloat FormatFloat Sprint fuel).

Lemma render_walk {B} tmpl data (k : string -> prog chat_op B) g R :
  (forall s, ext (k s) g R) -> ext (render tmpl data ≫= k) g R.
Proof.
  intros H. unfold FlowRunner.render. destruct (processTemplate _ _ _ _ _ _); [apply H |].
  split; [done | intros []].
Qed.

(** What a node leaves of the context it was given. *)
Definition kept (c c' : Ctx) : Prop :=
  ss_CurrentStep (cx_session c') = ss_CurrentStep (cx_session c) /\ ss_Status (cx_session c') = ss_Status (cx_session c) /\
  ss_CurrentFlowID (cx_session c') = ss_CurrentFlowID (cx_session c) /\ ss_Account (cx_session c') = ss_Account (cx_session c) /\
  ss_ID (cx_session c') = ss_ID (cx_session c) /\ cx_account c' = cx_account c.
#[local] Instance kept_preorder : PreOrder kept.
Proof. split; unfold kept; [done |]. intros x y z (? & ? & ? & ? & ? & ?) (? & ? & ? & ? & ? & ?). split_and!; by etrans. Qed.

Lemma render_fields_walk {B} keys b data (k : amap -> prog chat_op B) g R :
  (forall b', ext (k b') g R) -> ext (render_fields ParseFloat FormatFloat Sprint fuel keys b data ≫= k) g R.
Proof.
  intros H. revert b. induction keys as [| key keys IH]; intros b; [apply H |]. cbn [render_fields].
  destruct (String.eqb _ ""); [apply IH |]. apply extends_assoc, render_walk. intros s. apply IH.
Qed.
Lemma render_buttons_walk {B} bs data (k : list amap -> prog chat_op B) g R :
  (forall bs', ext (k bs') g R) -> ext (render_buttons ParseFloat FormatFloat Sprint fuel bs data ≫= k) g R.
Proof.
  revert k. induction bs as [| b bs IH]; intros k H; [apply H |]. cbn [render_buttons].
  apply extends_assoc, render_fields_walk. intros b'. apply extends_assoc, IH. intros bs'. apply H.
Qed.
Lemma render_headers_walk {B} hs data (k : list (string * string) -> prog chat_op B) g R :
  (forall hs', ext (k hs') g R) -> ext (render_headers ParseFloat FormatFloat Sprint fuel hs data ≫= k) g R.
Proof.
  revert k. induction hs as [| [key v] hs IH]; intros k H; [apply H |]. cbn [render_headers].
  destruct v; try (by apply IH). apply extends_assoc, render_walk. intros txt. apply extends_assoc, IH. intros hs'. apply H.
Qed.
Lemma assign_all_walk {B} l c (k : Ctx -> prog chat_op B) g R :
  (forall c', kept c c' -> ext (k c') g R) -> ext (assign_all ParseFloat FormatFloat Sprint fuel l c ≫= k) g R.
Proof.
  revert c. induction l as [| [name raw] l IH]; intros c H; [by apply H |]. cbn [assign_all].
  destruct (String.eqb name ""); [by apply IH |].
  assert (Hk : forall v c', kept (on_session (set_var name v) c) c' -> ext (k c') g R) by (intros v c' Hc; apply H; etrans; [| exact Hc]; done).
  apply extends_assoc. destruct raw; try (apply (IH (on_session (set_var name _) c)), Hk).
  apply extends_assoc, render_walk. intros txt. apply (IH (on_session (set_var name (AStr txt)) c)), Hk.
Qed.

Ltac count := cbn [sends is_message att_message] in *; unfold max_messages in *; lia.
(** One step through a program of the runner. *)
Ltac step_walk :=
  match goal with
  | |- ext (mret ?a ≫= ?f) _ _ => change (mret a ≫= f) with (f a); cbv beta
  | |- ext ((_ ≫= _) ≫= _) _ _ => apply extends_assoc
  | |- ext (FlowRunner.render _ _ _ _ _ _ ≫= _) _ _ => apply render_walk; intros ?
  | |- ext (render_buttons _ _ _ _ _ _ ≫= _) _ _ => apply render_buttons_walk; intros ?
  | |- ext (render_headers _ _ _ _ _ _ ≫= _) _ _ => apply render_headers_walk; intros ?
  | |- ext (assign_all _ _ _ _ _ _ ≫= _) _ _ => apply assign_all_walk; intros ? ?
  | |- ext (call (CSend _ _ _) ≫= _) _ _ => apply send_call; [count | auto with whatc | intros []]
  | |- ext (call (CLog _ _ _) ≫= _) _ _ => apply plain_call; [done | done | intros [] _]
  | |- ext (call _ ≫= _) _ _ => apply plain_call; [done | done | intros ? ?]
  | |- ext (if ?b then _ else _) _ _ => destruct b eqn:?
  | |- ext ((if ?b then _ else _) ≫= _) _ _ => destruct b eqn:?
  | |- ext (match ?x with _ => _ end) _ _ => destruct x eqn:?
  | |- ext ((match ?x with _ => _ end) ≫= _) _ _ => destruct x eqn:?
  end.
Ltac walk := repeat step_walk.

(** ** The helpers *)
Lemma api_walk {B} config data (k : option (string * Z) -> prog chat_op B) g R :
  quiet g -> (forall a g', sends g' = sends g -> quiet g' -> ext (k a) g' R) ->
  ext (executeConfiguredAPI ParseFloat FormatFloat Sprint fuel config data ≫= k) g R.
Proof.
  intros Hq H. unfold executeConfiguredAPI. walk; apply H; auto with whatc.
Qed.
Lemma secrets_walk {B} org config (k : option amap -> prog chat_op B) g R :
  quiet g -> (forall a g', sends g' = sends g -> quiet g' -> ext (k a) g' R) ->
  ext (resolveIntegrationSecrets org config ≫= k) g R.
Proof. intros Hq H. unfold resolveIntegrationSecrets. walk; apply H; auto with whatc. Qed.

Definition at_most_sends (k : Z) (g : list (event chat_op)) : bool -> list (event chat_op) -> Prop :=
  fun _ g' => sends g' <= sends g + k /\ quiet g'.
Lemma send_cta_walk by_ c body i ctas g :
  sends g + Z.of_nat (length ctas) <= max_messages -> quiet g ->
  ext (send_cta by_ c body i ctas) g (at_most_sends (Z.of_nat (length ctas)) g).
Proof.
  revert i g. induction ctas as [| b rest IH]; intros i g Hs Hq; cbn [send_cta length].
  { apply extends_ret. split; [lia | done]. }
  cbn [length] in Hs. destruct (_ || _).
  - eapply extends_mono; [| apply IH; [lia | done]]. intros a g' _ [H1 H2]. split; [lia | done].
  - apply send_call; [lia | done | intros []].
    + eapply extends_mono; [| apply IH; [count | auto with whatc]]. intros a g' _ [H1 H2]. split; [count | done].
    + apply extends_ret. split; [count | auto with whatc].
Qed.
Lemma buttons_walk by_ c body buttons g :
  sends g + 2 <= max_messages -> quiet g ->
  ext (sendAndSaveInteractiveButtons by_ c body buttons) g (at_most_sends 2 g).
Proof.
  intros Hs Hq. unfold sendAndSaveInteractiveButtons. set (replies := List.filter _ buttons).
  set (was := omap id _). set (ctas := if bool_decide _ then _ else _).
  assert (Hcta : forall g', sends g' + Z.of_nat (length (take 2 ctas)) <= sends g + 2 -> quiet g' -> (replies = [] -> g' = g) ->
    ext (ok ← send_cta by_ c body 0 (take 2 ctas);
         if negb ok then mret false else if bool_decide (replies = []) && bool_decide (ctas = []) then sendAndSaveTextMessage by_ c body else mret true)
      g' (at_most_sends 2 g)).
  { intros g' H1 H2 Hg. eapply extends_bind; [apply send_cta_walk; [lia | done] |]. intros ok g2 _ [H3 H4].
    destruct ok; simpl; [| apply extends_ret; split; [lia | done]].
    destruct (bool_decide (replies = []) && bool_decide (ctas = [])) eqn:E; [| apply extends_ret; split; [lia | done]].
    apply andb_true_iff in E as [Er Ec]. bool_hyps. rewrite (Hg Er), Ec in *. simpl in H3. unfold sendAndSaveTextMessage.
    apply extends_call_end; [split; [intros _; lia | done] |]. intros x _. split; [count | auto with whatc]. }
  assert (Hlen : (length (take 2 ctas) <= 2)%nat) by (rewrite length_take; lia).
  assert (Hwas : replies = [] -> was = []) by (unfold was; by intros ->).
  assert (Hne : replies <> [] -> ctas = []) by (unfold ctas; intros Er; by rewrite bool_decide_false).
  destruct (bool_decide (was = [])) eqn:Ew.
  - change (mret true ≫= ?f) with (f true). cbn [negb]. apply Hcta; [lia | done | done].
  - bool_hyps. assert (Er : replies <> []) by (intros Er; by apply Ew, Hwas).
    apply send_call; [unfold max_messages in *; lia | done | intros []]; cbn [negb].
    + apply (Hcta (Ev _ _ :: g)); [rewrite (Hne Er); simpl; count | auto with whatc | done].
    + apply extends_ret. split; [count | auto with whatc].
Qed.

(** ** What one node does *)
Definition blocking : list string := ["buttons"; "prompt"; "whatsapp_flow"].
(** The session was sent to another flow: an enabled one of the same WhatsApp account. *)
Definition jumped (c c' : Ctx) : Prop :=
  kept c (on_session (with_flow (ss_CurrentFlowID (cx_session c))) c') /\
  exists id f, ss_CurrentFlowID (cx_session c') = Some (fl_ID f) /\ flows id = Some f /\
    fl_IsEnabled f = true /\ fl_Account f = ss_Account (cx_session c).
(** It was handed over to people and ended. *)
Definition handed_over (c c' : Ctx) : Prop :=
  ss_Status (cx_session c') = SessionCompleted /\ kept c (on_session (with_status (ss_Status (cx_session c))) c').

Definition node_error (e : run_error) : Prop :=
  match e with ErrSend | ErrNoButtons | ErrNoBody | ErrNodeType _ => True | _ => False end.
Definition node_result (n : Node) (c : Ctx) (g : list (event chat_op)) (x : Ctx * result run_error nodeOutcome) (g' : list (event chat_op)) : Prop :=
  let '(c', r) := x in
  match r with
  | Ok (MkOutcome _ true) => sends g' <= sends g + 2 /\ ((n_Type n ∈ blocking /\ kept c c') \/ (n_Type n = "transfer" /\ handed_over c c'))
  | Ok (MkOutcome _ false) => sends g' <= sends g + 1 /\ quiet g' /\ (kept c c' \/ (n_Type n = "goto_flow" /\ jumped c c'))
  | Err e => sends g' <= sends g + 2 /\ node_error e
  end.

Ltac executor := unfold advance, stay, fail, say, logSessionMessage, sendAndSaveTextMessage.
(** The end of an executor that keeps the session where it is. *)
Ltac node_done :=
  apply extends_ret; unfold node_result; cbn [no_yield]; first
    [ split; [count | split; [solve [auto 10 with whatc] | left; first [assumption | done | repeat case_match; done]]]
    | split; [count | left; split; [match goal with H : n_Type _ = _ |- _ => rewrite H end; unfold blocking; set_solver | done]]
    | split; [count | done] ].

Section Executors.
Context (n : Node) (c : Ctx) (g : list (event chat_op)) (Hs : sends g + 2 <= max_messages) (Hq : quiet g).

Lemma message_spec : ext (execChatMessage ParseFloat FormatFloat Sprint fuel n c) g (node_result n c g).
Proof. unfold execChatMessage. executor. walk; node_done. Qed.
Lemma end_spec : ext (execChatEnd ParseFloat FormatFloat Sprint fuel n c) g (node_result n c g).
Proof. unfold execChatEnd. executor. walk; node_done. Qed.
Lemma condition_spec : ext (execChatCondition expr_run n c) g (node_result n c g).
Proof. unfold execChatCondition. executor. walk; node_done. Qed.
Lemma timing_spec : ext (execChatTiming n c) g (node_result n c g).
Proof. unfold execChatTiming. executor. walk; node_done. Qed.
Lemma set_variable_spec : ext (execChatSetVariable ParseFloat FormatFloat Sprint fuel n c) g (node_result n c g).
Proof. unfold execChatSetVariable. executor. walk; node_done. Qed.
Lemma ai_spec : ext (execChatAIResponse ParseFloat FormatFloat Sprint fuel n c) g (node_result n c g).
Proof. unfold execChatAIResponse. executor. walk; node_done. Qed.
Lemma webhook_spec : ext (execChatWebhook ParseFloat FormatFloat Sprint fuel n c) g (node_result n c g).
Proof.
  unfold execChatWebhook. executor. cbv zeta. apply api_walk; [done |]. intros a g' Hs' Hq'. node_done.
Qed.
Lemma prompt_spec : n_Type n = "prompt" -> ext (execChatPrompt ParseFloat FormatFloat Sprint fuel regex n c) g (node_result n c g).
Proof. intros Ht. unfold execChatPrompt, handleChatPromptInvalid. executor. cbv zeta. walk; node_done. Qed.
Lemma whatsapp_flow_spec : n_Type n = "whatsapp_flow" -> ext (execChatWhatsAppFlow ParseFloat FormatFloat Sprint fuel uuid_text n c) g (node_result n c g).
Proof. intros Ht. unfold execChatWhatsAppFlow. executor. cbv zeta. walk; node_done. Qed.

Lemma button_team_walk {B} c0 b (k : Ctx -> prog chat_op B) g0 R :
  quiet g0 -> (forall c' g', kept c0 c' -> sends g' = sends g0 -> quiet g' -> ext (k c') g' R) -> ext (button_team uuid_parse n c0 b ≫= k) g0 R.
Proof. intros Hq0 H. unfold button_team. cbv zeta. walk; apply H; auto with whatc; by repeat case_match. Qed.
Lemma take_button_spec : ext (take_button uuid_parse n c) g (node_result n c g).
Proof.
  unfold take_button. executor. cbv zeta. set (c1 := if String.eqb _ "" then consume c else _).
  assert (H1 : kept c c1) by (unfold c1; by case_match).
  destruct (tapped_button _ _) as [b |].
  - apply extends_assoc, button_team_walk; [done |]. intros c2 g2 H2 Hs2 Hq2.
    assert (kept c c2) by (by etrans). walk; node_done.
  - change (mret c1 ≫= ?f) with (f c1). cbv beta. node_done.
Qed.
Lemma buttons_spec : n_Type n = "buttons" -> ext (execChatButtons ParseFloat FormatFloat Sprint fuel uuid_parse n c) g (node_result n c g).
Proof.
  intros Ht. unfold execChatButtons. destruct (_ && _); [apply take_button_spec |]. executor. walk; [node_done |].
  eapply extends_bind; [apply buttons_walk; [lia | done] |]. intros ok g2 _ [H1 H2]. walk.
  - apply extends_ret. split; [count | left]. split; [rewrite Ht; unfold blocking; set_solver | done].
  - apply extends_ret. split; [count | done].
Qed.

Lemma map_response_walk {B} resp c0 (k : Ctx -> prog chat_op B) g0 R :
  (forall c', kept c0 c' -> ext (k c') g0 R) -> ext (map_response json_object n resp c0 ≫= k) g0 R.
Proof.
  intros H. unfold map_response. repeat case_match; try (by apply H). split; [done | intros []].
Qed.
Lemma api_call_spec : ext (execChatAPICall ParseFloat FormatFloat Sprint fuel json_object n c) g (node_result n c g).
Proof.
  unfold execChatAPICall. executor. apply secrets_walk; [done |]. intros [config |] g1 Hs1 Hq1; [| node_done].
  cbv zeta. apply api_walk; [done |]. intros [[body status] |] g2 Hs2 Hq2; [| node_done].
  destruct (negb _); [node_done |]. apply map_response_walk. intros c2 Hc2.
  assert (kept c c2) by (etrans; [| exact Hc2]; done). walk; node_done.
Qed.

Lemma goto_spec : n_Type n = "goto_flow" -> ext (execChatGotoFlow uuid_parse uuid_text n c) g (node_result n c g).
Proof.
  intros Ht. unfold execChatGotoFlow. executor. cbv zeta. walk; try node_done.
  match goal with H : answers _ _ _ _ |- _ => destruct H as [H | H]; [congruence |]; rename H into Hf end. bool_hyps.
  match goal with H : String.eqb _ _ = true |- _ => apply String.eqb_eq in H; rename H into Ha end.
  apply extends_ret. split; [count |]. split; [auto with whatc |]. right. split; [done |]. split; [done |].
  match type of Hf with Some ?f = flows ?id => exists id, f end. by split_and!.
Qed.

Lemma tags_walk {B} c0 tags (k : Ctx -> prog chat_op B) g0 R :
  quiet g0 -> (forall c' g', kept c0 c' -> sends g' = sends g0 -> quiet g' -> ext (k c') g' R) -> ext (addContactTags c0 tags ≫= k) g0 R.
Proof.
  intros Hq0 H. unfold addContactTags. destruct (merge_tags _ _) as [merged added]. walk; apply H; auto with whatc; by repeat case_match.
Qed.
Lemma route_spec c0 notes g0 : sends g0 + 1 <= max_messages -> ext (routeFlowTransfer uuid_parse assigner n c0 notes) g0 (fun _ g' => sends g' <= sends g0 + 1).
Proof.
  intros H0. unfold routeFlowTransfer, transferToFallback, resolveContactPlacementTeam, to_team, to_queue.
  assert (Ht : forall team notes reason g1, sends g1 = sends g0 ->
    ext (att_prog (createTransferToTeam assigner (cx_account c0) (cc_Row (cx_contact c0)) team notes SourceFlow reason)) g1 (fun _ g' => sends g' <= sends g0 + 1)).
  { intros team notes' reason g1 H1. eapply extends_mono; [| apply (att_prog_walk 1); [apply to_team_at_most | simpl; lia]].
    intros a g' _ H. simpl in H. lia. }
  assert (Hqu : forall reason g1, sends g1 = sends g0 ->
    ext (att_prog (createTransferToQueueRouted (cx_account c0) (cc_Row (cx_contact c0)) SourceFlow reason)) g1 (fun _ g' => sends g' <= sends g0 + 1)).
  { intros reason g1 H1. eapply extends_mono; [| apply (att_prog_walk 1); [apply to_queue_at_most | simpl; lia]].
    intros a g' _ H. simpl in H. lia. }
  walk; first [by apply Ht | by apply Hqu].
Qed.
Lemma transfer_spec : n_Type n = "transfer" -> ext (execChatTransfer ParseFloat FormatFloat Sprint fuel uuid_parse assigner n c) g (node_result n c g).
Proof.
  intros Ht. unfold execChatTransfer. executor. cbv zeta.
  assert (Htail : forall g0, sends g0 <= sends g + 1 -> quiet g0 ->
    ext (notes ← (if String.eqb (stringFromConfig (cfg n) ["notes"]) "" then mret "" else render (stringFromConfig (cfg n) ["notes"]) (session_data c));
         c ← (if bool_decide (stringSliceFromConfig (cfg n) "tags" = []) then mret c else addContactTags c (stringSliceFromConfig (cfg n) "tags"));
         _ ← routeFlowTransfer uuid_parse assigner n c notes;
         mret (on_session (with_status SessionCompleted) c, Ok (MkOutcome "" true))) g0 (node_result n c g)).
  { intros g0 Hs0 Hq0.
    assert (Hend : forall c' notes g1, kept c c' -> sends g1 = sends g0 ->
      ext (_ ← routeFlowTransfer uuid_parse assigner n c' notes; mret (on_session (with_status SessionCompleted) c', Ok (MkOutcome "" true))) g1 (node_result n c g)).
    { intros c' notes g1 Hk H1. eapply extends_bind; [apply route_spec; lia |]. intros [] g2 _ H2. apply extends_ret.
      split; [lia | right]. split; [done |]. split; [done |]; by destruct Hk as (? & ? & ? & ? & ? & ?); split_and!. }
    assert (Htags : forall notes, ext (c ← (if bool_decide (stringSliceFromConfig (cfg n) "tags" = []) then mret c else addContactTags c (stringSliceFromConfig (cfg n) "tags"));
         _ ← routeFlowTransfer uuid_parse assigner n c notes; mret (on_session (with_status SessionCompleted) c, Ok (MkOutcome "" true))) g0 (node_result n c g)).
    { intros notes. destruct (bool_decide _).
      - change (mret c ≫= ?f) with (f c). cbv beta. by apply Hend.
      - apply tags_walk; [done |]. intros c' g' Hk Hs' _. apply Hend; [done | lia]. }
    destruct (String.eqb (stringFromConfig _ _) "").
    - change (mret "" ≫= ?f) with (f ""). cbv beta. apply Htags.
    - apply render_walk. intros s. apply Htags. }
  destruct (String.eqb (stringFromConfig (cfg n) ["body"; "message"; "text"]) "").
  - change (mret tt ≫= ?f) with (f tt). cbv beta. apply Htail; [lia | done].
  - apply extends_assoc, render_walk. intros msg. apply extends_assoc, send_call; [lia | done |]. intros [].
    + apply plain_call; [done | done |]. intros [] _. apply Htail; [count | auto with whatc].
    + change (mret tt ≫= ?f) with (f tt). cbv beta. apply Htail; [count | auto with whatc].
Qed.

Lemma executeChatNode_spec :
  ext (executeChatNode ParseFloat FormatFloat Sprint fuel expr_run regex json_object uuid_parse uuid_text assigner n c) g (node_result n c g).
Proof.
  unfold executeChatNode. executor. cbv zeta.
  repeat match goal with |- ext (if String.eqb ?a ?b then _ else _) _ _ => destruct (String.eqb_spec a b) as [Ht | _] end.
  all: first [ by apply message_spec | by apply buttons_spec | by apply prompt_spec | by apply api_call_spec | by apply condition_spec
    | by apply timing_spec | by apply set_variable_spec | by apply ai_spec | by apply transfer_spec | by apply webhook_spec
    | by apply goto_spec | by apply whatsapp_flow_spec | by apply end_spec | node_done ].
Qed.
End Executors.

(** ** The whole run *)
Definition saved (c : Ctx) (ok : bool) (g : list (event chat_op)) : Prop := exists g0, g = Ev (CSave (cx_session c)) ok :: g0.
(** The session waits at a node of its flow that asks the customer something. *)
Definition at_question (start : ChatbotFlow) (c : Ctx) : Prop :=
  exists flow graph n, ss_CurrentFlowID (cx_session c) = Some (fl_ID flow) /\ (flow = start \/ flows (fl_ID flow) = Some flow) /\
    parseChatGraph (fl_Graph flow) = Ok (Some graph) /\ graph_node graph (ss_CurrentStep (cx_session c)) = Some n /\ n_Type n ∈ blocking.
Definition completed (c : Ctx) : Prop := ss_Status (cx_session c) = SessionCompleted /\ ss_CompletedAt (cx_session c) <> None.
(** The session points to a node the graph of its flow does not have. *)
Definition at_missing (start : ChatbotFlow) (c : Ctx) (id : string) : Prop :=
  exists flow graph, ss_CurrentFlowID (cx_session c) = Some (fl_ID flow) /\ (flow = start \/ flows (fl_ID flow) = Some flow) /\
    parseChatGraph (fl_Graph flow) = Ok (Some graph) /\ ss_CurrentStep (cx_session c) = id /\ graph_node graph id = None.
Definition run_result (start : ChatbotFlow) (x : Ctx * result run_error unit) (g : list (event chat_op)) : Prop :=
  let '(c, r) := x in
  match r with
  | Ok _ => saved c true g /\ (completed c \/ (ss_Status (cx_session c) = SessionActive /\ at_question start c))
  | Err (ErrParse e) => parseChatGraph (fl_Graph start) = Err e /\ g = []
  | Err ErrNoGraph => parseChatGraph (fl_Graph start) = Ok None /\ g = []
  | Err (ErrNodeNotFound id) => at_missing start c id
  | Err _ => exists ok, saved c ok g
  end.

Lemma persist_walk {B} c (k : Ctx * bool -> prog chat_op B) g R :
  quiet g \/ True ->
  (forall c' ok g', kept c c' -> (ss_Status (cx_session c') = SessionCompleted -> ss_CompletedAt (cx_session c') <> None) ->
     saved c' ok g' -> ext (k (c', ok)) g' R) -> ext (persistChatSession c ≫= k) g R.
Proof.
  intros _ H. unfold persistChatSession. apply extends_assoc, plain_call; [done | done |]. intros now _. cbv zeta.
  assert (Hend : forall at_ g0, (ss_Status (cx_session c) = SessionCompleted -> at_ <> None) ->
    ext ((ok ← call (CSave (cx_session (on_session (with_times now at_) c))); mret (on_session (with_times now at_) c, ok)) ≫= k) g0 R).
  { intros at_ g0 Hat. apply extends_assoc, plain_call; [done | done |]. intros ok _.
    change (mret ?a ≫= k) with (k a). apply H; [done | exact Hat | by eexists]. }
  destruct (ss_Status (cx_session c)) eqn:E1; [| destruct (ss_CompletedAt (cx_session c)) eqn:E2].
  - change (mret ?a ≫= ?f) with (f a). cbv beta. by apply (Hend (ss_CompletedAt (cx_session c))).
  - change (mret ?a ≫= ?f) with (f a). cbv beta. by apply Hend.
  - apply extends_assoc, extends_assoc, plain_call; [done | done |]. intros now2 _.
    change (mret ?a ≫= ?f) with (f a). cbv beta. by apply Hend.
Qed.

Lemma finish_completed c g start :
  ss_Status (cx_session c) = SessionCompleted -> ext (finish c) g (run_result start).
Proof.
  intros Hst. unfold finish. apply persist_walk; [by right |]. intros c' ok g' (_ & Hs & _) Hat Hsv. apply extends_ret.
  destruct ok; simpl; [| by exists false]. split; [done |]. left. split; [congruence | apply Hat; congruence].
Qed.
Lemma finish_question c g start :
  ss_Status (cx_session c) = SessionActive -> at_question start c -> ext (finish c) g (run_result start).
Proof.
  intros Hst Hq. unfold finish. apply persist_walk; [by right |]. intros c' ok g' (H1 & H2 & H3 & _) _ Hsv. apply extends_ret.
  destruct ok; simpl; [| by exists false]. split; [done |]. right. split; [congruence |].
  destruct Hq as (f & gr & n & ? & ? & ? & ? & ?). exists f, gr, n. split_and!; try done; congruence.
Qed.
Lemma abandon_spec c e g start :
  (forall e', e <> ErrParse e') -> e <> ErrNoGraph -> (forall id, e <> ErrNodeNotFound id) -> ext (abandon c e) g (run_result start).
Proof.
  intros H1 H2 H3. unfold abandon. apply persist_walk; [by right |]. intros c' ok g' _ _ Hsv. apply extends_ret.
  unfold run_result. destruct e; try (by exists ok); exfalso; [by eapply H1 | done | by eapply H3].
Qed.

Context (flows_id : forall id f, flows id = Some f -> fl_ID f = id).

Lemma run_loop_spec k start flow graph c g :
  parseChatGraph (fl_Graph flow) = Ok (Some graph) -> ss_CurrentFlowID (cx_session c) = Some (fl_ID flow) ->
  (flow = start \/ flows (fl_ID flow) = Some flow) -> ss_Status (cx_session c) = SessionActive ->
  quiet g -> sends g + Z.of_nat k + 1 <= max_messages ->
  ext (run_loop ParseFloat FormatFloat Sprint fuel expr_run regex json_object uuid_parse uuid_text assigner k flow graph c) g (run_result start).
Proof.
  revert flow graph c g. induction k as [| k IH]; intros flow graph c g Hparse Hflow Hfrom Hst Hq Hs; cbn [run_loop].
  { by apply abandon_spec. }
  destruct (graph_node graph _) as [n |] eqn:En; [| apply extends_ret; by exists flow, graph].
  cbv zeta. set (follow := follow_edge _ graph n).
  assert (Hfollow : forall c' outcome g', kept c c' -> sends g' <= sends g + 1 -> quiet g' -> ext (follow c' outcome) g' (run_result start)).
  { intros c' outcome g' (H1 & H2 & H3 & _) Hs' Hq'. unfold follow, follow_edge. cbv zeta. destruct (String.eqb _ ""); [by apply finish_completed |].
    apply IH; try done; cbn; [congruence | congruence | lia]. }
  destruct (skipped expr_run n c).
  { apply Hfollow; [done | lia | done]. }
  eapply extends_bind; [apply executeChatNode_spec; [lia | done] |].
  intros [c' [[outcome yield] | e]] g' _ Hn; [| destruct Hn as [_ Hn]; apply abandon_spec; by destruct e].
  cbn [no_outcome no_yield]. destruct yield.
  - destruct Hn as [Hs' [[Ht (H1 & H2 & H3 & _)] | [_ [Hdone _]]]]; [| by apply finish_completed].
    apply finish_question; [cbn; congruence |]. exists flow, graph, n.
    split_and!; [etrans; [exact H3 | exact Hflow] | done | done | by etrans; [| exact En]; f_equal | done].
  - destruct Hn as [Hs' [Hq' [Hk | [_ [Hk (id & f & Hf1 & Hf2 & _)]]]]].
    + rewrite bool_decide_eq_false_2; [by apply Hfollow |]. destruct Hk as (_ & _ & H3 & _). intros [_ H]. apply H. etrans; [exact H3 | exact Hflow].
    + pose proof (flows_id _ _ Hf2) as Hid. destruct (bool_decide _) eqn:Eb.
      * apply plain_call; [done | done |]. intros newFlow Hans. cbn in Hans. rewrite Hf1 in Hans. cbn in Hans. rewrite Hid, Hf2 in Hans.
        destruct newFlow as [nf |]; [| by apply abandon_spec]. destruct Hans as [Hans | [= ->]]; [done |].
        destruct (fl_Graph f) as [raw |] eqn:Eg; [| by apply abandon_spec].
        destruct (parseChatGraph (Some raw)) as [[ng |] | e] eqn:Ep; try (by apply abandon_spec).
        destruct Hk as (_ & Hk2 & _). cbn in Hk2.
        apply IH; cbn; [by rewrite Eg | done | right; by rewrite Hid | congruence | auto with whatc | cbn; lia].
      * apply bool_decide_eq_false in Eb. cbn in Eb. rewrite Hf1 in Eb.
        assert (Hff : fl_ID f = fl_ID flow) by (destruct (decide (fl_ID f = fl_ID flow)); [done |]; exfalso; apply Eb; split; [done | congruence]).
        unfold follow, follow_edge. cbv zeta. destruct Hk as (_ & Hk2 & _). cbn in Hk2. destruct (String.eqb _ ""); [by apply finish_completed |].
        apply IH; try done; cbn; [congruence | congruence | lia].
Qed.

Lemma seed_walk {B} c (k : Ctx -> prog chat_op B) g R :
  quiet g -> (forall c' g', kept c c' -> sends g' = sends g -> quiet g' -> ext (k c') g' R) -> ext (seedContactRegistrationVars c ≫= k) g R.
Proof.
  intros Hq H. unfold seedContactRegistrationVars. cbv zeta. walk; apply H; auto with whatc; by repeat case_match.
Qed.

Abbreviation runChatGraph := (runChatGraph ParseFloat FormatFloat Sprint fuel expr_run regex json_object uuid_parse uuid_text assigner).
Lemma runChatGraph_spec account contact session flow userInput buttonID response :
  ss_CurrentFlowID session = Some (fl_ID flow) -> ss_Status session = SessionActive ->
  ext (runChatGraph account contact session flow userInput buttonID response) [] (run_result flow).
Proof.
  intros Hflow Hst. unfold FlowRunner.runChatGraph. cbv zeta.
  destruct (parseChatGraph _) as [[graph |] | e] eqn:Ep; [| by apply extends_ret..].
  apply seed_walk; [apply quiet_nil |]. intros c' g' (H1 & H2 & H3 & _) Hs Hq.
  apply run_loop_spec; [done | | by left | | done | rewrite Hs; done]; case_match; cbn; by etrans.
Qed.

(** One inbound message makes a flow send at most 101 messages to the customer, and
    once a node has begun handing the conversation over to people the flow sends nothing
    more, whatever the nodes, the other systems and the customer answer. *)
Theorem inbound_messages_bounded account contact session flow userInput buttonID response :
  ss_CurrentFlowID session = Some (fl_ID flow) -> ss_Status session = SessionActive ->
  ensures run_pre (trace_contract (answers flows)) (runChatGraph account contact session flow userInput buttonID response) [] (fun _ _ => True).
Proof. intros H1 H2. eapply ensures_mono; [| by apply runChatGraph_spec]. done. Qed.

(** C17: a run that reports no error has saved the session it leaves, which either ended,
    with the time it did, or waits, in the flow it is now in, at a node of that flow's graph that
    asks the customer something. A run that reports an error has tried to save the session, except
    when nothing was done because the flow's graph does not parse or is none, and when the session
    came, at the start or by an edge, to a node that the graph of its flow does not have. *)
Theorem run_leaves_resumable_session account contact session flow userInput buttonID response :
  ss_CurrentFlowID session = Some (fl_ID flow) -> ss_Status session = SessionActive ->
  ensures (fun _ _ _ => True) (trace_contract (answers flows)) (runChatGraph account contact session flow userInput buttonID response) []
    (run_result flow).
Proof.
  intros H1 H2. eapply (extends_pre run_pre); [done |]. eapply ensures_mono; [| by apply runChatGraph_spec]. by intros x g [_ H].
Qed.
End Walk.

(** ** A flow, run *)
Definition ex_node (id type : string) (config : amap) : any :=
  AMap [("id", AStr id); ("type", AStr type); ("label", AStr id); ("position", AMap []); ("config", AMap config)].
Definition ex_graph : amap :=
  [("version", AInt 2); ("entry_node", AStr "start");
   ("nodes", AArr [ex_node "start" "start" []; ex_node "ask" "prompt" [("body", AStr "CPF?"); ("store_as", AStr "cpf"); ("validation_regex", AStr "digits"); ("max_retries", AInt 2)];
                   ex_node "say" "message" [("message", AStr "CPF {{cpf}}, {{contact_name}}")]; ex_node "bye" "end" []]);
   ("edges", AArr [edge_json "start" "ask" "default"; edge_json "ask" "say" "default"; edge_json "say" "bye" "default"])].
Definition ex_flow : ChatbotFlow := MkFlow 7 "cadastro" "main" true [] (Some ex_graph).
Definition ex_flows (id : uuid) : option ChatbotFlow := if N.eqb id 7 then Some ex_flow else None.
Definition ex_session (step : string) (retries : Z) : Session := MkChatSession 5 3 "main" "5511" SessionActive (Some 7%N) step retries None 0 None.
Definition ex_chat_contact : ChatContact := MkChatContact ex_contact "Ana" "cliente" None None [].

(** Everything answers: what was sent is collected. *)
Definition ex_handle {X} (op : chat_op X) (out : list outgoing) : option (X * list outgoing) :=
  match op in chat_op X return option (X * list outgoing) with
  | CSend _ _ m => Some (true, out ++ [m])
  | CLog _ _ _ => Some (tt, out)
  | CSave _ => Some (true, out)
  | CFlow _ id => Some (ex_flows id, out)
  | CHttp _ _ _ _ => Some (None, out)
  | CSecret _ => Some (None, out)
  | CAskAI _ _ => Some ((false, None), out)
  | CAIReady _ _ => Some (false, out)
  | COrder m => Some (m, out)
  | CTeamCount _ _ _ => Some (0, out)
  | CPlacementTeams _ _ _ => Some (None, out)
  | CSetTeam _ _ => Some (true, out)
  | CSetTags _ _ => Some (true, out)
  | COpportunity _ => Some (true, out)
  | CUnitName _ _ => Some (None, out)
  | CDepartmentName _ _ => Some (None, out)
  | CWhatsAppFlow _ => Some (None, out)
  | CWall => Some (Wall 1 10 0, out)
  | CTime => Some (77, out)
  | CUnixNano => Some (77, out)
  | CHang | CPanic => None
  | CAtt _ => None
  end.
Fixpoint ex_eval {A} (p : prog chat_op A) (out : list outgoing) : option (A * list outgoing) :=
  match p with
  | Ret a => Some (a, out)
  | Do op k => '(x, out) ← ex_handle op out; ex_eval (k x) out
  end.
Definition ex_regex (r : string) : option (string -> bool) := Some (fun s => str_forallb is_digit s).
Abbreviation ex_run := (runChatGraph ex_f0 (fun _ => "?") (fun _ => "?") 5%nat (fun _ _ => None) ex_regex (fun _ => None) (fun _ => None) (fun _ => "id") false (MkAcc 9 "main") ex_chat_contact).
Definition ex_summary (r : option ((Ctx * result run_error unit) * list outgoing)) :=
  (fun x => (ss_CurrentStep (cx_session (fst (fst x))), ss_Status (cx_session (fst (fst x))), ss_StepRetries (cx_session (fst (fst x))), snd x)) <$> r.
Example run_1 : ex_summary (ex_eval (ex_run (ex_session "" 0) ex_flow "oi" "" []) []) = Some ("ask", SessionActive, 0, [OutText "CPF?"]).
Proof. vm_compute. reflexivity. Qed.
Example run_2 : ex_summary (ex_eval (ex_run (ex_session "ask" 0) ex_flow "123" "" []) []) = Some ("bye", SessionCompleted, 0, [OutText "CPF 123, Ana"]).
Proof. vm_compute. reflexivity. Qed.
Example run_3 : ex_summary (ex_eval (ex_run (ex_session "ask" 0) ex_flow "abc" "" []) []) = Some ("ask", SessionActive, 1, [OutText "Invalid input. Please try again."]).
Proof. vm_compute. reflexivity. Qed.
(** The last invalid reply advances like a valid one: the default edge also serves "max_retries". *)
Example run_4 : ex_summary (ex_eval (ex_run (ex_session "ask" 1) ex_flow "abc" "" []) []) = Some ("bye", SessionCompleted, 0, [OutText "CPF , Ana"]).
Proof. vm_compute. reflexivity. Qed.

(** An edge to a node that is not there: the customer was sent the first message, the run
    fails, and the session is not saved. *)
Definition ex_dangling : amap :=
  [("version", AInt 2); ("entry_node", AStr "say");
   ("nodes", AArr [ex_node "say" "message" [("message", AStr "Ola")]]); ("edges", AArr [edge_json "say" "gone" "default"])].
Definition ex_dangling_flow : ChatbotFlow := MkFlow 7 "cadastro" "main" true [] (Some ex_dangling).
(** The same, of a run that never saves. *)
Fixpoint unsaved {A} (p : prog chat_op A) : option A :=
  match p with
  | Ret a => Some a
  | Do op k => if match op with CSave _ => true | _ => false end then None else '(x, _) ← ex_handle op []; unsaved (k x)
  end.
Example dangling_edge_not_saved :
  snd <$> unsaved (ex_run (ex_session "" 0) ex_dangling_flow "oi" "" []) = Some (Err (ErrNodeNotFound "gone")) /\
  snd <$> ex_eval (ex_run (ex_session "" 0) ex_dangling_flow "oi" "" []) [] = Some [OutText "Ola"].
Proof. split; vm_compute; reflexivity. Qed.

Lemma ex_flows_id id f : ex_flows id = Some f -> fl_ID f = id.
Proof. unfold ex_flows. destruct (N.eqb_spec id 7) as [-> |]; [by intros [= <-] | done]. Qed.
Lemma inbound_messages_bounded_witness :
  ss_Status (ex_session "ask" 1) = SessionActive /\
  ensures run_pre (trace_contract (answers ex_flows)) (ex_run (ex_session "ask" 1) ex_flow "abc" "" []) [] (fun _ _ => True).
Proof. split; [reflexivity | apply (inbound_messages_bounded ex_flows); [apply ex_flows_id | reflexivity..]]. Defined.
Lemma run_leaves_resumable_session_witness :
  ss_CurrentFlowID (ex_session "" 0) = Some 7%N /\
  ensures (fun _ _ _ => True) (trace_contract (answers ex_flows)) (ex_run (ex_session "" 0) ex_flow "oi" "" []) [] (run_result ex_flows ex_flow).
Proof. split; [reflexivity | apply run_leaves_resumable_session; [apply ex_flows_id | reflexivity..]]. Defined.
