(* ===== verification/ChatProcessor.v ===== *)
(** The processor of inbound messages ([internal/handlers/chatbot_processor.go]): what a message
    of a customer is, how it is saved, and which part of the program answers it: people, a
    flow, a keyword rule, the AI, or a fixed text. *)
From S2P Require Import Prelude GoText Effects Confirmer GoAny BusinessHours Template FlowGraph Attendance Distribution FlowRunner.
From Stdlib Require Import Ascii SpecFloat.

(** * The message *)
Record MediaRef := MkMediaRef { md_ID : string; md_MimeType : string; md_Caption : string; md_Filename : string }.
Record Interactive := MkInteractive {
  in_ButtonReply : option (string * string); in_ListReply : option (string * string); in_NFMReply : option (string * string) }.
Record Location := MkLocation { lo_Latitude : spec_float; lo_Longitude : spec_float; lo_Name : string; lo_Address : string }.
(** Replies are (id, title), the form reply is (body, JSON), the button is (text, payload), a
    reaction is (message, emoji), a shared contact is its name and phones. *)
Record IncomingTextMessage := MkIncoming {
  im_From : string; im_FromUserID : string; im_ID : string; im_Type : string; im_Text : option string;
  im_Interactive : option Interactive; im_Image : option MediaRef; im_Document : option MediaRef; im_Audio : option MediaRef;
  im_Video : option MediaRef; im_Sticker : option MediaRef; im_ContextID : option string; im_Reaction : option (string * string);
  im_Location : option Location; im_Button : option (string * string); im_Contacts : list (string * list string) }.

Record MediaInfo := MkMediaInfo { mi_URL : string; mi_MimeType : string; mi_Filename : string }.
Record ExtractedMessage := MkExtracted {
  ex_Text : string; ex_Type : string; ex_Media : option MediaInfo; ex_ButtonID : string; ex_FlowResponseData : amap }.

Definition chatbotInput (messageText buttonID : string) (media : option MediaInfo) : string * bool :=
  let mediaURL := match media with Some m => mi_URL m | None => "" end in
  (first_nonempty messageText mediaURL,
   negb (String.eqb messageText "") || negb (String.eqb buttonID "") || negb (String.eqb mediaURL "")).

(** The last message of the contact, as the list of conversations shows it. *)
Definition message_preview (msgType content : string) : string :=
  if bool_decide (msgType ∈ ["text"; "button_reply"; "nfm_reply"]) then
    if 100 <? str_len content then str_take 97 content +:+ "..." else content
  else "[" +:+ msgType +:+ "]".

(** * Rules and settings *)
Record KeywordRule := MkRule { kr_Keywords : list string; kr_MatchType : string; kr_CaseSensitive : bool; kr_ResponseType : string; kr_ResponseContent : amap }.
Record KeywordResponse := MkKeywordResponse { kw_Body : string; kw_Buttons : list amap; kw_ResponseType : string }.
Record AISettings := MkAISettings { ai_Enabled : bool; ai_Provider : string; ai_APIKey : string; ai_SystemPrompt : string; ai_IncludeHistory : bool; ai_HistoryLimit : Z }.
Record Settings := MkSettings {
  cb_Org : uuid; cb_IsEnabled : bool; cb_DefaultResponse : string; cb_GreetingButtons : list any; cb_FallbackMessage : string; cb_FallbackButtons : list any;
  cb_SessionTimeoutMins : Z; cb_Hours : BusinessHoursConfig; cb_AllowAutomatedOutside : bool; cb_AI : AISettings }.
Record AIContext := MkAIContext { cx_Name : string; cx_ContextType : string; cx_StaticContent : string; cx_ApiConfig : option amap }.
Record IncomingRow := MkIncomingRow {
  ir_ID : uuid; ir_Org : uuid; ir_Account : string; ir_Contact : uuid; ir_WAMID : string; ir_Type : string; ir_Content : string;
  ir_Media : option MediaInfo; ir_ReplyTo : option uuid }.
Record aiReply := MkAIReply { ar_Text : string; ar_Buttons : list amap }.

Section Rules.
Context (to_lower : string -> string) (regex : string -> option (string -> bool)).

Definition keyword_matches (rule : KeywordRule) (messageText keyword : string) : bool :=
  let messageLower := to_lower messageText in
  let keywordLower := to_lower keyword in
  if String.eqb (kr_MatchType rule) "exact" then
    if kr_CaseSensitive rule then String.eqb messageText keyword else String.eqb messageLower keywordLower
  else if String.eqb (kr_MatchType rule) "contains" then
    if kr_CaseSensitive rule then str_contains keyword messageText else str_contains keywordLower messageLower
  else if String.eqb (kr_MatchType rule) "starts_with" then
    if kr_CaseSensitive rule then has_prefix keyword messageText else has_prefix keywordLower messageLower
  else if String.eqb (kr_MatchType rule) "regex" then
    match regex keyword with Some matches => matches messageText | None => false end
  else str_contains keywordLower messageLower.

(** What a matching keyword of the rule answers; [None]: the search goes on. *)
Definition rule_response (rule : KeywordRule) : option KeywordResponse :=
  let body := any_str (map_get "body" (kr_ResponseContent rule)) in
  if String.eqb (kr_ResponseType rule) "transfer" then Some (MkKeywordResponse body [] (kr_ResponseType rule))
  else if String.eqb body "" then None
  else Some (MkKeywordResponse body (buttonsFromConfig (kr_ResponseContent rule)) (kr_ResponseType rule)).
Fixpoint match_keywords (rule : KeywordRule) (messageText : string) (keywords : list string) : option KeywordResponse :=
  match keywords with
  | [] => None
  | keyword :: rest =>
      if keyword_matches rule messageText keyword then
        match rule_response rule with Some r => Some r | None => match_keywords rule messageText rest end
      else match_keywords rule messageText rest
  end.
Fixpoint match_rules (rules : list KeywordRule) (messageText : string) : option KeywordResponse :=
  match rules with
  | [] => None
  | rule :: rest => match match_keywords rule messageText (kr_Keywords rule) with Some r => Some r | None => match_rules rest messageText end
  end.

(** The first flow with a keyword in the message. *)
Definition triggers (messageText : string) (flow : ChatbotFlow) : bool :=
  existsb (fun keyword => str_contains (to_lower keyword) (to_lower messageText)) (fl_TriggerKeywords flow).
Definition match_flow (flows : list ChatbotFlow) (messageText : string) : option ChatbotFlow := List.find (triggers messageText) flows.
End Rules.

(** * What the processor asks of the rest of the program *)
Inductive proc_op : Type -> Type :=
  | PAccount (phoneNumberID : string) : proc_op (option WhatsAppAccount)
  | PContact (org : uuid) (from profileName : string) : proc_op (option (ChatContact * bool))
  | PBsuid (contact : uuid) : proc_op string
  | PSetBsuid (contact : uuid) (bsuid : string) : proc_op unit
  | PContactCreated (contact : uuid) : proc_op unit
  | PDownload (mediaID mime : string) : proc_op (option string)
  | PByWAMID (wamid : string) : proc_op (option (uuid * option amap))
  | PBySuffix (suffix : string) : proc_op (option (uuid * option amap))
  | PSetReactions (message : uuid) (metadata : amap) : proc_op bool
  | PReactionUpdate (org message contact : uuid) : proc_op unit
  | PCreateMessage (row : IncomingRow) : proc_op bool
  | PUsage (message : uuid) : proc_op unit
  | PMarkRead (message : uuid) : proc_op unit
  | PInbound (contact : uuid) (at_ : instant) (preview account : string) : proc_op unit
  | PAnnounce (message : uuid) : proc_op unit
  | PTapReady : proc_op bool
  | PTapSession (org contact : uuid) (account : string) : proc_op (option uuid)
  | PHandleTap (tap : Tap) : proc_op TapResult
  | PHasActive (org contact : uuid) : proc_op bool
  | PSettings (org : uuid) (account : string) : proc_op (option Settings)
  | PFindSession (org contact : uuid) (account : string) (after : instant) : proc_op (option Session)
  | PTouchSession (id : uuid) (at_ : instant) : proc_op unit
  | PCreateSession (s : Session) : proc_op unit
  | PExitSession (id : uuid) (at_ : instant) : proc_op unit
  | PRules (org : uuid) (account : string) : proc_op (option (list KeywordRule))
  | PFlows (org : uuid) : proc_op (option (list ChatbotFlow))
  | PContexts (org : uuid) (account : string) : proc_op (option (list AIContext))
  | PKnowledge (org : uuid) (message : string) : proc_op string
  | PHistory (session : uuid) (limit : Z) : proc_op (list (bool * string))
  | PComplete (system : string) (messages : list (bool * string)) (feature : string) : proc_op (option aiReply * option string)
  | PChat {X : Type} (op : chat_op X) : proc_op X.
Abbreviation Proc A := (prog proc_op A) (only parsing).
Definition chat_prog {A} (p : prog chat_op A) : Proc A := prog_lift (fun X op => PChat op) p.
Definition of_att {A} (p : prog att_op A) : Proc A := chat_prog (att_prog p).

(** * The handlers

    [json_marshal] is [json.Marshal], [to_lower] is [strings.ToLower]; the other parameters
    are those of [FlowRunner]. *)
Section Processor.
Context (ParseFloat : string -> option spec_float) (FormatFloat : spec_float -> string) (Sprint : any -> string) (fuel : nat).
Context (expr_run : string -> amap -> option any) (regex : string -> option (string -> bool)).
Context (json_object : string -> option (option amap)) (json_marshal : any -> option string).
Context (uuid_parse : string -> option uuid) (uuid_text : uuid -> string) (to_lower : string -> string).
Context (assigner : bool).

Definition row_of (c : ChatContact) : uuid := c_ID (cc_Row c).
Definition send_text (by_ : sender) (c : ChatContact) (text : string) : Proc bool := chat_prog (sendAndSaveTextMessage by_ (row_of c) text).
Definition send_buttons (by_ : sender) (c : ChatContact) (body : string) (buttons : list amap) : Proc bool :=
  chat_prog (sendAndSaveInteractiveButtons by_ (row_of c) body buttons).
Definition log_message (s : Session) (text step : string) : Proc unit := call (PChat (CLog (ss_ID s) text step)).
Definition now_ : Proc instant := call (PChat CTime).
Definition ClearContactChatbotTracking (contact : uuid) : Proc unit :=
  _ ← call (PChat (CAtt (AWrite (WTracking contact None false)))); mret tt.

(** ** Reading the message *)
Definition download (ref : MediaRef) (caption filename type : string) : Proc ExtractedMessage :=
  url ← call (PDownload (md_ID ref) (md_MimeType ref));
  mret (MkExtracted caption type (Some (MkMediaInfo (default "" url) (md_MimeType ref) filename)) "" []).
Definition interactive_content (i : Interactive) (type : string) : ExtractedMessage :=
  let e := MkExtracted "" type None "" [] in
  let reply e (x : option (string * string)) := match x with Some (id, title) => MkExtracted title "button_reply" None id (ex_FlowResponseData e) | None => e end in
  let e := reply (reply e (in_ButtonReply i)) (in_ListReply i) in
  match in_NFMReply i with
  | Some (body, json) =>
      MkExtracted body "nfm_reply" None (ex_ButtonID e)
        (if String.eqb json "" then ex_FlowResponseData e
         else match json_object json with Some data => default [] data | None => ex_FlowResponseData e end)
  | None => e
  end.
Definition location_data (l : Location) : any :=
  AMap (set_nonempty "address" (lo_Address l) (set_nonempty "name" (lo_Name l) [("latitude", AFloat (lo_Latitude l)); ("longitude", AFloat (lo_Longitude l))])).
Definition contacts_data (cs : list (string * list string)) : any :=
  AArr (map (fun x => AMap (("name", AStr (fst x)) :: match snd x with [] => [] | phones => [("phones", AArr (map AStr phones))] end)) cs).
Definition when_type {A} (msg : IncomingTextMessage) (type : string) (x : option A) : option A :=
  if String.eqb (im_Type msg) type then x else None.
Definition extractMessageContent (msg : IncomingTextMessage) : Proc ExtractedMessage :=
  let type := im_Type msg in
  let plain text := mret (MkExtracted text type None "" []) in
  match when_type msg "text" (im_Text msg) with Some body => plain body | None =>
  match when_type msg "button" (im_Button msg) with Some (text, payload) => mret (MkExtracted text "button_reply" None payload []) | None =>
  match when_type msg "interactive" (im_Interactive msg) with Some i => mret (interactive_content i type) | None =>
  match when_type msg "image" (im_Image msg) with Some ref => download ref (md_Caption ref) "" type | None =>
  match when_type msg "document" (im_Document msg) with Some ref => download ref (md_Caption ref) (md_Filename ref) type | None =>
  match when_type msg "video" (im_Video msg) with Some ref => download ref (md_Caption ref) "" type | None =>
  match when_type msg "audio" (im_Audio msg) with Some ref => download ref "" "" type | None =>
  match when_type msg "sticker" (im_Sticker msg) with Some ref => download ref "" "" type | None =>
  match when_type msg "location" (im_Location msg) with Some l => plain (default "" (json_marshal (location_data l))) | None =>
  match when_type msg "contacts" (match im_Contacts msg with [] => None | cs => Some cs end) with
  | Some cs => plain (default "" (json_marshal (contacts_data cs))) | None => plain ""
  end end end end end end end end end end.

(** ** Saving it *)
Definition reply_target (wamid : string) : Proc (option uuid) :=
  if String.eqb wamid "" then mret None else m ← call (PByWAMID wamid); mret (option_map fst m).
Definition saveIncomingMessage (account : WhatsAppAccount) (contact : ChatContact) (wamid msgType content : string)
    (media : option MediaInfo) (replyToWAMID : string) : Proc unit :=
  now ← now_; id ← call (PChat (CAtt ANewID));
  replyTo ← reply_target replyToWAMID;
  ok ← call (PCreateMessage (MkIncomingRow id (acc_Org account) (acc_Name account) (row_of contact) wamid msgType content media replyTo));
  if negb (ok : bool) then mret tt
  else
    _ ← call (PUsage id);
    will ← of_att (willChatbotHandle account (cc_Row contact));
    _ ← (if (will : bool) then call (PMarkRead id) else mret tt);
    _ ← call (PInbound (row_of contact) now (message_preview msgType content) (acc_Name account));
    _ ← call (PChat (CAtt (AStatus (cc_Row contact) ContactStatusInProgress [ContactStatusResolved])));
    call (PAnnounce id).

(** ** Reactions *)
Record Reaction := MkReaction { re_Emoji : string; re_FromPhone : string; re_FromUser : string }.
Definition reactions_of (metadata : amap) : list Reaction :=
  omap (fun r => m ← any_map r; Some (MkReaction (any_str (map_get "emoji" m)) (any_str (map_get "from_phone" m)) (any_str (map_get "from_user" m))))
    (default [] (any_arr (map_get "reactions" metadata))).
Definition reaction_json (r : Reaction) : any :=
  AMap (set_nonempty "from_user" (re_FromUser r) (set_nonempty "from_phone" (re_FromPhone r) [("emoji", AStr (re_Emoji r))])).
Definition react (fromPhone emoji : string) (reactions : list Reaction) : list Reaction :=
  List.filter (fun r => negb (String.eqb (re_FromPhone r) fromPhone)) reactions ++
  (if String.eqb emoji "" then [] else [MkReaction emoji fromPhone ""]).
(** The message by its id, or by the part of the id both sides share. *)
Definition find_reacted (wamid : string) : Proc (option (uuid * option amap)) :=
  m ← call (PByWAMID wamid);
  match m with
  | Some m => mret (Some m)
  | None =>
      match str_find "FQIA" wamid with
      | Some idx => if Z.of_nat idx + 8 <? str_len wamid then call (PBySuffix (str_drop (idx + 8) wamid)) else mret None
      | None => mret None
      end
  end.
Definition handleIncomingReaction (account : WhatsAppAccount) (fromPhone wamid emoji profileName : string) : Proc unit :=
  m ← find_reacted wamid;
  match m with
  | None => mret tt
  | Some (message, metadata) =>
      contact ← call (PContact (acc_Org account) fromPhone profileName);
      let metadata := default [] metadata in
      let newReactions := react fromPhone emoji (reactions_of metadata) in
      let stored := match newReactions with [] => ANil | _ => AArr (map reaction_json newReactions) end in
      ok ← call (PSetReactions message (map_set "reactions" stored metadata));
      if negb (ok : bool) then mret tt
      else
        match contact with
        | Some (c, _) => call (PReactionUpdate (acc_Org account) message (row_of c))
        | None => Do (PChat CPanic) (fun e : Empty_set => match e with end)
        end
  end.

(** ** Sessions *)
Definition getOrCreateSession (org contact : uuid) (account phone : string) (timeoutMins : Z) : Proc (Session * bool) :=
  now ← now_;
  s ← call (PFindSession org contact account (now - wrap64 (timeoutMins * minute)));
  match s with
  | Some s => _ ← call (PTouchSession (ss_ID s) now); mret (with_times now (ss_CompletedAt s) s, false)
  | None =>
      id ← call (PChat (CAtt ANewID));
      let s := MkChatSession id contact account phone SessionActive None "" 0 (Some []) now None in
      _ ← call (PCreateSession s); mret (s, true)
  end.
Definition exitFlow (s : Session) : Proc unit :=
  now ← now_; _ ← call (PExitSession (ss_ID s) now); ClearContactChatbotTracking (ss_Contact s).

(** ** Answers of the AI *)
Definition fetchAPIContext (apiConfig : option amap) (session : Session) (userMessage : string) : Proc (Session * option string) :=
  match apiConfig with
  | None => mret (session, None)
  | Some config =>
      let data := map_set "user_message" (AStr userMessage) (map_set "phone_number" (AStr (ss_PhoneNumber session)) (default [] (ss_SessionData session))) in
      let session := match ss_SessionData session with Some _ => with_data (Some data) session | None => session end in
      answer ← chat_prog (executeConfiguredAPI ParseFloat FormatFloat Sprint fuel config (Some data));
      match answer with
      | None => mret (session, None)
      | Some (respBody, statusCode) =>
          if negb (success statusCode) then mret (session, None)
          else
            let responsePath := any_str (map_get "response_path" config) in
            match (if String.eqb responsePath "" then None else json_object respBody) with
            | None => mret (session, Some respBody)
            | Some jsonResp =>
                match getNestedValue jsonResp responsePath with
                | None => Do (PChat CPanic) (fun e : Empty_set => match e with end)
                | Some value => mret (session, Some (if any_nil value then respBody else formatValue FormatFloat Sprint value))
                end
            end
      end
  end.
Definition joined (a sep b : string) : string := if String.eqb a "" then b else a +:+ sep +:+ b.
Definition newline : string := String (ascii_of_N 10) "".
Definition blank_line : string := newline +:+ newline.
Definition context_part (c : AIContext) (session : Session) (userMessage : string) : Proc (Session * string) :=
  if String.eqb (cx_ContextType c) "static" then mret (session, cx_StaticContent c)
  else if String.eqb (cx_ContextType c) "api" then
    '(session, fetched) ← fetchAPIContext (cx_ApiConfig c) session userMessage;
    mret (session, match fetched with
                   | Some content => if String.eqb content "" then cx_StaticContent c
                                     else joined (cx_StaticContent c) (blank_line +:+ "Data:" +:+ newline) content
                   | None => cx_StaticContent c
                   end)
  else mret (session, "").
Fixpoint context_parts (contexts : list AIContext) (session : Session) (userMessage : string) : Proc (Session * list string) :=
  match contexts with
  | [] => mret (session, [])
  | c :: rest =>
      '(session, content) ← context_part c session userMessage;
      '(session, parts) ← context_parts rest session userMessage;
      mret (session, if String.eqb content "" then parts else ("### " +:+ cx_Name c +:+ newline +:+ content) :: parts)
  end.
Definition buildAIContext (org : uuid) (session : Session) (userMessage : string) : Proc (Session * string) :=
  contexts ← call (PContexts org (ss_Account session));
  match contexts with
  | None | Some [] => mret (session, "")
  | Some contexts =>
      '(session, parts) ← context_parts contexts session userMessage;
      mret (session, match parts with [] => "" | _ => "## Context Information" +:+ blank_line +:+ str_join blank_line parts end)
  end.
Definition aiFeatureChatbotReply : string := "chatbot_reply".
(** The proposal the run left pending, as the server's own message, or the model's text.
    Messages are (from the customer, text). *)
Definition generateAIReply (settings : Settings) (session : Session) (userMessage feature : string) : Proc (Session * option aiReply) :=
  let ai := cb_AI settings in
  '(session, contextData) ← buildAIContext (cb_Org settings) session userMessage;
  let system := if String.eqb contextData "" then ai_SystemPrompt ai else joined (ai_SystemPrompt ai) blank_line contextData in
  kb ← call (PKnowledge (cb_Org settings) userMessage);
  let system := if String.eqb kb "" then system else joined system blank_line kb in
  history ← (if ai_IncludeHistory ai then call (PHistory (ss_ID session) (ai_HistoryLimit ai)) else mret []);
  '(pending, resp) ← call (PComplete system (history ++ [(true, userMessage)]) feature);
  mret (session, match pending with
                 | Some r => if String.eqb feature aiFeatureChatbotReply then Some r else (fun text => MkAIReply text []) <$> resp
                 | None => (fun text => MkAIReply text []) <$> resp
                 end).

(** ** Who answers *)
Definition isWithinBusinessHours (hours : list json) : Proc bool := now ← call (PChat CWall); mret (Within hours now).
(** Business hours are on and this is not one of them. *)
Definition outside (settings : Settings) : Proc bool :=
  let bh := cb_Hours settings in
  if bh_Enabled bh && negb (bool_decide (bh_Hours bh = [])) then within ← isWithinBusinessHours (bh_Hours bh); mret (negb within) else mret false.
Definition out_of_hours (settings : Settings) (contact : ChatContact) : Proc unit :=
  if String.eqb (bh_OutOfHoursMessage (cb_Hours settings)) "" then mret tt
  else _ ← send_text (Bot "out_of_hours") contact (bh_OutOfHoursMessage (cb_Hours settings)); mret tt.
(** A fixed text, with its buttons when it has any. *)
Definition send_fixed (by_ : sender) (contact : ChatContact) (text : string) (buttons : list any) : Proc unit :=
  match omap any_map buttons with
  | [] => _ ← send_text by_ contact text; mret tt
  | bs => _ ← send_buttons by_ contact text bs; mret tt
  end.

Definition send_fallback (settings : Settings) (contact : ChatContact) (session : Session) (isNewSession : bool) : Proc unit :=
  if String.eqb (cb_FallbackMessage settings) "" || isNewSession then mret tt
  else
    _ ← send_fixed (Bot "fallback") contact (cb_FallbackMessage settings) (cb_FallbackButtons settings);
    log_message session (cb_FallbackMessage settings) "fallback_response".
Definition ai_ready (ai : AISettings) : bool :=
  ai_Enabled ai && negb (String.eqb (ai_Provider ai) "") && negb (String.eqb (ai_APIKey ai) "").
Definition answer_with_ai (settings : Settings) (contact : ChatContact) (session : Session) (isNewSession : bool) (messageText : string) : Proc unit :=
  if ai_ready (cb_AI settings) then
    '(session, reply) ← generateAIReply settings session messageText aiFeatureChatbotReply;
    match reply with
    | None => send_fallback settings contact session isNewSession
    | Some r =>
        if String.eqb (ar_Text r) "" then send_fallback settings contact session isNewSession
        else
          _ ← (match ar_Buttons r with
               | [] => send_text (AIReply aiFeatureChatbotReply) contact (ar_Text r)
               | bs => send_buttons (AIReply aiFeatureChatbotReply) contact (ar_Text r) bs
               end);
          log_message session (ar_Text r) "ai_response"
    end
  else send_fallback settings contact session isNewSession.

(** The text-driven part: greeting, keyword reply, AI, fallback. *)
Definition answer_text (settings : Settings) (contact : ChatContact) (session : Session) (isNewSession : bool)
    (keyword : option KeywordResponse) (messageText : string) : Proc unit :=
  if isNewSession && negb (String.eqb (cb_DefaultResponse settings) "") then
    _ ← send_fixed (Bot "default_response") contact (cb_DefaultResponse settings) (cb_GreetingButtons settings);
    log_message session (cb_DefaultResponse settings) "greeting"
  else
    match keyword with
    | Some kw =>
        _ ← (match kw_Buttons kw with
             | [] => send_text (Bot "keyword") contact (kw_Body kw)
             | bs => send_buttons (Bot "keyword") contact (kw_Body kw) bs
             end);
        log_message session (kw_Body kw) "keyword_response"
    | None => answer_with_ai settings contact session isNewSession messageText
    end.

Definition matchKeywordRules (org : uuid) (account messageText : string) : Proc (option KeywordResponse) :=
  rules ← call (PRules org account);
  mret match rules with Some rules => match_rules to_lower regex rules messageText | None => None end.
Definition matchFlowTrigger (org : uuid) (messageText : string) : Proc (option ChatbotFlow) :=
  flows ← call (PFlows org);
  mret match flows with Some flows => match_flow to_lower flows messageText | None => None end.

Definition transfer_by_keyword (account : WhatsAppAccount) (contact : ChatContact) (settings : Settings) (kw : KeywordResponse) : Proc unit :=
  closed ← outside settings;
  if (closed : bool) then out_of_hours settings contact
  else
    _ ← (if String.eqb (kw_Body kw) "" then mret true else send_text (Bot "keyword") contact (kw_Body kw));
    of_att (createTransferFromKeyword assigner account (cc_Row contact)).

Definition run_flow (account : WhatsAppAccount) (contact : ChatContact) (session : Session) (flow : ChatbotFlow)
    (input buttonID : string) (response : amap) : Proc unit :=
  _ ← chat_prog (runChatGraph ParseFloat FormatFloat Sprint fuel expr_run regex json_object uuid_parse uuid_text assigner
                   account contact session flow input buttonID response);
  mret tt.
(** The session is in a flow. *)
Definition resume_flow (account : WhatsAppAccount) (contact : ChatContact) (session : Session) (flowID : uuid)
    (input buttonID : string) (response : amap) : Proc unit :=
  flow ← call (PChat (CFlow (acc_Org account) flowID));
  match flow with
  | None => exitFlow session
  | Some flow =>
      match fl_Graph flow with
      | None => exitFlow session
      | Some _ => run_flow account contact session flow input buttonID response
      end
  end.
Definition start_flow (account : WhatsAppAccount) (contact : ChatContact) (session : Session) (flow : ChatbotFlow)
    (messageText buttonID : string) (response : amap) : Proc unit :=
  match fl_Graph flow with
  | None => mret tt
  | Some _ =>
      let session := with_data (Some [("_flow_id", AStr (uuid_text (fl_ID flow))); ("_flow_name", AStr (fl_Name flow))])
                       (with_retries 0 (with_step "" (with_flow (Some (fl_ID flow)) session))) in
      run_flow account contact session flow messageText buttonID response
  end.

(** A flow in progress, a flow the message triggers, or the text-driven part. *)
Definition converse (account : WhatsAppAccount) (contact : ChatContact) (settings : Settings) (session : Session) (isNewSession : bool)
    (keyword : option KeywordResponse) (e : ExtractedMessage) (effectiveInput : string) : Proc unit :=
  match ss_CurrentFlowID session with
  | Some flowID => resume_flow account contact session flowID effectiveInput (ex_ButtonID e) (ex_FlowResponseData e)
  | None =>
      flow ← matchFlowTrigger (acc_Org account) (ex_Text e);
      match flow with
      | Some flow => start_flow account contact session flow (ex_Text e) (ex_ButtonID e) (ex_FlowResponseData e)
      | None =>
          if String.eqb (ex_Text e) "" then mret tt
          else answer_text settings contact session isNewSession keyword (ex_Text e)
      end
  end.

(** A message the chatbot may answer: no person is attending and the chatbot is on. *)
Definition chatbot_turn (account : WhatsAppAccount) (contact : ChatContact) (settings : Settings) (from : string) (e : ExtractedMessage) : Proc unit :=
  let messageText := ex_Text e in
  let '(effectiveInput, actionable) := chatbotInput messageText (ex_ButtonID e) (ex_Media e) in
  if negb actionable then mret tt
  else
    '(session, isNewSession) ← getOrCreateSession (acc_Org account) (row_of contact) (acc_Name account) from (cb_SessionTimeoutMins settings);
    _ ← call (PChat (CLog (ss_ID session) messageText "keyword_check"));
    keyword ← matchKeywordRules (acc_Org account) (acc_Name account) messageText;
    match keyword with
    | Some kw =>
        if String.eqb (kw_ResponseType kw) "transfer" then transfer_by_keyword account contact settings kw
        else converse account contact settings session isNewSession keyword e effectiveInput
    | None => converse account contact settings session isNewSession keyword e effectiveInput
    end.

Definition aiToolConfirmPrefix : string := "aitc:".
Definition aiToolDeclinePrefix : string := "aitd:".
Definition isAIToolConfirmationButton (id : string) : bool := has_prefix aiToolConfirmPrefix id || has_prefix aiToolDeclinePrefix id.
Definition outOfHoursFallback : string :=
  "No momento estamos fora do horário de atendimento. Tente novamente no nosso horário de funcionamento.".
Definition outOfHoursText (account : WhatsAppAccount) : Proc string :=
  settings ← call (PSettings (acc_Org account) (acc_Name account));
  mret match settings with
       | Some settings => first_nonempty (bh_OutOfHoursMessage (cb_Hours settings)) outOfHoursFallback
       | None => outOfHoursFallback
       end.
(** [strings.TrimPrefix]. *)
Definition TrimPrefix (s prefix : string) : string := default s (cut_prefix prefix s).
(** The customer's tap; [PHandleTap] is [Confirmer.HandleTap]. *)
Definition handleAIToolConfirmationTap (account : WhatsAppAccount) (contact : ChatContact) (buttonID wamid : string) : Proc unit :=
  ready ← call PTapReady;
  if negb (ready : bool) then mret tt
  else
    let decline := has_prefix aiToolDeclinePrefix buttonID in
    let token := TrimPrefix (TrimPrefix buttonID aiToolConfirmPrefix) aiToolDeclinePrefix in
    session ← call (PTapSession (acc_Org account) (row_of contact) (acc_Name account));
    match session with
    | None => mret tt
    | Some session =>
        res ← call (PHandleTap (MkTap token (acc_Org account) (row_of contact) session (acc_Name account) wamid decline));
        match res with
        | TapIgnored => mret tt
        | TapReply text outsideHours =>
            text ← (if (outsideHours : bool) then outOfHoursText account else mret text);
            if String.eqb text "" then mret tt else _ ← send_text (AIReply "tool_confirmation") contact text; mret tt
        end
    end.

(** The message is saved: who answers it? *)
Definition route_message (account : WhatsAppAccount) (contact : ChatContact) (from wamid : string) (e : ExtractedMessage) : Proc unit :=
  if isAIToolConfirmationButton (ex_ButtonID e) then handleAIToolConfirmationTap account contact (ex_ButtonID e) wamid
  else
    active ← call (PHasActive (acc_Org account) (row_of contact));
    if (active : bool) then _ ← of_att (ReevaluateOnCustomerReply assigner (acc_Org account) (row_of contact)); mret tt
    else
      settings ← call (PSettings (acc_Org account) (acc_Name account));
      match settings with
      | None => mret tt
      | Some settings =>
          if negb (cb_IsEnabled settings) then of_att (createTransferToQueueRouted account (cc_Row contact) SourceChatbotDisabled "")
          else
            closed ← outside settings;
            if (closed : bool) && negb (cb_AllowAutomatedOutside settings) then out_of_hours settings contact
            else chatbot_turn account contact settings from e
      end.

Definition processIncomingMessageFull (phoneNumberID : string) (msg : IncomingTextMessage) (profileName : string) : Proc unit :=
  account ← call (PAccount phoneNumberID);
  match account with
  | None => mret tt
  | Some account =>
      match when_type msg "reaction" (im_Reaction msg) with
      | Some (message, emoji) => handleIncomingReaction account (im_From msg) message emoji profileName
      | None =>
          found ← call (PContact (acc_Org account) (im_From msg) profileName);
          match found with
          | None => mret tt
          | Some (contact, isNewContact) =>
              bsuid ← call (PBsuid (row_of contact));
              _ ← (if String.eqb (im_FromUserID msg) "" || String.eqb bsuid (im_FromUserID msg) then mret tt
                   else call (PSetBsuid (row_of contact) (im_FromUserID msg)));
              _ ← (if isNewContact : bool then call (PContactCreated (row_of contact)) else mret tt);
              e ← extractMessageContent msg;
              _ ← saveIncomingMessage account contact (im_ID msg) (ex_Type e) (ex_Text e) (ex_Media e) (default "" (im_ContextID msg));
              _ ← ClearContactChatbotTracking (row_of contact);
              route_message account contact (im_From msg) (im_ID msg) e
          end
      end
  end.
End Processor.

(** * The chatbot and the people *)
Definition proc_message {X} (op : proc_op X) : bool := match op with PChat op => is_message op | _ => false end.
Definition is_gate {X} (op : proc_op X) : bool := match op with PHasActive _ _ => true | _ => false end.
Fixpoint psends (g : list (event proc_op)) : Z :=
  match g with [] => 0 | Ev op _ :: g' => (if proc_message op then 1 else 0) + psends g' end.
(** What the last look for an active attendance answered. *)
Definition gate_answer {X} (op : proc_op X) : X -> option bool :=
  match op in proc_op X return X -> option bool with PHasActive _ _ => fun x => Some x | _ => fun _ => None end.
Fixpoint last_active (g : list (event proc_op)) : option bool :=
  match g with
  | [] => None
  | Ev op x :: g' => match gate_answer op x with Some b => Some b | None => last_active g' end
  end.

(** The text sent about a confirmation, and to whom. *)
Definition confirmation_text {X} (op : proc_op X) : option (uuid * string) :=
  match op with
  | PChat (CSend (AIReply detail) contact (OutText text)) => if String.eqb detail "tool_confirmation" then Some (contact, text) else None
  | _ => None
  end.
(** The answer to a tap on a confirmation button: the message, to the contact whose tap was
    handled, says what handling it answered, or the out-of-hours text when it answered so. *)
Definition answers_tap {X} (op : proc_op X) (g : list (event proc_op)) : Prop :=
  exists tap text outsideHours said,
    List.In (Ev (PHandleTap tap) (TapReply text outsideHours)) g /\ (outsideHours = false -> said = text) /\
    confirmation_text op = Some (t_ContactID tap, said).
(** A message is only sent when the contact was last seen without an attendance, and while
    fewer than the limit were; or it answers a tap, and it is the first. A tap is handled
    before any look for an attendance, in a session that was found for it. *)
Definition proc_pre X (op : proc_op X) (g : list (event proc_op)) : Prop :=
  (proc_message op = true ->
     (psends g < max_messages /\ last_active g = Some false) \/ (psends g = 0 /\ last_active g = None /\ answers_tap op g)) /\
  match op with
  | PHandleTap tap => psends g = 0 /\ last_active g = None /\
      List.In (Ev (PTapSession (t_OrgID tap) (t_ContactID tap) (t_Account tap)) (Some (t_SessionID tap))) g
  | _ => True
  end.
(** Stored flows do not change meanwhile, and the session found is an active one. *)
Definition proc_answers (flows : uuid -> option ChatbotFlow) X (op : proc_op X) : X -> Prop :=
  match op in proc_op X return X -> Prop with
  | PChat op => answers flows _ op
  | PFindSession _ _ _ _ => fun x => match x with Some s => ss_Status s = SessionActive | None => True end
  | PFlows _ => fun x => match x with Some fs => forall f, f ∈ fs -> flows (fl_ID f) = Some f | None => True end
  | _ => fun _ => True
  end.

(** Operations that neither speak nor look for an attendance nor handle a tap. *)
Definition is_tap {X} (op : proc_op X) : bool := match op with PHandleTap _ => true | _ => false end.
Definition hush X (op : proc_op X) : Prop := proc_message op = false /\ is_gate op = false /\ is_tap op = false.
Lemma hush_pre X (op : proc_op X) g : hush X op -> proc_pre X op g.
Proof. intros (H1 & _ & H3). split; [congruence |]. by destruct op. Qed.
Definition plain X (op : chat_op X) : Prop := is_message op = false.
Lemma chat_hush {A} (p : prog chat_op A) : only plain p -> only hush (chat_prog p).
Proof. apply only_lift. intros X op H. by split. Qed.
Lemma att_hush {A} (p : prog att_op A) : only silent p -> only hush (of_att p).
Proof. intros H. apply chat_hush. revert H. apply only_lift. done. Qed.

Section Speaking.
Context (flows : uuid -> option ChatbotFlow) (flows_id : forall id f, flows id = Some f -> fl_ID f = id).
Abbreviation pext p g R := (extends proc_pre (proc_answers flows) p g R).

Lemma hush_ext {A} (p : prog proc_op A) g :
  only hush p -> pext p g (fun _ g' => psends g' = psends g /\ last_active g' = last_active g).
Proof.
  revert g. induction p as [a | X op k IH]; intros g; [split; [reflexivity | done] |]. intros [Hop Hk]. pose proof Hop as (H1 & H2 & _).
  split; [by apply hush_pre |]. intros x g' [-> _]. eapply ensures_mono; [| by apply IH].
  intros a g'' [Hl [H3 H4]]. split; [etrans; [apply later_cons | exact Hl] |]. simpl in H3, H4. rewrite H1 in H3. split; [lia |].
  rewrite H4. by destruct op.
Qed.


(** No attendance, and nothing said yet. *)
Definition may_speak (g : list (event proc_op)) : Prop := psends g = 0 /\ last_active g = Some false.
Lemma hush_bind {A B} (p : prog proc_op A) (k : A -> prog proc_op B) g R :
  only hush p -> (forall a g', psends g' = psends g -> last_active g' = last_active g -> pext (k a) g' R) -> pext (p ≫= k) g R.
Proof. intros Hp Hk. eapply extends_bind; [by apply hush_ext |]. intros a g' _ [H3 H4]. by apply Hk. Qed.
Lemma may_speak_hush {A B} (p : prog proc_op A) (k : A -> prog proc_op B) g R :
  may_speak g -> only hush p -> (forall a g', may_speak g' -> pext (k a) g' R) -> pext (p ≫= k) g R.
Proof. intros [H1 H2] Hp Hk. apply hush_bind; [done |]. intros a g' H3 H4. apply Hk. split; congruence. Qed.
Lemma may_speak_call {X B} (op : proc_op X) (k : X -> prog proc_op B) g R :
  may_speak g -> hush X op -> (forall x g', may_speak g' -> proc_answers flows X op x -> pext (k x) g' R) -> pext (call op ≫= k) g R.
Proof.
  intros [H1 H2] Hop Hk. pose proof Hop as (H3 & H4 & _). apply extends_call; [by apply hush_pre |]. intros x Hx. apply Hk; [| done].
  split; simpl; [rewrite H3; lia |]. by destruct op.
Qed.
Lemma hush_end {A} (p : prog proc_op A) g : only hush p -> pext p g (fun _ _ => True).
Proof. intros H. eapply extends_mono; [| by apply hush_ext]. done. Qed.
Lemma then_hush {A B} (p : prog proc_op A) (k : A -> prog proc_op B) g :
  pext p g (fun _ _ => True) -> (forall a, only hush (k a)) -> pext (p ≫= k) g (fun _ _ => True).
Proof. intros Hp Hk. eapply extends_bind; [exact Hp |]. intros a g' _ _. by apply hush_end. Qed.

Lemma lifted_trace t h : psends (map (lift_event (fun X op => PChat op)) t ++ h) = sends t + psends h /\
  last_active (map (lift_event (fun X op => PChat op)) t ++ h) = last_active h.
Proof.
  induction t as [| [X op x] t [IH1 IH2]]; [done |]. simpl. rewrite IH1, IH2. split; [lia | done].
Qed.
(** A program of the chat, started with [t] already said in it. *)
Lemma speak_from {A} (p : prog chat_op A) t h R :
  may_speak h -> extends run_pre (answers flows) p t R ->
  pext (chat_prog p) (map (lift_event (fun X op => PChat op)) t ++ h) (fun _ _ => True).
Proof.
  intros [H1 H2] Hp. eapply extends_mono; [| eapply (extends_prog_lift (fun X op => PChat op) run_pre (answers flows)); [| | exact Hp]].
  - done.
  - intros X op t' [Hm _]. split; [| done]. intros E. left. destruct (lifted_trace t' h) as [-> ->]. rewrite H1, H2. split; [| done]. simpl in E. specialize (Hm E). lia.
  - done.
Qed.
Lemma speak {A} (p : prog chat_op A) h R :
  may_speak h -> extends run_pre (answers flows) p [] R -> pext (chat_prog p) h (fun _ _ => True).
Proof. apply (speak_from p []). Qed.

Context (ParseFloat : string -> option spec_float) (FormatFloat : spec_float -> string) (Sprint : any -> string) (fuel : nat).
Context (expr_run : string -> amap -> option any) (regex : string -> option (string -> bool)).
Context (json_object : string -> option (option amap)) (json_marshal : any -> option string).
Context (uuid_parse : string -> option uuid) (uuid_text : uuid -> string) (to_lower : string -> string).
Context (assigner : bool).

(** ** What is done in silence *)
Lemma render_plain template data : only plain (render ParseFloat FormatFloat Sprint fuel template data).
Proof. unfold render. destruct (processTemplate _ _ _ _ _ _); [done | by split]. Qed.
#[local] Hint Resolve render_plain : whatc.
Lemma render_headers_plain hs data : only plain (render_headers ParseFloat FormatFloat Sprint fuel hs data).
Proof. induction hs as [| [key v] hs IH]; [done |]. cbn [render_headers]. solve_only. Qed.
#[local] Hint Resolve render_headers_plain : whatc.
Lemma executeConfiguredAPI_plain config data : only plain (executeConfiguredAPI ParseFloat FormatFloat Sprint fuel config data).
Proof. unfold executeConfiguredAPI. cbv zeta. solve_only. Qed.
Lemma reevaluate_silent org contact : only silent (ReevaluateOnCustomerReply assigner org contact).
Proof.
  unfold ReevaluateOnCustomerReply, awayTolerance, activeFor, reassignAwayTransfer, moveTransfer, auditDistribution, recordOwnership. solve_only.
Qed.
Lemma willChatbotHandle_silent account c : only silent (willChatbotHandle account c).
Proof. unfold willChatbotHandle, hasActive. solve_only. Qed.
Lemma tracking_hush contact : only hush (ClearContactChatbotTracking contact).
Proof. by split. Qed.
Lemma message_hush msg : only hush (extractMessageContent json_object json_marshal msg).
Proof. unfold extractMessageContent, download. cbv zeta. solve_only. Qed.
Lemma save_hush account contact wamid type content media replyTo : only hush (saveIncomingMessage account contact wamid type content media replyTo).
Proof.
  unfold saveIncomingMessage, now_, reply_target. pose proof (att_hush _ (willChatbotHandle_silent account (cc_Row contact))). solve_only.
Qed.
Lemma reaction_hush account from wamid emoji name : only hush (handleIncomingReaction account from wamid emoji name).
Proof. unfold handleIncomingReaction, find_reacted. cbv zeta. solve_only. Qed.
Lemma rules_hush org account text : only hush (matchKeywordRules regex to_lower org account text).
Proof. unfold matchKeywordRules. solve_only. Qed.
Lemma exit_hush s : only hush (exitFlow s).
Proof. unfold exitFlow, now_. pose proof tracking_hush. solve_only. Qed.
Lemma outside_hush settings : only hush (outside settings).
Proof. unfold outside, isWithinBusinessHours. cbv zeta. solve_only. Qed.
Lemma fetch_hush config session message : only hush (fetchAPIContext ParseFloat FormatFloat Sprint fuel json_object config session message).
Proof.
  unfold fetchAPIContext. destruct config as [config |]; [| done]. cbv zeta.
  apply only_bind; [apply chat_hush, executeConfiguredAPI_plain | intros ?]. solve_only.
Qed.
#[local] Hint Resolve fetch_hush tracking_hush message_hush save_hush reaction_hush rules_hush exit_hush outside_hush : whatc.
Lemma contexts_hush cs session message : only hush (context_parts ParseFloat FormatFloat Sprint fuel json_object cs session message).
Proof. revert session. induction cs as [| c cs IH]; intros session; [done |]. cbn [context_parts]. unfold context_part. solve_only. Qed.
#[local] Hint Resolve contexts_hush : whatc.
Lemma ai_hush settings session message feature :
  only hush (generateAIReply ParseFloat FormatFloat Sprint fuel json_object settings session message feature).
Proof. unfold generateAIReply, buildAIContext. cbv zeta. solve_only. Qed.
#[local] Hint Resolve ai_hush : whatc.

(** ** What is said *)
Lemma said_text by_ c text g : may_speak g -> pext (send_text by_ c text) g (fun _ _ => True).
Proof.
  intros Hg. apply (speak _ _ (fun _ _ => True) Hg), extends_call_end; [by split; intros; [| apply quiet_nil] | done].
Qed.
Lemma said_buttons by_ c body bs g : may_speak g -> pext (send_buttons by_ c body bs) g (fun _ _ => True).
Proof. intros Hg. eapply speak; [done |]. apply buttons_walk; [done | apply quiet_nil]. Qed.
#[local] Hint Resolve said_text said_buttons : whatc.
Lemma said_fixed by_ c text bs g : may_speak g -> pext (send_fixed by_ c text bs) g (fun _ _ => True).
Proof. intros Hg. unfold send_fixed. destruct (omap any_map bs); (apply then_hush; [auto with whatc | done]). Qed.
Lemma said_hours settings c g : may_speak g -> pext (out_of_hours settings c) g (fun _ _ => True).
Proof. intros Hg. unfold out_of_hours. destruct (String.eqb _ _); [by apply extends_ret | apply then_hush; [auto with whatc | done]]. Qed.
Lemma att_said {A} (p : prog att_op A) g : may_speak g -> at_most 1 p -> pext (of_att p) g (fun _ _ => True).
Proof. intros Hg Hp. eapply speak; [done |]. by apply (att_prog_walk flows 1). Qed.
#[local] Hint Resolve said_fixed said_hours : whatc.
Lemma keyword_at_most account c : at_most 1 (createTransferFromKeyword assigner account c).
Proof.
  unfold createTransferFromKeyword, hasActive. apply at_most_bind; [solve_only |]. intros []; [done |].
  apply at_most_bind; [solve_only |]. intros settings. apply at_most_bind; [apply outside_hours_silent |].
  intros []; [apply out_of_hours_at_most |]. apply at_most_only. pose proof saveAndFinalize_silent. unfold same_agent, isAgentEligible. solve_only.
Qed.
Lemma said_transfer account c settings kw g : may_speak g -> pext (transfer_by_keyword assigner account c settings kw) g (fun _ _ => True).
Proof.
  intros Hg. unfold transfer_by_keyword. apply may_speak_hush; [done | auto with whatc |]. intros [] g1 H1; [auto with whatc |].
  destruct (String.eqb _ _).
  - change (mret true ≫= ?f) with (f true). cbv beta. apply att_said; [done | apply keyword_at_most].
  - apply extends_call; [split; [intros _; left; by destruct H1 as [-> ->] | done] |]. intros ok _.
    eapply (speak_from _ [Ev (CSend _ _ _) ok]); [exact H1 |]. by apply (att_prog_walk flows 1); [apply keyword_at_most |].
Qed.

Abbreviation run_flow := (run_flow ParseFloat FormatFloat Sprint fuel expr_run regex json_object uuid_parse uuid_text assigner).
Lemma said_flow account c session flow input button response g :
  may_speak g -> ss_CurrentFlowID session = Some (fl_ID flow) -> ss_Status session = SessionActive ->
  pext (run_flow account c session flow input button response) g (fun _ _ => True).
Proof. intros Hg H1 H2. apply then_hush; [| done]. eapply speak; [done |]. by apply runChatGraph_spec. Qed.
Lemma said_fallback settings c session fresh g : may_speak g -> pext (send_fallback settings c session fresh) g (fun _ _ => True).
Proof. intros Hg. unfold send_fallback. destruct (_ || _); [by apply extends_ret |]. apply then_hush; [auto with whatc | by split]. Qed.
#[local] Hint Resolve said_fallback : whatc.
Lemma said_ai settings c session fresh text g :
  may_speak g -> pext (answer_with_ai ParseFloat FormatFloat Sprint fuel json_object settings c session fresh text) g (fun _ _ => True).
Proof.
  intros Hg. unfold answer_with_ai. destruct (ai_ready _); [| auto with whatc]. apply may_speak_hush; [done | auto with whatc |].
  intros [s' [r |]] g1 H1; [| auto with whatc]. destruct (String.eqb _ _); [auto with whatc |].
  apply then_hush; [destruct (ar_Buttons r); auto with whatc | by split].
Qed.
Lemma said_answer settings c session fresh kw text g :
  may_speak g -> pext (answer_text ParseFloat FormatFloat Sprint fuel json_object settings c session fresh kw text) g (fun _ _ => True).
Proof.
  intros Hg. unfold answer_text. destruct (fresh && _); [apply then_hush; [auto with whatc | by split] |].
  destruct kw as [kw |]; [apply then_hush; [destruct (kw_Buttons kw); auto with whatc | by split] | by apply said_ai].
Qed.

Abbreviation converse := (converse ParseFloat FormatFloat Sprint fuel expr_run regex json_object uuid_parse uuid_text to_lower assigner).
Lemma said_converse account c settings session fresh kw e input g :
  may_speak g -> ss_Status session = SessionActive ->
  pext (converse account c settings session fresh kw e input) g (fun _ _ => True).
Proof.
  intros Hg Hst. unfold ChatProcessor.converse. destruct (ss_CurrentFlowID session) as [id |] eqn:Eid.
  - unfold resume_flow. apply may_speak_call; [done | by split |]. intros [flow |] g1 H1 Hx; [| apply hush_end; auto with whatc].
    destruct (fl_Graph flow); [| apply hush_end; auto with whatc]. destruct Hx as [Hx | Hx]; [done |].
    apply said_flow; [done | | done]. symmetry in Hx. by rewrite (flows_id _ _ Hx).
  - apply extends_assoc, may_speak_call; [done | by split |]. intros fs g1 H1 _. change (mret ?a ≫= ?f) with (f a). cbv beta.
    destruct (match fs with Some fs => match_flow to_lower fs _ | None => None end) as [flow |].
    + unfold start_flow. destruct (fl_Graph flow); [| by apply extends_ret]. by apply said_flow.
    + destruct (String.eqb _ _); [by apply extends_ret | by apply said_answer].
Qed.
Abbreviation chatbot_turn := (chatbot_turn ParseFloat FormatFloat Sprint fuel expr_run regex json_object uuid_parse uuid_text to_lower assigner).
Lemma said_turn account c settings from e g : may_speak g -> pext (chatbot_turn account c settings from e) g (fun _ _ => True).
Proof.
  intros Hg. unfold ChatProcessor.chatbot_turn. destruct (chatbotInput _ _ _) as [input actionable]. destruct (negb _); [by apply extends_ret |].
  assert (Hend : forall session fresh g1, ss_Status session = SessionActive -> may_speak g1 ->
    pext (_ ← call (PChat (CLog (ss_ID session) (ex_Text e) "keyword_check"));
          keyword ← matchKeywordRules regex to_lower (acc_Org account) (acc_Name account) (ex_Text e);
          match keyword with
          | Some kw => if String.eqb (kw_ResponseType kw) "transfer" then transfer_by_keyword assigner account c settings kw
                       else converse account c settings session fresh keyword e input
          | None => converse account c settings session fresh keyword e input
          end) g1 (fun _ _ => True)).
  { intros session fresh g1 Hst H1. apply may_speak_call; [done | by split |]. intros _ g2 H2 _.
    apply may_speak_hush; [done | auto with whatc |]. intros kw g3 H3.
    destruct kw as [kw |]; [destruct (String.eqb _ _); [by apply said_transfer |] |]; by apply said_converse. }
  unfold getOrCreateSession, now_. apply extends_assoc, may_speak_call; [done | by split |]. intros now g1 H1 _.
  apply extends_assoc, may_speak_call; [done | by split |]. intros [s |] g2 H2 Hs.
  - apply extends_assoc, may_speak_call; [done | by split |]. intros _ g3 H3 _. by apply Hend.
  - apply extends_assoc, may_speak_call; [done | by split |]. intros id g3 H3 _. cbv zeta.
    apply extends_assoc, may_speak_call; [done | by split |]. intros _ g4 H4 _. by apply Hend.
Qed.

Abbreviation route_message := (route_message ParseFloat FormatFloat Sprint fuel expr_run regex json_object uuid_parse uuid_text to_lower assigner).
Lemma hours_text_hush account : only hush (outOfHoursText account).
Proof. unfold outOfHoursText. solve_only. Qed.
#[local] Hint Resolve hours_text_hush : whatc.
Lemma said_tap account c button wamid g :
  psends g = 0 -> last_active g = None -> pext (handleAIToolConfirmationTap account c button wamid) g (fun _ _ => True).
Proof.
  intros H1 H2. unfold handleAIToolConfirmationTap. apply hush_bind; [by split |]. intros [] g1 H3 H4; [| done]. simpl negb. cbv iota zeta.
  apply extends_call; [by apply hush_pre |]. intros [session |] _; [| done].
  apply extends_call; [split; [done |]; simpl; split_and!; [lia | congruence | by left] |]. intros [| text oh] _; [done |].
  set (tap := MkTap _ _ _ _ _ _ _). set (g2 := Ev (PTapSession _ _ _) _ :: g1).
  assert (Hend : forall said g3, (oh = false -> said = text) -> psends g3 = 0 -> last_active g3 = None ->
    List.In (Ev (PHandleTap tap) (TapReply text oh)) g3 ->
    pext (if String.eqb said "" then mret tt else _ ← send_text (AIReply "tool_confirmation") c said; mret tt) g3 (fun _ _ => True)).
  { intros said g3 Hs H5 H6 Hin. destruct (String.eqb said ""); [done |].
    apply extends_call; [| done]. split; [| done]. intros _. right. split_and!; [done.. |]. by exists tap, text, oh, said. }
  destruct oh.
  - unfold outOfHoursText. apply extends_assoc, extends_call; [by apply hush_pre |]. intros s _.
    match goal with |- pext (mret ?a ≫= ?f) _ _ => change (mret a ≫= f) with (f a) end. cbv beta.
    apply Hend; simpl; [done | lia | congruence | by right; left].
  - match goal with |- pext (mret ?a ≫= ?f) _ _ => change (mret a ≫= f) with (f a) end. cbv beta.
    apply Hend; simpl; [done | lia | congruence | by left].
Qed.
Lemma said_route account c from wamid e g : psends g = 0 -> last_active g = None -> pext (route_message account c from wamid e) g (fun _ _ => True).
Proof.
  intros Hg Hn. unfold ChatProcessor.route_message. destruct (isAIToolConfirmationButton _); [by apply said_tap |].
  apply extends_call; [done |]. intros active _.
  destruct active.
  - apply hush_end, only_bind; [apply att_hush, reevaluate_silent | done].
  - assert (H1 : may_speak (Ev (PHasActive (acc_Org account) (row_of c)) false :: g)) by (split; [simpl; lia | done]).
    apply may_speak_call; [done | by split |]. intros [settings |] g2 H2 _; [| by apply extends_ret].
    destruct (negb _); [apply att_said; [done | apply to_queue_at_most] |].
    apply may_speak_hush; [done | auto with whatc |]. intros closed g3 H3.
    destruct (closed && _); [auto with whatc | by apply said_turn].
Qed.

Abbreviation processIncomingMessageFull :=
  (processIncomingMessageFull ParseFloat FormatFloat Sprint fuel expr_run regex json_object json_marshal uuid_parse uuid_text to_lower assigner).
Lemma said_process phone msg name : pext (processIncomingMessageFull phone msg name) [] (fun _ _ => True).
Proof.
  unfold ChatProcessor.processIncomingMessageFull.
  apply hush_bind; [by split |]. intros [account |] g1 H1 L1; [| by apply extends_ret].
  destruct (when_type _ _ _) as [[m emoji] |]; [apply hush_end; auto with whatc |].
  apply hush_bind; [by split |]. intros [[c new] |] g2 H2 L2; [| by apply extends_ret].
  apply hush_bind; [by split |]. intros bsuid g3 H3 L3. apply hush_bind; [solve_only |]. intros _ g4 H4 L4.
  apply hush_bind; [solve_only |]. intros _ g5 H5 L5. apply hush_bind; [auto with whatc |]. intros e g6 H6 L6.
  apply hush_bind; [auto with whatc |]. intros _ g7 H7 L7. apply hush_bind; [auto with whatc |]. intros _ g8 H8 L8.
  apply said_route; simpl in *; [lia | congruence].
Qed.

End Speaking.

(** ** A keyword, answered *)
Definition ex_message : IncomingTextMessage :=
  MkIncoming "5511" "" "wamid.1" "text" (Some "quero boleto") None None None None None None None None None None [].
