(* ===== verification/Sla.v ===== *)
(** The periodic SLA pass ([internal/handlers/sla_processor.go], the settings it visits of
    [internal/handlers/cache.go]): automatic closes, escalation, breach marking, chatbot
    reminders, the inactivity sweep, and the marking of occurrences and opportunities. *)
From S2P Require Import Prelude Effects Sql Assignment BusinessHours Attendance Distribution TransferApi.

Fixpoint for_each {A} (f : A -> Prog unit) (l : list A) : Prog unit :=
  match l with [] => mret tt | x :: l => _ ← f x; for_each f l end.

(** ** Who answered whom *)
Definition sent_by_agent (t : AgentTransfer) (agent : uuid) (since : instant) (m : MessageRow) : bool :=
  N.eqb (m_Contact m) (tr_Contact t) && bool_decide (m_SentBy m = Some agent) && negb (m_Incoming m) && (since <? m_CreatedAt m) && negb (m_Deleted m).
Definition responses (t : AgentTransfer) (agent : uuid) (since : instant) : att_op Z :=
  ARead 0 (fun s => sql_count (sent_by_agent t agent since) (a_messages s)).
Definition agentRespondedSince (t : AgentTransfer) (since : instant) : Prog bool :=
  match tr_AgentID t with
  | None => mret false
  | Some agent => n ← call (responses t agent since); mret (0 <? n)
  end.
Definition from_customer (t : AgentTransfer) (m : MessageRow) : bool := N.eqb (m_Contact m) (tr_Contact t) && m_Incoming m.
(** [SELECT MAX(created_at)]: without a row the zero time stays. *)
Definition last_spoke (t : AgentTransfer) : att_op instant := ARead 0 (fun s => default 0 (last_instant (from_customer t) s)).
Definition since_last_spoke (t : AgentTransfer) (x : instant) : instant := if x <? tr_TransferredAt t then tr_TransferredAt t else x.
Definition customerLastSpokeAt (t : AgentTransfer) : Prog instant := x ← call (last_spoke t); mret (since_last_spoke t x).

(** ** Telling the customer and the team *)
Definition contact_of (t : AgentTransfer) : Prog (option Contact) :=
  c ← call (ATry (fun s => sql_first (contact_id (tr_Contact t)) (a_contacts s)));
  mret (match c with Ok c => c | Err _ => None end).
Definition sendSLATextToCustomer (t : AgentTransfer) (text : string) : Prog unit :=
  c ← contact_of t;
  match c with
  | Some c => _ ← call (AMessage (tr_Org t) (op_Account (tr_Open t)) (c_ID c) text); mret tt
  | None => mret tt
  end.
Definition send_if_set (t : AgentTransfer) (text : string) : Prog unit :=
  if String.eqb text "" then mret tt else sendSLATextToCustomer t text.
Definition broadcastTransferUpdate (t : AgentTransfer) (kind : string) : Prog unit := call (AEmit (ETransferUpdate t kind)).
Definition TypeTransferExpired : string := "transfer_expired".
Definition TypeTransferEscalated : string := "transfer_escalated".

Definition record_first_response (t : AgentTransfer) : Prog unit :=
  sla ← match FirstResponseAt (tr_SLA t) with
        | None => now ← call ANow; mret (UpdateSLAOnFirstResponse now (tr_SLA t))
        | Some _ => mret (tr_SLA t)
        end;
  match FirstResponseAt sla with
  | Some x => _ ← call (AWrite (WSLA (tr_ID t) (SetFirstResponseAt x))); mret tt
  | None => mret tt
  end.

Section Pass.
Context (settings : ChatbotSettings) (now : instant).
Let org := st_Org settings.
Let sla := SLA settings.
Let inactivity := ClientInactivity settings.

Definition after_mins (n : Z) : instant := now + wrap64 (n * minute).
Definition after_hours (n : Z) : instant := now + wrap64 (n * hour).

Definition expire_update (t : AgentTransfer) (note : string) : CloseUpdate :=
  MkClose CloseExpired now None (Some (tr_Notes t +:+ note)).
Definition expired_note : string := String (Ascii.ascii_of_N 10) "[Auto-closed: No agent response within SLA]".
Definition inactive_note : string := String (Ascii.ascii_of_N 10) "[Auto-closed: no interaction within the inactivity window]".

(** ** Expired attendances *)
Definition expired (t : AgentTransfer) : bool :=
  N.eqb (tr_Org t) org && is_status TransferActive t && overdue now (ExpiresAt (tr_SLA t)) && negb (tr_Deleted t).
Definition list_expired : att_op (result att_error (list AgentTransfer)) := ATry (fun s => List.filter expired (a_transfers s)).
(** The agent is still answering if they wrote since the deadline was last set. *)
Definition expiry_window (d : instant) : instant := d + wrap64 (- AutoCloseHours sla * hour).
Definition close_expired (t : AgentTransfer) : Prog unit :=
  answering ← match ExpiresAt (tr_SLA t) with Some d => agentRespondedSince t (expiry_window d) | None => mret false end;
  if (answering : bool) then
    _ ← call (AWrite (WSLA (tr_ID t) (SetExpiresAt (after_hours (AutoCloseHours sla)))));
    record_first_response t
  else
    _ ← send_if_set t (AutoCloseMessage sla);
    c ← contact_of t;
    r ← closeAttendance t c (expire_update t expired_note) None "transfer.resumed";
    match r with
    | Err _ => mret tt
    | Ok _ => broadcastTransferUpdate (apply_close (expire_update t expired_note) t) TypeTransferExpired
    end.
Definition autoCloseExpiredTransfers : Prog unit :=
  ts ← call list_expired;
  match ts with Ok ts => for_each close_expired ts | Err _ => mret tt end.

(** ** Escalation *)
Definition to_escalate (t : AgentTransfer) : bool :=
  N.eqb (tr_Org t) org && is_status TransferActive t && overdue now (EscalationAt (tr_SLA t)) && (EscalationLevel (tr_SLA t) <? 2) && negb (tr_Deleted t).
Definition list_to_escalate : att_op (result att_error (list AgentTransfer)) := ATry (fun s => List.filter to_escalate (a_transfers s)).
Definition notifyEscalation (t : AgentTransfer) (level : Z) : Prog unit :=
  match EscalationNotifyIDs sla with
  | [] => mret tt
  | _ => c ← contact_of t;
         match c with Some _ => call (AEmit (EEscalation t level)) | None => mret tt end
  end.
Definition escalation_of (t : AgentTransfer) : SLAUpdate :=
  Escalate (EscalationLevel (tr_SLA t) + 1) now (negb (Breached (tr_SLA t)) && overdue now (ResponseDeadline (tr_SLA t))).
Definition escalate (t : AgentTransfer) : Prog unit :=
  since ← customerLastSpokeAt t;
  answered ← agentRespondedSince t since;
  if (answered : bool) then
    _ ← call (AWrite (WSLA (tr_ID t) (SetEscalationAt (after_mins (EscalationMinutes sla)))));
    record_first_response t
  else
    r ← call (AWrite (WSLA (tr_ID t) (escalation_of t)));
    match r with
    | Err _ => mret tt
    | Ok _ =>
        let t' := set_sla (apply_sla (escalation_of t)) t in
        let level := EscalationLevel (tr_SLA t) + 1 in
        _ ← notifyEscalation t' level;
        _ ← broadcastTransferUpdate t' TypeTransferEscalated;
        if level =? 1 then send_if_set t' (WarningMessage sla) else mret tt
    end.
Definition escalateTransfers : Prog unit :=
  ts ← call list_to_escalate;
  match ts with Ok ts => for_each escalate ts | Err _ => mret tt end.

Definition markSLABreached : Prog unit := _ ← call (AWrite (WMarkBreached org now)); mret tt.

(** ** Silent customers of the chatbot *)
Definition awaiting_client (c : Contact) : bool := N.eqb (c_Org c) org && bool_decide (is_Some (c_ChatbotLastMessageAt c)) && negb (c_Deleted c).
Definition list_awaiting : att_op (result att_error (list Contact)) := ATry (fun s => List.filter awaiting_client (a_contacts s)).
Definition sendChatbotReminder (c : Contact) : Prog unit :=
  if String.eqb (ReminderMessage inactivity) "" then mret tt
  else
    sent ← call (AMessage (c_Org c) (c_Account c) (c_ID c) (ReminderMessage inactivity));
    if (sent : bool) then _ ← call (AWrite (WReminderSent (c_ID c))); mret tt else mret tt.
Definition autoCloseChatbotSession (c : Contact) : Prog unit :=
  _ ← (if String.eqb (ci_AutoCloseMessage inactivity) "" then mret tt
       else _ ← call (AMessage (c_Org c) (c_Account c) (c_ID c) (ci_AutoCloseMessage inactivity)); mret tt);
  clear_tracking (c_ID c).
Definition silent_for (c : Contact) (mins : Z) : bool :=
  match c_ChatbotLastMessageAt c with
  | Some x => (0 <? mins) && (wrap64 (mins * minute) <=? time_sub now x)
  | None => false
  end.
Definition remind_or_close (c : Contact) : Prog unit :=
  has ← hasActive org (c_ID c);
  if (has : bool) then mret tt
  else if silent_for c (AutoCloseMinutes inactivity) then autoCloseChatbotSession c
  else if silent_for c (ReminderMinutes inactivity) && negb (c_ReminderSent c) then sendChatbotReminder c
  else mret tt.
Definition processClientInactivity : Prog unit :=
  cs ← call list_awaiting;
  match cs with Ok cs => for_each remind_or_close cs | Err _ => mret tt end.

(** ** Attendances in which nobody writes *)
Definition before (threshold : instant) (x : option instant) : bool := match x with Some x => x <? threshold | None => false end.
Definition quiet (threshold : instant) (s : Att) (t : AgentTransfer) : bool :=
  N.eqb (tr_Org t) org && is_status TransferActive t && (tr_TransferredAt t <? threshold) &&
  (bool_decide (PickedUpAt (tr_SLA t) = None) || before threshold (PickedUpAt (tr_SLA t))) &&
  existsb (fun c => contact_id (tr_Contact t) c && before threshold (c_LastMessageAt c)) (a_contacts s) && negb (tr_Deleted t).
Definition inactivity_threshold : instant := now + wrap64 (- AutoCloseMinutes inactivity * minute).
Definition list_quiet : att_op (result att_error (list AgentTransfer)) :=
  ATry (fun s => List.filter (quiet inactivity_threshold s) (a_transfers s)).
Definition close_inactive (t : AgentTransfer) : Prog unit :=
  c ← contact_of t;
  r ← closeAttendance t c (expire_update t inactive_note) None "transfer.resumed";
  match r with
  | Err _ => mret tt
  | Ok _ => _ ← send_if_set t (ci_AutoCloseMessage inactivity);
            broadcastTransferUpdate (apply_close (expire_update t inactive_note) t) TypeTransferExpired
  end.
Definition closeInactiveAttendances : Prog unit :=
  if AutoCloseMinutes inactivity <=? 0 then mret tt
  else
    ts ← call list_quiet;
    match ts with Ok ts => for_each close_inactive ts | Err _ => mret tt end.

(** ** Occurrences and opportunities *)
Definition processOccurrenceSLA : Prog unit :=
  _ ← call (AWrite (WMarkOccurrences org now false));
  _ ← call (AWrite (WMarkOccurrences org now true)); mret tt.
Definition processSalesOpportunitySLA : Prog unit := _ ← call (AWrite (WMarkOpportunities org now)); mret tt.

Definition when (b : bool) (p : Prog unit) : Prog unit := if b then p else mret tt.
Definition processOrganizationSLA : Prog unit :=
  _ ← when (sla_Enabled sla) (
    _ ← when (0 <? AutoCloseHours sla) autoCloseExpiredTransfers;
    _ ← when (0 <? EscalationMinutes sla) escalateTransfers;
    _ ← when (0 <? ResponseMinutes sla) markSLABreached;
    when (ReminderEnabled inactivity) processClientInactivity);
  _ ← when (CloseInactiveAttendances inactivity) closeInactiveAttendances;
  _ ← when (OccurrenceEnabled sla) processOccurrenceSLA;
  when (SalesOpportunityEnabled sla) processSalesOpportunitySLA.
End Pass.

(** The rows of settings the tick visits; the cached list may be old. *)
Definition sla_settings_row (st : ChatbotSettings) : bool :=
  (sla_Enabled (SLA st) || CloseInactiveAttendances (ClientInactivity st) || OccurrenceEnabled (SLA st) || SalesOpportunityEnabled (SLA st)) &&
  negb (st_Deleted st).
Definition getSLAEnabledSettingsCached (cached : option (list ChatbotSettings)) : Prog (Res (list ChatbotSettings)) :=
  match cached with
  | Some l => mret (Ok l)
  | None => call (ATry (fun s => List.filter sla_settings_row (a_settings s)))
  end.
Definition processStaleTransfers (cached : option (list ChatbotSettings)) : Prog unit :=
  now ← call ANow;
  l ← getSLAEnabledSettingsCached cached;
  match l with Ok l => for_each (fun st => processOrganizationSLA st now) l | Err _ => mret tt end.

(** * What a pass may do

    A warrant says which answers have to precede an operation, and what those answers say of the
    state they were given in, whatever that state was: [told P g] if only a state with [P] gives one
    of them, [counted n P g] if a read answered [n] and [P] holds where [n] is the truth (a read that
    fails answers its zero value). *)
Abbreviation trace := (list (event att_op)).
Definition told (P : Att -> Prop) (g : trace) : Prop :=
  exists X (op : att_op X) x, Ev op x ∈ g /\ plausible X op x /\ forall s s', att_sem X op s x s' -> P s.
Definition counted {N} (n : N) (P : Att -> Prop) (g : trace) : Prop :=
  exists zero f, Ev (ARead zero f) n ∈ g /\ forall s, f s = n -> P s.

(** What an earlier trace warrants a later one does. *)
Definition grows (P : trace -> Prop) : Prop := forall g g', later g g' -> P g -> P g'.
Lemma grows_told P : grows (told P).
Proof. intros g g' Hl (X & op & x & H & ?). exists X, op, x. split; [by eapply later_in | done]. Qed.
Lemma grows_counted {N} (n : N) P : grows (counted n P).
Proof. intros g g' Hl (zero & f & H & ?). exists zero, f. split; [by eapply later_in | done]. Qed.
Lemma grows_in e : grows (fun g => e ∈ g).
Proof. intros g g'. apply later_in. Qed.
Lemma grows_const P : grows (fun _ => P).
Proof. by intros g g' _. Qed.
Lemma grows_and P Q : grows P -> grows Q -> grows (fun g => P g /\ Q g).
Proof. intros HP HQ g g' Hl [? ?]. split; [by eapply HP | by eapply HQ]. Qed.
Lemma grows_or P Q : grows P -> grows Q -> grows (fun g => P g \/ Q g).
Proof. intros HP HQ g g' Hl [? | ?]; [left; by eapply HP | right; by eapply HQ]. Qed.
Lemma grows_ex {A} (P : A -> trace -> Prop) : (forall a, grows (P a)) -> grows (fun g => exists a, P a g).
Proof. intros HP g g' Hl [a H]. exists a. by eapply HP. Qed.
Lemma grows_option {A} (o : option A) (P : A -> trace -> Prop) : (forall a, grows (P a)) -> grows (fun g => match o with Some a => P a g | None => True end).
Proof. intros HP. destruct o; [apply HP | apply grows_const]. Qed.
Ltac solve_grows :=
  repeat match goal with
  | |- forall _, grows _ => intros ?
  | H : forall _ _, grows _ |- _ => apply H
  | |- _ => first [apply grows_const | apply grows_in | apply grows_told | apply grows_counted | apply grows_and | apply grows_or | apply grows_ex | apply grows_option]
  end.

Section Rules.
Context (settings : ChatbotSettings) (now : instant).
Let sla := SLA settings.
Let inactivity := ClientInactivity settings.

(** ** What the answers show *)
Definition open_row (t : AgentTransfer) : Prop := tr_Org t = st_Org settings /\ tr_Status t = TransferActive /\ tr_Deleted t = false.
(** A listing read the open attendance [t], where [P] held too. *)
Definition listed (t : AgentTransfer) (P : Att -> Prop) (g : trace) : Prop := open_row t /\ told (fun s => t ∈ a_transfers s /\ P s) g.
Definition wrote (t : AgentTransfer) (agent : uuid) (since : instant) (m : MessageRow) : Prop :=
  m_Contact m = tr_Contact t /\ m_SentBy m = Some agent /\ m_Incoming m = false /\ since < m_CreatedAt m /\ m_Deleted m = false.
Definition silent_agent (t : AgentTransfer) (since : instant) (g : trace) : Prop :=
  match tr_AgentID t with
  | Some a => exists n : Z, n <= 0 /\ counted n (fun s => forall m, m ∈ a_messages s -> ~ wrote t a since m) g
  | None => True
  end.
Definition answering_agent (t : AgentTransfer) (since : instant) (g : trace) : Prop :=
  exists a, tr_AgentID t = Some a /\ told (fun s => exists m, m ∈ a_messages s /\ wrote t a since m) g.
(** [since]: the customer's last message, or the opening of the attendance if that is later. *)
Definition spoke_last (t : AgentTransfer) (since : instant) (g : trace) : Prop :=
  exists x, since = Z.max x (tr_TransferredAt t) /\
    counted x (fun s => forall m, m ∈ a_messages s -> m_Contact m = tr_Contact t -> m_Incoming m = true -> m_Deleted m = false -> m_CreatedAt m <= x) g.
Definition past (d : option instant) : Prop := exists x, d = Some x /\ x < now.

Definition sla_on : Prop := sla_Enabled sla = true.
(** Past its deadline, the agent silent (or answering) since the deadline was last set. *)
Definition due (t : AgentTransfer) (agent : AgentTransfer -> instant -> trace -> Prop) (g : trace) : Prop :=
  sla_on /\ 0 < AutoCloseHours sla /\ listed t (fun _ => True) g /\
  exists d, ExpiresAt (tr_SLA t) = Some d /\ d < now /\ agent t (d + wrap64 (- AutoCloseHours sla * hour)) g.
(** Untouched since before the threshold: opened, picked up, and its contact's last message. *)
Definition untouched (t : AgentTransfer) (g : trace) : Prop :=
  let threshold := now + wrap64 (- AutoCloseMinutes inactivity * minute) in
  CloseInactiveAttendances inactivity = true /\ 0 < AutoCloseMinutes inactivity /\
  tr_TransferredAt t < threshold /\ (forall x, PickedUpAt (tr_SLA t) = Some x -> x < threshold) /\
  listed t (fun s => exists c x, c ∈ a_contacts s /\ c_ID c = tr_Contact t /\ c_Deleted c = false /\ c_LastMessageAt c = Some x /\ x < threshold) g.
(** Past its escalation, the agent silent (or answering) since the customer last spoke. *)
Definition escalating (t : AgentTransfer) (agent : AgentTransfer -> instant -> trace -> Prop) (g : trace) : Prop :=
  sla_on /\ 0 < EscalationMinutes sla /\ listed t (fun _ => True) g /\ past (EscalationAt (tr_SLA t)) /\ EscalationLevel (tr_SLA t) < 2 /\
  exists since, spoke_last t since g /\ agent t since g.
(** A contact in the chatbot who was silent for [mins], and nobody attends. *)
Definition silent_client (id : uuid) (mins : Z) (sent : bool -> Prop) (g : trace) : Prop :=
  sla_on /\ ReminderEnabled inactivity = true /\ 0 < mins /\ exists c x,
    c_ID c = id /\ c_Org c = st_Org settings /\ c_Deleted c = false /\ sent (c_ReminderSent c) /\
    c_ChatbotLastMessageAt c = Some x /\ wrap64 (mins * minute) <= time_sub now x /\
    told (fun s => c ∈ a_contacts s) g /\ counted false (fun s => forall t, t ∈ a_transfers s -> open_row t -> tr_Contact t <> id) g.
Definition to_remind (id : uuid) : trace -> Prop := silent_client id (ReminderMinutes inactivity) (fun sent => sent = false).
Definition to_let_go (id : uuid) : trace -> Prop := silent_client id (AutoCloseMinutes inactivity) (fun _ => True).
Definition was_closed (id : uuid) (c : option Contact -> Prop) (g : trace) : Prop := exists u k b, c k /\ Ev (AClose id u k) (Ok b) ∈ g.

(** ** What has to precede each operation *)
Definition its_contact (t : AgentTransfer) (k : option Contact) (g : trace) : Prop :=
  match k with Some c => c_ID c = tr_Contact t /\ told (fun s => c ∈ a_contacts s) g | None => True end.
Definition may_close (id : uuid) (u : CloseUpdate) (k : option Contact) (g : trace) : Prop :=
  exists t, tr_ID t = id /\ its_contact t k g /\
    ((u = expire_update now t expired_note /\ due t silent_agent g) \/ (u = expire_update now t inactive_note /\ untouched t g)).
Definition may_set (id : uuid) (u : SLAUpdate) (g : trace) : Prop :=
  exists t, tr_ID t = id /\
    match u with
    | Escalate level at_ _ => level = EscalationLevel (tr_SLA t) + 1 /\ at_ = now /\ escalating t silent_agent g
    | SetExpiresAt x => x = now + wrap64 (AutoCloseHours sla * hour) /\ due t answering_agent g
    | SetEscalationAt x => x = now + wrap64 (EscalationMinutes sla * minute) /\ escalating t answering_agent g
    | SetFirstResponseAt _ => due t answering_agent g \/ escalating t answering_agent g
    end.
(** What the customer is told: that the attendance expires, that it was escalated for the first
    time, that it was closed, that they are awaited, that the chatbot's session ends. *)
Definition may_tell (org contact : uuid) (text : string) (g : trace) : Prop :=
  org = st_Org settings /\ text <> "" /\
  ((exists t, tr_Contact t = contact /\
     ((text = AutoCloseMessage sla /\ due t silent_agent g) \/
      (text = WarningMessage sla /\ EscalationLevel (tr_SLA t) = 0 /\ escalating t silent_agent g /\
       exists breach, Ev (AWrite (WSLA (tr_ID t) (Escalate 1 now breach))) (Ok tt) ∈ g) \/
      (text = ci_AutoCloseMessage inactivity /\ untouched t g /\ was_closed (tr_ID t) (fun _ => True) g))) \/
   (text = ReminderMessage inactivity /\ to_remind contact g) \/ (text = ci_AutoCloseMessage inactivity /\ to_let_go contact g)).
Definition sla_pre X (op : att_op X) (g : trace) : Prop :=
  match op with
  | AClose id u k => may_close id u k g
  | AWrite (WSLA id u) => may_set id u g
  | AWrite (WMarkBreached org at_) => sla_on /\ 0 < ResponseMinutes sla /\ org = st_Org settings /\ at_ = now
  | AWrite (WMarkOccurrences org at_ _) => OccurrenceEnabled sla = true /\ org = st_Org settings /\ at_ = now
  | AWrite (WMarkOpportunities org at_) => SalesOpportunityEnabled sla = true /\ org = st_Org settings /\ at_ = now
  | AWrite (WReminderSent id) => to_remind id g /\ exists account, Ev (AMessage (st_Org settings) account id (ReminderMessage inactivity)) true ∈ g
  | AWrite (WTracking id last sent) => last = None /\ sent = false /\
      (to_let_go id g \/ exists attendance, was_closed attendance (fun k => exists c, k = Some c /\ c_ID c = id) g)
  | AMessage org _ contact text => may_tell org contact text g
  | _ => bookkeeping X op
  end.
Abbreviation passes p g R := (extends sla_pre plausible p g R).
Abbreviation fine := (fun _ _ => True).

(** ** What stays warranted *)
Lemma grows_listed t P : grows (listed t P).
Proof. unfold listed. solve_grows. Qed.
Lemma grows_silent t since : grows (silent_agent t since).
Proof. unfold silent_agent. solve_grows. Qed.
Lemma grows_answering t since : grows (answering_agent t since).
Proof. unfold answering_agent. solve_grows. Qed.
Lemma grows_due t agent : (forall t since, grows (agent t since)) -> grows (due t agent).
Proof. intros H. unfold due, listed. solve_grows. Qed.
Lemma grows_untouched t : grows (untouched t).
Proof. unfold untouched, listed. solve_grows. Qed.
Lemma grows_escalating t agent : (forall t since, grows (agent t since)) -> grows (escalating t agent).
Proof. intros H. unfold escalating, listed, spoke_last. solve_grows. Qed.
Lemma grows_client id mins sent : grows (silent_client id mins sent).
Proof. unfold silent_client. solve_grows. Qed.
Lemma grows_closed id c : grows (was_closed id c).
Proof. unfold was_closed. solve_grows. Qed.
Lemma grows_contact t k : grows (its_contact t k).
Proof. unfold its_contact. solve_grows. Qed.
#[local] Create HintDb grows.
#[local] Hint Resolve grows_silent grows_answering grows_listed grows_untouched grows_client grows_closed grows_contact : grows.
#[local] Hint Extern 1 (grows (due _ _)) => apply grows_due : grows.
#[local] Hint Extern 1 (grows (escalating _ _)) => apply grows_escalating : grows.
(** [H]: what was warranted before still is. *)
Ltac carry := match goal with
  | Hl : later ?g ?g', H : ?P ?g |- ?P ?g' => refine ((_ : grows P) g g' Hl H); solve [auto with grows]
  | H : ?P ?g |- ?P (?e :: ?g) => refine ((_ : grows P) g (e :: g) (later_cons e g) H); solve [auto with grows]
  end.

Lemma told_now {X} (op : att_op X) x (P : Att -> Prop) g : plausible X op x -> (forall s s', att_sem X op s x s' -> P s) -> told P (Ev op x :: g).
Proof. intros Hp H. exists X, op, x. split_and!; [by left | done | done]. Qed.
Lemma told_in {X} (op : att_op X) x (P : Att -> Prop) g : Ev op x ∈ g -> plausible X op x -> (forall s s', att_sem X op s x s' -> P s) -> told P g.
Proof. intros Hin Hp H. by exists X, op, x. Qed.
Lemma try_told {X} (f : Att -> X) x s s' : att_sem _ (ATry f) s (Ok x) s' -> x = f s.
Proof. by intros [_ [[= ->] | ?]]. Qed.
Lemma read_told {X} (zero : X) f x s s' : att_sem _ (ARead zero f) s x s' -> x <> zero -> x = f s.
Proof. by intros [_ [-> | ->]]. Qed.

(** Reading, auditing and telling the team: no write, no message. *)
Definition reporting X (op : att_op X) : Prop := match op with AMessage _ _ _ _ => False | _ => bookkeeping X op end.
Lemma reporting_pre X (op : att_op X) g : reporting X op -> sla_pre X op g.
Proof. destruct op; try done. by destruct w. Qed.
Lemma passes_reporting {A} (p : Prog A) g : only reporting p -> passes p g fine.
Proof. apply extends_only, reporting_pre. Qed.
Lemma reporting_ownership org actor id reason from to : only reporting (recordOwnership org actor id reason from to).
Proof. unfold recordOwnership. solve_only. Qed.
Lemma reporting_status c to actor : only reporting (notify_status c to actor).
Proof. unfold notify_status. solve_only. Qed.
#[local] Hint Resolve reporting_ownership reporting_status : whatc.

Lemma passes_for_each {X} (f : X -> Prog unit) xs (I : trace -> Prop) g :
  (forall g g', later g g' -> I g -> I g') -> (forall x g, x ∈ xs -> I g -> passes (f x) g fine) -> I g -> passes (for_each f xs) g fine.
Proof.
  intros Hl. revert g. induction xs as [| x xs IH]; intros g Hf HI; simpl; [by apply extends_ret |].
  eapply extends_bind; [apply Hf; [by left | done] |]. intros [] g' Hg _. apply IH; [| by eapply Hl]. intros x' g'' Hx. apply Hf. by right.
Qed.

(** ** What the reads show *)
Lemma sent_wrote t a since m : sent_by_agent t a since m = true <-> wrote t a since m.
Proof. unfold sent_by_agent, wrote. rewrite !andb_true_iff, N.eqb_eq, bool_decide_eq_true, !negb_true_iff, Z.ltb_lt. tauto. Qed.
Lemma responded_passes t since g :
  passes (agentRespondedSince t since) g (fun b g' => if (b : bool) then answering_agent t since g' else silent_agent t since g').
Proof.
  unfold agentRespondedSince, silent_agent. destruct (tr_AgentID t) as [a |] eqn:E; [| by apply extends_ret].
  apply extends_call; [done |]. intros n Hp. apply extends_ret. destruct (Z.ltb_spec 0 n) as [Hn | Hn].
  - exists a. split; [done |]. apply told_now; [done |]. intros s s' Hs. apply read_told in Hs as ->; [| lia].
    apply sql_count_pos in Hn as (m & Hm & Hw). exists m. split; [done | by apply sent_wrote].
  - exists n. split; [done |]. exists 0, (fun s => sql_count (sent_by_agent t a since) (a_messages s)). split; [by left |]. intros s <- m Hm Hw.
    assert (0 < sql_count (sent_by_agent t a since) (a_messages s)) by (apply sql_count_pos; exists m; split; [done | by apply sent_wrote]). lia.
Qed.
Lemma last_spoke_latest t s m : m ∈ a_messages s -> m_Contact m = tr_Contact t -> m_Incoming m = true -> m_Deleted m = false ->
  m_CreatedAt m <= default 0 (last_instant (from_customer t) s).
Proof.
  intros Hm H1 H2 H3. unfold last_instant. set (rows := List.filter _ _).
  assert (Hin : m ∈ rows) by (apply list_elem_of_In, List.filter_In; split; [by apply list_elem_of_In | unfold from_customer; by rewrite H1, H2, H3, N.eqb_refl]).
  destruct (sql_min _ rows) as [x |] eqn:E.
  - apply sql_min_spec in E as [_ E]; [by apply Z.leb_le, E | intros a b; rewrite Z.leb_gt, Z.leb_le; lia | intros a b c; rewrite !Z.leb_le; lia].
  - apply sql_min_none in E. rewrite E in Hin. by apply not_elem_of_nil in Hin.
Qed.
Lemma spoke_passes t g : passes (customerLastSpokeAt t) g (fun since g' => spoke_last t since g').
Proof.
  unfold customerLastSpokeAt. apply extends_call; [done |]. intros x _. apply extends_ret. exists x. split.
  - unfold since_last_spoke. destruct (Z.ltb_spec x (tr_TransferredAt t)); lia.
  - exists 0, (fun s => default 0 (last_instant (from_customer t) s)). split; [by left |]. intros s <- m. apply last_spoke_latest.
Qed.
Lemma contact_passes t g : passes (contact_of t) g (fun k g' => its_contact t k g').
Proof.
  unfold contact_of. apply extends_call; [done |]. intros [[c |] | e] Hp; apply extends_ret; try done.
  assert (H : forall s s', att_sem _ (ATry (fun s => sql_first (contact_id (tr_Contact t)) (a_contacts s))) s (Ok (Some c)) s' -> c ∈ a_contacts s /\ c_ID c = tr_Contact t).
  { intros s s' E%try_told. symmetry in E. apply find_some in E as [Hin [Hid%N.eqb_eq _]%andb_true_iff]. split; [by apply list_elem_of_In | done]. }
  split; [destruct Hp as (s & s' & Hs); by eapply H |]. apply told_now; [done |]. intros s s' Hs. by eapply H.
Qed.

(** ** What is written and told *)
Lemma text_passes t text g : (text <> "" -> forall g', later g g' -> may_tell (tr_Org t) (tr_Contact t) text g') -> passes (send_if_set t text) g fine.
Proof.
  intros H. unfold send_if_set, sendSLATextToCustomer. destruct (String.eqb_spec text ""); [by apply extends_ret |].
  eapply extends_bind; [apply contact_passes |]. intros [c |] g1 Hl Hc; [| by apply extends_ret]. destruct Hc as [Hc _].
  apply extends_call; [| intros x _; by apply extends_ret]. simpl. rewrite Hc. by apply H.
Qed.
Lemma first_response_passes t g : due t answering_agent g \/ escalating t answering_agent g -> passes (record_first_response t) g fine.
Proof.
  intros H. unfold record_first_response. apply (extends_bind _ _ _ _ _ fine).
  - case_match; [by apply extends_ret | apply extends_call; [done |]; intros; by apply extends_ret].
  - intros k g1 Hl _. case_match; [| by apply extends_ret]. apply extends_call; [| intros; by apply extends_ret].
    exists t. split; [done |]. destruct H; [left | right]; carry.
Qed.
(** A close through the shared path: allowed if the closing statement is. *)
Lemma close_passes t k u actor webhook g :
  may_close (tr_ID t) u k g -> passes (closeAttendance t k u actor webhook) g (fun r g' => r = Ok tt -> was_closed (tr_ID t) (fun _ => True) g').
Proof.
  intros Hpre. unfold closeAttendance. apply extends_call; [done |]. intros [changed | e] _; [| by apply extends_ret].
  set (g1 := Ev _ _ :: g). assert (Hc : Ev (AClose (tr_ID t) u k) (Ok changed) ∈ g1) by by left.
  apply (extends_bind _ _ _ _ _ fine).
  - destruct k as [c |]; [| by apply extends_ret]. eapply extends_bind; [apply passes_reporting; destruct changed; solve_only |].
    intros _ g2 Hl _. unfold clear_tracking. apply extends_call; [| intros; by apply extends_ret].
    split_and!; [done | done | right]. exists (tr_ID t), u, (Some c), changed. split; [by exists c | by eapply later_in].
  - intros _ g2 Hl _. eapply extends_mono; [| apply passes_reporting; solve_only].
    intros r g3 Hl3 _ _. exists u, k, changed. split; [done |]. do 2 (eapply later_in; [eassumption |]). done.
Qed.

(** ** The listings *)
Lemma filter_told (p : Att -> AgentTransfer -> bool) (Q : Att -> Prop) ts t g (op := ATry (fun s => List.filter (p s) (a_transfers s))) :
  plausible _ op (Ok ts) -> Ev op (Ok ts) ∈ g -> t ∈ ts -> (forall s, p s t = true -> open_row t /\ Q s) -> listed t Q g.
Proof.
  intros Hp Hin Ht H.
  assert (Hs : forall s s', att_sem _ op s (Ok ts) s' -> t ∈ a_transfers s /\ p s t = true).
  { intros s s' ->%try_told. apply list_elem_of_In, List.filter_In in Ht as [? ?]. split; [by apply list_elem_of_In | done]. }
  split.
  - destruct Hp as (s & s' & [_ E]%Hs). by apply (H s).
  - eapply told_in; [exact Hin | exact Hp |]. intros s s' [H1 H2]%Hs. split; [done | by apply H].
Qed.
Lemma expired_spec t : expired settings now t = true -> open_row t /\ exists d, ExpiresAt (tr_SLA t) = Some d /\ d < now.
Proof.
  unfold expired, overdue, open_row. rewrite !andb_true_iff, N.eqb_eq, negb_true_iff. intros [[[Ho Hs%active_status] Hd] Hx]. split; [done |].
  destruct (ExpiresAt (tr_SLA t)) as [d |]; [| done]. exists d. split; [done | by apply Z.ltb_lt].
Qed.
Lemma to_escalate_spec t : to_escalate settings now t = true -> open_row t /\ past (EscalationAt (tr_SLA t)) /\ EscalationLevel (tr_SLA t) < 2.
Proof.
  unfold to_escalate, overdue, open_row, past. rewrite !andb_true_iff, N.eqb_eq, Z.ltb_lt, negb_true_iff. intros [[[[Ho Hs%active_status] He] Hl] Hx]. split_and!; try done.
  destruct (EscalationAt (tr_SLA t)) as [d |]; [| done]. exists d. split; [done | by apply Z.ltb_lt].
Qed.
Lemma quiet_spec threshold s t : quiet settings threshold s t = true ->
  open_row t /\ tr_TransferredAt t < threshold /\ (forall x, PickedUpAt (tr_SLA t) = Some x -> x < threshold) /\
  exists c x, c ∈ a_contacts s /\ c_ID c = tr_Contact t /\ c_Deleted c = false /\ c_LastMessageAt c = Some x /\ x < threshold.
Proof.
  unfold quiet, before, open_row. rewrite !andb_true_iff, orb_true_iff, bool_decide_eq_true, N.eqb_eq, Z.ltb_lt, existsb_exists, negb_true_iff.
  intros [[[[[Ho Hs%active_status] Ht] Hp] (c & Hc%list_elem_of_In & [[Hid%N.eqb_eq Hx%negb_true_iff]%andb_true_iff Hm]%andb_true_iff)] Hd]. split_and!; try done.
  - intros x E. rewrite E in Hp. destruct Hp as [? | Hp]; [done | by apply Z.ltb_lt].
  - destruct (c_LastMessageAt c) as [x |] eqn:E; [| done]. exists c, x. split_and!; try done. by apply Z.ltb_lt.
Qed.

Lemma close_expired_passes t ts g :
  sla_on -> 0 < AutoCloseHours sla -> t ∈ ts -> plausible _ (list_expired settings now) (Ok ts) -> Ev (list_expired settings now) (Ok ts) ∈ g ->
  passes (close_expired settings now t) g fine.
Proof.
  intros Hon Hh Ht Hp Hin.
  assert (Hl : listed t (fun _ => True) g) by (apply (filter_told (fun _ => expired settings now) _ ts); try done; by intros s [? _]%expired_spec).
  assert (Hd : exists d, ExpiresAt (tr_SLA t) = Some d /\ d < now).
  { destruct Hp as (s & s' & E%try_told). rewrite E in Ht. apply list_elem_of_In, List.filter_In in Ht as [_ Ht]. by apply expired_spec. }
  destruct Hd as (d & Hd & Hlt). unfold close_expired. rewrite Hd.
  assert (Hdue : forall agent g', later g g' -> agent t (expiry_window settings d) g' -> due t agent g').
  { intros agent g' Hg Ha. refine (conj Hon (conj Hh (conj _ _))); [carry | by exists d]. }
  eapply extends_bind; [apply responded_passes |]. intros [] g1 Hl1 Hr; simpl in Hr.
  - pose proof (Hdue answering_agent g1 Hl1 Hr) as Ha. apply extends_call; [exists t; split_and!; done |].
    intros r _. apply first_response_passes. left. carry.
  - pose proof (Hdue silent_agent g1 Hl1 Hr) as Ha. eapply extends_bind.
    { apply text_passes. intros Hne g' Hg. split_and!; [apply Hl | done |]. left. exists t. split; [done |]. left. split; [done | carry]. }
    intros _ g2 Hl2 _. eapply extends_bind; [apply contact_passes |]. intros k g3 Hl3 Hk.
    assert (Ha3 : due t silent_agent g3). { assert (Hl13 : later g1 g3) by by etrans. carry. }
    eapply extends_bind; [apply close_passes; exists t; split_and!; [done | done | by left] |].
    intros r g4 _ _. destruct r; [apply passes_reporting; unfold broadcastTransferUpdate; solve_only | by apply extends_ret].
Qed.
Lemma escalate_passes t ts g :
  sla_on -> 0 < EscalationMinutes sla -> t ∈ ts -> plausible _ (list_to_escalate settings now) (Ok ts) -> Ev (list_to_escalate settings now) (Ok ts) ∈ g ->
  passes (escalate settings now t) g fine.
Proof.
  intros Hon Hm Ht Hp Hin.
  assert (Hl : listed t (fun _ => True) g) by (apply (filter_told (fun _ => to_escalate settings now) _ ts); try done; by intros s [? _]%to_escalate_spec).
  assert (Hd : past (EscalationAt (tr_SLA t)) /\ EscalationLevel (tr_SLA t) < 2).
  { destruct Hp as (s & s' & E%try_told). rewrite E in Ht. apply list_elem_of_In, List.filter_In in Ht as [_ Ht]. by apply to_escalate_spec. }
  destruct Hd as [Hd Hlev]. unfold escalate. eapply extends_bind; [apply spoke_passes |]. intros since g1 Hl1 Hx.
  assert (Hesc : forall agent g', later g1 g' -> agent t since g' -> escalating t agent g').
  { intros agent g' Hg Ha. assert (Hgg : later g g') by by etrans. refine (conj Hon (conj Hm (conj _ (conj Hd (conj Hlev _))))); [carry |]. exists since. split; [| done].
    refine ((_ : grows (spoke_last t since)) g1 g' Hg Hx). unfold spoke_last. solve_grows. }
  eapply extends_bind; [apply responded_passes |]. intros [] g2 Hl2 Hr; simpl in Hr.
  - pose proof (Hesc answering_agent g2 Hl2 Hr) as Ha. apply extends_call; [exists t; split_and!; done |].
    intros r _. apply first_response_passes. right. carry.
  - pose proof (Hesc silent_agent g2 Hl2 Hr) as Ha. apply extends_call; [exists t; split_and!; done |].
    intros [[] | e] _; [| by apply extends_ret]. set (g3 := Ev _ _ :: g2). assert (Hin3 : Ev (AWrite (WSLA (tr_ID t) (escalation_of now t))) (Ok tt) ∈ g3) by by left.
    assert (Hl23 : later g2 g3) by apply later_cons. assert (Ha3 : escalating t silent_agent g3) by carry.
    eapply extends_bind; [apply passes_reporting; unfold notifyEscalation, contact_of; solve_only |]. intros _ g4 Hl4 _.
    eapply extends_bind; [apply passes_reporting; unfold broadcastTransferUpdate; solve_only |]. intros _ g5 Hl5 _.
    destruct (Z.eqb_spec (EscalationLevel (tr_SLA t) + 1) 1) as [E1 |]; [| by apply extends_ret].
    apply (text_passes (set_sla (apply_sla (escalation_of now t)) t)). intros Hne g' Hg.
    assert (Hl36 : later g3 g') by (do 2 (etrans; [eassumption |]); done).
    split_and!; [apply Hl | done |]. left. exists t. split; [done |]. right; left. split_and!; [done | lia | carry |].
    unfold escalation_of in Hin3. rewrite E1 in Hin3. eexists. eapply later_in; [exact Hl36 | exact Hin3].
Qed.
Lemma close_inactive_passes t ts g :
  CloseInactiveAttendances inactivity = true -> 0 < AutoCloseMinutes inactivity ->
  t ∈ ts -> plausible _ (list_quiet settings now) (Ok ts) -> Ev (list_quiet settings now) (Ok ts) ∈ g ->
  passes (close_inactive settings now t) g fine.
Proof.
  intros Hon Hm Ht Hp Hin.
  assert (Hu : untouched t g).
  { refine (conj Hon (conj Hm (conj _ (conj _ _)))); [| | apply (filter_told (quiet settings (inactivity_threshold settings now)) _ ts); try done; intros s (H1 & _ & _ & H2)%quiet_spec; by split].
    all: destruct Hp as (s & s' & E%try_told); rewrite E in Ht; apply list_elem_of_In, List.filter_In in Ht as [_ Ht]; by apply quiet_spec in Ht as (_ & ? & ? & _). }
  unfold close_inactive. eapply extends_bind; [apply contact_passes |]. intros k g1 Hl1 Hk. assert (Hu1 : untouched t g1) by carry.
  eapply extends_bind; [apply close_passes; exists t; split_and!; [done | done | by right] |].
  intros r g2 Hl2 Hc. destruct r as [[] |]; [| by apply extends_ret]. specialize (Hc eq_refl).
  eapply extends_bind; [| intros _ g3 _ _; apply passes_reporting; unfold broadcastTransferUpdate; solve_only].
  apply text_passes. intros Hne g' Hg. split_and!; [apply Hu | done |]. left. exists t. split; [done |]. right; right. split_and!; [done | | carry].
  assert (Hl1' : later g1 g') by by etrans. carry.
Qed.

(** A pass that lists attendances and treats each. *)
Lemma listing_passes (op : att_op (result att_error (list AgentTransfer))) (f : AgentTransfer -> Prog unit) g :
  sla_pre _ op g -> (forall ts t g, plausible _ op (Ok ts) -> t ∈ ts -> Ev op (Ok ts) ∈ g -> passes (f t) g fine) ->
  passes (ts ← call op; match ts with Ok ts => for_each f ts | Err _ => mret tt end) g fine.
Proof.
  intros Hpre Hf. apply extends_call; [done |]. intros [ts | e] Hp; [| by apply extends_ret].
  apply (passes_for_each f ts (fun g => Ev op (Ok ts) ∈ g)); [intros; by eapply later_in | | by left].
  intros t g' Ht Hin. by eapply Hf.
Qed.

(** ** The clients of the chatbot *)
Lemma client_passes c cs g :
  sla_on -> ReminderEnabled inactivity = true -> c ∈ cs -> plausible _ (list_awaiting settings) (Ok cs) -> Ev (list_awaiting settings) (Ok cs) ∈ g ->
  passes (remind_or_close settings now c) g fine.
Proof.
  intros Hon Hr Hc Hp Hin. unfold remind_or_close.
  assert (Hs : forall s s', att_sem _ (list_awaiting settings) s (Ok cs) s' -> c ∈ a_contacts s /\ c_Org c = st_Org settings /\ c_Deleted c = false).
  { intros s s' ->%try_told. apply list_elem_of_In, List.filter_In in Hc as [Hc [[Ho%N.eqb_eq _]%andb_true_iff Hd%negb_true_iff]%andb_true_iff]. split_and!; [by apply list_elem_of_In | done | done]. }
  assert (Hc' : c_Org c = st_Org settings /\ c_Deleted c = false) by (destruct Hp as (s & s' & H%Hs); tauto). destruct Hc' as [Ho Hd].
  apply extends_call; [done |]. intros has _. destruct has; [by apply extends_ret |]. set (g1 := Ev _ false :: g).
  assert (Hto : forall mins (sent : bool -> Prop) g', later g1 g' -> silent_for now c mins = true -> sent (c_ReminderSent c) -> silent_client (c_ID c) mins sent g').
  { intros mins sent g' Hl Hm Hsent. unfold silent_for in Hm. destruct (c_ChatbotLastMessageAt c) as [x |] eqn:E; [| done]. apply andb_true_iff in Hm as [Hm%Z.ltb_lt Hx%Z.leb_le].
    refine (conj Hon (conj Hr (conj Hm _))). exists c, x. refine (conj eq_refl (conj Ho (conj Hd (conj Hsent (conj E (conj Hx (conj _ _))))))).
    - eapply told_in; [| exact Hp | intros s s' H; by apply (Hs s s')]. eapply later_in; [exact Hl |]. by right.
    - exists false, (hasActiveAgentTransfer (st_Org settings) (c_ID c)). split; [eapply later_in; [exact Hl | by left] |].
      intros s Hf t Ht (H1 & H2 & H3) H4. assert (Hpos : hasActiveAgentTransfer (st_Org settings) (c_ID c) s = true); [| congruence].
      apply Z.ltb_lt, sql_count_pos. exists t. split; [done | by apply active_of_spec]. }
  destruct (silent_for now c (AutoCloseMinutes _)) eqn:E1; [| destruct (silent_for now c (ReminderMinutes _) && _) eqn:E2; [apply andb_true_iff in E2 as [E2 E3%negb_true_iff] | by apply extends_ret]].
  - assert (Hgo : forall g', later g1 g' -> to_let_go (c_ID c) g') by (intros g' Hl; by apply Hto).
    unfold autoCloseChatbotSession. apply (extends_bind _ _ _ _ _ fine).
    + destruct (String.eqb_spec (ci_AutoCloseMessage (ClientInactivity settings)) ""); [by apply extends_ret |]. apply extends_call; [| intros; by apply extends_ret].
      split_and!; [done | done | right; right]. split; [done | by apply Hgo].
    + intros _ g3 Hl3 _. unfold clear_tracking. apply extends_call; [| intros; by apply extends_ret]. split_and!; [done | done | left; by apply Hgo].
  - assert (Hgo : forall g', later g1 g' -> to_remind (c_ID c) g') by (intros g' Hl; by apply Hto).
    unfold sendChatbotReminder. destruct (String.eqb_spec (ReminderMessage (ClientInactivity settings)) ""); [by apply extends_ret |].
    apply extends_call; [split_and!; [done | done | right; left]; split; [done | by apply Hgo] |]. intros sent _. destruct sent; [| by apply extends_ret].
    apply extends_call; [| intros; by apply extends_ret]. split; [by apply Hgo, later_cons |]. exists (c_Account c). rewrite <- Ho. by left.
Qed.
Lemma reminders_pass g : sla_on -> ReminderEnabled inactivity = true -> passes (processClientInactivity settings now) g fine.
Proof.
  intros Hon Hr. unfold processClientInactivity. apply extends_call; [done |]. intros [cs | e] Hp; [| by apply extends_ret].
  apply (passes_for_each _ _ (fun g => Ev (list_awaiting settings) (Ok cs) ∈ g)); [intros; by eapply later_in | | by left]. intros c g1 Hc Hin. by apply (client_passes c cs).
Qed.

Lemma when_passes b p g : (b = true -> passes p g fine) -> passes (when b p) g fine.
Proof. intros H. destruct b; [by apply H | by apply extends_ret]. Qed.
End Rules.

(** C28: whatever happens meanwhile and whatever fails, a pass over an organization writes and
    sends only what its switches turned on and what it read before justifies, in the state it read
    it in.  It closes an attendance only as expired, open and past its deadline with no message of
    its agent in the window before it, or as untouched: opened before the inactivity threshold,
    picked up before it if at all, and with the last message of its contact before it; it escalates only one level at a time, to 2 at
    most, past the deadline of the escalation and with no message of the agent since the customer's
    last; it moves those deadlines only where the agent wrote in that time. The chatbot's clients it
    reminds or lets go are silent for the time configured and nobody attends them. It tells a
    customer only that their attendance expires, that it was escalated for the first time (written
    before), that it was closed for inactivity (committed before), or the chatbot's two texts, each
    under the same conditions. (A count that fails reads as zero messages.) *)
Theorem sla_pass_justified settings now :
  ensures (sla_pre settings now) (trace_contract plausible) (processOrganizationSLA settings now) [] (fun _ _ => True).
Proof.
  eapply extends_ensures with (R := fun _ _ => True). unfold processOrganizationSLA.
  eapply extends_bind; [| intros _ g1 _ _; eapply extends_bind; [| intros _ g2 _ _; eapply extends_bind; [| intros _ g3 _ _]]].
  - apply when_passes. intros Hon. eapply extends_bind; [| intros _ g1 _ _; eapply extends_bind; [| intros _ g2 _ _; eapply extends_bind; [| intros _ g3 _ _]]].
    + apply when_passes. intros Hh%Z.ltb_lt. apply listing_passes; [done |]. intros ts t g Hp Ht Hin. by apply (close_expired_passes settings now t ts).
    + apply when_passes. intros Hm%Z.ltb_lt. apply listing_passes; [done |]. intros ts t g Hp Ht Hin. by apply (escalate_passes settings now t ts).
    + apply when_passes. intros Hm%Z.ltb_lt. apply extends_call; [done |]. intros; by apply extends_ret.
    + apply when_passes. intros Hr. by apply reminders_pass.
  - apply when_passes. intros Hc. unfold closeInactiveAttendances. destruct (Z.leb_spec (AutoCloseMinutes (ClientInactivity settings)) 0); [by apply extends_ret |].
    apply listing_passes; [done |]. intros ts t g Hp Ht Hin. by apply (close_inactive_passes settings now t ts).
  - apply when_passes. intros Ho. do 2 (apply extends_call; [done |]; intros ? _). by apply extends_ret.
  - apply when_passes. intros Ho. apply extends_call; [done |]. intros; by apply extends_ret.
Qed.

(** * A pass without failures leaves nothing expired *)
Section Complete.
Context (settings : ChatbotSettings) (now : instant).

(** No attendance becomes expired. *)
Definition shrinks (s s' : Att) : Prop :=
  forall r', r' ∈ a_transfers s' -> expired settings now r' = true ->
    exists r, r ∈ a_transfers s /\ expired settings now r = true /\ tr_ID r = tr_ID r'.
#[local] Instance shrinks_preorder : PreOrder shrinks.
Proof.
  split; [intros s r H E; by exists r |]. intros s1 s2 s3 H12 H23 r3 H3 E3. destruct (H23 r3 H3 E3) as (r2 & H2 & E2 & <-). by apply H12.
Qed.
Lemma shrinks_same s s' : a_transfers s' = a_transfers s -> shrinks s s'.
Proof. intros E r. rewrite E. by exists r. Qed.
Lemma shrinks_update p f s :
  (forall r, tr_ID (f r) = tr_ID r /\ (expired settings now (f r) = true -> expired settings now r = true)) -> shrinks s (update_transfers p f s).
Proof.
  intros Hf r' (r & Hr & ->)%sql_update_in E. exists r. destruct (p r); [| done]. destruct (Hf r) as [Hid He]. split_and!; auto.
Qed.

Definition shrinking X (op : att_op X) : Prop :=
  match op with
  | AWrite (WSLA _ (SetExpiresAt x)) => now <= x
  | AWrite (WSLA _ (SetFirstResponseAt _)) | AWrite (WTracking _ _ _) | AClose _ _ _ => True
  | _ => bookkeeping X op
  end.
Lemma expired_closed u t : expired settings now (apply_close u t) = false.
Proof.
  unfold expired. replace (is_status TransferActive (apply_close u t)) with false; [by rewrite andb_false_r |].
  unfold is_status. symmetry. apply bool_decide_eq_false. simpl. by destruct (cl_Status u).
Qed.
Lemma expired_postponed x t : now <= x -> expired settings now (set_sla (apply_sla (SetExpiresAt x)) t) = false.
Proof. intros H. unfold expired. simpl. replace (x <? now) with false by (symmetry; by apply Z.ltb_ge). by rewrite andb_false_r. Qed.
Lemma shrinking_shrinks X (op : att_op X) s x s' : shrinking X op -> att_sem X op s x s' -> shrinks s s'.
Proof.
  destruct op; simpl; try done; try (by intros _ ->); try (by intros _ [-> _]).
  - intros _ (pr & ca & n & w & st & w' & _ & _ & ->). by apply shrinks_same.
  - intros Hw. apply keeps_sem, keeps_exec; [apply _ |]. intros s1. destruct w; try done; try (by apply shrinks_same).
    apply shrinks_update. intros r. split; [done |]. destruct u; try done. by rewrite expired_postponed.
  - intros _. apply keeps_sem, keeps_close; [apply _ | apply shrinks_same |]. intros s1. apply shrinks_update. intros r. split; [done |].
    by rewrite expired_closed.
  - intros _ (ms & cs & -> & _). by apply shrinks_same.
Qed.

Context (clock : instant) (st : option ChatbotSettings) (granted : bool).
Abbreviation run p s := (snd (prog_run (att_run clock st granted) p s)).
Lemma run_bind {A B} (p : Prog A) (f : A -> Prog B) s : run (p ≫= f) s = run (f (fst (prog_run (att_run clock st granted) p s))) (run p s).
Proof. rewrite prog_run_bind. by destruct (prog_run _ p s). Qed.
Lemma run_call {X} (op : att_op X) s : run (call op) s = snd (att_run clock st granted X op s).
Proof. unfold call. simpl. by destruct (att_run _ _ _ _ op s). Qed.
Lemma run_shrinks {A} (p : Prog A) s : only shrinking p -> shrinks s (run p s).
Proof.
  intros Hp. eapply (runs_relation att_sem shrinks shrinking p s (fst (prog_run (att_run clock st granted) p s))); [apply shrinking_shrinks | done |].
  apply prog_run_runs, att_run_sem.
Qed.

(** No attendance of this identifier is expired. *)
Definition settled (id : uuid) (s : Att) : Prop := forall r, r ∈ a_transfers s -> expired settings now r = true -> tr_ID r <> id.
Lemma settled_shrinks id s s' : shrinks s s' -> settled id s -> settled id s'.
Proof. intros Hs Hid r' Hr' He. destruct (Hs r' Hr' He) as (r & Hr & Er & <-). by apply Hid. Qed.
Lemma settled_update id f s : (forall r, expired settings now (f r) = false /\ tr_ID (f r) = tr_ID r) -> settled id (update_transfers (has_id id) f s).
Proof.
  intros Hf r' (r & Hr & ->)%sql_update_in. destruct (has_id id r) eqn:E; [by rewrite (proj1 (Hf r)) |].
  intros He Hid. unfold has_id, expired in *. rewrite Hid, N.eqb_refl in E. simpl in E. rewrite E, andb_false_r in He. done.
Qed.

Lemma reporting_shrinking {A} (p : Prog A) : only reporting p -> only shrinking p.
Proof. apply only_mono. intros X op. destruct op; try done. by destruct w. Qed.
Lemma response_shrinking t : only shrinking (record_first_response t).
Proof. unfold record_first_response. solve_only. Qed.
Lemma text_shrinking t text : only shrinking (send_if_set t text).
Proof. unfold send_if_set, sendSLATextToCustomer, contact_of. solve_only. Qed.
Lemma close_shrinking t c u actor webhook : only shrinking (closeAttendance t c u actor webhook).
Proof. unfold closeAttendance, clear_tracking, notify_status, recordOwnership. solve_only. Qed.

(** Without failures a close is carried out. *)
Lemma closed_rows id u c s : a_transfers (closed id u c s) = a_transfers (update_transfers (has_id id) (apply_close u) s).
Proof. unfold closed, released, resolved, unteamed, unassigned. destruct c; [| done]. by repeat case_match. Qed.
Lemma close_alone id u c s : snd (on_db (close_tx id u c) s) = closed id u c s.
Proof.
  destruct (close_sem id u c s _ _ (on_db_sem (close_tx id u c) s)) as [[_ H] | H]; [| done]. exfalso.
  enough (E : is_ok (fst (on_db (close_tx id u c) s)) = true) by by rewrite E in H. clear H.
  destruct c as [c |]; [| done]. unfold on_db, close_tx, releaseContactTx, transition_status.
  destruct (c_AssignedUserID c), (c_TeamID c); case_bool_decide; reflexivity.
Qed.

(** Postponed or closed, a listed attendance is not expired any more. *)
Lemma close_expired_settles t s :
  now <= after_hours now (AutoCloseHours (SLA settings)) -> only shrinking (close_expired settings now t) /\ settled (tr_ID t) (run (close_expired settings now t) s).
Proof.
  intros Hh. pose proof (response_shrinking t) as Hr. pose proof (text_shrinking t) as Ht. pose proof (close_shrinking t) as Hc. split.
  { unfold close_expired, agentRespondedSince, contact_of, broadcastTransferUpdate. solve_only; done. }
  unfold close_expired. rewrite run_bind. set (b := fst _). set (s1 := run _ s). destruct b.
  - rewrite run_bind. eapply settled_shrinks; [by apply run_shrinks |]. apply settled_update. intros r. split; [by apply expired_postponed | done].
  - rewrite !run_bind. eapply settled_shrinks; [apply run_shrinks; solve_only; done |].
    generalize (run (contact_of t) (run (send_if_set t (AutoCloseMessage (SLA settings))) s1)) as s2.
    generalize (fst (prog_run (att_run clock st granted) (contact_of t) (run (send_if_set t (AutoCloseMessage (SLA settings))) s1))) as c.
    intros c s2. unfold closeAttendance. rewrite run_bind. eapply settled_shrinks.
    { apply run_shrinks. unfold clear_tracking, notify_status, recordOwnership. solve_only; done. }
    rewrite run_call. change (att_run clock st granted _ _ s2) with (on_db (close_tx (tr_ID t) (expire_update now t expired_note) c) s2).
    rewrite close_alone. eapply settled_shrinks; [apply shrinks_same; apply closed_rows |].
    apply settled_update. intros r. split; [apply expired_closed | done].
Qed.
Lemma for_each_settles ts s :
  now <= after_hours now (AutoCloseHours (SLA settings)) ->
  only shrinking (for_each (close_expired settings now) ts) /\ forall t, t ∈ ts -> settled (tr_ID t) (run (for_each (close_expired settings now) ts) s).
Proof.
  intros Hh. revert s. induction ts as [| t0 ts IH]; intros s; [split; [done | by intros t Ht%not_elem_of_nil] |].
  destruct (close_expired_settles t0 s Hh) as [H1 H2]. split.
  { simpl. apply only_bind; [done |]. intros _. by apply IH. }
  intros t Ht. simpl. rewrite run_bind. apply elem_of_cons in Ht as [-> | Ht].
  - eapply settled_shrinks; [apply run_shrinks; by apply IH | done].
  - by apply IH.
Qed.
End Complete.

(** A pass of the automatic close that meets no failure leaves no attendance of the
    organization both open and past its deadline: each was closed, or its deadline was moved
    because its agent is answering. *)
Theorem nothing_left_expired settings now clock st granted s :
  now <= after_hours now (AutoCloseHours (SLA settings)) ->
  forall t, t ∈ a_transfers (snd (prog_run (att_run clock st granted) (autoCloseExpiredTransfers settings now) s)) ->
    tr_Org t = st_Org settings -> tr_Status t = TransferActive -> tr_Deleted t = false ->
    forall d, ExpiresAt (tr_SLA t) = Some d -> now <= d.
Proof.
  intros Hh t Ht Ho Hs Hd d Ex. apply Z.nlt_ge. intros Hlt.
  assert (He : expired settings now t = true).
  { unfold expired, is_status. rewrite Ex, Ho, Hs, Hd, N.eqb_refl. simpl. rewrite andb_true_r. by apply Z.ltb_lt. }
  change (snd (prog_run (att_run clock st granted) (autoCloseExpiredTransfers settings now) s))
    with (snd (prog_run (att_run clock st granted) (for_each (close_expired settings now) (List.filter (expired settings now) (a_transfers s))) s)) in Ht.
  destruct (for_each_settles settings now clock st granted (List.filter (expired settings now) (a_transfers s)) s Hh) as [Hsh Hset].
  destruct (run_shrinks settings now clock st granted _ s Hsh t Ht He) as (r & Hr & Er & Hid).
  refine (Hset r _ t Ht He (eq_sym Hid)). apply list_elem_of_In, List.filter_In. split; [by apply list_elem_of_In | done].
Qed.

(** ** Witnesses: an attendance whose deadline passed, its agent silent *)
Definition ex_settings : ChatbotSettings :=
  MkChatbotSettings 9 "" true (MkHours false [] "") (MkAgentAssignment true false false 10)
    (MkSLAConfig true 15 60 30 24 "" "" [] false false) (MkInactivity false 30 "" 60 "" false) false.
Definition ex_overdue : AgentTransfer := set_sla (sla_expiry (Some 20)) ex_owned.
Definition ex_answered : MessageRow := MkMessageRow 9 3 false (Some 21%N) 15 false.

Lemma nothing_left_expired_witness :
  let run ms := snd (prog_run (att_run 100 None false) (autoCloseExpiredTransfers ex_settings 100) (with_messages (ex_att [ex_overdue]) ms)) in
  (forall t, t ∈ a_transfers (run [ex_answered]) -> tr_Org t = 9%N -> tr_Status t = TransferActive -> tr_Deleted t = false ->
     forall d, ExpiresAt (tr_SLA t) = Some d -> 100 <= d) /\
  map tr_Status (a_transfers (run [])) = [TransferExpired] /\
  map (fun t => ExpiresAt (tr_SLA t)) (a_transfers (run [ex_answered])) = [Some (100 + 24 * hour)].
Proof.
  intros run. split; [| split; vm_compute; reflexivity].
  exact (nothing_left_expired ex_settings 100 100 None false (with_messages (ex_att [ex_overdue]) [ex_answered]) ltac:(vm_compute; discriminate)).
Defined.
