(* ===== verification/Reaper.v ===== *)
(** Attendances of agents who stay disconnected ([internal/handlers/presence_reaper.go]): the
    clock of each disconnected agent and the sweep that returns their attendances. *)
From S2P Require Import Prelude Effects Sql Assignment BusinessHours Attendance Distribution.

Definition DefaultPresenceGrace : duration := 60 * second.
Record OfflineReleasePolicy := MkPolicy { Grace : duration }.
Definition ShouldRelease (p : OfflineReleasePolicy) (disconnectedFor : duration) : bool := Grace p <=? disconnectedFor.

Record agentKey := MkKey { k_org : uuid; k_user : uuid }.
#[global] Instance agentKey_eq_dec : EqDecision agentKey.
Proof. solve_decision. Defined.
#[global] Instance agentKey_countable : Countable agentKey.
Proof. apply (inj_countable' (fun k => (k_org k, k_user k)) (fun p => MkKey (fst p) (snd p))). by intros []. Defined.
(** When each agent was first seen disconnected. *)
Abbreviation clocks := (gmap agentKey instant) (only parsing).

(** The critical sections on the clocks, the connection test, and the operations of the
    handlers. *)
Inductive reap_op : Type -> Type :=
  | RAtt {X : Type} (op : att_op X) : reap_op X
  | RConnected (k : agentKey) : reap_op bool
  | RForget (k : agentKey) : reap_op unit
  | RSeen (k : agentKey) (now : instant) : reap_op instant
  | RKeepOnly (live : list agentKey) : reap_op unit.
Abbreviation Reap A := (prog reap_op A) (only parsing).

Definition seen_at (k : agentKey) (now : instant) (c : clocks) : instant * clocks :=
  match c !! k with Some since => (since, c) | None => (now, <[k := now]> c) end.
Definition keep_only (live : list agentKey) (c : clocks) : clocks := filter (fun p => fst p ∈ live) c.

(** [OnPresenceChange], the hub's listener. *)
Definition OnPresenceChange (k : agentKey) (online : bool) : Reap unit :=
  if online then call (RForget k)
  else
    connected ← call (RConnected k);
    if (connected : bool) then mret tt
    else now ← call (RAtt ANow); _ ← call (RSeen k now); mret tt.

Section Sweep.
Context (policy : OfflineReleasePolicy) (now : instant).

Definition assigned_key (t : AgentTransfer) : option agentKey :=
  match tr_AgentID t with
  | Some agent => if is_status TransferActive t && negb (tr_Deleted t) then Some (MkKey (tr_Org t) agent) else None
  | None => None
  end.
Definition assigned_agents (s : Att) : list agentKey := remove_dups (omap assigned_key (a_transfers s)).
Definition sweep_key (k : agentKey) : Reap Z :=
  connected ← call (RConnected k);
  if (connected : bool) then _ ← call (RForget k); mret 0
  else
    since ← call (RSeen k now);
    if negb (ShouldRelease policy (time_sub now since)) then mret 0
    else
      back ← call (RConnected k);
      if (back : bool) then mret 0
      else
        n ← prog_lift (@RAtt) (returnAgentTransfers (k_user k) (k_org k) distEventReturnedOffline);
        _ ← call (RForget k);
        mret n.
Fixpoint sweep_keys (ks : list agentKey) : Reap Z :=
  match ks with [] => mret 0 | k :: ks => n ← sweep_key k; m ← sweep_keys ks; mret (n + m) end.
Definition Sweep : Reap Z :=
  assigned ← call (RAtt (ATry assigned_agents));
  match assigned with
  | Err _ => mret 0
  | Ok ks => released ← sweep_keys ks; _ ← call (RKeepOnly ks); mret released
  end.
End Sweep.

(** What the operations may answer and do. *)
Record ReapState := MkReap { rp_att : Att; rp_clocks : clocks }.
Definition reap_sem X (op : reap_op X) (s : ReapState) (x : X) (s' : ReapState) : Prop :=
  match op in reap_op X return X -> Prop with
  | RAtt op => fun x => att_sem _ op (rp_att s) x (rp_att s') /\ rp_clocks s' = rp_clocks s
  | RConnected _ => fun _ => s' = s
  | RForget k => fun _ => s' = MkReap (rp_att s) (delete k (rp_clocks s))
  | RSeen k now => fun x => (x, rp_clocks s') = seen_at k now (rp_clocks s) /\ rp_att s' = rp_att s
  | RKeepOnly live => fun _ => s' = MkReap (rp_att s) (keep_only live (rp_clocks s))
  end x.
Definition reap_plausible X (op : reap_op X) (x : X) : Prop := exists s s', reap_sem X op s x s'.

(** The rows [returnAgentTransfers] reads. *)
Definition agent_rows (user org : uuid) : att_op (result att_error (list (AgentTransfer * option Contact))) :=
  ATry (fun s => map (fun t => (t, preload_contact s t)) (List.filter (active_of_agent org user) (a_transfers s))).

(** ** Only after the grace *)
Section Justified.
Context (policy : OfflineReleasePolicy) (now : instant).

(** The agent's clock had run for the grace when the sweep read it, and after that, right
    before acting, the agent was still not connected. *)
Definition offline_past_grace (k : agentKey) (g : list (event reap_op)) : Prop :=
  exists since g1 g2, g = g1 ++ Ev (RConnected k) false :: g2 /\ Ev (RSeen k now) since ∈ g2 /\ Grace policy <= time_sub now since.
Definition reap_pre X (op : reap_op X) (g : list (event reap_op)) : Prop :=
  match op with
  | RAtt (AWrite (WMove id from u)) =>
      exists k, offline_past_grace k g /\ from = Some (k_user k) /\ u = MkMove None None None /\
        exists ts t, Ev (RAtt (agent_rows (k_user k) (k_org k))) (Ok ts) ∈ g /\ t ∈ map fst ts /\ tr_ID t = id
  | RAtt (AWrite (WAssignContact _ user)) => user = None /\ exists k, offline_past_grace k g
  | RAtt op => bookkeeping _ op
  | _ => True
  end.
Abbreviation reaps p g R := (extends reap_pre reap_plausible p g R).
Abbreviation fine := (fun _ _ => True).

Lemma past_grace_later k g g' : later g g' -> offline_past_grace k g -> offline_past_grace k g'.
Proof. intros [l ->] (since & g1 & g2 & -> & H). exists since, (l ++ g1), g2. split; [by rewrite <- app_assoc | done]. Qed.

Lemma reaps_bookkeeping {A} (p : Prog A) g : only bookkeeping p -> reaps (prog_lift (@RAtt) p) g fine.
Proof.
  intros H. apply (extends_only _ _ (fun X op => match op with RAtt op => bookkeeping _ op | _ => True end)).
  - intros X op g' Hop. destruct op as [X op | | | |]; try done. destruct op; try done. by destruct w.
  - eapply only_lift; [| exact H]. done.
Qed.

Lemma return_one_reaps k ts t c g :
  offline_past_grace k g -> Ev (RAtt (agent_rows (k_user k) (k_org k))) (Ok ts) ∈ g -> (t, c) ∈ ts -> tr_AgentID t = Some (k_user k) ->
  reaps (prog_lift (@RAtt) (returnAgentTransfer distEventReturnedOffline (t, c))) g fine.
Proof.
  intros Hk Hin Ht Ha. unfold returnAgentTransfer, moveTransfer.
  apply (extends_lift_bind _ _ _ _ _ _ fine).
  { apply (extends_lift_bind _ _ _ (call _) _ _ fine); [| intros; by apply extends_ret].
    apply (extends_call _ _ (RAtt _) Ret); [| intros; by apply extends_ret].
    exists k. split_and!; [done | done | done |]. exists ts, t. split_and!; [done | | done].
    apply list_elem_of_fmap. by exists (t, c). }
  intros r g1 Hl _. destruct r as [[] |]; [| by apply extends_ret | by apply extends_ret].
  apply (extends_lift_bind _ _ _ _ _ _ fine); [apply reaps_bookkeeping; solve_only |]. intros _ g2 Hl2 _.
  apply (extends_lift_bind _ _ _ _ _ _ fine).
  { destruct c as [c |]; [| by apply extends_ret]. rewrite Ha. case_match; [| by apply extends_ret].
    apply (extends_lift_bind _ _ _ (call _) _ _ fine); [| intros; by apply extends_ret].
    apply (extends_call _ _ (RAtt _) Ret); [| intros; by apply extends_ret]. split; [done |]. exists k.
    by do 2 (eapply past_grace_later; [eassumption |]). }
  intros _ g3 _ _. apply reaps_bookkeeping. solve_only.
Qed.
Lemma return_reaps k g : offline_past_grace k g ->
  reaps (prog_lift (@RAtt) (returnAgentTransfers (k_user k) (k_org k) distEventReturnedOffline)) g fine.
Proof.
  intros Hk. unfold returnAgentTransfers.
  apply (extends_lift_bind _ _ _ (call _) _ _ (fun r g' => forall ts, r = Ok ts -> Ev (RAtt (agent_rows (k_user k) (k_org k))) (Ok ts) ∈ g' /\
    forall t c, (t, c) ∈ ts -> tr_AgentID t = Some (k_user k))).
  { apply (extends_call _ _ (RAtt _) Ret); [done |]. intros r (s & s' & [_ Hr] & _). apply extends_ret. intros ts ->. split; [by left |].
    intros t c Htc. destruct Hr as [Hr | ?]; [| done]. injection Hr as ->.
    apply list_elem_of_fmap in Htc as (t' & [= -> ->] & Ht'). apply list_elem_of_In, List.filter_In in Ht' as [_ Ht'].
    unfold active_of_agent in Ht'. rewrite !andb_true_iff, bool_decide_eq_true in Ht'. tauto. }
  intros [rows | e] g1 Hl Hr; [| by apply extends_ret]. destruct (Hr rows eq_refl) as [Hin Hag]. clear Hr.
  assert (Hsub : forall r, r ∈ rows -> r ∈ rows) by done. revert Hsub. apply (past_grace_later _ _ _ Hl) in Hk. clear Hl g.
  generalize rows at 1 3 as l. intros l. revert g1 Hin Hk. induction l as [| [t c] l IH]; intros g1 Hin Hk Hsub; [by apply extends_ret |].
  cbn [sum_prog]. apply (extends_lift_bind _ _ _ _ _ _ fine).
  { apply (return_one_reaps k rows); try done; [apply Hsub; by left | eapply Hag, Hsub; by left]. }
  intros n g2 Hl2 _. apply (extends_lift_bind _ _ _ _ _ _ fine); [| intros; by apply extends_ret].
  apply IH; [by eapply later_in | by eapply past_grace_later | intros; apply Hsub; by right].
Qed.

Lemma sweep_key_reaps k g : reaps (sweep_key policy now k) g fine.
Proof.
  unfold sweep_key. apply extends_call; [done |]. intros [] _; [apply extends_call; [done |]; intros; by apply extends_ret |].
  apply extends_call; [done |]. intros since _. unfold ShouldRelease. destruct (Z.leb_spec (Grace policy) (time_sub now since)); simpl negb; cbv iota; [| by apply extends_ret].
  apply extends_call; [done |]. intros [] _; [by apply extends_ret |].
  eapply extends_bind; [apply return_reaps |].
  - eexists since, [], _. split; [reflexivity |]. split; [by left | done].
  - intros n g' _ _. apply extends_call; [done |]. intros; by apply extends_ret.
Qed.
End Justified.

(** The sweep of disconnected agents takes an attendance only from an agent whose
    disconnection had lasted the grace when their clock was read and who, right after that, was
    found still disconnected; it only returns it to the queue, from that agent. A first sight
    starts the clock, so it never releases. *)
Theorem offline_release_justified policy now :
  ensures (reap_pre policy now) (trace_contract reap_plausible) (Sweep policy now) [] (fun _ _ => True).
Proof.
  eapply extends_ensures with (R := fun _ _ => True). unfold Sweep. apply extends_call; [done |]. intros [ks | e] _; [| by apply extends_ret].
  apply (extends_bind _ _ _ _ _ (fun _ _ => True)); [| intros n g _ _; apply extends_call; [done |]; intros; by apply extends_ret].
  generalize [Ev (RAtt (ATry assigned_agents)) (Ok ks)] as g. induction ks as [| k ks IH]; intros g; [by apply (extends_ret _ _ (0 : Z)) | cbn [sweep_keys]].
  eapply extends_bind; [apply sweep_key_reaps |]. intros n g1 _ _. eapply extends_bind; [apply IH |]. intros m g2 _ _. by apply extends_ret.
Qed.

(** ** The clock *)
Lemma first_sight_spares policy now k c :
  0 < Grace policy -> c !! k = None -> ShouldRelease policy (time_sub now (fst (seen_at k now c))) = false.
Proof. intros Hg Hk. unfold seen_at, ShouldRelease. rewrite Hk. simpl. apply Z.leb_gt. unfold time_sub, min_int64, max_int64. lia. Qed.
(** A clock that runs is not restarted, and nobody outside the listed agents keeps one. *)
Lemma seen_keeps k now c since : c !! k = Some since -> seen_at k now c = (since, c).
Proof. unfold seen_at. by intros ->. Qed.
Lemma keep_only_spec live c k since : keep_only live c !! k = Some since <-> k ∈ live /\ c !! k = Some since.
Proof. unfold keep_only. rewrite map_lookup_filter_Some. tauto. Qed.
