(* ===== verification/Merge.v ===== *)
(** Folding duplicate contacts ([internal/contactutil/merge.go]): the union-find that groups the
    contacts of one subscriber, and the transaction that folds a group into its oldest row. *)
From S2P Require Import Prelude GoText Effects Sql Phone.

(** ** Grouping *)
Section Grouping.

(** [find]: the loop with path halving. Parents never point upwards, so [i] rounds are
    enough. *)
Definition parent_of (parent : list nat) (i : nat) : nat := default i (parent !! i).
Fixpoint find (fuel : nat) (parent : list nat) (i : nat) : nat * list nat :=
  match fuel with
  | O => (i, parent)
  | S fuel =>
      if Nat.eqb (parent_of parent i) i then (i, parent)
      else
        let up := parent_of parent (parent_of parent i) in
        find fuel (<[i := up]> parent) up
  end.

(** One identity of contact [i]. *)
Definition union_step (st : gmap string nat * list nat) (i : nat) (id : string) : gmap string nat * list nat :=
  let '(owner, parent) := st in
  match owner !! id with
  | Some j =>
      let '(ri, parent) := find i parent i in
      let '(rj, parent) := find j parent j in
      if Nat.eqb ri rj then (owner, parent)
      else if Nat.ltb ri rj then (owner, <[rj := ri]> parent) else (owner, <[ri := rj]> parent)
  | None => (<[id := i]> owner, parent)
  end.
Definition union_contact (st : gmap string nat * list nat) (c : nat * string) : gmap string nat * list nat :=
  foldl (fun st id => union_step st (fst c) id) st (PhoneIdentities (snd c)).
Definition unions (phones : list string) : list nat :=
  snd (foldl union_contact (∅, seq 0 (length phones)) (zip (seq 0 (length phones)) phones)).

(** [groups]: the members under each root, in order. *)
Definition group_step (st : gmap nat (list nat) * list nat) (i : nat) : gmap nat (list nat) * list nat :=
  let '(groups, parent) := st in
  let '(r, parent) := find i parent i in
  (<[r := default [] (groups !! r) ++ [i]]> groups, parent).
Definition group (n : nat) (parent : list nat) : gmap nat (list nat) := fst (foldl group_step (∅, parent) (seq 0 n)).
Definition roots (groups : gmap nat (list nat)) : list nat :=
  merge_sort le (map fst (List.filter (fun g => Nat.ltb 1 (length (snd g))) (map_to_list groups))).

(** The groups of more than one contact, oldest root first, each with its members. *)
Definition merge_plan (phones : list string) : list (nat * list nat) :=
  let groups := group (length phones) (unions phones) in
  map (fun r => (r, default [] (groups !! r))) (roots groups).
End Grouping.

(** ** The union-find *)
Definition downward (parent : list nat) : Prop := forall i, (parent_of parent i <= i)%nat.

(** The root, without changing the parents. *)
Fixpoint root_in (fuel : nat) (parent : list nat) (i : nat) : nat :=
  match fuel with
  | O => i
  | S fuel => if Nat.eqb (parent_of parent i) i then i else root_in fuel parent (parent_of parent i)
  end.
Definition root (parent : list nat) (i : nat) : nat := root_in i parent i.

Lemma root_in_enough parent fuel fuel' i :
  downward parent -> (i <= fuel)%nat -> (i <= fuel')%nat -> root_in fuel parent i = root_in fuel' parent i.
Proof.
  intros Hd. revert fuel' i. induction fuel as [| fuel IH]; intros fuel' i Hi Hi'.
  - assert (i = 0)%nat as -> by lia. destruct fuel'; [done |]. simpl. pose proof (Hd 0%nat).
    by rewrite (proj2 (Nat.eqb_eq _ _)) by lia.
  - destruct fuel' as [| fuel']; simpl; (destruct (Nat.eqb_spec (parent_of parent i) i) as [E | E]; [done |]); pose proof (Hd i); [lia |].
    apply IH; lia.
Qed.

Lemma root_unfold parent i : downward parent ->
  root parent i = if Nat.eqb (parent_of parent i) i then i else root parent (parent_of parent i).
Proof.
  intros Hd. pose proof (Hd i). unfold root. destruct i as [| i].
  - by rewrite (proj2 (Nat.eqb_eq _ _)) by lia.
  - simpl root_in at 1. destruct (Nat.eqb_spec (parent_of parent (S i)) (S i)); [done |]. apply root_in_enough; [done | lia..].
Qed.

Lemma root_spec parent i : downward parent -> parent_of parent (root parent i) = root parent i /\ (root parent i <= i)%nat.
Proof.
  intros Hd. induction i as [i IH] using lt_wf_ind. rewrite root_unfold by done. pose proof (Hd i).
  destruct (Nat.eqb_spec (parent_of parent i) i) as [E | E]; [lia |]. destruct (IH (parent_of parent i)); [lia | split; [done | lia]].
Qed.

Lemma root_fixed parent i : downward parent -> parent_of parent i = i -> root parent i = i.
Proof. intros Hd E. rewrite root_unfold by done. by rewrite E, Nat.eqb_refl. Qed.

Lemma parent_insert parent i p x : (i < length parent)%nat ->
  parent_of (<[i := p]> parent) x = if Nat.eqb x i then p else parent_of parent x.
Proof.
  intros Hi. unfold parent_of. destruct (Nat.eqb_spec x i) as [-> | E]; [by rewrite list_lookup_insert_eq | by rewrite list_lookup_insert_ne].
Qed.
Lemma parent_in_range parent i : parent_of parent i <> i -> (i < length parent)%nat.
Proof. unfold parent_of. intros H. destruct (parent !! i) eqn:E; [by eapply lookup_lt_Some | done]. Qed.

(** Pointing [i] at an ancestor of its parent keeps every root. *)
Lemma halve_root parent i : downward parent -> parent_of parent i <> i ->
  let parent' := <[i := parent_of parent (parent_of parent i)]> parent in
  downward parent' /\ forall x, root parent' x = root parent x.
Proof.
  intros Hd Hi parent'. pose proof (parent_in_range _ _ Hi) as Hr.
  assert (Hp : forall x, parent_of parent' x = if Nat.eqb x i then parent_of parent (parent_of parent i) else parent_of parent x)
    by (intros; by apply parent_insert).
  assert (Hd' : downward parent').
  { intros x. rewrite Hp. destruct (Nat.eqb_spec x i) as [-> |]; [| apply Hd].
    pose proof (Hd i). pose proof (Hd (parent_of parent i)). lia. }
  split; [done |]. intros x. induction x as [x IH] using lt_wf_ind. rewrite (root_unfold parent') by done. rewrite Hp.
  destruct (Nat.eqb_spec x i) as [-> | E].
  - pose proof (Hd i). pose proof (Hd (parent_of parent i)). rewrite (proj2 (Nat.eqb_neq _ _)) by lia. rewrite IH by lia.
    rewrite (root_unfold parent i), (proj2 (Nat.eqb_neq _ _)) by done. rewrite (root_unfold parent (parent_of parent i)) by done.
    destruct (Nat.eqb_spec (parent_of parent (parent_of parent i)) (parent_of parent i)) as [E |]; [| done]. rewrite E.
    by apply root_fixed.
  - rewrite (root_unfold parent x) by done. destruct (Nat.eqb_spec (parent_of parent x) x); [done |]. apply IH. pose proof (Hd x). lia.
Qed.

Lemma find_spec fuel parent i :
  downward parent -> (i <= fuel)%nat ->
  let '(r, parent') := find fuel parent i in
  r = root parent i /\ downward parent' /\ length parent' = length parent /\ forall x, root parent' x = root parent x.
Proof.
  revert parent i. induction fuel as [| fuel IH]; intros parent i Hd Hi.
  - simpl. assert (i = 0)%nat as -> by lia. done.
  - simpl. pose proof (Hd i). destruct (Nat.eqb_spec (parent_of parent i) i) as [E | E]; [by rewrite root_fixed |].
    destruct (halve_root parent i Hd E) as [Hd' Hroot]. pose proof (Hd (parent_of parent i)).
    specialize (IH _ (parent_of parent (parent_of parent i)) Hd' ltac:(lia)).
    destruct (find fuel _ _) as [r parent']. destruct IH as (-> & Hd2 & Hl & Hr). split_and!; [| done | by rewrite Hl, length_insert |].
    + rewrite Hroot, (root_unfold parent i), (proj2 (Nat.eqb_neq _ _)) by done.
      rewrite (root_unfold parent (parent_of parent i)) by done.
      destruct (Nat.eqb_spec (parent_of parent (parent_of parent i)) (parent_of parent i)) as [E2 |]; [| done]. rewrite E2. by apply root_fixed.
    + intros x. by rewrite Hr, Hroot.
Qed.

(** Linking two roots merges their classes. *)
Lemma link_root parent lo hi : downward parent -> parent_of parent lo = lo -> parent_of parent hi = hi -> (lo < hi)%nat ->
  (hi < length parent)%nat ->
  let parent' := <[hi := lo]> parent in
  downward parent' /\ forall x, root parent' x = if Nat.eqb (root parent x) hi then lo else root parent x.
Proof.
  intros Hd Hlo Hhi Hlt Hlen parent'.
  assert (Hp : forall x, parent_of parent' x = if Nat.eqb x hi then lo else parent_of parent x) by (intros; by apply parent_insert).
  assert (Hd' : downward parent').
  { intros x. rewrite Hp. destruct (Nat.eqb_spec x hi); [lia | apply Hd]. }
  split; [done |]. intros x. induction x as [x IH] using lt_wf_ind. rewrite (root_unfold parent') by done. rewrite Hp.
  destruct (Nat.eqb_spec x hi) as [-> | E].
  - rewrite (proj2 (Nat.eqb_neq _ _)) by lia. rewrite IH by done. rewrite !root_fixed by done. rewrite Nat.eqb_refl.
    by rewrite (proj2 (Nat.eqb_neq _ _)) by lia.
  - rewrite (root_unfold parent x) by done. destruct (Nat.eqb_spec (parent_of parent x) x) as [Ex | Ex].
    + by rewrite (proj2 (Nat.eqb_neq _ _) E).
    + apply IH. pose proof (Hd x). lia.
Qed.

(** ** The classes *)

(** The identities seen so far, and the contacts that share one. *)
Definition shares (seen : list (string * nat)) (i j : nat) : Prop := exists id, (id, i) ∈ seen /\ (id, j) ∈ seen.
Definition linked_by (seen : list (string * nat)) : nat -> nat -> Prop := rtc (shares seen).

Lemma shares_sym seen i j : shares seen i j -> shares seen j i.
Proof. intros (id & ? & ?). by exists id. Qed.
Lemma linked_sym seen i j : linked_by seen i j -> linked_by seen j i.
Proof. induction 1 as [| a b c Hab _ IH]; [constructor |]. eapply rtc_r; [exact IH | by apply shares_sym]. Qed.
Lemma linked_mono seen seen' i j : (forall p, p ∈ seen -> p ∈ seen') -> linked_by seen i j -> linked_by seen' i j.
Proof.
  intros Hsub. induction 1 as [| a b c (id & Ha & Hb) _ IH]; [constructor |]. eapply rtc_l; [| exact IH]. exists id. split; by apply Hsub.
Qed.

(** What the loop maintains. *)
Record uf_ok (n : nat) (seen : list (string * nat)) (st : gmap string nat * list nat) : Prop := MkUf {
  uf_down : downward (snd st);
  uf_len : length (snd st) = n;
  uf_owner : forall id j, fst st !! id = Some j -> (id, j) ∈ seen;
  uf_seen : forall id i, (id, i) ∈ seen -> exists j, fst st !! id = Some j /\ root (snd st) j = root (snd st) i;
  uf_range : forall id i, (id, i) ∈ seen -> (i < n)%nat;
  uf_class : forall i j, root (snd st) i = root (snd st) j <-> linked_by seen i j }.

Lemma root_lt parent i n : downward parent -> (i < n)%nat -> (root parent i < n)%nat.
Proof. intros Hd Hi. destruct (root_spec parent i Hd). lia. Qed.

(** Merging the classes of [i] and [j] by linking the larger root under the smaller. *)
Lemma linked_classes parent i j lo hi :
  ((lo = root parent i /\ hi = root parent j) \/ (lo = root parent j /\ hi = root parent i)) ->
  forall x y,
  ((if Nat.eqb (root parent x) hi then lo else root parent x) = (if Nat.eqb (root parent y) hi then lo else root parent y)) <->
  (root parent x = root parent y \/ (root parent x = root parent i /\ root parent y = root parent j) \/
   (root parent x = root parent j /\ root parent y = root parent i)).
Proof.
  intros Hlh x y. destruct (Nat.eqb_spec (root parent x) hi), (Nat.eqb_spec (root parent y) hi); destruct Hlh as [[-> ->] | [-> ->]];
    split; intros H; try lia; intuition congruence.
Qed.

(** A new identity. *)
Lemma union_new_ok n seen owner parent i id :
  uf_ok n seen (owner, parent) -> (i < n)%nat -> owner !! id = None -> uf_ok n ((id, i) :: seen) (<[id := i]> owner, parent).
Proof.
  intros [Hd Hlen Ho Hs Hr Hc] Hi Eo. simpl in *. split; simpl; try done.
  - intros id' j. rewrite lookup_insert_Some. intros [[<- <-] | [_ H]]; [by left | right; by apply Ho].
  - intros id' x [[= -> ->] | Hx]%elem_of_cons; [exists i; by rewrite lookup_insert_eq |].
    destruct (Hs id' x Hx) as (j & Hj & Hrt). exists j. rewrite lookup_insert_ne by congruence. done.
  - intros id' x [[= -> ->] | Hx]%elem_of_cons; [done | by eapply Hr].
  - intros x y. rewrite Hc. split; [apply linked_mono; intros; by right |]. clear -Eo Hs.
    induction 1 as [| a b c (id' & Ha & Hb) _ IH]; [constructor |].
    apply elem_of_cons in Ha as [[= -> ->] | Ha], Hb as [Hb | Hb];
      [injection Hb as ->; exact IH | by apply Hs in Hb as (? & ? & _); congruence |
       injection Hb as -> ->; by apply Hs in Ha as (? & ? & _); congruence | eapply rtc_l; [by exists id' | exact IH]].
Qed.

(** An identity that [j] owns: it is enough that the new parents merge the two classes. *)
Definition merges (parent parent' : list nat) (i j : nat) : Prop :=
  forall x y, root parent' x = root parent' y <->
    (root parent x = root parent y \/ (root parent x = root parent i /\ root parent y = root parent j) \/
     (root parent x = root parent j /\ root parent y = root parent i)).

Lemma union_old_ok n seen owner parent parent' i j id :
  uf_ok n seen (owner, parent) -> (i < n)%nat -> owner !! id = Some j ->
  downward parent' -> length parent' = n -> merges parent parent' i j -> uf_ok n ((id, i) :: seen) (owner, parent').
Proof.
  intros [Hd Hlen Ho Hs Hr Hc] Hi Eo Hd3 Hl3 H3. simpl in *. split; simpl; try done.
  - intros id' k Hk. right. by apply Ho.
  - intros id' x [[= -> ->] | Hx]%elem_of_cons; [exists j; split; [done |]; apply H3; tauto |].
    destruct (Hs id' x Hx) as (k & Hk & Hrt). exists k. split; [done |]. apply H3. by left.
  - intros id' x [[= -> ->] | Hx]%elem_of_cons; [done | by eapply Hr].
  - intros x y. rewrite (H3 x y). split.
    + assert (Hij : linked_by ((id, i) :: seen) i j) by (apply rtc_once; exists id; split; [by left | right; by apply Ho]).
      assert (Hold : forall a b, root parent a = root parent b -> linked_by ((id, i) :: seen) a b).
      { intros a b H%Hc. revert H. apply linked_mono. intros; by right. }
      intros [H | [[H1 H2] | [H1 H2]]]; [by apply Hold | |].
      * etransitivity; [by apply Hold |]. etransitivity; [exact Hij |]. by apply linked_sym, Hold.
      * etransitivity; [by apply Hold |]. etransitivity; [apply linked_sym, Hij |]. by apply linked_sym, Hold.
    + intros H. induction H as [| a b c (id' & Ha & Hb) _ IH]; [by left |].
      assert (Hid : forall k, (id, k) ∈ seen -> root parent k = root parent j).
      { intros k Hk. destruct (Hs id k Hk) as (j' & Hj' & <-). congruence. }
      assert (Hab : root parent a = root parent b \/ (root parent a = root parent i /\ root parent b = root parent j) \/
        (root parent a = root parent j /\ root parent b = root parent i)).
      { apply elem_of_cons in Ha as [[= -> ->] | Ha], Hb as [Hb | Hb].
        - injection Hb as ->. by left.
        - right; left. split; [done | by apply Hid].
        - injection Hb as -> ->. right; right. split; [by apply Hid | done].
        - left. apply Hc. apply rtc_once. by exists id'. }
      intuition congruence.
Qed.

Lemma union_step_ok n seen st i id :
  uf_ok n seen st -> (i < n)%nat -> uf_ok n ((id, i) :: seen) (union_step st i id).
Proof.
  destruct st as [owner parent]. intros Hok Hi. unfold union_step. destruct (owner !! id) as [j |] eqn:Eo; [| by apply union_new_ok].
  pose proof Hok as [Hd Hlen Ho _ Hr _]. simpl in *. pose proof (Hr id j (Ho id j Eo)) as Hjn.
  pose proof (find_spec i parent i Hd ltac:(lia)) as F1. destruct (find i parent i) as [ri p1]. destruct F1 as (-> & Hd1 & Hl1 & Hr1).
  pose proof (find_spec j p1 j Hd1 ltac:(lia)) as F2. destruct (find j p1 j) as [rj p2]. destruct F2 as (-> & Hd2 & Hl2 & Hr2).
  rewrite (Hr1 j). assert (Hroot : forall x, root p2 x = root parent x) by (intros; by rewrite Hr2, Hr1).
  pose proof (root_spec parent i Hd) as [_ Hri]. pose proof (root_spec parent j Hd) as [_ Hrj].
  assert (Hfix : forall x, parent_of p2 (root parent x) = root parent x) by (intros x; rewrite <- Hroot; by apply root_spec).
  destruct (Nat.eqb_spec (root parent i) (root parent j)) as [E | E];
    [| destruct (Nat.ltb_spec (root parent i) (root parent j))]; (eapply union_old_ok; [exact Hok | done | done | ..]).
  - done.
  - congruence.
  - intros x y. rewrite !Hroot, E. intuition congruence.
  - apply link_root; [done | apply Hfix | apply Hfix | done | lia].
  - rewrite length_insert. congruence.
  - intros x y. rewrite !(proj2 (link_root p2 _ _ Hd2 (Hfix i) (Hfix j) ltac:(lia) ltac:(lia))), !Hroot. apply linked_classes. by left.
  - apply link_root; [done | apply Hfix | apply Hfix | lia | lia].
  - rewrite length_insert. congruence.
  - intros x y. rewrite !(proj2 (link_root p2 _ _ Hd2 (Hfix j) (Hfix i) ltac:(lia) ltac:(lia))), !Hroot. apply linked_classes. by right.
Qed.

(** Two contacts that [PhoneIdentities] says are one subscriber. *)
Definition same_subscriber (phones : list string) (i j : nat) : Prop :=
  exists p q id, phones !! i = Some p /\ phones !! j = Some q /\ id ∈ PhoneIdentities p /\ id ∈ PhoneIdentities q.

Lemma union_ids_ok n i ids seen st : uf_ok n seen st -> (i < n)%nat ->
  exists seen', uf_ok n seen' (foldl (fun st id => union_step st i id) st ids) /\
    forall id k, (id, k) ∈ seen' <-> (id, k) ∈ seen \/ (k = i /\ id ∈ ids).
Proof.
  revert seen st. induction ids as [| id ids IH]; intros seen st Hok Hi; simpl.
  - exists seen. split; [done |]. intros. set_solver.
  - destruct (IH _ _ (union_step_ok n seen st i id Hok Hi) Hi) as (seen' & Hok' & Hin). exists seen'. split; [done |].
    intros id' k. rewrite Hin, !elem_of_cons. naive_solver.
Qed.

Lemma union_all_ok n l seen st : uf_ok n seen st -> (forall c, c ∈ l -> (fst c < n)%nat) ->
  exists seen', uf_ok n seen' (foldl union_contact st l) /\
    forall id k, (id, k) ∈ seen' <-> (id, k) ∈ seen \/ exists phone, (k, phone) ∈ l /\ id ∈ PhoneIdentities phone.
Proof.
  revert seen st. induction l as [| [i phone] l IH]; intros seen st Hok Hl; simpl.
  - exists seen. split; [done |]. intros. split; [by left |]. intros [H | (p & H & _)]; [done | by apply not_elem_of_nil in H].
  - destruct (union_ids_ok n i (PhoneIdentities phone) seen st Hok) as (s1 & Hok1 & H1); [apply (Hl (i, phone)); by left |].
    destruct (IH s1 _ Hok1) as (s2 & Hok2 & H2); [intros c Hc; apply Hl; by right |]. exists s2. split; [exact Hok2 |].
    intros id k. rewrite H2, H1. setoid_rewrite elem_of_cons. naive_solver.
Qed.

Lemma parent_seq n i : parent_of (seq 0 n) i = i.
Proof.
  unfold parent_of. destruct (seq 0 n !! i) as [x |] eqn:E; [| done]. apply lookup_seq in E as [-> _]. simpl. lia.
Qed.
Lemma uf_initial n : uf_ok n [] (∅, seq 0 n).
Proof.
  assert (Hd : downward (seq 0 n)) by (intros i; by rewrite parent_seq).
  split; simpl; try done.
  - by rewrite length_seq.
  - intros id i H. by apply not_elem_of_nil in H.
  - intros id i H. by apply not_elem_of_nil in H.
  - intros i j. rewrite !root_fixed by (try done; apply parent_seq). split; [by intros -> |].
    intros H. destruct H as [| a b c (id & Ha & _) _]; [done | by apply not_elem_of_nil in Ha].
Qed.

Lemma in_numbered (phones : list string) k p : (k, p) ∈ zip (seq 0 (length phones)) phones <-> phones !! k = Some p.
Proof.
  rewrite list_elem_of_lookup. setoid_rewrite lookup_zip_with_Some. setoid_rewrite lookup_seq. split.
  - intros (i & x & y & [= -> ->] & [-> _] & H). done.
  - intros H. exists k, k, p. split_and!; [done | done | by eapply lookup_lt_Some | done].
Qed.

Lemma unions_spec phones :
  downward (unions phones) /\
  (forall i j, root (unions phones) i = root (unions phones) j <-> rtc (same_subscriber phones) i j).
Proof.
  unfold unions. destruct (union_all_ok (length phones) (zip (seq 0 (length phones)) phones) [] (∅, seq 0 (length phones)))
    as (seen & [Hd _ _ _ _ Hc] & Hin); [apply uf_initial | intros [k p] H%in_numbered; by eapply lookup_lt_Some |].
  split; [done |]. intros i j. rewrite Hc.
  assert (Heq : forall a b, shares seen a b <-> same_subscriber phones a b).
  { intros a b. unfold shares, same_subscriber. setoid_rewrite Hin. setoid_rewrite in_numbered. split.
    - intros (id & [H | (p & Hp & Hip)] & [H' | (q & Hq & Hiq)]); try (by apply not_elem_of_nil in H); try (by apply not_elem_of_nil in H').
      by exists p, q, id.
    - intros (p & q & id & Hp & Hq & Hip & Hiq). exists id. split; right; [by exists p | by exists q]. }
  split; induction 1 as [| a b c H _ IH]; try constructor; (eapply rtc_l; [by apply Heq | exact IH]).
Qed.

(** ** The groups *)
Lemma group_fold p0 l before groups p :
  downward p -> (forall x, root p x = root p0 x) ->
  (forall r, groups !! r = match List.filter (fun i => Nat.eqb (root p0 i) r) before with [] => None | ms => Some ms end) ->
  forall r, fst (foldl group_step (groups, p) l) !! r =
    match List.filter (fun i => Nat.eqb (root p0 i) r) (before ++ l) with [] => None | ms => Some ms end.
Proof.
  revert before groups p. induction l as [| i l IH]; intros before groups p Hd Hr Hg r; simpl; [by rewrite app_nil_r |].
  pose proof (find_spec i p i Hd ltac:(lia)) as F. destruct (find i p i) as [ri p']. destruct F as (-> & Hd' & _ & Hr').
  replace (before ++ i :: l) with ((before ++ [i]) ++ l) by (by rewrite <- app_assoc).
  apply IH; [done | intros; by rewrite Hr', Hr |]. intros x. rewrite Hr, List.filter_app. simpl.
  destruct (Nat.eqb_spec (root p0 i) x) as [E | E].
  - subst x. rewrite lookup_insert_eq, Hg. destruct (List.filter _ before) as [| a ms]; [done |]. simpl. done.
  - rewrite lookup_insert_ne, Hg by done. by rewrite app_nil_r.
Qed.

Lemma group_lookup n parent r : downward parent ->
  group n parent !! r = match List.filter (fun i => Nat.eqb (root parent i) r) (seq 0 n) with [] => None | ms => Some ms end.
Proof. intros Hd. apply (group_fold parent (seq 0 n) [] ∅ parent); [done | done |]. intros x. by rewrite lookup_empty. Qed.

Lemma roots_in g r : r ∈ roots g <-> exists ms, g !! r = Some ms /\ (1 < length ms)%nat.
Proof.
  unfold roots. rewrite merge_sort_Permutation, list_elem_of_In, in_map_iff. setoid_rewrite List.filter_In. setoid_rewrite <- list_elem_of_In.
  setoid_rewrite elem_of_map_to_list'. setoid_rewrite Nat.ltb_lt. split.
  - intros ([r' ms] & <- & H & Hl). eauto.
  - intros (ms & H & Hl). exists (r, ms). done.
Qed.
Lemma roots_NoDup g : NoDup (roots g).
Proof.
  unfold roots. rewrite merge_sort_Permutation. pose proof (NoDup_fst_map_to_list g) as H. revert H.
  induction (map_to_list g) as [| [r ms] l IH]; simpl; [constructor |]. intros [Hr H]%NoDup_cons.
  destruct (Nat.ltb 1 (length ms)); simpl; [| auto]. constructor; [| auto]. intros Hin. apply Hr.
  apply list_elem_of_In, in_map_iff in Hin as ([r' ms'] & <- & Hin). apply List.filter_In in Hin as [Hin _].
  apply list_elem_of_fmap. exists (r', ms'). split; [done |]. by apply list_elem_of_In.
Qed.
Lemma roots_sorted g : StronglySorted le (roots g).
Proof. apply (StronglySorted_merge_sort le). Qed.

Lemma sorted_filter_seq f k n : StronglySorted lt (List.filter f (seq k n)).
Proof.
  revert k. induction n as [| n IH]; intros k; simpl; [constructor |]. destruct (f k); [| apply IH]. constructor; [apply IH |].
  apply List.Forall_forall. intros x [H _]%List.filter_In. apply in_seq in H. lia.
Qed.

(** The union-find groups exactly the subscribers: the groups found are the classes, of two
    contacts or more, of the contacts connected through shared phone identities, each
    listed once with its members oldest first, so that the contact kept is the oldest. *)
Theorem merge_plan_exact phones :
  let plan := merge_plan phones in
  StronglySorted le (map fst plan) /\ NoDup (map fst plan) /\
  (forall r ms, (r, ms) ∈ plan ->
     (2 <= length ms)%nat /\ StronglySorted lt ms /\ head ms = Some r /\
     forall i j, i ∈ ms -> (j ∈ ms <-> (j < length phones)%nat /\ rtc (same_subscriber phones) i j)) /\
  (forall i j, i <> j -> rtc (same_subscriber phones) i j -> exists r ms, (r, ms) ∈ plan /\ i ∈ ms /\ j ∈ ms).
Proof.
  intros plan. destruct (unions_spec phones) as [Hd Hc]. set (parent := unions phones) in *. set (n := length phones).
  set (members := fun r => List.filter (fun i => Nat.eqb (root parent i) r) (seq 0 n)).
  assert (Hfst : map fst plan = roots (group n parent)) by (unfold plan, merge_plan; rewrite map_map; apply map_id).
  assert (Hmem : forall i r, i ∈ members r <-> (i < n)%nat /\ root parent i = r).
  { intros i r. unfold members. rewrite list_elem_of_In, List.filter_In, in_seq, Nat.eqb_eq. lia. }
  assert (Hplan : forall r ms, (r, ms) ∈ plan <-> ms = members r /\ (2 <= length ms)%nat).
  { intros r ms. unfold plan, merge_plan. fold parent n. rewrite list_elem_of_In, in_map_iff. setoid_rewrite <- list_elem_of_In.
    setoid_rewrite roots_in. setoid_rewrite (group_lookup n parent); [| done..]. fold members. split.
    - intros (r' & [= -> <-] & ms' & H & Hl). fold (members r) in H |- *. destruct (members r); [done |]. injection H as <-. simpl in *. done.
    - intros [-> Hl]. exists r. fold (members r). destruct (members r); simpl in *; [lia |]. split; [done |]. eexists. split; [done | simpl; lia]. }
  rewrite Hfst. split_and!; [apply roots_sorted | apply roots_NoDup | |].
  - intros r ms [-> Hl]%Hplan. split_and!; [done | apply sorted_filter_seq | |].
    + destruct (members r) as [| x l] eqn:E; [simpl in Hl; lia |]. simpl. f_equal.
      assert (Hx : x ∈ members r) by (rewrite E; by left). apply Hmem in Hx as [Hxn Hxr].
      assert (Hr : r ∈ members r). { apply Hmem. rewrite <- Hxr. destruct (root_spec parent x Hd) as [Hf Hle]. split; [lia |]. by apply root_fixed. }
      pose proof (sorted_filter_seq (fun i => Nat.eqb (root parent i) r) 0 n) as Hs. fold (members r) in Hs. rewrite E in Hs, Hr.
      apply elem_of_cons in Hr as [<- | Hr]; [done |]. apply StronglySorted_inv in Hs as [_ Hs].
      rewrite List.Forall_forall in Hs. apply list_elem_of_In in Hr. specialize (Hs r Hr). destruct (root_spec parent x Hd). lia.
    + intros i j [Hi Hri]%Hmem. rewrite Hmem, <- Hc, Hri. naive_solver.
  - intros i j Hne Hij.
    assert (Hlt : forall a b, a <> b -> rtc (same_subscriber phones) a b -> (a < n)%nat).
    { intros a b Hab H. destruct H as [| a b' b (p & q & id & Hp & _) _]; [done | by eapply lookup_lt_Some]. }
    pose proof (Hlt i j Hne Hij) as Hi. apply Hc in Hij as Hr. assert (Hji : rtc (same_subscriber phones) j i) by (by apply Hc).
    pose proof (Hlt j i ltac:(congruence) Hji) as Hj. exists (root parent i), (members (root parent i)).
    assert (H1 : i ∈ members (root parent i)) by by apply Hmem. assert (H2 : j ∈ members (root parent i)) by by apply Hmem.
    split_and!; [| done | done]. apply Hplan. split; [done |]. destruct (members (root parent i)) as [| a [| b l]]; [| | simpl; lia].
    + by apply not_elem_of_nil in H1.
    + apply list_elem_of_singleton in H1, H2. congruence.
Qed.

(** ** The database *)
Record Contact := MkContact {
  mc_ID : uuid; mc_Org : uuid; mc_PhoneNumber : string; mc_ProfileName : string; mc_AssignedUserID : option uuid;
  mc_CreatedAt : instant; mc_Deleted : bool }.
(** Every column of another table that holds a contact, by table and column, with its values. *)
Abbreviation column := (string * string)%type (only parsing).
Record MergeDb := MkMergeDb { mg_contacts : list Contact; mg_children : list (column * list uuid) }.
Inductive merge_error := MErrDb | MErrUnique.
#[global] Instance merge_error_db : DbErr merge_error := MErrDb.
Abbreviation Mdb A := (Db MergeDb (result merge_error A)) (only parsing).

Record MergeReport := MkReport { rp_Groups : Z; rp_Duplicates : Z; rp_Moved : Z; rp_Skipped : list (string * uuid * merge_error) }.

Section MergeGroup.
(** [left(id::text, 8)] *)
Context (id_prefix : uuid -> string).

(** [idx_contacts_org_phone], over deleted rows too. *)
Fixpoint phones_unique (rows : list Contact) : bool :=
  match rows with
  | [] => true
  | r :: rest => negb (existsb (fun x => N.eqb (mc_Org x) (mc_Org r) && String.eqb (mc_PhoneNumber x) (mc_PhoneNumber r)) rest) && phones_unique rest
  end.
Definition update_contacts (p : Contact -> bool) (f : Contact -> Contact) : Mdb unit :=
  exec (fun d => let rows := sql_update p f (mg_contacts d) in
                 if phones_unique rows then (Ok tt, MkMergeDb rows (mg_children d)) else (Err MErrUnique, d)).

Definition is_dup (dups : list uuid) (u : uuid) : bool := existsb (N.eqb u) dups.
Definition repoint_value (keep : uuid) (dups : list uuid) (u : uuid) : uuid := if is_dup dups u then keep else u.
Definition same_column (c : column) (e : column * list uuid) : bool := String.eqb (fst c) (fst (fst e)) && String.eqb (snd c) (snd (fst e)).
(** [UPDATE table SET column = keep WHERE column IN dups], and its [RowsAffected]. *)
Definition repoint (keep : uuid) (dups : list uuid) (c : column) : Mdb Z :=
  exec (fun d =>
    (Ok (sql_count (is_dup dups) (concat (map snd (List.filter (same_column c) (mg_children d))))),
     MkMergeDb (mg_contacts d) (map (fun e => if same_column c e then (fst e, map (repoint_value keep dups) (snd e)) else e) (mg_children d)))).
Fixpoint repoint_all (keep : uuid) (dups : list uuid) (cols : list column) (moved : Z) : Mdb Z :=
  match cols with
  | [] => mret (Ok moved)
  | c :: cols => n ←? repoint keep dups c; repoint_all keep dups cols (moved + n)
  end.

Definition with_phone (p : string) (c : Contact) : Contact :=
  MkContact (mc_ID c) (mc_Org c) p (mc_ProfileName c) (mc_AssignedUserID c) (mc_CreatedAt c) (mc_Deleted c).
Definition retired (c : Contact) : Contact := with_phone (mc_PhoneNumber c +:+ "#merged-" +:+ id_prefix (mc_ID c)) c.
Definition deleted (c : Contact) : Contact :=
  MkContact (mc_ID c) (mc_Org c) (mc_PhoneNumber c) (mc_ProfileName c) (mc_AssignedUserID c) (mc_CreatedAt c) true.

(** [updates]: the columns of the survivor that change. *)
Record Updates := MkUpdates { up_Phone : option string; up_Profile : option string; up_Assigned : option uuid }.
Definition take_from (keep_profile : string) (keep_assigned : option uuid) (d : Contact) (up : Updates) : Updates :=
  MkUpdates (up_Phone up)
    (if String.eqb (default keep_profile (up_Profile up)) "" && negb (String.eqb (mc_ProfileName d) "") then Some (mc_ProfileName d) else up_Profile up)
    (match match up_Assigned up with Some a => Some a | None => keep_assigned end, mc_AssignedUserID d with
     | None, Some a => Some a | _, _ => up_Assigned up end).
Definition updates_of (keep : Contact) (dups : list Contact) : Updates :=
  let p := CanonicalPhone (mc_PhoneNumber keep) in
  foldl (fun up d => take_from (mc_ProfileName keep) (mc_AssignedUserID keep) d up)
    (MkUpdates (if String.eqb p (mc_PhoneNumber keep) then None else Some p) None None) dups.
Definition no_updates (up : Updates) : bool :=
  match up with MkUpdates None None None => true | _ => false end.
Definition apply_updates (up : Updates) (c : Contact) : Contact :=
  MkContact (mc_ID c) (mc_Org c) (default (mc_PhoneNumber c) (up_Phone up)) (default (mc_ProfileName c) (up_Profile up))
    (match up_Assigned up with Some a => Some a | None => mc_AssignedUserID c end) (mc_CreatedAt c) (mc_Deleted c).

Definition mergeGroup (keep : Contact) (dups : list Contact) (cols : list column) : Mdb Z :=
  let ids := map mc_ID dups in
  transaction (
    moved ←? repoint_all (mc_ID keep) ids cols 0;
    _ ←? update_contacts (fun c => is_dup ids (mc_ID c)) retired;
    let up := updates_of keep dups in
    _ ←? (if no_updates up then mret (Ok tt)
          else update_contacts (fun c => N.eqb (mc_ID c) (mc_ID keep) && negb (mc_Deleted c)) (apply_updates up));
    _ ←? update_contacts (fun c => is_dup ids (mc_ID c) && negb (mc_Deleted c)) deleted;
    mret (Ok moved)).

Fixpoint merge_groups (all : list Contact) (cols : list column) (apply : bool) (plan : list (nat * list nat)) (rep : MergeReport)
    : Db MergeDb MergeReport :=
  match plan with
  | [] => mret rep
  | (_, ms) :: plan =>
      match head ms ≫= (fun i => all !! i) with
      | None => mret rep
      | Some keep =>
          let dups := omap (fun i => all !! i) (tail ms) in
          let n := Z.of_nat (length dups) in
          let rep := MkReport (rp_Groups rep + 1) (rp_Duplicates rep + n) (rp_Moved rep) (rp_Skipped rep) in
          if negb apply then merge_groups all cols apply plan rep
          else
            res ← mergeGroup keep dups cols;
            merge_groups all cols apply plan
              match res with
              | Ok moved => MkReport (rp_Groups rep) (rp_Duplicates rep) (rp_Moved rep + moved) (rp_Skipped rep)
              | Err e => MkReport (rp_Groups rep) (rp_Duplicates rep - n) (rp_Moved rep) (rp_Skipped rep ++ [(mc_PhoneNumber keep, mc_ID keep, e)])
              end
      end
  end.

#[local] Instance created_before_dec : RelDecision (fun a b : Contact => mc_CreatedAt a <= mc_CreatedAt b).
Proof. intros a b. apply Z.le_dec. Defined.
Definition MergeDuplicateContacts (org : uuid) (apply : bool) : Db MergeDb (result merge_error MergeReport) :=
  all ←? query (fun d => Ok (merge_sort (fun a b => mc_CreatedAt a <= mc_CreatedAt b)
                 (List.filter (fun c => N.eqb (mc_Org c) org && negb (mc_Deleted c)) (mg_contacts d))));
  cols ←? query (fun d => Ok (map fst (mg_children d)));
  rep ← merge_groups all cols apply (merge_plan (map mc_PhoneNumber all)) (MkReport 0 0 0 []);
  mret (Ok rep).
End MergeGroup.

(** ** What a merge does *)
Section MergeSpec.
Context (id_prefix : uuid -> string).

(** The rows after a merge. *)
Definition merged_contact (keep : Contact) (dups : list Contact) (c : Contact) : Contact :=
  if is_dup (map mc_ID dups) (mc_ID c) then deleted (retired id_prefix c)
  else if N.eqb (mc_ID c) (mc_ID keep) && negb (mc_Deleted c) then apply_updates (updates_of keep dups) c
  else c.
Definition merged (keep : Contact) (dups : list Contact) (cols : list column) (d : MergeDb) : MergeDb :=
  MkMergeDb (map (merged_contact keep dups) (mg_contacts d))
    (map (fun e => if existsb (fun c => same_column c e) cols then (fst e, map (repoint_value (mc_ID keep) (map mc_ID dups)) (snd e)) else e)
       (mg_children d)).

Lemma repoint_twice keep dups vs : is_dup dups keep = false ->
  map (repoint_value keep dups) (map (repoint_value keep dups) vs) = map (repoint_value keep dups) vs.
Proof.
  intros Hk. rewrite map_map. apply map_ext. intros u. unfold repoint_value. destruct (is_dup dups u) eqn:E; [by rewrite Hk | by rewrite E].
Qed.

Lemma repoint_all_sem keep dups cols moved d x d' : is_dup dups keep = false ->
  db_sem (repoint_all keep dups cols moved) d (Ok x) d' ->
  d' = MkMergeDb (mg_contacts d) (map (fun e => if existsb (fun c => same_column c e) cols
         then (fst e, map (repoint_value keep dups) (snd e)) else e) (mg_children d)).
Proof.
  intros Hk. revert moved d. induction cols as [| c cols IH]; intros moved d H; simpl in H.
  - apply db_sem_ret in H as [_ ->]. simpl. rewrite map_id. by destruct d.
  - apply db_sem_try in H as [(e & _ & ?) | (n & d1 & H1 & H2)]; [done |]. apply exec_ok_sem in H1. injection H1 as _ <-.
    rewrite (IH _ _ H2). simpl. f_equal. rewrite map_map. apply map_ext. intros e.
    assert (Hs : forall x vs, same_column x (fst e, vs) = same_column x e) by done.
    assert (He : forall vs, existsb (fun x => same_column x (fst e, vs)) cols = existsb (fun x => same_column x e) cols) by done.
    destruct (same_column c e) eqn:E; simpl; [| done]. rewrite He. destruct (existsb _ cols); [| done]. simpl. by rewrite repoint_twice.
Qed.

Lemma update_contacts_sem p f d x d' :
  db_sem (update_contacts p f) d (Ok x) d' -> d' = MkMergeDb (sql_update p f (mg_contacts d)) (mg_children d).
Proof. intros H%exec_ok_sem. cbv zeta in H. destruct (phones_unique _); [by injection H as _ <- | done]. Qed.

Lemma no_updates_apply up c : no_updates up = true -> apply_updates up c = c.
Proof. unfold no_updates. intros H. destruct up as [[] [] []]; try done. by destruct c. Qed.

(** Folding a group is all or nothing: whatever fails, either nothing changed or every
    reference to a duplicate, in every column that holds contacts, points at the survivor,
    the duplicates are retired and soft-deleted, the survivor has its canonical phone and
    the name and owner it lacked, and every other row is as it was; success means the
    latter. *)
Theorem merge_group_complete keep dups cols d r d' :
  is_dup (map mc_ID dups) (mc_ID keep) = false ->
  db_sem (mergeGroup id_prefix keep dups cols) d r d' ->
  (d' = d \/ d' = merged keep dups cols d) /\ (is_ok r = true -> d' = merged keep dups cols d).
Proof.
  intros Hk [[-> Hr] | (moved & H & Hr)]%db_sem_transaction; [split; [by left | by rewrite Hr] |].
  enough (E : d' = merged keep dups cols d) by (split; [by right | done]). clear Hr.
  apply db_sem_try in H as [(e & _ & ?) | (n & d1 & H1 & H)]; [done |]. apply repoint_all_sem in H1; [| done].
  apply db_sem_try in H as [(e & _ & ?) | ([] & d2 & H2 & H)]; [done |]. apply update_contacts_sem in H2.
  apply db_sem_try in H as [(e & _ & ?) | ([] & d3 & H3 & H)]; [done |].
  apply db_sem_try in H as [(e & _ & ?) | ([] & d4 & H4 & H)]; [done |]. apply update_contacts_sem in H4.
  apply db_sem_ret in H as [_ ->].
  assert (E3 : d3 = MkMergeDb (sql_update (fun c => N.eqb (mc_ID c) (mc_ID keep) && negb (mc_Deleted c)) (apply_updates (updates_of keep dups)) (mg_contacts d2))
    (mg_children d2)).
  { destruct (no_updates (updates_of keep dups)) eqn:En; [| by apply update_contacts_sem in H3]. apply db_sem_ret in H3 as [_ ->].
    destruct d2 as [cs ch]. simpl. f_equal. unfold sql_update. symmetry. rewrite <- (map_id cs) at 2. apply map_ext. intros c.
    rewrite no_updates_apply by done. by destruct (_ && _). }
  rewrite H4, E3, H2, H1. unfold merged, sql_update. simpl. f_equal. rewrite !map_map. apply map_ext. intros c. unfold merged_contact.
  destruct (is_dup (map mc_ID dups) (mc_ID c)) eqn:E; simpl.
  - assert (N.eqb (mc_ID c) (mc_ID keep) = false) as ->.
    { apply N.eqb_neq. intros Ei. rewrite Ei in E. congruence. }
    simpl. rewrite E. simpl. destruct (mc_Deleted c) eqn:Ed; simpl; [| done]. unfold deleted, retired, with_phone. simpl. by rewrite Ed.
  - destruct (N.eqb (mc_ID c) (mc_ID keep) && negb (mc_Deleted c)) eqn:Ek; simpl; by rewrite ?E.
Qed.
End MergeSpec.

(** ** Witness: the same mobile with and without its ninth digit *)
Definition ex_keep : Contact := MkContact 1 9 "5511987654321" "" None 100 false.
Definition ex_dup : Contact := MkContact 2 9 "551187654321" "Ana" (Some 7%N) 200 false.
Definition ex_merge_db : MergeDb := MkMergeDb [ex_keep; ex_dup] [(("messages", "contact_id"), [1%N; 2%N; 3%N])].

Example ex_plan : merge_plan ["5511987654321"; "551187654321"; "5511912345678"] = [(0%nat, [0%nat; 1%nat])].
Proof. vm_compute. done. Qed.

Lemma merge_group_complete_witness :
  merged (fun _ => "00000002") ex_keep [ex_dup] [("messages", "contact_id")] ex_merge_db =
    MkMergeDb [MkContact 1 9 "5511987654321" "Ana" (Some 7%N) 100 false; MkContact 2 9 "551187654321#merged-00000002" "Ana" (Some 7%N) 200 true]
      [(("messages", "contact_id"), [1%N; 1%N; 3%N])] /\
  fst (mergeGroup (fun _ => "00000002") ex_keep [ex_dup] [("messages", "contact_id")] (World ex_merge_db [])) = Ok 1 /\
  w_data (snd (mergeGroup (fun _ => "00000002") ex_keep [ex_dup] [("messages", "contact_id")] (World ex_merge_db []))) =
    merged (fun _ => "00000002") ex_keep [ex_dup] [("messages", "contact_id")] ex_merge_db.
Proof.
  split; [vm_compute; reflexivity |]. split; [vm_compute; reflexivity |].
  refine (proj2 (merge_group_complete (fun _ => "00000002") ex_keep [ex_dup] [("messages", "contact_id")] ex_merge_db (Ok 1) _ eq_refl _) eq_refl).
  exists [], []. vm_compute. reflexivity.
Defined.
