(* ===== verification/Presence.v ===== *)
(** The hub as the presence source of the assignment ([SetPresence(hub.IsUserOnline)] at start
    up): the interface of [Assignment], implemented by [Hub]. *)
From S2P Require Import Prelude Effects Hub Assignment.

Definition has_connection (h : Hub.Hub) (org user : uuid) : Prop := exists id, live h org user id.
Lemma online_has_connection h org user : hub_ok h -> IsUserOnline h org user = true -> has_connection h org user.
Proof.
  intros Hh Hon. rewrite online_members, negb_true_iff, bool_decide_eq_false in Hon.
  apply set_choose_L in Hon as [id Hid]. exists id. by apply (ok_members h Hh).
Qed.
#[global] Instance hub_presence : PresenceSource Hub.Hub := {
  ps_online := IsUserOnline; ps_valid := hub_ok; ps_connected := has_connection; ps_sound := online_has_connection }.

(** An agent who is assigned a conversation has, at that moment, a live authenticated
    connection: whatever the connections did before and whatever the database fails. *)
Theorem assigned_agent_has_connection authorize marshal decode auth_token contact_id parse_uuid pong h
    team org exclude loadCounter cached now w u store w' :
  rtc (hub_step authorize marshal decode auth_token contact_id parse_uuid pong) NewHub h ->
  AssignToTeam (Some (IsUserOnline h)) team org exclude loadCounter cached now w = ((Some u, store), w') ->
  exists id, live h org u id.
Proof. intros Hh%reachable_ok Ha. exact (assigned_connected h team org exclude loadCounter cached now w u store w' Hh Ha). Qed.

(** ** Witness: the connected one of a team of two *)
Definition ex_connected_team : TeamDb :=
  MkTeamDb [MkUser 21 true true false; MkUser 7 true true false] [MkTeam 4 true RoundRobin 0 false]
    [ex_member 1 21 None; ex_member 2 7 (Some 50)] [] [] [].
Lemma assigned_agent_has_connection_witness :
  fst (fst (AssignToTeam (Some (IsUserOnline ex_hub)) 4 9 [] ChatLoadCounter None 100 (World ex_connected_team []))) = Some 7%N /\
  exists id, live ex_hub 9 7 id.
Proof.
  split; [vm_compute; reflexivity |].
  apply (assigned_agent_has_connection ex_rule (fun _ => Some "{}") (fun s => Some (MkWS s (JStr "token"))) (fun j => as_str (Some j)) (fun _ => None) (fun _ => None) ""
    ex_hub 4 9 [] ChatLoadCounter None 100 (World ex_connected_team []) 7 (Some (MkConfig RoundRobin 0 [21%N; 7%N]))
    (World (mark (ex_member 2 7 (Some 50)) 100 ex_connected_team) [])); [| vm_compute; reflexivity].
  eapply rtc_l; [apply (step_connect _ _ _ _ _ _ _ NewHub 1); reflexivity |].
  eapply rtc_l; [| apply rtc_refl].
  exact (step_frame _ _ _ _ _ _ _ ex_connected 1 NewUnauthenticatedClient (fun _ => Some (7%N, 9%N)) (Some "auth") eq_refl eq_refl).
Defined.
