(* ===== verification/Permissions.v ===== *)
(** The permission catalogue ([internal/models/roles.go]) and the keys that name its entries
    ([internal/handlers/roles.go], [users.go]). *)
From S2P Require Import Prelude GoText GoAny.
From Stdlib Require Import Ascii.

(** * Names *)
Definition ResourceUsers : string := "users".
Definition ResourceTeams : string := "teams".
Definition ResourceRoles : string := "roles".
Definition ResourceSettingsGeneral : string := "settings.general".
Definition ResourceSettingsChatbot : string := "settings.chatbot".
Definition ResourceSettingsSSO : string := "settings.sso".
Definition ResourceSettingsCalling : string := "settings.calling".
Definition ResourceSettingsNotification : string := "settings.notification".
Definition ResourceSettingsChatbotMessages : string := "settings.chatbot.messages".
Definition ResourceSettingsChatbotAgents : string := "settings.chatbot.agents".
Definition ResourceSettingsChatbotHours : string := "settings.chatbot.hours".
Definition ResourceSettingsChatbotSLA : string := "settings.chatbot.sla".
Definition ResourceSettingsChatbotAI : string := "settings.chatbot.ai".
Definition ResourceAccounts : string := "accounts".
Definition ResourceTemplates : string := "templates".
Definition ResourceFlowsWhatsApp : string := "flows.whatsapp".
Definition ResourceFlowsChatbot : string := "flows.chatbot".
Definition ResourceCampaigns : string := "campaigns".
Definition ResourceChatbotKeywords : string := "chatbot.keywords".
Definition ResourceChatbotAI : string := "chatbot.ai".
Definition ResourceChat : string := "chat".
Definition ResourceChatAssign : string := "chat.assign".
Definition ResourceTeamChat : string := "team_chat".
Definition ResourceContacts : string := "contacts".
Definition ResourceContactName : string := "contacts.name".
Definition ResourceTags : string := "tags".
Definition ResourceAnalytics : string := "analytics".
Definition ResourceAnalyticsAgents : string := "analytics.agents".
Definition ResourceWhatsAppUsage : string := "whatsapp_usage".
Definition ResourceTransfers : string := "transfers".
Definition ResourceWebhooks : string := "webhooks".
Definition ResourceAPIKeys : string := "api_keys".
Definition ResourceCannedResponses : string := "canned_responses".
Definition ResourceConversations : string := "conversations".
Definition ResourceCustomActions : string := "custom_actions".
Definition ResourceOrganizations : string := "organizations".
Definition ResourceCallLogs : string := "call_logs".
Definition ResourceIVRFlows : string := "ivr_flows".
Definition ResourceCallTransfers : string := "call_transfers".
Definition ResourceOutgoingCalls : string := "outgoing_calls".
Definition ResourceAuditLogs : string := "audit_logs".
Definition ResourceOccurrences : string := "occurrences".
Definition ResourceOccurrenceStages : string := "occurrences.stages".
Definition ResourceOccurrenceCategories : string := "occurrences.categories".
Definition ResourceOccurrenceSLAPolicies : string := "occurrences.sla_policies".
Definition ResourceOccurrenceWhatHappened : string := "occurrences.what_happened".
Definition ResourceOccurrenceProcesses : string := "occurrences.processes".
Definition ResourceUnits : string := "units".
Definition ResourceDepartments : string := "departments".
Definition ResourceSalesOpportunities : string := "sales_opportunities".
Definition ResourceXProcessIntegration : string := "xprocess_integration".
Definition ResourceKnowledge : string := "knowledge".
Definition ResourceAITools : string := "ai_tools".
Definition ActionRead : string := "read".
Definition ActionWrite : string := "write".
Definition ActionDelete : string := "delete".
Definition ActionSync : string := "sync".
Definition ActionExecute : string := "execute".
Definition ActionImport : string := "import".
Definition ActionExport : string := "export".
Definition ActionPickup : string := "pickup".
Definition ActionAssign : string := "assign".
Definition ActionViewAll : string := "view_all".
Definition ActionViewTeam : string := "view_team".
Definition ActionManage : string := "manage".
Definition ActionJoinAny : string := "join_any".

(** * The catalogue

    (resource, action), in the order of the source; the descriptions are texts of a screen. *)
Definition DefaultPermissions : list (string * string) := [
  (ResourceUsers, ActionRead); (ResourceUsers, ActionWrite); (ResourceUsers, ActionDelete); (ResourceTeams, ActionRead); (ResourceTeams, ActionWrite);
  (ResourceTeams, ActionDelete); (ResourceRoles, ActionRead); (ResourceRoles, ActionWrite); (ResourceRoles, ActionDelete); (ResourceSettingsGeneral, ActionRead);
  (ResourceSettingsGeneral, ActionWrite); (ResourceSettingsChatbot, ActionRead); (ResourceSettingsChatbot, ActionWrite); (ResourceSettingsSSO, ActionRead);
  (ResourceSettingsSSO, ActionWrite); (ResourceAccounts, ActionRead); (ResourceAccounts, ActionWrite); (ResourceAccounts, ActionDelete); (ResourceTemplates, ActionRead);
  (ResourceTemplates, ActionWrite); (ResourceTemplates, ActionDelete); (ResourceTemplates, ActionSync); (ResourceFlowsWhatsApp, ActionRead);
  (ResourceFlowsWhatsApp, ActionWrite); (ResourceFlowsWhatsApp, ActionDelete); (ResourceFlowsChatbot, ActionRead); (ResourceFlowsChatbot, ActionWrite);
  (ResourceFlowsChatbot, ActionDelete); (ResourceCampaigns, ActionRead); (ResourceCampaigns, ActionWrite); (ResourceCampaigns, ActionDelete);
  (ResourceCampaigns, ActionExecute); (ResourceChatbotKeywords, ActionRead); (ResourceChatbotKeywords, ActionWrite); (ResourceChatbotKeywords, ActionDelete);
  (ResourceChatbotAI, ActionRead); (ResourceChatbotAI, ActionWrite); (ResourceChatbotAI, ActionDelete); (ResourceChat, ActionRead); (ResourceChat, ActionWrite);
  (ResourceChatAssign, ActionWrite); (ResourceTeamChat, ActionRead); (ResourceTeamChat, ActionWrite); (ResourceTeamChat, ActionManage); (ResourceTeamChat, ActionDelete);
  (ResourceTeamChat, ActionJoinAny); (ResourceConversations, ActionViewAll); (ResourceConversations, ActionViewTeam); (ResourceContacts, ActionRead);
  (ResourceContacts, ActionWrite); (ResourceContacts, ActionDelete); (ResourceContacts, ActionImport); (ResourceContacts, ActionExport);
  (ResourceContactName, ActionWrite); (ResourceTags, ActionRead); (ResourceTags, ActionWrite); (ResourceTags, ActionDelete); (ResourceAnalytics, ActionRead);
  (ResourceAnalytics, ActionWrite); (ResourceAnalytics, ActionDelete); (ResourceAnalyticsAgents, ActionRead); (ResourceAnalyticsAgents, ActionViewTeam);
  (ResourceWhatsAppUsage, ActionRead); (ResourceWhatsAppUsage, ActionWrite); (ResourceTransfers, ActionRead); (ResourceTransfers, ActionWrite);
  (ResourceTransfers, ActionPickup); (ResourceWebhooks, ActionRead); (ResourceWebhooks, ActionWrite); (ResourceWebhooks, ActionDelete); (ResourceAPIKeys, ActionRead);
  (ResourceAPIKeys, ActionWrite); (ResourceAPIKeys, ActionDelete); (ResourceXProcessIntegration, ActionRead); (ResourceXProcessIntegration, ActionWrite);
  (ResourceKnowledge, ActionRead); (ResourceKnowledge, ActionWrite); (ResourceAITools, ActionRead); (ResourceAITools, ActionWrite);
  (ResourceCannedResponses, ActionRead); (ResourceCannedResponses, ActionWrite); (ResourceCannedResponses, ActionDelete); (ResourceCustomActions, ActionRead);
  (ResourceCustomActions, ActionWrite); (ResourceCustomActions, ActionDelete); (ResourceOrganizations, ActionRead); (ResourceOrganizations, ActionWrite);
  (ResourceOrganizations, ActionDelete); (ResourceOrganizations, ActionAssign); (ResourceCallLogs, ActionRead); (ResourceIVRFlows, ActionRead);
  (ResourceIVRFlows, ActionWrite); (ResourceIVRFlows, ActionDelete); (ResourceCallTransfers, ActionRead); (ResourceCallTransfers, ActionWrite);
  (ResourceOutgoingCalls, ActionRead); (ResourceOutgoingCalls, ActionWrite); (ResourceAuditLogs, ActionRead); (ResourceOccurrences, ActionRead);
  (ResourceOccurrences, ActionWrite); (ResourceOccurrences, ActionDelete); (ResourceOccurrenceStages, ActionRead); (ResourceOccurrenceStages, ActionWrite);
  (ResourceOccurrenceStages, ActionDelete); (ResourceOccurrenceCategories, ActionRead); (ResourceOccurrenceCategories, ActionWrite);
  (ResourceOccurrenceCategories, ActionDelete); (ResourceOccurrenceWhatHappened, ActionRead); (ResourceOccurrenceWhatHappened, ActionWrite);
  (ResourceOccurrenceWhatHappened, ActionDelete); (ResourceOccurrenceSLAPolicies, ActionRead); (ResourceOccurrenceSLAPolicies, ActionWrite);
  (ResourceOccurrenceProcesses, ActionRead); (ResourceOccurrenceProcesses, ActionWrite); (ResourceOccurrenceProcesses, ActionDelete); (ResourceUnits, ActionRead);
  (ResourceUnits, ActionWrite); (ResourceUnits, ActionDelete); (ResourceDepartments, ActionRead); (ResourceDepartments, ActionWrite);
  (ResourceDepartments, ActionDelete); (ResourceSalesOpportunities, ActionRead); (ResourceSalesOpportunities, ActionWrite); (ResourceSalesOpportunities, ActionViewAll);
  (ResourceSalesOpportunities, ActionViewTeam); (ResourceSalesOpportunities, ActionDelete)].

Definition permission_key (p : string * string) : string := fst p +:+ ":" +:+ snd p.
Definition allPermissions : list string := map permission_key DefaultPermissions.
Definition managerPermissions : list string := [
  "teams:read"; "settings.general:read"; "settings.general:write"; "settings.chatbot:read"; "settings.chatbot:write"; "accounts:read"; "accounts:write";
  "accounts:delete"; "templates:read"; "templates:write"; "templates:delete"; "templates:sync"; "flows.whatsapp:read"; "flows.whatsapp:write"; "flows.whatsapp:delete";
  "flows.chatbot:read"; "flows.chatbot:write"; "flows.chatbot:delete"; "campaigns:read"; "campaigns:write"; "campaigns:delete"; "campaigns:execute";
  "chatbot.keywords:read"; "chatbot.keywords:write"; "chatbot.keywords:delete"; "chatbot.ai:read"; "chatbot.ai:write"; "chatbot.ai:delete"; "chat:read"; "chat:write";
  "chat.assign:write"; "team_chat:read"; "team_chat:write"; "team_chat:manage"; "team_chat:delete"; "occurrences:read"; "occurrences:write"; "occurrences.stages:read";
  "occurrences.stages:write"; "occurrences.stages:delete"; "occurrences.categories:read"; "occurrences.categories:write"; "occurrences.categories:delete";
  "occurrences.what_happened:read"; "occurrences.what_happened:write"; "occurrences.what_happened:delete"; "occurrences.sla_policies:read";
  "occurrences.sla_policies:write"; "units:read"; "units:write"; "units:delete"; "departments:read"; "departments:write"; "departments:delete"; "conversations:view_all";
  "contacts:read"; "contacts:write"; "contacts:delete"; "contacts:import"; "contacts:export"; "tags:read"; "tags:write"; "tags:delete"; "analytics:read";
  "analytics.agents:read"; "whatsapp_usage:read"; "transfers:read"; "transfers:write"; "transfers:pickup"; "webhooks:read"; "webhooks:write"; "webhooks:delete";
  "canned_responses:read"; "canned_responses:write"; "canned_responses:delete"; "custom_actions:read"; "custom_actions:write"; "custom_actions:delete";
  "organizations:read"; "call_logs:read"; "ivr_flows:read"; "ivr_flows:write"; "ivr_flows:delete"; "call_transfers:read"; "call_transfers:write"; "outgoing_calls:read";
  "outgoing_calls:write"; "sales_opportunities:read"; "sales_opportunities:write"; "sales_opportunities:view_all"].
Definition agentPermissions : list string := [
  "accounts:read"; "chat:read"; "chat:write"; "team_chat:read"; "team_chat:write"; "occurrences:read"; "occurrences:write"; "contacts:read"; "contacts.name:write";
  "tags:read"; "analytics.agents:read"; "transfers:read"; "transfers:write"; "transfers:pickup"; "canned_responses:read"; "call_transfers:read"; "call_transfers:write";
  "outgoing_calls:read"; "outgoing_calls:write"; "sales_opportunities:read"; "sales_opportunities:write"].
Definition SystemRolePermissions : list (string * list string) :=
  [("admin", allPermissions); ("manager", managerPermissions); ("agent", agentPermissions)].

(** * Keys *)

(** [splitPermissionKey] cuts at the first colon, [splitPermission] at the last. *)
Fixpoint splitPermissionKey (key : string) : option (string * string) :=
  match key with
  | EmptyString => None
  | String c rest =>
      if Ascii.eqb c ":" then Some ("", rest) else '(resource, action) ← splitPermissionKey rest; Some (String c resource, action)
  end.
Fixpoint splitPermission (p : string) : option (string * string) :=
  match p with
  | EmptyString => None
  | String c rest =>
      match splitPermission rest with
      | Some (resource, action) => Some (String c resource, action)
      | None => if Ascii.eqb c ":" then Some ("", rest) else None
      end
  end.

(** A row of the table. *)
Record Permission := MkPermission { pm_ID : uuid; pm_Resource : string; pm_Action : string; pm_Deleted : bool }.
Definition pair_of (p : Permission) : string * string := (pm_Resource p, pm_Action p).
Definition key_of (p : Permission) : string := permission_key (pair_of p).

(** [getPermissionsByKeys]: the rows its query finds. *)
Definition key_conditions (keys : list string) : list (string * string) :=
  omap (fun key => if String.eqb key "" then None else splitPermissionKey key) keys.
Definition getPermissionsByKeys (keys : list string) (table : list Permission) : list Permission :=
  List.filter (fun p => bool_decide (pair_of p ∈ key_conditions keys) && negb (pm_Deleted p)) table.

(** ** Reading keys back *)
Definition no_colon (s : string) : bool := str_forallb (fun c => negb (Ascii.eqb c ":")) s.

Lemma split_first resource action :
  no_colon resource = true -> splitPermissionKey (permission_key (resource, action)) = Some (resource, action).
Proof.
  unfold permission_key. simpl. induction resource as [| c r IH]; [done |]. simpl. intros [H1 H2]%andb_true_iff.
  destruct (Ascii.eqb c ":"); [done |]. by rewrite IH.
Qed.
Lemma key_is_not_empty p : permission_key p <> "".
Proof. unfold permission_key. by destruct p as [[|] ?]. Qed.
Lemma split_none s : no_colon s = true -> splitPermission s = None.
Proof.
  induction s as [| c s IH]; [done |]. simpl. intros [H1 H2]%andb_true_iff. rewrite IH by done. by destruct (Ascii.eqb c ":").
Qed.
Lemma split_last resource action :
  no_colon action = true -> splitPermission (permission_key (resource, action)) = Some (resource, action).
Proof.
  unfold permission_key. simpl. intros H. induction resource as [| c r IH].
  - simpl. by rewrite split_none.
  - simpl. by rewrite IH.
Qed.
Lemma key_conditions_of (l : list Permission) :
  Forall (fun p => no_colon (pm_Resource p) = true) l -> key_conditions (map key_of l) = map pair_of l.
Proof.
  induction 1 as [| p l Hp _ IH]; [done |]. unfold key_conditions in *. simpl. unfold key_of at 1 2.
  destruct (String.eqb_spec (permission_key (pair_of p)) "") as [E |]; [by apply key_is_not_empty in E |].
  unfold pair_of at 1. rewrite split_first by done. by f_equal.
Qed.

(** C35: a role's permissions survive the trip through their keys: the keys shown for a set
    of permissions, sent back, name exactly that set, and the two readers of a key, one
    cutting at the first colon and one at the last, both give back what was written. *)
Theorem permission_keys_round_trip (table l : list Permission) :
  Forall (fun p => no_colon (pm_Resource p) = true /\ no_colon (pm_Action p) = true) table ->
  NoDup (map pair_of table) -> (forall p, p ∈ l -> p ∈ table /\ pm_Deleted p = false) ->
  (forall p, p ∈ getPermissionsByKeys (map key_of l) table <-> p ∈ l) /\
  (forall p, p ∈ table -> splitPermissionKey (key_of p) = Some (pair_of p) /\ splitPermission (key_of p) = Some (pair_of p)).
Proof.
  intros Hc Hnd Hl. rewrite Forall_forall in Hc. split.
  - intros p. unfold getPermissionsByKeys. rewrite list_elem_of_In, filter_In, <- list_elem_of_In, andb_true_iff, bool_decide_eq_true, negb_true_iff.
    rewrite key_conditions_of by (apply Forall_forall; intros q Hq; by apply Hc, Hl).
    change (map pair_of l) with (pair_of <$> l). rewrite list_elem_of_fmap. split.
    + intros (Hp & (q & E & Hq) & _). destruct (Hl q Hq) as [Hqt _].
      by rewrite (NoDup_map_inj pair_of table p q).
    + intros Hp. destruct (Hl p Hp) as [H1 H2]. split_and!; [done | by exists p | done].
  - intros p Hp. destruct (Hc p Hp) as [H1 H2]. split; [by apply split_first | by apply split_last].
Qed.

Definition sample_table : list Permission :=
  [MkPermission 1 "chat" "read" false; MkPermission 2 "settings.general" "write" false; MkPermission 3 "users" "delete" true].
Theorem permission_keys_round_trip_witness :
  (forall p, p ∈ getPermissionsByKeys ["chat:read"; "settings.general:write"] sample_table <-> p ∈ take 2 sample_table) /\
  (forall p, p ∈ sample_table -> splitPermissionKey (key_of p) = Some (pair_of p) /\ splitPermission (key_of p) = Some (pair_of p)).
Proof.
  apply (permission_keys_round_trip sample_table (take 2 sample_table)).
  - repeat constructor.
  - apply (bool_decide_unpack _). vm_compute. exact I.
  - intros p Hp. apply list_elem_of_In in Hp. simpl in Hp. destruct Hp as [<- | [<- | []]]; (split; [apply list_elem_of_In; simpl; tauto | done]).
Defined.

(** * The permissions screen *)
Record PermissionGroup := MkGroup { pg_Key : string; pg_Order : Z; pg_Resources : list string }.
Definition PermissionGroupOther : string := "other".
Definition permissionGroups : list PermissionGroup := [
  MkGroup "admin" 10 [ResourceUsers; ResourceTeams; ResourceRoles; ResourceOrganizations; ResourceAuditLogs; ResourceSettingsGeneral; ResourceSettingsSSO];
  MkGroup "service" 20 [ResourceChat; ResourceChatAssign; ResourceTeamChat; ResourceConversations; ResourceContacts; ResourceContactName; ResourceTags; ResourceTransfers; ResourceCannedResponses];
  MkGroup "crm" 30 [ResourceOccurrences; ResourceOccurrenceStages; ResourceOccurrenceCategories; ResourceOccurrenceWhatHappened; ResourceOccurrenceSLAPolicies; ResourceOccurrenceProcesses; ResourceUnits; ResourceDepartments];
  MkGroup "sales" 40 [ResourceSalesOpportunities];
  MkGroup "whatsapp" 50 [ResourceAccounts; ResourceTemplates; ResourceCampaigns; ResourceFlowsWhatsApp; ResourceFlowsChatbot; ResourceChatbotKeywords; ResourceSettingsChatbot];
  MkGroup "ai" 60 [ResourceChatbotAI; ResourceKnowledge; ResourceAITools];
  MkGroup "integrations" 70 [ResourceXProcessIntegration; ResourceWebhooks; ResourceAPIKeys; ResourceCustomActions];
  MkGroup "analytics" 80 [ResourceAnalytics; ResourceAnalyticsAgents; ResourceWhatsAppUsage];
  MkGroup "calls" 90 [ResourceCallLogs; ResourceIVRFlows; ResourceCallTransfers; ResourceOutgoingCalls]].
Definition permissionActionOrder : list string :=
  [ActionRead; ActionWrite; ActionDelete; ActionSync; ActionExecute; ActionImport; ActionExport; ActionPickup; ActionAssign; ActionViewAll;
   ActionViewTeam; ActionManage; ActionJoinAny].

(** The scan of the groups keeps the last match, the scan of the actions the first. *)
Definition find_group (resource : string) : string * Z * Z :=
  foldl (fun acc g => foldl (fun acc '(i, r) => if String.eqb r resource then (pg_Key g, pg_Order g, i) else acc)
                            acc (imap (fun i r => (Z.of_nat i, r)) (pg_Resources g)))
        (PermissionGroupOther, 999, 0) permissionGroups.
Definition action_index (action : string) : Z :=
  match list_find (fun a => a = action) permissionActionOrder with Some (i, _) => Z.of_nat i | None => Z.of_nat (length permissionActionOrder) end.
Definition PermissionPresentation (resource action : string) : string * Z * Z :=
  let '(group, groupOrder, resIdx) := find_group resource in
  (group, groupOrder, groupOrder * 10000 + resIdx * 100 + action_index action).

(** * What the catalogue promises *)
Definition granted (role : string) : list string :=
  match List.find (fun r => String.eqb (fst r) role) SystemRolePermissions with Some r => snd r | None => [] end.
Definition fits (p : string * string) : bool :=
  (String.length (fst p) <=? 50)%nat && (String.length (snd p) <=? 20)%nat && no_colon (fst p) && no_colon (snd p).

Definition sort_order (p : string * string) : Z := let '(_, _, o) := PermissionPresentation (fst p) (snd p) in o.
Definition in_group (p : string * string) : Prop := fst (fst (PermissionPresentation (fst p) (snd p))) <> PermissionGroupOther.
Definition admin_alone (p : string * string) : Prop :=
  fst p ∈ [ResourceUsers; ResourceRoles; ResourceAPIKeys; ResourceKnowledge; ResourceAITools; ResourceXProcessIntegration; ResourceAuditLogs] \/
  p = (ResourceTeamChat, ActionJoinAny).
#[global] Instance admin_alone_dec p : Decision (admin_alone p).
Proof. unfold admin_alone. apply _. Defined.
#[global] Instance in_group_dec p : Decision (in_group p).
Proof. unfold in_group. apply _. Defined.

(** The catalogue is well formed and the three system roles are drawn from it: no entry
    twice, every name fits its column and leaves the colon to the key, every entry has its
    own place in a group of the screen; every key of a system role names an entry; all a
    manager or an agent may do an administrator may, all an agent may do but rename contacts
    a manager may; and the entries of the administrator alone (users, roles, API keys, the
    AI's knowledge and tools, the ERP, the audit log, joining any team chat) are in neither
    of the other two lists. *)
Theorem catalogue_sound :
  NoDup DefaultPermissions /\ Forall (fun p => fits p = true /\ in_group p) DefaultPermissions /\ NoDup (map sort_order DefaultPermissions) /\
  Forall (fun r => NoDup (snd r) /\ Forall (fun k => k ∈ granted "admin") (snd r)) SystemRolePermissions /\ granted "admin" = allPermissions /\
  Forall (fun k => k ∈ granted "manager" \/ k = permission_key (ResourceContactName, ActionWrite)) (granted "agent") /\
  Forall (fun p => admin_alone p -> (permission_key p ∉ granted "manager") /\ (permission_key p ∉ granted "agent")) DefaultPermissions.
Proof. split_and!; try done; apply (bool_decide_unpack _); vm_compute; exact I. Qed.
