(* ===== verification/Accounts.v ===== *)
(** The tables of accounts ([internal/models/roles.go], [models.go]): organizations, users,
    memberships, roles, permissions and the links between roles and permissions, with the
    statements the rest of the code issues on them. *)
From S2P Require Import Prelude Effects Sql Permissions.

(** * The tables *)
Record Organization := MkOrg { og_ID : uuid; og_Name : string; og_Slug : string; og_Deleted : bool }.
Record CustomRole := MkRole {
  cr_ID : uuid; cr_OrganizationID : uuid; cr_Name : string; cr_Description : string; cr_IsSystem : bool; cr_IsDefault : bool; cr_Deleted : bool }.
(** [us_LegacyRole]: the text column [role] of installations older than [role_id]. *)
Record User := MkUser {
  us_ID : uuid; us_OrganizationID : uuid; us_Email : string; us_PasswordHash : string; us_FullName : string; us_RoleID : option uuid;
  us_LegacyRole : string; us_IsActive : bool; us_IsAvailable : bool; us_IsSuperAdmin : bool; us_XProcessSellerCode : option string;
  us_UnitID : option uuid; us_DepartmentID : option uuid; us_SSOProvider : string; us_SSOProviderID : string; us_Deleted : bool }.
Record UserOrganization := MkMembership {
  uo_ID : uuid; uo_UserID : uuid; uo_OrganizationID : uuid; uo_RoleID : option uuid; uo_IsDefault : bool; uo_Deleted : bool }.

(** [ac_links]: the rows of [role_permissions], (role, permission), its primary key.
    [ac_uuids]: what [uuid.New] and [gen_random_uuid] are about to return. *)
Record Accounts := MkAccounts {
  ac_orgs : list Organization; ac_roles : list CustomRole; ac_permissions : list Permission; ac_links : gset (uuid * uuid);
  ac_users : list User; ac_members : list UserOrganization; ac_uuids : list uuid }.

Definition set_roles f (d : Accounts) : Accounts :=
  MkAccounts (ac_orgs d) (f (ac_roles d)) (ac_permissions d) (ac_links d) (ac_users d) (ac_members d) (ac_uuids d).
Definition set_permissions f (d : Accounts) : Accounts :=
  MkAccounts (ac_orgs d) (ac_roles d) (f (ac_permissions d)) (ac_links d) (ac_users d) (ac_members d) (ac_uuids d).
Definition set_links f (d : Accounts) : Accounts :=
  MkAccounts (ac_orgs d) (ac_roles d) (ac_permissions d) (f (ac_links d)) (ac_users d) (ac_members d) (ac_uuids d).
Definition set_users f (d : Accounts) : Accounts :=
  MkAccounts (ac_orgs d) (ac_roles d) (ac_permissions d) (ac_links d) (f (ac_users d)) (ac_members d) (ac_uuids d).
Definition set_members f (d : Accounts) : Accounts :=
  MkAccounts (ac_orgs d) (ac_roles d) (ac_permissions d) (ac_links d) (ac_users d) (f (ac_members d)) (ac_uuids d).
Definition set_orgs f (d : Accounts) : Accounts :=
  MkAccounts (f (ac_orgs d)) (ac_roles d) (ac_permissions d) (ac_links d) (ac_users d) (ac_members d) (ac_uuids d).
Definition set_uuids f (d : Accounts) : Accounts :=
  MkAccounts (ac_orgs d) (ac_roles d) (ac_permissions d) (ac_links d) (ac_users d) (ac_members d) (f (ac_uuids d)).

(** * Statements *)
Inductive AccErr := ErrNotFound | ErrUnique | ErrHash | ErrDb.
#[global] Instance AccErr_db : DbErr AccErr := ErrDb.
Abbreviation AccDb := (Db Accounts).
Abbreviation Res := (result AccErr).

Definition uuid_New : AccDb uuid :=
  fun w => (hd 0%N (ac_uuids (w_data w)), World (set_uuids tl (w_data w)) (w_faults w)).

(** [First]: the matching row with the smallest primary key. *)
Definition first_role (p : CustomRole -> bool) (d : Accounts) : Res CustomRole :=
  match sql_min (fun a b => (cr_ID a <=? cr_ID b)%N) (List.filter (fun r => p r && negb (cr_Deleted r)) (ac_roles d)) with
  | Some r => Ok r
  | None => Err ErrNotFound
  end.
Definition first_user_unscoped (p : User -> bool) (d : Accounts) : Res User :=
  match sql_min (fun a b => (us_ID a <=? us_ID b)%N) (List.filter p (ac_users d)) with Some u => Ok u | None => Err ErrNotFound end.
Definition first_user (p : User -> bool) : Accounts -> Res User := first_user_unscoped (fun u => p u && negb (us_Deleted u)).
Definition first_member_unscoped (p : UserOrganization -> bool) (d : Accounts) : Res UserOrganization :=
  match sql_min (fun a b => (uo_ID a <=? uo_ID b)%N) (List.filter p (ac_members d)) with Some m => Ok m | None => Err ErrNotFound end.
Definition first_member (p : UserOrganization -> bool) : Accounts -> Res UserOrganization :=
  first_member_unscoped (fun m => p m && negb (uo_Deleted m)).
Definition first_org (p : Organization -> bool) (d : Accounts) : Res Organization :=
  match sql_min (fun a b => (og_ID a <=? og_ID b)%N) (List.filter (fun o => p o && negb (og_Deleted o)) (ac_orgs d)) with
  | Some o => Ok o
  | None => Err ErrNotFound
  end.
Definition live_permissions (d : Accounts) : list Permission := List.filter (fun p => negb (pm_Deleted p)) (ac_permissions d).

(** [Create], against the primary keys and the unique indexes: [idx_permission_resource_action],
    [idx_custom_roles_org_name], the email, [idx_user_org], the slug. None of them leaves a
    soft-deleted row out. *)
Definition insert_permission (p : Permission) (d : Accounts) : Res unit * Accounts :=
  if existsb (fun q => bool_decide (pair_of q = pair_of p) || N.eqb (pm_ID q) (pm_ID p)) (ac_permissions d) then (Err ErrUnique, d)
  else (Ok tt, set_permissions (fun l => l ++ [p]) d).
Definition role_conflict (r q : CustomRole) : bool := N.eqb (cr_OrganizationID q) (cr_OrganizationID r) && String.eqb (cr_Name q) (cr_Name r).
(** A role with its permissions, in one transaction. *)
Definition insert_role (r : CustomRole) (perms : list Permission) (d : Accounts) : Res unit * Accounts :=
  if existsb (fun q => role_conflict r q || N.eqb (cr_ID q) (cr_ID r)) (ac_roles d) then (Err ErrUnique, d)
  else (Ok tt, set_links (fun s => list_to_set (map (fun p => (cr_ID r, pm_ID p)) perms) ∪ s) (set_roles (fun l => l ++ [r]) d)).
Definition insert_user (u : User) (d : Accounts) : Res unit * Accounts :=
  if existsb (fun q => String.eqb (us_Email q) (us_Email u) || N.eqb (us_ID q) (us_ID u)) (ac_users d) then (Err ErrUnique, d)
  else (Ok tt, set_users (fun l => l ++ [u]) d).
Definition same_membership (m q : UserOrganization) : bool :=
  N.eqb (uo_UserID q) (uo_UserID m) && N.eqb (uo_OrganizationID q) (uo_OrganizationID m).
Definition insert_member (m : UserOrganization) (d : Accounts) : Res unit * Accounts :=
  if existsb (fun q => same_membership m q || N.eqb (uo_ID q) (uo_ID m)) (ac_members d) then (Err ErrUnique, d)
  else (Ok tt, set_members (fun l => l ++ [m]) d).
Definition insert_org (o : Organization) (d : Accounts) : Res unit * Accounts :=
  if existsb (fun q => String.eqb (og_Slug q) (og_Slug o) || N.eqb (og_ID q) (og_ID o)) (ac_orgs d) then (Err ErrUnique, d)
  else (Ok tt, set_orgs (fun l => l ++ [o]) d).

(** [Association("Permissions").Replace]: the new links, then, in a statement of its own, the
    end of the others. *)
Definition role_links (role : uuid) (perms : list Permission) : gset (uuid * uuid) := list_to_set (map (fun p => (role, pm_ID p)) perms).
Definition add_links (role : uuid) (perms : list Permission) (d : Accounts) : Res unit * Accounts :=
  (Ok tt, set_links (fun s => role_links role perms ∪ s) d).
Definition drop_other_links (role : uuid) (perms : list Permission) (d : Accounts) : Res unit * Accounts :=
  (Ok tt, set_links (filter (fun l => fst l <> role \/ l ∈ role_links role perms)) d).
Definition replace_permissions (role : uuid) (perms : list Permission) : AccDb (Res unit) :=
  _ ←? exec (add_links role perms); exec (drop_other_links role perms).

(** ** Who holds what *)
Definition role_holds (d : Accounts) (p : Permission -> bool) (role : uuid) : bool :=
  existsb (fun q => bool_decide ((role, pm_ID q) ∈ ac_links d) && p q) (ac_permissions d).

Lemma role_holds_true d p role :
  role_holds d p role = true <-> exists q, q ∈ ac_permissions d /\ (role, pm_ID q) ∈ ac_links d /\ p q = true.
Proof.
  unfold role_holds. rewrite existsb_exists. split.
  - intros (q & Hq & [Hl%bool_decide_eq_true Hp]%andb_true_iff). exists q. by rewrite list_elem_of_In.
  - intros (q & Hq & Hl & Hp). exists q. rewrite <- list_elem_of_In, bool_decide_eq_true_2 by done. by rewrite Hp.
Qed.

(** ** What the queries find *)
Lemma sql_min_filter {A} before (p : A -> bool) l x : sql_min before (List.filter p l) = Some x -> x ∈ l /\ p x = true.
Proof. intros H%sql_min_in%list_elem_of_In%filter_In. by rewrite list_elem_of_In. Qed.
Lemma first_role_in p d r : first_role p d = Ok r -> r ∈ ac_roles d /\ p r = true /\ cr_Deleted r = false.
Proof.
  unfold first_role. destruct (sql_min _ _) as [q |] eqn:E; [| done]. intros [= ->].
  apply sql_min_filter in E as [Hr [Hp Hd%negb_true_iff]%andb_true_iff]. done.
Qed.
Lemma first_user_unscoped_in p d u : first_user_unscoped p d = Ok u -> u ∈ ac_users d /\ p u = true.
Proof. unfold first_user_unscoped. destruct (sql_min _ _) as [q |] eqn:E; [| done]. intros [= ->]. by apply sql_min_filter in E. Qed.
Lemma first_user_in p d u : first_user p d = Ok u -> u ∈ ac_users d /\ p u = true /\ us_Deleted u = false.
Proof. intros [Hu [Hp Hd%negb_true_iff]%andb_true_iff]%first_user_unscoped_in. done. Qed.
Lemma first_member_unscoped_in p d m : first_member_unscoped p d = Ok m -> m ∈ ac_members d /\ p m = true.
Proof. unfold first_member_unscoped. destruct (sql_min _ _) as [q |] eqn:E; [| done]. intros [= ->]. by apply sql_min_filter in E. Qed.
Lemma first_member_in p d m : first_member p d = Ok m -> m ∈ ac_members d /\ p m = true /\ uo_Deleted m = false.
Proof. intros [Hu [Hp Hd%negb_true_iff]%andb_true_iff]%first_member_unscoped_in. done. Qed.
