(* ===== verification/Migration.v ===== *)
(** The start-up migration of accounts ([internal/database/postgres.go],
    [permissions_backfill.go], [cmd/whatomate/main.go]): seeding the catalogue and the system
    roles, the default administrator, and the backfills that bring a new permission to the
    roles of existing organizations. *)
From S2P Require Import Prelude Effects Sql GoText Permissions Accounts.
From Stdlib Require Import Ascii.

(** * Seeding *)
Section Seeding.
(** [bcrypt.GenerateFromPassword]; [None]: it refused the password. *)
Context (bcrypt : string -> option string).

Fixpoint try_each {A} (f : A -> AccDb (Res unit)) (l : list A) : AccDb (Res unit) :=
  match l with [] => mret (Ok tt) | x :: l' => _ ←? f x; try_each f l' end.

Definition find_permission (p : string * string) (d : Accounts) : Res Permission :=
  match List.find (fun q => bool_decide (pair_of q = p)) (live_permissions d) with Some q => Ok q | None => Err ErrNotFound end.
Definition SeedPermissionsAndRoles : AccDb (Res unit) :=
  try_each (fun p =>
    existing ← query (find_permission p);
    match existing with
    | Ok _ => mret (Ok tt)
    | Err _ => id ← uuid_New; exec (insert_permission (MkPermission id (fst p) (snd p) false))
    end) DefaultPermissions.

(** The permissions a list of keys names, through [permMap]: of two rows with one key the
    later one. *)
Definition permMap (rows : list Permission) (key : string) : option Permission := List.find (fun p => String.eqb (key_of p) key) (rev rows).
Definition by_keys (rows : list Permission) (keys : list string) : list Permission := omap (permMap rows) keys.

Definition is_system_of (org : uuid) (r : CustomRole) : bool := N.eqb (cr_OrganizationID r) org && cr_IsSystem r.
Definition systemRoles : list (string * string * bool) :=
  [("admin", "Full system access", false); ("manager", "Manage chatbot, campaigns, and team operations", false);
   ("agent", "Handle customer conversations", true)].
Definition keys_of_role (name : string) : option (list string) := assoc name SystemRolePermissions.
Definition SeedSystemRolesForOrg (org : uuid) : AccDb (Res unit) :=
  n ←? query (fun d => Ok (sql_count (fun r => is_system_of org r && negb (cr_Deleted r)) (ac_roles d)));
  if 0 <? n then mret (Ok tt)
  else
    rows ←? query (fun d => Ok (live_permissions d));
    try_each (fun '(name, desc, def) =>
      id ← uuid_New;
      exec (insert_role (MkRole id org name desc true def false) (by_keys rows (default [] (keys_of_role name))))) systemRoles.

(** A failed [COUNT] is not looked at and leaves its variable 0. *)
Definition count_links (role : uuid) : AccDb Z :=
  n ← query (fun d => Ok (Z.of_nat (size (filter (fun l => fst l = role) (ac_links d)))) : Res Z);
  mret match n with Ok n => n | Err _ => 0 end.
Definition FixSystemRolePermissions : AccDb (Res unit) :=
  rows ←? query (fun d => Ok (live_permissions d));
  if bool_decide (rows = []) then mret (Ok tt)
  else
    roles ←? query (fun d => Ok (List.filter (fun r => cr_IsSystem r && negb (cr_Deleted r)) (ac_roles d)));
    try_each (fun role =>
      n ← count_links (cr_ID role);
      if 0 <? n then mret (Ok tt)
      else match keys_of_role (cr_Name role) with
           | None => mret (Ok tt)
           | Some keys =>
               let perms := by_keys rows keys in
               if bool_decide (perms = []) then mret (Ok tt) else replace_permissions (cr_ID role) perms
           end) roles.

(** [has_column]: the installation still has the text column [users.role]. *)
Definition needs_role (u : User) : bool := bool_decide (us_RoleID u = None) && negb (String.eqb (us_LegacyRole u) "").
Definition with_role (id : uuid) (u : User) : User :=
  MkUser (us_ID u) (us_OrganizationID u) (us_Email u) (us_PasswordHash u) (us_FullName u) (Some id) (us_LegacyRole u) (us_IsActive u)
         (us_IsAvailable u) (us_IsSuperAdmin u) (us_XProcessSellerCode u) (us_UnitID u) (us_DepartmentID u) (us_SSOProvider u)
         (us_SSOProviderID u) (us_Deleted u).
Definition roleMap (roles : list CustomRole) (org : uuid) (name : string) : option uuid :=
  cr_ID <$> List.find (fun r => N.eqb (cr_OrganizationID r) org && String.eqb (cr_Name r) name) (rev roles).
Definition MigrateExistingUserRoles (has_column : bool) : AccDb (Res unit) :=
  col ←? query (fun _ => Ok has_column);
  if negb col then mret (Ok tt)
  else
    users ←? query (fun d => Ok (List.filter needs_role (ac_users d)));
    if bool_decide (users = []) then mret (Ok tt)
    else
      roles ←? query (fun d => Ok (List.filter (fun r => cr_IsSystem r && negb (cr_Deleted r)) (ac_roles d)));
      try_each (fun u =>
        match roleMap roles (us_OrganizationID u) (us_LegacyRole u) with
        | None => mret (Ok tt)
        | Some id => exec (fun d => (Ok tt, set_users (sql_update (fun v => N.eqb (us_ID v) (us_ID u)) (with_role id)) d))
        end) users.

Definition as_super_admin (u : User) : User :=
  MkUser (us_ID u) (us_OrganizationID u) (us_Email u) (us_PasswordHash u) (us_FullName u) (us_RoleID u) (us_LegacyRole u) (us_IsActive u)
         (us_IsAvailable u) true (us_XProcessSellerCode u) (us_UnitID u) (us_DepartmentID u) (us_SSOProvider u)
         (us_SSOProviderID u) (us_Deleted u).
Definition SeedSystemRolesForAllOrgs (has_column : bool) : AccDb (Res unit) :=
  orgs ←? query (fun d => Ok (List.filter (fun o => negb (og_Deleted o)) (ac_orgs d)));
  _ ←? try_each (fun o => SeedSystemRolesForOrg (og_ID o)) orgs;
  _ ←? FixSystemRolePermissions;
  _ ←? MigrateExistingUserRoles has_column;
  exec (fun d => (Ok tt, set_users (sql_update (fun u => String.eqb (us_Email u) "admin@admin.com") as_super_admin) d)).

(** The users without a live membership of their own organization get one; the statement
    fails as a whole when one of the new rows meets an old one, be it deleted. *)
Definition lacks_home (d : Accounts) (u : User) : bool :=
  negb (us_Deleted u) &&
  negb (existsb (fun m => N.eqb (uo_UserID m) (us_ID u) && N.eqb (uo_OrganizationID m) (us_OrganizationID u) && negb (uo_Deleted m)) (ac_members d)).
Definition home_membership (id : uuid) (u : User) : UserOrganization :=
  MkMembership id (us_ID u) (us_OrganizationID u) (us_RoleID u) true false.
Fixpoint insert_homes (users : list User) (d : Accounts) : Res unit * Accounts :=
  match users with
  | [] => (Ok tt, d)
  | u :: rest =>
      match insert_member (home_membership (hd 0%N (ac_uuids d)) u) (set_uuids tl d) with
      | (Ok _, d') => insert_homes rest d'
      | (Err e, _) => (Err e, d)
      end
  end.
Definition MigrateUserOrganizations : AccDb (Res unit) :=
  exec (fun d => match insert_homes (List.filter (lacks_home d) (ac_users d)) d with
                 | (Ok tt, d') => (Ok tt, d')
                 | (Err e, _) => (Err e, d)
                 end).

(** [cfg]: the email, password and name the configuration gives. *)
Record DefaultAdminConfig := MkAdminConfig { da_Email : string; da_Password : string; da_FullName : string }.
Definition CreateDefaultAdmin (cfg : DefaultAdminConfig) : AccDb (Res unit) :=
  existing ← query (first_user (fun u => String.eqb (us_Email u) (da_Email cfg)));
  match existing with
  | Ok _ => mret (Ok tt)
  | Err _ =>
      found ← query (first_org (fun _ => true));
      org ←? match found with
             | Ok o => mret (Ok o)
             | Err _ => id ← uuid_New;
                        let o := MkOrg id "Default Organization" "" false in
                        _ ←? exec (insert_org o); mret (Ok o)
             end;
      hash ←? mret (match bcrypt (da_Password cfg) with Some h => Ok h | None => Err ErrHash end);
      _ ←? SeedPermissionsAndRoles;
      _ ←? SeedSystemRolesForOrg (og_ID org);
      role ←? query (first_role (fun r => is_system_of (og_ID org) r && String.eqb (cr_Name r) "admin"));
      id ← uuid_New;
      _ ←? exec (insert_user (MkUser id (og_ID org) (da_Email cfg) hash (da_FullName cfg) (Some (cr_ID role)) "" true true true None None None "" "" false));
      mid ← uuid_New;
      exec (insert_member (MkMembership mid id (og_ID org) (Some (cr_ID role)) true false))
  end.

(** The part of [RunMigrationWithProgress] about accounts. *)
Definition migrate_accounts (has_column : bool) (cfg : DefaultAdminConfig) : AccDb (Res unit) :=
  _ ←? SeedPermissionsAndRoles;
  _ ←? SeedSystemRolesForAllOrgs has_column;
  _ ←? MigrateUserOrganizations;
  CreateDefaultAdmin cfg.
End Seeding.

(** * Backfills

    A backfill is one [INSERT ... SELECT] of links; [ON CONFLICT DO NOTHING] makes it add a
    set. [selects] is its [WHERE]: which live role gets which permission. *)
Definition selected (selects : Accounts -> CustomRole -> Permission -> bool) (d : Accounts) : list (uuid * uuid) :=
  concat (map (fun r => omap (fun t => if negb (cr_Deleted r) && selects d r t then Some (cr_ID r, pm_ID t) else None)
                                     (ac_permissions d)) (ac_roles d)).
Definition insert_select (selects : Accounts -> CustomRole -> Permission -> bool) (d : Accounts) : Res unit * Accounts :=
  (Ok tt, set_links (fun s => list_to_set (selected selects d) ∪ s) d).

(** [EXISTS (SELECT 1 FROM custom_roles ... WHERE organization_id = org AND deleted_at IS NULL AND p)]. *)
Definition org_holds (d : Accounts) (p : Permission -> bool) (org : uuid) : bool :=
  existsb (fun r => N.eqb (cr_OrganizationID r) org && negb (cr_Deleted r) && role_holds d p (cr_ID r)) (ac_roles d).

(** [x LIKE 'pattern%']: an underscore of the pattern is any character. *)
Fixpoint like_prefix (pat s : string) : bool :=
  match pat, s with
  | EmptyString, _ => true
  | String p pat', String c s' => (Ascii.eqb p "_"%char || Ascii.eqb p c) && like_prefix pat' s'
  | String _ _, EmptyString => false
  end.
Definition named (resource action : string) (p : Permission) : bool := String.eqb (pm_Resource p) resource && String.eqb (pm_Action p) action.
Definition of_resource (resource : string) (p : Permission) : bool := String.eqb (pm_Resource p) resource.
Definition resource_like (pat : string) (p : Permission) : bool := like_prefix pat (pm_Resource p).
Definition live_count (p : Permission -> bool) (d : Accounts) : Z := sql_count p (live_permissions d).

Record grantRule := MkGrant { gr_fromResource : string; gr_fromAction : string; gr_toResource : string; gr_toAction : string }.
(** What a list of rules gives a role: the targets of the rules whose source it holds. *)
Definition by_rules (rules : list grantRule) (d : Accounts) (r : CustomRole) (t : Permission) : bool :=
  existsb (fun g => named (gr_toResource g) (gr_toAction g) t && role_holds d (named (gr_fromResource g) (gr_fromAction g)) (cr_ID r)) rules.

(** "Already seeded": every key among the live permissions of these resources. *)
Definition seeded_keys (resources keys : list string) (d : Accounts) : bool :=
  let rows := map key_of (List.filter (fun p => existsb (String.eqb (pm_Resource p)) resources) (live_permissions d)) in
  forallb (fun k => existsb (String.eqb k) rows) keys.

Definition pending_orgs (guard : Permission -> bool) (d : Accounts) : Z :=
  sql_count (fun o => negb (org_holds d guard (og_ID o))) (ac_orgs d).

Definition guarded_rules (guard : Permission -> bool) (rules : list grantRule) (d : Accounts) (r : CustomRole) (t : Permission) : bool :=
  by_rules rules d r t && negb (org_holds d guard (cr_OrganizationID r)).
(** The backfills that read the seeded keys, count the organizations left and insert by rules. *)
Definition by_rules_backfill (resources keys : list string) (guard : Permission -> bool) (rules : list grantRule) : AccDb (Res unit) :=
  seeded ←? query (fun d => Ok (seeded_keys resources keys d));
  if negb seeded then mret (Ok tt)
  else
    pending ←? query (fun d => Ok (pending_orgs guard d));
    if pending =? 0 then mret (Ok tt)
    else exec (insert_select (guarded_rules guard rules)).
(** The others: a count of the rows to hand out, then the insert. *)
Definition counted_backfill (counts : Permission -> bool) (selects : Accounts -> CustomRole -> Permission -> bool) : AccDb (Res unit) :=
  seeded ←? query (fun d => Ok (live_count counts d));
  if seeded =? 0 then mret (Ok tt) else exec (insert_select selects).


Definition occurrenceGrants : list grantRule := [
  MkGrant ResourceChat ActionRead ResourceOccurrences ActionRead;
  MkGrant ResourceChat ActionWrite ResourceOccurrences ActionWrite;
  MkGrant ResourceSettingsGeneral ActionWrite ResourceOccurrenceStages ActionRead;
  MkGrant ResourceSettingsGeneral ActionWrite ResourceOccurrenceStages ActionWrite;
  MkGrant ResourceSettingsGeneral ActionWrite ResourceOccurrenceStages ActionDelete].
Definition occurrencePermissionKeys : list string := map permission_key [
  (ResourceOccurrences, ActionRead); (ResourceOccurrences, ActionWrite);
  (ResourceOccurrenceStages, ActionRead); (ResourceOccurrenceStages, ActionWrite); (ResourceOccurrenceStages, ActionDelete)].
Definition BackfillOccurrencePermissions : AccDb (Res unit) :=
  by_rules_backfill [ResourceOccurrences; ResourceOccurrenceStages] occurrencePermissionKeys (resource_like "occurrences") occurrenceGrants.

Definition helpdeskCatalogGrants : list grantRule :=
  map (fun '(resource, action) => MkGrant ResourceOccurrenceStages ActionWrite resource action) [
    (ResourceUnits, ActionRead); (ResourceUnits, ActionWrite); (ResourceUnits, ActionDelete);
    (ResourceDepartments, ActionRead); (ResourceDepartments, ActionWrite); (ResourceDepartments, ActionDelete);
    (ResourceOccurrenceCategories, ActionRead); (ResourceOccurrenceCategories, ActionWrite); (ResourceOccurrenceCategories, ActionDelete);
    (ResourceOccurrenceSLAPolicies, ActionRead); (ResourceOccurrenceSLAPolicies, ActionWrite)].
Definition helpdeskCatalogPermissionKeys : list string := map permission_key [
  (ResourceUnits, ActionRead); (ResourceUnits, ActionWrite); (ResourceUnits, ActionDelete);
  (ResourceDepartments, ActionRead); (ResourceDepartments, ActionWrite); (ResourceDepartments, ActionDelete);
  (ResourceOccurrenceCategories, ActionRead); (ResourceOccurrenceCategories, ActionWrite); (ResourceOccurrenceCategories, ActionDelete);
  (ResourceOccurrenceSLAPolicies, ActionRead); (ResourceOccurrenceSLAPolicies, ActionWrite)].
(** [helpdeskCatalogMigratedClause]. *)
Definition helpdeskCatalogMigrated (p : Permission) : bool :=
  resource_like "units" p || resource_like "departments" p || resource_like "occurrences.categories" p || resource_like "occurrences.sla_policies" p.
Definition BackfillHelpdeskCatalogPermissions : AccDb (Res unit) :=
  by_rules_backfill [ResourceUnits; ResourceDepartments; ResourceOccurrenceCategories; ResourceOccurrenceSLAPolicies]
    helpdeskCatalogPermissionKeys helpdeskCatalogMigrated helpdeskCatalogGrants.

(** No guard by organization: the links that are not there yet. *)
Definition alongside (source target : string) (d : Accounts) (r : CustomRole) (t : Permission) : bool :=
  of_resource target t && role_holds d (fun p => of_resource source p && String.eqb (pm_Action p) (pm_Action t)) (cr_ID r) &&
  negb (bool_decide ((cr_ID r, pm_ID t) ∈ ac_links d)).
Definition BackfillWhatHappenedPermission : AccDb (Res unit) :=
  counted_backfill (of_resource ResourceOccurrenceWhatHappened) (alongside ResourceOccurrenceCategories ResourceOccurrenceWhatHappened).
Definition BackfillOccurrenceProcessesPermission : AccDb (Res unit) :=
  counted_backfill (of_resource ResourceOccurrenceProcesses) (alongside ResourceOccurrenceCategories ResourceOccurrenceProcesses).

Definition contact_name_grants (d : Accounts) (r : CustomRole) (t : Permission) : bool :=
  named ResourceContactName ActionWrite t &&
  role_holds d (fun p => named ResourceContacts ActionWrite p || named ResourceChat ActionWrite p) (cr_ID r) &&
  negb (org_holds d (of_resource ResourceContactName) (cr_OrganizationID r)).
Definition BackfillContactNamePermission : AccDb (Res unit) := counted_backfill (named ResourceContactName ActionWrite) contact_name_grants.

Definition salesOpportunityGrants : list grantRule := [
  MkGrant ResourceChat ActionWrite ResourceSalesOpportunities ActionRead;
  MkGrant ResourceChat ActionWrite ResourceSalesOpportunities ActionWrite;
  MkGrant ResourceConversations ActionViewAll ResourceSalesOpportunities ActionViewAll].
Definition salesOpportunityPermissionKeys : list string := map permission_key [
  (ResourceSalesOpportunities, ActionRead); (ResourceSalesOpportunities, ActionWrite); (ResourceSalesOpportunities, ActionViewAll)].
Definition BackfillSalesOpportunityPermissions : AccDb (Res unit) :=
  by_rules_backfill [ResourceSalesOpportunities] salesOpportunityPermissionKeys (of_resource "sales_opportunities") salesOpportunityGrants.

Definition xprocess_grants (d : Accounts) (r : CustomRole) (t : Permission) : bool :=
  of_resource ResourceXProcessIntegration t && role_holds d (named ResourceAccounts ActionWrite) (cr_ID r) &&
  negb (org_holds d (of_resource ResourceXProcessIntegration) (cr_OrganizationID r)).
Definition BackfillXProcessIntegrationPermission : AccDb (Res unit) := counted_backfill (named ResourceXProcessIntegration ActionWrite) xprocess_grants.

Definition is_system_role (name : string) (r : CustomRole) : bool := cr_IsSystem r && String.eqb (cr_Name r) name.
Definition knowledge_grants (d : Accounts) (r : CustomRole) (t : Permission) : bool :=
  is_system_role "admin" r && of_resource ResourceKnowledge t &&
  negb (org_holds d (of_resource ResourceKnowledge) (cr_OrganizationID r)).
Definition BackfillKnowledgePermissions : AccDb (Res unit) := counted_backfill (of_resource ResourceKnowledge) knowledge_grants.
Definition ai_tools_grants (d : Accounts) (r : CustomRole) (t : Permission) : bool :=
  is_system_role "admin" r && of_resource ResourceAITools t &&
  negb (org_holds d (of_resource ResourceAITools) (cr_OrganizationID r)).
Definition BackfillAIToolsPermissions : AccDb (Res unit) := counted_backfill (of_resource ResourceAITools) ai_tools_grants.
Definition whatsapp_usage_grants (d : Accounts) (r : CustomRole) (t : Permission) : bool :=
  of_resource ResourceWhatsAppUsage t && (is_system_role "admin" r || (is_system_role "manager" r && String.eqb (pm_Action t) ActionRead)) &&
  negb (org_holds d (of_resource ResourceWhatsAppUsage) (cr_OrganizationID r)).
Definition BackfillWhatsAppUsagePermissions : AccDb (Res unit) := counted_backfill (of_resource ResourceWhatsAppUsage) whatsapp_usage_grants.

Definition teamChatGrants : list (string * string) := [
  ("admin", ActionRead); ("admin", ActionWrite); ("admin", ActionManage); ("admin", ActionDelete);
  ("manager", ActionRead); ("manager", ActionWrite); ("manager", ActionManage); ("manager", ActionDelete);
  ("agent", ActionRead); ("agent", ActionWrite)].
Definition team_chat_grants (d : Accounts) (r : CustomRole) (t : Permission) : bool :=
  of_resource ResourceTeamChat t && existsb (fun '(role, action) => is_system_role role r && String.eqb (pm_Action t) action) teamChatGrants &&
  negb (org_holds d (of_resource ResourceTeamChat) (cr_OrganizationID r)).
Definition BackfillTeamChatPermissions : AccDb (Res unit) := counted_backfill (of_resource ResourceTeamChat) team_chat_grants.
Definition join_any_grants (d : Accounts) (r : CustomRole) (t : Permission) : bool :=
  is_system_role "admin" r && named ResourceTeamChat ActionJoinAny t &&
  negb (org_holds d (named ResourceTeamChat ActionJoinAny) (cr_OrganizationID r)).
Definition BackfillTeamChatJoinAnyPermission : AccDb (Res unit) := counted_backfill (named ResourceTeamChat ActionJoinAny) join_any_grants.

(** ** The start-up, in the order of [main] *)
Definition backfill_permissions : AccDb (Res unit) :=
  _ ←? BackfillOccurrencePermissions;
  _ ←? BackfillContactNamePermission;
  _ ←? BackfillHelpdeskCatalogPermissions;
  _ ←? BackfillWhatHappenedPermission;
  _ ←? BackfillSalesOpportunityPermissions;
  _ ←? BackfillXProcessIntegrationPermission;
  _ ←? BackfillKnowledgePermissions;
  _ ←? BackfillAIToolsPermissions;
  _ ←? BackfillWhatsAppUsagePermissions;
  _ ←? BackfillOccurrenceProcessesPermission;
  _ ←? BackfillTeamChatPermissions;
  BackfillTeamChatJoinAnyPermission.

(** * The backfills as steps

    Without the failures of their statements, each backfill is a step on the links: when it
    is enabled, it adds what it selects. What it reads of the links are the permissions of
    its sources; what it adds are permissions of its targets. *)
Record backfill := MkBackfill {
  bf_enabled : Accounts -> bool; bf_selects : Accounts -> CustomRole -> Permission -> bool; bf_sources : list string; bf_targets : list string }.
Definition bf_step (b : backfill) (d : Accounts) : Accounts := if bf_enabled b d then snd (insert_select (bf_selects b) d) else d.
Definition bf_steps (bs : list backfill) (d : Accounts) : Accounts := foldl (fun d b => bf_step b d) d bs.

(** [d'] is [d] with more links. *)
Definition grows (d d' : Accounts) : Prop := exists s, d' = set_links (fun l => s ∪ l) d.
#[global] Instance grows_preorder : PreOrder grows.
Proof.
  split.
  - intros d. exists ∅. destruct d. unfold set_links. simpl. f_equal. set_solver.
  - intros d1 d2 d3 [s ->] [s' ->]. exists (s' ∪ s). unfold set_links. simpl. f_equal. set_solver.
Qed.
Lemma grows_links d d' : grows d d' -> ac_links d ⊆ ac_links d'.
Proof. intros [s ->]. simpl. set_solver. Qed.
Lemma grows_same d d' : grows d d' -> ac_links d' = ac_links d -> d' = d.
Proof. intros [s ->] E. destruct d. unfold set_links in *. simpl in *. by rewrite E. Qed.
Lemma grows_role_holds d d' p r : grows d d' -> role_holds d p r = true -> role_holds d' p r = true.
Proof. intros [s ->]. rewrite !role_holds_true. intros (q & Hq & Hl & Hp). exists q. simpl. set_solver. Qed.
Lemma grows_org_holds d d' p o : grows d d' -> org_holds d p o = true -> org_holds d' p o = true.
Proof.
  intros Hg. unfold org_holds. rewrite !existsb_exists. intros (r & Hr & [H1 H2]%andb_true_iff). exists r.
  split; [by destruct Hg as [s ->] |]. rewrite H1. simpl. by eapply grows_role_holds.
Qed.
Lemma grows_org_free d d' p o : grows d d' -> org_holds d' p o = false -> org_holds d p o = false.
Proof. intros Hg H. destruct (org_holds d p o) eqn:E; [| done]. by rewrite (grows_org_holds _ _ _ _ Hg E) in H. Qed.
Lemma bf_step_grows b d : grows d (bf_step b d).
Proof. unfold bf_step. destruct (bf_enabled b d); [by eexists | reflexivity]. Qed.
Lemma bf_steps_grows bs d : grows d (bf_steps bs d).
Proof. revert d. induction bs as [| b bs IH]; intros d; [reflexivity |]. etrans; [apply (bf_step_grows b) | apply IH]. Qed.

Lemma elem_of_selected sel d r t :
  (r, t) ∈ selected sel d <->
  exists role p, role ∈ ac_roles d /\ p ∈ ac_permissions d /\ cr_ID role = r /\ pm_ID p = t /\ cr_Deleted role = false /\ sel d role p = true.
Proof.
  unfold selected. rewrite list_elem_of_In, in_concat. split.
  - intros (l & (role & <- & Hrole)%in_map_iff & Hl). apply list_elem_of_In, list_elem_of_omap in Hl as (p & Hp & E).
    destruct (cr_Deleted role) eqn:Ed; [done |]. simpl in E. destruct (sel d role p) eqn:Es; simplify_eq.
    exists role, p. by rewrite <- list_elem_of_In in Hrole.
  - intros (role & p & Hrole & Hp & <- & <- & Hd & Hs). eexists. split; [apply in_map_iff; by exists role; rewrite <- list_elem_of_In |].
    apply list_elem_of_In, list_elem_of_omap. exists p. by rewrite Hd, Hs.
Qed.
Lemma bf_step_links b d l : l ∈ ac_links (bf_step b d) <-> (bf_enabled b d = true /\ l ∈ selected (bf_selects b) d) \/ l ∈ ac_links d.
Proof.
  unfold bf_step. destruct (bf_enabled b d); simpl; [rewrite elem_of_union, elem_of_list_to_set; naive_solver | naive_solver].
Qed.

(** What makes a step safe to repeat. *)
Definition reads_only (sources : list string) (d d' : Accounts) : Prop :=
  forall role p, p ∈ ac_permissions d -> pm_Resource p ∈ sources -> (role, pm_ID p) ∈ ac_links d' -> (role, pm_ID p) ∈ ac_links d.
Record lawful (b : backfill) : Prop := MkLawful {
  lw_enabled : forall d d', grows d d' -> bf_enabled b d' = true -> bf_enabled b d = true;
  lw_targets : forall d r t, bf_selects b d r t = true -> pm_Resource t ∈ bf_targets b;
  lw_reads : forall d d' r t, grows d d' -> reads_only (bf_sources b) d d' -> bf_selects b d' r t = true -> bf_selects b d r t = true }.
Definition apart (b c : backfill) : bool := forallb (fun t => negb (existsb (String.eqb t) (bf_sources b))) (bf_targets c).
(** No backfill adds what it or an earlier one reads. *)
Fixpoint independent (bs : list backfill) : bool :=
  match bs with [] => true | b :: rest => forallb (apart b) (b :: rest) && independent rest end.
Definition permissions_wf (d : Accounts) : Prop := NoDup (map pm_ID (ac_permissions d)).

Lemma apart_spec b c t : apart b c = true -> t ∈ bf_targets c -> t ∉ bf_sources b.
Proof.
  unfold apart. rewrite forallb_forall. intros H Ht Hs. specialize (H t). rewrite <- list_elem_of_In in H.
  apply H in Ht. apply negb_true_iff in Ht. apply not_true_iff_false in Ht. destruct Ht. apply existsb_exists. exists t.
  rewrite <- list_elem_of_In. split; [done | apply String.eqb_refl].
Qed.
Lemma grows_permissions d d' : grows d d' -> ac_permissions d' = ac_permissions d.
Proof. by intros [s ->]. Qed.
Lemma grows_roles d d' : grows d d' -> ac_roles d' = ac_roles d.
Proof. by intros [s ->]. Qed.

(** Every new link is to a target. *)
Lemma new_links bs d l :
  Forall lawful bs -> l ∈ ac_links (bf_steps bs d) -> l ∉ ac_links d ->
  exists b p, b ∈ bs /\ p ∈ ac_permissions d /\ pm_ID p = snd l /\ pm_Resource p ∈ bf_targets b.
Proof.
  revert d. induction bs as [| b bs IH]; intros d Hbs; [done |]. apply Forall_cons in Hbs as [Hb Hbs]. intros Hl Hn.
  destruct (decide (l ∈ ac_links (bf_step b d))) as [Hb' | Hb'].
  - apply bf_step_links in Hb' as [[_ Hs] |]; [| done]. destruct l as [r t].
    apply elem_of_selected in Hs as (role & p & _ & Hp & _ & <- & _ & Hs). exists b, p. split_and!; [by left | done | done |].
    by eapply lw_targets.
  - destruct (IH (bf_step b d) Hbs Hl Hb') as (c & p & Hc & Hp & E & Ht). exists c, p. split_and!; [by right | | done | done].
    by rewrite (grows_permissions _ _ (bf_step_grows b d)) in Hp.
Qed.
Lemma reads_only_steps b bs d :
  Forall lawful bs -> forallb (apart b) bs = true -> permissions_wf d -> reads_only (bf_sources b) d (bf_steps bs d).
Proof.
  intros Hbs Ha Hwf role p Hp Hs Hl. destruct (decide ((role, pm_ID p) ∈ ac_links d)) as [| Hn]; [done | exfalso].
  destruct (new_links bs d (role, pm_ID p) Hbs Hl Hn) as (c & q & Hc & Hq & E & Ht). simpl in E.
  apply (NoDup_map_inj pm_ID _ q p Hwf) in E as ->; [| done | done]. rewrite forallb_forall in Ha. specialize (Ha c).
  rewrite <- list_elem_of_In in Ha. exact (apart_spec b c _ (Ha Hc) Ht Hs).
Qed.

(** A step that already ran has nothing left to do. *)
Lemma step_quiet_later b bs d :
  Forall lawful (b :: bs) -> forallb (apart b) (b :: bs) = true -> permissions_wf d ->
  bf_step b (bf_steps (b :: bs) d) = bf_steps (b :: bs) d.
Proof.
  intros Hl Ha Hwf. set (d' := bf_steps (b :: bs) d). assert (Hg : grows d d') by apply bf_steps_grows.
  pose proof (reads_only_steps b (b :: bs) d Hl Ha Hwf) as Hr. apply Forall_cons in Hl as [Hb _].
  apply grows_same; [apply bf_step_grows |]. apply set_eq. intros l. rewrite bf_step_links. split; [| by right].
  intros [[He Hs] |]; [| done]. destruct l as [r t]. apply elem_of_selected in Hs as (role & p & Hrole & Hp & <- & <- & Hd & Hs).
  apply (grows_links (bf_step b d) d'); [apply (bf_steps_grows bs) |]. apply bf_step_links. left.
  split; [by eapply lw_enabled |]. apply elem_of_selected. exists role, p. rewrite <- (grows_roles d d'), <- (grows_permissions d d') by done.
  split_and!; try done. by eapply lw_reads.
Qed.
Lemma independent_app pre b post : independent (pre ++ b :: post) = true -> forallb (apart b) (b :: post) = true.
Proof. induction pre as [| c pre IH]; simpl; intros [H1 H2]%andb_true_iff; auto. Qed.
Lemma bf_steps_app bs cs d : bf_steps (bs ++ cs) d = bf_steps cs (bf_steps bs d).
Proof. apply foldl_app. Qed.
Lemma bf_steps_quiet bs d : (forall b, b ∈ bs -> bf_step b d = d) -> bf_steps bs d = d.
Proof.
  unfold bf_steps. induction bs as [| b bs IH]; intros H; [done |]. simpl. rewrite (H b) by by left. apply IH. intros c Hc. apply H. by right.
Qed.
Lemma bf_steps_wf bs d : permissions_wf d -> permissions_wf (bf_steps bs d).
Proof. unfold permissions_wf. by rewrite (grows_permissions _ _ (bf_steps_grows bs d)). Qed.
Lemma bf_steps_again bs d :
  Forall lawful bs -> independent bs = true -> permissions_wf d -> bf_steps bs (bf_steps bs d) = bf_steps bs d.
Proof.
  intros Hl Hi Hwf. apply bf_steps_quiet. intros b (pre & post & ->)%list_elem_of_split.
  rewrite bf_steps_app. apply step_quiet_later; [by apply Forall_app in Hl as [_ Hl] | by eapply independent_app | by apply bf_steps_wf].
Qed.
(** The steps from where an interrupted run stopped end where an uninterrupted one does. *)
Lemma independent_take k bs : independent bs = true -> independent (take k bs) = true.
Proof.
  revert k. induction bs as [| b bs IH]; intros [| k] H; [done.. |]. cbn [independent take] in *. apply andb_true_iff in H as [H1 H2].
  rewrite IH by done. rewrite andb_true_r. rewrite forallb_forall in *. intros c [<- | Hc]; apply H1; [by left |]. right.
  apply list_elem_of_In. apply list_elem_of_In in Hc. by eapply subseteq_take.
Qed.
Lemma bf_steps_resume k bs d :
  Forall lawful bs -> independent bs = true -> permissions_wf d -> bf_steps bs (bf_steps (take k bs) d) = bf_steps bs d.
Proof.
  intros Hl Hi Hwf. rewrite <- (take_drop k bs) at 1. rewrite bf_steps_app, bf_steps_again; [| by apply Forall_take | by apply independent_take | done].
  by rewrite <- bf_steps_app, take_drop.
Qed.

(** ** The twelve *)
Definition rules_step (resources keys : list string) (guard : Permission -> bool) (rules : list grantRule) : backfill :=
  MkBackfill (fun d => seeded_keys resources keys d && negb (pending_orgs guard d =? 0)) (guarded_rules guard rules)
    (map gr_fromResource rules) (map gr_toResource rules).
Definition counted_step (counts : Permission -> bool) (selects : Accounts -> CustomRole -> Permission -> bool) (sources : list string) (target : string) : backfill :=
  MkBackfill (fun d => negb (live_count counts d =? 0)) selects sources [target].
Definition permission_steps : list backfill := [
  rules_step [ResourceOccurrences; ResourceOccurrenceStages] occurrencePermissionKeys (resource_like "occurrences") occurrenceGrants;
  counted_step (named ResourceContactName ActionWrite) contact_name_grants [ResourceContacts; ResourceChat] ResourceContactName;
  rules_step [ResourceUnits; ResourceDepartments; ResourceOccurrenceCategories; ResourceOccurrenceSLAPolicies]
    helpdeskCatalogPermissionKeys helpdeskCatalogMigrated helpdeskCatalogGrants;
  counted_step (of_resource ResourceOccurrenceWhatHappened) (alongside ResourceOccurrenceCategories ResourceOccurrenceWhatHappened)
    [ResourceOccurrenceCategories] ResourceOccurrenceWhatHappened;
  rules_step [ResourceSalesOpportunities] salesOpportunityPermissionKeys (of_resource "sales_opportunities") salesOpportunityGrants;
  counted_step (named ResourceXProcessIntegration ActionWrite) xprocess_grants [ResourceAccounts] ResourceXProcessIntegration;
  counted_step (of_resource ResourceKnowledge) knowledge_grants [] ResourceKnowledge;
  counted_step (of_resource ResourceAITools) ai_tools_grants [] ResourceAITools;
  counted_step (of_resource ResourceWhatsAppUsage) whatsapp_usage_grants [] ResourceWhatsAppUsage;
  counted_step (of_resource ResourceOccurrenceProcesses) (alongside ResourceOccurrenceCategories ResourceOccurrenceProcesses)
    [ResourceOccurrenceCategories] ResourceOccurrenceProcesses;
  counted_step (of_resource ResourceTeamChat) team_chat_grants [] ResourceTeamChat;
  counted_step (named ResourceTeamChat ActionJoinAny) join_any_grants [] ResourceTeamChat].

Lemma steps_independent : independent permission_steps = true.
Proof. vm_compute. reflexivity. Qed.

Lemma named_resource resource action p : named resource action p = true -> pm_Resource p = resource.
Proof. unfold named. by intros [->%String.eqb_eq _]%andb_true_iff. Qed.
Lemma of_resource_eq resource p : of_resource resource p = true -> pm_Resource p = resource.
Proof. unfold of_resource. by intros ->%String.eqb_eq. Qed.

(** What a step reads of the links. *)
Lemma reads_role_holds sources d d' q role :
  grows d d' -> reads_only sources d d' -> (forall p, q p = true -> pm_Resource p ∈ sources) ->
  role_holds d' q role = true -> role_holds d q role = true.
Proof.
  intros Hg Hr Hq. rewrite !role_holds_true, (grows_permissions _ _ Hg). intros (p & Hp & Hl & Hpq). exists p.
  split_and!; [done | | done]. by apply Hr; [| apply Hq |].
Qed.
Lemma guard_reads d d' guard org : grows d d' -> negb (org_holds d' guard org) = true -> negb (org_holds d guard org) = true.
Proof. rewrite !negb_true_iff. apply grows_org_free. Qed.
Lemma live_count_grows d d' p : grows d d' -> live_count p d' = live_count p d.
Proof. by intros [s ->]. Qed.
Lemma seeded_keys_grows d d' rs ks : grows d d' -> seeded_keys rs ks d' = seeded_keys rs ks d.
Proof. by intros [s ->]. Qed.
Lemma pending_grows d d' guard : grows d d' -> pending_orgs guard d = 0 -> pending_orgs guard d' = 0.
Proof.
  intros Hg. unfold pending_orgs. rewrite !sql_count_zero. assert (ac_orgs d' = ac_orgs d) as -> by (by destruct Hg as [s ->]).
  intros H o Ho. apply H in Ho. rewrite negb_false_iff in *. by eapply grows_org_holds.
Qed.

Lemma rules_step_lawful resources keys guard rules : lawful (rules_step resources keys guard rules).
Proof.
  split; unfold rules_step; cbn [bf_enabled bf_selects bf_sources bf_targets].
  - intros d d' Hg [Hs Hp]%andb_true_iff. rewrite <- (seeded_keys_grows _ _ _ _ Hg), Hs. simpl. apply negb_true_iff, Z.eqb_neq.
    apply negb_true_iff, Z.eqb_neq in Hp. intros H. by apply Hp, (pending_grows d d').
  - intros d r t [Hr _]%andb_true_iff. apply existsb_exists in Hr as (g & Hg & [Ht _]%andb_true_iff).
    rewrite (named_resource _ _ _ Ht). apply list_elem_of_In, in_map, Hg.
  - intros d d' r t Hg Hr [H1 H2]%andb_true_iff. unfold guarded_rules. rewrite (guard_reads _ _ _ _ Hg H2), andb_true_r.
    apply existsb_exists in H1 as (g & Hin & [Ht Hh]%andb_true_iff). apply existsb_exists. exists g. split; [done |]. rewrite Ht. simpl.
    eapply reads_role_holds; [done | done | | done]. intros p ->%named_resource. apply list_elem_of_In, in_map, Hin.
Qed.
Lemma counted_step_lawful counts selects sources target :
  (forall d r t, selects d r t = true -> of_resource target t = true) ->
  (forall d d' r t, grows d d' -> reads_only sources d d' -> selects d' r t = true -> selects d r t = true) ->
  lawful (counted_step counts selects sources target).
Proof.
  intros H1 H2. split; cbn [counted_step bf_enabled bf_selects bf_sources bf_targets].
  - intros d d' Hg. by rewrite (live_count_grows _ _ _ Hg).
  - intros d r t Hs%H1%of_resource_eq. rewrite Hs. by left.
  - exact H2.
Qed.
Lemma named_of_resource resource action p : named resource action p = true -> of_resource resource p = true.
Proof. intros H%named_resource. unfold of_resource. rewrite H. apply String.eqb_refl. Qed.

Ltac split_ands := repeat match goal with H : _ && _ = true |- _ => apply andb_true_iff in H as [? ?] end.
Ltac solve_source := intros p; rewrite ?orb_true_iff; intros Hp; repeat destruct Hp as [Hp | Hp]; apply named_resource in Hp; rewrite Hp; set_solver.
Ltac solve_counted :=
  apply counted_step_lawful;
  [ intros ? ? ? ?; unfold contact_name_grants, xprocess_grants, knowledge_grants, ai_tools_grants, whatsapp_usage_grants, alongside, team_chat_grants, join_any_grants in *;
    split_ands; solve [done | by eapply named_of_resource]
  | intros d d' r t Hg Hr ?; unfold contact_name_grants, xprocess_grants, knowledge_grants, ai_tools_grants, whatsapp_usage_grants, team_chat_grants, join_any_grants in *;
    split_ands; repeat match goal with |- _ && _ = true => apply andb_true_intro; split end;
    solve [done | by eapply guard_reads | eapply reads_role_holds; [done | done | solve_source | done]] ].

Lemma alongside_lawful counts source target : lawful (counted_step counts (alongside source target) [source] target).
Proof.
  apply counted_step_lawful; [intros d r t H; unfold alongside in H; by split_ands |]. intros d d' r t Hg Hr. unfold alongside.
  intros [[H1 H2]%andb_true_iff H3]%andb_true_iff. rewrite H1. simpl. rewrite negb_true_iff, bool_decide_eq_false in H3.
  rewrite bool_decide_eq_false_2 by (intros H; by apply H3, (grows_links d d')). rewrite andb_true_r. eapply reads_role_holds; [done | done | | done].
  intros p [->%of_resource_eq _]%andb_true_iff. by left.
Qed.
Lemma steps_lawful : Forall lawful permission_steps.
Proof. repeat apply Forall_cons_2; [first [apply rules_step_lawful | apply alongside_lawful | solve_counted] .. | constructor]. Qed.

(** The start-up runs the steps, whatever fails: it stops after some of them, the last one
    perhaps applied although its statement reported an error, and answers [Ok] after all. *)
Definition runs_steps (m : AccDb (Res unit)) (bs : list backfill) : Prop :=
  forall d fs, exists k r fs', m (World d fs) = (r, World (bf_steps (take k bs) d) fs') /\ (k <= length bs)%nat /\
    (r = Ok tt -> k = length bs) /\ (fs = [] -> r = Ok tt /\ fs' = []).

Lemma runs_steps_try m bs m' cs : runs_steps m bs -> runs_steps m' cs -> runs_steps (_ ←? m; m') (bs ++ cs).
Proof.
  intros Hm Hm' d fs. destruct (Hm d fs) as (k & r & fs1 & E1 & Hk & Hok & Hnf). unfold try_bind, mbind, db_bind. rewrite E1.
  destruct r as [[] | e].
  - rewrite (Hok eq_refl), take_ge by done. destruct (Hm' (bf_steps bs d) fs1) as (k' & r' & fs2 & E2 & Hk' & Hok' & Hnf').
    exists (length bs + k')%nat, r', fs2. rewrite E2, take_app_add, bf_steps_app, length_app. split_and!; [done | lia | |].
    + intros H. by rewrite (Hok' H).
    + intros H. by apply Hnf', Hnf.
  - exists k, (Err e), fs1. rewrite take_app_le, length_app by done. split_and!; [done | lia | done |]. intros H. by destruct (Hnf H).
Qed.

(** One statement that reads, then perhaps one that inserts. *)
Lemma runs_insert b (m : AccDb (Res unit)) :
  m = exec (insert_select (bf_selects b)) -> forall d fs, bf_enabled b d = true -> exists k r fs',
  m (World d fs) = (r, World (bf_steps (take k [b]) d) fs') /\ (k <= 1)%nat /\ (r = Ok tt -> k = 1%nat) /\ (fs = [] -> r = Ok tt /\ fs' = []).
Proof.
  intros -> d fs He. assert (E : bf_steps (take 1 [b]) d = snd (insert_select (bf_selects b) d)) by (simpl; unfold bf_step; by rewrite He).
  unfold exec. destruct fs as [| [] fs]; cbn [next_fault w_faults w_data].
  - exists 1%nat, (Ok tt), []. by rewrite E.
  - exists 1%nat, (Ok tt), fs. by rewrite E.
  - exists 0%nat, (Err db_err), fs. split_and!; [done | lia | done | done].
  - exists 1%nat, (Err db_err), fs. by rewrite E.
Qed.
Lemma runs_query {X} (f : Accounts -> Res X) (k : X -> AccDb (Res unit)) bs x d :
  f d = Ok x ->
  (forall fs, exists n r fs', k x (World d fs) = (r, World (bf_steps (take n bs) d) fs') /\ (n <= length bs)%nat /\
    (r = Ok tt -> n = length bs) /\ (fs = [] -> r = Ok tt /\ fs' = [])) ->
  forall fs, exists n r fs', (x ←? query f; k x) (World d fs) = (r, World (bf_steps (take n bs) d) fs') /\ (n <= length bs)%nat /\
    (r = Ok tt -> n = length bs) /\ (fs = [] -> r = Ok tt /\ fs' = []).
Proof.
  intros Hf Hk fs. unfold try_bind, mbind, db_bind, query, exec. destruct fs as [| [] fs]; cbn [next_fault w_faults w_data fst snd].
  - rewrite Hf. apply Hk.
  - rewrite Hf. destruct (Hk fs) as (n & r & fs' & H1 & H2 & H3 & H4). exists n, r, fs'. by split_and!.
  - exists 0%nat, (Err db_err), fs. split_and!; [done | lia | done | done].
  - exists 0%nat, (Err db_err), fs. split_and!; [done | lia | done | done].
Qed.
Lemma runs_nothing b d : bf_enabled b d = false -> forall fs, exists k r fs',
  (mret (Ok tt) : AccDb (Res unit)) (World d fs) = (r, World (bf_steps (take k [b]) d) fs') /\ (k <= 1)%nat /\ (r = Ok tt -> k = 1%nat) /\ (fs = [] -> r = Ok tt /\ fs' = []).
Proof. intros He fs. exists 1%nat, (Ok tt), fs. simpl. unfold bf_step. by rewrite He. Qed.

Lemma counted_runs counts selects sources target : runs_steps (counted_backfill counts selects) [counted_step counts selects sources target].
Proof.
  intros d. unfold counted_backfill. eapply runs_query; [done |]. intros fs. destruct (live_count counts d =? 0) eqn:E.
  - apply runs_nothing. simpl. by rewrite E.
  - apply (runs_insert (counted_step counts selects sources target)); [done |]. simpl. by rewrite E.
Qed.
Lemma rules_run resources keys guard rules : runs_steps (by_rules_backfill resources keys guard rules) [rules_step resources keys guard rules].
Proof.
  intros d. unfold by_rules_backfill. eapply runs_query; [done |]. intros fs. destruct (seeded_keys resources keys d) eqn:E; simpl negb; cbv iota;
    [| apply runs_nothing; simpl; by rewrite E].
  revert fs. eapply runs_query; [done |]. intros fs. destruct (pending_orgs guard d =? 0) eqn:Ep.
  - apply runs_nothing. simpl. by rewrite E, Ep.
  - apply (runs_insert (rules_step resources keys guard rules)); [done |]. simpl. by rewrite E, Ep.
Qed.
Lemma backfills_run : runs_steps backfill_permissions permission_steps.
Proof.
  unfold backfill_permissions, permission_steps. repeat (apply (runs_steps_try _ [_]); [first [apply rules_run | apply counted_runs] |]).
  apply counted_runs.
Qed.

Lemma clean_run d : backfill_permissions (World d []) = (Ok tt, World (bf_steps permission_steps d) []).
Proof.
  destruct (backfills_run d []) as (n & r & fs & -> & _ & Hok & Hnf). destruct (Hnf eq_refl) as [-> ->].
  rewrite (Hok eq_refl). rewrite (firstn_all permission_steps). reflexivity.
Qed.

(** An interrupted start-up is repaired by the next one, and a completed one is not
    repeated: wherever the backfills stopped, and whatever was applied behind a failed
    statement's back, running them again leaves exactly what one clean run leaves. *)
Theorem backfills_converge d fs :
  permissions_wf d ->
  backfill_permissions (World (w_data (snd (backfill_permissions (World d fs)))) []) =
  (Ok tt, World (w_data (snd (backfill_permissions (World d [])))) []).
Proof.
  intros Hwf. destruct (backfills_run d fs) as (k & r & fs' & -> & _). cbn [snd w_data].
  rewrite !clean_run. cbn [snd w_data]. rewrite bf_steps_resume; [reflexivity | apply steps_lawful | apply steps_independent | done].
Qed.

(** ** What a role may gain *)

(** The permissions a role must have held to be given this one. *)
Definition origins (t : string * string) : list (string * string) :=
  let '(resource, action) := t in
  let names := String.eqb resource in
  let funnel := [(ResourceOccurrenceStages, ActionWrite); (ResourceSettingsGeneral, ActionWrite)] in
  if names ResourceOccurrences then [(ResourceChat, action)]
  else if names ResourceOccurrenceStages then [(ResourceSettingsGeneral, ActionWrite)]
  else if names ResourceContactName then [(ResourceContacts, ActionWrite); (ResourceChat, ActionWrite)]
  else if existsb names [ResourceUnits; ResourceDepartments; ResourceOccurrenceCategories; ResourceOccurrenceSLAPolicies] then funnel
  else if existsb names [ResourceOccurrenceWhatHappened; ResourceOccurrenceProcesses] then (ResourceOccurrenceCategories, action) :: funnel
  else if names ResourceSalesOpportunities then
    if String.eqb action ActionViewAll then [(ResourceConversations, ActionViewAll)] else [(ResourceChat, ActionWrite)]
  else if names ResourceXProcessIntegration then [(ResourceAccounts, ActionWrite)]
  else [].
(** What the system roles are given by name. *)
Definition by_name (role : string) (t : string * string) : bool :=
  let '(resource, action) := t in
  if String.eqb role "admin" then existsb (String.eqb resource) [ResourceKnowledge; ResourceAITools; ResourceWhatsAppUsage; ResourceTeamChat]
  else if String.eqb role "manager" then
    (String.eqb resource ResourceWhatsAppUsage && String.eqb action ActionRead) ||
    (String.eqb resource ResourceTeamChat && existsb (String.eqb action) [ActionRead; ActionWrite; ActionManage; ActionDelete])
  else if String.eqb role "agent" then String.eqb resource ResourceTeamChat && existsb (String.eqb action) [ActionRead; ActionWrite]
  else false.
Definition held (d : Accounts) (role : uuid) (s : string * string) : Prop :=
  exists q, q ∈ ac_permissions d /\ (role, pm_ID q) ∈ ac_links d /\ pair_of q = s.
Definition entitled (d : Accounts) (r : CustomRole) (t : string * string) : Prop :=
  (cr_IsSystem r = true /\ by_name (cr_Name r) t = true) \/ exists s, s ∈ origins t /\ held d (cr_ID r) s.
Definition entitling (b : backfill) : Prop := forall d r t, bf_selects b d r t = true -> entitled d r (pair_of t).

Lemma origins_first a :
  origins (ResourceChat, a) = [] /\ origins (ResourceSettingsGeneral, a) = [] /\ origins (ResourceContacts, a) = [] /\
  origins (ResourceConversations, a) = [] /\ origins (ResourceAccounts, a) = [] /\
  origins (ResourceOccurrenceStages, a) = [(ResourceSettingsGeneral, ActionWrite)] /\
  origins (ResourceOccurrenceCategories, a) = [(ResourceOccurrenceStages, ActionWrite); (ResourceSettingsGeneral, ActionWrite)].
Proof. by split_and!. Qed.
Lemma origins_trans s t u : s ∈ origins t -> u ∈ origins s -> u ∈ origins t.
Proof.
  destruct t as [resource action]. unfold origins at 1 3.
  repeat match goal with |- context [if ?b then _ else _] => destruct b end; rewrite ?elem_of_cons, ?elem_of_nil;
    intros Hs; repeat destruct Hs as [-> | Hs]; try done;
    match goal with |- u ∈ origins (?r, ?a) -> _ =>
      destruct (origins_first a) as (E1 & E2 & E3 & E4 & E5 & E6 & E7); rewrite ?E1, ?E2, ?E3, ?E4, ?E5, ?E6, ?E7 end.
  all: rewrite ?elem_of_cons, ?elem_of_nil; naive_solver.
Qed.
Lemma held_of d q role : role_holds d q role = true -> exists p, q p = true /\ held d role (pair_of p).
Proof. intros (p & Hp & Hl & Hq)%role_holds_true. exists p. split; [done | by exists p]. Qed.
Lemma named_pair resource action p : named resource action p = true -> pair_of p = (resource, action).
Proof. unfold named, pair_of. by intros [->%String.eqb_eq ->%String.eqb_eq]%andb_true_iff. Qed.

Lemma rules_entitling resources keys guard rules :
  Forall (fun g => (gr_fromResource g, gr_fromAction g) ∈ origins (gr_toResource g, gr_toAction g)) rules ->
  entitling (rules_step resources keys guard rules).
Proof.
  rewrite Forall_forall. intros Hall d r t [(g & Hg & [Ht Hs]%andb_true_iff)%existsb_exists _]%andb_true_iff. right.
  apply held_of in Hs as (p & Hp & Hh). apply named_pair in Hp, Ht. rewrite Hp in Hh. rewrite Ht.
  eexists. split; [| exact Hh]. apply Hall. by apply list_elem_of_In.
Qed.
Lemma alongside_entitling counts target :
  target = ResourceOccurrenceWhatHappened \/ target = ResourceOccurrenceProcesses ->
  entitling (counted_step counts (alongside ResourceOccurrenceCategories target) [ResourceOccurrenceCategories] target).
Proof.
  intros Ht d r t [[H1%of_resource_eq H2]%andb_true_iff _]%andb_true_iff. right. apply held_of in H2 as (p & [Hp Ha]%andb_true_iff & Hh).
  apply of_resource_eq in Hp. apply String.eqb_eq in Ha. exists (ResourceOccurrenceCategories, pm_Action t). split.
  - unfold pair_of. rewrite H1. destruct Ht as [-> | ->]; by left.
  - unfold pair_of in Hh. by rewrite Hp, Ha in Hh.
Qed.
Lemma origin_entitles d r t s q :
  s ∈ origins (pair_of t) -> (forall p, q p = true -> pair_of p = s) -> role_holds d q (cr_ID r) = true -> entitled d r (pair_of t).
Proof. intros Hs Hq (p & Hp%Hq & Hh)%held_of. right. exists s. rewrite <- Hp in *. by split. Qed.
Lemma contact_name_entitling counts sources target : entitling (counted_step counts contact_name_grants sources target).
Proof.
  intros d r t [[Ht%named_pair (p & Hp & Hh)%held_of]%andb_true_iff _]%andb_true_iff. right. rewrite Ht.
  apply orb_true_iff in Hp as [Hp | Hp]; apply named_pair in Hp; rewrite Hp in Hh; eexists; (split; [| exact Hh]); [by left | right; by left].
Qed.
Lemma xprocess_entitling counts sources target : entitling (counted_step counts xprocess_grants sources target).
Proof.
  intros d r t [[Ht%of_resource_eq H]%andb_true_iff _]%andb_true_iff. eapply origin_entitles; [| apply named_pair | exact H].
  unfold pair_of. rewrite Ht. by left.
Qed.
Lemma system_entitles d r t name :
  is_system_role name r = true -> by_name name (pair_of t) = true -> entitled d r (pair_of t).
Proof. intros [Hs Hn%String.eqb_eq]%andb_true_iff H. left. by rewrite Hn. Qed.
Ltac solve_by_name := unfold by_name, pair_of; match goal with H : pm_Resource _ = _ |- _ => rewrite H end; reflexivity.
Lemma admin_entitling d r t resource :
  is_system_role "admin" r = true -> pm_Resource t = resource ->
  resource ∈ [ResourceKnowledge; ResourceAITools; ResourceWhatsAppUsage; ResourceTeamChat] -> entitled d r (pair_of t).
Proof.
  intros Hr Ht Hin. eapply system_entitles; [exact Hr |]. unfold by_name, pair_of. rewrite Ht. apply existsb_exists. exists resource.
  split; [by apply list_elem_of_In | apply String.eqb_refl].
Qed.
Lemma by_name_entitling :
  (forall counts sources target, entitling (counted_step counts knowledge_grants sources target)) /\
  (forall counts sources target, entitling (counted_step counts ai_tools_grants sources target)) /\
  (forall counts sources target, entitling (counted_step counts whatsapp_usage_grants sources target)) /\
  (forall counts sources target, entitling (counted_step counts team_chat_grants sources target)) /\
  (forall counts sources target, entitling (counted_step counts join_any_grants sources target)).
Proof.
  split_and!; intros counts sources target d r t; cbn [counted_step bf_selects].
  - intros [[Hr Ht%of_resource_eq]%andb_true_iff _]%andb_true_iff. eapply admin_entitling; [done | exact Ht | set_solver].
  - intros [[Hr Ht%of_resource_eq]%andb_true_iff _]%andb_true_iff. eapply admin_entitling; [done | exact Ht | set_solver].
  - intros [[Ht%of_resource_eq Hr]%andb_true_iff _]%andb_true_iff. apply orb_true_iff in Hr as [Hr | [Hr Ha%String.eqb_eq]%andb_true_iff].
    + eapply admin_entitling; [done | exact Ht | set_solver].
    + eapply system_entitles; [exact Hr |]. unfold by_name, pair_of. rewrite Ht, Ha. reflexivity.
  - intros [[Ht%of_resource_eq Hr]%andb_true_iff _]%andb_true_iff. apply existsb_exists in Hr as ([name action] & Hin & [Hr Ha%String.eqb_eq]%andb_true_iff).
    eapply system_entitles; [exact Hr |]. unfold pair_of. rewrite Ht, Ha. simpl in Hin.
    repeat (destruct Hin as [[= <- <-] | Hin]; [reflexivity |]). destruct Hin.
  - intros [[Hr Ht%named_resource]%andb_true_iff _]%andb_true_iff. eapply admin_entitling; [done | exact Ht | set_solver].
Qed.
Lemma steps_entitling : Forall entitling permission_steps.
Proof.
  pose proof by_name_entitling as (H1 & H2 & H3 & H4 & H5).
  repeat (apply Forall_cons_2; [first [ apply H1 | apply H2 | apply H3 | apply H4 | apply H5 | apply contact_name_entitling | apply xprocess_entitling
    | apply alongside_entitling; by auto | apply rules_entitling; apply (bool_decide_unpack _); vm_compute; exact I ] |]). constructor.
Qed.

(** The new links of a run are entitlements in the state the run began in. *)
Lemma steps_entitled bs d role t :
  Forall entitling bs -> permissions_wf d -> t ∈ ac_permissions d -> (role, pm_ID t) ∈ ac_links (bf_steps bs d) -> (role, pm_ID t) ∉ ac_links d ->
  exists r, r ∈ ac_roles d /\ cr_ID r = role /\ cr_Deleted r = false /\ entitled d r (pair_of t).
Proof.
  revert d. induction bs as [| b bs IH]; intros d Hbs Hwf Ht Hl Hn; [done |]. apply Forall_cons in Hbs as [Hb Hbs].
  pose proof (bf_step_grows b d) as Hg. pose proof (grows_permissions _ _ Hg) as Ep. pose proof (grows_roles _ _ Hg) as Er.
  assert (Hstep : forall r' t', t' ∈ ac_permissions d -> (r', pm_ID t') ∈ ac_links (bf_step b d) -> (r', pm_ID t') ∉ ac_links d ->
    exists r, r ∈ ac_roles d /\ cr_ID r = r' /\ cr_Deleted r = false /\ entitled d r (pair_of t')).
  { intros r' t' Ht' [[_ (r & p & Hr & Hp & Eid & Et & Hd & Hs)%elem_of_selected] |]%bf_step_links ?; [| done].
    apply (NoDup_map_inj pm_ID _ p t' Hwf Hp Ht') in Et as ->. exists r. split_and!; try done. by apply Hb. }
  destruct (decide ((role, pm_ID t) ∈ ac_links (bf_step b d))) as [Hin | Hout]; [by apply Hstep |].
  assert (Hwf' : permissions_wf (bf_step b d)) by (unfold permissions_wf; by rewrite Ep).
  destruct (IH (bf_step b d) Hbs Hwf') as (r & Hr & Eid & Hd & He); [by rewrite Ep | done | done |].
  rewrite Er in Hr. exists r. split_and!; try done. destruct He as [He | (s & Hs & q & Hq & Hl' & Eq)]; [by left |].
  rewrite Ep in Hq. destruct (decide ((cr_ID r, pm_ID q) ∈ ac_links d)) as [Hold | Hnew]; [right; exists s; split; [done | by exists q] |].
  destruct (Hstep (cr_ID r) q Hq Hl' Hnew) as (r2 & Hr2 & Eid2 & Hd2 & He2). destruct He2 as [[_ Hname] | (u & Hu & Hheld)].
  - exfalso. rewrite Eq in Hname. clear - Hs Hname. destruct t as [? resource action ?]. unfold pair_of, origins in Hs. simpl in Hs.
    revert Hs. repeat match goal with |- context [if ?b then _ else _] => destruct b end; rewrite ?elem_of_cons, ?elem_of_nil;
      intros Hs; repeat destruct Hs as [-> | Hs]; try done; revert Hname; unfold by_name;
      repeat match goal with |- context [if ?b then _ else _] => destruct b end; done.
  - right. exists u. rewrite Eid2 in Hheld. split; [| done]. rewrite Eq in Hu. by eapply origins_trans.
Qed.

(** The start-up widens nobody's access: whatever fails, it takes no permission from a
    role, gives none to a deleted one, and each permission a role gains is either one the
    system roles are given by name (the AI's knowledge and tools, the usage screen, the team
    chat; never a custom role) or follows from a permission the role held before the
    start-up began, through the whole chain of backfills. *)
Theorem backfills_widen_nothing d fs r' d' fs' :
  permissions_wf d -> backfill_permissions (World d fs) = (r', World d' fs') ->
  grows d d' /\
  forall role t, t ∈ ac_permissions d -> (role, pm_ID t) ∈ ac_links d' -> (role, pm_ID t) ∉ ac_links d ->
  exists r, r ∈ ac_roles d /\ cr_ID r = role /\ cr_Deleted r = false /\ entitled d r (pair_of t).
Proof.
  intros Hwf Hrun. destruct (backfills_run d fs) as (k & r & fs1 & E & _). rewrite E in Hrun. simplify_eq. split; [apply bf_steps_grows |].
  intros role t. apply steps_entitled; [by apply Forall_take, steps_entitling | done].
Qed.

(** ** An installation before the upgrade *)
Definition seeded_permissions : list Permission := imap (fun i p => MkPermission (N.of_nat i + 1) (fst p) (snd p) false) DefaultPermissions.
Definition holding (role : uuid) (keys : list string) : list (uuid * uuid) := map (fun p => (role, pm_ID p)) (by_keys seeded_permissions keys).
(** Organization 1 with a custom role (30) that works the queue and runs the settings, and a
    system administrator (10) of the days before the CRM. *)
Definition old_install : Accounts :=
  MkAccounts [MkOrg 1 "Acme" "acme" false]
    [MkRole 10 1 "admin" "" true false false; MkRole 30 1 "supervisor" "" false true false] seeded_permissions
    (list_to_set (holding 10 ["users:read"; "users:write"; "chat:read"; "chat:write"] ++ holding 30 ["chat:read"; "settings.general:write"])) [] [] [].
Definition keys_held (d : Accounts) (role : uuid) : list string :=
  map key_of (List.filter (fun p => bool_decide ((role, pm_ID p) ∈ ac_links d)) (ac_permissions d)).
Lemma old_install_wf : permissions_wf old_install.
Proof. apply (bool_decide_unpack _). vm_compute. exact I. Defined.

Example old_install_upgraded :
  let d := w_data (snd (backfill_permissions (World old_install []))) in
  keys_held d 30 = ["settings.general:write"; "chat:read"; "occurrences:read"; "occurrences.stages:read"; "occurrences.stages:write"; "occurrences.stages:delete";
    "occurrences.categories:read"; "occurrences.categories:write"; "occurrences.categories:delete"; "occurrences.what_happened:read";
    "occurrences.what_happened:write"; "occurrences.what_happened:delete"; "occurrences.sla_policies:read"; "occurrences.sla_policies:write";
    "occurrences.processes:read"; "occurrences.processes:write"; "occurrences.processes:delete"; "units:read"; "units:write"; "units:delete";
    "departments:read"; "departments:write"; "departments:delete"].
Proof. vm_compute. reflexivity. Qed.

Theorem backfills_converge_witness :
  backfill_permissions (World (w_data (snd (backfill_permissions (World old_install [NoFault; NoFault; FailAfter])))) []) =
  (Ok tt, World (w_data (snd (backfill_permissions (World old_install [])))) []).
Proof. apply (backfills_converge old_install [NoFault; NoFault; FailAfter]). exact old_install_wf. Defined.
Theorem backfills_widen_nothing_witness :
  let w := snd (backfill_permissions (World old_install [NoFault; NoFault; NoFault; FailBefore])) in
  grows old_install (w_data w) /\
  forall role t, t ∈ ac_permissions old_install -> (role, pm_ID t) ∈ ac_links (w_data w) -> (role, pm_ID t) ∉ ac_links old_install ->
  exists r, r ∈ ac_roles old_install /\ cr_ID r = role /\ cr_Deleted r = false /\ entitled old_install r (pair_of t).
Proof.
  intros w. apply (backfills_widen_nothing old_install [NoFault; NoFault; NoFault; FailBefore]
    (fst (backfill_permissions (World old_install [NoFault; NoFault; NoFault; FailBefore]))) (w_data w) (w_faults w)); [exact old_install_wf |].
  unfold w. by destruct (backfill_permissions (World old_install [NoFault; NoFault; NoFault; FailBefore])) as [? []].
Defined.

(** ** What the backfills give *)

(** The two catalogues born after the Help Desk one follow it on every start, role by
    role: after a clean run a live role that holds an action of the categories holds the same
    action of "what happened" and of the processes, be it that somebody had revoked it. *)
Theorem siblings_follow_categories d target r p t :
  (target = ResourceOccurrenceWhatHappened \/ target = ResourceOccurrenceProcesses) ->
  r ∈ ac_roles d -> cr_Deleted r = false ->
  p ∈ ac_permissions d -> pm_Resource p = ResourceOccurrenceCategories -> (cr_ID r, pm_ID p) ∈ ac_links d ->
  t ∈ ac_permissions d -> pm_Deleted t = false -> pair_of t = (target, pm_Action p) ->
  (cr_ID r, pm_ID t) ∈ ac_links (w_data (snd (backfill_permissions (World d [])))).
Proof.
  intros Htg Hr Hd Hp Ep Hl Ht Hlive Et. rewrite clean_run. cbn [snd w_data]. injection Et as Er Ea.
  assert (exists pre post counts, permission_steps = pre ++ counted_step counts (alongside ResourceOccurrenceCategories target) [ResourceOccurrenceCategories] target :: post /\ counts t = true)
    as (pre & post & counts & -> & Hc).
  { destruct Htg as [-> | ->].
    - exists (take 3 permission_steps), (drop 4 permission_steps), (of_resource ResourceOccurrenceWhatHappened). split; [reflexivity | by apply String.eqb_eq].
    - exists (take 9 permission_steps), (drop 10 permission_steps), (of_resource ResourceOccurrenceProcesses). split; [reflexivity | by apply String.eqb_eq]. }
  rewrite bf_steps_app. set (d1 := bf_steps pre d). assert (Hg : grows d d1) by apply bf_steps_grows.
  set (b := counted_step _ _ _ _). apply (grows_links (bf_step b d1) (bf_steps post (bf_step b d1))); [apply bf_steps_grows |].
  apply bf_step_links. destruct (decide ((cr_ID r, pm_ID t) ∈ ac_links d1)) as [Hin | Hout]; [by right | left]. split.
  - simpl. apply negb_true_iff, Z.eqb_neq. rewrite (live_count_grows _ _ _ Hg). assert (0 < live_count counts d); [| lia].
    apply sql_count_pos. exists t. split; [| done]. apply list_elem_of_In, filter_In. rewrite Hlive. by rewrite <- list_elem_of_In.
  - apply elem_of_selected. exists r, t. rewrite (grows_roles _ _ Hg), (grows_permissions _ _ Hg). split_and!; try done.
    cbn [b counted_step bf_selects]. unfold alongside. rewrite bool_decide_eq_false_2 by done. rewrite andb_true_r. apply andb_true_intro. split; [by apply String.eqb_eq |].
    apply role_holds_true. exists p. rewrite (grows_permissions _ _ Hg). split_and!; [done | by apply (grows_links _ _ Hg) |].
    rewrite Ea. apply andb_true_intro. split; [by apply String.eqb_eq | apply String.eqb_refl].
Qed.

Definition perm_named (key : string) : Permission := default (MkPermission 0 "" "" true) (permMap seeded_permissions key).
Definition revoked_install : Accounts :=
  set_links (fun _ => list_to_set (holding 30 ["occurrences.categories:read"; "occurrences.stages:read"])) old_install.
Theorem siblings_follow_categories_witness :
  (30%N, pm_ID (perm_named "occurrences.what_happened:read")) ∈ ac_links (w_data (snd (backfill_permissions (World revoked_install [])))).
Proof.
  apply (siblings_follow_categories revoked_install ResourceOccurrenceWhatHappened (MkRole 30 1 "supervisor" "" false true false)
    (perm_named "occurrences.categories:read") (perm_named "occurrences.what_happened:read")); try reflexivity;
    first [by left | apply (bool_decide_unpack _); vm_compute; exact I | apply list_elem_of_In; vm_compute; tauto].
Defined.

(** * Seeding *)

(** ** Linking the system roles that have no permission *)
Lemma replace_fresh role perms d :
  (forall l, l ∈ ac_links d -> fst l <> role) ->
  replace_permissions role perms (World d []) = (Ok tt, World (set_links (fun s => role_links role perms ∪ s) d) []).
Proof.
  intros Hf. unfold replace_permissions, try_bind, mbind, db_bind, exec. simpl. do 2 f_equal. unfold set_links. simpl. f_equal.
  apply set_eq. intros l. rewrite elem_of_filter. split; [tauto |]. intros Hl. split; [| done]. apply elem_of_union in Hl as [Hl | Hl]; [by right | left; by apply Hf].
Qed.
Lemma count_links_clean role d : count_links role (World d []) = (Z.of_nat (size (filter (fun l => fst l = role) (ac_links d))), World d []).
Proof. reflexivity. Qed.
Lemma try_each_clean {A} (R : Accounts -> Accounts -> Prop) `{!PreOrder R} (f : A -> AccDb (Res unit)) l d :
  (forall x d, exists r d', f x (World d []) = (r, World d' []) /\ R d d') ->
  exists r d', try_each f l (World d []) = (r, World d' []) /\ R d d'.
Proof.
  intros Hf. revert d. induction l as [| x l IH]; intros d; simpl; [by exists (Ok tt), d |].
  unfold try_bind, mbind, db_bind. destruct (Hf x d) as (r & d1 & -> & H1). destruct r as [[] | e]; [| by exists (Err e), d1].
  destruct (IH d1) as (r & d2 & -> & H2). exists r, d2. split; [done | by etrans].
Qed.
(** Links are added, and none to a role that has some. *)
Definition respects (d d' : Accounts) : Prop :=
  grows d d' /\ forall l l', l ∈ ac_links d -> fst l' = fst l -> l' ∈ ac_links d' -> l' ∈ ac_links d.
#[global] Instance respects_preorder : PreOrder respects.
Proof.
  split; [by split |]. intros d1 d2 d3 [G1 H1] [G2 H2]. split; [by etrans |]. intros l l' Hl E Hl'.
  apply (H1 l l'); [done | done |]. by apply (H2 l l'); [apply (grows_links _ _ G1) | |].
Qed.
Lemma replace_respects role perms d : size (filter (fun l => fst l = role) (ac_links d)) = 0%nat ->
  exists r d', replace_permissions role perms (World d []) = (r, World d' []) /\ respects d d'.
Proof.
  intros Hsize. assert (Hf : forall l, l ∈ ac_links d -> fst l <> role).
  { intros l Hl E. apply size_empty_inv in Hsize. apply (not_elem_of_empty (C:=gset (uuid * uuid)) l), Hsize. by apply elem_of_filter. }
  rewrite replace_fresh by done. eexists _, _. split; [reflexivity |]. split; [by eexists |].
  intros l l' Hl E. simpl. intros [(p & -> & _)%elem_of_list_to_set%list_elem_of_fmap | ?]%elem_of_union; [| done]. simpl in E. by apply Hf in Hl.
Qed.

(** One system role that lost its [COUNT]. *)
Definition customised : Accounts :=
  MkAccounts [MkOrg 1 "Acme" "acme" false] [MkRole 20 1 "agent" "" true true false] seeded_permissions
    (list_to_set (holding 20 ["chat:read"; "users:read"])) [] [] [].

(** Linking the system roles respects what administrators changed as long as its counts
    are answered: it only adds links, and none to a role that has some. A count that fails is
    taken for zero, and the role's own permissions are replaced by the defaults. *)
Theorem fix_keeps_customizations :
  (forall d, exists r d', FixSystemRolePermissions (World d []) = (r, World d' []) /\ respects d d') /\
  (let d' := w_data (snd (FixSystemRolePermissions (World customised [NoFault; NoFault; FailBefore]))) in
   keys_held customised 20 = ["users:read"; "chat:read"] /\ keys_held d' 20 = List.filter (fun k => existsb (String.eqb k) agentPermissions) allPermissions).
Proof.
  split; [| vm_compute; by split]. intros d. unfold FixSystemRolePermissions. unfold try_bind at 1 2, mbind, db_bind, query, exec.
  cbn [next_fault w_faults w_data fst snd]. case_bool_decide; [by exists (Ok tt), d |]. cbn [next_fault w_faults w_data fst snd].
  apply try_each_clean; [apply _ |]. intros role d1. rewrite count_links_clean. cbv iota beta.
  destruct (0 <? _) eqn:Hn; [by exists (Ok tt), d1 |]. destruct (keys_of_role (cr_Name role)); [| by exists (Ok tt), d1].
  case_bool_decide; [by exists (Ok tt), d1 |]. apply replace_respects. apply Z.ltb_ge in Hn. lia.
Qed.

(** ** Home memberships *)
Lemma insert_homes_conflict users d u m :
  u ∈ users -> m ∈ ac_members d -> same_membership (home_membership 0 u) m = true -> fst (insert_homes users d) = Err ErrUnique.
Proof.
  revert d. induction users as [| v users IH]; intros d Hu Hm Hs; [by apply not_elem_of_nil in Hu |]. simpl.
  unfold insert_member at 1. destruct (existsb _ _) eqn:Ex; [done |]. apply elem_of_cons in Hu as [-> | Hu].
  - exfalso. apply not_true_iff_false in Ex. apply Ex, existsb_exists. exists m. rewrite <- list_elem_of_In. split; [done |]. apply orb_true_iff. by left.
  - apply IH; [done | | done]. simpl. set_solver.
Qed.
Lemma insert_homes_all users d d' :
  insert_homes users d = (Ok tt, d') ->
  ac_users d' = ac_users d /\ (forall m, m ∈ ac_members d -> m ∈ ac_members d') /\
  forall u, u ∈ users -> exists id, home_membership id u ∈ ac_members d'.
Proof.
  revert d. induction users as [| v users IH]; intros d; simpl.
  - intros [= <-]. split_and!; [done | done |]. intros u Hu. by apply not_elem_of_nil in Hu.
  - unfold insert_member at 1. destruct (existsb _ _) eqn:Ex; [done |]. intros H. apply IH in H as (Eu & Hm & Hall). simpl in *.
    split_and!; [done | intros m Hin; apply Hm; set_solver |]. intros u [-> | Hu]%elem_of_cons; [| by apply Hall].
    eexists. apply Hm, elem_of_app. right. by left.
Qed.

(** The part of the tables the home memberships are computed from. *)
Definition user_place (u : User) : uuid * uuid * bool := (us_ID u, us_OrganizationID u, us_Deleted u).
Definition same_places (d d' : Accounts) : Prop := ac_members d' = ac_members d /\ map user_place (ac_users d') = map user_place (ac_users d).
#[global] Instance same_places_preorder : PreOrder same_places.
Proof. split; [by split |]. intros d1 d2 d3 [H1 H2] [H3 H4]. split; congruence. Qed.
(** The stronger one of the steps that touch neither users nor memberships. *)
Definition same_people (d d' : Accounts) : Prop := ac_members d' = ac_members d /\ ac_users d' = ac_users d.
#[global] Instance same_people_preorder : PreOrder same_people.
Proof. split; [by split |]. intros d1 d2 d3 [H1 H2] [H3 H4]. split; congruence. Qed.
Lemma people_places {A} (m : AccDb A) : keeps same_people m -> keeps same_places m.
Proof. intros Hm w x w' [H1 H2]%Hm. split; congruence. Qed.

Section KeepEach.
Context (R : Accounts -> Accounts -> Prop) `{!PreOrder R}.
Lemma keeps_each {A} (f : A -> AccDb (Res unit)) l : (forall x, keeps R (f x)) -> keeps R (try_each f l).
Proof using Type*. intros Hf. induction l as [| x l IH]; [by apply keeps_ret |]. apply keeps_try; [done | apply Hf | done]. Qed.
End KeepEach.
Lemma keeps_uuid : keeps same_people uuid_New.
Proof. intros w x w' [= <- <-]. by split. Qed.
Lemma keeps_people_exec {A} (f : Accounts -> Res A * Accounts) : (forall d, same_people d (snd (f d))) -> keeps same_people (exec f).
Proof. apply keeps_exec, _. Qed.
Lemma keeps_place_exec {A} (f : Accounts -> Res A * Accounts) : (forall d, same_places d (snd (f d))) -> keeps same_places (exec f).
Proof. apply keeps_exec, _. Qed.
Lemma update_places p f d : (forall u, user_place (f u) = user_place u) -> same_places d (set_users (sql_update p f) d).
Proof.
  intros Hf. split; [done |]. simpl. unfold sql_update. rewrite map_map. apply map_ext. intros u. by destruct (p u).
Qed.
Lemma seed_permissions_people : keeps same_people SeedPermissionsAndRoles.
Proof.
  apply keeps_each; [apply _ |]. intros x. apply keeps_bind; [apply _ | apply keeps_query, _ |]. intros []; [apply keeps_ret, _ |].
  apply keeps_bind; [apply _ | apply keeps_uuid |]. intros id. apply keeps_people_exec. intros d. unfold insert_permission. by destruct (existsb _ _).
Qed.
Lemma seed_org_people org : keeps same_people (SeedSystemRolesForOrg org).
Proof.
  unfold SeedSystemRolesForOrg. apply keeps_try; [apply _ | apply keeps_query, _ |]. intros n. destruct (0 <? n); [apply keeps_ret, _ |].
  apply keeps_try; [apply _ | apply keeps_query, _ |]. intros rows. apply keeps_each; [apply _ |]. intros [[name desc] def].
  apply keeps_bind; [apply _ | apply keeps_uuid |]. intros id. apply keeps_people_exec. intros d. unfold insert_role. by destruct (existsb _ _).
Qed.
Lemma fix_places : keeps same_places FixSystemRolePermissions.
Proof.
  unfold FixSystemRolePermissions. apply keeps_try; [apply _ | apply keeps_query, _ |]. intros rows. case_bool_decide; [apply keeps_ret, _ |].
  apply keeps_try; [apply _ | apply keeps_query, _ |]. intros roles. apply keeps_each; [apply _ |]. intros r. unfold count_links, replace_permissions.
  apply keeps_bind; [apply _ | apply keeps_bind; [apply _ | apply keeps_query, _ |]; intros []; apply keeps_ret, _ |]. intros n.
  destruct (0 <? n); [apply keeps_ret, _ |]. destruct (keys_of_role (cr_Name r)); [| apply keeps_ret, _]. case_bool_decide; [apply keeps_ret, _ |].
  apply keeps_try; [apply _ | by apply keeps_place_exec |]. intros []. by apply keeps_place_exec.
Qed.
Lemma legacy_places has_column : keeps same_places (MigrateExistingUserRoles has_column).
Proof.
  unfold MigrateExistingUserRoles. apply keeps_try; [apply _ | apply keeps_query, _ |]. intros []; [| apply keeps_ret, _]. cbn [negb].
  apply keeps_try; [apply _ | apply keeps_query, _ |]. intros users. case_bool_decide; [apply keeps_ret, _ |].
  apply keeps_try; [apply _ | apply keeps_query, _ |]. intros roles. apply keeps_each; [apply _ |]. intros u.
  destruct (roleMap _ _ _); [| apply keeps_ret, _]. apply keeps_place_exec. intros d. by apply update_places.
Qed.
Lemma seed_roles_places has_column : keeps same_places (SeedSystemRolesForAllOrgs has_column).
Proof.
  unfold SeedSystemRolesForAllOrgs. apply keeps_try; [apply _ | apply keeps_query, _ |]. intros orgs.
  apply keeps_try; [apply _ | apply keeps_each; [apply _ |]; intros o; apply people_places, seed_org_people |]. intros [].
  apply keeps_try; [apply _ | apply fix_places |]. intros []. apply keeps_try; [apply _ | apply legacy_places |]. intros [].
  apply keeps_place_exec. intros d. by apply update_places.
Qed.

Section StartUp.
Context (bcrypt : string -> option string) (has_column : bool) (cfg : DefaultAdminConfig).

(** Removing a member from their own organization, which the organization screen does
    with a soft delete, stops the next start-up for good: the migration tries to give the
    user a new membership, the unique index still has the old row, and whatever else happens
    the migration never succeeds again. *)
Theorem removed_member_blocks_startup d fs u m :
  u ∈ ac_users d -> us_Deleted u = false ->
  m ∈ ac_members d -> uo_UserID m = us_ID u -> uo_OrganizationID m = us_OrganizationID u ->
  (forall m', m' ∈ ac_members d -> uo_UserID m' = us_ID u -> uo_OrganizationID m' = us_OrganizationID u -> uo_Deleted m' = true) ->
  is_ok (fst (migrate_accounts bcrypt has_column cfg (World d fs))) = false.
Proof.
  intros Hu Hlive Hm Em Eo Hall. unfold migrate_accounts, try_bind at 1, mbind, db_bind.
  destruct (SeedPermissionsAndRoles (World d fs)) as [[[] | e] [d1 fs1]] eqn:E1; [| done].
  unfold try_bind at 1, mbind, db_bind. destruct (SeedSystemRolesForAllOrgs has_column (World d1 fs1)) as [[[] | e] [d2 fs2]] eqn:E2; [| done].
  apply (people_places _ seed_permissions_people) in E1. apply seed_roles_places in E2. simpl in E1, E2. assert (HP : same_places d d2) by (by etrans).
  destruct HP as [HM HU]. clear E1 E2. assert (exists v, v ∈ ac_users d2 /\ user_place v = user_place u) as (v & Hv & Ev).
  { assert (Hin : user_place u ∈ map user_place (ac_users d2)) by (rewrite HU; apply list_elem_of_fmap; by exists u).
    apply list_elem_of_fmap in Hin as (v & ? & ?). by exists v. }
  unfold user_place in Ev. injection Ev as Ev1 Ev2 Ev3.
  assert (Hf : fst (insert_homes (List.filter (lacks_home d2) (ac_users d2)) d2) = Err ErrUnique).
  { apply (insert_homes_conflict _ _ v m); [| by rewrite HM |].
    - apply list_elem_of_In, filter_In. rewrite <- list_elem_of_In. split; [done |]. unfold lacks_home. rewrite Ev3, Hlive, Ev1, Ev2. simpl.
      apply negb_true_iff, not_true_iff_false. intros (m' & Hm' & [[H1%N.eqb_eq H2%N.eqb_eq]%andb_true_iff H3]%andb_true_iff)%existsb_exists.
      rewrite <- list_elem_of_In, HM in Hm'. rewrite (Hall m') in H3 by done. done.
    - unfold same_membership. simpl. by rewrite Em, Eo, Ev1, Ev2, !N.eqb_refl. }
  unfold try_bind, mbind, db_bind, MigrateUserOrganizations, exec. cbn [w_faults w_data].
  destruct (next_fault fs2) as [[] fs3]; [| done..]. destruct (insert_homes _ d2) as [r d3]. cbn [fst] in Hf. by subst r.
Qed.

(** A migration that succeeds leaves every live user with a live membership of their own
    organization, and keeps the memberships there were. *)
Theorem homes_are_given d fs d' fs' :
  MigrateUserOrganizations (World d fs) = (Ok tt, World d' fs') ->
  (forall m, m ∈ ac_members d -> m ∈ ac_members d') /\
  forall u, u ∈ ac_users d -> us_Deleted u = false ->
  exists m, m ∈ ac_members d' /\ uo_UserID m = us_ID u /\ uo_OrganizationID m = us_OrganizationID u /\ uo_Deleted m = false.
Proof.
  intros H%exec_ok. cbn [w_data] in H. destruct (insert_homes _ d) as [[[] |] d1] eqn:E; simplify_eq.
  apply insert_homes_all in E as (_ & Hm & Hh). split; [done |]. intros u Hu Hlive. destruct (lacks_home d u) eqn:El.
  - destruct (Hh u) as [id Hin]; [apply list_elem_of_In, filter_In; by rewrite <- list_elem_of_In |]. by exists (home_membership id u).
  - unfold lacks_home in El. rewrite Hlive in El. simpl in El.
    apply negb_false_iff, existsb_exists in El as (m & Hin & [[H1%N.eqb_eq H2%N.eqb_eq]%andb_true_iff H3%negb_true_iff]%andb_true_iff).
    exists m. rewrite <- list_elem_of_In in Hin. split_and!; auto.
Qed.

(** What the default administrator's creation means when it succeeds: either a live user
    has the configured email, or no user had it, not even a deleted one, and now there is a
    super administrator under the configured password. Other users and other administrators
    make no difference; so the administrator who takes another email leaves an account with
    the default password behind at the next start, and the one who is deleted leaves a
    start-up that fails. *)
Theorem default_admin_created d fs d' fs' :
  CreateDefaultAdmin bcrypt cfg (World d fs) = (Ok tt, World d' fs') ->
  (exists u, u ∈ ac_users d /\ us_Deleted u = false /\ us_Email u = da_Email cfg) \/
  ((forall u, u ∈ ac_users d -> us_Email u <> da_Email cfg) /\
   exists u, ac_users d' = ac_users d ++ [u] /\ us_Email u = da_Email cfg /\ bcrypt (da_Password cfg) = Some (us_PasswordHash u) /\
     us_IsSuperAdmin u = true /\ us_IsActive u = true /\ us_Deleted u = false).
Proof.
  unfold CreateDefaultAdmin. unfold mbind at 1, db_bind. destruct (query _ (World d fs)) as [found [d0 fs0]] eqn:E0.
  pose proof (query_data _ _ _ _ E0) as Ed0. simpl in Ed0. subst d0. destruct found as [u | e].
  { intros _. left. apply exec_ok in E0. unfold first_user, first_user_unscoped in E0. cbn [w_data] in E0.
    destruct (sql_min _ _) as [v |] eqn:Ev; [| done]. simplify_eq. apply sql_min_in, list_elem_of_In, filter_In in Ev as [Hin [H1 H2]%andb_true_iff].
    exists u. rewrite <- list_elem_of_In in Hin. split_and!; [done | by apply negb_true_iff | by apply String.eqb_eq]. }
  clear E0. unfold mbind at 1, db_bind. destruct (query _ (World d fs0)) as [org [d0 fs1]] eqn:E0.
  pose proof (query_data _ _ _ _ E0) as Ed0. simpl in Ed0. subst d0. clear E0.
  intros (o & w1 & H1 & (hash & w2 & H2 & (? & w3 & H3 & (? & w4 & H4 & (role & w5 & H5 & H)%try_bind_ok)%try_bind_ok)%try_bind_ok)%try_bind_ok)%try_bind_ok.
  assert (P1 : same_people d (w_data w1)).
  { destruct org; [unfold mret, db_ret in H1; by simplify_eq |]. revert H1. apply (keeps_bind same_people); [apply keeps_uuid |]. intros id.
    apply keeps_try; [apply _ | apply keeps_people_exec; intros d1; unfold insert_org; by destruct (existsb _ _) |]. intros ?. apply keeps_ret, _. }
  destruct (bcrypt (da_Password cfg)) as [h |] eqn:Eh; unfold mret, db_ret in H2; [| done]. simplify_eq.
  apply seed_permissions_people in H3. apply seed_org_people in H4. pose proof (query_data _ _ _ _ H5) as E5.
  assert (P5 : ac_users (w_data w5) = ac_users d) by (rewrite E5; destruct P1, H3, H4; congruence). clear H5 P1 H3 H4 E5.
  unfold mbind at 1, db_bind, uuid_New in H. apply try_bind_ok in H as ([] & w6 & H6 & H). apply exec_ok in H6. simpl in H6.
  unfold insert_user in H6. cbn [ac_users set_uuids] in H6. destruct (existsb _ _) eqn:Ex; [done |]. injection H6 as E6.
  unfold mbind at 1, db_bind, uuid_New in H. apply exec_ok in H. unfold insert_member in H. cbn [w_data] in H.
  match type of H with (if ?b then _ else _) = _ => destruct b end; [done |]. injection H as E7. right. split.
  - intros u Hu Eu. rewrite P5 in Ex. apply not_true_iff_false in Ex. apply Ex, existsb_exists. exists u. rewrite <- list_elem_of_In.
    split; [done |]. cbn. apply orb_true_iff. left. by apply String.eqb_eq.
  - eexists. rewrite <- E7, <- E6. cbn. rewrite P5. split_and!; [reflexivity | done..].
Qed.
End StartUp.

Definition person (id org : uuid) (email : string) (deleted : bool) : User :=
  MkUser id org email "hash" "Name" None "" true true true None None None "" "" deleted.
Definition config : DefaultAdminConfig := MkAdminConfig "admin@admin.com" "admin" "Admin".
(** A user whose membership of their organization was removed. *)
Definition removed_home : Accounts :=
  MkAccounts [MkOrg 1 "Acme" "acme" false] [] [] ∅ [person 5 1 "ana@acme.com" false] [MkMembership 6 5 1 None true true] [].
Theorem removed_member_blocks_startup_witness :
  is_ok (fst (migrate_accounts Some false config (World removed_home []))) = false.
Proof.
  apply (removed_member_blocks_startup Some false config removed_home [] (person 5 1 "ana@acme.com" false) (MkMembership 6 5 1 None true true));
    try reflexivity; [by left | by left |]. intros m' [-> | H]%elem_of_cons; [done | by apply not_elem_of_nil in H].
Defined.
Definition homeless : Accounts :=
  MkAccounts [MkOrg 1 "Acme" "acme" false] [] [] ∅ [person 5 1 "ana@acme.com" false] [] [6%N].
Theorem homes_are_given_witness :
  let d' := w_data (snd (MigrateUserOrganizations (World homeless []))) in
  (forall m, m ∈ ac_members homeless -> m ∈ ac_members d') /\
  forall u, u ∈ ac_users homeless -> us_Deleted u = false ->
  exists m, m ∈ ac_members d' /\ uo_UserID m = us_ID u /\ uo_OrganizationID m = us_OrganizationID u /\ uo_Deleted m = false.
Proof. apply (homes_are_given homeless [] _ []). vm_compute. reflexivity. Defined.
(** The administrator took another email. *)
Definition renamed_admin : Accounts :=
  MkAccounts [MkOrg 1 "Acme" "acme" false] [MkRole 10 1 "admin" "" true false false] seeded_permissions ∅
    [person 5 1 "ana@acme.com" false] [MkMembership 6 5 1 (Some 10%N) true false] [7%N; 8%N].
Theorem default_admin_created_witness :
  let d' := w_data (snd (CreateDefaultAdmin Some config (World renamed_admin []))) in
  (exists u, u ∈ ac_users renamed_admin /\ us_Deleted u = false /\ us_Email u = da_Email config) \/
  ((forall u, u ∈ ac_users renamed_admin -> us_Email u <> da_Email config) /\
   exists u, ac_users d' = ac_users renamed_admin ++ [u] /\ us_Email u = da_Email config /\ Some (da_Password config) = Some (us_PasswordHash u) /\
     us_IsSuperAdmin u = true /\ us_IsActive u = true /\ us_Deleted u = false).
Proof. apply (default_admin_created Some config renamed_admin [] _ []). vm_compute. reflexivity. Defined.
