(* ===== verification/Access.v ===== *)
(** What lets somebody in ([internal/models/models.go], [internal/middleware/middleware.go],
    [internal/handlers/sso.go]): API keys, identity providers, the claims of a token, and what
    the database and Redis keep of them. *)
From S2P Require Import Prelude Effects Sql Accounts.

(** * Tables and claims *)
Record APIKey := MkKey {
  ak_ID : uuid; ak_OrganizationID : uuid; ak_UserID : uuid; ak_Name : string; ak_KeyPrefix : string; ak_KeyHash : string;
  ak_ExpiresAt : option instant; ak_IsActive : bool; ak_Deleted : bool }.
Record SSOProvider := MkProvider {
  sp_ID : uuid; sp_OrganizationID : uuid; sp_Provider : string; sp_ClientID : string; sp_ClientSecret : string; sp_IsEnabled : bool;
  sp_AllowAutoCreate : bool; sp_DefaultRoleName : string; sp_AllowedDomains : string; sp_AuthURL : string; sp_TokenURL : string;
  sp_UserInfoURL : string; sp_Deleted : bool }.
Record Access := MkAccess { ax_keys : list APIKey; ax_providers : list SSOProvider }.
Definition set_keys f (x : Access) : Access := MkAccess (f (ax_keys x)) (ax_providers x).
Definition set_providers f (x : Access) : Access := MkAccess (ax_keys x) (f (ax_providers x)).

(** [jc_ID]: the JTI, none when empty. *)
Record JWTClaims := MkClaims {
  jc_UserID : uuid; jc_OrganizationID : uuid; jc_Email : string; jc_RoleID : option uuid; jc_IsSuperAdmin : bool;
  jc_ID : option uuid; jc_ExpiresAt : instant; jc_IssuedAt : instant; jc_Subject : string }.
Record SSOState := MkSSOState { so_OrgID : uuid; so_Provider : string; so_Nonce : string; so_ExpiresAt : instant }.
Record UserInfo := MkUserInfo { ui_ID : string; ui_Email : string; ui_Name : string }.

(** * Statements *)
Definition first_key (p : APIKey -> bool) (x : Access) : Res APIKey :=
  match sql_min (fun a b => (ak_ID a <=? ak_ID b)%N) (List.filter (fun k => p k && negb (ak_Deleted k)) (ax_keys x)) with
  | Some k => Ok k
  | None => Err ErrNotFound
  end.
Definition find_keys (p : APIKey -> bool) (x : Access) : Res (list APIKey) := Ok (List.filter (fun k => p k && negb (ak_Deleted k)) (ax_keys x)).
Definition first_provider (p : SSOProvider -> bool) (x : Access) : Res SSOProvider :=
  match sql_min (fun a b => (sp_ID a <=? sp_ID b)%N) (List.filter (fun k => p k && negb (sp_Deleted k)) (ax_providers x)) with
  | Some k => Ok k
  | None => Err ErrNotFound
  end.
Definition insert_key (k : APIKey) (x : Access) : Res unit * Access :=
  if existsb (fun q => N.eqb (ak_ID q) (ak_ID k)) (ax_keys x) then (Err ErrUnique, x) else (Ok tt, set_keys (fun l => l ++ [k]) x).
(** [Save] of a row read before: every column, over whatever the row has become. *)
Definition key_deleted b (k : APIKey) : APIKey :=
  MkKey (ak_ID k) (ak_OrganizationID k) (ak_UserID k) (ak_Name k) (ak_KeyPrefix k) (ak_KeyHash k) (ak_ExpiresAt k) (ak_IsActive k) b.
Definition save_key (k : APIKey) (x : Access) : Res unit * Access :=
  (Ok tt, set_keys (fun l => if existsb (fun q => N.eqb (ak_ID q) (ak_ID k)) l
                             then sql_update (fun q => N.eqb (ak_ID q) (ak_ID k)) (fun _ => key_deleted false k) l else l ++ [key_deleted false k]) x).
Definition delete_key (id org : uuid) (x : Access) : Res Z * Access :=
  let p k := N.eqb (ak_ID k) id && N.eqb (ak_OrganizationID k) org && negb (ak_Deleted k) in
  (Ok (sql_count p (ax_keys x)), set_keys (sql_update p (key_deleted true)) x).
(** [idx_sso_providers_org_provider] leaves no soft-deleted row out. *)
Definition same_provider (p q : SSOProvider) : bool := N.eqb (sp_OrganizationID q) (sp_OrganizationID p) && String.eqb (sp_Provider q) (sp_Provider p).
Definition save_provider (p : SSOProvider) (x : Access) : Res unit * Access :=
  if existsb (fun q => negb (N.eqb (sp_ID q) (sp_ID p)) && same_provider p q) (ax_providers x) then (Err ErrUnique, x)
  else (Ok tt, set_providers (fun l => if existsb (fun q => N.eqb (sp_ID q) (sp_ID p)) l
                                       then sql_update (fun q => N.eqb (sp_ID q) (sp_ID p)) (fun _ => p) l else l ++ [p]) x).
Definition purge_provider (org : uuid) (provider : string) (x : Access) : Res Z * Access :=
  let p q := N.eqb (sp_OrganizationID q) org && String.eqb (sp_Provider q) provider in
  (Ok (sql_count p (ax_providers x)), set_providers (List.filter (fun q => negb (p q))) x).
