(* ===== verification/AccountsApi.v ===== *)
(** The requests on roles, users and members ([internal/handlers/roles.go], [users.go],
    [organization.go], [org_placement.go], [helpers.go]) and who may make them ([requireAuth]
    of app.go, the permissions of cache.go). *)
From S2P Require Import Prelude Effects Sql GoText GoAny Permissions Accounts Migration Access.
From Stdlib Require Import Ascii.

(** * State and operations *)

(** A row of [units] or [departments]. *)
Record OrgUnit := MkUnit { un_ID : uuid; un_OrganizationID : uuid; un_Deleted : bool }.
(** What the cache keeps for a user in an organization; the key without an organization is
    the organization [nil_uuid]. *)
Record UserPermissions := MkUserPerms {
  up_RoleID : uuid; up_RoleName : string; up_IsSystem : bool; up_IsSuperAdmin : bool; up_Permissions : list string }.
Record State := MkState {
  st_acc : Accounts; st_units : list OrgUnit; st_departments : list OrgUnit;
  st_perms : gmap (uuid * uuid) UserPermissions; st_roleperms : gmap uuid (list string);
  st_access : Access; st_refresh : gset uuid; st_sso : gmap string SSOState }.
Definition with_acc (d : Accounts) (s : State) : State :=
  MkState d (st_units s) (st_departments s) (st_perms s) (st_roleperms s) (st_access s) (st_refresh s) (st_sso s).
Definition with_perms m (s : State) : State :=
  MkState (st_acc s) (st_units s) (st_departments s) m (st_roleperms s) (st_access s) (st_refresh s) (st_sso s).
Definition with_roleperms m (s : State) : State :=
  MkState (st_acc s) (st_units s) (st_departments s) (st_perms s) m (st_access s) (st_refresh s) (st_sso s).
Definition with_access x (s : State) : State :=
  MkState (st_acc s) (st_units s) (st_departments s) (st_perms s) (st_roleperms s) x (st_refresh s) (st_sso s).
Definition with_refresh r (s : State) : State :=
  MkState (st_acc s) (st_units s) (st_departments s) (st_perms s) (st_roleperms s) (st_access s) r (st_sso s).
Definition with_states m (s : State) : State :=
  MkState (st_acc s) (st_units s) (st_departments s) (st_perms s) (st_roleperms s) (st_access s) (st_refresh s) m.

Inductive event :=
  | EAudit (org actor : uuid) (resource : string) (id : uuid) (action : string)
  | EPermissionsUpdated (org user : uuid)
  | EAvailability (org user : uuid) (available : bool).

(** The operations: a statement that reads, one that writes, a transaction; the ids of new
    rows; bcrypt; the cache; what is told to others; the statements on keys and providers; the
    clock; random text; the signature of a token; the JTIs of refresh tokens and the states of
    sign-ons in Redis; what the identity provider says of the bearer of a code (the exchange or the question may fail), and GitHub of
    their addresses (address, primary, verified); the encryption of a secret. *)
Inductive acc_op : Type -> Type :=
  | AQuery {X} (f : State -> Res X) : acc_op (Res X)
  | AExec {X} (f : Accounts -> Res X * Accounts) : acc_op (Res X)
  | ATx {X} (body : AccDb (Res X)) : acc_op (Res X)
  | AID : acc_op uuid
  | AHash (password : string) : acc_op (option string)
  | ACacheGet (user org : uuid) : acc_op (option UserPermissions)
  | ACachePut (user org : uuid) (p : UserPermissions) : acc_op unit
  | ACacheDrop (user : uuid) : acc_op unit
  | ARoleCacheGet (role : uuid) : acc_op (option (list string))
  | ARoleCachePut (role : uuid) (p : list string) : acc_op unit
  | ARoleCacheDrop (role : uuid) : acc_op unit
  | AEmit (e : event) : acc_op unit
  | AAccess {X} (f : Access -> Res X * Access) : acc_op (Res X)
  | ANow : acc_op instant
  | ARandom : acc_op string
  | ASign (c : JWTClaims) : acc_op bool
  | ARefreshPut (jti : uuid) : acc_op unit
  | ARefreshDel (jti : uuid) : acc_op (Res Z)
  | AStatePut (nonce : string) (st : SSOState) : acc_op bool
  | AStateGet (nonce : string) : acc_op (option SSOState)
  | AStateDel (nonce : string) : acc_op unit
  | AExchange (p : SSOProvider) (code : string) : acc_op (option (option amap))
  | AGitHubEmails (code : string) : acc_op (option (list (string * bool * bool)))
  | ASeal (secret : string) : acc_op (option string).
Abbreviation Prog := (prog acc_op).

(** The database answers or fails, a failed write perhaps applied; the cache may forget at any
    time, lose a value it is given, and fail to delete one; so may Redis with the rest, and a
    deletion that reports an error may have been done. *)
Definition acc_sem X (op : acc_op X) : State -> X -> State -> Prop :=
  match op in acc_op X return State -> X -> State -> Prop with
  | AQuery f => fun s x s' => s' = s /\ (x = f s \/ x = Err ErrDb)
  | AExec f => fun s x s' => exists d, db_sem (exec f) (st_acc s) x d /\ s' = with_acc d s
  | ATx body => fun s x s' => exists d, db_sem (transaction body) (st_acc s) x d /\ s' = with_acc d s
  | AID => fun s _ s' => s' = s
  | AHash _ => fun s _ s' => s' = s
  | ACacheGet u o => fun s x s' => s' = s /\ (x = st_perms s !! (u, o) \/ x = None)
  | ACachePut u o p => fun s _ s' => s' = s \/ s' = with_perms (<[(u, o) := p]> (st_perms s)) s
  | ACacheDrop u => fun s _ s' => exists m, m ⊆ st_perms s /\ s' = with_perms m s
  | ARoleCacheGet r => fun s x s' => s' = s /\ (x = st_roleperms s !! r \/ x = None)
  | ARoleCachePut r p => fun s _ s' => s' = s \/ s' = with_roleperms (<[r := p]> (st_roleperms s)) s
  | ARoleCacheDrop r => fun s _ s' => exists m, m ⊆ st_roleperms s /\ s' = with_roleperms m s
  | AEmit _ => fun s _ s' => s' = s
  | AAccess f => fun s x s' => exists a, db_sem (exec f) (st_access s) x a /\ s' = with_access a s
  | ANow => fun s _ s' => s' = s
  | ARandom => fun s _ s' => s' = s
  | ASign _ => fun s _ s' => s' = s
  | ARefreshPut j => fun s _ s' => s' = s \/ s' = with_refresh ({[j]} ∪ st_refresh s) s
  | ARefreshDel j => fun s x s' =>
      (x = Ok (if decide (j ∈ st_refresh s) then 1 else 0) /\ s' = with_refresh (st_refresh s ∖ {[j]}) s) \/
      (x = Err ErrDb /\ (s' = s \/ s' = with_refresh (st_refresh s ∖ {[j]}) s))
  | AStatePut n st => fun s _ s' => s' = s \/ s' = with_states (<[n := st]> (st_sso s)) s
  | AStateGet n => fun s x s' => s' = s /\ (x = st_sso s !! n \/ x = None)
  | AStateDel n => fun s _ s' => s' = s \/ s' = with_states (delete n (st_sso s)) s
  | AExchange _ _ => fun s _ s' => s' = s
  | AGitHubEmails _ => fun s _ s' => s' = s
  | ASeal _ => fun s _ s' => s' = s
  end.

(** A run in which nothing fails and the cache keeps what it is given; an id nobody has. *)
Definition fresh_id (s : State) : uuid :=
  (1 + foldr N.max 0 (map us_ID (ac_users (st_acc s)) ++ map uo_ID (ac_members (st_acc s)) ++ map cr_ID (ac_roles (st_acc s)) ++ map og_ID (ac_orgs (st_acc s))))%N.
Section Handler.
(** Whom the provider says a code stands for. *)
Context (exchange : SSOProvider -> string -> option amap).
Definition acc_handle X (op : acc_op X) : State -> X * State :=
  match op in acc_op X return State -> X * State with
  | AQuery f => fun s => (f s, s)
  | AExec f => fun s => (fst (f (st_acc s)), with_acc (snd (f (st_acc s))) s)
  | ATx body => fun s => let '(x, w) := transaction body (World (st_acc s) []) in (x, with_acc (w_data w) s)
  | AID => fun s => (fresh_id s, s)
  | AHash p => fun s => (Some p, s)
  | ACacheGet u o => fun s => (st_perms s !! (u, o), s)
  | ACachePut u o p => fun s => (tt, with_perms (<[(u, o) := p]> (st_perms s)) s)
  | ACacheDrop u => fun s => (tt, with_perms (filter (fun kv => fst (fst kv) <> u) (st_perms s)) s)
  | ARoleCacheGet r => fun s => (st_roleperms s !! r, s)
  | ARoleCachePut r p => fun s => (tt, with_roleperms (<[r := p]> (st_roleperms s)) s)
  | ARoleCacheDrop r => fun s => (tt, with_roleperms (delete r (st_roleperms s)) s)
  | AEmit _ => fun s => (tt, s)
  | AAccess f => fun s => (fst (f (st_access s)), with_access (snd (f (st_access s))) s)
  | ANow => fun s => (0, s)
  | ARandom => fun s => ("random", s)
  | ASign _ => fun s => (true, s)
  | ARefreshPut j => fun s => (tt, with_refresh ({[j]} ∪ st_refresh s) s)
  | ARefreshDel j => fun s => (Ok (if decide (j ∈ st_refresh s) then 1 else 0), with_refresh (st_refresh s ∖ {[j]}) s)
  | AStatePut n st => fun s => (true, with_states (<[n := st]> (st_sso s)) s)
  | AStateGet n => fun s => (st_sso s !! n, s)
  | AStateDel n => fun s => (tt, with_states (delete n (st_sso s)) s)
  | AExchange p code => fun s => (Some (exchange p code), s)
  | AGitHubEmails _ => fun s => (None, s)
  | ASeal secret => fun s => (Some secret, s)
  end.
Lemma acc_handle_sem X (op : acc_op X) s : acc_sem X op s (fst (acc_handle X op s)) (snd (acc_handle X op s)).
Proof.
  destruct op; simpl; auto.
  - exists (snd (f (st_acc s))). split; [| done]. apply db_sem_exec. left. by destruct (f (st_acc s)).
  - destruct (transaction body (World (st_acc s) [])) as [x [d fs]] eqn:E. exists d. split; [by exists [], fs | done].
  - exists (filter (fun kv => fst (fst kv) <> user) (st_perms s)). split; [apply map_filter_subseteq | done].
  - eexists. split; [apply delete_subseteq | done].
  - exists (snd (f (st_access s))). split; [| done]. apply db_sem_exec. left. by destruct (f (st_access s)).
Qed.
End Handler.

Definition acc {X} (f : Accounts -> Res X) (s : State) : Res X := f (st_acc s).
Definition query_acc {X} (f : Accounts -> Res X) : Prog (Res X) := call (AQuery (acc f)).
Definition emit (e : event) : Prog unit := call (AEmit e).

(** What is answered: a status with a message, a session in cookies (its access and its refresh
    token), a token in the body, a redirection, a new API key. *)
Inductive reply :=
  | Reply (code : Z) (message : string)
  | Session (access refresh : JWTClaims)
  | Token (c : JWTClaims)
  | Redirect (to : string)
  | NewKey (key : string).
Definition Unauthorized : reply := Reply 401 "Unauthorized".
Definition InvalidBody : reply := Reply 400 "Invalid request body".

(** What the authentication left in the request: the user, the organization of the token, the
    flag of the token, and the parsed [X-Organization-ID]. *)
Record Ctx := MkCtx { cx_UserID : option uuid; cx_OrganizationID : option uuid; cx_IsSuperAdmin : bool; cx_Override : option uuid }.

(** * Permissions of a user *)
Definition role_by_id (id : uuid) : Accounts -> Res CustomRole := first_role (fun r => N.eqb (cr_ID r) id).
Definition role_in (id org : uuid) : Accounts -> Res CustomRole := first_role (fun r => N.eqb (cr_ID r) id && N.eqb (cr_OrganizationID r) org).
Definition is_member_row (user org : uuid) (m : UserOrganization) : bool := N.eqb (uo_UserID m) user && N.eqb (uo_OrganizationID m) org.
Definition membership_of (user org : uuid) : Accounts -> Res UserOrganization := first_member (is_member_row user org).
Definition user_by_id (id : uuid) : Accounts -> Res User := first_user (fun u => N.eqb (us_ID u) id).

(** [loadRolePermissions]: live permissions joined with the links. *)
Definition role_permissions (role : uuid) (d : Accounts) : list Permission :=
  List.filter (fun p => bool_decide ((role, pm_ID p) ∈ ac_links d) && negb (pm_Deleted p)) (ac_permissions d).
Definition loadRolePermissions (role : uuid) : Prog (Res (list Permission)) := query_acc (fun d => Ok (role_permissions role d)).

Definition getUserPermissionsCached (user org : uuid) : Prog (option UserPermissions) :=
  hit ← call (ACacheGet user org);
  match hit with
  | Some p => mret (Some p)
  | None =>
      u ← query_acc (user_by_id user);
      match u with
      | Err _ => mret None
      | Ok u =>
          role ← (if N.eqb org nil_uuid then mret (us_RoleID u)
                  else
                    m ← query_acc (membership_of user org);
                    mret match match m with Ok m => uo_RoleID m | Err _ => None end with
                         | None => if N.eqb org (us_OrganizationID u) then us_RoleID u else None
                         | Some r => Some r
                         end);
          match role with
          | None =>
              if negb (us_IsSuperAdmin u) then mret None
              else
                let p := MkUserPerms nil_uuid "" false true [] in
                _ ← call (ACachePut user org p); mret (Some p)
          | Some id =>
              r ← query_acc (role_by_id id);
              match r with
              | Err _ => mret None
              | Ok r =>
                  perms ← loadRolePermissions (cr_ID r);
                  match perms with
                  | Err _ => mret None
                  | Ok perms =>
                      let p := MkUserPerms (cr_ID r) (cr_Name r) (cr_IsSystem r) (us_IsSuperAdmin u) (map key_of perms) in
                      _ ← call (ACachePut user org p); mret (Some p)
                  end
              end
          end
      end
  end.
Definition HasPermission (user : uuid) (resource action : string) (org : uuid) : Prog bool :=
  p ← getUserPermissionsCached user org;
  mret match p with
       | None => false
       | Some p => up_IsSuperAdmin p || existsb (String.eqb (permission_key (resource, action))) (up_Permissions p)
       end.
Definition HasAnyPermission (user : uuid) (permissions : list string) : Prog bool :=
  p ← getUserPermissionsCached user nil_uuid;
  mret match p with
       | None => false
       | Some p => up_IsSuperAdmin p || existsb (fun k => existsb (String.eqb k) (up_Permissions p)) permissions
       end.
Definition IsSuperAdmin (user : uuid) : Prog bool :=
  p ← getUserPermissionsCached user nil_uuid;
  mret match p with None => false | Some p => up_IsSuperAdmin p end.
Definition GetRolePermissionsCached (role : uuid) : Prog (option (list string)) :=
  hit ← call (ARoleCacheGet role);
  match hit with
  | Some p => mret (Some p)
  | None =>
      r ← query_acc (role_by_id role);
      match r with
      | Err _ => mret None
      | Ok r =>
          perms ← loadRolePermissions (cr_ID r);
          match perms with
          | Err _ => mret None
          | Ok perms => _ ← call (ARoleCachePut role (map key_of perms)); mret (Some (map key_of perms))
          end
      end
  end.

(** ** Forgetting them *)
Definition notifyUserPermissionsChanged (user : uuid) : Prog unit :=
  u ← query_acc (user_by_id user);
  match u with Ok u => emit (EPermissionsUpdated (us_OrganizationID u) user) | Err _ => mret tt end.
Definition InvalidateUserPermissionsCache (user : uuid) : Prog unit :=
  _ ← call (ACacheDrop user); notifyUserPermissionsChanged user.
Fixpoint for_each {A} (f : A -> Prog unit) (l : list A) : Prog unit :=
  match l with [] => mret tt | x :: l' => _ ← f x; for_each f l' end.
Definition is_role (id : uuid) (o : option uuid) : bool := bool_decide (o = Some id).
Definition InvalidateRolePermissionsCache (role : uuid) : Prog unit :=
  _ ← call (ARoleCacheDrop role);
  users ← query_acc (fun d => Ok (map us_ID (List.filter (fun u => is_role role (us_RoleID u) && negb (us_Deleted u)) (ac_users d))));
  members ← query_acc (fun d => Ok (map uo_UserID (List.filter (fun m => is_role role (uo_RoleID m) && negb (uo_Deleted m)) (ac_members d))));
  for_each InvalidateUserPermissionsCache
    (remove_dups (match users with Ok l => l | Err _ => [] end ++ match members with Ok l => l | Err _ => [] end)).

(** * Who asks, and for which organization *)
Definition getOrgID (c : Ctx) : Prog (option uuid) :=
  match cx_OrganizationID c with
  | None => mret None
  | Some org =>
      let user := default nil_uuid (cx_UserID c) in
      match cx_Override c with
      | None => mret (Some org)
      | Some other =>
          if N.eqb other org then mret (Some org)
          else
            super ← IsSuperAdmin user;
            n ← query_acc (fun d => Ok (if (super : bool) then sql_count (fun o => N.eqb (og_ID o) other) (ac_orgs d)
                                        else sql_count (fun m => is_member_row user other m && negb (uo_Deleted m)) (ac_members d)));
            mret (Some (match n with Ok n => if 0 <? n then other else org | Err _ => org end))
      end
  end.
Definition getOrgAndUserID (c : Ctx) : Prog (option (uuid * uuid)) :=
  org ← getOrgID c; mret (o ← org; u ← cx_UserID c; Some (o, u)).
Definition requireAuth (c : Ctx) (resource action : string) : Prog ((uuid * uuid) + reply) :=
  who ← getOrgAndUserID c;
  match who with
  | None => mret (inr Unauthorized)
  | Some (org, user) =>
      ok ← HasPermission user resource action org;
      mret (if (ok : bool) then inl (org, user) else inr (Reply 403 "Insufficient permissions"))
  end.

(** * Roles *)
Record RoleRequest := MkRoleRequest { rr_Name : string; rr_Description : string; rr_IsDefault : bool; rr_Permissions : list string }.

(** The query of [getPermissionsByKeys], not issued when there is nothing to look for. *)
Definition permissions_by_keys (keys : list string) : Prog (Res (list Permission)) :=
  if bool_decide (keys = []) then mret (Ok [])
  else if bool_decide (key_conditions keys = []) then mret (Ok [])
  else query_acc (fun d => Ok (getPermissionsByKeys keys (ac_permissions d))).

Definition unset_defaults (p : CustomRole -> bool) (d : Accounts) : Res unit * Accounts :=
  (Ok tt, set_roles (sql_update (fun r => p r && cr_IsDefault r && negb (cr_Deleted r))
     (fun r => MkRole (cr_ID r) (cr_OrganizationID r) (cr_Name r) (cr_Description r) (cr_IsSystem r) false (cr_Deleted r))) d).
(** [Save] writes every column of the live row of this id; when there is none it inserts the
    row over whatever has the id. The permissions in memory are linked again. *)
Definition save_role (r : CustomRole) (perms : list Permission) (d : Accounts) : Res unit * Accounts :=
  if existsb (fun q => negb (N.eqb (cr_ID q) (cr_ID r)) && role_conflict r q) (ac_roles d) then (Err ErrUnique, d)
  else
    let row := MkRole (cr_ID r) (cr_OrganizationID r) (cr_Name r) (cr_Description r) (cr_IsSystem r) (cr_IsDefault r) false in
    let rows := if existsb (fun q => N.eqb (cr_ID q) (cr_ID r)) (ac_roles d)
                then sql_update (fun q => N.eqb (cr_ID q) (cr_ID r)) (fun _ => row) (ac_roles d) else ac_roles d ++ [row] in
    (Ok tt, set_links (fun s => role_links (cr_ID r) perms ∪ s) (set_roles (fun _ => rows) d)).

Definition CreateRole (c : Ctx) (body : option RoleRequest) : Prog reply :=
  who ← getOrgAndUserID c;
  match who with
  | None => mret Unauthorized
  | Some (org, user) =>
      match body with
      | None => mret InvalidBody
      | Some req =>
          if String.eqb (rr_Name req) "" then mret (Reply 400 "Name is required")
          else
            existing ← query_acc (first_role (fun r => N.eqb (cr_OrganizationID r) org && String.eqb (cr_Name r) (rr_Name req)));
            match existing with
            | Ok _ => mret (Reply 409 "Role with this name already exists")
            | Err _ =>
                perms ← permissions_by_keys (rr_Permissions req);
                match perms with
                | Err _ => mret (Reply 500 "Failed to create role")
                | Ok perms =>
                    id ← call AID;
                    let role := MkRole id org (rr_Name req) (rr_Description req) false (rr_IsDefault req) false in
                    r ← (if rr_IsDefault req then
                           call (ATx (_ ← (exec (unset_defaults (fun r => N.eqb (cr_OrganizationID r) org)) : AccDb (Res unit)); exec (insert_role role perms)))
                         else call (AExec (insert_role role perms)));
                    match r with
                    | Err _ => mret (Reply 500 "Failed to create role")
                    | Ok _ => _ ← emit (EAudit org user "role" id "created"); mret (Reply 200 "")
                    end
                end
            end
      end
  end.

(** The end of [UpdateRole]: the role as changed, saved, and everybody told. *)
Definition role_saved (org user : uuid) (role : uuid) (r : Res unit) : Prog reply :=
  match r with
  | Err _ => mret (Reply 500 "Failed to update role")
  | Ok _ => _ ← InvalidateRolePermissionsCache role; _ ← emit (EAudit org user "role" role "updated"); mret (Reply 200 "")
  end.
(** Replacing the permissions when the request names some. *)
Definition replace_requested (role : uuid) (keys : list string) (old : list Permission) : Prog (Res (list Permission)) :=
  perms ← permissions_by_keys keys;
  match perms with
  | Err e => mret (Err e)
  | Ok perms =>
      r ← call (AExec (add_links role perms));
      match r with
      | Err e => mret (Err e)
      | Ok _ => r ← call (AExec (drop_other_links role perms)); mret match r with Ok _ => Ok perms | Err e => Err e end
      end
  end.
Definition with_text (name desc : string) (r : CustomRole) : CustomRole :=
  MkRole (cr_ID r) (cr_OrganizationID r) (if String.eqb name "" then cr_Name r else name)
         (if String.eqb desc "" then cr_Description r else desc) (cr_IsSystem r) (cr_IsDefault r) (cr_Deleted r).
Definition with_default (b : bool) (r : CustomRole) : CustomRole :=
  MkRole (cr_ID r) (cr_OrganizationID r) (cr_Name r) (cr_Description r) (cr_IsSystem r) b (cr_Deleted r).

Definition update_system_role (c : Ctx) (org user : uuid) (role : CustomRole) (perms : list Permission) (req : RoleRequest) : Prog reply :=
  let role := with_text "" (rr_Description req) role in
  new ← (if cx_IsSuperAdmin c && negb (bool_decide (rr_Permissions req = [])) then replace_requested (cr_ID role) (rr_Permissions req) perms else mret (Ok perms));
  match new with
  | Err _ => mret (Reply 500 "Failed to update role")
  | Ok perms => r ← call (AExec (save_role role perms)); role_saved org user (cr_ID role) r
  end.
Definition update_custom_role (org user : uuid) (role : CustomRole) (perms : list Permission) (req : RoleRequest) : Prog reply :=
  taken ← (if String.eqb (rr_Name req) "" then mret false
           else existing ← query_acc (first_role (fun r => N.eqb (cr_OrganizationID r) org && String.eqb (cr_Name r) (rr_Name req) && negb (N.eqb (cr_ID r) (cr_ID role))));
                mret (is_ok existing));
  if (taken : bool) then mret (Reply 409 "Role with this name already exists")
  else
    let role := with_text (rr_Name req) (rr_Description req) role in
    new ← (if negb (bool_decide (rr_Permissions req = [])) then replace_requested (cr_ID role) (rr_Permissions req) perms else mret (Ok perms));
    match new with
    | Err _ => mret (Reply 500 "Failed to update role")
    | Ok perms =>
        r ← (if rr_IsDefault req && negb (cr_IsDefault role) then
               call (ATx (_ ← (exec (unset_defaults (fun r => N.eqb (cr_OrganizationID r) org && negb (N.eqb (cr_ID r) (cr_ID role)))) : AccDb (Res unit));
                          exec (save_role (with_default true role) perms)))
             else call (AExec (save_role (with_default (rr_IsDefault req) role) perms)));
        role_saved org user (cr_ID role) r
    end.
Definition UpdateRole (c : Ctx) (id : option uuid) (body : option RoleRequest) : Prog reply :=
  who ← getOrgAndUserID c;
  match who with
  | None => mret Unauthorized
  | Some (org, user) =>
      match id with
      | None => mret (Reply 400 "Invalid role ID")
      | Some id =>
          role ← query_acc (role_in id org);
          match role with
          | Err _ => mret (Reply 404 "Role not found")
          | Ok role =>
              perms ← loadRolePermissions (cr_ID role);
              match perms with
              | Err _ => mret (Reply 500 "Failed to update role")
              | Ok perms =>
                  match body with
                  | None => mret InvalidBody
                  | Some req => if cr_IsSystem role then update_system_role c org user role perms req else update_custom_role org user role perms req
                  end
              end
          end
      end
  end.

Definition delete_role (id : uuid) (d : Accounts) : Res unit * Accounts :=
  (Ok tt, set_roles (sql_update (fun r => N.eqb (cr_ID r) id && negb (cr_Deleted r))
     (fun r => MkRole (cr_ID r) (cr_OrganizationID r) (cr_Name r) (cr_Description r) (cr_IsSystem r) (cr_IsDefault r) true)) d).
Definition DeleteRole (c : Ctx) (id : option uuid) : Prog reply :=
  who ← getOrgAndUserID c;
  match who with
  | None => mret Unauthorized
  | Some (org, user) =>
      match id with
      | None => mret (Reply 400 "Invalid role ID")
      | Some id =>
          role ← query_acc (role_in id org);
          match role with
          | Err _ => mret (Reply 404 "Role not found")
          | Ok role =>
              if cr_IsSystem role then mret (Reply 400 "Cannot delete system roles")
              else
                n ← query_acc (fun d => Ok (sql_count (fun u => is_role id (us_RoleID u) && negb (us_Deleted u)) (ac_users d)));
                if 0 <? match n with Ok n => n | Err _ => 0 end then mret (Reply 400 "Cannot delete role with assigned users")
                else
                  _ ← loadRolePermissions (cr_ID role);
                  r ← call (AExec (delete_role id));
                  match r with
                  | Err _ => mret (Reply 500 "Failed to delete role")
                  | Ok _ => _ ← emit (EAudit org user "role" id "deleted"); mret (Reply 200 "")
                  end
          end
      end
  end.

(** * Users *)
Record UserRequest := MkUserRequest {
  uq_Email : string; uq_Password : string; uq_FullName : string; uq_RoleID : option uuid; uq_IsActive : option bool;
  uq_XProcessSellerCode : option string; uq_UnitID : option string; uq_DepartmentID : option string; uq_IsSuperAdmin : option bool }.
Record orgPlacement := MkPlacement { pl_UnitSet : bool; pl_DepartmentSet : bool; pl_UnitID : option uuid; pl_DepartmentID : option uuid }.

Definition set_user_columns org email hash name role active super code unit_id dept (u : User) : User :=
  MkUser (us_ID u) org email hash name role (us_LegacyRole u) active (us_IsAvailable u) super code unit_id dept (us_SSOProvider u) (us_SSOProviderID u) (us_Deleted u).
Definition with_email e (u : User) : User := set_user_columns (us_OrganizationID u) e (us_PasswordHash u) (us_FullName u) (us_RoleID u) (us_IsActive u) (us_IsSuperAdmin u) (us_XProcessSellerCode u) (us_UnitID u) (us_DepartmentID u) u.
Definition with_hash h (u : User) : User := set_user_columns (us_OrganizationID u) (us_Email u) h (us_FullName u) (us_RoleID u) (us_IsActive u) (us_IsSuperAdmin u) (us_XProcessSellerCode u) (us_UnitID u) (us_DepartmentID u) u.
Definition with_name n (u : User) : User := set_user_columns (us_OrganizationID u) (us_Email u) (us_PasswordHash u) n (us_RoleID u) (us_IsActive u) (us_IsSuperAdmin u) (us_XProcessSellerCode u) (us_UnitID u) (us_DepartmentID u) u.
Definition with_role_id r (u : User) : User := set_user_columns (us_OrganizationID u) (us_Email u) (us_PasswordHash u) (us_FullName u) r (us_IsActive u) (us_IsSuperAdmin u) (us_XProcessSellerCode u) (us_UnitID u) (us_DepartmentID u) u.
Definition with_active a (u : User) : User := set_user_columns (us_OrganizationID u) (us_Email u) (us_PasswordHash u) (us_FullName u) (us_RoleID u) a (us_IsSuperAdmin u) (us_XProcessSellerCode u) (us_UnitID u) (us_DepartmentID u) u.
Definition with_super b (u : User) : User := set_user_columns (us_OrganizationID u) (us_Email u) (us_PasswordHash u) (us_FullName u) (us_RoleID u) (us_IsActive u) b (us_XProcessSellerCode u) (us_UnitID u) (us_DepartmentID u) u.
Definition with_place code unit_id dept (u : User) : User := set_user_columns (us_OrganizationID u) (us_Email u) (us_PasswordHash u) (us_FullName u) (us_RoleID u) (us_IsActive u) (us_IsSuperAdmin u) code unit_id dept u.
Definition with_deleted b (u : User) : User :=
  MkUser (us_ID u) (us_OrganizationID u) (us_Email u) (us_PasswordHash u) (us_FullName u) (us_RoleID u) (us_LegacyRole u) (us_IsActive u) (us_IsAvailable u)
         (us_IsSuperAdmin u) (us_XProcessSellerCode u) (us_UnitID u) (us_DepartmentID u) (us_SSOProvider u) (us_SSOProviderID u) b.
Definition with_available a (u : User) : User :=
  MkUser (us_ID u) (us_OrganizationID u) (us_Email u) (us_PasswordHash u) (us_FullName u) (us_RoleID u) (us_LegacyRole u) (us_IsActive u) a
         (us_IsSuperAdmin u) (us_XProcessSellerCode u) (us_UnitID u) (us_DepartmentID u) (us_SSOProvider u) (us_SSOProviderID u) (us_Deleted u).
Definition with_sso provider id (u : User) : User :=
  MkUser (us_ID u) (us_OrganizationID u) (us_Email u) (us_PasswordHash u) (us_FullName u) (us_RoleID u) (us_LegacyRole u) (us_IsActive u) (us_IsAvailable u)
         (us_IsSuperAdmin u) (us_XProcessSellerCode u) (us_UnitID u) (us_DepartmentID u) provider id (us_Deleted u).

(** ** Statements *)

(** [Save], as for a role. *)
Definition save_user (u : User) (d : Accounts) : Res unit * Accounts :=
  if existsb (fun v => negb (N.eqb (us_ID v) (us_ID u)) && String.eqb (us_Email v) (us_Email u)) (ac_users d) then (Err ErrUnique, d)
  else
    let row := with_deleted false u in
    let rows := if existsb (fun v => N.eqb (us_ID v) (us_ID u)) (ac_users d)
                then sql_update (fun v => N.eqb (us_ID v) (us_ID u)) (fun _ => row) (ac_users d) else ac_users d ++ [row] in
    (Ok tt, set_users (fun _ => rows) d).
(** The soft-deleted user comes back in an organization. *)
Definition restore_user (id org : uuid) hash name role super unit_id dept (d : Accounts) : Res unit * Accounts :=
  (Ok tt, set_users (sql_update (fun v => N.eqb (us_ID v) id)
     (fun v => with_deleted false (set_user_columns org (us_Email v) hash name role true super (us_XProcessSellerCode v) unit_id dept v))) d).
Definition delete_user (id : uuid) (d : Accounts) : Res Z * Accounts :=
  let p u := N.eqb (us_ID u) id && negb (us_Deleted u) in
  (Ok (sql_count p (ac_users d)), set_users (sql_update p (with_deleted true)) d).

Definition member_columns role def del (m : UserOrganization) : UserOrganization :=
  MkMembership (uo_ID m) (uo_UserID m) (uo_OrganizationID m) role def del.
Definition revive_member (id : uuid) (role : option uuid) (def : option bool) (d : Accounts) : Res unit * Accounts :=
  (Ok tt, set_members (sql_update (fun m => N.eqb (uo_ID m) id) (fun m => member_columns role (default (uo_IsDefault m) def) false m)) d).
Definition delete_members (p : UserOrganization -> bool) (d : Accounts) : Res Z * Accounts :=
  let q m := p m && negb (uo_Deleted m) in
  (Ok (sql_count q (ac_members d)), set_members (sql_update q (fun m => member_columns (uo_RoleID m) (uo_IsDefault m) true m)) d).
Definition set_member_role (user org : uuid) (role : option uuid) (d : Accounts) : Res Z * Accounts :=
  let q m := is_member_row user org m && negb (uo_Deleted m) in
  (Ok (sql_count q (ac_members d)), set_members (sql_update q (fun m => member_columns role (uo_IsDefault m) (uo_Deleted m) m)) d).

(** A live user with a live membership of the organization. *)
Definition user_in (id org : uuid) (d : Accounts) : Res User :=
  if existsb (fun m => is_member_row id org m && negb (uo_Deleted m)) (ac_members d) then user_by_id id d else Err ErrNotFound.
(** [Preload("Role")]: the live role of an id. *)
Definition preload_role (id : option uuid) (d : Accounts) : option CustomRole :=
  match id with Some id => match role_by_id id d with Ok r => Some r | Err _ => None end | None => None end.

Section Requests.
(** [uuid.Parse], [mail.ParseAddress] (accepts or not), [bcrypt.CompareHashAndPassword], and
    the first eight characters of an id's text. *)
Context (parse_uuid : string -> option uuid) (valid_email : string -> bool) (password_matches : string -> string -> bool) (uuid_head : uuid -> string).

(** ** Placement *)
Definition parseOptionalUUID (raw : option string) : option (option uuid * bool) :=
  match raw with
  | None => Some (None, false)
  | Some s => if String.eqb s "" then Some (None, true) else match parse_uuid s with Some id => Some (Some id, false) | None => None end
  end.
Definition unit_exists (units : State -> list OrgUnit) (id org : uuid) (s : State) : Res unit :=
  if existsb (fun u => N.eqb (un_ID u) id && N.eqb (un_OrganizationID u) org && negb (un_Deleted u)) (units s) then Ok tt else Err ErrNotFound.
Definition check_unit (units : State -> list OrgUnit) (id : option uuid) (org : uuid) : Prog bool :=
  match id with None => mret true | Some id => r ← call (AQuery (unit_exists units id org)); mret (is_ok r) end.
Definition is_some {A} (o : option A) : bool := match o with Some _ => true | None => false end.
Definition parseOrgPlacement (org : uuid) (unit dept : option string) : Prog (orgPlacement + reply) :=
  match parseOptionalUUID unit, parseOptionalUUID dept with
  | None, _ => mret (inr (Reply 400 "Invalid unit_id"))
  | _, None => mret (inr (Reply 400 "Invalid department_id"))
  | Some (u, clear_u), Some (d, clear_d) =>
      ok ← check_unit st_units u org;
      if negb ok then mret (inr (Reply 404 "Unit not found"))
      else
        ok ← check_unit st_departments d org;
        if negb ok then mret (inr (Reply 404 "Department not found"))
        else mret (inl (MkPlacement (is_some u || clear_u) (is_some d || clear_d) u d))
  end.

(** ** CreateUser *)
Definition default_role (org : uuid) : Accounts -> Res CustomRole := first_role (fun r => N.eqb (cr_OrganizationID r) org && cr_IsDefault r).
(** The role of a new user: the one asked for, if it is the organization's, or its default. *)
Definition new_user_role (org : uuid) (asked : option uuid) : Prog (option uuid + reply) :=
  match asked with
  | Some id => r ← query_acc (role_in id org); mret match r with Ok _ => inl (Some id) | Err _ => inr (Reply 400 "Invalid role") end
  | None => r ← query_acc (default_role org); mret (inl match r with Ok r => Some (cr_ID r) | Err _ => None end)
  end.
Definition may_be_super (actor : uuid) (asked : option bool) : Prog (bool + reply) :=
  match asked with
  | Some true => ok ← IsSuperAdmin actor; mret (if (ok : bool) then inl true else inr (Reply 403 "Only super admins can create super admins"))
  | _ => mret (inl false)
  end.
Definition restore_deleted (org actor : uuid) (u : User) (req : UserRequest) hash (role : option uuid) (super : bool) (pl : orgPlacement) : Prog reply :=
  r ← call (AExec (restore_user (us_ID u) org hash (uq_FullName req) role super (pl_UnitID pl) (pl_DepartmentID pl)));
  match r with
  | Err _ => mret (Reply 500 "Failed to create user")
  | Ok _ =>
      m ← query_acc (first_member_unscoped (is_member_row (us_ID u) org));
      _ ← match m with
          | Ok m => call (AExec (revive_member (uo_ID m) role (Some true)))
          | Err _ => id ← call AID; call (AExec (insert_member (MkMembership id (us_ID u) org role true false)))
          end;
      _ ← emit (EAudit org actor "user" (us_ID u) "created");
      mret (Reply 200 "")
  end.
Definition create_fresh (org actor : uuid) (req : UserRequest) hash (role : option uuid) (super : bool) (pl : orgPlacement) : Prog reply :=
  id ← call AID;
  r ← call (AExec (insert_user (MkUser id org (uq_Email req) hash (uq_FullName req) role "" true true super None (pl_UnitID pl) (pl_DepartmentID pl) "" "" false)));
  match r with
  | Err _ => mret (Reply 500 "Failed to create user")
  | Ok _ =>
      mid ← call AID;
      _ ← call (AExec (insert_member (MkMembership mid id org role true false)));
      _ ← emit (EAudit org actor "user" id "created");
      mret (Reply 200 "")
  end.
Definition CreateUser (c : Ctx) (body : option UserRequest) : Prog reply :=
  who ← requireAuth c ResourceUsers ActionWrite;
  match who with
  | inr e => mret e
  | inl (org, actor) =>
      match body with
      | None => mret InvalidBody
      | Some req =>
          if String.eqb (uq_Email req) "" || String.eqb (uq_Password req) "" || String.eqb (uq_FullName req) ""
          then mret (Reply 400 "Email, password, and full_name are required")
          else if negb (valid_email (uq_Email req)) then mret (Reply 400 "Invalid email format")
          else
            pl ← parseOrgPlacement org (uq_UnitID req) (uq_DepartmentID req);
            match pl with
            | inr e => mret e
            | inl pl =>
                role ← new_user_role org (uq_RoleID req);
                match role with
                | inr e => mret e
                | inl role =>
                    existing ← query_acc (first_user (fun u => String.eqb (us_Email u) (uq_Email req)));
                    match existing with
                    | Ok _ => mret (Reply 409 "Email already exists")
                    | Err _ =>
                        hash ← call (AHash (uq_Password req));
                        match hash with
                        | None => mret (Reply 500 "Failed to create user")
                        | Some hash =>
                            super ← may_be_super actor (uq_IsSuperAdmin req);
                            match super with
                            | inr e => mret e
                            | inl super =>
                                gone ← query_acc (first_user_unscoped (fun u => String.eqb (us_Email u) (uq_Email req) && us_Deleted u));
                                match gone with
                                | Ok u => restore_deleted org actor u req hash role super pl
                                | Err _ => create_fresh org actor req hash role super pl
                                end
                            end
                        end
                    end
                end
            end
      end
  end.

(** ** UpdateUser *)
Definition update_member (org actor : uuid) (u : User) (req : UserRequest) : Prog reply :=
  match uq_RoleID req with
  | None => mret (Reply 400 "Only role can be updated for organization members")
  | Some role =>
      r ← query_acc (role_in role org);
      match r with
      | Err _ => mret (Reply 400 "Invalid role")
      | Ok _ =>
          r ← call (AExec (set_member_role (us_ID u) org (Some role)));
          match r with
          | Err _ => mret (Reply 500 "Failed to update member role")
          | Ok _ =>
              _ ← InvalidateUserPermissionsCache (us_ID u);
              _ ← emit (EAudit org actor "user" (us_ID u) "updated");
              mret (Reply 200 "")
          end
      end
  end.
(** The fields in turn; each step is the user as changed or the answer that stops. *)
Definition change_email (u : User) (req : UserRequest) : Prog (User + reply) :=
  if String.eqb (uq_Email req) "" then mret (inl u)
  else if negb (valid_email (uq_Email req)) then mret (inr (Reply 400 "Invalid email format"))
  else
    other ← query_acc (first_user (fun v => String.eqb (us_Email v) (uq_Email req) && negb (N.eqb (us_ID v) (us_ID u))));
    mret match other with Ok _ => inr (Reply 409 "Email already exists") | Err _ => inl (with_email (uq_Email req) u) end.
Definition change_password (u : User) (req : UserRequest) : Prog (User + reply) :=
  if String.eqb (uq_Password req) "" then mret (inl u)
  else
    hash ← call (AHash (uq_Password req));
    mret match hash with Some h => inl (with_hash h u) | None => inr (Reply 500 "Failed to update user") end.
Definition role_named (name : string) (r : option CustomRole) : bool := match r with Some r => String.eqb (cr_Name r) name | None => false end.
Definition change_role (org actor : uuid) (u : User) (current : option CustomRole) (req : UserRequest) : Prog ((User * bool) + reply) :=
  match uq_RoleID req with
  | None => mret (inl (u, false))
  | Some role =>
      r ← query_acc (role_in role org);
      mret match r with
           | Err _ => inr (Reply 400 "Invalid role")
           | Ok r =>
               if N.eqb actor (us_ID u) && role_named "admin" current && negb (String.eqb (cr_Name r) "admin") then inr (Reply 400 "Cannot demote yourself")
               else inl (with_role_id (Some role) u, negb (bool_decide (us_RoleID u = Some role)))
           end
  end.
Definition change_active (actor : uuid) (u : User) (req : UserRequest) : User + reply :=
  match uq_IsActive req with
  | None => inl u
  | Some a => if N.eqb actor (us_ID u) && negb a then inr (Reply 400 "Cannot deactivate yourself") else inl (with_active a u)
  end.
Definition change_place (org actor : uuid) (u : User) (req : UserRequest) : Prog (User + reply) :=
  let u := match uq_XProcessSellerCode req with None => u | code => with_place code (us_UnitID u) (us_DepartmentID u) u end in
  if is_some (uq_UnitID req) || is_some (uq_DepartmentID req) then
    ok ← HasPermission actor ResourceUsers ActionWrite org;
    if negb ok then mret (inr (Reply 403 "Insufficient permissions to change unit or department"))
    else
      pl ← parseOrgPlacement org (uq_UnitID req) (uq_DepartmentID req);
      mret match pl with
           | inr e => inr e
           | inl pl => inl (with_place (us_XProcessSellerCode u) (if pl_UnitSet pl then pl_UnitID pl else us_UnitID u)
                                       (if pl_DepartmentSet pl then pl_DepartmentID pl else us_DepartmentID u) u)
           end
  else mret (inl u).
Definition change_super (actor : uuid) (u : User) (req : UserRequest) : Prog (User + reply) :=
  match uq_IsSuperAdmin req with
  | None => mret (inl u)
  | Some b =>
      ok ← IsSuperAdmin actor;
      mret (if negb (ok : bool) then inr (Reply 403 "Only super admins can modify super admin status")
            else if N.eqb actor (us_ID u) && negb b && us_IsSuperAdmin u then inr (Reply 400 "Cannot remove your own super admin status")
            else inl (with_super b u))
  end.
Definition and_then {A B} (m : Prog (A + reply)) (k : A -> Prog (B + reply)) : Prog (B + reply) :=
  r ← m; match r with inl a => k a | inr e => mret (inr e) end.
Definition changed_user (org actor : uuid) (u : User) (current : option CustomRole) (req : UserRequest) : Prog ((User * bool) + reply) :=
  and_then (change_email u req) (fun u =>
  let u := if String.eqb (uq_FullName req) "" then u else with_name (uq_FullName req) u in
  and_then (change_password u req) (fun u =>
  and_then (change_role org actor u current req) (fun '(u, roleChanged) =>
  and_then (mret (change_active actor u req)) (fun u =>
  and_then (change_place org actor u req) (fun u =>
  and_then (change_super actor u req) (fun u => mret (inl (u, roleChanged)))))))).
Definition update_native (org actor : uuid) (u : User) (current : option CustomRole) (req : UserRequest) : Prog reply :=
  r ← changed_user org actor u current req;
  match r with
  | inr e => mret e
  | inl (u, roleChanged) =>
      r ← call (AExec (save_user u));
      match r with
      | Err _ => mret (Reply 500 "Failed to update user")
      | Ok _ =>
          _ ← (if (roleChanged : bool) then _ ← call (AExec (set_member_role (us_ID u) org (us_RoleID u))); InvalidateUserPermissionsCache (us_ID u) else mret tt);
          _ ← emit (EAudit org actor "user" (us_ID u) "updated");
          mret (Reply 200 "")
      end
  end.
Definition UpdateUser (c : Ctx) (id : option uuid) (body : option UserRequest) : Prog reply :=
  org ← getOrgID c;
  match org with
  | None => mret Unauthorized
  | Some org =>
      let actor := default nil_uuid (cx_UserID c) in
      match id with
      | None => mret (Reply 400 "Invalid user ID")
      | Some id =>
          ok ← (if N.eqb actor id then mret true else HasPermission actor ResourceUsers ActionWrite org);
          if negb ok then mret (Reply 403 "Insufficient permissions")
          else
            u ← query_acc (fun d => match user_in id org d with Ok u => Ok (u, preload_role (us_RoleID u) d) | Err e => Err e end);
            match u with
            | Err _ => mret (Reply 404 "User not found")
            | Ok (u, current) =>
                let isMember := negb (N.eqb (us_OrganizationID u) org) in
                _ ← (if isMember then _ ← query_acc (membership_of id org); mret tt else mret tt);
                match body with
                | None => mret InvalidBody
                | Some req =>
                    ok ← (if is_some (uq_RoleID req) then HasPermission actor ResourceUsers ActionWrite org else mret true);
                    if negb ok then mret (Reply 403 "Insufficient permissions to change roles")
                    else if isMember then update_member org actor u req else update_native org actor u current req
                end
            end
      end
  end.

(** ** DeleteUser *)
Definition removed (org actor id : uuid) : Prog reply :=
  _ ← emit (EAudit org actor "user" id "deleted"); mret (Reply 200 "Member removed from organization").
(** The membership of the user with its role, then the organization's administrator role and
    how many live memberships have it. *)
Definition is_last_admin (id org : uuid) : Prog bool :=
  m ← query_acc (fun d => match membership_of id org d with Ok m => Ok (preload_role (uo_RoleID m) d) | Err e => Err e end);
  if role_named "admin" (match m with Ok r => r | Err _ => None end) then
    admin ← query_acc (first_role (fun r => is_system_of org r && String.eqb (cr_Name r) "admin"));
    match admin with
    | Err _ => mret false
    | Ok admin =>
        n ← query_acc (fun d => Ok (sql_count (fun m => N.eqb (uo_OrganizationID m) org && is_role (cr_ID admin) (uo_RoleID m) && negb (uo_Deleted m)) (ac_members d)));
        mret (match n with Ok n => n | Err _ => 0 end <=? 1)
    end
  else mret false.
Definition DeleteUser (c : Ctx) (id : option uuid) : Prog reply :=
  org ← getOrgID c;
  match org with
  | None => mret Unauthorized
  | Some org =>
      let actor := default nil_uuid (cx_UserID c) in
      ok ← HasPermission actor ResourceUsers ActionDelete org;
      if negb ok then mret (Reply 403 "Insufficient permissions")
      else match id with
      | None => mret (Reply 400 "Invalid user ID")
      | Some id =>
          if N.eqb actor id then mret (Reply 400 "Cannot delete yourself")
          else
            u ← query_acc (user_in id org);
            match u with
            | Err _ => mret (Reply 404 "User not found")
            | Ok u =>
                if negb (N.eqb (us_OrganizationID u) org) then
                  r ← call (AExec (delete_members (is_member_row id org)));
                  match r with
                  | Err _ => mret (Reply 500 "Failed to remove member")
                  | Ok _ => _ ← InvalidateUserPermissionsCache id; removed org actor id
                  end
                else
                  last ← is_last_admin id org;
                  if (last : bool) then mret (Reply 400 "Cannot delete the last admin")
                  else
                    n ← call (AExec (delete_user id));
                    match n with
                    | Err _ => mret (Reply 500 "Failed to delete user")
                    | Ok n =>
                        if n =? 0 then mret (Reply 404 "User not found")
                        else
                          _ ← call (AExec (delete_members (fun m => N.eqb (uo_UserID m) id)));
                          _ ← emit (EAudit org actor "user" id "deleted");
                          mret (Reply 200 "User deleted successfully")
                    end
            end
      end
  end.

(** ** The user's own row: read, changed and saved whole *)
Definition ChangePassword (c : Ctx) (body : option (string * string)) : Prog reply :=
  match cx_UserID c with
  | None => mret Unauthorized
  | Some id =>
      u ← query_acc (user_by_id id);
      match u with
      | Err _ => mret (Reply 404 "User not found")
      | Ok u =>
          match body with
          | None => mret InvalidBody
          | Some (current, new) =>
              if String.eqb current "" || String.eqb new "" then mret (Reply 400 "Current password and new password are required")
              else if (String.length new <? 6)%nat then mret (Reply 400 "New password must be at least 6 characters")
              else if negb (password_matches (us_PasswordHash u) current) then mret (Reply 400 "Current password is incorrect")
              else
                hash ← call (AHash new);
                match hash with
                | None => mret (Reply 500 "Failed to change password")
                | Some h =>
                    r ← call (AExec (save_user (with_hash h u)));
                    mret (if is_ok r then Reply 200 "Password changed successfully" else Reply 500 "Failed to change password")
                end
          end
      end
  end.
(** The part of [UpdateAvailability] about the account; the logs, the presence record and the
    release of the attendances are told as one event. *)
Definition UpdateAvailability (c : Ctx) (body : option bool) : Prog reply :=
  who ← getOrgAndUserID c;
  match who with
  | None => mret Unauthorized
  | Some (org, id) =>
      u ← query_acc (user_by_id id);
      match u with
      | Err _ => mret (Reply 404 "User not found")
      | Ok u =>
          match body with
          | None => mret InvalidBody
          | Some a =>
              r ← call (AExec (save_user (with_available a u)));
              match r with
              | Err _ => mret (Reply 500 "Failed to update availability")
              | Ok _ => _ ← emit (EAvailability org id a); mret (Reply 200 "Availability updated successfully")
              end
          end
      end
  end.

(** * Members and organizations *)
Definition AddOrganizationMember (c : Ctx) (body : option (uuid * string * option uuid)) : Prog reply :=
  who ← requireAuth c ResourceOrganizations ActionAssign;
  match who with
  | inr e => mret e
  | inl (org, actor) =>
      match body with
      | None => mret InvalidBody
      | Some (user, email, asked) =>
          target ← (if negb (N.eqb user nil_uuid) then
                      u ← query_acc (user_by_id user); mret match u with Ok u => inl u | Err _ => inr (Reply 404 "User not found") end
                    else if negb (String.eqb email "") then
                      u ← query_acc (first_user (fun u => String.eqb (us_Email u) email)); mret match u with Ok u => inl u | Err _ => inr (Reply 404 "No user found with this email") end
                    else mret (inr (Reply 400 "user_id or email is required")));
          match target with
          | inr e => mret e
          | inl u =>
              existing ← query_acc (first_member_unscoped (is_member_row (us_ID u) org));
              if match existing with Ok m => negb (uo_Deleted m) | Err _ => false end then mret (Reply 409 "User is already a member of this organization")
              else
                role ← match asked with
                       | Some id => r ← query_acc (role_in id org); mret match r with Ok r => inl (cr_ID r) | Err _ => inr (Reply 400 "Invalid role") end
                       | None => r ← query_acc (default_role org);
                                 mret match r with Ok r => inl (cr_ID r) | Err _ => inr (Reply 400 "role_id is required: this organization has no default role") end
                       end;
                match role with
                | inr e => mret e
                | inl role =>
                    r ← match existing with
                        | Ok m => call (AExec (revive_member (uo_ID m) (Some role) None))
                        | Err _ => id ← call AID; call (AExec (insert_member (MkMembership id (us_ID u) org (Some role) false false)))
                        end;
                    match r with
                    | Err _ => mret (Reply 500 "Failed to add member")
                    | Ok _ =>
                        _ ← InvalidateUserPermissionsCache (us_ID u);
                        _ ← emit (EAudit org actor "organization_member" (us_ID u) "created");
                        mret (Reply 200 "Member added successfully")
                    end
                end
          end
      end
  end.
Definition RemoveOrganizationMember (c : Ctx) (id : option uuid) : Prog reply :=
  who ← requireAuth c ResourceOrganizations ActionAssign;
  match who with
  | inr e => mret e
  | inl (org, actor) =>
      match id with
      | None => mret (Reply 400 "Invalid member ID")
      | Some id =>
          if N.eqb id actor then mret (Reply 400 "Cannot remove yourself from the organization")
          else
            n ← call (AExec (delete_members (is_member_row id org)));
            match n with
            | Err _ => mret (Reply 500 "Failed to remove member")
            | Ok n =>
                if n =? 0 then mret (Reply 404 "Member not found in this organization")
                else
                  _ ← InvalidateUserPermissionsCache id;
                  _ ← emit (EAudit org actor "organization_member" id "deleted");
                  mret (Reply 200 "Member removed successfully")
            end
      end
  end.
Definition UpdateOrganizationMemberRole (c : Ctx) (id : option uuid) (body : option uuid) : Prog reply :=
  who ← requireAuth c ResourceOrganizations ActionAssign;
  match who with
  | inr e => mret e
  | inl (org, actor) =>
      match id, body with
      | None, _ => mret (Reply 400 "Invalid member ID")
      | _, None => mret InvalidBody
      | Some id, Some role =>
          if N.eqb role nil_uuid then mret (Reply 400 "role_id is required")
          else
            r ← query_acc (role_in role org);
            match r with
            | Err _ => mret (Reply 400 "Invalid role")
            | Ok _ =>
                _ ← query_acc (membership_of id org);
                n ← call (AExec (set_member_role id org (Some role)));
                match n with
                | Err _ => mret (Reply 500 "Failed to update member role")
                | Ok n =>
                    if n =? 0 then mret (Reply 404 "Member not found in this organization")
                    else
                      _ ← InvalidateUserPermissionsCache id;
                      _ ← emit (EAudit org actor "organization_member" id "updated");
                      mret (Reply 200 "Member role updated successfully")
                end
            end
      end
  end.

(** [generateSlug], byte by byte: other characters are left out. *)
Definition slug_char (c : ascii) : string :=
  let n := N_of_ascii c in
  if ((97 <=? n) && (n <=? 122) || (48 <=? n) && (n <=? 57))%N then String c ""
  else if ((65 <=? n) && (n <=? 90))%N then String (ascii_of_N (n + 32)) ""
  else if (Ascii.eqb c " " || Ascii.eqb c "-")%char then "-" else "".
Definition generateSlug (name : string) (id : uuid) : string := String.concat "" (map slug_char (String.list_ascii_of_string name)) +:+ "-" +:+ uuid_head id.

(** A statement on a table that is not of the accounts. *)
Definition elsewhere : AccDb (Res unit) := exec (fun d => (Ok tt, d)).
Definition default_widgets : list string :=
  ["Total Messages"; "Active Contacts"; "Chatbot Sessions"; "Total Campaigns"; "Recent Messages"; "Quick Actions"].
Definition create_org_tx (name slug : string) (id mid actor : uuid) : AccDb (Res unit) :=
  _ ←? exec (insert_org (MkOrg id name slug false));
  _ ←? SeedSystemRolesForOrg id;
  _ ←? elsewhere;
  admin ←? query (first_role (fun r => is_system_of id r && String.eqb (cr_Name r) "admin"));
  _ ←? exec (insert_member (MkMembership mid actor id (Some (cr_ID admin)) false false));
  try_each (fun _ => elsewhere) default_widgets.
Definition CreateOrganization (c : Ctx) (body : option string) : Prog reply :=
  who ← requireAuth c ResourceOrganizations ActionWrite;
  match who with
  | inr e => mret e
  | inl (_, actor) =>
      match body with
      | None => mret InvalidBody
      | Some name =>
          if String.eqb name "" then mret (Reply 400 "Organization name is required")
          else
            slug_id ← call AID; id ← call AID; mid ← call AID;
            r ← call (ATx (create_org_tx name (generateSlug name slug_id) id mid actor));
            match r with
            | Err _ => mret (Reply 500 "Failed to create organization")
            | Ok _ => _ ← emit (EAudit id actor "organization" id "created"); mret (Reply 200 "")
            end
      end
  end.

(** A request and who makes it. *)
Inductive account_request : Ctx -> Prog reply -> Prop :=
  | req_create_role c body : account_request c (CreateRole c body)
  | req_update_role c id body : account_request c (UpdateRole c id body)
  | req_delete_role c id : account_request c (DeleteRole c id)
  | req_create_user c body : account_request c (CreateUser c body)
  | req_update_user c id body : account_request c (UpdateUser c id body)
  | req_delete_user c id : account_request c (DeleteUser c id)
  | req_change_password c body : account_request c (ChangePassword c body)
  | req_update_availability c body : account_request c (UpdateAvailability c body)
  | req_add_member c body : account_request c (AddOrganizationMember c body)
  | req_remove_member c id : account_request c (RemoveOrganizationMember c id)
  | req_update_member_role c id body : account_request c (UpdateOrganizationMemberRole c id body)
  | req_create_org c body : account_request c (CreateOrganization c body).
End Requests.
