(* ===== verification/Sessions.v ===== *)
(** Signing in ([internal/handlers/auth.go]): what becomes of a password, a registration, a
    refresh token, a change of organization, and the tokens of WebSockets. *)
From S2P Require Import Prelude Effects Sql GoText GoAny Permissions Accounts Migration Access AccountsApi.
From Stdlib Require Import Ascii.

Section Sessions.
(** [bcrypt.CompareHashAndPassword]; the [jwt] section of the configuration. *)
Context (password_matches : string -> string -> bool) (AccessExpiryMins RefreshExpiryDays : Z).

(** * Tokens *)
Definition claims_of (u : User) (jti : option uuid) (expires issued : instant) : JWTClaims :=
  MkClaims (us_ID u) (us_OrganizationID u) (us_Email u) (us_RoleID u) (us_IsSuperAdmin u) jti expires issued "".
Definition generateAccessToken (u : User) : Prog (option JWTClaims) :=
  now ← call ANow; issued ← call ANow;
  let c := claims_of u None (now + wrap64 (AccessExpiryMins * minute)) issued in
  ok ← call (ASign c); mret (if (ok : bool) then Some c else None).
(** A JTI that Redis did not store is only logged. *)
Definition generateRefreshToken (u : User) : Prog (option JWTClaims) :=
  jti ← call AID; now ← call ANow; issued ← call ANow;
  let c := claims_of u (Some jti) (now + wrap64 (RefreshExpiryDays * 24 * hour)) issued in
  ok ← call (ASign c);
  if (ok : bool) then _ ← call (ARefreshPut jti); mret (Some c) else mret None.
Definition sign_in (u : User) (failed : reply) : Prog reply :=
  a ← generateAccessToken u;
  match a with
  | None => mret failed
  | Some a => r ← generateRefreshToken u; mret match r with Some r => Session a r | None => failed end
  end.
Definition NoToken : reply := Reply 500 "Failed to generate token".
Definition user_by_email (email : string) : Accounts -> Res User := first_user (fun u => String.eqb (us_Email u) email).
(** The user as a token of another organization describes them. *)
Definition in_org (org : uuid) (role : option uuid) (u : User) : User :=
  set_user_columns org (us_Email u) (us_PasswordHash u) (us_FullName u) role (us_IsActive u) (us_IsSuperAdmin u) (us_XProcessSellerCode u) (us_UnitID u) (us_DepartmentID u) u.

(** * Login *)
Definition Login (body : option (string * string)) : Prog reply :=
  match body with
  | None => mret InvalidBody
  | Some (email, password) =>
      u ← query_acc (user_by_email email);
      match u with
      | Err _ => mret (Reply 401 "Invalid credentials")
      | Ok u =>
          role ← query_acc (fun d => Ok (preload_role (us_RoleID u) d));
          match role with
          | Err _ => mret (Reply 401 "Invalid credentials")
          | Ok role =>
              _ ← match role, us_RoleID u with Some _, Some id => GetRolePermissionsCached id | _, _ => mret None end;
              if negb (us_IsActive u) then mret (Reply 401 "Account is disabled")
              else if negb (password_matches (us_PasswordHash u) password) then mret (Reply 401 "Invalid credentials")
              else sign_in u NoToken
          end
      end
  end.

(** * Register *)
Definition org_exists (org : uuid) : Accounts -> Res Organization := first_org (fun o => N.eqb (og_ID o) org).
Definition system_role_named (org : uuid) (name : string) : Accounts -> Res CustomRole :=
  first_role (fun r => N.eqb (cr_OrganizationID r) org && String.eqb (cr_Name r) name && cr_IsSystem r).
Definition new_member_role (org : uuid) : Prog (Res CustomRole) :=
  r ← query_acc (default_role org);
  match r with Ok r => mret (Ok r) | Err _ => query_acc (system_role_named org "agent") end.
Definition live_memberships (user org : uuid) (d : Accounts) : Res Z :=
  Ok (sql_count (fun m => is_member_row user org m && negb (uo_Deleted m)) (ac_members d)).
Definition join_existing (u : User) (org role : uuid) (password : string) : Prog reply :=
  if negb (password_matches (us_PasswordHash u) password) then
    mret (Reply 409 "An account with this email already exists. Please sign in and ask your organization admin to add you.")
  else if negb (us_IsActive u) then mret (Reply 401 "Account is disabled")
  else
    n ← query_acc (live_memberships (us_ID u) org);
    if 0 <? match n with Ok n => n | Err _ => 0 end then mret (Reply 409 "You are already a member of this organization")
    else
      id ← call AID;
      r ← call (AExec (insert_member (MkMembership id (us_ID u) org (Some role) false false)));
      match r with
      | Err _ => mret (Reply 500 "Failed to join organization")
      | Ok _ => sign_in (in_org org (Some role) u) NoToken
      end.
Definition register_tx (u : User) (mid : uuid) : AccDb (Res unit) :=
  _ ←? exec (insert_user u); exec (insert_member (MkMembership mid (us_ID u) (us_OrganizationID u) (us_RoleID u) true false)).
Definition register_new (email password name : string) (org role : uuid) : Prog reply :=
  hash ← call (AHash password);
  match hash with
  | None => mret (Reply 500 "Failed to create account")
  | Some hash =>
      id ← call AID; mid ← call AID;
      let u := MkUser id org email hash name (Some role) "" true true false None None None "" "" false in
      r ← call (ATx (register_tx u mid));
      match r with Err _ => mret (Reply 500 "Failed to create account") | Ok _ => sign_in u NoToken end
  end.
Definition Register (body : option (string * string * string * uuid)) : Prog reply :=
  match body with
  | None => mret InvalidBody
  | Some (email, password, name, org) =>
      if N.eqb org nil_uuid then mret (Reply 400 "organization_id is required")
      else
        o ← query_acc (org_exists org);
        match o with
        | Err _ => mret (Reply 404 "Organization not found")
        | Ok _ =>
            role ← new_member_role org;
            match role with
            | Err _ => mret (Reply 500 "Failed to find default role")
            | Ok role =>
                existing ← query_acc (user_by_email email);
                match existing with
                | Ok u => join_existing u org (cr_ID role) password
                | Err _ => register_new email password name org (cr_ID role)
                end
            end
        end
  end.

(** * Refresh, switch, log out

    [presented]: the token of the request, if any, as [jwt.ParseWithClaims] reads it; [None]
    inside when it is not valid. *)
Definition count_org (org : uuid) (d : Accounts) : Res Z := Ok (sql_count (fun o => N.eqb (og_ID o) org) (ac_orgs d)).
(** The organization the session was switched into, while the user may still be there. *)
Definition carried_org (c : JWTClaims) (u : User) : Prog User :=
  if negb (N.eqb (jc_OrganizationID c) nil_uuid) && negb (N.eqb (jc_OrganizationID c) (us_OrganizationID u)) then
    if us_IsSuperAdmin u then
      n ← query_acc (count_org (jc_OrganizationID c));
      mret (if 0 <? match n with Ok n => n | Err _ => 0 end then in_org (jc_OrganizationID c) (us_RoleID u) u else u)
    else
      m ← query_acc (membership_of (us_ID u) (jc_OrganizationID c));
      mret match m with Ok m => in_org (jc_OrganizationID c) (uo_RoleID m) u | Err _ => u end
  else mret u.
Definition refresh_user (c : JWTClaims) : Prog reply :=
  u ← query_acc (user_by_id (jc_UserID c));
  match u with
  | Err _ => mret (Reply 401 "User not found")
  | Ok u =>
      if negb (us_IsActive u) then mret (Reply 401 "Account is disabled")
      else u' ← carried_org c u; sign_in u' NoToken
  end.
Definition RefreshToken (presented : option (option JWTClaims)) : Prog reply :=
  match presented with
  | None => mret (Reply 401 "Missing refresh token")
  | Some None => mret (Reply 401 "Invalid refresh token")
  | Some (Some c) =>
      match jc_ID c with
      | None => refresh_user c
      | Some jti =>
          n ← call (ARefreshDel jti);
          if (match n with Ok n => n | Err _ => 0 end) =? 0 then mret (Reply 401 "Refresh token has been revoked") else refresh_user c
      end
  end.
Definition SwitchOrg (c : Ctx) (body : option uuid) : Prog reply :=
  match cx_UserID c with
  | None => mret Unauthorized
  | Some id =>
      match body with
      | None => mret InvalidBody
      | Some org =>
          if N.eqb org nil_uuid then mret (Reply 400 "organization_id is required")
          else
            o ← query_acc (org_exists org);
            match o with
            | Err _ => mret (Reply 404 "Organization not found")
            | Ok _ =>
                u ← query_acc (user_by_id id);
                match u with
                | Err _ => mret (Reply 404 "User not found")
                | Ok u =>
                    role ← (if us_IsSuperAdmin u then mret (Ok (us_RoleID u))
                            else m ← query_acc (membership_of id org); mret match m with Ok m => Ok (uo_RoleID m) | Err e => Err e end : Prog (Res (option uuid)));
                    match role with
                    | Err _ => mret (Reply 403 "You are not a member of this organization")
                    | Ok role =>
                        _ ← match role with
                            | None => mret None
                            | Some r => found ← query_acc (role_by_id r); if is_ok found then GetRolePermissionsCached r else mret None
                            end;
                        sign_in (in_org org role u) NoToken
                    end
                end
            end
      end
  end.
(** The claims of whatever is presented, valid or not. *)
Definition Logout (claims : option JWTClaims) : Prog reply :=
  _ ← match claims with
      | Some c => match jc_ID c with Some jti => _ ← call (ARefreshDel jti); mret tt | None => mret tt end
      | None => mret tt
      end;
  mret (Reply 200 "logged_out").
Definition GetWSToken (c : Ctx) : Prog reply :=
  match cx_UserID c with
  | None => mret Unauthorized
  | Some user =>
      org ← getOrgID c;
      match org with
      | None => mret Unauthorized
      | Some org =>
          now ← call ANow; issued ← call ANow;
          let t := MkClaims user org "" None false None (now + 30 * second) issued "ws" in
          ok ← call (ASign t); mret (if (ok : bool) then Token t else NoToken)
      end
  end.
End Sessions.
