(* ===== verification/SignOn.v ===== *)
(** Single sign-on ([internal/handlers/sso.go]): the providers an organization configures, the
    redirection to one, and what its answer lets in. *)
From S2P Require Import Prelude Effects Sql GoText GoAny Permissions Accounts Migration Access AccountsApi Sessions.
From Stdlib Require Import Ascii.

Section SignOn.
(** [fmt.Sprint], [strings.ToLower], [url.QueryEscape], the address the identity provider is
    asked at; the configuration of the tokens and the base path. *)
Context (sprint : any -> string) (to_lower query_escape : string -> string) (auth_address : SSOProvider -> string -> string).
Context (AccessExpiryMins RefreshExpiryDays : Z) (BasePath : string).

(** * Addresses *)
(** [path = "/" + path[2:]] while the byte after the slash is a slash or a backslash. *)
Fixpoint drop_slashes (rest : string) : string :=
  match rest with
  | String c rest' => if Ascii.eqb c "/" || (byte_val c =? 92) then drop_slashes rest' else rest
  | EmptyString => ""
  end.
Definition sanitizeRedirectPath (path : string) : string :=
  match path with
  | EmptyString => ""
  | String c rest => "/" +:+ drop_slashes (if Ascii.eqb c "/" then rest else path)
  end.
Definition redirectWithError (message : string) : reply := Redirect (sanitizeRedirectPath BasePath +:+ "/login?sso_error=" +:+ query_escape message).

(** * What a provider says of somebody *)
Definition first_verified (emails : list (string * bool * bool)) : option string :=
  match List.find (fun e => snd (fst e) && snd e) emails with
  | Some e => Some (fst (fst e))
  | None => option_map (fun e => fst (fst e)) (List.find (fun e => snd e) emails)
  end.
Definition fetchGitHubEmail (code : string) : Prog (option string) :=
  l ← call (AGitHubEmails code); mret (l ≫= first_verified).
Definition getString (m : amap) (key : string) : string := any_str (map_get key m).
Definition or_else (a b : string) : string := if String.eqb a "" then b else a.
Definition read_user_info (provider : string) (raw : amap) : UserInfo :=
  if String.eqb provider "microsoft" then
    MkUserInfo (getString raw "id") (or_else (getString raw "mail") (getString raw "userPrincipalName")) (getString raw "displayName")
  else if String.eqb provider "github" then
    MkUserInfo (sprint (map_get "id" raw)) (getString raw "email") (or_else (getString raw "name") (getString raw "login"))
  else if String.eqb provider "google" || String.eqb provider "facebook" then
    MkUserInfo (getString raw "id") (getString raw "email") (getString raw "name")
  else
    MkUserInfo (or_else (getString raw "sub") (getString raw "id")) (getString raw "email") (or_else (getString raw "name") (getString raw "preferred_username")).
(** The end of [fetchUserInfo]: an address is required. *)
Definition fetchUserInfo (provider : string) (raw : option amap) (code : string) : Prog (option UserInfo) :=
  match raw with
  | None => mret None
  | Some raw =>
      let i := read_user_info provider raw in
      email ← (if String.eqb provider "github" && String.eqb (ui_Email i) "" then e ← fetchGitHubEmail code; mret (default "" e) else mret (ui_Email i));
      mret (if String.eqb email "" then None else Some (MkUserInfo (ui_ID i) email (ui_Name i)))
  end.

(** [strings.Split] on one byte. *)
Fixpoint split_on (c : ascii) (s : string) : list string :=
  match s with
  | EmptyString => [""]
  | String x s' => if Ascii.eqb x c then "" :: split_on c s'
                   else match split_on c s' with w :: ws => String x w :: ws | [] => [String x ""] end
  end.
(** The check against [AllowedDomains]: the message that refuses, if it does. *)
Definition domain_refused (allowed email : string) : option string :=
  if String.eqb allowed "" then None
  else match split_on "@" email with
       | [_; host] =>
           let host := to_lower (trim_space host) in
           if existsb (fun d => String.eqb (to_lower (trim_space d)) host) (split_on "," allowed) then None
           else Some "Email domain not allowed for this organization"
       | _ => Some "Invalid email from provider"
       end.

(** * The flow *)
Definition oauth_names : list string := ["google"; "microsoft"; "github"; "facebook"].
Definition provider_query (p : SSOProvider -> bool) : Prog (Res SSOProvider) := call (AQuery (fun s => first_provider p (st_access s))).
Definition provider_of (org : uuid) (provider : string) (q : SSOProvider) : bool := N.eqb (sp_OrganizationID q) org && String.eqb (sp_Provider q) provider.
Definition InitSSO (provider : string) : Prog reply :=
  if negb (String.eqb provider "custom" || existsb (String.eqb provider) oauth_names) then mret (Reply 400 "Invalid SSO provider")
  else
    cfg ← provider_query (fun q => String.eqb (sp_Provider q) provider && sp_IsEnabled q);
    match cfg with
    | Err _ => mret (Reply 404 "SSO provider not configured or disabled")
    | Ok cfg =>
        nonce ← call ARandom; now ← call ANow;
        ok ← call (AStatePut nonce (MkSSOState (sp_OrganizationID cfg) provider nonce (now + 5 * minute)));
        mret (if (ok : bool) then Redirect (auth_address cfg nonce) else Reply 500 "Failed to initiate SSO")
    end.

Definition role_called (org : uuid) (name : string) : Accounts -> Res CustomRole :=
  first_role (fun r => N.eqb (cr_OrganizationID r) org && String.eqb (cr_Name r) name).
Definition sso_signed (u : User) : Prog reply :=
  sign_in AccessExpiryMins RefreshExpiryDays u (redirectWithError "Failed to complete authentication").
Definition create_sso_user (cfg : SSOProvider) (org : uuid) (provider : string) (i : UserInfo) : Prog reply :=
  if negb (sp_AllowAutoCreate cfg) then mret (redirectWithError "User not found. Contact your administrator.")
  else
    role ← query_acc (role_called org (or_else (sp_DefaultRoleName cfg) "agent"));
    match role with
    | Err _ => mret (redirectWithError "Failed to create user account: role not found")
    | Ok role =>
        id ← call AID;
        let u := MkUser id org (ui_Email i) "" (ui_Name i) (Some (cr_ID role)) "" true true false None None None provider (ui_ID i) false in
        r ← call (AExec (insert_user u));
        match r with
        | Err _ => mret (redirectWithError "Failed to create user account")
        | Ok _ =>
            mid ← call AID;
            _ ← call (AExec (insert_member (MkMembership mid id org (Some (cr_ID role)) true false)));
            sso_signed u
        end
    end.
Definition welcome_back (u : User) (provider : string) (i : UserInfo) : Prog reply :=
  let linked := if String.eqb (us_SSOProvider u) "" then with_sso provider (ui_ID i) u else u in
  _ ← (if String.eqb (us_SSOProvider u) "" then _ ← call (AExec (save_user linked)); mret tt else mret tt);
  if negb (us_IsActive linked) then mret (redirectWithError "Account is disabled") else sso_signed linked.
Definition callback_with (st : SSOState) (provider code : string) : Prog reply :=
  let org := so_OrgID st in
  cfg ← provider_query (provider_of org provider);
  match cfg with
  | Err _ => mret (redirectWithError "SSO provider not configured")
  | Ok cfg =>
      raw ← call (AExchange cfg code);
      match raw with
      | None => mret (redirectWithError "Failed to authenticate with provider")
      | Some raw =>
          i ← fetchUserInfo provider raw code;
          match i with
          | None => mret (redirectWithError "Failed to get user information")
          | Some i =>
              match domain_refused (sp_AllowedDomains cfg) (ui_Email i) with
              | Some m => mret (redirectWithError m)
              | None =>
                  u ← query_acc (user_by_email (ui_Email i));
                  match u with Ok u => welcome_back u provider i | Err _ => create_sso_user cfg org provider i end
              end
          end
      end
  end.
Definition CallbackSSO (provider code nonce error description : string) : Prog reply :=
  if negb (String.eqb error "") then mret (redirectWithError ("SSO failed: " +:+ description))
  else if String.eqb code "" || String.eqb nonce "" then mret (redirectWithError "Invalid callback parameters")
  else
    st ← call (AStateGet nonce);
    match st with
    | None => mret (redirectWithError "Invalid or expired state")
    | Some st =>
        _ ← call (AStateDel nonce); now ← call ANow;
        if negb (String.eqb (so_Provider st) provider) || (so_ExpiresAt st <? now) then mret (redirectWithError "Invalid or expired state")
        else callback_with st provider code
    end.

(** * Configuring a provider *)
Record SSOProviderRequest := MkSSORequest {
  sr_ClientID : string; sr_ClientSecret : string; sr_IsEnabled : bool; sr_AllowAutoCreate : bool; sr_DefaultRole : string;
  sr_AllowedDomains : string; sr_AuthURL : string; sr_TokenURL : string; sr_UserInfoURL : string }.
Definition valid_providers : list string := ["google"; "microsoft"; "github"; "facebook"; "custom"].
Definition filled (id org : uuid) (provider secret : string) (req : SSOProviderRequest) : SSOProvider :=
  MkProvider id org provider (sr_ClientID req) secret (sr_IsEnabled req) (sr_AllowAutoCreate req) (or_else (sr_DefaultRole req) "agent")
             (sr_AllowedDomains req) (sr_AuthURL req) (sr_TokenURL req) (sr_UserInfoURL req) false.
Definition UpdateSSOProvider (c : Ctx) (provider : string) (body : option SSOProviderRequest) : Prog reply :=
  org ← getOrgID c;
  match org with
  | None => mret Unauthorized
  | Some org =>
      if negb (existsb (String.eqb provider) valid_providers) then mret (Reply 400 "Invalid provider")
      else match body with
      | None => mret InvalidBody
      | Some req =>
          if String.eqb provider "custom" && (String.eqb (sr_AuthURL req) "" || String.eqb (sr_TokenURL req) "" || String.eqb (sr_UserInfoURL req) "")
          then mret (Reply 400 "Custom provider requires auth_url, token_url, and user_info_url")
          else
            old ← provider_query (provider_of org provider);
            new ← call AID;
            let kept := match old with Ok p => sp_ClientSecret p | Err _ => "" end in
            secret ← (if String.eqb (sr_ClientSecret req) "" then mret (Some kept) else call (ASeal (sr_ClientSecret req)));
            match secret with
            | None => mret (Reply 500 "Failed to save SSO configuration")
            | Some secret =>
                r ← call (AAccess (save_provider (filled (match old with Ok p => sp_ID p | Err _ => new end) org provider secret req)));
                mret (if is_ok r then Reply 200 "" else Reply 500 "Failed to save SSO settings")
            end
      end
  end.
Definition DeleteSSOProvider (c : Ctx) (provider : string) : Prog reply :=
  org ← getOrgID c;
  match org with
  | None => mret Unauthorized
  | Some org =>
      n ← call (AAccess (purge_provider org provider));
      mret match n with
           | Err _ => Reply 500 "Failed to delete SSO provider"
           | Ok n => if n =? 0 then Reply 404 "SSO provider not found" else Reply 200 "SSO provider deleted"
           end
  end.
End SignOn.
