(* ===== verification/Gate.v ===== *)
(** The gate of the API ([internal/middleware], [cmd/whatomate/main.go],
    [internal/handlers/cookies.go], [apikeys.go]): cookies, the CSRF check, tokens and API keys,
    and the public routes. *)
From S2P Require Import Prelude Effects Sql GoText GoAny Permissions Accounts Migration Access AccountsApi Sessions SignOn.
From Stdlib Require Import Ascii.

(** * Requests *)

(** The parts of a request the gate reads; an absent header or cookie is empty.
    [rq_Organization]: the id in [X-Organization-ID], when it parses. *)
Record HttpRequest := MkHttp {
  rq_Method : string; rq_Path : string; rq_Authorization : string; rq_APIKey : string; rq_AccessCookie : string; rq_CSRFCookie : string;
  rq_CSRFHeader : string; rq_Organization : option uuid }.
Definition empty (s : string) : bool := String.eqb s "".

(** * CSRF *)
Definition mutating (method : string) : bool := existsb (String.eqb method) ["POST"; "PUT"; "DELETE"; "PATCH"].
(** The request goes on, or is answered. *)
Definition CSRFProtection (r : HttpRequest) : option reply :=
  if negb (mutating (rq_Method r)) then None
  else if negb (empty (rq_Authorization r)) || negb (empty (rq_APIKey r)) then None
  else if empty (rq_AccessCookie r) then None
  else if empty (rq_CSRFCookie r) || empty (rq_CSRFHeader r) || negb (String.eqb (rq_CSRFCookie r) (rq_CSRFHeader r))
       then Some (Reply 403 "CSRF token mismatch") else None.

Section Gate.
(** [bcrypt.CompareHashAndPassword]; a token's claims at a moment, when its signature, its
    algorithm and its times are right. *)
Context (password_matches : string -> string -> bool) (parse_token : string -> instant -> option JWTClaims).

(** * Who it is *)
Definition context_of (c : JWTClaims) (r : HttpRequest) : Ctx := MkCtx (Some (jc_UserID c)) (Some (jc_OrganizationID c)) (jc_IsSuperAdmin c) (rq_Organization r).
Definition keys_like (long short : string) : Access -> Res (list APIKey) :=
  find_keys (fun k => (String.eqb (ak_KeyPrefix k) long || String.eqb (ak_KeyPrefix k) short) && ak_IsActive k).
(** The keys in turn; each comes with its live user. *)
Fixpoint try_keys (key : string) (l : list (APIKey * option User)) : Prog (option (APIKey * User)) :=
  match l with
  | [] => mret None
  | (k, u) :: l' =>
      if password_matches (ak_KeyHash k) key then
        expired ← match ak_ExpiresAt k with None => mret false | Some t => now ← call ANow; mret (t <? now) end;
        if (expired : bool) then mret None
        else match u with Some u => mret (Some (k, u)) | None => try_keys key l' end
      else try_keys key l'
  end.
Definition key_users (s : State) (l : list APIKey) : list (APIKey * option User) :=
  map (fun k => (k, match user_by_id (ak_UserID k) (st_acc s) with Ok u => Some u | Err _ => None end)) l.
Definition validateAPIKey (r : HttpRequest) (key : string) : Prog (option Ctx) :=
  if negb (String.length key =? 36)%nat || negb (String.eqb (str_take 4 key) "whm_") then mret None
  else
    l ← call (AQuery (fun s => match keys_like (str_take 16 (str_drop 4 key)) (str_take 8 (str_drop 4 key)) (st_access s) with Ok l => Ok (key_users s l) | Err e => Err e end));
    match l with
    | Err _ => mret None
    | Ok l => found ← try_keys key l;
              mret match found with
                   | None => None
                   | Some (k, u) => Some (MkCtx (Some (ak_UserID k)) (Some (ak_OrganizationID k)) (us_IsSuperAdmin u) (rq_Organization r))
                   end
    end.
Definition by_token (r : HttpRequest) (t : string) : Prog (Ctx + reply) :=
  if empty t then mret (inr (Reply 401 "Missing authorization"))
  else now ← call ANow; mret match parse_token t now with Some c => inl (context_of c r) | None => inr (Reply 401 "Invalid or expired token") end.
Definition AuthWithDB (r : HttpRequest) : Prog (Ctx + reply) :=
  if negb (empty (rq_APIKey r)) then
    c ← validateAPIKey r (rq_APIKey r); mret match c with Some c => inl c | None => inr (Reply 401 "Invalid API key") end
  else
    if empty (rq_Authorization r) then by_token r (rq_AccessCookie r)
    else match split_on " " (rq_Authorization r) with
         | [scheme; t] => if String.eqb scheme "Bearer" then by_token r t else mret (inr (Reply 401 "Invalid authorization header format"))
         | _ => mret (inr (Reply 401 "Invalid authorization header format"))
         end.

(** * The gate *)
Definition public_paths : list string :=
  ["/health"; "/ready"; "/api/auth/login"; "/api/auth/register"; "/api/auth/refresh"; "/api/auth/logout"; "/api/webhook"; "/ws"; "/api/branding"].
Definition public_reads : list string := ["/api/branding/login-background"; "/api/branding/logo"].
Definition unauthenticated (method path : string) : bool :=
  String.eqb method "OPTIONS" || existsb (String.eqb path) public_paths ||
  (existsb (String.eqb path) public_reads && String.eqb method "GET") ||
  has_prefix "/api/auth/sso" path || has_prefix "/api/custom-actions/redirect" path ||
  negb ((4 <? String.length path)%nat && has_prefix "/api" path).
(** Whether a request goes on to its handler, and as whom. *)
Inductive passage :=
  | Stopped (r : reply)
  | Anonymous
  | Known (c : Ctx).
Definition gate (r : HttpRequest) : Prog passage :=
  match CSRFProtection r with
  | Some e => mret (Stopped e)
  | None =>
      if unauthenticated (rq_Method r) (rq_Path r) then mret Anonymous
      else c ← AuthWithDB r; mret match c with inl c => Known c | inr e => Stopped e end
  end.

(** * API keys *)
Section Keys.
(** [time.Parse(time.RFC3339, ...)] and the hexadecimal text of sixteen random bytes. *)
Context (parse_time : string -> option instant).
Definition key_in (id org : uuid) : Access -> Res APIKey := first_key (fun k => N.eqb (ak_ID k) id && N.eqb (ak_OrganizationID k) org).
Definition with_key_active b (k : APIKey) : APIKey :=
  MkKey (ak_ID k) (ak_OrganizationID k) (ak_UserID k) (ak_Name k) (ak_KeyPrefix k) (ak_KeyHash k) (ak_ExpiresAt k) b (ak_Deleted k).
Definition generateAPIKey : Prog string := hex ← call ARandom; mret ("whm_" +:+ hex).
Definition CreateAPIKey (c : Ctx) (body : option (string * option string)) : Prog reply :=
  who ← requireAuth c ResourceAPIKeys ActionWrite;
  match who with
  | inr e => mret e
  | inl (org, user) =>
      match body with
      | None => mret InvalidBody
      | Some (name, expires) =>
          if empty name then mret (Reply 400 "Name is required")
          else
            let expiry := match expires with None => Some None | Some t => if empty t then Some None else option_map Some (parse_time t) end in
            match expiry with
            | None => mret (Reply 400 "Invalid expires_at format. Use RFC3339 format")
            | Some expiry =>
                key ← generateAPIKey;
                hash ← call (AHash key);
                match hash with
                | None => mret (Reply 500 "Failed to create API key")
                | Some hash =>
                    id ← call AID;
                    r ← call (AAccess (insert_key (MkKey id org user name (str_take 16 (str_drop 4 key)) hash expiry true false)));
                    mret (if is_ok r then NewKey key else Reply 500 "Failed to create API key")
                end
            end
      end
  end.
Definition UpdateAPIKey (c : Ctx) (id : option uuid) (body : option (option bool)) : Prog reply :=
  who ← requireAuth c ResourceAPIKeys ActionWrite;
  match who with
  | inr e => mret e
  | inl (org, _) =>
      match id with
      | None => mret (Reply 400 "Invalid API key ID")
      | Some id =>
          k ← call (AQuery (fun s => key_in id org (st_access s)));
          match k with
          | Err _ => mret (Reply 404 "API key not found")
          | Ok k =>
              match body with
              | None => mret InvalidBody
              | Some active =>
                  r ← call (AAccess (save_key (match active with Some b => with_key_active b k | None => k end)));
                  mret (if is_ok r then Reply 200 "" else Reply 500 "Failed to update API key")
              end
          end
      end
  end.
Definition DeleteAPIKey (c : Ctx) (id : option uuid) : Prog reply :=
  who ← requireAuth c ResourceAPIKeys ActionDelete;
  match who with
  | inr e => mret e
  | inl (org, _) =>
      match id with
      | None => mret (Reply 400 "Invalid API key ID")
      | Some id =>
          n ← call (AAccess (delete_key id org));
          mret match n with
               | Err _ => Reply 500 "Failed to delete API key"
               | Ok n => if n =? 0 then Reply 404 "API key not found" else Reply 200 "API key deleted successfully"
               end
      end
  end.
End Keys.

(** * Cookies *)
Record Cookie := MkCookie { ck_Name : string; ck_Value : string; ck_HTTPOnly : bool; ck_Secure : bool; ck_Path : string; ck_MaxAge : Z; ck_Domain : string }.
Section Cookies.
Context (secure : bool) (domain BasePath : string) (AccessExpiryMins RefreshExpiryDays : Z).
Definition cookieAccessName : string := "whm_access".
Definition cookieRefreshName : string := "whm_refresh".
Definition cookieCSRFName : string := "whm_csrf".
Definition setAuthCookies (access refresh csrf : string) : list Cookie :=
  [MkCookie cookieAccessName access true secure (BasePath +:+ "/api") (wrap64 (AccessExpiryMins * 60)) domain;
   MkCookie cookieRefreshName refresh true secure (BasePath +:+ "/api/auth/refresh") (wrap64 (RefreshExpiryDays * 86400)) domain;
   MkCookie cookieCSRFName csrf false secure (BasePath +:+ "/") (wrap64 (RefreshExpiryDays * 86400)) domain].
Definition cookie_path (name : string) : string :=
  if String.eqb name cookieAccessName then BasePath +:+ "/api"
  else if String.eqb name cookieRefreshName then BasePath +:+ "/api/auth/refresh" else BasePath +:+ "/".
Definition clearAuthCookies : list Cookie :=
  map (fun name => MkCookie name "" (negb (String.eqb name cookieCSRFName)) secure (cookie_path name) (-1) domain) [cookieAccessName; cookieRefreshName; cookieCSRFName].
End Cookies.
End Gate.

(** * The requests of this file, [Sessions] and [SignOn] *)
Section Requests.
Context (password_matches : string -> string -> bool) (sprint : any -> string) (to_lower query_escape : string -> string)
  (auth_address : SSOProvider -> string -> string) (parse_time : string -> option instant) (AccessExpiryMins RefreshExpiryDays : Z) (BasePath : string).
Inductive session_request : Prog reply -> Prop :=
  | req_login body : session_request (Login password_matches AccessExpiryMins RefreshExpiryDays body)
  | req_register body : session_request (Register password_matches AccessExpiryMins RefreshExpiryDays body)
  | req_refresh t : session_request (RefreshToken AccessExpiryMins RefreshExpiryDays t)
  | req_switch c body : session_request (SwitchOrg AccessExpiryMins RefreshExpiryDays c body)
  | req_logout t : session_request (Logout t)
  | req_ws c : session_request (GetWSToken c)
  | req_init provider : session_request (InitSSO auth_address provider)
  | req_callback provider code nonce error description :
      session_request (CallbackSSO sprint to_lower query_escape AccessExpiryMins RefreshExpiryDays BasePath provider code nonce error description)
  | req_configure c provider body : session_request (UpdateSSOProvider c provider body)
  | req_unconfigure c provider : session_request (DeleteSSOProvider c provider)
  | req_create_key c body : session_request (CreateAPIKey parse_time c body)
  | req_update_key c id body : session_request (UpdateAPIKey c id body)
  | req_delete_key c id : session_request (DeleteAPIKey c id).
End Requests.
