(* ===== verification/Tenancy.v ===== *)
(** Organizations stay apart ([internal/handlers/roles.go], [users.go], [organization.go]): under
    any interleaving of the requests on accounts, every user and every membership has a role of
    their own organization. *)
From S2P Require Import Prelude Effects Sql GoText GoAny Permissions Accounts Migration Access AccountsApi Sessions SignOn Gate.

(** * The invariant *)
Definition role_of (d : Accounts) (id org : uuid) : Prop := exists r, r ∈ ac_roles d /\ cr_ID r = id /\ cr_OrganizationID r = org.
Definition row_of (d : Accounts) (id org : uuid) : Prop := exists m, m ∈ ac_members d /\ uo_ID m = id /\ uo_OrganizationID m = org.
Definition home (d : Accounts) (org : uuid) (role : option uuid) : Prop := forall id, role = Some id -> role_of d id org.
Record tenancy (d : Accounts) : Prop := MkTenancy {
  tn_roles : NoDup (map cr_ID (ac_roles d));
  tn_rows : NoDup (map uo_ID (ac_members d));
  tn_users : forall u, u ∈ ac_users d -> home d (us_OrganizationID u) (us_RoleID u);
  tn_members : forall m, m ∈ ac_members d -> home d (uo_OrganizationID m) (uo_RoleID m) }.
(** Roles and memberships do not change organization. *)
Record keeps_rows (d d' : Accounts) : Prop := MkKeeps {
  kr_roles : forall id org, role_of d id org -> role_of d' id org;
  kr_members : forall id org, row_of d id org -> row_of d' id org }.
#[global] Instance keeps_rows_preorder : PreOrder keeps_rows.
Proof. split; [by split |]. intros d1 d2 d3 [H1 H2] [H3 H4]. split; auto. Qed.
Definition moves (d d' : Accounts) : Prop := keeps_rows d d' /\ tenancy d'.

Lemma home_later d d' org role : keeps_rows d d' -> home d org role -> home d' org role.
Proof. intros Hk H id E. by apply (kr_roles _ _ Hk), H. Qed.
Lemma home_some d org id : role_of d id org -> home d org (Some id).
Proof. by intros H ? [= <-]. Qed.
Lemma role_org d r id org : tenancy d -> r ∈ ac_roles d -> cr_ID r = id -> role_of d id org -> cr_OrganizationID r = org.
Proof. intros Ht Hr <- (r' & Hr' & E & <-). by rewrite (NoDup_map_inj cr_ID (ac_roles d) r r'); [| apply Ht | | |]. Qed.
Lemma row_org d m id org : tenancy d -> m ∈ ac_members d -> uo_ID m = id -> row_of d id org -> uo_OrganizationID m = org.
Proof. intros Ht Hm <- (m' & Hm' & E & <-). by rewrite (NoDup_map_inj uo_ID (ac_members d) m m'); [| apply Ht | | |]. Qed.

(** ** Statements that change one table *)
Lemma roles_moves d f :
  tenancy d -> NoDup (map cr_ID (f (ac_roles d))) ->
  (forall r, r ∈ ac_roles d -> exists r', r' ∈ f (ac_roles d) /\ cr_ID r' = cr_ID r /\ cr_OrganizationID r' = cr_OrganizationID r) ->
  moves d (set_roles f d).
Proof.
  intros Ht Hnd Hf. assert (Hk : keeps_rows d (set_roles f d)).
  { split; [| done]. intros id org (r & Hr & <- & <-). by apply Hf. }
  split; [done |]. destruct Ht. split; try done; intros x Hx; eapply home_later; eauto.
Qed.
Lemma users_moves d f :
  tenancy d -> (forall u, u ∈ f (ac_users d) -> home d (us_OrganizationID u) (us_RoleID u)) -> moves d (set_users f d).
Proof. intros [H1 H2 H3 H4] Hf. split; [by split |]. split; [exact H1 | exact H2 | exact Hf | exact H4]. Qed.
Lemma members_moves d f :
  tenancy d -> NoDup (map uo_ID (f (ac_members d))) ->
  (forall m, m ∈ ac_members d -> exists m', m' ∈ f (ac_members d) /\ uo_ID m' = uo_ID m /\ uo_OrganizationID m' = uo_OrganizationID m) ->
  (forall m, m ∈ f (ac_members d) -> home d (uo_OrganizationID m) (uo_RoleID m)) -> moves d (set_members f d).
Proof.
  intros [H1 H2 H3 H4] Hnd Hf Hh. split; [split; [done |] |].
  - intros id org (m & Hm & <- & <-). by apply Hf.
  - split; [exact H1 | exact Hnd | exact H3 | exact Hh].
Qed.
Lemma links_moves d f : tenancy d -> moves d (set_links f d).
Proof. intros [H1 H2 H3 H4]. split; [by split |]. split; [exact H1 | exact H2 | exact H3 | exact H4]. Qed.
Lemma same_moves d : tenancy d -> moves d d.
Proof. by split. Qed.

Lemma map_update {A B} (k : A -> B) p f (l : list A) : (forall x, k (f x) = k x) -> map k (sql_update p f l) = map k l.
Proof. intros H. unfold sql_update. rewrite map_map. apply map_ext. intros x. by destruct (p x). Qed.
Lemma update_keeps {A} (P : A -> A -> Prop) p f (l : list A) : (forall x, P x x) -> (forall x, P (f x) x) -> forall x, x ∈ l -> exists y, y ∈ sql_update p f l /\ P y x.
Proof.
  intros H1 H2 x Hx. exists (if p x then f x else x). split; [apply list_elem_of_fmap; by exists x | by destruct (p x)].
Qed.
Lemma update_roles_moves d p f :
  tenancy d -> (forall r, cr_ID (f r) = cr_ID r /\ cr_OrganizationID (f r) = cr_OrganizationID r) -> moves d (set_roles (sql_update p f) d).
Proof.
  intros Ht Hf. apply roles_moves; [done | rewrite map_update; [apply Ht | intros r; apply Hf] |].
  by apply (update_keeps (fun y x => cr_ID y = cr_ID x /\ cr_OrganizationID y = cr_OrganizationID x)).
Qed.
Lemma update_members_moves d p f :
  tenancy d -> (forall m, uo_ID (f m) = uo_ID m /\ uo_OrganizationID (f m) = uo_OrganizationID m) ->
  (forall m, m ∈ ac_members d -> p m = true -> home d (uo_OrganizationID m) (uo_RoleID (f m))) -> moves d (set_members (sql_update p f) d).
Proof.
  intros Ht Hf Hh. apply members_moves; [done | rewrite map_update; [apply Ht | intros r; apply Hf] | |].
  - by apply (update_keeps (fun y x => uo_ID y = uo_ID x /\ uo_OrganizationID y = uo_OrganizationID x)).
  - intros m (m0 & Hm0 & ->)%sql_update_in. destruct (p m0) eqn:E; [| by apply Ht]. destruct (Hf m0) as [_ ->]. by apply Hh.
Qed.

Lemma NoDup_snoc {A} (l : list A) x : NoDup l -> x ∉ l -> NoDup (l ++ [x]).
Proof. intros Hl Hx. apply NoDup_app. split_and!; [done | | by apply NoDup_singleton]. intros y Hy ->%list_elem_of_singleton. done. Qed.
Lemma insert_role_moves d r perms : tenancy d -> moves d (snd (insert_role r perms d)).
Proof.
  intros Ht. unfold insert_role. destruct (existsb _ _) eqn:Ex; [by apply same_moves |]. cbn [snd].
  assert (Hr : moves d (set_roles (fun l => l ++ [r]) d)).
  { apply roles_moves; [done | | intros q Hq; exists q; set_solver]. rewrite map_app. apply NoDup_snoc; [apply Ht |].
    intros (q & E & Hq)%list_elem_of_fmap. apply not_true_iff_false in Ex. apply Ex, existsb_exists. exists q. rewrite <- list_elem_of_In. split; [done |].
    apply orb_true_iff. right. by apply N.eqb_eq. }
  destruct Hr as [Hk Ht']. destruct (links_moves _ (fun s => list_to_set (map (fun p => (cr_ID r, pm_ID p)) perms) ∪ s) Ht') as [Hk2 Ht2].
  split; [by etrans | done].
Qed.
Lemma save_role_moves d r perms : tenancy d -> role_of d (cr_ID r) (cr_OrganizationID r) -> moves d (snd (save_role r perms d)).
Proof.
  intros Ht Hr. unfold save_role. destruct (existsb _ _) eqn:Ex; [by apply same_moves |]. cbn [snd].
  assert (Hin : existsb (fun q => N.eqb (cr_ID q) (cr_ID r)) (ac_roles d) = true).
  { apply existsb_exists. destruct Hr as (q & Hq & E & _). exists q. rewrite <- list_elem_of_In. split; [done | by apply N.eqb_eq]. }
  rewrite Hin. set (row := MkRole _ _ _ _ _ _ _).
  assert (Hm : moves d (set_roles (fun _ => sql_update (fun q => N.eqb (cr_ID q) (cr_ID r)) (fun _ => row) (ac_roles d)) d)).
  { apply (roles_moves d (fun _ => _)); [done | |].
    - replace (map cr_ID (sql_update (fun q => N.eqb (cr_ID q) (cr_ID r)) (fun _ => row) (ac_roles d))) with (map cr_ID (ac_roles d)); [apply Ht |].
      unfold sql_update. rewrite map_map. apply map_ext. intros q. destruct (N.eqb_spec (cr_ID q) (cr_ID r)); by simpl.
    - intros q Hq. exists (if N.eqb (cr_ID q) (cr_ID r) then row else q). split; [apply list_elem_of_fmap; by exists q |].
      destruct (N.eqb_spec (cr_ID q) (cr_ID r)) as [E |]; [| done]. split; [done |]. simpl. symmetry. by eapply role_org. }
  destruct Hm as [Hk Ht']. destruct (links_moves _ (fun s => role_links (cr_ID r) perms ∪ s) Ht') as [Hk2 Ht2]. split; [by etrans | done].
Qed.
Lemma insert_user_moves d u : tenancy d -> home d (us_OrganizationID u) (us_RoleID u) -> moves d (snd (insert_user u d)).
Proof.
  intros Ht Hu. unfold insert_user. destruct (existsb _ _); [by apply same_moves |]. apply users_moves; [done |].
  intros v [Hv | ->%list_elem_of_singleton]%elem_of_app; [by apply Ht | done].
Qed.
Lemma save_user_moves d u : tenancy d -> home d (us_OrganizationID u) (us_RoleID u) -> moves d (snd (save_user u d)).
Proof.
  intros Ht Hu. unfold save_user. destruct (existsb _ _); [by apply same_moves |]. apply users_moves; [done |].
  destruct (existsb _ _); intros v.
  - intros (v0 & Hv0 & ->)%sql_update_in. destruct (N.eqb _ _); [done | by apply Ht].
  - intros [Hv | ->%list_elem_of_singleton]%elem_of_app; [by apply Ht | done].
Qed.
Lemma update_users_moves d p f :
  tenancy d -> (forall u, u ∈ ac_users d -> p u = true -> home d (us_OrganizationID (f u)) (us_RoleID (f u))) -> moves d (set_users (sql_update p f) d).
Proof. intros Ht Hf. apply users_moves; [done |]. intros u (v & Hv & ->)%sql_update_in. destruct (p v) eqn:E; [by apply Hf | by apply Ht]. Qed.
Lemma insert_member_moves d m : tenancy d -> home d (uo_OrganizationID m) (uo_RoleID m) -> moves d (snd (insert_member m d)).
Proof.
  intros Ht Hm. unfold insert_member. destruct (existsb _ _) eqn:Ex; [by apply same_moves |]. apply members_moves; [done | | intros q Hq; exists q; set_solver |].
  - rewrite map_app. apply NoDup_snoc; [apply Ht |]. intros (q & E & Hq)%list_elem_of_fmap. apply not_true_iff_false in Ex. apply Ex, existsb_exists.
    exists q. rewrite <- list_elem_of_In. split; [done |]. apply orb_true_iff. right. by apply N.eqb_eq.
  - intros q [Hq | ->%list_elem_of_singleton]%elem_of_app; [by apply Ht | done].
Qed.
Lemma revive_member_moves d id org role def : tenancy d -> row_of d id org -> home d org role -> moves d (snd (revive_member id role def d)).
Proof.
  intros Ht Hr Hh. apply update_members_moves; [done | done |]. intros m Hm E%N.eqb_eq. by rewrite (row_org d m id org).
Qed.
Lemma delete_members_moves d p : tenancy d -> moves d (snd (delete_members p d)).
Proof. intros Ht. apply update_members_moves; [done | done |]. intros m Hm _. exact (tn_members _ Ht m Hm). Qed.
Lemma set_member_role_moves d user org role : tenancy d -> home d org role -> moves d (snd (set_member_role user org role d)).
Proof.
  intros Ht Hh. apply update_members_moves; [done | done |]. intros m Hm [[_ E%N.eqb_eq]%andb_true_iff _]%andb_true_iff. by rewrite E.
Qed.
Lemma delete_user_moves d id : tenancy d -> moves d (snd (delete_user id d)).
Proof. intros Ht. apply update_users_moves; [done |]. intros u Hu _. exact (tn_users _ Ht u Hu). Qed.
Lemma restore_user_moves d id org hash name role super un dept : tenancy d -> home d org role -> moves d (snd (restore_user id org hash name role super un dept d)).
Proof. intros Ht Hh. by apply update_users_moves. Qed.
Lemma insert_org_moves d o : tenancy d -> moves d (snd (insert_org o d)).
Proof.
  intros [H1 H2 H3 H4]. unfold insert_org. destruct (existsb _ _); [by split |]. split; [by split |].
  split; [exact H1 | exact H2 | exact H3 | exact H4].
Qed.

(** * Programs

    The invariant on the whole state: the accounts, and that what the cache holds for a user in
    an organization comes from a role of that organization. *)
Definition later_rows (s s' : State) : Prop := keeps_rows (st_acc s) (st_acc s').
Definition cached_home (s : State) : Prop :=
  forall user org p, org <> nil_uuid -> st_perms s !! (user, org) = Some p -> up_RoleID p = nil_uuid \/ role_of (st_acc s) (up_RoleID p) org.
Definition apart_orgs (s : State) : Prop := tenancy (st_acc s) /\ cached_home s.
#[global] Instance later_rows_preorder : PreOrder later_rows.
Proof. unfold later_rows. split; [intros s; reflexivity |]. intros s1 s2 s3 H1 H2. by etrans. Qed.
Abbreviation safe p s Q := (guards acc_sem later_rows apart_orgs p s Q).
Abbreviation all_safe p s := (safe p s (fun _ _ => True)).

(** An operation that leaves the accounts as they are and adds nothing to the cache of users. *)
Definition harmless X (op : acc_op X) : Prop := match op with AExec _ | ATx _ | ACachePut _ _ _ => False | _ => True end.
Lemma harmless_sem X (op : acc_op X) s x s' : harmless X op -> acc_sem X op s x s' -> st_acc s' = st_acc s /\ st_perms s' ⊆ st_perms s.
Proof.
  destruct op; simpl; try done; intros _ Hs; naive_solver.
Qed.
Lemma cached_kept s s' : later_rows s s' -> st_perms s' ⊆ st_perms s -> cached_home s -> cached_home s'.
Proof.
  intros Hl Hm H user org p Ho Hp. destruct (H user org p Ho) as [E | Hr]; [by eapply lookup_weaken | by left | right]. by apply Hl.
Qed.
Lemma harmless_keeps X (op : acc_op X) s x s' : harmless X op -> acc_sem X op s x s' -> apart_orgs s -> later_rows s s' /\ apart_orgs s'.
Proof.
  intros Hop Hs [Ht Hc]. apply harmless_sem in Hs as [E Hm]; [| done]. assert (Hl : later_rows s s') by (unfold later_rows; by rewrite E).
  split; [done |]. split; [by rewrite E | by eapply cached_kept].
Qed.

Lemma exec_moves {X} (f : Accounts -> Res X * Accounts) d x d' : tenancy d -> moves d (snd (f d)) -> db_sem (exec f) d x d' -> moves d d'.
Proof.
  intros Ht Hm [E | [_ [-> | ->]]]%db_sem_exec; [| by apply same_moves | done]. by rewrite <- E in Hm.
Qed.
Lemma exec_some {X} (f : Accounts -> Res X * Accounts) d fs x d' fs' :
  exec f (World d fs) = (x, World d' fs') -> tenancy d -> moves d (snd (f d)) -> moves d d'.
Proof. intros H Ht Hm. eapply exec_moves; [done | exact Hm |]. by exists fs, fs'. Qed.
Lemma accounts_move s d : apart_orgs s -> moves (st_acc s) d -> later_rows s (with_acc d s) /\ apart_orgs (with_acc d s).
Proof. intros [Ht Hc] [Hk Ht']. split; [done |]. split; [done |]. by eapply cached_kept. Qed.
Lemma safe_exec {X B} (f : Accounts -> Res X * Accounts) (k : Res X -> Prog B) s Q :
  (forall d, keeps_rows (st_acc s) d -> tenancy d -> moves d (snd (f d))) ->
  (forall x s', later_rows s s' -> safe (k x) s' Q) -> safe (call (AExec f) ≫= k) s Q.
Proof.
  intros Hf Hk s1 x s2 H1 H2 (d & Hd & ->). destruct (accounts_move s1 d) as [Hl Hi]; [done | |].
  { eapply exec_moves; [apply H2 | | exact Hd]. apply Hf; [done | apply H2]. }
  split_and!; [done | done |]. apply Hk. by etrans.
Qed.
Lemma safe_tx {X B} (body : AccDb (Res X)) (k : Res X -> Prog B) s Q :
  (forall d x d', keeps_rows (st_acc s) d -> tenancy d -> db_sem (transaction body) d x d' -> moves d d') ->
  (forall x s', later_rows s s' -> safe (k x) s' Q) -> safe (call (ATx body) ≫= k) s Q.
Proof.
  intros Hf Hk s1 x s2 H1 H2 (d & Hd & ->). destruct (accounts_move s1 d) as [Hl Hi]; [done | |].
  { eapply Hf; [exact H1 | apply H2 | exact Hd]. }
  split_and!; [done | done |]. apply Hk. by etrans.
Qed.
Lemma safe_query {X B} (f : Accounts -> Res X) (k : Res X -> Prog B) s Q :
  (forall x s', later_rows s s' -> tenancy (st_acc s') -> x = f (st_acc s') \/ x = Err ErrDb -> safe (k x) s' Q) ->
  safe (query_acc f ≫= k) s Q.
Proof. intros Hk s1 x s2 H1 H2 [-> Hx]. split_and!; [reflexivity | done |]. apply Hk; [done | apply H2 | done]. Qed.
Lemma safe_step {X B} (op : acc_op X) (k : X -> Prog B) s Q :
  harmless X op -> (forall x s', later_rows s s' -> safe (k x) s' Q) -> safe (call op ≫= k) s Q.
Proof.
  intros Hop Hk s1 x s2 H1 H2 H3. destruct (harmless_keeps _ _ _ _ _ Hop H3 H2) as [Hl Hi]. split_and!; [done | done |].
  apply Hk. by etrans.
Qed.
Lemma safe_end {A} (a : A) s (Q : A -> State -> Prop) : Q a s -> safe (mret a : Prog A) s Q.
Proof. done. Qed.
Lemma safe_bind {A B} (p : Prog A) (k : A -> Prog B) s (P : A -> State -> Prop) Q :
  safe p s P -> (forall a s', later_rows s s' -> P a s' -> safe (k a) s' Q) -> safe (p ≫= k) s Q.
Proof. intros Hp Hk. apply guards_bind. eapply guards_mono; [apply _ | | exact Hp]. done. Qed.
Lemma safe_then {A B} (p : Prog A) (k : A -> Prog B) s Q : all_safe p s -> (forall a s', later_rows s s' -> safe (k a) s' Q) -> safe (p ≫= k) s Q.
Proof. intros Hp Hk. apply (safe_bind _ _ _ (fun _ _ => True)); [done |]. intros a s' H _. by apply Hk. Qed.
(** What keeping a permission in the cache needs. *)
Lemma safe_cache {B} user org p (k : unit -> Prog B) s Q :
  (org <> nil_uuid -> up_RoleID p = nil_uuid \/ role_of (st_acc s) (up_RoleID p) org) ->
  (forall x s', later_rows s s' -> safe (k x) s' Q) -> safe (call (ACachePut user org p) ≫= k) s Q.
Proof.
  intros Hp Hk s1 x s2 H1 H2 Hs. assert (E : st_acc s2 = st_acc s1) by by destruct Hs as [-> | ->].
  assert (Hl : later_rows s1 s2) by (unfold later_rows; by rewrite E). split_and!; [done | | by apply Hk; etrans].
  destruct Hs as [-> | ->]; [done |]. destruct H2 as [Ht Hc]. split; [done |].
  intros u o q Ho. cbn [with_perms st_perms st_acc]. rewrite lookup_insert_Some. intros [[[= <- <-] <-] | [_ Hq]]; [| by apply (Hc u o q)].
  destruct (Hp Ho) as [Hn | Hr]; [by left | right]. by apply H1.
Qed.

(** ** What a request has read stays true *)
Lemma role_in_of id org d r : role_in id org d = Ok r -> cr_ID r = id /\ cr_OrganizationID r = org /\ role_of d id org.
Proof. intros (Hr & [E1%N.eqb_eq E2%N.eqb_eq]%andb_true_iff & _)%first_role_in. split_and!; [done | done | by exists r]. Qed.
Lemma role_by_id_is id d r : role_by_id id d = Ok r -> cr_ID r = id.
Proof. by intros (_ & E%N.eqb_eq & _)%first_role_in. Qed.
Lemma default_role_of org d r : default_role org d = Ok r -> role_of d (cr_ID r) org.
Proof. intros (Hr & [E%N.eqb_eq _]%andb_true_iff & _)%first_role_in. by exists r. Qed.
Lemma member_row_of user org d m : first_member_unscoped (is_member_row user org) d = Ok m -> row_of d (uo_ID m) org.
Proof. intros [Hm [_ E%N.eqb_eq]%andb_true_iff]%first_member_unscoped_in. by exists m. Qed.
Lemma member_home user org d m : tenancy d -> membership_of user org d = Ok m -> home d org (uo_RoleID m).
Proof. intros Ht (Hm & [_ E%N.eqb_eq]%andb_true_iff & _)%first_member_in. rewrite <- E. by apply Ht. Qed.
Lemma role_of_later d d' id org : keeps_rows d d' -> role_of d id org -> role_of d' id org.
Proof. intros H. apply H. Qed.
Lemma row_of_later d d' id org : keeps_rows d d' -> row_of d id org -> row_of d' id org.
Proof. intros H. apply H. Qed.

(** A saved row that fits an organization. *)
Definition fits (org : uuid) (u : User) (s : State) : Prop := us_OrganizationID u = org /\ home (st_acc s) org (us_RoleID u).
Lemma fits_later org u s s' : later_rows s s' -> fits org u s -> fits org u s'.
Proof. intros H [E Hh]. split; [done | by eapply home_later]. Qed.
Lemma user_fits s id u : tenancy (st_acc s) -> user_by_id id (st_acc s) = Ok u -> us_ID u = id /\ fits (us_OrganizationID u) u s.
Proof. intros Ht (Hu & E%N.eqb_eq & _)%first_user_in. split; [done |]. split; [done |]. exact (tn_users _ Ht u Hu). Qed.

(** ** The parts that only read, or only tell *)
Definition calm {A} (p : Prog A) : Prop := forall s, all_safe p s.
Lemma calm_ret {A} (a : A) : calm (mret a).
Proof. intros s. exact I. Qed.
Lemma calm_bind {A B} (p : Prog A) (k : A -> Prog B) : calm p -> (forall a, calm (k a)) -> calm (p ≫= k).
Proof. intros Hp Hk s. apply safe_then; [apply Hp |]. intros a s' _. apply Hk. Qed.
Lemma calm_call {X} (op : acc_op X) : harmless X op -> calm (call op).
Proof. intros Hop s. exact (safe_step op mret s _ Hop (fun _ _ _ => I)). Qed.
Lemma calm_query {X} (f : Accounts -> Res X) : calm (query_acc f).
Proof. by apply calm_call. Qed.
Lemma calm_emit e : calm (emit e).
Proof. by apply calm_call. Qed.
Lemma safe_bind_only {A B} (p : Prog A) (k : A -> Prog B) s Q :
  calm p -> (forall a s', later_rows s s' -> safe (k a) s' Q) -> safe (p ≫= k) s Q.
Proof. intros Hp. apply safe_then, Hp. Qed.
#[local] Hint Resolve calm_ret calm_query calm_emit : whatc.
Ltac solve_calm :=
  repeat match goal with
  | |- calm (mret _) => apply calm_ret
  | |- calm (call _) => apply calm_call; exact I
  | |- calm (_ ≫= _) => apply calm_bind; [| intros ?]
  | |- calm (match ?x with _ => _ end) => destruct x
  | |- calm (if ?x then _ else _) => destruct x
  | |- calm _ => solve [auto with whatc]
  end.
Lemma calm_load role : calm (loadRolePermissions role).
Proof. apply calm_query. Qed.
#[local] Hint Resolve calm_load : whatc.
Lemma calm_user_permissions user org : calm (getUserPermissionsCached user org).
Proof.
  intros s. unfold getUserPermissionsCached. apply safe_step; [done |]. intros hit s1 _. destruct hit; [done |].
  apply safe_query. intros u s2 _ Ht2 Hu. destruct u as [u |]; [| done]. destruct Hu as [Hu | Hu]; [| done]. symmetry in Hu.
  apply user_fits in Hu as [_ [_ Hu]]; [| done].
  apply (safe_bind _ _ _ (fun role s' => org <> nil_uuid -> home (st_acc s') org role)).
  { destruct (N.eqb_spec org nil_uuid); [by apply safe_end |]. apply safe_query. intros m s3 H3 Ht3 Hm. apply safe_end. intros _.
    assert (Hn : home (st_acc s3) org (if N.eqb org (us_OrganizationID u) then us_RoleID u else None)).
    { destruct (N.eqb_spec org (us_OrganizationID u)) as [-> |]; [by eapply home_later | by intros ?]. }
    destruct m as [m | e]; [| exact Hn]. destruct Hm as [Hm | Hm]; [| done]. symmetry in Hm. apply member_home in Hm; [| done].
    by destruct (uo_RoleID m). }
  intros role s3 H3 Hrole. destruct role as [id |].
  - apply safe_query. intros r s4 H4 _ Hr. destruct r as [r |]; [| done]. destruct Hr as [Hr | Hr]; [| done]. symmetry in Hr. apply role_by_id_is in Hr.
    apply safe_then; [apply calm_load |]. intros perms s5 H5. destruct perms; [| done]. apply safe_cache; [| done]. intros Ho. right. simpl.
    rewrite Hr. apply H5, H4. by apply Hrole.
  - destruct (us_IsSuperAdmin u); [| done]. apply safe_cache; [by left | done].
Qed.
#[local] Hint Resolve calm_user_permissions : whatc.
Lemma calm_has user resource action org : calm (HasPermission user resource action org).
Proof. unfold HasPermission. solve_calm. Qed.
Lemma calm_super user : calm (IsSuperAdmin user).
Proof. unfold IsSuperAdmin. solve_calm. Qed.
#[local] Hint Resolve calm_has calm_super : whatc.
Lemma calm_org c : calm (getOrgID c).
Proof. unfold getOrgID. solve_calm. Qed.
#[local] Hint Resolve calm_org : whatc.
Lemma calm_who c : calm (getOrgAndUserID c).
Proof. unfold getOrgAndUserID. solve_calm. Qed.
#[local] Hint Resolve calm_who : whatc.
Lemma calm_auth c resource action : calm (requireAuth c resource action).
Proof. unfold requireAuth. solve_calm. Qed.
#[local] Hint Resolve calm_auth : whatc.
Lemma calm_forget user : calm (InvalidateUserPermissionsCache user).
Proof. unfold InvalidateUserPermissionsCache, notifyUserPermissionsChanged. solve_calm. Qed.
#[local] Hint Resolve calm_forget : whatc.
Lemma calm_each {A} (f : A -> Prog unit) l : (forall x, calm (f x)) -> calm (for_each f l).
Proof. intros Hf. induction l as [| x l IH]; [apply calm_ret |]. simpl. apply calm_bind; [apply Hf | intros _; done]. Qed.
Lemma calm_forget_role role : calm (InvalidateRolePermissionsCache role).
Proof. unfold InvalidateRolePermissionsCache. solve_calm; apply calm_each; auto with whatc. Qed.
Lemma calm_keys keys : calm (permissions_by_keys keys).
Proof. unfold permissions_by_keys. do 2 (case_bool_decide; [apply calm_ret |]). apply calm_query. Qed.
Lemma calm_place parse_uuid org un dept : calm (parseOrgPlacement parse_uuid org un dept).
Proof. unfold parseOrgPlacement, check_unit. solve_calm. Qed.
Lemma calm_may_super actor asked : calm (may_be_super actor asked).
Proof. unfold may_be_super. solve_calm. Qed.
Lemma calm_last id org : calm (is_last_admin id org).
Proof. unfold is_last_admin. solve_calm. Qed.
#[local] Hint Resolve calm_forget_role calm_keys calm_place calm_may_super calm_last : whatc.


Ltac safe_part_but_queries :=
  match goal with
  | |- safe (mret _) _ _ => apply safe_end; exact I
  | |- safe (query_acc _ ≫= _) _ _ => fail 1
  | |- safe (call _ ≫= _) _ _ => apply safe_step; [exact I | intros ? ? ?]
  | |- safe (?p ≫= _) _ _ => apply safe_bind_only; [solve [auto with whatc] | intros ? ? ?]
  | |- safe (match ?x with _ => _ end) _ _ => destruct x eqn:?
  | |- safe (if ?x then _ else _) _ _ => destruct x eqn:?
  end.
Ltac safe_part :=
  safe_part_but_queries ||
  match goal with |- safe (query_acc _ ≫= _) _ _ => apply safe_bind_only; [apply calm_query | intros ? ? ?] end.
Lemma safe_saved_role org user role r s : all_safe (role_saved org user role r) s.
Proof. unfold role_saved. repeat safe_part. Qed.

(** * The requests *)
Lemma unset_defaults_moves p d : tenancy d -> moves d (snd (unset_defaults p d)).
Proof. intros Ht. by apply update_roles_moves. Qed.
Definition apart_rel (d d' : Accounts) : Prop := tenancy d -> moves d d'.
#[global] Instance apart_preorder : PreOrder apart_rel.
Proof.
  split; [intros d Ht; by apply same_moves |]. intros d1 d2 d3 H1 H2 Ht. destruct (H1 Ht) as [Hk Ht2], (H2 Ht2) as [Hk2 Ht3].
  split; [by etrans | done].
Qed.
Lemma exec_apart {X} (f : Accounts -> Res X * Accounts) : (forall d, tenancy d -> moves d (snd (f d))) -> keeps apart_rel (exec f).
Proof. intros H. apply keeps_exec; [apply _ | exact H]. Qed.
Lemma apart_tx {X} (m : AccDb (Res X)) d x d' : keeps apart_rel m -> tenancy d -> db_sem (transaction m) d x d' -> moves d d'.
Proof. intros Hm Ht H. exact (keeps_sem apart_rel _ _ _ _ (keeps_transaction apart_rel _ Hm) H Ht). Qed.

(** A statement that keeps organizations apart at any moment. *)
Lemma safe_exec_any {X B} (f : Accounts -> Res X * Accounts) (k : Res X -> Prog B) s Q :
  (forall d, tenancy d -> moves d (snd (f d))) -> (forall x s', later_rows s s' -> safe (k x) s' Q) -> safe (call (AExec f) ≫= k) s Q.
Proof. intros Hf. apply safe_exec. intros d _. apply Hf. Qed.
Lemma safe_exec_end {X} (f : Accounts -> Res X * Accounts) s :
  (forall d, keeps_rows (st_acc s) d -> tenancy d -> moves d (snd (f d))) -> all_safe (call (AExec f)) s.
Proof. intros Hf. exact (safe_exec f mret s _ Hf (fun _ _ _ => I)). Qed.
Lemma safe_tx_end {X} (body : AccDb (Res X)) s : 
  (forall d x d', keeps_rows (st_acc s) d -> tenancy d -> db_sem (transaction body) d x d' -> moves d d') -> all_safe (call (ATx body)) s.
Proof. intros Hf. exact (safe_tx body mret s _ Hf (fun _ _ _ => I)). Qed.

(** ** Roles *)
Lemma create_role_safe c body s : all_safe (CreateRole c body) s.
Proof.
  unfold CreateRole. repeat safe_part. apply safe_then; [| intros ? ? ?; repeat safe_part]. destruct (rr_IsDefault _).
  - apply safe_tx_end. intros d x0 d' _. apply apart_tx, keeps_bind; [apply _ | apply exec_apart; intros d0; apply unset_defaults_moves |].
    intros _. apply exec_apart. intros d0. apply insert_role_moves.
  - apply safe_exec_end. intros d _. apply insert_role_moves.
Qed.
Lemma replace_safe role keys old s : all_safe (replace_requested role keys old) s.
Proof.
  unfold replace_requested. repeat safe_part. apply safe_exec_any; [intros d; apply links_moves | intros ? ? ?]. repeat safe_part.
  apply safe_exec_any; [intros d; apply links_moves | intros ? ? ?]. apply safe_end, I.
Qed.
Lemma save_role_safe {B} role perms (k : Res unit -> Prog B) s :
  role_of (st_acc s) (cr_ID role) (cr_OrganizationID role) -> (forall x s', later_rows s s' -> all_safe (k x) s') ->
  all_safe (call (AExec (save_role role perms)) ≫= k) s.
Proof. intros Hr. apply safe_exec. intros d Hd Ht. apply save_role_moves; [done | by apply Hd]. Qed.
Lemma update_system_safe c org user role perms req s :
  role_of (st_acc s) (cr_ID role) (cr_OrganizationID role) -> all_safe (update_system_role c org user role perms req) s.
Proof.
  intros Hr. unfold update_system_role. apply safe_then; [case_match; [apply replace_safe | done] |]. intros new s1 H1. safe_part; [| done].
  apply save_role_safe; [by apply H1 | intros ? ? ?; apply safe_saved_role].
Qed.
Lemma update_custom_safe org user role perms req s :
  role_of (st_acc s) (cr_ID role) (cr_OrganizationID role) -> all_safe (update_custom_role org user role perms req) s.
Proof.
  intros Hr. unfold update_custom_role. apply safe_then; [repeat safe_part |]. intros taken s1 H1. safe_part; [done |].
  apply safe_then; [case_match; [apply replace_safe | done] |]. intros new s2 H2. safe_part; [| done].
  assert (Hr2 : role_of (st_acc s2) (cr_ID role) (cr_OrganizationID role)) by by apply H2, H1.
  apply safe_then; [| intros ? ? ?; apply safe_saved_role]. safe_part.
  - apply safe_tx_end. intros d x0 d' Hd Ht Hs. apply db_sem_transaction in Hs as [[-> _] | (a0 & (fs & fs' & Hs) & _)]; [by apply same_moves |].
    unfold mbind, db_bind in Hs. destruct (exec _ _) as [? [d1 fs1]] eqn:E1 in Hs.
    apply exec_some in E1 as [Hk Ht1]; [| done | by apply unset_defaults_moves].
    apply exec_some in Hs as [Hk2 Ht2]; [| done | apply save_role_moves; [done | by apply Hk, Hd]]. split; [by etrans | done].
  - apply (safe_exec_end (save_role _ _)). intros d Hd Ht. apply save_role_moves; [done | by apply Hd].
Qed.
Lemma update_role_safe c id body s : all_safe (UpdateRole c id body) s.
Proof.
  unfold UpdateRole. do 4 safe_part. 2: done. apply safe_query. intros x s1 H1 _ Hx. destruct x as [role |]; [| done].
  destruct Hx as [Hx | Hx]; [| done]. symmetry in Hx. apply role_in_of in Hx as (E1 & E2 & Hr). apply safe_bind_only; [apply calm_load |].
  intros perms s2 H2. assert (Hr2 : role_of (st_acc s2) (cr_ID role) (cr_OrganizationID role)) by (rewrite E1, E2; by apply H2).
  repeat safe_part; [by apply update_system_safe | by apply update_custom_safe].
Qed.
Lemma delete_role_safe c id s : all_safe (DeleteRole c id) s.
Proof.
  unfold DeleteRole. repeat safe_part. apply safe_exec_any; [| intros ? ? ?; repeat safe_part]. intros d Ht. by apply update_roles_moves.
Qed.

(** ** Users *)
Section Users.
Context (parse_uuid : string -> option uuid) (valid_email : string -> bool) (password_matches : string -> string -> bool) (uuid_head : uuid -> string).

Lemma new_role_safe org asked s :
  safe (new_user_role org asked) s (fun r s' => forall role, r = inl role -> home (st_acc s') org role).
Proof.
  unfold new_user_role. destruct asked as [id |]; apply safe_query; intros x s1 H1 _ Hx; apply safe_end.
  - intros role. destruct x as [r |]; [| done]. intros [= <-]. destruct Hx as [Hx | Hx]; [| done]. symmetry in Hx.
    apply role_in_of in Hx as (_ & _ & Hx). by apply home_some.
  - intros role [= <-]. destruct x as [r |]; [| done]. destruct Hx as [Hx | Hx]; [| done]. symmetry in Hx. by apply home_some, default_role_of.
Qed.
Lemma add_member_safe {B} org user role def del (k : uuid -> Res unit -> Prog B) s :
  home (st_acc s) org role -> (forall id x s', later_rows s s' -> all_safe (k id x) s') ->
  all_safe (id ← call AID; call (AExec (insert_member (MkMembership id user org role def del))) ≫= k id) s.
Proof.
  intros Hh Hk. apply safe_step; [done |]. intros id s1 H1. apply safe_exec; [| intros x s2 H2; apply Hk; by etrans].
  intros d Hd Ht. apply insert_member_moves; [done |]. eapply home_later; [| exact Hh]. etrans; [exact H1 | exact Hd].
Qed.
Lemma restore_safe org actor u req hash role super pl s :
  home (st_acc s) org role -> all_safe (restore_deleted org actor u req hash role super pl) s.
Proof.
  intros Hh. unfold restore_deleted. apply safe_exec; [intros d Hd Ht; apply restore_user_moves; [done | by eapply home_later] |].
  intros x s1 H1. safe_part; [| done]. apply safe_query. intros m s2 H2 _ Hm. apply safe_then; [| intros; repeat safe_part].
  assert (Hh2 : home (st_acc s2) org role) by (eapply home_later; [| exact Hh]; etrans; [exact H1 | exact H2]).
  destruct m as [m | e].
  - destruct Hm as [Hm | Hm]; [| done]. symmetry in Hm. apply member_row_of in Hm. apply safe_exec_end. intros d Hd Ht.
    eapply revive_member_moves; [done | by eapply row_of_later | by eapply home_later].
  - apply (add_member_safe _ _ _ _ _ (fun _ => mret)); [done |]. intros. by apply safe_end.
Qed.
Lemma fresh_safe org actor req hash role super pl s : home (st_acc s) org role -> all_safe (create_fresh org actor req hash role super pl) s.
Proof.
  intros Hh. unfold create_fresh. safe_part. assert (Hh1 : home (st_acc s') org role) by by eapply home_later.
  apply safe_exec; [intros d Hd Ht; apply insert_user_moves; [done | by eapply home_later] |].
  intros r s1 H1. safe_part; [| done].
  apply (add_member_safe _ _ _ _ _ (fun _ _ => _)); [by eapply home_later |]. intros. repeat safe_part.
Qed.
Lemma create_user_safe c body s : all_safe (CreateUser parse_uuid valid_email c body) s.
Proof.
  unfold CreateUser. repeat safe_part.
  eapply safe_bind; [apply new_role_safe |]. intros role s1 H1 Hrole. destruct role as [role | e]; [| done]. specialize (Hrole role eq_refl).
  repeat safe_part; [apply restore_safe | apply fresh_safe]; (eapply home_later; [| exact Hrole]);
    repeat (etrans; [eassumption |]); reflexivity.
Qed.
Lemma update_member_safe org actor u req s : all_safe (update_member org actor u req) s.
Proof.
  unfold update_member. safe_part; [| done]. apply safe_query. intros x s1 H1 _ Hx. destruct x as [r |]; [| done].
  destruct Hx as [Hx | Hx]; [| done]. symmetry in Hx. apply role_in_of in Hx as (_ & _ & Hr).
  apply safe_exec; [| intros; repeat safe_part]. intros d Hd Ht. apply set_member_role_moves; [done |]. by apply home_some, Hd.
Qed.

(** The steps of [UpdateUser] keep the row in its organization, with a role of it. *)
Definition fit {A} (user : A -> User) (org : uuid) (r : A + reply) (s : State) : Prop := forall a, r = inl a -> fits org (user a) s.
Lemma safe_and_then {A B} (m : Prog (A + reply)) (k : A -> Prog (B + reply)) (ua : A -> User) (ub : B -> User) org s :
  safe m s (fit ua org) -> (forall a s', fits org (ua a) s' -> safe (k a) s' (fit ub org)) -> safe (and_then m k) s (fit ub org).
Proof. intros Hm Hk. unfold and_then. eapply safe_bind; [exact Hm |]. intros [a | e] s' _ Ha; [by apply Hk, Ha | by apply safe_end]. Qed.
Lemma fit_inl {A} (user : A -> User) org (a : A) s : fits org (user a) s -> safe (mret (inl a) : Prog (A + reply)) s (fit user org).
Proof. intros H. apply safe_end. by intros ? [= <-]. Qed.
Lemma fit_only {A} (p : Prog A) (k : A -> User + reply) org u s :
  fits org u s -> calm p -> (forall a v, k a = inl v -> us_OrganizationID v = us_OrganizationID u /\ us_RoleID v = us_RoleID u) ->
  safe (a ← p; mret (k a)) s (fit id org).
Proof.
  intros Hu Hp Hk. apply safe_bind_only; [done |]. intros a s1 H1. apply safe_end. intros v E. destruct (Hk a v E) as [E1 E2].
  unfold fits. simpl. rewrite E1, E2. by eapply fits_later.
Qed.
Lemma change_email_fit org u req s : fits org u s -> safe (change_email valid_email u req) s (fit id org).
Proof.
  intros Hu. unfold change_email. case_match; [by apply fit_inl |]. case_match; [done |].
  apply (fit_only _ (fun other : Res User => match other with Ok _ => _ | Err _ => _ end) _ u); [done | apply calm_query |]. intros [v | e] w; [done |]. by intros [= <-].
Qed.
Lemma change_password_fit org u req s : fits org u s -> safe (change_password u req) s (fit id org).
Proof.
  intros Hu. unfold change_password. case_match; [by apply fit_inl |].
  apply (fit_only (call (AHash _)) (fun h => match h with Some h => inl (with_hash h u) | None => inr _ end) _ u); [done | by apply calm_call |].
  intros [h |] w; [| done]. by intros [= <-].
Qed.
Lemma change_role_fit org actor u current req s : fits org u s -> safe (change_role org actor u current req) s (fit fst org).
Proof.
  intros Hu. unfold change_role. case_match; [| by apply fit_inl]. apply safe_query. intros x s1 H1 _ Hx. apply safe_end. intros [v b].
  destruct x as [r |]; [| done]. destruct Hx as [Hx | Hx]; [| done]. symmetry in Hx. apply role_in_of in Hx as (_ & _ & Hr).
  case_match; [done |]. intros [= <- <-]. split; [apply Hu | by apply home_some].
Qed.
Lemma change_active_fit org actor u req s : fits org u s -> safe (mret (change_active actor u req)) s (fit id org).
Proof. intros Hu. apply safe_end. intros v. unfold change_active. repeat case_match; intros [= <-]; exact Hu. Qed.
Lemma change_place_fit org actor u req s : fits org u s -> safe (change_place parse_uuid org actor u req) s (fit id org).
Proof.
  intros Hu. unfold change_place. set (v := match uq_XProcessSellerCode req with None => u | _ => _ end).
  assert (Hv : fits org v s) by by unfold v; destruct (uq_XProcessSellerCode req).
  case_match; [| by apply fit_inl]. apply safe_bind_only; [apply calm_has |]. intros ok s1 H1. case_match; [done |].
  apply (fit_only _ (fun pl : orgPlacement + reply => match pl with inl _ => _ | inr _ => _ end) _ v); [by eapply fits_later | apply calm_place |].
  intros [pl | e] w; [| done]. by intros [= <-].
Qed.
Lemma change_super_fit org actor u req s : fits org u s -> safe (change_super actor u req) s (fit id org).
Proof.
  intros Hu. unfold change_super. case_match; [| by apply fit_inl].
  apply (fit_only _ (fun ok : bool => if negb ok then _ else _) _ u); [done | apply calm_super |]. intros ok w. repeat case_match; try done. by intros [= <-].
Qed.
Lemma changed_user_fit org actor u current req s : fits org u s -> safe (changed_user parse_uuid valid_email org actor u current req) s (fit fst org).
Proof.
  intros Hu. unfold changed_user.
  eapply safe_and_then; [by apply change_email_fit |]. intros u1 s1 H1. eapply safe_and_then; [apply change_password_fit; by case_match |].
  intros u2 s2 H2. eapply safe_and_then; [by apply change_role_fit |]. intros [u3 b] s3 H3.
  eapply safe_and_then; [by apply change_active_fit |]. intros u4 s4 H4. eapply safe_and_then; [by apply change_place_fit |].
  intros u5 s5 H5. eapply safe_and_then; [by apply change_super_fit |]. intros u6 s6 H6. by apply fit_inl.
Qed.
Lemma save_user_safe {B} u (k : Res unit -> Prog B) s org :
  fits org u s -> (forall x s', later_rows s s' -> all_safe (k x) s') -> all_safe (call (AExec (save_user u)) ≫= k) s.
Proof.
  intros [E Hh]. apply safe_exec. intros d Hd Ht. apply save_user_moves; [done |]. rewrite E. by eapply home_later.
Qed.
Lemma update_native_safe org actor u current req s : fits org u s -> all_safe (update_native parse_uuid valid_email org actor u current req) s.
Proof.
  intros Hu. unfold update_native. eapply safe_bind; [by apply changed_user_fit |]. intros [[v b] | e] s1 H1 Hr; [| done].
  pose proof (Hr _ eq_refl) as Hv. simpl in Hv. eapply save_user_safe; [exact Hv |]. intros x s2 H2. safe_part; [| done].
  apply safe_then; [| intros; repeat safe_part]. destruct b; [| done].
  apply safe_exec; [| intros; apply calm_forget]. intros d Hd Ht. apply set_member_role_moves; [done |].
  eapply home_later; [| apply Hv]. etrans; [exact H2 | exact Hd].
Qed.
Lemma user_in_by id org d u : user_in id org d = Ok u -> user_by_id id d = Ok u.
Proof. unfold user_in. by case_match. Qed.
Lemma update_user_safe c id body s : all_safe (UpdateUser parse_uuid valid_email c id body) s.
Proof.
  unfold UpdateUser. safe_part. safe_part; [| done]. safe_part; [| done]. apply safe_bind_only; [solve_calm |]. intros ok s1 H1. safe_part; [done |].
  apply safe_query. intros x s2 H2 Ht Hx. destruct x as [[u current] |]; [| done].
  assert (Hu : us_OrganizationID u = n -> fits n u s2).
  { intros <-. destruct Hx as [Hx | Hx]; [| done]. destruct (user_in _ _ _) as [v |] eqn:Ev; [| done]. injection Hx as -> ->.
    apply user_in_by in Ev. by apply user_fits in Ev as [_ Ev]. }
  apply safe_bind_only; [solve_calm |]. intros ? s3 H3. safe_part; [| done]. apply safe_bind_only; [solve_calm |]. intros ok2 s4 H4. safe_part; [done |].
  destruct (N.eqb_spec (us_OrganizationID u) n) as [E |]; simpl; [| apply update_member_safe].
  apply update_native_safe. eapply fits_later; [| by apply Hu]. etrans; [exact H3 | exact H4].
Qed.
Lemma delete_user_safe c id s : all_safe (DeleteUser c id) s.
Proof.
  unfold DeleteUser. repeat safe_part.
  - apply safe_exec_any; [intros d; apply delete_members_moves |]. intros. unfold removed. repeat safe_part.
  - apply safe_exec_any; [intros d; apply delete_user_moves |]. intros. repeat safe_part.
    apply safe_exec_any; [intros d; apply delete_members_moves |]. intros. repeat safe_part.
Qed.
Lemma change_password_safe c body s : all_safe (ChangePassword password_matches c body) s.
Proof.
  unfold ChangePassword. safe_part; [| done]. apply safe_query. intros x s1 H1 Ht Hx. destruct x as [v |]; [| done].
  destruct Hx as [Hx | Hx]; [| done]. symmetry in Hx. apply user_fits in Hx as [_ Hu]; [| done]. repeat safe_part.
  eapply save_user_safe; [by eapply fits_later | done].
Qed.
Lemma update_availability_safe c body s : all_safe (UpdateAvailability c body) s.
Proof.
  unfold UpdateAvailability. do 2 safe_part. 2: done. safe_part. apply safe_query. intros x s1 H1 Ht Hx. destruct x as [v |]; [| done].
  destruct Hx as [Hx | Hx]; [| done]. symmetry in Hx. apply user_fits in Hx as [_ Hu]; [| done]. safe_part; [| done].
  eapply save_user_safe; [exact Hu |]. intros. repeat safe_part.
Qed.

(** ** Members and organizations *)
Lemma add_org_member_safe c body s : all_safe (AddOrganizationMember c body) s.
Proof.
  unfold AddOrganizationMember. do 2 safe_part. 2: done. safe_part. safe_part. 2: done. do 2 safe_part.
  apply safe_bind_only; [repeat case_match; solve_calm |]. intros target s1 H1. safe_part; [| done].
  apply safe_query. intros existing s2 H2 _ Hex. safe_part; [done |].
  apply (safe_bind _ _ _ (fun r s' => forall role, r = inl role -> role_of (st_acc s') role n)).
  { safe_part; apply safe_query; intros x s3 H3 _ Hx; apply safe_end; intros role; (destruct x as [r |]; [| done]);
      (destruct Hx as [Hx | Hx]; [| done]); symmetry in Hx; intros [= <-];
      [by apply role_in_of in Hx as (-> & _ & ?) | by apply default_role_of]. }
  intros role s3 H3 Hrole. destruct role as [role |]; [| done]. specialize (Hrole role eq_refl).
  apply safe_then; [| intros; repeat safe_part]. destruct existing as [m | e].
  - destruct Hex as [Hex | Hex]; [| done]. symmetry in Hex. apply member_row_of in Hex. apply safe_exec_end. intros d Hd Ht.
    eapply revive_member_moves; [done | | by eapply home_some, Hd]. apply Hd. by apply H3.
  - apply (add_member_safe _ _ _ _ _ (fun _ => mret)); [by apply home_some |]. intros. by apply safe_end.
Qed.
Lemma remove_member_safe c id s : all_safe (RemoveOrganizationMember c id) s.
Proof.
  unfold RemoveOrganizationMember. repeat safe_part. apply safe_exec_any; [intros d; apply delete_members_moves |]. intros. repeat safe_part.
Qed.
Lemma update_member_role_safe c id body s : all_safe (UpdateOrganizationMemberRole c id body) s.
Proof.
  unfold UpdateOrganizationMemberRole. do 5 safe_part. all: try done. safe_part; [done |].
  apply safe_query. intros x s1 H1 _ Hx. destruct x as [r |]; [| done].
  destruct Hx as [Hx | Hx]; [| done]. symmetry in Hx. apply role_in_of in Hx as (_ & _ & Hr). safe_part.
  apply safe_exec; [| intros; repeat safe_part]. intros d Hd Ht. apply set_member_role_moves; [done |]. by apply home_some, Hd, H0.
Qed.

Lemma uuid_apart : keeps apart_rel uuid_New.
Proof. intros w x w' [= <- <-] Ht. destruct Ht as [H1 H2 H3 H4]. split; [by split | split; [exact H1 | exact H2 | exact H3 | exact H4]]. Qed.
Lemma seed_apart org : keeps apart_rel (SeedSystemRolesForOrg org).
Proof.
  unfold SeedSystemRolesForOrg. apply keeps_try; [apply _ | apply keeps_query, _ |]. intros n. case_match; [apply keeps_ret, _ |].
  apply keeps_try; [apply _ | apply keeps_query, _ |]. intros rows. apply keeps_each; [apply _ |]. intros [[name desc] def].
  apply keeps_bind; [apply _ | apply uuid_apart |]. intros id. apply exec_apart. intros d. apply insert_role_moves.
Qed.
Lemma elsewhere_apart : keeps apart_rel elsewhere.
Proof. apply exec_apart. intros d. apply same_moves. Qed.
Lemma create_org_moves name slug id mid actor d x d' :
  tenancy d -> db_sem (transaction (create_org_tx name slug id mid actor)) d x d' -> moves d d'.
Proof.
  intros Ht Hs. apply db_sem_transaction in Hs as [[-> _] | (a0 & Hs & _)]; [by apply same_moves |]. clear x.
  assert (Hstep : forall A (m : AccDb (Res A)) d1 r d2, moves d d1 -> keeps apart_rel m -> db_sem m d1 r d2 -> moves d d2).
  { intros A m d1 r d2 [Hk Ht1] Hm H. eapply keeps_sem in H; [| exact Hm]. destruct (H Ht1) as [Hk2 Ht2]. split; [by etrans | done]. }
  unfold create_org_tx in Hs. apply db_sem_try in Hs as [(e & _ & E) | (u1 & d1 & H1 & Hs)]; [done |].
  apply (Hstep _ _ d) in H1; [| by apply same_moves | by apply exec_apart; intros d0; apply insert_org_moves].
  apply db_sem_try in Hs as [(e & _ & E) | (u2 & d2 & H2 & Hs)]; [done |]. apply (Hstep _ _ d1) in H2; [| done | apply seed_apart].
  apply db_sem_try in Hs as [(e & _ & E) | (u3 & d3 & H3 & Hs)]; [done |]. apply (Hstep _ _ d2) in H3; [| done | apply elsewhere_apart].
  apply db_sem_try in Hs as [(e & _ & E) | (admin & d4 & H4 & Hs)]; [done |]. apply db_sem_query in H4 as [-> [H4 | H4]]; [| done].
  symmetry in H4. apply first_role_in in H4 as (Hr & [[Horg%N.eqb_eq _]%andb_true_iff _]%andb_true_iff & _).
  apply db_sem_try in Hs as [(e & _ & E) | (u5 & d5 & H5 & Hs)]; [done |]. apply exec_ok_sem in H5.
  assert (H5' : moves d d5).
  { destruct H3 as [Hk Ht3]. destruct (insert_member_moves d3 (MkMembership mid actor id (Some (cr_ID admin)) false false)) as [Hk2 Ht2]; [done | |].
    - apply home_some. by exists admin.
    - rewrite H5 in Hk2, Ht2. split; [by etrans | done]. }
  eapply (Hstep _ _ d5); [done | | exact Hs]. apply keeps_each; [apply _ |]. intros ?. apply elsewhere_apart.
Qed.
Lemma create_org_safe c body s : all_safe (CreateOrganization uuid_head c body) s.
Proof.
  unfold CreateOrganization. repeat safe_part. apply safe_tx; [| intros; repeat safe_part]. intros d x3 d' _. apply create_org_moves.
Qed.

(** ** Signing in *)
Section Entering.
Context (AccessExpiryMins RefreshExpiryDays : Z) (sprint : any -> string) (to_lower query_escape : string -> string)
  (auth_address : SSOProvider -> string -> string) (parse_time : string -> option instant) (BasePath : string).
Lemma calm_sign u failed : calm (sign_in AccessExpiryMins RefreshExpiryDays u failed).
Proof. unfold sign_in, generateAccessToken, generateRefreshToken. solve_calm. Qed.
Lemma calm_role_cache role : calm (GetRolePermissionsCached role).
Proof. unfold GetRolePermissionsCached. solve_calm. Qed.
#[local] Hint Resolve calm_sign calm_role_cache : whatc.
Lemma login_safe body : calm (Login password_matches AccessExpiryMins RefreshExpiryDays body).
Proof. unfold Login. solve_calm. Qed.
Lemma session_calm c t claims body :
  calm (RefreshToken AccessExpiryMins RefreshExpiryDays t) /\ calm (SwitchOrg AccessExpiryMins RefreshExpiryDays c body) /\ calm (Logout claims) /\ calm (GetWSToken c).
Proof.
  split_and!; [unfold RefreshToken, refresh_user, carried_org | unfold SwitchOrg | unfold Logout | unfold GetWSToken]; solve_calm.
Qed.
Lemma register_moves u mid d x d' :
  home d (us_OrganizationID u) (us_RoleID u) -> tenancy d -> db_sem (transaction (register_tx u mid)) d x d' -> moves d d'.
Proof.
  intros Hh Ht Hs. apply db_sem_transaction in Hs as [[-> _] | (a0 & Hs & _)]; [by apply same_moves |].
  unfold register_tx in Hs. apply db_sem_try in Hs as [(e & _ & E) | (u1 & d1 & H1 & Hs)]; [done |].
  apply exec_moves in H1 as [Hk1 Ht1]; [| done | by apply insert_user_moves].
  apply exec_moves in Hs as [Hk2 Ht2]; [| done | apply insert_member_moves; [done | by eapply home_later]]. split; [by etrans | done].
Qed.
Lemma member_role_safe org s : safe (new_member_role org) s (fun r s' => forall q, r = Ok q -> role_of (st_acc s') (cr_ID q) org).
Proof.
  unfold new_member_role. apply safe_query. intros r s1 H1 _ Hr. destruct r as [r |].
  - apply safe_end. intros q [= <-]. destruct Hr as [Hr | Hr]; [| done]. symmetry in Hr. by apply default_role_of.
  - intros s2 x s3 H2 H3 [-> Hx]. split_and!; [reflexivity | done |]. intros q ->. destruct Hx as [Hx | Hx]; [| done]. symmetry in Hx.
    apply first_role_in in Hx as (Hq & [[E%N.eqb_eq _]%andb_true_iff _]%andb_true_iff & _). by exists q.
Qed.
Lemma register_safe body s : all_safe (Register password_matches AccessExpiryMins RefreshExpiryDays body) s.
Proof.
  unfold Register. destruct body as [[[[email password] name] org] |]; [| done]. repeat safe_part.
  eapply safe_bind; [apply member_role_safe |]. intros role s1 H1 Hrole. destruct role as [role |]; [| done]. specialize (Hrole role eq_refl).
  safe_part. safe_part.
  - unfold join_existing. repeat safe_part. apply safe_exec; [| intros; repeat safe_part; apply calm_sign].
    intros d Hd Ht. apply insert_member_moves; [done |]. apply home_some. simpl. repeat (exact Hrole || (eapply role_of_later; [eassumption |])).
  - unfold register_new. repeat safe_part. apply safe_tx; [| intros; repeat safe_part; apply calm_sign].
    intros d y d' Hd Ht. apply register_moves; [| done]. apply home_some. simpl. repeat (exact Hrole || (eapply role_of_later; [eassumption |])).
Qed.
Lemma calm_info provider raw code : calm (fetchUserInfo sprint provider raw code).
Proof. unfold fetchUserInfo, fetchGitHubEmail. solve_calm. Qed.
Lemma calm_sso u : calm (sso_signed query_escape AccessExpiryMins RefreshExpiryDays BasePath u).
Proof. apply calm_sign. Qed.
#[local] Hint Resolve calm_info calm_sso : whatc.
Lemma init_safe provider : calm (InitSSO auth_address provider).
Proof. unfold InitSSO, provider_query. solve_calm. Qed.
Lemma create_sso_safe cfg org provider i s : all_safe (create_sso_user query_escape AccessExpiryMins RefreshExpiryDays BasePath cfg org provider i) s.
Proof.
  unfold create_sso_user. safe_part; [done |]. apply safe_query. intros role s1 H1 _ Hr. destruct role as [role |]; [| done].
  destruct Hr as [Hr | Hr]; [| done]. symmetry in Hr. apply first_role_in in Hr as (Hq & [E%N.eqb_eq _]%andb_true_iff & _).
  assert (Hrole : role_of (st_acc s1) (cr_ID role) org) by by exists role. safe_part.
  assert (Hh : forall d, keeps_rows (st_acc s') d -> home d org (Some (cr_ID role))).
  { intros d Hd. apply home_some. by apply Hd, H. }
  apply safe_exec; [intros d Hd Ht; apply insert_user_moves; [done | by apply Hh] |]. intros r s2 H2. safe_part; [| done].
  apply (add_member_safe _ _ _ _ _ (fun _ _ => _)); [by apply Hh |]. intros. apply calm_sso.
Qed.
Lemma welcome_safe u provider i s : fits (us_OrganizationID u) u s -> all_safe (welcome_back query_escape AccessExpiryMins RefreshExpiryDays BasePath u provider i) s.
Proof.
  intros Hu. unfold welcome_back. apply safe_then.
  - destruct (String.eqb _ _); [| done]. eapply (save_user_safe (with_sso provider (ui_ID i) u)); [exact Hu | done].
  - intros ? s1 H1. safe_part; [done | apply calm_sso].
Qed.
Lemma callback_safe provider code nonce error description s :
  all_safe (CallbackSSO sprint to_lower query_escape AccessExpiryMins RefreshExpiryDays BasePath provider code nonce error description) s.
Proof.
  unfold CallbackSSO, callback_with, provider_query. repeat safe_part_but_queries. apply safe_query. intros v s9 H9 Ht Hv. destruct v as [v |]; [| apply create_sso_safe].
  destruct Hv as [Hv | Hv]; [| done]. symmetry in Hv. apply first_user_in in Hv as (Hv & _ & _). apply welcome_safe. split; [done | by apply Ht].
Qed.
Lemma configure_safe c provider body : calm (UpdateSSOProvider c provider body) /\ calm (DeleteSSOProvider c provider).
Proof. split; [unfold UpdateSSOProvider, provider_query | unfold DeleteSSOProvider]; solve_calm. Qed.
Lemma keys_safe c id create update : calm (CreateAPIKey parse_time c create) /\ calm (UpdateAPIKey c id update) /\ calm (DeleteAPIKey c id).
Proof. split_and!; [unfold CreateAPIKey, generateAPIKey | unfold UpdateAPIKey | unfold DeleteAPIKey]; solve_calm. Qed.
Abbreviation entering := (session_request password_matches sprint to_lower query_escape auth_address parse_time AccessExpiryMins RefreshExpiryDays BasePath).
Lemma entering_safe p s : entering p -> all_safe p s.
Proof.
  intros []; [apply login_safe | apply register_safe | by apply (session_calm (MkCtx None None false None) t None None) | by apply (session_calm c None None body) |
    by apply (session_calm (MkCtx None None false None) None t None) | by apply (session_calm c None None None) | apply init_safe | apply callback_safe |
    by apply configure_safe | by apply (configure_safe c provider None) | by apply (keys_safe c None body None) | by apply (keys_safe c id None body) | by apply (keys_safe c id None None)].
Qed.

(** * Any requests *)
Abbreviation request := (account_request parse_uuid valid_email password_matches uuid_head).
Lemma request_safe c p s : request c p -> all_safe p s.
Proof.
  intros []; [apply create_role_safe | apply update_role_safe | apply delete_role_safe | apply create_user_safe | apply update_user_safe |
    apply delete_user_safe | apply change_password_safe | apply update_availability_safe | apply add_org_member_safe | apply remove_member_safe |
    apply update_member_role_safe | apply create_org_safe].
Qed.

(** C22: roles never cross organizations. However the requests on roles, users, members and
    organizations and those that sign in, register and configure the sign-on are interleaved,
    any number of them, wherever the database fails and wherever a process stops, every user
    and every membership (live or deleted) keeps having a role of their own organization, also
    where a row read by one statement is saved by a later one; and the permissions the cache
    holds for a user in an organization are those of a role of that organization. *)
Theorem roles_stay_home s ps s' ps' :
  apart_orgs s -> Forall (fun p => (exists c, request c p) \/ entering p) ps -> pool_steps acc_sem (s, ps) (s', ps') -> apart_orgs s'.
Proof.
  intros Ht Hps Hsteps. apply (guards_sound acc_sem later_rows apart_orgs _ _ Hsteps); [exact Ht |].
  eapply Forall_impl; [exact Hps |]. intros p [[c Hp] | Hp]; [by eapply request_safe | by apply entering_safe].
Qed.
End Entering.
End Users.

(** * A concrete installation *)
Definition staff (id role : uuid) (email : string) (super : bool) : User :=
  MkUser id 1 email "hash" email (Some role) "" true true super None None None "" "" false.
(** Organization 1 with its administrator's role 11 and a role 12 with no permission; the
    administrator 21 and the seller 22. *)
Definition office : State :=
  MkState
    (MkAccounts [MkOrg 1 "Office" "office" false]
       [MkRole 11 1 "admin" "" true false false; MkRole 12 1 "Seller" "" false true false]
       seeded_permissions (list_to_set (holding 11 (map key_of seeded_permissions)))
       [staff 21 11 "boss@office" false; staff 22 12 "seller@office" false]
       [MkMembership 31 21 1 (Some 11%N) true false; MkMembership 32 22 1 (Some 12%N) true false] [])
    [] [] ∅ ∅ (MkAccess [] []) ∅ ∅.
Definition as_user (id : uuid) : Ctx := MkCtx (Some id) (Some 1%N) false None.
Lemma office_apart : apart_orgs office.
Proof.
  assert (Hr : role_of (st_acc office) 11 1 /\ role_of (st_acc office) 12 1).
  { split; [exists (MkRole 11 1 "admin" "" true false false) | exists (MkRole 12 1 "Seller" "" false true false)];
      (split; [apply list_elem_of_In; simpl; auto | by split]). }
  split; [| intros u o p _ Hp; exfalso; exact (lookup_empty_Some (u, o) p Hp)]. split.
  - repeat constructor; cbn; rewrite ?list_elem_of_In; simpl; intuition congruence.
  - repeat constructor; cbn; rewrite ?list_elem_of_In; simpl; intuition congruence.
  - intros u [-> | [-> | []%not_elem_of_nil]%elem_of_cons]%elem_of_cons; apply home_some, Hr.
  - intros m [-> | [-> | []%not_elem_of_nil]%elem_of_cons]%elem_of_cons; apply home_some, Hr.
Qed.
Definition no_uuid (s : string) : option uuid := None.
Definition any_email (s : string) : bool := true.
Definition same_password (h p : string) : bool := String.eqb h p.
Definition nobody (p : SSOProvider) (code : string) : option (list (string * any)) := None.
Definition no_head (id : uuid) : string := "".
Definition no_address (p : SSOProvider) (nonce : string) : string := nonce.
Definition no_time (s : string) : option instant := None.
Definition new_seller : UserRequest := MkUserRequest "new@office" "secret" "New" (Some 12%N) None None None None None.
Definition hire : Prog reply := CreateUser no_uuid any_email (as_user 21) (Some new_seller).
Theorem roles_stay_home_witness :
  exists s', snd (prog_run (acc_handle nobody) hire office) = s' /\ length (ac_users (st_acc s')) = 3%nat /\ apart_orgs s'.
Proof.
  eexists. split; [reflexivity |]. split; [vm_compute; reflexivity |].
  apply (roles_stay_home no_uuid any_email same_password no_head 15 7 any_str id id no_address no_time "" office [hire] _ [Ret (fst (prog_run (acc_handle nobody) hire office))]); [apply office_apart | | ].
  - constructor; [| constructor]. left. eexists. apply req_create_user.
  - apply (prog_run_steps acc_sem (acc_handle nobody)); [apply acc_handle_sem | apply surjective_pairing].
Defined.
