(* ===== verification/Supers.v ===== *)
(** Super administrators ([internal/handlers/users.go], [cache.go]): whoever makes the requests
    on accounts, and however they are interleaved, only a super administrator appoints one. *)
From S2P Require Import Prelude Effects Sql GoText GoAny Permissions Accounts Migration Access AccountsApi Sessions SignOn Gate Tenancy.

Section Supers.
(** [P]: those who may be super administrators. *)
Context (P : uuid -> Prop).
Definition bounded (s : State) : Prop :=
  (forall u, u ∈ ac_users (st_acc s) -> us_IsSuperAdmin u = true -> P (us_ID u)) /\
  (forall user org p, st_perms s !! (user, org) = Some p -> up_IsSuperAdmin p = true -> P user).
Definition anytime (s s' : State) : Prop := True.
#[local] Instance anytime_preorder : PreOrder anytime.
Proof. by split. Qed.
Abbreviation held p s Q := (guards acc_sem anytime bounded p s Q).
(** What a request may be counted on to do at any moment. *)
Definition tame {A} (p : Prog A) (Q : A -> Prop) : Prop := forall s, held p s (fun a _ => Q a).

Lemma tame_ret {A} (a : A) (Q : A -> Prop) : Q a -> tame (mret a) Q.
Proof. by intros H s. Qed.
Lemma tame_bind {A B} (p : Prog A) (k : A -> Prog B) Q (Q' : A -> Prop) : tame p Q' -> (forall a, Q' a -> tame (k a) Q) -> tame (p ≫= k) Q.
Proof. intros Hp Hk s. apply guards_bind. eapply guards_mono; [apply _ | | apply Hp]. intros a s' _ Ha. by apply Hk. Qed.
Lemma tame_then {A B} (p : Prog A) (k : A -> Prog B) Q : tame p (fun _ => True) -> (forall a, tame (k a) Q) -> tame (p ≫= k) Q.
Proof. intros Hp Hk. eapply tame_bind; [exact Hp |]. intros a _. apply Hk. Qed.
Lemma tame_mono {A} (p : Prog A) (Q Q' : A -> Prop) : (forall a, Q a -> Q' a) -> tame p Q -> tame p Q'.
Proof. intros H Hp s. eapply guards_mono; [apply _ | | apply Hp]. intros a s' _. apply H. Qed.

(** ** Operations *)
Definition users_kept X (op : acc_op X) : Prop :=
  match op with
  | AExec f => forall d, ac_users (snd (f d)) = ac_users d
  | ATx body => keeps (fun d d' => ac_users d' = ac_users d) body
  | ACachePut _ _ _ => False
  | _ => True
  end.
#[local] Instance users_preorder : PreOrder (fun d d' : Accounts => ac_users d' = ac_users d).
Proof. split; [done |]. intros d1 d2 d3 H1 H2. congruence. Qed.
Lemma users_kept_sem X (op : acc_op X) s x s' :
  users_kept X op -> acc_sem X op s x s' -> ac_users (st_acc s') = ac_users (st_acc s) /\ st_perms s' ⊆ st_perms s.
Proof.
  destruct op; simpl; try (intros _ Hs; naive_solver); try done.
  - intros Hf (d & [E | [_ [-> | ->]]]%db_sem_exec & ->); cbn [with_acc st_acc st_perms]; [| done | by rewrite Hf].
    split; [| done]. rewrite <- (Hf (st_acc s)), <- E. done.
  - intros Hb (d & Hd & ->). split; [| done]. exact (keeps_sem _ _ _ _ _ (keeps_transaction _ _ Hb) Hd).
Qed.
Lemma bounded_kept s s' : ac_users (st_acc s') = ac_users (st_acc s) -> st_perms s' ⊆ st_perms s -> bounded s -> bounded s'.
Proof.
  intros E Hm [Hu Hc]. split; [by rewrite E |]. intros user org p Hp. apply (Hc user org). by eapply lookup_weaken.
Qed.
Lemma tame_call {X} (op : acc_op X) : users_kept X op -> tame (call op) (fun _ => True).
Proof.
  intros Hop s s1 x s2 _ H2 H3. split_and!; [done | | done]. apply users_kept_sem in H3 as [E Hm]; [| done]. by eapply bounded_kept.
Qed.
Lemma tame_query {X} (f : Accounts -> Res X) (Q : Res X -> Prop) :
  (forall s, bounded s -> Q (f (st_acc s))) -> Q (Err ErrDb) -> tame (query_acc f) Q.
Proof. intros Hf He s s1 x s2 _ H2 [-> [-> | ->]]; split_and!; try done. by apply Hf. Qed.
Lemma tame_query_any {X} (f : Accounts -> Res X) : tame (query_acc f) (fun _ => True).
Proof. by apply tame_query. Qed.
Lemma tame_cache user org p : (up_IsSuperAdmin p = true -> P user) -> tame (call (ACachePut user org p)) (fun _ => True).
Proof.
  intros Hp s s1 x s2 _ [Hu Hc] [-> | ->]; (split_and!; [done | | done]); [by split |]. split; [exact Hu |].
  intros u o q. cbn [with_perms st_perms]. rewrite lookup_insert_Some. intros [[[= <- <-] <-] | [_ Hq]]; [done | by apply (Hc u o)].
Qed.
(** A statement whose rows, on failure too, are super only as allowed. *)
Lemma tame_exec {X} (f : Accounts -> Res X * Accounts) :
  (forall d, (forall u, u ∈ ac_users d -> us_IsSuperAdmin u = true -> P (us_ID u)) ->
     forall u, u ∈ ac_users (snd (f d)) -> us_IsSuperAdmin u = true -> P (us_ID u)) -> tame (call (AExec f)) (fun _ => True).
Proof.
  intros Hf s s1 x s2 _ [Hu Hc] (d & Hd & ->). split_and!; [done | | done]. split; [| exact Hc]. cbn [with_acc st_acc].
  apply db_sem_exec in Hd as [E | [_ [-> | ->]]]; [| done | by apply Hf]. specialize (Hf (st_acc s1) Hu). by rewrite <- E in Hf.
Qed.

(** ** Statements on users *)
Lemma super_save u : (us_IsSuperAdmin u = true -> P (us_ID u)) -> tame (call (AExec (save_user u))) (fun _ => True).
Proof.
  intros Hu. apply tame_exec. intros d Hd v. unfold save_user. destruct (existsb _ _); [apply Hd |]. cbn [snd set_users ac_users].
  destruct (existsb _ _).
  - intros (w & Hw & ->)%sql_update_in. destruct (N.eqb _ _); [exact Hu | by apply Hd].
  - intros [Hv | ->%list_elem_of_singleton]%elem_of_app; [by apply Hd | exact Hu].
Qed.
Lemma super_insert u : (us_IsSuperAdmin u = true -> P (us_ID u)) -> tame (call (AExec (insert_user u))) (fun _ => True).
Proof.
  intros Hu. apply tame_exec. intros d Hd v. unfold insert_user. destruct (existsb _ _); [apply Hd |]. cbn [snd set_users ac_users].
  intros [Hv | ->%list_elem_of_singleton]%elem_of_app; [by apply Hd | exact Hu].
Qed.
Lemma super_restore id org hash name role super un dept :
  (super = true -> P id) -> tame (call (AExec (restore_user id org hash name role super un dept))) (fun _ => True).
Proof.
  intros Hs. apply tame_exec. intros d Hd v. cbn [restore_user snd set_users ac_users]. intros (w & Hw & ->)%sql_update_in.
  destruct (N.eqb_spec (us_ID w) id) as [<- |]; [exact Hs | by apply Hd].
Qed.
Lemma super_delete id : tame (call (AExec (delete_user id))) (fun _ => True).
Proof.
  apply tame_exec. intros d Hd v. cbn [delete_user snd set_users ac_users]. intros (w & Hw & ->)%sql_update_in.
  destruct (_ && _); [exact (Hd w Hw) | by apply Hd].
Qed.
Lemma user_bounded s id u : bounded s -> user_by_id id (st_acc s) = Ok u -> us_ID u = id /\ (us_IsSuperAdmin u = true -> P (us_ID u)).
Proof. intros [Hb _] (Hu & E%N.eqb_eq & _)%first_user_in. split; [done | by apply Hb]. Qed.

(** ** Parts of the requests *)
Lemma tame_emit e : tame (emit e) (fun _ => True).
Proof. by apply tame_call. Qed.
#[local] Hint Resolve tame_query_any tame_emit super_delete : whatc.
Ltac tame_op := apply tame_call; cbn [users_kept]; try exact I; intros d;
  unfold insert_role, save_role, insert_member, revive_member, delete_members, set_member_role, delete_role, add_links, drop_other_links; repeat case_match; reflexivity.
Ltac solve_tame :=
  repeat match goal with
  | |- tame (mret _) _ => apply tame_ret; exact I
  | |- tame (_ ≫= _) _ => apply tame_then; [| intros ?]
  | |- tame (match ?x with _ => _ end) _ => destruct x
  | |- tame (if ?x then _ else _) _ => destruct x
  | |- tame _ _ => solve [auto with whatc | tame_op]
  end.
Definition found_bounded (r : Res User) : Prop := match r with Ok u => us_IsSuperAdmin u = true -> P (us_ID u) | Err _ => True end.
Lemma tame_user id : tame (query_acc (user_by_id id)) (fun r => match r with Ok u => us_ID u = id /\ (us_IsSuperAdmin u = true -> P (us_ID u)) | Err _ => True end).
Proof. apply tame_query; [| done]. intros s Hs. destruct (user_by_id id (st_acc s)) as [u |] eqn:E; [| done]. by eapply user_bounded. Qed.
Lemma tame_permissions user org :
  tame (getUserPermissionsCached user org) (fun r => forall p, r = Some p -> up_IsSuperAdmin p = true -> P user).
Proof.
  unfold getUserPermissionsCached. apply (tame_bind _ _ _ (fun r => forall p, r = Some p -> up_IsSuperAdmin p = true -> P user)).
  { intros s s1 x s2 _ Hb [-> Hx]. split_and!; [done | done |]. intros p ->. destruct Hx as [Hx |]; [| done]. by apply (proj2 Hb user org). }
  intros [p |] Hp; [by apply tame_ret |]. eapply tame_bind; [apply tame_user |]. intros [u |] Hu; [| by apply tame_ret]. destruct Hu as [<- Hu].
  apply tame_then; [solve_tame |]. intros [id |].
  - apply tame_then; [solve_tame |]. intros [r |]; [| by apply tame_ret]. apply tame_then; [apply tame_query_any |]. intros [perms |]; [| by apply tame_ret].
    apply tame_then; [by apply tame_cache |]. intros _. apply tame_ret. by intros p [= <-].
  - destruct (us_IsSuperAdmin u) eqn:E; [| by apply tame_ret]. apply tame_then; [apply tame_cache; auto |]. intros _. apply tame_ret. intros p [= <-]. auto.
Qed.
Lemma tame_permissions_any user org : tame (getUserPermissionsCached user org) (fun _ => True).
Proof. eapply tame_mono; [| apply tame_permissions]. done. Qed.
#[local] Hint Resolve tame_permissions_any : whatc.
Lemma tame_super user : tame (IsSuperAdmin user) (fun b => b = true -> P user).
Proof.
  unfold IsSuperAdmin. eapply tame_bind; [apply tame_permissions |]. intros [p |] Hp; apply tame_ret; [by apply Hp | done].
Qed.
Lemma tame_super_any user : tame (IsSuperAdmin user) (fun _ => True).
Proof. eapply tame_mono; [| apply tame_super]. done. Qed.
Lemma tame_has user resource action org : tame (HasPermission user resource action org) (fun _ => True).
Proof. unfold HasPermission. solve_tame. Qed.
#[local] Hint Resolve tame_super_any tame_has : whatc.
Lemma tame_org c : tame (getOrgID c) (fun _ => True).
Proof. unfold getOrgID. solve_tame. Qed.
#[local] Hint Resolve tame_org : whatc.
(** The user a checked request acts for is the one that makes it. *)
Definition actor (c : Ctx) : uuid := default nil_uuid (cx_UserID c).
Lemma tame_who c : tame (getOrgAndUserID c) (fun r => forall org u, r = Some (org, u) -> u = actor c).
Proof.
  unfold getOrgAndUserID. apply tame_then; [apply tame_org |]. intros org. apply tame_ret. unfold actor. intros o u. destruct org, (cx_UserID c); simpl; congruence.
Qed.
Lemma tame_who_any c : tame (getOrgAndUserID c) (fun _ => True).
Proof. eapply tame_mono; [| apply tame_who]. done. Qed.
#[local] Hint Resolve tame_who_any : whatc.
Lemma tame_auth c resource action : tame (requireAuth c resource action) (fun r => forall org u, r = inl (org, u) -> u = actor c).
Proof.
  unfold requireAuth. eapply tame_bind; [apply tame_who |]. intros [[org u] |] Hu; [| by apply tame_ret]. apply tame_then; [apply tame_has |]. intros ok.
  apply tame_ret. destruct ok; [| done]. intros o v [= <- <-]. by eapply Hu.
Qed.
Lemma tame_auth_any c resource action : tame (requireAuth c resource action) (fun _ => True).
Proof. eapply tame_mono; [| apply tame_auth]. done. Qed.
#[local] Hint Resolve tame_auth_any : whatc.
Lemma tame_forget user : tame (InvalidateUserPermissionsCache user) (fun _ => True).
Proof. unfold InvalidateUserPermissionsCache, notifyUserPermissionsChanged. solve_tame. Qed.
#[local] Hint Resolve tame_forget : whatc.
Lemma tame_each {A} (f : A -> Prog unit) l : (forall x, tame (f x) (fun _ => True)) -> tame (for_each f l) (fun _ => True).
Proof. intros Hf. induction l as [| x l IH]; [by apply tame_ret |]. apply tame_then; [apply Hf | done]. Qed.
Lemma tame_forget_role role : tame (InvalidateRolePermissionsCache role) (fun _ => True).
Proof. unfold InvalidateRolePermissionsCache. solve_tame; apply tame_each; auto with whatc. Qed.
Lemma tame_keys keys : tame (permissions_by_keys keys) (fun _ => True).
Proof. unfold permissions_by_keys. do 2 (case_bool_decide; [by apply tame_ret |]). apply tame_query_any. Qed.
#[local] Hint Resolve tame_forget_role tame_keys : whatc.
Lemma tame_place parse_uuid org un dept : tame (parseOrgPlacement parse_uuid org un dept) (fun _ => True).
Proof. unfold parseOrgPlacement, check_unit. solve_tame. Qed.
Lemma tame_last id org : tame (is_last_admin id org) (fun _ => True).
Proof. unfold is_last_admin. solve_tame. Qed.
Lemma tame_new_role org asked : tame (new_user_role org asked) (fun _ => True).
Proof. unfold new_user_role. solve_tame. Qed.
Lemma tame_load role : tame (loadRolePermissions role) (fun _ => True).
Proof. apply tame_query_any. Qed.
Lemma tame_saved_role org user role r : tame (role_saved org user role r) (fun _ => True).
Proof. unfold role_saved. solve_tame. Qed.
#[local] Hint Resolve tame_place tame_last tame_new_role tame_load tame_saved_role : whatc.
Lemma tame_replace role keys old : tame (replace_requested role keys old) (fun _ => True).
Proof. unfold replace_requested. solve_tame. Qed.
#[local] Hint Resolve tame_replace : whatc.

(** ** Transactions *)
Lemma exec_users {X} (f : Accounts -> Res X * Accounts) :
  (forall d, ac_users (snd (f d)) = ac_users d) -> keeps (fun d d' => ac_users d' = ac_users d) (exec f).
Proof. intros H. apply keeps_exec; [apply _ | exact H]. Qed.
Lemma tame_defaults p role perms :
  tame (call (ATx (_ ← (exec (unset_defaults p) : AccDb (Res unit)); exec (insert_role role perms)))) (fun _ => True) /\
  tame (call (ATx (_ ← (exec (unset_defaults p) : AccDb (Res unit)); exec (save_role role perms)))) (fun _ => True).
Proof.
  split; apply tame_call, keeps_bind; try apply _; try (by apply exec_users); intros _; apply exec_users; intros d;
    unfold insert_role, save_role; by case_match.
Qed.
Lemma tame_create_org name slug id mid who : tame (call (ATx (create_org_tx name slug id mid who))) (fun _ => True).
Proof.
  apply tame_call. cbn [users_kept]. unfold create_org_tx.
  assert (He : keeps (fun d d' : Accounts => ac_users d' = ac_users d) elsewhere) by by apply exec_users.
  apply keeps_try; [apply _ | apply exec_users; intros d; unfold insert_org; by case_match | intros _].
  apply keeps_try; [apply _ | intros w x w' E; apply (seed_org_people id w x w' E) | intros _].
  apply keeps_try; [apply _ | exact He | intros _]. apply keeps_try; [apply _ | apply keeps_query, _ | intros adm].
  apply keeps_try; [apply _ | apply exec_users; intros d; unfold insert_member; by case_match | intros _].
  apply keeps_each; [apply _ | intros ?; exact He].
Qed.
#[local] Hint Resolve tame_create_org : whatc.

(** ** The requests that do not touch users *)
Lemma role_requests c body id :
  tame (CreateRole c body) (fun _ => True) /\ tame (UpdateRole c id body) (fun _ => True) /\ tame (DeleteRole c id) (fun _ => True).
Proof.
  split_and!; [unfold CreateRole | unfold UpdateRole, update_system_role, update_custom_role | unfold DeleteRole]; solve_tame; apply tame_defaults.
Qed.
Lemma member_requests uuid_head c id add role name :
  tame (AddOrganizationMember c add) (fun _ => True) /\ tame (RemoveOrganizationMember c id) (fun _ => True) /\
  tame (UpdateOrganizationMemberRole c id role) (fun _ => True) /\ tame (CreateOrganization uuid_head c name) (fun _ => True).
Proof.
  split_and!; [unfold AddOrganizationMember | unfold RemoveOrganizationMember | unfold UpdateOrganizationMemberRole | unfold CreateOrganization]; solve_tame.
Qed.

(** ** The requests on users *)
Section Users.
Context (parse_uuid : string -> option uuid) (valid_email : string -> bool) (password_matches : string -> string -> bool) (uuid_head : uuid -> string).

Definition may (u : User) : Prop := us_IsSuperAdmin u = true -> P (us_ID u).
Definition kept {A} (user : A -> User) (r : A + reply) : Prop := forall a, r = inl a -> may (user a).
Lemma tame_and_then {A B} (m : Prog (A + reply)) (k : A -> Prog (B + reply)) (ua : A -> User) (ub : B -> User) :
  tame m (kept ua) -> (forall a, may (ua a) -> tame (k a) (kept ub)) -> tame (and_then m k) (kept ub).
Proof. intros Hm Hk. unfold and_then. eapply tame_bind; [exact Hm |]. intros [a | e] Ha; [by apply Hk, Ha | by apply tame_ret]. Qed.
Lemma kept_inl {A} (user : A -> User) (a : A) : may (user a) -> tame (mret (inl a) : Prog (A + reply)) (kept user).
Proof. intros H. apply tame_ret. by intros ? [= <-]. Qed.
Ltac keep_user := apply tame_then; [solve_tame | intros ?; apply tame_ret; intros ?; repeat case_match; try done; by intros [= <-]].
Lemma email_kept u req : may u -> tame (change_email valid_email u req) (kept id).
Proof. intros Hu. unfold change_email. case_match; [by apply kept_inl |]. case_match; [by apply tame_ret |]. keep_user. Qed.
Lemma password_kept u req : may u -> tame (change_password u req) (kept id).
Proof. intros Hu. unfold change_password. case_match; [by apply kept_inl |]. keep_user. Qed.
Lemma role_kept org who u current req : may u -> tame (change_role org who u current req) (kept fst).
Proof. intros Hu. unfold change_role. case_match; [| by apply kept_inl]. keep_user. Qed.
Lemma active_kept who u req : may u -> tame (mret (change_active who u req)) (kept id).
Proof. intros Hu. apply tame_ret. intros v. unfold change_active. repeat case_match; intros [= <-]; exact Hu. Qed.
Lemma place_kept org who u req : may u -> tame (change_place parse_uuid org who u req) (kept id).
Proof.
  intros Hu. unfold change_place. set (v := match uq_XProcessSellerCode req with None => u | _ => _ end).
  assert (Hv : may v) by by unfold v; destruct (uq_XProcessSellerCode req).
  case_match; [| by apply kept_inl]. apply tame_then; [apply tame_has |]. intros ok. case_match; [by apply tame_ret | keep_user].
Qed.
Lemma super_kept who u req : ~ P who -> may u -> tame (change_super who u req) (kept id).
Proof.
  intros Hw Hu. unfold change_super. case_match; [| by apply kept_inl]. eapply tame_bind; [apply tame_super |]. intros [|] Hs; [by destruct Hw; apply Hs | by apply tame_ret].
Qed.
Lemma changed_kept org who u current req : ~ P who -> may u -> tame (changed_user parse_uuid valid_email org who u current req) (kept fst).
Proof.
  intros Hw Hu. unfold changed_user. eapply tame_and_then; [by apply email_kept |]. intros u1 H1.
  eapply tame_and_then; [apply password_kept; by case_match |]. intros u2 H2. eapply tame_and_then; [by apply role_kept |]. intros [u3 b] H3.
  eapply tame_and_then; [by apply active_kept |]. intros u4 H4. eapply tame_and_then; [by apply place_kept |]. intros u5 H5.
  eapply tame_and_then; [by apply super_kept |]. intros u6 H6. by apply kept_inl.
Qed.
Lemma update_user_tame c id body : ~ P (actor c) -> tame (UpdateUser parse_uuid valid_email c id body) (fun _ => True).
Proof.
  intros Hw. unfold UpdateUser. apply tame_then; [apply tame_org |]. intros [org |]; [| by apply tame_ret]. destruct id as [id |]; [| by apply tame_ret].
  apply tame_then; [solve_tame |]. intros ok. case_match; [by apply tame_ret |].
  apply (tame_bind _ _ _ (fun r => forall v, r = Ok v -> may (fst v))).
  { apply tame_query; [| done]. intros s Hs v. destruct (user_in id org (st_acc s)) as [w |] eqn:E; [| done]. intros [= <-]. simpl.
    unfold user_in in E. case_match; [| done]. by apply user_bounded in E as [_ E]. }
  intros [[u current] |] Hu; [| by apply tame_ret]. specialize (Hu _ eq_refl). simpl in Hu.
  apply tame_then; [solve_tame |]. intros _. destruct body as [req |]; [| by apply tame_ret]. apply tame_then; [solve_tame |]. intros ok2. case_match; [by apply tame_ret |].
  case_match; [unfold update_member; solve_tame |]. unfold update_native. eapply tame_bind; [by apply changed_kept |].
  intros [[v b] | e] Hv; [| by apply tame_ret]. specialize (Hv _ eq_refl). simpl in Hv. apply tame_then; [by apply super_save |]. intros r. solve_tame.
Qed.
Lemma create_user_tame c body : ~ P (actor c) -> tame (CreateUser parse_uuid valid_email c body) (fun _ => True).
Proof.
  intros Hw. unfold CreateUser. eapply tame_bind; [apply tame_auth |]. intros [[org who] | e] Hwho; [| by apply tame_ret]. rewrite (Hwho _ _ eq_refl). clear who Hwho.
  destruct body as [req |]; [| by apply tame_ret]. do 2 (case_match; [by apply tame_ret |]).
  apply tame_then; [apply tame_place |]. intros [pl |]; [| by apply tame_ret]. apply tame_then; [apply tame_new_role |]. intros [role |]; [| by apply tame_ret].
  apply tame_then; [solve_tame |]. intros [? |]; [by apply tame_ret |]. apply tame_then; [solve_tame |]. intros [hash |]; [| by apply tame_ret].
  apply (tame_bind _ _ _ (fun r => r <> inl true)).
  { unfold may_be_super. destruct (uq_IsSuperAdmin req) as [[|] |]; try by apply tame_ret. eapply tame_bind; [apply tame_super |].
    intros [|] Hs; [by destruct Hw; apply Hs | by apply tame_ret]. }
  intros [[|] | err] Hs; [done | | by apply tame_ret]. apply tame_then; [solve_tame |]. intros [u |].
  - unfold restore_deleted. apply tame_then; [by apply super_restore |]. intros r. solve_tame.
  - unfold create_fresh. apply tame_then; [solve_tame |]. intros id. apply tame_then; [by apply super_insert |]. intros r. solve_tame.
Qed.
Lemma delete_user_tame c id : tame (DeleteUser c id) (fun _ => True).
Proof. unfold DeleteUser, removed. solve_tame. Qed.
Lemma own_row_tame c pw av : tame (ChangePassword password_matches c pw) (fun _ => True) /\ tame (UpdateAvailability c av) (fun _ => True).
Proof.
  split; [unfold ChangePassword | unfold UpdateAvailability].
  - destruct (cx_UserID c) as [id |]; [| by apply tame_ret]. eapply tame_bind; [apply tame_user |]. intros [u |] Hu; [| by apply tame_ret]. destruct Hu as [_ Hu].
    destruct pw as [[cur new] |]; [| by apply tame_ret]. do 3 (case_match; [by apply tame_ret |]). apply tame_then; [solve_tame |].
    intros [h |]; [| by apply tame_ret]. apply tame_then; [by apply super_save |]. intros r. solve_tame.
  - apply tame_then; [apply tame_who_any |]. intros [[org id] |]; [| by apply tame_ret]. eapply tame_bind; [apply tame_user |].
    intros [u |] Hu; [| by apply tame_ret]. destruct Hu as [_ Hu]. destruct av as [a |]; [| by apply tame_ret].
    apply tame_then; [by apply super_save |]. intros r. solve_tame.
Qed.
Abbreviation request := (account_request parse_uuid valid_email password_matches uuid_head).
Lemma request_tame c p : request c p -> ~ P (actor c) -> tame p (fun _ => True).
Proof.
  intros Hr Hw. destruct Hr.
  - by apply (role_requests c body None).
  - by apply role_requests.
  - by apply (role_requests c None).
  - by apply create_user_tame.
  - by apply update_user_tame.
  - by apply delete_user_tame.
  - by apply (own_row_tame c body None).
  - by apply (own_row_tame c None).
  - by apply (member_requests uuid_head c None body None None).
  - by apply (member_requests uuid_head c id None None None).
  - by apply (member_requests uuid_head c id None body None).
  - by apply (member_requests uuid_head c None None None).
Qed.

(** ** Signing in *)
Section Entering.
Context (AccessExpiryMins RefreshExpiryDays : Z) (sprint : any -> string) (to_lower query_escape : string -> string)
  (auth_address : SSOProvider -> string -> string) (parse_time : string -> option instant) (BasePath : string).
Lemma tame_sign u failed : tame (sign_in AccessExpiryMins RefreshExpiryDays u failed) (fun _ => True).
Proof. unfold sign_in, generateAccessToken, generateRefreshToken. solve_tame. Qed.
Lemma tame_role_cache role : tame (GetRolePermissionsCached role) (fun _ => True).
Proof. unfold GetRolePermissionsCached. solve_tame. Qed.
Lemma tame_info provider raw code : tame (fetchUserInfo sprint provider raw code) (fun _ => True).
Proof. unfold fetchUserInfo, fetchGitHubEmail. solve_tame. Qed.
#[local] Hint Resolve tame_sign tame_role_cache tame_info : whatc.
Lemma tame_register_tx u mid : us_IsSuperAdmin u = false -> tame (call (ATx (register_tx u mid))) (fun _ => True).
Proof.
  intros Hs s s1 x s2 _ [Hu Hc] (d & Hd & ->). split_and!; [done | | done]. split; [| exact Hc]. cbn [with_acc st_acc].
  apply db_sem_transaction in Hd as [[-> _] | (a & Hd & _)]; [exact Hu |]. unfold register_tx in Hd.
  apply db_sem_try in Hd as [(e & _ & E) | (u1 & d1 & H1 & Hd)]; [done |]. apply exec_ok_sem in H1, Hd.
  assert (E : ac_users d = ac_users d1) by (unfold insert_member in Hd; by case_match; injection Hd as ? <-). rewrite E.
  unfold insert_user in H1. case_match; [done |]. injection H1 as _ <-. intros v [Hv | ->%list_elem_of_singleton]%elem_of_app; [by apply Hu | by rewrite Hs].
Qed.
Lemma welcome_tame u provider i : may u -> tame (welcome_back query_escape AccessExpiryMins RefreshExpiryDays BasePath u provider i) (fun _ => True).
Proof.
  intros Hu. unfold welcome_back, sso_signed. apply tame_then; [| intros ?; solve_tame]. destruct (String.eqb _ _); [| by apply tame_ret].
  apply tame_then; [by apply super_save | intros ?; by apply tame_ret].
Qed.
Lemma callback_tame provider code nonce error description :
  tame (CallbackSSO sprint to_lower query_escape AccessExpiryMins RefreshExpiryDays BasePath provider code nonce error description) (fun _ => True).
Proof.
  unfold CallbackSSO, callback_with, provider_query. do 2 (case_match; [by apply tame_ret |]).
  apply tame_then; [solve_tame |]. intros [st |]; [| by apply tame_ret]. apply tame_then; [solve_tame |]. intros _. apply tame_then; [solve_tame |]. intros now.
  case_match; [by apply tame_ret |]. apply tame_then; [solve_tame |]. intros [cfg |]; [| by apply tame_ret]. apply tame_then; [solve_tame |].
  intros [raw |]; [| by apply tame_ret]. apply tame_then; [apply tame_info |]. intros [i |]; [| by apply tame_ret]. case_match; [by apply tame_ret |].
  apply (tame_bind _ _ _ (fun r => forall u, r = Ok u -> may u)).
  { apply tame_query; [| done]. intros s [Hs _] u (Hu & _ & _)%first_user_in. exact (Hs u Hu). }
  intros [u |] Hu; [by apply welcome_tame, Hu |]. unfold create_sso_user, sso_signed. case_match; [by apply tame_ret |]. apply tame_then; [solve_tame |].
  intros [role |]; [| by apply tame_ret]. apply tame_then; [solve_tame |]. intros id. apply tame_then; [by apply super_insert |]. intros r. solve_tame.
Qed.
Abbreviation entering := (session_request password_matches sprint to_lower query_escape auth_address parse_time AccessExpiryMins RefreshExpiryDays BasePath).
Lemma entering_tame p : entering p -> tame p (fun _ => True).
Proof.
  intros [].
  - unfold Login. solve_tame.
  - unfold Register, new_member_role, join_existing, register_new. solve_tame. by apply tame_register_tx.
  - unfold RefreshToken, refresh_user, carried_org. solve_tame.
  - unfold SwitchOrg. solve_tame.
  - unfold Logout. solve_tame.
  - unfold GetWSToken. solve_tame.
  - unfold InitSSO, provider_query. solve_tame.
  - apply callback_tame.
  - unfold UpdateSSOProvider, provider_query. solve_tame.
  - unfold DeleteSSOProvider. solve_tame.
  - unfold CreateAPIKey, generateAPIKey. solve_tame.
  - unfold UpdateAPIKey. solve_tame.
  - unfold DeleteAPIKey. solve_tame.
Qed.

(** C23: only a super administrator appoints one. Take any set [P] of users that contains
    every super administrator, by the table and by the cache; if nobody of [P] makes a request
    on accounts, then however those requests and those that sign in, register and configure
    the sign-on are interleaved, wherever the database fails and wherever a process stops,
    there is still no super administrator outside [P]: creating a user, restoring a deleted
    one and updating one all ask first whether the caller is one. *)
Theorem super_admins_appointed s ps s' ps' :
  bounded s -> Forall (fun p => (exists c, request c p /\ ~ P (actor c)) \/ entering p) ps -> pool_steps acc_sem (s, ps) (s', ps') -> bounded s'.
Proof.
  intros Hs Hps Hsteps. apply (guards_sound acc_sem anytime bounded _ _ Hsteps); [exact Hs |].
  eapply Forall_impl; [exact Hps |]. intros p [(c & Hp & Hc) | Hp]; [by eapply request_tame | by apply entering_tame].
Qed.
End Entering.
End Users.
End Supers.

(** With the seller of [office] asking to be made one, and no super administrator at all. *)
Definition ask_super : Prog reply :=
  UpdateUser no_uuid any_email (as_user 22) (Some 22%N) (Some (MkUserRequest "" "" "Boss" None None None None None (Some true))).
Theorem super_admins_appointed_witness :
  fst (prog_run (acc_handle nobody) ask_super office) = Reply 403 "Only super admins can modify super admin status" /\
  bounded (fun _ => False) (snd (prog_run (acc_handle nobody) ask_super office)).
Proof.
  split; [vm_compute; reflexivity |].
  apply (super_admins_appointed (fun _ => False) no_uuid any_email same_password no_head 15 7 any_str id id no_address no_time "" office [ask_super] _ [Ret (fst (prog_run (acc_handle nobody) ask_super office))]).
  - split; [| intros u o p Hp; exfalso; exact (lookup_empty_Some (u, o) p Hp)].
    intros u [-> | [-> | []%not_elem_of_nil]%elem_of_cons]%elem_of_cons; discriminate.
  - constructor; [| constructor]. left. eexists. split; [apply req_update_user | intros []].
  - apply (prog_run_steps acc_sem (acc_handle nobody)); [apply acc_handle_sem | apply surjective_pairing].
Defined.
