(* ===== verification/Entry.v ===== *)
(** What it takes to get in, on every path: a request is let through with a credential of the
    one it is taken for ([Gate]), and tokens are only signed for an account that was asked for
    ([Sessions], [SignOn]). *)
From S2P Require Import Prelude Effects Sql GoText GoAny Permissions Accounts Migration Access AccountsApi Sessions SignOn Gate Tenancy.
From Stdlib Require Import Ascii.

Abbreviation trace := (list (Effects.event acc_op)).
(** What is known of the answers: a query that does not fail answers with what some state of
    the database says. *)
Definition honest X (op : acc_op X) : X -> Prop :=
  match op in acc_op X return X -> Prop with
  | AQuery f => fun x => (exists s, x = f s) \/ x = Err ErrDb
  | _ => fun _ => True
  end.
Definition always X (op : acc_op X) (g : trace) : Prop := True.
Lemma honest_sem X (op : acc_op X) s x s' : acc_sem X op s x s' -> honest X op x.
Proof. destruct op; simpl; try done. intros [_ [-> | ->]]; [left; by exists s | by right]. Qed.

Lemma ev_here {X} (op : acc_op X) x (g : trace) : Ev op x ∈ Ev op x :: g.
Proof. apply elem_of_cons. by left. Qed.

(** * The gate *)
Lemma split_on_cons c s : exists w ws, split_on c s = w :: ws.
Proof. destruct s as [| x s]; simpl; [eauto |]. destruct (Ascii.eqb x c); [eauto |]. destruct (split_on c s); eauto. Qed.
Lemma split_on_one c s : List.length (split_on c s) = 1%nat -> split_on c s = [s].
Proof.
  induction s as [| x s IH]; [done |]. simpl. destruct (split_on_cons c s) as (w & ws & E). rewrite E in *. destruct (Ascii.eqb x c); simpl; [done |].
  intros [= H]. destruct ws; [| done]. by injection (IH eq_refl) as ->.
Qed.
Lemma split_on_pair c s a b : split_on c s = [a; b] -> s = a +:+ String c b.
Proof.
  revert a. induction s as [| x s IH]; [done |]. intros a. simpl. destruct (Ascii.eqb_spec x c) as [-> |].
  - intros [= <- H]. assert (E := split_on_one c s). rewrite H in E. specialize (E eq_refl). injection E as ->. done.
  - destruct (split_on c s) as [| w [| w' [| ]]] eqn:E; try done. intros [= <- ->]. by rewrite (IH w eq_refl).
Qed.

Section GateProofs.
Context (password_matches : string -> string -> bool) (parse_token : string -> instant -> option JWTClaims).
Abbreviation gate := (gate password_matches parse_token).

(** A token that was valid at a moment of the request. *)
Definition valid_token (t : string) (c : JWTClaims) (g : trace) : Prop := exists now, Ev ANow now ∈ g /\ parse_token t now = Some c.
(** The request repeats in a header the secret only a page of the site can read in the cookie. *)
Definition double_submit (r : HttpRequest) : Prop := rq_CSRFHeader r = rq_CSRFCookie r /\ rq_CSRFCookie r <> "".
(** An API key: a row that was live and active, its hash that of the key, not expired, with the
    live user it belongs to. *)
Definition valid_key (key : string) (k : APIKey) (u : User) (g : trace) : Prop :=
  (exists s, k ∈ ax_keys (st_access s) /\ u ∈ ac_users (st_acc s)) /\
  ak_Deleted k = false /\ ak_IsActive k = true /\ us_Deleted u = false /\ us_ID u = ak_UserID k /\
  password_matches (ak_KeyHash k) key = true /\ forall t, ak_ExpiresAt k = Some t -> exists now, Ev ANow now ∈ g /\ now <= t.
Inductive credential (r : HttpRequest) (g : trace) : Ctx -> Prop :=
  | by_key k u : rq_APIKey r <> "" -> valid_key (rq_APIKey r) k u g ->
      credential r g (MkCtx (Some (ak_UserID k)) (Some (ak_OrganizationID k)) (us_IsSuperAdmin u) (rq_Organization r))
  | by_bearer t c : rq_APIKey r = "" -> rq_Authorization r = "Bearer " +:+ t -> valid_token t c g -> credential r g (context_of c r)
  | by_cookie c : rq_APIKey r = "" -> rq_Authorization r = "" -> valid_token (rq_AccessCookie r) c g ->
      (mutating (rq_Method r) = true -> double_submit r) -> credential r g (context_of c r).

Definition key_row (l : list (APIKey * option User)) : Prop :=
  forall k u, (k, Some u) ∈ l -> (exists s, k ∈ ax_keys (st_access s) /\ u ∈ ac_users (st_acc s)) /\
  ak_Deleted k = false /\ ak_IsActive k = true /\ us_Deleted u = false /\ us_ID u = ak_UserID k.
Lemma key_users_row s long short l : keys_like long short (st_access s) = Ok l -> key_row (key_users s l).
Proof.
  intros [= <-] k u. unfold key_users. intros (k' & E & Hk)%list_elem_of_fmap. injection E as -> E.
  apply list_elem_of_In, filter_In in Hk as [Hk [[_ Ha]%andb_true_iff Hd%negb_true_iff]%andb_true_iff]. apply list_elem_of_In in Hk.
  destruct (user_by_id (ak_UserID k') (st_acc s)) as [v |] eqn:Ev; [| done]. injection E as ->.
  apply first_user_in in Ev as (Hu & Eid%N.eqb_eq & Hdu). split; [by exists s | done].
Qed.
Lemma try_keys_valid key l g :
  key_row l -> extends always honest (try_keys password_matches key l) g (fun r g' => forall k u, r = Some (k, u) -> valid_key key k u g').
Proof.
  revert g. induction l as [| [k u] l IH]; intros g Hl; [by apply extends_ret |]. simpl.
  assert (Hl' : key_row l) by (intros k' u' H; apply Hl; by right). destruct (password_matches (ak_KeyHash k) key) eqn:Em; [| by apply IH].
  apply (extends_bind _ _ _ _ _ (fun b g' => b = false -> forall t, ak_ExpiresAt k = Some t -> exists now, Ev ANow now ∈ g' /\ now <= t)).
  { destruct (ak_ExpiresAt k) as [t |]; [| by apply extends_ret]. apply extends_call; [done |]. intros now _. apply extends_ret.
    intros Hb t' [= <-]. exists now. split; [apply ev_here | by apply Z.ltb_ge]. }
  intros [|] g' Hg He; [by apply extends_ret |]. destruct u as [u |]; [| by apply IH].
  apply extends_ret. intros k' u' [= <- <-]. destruct (Hl k u (list_elem_of_here _ _)) as (H1 & H2 & H3 & H4 & H5).
  split_and!; try done. by apply He.
Qed.
Lemma key_valid r key g :
  extends always honest (validateAPIKey password_matches r key) g (fun o g' => forall c, o = Some c ->
    exists k u, valid_key key k u g' /\ c = MkCtx (Some (ak_UserID k)) (Some (ak_OrganizationID k)) (us_IsSuperAdmin u) (rq_Organization r)).
Proof.
  unfold validateAPIKey. destruct (_ || _); [by apply extends_ret |]. apply extends_call; [done |]. intros l Hl. destruct l as [l |]; [| by apply extends_ret].
  eapply extends_bind; [apply try_keys_valid |].
  { destruct Hl as [[s Hs] | Hs]; [| done]. destruct (keys_like _ _ _) as [l' |] eqn:E; [| done]. injection Hs as ->. by eapply key_users_row. }
  intros o g' Hg Ho. apply extends_ret. intros c. destruct o as [[k u] |]; [| done]. intros [= <-]. exists k, u. split; [by apply Ho | done].
Qed.

Lemma token_valid r t g : extends always honest (by_token parse_token r t) g (fun x g' => forall c, x = inl c -> exists k, c = context_of k r /\ valid_token t k g').
Proof.
  unfold by_token. destruct (empty t); [by apply extends_ret |]. apply extends_call; [done |]. intros now _. apply extends_ret.
  intros c. destruct (parse_token t now) as [k |] eqn:E; [| done]. intros [= <-]. exists k. split; [done |]. exists now. split; [apply ev_here | done].
Qed.
Lemma csrf_passed r :
  CSRFProtection r = None -> rq_APIKey r = "" -> rq_Authorization r = "" -> rq_AccessCookie r <> "" -> mutating (rq_Method r) = true -> double_submit r.
Proof.
  unfold CSRFProtection, empty. intros H E1 E2 Hc Hm. rewrite E1, E2, Hm in H. cbn [negb] in H. rewrite (proj2 (String.eqb_neq _ _) Hc) in H.
  destruct (String.eqb_spec (rq_CSRFCookie r) ""); [done |]. destruct (String.eqb_spec (rq_CSRFHeader r) ""); [done |].
  destruct (String.eqb_spec (rq_CSRFCookie r) (rq_CSRFHeader r)) as [E |]; [by split | done].
Qed.
Lemma empty_true s : empty s = true -> s = "".
Proof. apply String.eqb_eq. Qed.
Lemma empty_false s : empty s = false -> s <> "".
Proof. apply String.eqb_neq. Qed.
Lemma auth_admits r g : CSRFProtection r = None -> extends always honest (AuthWithDB password_matches parse_token r) g (fun x g' => forall c, x = inl c -> credential r g' c).
Proof.
  intros Hc. unfold AuthWithDB. destruct (empty (rq_APIKey r)) eqn:Ek; simpl.
  - apply empty_true in Ek. destruct (empty (rq_Authorization r)) eqn:Ea.
    + apply empty_true in Ea. destruct (empty (rq_AccessCookie r)) eqn:Et; [unfold by_token; rewrite Et; by apply extends_ret |]. apply empty_false in Et.
      eapply extends_mono; [| apply token_valid]. intros x g' _ H c ->. destruct (H c eq_refl) as (k & -> & Hk). apply by_cookie; try done. by apply csrf_passed.
    + destruct (split_on " " (rq_Authorization r)) as [| scheme [| t [|]]] eqn:Es; try by apply extends_ret.
      destruct (String.eqb_spec scheme "Bearer") as [-> |]; [| by apply extends_ret]. apply split_on_pair in Es.
      eapply extends_mono; [| apply token_valid]. intros x g' _ H c ->. destruct (H c eq_refl) as (k & -> & Hk). exact (by_bearer r g' t k Ek Es Hk).
  - apply empty_false in Ek. eapply extends_bind; [apply key_valid |]. intros o g' _ Ho. apply extends_ret. intros c E.
    destruct o as [c' |]; [| done]. injection E as ->. destruct (Ho c eq_refl) as (k & u & Hk & ->). by apply by_key.
Qed.

(** C24: a request is taken for somebody only on a credential of theirs: an API key whose row
    was live, active and unexpired, with the live user it belongs to; a bearer token that was
    valid at that moment; or the cookie, and then a request that changes something also
    repeated the CSRF cookie in its header, so that another site's page cannot make it. Only
    the listed paths are served to nobody in particular. *)
Theorem gate_admits r :
  ensures always (trace_contract honest) (gate r) []
    (fun p g => match p with
                | Known c => credential r g c
                | Anonymous => unauthenticated (rq_Method r) (rq_Path r) = true
                | Stopped _ => True
                end).
Proof.
  unfold Gate.gate. destruct (CSRFProtection r) eqn:Hc; [by apply ensures_ret |]. destruct (unauthenticated _ _) eqn:Hu; [by apply ensures_ret |].
  apply ensures_bind. eapply ensures_mono; [| by apply auth_admits]. intros [c | e] g [_ H]; apply ensures_ret; [by apply H | done].
Qed.
End GateProofs.

(** * Tokens *)
Section Vouched.
Context (password_matches : string -> string -> bool) (sprint : any -> string) (to_lower query_escape : string -> string)
  (auth_address : SSOProvider -> string -> string) (AccessExpiryMins RefreshExpiryDays : Z) (BasePath : string).
Abbreviation Login := (Login password_matches AccessExpiryMins RefreshExpiryDays).
Abbreviation Register := (Register password_matches AccessExpiryMins RefreshExpiryDays).
Abbreviation RefreshToken := (RefreshToken AccessExpiryMins RefreshExpiryDays).
Abbreviation SwitchOrg := (SwitchOrg AccessExpiryMins RefreshExpiryDays).
Abbreviation CallbackSSO := (CallbackSSO sprint to_lower query_escape AccessExpiryMins RefreshExpiryDays BasePath).
Abbreviation sign_in := (sign_in AccessExpiryMins RefreshExpiryDays).

(** The database answered [x] to [f]. *)
Definition answered {X} (f : Accounts -> Res X) (x : X) (g : trace) : Prop := Ev (AQuery (acc f)) (Ok x) ∈ g.
Definition describes (c : JWTClaims) (v : User) : Prop :=
  jc_UserID c = us_ID v /\ jc_OrganizationID c = us_OrganizationID v /\ jc_RoleID c = us_RoleID v /\ jc_IsSuperAdmin c = us_IsSuperAdmin v.
(** [v] is the account [u] as it stands in an organization it may act for. *)
Inductive vouched (g : trace) (u : User) : User -> Prop :=
  | at_home : vouched g u u
  | as_member org m : answered (membership_of (us_ID u) org) m g -> vouched g u (in_org org (uo_RoleID m) u)
  | as_super org : us_IsSuperAdmin u = true -> (exists n, 0 < n /\ answered (count_org org) n g) \/ (exists o, answered (org_exists org) o g) ->
      vouched g u (in_org org (us_RoleID u) u)
  | as_joined org role id : Ev (AExec (insert_member (MkMembership id (us_ID u) org (Some role) false false))) (Ok tt) ∈ g ->
      vouched g u (in_org org (Some role) u).
Lemma vouched_later g g' u v : later g g' -> vouched g u v -> vouched g' u v.
Proof.
  intros Hg [| org m H | org H1 H2 | org role id H]; [apply at_home | eapply as_member, later_in; done | | eapply as_joined, later_in; done].
  apply as_super; [done |]. destruct H2 as [(n & Hn & H) | (o & H)]; [left; exists n; split; [done | by eapply later_in] | right; exists o; by eapply later_in].
Qed.
(** A token is signed for an account the credential of the request stands for. *)
Definition signs (cred : User -> trace -> Prop) X (op : acc_op X) (g : trace) : Prop :=
  match op with ASign c => exists u v, cred u g /\ vouched g u v /\ describes c v | _ => True end.

(** ** The credential of each entrance *)
Definition by_password (email password : string) (u : User) (g : trace) : Prop :=
  answered (user_by_email email) u g /\ password_matches (us_PasswordHash u) password = true /\ us_IsActive u = true.
Definition registered (u : User) (g : trace) : Prop := exists mid, Ev (ATx (register_tx u mid)) (Ok tt) ∈ g.
Definition by_refresh (c : JWTClaims) (u : User) (g : trace) : Prop :=
  answered (user_by_id (jc_UserID c)) u g /\ us_IsActive u = true /\
  forall jti, jc_ID c = Some jti -> exists n, n <> 0 /\ Ev (ARefreshDel jti) (Ok n) ∈ g.
Definition by_context (id : uuid) (u : User) (g : trace) : Prop := answered (user_by_id id) u g.
(** The address the provider of the organization of the sign-on gave for the code. *)
Definition said_by (provider code nonce email : string) (g : trace) : Prop :=
  exists st cfg raw, Ev (AStateGet nonce) (Some st) ∈ g /\ so_Provider st = provider /\
    Ev (AQuery (fun s => first_provider (provider_of (so_OrgID st) provider) (st_access s))) (Ok cfg) ∈ g /\
    Ev (AExchange cfg code) (Some (Some raw)) ∈ g /\
    (email = ui_Email (read_user_info sprint provider raw) \/ exists l, Ev (AGitHubEmails code) (Some l) ∈ g /\ first_verified l = Some email).
Definition by_provider (provider code nonce : string) (u : User) (g : trace) : Prop :=
  us_IsActive u = true /\ exists email, said_by provider code nonce email g /\
    ((exists u0, answered (user_by_email email) u0 g /\ (u = u0 \/ exists id, u = with_sso provider id u0)) \/
     (us_Email u = email /\ Ev (AExec (insert_user u)) (Ok tt) ∈ g)).
Inductive entrance : (User -> trace -> Prop) -> Prog reply -> Prop :=
  | enter_login email password : entrance (by_password email password) (Login (Some (email, password)))
  | enter_register email password name org :
      entrance (fun u g => by_password email password u g \/ registered u g) (Register (Some (email, password, name, org)))
  | enter_refresh c : entrance (by_refresh c) (RefreshToken (Some (Some c)))
  | enter_switch c id body : cx_UserID c = Some id -> entrance (by_context id) (SwitchOrg c body)
  | enter_sso provider code nonce error description : entrance (by_provider provider code nonce) (CallbackSSO provider code nonce error description).

(** ** Signing *)
Definition lasting (cred : User -> trace -> Prop) : Prop := forall u g g', later g g' -> cred u g -> cred u g'.
Lemma answered_later {X} (f : Accounts -> Res X) x g g' : later g g' -> answered f x g -> answered f x g'.
Proof. apply later_in. Qed.
Lemma describes_claims u jti e i : describes (claims_of u jti e i) u.
Proof. done. Qed.
Lemma sign_in_vouched cred u v failed g :
  lasting cred -> cred u g -> vouched g u v -> extends (signs cred) honest (sign_in v failed) g (fun _ _ => True).
Proof.
  intros Hl Hu Hv. assert (Hs : forall jti e i g', later g g' -> signs cred _ (ASign (claims_of v jti e i)) g').
  { intros jti e i g' Hg. exists u, v. split_and!; [by eapply Hl | by eapply vouched_later | done..]. }
  unfold Sessions.sign_in, generateAccessToken, generateRefreshToken. apply (extends_bind _ _ _ _ _ (fun _ _ => True)).
  - apply extends_call; [done |]. intros now _. apply extends_call; [done |]. intros issued _.
    apply extends_call; [apply Hs; by do 2 (etrans; [| apply later_cons]) |]. intros ok _. by apply extends_ret.
  - intros a g1 H1 _. destruct a as [a |]; [| by apply extends_ret]. apply (extends_bind _ _ _ _ _ (fun _ _ => True)); [| intros; by apply extends_ret].
    apply extends_call; [done |]. intros jti _. apply extends_call; [done |]. intros now _. apply extends_call; [done |]. intros issued _.
    apply extends_call; [apply Hs; do 3 (etrans; [| apply later_cons]); done |]. intros [|] _; [| by apply extends_ret].
    apply extends_call; [done |]. intros ? _. by apply extends_ret.
Qed.

(** ** The entrances *)
Definition silent X (op : acc_op X) : Prop := match op with ASign _ => False | _ => True end.
Lemma silent_signs cred X (op : acc_op X) g : silent X op -> signs cred X op g.
Proof. by destruct op. Qed.
Abbreviation fine cred p g R := (extends (signs cred) honest p g R).
Lemma fine_silent cred {A} (p : Prog A) g : only silent p -> fine cred p g (fun _ _ => True).
Proof. intros Hp. apply (extends_only _ _ silent); [intros; by apply silent_signs | done]. Qed.
Lemma fine_then cred {A} (p : Prog A) (k : A -> Prog reply) g :
  only silent p -> (forall a g', later g g' -> fine cred (k a) g' (fun _ _ => True)) -> fine cred (p ≫= k) g (fun _ _ => True).
Proof. intros Hp Hk. eapply extends_bind; [by apply fine_silent |]. intros a g' Hg _. by apply Hk. Qed.
Lemma fine_query cred {X} (f : Accounts -> Res X) (k : Res X -> Prog reply) g :
  (forall x g', later g g' -> (forall a, x = Ok a -> answered f a g' /\ exists d, f d = Ok a) -> fine cred (k x) g' (fun _ _ => True)) ->
  fine cred (query_acc f ≫= k) g (fun _ _ => True).
Proof.
  intros Hk. apply extends_call; [done |]. intros x Hx. apply Hk; [apply later_cons |]. intros a ->. split; [apply ev_here |].
  destruct Hx as [[s Hs] | Hx]; [| done]. by exists (st_acc s).
Qed.
Lemma fine_ret cred (r : reply) g : fine cred (mret r) g (fun _ _ => True).
Proof. by apply extends_ret. Qed.
Lemma query_silent {X} (f : Accounts -> Res X) : only silent (query_acc f).
Proof. by split. Qed.
#[local] Hint Resolve query_silent : whatc.
Lemma role_cache_silent role : only silent (GetRolePermissionsCached role).
Proof. unfold GetRolePermissionsCached, loadRolePermissions. solve_only. Qed.
#[local] Hint Resolve role_cache_silent fine_ret : whatc.

Lemma login_vouched email password : fine (by_password email password) (Login (Some (email, password))) [] (fun _ _ => True).
Proof.
  unfold Sessions.Login. apply fine_query. intros u g1 _ Hu. destruct u as [u |]; [| apply fine_ret]. apply fine_query. intros role g2 H2 _.
  destruct role as [role |]; [| apply fine_ret]. apply fine_then; [solve_only |]. intros _ g3 H3. destruct (us_IsActive u) eqn:Ea; [| apply fine_ret].
  destruct (password_matches _ _) eqn:Ep; [| apply fine_ret]. apply (sign_in_vouched _ u).
  - intros v g g' Hg (H & ? & ?). split_and!; [by eapply answered_later | done..].
  - split_and!; [| done | done]. do 2 (eapply answered_later; [eassumption |]). by apply (Hu u).
  - apply at_home.
Qed.
Lemma password_lasts email password : lasting (by_password email password).
Proof. intros v g g' Hg (H & ? & ?). split_and!; [by eapply answered_later | done..]. Qed.
Lemma register_vouched email password name org :
  fine (fun u g => by_password email password u g \/ registered u g) (Register (Some (email, password, name, org))) [] (fun _ _ => True).
Proof.
  set (cred := fun u g => _ \/ _). assert (Hl : lasting cred).
  { intros v g g' Hg [H | [mid H]]; [left; by eapply password_lasts | right; exists mid; by eapply later_in]. }
  unfold Sessions.Register. destruct (N.eqb org nil_uuid); [apply fine_ret |]. apply fine_query. intros o g1 H1 _. destruct o as [o |]; [| apply fine_ret].
  apply fine_then; [unfold new_member_role; solve_only |]. intros role g2 H2. destruct role as [role |]; [| apply fine_ret].
  apply fine_query. intros u g3 H3 Hu. destruct u as [u |].
  - unfold join_existing. destruct (password_matches _ _) eqn:Ep; [| apply fine_ret]. destruct (us_IsActive u) eqn:Ea; [| apply fine_ret]. cbn [negb].
    apply fine_query. intros n g4 H4 _. destruct (0 <? _); [apply fine_ret |]. apply extends_call; [done |]. intros id _.
    apply extends_call; [done |]. intros r _. destruct r as [[] |]; [| apply fine_ret]. apply (sign_in_vouched cred u).
    + done.
    + left. split_and!; [| done | done]. do 2 (eapply answered_later; [apply later_cons |]). eapply answered_later; [exact H4 | by apply (Hu u)].
    + eapply as_joined, ev_here.
  - unfold register_new. apply fine_then; [solve_only |]. intros hash g4 H4. destruct hash as [hash |]; [| apply fine_ret].
    apply extends_call; [done |]. intros id _. apply extends_call; [done |]. intros mid _. apply extends_call; [done |]. intros r _.
    destruct r as [[] |]; [| apply fine_ret]. eapply (sign_in_vouched cred _ _ _ _ Hl); [| apply at_home]. right. exists mid. apply ev_here.
Qed.
Lemma refresh_vouched c : fine (by_refresh c) (RefreshToken (Some (Some c))) [] (fun _ _ => True).
Proof.
  assert (Hl : lasting (by_refresh c)).
  { intros u g g' Hg (H1 & H2 & H3). split_and!; [by eapply answered_later | done |]. intros jti E. destruct (H3 jti E) as (n & Hn & H). exists n. split; [done | by eapply later_in]. }
  assert (Hr : forall g, (forall jti, jc_ID c = Some jti -> exists n, n <> 0 /\ Ev (ARefreshDel jti) (Ok n) ∈ g) ->
    fine (by_refresh c) (refresh_user AccessExpiryMins RefreshExpiryDays c) g (fun _ _ => True)).
  { intros g Hg. unfold refresh_user. apply fine_query. intros u g1 H1 Hu. destruct u as [u |]; [| apply fine_ret]. destruct (us_IsActive u) eqn:Ea; [| apply fine_ret].
    cbn [negb]. eapply (extends_bind _ _ _ _ _ (fun v g' => vouched g' u v)).
    - unfold carried_org. destruct (_ && _); [| by apply extends_ret, at_home]. destruct (us_IsSuperAdmin u) eqn:Es.
      + apply extends_call; [done |]. intros n _. apply extends_ret. destruct n as [n |]; [| apply at_home]. destruct (Z.ltb_spec 0 n); [| apply at_home].
        apply as_super; [done |]. left. exists n. split; [done | apply ev_here].
      + apply extends_call; [done |]. intros m _. apply extends_ret. destruct m as [m |]; [| apply at_home]. apply as_member, ev_here.
    - intros v g2 H2 Hv. apply (sign_in_vouched _ u); [done | | done]. split_and!; [by eapply answered_later; [exact H2 | apply (Hu u)] | done |].
      intros jti E. destruct (Hg jti E) as (n & Hn & H). exists n. split; [done |]. eapply later_in; [exact H2 |]. by eapply later_in. }
  unfold Sessions.RefreshToken. destruct (jc_ID c) as [jti |] eqn:Ej; [| by apply Hr]. apply extends_call; [done |]. intros n _.
  destruct n as [n |]; [| apply fine_ret]. destruct (Z.eqb_spec n 0); [apply fine_ret |]. apply Hr. intros jti' [= <-]. exists n. split; [done | apply ev_here].
Qed.
Lemma switch_vouched c id body : cx_UserID c = Some id -> fine (by_context id) (SwitchOrg c body) [] (fun _ _ => True).
Proof.
  intros Hc. unfold Sessions.SwitchOrg. rewrite Hc. destruct body as [org |]; [| apply fine_ret]. destruct (N.eqb org nil_uuid); [apply fine_ret |].
  apply fine_query. intros o g1 H1 Ho. destruct o as [o |]; [| apply fine_ret]. apply fine_query. intros u g2 H2 Hu. destruct u as [u |]; [| apply fine_ret].
  destruct (Hu u eq_refl) as [Hua [d Hd]]. apply first_user_in in Hd as (_ & Hid%N.eqb_eq & _).
  eapply (extends_bind _ _ _ _ _ (fun r g' => forall role, r = Ok role -> vouched g' u (in_org org role u))).
  - destruct (us_IsSuperAdmin u) eqn:Es.
    + apply extends_ret. intros role [= <-]. apply as_super; [done |]. right. exists o. eapply answered_later; [exact H2 | by apply Ho].
    + apply extends_call; [done |]. intros m _. apply extends_ret. intros role. destruct m as [m |]; [| done]. intros [= <-].
      apply as_member. rewrite Hid. apply ev_here.
  - intros role g3 H3 Hv. destruct role as [role |]; [| apply fine_ret]. specialize (Hv role eq_refl). apply fine_then; [solve_only |]. intros _ g4 H4.
    apply (sign_in_vouched _ u).
    + intros v g g' Hg. by apply answered_later.
    + do 2 (eapply answered_later; [eassumption |]). done.
    + by eapply vouched_later.
Qed.

Definition email_of (provider code : string) (raw : amap) (email : string) (g : trace) : Prop :=
  email = ui_Email (read_user_info sprint provider raw) \/ exists l, Ev (AGitHubEmails code) (Some l) ∈ g /\ first_verified l = Some email.
Lemma user_info_said cred provider raw code g :
  fine cred (fetchUserInfo sprint provider raw code) g (fun o g' => forall i, o = Some i -> exists m, raw = Some m /\ email_of provider code m (ui_Email i) g').
Proof.
  unfold fetchUserInfo. destruct raw as [raw |]; [| by apply extends_ret]. set (i := read_user_info sprint provider raw).
  apply (extends_bind _ _ _ _ _ (fun email g' => email <> "" -> email_of provider code raw email g')).
  - destruct (_ && _); [| apply extends_ret; by left]. apply extends_assoc, extends_call; [done |]. intros l _. apply extends_ret. intros He.
    destruct l as [l |]; simpl in *; [| done]. destruct (first_verified l) as [e |] eqn:E; [| done]. right. exists l. split; [apply ev_here | done].
  - intros email g' _ He. apply extends_ret. intros i'. destruct (String.eqb_spec email ""); [done |]. intros [= <-]. exists raw. split; [done | by apply He].
Qed.
Lemma sso_vouched provider code nonce error description :
  fine (by_provider provider code nonce) (CallbackSSO provider code nonce error description) [] (fun _ _ => True).
Proof.
  assert (Hs : forall e g g', later g g' -> said_by provider code nonce e g -> said_by provider code nonce e g').
  { intros e g g' Hg (st & cfg & raw & H1 & H2 & H3 & H4 & H5). exists st, cfg, raw. split_and!; try (by eapply later_in); [done |].
    destruct H5 as [? | (l & Hl & ?)]; [by left | right; exists l; split; [by eapply later_in | done]]. }
  assert (Hl : lasting (by_provider provider code nonce)).
  { intros u g g' Hg (Ha & e & He & Hu). split; [done |]. exists e. split; [by eapply Hs |].
    destruct Hu as [(u0 & H & ?) | [? H]]; [left; exists u0; split; [by eapply answered_later | done] | right; split; [done | by eapply later_in]]. }
  unfold SignOn.CallbackSSO. destruct (negb _); [apply fine_ret |]. destruct (_ || _); [apply fine_ret |].
  apply extends_call; [done |]. intros st _. destruct st as [st |]; [| apply fine_ret]. apply extends_call; [done |]. intros ? _. apply extends_call; [done |]. intros now _.
  destruct (String.eqb_spec (so_Provider st) provider) as [Ep |]; [| apply fine_ret]. cbn [negb orb]. destruct (so_ExpiresAt st <? now); [apply fine_ret |].
  unfold callback_with, provider_query. apply extends_call; [done |]. intros cfg _. destruct cfg as [cfg |]; [| apply fine_ret].
  apply extends_call; [done |]. intros raw _. destruct raw as [raw |]; [| apply fine_ret].
  set (g1 := Ev (AExchange cfg code) (Some raw) :: _). assert (Hst : Ev (AStateGet nonce) (Some st) ∈ g1) by (unfold g1; rewrite !elem_of_cons; auto 10).
  eapply extends_bind; [apply user_info_said |]. intros i g2 H2 Hi. destruct i as [i |]; [| apply fine_ret]. destruct (Hi i eq_refl) as (m & -> & Hm).
  destruct (domain_refused _ _ _); [apply fine_ret |].
  assert (Hsaid : said_by provider code nonce (ui_Email i) g2).
  { exists st, cfg, m. split_and!; [by eapply later_in | done | | | done]; (eapply later_in; [exact H2 |]); unfold g1; rewrite !elem_of_cons; auto 10. }
  apply fine_query. intros u g3 H3 Hu. destruct u as [u |].
  - unfold welcome_back. set (v := if String.eqb (us_SSOProvider u) "" then with_sso provider (ui_ID i) u else u).
    apply fine_then; [case_match; solve_only |]. intros _ g4 H4. destruct (us_IsActive v) eqn:Ea; [| apply fine_ret].
    eapply (sign_in_vouched _ v); [done | | apply at_home]. split; [done |]. exists (ui_Email i). split; [eapply Hs; [exact H4 |]; by eapply Hs |]. left. exists u.
    split; [eapply answered_later; [exact H4 | by apply (Hu u)] |]. unfold v. case_match; [right; by exists (ui_ID i) | by left].
  - unfold create_sso_user. destruct (negb _); [apply fine_ret |]. apply fine_query. intros role g4 H4 _. destruct role as [role |]; [| apply fine_ret].
    apply extends_call; [done |]. intros id _. apply extends_call; [done |]. intros r _. destruct r as [[] |]; [| apply fine_ret].
    apply extends_call; [done |]. intros mid _. apply extends_call; [done |]. intros ? _.
    eapply (sign_in_vouched _ _); [done | | apply at_home]. split; [done |]. exists (ui_Email i). split.
    + do 4 (eapply Hs; [apply later_cons |]). eapply Hs; [exact H4 |]. by eapply Hs.
    + right. split; [done |]. rewrite !elem_of_cons. auto 10.
Qed.

(** C25: tokens are only signed for an account that was asked for. On whatever is answered and
    wherever it fails, signing in, registering, refreshing, changing organization and single
    sign-on sign a token only after the database answered with a live account and the request
    showed its credential: its password (or the account was just created), an unspent refresh
    token, the context of an authenticated request, or the address the identity provider gave
    for the code; and the token names the account's home, an organization it is a member of
    with the role it has there, or, for a super administrator, one that exists. *)
Theorem tokens_vouched cred p : entrance cred p -> ensures (signs cred) (trace_contract honest) p [] (fun _ _ => True).
Proof.
  intros []; eapply extends_ensures; [apply login_vouched | apply register_vouched | apply refresh_vouched | by apply switch_vouched | apply sso_vouched].
Qed.

End Vouched.

(** * A refresh token is spent once *)
Section Single.
Context (AccessExpiryMins RefreshExpiryDays : Z) (J : uuid).
Abbreviation RefreshToken := (RefreshToken AccessExpiryMins RefreshExpiryDays).
Abbreviation sign_in := (sign_in AccessExpiryMins RefreshExpiryDays).
(** [uuid.New] does not return the JTI of the token again. *)
Definition fresh X (op : acc_op X) : X -> Prop := match op in acc_op X return X -> Prop with AID => fun x => x <> J | _ => fun _ => True end.
Definition fresh_sem X (op : acc_op X) (s : State) (x : X) (s' : State) : Prop := acc_sem X op s x s' /\ fresh X op x.
Definition redeems X (op : acc_op X) : X -> Prop :=
  match op in acc_op X return X -> Prop with ARefreshDel j => fun x => j = J /\ exists n, x = Ok n /\ n <> 0 | _ => fun _ => False end.
Definition puts X (op : acc_op X) : Prop := match op with ARefreshPut j => j = J | _ => False end.
Definition is_session (r : reply) : bool := match r with Session _ _ => true | _ => false end.
(** A program that gets no session without redeeming [J], and one that never stores it. *)
Definition unspent (p : Prog reply) : Prop := ensures (fun _ _ _ => True) (fun X op (_ : unit) x _ => ~ redeems X op x) p tt (fun r _ => is_session r = false).
Definition never_puts (p : Prog reply) : Prop := ensures (fun X op _ => ~ puts X op) (fun X op (_ : unit) x _ => fresh X op x) p tt (fun _ _ => True).

Lemma sem_redeems X (op : acc_op X) s x s' : fresh_sem X op s x s' -> redeems X op x -> J ∈ st_refresh s /\ J ∉ st_refresh s'.
Proof.
  intros [H _] Hr. destruct op; try done. destruct Hr as [-> (n & -> & Hn)]. destruct H as [[E ->] | [E _]]; [| done].
  destruct (decide (J ∈ st_refresh s)); [| by injection E as ->]. split; [done | set_solver].
Qed.
Lemma sem_gone X (op : acc_op X) s x s' : fresh_sem X op s x s' -> ~ puts X op -> J ∉ st_refresh s -> J ∉ st_refresh s'.
Proof.
  intros [H _] Hp Hs. destruct op; simpl in *; try (solve [naive_solver]).
  - destruct H as [-> | ->]; [done |]. cbn [with_refresh st_refresh]. set_solver.
  - destruct H as [[_ ->] | [_ [-> | ->]]]; [| done |]; cbn [with_refresh st_refresh]; set_solver.
Qed.
Lemma redeems_dec X (op : acc_op X) x : redeems X op x \/ ~ redeems X op x.
Proof.
  destruct op; try (solve [right; intros []]). simpl. destruct x as [n |]; [| right; by intros [_ (? & ? & _)]]. destruct (decide (jti = J /\ n <> 0)) as [[-> Hn0] | Hno].
  - left. split; [done |]. by exists n.
  - right. intros [-> (n' & [= <-] & ?)]. by destruct Hno.
Qed.
(** Each program with how often it redeemed [J]: not at all while it is still stored, once
    altogether. *)
Definition spent_once (c : State * list (Prog reply)) : Prop :=
  Forall never_puts (snd c) /\ exists ns : list nat, Forall2 (fun p n => n = 0%nat -> unspent p) (snd c) ns /\
  (sum_list ns + (if decide (J ∈ st_refresh (fst c)) then 1 else 0) <= 1)%nat.
Lemma spent_once_step c c' : spent_once c -> pool_step fresh_sem c c' -> spent_once c'.
Proof.
  intros (Hn & ns & Hu & Hsum) Hstep. destruct Hstep as [s pre X op k post x s' Hs | s pre p post]; simpl in *;
    apply Forall_app in Hn as [Hn1 [Hp Hn2]%Forall_cons]; apply Forall2_app_inv_l in Hu as (n1 & n2 & H1 & H2 & ->);
    apply Forall2_cons_inv_l in H2 as (n & n3 & Hpn & H3 & ->); rewrite sum_list_with_app in Hsum; simpl in Hsum.
  - destruct Hp as [Hput Hk]. split; [apply Forall_app; split; [done | constructor; [exact (Hk x tt (proj2 Hs)) | done]] |].
    destruct (redeems_dec X op x) as [Hr | Hr].
    + destruct (sem_redeems _ _ _ _ _ Hs Hr) as [Hin Hout]. exists (n1 ++ 1%nat :: n3). split; [apply Forall2_app; [done | by constructor] |].
      rewrite sum_list_with_app. simpl. rewrite decide_True in Hsum by done. rewrite decide_False by done. lia.
    + exists (n1 ++ n :: n3). split; [apply Forall2_app; [done | constructor; [| done]]; intros E; destruct (Hpn E) as [_ H]; by apply H |].
      rewrite sum_list_with_app. simpl. destruct (decide (J ∈ st_refresh s)).
      * destruct (decide (J ∈ st_refresh s')); lia.
      * rewrite decide_False by by eapply sem_gone. lia.
  - split; [by apply Forall_app |]. exists (n1 ++ n3). split; [by apply Forall2_app |]. rewrite sum_list_with_app. simpl. lia.
Qed.

Lemma session_count rs ns : Forall2 (fun p n => n = 0%nat -> unspent p) (map Ret rs) ns -> (length (List.filter is_session rs) <= sum_list ns)%nat.
Proof.
  revert ns. induction rs as [| r rs IH]; intros ns H; [simpl; lia |]. apply Forall2_cons_inv_l in H as (n & ns' & Hr & H & ->).
  specialize (IH _ H). simpl in *. destruct (is_session r) eqn:E; simpl; [| lia]. destruct n; [| simpl; lia]. unfold unspent in Hr. simpl in Hr. rewrite Hr in E; done.
Qed.

(** ** The request *)
Ltac never_op := first [apply ensures_call_bind | unfold query_acc at 1; apply ensures_call_bind]; [intros [] | intros ? [] ?].
Ltac never_ret := match goal with |- ensures _ _ (mret _) _ _ => exact I | |- ensures _ _ (Ret _) _ _ => exact I end.
Ltac never := repeat (never_ret || match goal with
  | |- ensures _ _ (call _ ≫= _) _ _ => never_op
  | |- ensures _ _ (query_acc _ ≫= _) _ _ => never_op
  | |- ensures _ _ (match ?x with _ => _ end) _ _ => destruct x
  | |- ensures _ _ (if ?x then _ else _) _ _ => destruct x end).
Lemma sign_never_puts u : never_puts (sign_in u NoToken).
Proof.
  unfold never_puts, Sessions.sign_in, generateAccessToken, generateRefreshToken. apply ensures_bind. do 3 never_op. apply ensures_ret.
  destruct x1; [| exact I]. apply ensures_bind. do 4 never_op. destruct x4; [| exact I]. split; [done | intros ? [] _; exact I].
Qed.
Lemma refresh_never_puts c : never_puts (RefreshToken (Some (Some c))).
Proof.
  assert (Hr : never_puts (refresh_user AccessExpiryMins RefreshExpiryDays c)).
  { unfold never_puts, refresh_user. never_op. destruct x as [u |]; [| exact I]. destruct (us_IsActive u); [| exact I]. cbn [negb]. apply ensures_bind. unfold carried_org. never; apply sign_never_puts. }
  unfold Sessions.RefreshToken. destruct (jc_ID c); [| exact Hr]. unfold never_puts. never_op. destruct (_ =? 0); [exact I | exact Hr].
Qed.
Lemma refresh_unspent c : jc_ID c = Some J -> unspent (RefreshToken (Some (Some c))).
Proof.
  intros E. unfold Sessions.RefreshToken. rewrite E. split; [done |]. intros n [] Hn. destruct n as [n |]; [| exact eq_refl]. destruct (Z.eqb_spec n 0) as [-> |]; [exact eq_refl |].
  destruct Hn. split; [done |]. by exists n.
Qed.

(** A refresh token is spent once. Any number of requests present it at once, are
    interleaved and interrupted anywhere, and Redis fails as it may: at most one of them is
    answered with a session. *)
Theorem refresh_single_use s ps s' rs :
  Forall (fun p => exists c, jc_ID c = Some J /\ p = RefreshToken (Some (Some c))) ps ->
  pool_steps fresh_sem (s, ps) (s', map Ret rs) -> (length (List.filter is_session rs) <= 1)%nat.
Proof.
  intros Hps Hsteps. assert (H : spent_once (s', map Ret rs)).
  { refine (pool_invariant fresh_sem spent_once (s, ps) _ spent_once_step Hsteps _). split.
    - eapply Forall_impl; [exact Hps |]. intros p (c & _ & ->). apply refresh_never_puts.
    - exists (replicate (length ps) 0%nat). split.
      + clear Hsteps. induction Hps as [| p ps (c & E & ->) _ IH]; simpl; constructor; [intros _; by apply refresh_unspent | done].
      + simpl. replace (sum_list (replicate (length ps) 0%nat)) with 0%nat by (clear; induction ps; simpl; auto). destruct (decide _); lia. }
  destruct H as (_ & ns & Hns & Hsum). apply session_count in Hns. simpl in Hsum. lia.
Qed.
End Single.
