(* ===== verification/Takeover.v ===== *)
(** Concrete runs of the entrances: the witnesses of [Entry], and the ways in that the code
    leaves open. *)
From S2P Require Import Prelude Effects Sql GoText GoAny Permissions Accounts Migration Access AccountsApi Sessions SignOn Gate Tenancy Entry.

(** * The installation of [Tenancy.office], with a server the seller runs *)
Definition forged : SSOProviderRequest := MkSSORequest "id" "secret" true false "" "" "https://evil/auth" "https://evil/token" "https://evil/me".
(** Their server says every code stands for the administrator; nobody else's provider is asked. *)
Definition evil (p : SSOProvider) (code : string) : option amap :=
  if String.eqb (sp_UserInfoURL p) "https://evil/me" then Some [("sub", AStr "1"); ("email", AStr "boss@office")] else None.
Definition plain (s : string) : string := s.
Definition shown (a : any) : string := any_str a.
Definition address (p : SSOProvider) (nonce : string) : string := sp_AuthURL p +:+ "?state=" +:+ nonce.
Abbreviation run p s := (prog_run (acc_handle evil) p s).
Definition callback : Prog reply := CallbackSSO shown plain plain 15 7 "" "custom" "code" "random" "" "".

(** Whoever has an account can become anybody. The seller, who has no permission, may
    update their own role to hold one and is then let through, since changing a role asks for
    none; or configures a provider of their own, which asks for none either, and starts the
    public sign-on, which picks the first enabled provider of any organization: their server
    names the administrator, the callback looks the address up among all accounts and signs
    the administrator's tokens. *)
Theorem seller_takes_over :
  let asks := HasPermission 22 ResourceUsers ActionDelete 1 in
  let widen := UpdateRole (as_user 22) (Some 12%N) (Some (MkRoleRequest "" "" false ["users:delete"])) in
  let '(before, s0) := run asks office in
  let '(answer, s1) := run widen s0 in
  let '(after, _) := run asks s1 in
  let '(configured, s2) := run (UpdateSSOProvider (as_user 22) "custom" (Some forged)) s0 in
  let '(started, s3) := run (InitSSO address "custom") s2 in
  let '(entered, _) := run callback s3 in
  before = false /\ answer = Reply 200 "" /\ after = true /\
  configured = Reply 200 "" /\ started = Redirect "https://evil/auth?state=random" /\
  match entered with Session a _ => jc_UserID a = 21%N /\ jc_OrganizationID a = 1%N | _ => False end.
Proof. vm_compute. repeat split. Qed.

(** ** A disabled account *)
Definition disabled_office : State :=
  with_acc (set_users (map (fun u => with_active false u)) (st_acc office)) office.
Definition signed_in (r : reply) : bool := match r with Session _ _ => true | _ => false end.

(** ** After a logout *)
Definition two_tokens (r : reply) : option (JWTClaims * JWTClaims) := match r with Session a b => Some (a, b) | _ => None end.

(** Neither disabling an account nor logging out ends a session. Signing in and refreshing
    refuse the disabled account, but changing organization, to the one it is in, never looks
    at the flag and hands out new tokens. After a logout the refresh token is refused; the
    access token, which has no JTI to look up, is accepted in its place and both are issued
    again. *)
Theorem revoked_sessions_continue :
  fst (run (Login same_password 15 7 (Some ("seller@office", "hash"))) disabled_office) = Reply 401 "Account is disabled" /\
  fst (run (RefreshToken 15 7 (Some (Some (claims_of (staff 22 12 "seller@office" false) None 0 0)))) disabled_office) = Reply 401 "Account is disabled" /\
  signed_in (fst (run (SwitchOrg 15 7 (as_user 22) (Some 1%N)) disabled_office)) = true /\
  let '(entered, s1) := run (Login same_password 15 7 (Some ("seller@office", "hash"))) office in
  match two_tokens entered with
  | None => False
  | Some (access, refresh) =>
      let '(_, s2) := run (Logout (Some refresh)) s1 in
      fst (run (RefreshToken 15 7 (Some (Some refresh))) s2) = Reply 401 "Refresh token has been revoked" /\
      signed_in (fst (run (RefreshToken 15 7 (Some (Some access))) s2)) = true
  end.
Proof. vm_compute. repeat split. Qed.

(** * Witnesses *)
Definition seller_login : Prog reply := Login same_password 15 7 (Some ("seller@office", "hash")).
Theorem tokens_vouched_witness :
  signed_in (fst (run seller_login office)) = true /\
  ensures (signs (by_password same_password "seller@office" "hash")) (trace_contract honest) seller_login [] (fun _ _ => True).
Proof.
  split; [vm_compute; reflexivity |].
  apply (tokens_vouched same_password shown plain plain 15 7 "" (by_password same_password "seller@office" "hash") seller_login), enter_login.
Defined.
(** A refresh with the stored JTI 9, where [uuid.New] answers ids above 100. *)
Definition token_9 : JWTClaims := claims_of (staff 22 12 "seller@office" false) (Some 9%N) 0 0.
Definition stored_9 : State := with_refresh {[9%N]} office.
Definition spend : Prog reply := RefreshToken 15 7 (Some (Some token_9)).
Definition handle_100 X (op : acc_op X) : State -> X * State :=
  match op in acc_op X return State -> X * State with AID => fun s => ((100 + fresh_id s)%N, s) | op => acc_handle evil _ op end.
Lemma handle_100_sem X (op : acc_op X) s : fresh_sem 9 X op s (fst (handle_100 X op s)) (snd (handle_100 X op s)).
Proof. split; [| destruct op; simpl; lia || done]. pose proof (acc_handle_sem evil X op s) as H. by destruct op. Qed.
Theorem refresh_single_use_witness :
  exists s' r, pool_steps (fresh_sem 9) (stored_9, [spend]) (s', [Ret r]) /\ signed_in r = true /\ (length (List.filter is_session [r]) <= 1)%nat.
Proof.
  exists (snd (prog_run handle_100 spend stored_9)), (fst (prog_run handle_100 spend stored_9)).
  split; [apply (prog_run_steps _ handle_100); [apply handle_100_sem | apply surjective_pairing] |]. split; [vm_compute; reflexivity |].
  apply (refresh_single_use 15 7 9 stored_9 [spend] (snd (prog_run handle_100 spend stored_9))).
  - constructor; [| constructor]. by exists token_9.
  - apply (prog_run_steps _ handle_100); [apply handle_100_sem | apply surjective_pairing].
Defined.
