(* ===== verification/Runes.v ===== *)
(** Text as the runes of a Go string, for the code that cuts and counts characters: fields,
    trimming, lines. The strings concerned come from JSON, from the database or from the HTML
    parser, which hold valid UTF-8; an invalid byte would be [rune_error], as [[]rune(s)] and
    [strings.Map] make it. *)
From S2P Require Import Prelude GoText.
From Stdlib Require Import Ascii.

Abbreviation text := (list Z).
(** A literal of ASCII. *)
Definition lit (s : string) : text := map byte_val (String.list_ascii_of_string s).
Definition newline : Z := 10.
Definition blank_rune : Z := 32.
Definition rune_count (t : text) : Z := Z.of_nat (length t).
#[global] Instance text_eq_dec : EqDecision text := _.
Definition text_eqb (a b : text) : bool := bool_decide (a = b).

(** [strings.Fields]. *)
Fixpoint fields (t : text) : list text :=
  match t with
  | [] => []
  | c :: t' =>
      if is_space c then fields t'
      else match t' with
           | [] => [[c]]
           | d :: _ => if is_space d then [c] :: fields t'
                       else match fields t' with w :: ws => (c :: w) :: ws | [] => [[c]] end
           end
  end.
(** [strings.TrimSpace]. *)
Fixpoint trim_left (t : text) : text := match t with c :: t' => if is_space c then trim_left t' else t | [] => [] end.
Fixpoint trim_right (t : text) : text :=
  match t with
  | [] => []
  | c :: t' => match trim_right t' with [] => if is_space c then [] else [c] | r => c :: r end
  end.
Definition trim (t : text) : text := trim_right (trim_left t).
(** [strings.Split] on one rune. *)
Fixpoint split_rune (r : Z) (t : text) : list text :=
  match t with
  | [] => [[]]
  | c :: t' => if c =? r then [] :: split_rune r t' else match split_rune r t' with w :: ws => (c :: w) :: ws | [] => [[c]] end
  end.
(** [strings.Join]. *)
Fixpoint join_text (sep : text) (l : list text) : text :=
  match l with [] => [] | [a] => a | a :: l' => a ++ sep ++ join_text sep l' end.

(** * Words *)
Definition solid (w : text) : bool := negb (existsb is_space w).
Definition all_space (t : text) : bool := forallb is_space t.

Lemma fields_cons c t : fields (c :: t) =
  if is_space c then fields t
  else match t with
       | [] => [[c]]
       | d :: _ => if is_space d then [c] :: fields t else match fields t with w :: ws => (c :: w) :: ws | [] => [[c]] end
       end.
Proof. done. Qed.
Lemma fields_head c t : is_space c = false -> exists w ws, fields (c :: t) = (c :: w) :: ws.
Proof. intros Hc. rewrite fields_cons, Hc. destruct t as [| d t]; [eauto |]. destruct (is_space d); [eauto |]. destruct (fields (d :: t)); eauto. Qed.
Lemma fields_app_space a c b : is_space c = true -> fields (a ++ c :: b) = fields a ++ fields b.
Proof.
  intros Hc. induction a as [| x a IH]; [simpl; by rewrite Hc |]. change ((x :: a) ++ c :: b) with (x :: (a ++ c :: b)). rewrite !fields_cons.
  destruct (is_space x); [exact IH |]. destruct a as [| y a]; [simpl in *; by rewrite Hc |]. cbn [app] in *. destruct (is_space y) eqn:Hy; [by rewrite IH |].
  rewrite IH. by destruct (fields_head y a Hy) as (w & ws & ->).
Qed.
Lemma fields_app_l s t : all_space s = true -> fields (s ++ t) = fields t.
Proof. induction s as [| c s IH]; [done |]. cbn [all_space forallb app]. intros [Hc Hs]%andb_prop. rewrite fields_cons, Hc. by apply IH. Qed.
Lemma fields_all_space s : all_space s = true -> fields s = [].
Proof. intros H. rewrite <- (app_nil_r s), fields_app_l by done. done. Qed.
Lemma fields_app_r t s : all_space s = true -> fields (t ++ s) = fields t.
Proof.
  destruct s as [| c s]; [by rewrite app_nil_r |]. intros [Hc Hs]%andb_prop. by rewrite fields_app_space, (fields_all_space s), app_nil_r by done.
Qed.
Lemma trim_left_spec t : exists s, t = s ++ trim_left t /\ all_space s = true.
Proof.
  induction t as [| c t (s & E & Hs)]; [by exists [] |]. simpl. destruct (is_space c) eqn:Hc; [| by exists []].
  exists (c :: s). unfold all_space in *. simpl. rewrite Hc, <- E. done.
Qed.
Lemma trim_right_spec t : exists s, t = trim_right t ++ s /\ all_space s = true.
Proof.
  induction t as [| c t (s & E & Hs)]; [by exists [] |]. simpl. destruct (trim_right t) as [| d r] eqn:Et.
  - simpl in E. subst s. destruct (is_space c) eqn:Hc; [exists (c :: t) | exists t]; (split; [done |]); unfold all_space in *; simpl; rewrite ?Hc; done.
  - exists s. split; [simpl in *; by rewrite E at 1 | done].
Qed.
Lemma trim_spec t : exists a b, t = a ++ trim t ++ b /\ all_space a = true /\ all_space b = true.
Proof.
  destruct (trim_left_spec t) as (a & Ea & Ha), (trim_right_spec (trim_left t)) as (b & Eb & Hb). exists a, b. unfold trim. by rewrite <- Eb.
Qed.
Lemma fields_trim t : fields (trim t) = fields t.
Proof. destruct (trim_spec t) as (a & b & E & Ha & Hb). rewrite E at 2. by rewrite fields_app_l, fields_app_r. Qed.
Lemma trim_length t : (length (trim t) <= length t)%nat.
Proof. destruct (trim_spec t) as (a & b & E & _). rewrite E at 2. rewrite !length_app. lia. Qed.

Lemma fields_solid w : solid w = true -> w <> [] -> fields w = [w].
Proof.
  induction w as [| c w IH]; [done |]. unfold solid in *. cbn [existsb]. rewrite negb_orb. intros [Hc Hw]%andb_prop _. rewrite fields_cons.
  apply negb_true_iff in Hc as ->. destruct w as [| d w]; [done |]. rewrite IH by done. cbn [existsb] in Hw. rewrite negb_orb in Hw.
  apply andb_prop in Hw as [Hd _]. by apply negb_true_iff in Hd as ->.
Qed.
Lemma fields_words t : Forall (fun w => w <> [] /\ solid w = true) (fields t).
Proof.
  induction t as [| c t IH]; [constructor |]. rewrite fields_cons. destruct (is_space c) eqn:Hc; [done |].
  assert (H1 : [c] <> [] /\ solid [c] = true) by (unfold solid; simpl; by rewrite Hc).
  destruct t as [| d t]; [by constructor |]. destruct (is_space d); [by constructor |].
  destruct (fields (d :: t)) as [| w ws]; [by constructor |]. inversion_clear IH as [| ? ? [Hw Hs] Hws]. constructor; [| done]. split; [done |].
  unfold solid in *. simpl. by rewrite Hc.
Qed.
Lemma is_space_blank : is_space blank_rune = true. Proof. reflexivity. Qed.
Lemma is_space_newline : is_space newline = true. Proof. reflexivity. Qed.
Lemma join_text_cons sep a b l : join_text sep (a :: b :: l) = a ++ sep ++ join_text sep (b :: l).
Proof. done. Qed.
(** Words joined by white space are the words again. *)
Lemma fields_join c l : is_space c = true -> fields (join_text [c] l) = l ≫= fields.
Proof.
  intros Hc. induction l as [| a [| b l] IH]; [done | by simpl; rewrite app_nil_r |]. rewrite join_text_cons.
  change ([c] ++ ?x) with (c :: x). by rewrite fields_app_space, IH by done.
Qed.
Lemma fields_fields t : fields t ≫= fields = fields t.
Proof.
  pose proof (fields_words t) as H. induction H as [| w l [Hw Hs] _ IH]; [done |]. cbn [mbind list_bind]. by rewrite fields_solid, IH.
Qed.
Lemma fields_join_fields t : fields (join_text [blank_rune] (fields t)) = fields t.
Proof. rewrite fields_join by done. apply fields_fields. Qed.
Lemma fields_split c t : is_space c = true -> split_rune c t ≫= fields = fields t.
Proof.
  intros Hc. induction t as [| x t IH]; [done |]. cbn [split_rune]. destruct (x =? c) eqn:E.
  - apply Z.eqb_eq in E as ->. cbn [mbind list_bind]. rewrite fields_cons, Hc. exact IH.
  - assert (Hj : forall t, join_text [c] (split_rune c t) = t).
    { clear. induction t as [| x t IH]; [done |]. cbn [split_rune]. destruct (x =? c) eqn:E.
      - apply Z.eqb_eq in E as ->. destruct (split_rune c t) eqn:Es; [by destruct t; simpl in Es; repeat case_match |]. rewrite join_text_cons. simpl. by f_equal.
      - destruct (split_rune c t) as [| w [| v ws]] eqn:Es; simpl in *; by subst. }
    rewrite <- (fields_join c) by done. f_equal. rewrite <- (Hj (x :: t)). cbn [split_rune]. by rewrite E.
Qed.
Lemma solid_cons c w : solid (c :: w) = negb (is_space c) && solid w.
Proof. unfold solid. simpl. by rewrite negb_orb. Qed.
Lemma trim_right_solid w : solid w = true -> trim_right w = w.
Proof.
  induction w as [| c w IH]; [done |]. rewrite solid_cons. intros [Hc Hw]%andb_prop. simpl. rewrite (IH Hw). apply negb_true_iff in Hc. rewrite Hc. by destruct w.
Qed.
(** Text with white space at most at its start is one word or none. *)
Lemma fields_one c w : solid w = true -> fields (c :: w) = match trim (c :: w) with [] => [] | t => [t] end.
Proof.
  intros Hw. rewrite <- fields_trim. assert (E : trim (c :: w) = if is_space c then w else c :: w).
  { unfold trim. simpl. destruct (is_space c) eqn:Hc.
    - assert (trim_left w = w) as ->. { destruct w as [| d w']; [done |]. rewrite solid_cons in Hw. apply andb_prop in Hw as [Hd _]. apply negb_true_iff in Hd. simpl. by rewrite Hd. }
      by apply trim_right_solid.
    - apply trim_right_solid. by rewrite solid_cons, Hc, Hw. }
  rewrite E. destruct (is_space c) eqn:Hc; [destruct w; [done |] |]; rewrite fields_solid; rewrite ?solid_cons, ?Hc in *; done.
Qed.

(** * Edges, lines *)
Definition starts_solid (t : text) : Prop := exists c t', t = c :: t' /\ is_space c = false.
Definition ends_solid (t : text) : Prop := exists t' c, t = t' ++ [c] /\ is_space c = false.
Lemma trim_left_starts t : starts_solid t -> trim_left t = t.
Proof. intros (c & t' & -> & Hc). simpl. by rewrite Hc. Qed.
Lemma trim_right_ends t : ends_solid t -> trim_right t = t.
Proof.
  intros (t' & c & -> & Hc). induction t' as [| x t' IH]; simpl; [by rewrite Hc |]. rewrite IH. by destruct (t' ++ [c]) eqn:E; [destruct t' |].
Qed.
Lemma trim_solid t : starts_solid t -> ends_solid t -> trim t = t.
Proof. intros Hs He. unfold trim. by rewrite trim_left_starts, trim_right_ends. Qed.
Lemma trim_right_space t c : is_space c = true -> trim_right (t ++ [c]) = trim_right t.
Proof. intros Hc. induction t as [| x t IH]; simpl; [by rewrite Hc | by rewrite IH]. Qed.
Lemma join_snoc sep l x : l <> [] -> join_text sep (l ++ [x]) = join_text sep l ++ sep ++ x.
Proof. induction l as [| a [| b l] IH]; [done | done |]. intros _. simpl app in *. rewrite !join_text_cons, IH by done. by rewrite <- !app_assoc. Qed.
Lemma join_starts sep a l : starts_solid a -> starts_solid (join_text sep (a :: l)).
Proof. intros (c & t & -> & Hc). exists c. destruct l; [by exists t |]. rewrite join_text_cons. simpl. eauto. Qed.
Lemma join_ends sep l a : ends_solid a -> ends_solid (join_text sep (l ++ [a])).
Proof.
  intros (t & c & -> & Hc). destruct (decide (l = [])) as [-> |]; [by exists t, c |]. rewrite join_snoc by done. exists (join_text sep l ++ sep ++ t), c. by rewrite <- !app_assoc.
Qed.
Lemma solid_starts w : w <> [] -> solid w = true -> starts_solid w.
Proof. destruct w as [| c w]; [done |]. rewrite solid_cons. intros _ [Hc _]%andb_prop. exists c, w. split; [done |]. by apply negb_true_iff. Qed.
Lemma solid_ends w : w <> [] -> solid w = true -> ends_solid w.
Proof.
  destruct w as [| x w _] using rev_ind; [done |]. intros _ H. exists w, x. split; [done |]. unfold solid in H. rewrite existsb_app in H. apply negb_true_iff, orb_false_iff in H as [_ H].
  simpl in H. by rewrite orb_false_r in H.
Qed.
Lemma split_join r ls : ls <> [] -> Forall (fun l => r ∉ l) ls -> split_rune r (join_text [r] ls) = ls.
Proof.
  intros H0 H. induction H as [| a l Ha Hl IH]; [done |]. clear H0.
  assert (Hone : forall a t, r ∉ a -> split_rune r (a ++ r :: t) = a :: split_rune r t).
  { clear. intros a t Ha. induction a as [| c a IH]; simpl; [by rewrite Z.eqb_refl |]. apply not_elem_of_cons in Ha as [Hc Ha].
    destruct (c =? r) eqn:E; [apply Z.eqb_eq in E; congruence |]. by rewrite IH. }
  assert (Hend : forall a, r ∉ a -> split_rune r a = [a]).
  { clear. intros a Ha. induction a as [| c a IH]; simpl; [done |]. apply not_elem_of_cons in Ha as [Hc Ha].
    destruct (c =? r) eqn:E; [apply Z.eqb_eq in E; congruence |]. by rewrite IH. }
  destruct l as [| b l]; [by apply Hend |]. rewrite join_text_cons. change ([r] ++ ?x) with (r :: x). rewrite Hone by done. f_equal. by apply IH.
Qed.
Lemma trim_left_edge t : trim_left t = [] \/ starts_solid (trim_left t).
Proof. induction t as [| c t IH]; simpl; [by left |]. destruct (is_space c) eqn:E; [done |]. right. by exists c, t. Qed.
Lemma trim_right_edge t : trim_right t = [] \/ ends_solid (trim_right t).
Proof.
  induction t as [| c t IH]; simpl; [by left |]. destruct (trim_right t) as [| d r] eqn:E.
  - destruct (is_space c) eqn:Hc; [by left |]. right. by exists [], c.
  - right. destruct IH as [? | (t' & x & -> & Hx)]; [done |]. by exists (c :: t'), x.
Qed.
Lemma trim_right_starts t : starts_solid t -> trim_right t = [] \/ starts_solid (trim_right t).
Proof. intros (c & t' & -> & Hc). simpl. destruct (trim_right t'); [rewrite Hc |]; right; [by exists c, [] | by eexists c, _]. Qed.
Lemma trim_trim t : trim (trim t) = trim t.
Proof.
  unfold trim. destruct (trim_left_edge t) as [-> | Hs]; [done |]. destruct (trim_right_starts _ Hs) as [-> | Hs']; [done |].
  rewrite (trim_left_starts _ Hs'). destruct (trim_right_edge (trim_left t)) as [-> | He]; [done |]. by apply trim_right_ends.
Qed.

Section Every.
Context (P : Z -> Prop).
Lemma fields_every t : Forall P t -> Forall (Forall P) (fields t).
Proof.
  induction 1 as [| c t Hc Ht IH]; [constructor |]. rewrite fields_cons. destruct (is_space c); [done |]. destruct t as [| d t]; [by repeat constructor |].
  destruct (is_space d); [by repeat constructor |]. destruct (fields (d :: t)); [by repeat constructor |]. inversion_clear IH. by repeat constructor.
Qed.
Lemma join_every sep ls : Forall P sep -> Forall (Forall P) ls -> Forall P (join_text sep ls).
Proof. intros Hs. induction 1 as [| a [| b l] Ha Hl IH]; [constructor | done |]. rewrite join_text_cons. by repeat (apply Forall_app; split). Qed.
Lemma split_every r t : Forall P t -> Forall (Forall P) (split_rune r t).
Proof.
  induction 1 as [| c t Hc Ht IH]; [by repeat constructor |]. simpl. destruct (c =? r); [by constructor |]. destruct (split_rune r t); [by repeat constructor |].
  inversion_clear IH. by repeat constructor.
Qed.
Lemma trim_every t : Forall P t -> Forall P (trim t).
Proof. destruct (trim_spec t) as (a & b & E & _). rewrite E at 1. by intros [_ [H _]%Forall_app]%Forall_app. Qed.
End Every.
Lemma last_space a : solid a = true \/ exists a1 c a2, a = a1 ++ c :: a2 /\ is_space c = true /\ solid a2 = true.
Proof.
  induction a as [| x a [IH | (a1 & c & a2 & -> & Hc & H2)]]; [by left | |].
  - destruct (is_space x) eqn:Hx; [right; by exists [], x, a | left; by rewrite solid_cons, Hx].
  - right. by exists (x :: a1), c, a2.
Qed.
Lemma solid_app a b : solid (a ++ b) = solid a && solid b.
Proof. unfold solid. by rewrite existsb_app, negb_orb. Qed.
(** The end of a text, without white space, is within one of its words. *)
Lemma fields_end a w : solid w = true -> w <> [] -> exists v, v ∈ fields (a ++ w) /\ (length w <= length v)%nat.
Proof.
  intros Hw Hn. destruct (last_space a) as [Ha | (a1 & c & a2 & -> & Hc & H2)].
  - exists (a ++ w). rewrite fields_solid; [| by rewrite solid_app, Ha, Hw | by destruct a]. split; [by left | rewrite length_app; lia].
  - exists (a2 ++ w). rewrite <- app_assoc. simpl. rewrite fields_app_space by done. rewrite (fields_solid (a2 ++ w)); [| by rewrite solid_app, H2, Hw | by destruct a2].
    split; [apply elem_of_app; right; by left | rewrite length_app; lia].
Qed.
