(* ===== verification/Chunking.v ===== *)
(** Knowledge texts: their cleaning and their chunks ([internal/knowledge/normalize.go],
    [chunk.go]). *)
From S2P Require Import Prelude GoText Runes.
From Stdlib Require Import Ascii.

(** * Cleaning *)

(** [strings.ReplaceAll(s, "\r\n", "\n")], then the lone ["\r"]. *)
Fixpoint crlf (t : text) : text :=
  match t with
  | [] => []
  | c :: t' => if c =? 13 then match t' with d :: t'' => if d =? 10 then 10 :: crlf t'' else 13 :: crlf t' | [] => [13] end else c :: crlf t'
  end.
Definition cr (t : text) : text := map (fun c => if c =? 13 then 10 else c) t.
(** [unicode.IsControl]: the category Cc. *)
Definition is_control (r : Z) : bool := ((0 <=? r) && (r <=? 31)) || ((127 <=? r) && (r <=? 159)).
Definition clean_rune (r : Z) : option Z :=
  if r =? newline then Some r
  else if (r =? 9) || (r =? 160) then Some blank_rune
  else if is_control r || (r =? 65279) || (r =? 8203) then None
  else Some r.
Definition tidy (l : text) : text := join_text [blank_rune] (fields l).
(** The loop over the lines: [blank], and whether [out] has a line. *)
Fixpoint clean_lines (blank started : bool) (lines : list text) : list text :=
  match lines with
  | [] => []
  | l :: lines' =>
      match tidy l with
      | [] => if blank || negb started then clean_lines blank started lines' else [] :: clean_lines true true lines'
      | l => l :: clean_lines false true lines'
      end
  end.
Definition prepared (s : text) : text := omap clean_rune (cr (crlf s)).
Definition NormalizeText (s : text) : text := trim (join_text [newline] (clean_lines false false (split_rune newline (prepared s)))).

(** * Chunks *)
Definition chunkMax : nat := 1000.
Definition chunkOverlap : nat := 100.
Record Section_ := MkSection { sc_Heading : text; sc_Text : text }.
Record Piece := MkPiece { pc_Index : nat; pc_Heading : text; pc_Content : text }.

(** The largest [i] with [lo < i < n] that satisfies [p]. *)
Fixpoint last_such (p : nat -> bool) (lo n : nat) : option nat :=
  match n with O => None | S i => if (lo <? i)%nat && p i then Some i else last_such p lo i end.
Definition rune_is (r : text) (i : nat) (c : Z) : bool := match r !! i with Some x => x =? c | None => false end.
Definition ends_sentence (r : text) (i : nat) : bool :=
  (rune_is r i 46 || rune_is r i 33 || rune_is r i 63) && rune_is r (S i) blank_rune.
Definition lastBoundary (r : text) : nat :=
  match last_such (ends_sentence r) (length r / 2) (length r) with
  | Some i => S i
  | None => default (length r) (last_such (fun i => rune_is r i blank_rune) 0 (length r))
  end.
(** The first blank at [i] or after, else the end. *)
Fixpoint next_blank (i : nat) (rest : text) : nat :=
  match rest with [] => i | c :: rest' => if c =? blank_rune then i else next_blank (S i) rest' end.
Definition cut_at (max : nat) (r : text) : nat :=
  let cut := lastBoundary (take max r) in if (cut =? max)%nat then next_blank max (drop max r) else cut.
Fixpoint break_long (fuel : nat) (max : nat) (r : text) : list text :=
  match fuel with
  | O => [r]
  | S fuel' =>
      if (max <? length r)%nat then
        let cut := cut_at max r in trim (take cut r) :: break_long fuel' max (trim (drop cut r))
      else match r with [] => [] | _ => [r] end
  end.
(** Every round consumes a rune ([breakLong_eq]). *)
Definition breakLong (line : text) (max : nat) : list text := break_long (S (length line)) max line.

(** What follows the first of [" \n"], or everything. *)
Fixpoint after_break (t : text) : option text :=
  match t with [] => None | c :: t' => if (c =? blank_rune) || (c =? newline) then Some t' else after_break t' end.
Definition overlapTail (prev : text) : text :=
  if (length prev <=? chunkOverlap)%nat then []
  else let tail := drop (length prev - chunkOverlap) prev in trim (default tail (after_break tail)).

Definition nonempty (t : text) : bool := match t with [] => false | _ => true end.
Definition add_unit (st : list text * text) (u : text) : list text * text :=
  let '(chunks, cur) := st in
  let '(chunks, cur) := if nonempty cur && (chunkMax <? length cur + 1 + length u)%nat then (chunks ++ [cur], overlapTail cur) else (chunks, cur) in
  (chunks, (if nonempty cur then cur ++ [newline] else cur) ++ u).
Definition flush (st : list text * text) : list text := let '(chunks, cur) := st in if nonempty cur then chunks ++ [cur] else chunks.
Definition units (t : text) : list text := split_rune newline t ≫= fun line => breakLong line (chunkMax - chunkOverlap - 2).
Definition splitText (t : text) : list text :=
  if (length t <=? chunkMax)%nat then [t] else flush (foldl add_unit ([], []) (units t)).
Definition chunk_section (out : list Piece) (s : Section_) : list Piece :=
  let t := NormalizeText (sc_Text s) in
  if (length t <? 1)%nat then out else foldl (fun out c => out ++ [MkPiece (length out) (sc_Heading s) c]) out (splitText t).
Definition Chunk (sections : list Section_) : list Piece := foldl chunk_section [] sections.

(** * Cuts *)
Lemma last_such_some p lo n i : last_such p lo n = Some i -> (lo < i < n)%nat /\ p i = true.
Proof.
  induction n as [| n IH]; [done |]. simpl. destruct ((lo <? n)%nat && p n) eqn:E; [apply andb_prop in E as [E Hp]; apply Nat.ltb_lt in E; intros [= <-]; split; [lia | done] |].
  intros [? ?]%IH. split; [lia | done].
Qed.
Lemma last_such_none p lo n : last_such p lo n = None -> forall i, (lo < i < n)%nat -> p i = false.
Proof.
  induction n as [| n IH]; [intros; lia |]. simpl. destruct ((lo <? n)%nat && p n) eqn:E; [done |]. intros H i Hi.
  destruct (decide (i = n)) as [-> |]; [| apply IH; [done | lia]]. apply andb_false_iff in E as [E | E]; [apply Nat.ltb_ge in E; lia | done].
Qed.
Lemma rune_is_true r i c : rune_is r i c = true -> r !! i = Some c.
Proof. unfold rune_is. destruct (r !! i); [| done]. by intros ->%Z.eqb_eq. Qed.
Lemma next_blank_spec i rest : exists k, next_blank i rest = (i + k)%nat /\ (k <= length rest)%nat /\ (drop k rest = [] \/ rest !! k = Some blank_rune) /\ (blank_rune ∉ take k rest).
Proof.
  revert i. induction rest as [| c rest IH]; intros i; simpl; [exists 0%nat; split_and!; [lia | lia | by left | apply not_elem_of_nil] |].
  destruct (c =? blank_rune) eqn:E; [exists 0%nat; apply Z.eqb_eq in E as ->; split_and!; [lia | lia | by right | apply not_elem_of_nil] |].
  destruct (IH (S i)) as (k & -> & Hk & Hn & Hb). exists (S k). split_and!; [lia | lia | done |]. simpl. intros [Hc |]%elem_of_cons; [by rewrite <- Hc, Z.eqb_refl in E | done].
Qed.
(** Where a line too long is cut: before a blank or at the end, after a rune at least; what
    comes before has no blank inside when it is longer than allowed. *)
Lemma cut_at_spec max r : (0 < max < length r)%nat ->
  (0 < cut_at max r <= length r)%nat /\ (drop (cut_at max r) r = [] \/ r !! cut_at max r = Some blank_rune) /\
  ((cut_at max r < max)%nat \/ forall i, (0 < i < cut_at max r)%nat -> r !! i <> Some blank_rune).
Proof.
  intros Hm. unfold cut_at, lastBoundary. assert (El : length (take max r) = max) by (rewrite length_take; lia). rewrite El.
  destruct (last_such (ends_sentence (take max r)) _ _) as [i |] eqn:E1.
  - apply last_such_some in E1 as [Hi He]. apply andb_prop in He as [_ He]. apply rune_is_true in He.
    pose proof (lookup_lt_Some _ _ _ He) as Hl. rewrite El in Hl. rewrite lookup_take_lt in He by done.
    replace (S i =? max)%nat with false by (symmetry; apply Nat.eqb_neq; lia). split_and!; [lia | lia | by right | left; lia].
  - destruct (last_such _ 0 max) as [i |] eqn:E2; simpl.
    + apply last_such_some in E2 as [Hi He]. apply rune_is_true in He. rewrite lookup_take_lt in He by lia.
      replace (i =? max)%nat with false by (symmetry; apply Nat.eqb_neq; lia). split_and!; [lia | lia | by right | left; lia].
    + rewrite Nat.eqb_refl. destruct (next_blank_spec max (drop max r)) as (k & -> & Hk & Hn & Hb). rewrite length_drop in Hk.
      split_and!; [lia | lia | | right].
      * destruct Hn as [Hn | Hn]; [left; by rewrite drop_drop in Hn | right; by rewrite lookup_drop in Hn].
      * intros i Hi Hr. destruct (decide (i < max)%nat).
        { pose proof (last_such_none _ _ _ E2 i ltac:(lia)) as H. unfold rune_is in H. rewrite lookup_take_lt in H by done. by rewrite Hr in H. }
        apply Hb, list_elem_of_lookup. exists (i - max)%nat. rewrite lookup_take_lt, lookup_drop by lia. rewrite <- Hr. f_equal. lia.
Qed.
(** The cut loses no word. *)
Lemma cut_words max r : (0 < max < length r)%nat -> fields r = fields (take (cut_at max r) r) ++ fields (drop (cut_at max r) r).
Proof.
  intros Hm. destruct (cut_at_spec max r Hm) as (_ & [E | E] & _); rewrite <- (take_drop (cut_at max r) r) at 1.
  - by rewrite E, !app_nil_r.
  - rewrite (drop_S r blank_rune _ E). by rewrite fields_app_space.
Qed.

(** * Lines *)
Lemma break_long_fuel max f f' r : (0 < max)%nat -> (length r < f)%nat -> (length r < f')%nat -> break_long f max r = break_long f' max r.
Proof.
  intros Hm. revert f' r. induction f as [| f IH]; intros [| f'] r Hf Hf'; [lia.. |]. simpl. destruct (max <? length r)%nat eqn:E; [| done].
  apply Nat.ltb_lt in E. f_equal. pose proof (cut_at_spec max r ltac:(lia)) as ((Hc & _) & _). pose proof (trim_length (drop (cut_at max r) r)) as Ht.
  rewrite length_drop in Ht. apply IH; lia.
Qed.
Lemma breakLong_eq r max : (0 < max)%nat ->
  breakLong r max = if (max <? length r)%nat then trim (take (cut_at max r) r) :: breakLong (trim (drop (cut_at max r) r)) max
                    else match r with [] => [] | _ => [r] end.
Proof.
  intros Hm. unfold breakLong at 1. simpl. destruct (max <? length r)%nat eqn:E; [| done]. apply Nat.ltb_lt in E. f_equal.
  pose proof (cut_at_spec max r ltac:(lia)) as ((Hc & _) & _). pose proof (trim_length (drop (cut_at max r) r)) as Ht. rewrite length_drop in Ht.
  apply break_long_fuel; lia.
Qed.
Lemma breakLong_ind (P : text -> list text -> Prop) max : (0 < max)%nat ->
  (forall r, (length r <= max)%nat -> P r (match r with [] => [] | _ => [r] end)) ->
  (forall r us, (max < length r)%nat -> P (trim (drop (cut_at max r) r)) us -> P r (trim (take (cut_at max r) r) :: us)) ->
  forall r, P r (breakLong r max).
Proof.
  intros Hm H0 H1 r. induction r as [r IH] using (induction_ltof1 _ (@length Z)). rewrite breakLong_eq by done. destruct (max <? length r)%nat eqn:E.
  - apply Nat.ltb_lt in E. apply H1, IH; [done |]. pose proof (cut_at_spec max r ltac:(lia)) as ((Hc & _) & _).
    pose proof (trim_length (drop (cut_at max r) r)) as Ht. rewrite length_drop in Ht. unfold ltof. lia.
  - apply Nat.ltb_ge in E. by apply H0.
Qed.
Lemma breakLong_words max r : (0 < max)%nat -> breakLong r max ≫= fields = fields r.
Proof.
  intros Hm. apply (breakLong_ind (fun r us => us ≫= fields = fields r) max Hm); clear r.
  - intros [| c r] _; [done |]. cbn [mbind list_bind]. by rewrite app_nil_r.
  - intros r us Hl H. cbn [mbind list_bind] in *. rewrite H, !fields_trim. symmetry. apply cut_words. lia.
Qed.
(** The blank is the only white space of the line. *)
Definition plain_line (r : text) : Prop := Forall (fun c => is_space c = true -> c = blank_rune) r.
Lemma breakLong_sizes max r : (0 < max)%nat -> plain_line r -> Forall (fun w => (length w <= max)%nat) (fields r) -> Forall (fun u => (length u <= max)%nat) (breakLong r max).
Proof.
  intros Hm. apply (breakLong_ind (fun r us => plain_line r -> Forall _ (fields r) -> Forall _ us) max Hm); clear r.
  - intros [| c r] Hl _ _; by repeat constructor.
  - intros r us Hl IH Hp Hw. destruct (cut_at_spec max r ltac:(lia)) as (Hc & _ & Hcut). pose proof (cut_words max r ltac:(lia)) as Hf.
    rewrite Hf in Hw. apply Forall_app in Hw as [Hw1 Hw2]. constructor.
    + destruct Hcut as [Hcut | Hcut].
      { pose proof (trim_length (take (cut_at max r) r)). rewrite length_take in *. lia. }
      destruct (take (cut_at max r) r) as [| c w] eqn:E; [simpl; lia |].
      assert (Hs : solid w = true).
      { unfold solid. apply negb_true_iff. destruct (existsb is_space w) eqn:Ex; [| done]. apply existsb_exists in Ex as (x & Hx%list_elem_of_In & Hsp). exfalso.
        apply list_elem_of_lookup in Hx as [i Hi]. assert (Ei : take (cut_at max r) r !! S i = Some x) by (by rewrite E).
        pose proof (lookup_lt_Some _ _ _ Ei) as Hlt. rewrite length_take in Hlt. rewrite lookup_take_lt in Ei by lia. apply (Hcut (S i)); [lia |].
        rewrite Ei. f_equal. eapply (Forall_lookup_1 _ _ _ _ Hp); eassumption. }
      rewrite fields_one in Hw1 by done. destruct (trim (c :: w)); [simpl; lia | by inversion Hw1].
    + apply IH; [| by rewrite fields_trim]. destruct (trim_spec (drop (cut_at max r) r)) as (a & b & E & _). unfold plain_line in *.
      rewrite <- (take_drop (cut_at max r) r), E in Hp. by apply Forall_app in Hp as [_ [_ [Hp _]%Forall_app]%Forall_app].
Qed.

(** * Chunks

    A chunk is an overlap, repeated from the previous chunk, and a body of its own. *)
Definition render (p : text * text) : text := match fst p with [] => snd p | o => o ++ newline :: snd p end.
Fixpoint chained (o : text) (parts : list (text * text)) : Prop :=
  match parts with [] => True | p :: l => fst p = o /\ chained (overlapTail (render p)) l end.
Definition body_words (parts : list (text * text)) : list text := parts ≫= fun p => fields (snd p).
Fixpoint last_overlap (o : text) (parts : list (text * text)) : text :=
  match parts with [] => o | p :: l => last_overlap (overlapTail (render p)) l end.
Lemma chained_snoc o l p : chained o (l ++ [p]) <-> chained o l /\ fst p = last_overlap o l.
Proof. revert o. induction l as [| q l IH]; intros o; simpl; [naive_solver |]. rewrite IH. naive_solver. Qed.
Lemma last_overlap_snoc o l p : last_overlap o (l ++ [p]) = overlapTail (render p).
Proof. revert o. induction l as [| q l IH]; intros o; simpl; [done | apply IH]. Qed.
Lemma body_words_snoc l p : body_words (l ++ [p]) = body_words l ++ fields (snd p).
Proof. unfold body_words. rewrite bind_app. simpl. by rewrite app_nil_r. Qed.
Lemma render_nil p : render p = [] -> p = ([], []).
Proof. destruct p as [[| c o] b]; unfold render; simpl; [by intros -> | done]. Qed.
Lemma render_body p u : render p <> [] -> render (fst p, snd p ++ newline :: u) = render p ++ newline :: u.
Proof. destruct p as [[| c o] b]; unfold render; simpl; [done |]. by rewrite <- app_assoc. Qed.
Lemma render_fields p : fields (render p) = fields (fst p) ++ fields (snd p).
Proof. destruct p as [[| c o] b]; [done |]. change (render (c :: o, b)) with ((c :: o) ++ newline :: b). by rewrite fields_app_space. Qed.

(** What the loop of [splitText] has after the units [us]. *)
Definition filled_with (us : list text) (st : list text * text) : Prop :=
  exists parts p, fst st = map render parts /\ snd st = render p /\ chained [] (parts ++ [p]) /\ body_words (parts ++ [p]) = us ≫= fields.
Lemma nonempty_true t : nonempty t = true <-> t <> [].
Proof. by destruct t. Qed.
Lemma add_unit_filled us u st : filled_with us st -> filled_with (us ++ [u]) (add_unit st u).
Proof.
  destruct st as [chunks cur]. intros (parts & p & E1 & E2 & Hc & Hw). simpl in E1, E2. subst chunks cur. apply chained_snoc in Hc as [Hc Hp].
  rewrite body_words_snoc in Hw. unfold add_unit, filled_with. rewrite bind_app. cbn [mbind list_bind]. rewrite app_nil_r.
  destruct (nonempty (render p) && _) eqn:E.
  - exists (parts ++ [p]), (overlapTail (render p), u). rewrite map_app. simpl fst. simpl snd. split_and!; [done | | |].
    + destruct (overlapTail (render p)) as [| c o]; [done |]. change (render (c :: o, u)) with ((c :: o) ++ newline :: u). cbn [nonempty]. by rewrite <- app_assoc.
    + rewrite !chained_snoc. by rewrite last_overlap_snoc.
    + rewrite !body_words_snoc. by rewrite Hw.
  - destruct (nonempty (render p)) eqn:En.
    + apply nonempty_true in En. exists parts, (fst p, snd p ++ newline :: u). simpl fst. simpl snd. split_and!; [done | | by rewrite chained_snoc |].
      * rewrite render_body by done. by rewrite <- app_assoc.
      * rewrite body_words_snoc, <- Hw. simpl snd. by rewrite fields_app_space, app_assoc.
    + destruct (render p) eqn:Er; [| done]. apply render_nil in Er as ->. exists parts, ([], u). simpl. split_and!; [done | done | by rewrite chained_snoc |].
      rewrite body_words_snoc, <- Hw. simpl. by rewrite !app_nil_r.
Qed.
Lemma splitText_carries t : exists parts, splitText t = map render parts /\ chained [] parts /\ body_words parts = fields t.
Proof.
  unfold splitText. destruct (length t <=? chunkMax)%nat; [exists [([], t)]; unfold body_words; simpl; by rewrite app_nil_r |].
  assert (H : filled_with ([] ++ units t) (foldl add_unit ([], []) (units t))).
  { assert (H0 : filled_with [] ([], [])) by (exists [], ([], []); done). revert H0. generalize (@nil text) at 1 3 as us. generalize (@nil text, @nil Z) as st.
    induction (units t) as [| u l IH]; intros st us H; simpl; [by rewrite app_nil_r |]. rewrite (app_assoc us [u] l : us ++ u :: l = _). by apply IH, add_unit_filled. }
  destruct H as (parts & p & E1 & E2 & Hc & Hw). assert (Hu : units t ≫= fields = fields t).
  { unfold units. rewrite <- (fields_split newline t eq_refl). induction (split_rune newline t) as [| l ls IH]; [done |]. cbn [mbind list_bind].
    rewrite bind_app, IH. by rewrite breakLong_words by (cbv; lia). }
  simpl app in Hw. rewrite Hu in Hw. destruct (foldl _ _ _) as [chunks cur]. simpl in E1, E2. subst. unfold flush. destruct (nonempty (render p)) eqn:En.
  - exists (parts ++ [p]). by rewrite map_app.
  - destruct (render p) eqn:Er; [| done]. apply render_nil in Er as ->. exists parts. rewrite body_words_snoc, app_nil_r in Hw. by apply chained_snoc in Hc as [? _].
Qed.
Lemma overlapTail_length prev : (length (overlapTail prev) <= chunkOverlap)%nat.
Proof.
  unfold overlapTail. destruct (length prev <=? chunkOverlap)%nat eqn:E; [simpl; lia |]. apply Nat.leb_gt in E.
  assert (Ha : forall t, (length (default t (after_break t)) <= length t)%nat).
  { intros t. destruct (after_break t) as [r |] eqn:Er; simpl; [| done]. revert r Er. induction t as [| c t IH]; intros r; simpl; [done |].
    destruct ((c =? blank_rune) || (c =? newline)); [intros [= ->]; lia | intros H%IH; lia]. }
  etrans; [apply trim_length |]. etrans; [apply Ha |]. rewrite length_drop. lia.
Qed.

(** * Cleaned text *)
Lemma tidy_plain l : plain_line (tidy l).
Proof.
  unfold tidy, plain_line. pose proof (fields_words l) as H. induction H as [| w ws [_ Hs] _ IH]; [constructor |].
  assert (Hw : Forall (fun c => is_space c = true -> c = blank_rune) w).
  { apply Forall_forall. intros c Hc Hsp. unfold solid in Hs. apply negb_true_iff in Hs. exfalso. apply not_true_iff_false in Hs. apply Hs, existsb_exists.
    exists c. split; [by apply list_elem_of_In | done]. }
  destruct ws as [| v ws]; [done |]. rewrite join_text_cons. apply Forall_app. split; [done |]. apply Forall_app. split; [by repeat constructor | done].
Qed.
Lemma tidy_no_newline l : newline ∉ tidy l.
Proof. intros H. pose proof (tidy_plain l) as Hp. unfold plain_line in Hp. rewrite Forall_forall in Hp. by specialize (Hp _ H eq_refl). Qed.
Lemma tidy_tidy l : tidy (tidy l) = tidy l.
Proof. unfold tidy. by rewrite fields_join_fields. Qed.
Lemma tidy_edges l : tidy l <> [] -> starts_solid (tidy l) /\ ends_solid (tidy l).
Proof.
  unfold tidy. pose proof (fields_words l) as H. intros Hn. split.
  - destruct H as [| w ws [Hw Hs] _]; [done |]. by apply join_starts, solid_starts.
  - destruct (fields l) as [| w ws _] using rev_ind; [done |]. apply Forall_app in H as [_ [[Hw Hs] _]%Forall_cons]. by apply join_ends, solid_ends.
Qed.
(** What the loop over the lines leaves alone. *)
Fixpoint cleaned (blank started : bool) (ls : list text) : Prop :=
  match ls with
  | [] => True
  | l :: ls' => tidy l = l /\ match l with [] => blank = false /\ started = true /\ cleaned true true ls' | _ => cleaned false true ls' end
  end.
Lemma clean_lines_cleaned b s ls : cleaned b s (clean_lines b s ls).
Proof.
  revert b s. induction ls as [| l ls IH]; intros b s; simpl; [done |]. destruct (tidy l) as [| c t] eqn:E.
  - destruct (b || negb s) eqn:Eb; [apply IH |]. apply orb_false_iff in Eb as [-> Es]. apply negb_false_iff in Es as ->. simpl. split_and!; [done | done | done | apply IH].
  - cbn [cleaned]. rewrite <- E, tidy_tidy, E. split; [done | apply IH].
Qed.
Lemma cleaned_id b s ls : cleaned b s ls -> clean_lines b s ls = ls.
Proof.
  revert b s. induction ls as [| l ls IH]; intros b s; simpl; [done |]. intros [Ht H]. rewrite Ht. destruct l.
  - destruct H as (-> & -> & H). simpl. by rewrite IH.
  - by rewrite IH.
Qed.
Lemma cleaned_app b s ls ms : cleaned b s (ls ++ ms) -> cleaned b s ls.
Proof. revert b s. induction ls as [| l ls IH]; intros b s; simpl; [done |]. intros [Ht H]. split; [done |]. destruct l; naive_solver. Qed.
Lemma cleaned_tidy b s ls : cleaned b s ls -> Forall (fun l => tidy l = l) ls.
Proof. revert b s. induction ls as [| l ls IH]; intros b s; simpl; [constructor |]. intros [Ht H]. constructor; [done |]. destruct l; naive_solver. Qed.
Lemma cleaned_last ls : cleaned false false (ls ++ [[]]) -> exists ks x, ls = ks ++ [x] /\ x <> [].
Proof.
  destruct ls as [| x ks _] using rev_ind; [by intros (_ & _ & ? & _) |]. intros H. exists ks, x. split; [done |]. intros ->. revert H.
  generalize false at 1 as b. generalize false as s. induction ks as [| l ks IH]; intros s b; simpl; [by intros (_ & _ & _ & _ & ? & _) |].
  intros [_ H]. destruct l; [destruct H as (_ & _ & H) |]; by eapply IH.
Qed.
Lemma trim_cleaned ls : cleaned false false ls ->
  exists ks, trim (join_text [newline] ls) = join_text [newline] ks /\ cleaned false false ks.
Proof.
  assert (Hsolid : forall ks x, x <> [] -> cleaned false false (ks ++ [x]) -> trim (join_text [newline] (ks ++ [x])) = join_text [newline] (ks ++ [x])).
  { intros ks x Hx H. pose proof (cleaned_tidy _ _ _ H) as [Hk [Et _]%Forall_cons]%Forall_app. apply trim_solid.
    - destruct (ks ++ [x]) as [| a l] eqn:E; [by destruct ks |]. simpl in H. destruct H as [Ha H]. apply join_starts. destruct a; [by destruct H as (_ & ? & _) |].
      rewrite <- Ha. by apply tidy_edges; rewrite Ha.
    - apply join_ends. rewrite <- Et. by apply tidy_edges; rewrite Et. }
  destruct ls as [| x ks _] using rev_ind; [by exists [] |]. intros H. destruct (decide (x = [])) as [-> | Hx]; [| exists (ks ++ [x]); auto].
  destruct (cleaned_last _ H) as (js & y & -> & Hy). apply cleaned_app in H. exists (js ++ [y]). split; [| done].
  rewrite join_snoc by (by destruct js). rewrite app_nil_r. pose proof (Hsolid js y Hy H) as E.
  unfold trim in *. assert (Hl : trim_left (join_text [newline] (js ++ [y]) ++ [newline]) = trim_left (join_text [newline] (js ++ [y])) ++ [newline]).
  { destruct (js ++ [y]) as [| a l] eqn:Ea; [by destruct js |]. assert (Hs : starts_solid (join_text [newline] (a :: l))).
    { simpl in H. destruct H as [Ha H]. apply join_starts. destruct a; [by destruct H as (_ & ? & _) |]. rewrite <- Ha. by apply tidy_edges; rewrite Ha. }
    rewrite (trim_left_starts _ Hs). destruct Hs as (c & t & -> & Hc). simpl. by rewrite Hc. }
  by rewrite Hl, trim_right_space.
Qed.
Lemma normal_form s : exists ks, NormalizeText s = join_text [newline] ks /\ cleaned false false ks.
Proof. apply trim_cleaned, clean_lines_cleaned. Qed.

(** ** Cleaning is done once *)
Definition kept (c : Z) : Prop := clean_rune c = Some c.
Lemma kept_not_cr c : kept c -> c <> 13.
Proof. by intros H ->. Qed.
Lemma prepared_kept s : Forall kept (prepared s).
Proof.
  unfold prepared. apply Forall_forall. intros x (y & _ & Hy)%list_elem_of_omap. unfold kept. revert Hy. unfold clean_rune.
  destruct (y =? newline) eqn:E1; [intros [= <-]; by rewrite E1 |]. destruct ((y =? 9) || (y =? 160)) eqn:E2; [by intros [= <-] |].
  destruct (is_control y || (y =? 65279) || (y =? 8203)) eqn:E3; [done |]. intros [= <-]. by rewrite E1, E2, E3.
Qed.
Lemma prepared_id t : Forall kept t -> prepared t = t.
Proof.
  intros H. assert (E1 : crlf t = t).
  { induction H as [| c t Hc _ IH]; [done |]. simpl. replace (c =? 13) with false; [by rewrite IH |]. symmetry. apply Z.eqb_neq. by apply kept_not_cr. }
  assert (E2 : cr t = t).
  { clear E1. induction H as [| c t Hc _ IH]; [done |]. simpl. replace (c =? 13) with false; [by rewrite IH |]. symmetry. apply Z.eqb_neq. by apply kept_not_cr. }
  unfold prepared. rewrite E1, E2. clear E1 E2. induction H as [| c t Hc _ IH]; [done |].
  change (match clean_rune c with Some y => y :: omap clean_rune t | None => omap clean_rune t end = c :: t). by rewrite Hc, IH.
Qed.
Lemma clean_lines_every (P : Z -> Prop) b s ls : P blank_rune -> Forall (Forall P) ls -> Forall (Forall P) (clean_lines b s ls).
Proof.
  intros Hb H. revert b s. induction H as [| l ls Hl _ IH]; intros b s; simpl; [constructor |].
  assert (Ht : Forall P (tidy l)) by (apply join_every; [by constructor | by apply fields_every]).
  destruct (tidy l); [destruct (_ || _) |]; [done | by constructor | by constructor].
Qed.
Lemma NormalizeText_kept s : Forall kept (NormalizeText s).
Proof. apply trim_every, join_every; [by constructor |]. apply clean_lines_every; [done |]. apply split_every, prepared_kept. Qed.
Lemma NormalizeText_lines s : exists ks, NormalizeText s = join_text [newline] ks /\ cleaned false false ks /\ (ks <> [] -> split_rune newline (NormalizeText s) = ks).
Proof.
  destruct (normal_form s) as (ks & E & H). exists ks. split_and!; [done | done |]. intros Hn. rewrite E. apply split_join; [done |].
  eapply Forall_impl; [by eapply cleaned_tidy |]. intros l <-. apply tidy_no_newline.
Qed.
Lemma NormalizeText_idem s : NormalizeText (NormalizeText s) = NormalizeText s.
Proof.
  destruct (NormalizeText_lines s) as (ks & E & Hc & Hs). unfold NormalizeText at 1. rewrite prepared_id by apply NormalizeText_kept.
  destruct ks as [| k ks]; [by rewrite E |]. rewrite Hs, cleaned_id, <- E by done. apply trim_trim.
Qed.
Lemma NormalizeText_plain s : Forall plain_line (split_rune newline (NormalizeText s)).
Proof.
  destruct (NormalizeText_lines s) as (ks & E & Hc & Hs). destruct ks as [| k ks]; [rewrite E; by repeat constructor |]. rewrite Hs by done.
  eapply Forall_impl; [by eapply cleaned_tidy |]. intros l <-. apply tidy_plain.
Qed.

(** * Sizes *)
Lemma add_unit_sizes u st :
  (length u <= chunkMax - chunkOverlap - 2)%nat -> Forall (fun c => (length c <= chunkMax)%nat) (fst st) -> (length (snd st) <= chunkMax)%nat ->
  Forall (fun c => (length c <= chunkMax)%nat) (fst (add_unit st u)) /\ (length (snd (add_unit st u)) <= chunkMax)%nat.
Proof.
  destruct st as [chunks cur]. simpl fst. simpl snd. intros Hu Hc Hl. unfold add_unit. destruct (nonempty cur && _) eqn:E.
  - simpl. split; [apply Forall_app; split; [done | by apply Forall_singleton] |]. pose proof (overlapTail_length cur). destruct (nonempty (overlapTail cur)); rewrite !length_app; simpl; unfold chunkMax, chunkOverlap in *; lia.
  - simpl. split; [done |]. destruct (nonempty cur) eqn:En.
    + simpl in E. apply Nat.ltb_ge in E. rewrite !length_app. simpl. lia.
    + destruct cur; [| done]. simpl. unfold chunkMax, chunkOverlap in *. lia.
Qed.
Lemma splitText_sizes t : Forall plain_line (split_rune newline t) -> Forall (fun w => (length w <= chunkMax - chunkOverlap - 2)%nat) (fields t) ->
  Forall (fun c => (length c <= chunkMax)%nat) (splitText t).
Proof.
  intros Hp Hw. unfold splitText. destruct (length t <=? chunkMax)%nat eqn:E; [apply Nat.leb_le in E; by apply Forall_singleton |].
  assert (Hu : Forall (fun u => (length u <= chunkMax - chunkOverlap - 2)%nat) (units t)).
  { unfold units. rewrite <- (fields_split newline t eq_refl) in Hw. clear E. revert Hw. induction Hp as [| l ls Hl _ IH]; [constructor |]. cbn [mbind list_bind].
    intros [Hw1 Hw2]%Forall_app. apply Forall_app. split; [apply breakLong_sizes; [cbv; lia | done..] | by apply IH]. }
  assert (H : forall st, Forall (fun c => (length c <= chunkMax)%nat) (fst st) -> (length (snd st) <= chunkMax)%nat ->
    Forall (fun c => (length c <= chunkMax)%nat) (fst (foldl add_unit st (units t))) /\ (length (snd (foldl add_unit st (units t))) <= chunkMax)%nat).
  { induction Hu as [| u us Hu _ IH]; intros st H1 H2; simpl; [done |]. destruct (add_unit_sizes u st Hu H1 H2). by apply IH. }
  destruct (H ([], []) ltac:(constructor) ltac:(simpl; lia)) as [H1 H2]. destruct (foldl _ _ _) as [chunks cur]. simpl in *. unfold flush.
  destruct (nonempty cur); [apply Forall_app; split; [done | by apply Forall_singleton] | done].
Qed.

(** * Whole words *)
Lemma after_break_spec t :
  match after_break t with
  | Some r => exists a c, t = a ++ c :: r /\ is_space c = true
  | None => (blank_rune ∉ t) /\ (newline ∉ t)
  end.
Proof.
  induction t as [| c t IH]; simpl; [split; apply not_elem_of_nil |]. destruct ((c =? blank_rune) || (c =? newline)) eqn:E.
  - exists [], c. split; [done |]. apply orb_prop in E as [->%Z.eqb_eq | ->%Z.eqb_eq]; done.
  - apply orb_false_iff in E as [E1%Z.eqb_neq E2%Z.eqb_neq]. destruct (after_break t) as [r |].
    + destruct IH as (a & x & -> & Hx). by exists (c :: a), x.
    + rewrite !not_elem_of_cons. naive_solver.
Qed.
(** The white space of a cleaned text. *)
Definition mild (c : Z) : Prop := is_space c = true -> c = blank_rune \/ c = newline.
Lemma overlap_words prev : Forall mild prev -> Forall (fun w => (length w < chunkOverlap)%nat) (fields prev) -> fields (overlapTail prev) ⊆ fields prev.
Proof.
  intros Hm Hw. unfold overlapTail. destruct (length prev <=? chunkOverlap)%nat eqn:E; [intros ? []%not_elem_of_nil |]. apply Nat.leb_gt in E.
  rewrite fields_trim. set (k := (length prev - chunkOverlap)%nat). pose proof (after_break_spec (drop k prev)) as Hb. destruct (after_break (drop k prev)) as [r |]; simpl.
  - destruct Hb as (a & c & Ed & Hc). rewrite <- (take_drop k prev), Ed, app_assoc, fields_app_space by done. intros x Hx. apply elem_of_app. by right.
  - exfalso. assert (Hs : solid (drop k prev) = true).
    { unfold solid. apply negb_true_iff. destruct (existsb is_space (drop k prev)) eqn:Ex; [| done]. apply existsb_exists in Ex as (x & Hx%list_elem_of_In & Hsp).
      rewrite <- (take_drop k prev) in Hm. apply Forall_app in Hm as [_ Hm]. rewrite Forall_forall in Hm. destruct (Hm x Hx Hsp) as [-> | ->]; tauto. }
    assert (Hl : length (drop k prev) = chunkOverlap) by (rewrite length_drop; lia).
    destruct (fields_end (take k prev) (drop k prev) Hs) as (v & Hv & Hlen); [intros H0; by rewrite H0 in Hl |]. rewrite take_drop in Hv.
    rewrite Forall_forall in Hw. specialize (Hw v Hv). simpl in Hw. lia.
Qed.

Section Runes.
Context (P : Z -> Prop) (HP : P newline).
Lemma breakLong_every max r : (0 < max)%nat -> Forall P r -> Forall (Forall P) (breakLong r max).
Proof.
  intros Hm. apply (breakLong_ind (fun r us => Forall P r -> Forall (Forall P) us) max Hm); clear r.
  - intros [| c r] _ H; [constructor | by apply Forall_singleton].
  - intros r us _ IH Hr. rewrite <- (take_drop (cut_at max r) r) in Hr. apply Forall_app in Hr as [H1 H2]. constructor; [by apply trim_every | by apply IH, trim_every].
Qed.
Lemma overlapTail_every prev : Forall P prev -> Forall P (overlapTail prev).
Proof.
  intros H. unfold overlapTail. destruct (_ <=? _)%nat; [constructor |]. apply trim_every. set (k := (length prev - chunkOverlap)%nat).
  assert (Hd : Forall P (drop k prev)) by by apply Forall_drop. pose proof (after_break_spec (drop k prev)) as Hb. destruct (after_break (drop k prev)) as [r |]; [| done].
  destruct Hb as (a & c & Ed & _). rewrite Ed in Hd. by apply Forall_app in Hd as [_ [_ Hd]%Forall_cons].
Qed.
Lemma add_unit_every u st : Forall P u -> Forall (Forall P) (fst st) -> Forall P (snd st) -> Forall (Forall P) (fst (add_unit st u)) /\ Forall P (snd (add_unit st u)).
Proof.
  destruct st as [chunks cur]. simpl. intros Hu Hc Hr. destruct (nonempty cur && _); simpl.
  - split; [apply Forall_app; split; [done | by apply Forall_singleton] |]. pose proof (overlapTail_every cur Hr).
    destruct (nonempty _); repeat (apply Forall_app; split); try done. by apply Forall_singleton.
  - split; [done |]. destruct (nonempty _); repeat (apply Forall_app; split); try done. by apply Forall_singleton.
Qed.
Lemma splitText_every t : Forall P t -> Forall (Forall P) (splitText t).
Proof.
  intros Ht. unfold splitText. destruct (_ <=? _)%nat; [by apply Forall_singleton |].
  assert (Hu : Forall (Forall P) (units t)).
  { unfold units. pose proof (split_every P newline t Ht) as Hs. induction Hs as [| l ls Hl _ IH]; [constructor |]. cbn [mbind list_bind]. apply Forall_app. split; [| done].
    apply breakLong_every; [cbv; lia | done]. }
  assert (H : forall st, Forall (Forall P) (fst st) -> Forall P (snd st) -> Forall (Forall P) (fst (foldl add_unit st (units t))) /\ Forall P (snd (foldl add_unit st (units t)))).
  { induction Hu as [| u us Hu _ IH]; intros st H1 H2; simpl; [done |]. destruct (add_unit_every u st Hu H1 H2). by apply IH. }
  destruct (H ([], []) ltac:(constructor) ltac:(constructor)) as [H1 H2]. destruct (foldl _ _ _) as [chunks cur]. simpl in *.
  destruct (nonempty cur); [apply Forall_app; split; [done | by apply Forall_singleton] | done].
Qed.
End Runes.

Lemma chained_words (W : list text) o parts :
  Forall (fun w => (length w < chunkOverlap)%nat) W -> fields o ⊆ W -> chained o parts -> body_words parts ⊆ W -> Forall (Forall mild) (map render parts) ->
  Forall (fun c => fields c ⊆ W) (map render parts).
Proof.
  intros Hlen. revert o. induction parts as [| p parts IH]; intros o Ho; [constructor |]. cbn [chained map body_words mbind list_bind]. intros [Hp Hc] Hb Hm.
  apply Forall_cons in Hm as [Hm Hms]. assert (Hr : fields (render p) ⊆ W).
  { rewrite render_fields, Hp. intros x [Hx | Hx]%elem_of_app; [by apply Ho |]. apply Hb, elem_of_app. by left. }
  constructor; [done |]. apply (IH (overlapTail (render p))); [| done | | done].
  - etrans; [apply overlap_words; [done |] | done]. apply Forall_forall. intros x Hx. rewrite Forall_forall in Hlen. by apply Hlen, Hr.
  - intros x Hx. apply Hb, elem_of_app. by right.
Qed.
Lemma NormalizeText_mild s : Forall mild (NormalizeText s).
Proof.
  destruct (normal_form s) as (ks & E & H). rewrite E. apply join_every; [apply Forall_singleton; by right |]. eapply Forall_impl; [by eapply cleaned_tidy |].
  intros l <-. eapply Forall_impl; [apply tidy_plain |]. intros c Hc Hs. left. by apply Hc.
Qed.
Lemma splitText_words s : Forall (fun w => (length w < chunkOverlap)%nat) (fields (NormalizeText s)) ->
  Forall (fun c => fields c ⊆ fields (NormalizeText s)) (splitText (NormalizeText s)).
Proof.
  intros Hw. destruct (splitText_carries (NormalizeText s)) as (parts & E & Hc & Hb). pose proof (splitText_every mild ltac:(by right) _ (NormalizeText_mild s)) as Hm.
  rewrite E in *. eapply (chained_words _ []); [done | intros ? []%not_elem_of_nil | done | by rewrite Hb | done].
Qed.

(** * The pieces of a document *)
Definition section_chunks (s : Section_) : list text :=
  if (length (NormalizeText (sc_Text s)) <? 1)%nat then [] else splitText (NormalizeText (sc_Text s)).
Definition shown (p : Piece) : text * text := (pc_Heading p, pc_Content p).
Definition section_shown (s : Section_) : list (text * text) := map (pair (sc_Heading s)) (section_chunks s).
Definition numbered (ps : list Piece) : Prop := map pc_Index ps = seq 0 (length ps).
Lemma add_chunks h cs out : numbered out ->
  numbered (foldl (fun out c => out ++ [MkPiece (length out) h c]) out cs) /\
  map shown (foldl (fun out c => out ++ [MkPiece (length out) h c]) out cs) = map shown out ++ map (pair h) cs.
Proof.
  revert out. induction cs as [| c cs IH]; intros out Hn; simpl; [by rewrite app_nil_r |]. destruct (IH (out ++ [MkPiece (length out) h c])) as [H1 H2].
  - unfold numbered in *. rewrite map_app, Hn, length_app, seq_app. done.
  - split; [done |]. rewrite H2, map_app, <- app_assoc. done.
Qed.
Lemma Chunk_sections sections : numbered (Chunk sections) /\ map shown (Chunk sections) = sections ≫= section_shown.
Proof.
  assert (H : forall out, numbered out -> numbered (foldl chunk_section out sections) /\ map shown (foldl chunk_section out sections) = map shown out ++ (sections ≫= section_shown)).
  { induction sections as [| s sections IH]; intros out Hn; simpl; [by rewrite app_nil_r |]. unfold section_shown at 1, section_chunks, chunk_section at 2 4.
    destruct (length (NormalizeText (sc_Text s)) <? 1)%nat; [by apply IH |]. destruct (add_chunks (sc_Heading s) (splitText (NormalizeText (sc_Text s))) out Hn) as [H1 H2].
    destruct (IH _ H1) as [H3 H4]. split; [done |]. by rewrite H4, H2, <- app_assoc. }
  destruct (H [] eq_refl) as [H1 H2]. done.
Qed.
Lemma section_chunks_carry s : exists parts, section_chunks s = map render parts /\ chained [] parts /\ body_words parts = fields (NormalizeText (sc_Text s)).
Proof.
  unfold section_chunks. destruct (length _ <? 1)%nat eqn:E; [| apply splitText_carries]. apply Nat.ltb_lt in E. exists []. split_and!; [done | done |].
  by destruct (NormalizeText (sc_Text s)); [| simpl in E; lia].
Qed.

(** The characters the cleaning erases: the control characters other than tabs and line breaks,
    the byte order mark and the zero-width space. The words of a text are what is left. *)
Definition erased (r : Z) : bool := (is_control r && negb ((r =? 9) || (r =? 10) || (r =? 13))) || (r =? 65279) || (r =? 8203).
Definition words_of (t : text) : list text := fields (List.filter (fun r => negb (erased r)) t).

(** Which white space separates words does not matter. *)
Definition whitened : text -> text := map (fun c => if is_space c then blank_rune else c).
Lemma fields_whitened t : fields (whitened t) = fields t.
Proof.
  induction t as [| c t IH]; [done |]. unfold whitened in *. simpl map. rewrite !fields_cons. destruct (is_space c) eqn:E.
  - by rewrite is_space_blank.
  - rewrite E, IH. destruct t as [| d t]; [done |]. simpl map. destruct (is_space d) eqn:Ed; [by rewrite is_space_blank | by rewrite Ed].
Qed.
Lemma cleaned_rune c : whitened (from_option (fun x => [x]) [] (clean_rune (if c =? 13 then 10 else c))) = whitened (List.filter (fun r => negb (erased r)) [c]).
Proof.
  unfold clean_rune, erased, newline. destruct (c =? 13) eqn:E13; [apply Z.eqb_eq in E13 as ->; reflexivity |].
  destruct (c =? 10) eqn:E10; [apply Z.eqb_eq in E10 as ->; reflexivity |].
  destruct (c =? 9) eqn:E9; [apply Z.eqb_eq in E9 as ->; reflexivity |].
  destruct (c =? 160) eqn:E160; [apply Z.eqb_eq in E160 as ->; reflexivity |]. simpl. rewrite E10, E9, E13. simpl. rewrite andb_true_r.
  by destruct (is_control c || _ || _).
Qed.
Lemma cleaned_runes t : fields (omap clean_rune (cr t)) = words_of t.
Proof.
  unfold words_of. rewrite <- fields_whitened, <- (fields_whitened (List.filter _ _)). f_equal.
  induction t as [| c t IH]; [done |]. change (cr (c :: t)) with ((if c =? 13 then 10 else c) :: cr t).
  assert (El : omap clean_rune ((if c =? 13 then 10 else c) :: cr t) = from_option (fun x => [x]) [] (clean_rune (if c =? 13 then 10 else c)) ++ omap clean_rune (cr t))
    by (simpl; by destruct (clean_rune _)).
  rewrite El, (List.filter_app _ [c] t). unfold whitened in *. rewrite !map_app, IH. f_equal. apply cleaned_rune.
Qed.
(** A carriage return before a line feed adds no word. *)
Lemma crlf_words w t : fields (w ++ List.filter (fun r => negb (erased r)) (crlf t)) = fields (w ++ List.filter (fun r => negb (erased r)) t).
Proof.
  revert w. induction t as [t IH] using (induction_ltof1 _ (@length Z)). intros w. destruct t as [| c t]; [done |]. simpl crlf.
  assert (Hstep : fields (w ++ List.filter (fun r => negb (erased r)) (c :: crlf t)) = fields (w ++ List.filter (fun r => negb (erased r)) (c :: t))).
  { simpl. destruct (negb (erased c)); [| apply IH; unfold ltof; simpl; lia]. rewrite !(cons_middle c w), !app_assoc. apply IH. unfold ltof; simpl; lia. }
  destruct (c =? 13) eqn:Ec; [| exact Hstep]. apply Z.eqb_eq in Ec as ->. destruct t as [| d t]; [done |].
  destruct (d =? 10) eqn:Ed; [| exact Hstep]. apply Z.eqb_eq in Ed as ->. simpl. rewrite !fields_app_space by done. f_equal.
  apply (IH t ltac:(unfold ltof; simpl; lia) []).
Qed.
Lemma fields_tidy l : fields (tidy l) = fields l.
Proof. apply fields_join_fields. Qed.
Lemma clean_lines_words b s ls : clean_lines b s ls ≫= fields = ls ≫= fields.
Proof.
  revert b s. induction ls as [| l ls IH]; intros b s; [done |]. cbn [clean_lines]. pose proof (fields_tidy l) as E.
  destruct (tidy l) as [| c l']; [change (fields []) with (@nil text) in E; destruct (b || negb s) |]; cbn [mbind list_bind]; rewrite <- E, IH; done.
Qed.
(** The cleaning loses no word. *)
Lemma NormalizeText_words t : fields (NormalizeText t) = words_of t.
Proof.
  unfold NormalizeText. rewrite fields_trim, fields_join, clean_lines_words, fields_split by done. unfold prepared. rewrite cleaned_runes.
  apply (crlf_words [] t).
Qed.

(** C33: chunking loses nothing and repeats only what it says. The pieces are numbered from 0
    in order; those of a section are, one after the other, an overlap (nothing for the first,
    the tail of the previous piece for the others, at most 100 characters) and a body, and the
    words of the bodies are, in order, the words of the section's text without the characters the
    cleaning erases: control characters other than tabs and line breaks, and zero-width marks. *)
Theorem chunks_carry_the_text sections :
  map pc_Index (Chunk sections) = seq 0 (length (Chunk sections)) /\
  exists parts : list (list (text * text)),
    map shown (Chunk sections) = concat (zip_with (fun s ps => map (fun p => (sc_Heading s, render p)) ps) sections parts) /\
    Forall2 (fun s ps => chained [] ps /\ Forall (fun p => (length (fst p) <= chunkOverlap)%nat) ps /\ body_words ps = words_of (sc_Text s)) sections parts.
Proof.
  destruct (Chunk_sections sections) as [Hn Hs]. split; [done |]. rewrite Hs. clear Hn Hs. induction sections as [| s sections (parts & E & H)]; [by exists [] |].
  destruct (section_chunks_carry s) as (ps & Es & Hc & Hb). exists (ps :: parts). split.
  - cbn [mbind list_bind zip_with concat]. rewrite E. f_equal. unfold section_shown. by rewrite Es, map_map.
  - constructor; [| done]. rewrite <- NormalizeText_words. split_and!; [done | | done]. assert (Ho : (length (@nil Z) <= chunkOverlap)%nat) by (simpl; lia). clear -Hc Ho. revert Ho Hc. generalize (@nil Z) as o.
    induction ps as [| p ps IH]; intros o Ho; simpl; [constructor |]. intros [<- Hc]. constructor; [done |]. eapply IH; [| exact Hc]. apply overlapTail_length.
Qed.
(** A page break (a form feed) between two words joins them. *)
Example form_feed_joins_words : map shown (Chunk [MkSection [] (lit "one" ++ [12] ++ lit "two")]) = [([], lit "onetwo")].
Proof. vm_compute. reflexivity. Qed.
Definition words_below (n : nat) (s : Section_) : Prop := Forall (fun w => (length w < n)%nat) (fields (NormalizeText (sc_Text s))).
(** What a chunk is bounded by. When no word of the text is longer than 898 characters a
    piece has at most 1000; when none reaches 100, every word of a piece is a word of a
    section with its heading: no word is cut. *)
Theorem chunks_bounded sections :
  (Forall (words_below 899) sections -> Forall (fun p => (length (pc_Content p) <= chunkMax)%nat) (Chunk sections)) /\
  (Forall (words_below chunkOverlap) sections ->
   Forall (fun p => exists s, s ∈ sections /\ pc_Heading p = sc_Heading s /\ fields (pc_Content p) ⊆ fields (NormalizeText (sc_Text s))) (Chunk sections)).
Proof.
  destruct (Chunk_sections sections) as [_ Hs].
  assert (Hin : forall p, p ∈ Chunk sections -> exists s, s ∈ sections /\ pc_Heading p = sc_Heading s /\ pc_Content p ∈ section_chunks s).
  { intros p Hp. assert (Hsh : shown p ∈ map shown (Chunk sections)) by (apply list_elem_of_fmap; eauto). rewrite Hs in Hsh.
    apply list_elem_of_bind in Hsh as (s & (c & E & Hc)%list_elem_of_fmap & Hsec). injection E as -> ->. eauto. }
  split; intros Hw; apply Forall_forall; intros p (s & Hsec & Hh & Hc)%Hin; rewrite Forall_forall in Hw; specialize (Hw s Hsec); unfold words_below, section_chunks in *;
    (destruct (_ <? 1)%nat; [by apply not_elem_of_nil in Hc |]).
  - assert (H : Forall (fun c => (length c <= chunkMax)%nat) (splitText (NormalizeText (sc_Text s)))).
    { apply splitText_sizes; [apply NormalizeText_plain |]. eapply Forall_impl; [exact Hw |]. intros w. unfold chunkMax, chunkOverlap. simpl. lia. }
    rewrite Forall_forall in H. by apply H.
  - exists s. split_and!; [done | done |]. pose proof (splitText_words _ Hw) as H. rewrite Forall_forall in H. by apply H.
Qed.

(** Three lines: the second piece repeats a hundred letters out of the first's only word. *)
Definition sample_text : text := repeat 97 500 ++ [newline] ++ repeat 98 600 ++ [newline] ++ lit "the end".
Definition short_text : text := lit "one  two" ++ [13; 10; 10; 10; 10] ++ lit " three ".
Theorem chunks_bounded_witness :
  map shown (Chunk [MkSection (lit "h") short_text]) = [(lit "h", lit "one two" ++ [10; 10] ++ lit "three")] /\
  map (fun p => length (pc_Content p)) (Chunk [MkSection [] sample_text]) = [500%nat; 709%nat] /\
  Forall (fun p => (length (pc_Content p) <= chunkMax)%nat) (Chunk [MkSection [] sample_text]) /\
  Forall (fun p => exists s, s ∈ [MkSection (lit "h") short_text] /\ pc_Heading p = sc_Heading s /\ fields (pc_Content p) ⊆ fields (NormalizeText (sc_Text s))) (Chunk [MkSection (lit "h") short_text]).
Proof.
  split_and!; [vm_compute; reflexivity | vm_compute; reflexivity | |].
  - apply (chunks_bounded [MkSection [] sample_text]). constructor; [| constructor]. unfold words_below. apply Forall_forall. intros w Hw.
    assert (Hb : forallb (fun w => (length w <? 899)%nat) (fields (NormalizeText (sc_Text (MkSection [] sample_text)))) = true) by (vm_compute; reflexivity).
    rewrite forallb_forall in Hb. apply Nat.ltb_lt, Hb. by apply list_elem_of_In.
  - apply (chunks_bounded [MkSection (lit "h") short_text]). constructor; [| constructor]. unfold words_below. apply Forall_forall. intros w Hw.
    assert (Hb : forallb (fun w => (length w <? chunkOverlap)%nat) (fields (NormalizeText (sc_Text (MkSection (lit "h") short_text)))) = true) by (vm_compute; reflexivity).
    rewrite forallb_forall in Hb. apply Nat.ltb_lt, Hb. by apply list_elem_of_In.
Defined.
