(* ===== verification/SearchText.v ===== *)
(** What a text is searched by ([internal/knowledge/normalize.go], [stopwords.go], [plain.go]):
    the form that is indexed, and the terms of a customer's message. *)
From S2P Require Import Prelude GoText Runes.
From Stdlib Require Import Ascii.

(** A literal of the source, which is UTF-8. *)
Definition utf8 (s : string) : text := map fst (runes s).
Definition words_of (s : string) : list text := fields (utf8 s).
Definition quote : Z := 34.
Definition hyphen : Z := 45.
Definition or_word : text := lit "or".

Section Search.
(** [norm.NFD.String]; above ASCII, the categories Mn, L and Nd and [unicode.ToLower]. *)
Context (nfd : text -> text) (mark letter digit : Z -> bool) (lower : Z -> Z).

Definition is_mark (r : Z) : bool := (128 <=? r) && mark r.
Definition is_letter (r : Z) : bool := if r <? 128 then ((65 <=? r) && (r <=? 90)) || ((97 <=? r) && (r <=? 122)) else letter r.
Definition is_number (r : Z) : bool := if r <? 128 then (48 <=? r) && (r <=? 57) else digit r.
Definition to_lower (r : Z) : Z := if r <? 128 then if (65 <=? r) && (r <=? 90) then r + 32 else r else lower r.
Definition FoldForSearch (s : text) : text := join_text [blank_rune] (fields (map to_lower (List.filter (fun r => negb (is_mark r)) (nfd s)))).
Definition isWordRune (r : Z) : bool := is_letter r || is_number r || (r =? 95).

(** * Stop words *)
Definition accentedStopwords : list text := [
  utf8 "à"; utf8 "às"; utf8 "até"; utf8 "éramos"; utf8 "está"; utf8 "estão"; utf8 "estávamos"; utf8 "estivéramos"; utf8 "estivéssemos"; utf8 "fôramos";
  utf8 "fôssemos"; utf8 "há"; utf8 "hão"; utf8 "houverá"; utf8 "houvéramos"; utf8 "houverão"; utf8 "houveríamos"; utf8 "houvéssemos"; utf8 "já"; utf8 "não";
  utf8 "nós"; utf8 "são"; utf8 "será"; utf8 "serão"; utf8 "seríamos"; utf8 "só"; utf8 "também"; utf8 "tém"; utf8 "terá"; utf8 "terão"; utf8 "teríamos";
  utf8 "tínhamos"; utf8 "tivéramos"; utf8 "tivéssemos"; utf8 "você"; utf8 "vocês"].
Definition unaccentedStopwords : list text :=
  words_of "a ao aos aquela aquelas aquele aqueles aquilo as com como da das de dela delas dele deles" ++
  words_of "depois do dos e ela elas ele eles em entre era eram essa essas esse esses esta estamos estas estava estavam este esteja estejam" ++
  words_of "estejamos estes esteve estive estivemos estiver estivera estiveram estiverem estivermos estivesse estivessem estou eu foi fomos for" ++
  words_of "fora foram forem formos fosse fossem fui haja hajam hajamos havemos hei houve houvemos houver houvera houveram houverei houverem" ++
  words_of "houveremos houveria houveriam houvermos houvesse houvessem isso isto lhe lhes mais mas me mesmo meu meus minha minhas muito na nas" ++
  words_of "nem no nos nossa nossas nosso nossos num numa o os ou para pela pelas pelo pelos por qual quando que quem se seja sejam sejamos sem" ++
  words_of "serei seremos seria seriam seu seus somos sou sua suas te tem temos tenha tenham tenhamos tenho terei teremos teria teriam teu teus" ++
  words_of "teve tinha tinham tive tivemos tiver tivera tiveram tiverem tivermos tivesse tivessem tu tua tuas um uma vos".
Definition foldedStopwords (w : text) : bool := existsb (text_eqb w) (map FoldForSearch accentedStopwords).
Definition plainStopwords (w : text) : bool := foldedStopwords w || existsb (text_eqb w) (map FoldForSearch unaccentedStopwords).

(** * The indexed form *)
Fixpoint take_while (p : Z -> bool) (t : text) : text := match t with c :: t' => if p c then c :: take_while p t' else [] | [] => [] end.
Fixpoint drop_while (p : Z -> bool) (t : text) : text := match t with c :: t' => if p c then drop_while p t' else t | [] => [] end.
Fixpoint indexRune (rs : text) (r : Z) : option nat :=
  match rs with [] => None | c :: rs' => if c =? r then Some 0%nat else option_map S (indexRune rs' r) end.
Definition in_term (c : Z) : bool := negb (is_space c) && negb (c =? quote).
Definition hasWordRune (t : text) : bool := existsb isWordRune t.
Definition joins_word (t : text) : bool := match t with c :: d :: _ => (c =? hyphen) && isWordRune d | _ => false end.
(** [before]: the runes of the term already passed, the last one first. *)
Fixpoint drop_stopwords (fuel : nat) (before rest : text) : text :=
  match fuel with
  | O => []
  | S fuel' =>
      match rest with
      | [] => []
      | c :: rest' =>
          if negb (isWordRune c) then c :: drop_stopwords fuel' (c :: before) rest'
          else
            let w := take_while isWordRune rest in let after := drop_while isWordRune rest in
            (if joins_word before || joins_word after || negb (foldedStopwords w) then w else []) ++ drop_stopwords fuel' (rev w ++ before) after
      end
  end.
Definition dropStopwords (term : text) : text := drop_stopwords (length term) [] term.
Definition appendTerm (items : list text) (neg : bool) (term : text) : list text :=
  let t := dropStopwords term in
  if negb (hasWordRune t) then items else items ++ [if neg then hyphen :: t else t].
Definition appendPhrase (items : list text) (neg : bool) (content : text) : list text :=
  match List.filter hasWordRune (map dropStopwords (fields content)) with
  | [] => items
  | words => let p := quote :: join_text [blank_rune] words ++ [quote] in items ++ [if neg then hyphen :: p else p]
  end.
Definition is_or (t : text) : bool := text_eqb t or_word.
Definition ends_with_or (out : list text) : bool := match last out with Some t => is_or t | None => false end.
Fixpoint drop_ors (rev_out : list text) : list text := match rev_out with t :: l => if is_or t then drop_ors l else rev_out | [] => [] end.
Definition kept_items (items : list text) : list text :=
  foldl (fun out it => if is_or it && (match out with [] => true | _ => ends_with_or out end) then out else out ++ [it]) [] items.
Definition joinItems (items : list text) : text := join_text [blank_rune] (rev (drop_ors (rev (kept_items items)))).
Fixpoint search_items (fuel : nat) (rest : text) (items : list text) : list text :=
  match fuel with
  | O => items
  | S fuel' =>
      match rest with
      | [] => items
      | c :: rest' =>
          let term neg t := search_items fuel' (drop_while in_term t) (appendTerm items neg (take_while in_term t)) in
          let phrase neg t := match indexRune t quote with
                              | None => search_items fuel' t items
                              | Some e => search_items fuel' (drop (S e) t) (appendPhrase items neg (take e t))
                              end in
          if is_space c then search_items fuel' rest' items
          else if c =? quote then phrase false rest'
          else if c =? hyphen then
            match rest' with
            | d :: rest'' => if d =? quote then phrase true rest'' else if isWordRune d then term true rest' else search_items fuel' rest' items
            | [] => search_items fuel' rest' items
            end
          else term false rest
      end
  end.
(** Every round consumes a rune. *)
Definition SearchForm (s : text) : text := let rs := FoldForSearch s in joinItems (search_items (length rs) rs []).

(** * A customer's terms *)
Definition maxPlainTerms : nat := 12.
Definition maxQueryRunes : nat := 500.
Definition shortQuery : nat := 3.
(** The token at the start of [rs] and what follows it. *)
Fixpoint span_term (first : bool) (rs : text) : text * text :=
  match rs with
  | [] => ([], [])
  | c :: rs' =>
      if isWordRune c || ((c =? hyphen) && negb first && match rs' with d :: _ => isWordRune d | [] => false end)
      then let '(w, r) := span_term false rs' in (c :: w, r)
      else ([], rs)
  end.
Definition skipped (terms : list text) (tok : text) : bool :=
  (length tok <? 2)%nat || is_or tok || (negb (existsb (Z.eqb hyphen) tok) && plainStopwords tok) || existsb (text_eqb tok) terms.
Fixpoint plain_terms (fuel : nat) (rs : text) (terms : list text) : list text :=
  match fuel with
  | O => terms
  | S fuel' =>
      match rs with
      | [] => terms
      | c :: rs' =>
          if (maxPlainTerms <=? length terms)%nat then terms
          else if negb (isWordRune c) then plain_terms fuel' rs' terms
          else let '(tok, r) := span_term true rs in plain_terms fuel' r (if skipped terms tok then terms else terms ++ [tok])
      end
  end.
Definition PlainTerms (s : text) : list text := let rs := FoldForSearch s in plain_terms (length rs) rs [].
Definition ComposeQuery (current previous : text) : text :=
  let t := trim current in
  let t := match trim previous with
           | [] => t
           | prev => if (length (PlainTerms t) <? shortQuery)%nat then trim (t ++ [blank_rune] ++ prev) else t
           end in
  if (maxQueryRunes <? length t)%nat then trim (take maxQueryRunes t) else t.

(** * Terms are words *)
(** A word: word runes, and hyphens between two of them. *)
Fixpoint term_shape (first : bool) (t : text) : bool :=
  match t with
  | [] => negb first
  | c :: t' => (isWordRune c || ((c =? hyphen) && negb first && match t' with d :: _ => isWordRune d | [] => false end)) && term_shape false t'
  end.
Lemma quote_no_word : isWordRune quote = false. Proof. reflexivity. Qed.
Lemma blank_no_word : isWordRune blank_rune = false. Proof. reflexivity. Qed.
Lemma term_shape_chars first t : term_shape first t = true -> (quote ∉ t) /\ (blank_rune ∉ t).
Proof.
  revert first. induction t as [| c t IH]; intros first; [by split; apply not_elem_of_nil |]. simpl. intros [Hc [H1 H2]%IH]%andb_prop.
  split; intros [<- |]%elem_of_cons; done.
Qed.
Lemma span_term_spec first rs : let '(w, r) := span_term first rs in rs = w ++ r /\ (w <> [] \/ first = false -> term_shape first w = true).
Proof.
  revert first. induction rs as [| c rs IH]; intros first; simpl; [split; [done |]; by intros [| ->] |].
  destruct (isWordRune c || _) eqn:E; [| split; [done |]; by intros [| ->]]. specialize (IH false). destruct (span_term false rs) as [w r] eqn:Es. destruct IH as [-> IH].
  split; [done |]. intros _. cbn [term_shape]. rewrite IH by auto. rewrite andb_true_r. destruct (isWordRune c); [done |]. simpl in *.
  apply andb_prop in E as [E1 E2]. rewrite E1. simpl. destruct w as [| d w]; [| by destruct r]. simpl in E2. destruct r as [| d r]; [done |].
  simpl in Es. rewrite E2 in Es. simpl in Es. by destruct (span_term false r).
Qed.
Lemma span_term_word c rs : isWordRune c = true -> exists w r, span_term true (c :: rs) = (c :: w, r) /\ rs = w ++ r.
Proof.
  intros Hc. pose proof (span_term_spec true (c :: rs)) as H. simpl in *. rewrite Hc in *. simpl in *. destruct (span_term false rs) as [w r]. destruct H as [[= ->] _]. eauto.
Qed.

(** The tokens of the folded text, and those a customer's message is searched by. *)
Fixpoint tokens (fuel : nat) (rs : text) : list text :=
  match fuel with
  | O => []
  | S fuel' =>
      match rs with
      | [] => []
      | c :: rs' => if negb (isWordRune c) then tokens fuel' rs' else let '(tok, r) := span_term true rs in tok :: tokens fuel' r
      end
  end.
Definition meaningful (tok : text) : bool :=
  (2 <=? length tok)%nat && negb (is_or tok) && (existsb (Z.eqb hyphen) tok || negb (plainStopwords tok)).
Fixpoint first_occurrences (seen : list text) (l : list text) : list text :=
  match l with
  | [] => []
  | x :: l' => if existsb (text_eqb x) seen then first_occurrences seen l' else x :: first_occurrences (seen ++ [x]) l'
  end.
Definition reference_terms (s : text) : list text :=
  let rs := FoldForSearch s in take maxPlainTerms (first_occurrences [] (List.filter meaningful (tokens (length rs) rs))).
Lemma skipped_meaningful terms tok : skipped terms tok = negb (meaningful tok) || existsb (text_eqb tok) terms.
Proof.
  unfold skipped, meaningful. rewrite !negb_andb, !negb_involutive, negb_orb, negb_involutive, <- !orb_assoc. f_equal. rewrite Nat.leb_antisym. by rewrite negb_involutive.
Qed.
Lemma plain_terms_reference fuel rs terms : (length terms <= maxPlainTerms)%nat ->
  plain_terms fuel rs terms = take maxPlainTerms (terms ++ first_occurrences terms (List.filter meaningful (tokens fuel rs))).
Proof.
  revert rs terms. induction fuel as [| fuel IH]; intros rs terms Hl; cbn [plain_terms tokens]; [by rewrite app_nil_r, take_ge |].
  destruct rs as [| c rs]; [simpl; by rewrite app_nil_r, take_ge |]. destruct (maxPlainTerms <=? length terms)%nat eqn:E.
  - apply Nat.leb_le in E. rewrite take_app_le by lia. by rewrite take_ge by lia.
  - apply Nat.leb_gt in E. destruct (negb (isWordRune c)) eqn:Ec; [by apply IH |]. apply negb_false_iff in Ec.
    destruct (span_term_word c rs Ec) as (w & r & -> & _). rewrite skipped_meaningful. cbn [List.filter]. destruct (meaningful (c :: w)); simpl.
    + destruct (existsb _ terms) eqn:Ex; [by apply IH |]. rewrite IH by (rewrite length_app; simpl; lia). by rewrite <- app_assoc.
    + by apply IH.
Qed.
Lemma first_occurrences_spec seen l : NoDup (first_occurrences seen l) /\ first_occurrences seen l ⊆ l /\ (forall x, x ∈ seen -> x ∉ first_occurrences seen l).
Proof.
  revert seen. induction l as [| a l IH]; intros seen; simpl; [split_and!; [constructor | done | intros; apply not_elem_of_nil] |].
  destruct (existsb (text_eqb a) seen) eqn:E.
  - destruct (IH seen) as (H1 & H2 & H3). split_and!; [done | | done]. intros x Hx. right. by apply H2.
  - destruct (IH (seen ++ [a])) as (H1 & H2 & H3). split_and!.
    + constructor; [| done]. apply H3, elem_of_app. right. by left.
    + intros x [-> | Hx]%elem_of_cons; [by left | right; by apply H2].
    + intros x Hx [-> | Hf]%elem_of_cons; [| by eapply H3; [apply elem_of_app; by left |]]. apply not_true_iff_false in E. apply E, existsb_exists.
      exists a. split; [by apply list_elem_of_In | by apply bool_decide_eq_true].
Qed.
Lemma tokens_shape fuel rs : Forall (fun t => term_shape true t = true) (tokens fuel rs).
Proof.
  revert rs. induction fuel as [| fuel IH]; intros rs; cbn [tokens]; [constructor |]. destruct rs as [| c rs]; [constructor |].
  destruct (isWordRune c) eqn:Ec; cbn [negb]; [| by apply IH]. destruct (span_term_word c rs Ec) as (w & r & E & _).
  pose proof (span_term_spec true (c :: rs)) as H. rewrite E in *. constructor; [| apply IH]. destruct H as [_ H]. apply H. by left.
Qed.

(** A customer's text is terms and never syntax. The terms are the first twelve different
    meaningful tokens of the folded text, in order; each one is a word of at least two
    characters that starts with a letter, digit or underscore, has no quote and no blank,
    hyphens only between word characters, and is not "or": as a websearch query they exclude
    nothing and change nothing, whatever was typed. *)
Theorem plain_terms_are_words s :
  PlainTerms s = reference_terms s /\ (length (PlainTerms s) <= maxPlainTerms)%nat /\ NoDup (PlainTerms s) /\
  Forall (fun t => term_shape true t = true /\ (2 <= length t)%nat /\ t <> or_word /\ (quote ∉ t) /\ (blank_rune ∉ t) /\
                   (existsb (Z.eqb hyphen) t = true \/ plainStopwords t = false)) (PlainTerms s).
Proof.
  assert (E : PlainTerms s = reference_terms s) by (unfold PlainTerms, reference_terms; by rewrite plain_terms_reference by (simpl; lia)). rewrite E. unfold reference_terms.
  set (l := List.filter meaningful _). destruct (first_occurrences_spec [] l) as (H1 & H2 & _). split_and!; [done | rewrite length_take; lia | by eapply sublist_NoDup; [exact H1 | apply sublist_take] |].
  apply Forall_forall. intros t Ht%subseteq_take. apply H2 in Ht. unfold l in Ht. apply list_elem_of_In, filter_In in Ht as [Ht Hm]. apply list_elem_of_In in Ht.
  pose proof (tokens_shape (length (FoldForSearch s)) (FoldForSearch s)) as Hs. rewrite Forall_forall in Hs. specialize (Hs t Ht). unfold meaningful in Hm.
  apply andb_prop in Hm as [[Hl%Nat.leb_le Ho%negb_true_iff]%andb_prop Hstop]. destruct (term_shape_chars _ _ Hs). split_and!; try done.
  - intros ->. revert Ho. unfold is_or, text_eqb. by rewrite bool_decide_eq_true_2.
  - apply orb_prop in Hstop as [| Hns%negb_true_iff]; auto.
Qed.

(** * The indexed form is well formed *)
Lemma has_word_app a b : hasWordRune (a ++ b) = hasWordRune a || hasWordRune b.
Proof. apply existsb_app. Qed.
Lemma appendTerm_words items neg t : Forall (fun it => hasWordRune it = true) items -> Forall (fun it => hasWordRune it = true) (appendTerm items neg t).
Proof.
  intros H. unfold appendTerm. destruct (hasWordRune (dropStopwords t)) eqn:E; [| done]. simpl. apply Forall_app. split; [done |]. apply Forall_singleton.
  by destruct neg.
Qed.
Lemma appendPhrase_words items neg t : Forall (fun it => hasWordRune it = true) items -> Forall (fun it => hasWordRune it = true) (appendPhrase items neg t).
Proof.
  intros H. unfold appendPhrase. destruct (List.filter hasWordRune _) as [| w ws] eqn:E; [done |]. apply Forall_app. split; [done |]. apply Forall_singleton.
  assert (Hw : hasWordRune w = true).
  { assert (Hin : In w (w :: ws)) by (left; done). rewrite <- E in Hin. apply filter_In in Hin. tauto. }
  assert (Hj : hasWordRune (quote :: join_text [blank_rune] (w :: ws) ++ [quote]) = true).
  { change (hasWordRune (join_text [blank_rune] (w :: ws) ++ [quote]) = true). rewrite has_word_app.
    destruct ws as [| v ws]; [change (join_text _ [w]) with w | rewrite join_text_cons, !has_word_app]; by rewrite Hw. }
  by destruct neg.
Qed.
Lemma search_items_words fuel rest items : Forall (fun it => hasWordRune it = true) items -> Forall (fun it => hasWordRune it = true) (search_items fuel rest items).
Proof.
  revert rest items. induction fuel as [| fuel IH]; intros rest items H; cbn [search_items]; [done |]. destruct rest as [| c rest]; [done |].
  repeat case_match; try done; apply IH; try done; (apply appendTerm_words || apply appendPhrase_words); done.
Qed.
(** An "or" stands between two items. *)
Fixpoint ors_between (after_item : bool) (items : list text) : bool :=
  match items with
  | [] => true
  | it :: items' => if is_or it then after_item && ors_between false items' else ors_between true items'
  end.
Lemma ors_between_snoc b l it : ors_between b (l ++ [it]) =
  ors_between b l && (negb (is_or it) || match last l with Some x => negb (is_or x) | None => b end).
Proof.
  revert b. induction l as [| x l IH]; intros b; [cbn [app ors_between last]; by destruct (is_or it), b |]. cbn [app ors_between]. rewrite !IH.
  destruct l as [| y l]; [cbn [ors_between last]; by destruct (is_or x), (is_or it), b |]. rewrite last_cons_cons. destruct (last (y :: l)) eqn:El; [| by apply last_None in El].
  by destruct (is_or x); rewrite ?andb_assoc.
Qed.
Lemma kept_items_between items : ors_between false (kept_items items) = true.
Proof.
  unfold kept_items. assert (H : forall out, ors_between false out = true -> ors_between false (foldl (fun out it => if is_or it && (match out with [] => true | _ => ends_with_or out end) then out else out ++ [it]) out items) = true); [| by apply H].
  induction items as [| it items IH]; intros out H; simpl; [done |]. apply IH. destruct (is_or it) eqn:Eo; simpl.
  - destruct out as [| x out]; [done |]. destruct (ends_with_or (x :: out)) eqn:Ee; [done |]. rewrite ors_between_snoc, H, Eo. simpl negb. unfold ends_with_or in Ee.
    destruct (last (x :: out)) eqn:El; [by rewrite Ee |]. by apply last_None in El.
  - rewrite ors_between_snoc, H, Eo. done.
Qed.
Lemma kept_items_sub items : kept_items items ⊆ items.
Proof.
  unfold kept_items. assert (H : forall out, out ⊆ items -> forall l, l ⊆ items -> foldl (fun out it => if is_or it && (match out with [] => true | _ => ends_with_or out end) then out else out ++ [it]) out l ⊆ items).
  { intros out Ho l. revert out Ho. induction l as [| it l IH]; intros out Ho Hl; simpl; [done |]. apply IH; [| set_solver]. destruct (_ && _); [done | set_solver]. }
  apply H; [set_solver | done].
Qed.
Lemma drop_ors_suffix l : exists k, l = k ++ drop_ors l /\ match drop_ors l with it :: _ => is_or it = false | [] => True end.
Proof.
  induction l as [| it l (k & E & H)]; [by exists [] |]. simpl. destruct (is_or it) eqn:Eo; [| by exists []]. exists (it :: k). simpl. by rewrite <- E.
Qed.
Lemma ors_between_app_l b l k : ors_between b (l ++ k) = true -> ors_between b l = true.
Proof. induction k as [| x k IH] using rev_ind; [by rewrite app_nil_r |]. rewrite app_assoc, ors_between_snoc. intros [H _]%andb_prop. by apply IH. Qed.

(** What is indexed and searched is a well-formed query. Whatever the text and the
    tables, it is items joined by blanks, each with a letter, digit or underscore left in it,
    and every "or" among them stands between two items. *)
Theorem search_form_well_formed s :
  exists items, SearchForm s = join_text [blank_rune] items /\ Forall (fun it => hasWordRune it = true) items /\
    ors_between false items = true /\ match last items with Some it => is_or it = false | None => True end.
Proof.
  set (all := search_items (length (FoldForSearch s)) (FoldForSearch s) []). exists (rev (drop_ors (rev (kept_items all)))). split; [done |].
  destruct (drop_ors_suffix (rev (kept_items all))) as (k & E & Hl). set (d := drop_ors (rev (kept_items all))) in *.
  assert (Ek : kept_items all = rev d ++ rev k) by (rewrite <- (rev_involutive (kept_items all)), E; apply rev_app_distr). split_and!.
  - assert (H : Forall (fun it => hasWordRune it = true) all) by by apply search_items_words. apply Forall_forall. intros it Hit. rewrite Forall_forall in H.
    apply H, kept_items_sub. rewrite Ek. apply elem_of_app. by left.
  - eapply ors_between_app_l. rewrite <- Ek. apply kept_items_between.
  - destruct d as [| x d]; [done |]. simpl. by rewrite last_snoc.
Qed.
End Search.
