(* ===== verification/Markdown.v ===== *)
(** Markdown as sections, one per heading ([internal/knowledge/chunk.go], [ParseMarkdown]). The
    three regular expressions are written out as the searches they are: [\s] is ASCII, each
    choice is made by the next character. *)
From S2P Require Import Prelude GoText Runes Chunking SearchText.
From Stdlib Require Import Ascii.

Definition hash : Z := 35.
Definition ascii_space (r : Z) : bool := (r =? 9) || (r =? 10) || (r =? 12) || (r =? 13) || (r =? 32).
(** [\s*#*\s*$]. *)
Definition closing (t : text) : bool := match drop_while ascii_space (drop_while (Z.eqb hash) (drop_while ascii_space t)) with [] => true | _ => false end.
Fixpoint before_closing (t : text) : text := if closing t then [] else match t with c :: t' => c :: before_closing t' | [] => [] end.
(** [^(#{1,6})\s+(.*?)\s*#*\s*$]: the level and the title. *)
Definition mdHeading (line : text) : option (nat * text) :=
  let level := length (take_while (Z.eqb hash) line) in
  let rest := drop_while (Z.eqb hash) line in
  if (1 <=? level)%nat && (level <=? 6)%nat && match rest with c :: _ => ascii_space c | [] => false end
  then Some (level, before_closing (drop_while ascii_space rest)) else None.
(** What precedes the first [r], and what follows it. *)
Fixpoint until (r : Z) (t : text) : option (text * text) :=
  match t with
  | [] => None
  | c :: t' => if c =? r then Some ([], t') else option_map (fun x => (c :: fst x, snd x)) (until r t')
  end.
(** A bracketed text and a parenthesized target, at the start: the text, and what follows. *)
Definition link_here (t : text) : option (text * text) :=
  match t with
  | 91 :: t' =>
      match until 93 t' with
      | Some (inner, 40 :: rest) => match until 41 rest with Some (_, rest) => Some (inner, rest) | None => None end
      | _ => None
      end
  | _ => None
  end.
Definition mdLink (t : text) : option (text * text) := match t with 33 :: t' => link_here t' | _ => link_here t end.
Fixpoint replace_links (fuel : nat) (t : text) : text :=
  match fuel with
  | O => t
  | S fuel' =>
      match t with
      | [] => []
      | c :: t' => match mdLink t with Some (inner, rest) => inner ++ replace_links fuel' rest | None => c :: replace_links fuel' t' end
      end
  end.
Fixpoint drop_emphasis (t : text) : text :=
  match t with
  | [] => []
  | c :: t' => if (c =? 42) || (c =? 96) then drop_emphasis t'
               else match t' with
                    | d :: t'' => if (c =? 95) && (d =? 95) then drop_emphasis t'' else c :: drop_emphasis t'
                    | [] => [c]
                    end
  end.
Definition cleanInline (s : text) : text := trim (drop_emphasis (replace_links (length s) s)).
Definition joinTrail (trail : list text) (fallback : text) : text :=
  match List.filter nonempty trail with [] => fallback | parts => join_text (lit " > ") parts end.

Record Parser := MkParser { mp_Sections : list Section_; mp_Trail : list text; mp_Buf : list text; mp_Cur : text; mp_Fence : bool }.
Definition flush_section (p : Parser) : Parser :=
  let t := trim (join_text [newline] (mp_Buf p)) in
  MkParser (if nonempty t then mp_Sections p ++ [MkSection (mp_Cur p) t] else mp_Sections p) (mp_Trail p) [] (mp_Cur p) (mp_Fence p).
Definition starts_fence (line : text) : bool := text_eqb (take 3 (trim line)) [96; 96; 96].
Definition deeper (trail : list text) (level : nat) (title : text) : list text :=
  let trail := take (level - 1) trail in trail ++ repeat [] (level - 1 - length trail) ++ [title].
Definition parse_line (fallback : text) (p : Parser) (line : text) : Parser :=
  if starts_fence line then MkParser (mp_Sections p) (mp_Trail p) (mp_Buf p) (mp_Cur p) (negb (mp_Fence p))
  else match (if mp_Fence p then None else mdHeading line) with
       | Some (level, title) =>
           let p := flush_section p in
           let trail := deeper (mp_Trail p) level (cleanInline title) in
           MkParser (mp_Sections p) trail (mp_Buf p) (joinTrail trail fallback) (mp_Fence p)
       | None => MkParser (mp_Sections p) (mp_Trail p) (mp_Buf p ++ [cleanInline line]) (mp_Cur p) (mp_Fence p)
       end.
Definition ParseMarkdown (src fallback : text) : list Section_ :=
  mp_Sections (flush_section (foldl (parse_line fallback) (MkParser [] [] [] fallback false) (split_rune newline (NormalizeText src)))).

Example parse_sample :
  ParseMarkdown (utf8 "intro
# A [b](c) ##
text **bold**
### Deep
```
# not a heading
```
## Two
__x__ ![i](u)") (lit "Title") =
  [MkSection (lit "Title") (lit "intro"); MkSection (lit "A b") (lit "text bold"); MkSection (lit "A b > Deep") (lit "# not a heading"); MkSection (lit "A b > Two") (lit "x i")].
Proof. vm_compute. reflexivity. Qed.

(** * No line of the body is lost *)
(** The lines that end up in a section, from a state of the fence. *)
Fixpoint body_lines (fence : bool) (lines : list text) : list text :=
  match lines with
  | [] => []
  | l :: lines' =>
      if starts_fence l then body_lines (negb fence) lines'
      else match (if fence then None else mdHeading l) with Some _ => body_lines fence lines' | None => cleanInline l :: body_lines fence lines' end
  end.
Definition section_words (l : list Section_) : list text := l ≫= fun s => fields (sc_Text s).
Lemma flush_words p : section_words (mp_Sections (flush_section p)) = section_words (mp_Sections p) ++ (mp_Buf p ≫= fields).
Proof.
  unfold flush_section. simpl. rewrite <- (fields_join newline) by done. destruct (nonempty _) eqn:E.
  - unfold section_words. rewrite bind_app. simpl. by rewrite app_nil_r, fields_trim.
  - rewrite <- fields_trim. destruct (trim _); [by rewrite app_nil_r | done].
Qed.
Lemma parse_lines_words fallback p lines :
  section_words (mp_Sections (flush_section (foldl (parse_line fallback) p lines))) =
  section_words (mp_Sections p) ++ (mp_Buf p ≫= fields) ++ (body_lines (mp_Fence p) lines ≫= fields).
Proof.
  revert p. induction lines as [| l lines IH]; intros p; cbn [foldl body_lines]; [by rewrite flush_words, app_nil_r |]. rewrite IH. unfold parse_line.
  destruct (starts_fence l); [done |]. destruct (if mp_Fence p then None else mdHeading l) as [[level title] |].
  - cbn [mp_Sections mp_Buf mp_Fence]. rewrite flush_words. by rewrite <- app_assoc.
  - cbn [mp_Sections mp_Buf mp_Fence]. rewrite bind_app. cbn [mbind list_bind]. by rewrite app_nil_r, <- !app_assoc.
Qed.
Lemma markdown_keeps_body src fallback :
  section_words (ParseMarkdown src fallback) = body_lines false (split_rune newline (NormalizeText src)) ≫= fields.
Proof. unfold ParseMarkdown. by rewrite parse_lines_words. Qed.
