(* ===== verification/Knowledge.v ===== *)
(** The knowledge base: documents, their chunks, and what changes them
    ([internal/models/knowledge.go], [internal/knowledge/store.go], [manuals.go],
    [internal/handlers/knowledge.go]). *)
From S2P Require Import Prelude Effects Sql GoText Accounts AccountsApi Permissions Runes Chunking SearchText Markdown.
From Stdlib Require Import Ascii.

(** * Tables *)
Definition KnowledgeSourceMarkdown : string := "markdown".
Definition KnowledgeSourceManualHTML : string := "manual_html".
Definition KnowledgeStatusActive : string := "active".
Definition KnowledgeStatusArchived : string := "archived".
Definition KnowledgeArchivedByUser : string := "user".
Definition KnowledgeArchivedByImport : string := "import".
Record KnowledgeDocument := MkDoc {
  kd_ID : uuid; kd_OrganizationID : uuid; kd_UnitID : option uuid; kd_DepartmentID : option uuid; kd_Visibility : string; kd_SourceType : string;
  kd_Title : text; kd_Origin : text; kd_Body : text; kd_ContentHash : text; kd_Status : string; kd_ArchivedBy : string;
  kd_CreatedByID : option uuid; kd_UpdatedByID : option uuid; kd_UpdatedAt : instant; kd_Deleted : bool }.
Record KnowledgeChunk := MkChunk {
  kc_ID : uuid; kc_DocumentID : uuid; kc_OrganizationID : uuid; kc_UnitID : option uuid; kc_DepartmentID : option uuid; kc_Visibility : string;
  kc_Status : string; kc_ChunkIndex : nat; kc_Heading : text; kc_Content : text; kc_SearchHeading : text; kc_SearchText : text; kc_IndexVersion : Z }.
(** [kb_units], [kb_departments]: the tables the scopes are looked up in. *)
Record KBase := MkBase { kb_docs : list KnowledgeDocument; kb_chunks : list KnowledgeChunk; kb_units : list OrgUnit; kb_departments : list OrgUnit }.
Definition set_docs f (b : KBase) : KBase := MkBase (f (kb_docs b)) (kb_chunks b) (kb_units b) (kb_departments b).
Definition set_chunks f (b : KBase) : KBase := MkBase (kb_docs b) (f (kb_chunks b)) (kb_units b) (kb_departments b).

(** An error of the database, or one with its status ([apiError]). *)
Inductive KError := KDbError (e : AccErr) | ApiError (status : Z) (msg : string).
#[global] Instance KError_db : DbErr KError := KDbError ErrDb.
Abbreviation KRes := (result KError).
Abbreviation KDb := (Db KBase).
Definition NotFound {A} : KRes A := Err (KDbError ErrNotFound).
Definition badRequest {A} (msg : string) : KRes A := Err (ApiError 400 msg).
Definition conflict {A} (msg : string) : KRes A := Err (ApiError 409 msg).
Definition isUniqueViolation {A} (r : KRes A) : bool := match r with Err (KDbError ErrUnique) => true | _ => false end.

(** ** Statements *)
Definition is_doc (id : uuid) (d : KnowledgeDocument) : bool := N.eqb (kd_ID d) id.
Definition live (d : KnowledgeDocument) : bool := negb (kd_Deleted d).
Definition first_doc (p : KnowledgeDocument -> bool) (b : KBase) : KRes KnowledgeDocument :=
  match sql_min (fun x y => (kd_ID x <=? kd_ID y)%N) (List.filter (fun d => p d && live d) (kb_docs b)) with Some d => Ok d | None => NotFound end.
(** [idx_knowledge_docs_org_origin]: partial, on live rows with an origin. *)
Definition same_origin (d q : KnowledgeDocument) : bool :=
  nonempty (kd_Origin d) && live q && N.eqb (kd_OrganizationID q) (kd_OrganizationID d) && text_eqb (kd_Origin q) (kd_Origin d).
Definition touched (now : instant) (d : KnowledgeDocument) : KnowledgeDocument :=
  MkDoc (kd_ID d) (kd_OrganizationID d) (kd_UnitID d) (kd_DepartmentID d) (kd_Visibility d) (kd_SourceType d) (kd_Title d) (kd_Origin d) (kd_Body d)
        (kd_ContentHash d) (kd_Status d) (kd_ArchivedBy d) (kd_CreatedByID d) (kd_UpdatedByID d) now (kd_Deleted d).
Definition with_id (id : uuid) (d : KnowledgeDocument) : KnowledgeDocument :=
  MkDoc id (kd_OrganizationID d) (kd_UnitID d) (kd_DepartmentID d) (kd_Visibility d) (kd_SourceType d) (kd_Title d) (kd_Origin d) (kd_Body d)
        (kd_ContentHash d) (kd_Status d) (kd_ArchivedBy d) (kd_CreatedByID d) (kd_UpdatedByID d) (kd_UpdatedAt d) (kd_Deleted d).
(** gorm's [Save]: without an id the row is new, and [fresh] is its id (never the nil one);
    with one every column of that row is written. *)
Definition is_new (d : KnowledgeDocument) : bool := N.eqb (kd_ID d) nil_uuid.
Definition stored (fresh : positive) (now : instant) (d : KnowledgeDocument) : KnowledgeDocument :=
  touched now (if is_new d then with_id (N.pos fresh) d else d).
Definition save_doc (fresh : positive) (now : instant) (d : KnowledgeDocument) (b : KBase) : KRes KnowledgeDocument * KBase :=
  let d' := stored fresh now d in
  if existsb (fun q => if is_doc (kd_ID d') q then is_new d else same_origin d' q) (kb_docs b) then (Err (KDbError ErrUnique), b)
  else (Ok d', set_docs (fun l => if existsb (is_doc (kd_ID d')) l then sql_update (is_doc (kd_ID d')) (fun _ => d') l else l ++ [d']) b).
Definition doc_deleted (d : KnowledgeDocument) : KnowledgeDocument :=
  MkDoc (kd_ID d) (kd_OrganizationID d) (kd_UnitID d) (kd_DepartmentID d) (kd_Visibility d) (kd_SourceType d) (kd_Title d) (kd_Origin d) (kd_Body d)
        (kd_ContentHash d) (kd_Status d) (kd_ArchivedBy d) (kd_CreatedByID d) (kd_UpdatedByID d) (kd_UpdatedAt d) true.
Definition delete_doc (id : uuid) (b : KBase) : KRes unit * KBase := (Ok tt, set_docs (sql_update (fun d => is_doc id d && live d) doc_deleted) b).
Definition of_doc (id : uuid) (c : KnowledgeChunk) : bool := N.eqb (kc_DocumentID c) id.
Definition delete_chunks (id : uuid) (b : KBase) : KRes unit * KBase := (Ok tt, set_chunks (List.filter (fun c => negb (of_doc id c))) b).
Definition same_chunk (c q : KnowledgeChunk) : bool :=
  N.eqb (kc_ID q) (kc_ID c) || (of_doc (kc_DocumentID c) q && (kc_ChunkIndex q =? kc_ChunkIndex c)%nat).
Fixpoint distinct_chunks (l : list KnowledgeChunk) : bool := match l with [] => true | c :: l' => negb (existsb (same_chunk c) l') && distinct_chunks l' end.
Definition insert_chunks (rows : list KnowledgeChunk) (b : KBase) : KRes unit * KBase :=
  if distinct_chunks (kb_chunks b ++ rows) then (Ok tt, set_chunks (fun l => l ++ rows) b) else (Err (KDbError ErrUnique), b).
Definition scoped_chunk (d : KnowledgeDocument) (c : KnowledgeChunk) : KnowledgeChunk :=
  MkChunk (kc_ID c) (kc_DocumentID c) (kc_OrganizationID c) (kd_UnitID d) (kd_DepartmentID d) (kd_Visibility d) (kd_Status d)
          (kc_ChunkIndex c) (kc_Heading c) (kc_Content c) (kc_SearchHeading c) (kc_SearchText c) (kc_IndexVersion c).
Definition scope_chunks (d : KnowledgeDocument) (b : KBase) : KRes unit * KBase := (Ok tt, set_chunks (sql_update (of_doc (kd_ID d)) (scoped_chunk d)) b).
Definition count_chunks (p : KnowledgeChunk -> bool) (b : KBase) : KRes Z := Ok (sql_count p (kb_chunks b)).

(** [CreateInBatches(rows, 100)]. *)
Fixpoint batches (fuel n : nat) {A} (l : list A) : list (list A) :=
  match fuel with O => [] | S fuel' => match l with [] => [] | _ => take n l :: batches fuel' n (drop n l) end end.
Fixpoint insert_batches (l : list (list KnowledgeChunk)) : KDb (KRes unit) :=
  match l with [] => mret (Ok tt) | rows :: l' => _ ←? exec (insert_chunks rows); insert_batches l' end.

(** * One document *)
Definition VisibilityFor (unit dept : option uuid) : string :=
  match dept, unit with Some _, _ => "department" | None, Some _ => "unit" | None, None => "organization" end.
Definition SectionsFor (sourceType : string) (title body : text) : list Section_ :=
  if String.eqb sourceType KnowledgeSourceMarkdown then ParseMarkdown body title else [MkSection title body].
Definition with_archive (status by_ : string) (d : KnowledgeDocument) : KnowledgeDocument :=
  MkDoc (kd_ID d) (kd_OrganizationID d) (kd_UnitID d) (kd_DepartmentID d) (kd_Visibility d) (kd_SourceType d) (kd_Title d) (kd_Origin d) (kd_Body d)
        (kd_ContentHash d) status by_ (kd_CreatedByID d) (kd_UpdatedByID d) (kd_UpdatedAt d) (kd_Deleted d).
Definition SetArchivedState (d : KnowledgeDocument) (status by_ : string) : KnowledgeDocument :=
  let archived := String.eqb (kd_Status d) KnowledgeStatusArchived in
  let owner := if String.eqb status KnowledgeStatusArchived && negb archived then by_
               else if String.eqb status KnowledgeStatusActive && archived then "" else kd_ArchivedBy d in
  with_archive (if String.eqb status "" then kd_Status d else status) owner d.
Definition IndexVersion : Z := 2.

Section Store.
(** The Unicode tables of [SearchText], and [Hash], a SHA-256. *)
Context (nfd : text -> text) (mark letter digit : Z -> bool) (lower : Z -> Z) (Hash : text -> text -> text).
Abbreviation SearchForm := (SearchForm nfd mark letter digit lower).

Definition chunk_row (d : KnowledgeDocument) (id : uuid) (p : Piece) : KnowledgeChunk :=
  MkChunk id (kd_ID d) (kd_OrganizationID d) (kd_UnitID d) (kd_DepartmentID d) (kd_Visibility d) (kd_Status d) (pc_Index p) (pc_Heading p) (pc_Content p)
          (SearchForm (pc_Heading p)) (SearchForm (pc_Content p)) IndexVersion.
(** [ids]: what [gen_random_uuid] gives the rows. *)
Definition rebuildChunks (ids : nat -> uuid) (d : KnowledgeDocument) (sections : list Section_) : KDb (KRes unit) :=
  _ ←? exec (delete_chunks (kd_ID d));
  match Chunk sections with
  | [] => mret (Ok tt)
  | pieces => let rows := map (fun p => chunk_row d (ids (pc_Index p)) p) pieces in insert_batches (batches (length rows) 100 rows)
  end.
Definition prepared_doc (d : KnowledgeDocument) : KnowledgeDocument :=
  let body := NormalizeText (kd_Body d) in
  MkDoc (kd_ID d) (kd_OrganizationID d) (kd_UnitID d) (kd_DepartmentID d) (VisibilityFor (kd_UnitID d) (kd_DepartmentID d)) (kd_SourceType d) (kd_Title d) (kd_Origin d) body
        (Hash (kd_Title d) body) (if String.eqb (kd_Status d) "" then KnowledgeStatusActive else kd_Status d) (kd_ArchivedBy d) (kd_CreatedByID d) (kd_UpdatedByID d) (kd_UpdatedAt d) (kd_Deleted d).
(** [Save] inside a transaction: the savepoint is rolled back with it. *)
Definition Save (fresh : positive) (ids : nat -> uuid) (now : instant) (d : KnowledgeDocument) (sections : list Section_) : KDb (KRes KnowledgeDocument) :=
  transaction (d' ←? exec (save_doc fresh now (prepared_doc d)); _ ←? rebuildChunks ids d' sections; mret (Ok d')).
Definition scoped_doc (d : KnowledgeDocument) : KnowledgeDocument :=
  MkDoc (kd_ID d) (kd_OrganizationID d) (kd_UnitID d) (kd_DepartmentID d) (VisibilityFor (kd_UnitID d) (kd_DepartmentID d)) (kd_SourceType d) (kd_Title d) (kd_Origin d) (kd_Body d)
        (kd_ContentHash d) (kd_Status d) (kd_ArchivedBy d) (kd_CreatedByID d) (kd_UpdatedByID d) (kd_UpdatedAt d) (kd_Deleted d).
Definition ApplyScope (fresh : positive) (now : instant) (d : KnowledgeDocument) : KDb (KRes KnowledgeDocument) :=
  d' ←? exec (save_doc fresh now (scoped_doc d)); _ ←? exec (scope_chunks d'); mret (Ok d').
(** [SELECT ... FOR UPDATE]. *)
Definition Lock (org id : uuid) : KDb (KRes KnowledgeDocument) := query (first_doc (fun d => is_doc id d && N.eqb (kd_OrganizationID d) org)).
Definition Reindex (ids : nat -> uuid) (d : KnowledgeDocument) : KDb (KRes Z) :=
  _ ←? rebuildChunks ids d (SectionsFor (kd_SourceType d) (kd_Title d) (kd_Body d)); query (count_chunks (of_doc (kd_ID d))).
Definition Remove (d : KnowledgeDocument) : KDb (KRes unit) := transaction (_ ←? exec (delete_chunks (kd_ID d)); exec (delete_doc (kd_ID d))).
End Store.
