(* ===== verification/KnowledgeApi.v ===== *)
(** The requests on knowledge documents ([internal/handlers/knowledge.go]) and the import of the
    manuals ([internal/knowledge/manuals.go], [store.go]), as programs over transactions. *)
From S2P Require Import Prelude Effects Sql GoText Accounts AccountsApi Permissions Runes Chunking SearchText Markdown Knowledge.
From Stdlib Require Import Ascii.

(** * State and operations *)
Record KState := MkKState { kn_acc : State; kn_base : KBase }.
(** A request on accounts (who asks); a statement or a transaction on the knowledge base; the
    ids of new rows, never the nil one; the clock; the audit log;
    the unit and department of a contact, the last six messages of a customer in a session, the
    latest first, and the organization's switch, from tables of other components. *)
Inductive kn_op : Type -> Type :=
  | KAsk {X} (op : acc_op X) : kn_op X
  | KDo {X} (m : KDb (KRes X)) : kn_op (KRes X)
  | KID : kn_op positive
  | KIDs : kn_op (nat -> uuid)
  | KNow : kn_op instant
  | KAudit (org user id : uuid) (action : string) : kn_op unit
  | KContact (id org : uuid) : kn_op (KRes (option uuid * option uuid))
  | KMessages (session : uuid) : kn_op (KRes (list text))
  | KEnabled (org : uuid) : kn_op bool.
Abbreviation KProg := (prog kn_op).
Definition kn_sem X (op : kn_op X) : KState -> X -> KState -> Prop :=
  match op in kn_op X return KState -> X -> KState -> Prop with
  | KAsk op => fun s x s' => exists a, acc_sem _ op (kn_acc s) x a /\ s' = MkKState a (kn_base s)
  | KDo m => fun s x s' => exists b, db_sem m (kn_base s) x b /\ s' = MkKState (kn_acc s) b
  | KID => fun s _ s' => s' = s
  | KIDs => fun s _ s' => s' = s
  | KNow => fun s _ s' => s' = s
  | KAudit _ _ _ _ => fun s _ s' => s' = s
  | KContact _ _ => fun s _ s' => s' = s
  | KMessages _ => fun s _ s' => s' = s
  | KEnabled _ => fun s _ s' => s' = s
  end.
Definition ask {A} (p : Prog A) : KProg A := prog_lift (fun X => @KAsk X) p.

Inductive kreply :=
  | KRefused (code : Z) (msg : string)
  | KDocument (d : KnowledgeDocument)
  | KDeleted
  | KReindexed (chunks : Z)
  | KReindexedAll (documents chunks skipped stale : Z).
Definition refusal (r : reply) : kreply := match r with Reply code msg => KRefused code msg | _ => KRefused 500 "" end.
Definition sendKnowledgeError (e : KError) (what : string) : kreply :=
  match e with
  | ApiError status msg => KRefused status msg
  | KDbError ErrNotFound => KRefused 404 "Document not found"
  | KDbError ErrUnique => KRefused 409 "The document was changed concurrently, retry"
  | KDbError _ => KRefused 500 ("Failed to " +:+ what)
  end.

(** * What a request says *)
(** [ScopeID]: whether the key was present, and its id. *)
Record ScopeID := MkScopeID { sid_Set : bool; sid_ID : option uuid }.
Record KnowledgeDocumentRequest := MkDocRequest {
  dr_Title : text; dr_Body : text; dr_SourceType : string; dr_UnitID : ScopeID; dr_DepartmentID : ScopeID; dr_Status : string;
  dr_ExpectedUpdatedAt : option instant }.
Definition apiKnowledgeSources : list string := ["faq"; "article"; "process"; "text"; "markdown"].
Definition maxKnowledgeBody : nat := 1000 * 200.
Definition is_set {A} (o : option A) : bool := match o with Some _ => true | None => false end.
Definition count_in (l : list OrgUnit) (id org : uuid) : KRes Z := Ok (sql_count (fun u => N.eqb (un_ID u) id && N.eqb (un_OrganizationID u) org && negb (un_Deleted u)) l).
(** A count that fails leaves [n] as it was. *)
Definition scopeTargetsExist (org : uuid) (unit dept : option uuid) : KDb bool :=
  n ← match unit with
      | None => mret None
      | Some u => r ← query (fun b => count_in (kb_units b) u org); mret (Some match r with Ok n => n | Err _ => 0 end)
      end;
  if match n with Some n => n =? 0 | None => false end then mret false
  else match dept with
       | None => mret true
       | Some d => r ← query (fun b => count_in (kb_departments b) d org); mret (negb (match r with Ok n => n | Err _ => default 0 n end =? 0))
       end.
Definition known_status (s : string) : bool := String.eqb s "" || String.eqb s KnowledgeStatusActive || String.eqb s KnowledgeStatusArchived.
Definition scope_missing : string := "unit_id and department_id must be present on update (a UUID or null); PUT replaces the whole scope".
(** The message of a bad request, or the request with its title trimmed. *)
Definition validateKnowledgeRequest (org : uuid) (req : KnowledgeDocumentRequest) (isCreate : bool) : KDb (string + KnowledgeDocumentRequest) :=
  let title := trim (dr_Title req) in
  let req' := MkDocRequest title (dr_Body req) (dr_SourceType req) (dr_UnitID req) (dr_DepartmentID req) (dr_Status req) (dr_ExpectedUpdatedAt req) in
  if negb isCreate && (negb (sid_Set (dr_UnitID req)) || negb (sid_Set (dr_DepartmentID req))) then mret (inl scope_missing)
  else if negb (nonempty title) then mret (inl "title is required")
  else if (500 <? length title)%nat then mret (inl "title is too long")
  else if negb (nonempty (trim (dr_Body req))) then mret (inl "body is required")
  else if (maxKnowledgeBody <? length (dr_Body req))%nat then mret (inl "body is too long")
  else if (isCreate || negb (String.eqb (dr_SourceType req) "")) && negb (existsb (String.eqb (dr_SourceType req)) apiKnowledgeSources) then mret (inl "invalid source_type")
  else if negb (known_status (dr_Status req)) then mret (inl "invalid status")
  else ok ← scopeTargetsExist org (sid_ID (dr_UnitID req)) (sid_ID (dr_DepartmentID req)); mret (if (ok : bool) then inr req' else inl "unknown unit or department").
Definition manual_conflict : string :=
  "manual_html content is managed by the importer: change the HTML and import again; only scope and status can be edited here".
Definition validateManualUpdate (org : uuid) (req : KnowledgeDocumentRequest) (d : KnowledgeDocument) : KDb (KRes unit) :=
  if negb (sid_Set (dr_UnitID req)) || negb (sid_Set (dr_DepartmentID req)) then mret (badRequest scope_missing)
  else if negb (known_status (dr_Status req)) then mret (badRequest "invalid status")
  else
    ok ← scopeTargetsExist org (sid_ID (dr_UnitID req)) (sid_ID (dr_DepartmentID req));
    if negb (ok : bool) then mret (badRequest "unknown unit or department")
    else if (nonempty (dr_Title req) && negb (text_eqb (trim (dr_Title req)) (kd_Title d)))
            || (nonempty (dr_Body req) && negb (text_eqb (NormalizeText (dr_Body req)) (kd_Body d)))
            || (negb (String.eqb (dr_SourceType req) "") && negb (String.eqb (dr_SourceType req) (kd_SourceType d)))
         then mret (conflict manual_conflict) else mret (Ok tt).

Section Api.
Context (nfd : text -> text) (mark letter digit : Z -> bool) (lower : Z -> Z) (Hash : text -> text -> text).
Abbreviation Save := (Save nfd mark letter digit lower Hash).
Abbreviation Reindex := (Reindex nfd mark letter digit lower).

(** * Requests *)
Definition with_request (d : KnowledgeDocument) (req : KnowledgeDocumentRequest) (user : uuid) : KnowledgeDocument :=
  MkDoc (kd_ID d) (kd_OrganizationID d) (sid_ID (dr_UnitID req)) (sid_ID (dr_DepartmentID req)) (kd_Visibility d) (kd_SourceType d) (kd_Title d) (kd_Origin d) (kd_Body d)
        (kd_ContentHash d) (kd_Status d) (kd_ArchivedBy d) (kd_CreatedByID d) (Some user) (kd_UpdatedAt d) (kd_Deleted d).
Definition with_content (d : KnowledgeDocument) (title body : text) (source : string) : KnowledgeDocument :=
  MkDoc (kd_ID d) (kd_OrganizationID d) (kd_UnitID d) (kd_DepartmentID d) (kd_Visibility d) source title (kd_Origin d) body
        (kd_ContentHash d) (kd_Status d) (kd_ArchivedBy d) (kd_CreatedByID d) (kd_UpdatedByID d) (kd_UpdatedAt d) (kd_Deleted d).
Definition new_doc (org : uuid) (unit dept : option uuid) (source : string) (title origin body : text) (user : option uuid) : KnowledgeDocument :=
  MkDoc nil_uuid org unit dept "" source title origin body [] "" "" user user 0 false.
Definition CreateKnowledgeDocument (c : Ctx) (body : option KnowledgeDocumentRequest) : KProg kreply :=
  who ← ask (requireAuth c ResourceKnowledge ActionWrite);
  match who with
  | inr e => mret (refusal e)
  | inl (org, user) =>
      match body with
      | None => mret (refusal InvalidBody)
      | Some req =>
          v ← call (KDo (v ← validateKnowledgeRequest org req true; mret (Ok v)));
          match v with
          | Ok (inl msg) => mret (KRefused 400 msg)
          | Ok (inr req) =>
              id ← call KID; ids ← call KIDs; now ← call KNow;
              let d := SetArchivedState (new_doc org (sid_ID (dr_UnitID req)) (sid_ID (dr_DepartmentID req)) (dr_SourceType req) (dr_Title req) [] (dr_Body req) (Some user))
                                        (dr_Status req) KnowledgeArchivedByUser in
              r ← call (KDo (Save id ids now d (SectionsFor (dr_SourceType req) (dr_Title req) (dr_Body req))));
              match r with
              | Err _ => mret (KRefused 500 "Failed to create document")
              | Ok d => _ ← call (KAudit org user (kd_ID d) "created"); mret (KDocument d)
              end
          | Err _ => mret (KRefused 500 "")
          end
      end
  end.
Definition micros (t : instant) : Z := t - t mod 1000.
Definition update_tx (org user id : uuid) (req : KnowledgeDocumentRequest) (fresh : positive) (ids : nat -> uuid) (now : instant) : KDb (KRes KnowledgeDocument) :=
  transaction (
    d ←? Lock org id;
    if match dr_ExpectedUpdatedAt req with Some t => negb (micros t =? micros (kd_UpdatedAt d)) | None => false end
    then mret (conflict "The document was changed by someone else; reload it before saving")
    else if String.eqb (kd_SourceType d) KnowledgeSourceManualHTML then
      _ ←? validateManualUpdate org req d;
      ApplyScope fresh now (SetArchivedState (with_request d req user) (dr_Status req) KnowledgeArchivedByUser)
    else
      v ← validateKnowledgeRequest org req false;
      match v with
      | inl msg => mret (badRequest msg)
      | inr req =>
          let d := SetArchivedState (with_request d req user) (dr_Status req) KnowledgeArchivedByUser in
          let source := if String.eqb (dr_SourceType req) "" then kd_SourceType d else dr_SourceType req in
          Save fresh ids now (with_content d (dr_Title req) (dr_Body req) source) (SectionsFor source (dr_Title req) (dr_Body req))
      end).
Definition UpdateKnowledgeDocument (c : Ctx) (id : option uuid) (body : option KnowledgeDocumentRequest) : KProg kreply :=
  who ← ask (requireAuth c ResourceKnowledge ActionWrite);
  match who with
  | inr e => mret (refusal e)
  | inl (org, user) =>
      match id, body with
      | None, _ => mret (KRefused 400 "Invalid document ID")
      | Some _, None => mret (refusal InvalidBody)
      | Some id, Some req =>
          fresh ← call KID; ids ← call KIDs; now ← call KNow;
          r ← call (KDo (update_tx org user id req fresh ids now));
          match r with
          | Err e => mret (sendKnowledgeError e "update document")
          | Ok d => _ ← call (KAudit org user (kd_ID d) "updated"); mret (KDocument d)
          end
      end
  end.
Definition DeleteKnowledgeDocument (c : Ctx) (id : option uuid) : KProg kreply :=
  who ← ask (requireAuth c ResourceKnowledge ActionWrite);
  match who with
  | inr e => mret (refusal e)
  | inl (org, user) =>
      match id with
      | None => mret (KRefused 400 "Invalid document ID")
      | Some id =>
          r ← call (KDo (transaction (d ←? Lock org id; _ ←? Remove d; mret (Ok d))));
          match r with
          | Err e => mret (sendKnowledgeError e "delete document")
          | Ok d => _ ← call (KAudit org user (kd_ID d) "deleted"); mret KDeleted
          end
      end
  end.
Definition oldest_version (id : uuid) (b : KBase) : KRes Z :=
  Ok match map kc_IndexVersion (List.filter (of_doc id) (kb_chunks b)) with [] => 0 | v :: l => foldr Z.min v l end.
Definition ReindexKnowledgeDocument (c : Ctx) (id : option uuid) : KProg kreply :=
  who ← ask (requireAuth c ResourceKnowledge ActionWrite);
  match who with
  | inr e => mret (refusal e)
  | inl (org, user) =>
      match id with
      | None => mret (KRefused 400 "Invalid document ID")
      | Some id =>
          ids ← call KIDs;
          r ← call (KDo (transaction (d ←? Lock org id; _ ←? query (oldest_version id); Reindex ids d)));
          match r with
          | Err e => mret (sendKnowledgeError e "reindex document")
          | Ok n => _ ← call (KAudit org user id "updated"); mret (KReindexed n)
          end
      end
  end.

(** ** The whole organization *)
Definition is_stale (c : KnowledgeChunk) : bool := kc_IndexVersion c <? IndexVersion.
Definition ids_to_reindex (org : uuid) (onlyStale : bool) (b : KBase) : KRes (list uuid) :=
  Ok (map kd_ID (List.filter (fun d => N.eqb (kd_OrganizationID d) org && live d &&
        (negb onlyStale || existsb (fun c => of_doc (kd_ID d) c && N.eqb (kc_OrganizationID c) org && is_stale c) (kb_chunks b))) (kb_docs b))).
(** [None]: skipped. *)
Definition reindex_tx (org id : uuid) (onlyStale : bool) (ids : nat -> uuid) : KDb (KRes (option Z)) :=
  transaction (
    d ←? Lock org id;
    stale ←? (if onlyStale then query (count_chunks (fun c => of_doc id c && is_stale c)) else mret (Ok 1));
    if stale =? 0 then mret (Ok None) else n ←? Reindex ids d; mret (Ok (Some n))).
Fixpoint reindex_docs (org : uuid) (onlyStale : bool) (l : list uuid) (documents chunks skipped : Z) : KProg (KRes (Z * Z * Z)) :=
  match l with
  | [] => mret (Ok (documents, chunks, skipped))
  | id :: l' =>
      ids ← call KIDs;
      r ← call (KDo (reindex_tx org id onlyStale ids));
      match r with
      | Ok (Some n) => reindex_docs org onlyStale l' (documents + 1) (chunks + n) skipped
      | Ok None => reindex_docs org onlyStale l' documents chunks (skipped + 1)
      | Err (KDbError ErrNotFound) => reindex_docs org onlyStale l' documents chunks (skipped + 1)
      | Err e => mret (Err e)
      end
  end.
Definition stale_chunks (org : uuid) : KBase -> KRes Z := count_chunks (fun c => N.eqb (kc_OrganizationID c) org && is_stale c).
Definition ReindexOrg (org : uuid) (onlyStale : bool) : KProg (KRes (Z * Z * Z * Z)) :=
  l ← call (KDo (query (ids_to_reindex org onlyStale)));
  match l with
  | Err e => mret (Err e)
  | Ok l =>
      r ← reindex_docs org onlyStale l 0 0 0;
      match r with
      | Err e => mret (Err e)
      | Ok res =>
          _ ← call (KDo (query (fun b => Ok (sql_count (fun d => N.eqb (kd_OrganizationID d) org && live d) (kb_docs b)))));
          _ ← call (KDo (query (count_chunks (fun c => N.eqb (kc_OrganizationID c) org))));
          n ← call (KDo (query (stale_chunks org)));
          mret match n with Ok n => Ok (res, n) | Err e => Err e end
      end
  end.
(** [only_stale], when it is one of the values allowed. *)
Definition ReindexKnowledge (c : Ctx) (onlyStale : option bool) : KProg kreply :=
  who ← ask (requireAuth c ResourceKnowledge ActionWrite);
  match who with
  | inr e => mret (refusal e)
  | inl (org, user) =>
      match onlyStale with
      | None => mret (KRefused 400 "only_stale must be true or false")
      | Some b =>
          r ← ReindexOrg org b;
          match r with
          | Err _ => mret (KRefused 500 "Failed to reindex")
          | Ok (d, n, s, stale) => _ ← call (KAudit org user org "updated"); mret (KReindexedAll d n s stale)
          end
      end
  end.

(** * The import of the manuals *)
Record ManualDoc := MkManual { md_Title : text; md_Anchor : text; md_Text : text }.
Inductive act := Created | Updated | Unchanged | Reactivated.
Record ImportResult := MkImport { ir_Created : Z; ir_Updated : Z; ir_Unchanged : Z; ir_Reactivated : Z; ir_Archived : list text; ir_Failed : list text }.
Definition no_import : ImportResult := MkImport 0 0 0 0 [] [].
Definition counted (a : act) (r : ImportResult) : ImportResult :=
  MkImport (ir_Created r + if a is Created then 1 else 0) (ir_Updated r + if a is Updated then 1 else 0) (ir_Unchanged r + if a is Unchanged then 1 else 0)
           (ir_Reactivated r + if a is Reactivated then 1 else 0) (ir_Archived r) (ir_Failed r).
Definition by_origin (org : uuid) (origin : text) (b : KBase) : KRes KnowledgeDocument :=
  first_doc (fun d => N.eqb (kd_OrganizationID d) org && text_eqb (kd_Origin d) origin) b.
(** The row is there, and locked. *)
Definition upsert_found (fresh : positive) (ids : nat -> uuid) (now : instant) (m : ManualDoc) (dryRun : bool) (d : KnowledgeDocument) : KDb (KRes act) :=
  let body := NormalizeText (md_Text m) in
  let changed := negb (text_eqb (kd_ContentHash d) (Hash (md_Title m) body)) in
  let reactivate := String.eqb (kd_Status d) KnowledgeStatusArchived && String.eqb (kd_ArchivedBy d) KnowledgeArchivedByImport in
  let a := if reactivate then Reactivated else if changed then Updated else Unchanged in
  if dryRun || (negb reactivate && negb changed) then mret (Ok a)
  else
    let d := if reactivate then SetArchivedState d KnowledgeStatusActive KnowledgeArchivedByImport else d in
    _ ←? (if changed then Save fresh ids now (with_content d (md_Title m) body (kd_SourceType d)) (SectionsFor KnowledgeSourceManualHTML (md_Title m) body)
          else ApplyScope fresh now d);
    mret (Ok a).
Definition find_tx (org : uuid) (origin : text) (fresh : positive) (ids : nat -> uuid) (now : instant) (m : ManualDoc) (dryRun : bool) : KDb (KRes act) :=
  transaction (d ←? query (by_origin org origin); upsert_found fresh ids now m dryRun d).
Definition create_tx (org : uuid) (unit dept : option uuid) (origin : text) (fresh : positive) (ids : nat -> uuid) (now : instant) (m : ManualDoc) : KDb (KRes act) :=
  let body := NormalizeText (md_Text m) in
  transaction (
    _ ←? Save fresh ids now (new_doc org unit dept KnowledgeSourceManualHTML (md_Title m) origin body None) (SectionsFor KnowledgeSourceManualHTML (md_Title m) body);
    mret (Ok Created)).
(** The [SELECT ... FOR UPDATE] that finds no row locks none: between it and the insert another
    import may create the document, so they are two operations here. *)
Definition upsertOnce (org : uuid) (unit dept : option uuid) (origin : text) (m : ManualDoc) (dryRun : bool) : KProg (KRes act) :=
  fresh ← call KID; ids ← call KIDs; now ← call KNow;
  r ← call (KDo (find_tx org origin fresh ids now m dryRun));
  match r with
  | Err (KDbError ErrNotFound) =>
      if dryRun then mret (Ok Created)
      else call (KDo (create_tx org unit dept origin fresh ids now m))
  | r => mret r
  end.
Definition upsertByOrigin (org : uuid) (unit dept : option uuid) (origin : text) (m : ManualDoc) (dryRun : bool) : KProg (KRes act) :=
  r ← upsertOnce org unit dept origin m dryRun;
  if isUniqueViolation r then upsertOnce org unit dept origin m dryRun else mret r.
Definition file_prefix (file : text) : text := lit "manual/" ++ file ++ [hash].
Definition is_orphan (org : uuid) (file : text) (d : KnowledgeDocument) : bool :=
  N.eqb (kd_OrganizationID d) org && String.eqb (kd_SourceType d) KnowledgeSourceManualHTML && String.eqb (kd_Status d) KnowledgeStatusActive &&
  text_eqb (take (length (file_prefix file)) (kd_Origin d)) (file_prefix file) && live d.
Definition archive_tx (org id : uuid) (fresh : positive) (now : instant) : KDb (KRes unit) :=
  transaction (
    d ←? Lock org id;
    if negb (String.eqb (kd_Status d) KnowledgeStatusActive) then mret (Ok tt)
    else _ ←? ApplyScope fresh now (SetArchivedState d KnowledgeStatusArchived KnowledgeArchivedByImport); mret (Ok tt)).
Fixpoint archive_docs (org : uuid) (seen : list text) (dryRun : bool) (l : list KnowledgeDocument) (archived : list text) : KProg (KRes (list text)) :=
  match l with
  | [] => mret (Ok archived)
  | d :: l' =>
      if existsb (text_eqb (kd_Origin d)) seen then archive_docs org seen dryRun l' archived
      else if dryRun then archive_docs org seen dryRun l' (archived ++ [kd_Origin d])
      else
        fresh ← call KID; now ← call KNow;
        r ← call (KDo (archive_tx org (kd_ID d) fresh now));
        match r with
        | Ok _ | Err (KDbError ErrNotFound) => archive_docs org seen dryRun l' (archived ++ [kd_Origin d])
        | Err e => mret (Err e)
        end
  end.
Definition archiveOrphans (org : uuid) (file : text) (seen : list text) (dryRun : bool) : KProg (KRes (list text)) :=
  l ← call (KDo (query (fun b => Ok (List.filter (is_orphan org file) (kb_docs b)))));
  match l with Err e => mret (Err e) | Ok l => archive_docs org seen dryRun l [] end.
Definition origin_of (file : text) (m : ManualDoc) : text := file_prefix file ++ md_Anchor m.
Fixpoint import_docs (org : uuid) (unit dept : option uuid) (file : text) (dryRun : bool) (l : list ManualDoc) (res : ImportResult) : KProg (KRes ImportResult) :=
  match l with
  | [] => mret (Ok res)
  | m :: l' =>
      a ← upsertByOrigin org unit dept (origin_of file m) m dryRun;
      match a with Err e => mret (Err e) | Ok a => import_docs org unit dept file dryRun l' (counted a res) end
  end.
(** [files]: the names in order, with the sections read from each, if it could be read. *)
Fixpoint import_files (org : uuid) (unit dept : option uuid) (dryRun : bool) (files : list (text * option (list ManualDoc))) (res : ImportResult) : KProg (KRes ImportResult) :=
  match files with
  | [] => mret (Ok res)
  | (file, docs) :: files' =>
      match docs with
      | None | Some [] =>
          import_files org unit dept dryRun files'
            (MkImport (ir_Created res) (ir_Updated res) (ir_Unchanged res) (ir_Reactivated res) (ir_Archived res) (ir_Failed res ++ [file]))
      | Some l =>
          r ← import_docs org unit dept file dryRun l res;
          match r with
          | Err e => mret (Err e)
          | Ok res =>
              a ← archiveOrphans org file (map (origin_of file) l) dryRun;
              match a with
              | Err e => mret (Err e)
              | Ok a => import_files org unit dept dryRun files'
                          (MkImport (ir_Created res) (ir_Updated res) (ir_Unchanged res) (ir_Reactivated res) (ir_Archived res ++ a) (ir_Failed res))
              end
          end
      end
  end.
(** A result with failed files is reported as an error, after the others were imported. *)
Definition ImportManuals (org : uuid) (unit dept : option uuid) (files : list (text * option (list ManualDoc))) (dryRun : bool) : KProg (KRes ImportResult) :=
  match files with
  | [] => mret (Err (ApiError 0 "no .html files"))
  | _ => import_files org unit dept dryRun files no_import
  end.
End Api.
