(* ===== verification/KnowledgeIndex.v ===== *)
(** The index of the knowledge base is what the documents say ([internal/knowledge/store.go],
    [manuals.go], [internal/handlers/knowledge.go]): however the requests and the imports are
    interleaved, fail and crash, every live document has exactly the chunks of its text, with
    its scope and status. *)
From S2P Require Import Prelude Effects Sql GoText Accounts AccountsApi Permissions Runes Chunking SearchText Markdown Knowledge KnowledgeApi.

Section Index.
Context (nfd : text -> text) (mark letter digit : Z -> bool) (lower : Z -> Z) (Hash : text -> text -> text).
Abbreviation Save := (Save nfd mark letter digit lower Hash).
Abbreviation Reindex := (Reindex nfd mark letter digit lower).
Abbreviation rebuildChunks := (rebuildChunks nfd mark letter digit lower).
Abbreviation chunk_row := (chunk_row nfd mark letter digit lower).

(** * The invariant *)
Definition content_of (c : KnowledgeChunk) : nat * text * text := (kc_ChunkIndex c, kc_Heading c, kc_Content c).
Definition piece_content (p : Piece) : nat * text * text := (pc_Index p, pc_Heading p, pc_Content p).
Definition scope_of (c : KnowledgeChunk) : uuid * option uuid * option uuid * string * string :=
  (kc_OrganizationID c, kc_UnitID c, kc_DepartmentID c, kc_Visibility c, kc_Status c).
Definition doc_scope (d : KnowledgeDocument) : uuid * option uuid * option uuid * string * string :=
  (kd_OrganizationID d, kd_UnitID d, kd_DepartmentID d, kd_Visibility d, kd_Status d).
Definition doc_pieces (d : KnowledgeDocument) : list Piece := Chunk (SectionsFor (kd_SourceType d) (kd_Title d) (kd_Body d)).
Record settled (d : KnowledgeDocument) : Prop := MkSettled {
  se_body : NormalizeText (kd_Body d) = kd_Body d;
  se_visibility : kd_Visibility d = VisibilityFor (kd_UnitID d) (kd_DepartmentID d);
  se_hash : kd_ContentHash d = Hash (kd_Title d) (kd_Body d);
  se_status : (kd_Status d = KnowledgeStatusActive /\ kd_ArchivedBy d = "") \/ (kd_Status d = KnowledgeStatusArchived /\ kd_ArchivedBy d <> "");
  se_origin : kd_Origin d <> [] -> kd_SourceType d = KnowledgeSourceManualHTML }.
Definition chunks_of (id : uuid) (b : KBase) : list KnowledgeChunk := List.filter (of_doc id) (kb_chunks b).
Record mirrored (b : KBase) : Prop := MkMirrored {
  mi_ids : NoDup (map kd_ID (kb_docs b));
  mi_content : forall d, d ∈ kb_docs b -> live d = true -> map content_of (chunks_of (kd_ID d) b) = map piece_content (doc_pieces d);
  mi_scope : forall d c, d ∈ kb_docs b -> live d = true -> c ∈ kb_chunks b -> of_doc (kd_ID d) c = true -> scope_of c = doc_scope d;
  mi_owner : forall c, c ∈ kb_chunks b -> exists d, d ∈ kb_docs b /\ live d = true /\ of_doc (kd_ID d) c = true;
  mi_settled : forall d, d ∈ kb_docs b -> live d = true -> settled d;
  mi_named : forall d, d ∈ kb_docs b -> is_new d = false;
  mi_origin : forall d q, d ∈ kb_docs b -> live d = true -> q ∈ kb_docs b -> same_origin d q = true -> q = d }.

(** * Lists of rows *)
Lemma doc_by_id b d q : mirrored b -> d ∈ kb_docs b -> q ∈ kb_docs b -> kd_ID d = kd_ID q -> d = q.
Proof.
  intros Hm Hd Hq E. apply list_elem_of_lookup in Hd as [i Hi], Hq as [j Hj]. assert (i = j) as ->; [| by simplify_eq].
  eapply (NoDup_lookup (map kd_ID (kb_docs b))); [apply Hm | by rewrite list_lookup_fmap, Hi | rewrite list_lookup_fmap, Hj; simpl; by rewrite E].
Qed.
Definition put_doc (d : KnowledgeDocument) (l : list KnowledgeDocument) : list KnowledgeDocument :=
  if existsb (is_doc (kd_ID d)) l then sql_update (is_doc (kd_ID d)) (fun _ => d) l else l ++ [d].
Lemma put_doc_in d l q : q ∈ put_doc d l <-> q = d \/ (q ∈ l /\ kd_ID q <> kd_ID d).
Proof.
  unfold put_doc. destruct (existsb (is_doc (kd_ID d)) l) eqn:E.
  - unfold sql_update. rewrite list_elem_of_fmap. split.
    + intros (r & -> & Hr). destruct (is_doc (kd_ID d) r) eqn:Er; [by left |]. right. split; [done |]. by apply N.eqb_neq.
    + intros [-> | [Hq Hn]].
      * apply existsb_exists in E as (r & Hr%list_elem_of_In & Er). exists r. by rewrite Er.
      * exists q. apply N.eqb_neq in Hn. unfold is_doc. by rewrite Hn.
  - rewrite elem_of_app, list_elem_of_singleton. split; [intros [Hq | ->]; [right | by left] | naive_solver]. split; [done |]. intros Eq.
    apply not_true_iff_false in E. apply E, existsb_exists. exists q. split; [by apply list_elem_of_In | unfold is_doc; by rewrite Eq, N.eqb_refl].
Qed.
Lemma put_doc_ids d l : NoDup (map kd_ID l) -> NoDup (map kd_ID (put_doc d l)).
Proof.
  intros H. unfold put_doc. destruct (existsb _ l) eqn:E.
  - replace (map kd_ID (sql_update (is_doc (kd_ID d)) (fun _ => d) l)) with (map kd_ID l); [done |]. unfold sql_update. rewrite map_map. apply map_ext. intros r.
    destruct (is_doc (kd_ID d) r) eqn:Er; [by apply N.eqb_eq in Er | done].
  - rewrite map_app. apply NoDup_app. split_and!; [done | | apply NoDup_singleton]. intros x (q & -> & Hq)%list_elem_of_fmap Hx%list_elem_of_singleton.
    apply not_true_iff_false in E. apply E, existsb_exists. exists q. split; [by apply list_elem_of_In | unfold is_doc; by rewrite Hx, N.eqb_refl].
Qed.

(** * Writing a document and its chunks *)
Lemma save_doc_ok fresh now d b d' b' : save_doc fresh now d b = (Ok d', b') ->
  d' = stored fresh now d /\ b' = set_docs (put_doc d') b /\ is_new d' = false /\
  (forall q, q ∈ kb_docs b -> kd_ID q <> kd_ID d' -> same_origin d' q = false) /\
  (is_new d = true -> forall q, q ∈ kb_docs b -> kd_ID q <> kd_ID d').
Proof.
  unfold save_doc. destruct (existsb _ _) eqn:E; [done |]. intros [= <- <-]. split_and!; [done | done | | |].
  - unfold stored, is_new. destruct (N.eqb (kd_ID d) nil_uuid) eqn:En; simpl; [by destruct fresh | done].
  - intros q Hq Hn. apply not_true_iff_false. intros Hs. apply not_true_iff_false in E. apply E, existsb_exists. exists q. split; [by apply list_elem_of_In |].
    apply N.eqb_neq in Hn. unfold is_doc. by rewrite Hn.
  - intros Hnew q Hq Eq. apply not_true_iff_false in E. apply E, existsb_exists. exists q. split; [by apply list_elem_of_In |]. unfold is_doc. by rewrite Eq, N.eqb_refl.
Qed.
(** A document is written, with chunks that are its own; the others keep theirs. *)
Lemma mirrored_put b d chunks :
  mirrored b -> live d = true -> settled d -> is_new d = false ->
  (forall q, q ∈ kb_docs b -> kd_ID q <> kd_ID d -> same_origin d q = false) ->
  (forall id, id <> kd_ID d -> List.filter (of_doc id) chunks = chunks_of id b) ->
  map content_of (List.filter (of_doc (kd_ID d)) chunks) = map piece_content (doc_pieces d) ->
  (forall c, c ∈ chunks -> of_doc (kd_ID d) c = true -> scope_of c = doc_scope d) ->
  mirrored (MkBase (put_doc d (kb_docs b)) chunks (kb_units b) (kb_departments b)).
Proof.
  intros Hm Hl Hs Hn Ho Hf Hc Hsc.
  assert (Hin : forall c, c ∈ chunks -> of_doc (kd_ID d) c = false -> c ∈ kb_chunks b).
  { intros c Hin Hne. assert (Hid : kc_DocumentID c <> kd_ID d) by by apply N.eqb_neq. specialize (Hf _ Hid). assert (Hx : In c (chunks_of (kc_DocumentID c) b)).
    { rewrite <- Hf. apply filter_In. split; [by apply list_elem_of_In | unfold of_doc; apply N.eqb_refl]. }
    apply list_elem_of_In. unfold chunks_of in Hx. by apply filter_In in Hx as [Hx _]. }
  assert (Hof : forall q c, kd_ID q <> kd_ID d -> of_doc (kd_ID q) c = true -> of_doc (kd_ID d) c = false).
  { unfold of_doc. intros q c Hq Hc1%N.eqb_eq. apply N.eqb_neq. congruence. }
  split; cbn [kb_docs kb_chunks].
  - apply put_doc_ids, Hm.
  - intros q [-> | [Hq Hne]]%put_doc_in Hlq; [exact Hc |]. unfold chunks_of at 1. cbn [kb_chunks]. rewrite Hf by done. by apply Hm.
  - intros q c [-> | [Hq Hne]]%put_doc_in Hlq Hin' Hcq; [by apply Hsc |]. apply Hm; try done. eapply Hin; [done | by eapply Hof].
  - intros c Hc'. destruct (of_doc (kd_ID d) c) eqn:E; [exists d; rewrite put_doc_in; auto |].
    destruct (mi_owner b Hm c (Hin c Hc' E)) as (q & Hq & Hlq & Hcq). exists q. rewrite put_doc_in. split_and!; [| done | done]. right. split; [done |].
    intros Eq. by rewrite Eq, E in Hcq.
  - intros q [-> | [Hq _]]%put_doc_in Hlq; [done | by apply Hm].
  - intros q [-> | [Hq _]]%put_doc_in; [done | by apply Hm].
  - intros q r [-> | [Hq Hnq]]%put_doc_in Hlq [-> | [Hr Hnr]]%put_doc_in Hsame; [done | by rewrite Ho in Hsame | | by eapply (mi_origin b Hm)].
    exfalso. enough (same_origin d q = true) by by rewrite Ho in *. revert Hsame. unfold same_origin. rewrite Hl, Hlq, !andb_true_r.
    intros [[Hn1 H1]%andb_prop H2]%andb_prop. apply N.eqb_eq in H1. apply bool_decide_eq_true in H2. rewrite H2, Hn1, H1, N.eqb_refl. simpl. by apply bool_decide_eq_true.
Qed.

(** * What statements leave behind *)
Lemma try_ok {A B} (m : KDb (KRes A)) (k : A -> KDb (KRes B)) d r d' :
  db_sem (try_bind m k) d (Ok r) d' -> exists a d1, db_sem m d (Ok a) d1 /\ db_sem (k a) d1 (Ok r) d'.
Proof. intros H%db_sem_try. destruct H as [(e & _ & H) | H]; [discriminate | exact H]. Qed.
Lemma query_ok {A} (f : KBase -> KRes A) d a d' : db_sem (query f) d (Ok a) d' -> f d = Ok a /\ d' = d.
Proof. intros [-> [E | E]]%db_sem_query; done. Qed.
Lemma transaction_ok_sem {A} (m : KDb (KRes A)) d a d' : db_sem (transaction m) d (Ok a) d' -> db_sem m d (Ok a) d'.
Proof. by intros [[_ ?] | (x & H & [[= <-] | ?])]%db_sem_transaction. Qed.
Lemma reads_bind {A B} (m : KDb A) (k : A -> KDb (KRes B)) d r d' :
  keeps eq m -> db_sem (m ≫= k) d r d' -> exists a, db_sem (k a) d r d'.
Proof.
  intros Hm (fs & fs' & H). unfold mbind, db_bind in H. destruct (m (World d fs)) as [a [d1 fs1]] eqn:E. pose proof (Hm _ _ _ E) as Hd. simpl in Hd. subst d1.
  exists a, fs1, fs'. exact H.
Qed.
Lemma batches_concat {A} fuel n (l : list A) : (0 < n)%nat -> (length l <= fuel)%nat -> concat (batches fuel n l) = l.
Proof.
  intros Hn. revert l. induction fuel as [| fuel IH]; intros l Hl; [by destruct l; [| simpl in Hl; lia] |]. destruct l as [| x l]; [done |]. cbn [batches concat].
  rewrite IH; [by rewrite take_drop |]. rewrite length_drop. simpl in *. lia.
Qed.
Lemma insert_batches_ok l b u b' : db_sem (insert_batches l) b (Ok u) b' -> b' = set_chunks (fun c => c ++ concat l) b.
Proof.
  revert b. induction l as [| rows l IH]; intros b; cbn [insert_batches].
  - intros [_ ->]%db_sem_ret. unfold set_chunks. rewrite app_nil_r. by destruct b.
  - intros (x & b1 & H1%exec_ok_sem & H2%IH)%try_ok. unfold insert_chunks in H1. destruct (distinct_chunks _); [| done]. injection H1 as _ <-. rewrite H2.
    unfold set_chunks. simpl. by rewrite <- app_assoc.
Qed.
Definition rows_of (ids : nat -> uuid) (d : KnowledgeDocument) (sections : list Section_) : list KnowledgeChunk :=
  map (fun p => chunk_row d (ids (pc_Index p)) p) (Chunk sections).
Definition rebuilt (ids : nat -> uuid) (d : KnowledgeDocument) (sections : list Section_) (l : list KnowledgeChunk) : list KnowledgeChunk :=
  List.filter (fun c => negb (of_doc (kd_ID d) c)) l ++ rows_of ids d sections.
Lemma rebuildChunks_ok ids d sections b u b' : db_sem (rebuildChunks ids d sections) b (Ok u) b' -> b' = set_chunks (rebuilt ids d sections) b.
Proof.
  intros (x & b1 & H1%exec_ok_sem & H2)%try_ok. unfold delete_chunks in H1. injection H1 as _ <-. unfold rebuilt, rows_of. destruct (Chunk sections) as [| p ps] eqn:E.
  - apply db_sem_ret in H2 as [_ ->]. unfold set_chunks. simpl. by rewrite app_nil_r.
  - apply insert_batches_ok in H2 as ->. rewrite batches_concat by (done || lia). done.
Qed.
Lemma filter_comm {A} (p q : A -> bool) l : List.filter p (List.filter q l) = List.filter (fun x => q x && p x) l.
Proof. induction l as [| x l IH]; [done |]. simpl. destruct (q x); simpl; [destruct (p x); by rewrite IH | done]. Qed.
Lemma filter_none {A} (p : A -> bool) l : (forall x, x ∈ l -> p x = false) -> List.filter p l = [].
Proof. induction l as [| x l IH]; [done |]. intros H. simpl. rewrite (H x) by by left. apply IH. intros y Hy. apply H. by right. Qed.
Lemma filter_all {A} (p : A -> bool) l : (forall x, x ∈ l -> p x = true) -> List.filter p l = l.
Proof. induction l as [| x l IH]; [done |]. intros H. simpl. rewrite (H x) by by left. f_equal. apply IH. intros y Hy. apply H. by right. Qed.
Lemma rows_of_doc ids d sections c : c ∈ rows_of ids d sections -> of_doc (kd_ID d) c = true /\ scope_of c = doc_scope d.
Proof. intros (p & -> & _)%list_elem_of_fmap. split; [apply N.eqb_refl | done]. Qed.
Lemma rebuilt_others ids d sections l id : id <> kd_ID d -> List.filter (of_doc id) (rebuilt ids d sections l) = List.filter (of_doc id) l.
Proof.
  intros Hn. unfold rebuilt. rewrite List.filter_app, filter_comm, (filter_none (of_doc id) (rows_of _ _ _)), app_nil_r.
  - apply List.filter_ext_in. intros c _. unfold of_doc. destruct (N.eqb (kc_DocumentID c) id) eqn:E; [| by rewrite andb_false_r]. apply N.eqb_eq in E as ->.
    apply N.eqb_neq in Hn. by rewrite Hn.
  - intros c (p & -> & _)%list_elem_of_fmap. apply N.eqb_neq. simpl. congruence.
Qed.
Lemma rebuilt_own ids d sections l : List.filter (of_doc (kd_ID d)) (rebuilt ids d sections l) = rows_of ids d sections.
Proof.
  unfold rebuilt. rewrite List.filter_app, filter_comm, (filter_none _ l), (filter_all _ (rows_of _ _ _)); [done | by intros c [? _]%rows_of_doc |].
  intros c _. by destruct (of_doc _ c).
Qed.
Lemma rows_content ids d sections : map content_of (rows_of ids d sections) = map piece_content (Chunk sections).
Proof. unfold rows_of. rewrite map_map. by apply map_ext. Qed.
Lemma SectionsFor_clean source title body : Chunk (SectionsFor source title (NormalizeText body)) = Chunk (SectionsFor source title body).
Proof.
  unfold SectionsFor. destruct (String.eqb _ _); [unfold ParseMarkdown; by rewrite NormalizeText_idem |]. unfold Chunk. simpl. unfold chunk_section. simpl. by rewrite NormalizeText_idem.
Qed.

(** A document ready to be written: what [Save] does not put in order itself. *)
Record presentable (d : KnowledgeDocument) : Prop := MkPresentable {
  pr_live : live d = true;
  pr_status : (kd_Status d = "" /\ kd_ArchivedBy d = "") \/ (kd_Status d = KnowledgeStatusActive /\ kd_ArchivedBy d = "") \/ (kd_Status d = KnowledgeStatusArchived /\ kd_ArchivedBy d <> "");
  pr_origin : kd_Origin d <> [] -> kd_SourceType d = KnowledgeSourceManualHTML }.
Lemma prepared_settled d : presentable d -> settled (prepared_doc Hash d).
Proof.
  intros [Hl Hs Ho]. split; try done; cbn [prepared_doc kd_Body kd_Status kd_ArchivedBy]; [by rewrite NormalizeText_idem |].
  destruct Hs as [[-> ->] | [[-> ->] | [-> H]]]; [by left | by left | by right].
Qed.
Lemma stored_settled fresh now d : settled d -> settled (stored fresh now d).
Proof. intros []. unfold stored. by destruct (is_new d). Qed.
Lemma stored_live fresh now d : live (stored fresh now d) = live d.
Proof. unfold stored. by destruct (is_new d). Qed.
Lemma stored_pieces fresh now d : doc_pieces (stored fresh now d) = doc_pieces d.
Proof. unfold stored. by destruct (is_new d). Qed.
Lemma set_both d' f b : set_chunks f (set_docs (put_doc d') b) = MkBase (put_doc d' (kb_docs b)) (f (kb_chunks b)) (kb_units b) (kb_departments b).
Proof. done. Qed.
Lemma Save_sem fresh ids now d sections b r b' : db_sem (Save fresh ids now d sections) b r b' ->
  (b' = b /\ is_ok r = false) \/ exists d', d' = stored fresh now (prepared_doc Hash d) /\ b' = set_chunks (rebuilt ids d' sections) (set_docs (put_doc d') b) /\
    is_new d' = false /\ (forall q, q ∈ kb_docs b -> kd_ID q <> kd_ID d' -> same_origin d' q = false) /\ (r = Ok d' \/ is_ok r = false).
Proof.
  intros H%db_sem_transaction. destruct H as [? | (d' & H & Hr)]; [by left |]. right. apply try_ok in H as (x & b1 & H1%exec_ok_sem%save_doc_ok & H2).
  destruct H1 as (-> & -> & Hn & Ho & _). apply try_ok in H2 as (u & b2 & ->%rebuildChunks_ok & [[= ->] ->]%db_sem_ret). eexists. split_and!; [done.. |].
  destruct Hr as [-> | ->]; auto.
Qed.
Lemma Save_mirrored fresh ids now d sections b r b' :
  mirrored b -> presentable d -> Chunk sections = doc_pieces d -> db_sem (Save fresh ids now d sections) b r b' -> mirrored b'.
Proof.
  intros Hm Hp Hs H%Save_sem. destruct H as [[-> _] | (d' & Ed & -> & Hn & Ho & _)]; [done |]. rewrite set_both.
  assert (Hpc : doc_pieces d' = Chunk sections).
  { rewrite Ed, stored_pieces, Hs. unfold doc_pieces. simpl. apply SectionsFor_clean. }
  apply mirrored_put; [done | rewrite Ed, stored_live; apply Hp | rewrite Ed; by apply stored_settled, prepared_settled | done | done | | |].
  - intros id Hid. by apply rebuilt_others.
  - rewrite rebuilt_own, rows_content. by rewrite Hpc.
  - intros c [Hc | Hc]%elem_of_app Hof; [| by destruct (rows_of_doc _ _ _ _ Hc)]. apply list_elem_of_In, filter_In in Hc as [_ Hc]. by rewrite Hof in Hc.
Qed.
Lemma Reindex_mirrored ids d b n b' : mirrored b -> d ∈ kb_docs b -> live d = true -> db_sem (Reindex ids d) b (Ok n) b' -> mirrored b'.
Proof.
  intros Hm Hd Hl (u & b1 & ->%rebuildChunks_ok & [_ ->]%query_ok)%try_ok.
  assert (E : put_doc d (kb_docs b) = kb_docs b).
  { unfold put_doc. replace (existsb (is_doc (kd_ID d)) (kb_docs b)) with true; [| symmetry; apply existsb_exists; exists d; split; [by apply list_elem_of_In | apply N.eqb_refl]].
    unfold sql_update. rewrite <- (map_id (kb_docs b)) at 2. apply map_ext_in. intros q Hq%list_elem_of_In. destruct (is_doc (kd_ID d) q) eqn:Eq; [| done].
    apply N.eqb_eq in Eq. by apply (doc_by_id b). }
  assert (H := mirrored_put b d (rebuilt ids d (SectionsFor (kd_SourceType d) (kd_Title d) (kd_Body d)) (kb_chunks b)) Hm Hl (mi_settled b Hm d Hd Hl) (mi_named b Hm d Hd)).
  rewrite E in H. apply H.
  - intros q Hq Hn. apply not_true_iff_false. intros Hs. apply Hn. f_equal. by eapply (mi_origin b Hm).
  - intros id Hid. by apply rebuilt_others.
  - by rewrite rebuilt_own, rows_content.
  - intros c [Hc | Hc]%elem_of_app Hof; [| by destruct (rows_of_doc _ _ _ _ Hc)]. apply list_elem_of_In, filter_In in Hc as [_ Hc]. by rewrite Hof in Hc.
Qed.

(** ** Scope, removal *)
Definition status_ok (d : KnowledgeDocument) : Prop :=
  (kd_Status d = "" /\ kd_ArchivedBy d = "") \/ (kd_Status d = KnowledgeStatusActive /\ kd_ArchivedBy d = "") \/ (kd_Status d = KnowledgeStatusArchived /\ kd_ArchivedBy d <> "").
(** The same document, perhaps with another scope or status. *)
Record same_content (d0 d : KnowledgeDocument) : Prop := MkSame {
  sa_ID : kd_ID d = kd_ID d0; sa_Org : kd_OrganizationID d = kd_OrganizationID d0; sa_Source : kd_SourceType d = kd_SourceType d0; sa_Title : kd_Title d = kd_Title d0;
  sa_Origin : kd_Origin d = kd_Origin d0; sa_Body : kd_Body d = kd_Body d0; sa_Hash : kd_ContentHash d = kd_ContentHash d0; sa_Deleted : kd_Deleted d = kd_Deleted d0 }.
Lemma scoped_filter d id l : (forall c, of_doc id (scoped_chunk d c) = of_doc id c) ->
  List.filter (of_doc id) (sql_update (of_doc (kd_ID d)) (scoped_chunk d) l) = map (fun c => if of_doc (kd_ID d) c then scoped_chunk d c else c) (List.filter (of_doc id) l).
Proof.
  intros Hf. induction l as [| c l IH]; [done |]. cbn [sql_update map List.filter] in *. destruct (of_doc (kd_ID d) c) eqn:E; rewrite ?Hf; destruct (of_doc id c) eqn:Ei;
    cbn [map]; rewrite ?E; by rewrite <- IH.
Qed.
Lemma ApplyScope_mirrored fresh now d d0 b d' b' :
  mirrored b -> d0 ∈ kb_docs b -> live d0 = true -> same_content d0 d -> (kd_Status d = KnowledgeStatusActive /\ kd_ArchivedBy d = "") \/ (kd_Status d = KnowledgeStatusArchived /\ kd_ArchivedBy d <> "") ->
  db_sem (ApplyScope fresh now d) b (Ok d') b' -> mirrored b'.
Proof.
  intros Hm Hd0 Hl0 [Hid Horg Hsrc Htitle Horig Hbody Hhash Hdel] Hst H. apply try_ok in H as (x & b1 & H1%exec_ok_sem%save_doc_ok & H2). destruct H1 as (-> & -> & Hn & Ho & _).
  apply try_ok in H2 as (u & b2 & H2%exec_ok_sem & [[= ->] ->]%db_sem_ret). unfold scope_chunks in H2. injection H2 as _ <-. rewrite set_both.
  destruct (mi_settled b Hm d0 Hd0 Hl0) as [Sb Sv Sh Ss So].
  assert (Hnew : is_new (scoped_doc d) = false) by (unfold is_new; simpl; rewrite Hid; apply (mi_named b Hm d0 Hd0)).
  unfold stored in *. rewrite Hnew in *. set (d' := touched now (scoped_doc d)) in *.
  change (of_doc (kd_ID (scoped_doc d))) with (of_doc (kd_ID d')). assert (Hid' : kd_ID d' = kd_ID d0) by done.
  assert (Hdoc : forall id c, of_doc id (scoped_chunk d' c) = of_doc id c) by done.
  apply mirrored_put; [done | unfold live in *; simpl; by rewrite Hdel | | done | done | | |].
  - split; simpl; [by rewrite Hbody | done | by rewrite Hhash, Htitle, Hbody | done | by rewrite Horig, Hsrc].
  - intros id Hne. rewrite scoped_filter by done. unfold chunks_of. rewrite <- map_id. apply map_ext_in. intros c [_ Hc]%filter_In.
    destruct (of_doc (kd_ID d') c) eqn:E; [| done]. apply N.eqb_eq in E, Hc. congruence.
  - rewrite scoped_filter by done. rewrite map_map. assert (E : map content_of (chunks_of (kd_ID d0) b) = map piece_content (doc_pieces d')).
    { rewrite (mi_content b Hm d0 Hd0 Hl0). unfold doc_pieces. simpl. by rewrite Hsrc, Htitle, Hbody. }
    rewrite <- E, Hid'. unfold chunks_of. apply map_ext. intros c. by destruct (of_doc _ c).
  - intros c (q & -> & Hq)%list_elem_of_fmap. rewrite <- Hid' in *. destruct (of_doc (kd_ID d') q) eqn:E; [| by rewrite E]. intros _.
    assert (Hs : scope_of q = doc_scope d0) by (apply (mi_scope b Hm); [done | done | done | by rewrite <- Hid']). injection Hs as Ho1 _ _ _ _. unfold scope_of, doc_scope. simpl.
    by rewrite Ho1, Horg.
Qed.
Lemma delete_doc_in id (l : list KnowledgeDocument) q :
  q ∈ sql_update (fun d => is_doc id d && live d) doc_deleted l -> live q = true -> q ∈ l /\ kd_ID q <> id.
Proof.
  intros (r & -> & Hr)%list_elem_of_fmap Hl. destruct (is_doc id r && live r) eqn:E; [done |]. split; [done |]. rewrite Hl, andb_true_r in E. by apply N.eqb_neq.
Qed.
Lemma Remove_mirrored d b u b' : mirrored b -> db_sem (Remove d) b (Ok u) b' -> mirrored b'.
Proof.
  intros Hm H%transaction_ok_sem. apply try_ok in H as (x & b1 & H1%exec_ok_sem & H2%exec_ok_sem). unfold delete_chunks in H1. injection H1 as _ <-.
  unfold delete_doc in H2. injection H2 as _ <-. unfold set_docs, set_chunks. simpl.
  assert (Hchunks : forall id, id <> kd_ID d -> List.filter (of_doc id) (List.filter (fun c => negb (of_doc (kd_ID d) c)) (kb_chunks b)) = chunks_of id b).
  { intros id Hn. rewrite filter_comm. apply List.filter_ext_in. intros c _. unfold of_doc. destruct (N.eqb (kc_DocumentID c) id) eqn:E; [| by rewrite andb_false_r].
    apply N.eqb_eq in E as ->. apply N.eqb_neq in Hn. by rewrite Hn. }
  assert (Hkept : forall c, c ∈ List.filter (fun c => negb (of_doc (kd_ID d) c)) (kb_chunks b) -> c ∈ kb_chunks b /\ of_doc (kd_ID d) c = false).
  { intros c [Hc Hn]%list_elem_of_In%filter_In. split; [by apply list_elem_of_In | by apply negb_true_iff]. }
  assert (Hrow : forall q, q ∈ sql_update (fun d0 => is_doc (kd_ID d) d0 && live d0) doc_deleted (kb_docs b) ->
    exists r, r ∈ kb_docs b /\ kd_ID q = kd_ID r /\ (q = r \/ live q = false)).
  { intros q (r & -> & Hr)%list_elem_of_fmap. exists r. destruct (_ && _); auto. }
  split; simpl.
  - unfold sql_update. rewrite map_map. replace (map _ (kb_docs b)) with (map kd_ID (kb_docs b)); [apply Hm |]. apply map_ext. intros q. by destruct (_ && _).
  - intros q Hq Hl. destruct (delete_doc_in _ _ _ Hq Hl) as [Hin Hne]. unfold chunks_of at 1. simpl. rewrite Hchunks by done. by apply Hm.
  - intros q c Hq Hl [Hc _]%Hkept Hof. destruct (delete_doc_in _ _ _ Hq Hl) as [Hin _]. by apply Hm.
  - intros c [Hc Hof]%Hkept. destruct (mi_owner b Hm c Hc) as (q & Hq & Hl & Hqc). exists q. split_and!; [| done | done].
    apply list_elem_of_fmap. exists q. destruct (is_doc (kd_ID d) q) eqn:E; [| done]. exfalso. apply N.eqb_eq in E. by rewrite <- E, Hqc in Hof.
  - intros q Hq Hl. destruct (delete_doc_in _ _ _ Hq Hl) as [Hin _]. by apply Hm.
  - intros q (r & Hr & Hid & _)%Hrow. unfold is_new. rewrite Hid. by apply (mi_named b Hm).
  - intros q r Hq Hl (r' & Hr & _ & [-> | Hd])%Hrow Hsame; [| unfold same_origin in Hsame; rewrite Hd in Hsame; by rewrite andb_false_r in Hsame].
    destruct (delete_doc_in _ _ _ Hq Hl) as [Hin _]. by apply (mi_origin b Hm).
Qed.

(** * Transactions *)
Definition safe {A} (m : KDb (KRes A)) : Prop := forall b r b', mirrored b -> db_sem m b r b' -> mirrored b'.
Lemma safe_transaction {A} (m : KDb (KRes A)) : (forall b a b', mirrored b -> db_sem m b (Ok a) b' -> mirrored b') -> safe (transaction m).
Proof. intros H b r b' Hm [[-> _] | (a & Ha & _)]%db_sem_transaction; [done | by eapply H]. Qed.
Lemma safe_lookup {A} (f : KBase -> KRes A) : safe (query f).
Proof. by intros b r b' Hm [-> _]%db_sem_query. Qed.
Lemma safe_reads {A} (m : KDb (KRes A)) : keeps eq m -> safe m.
Proof. intros H b r b' Hm Hs. by rewrite <- (keeps_sem eq m b r b' H Hs). Qed.
Lemma first_doc_in p b d : first_doc p b = Ok d -> d ∈ kb_docs b /\ live d = true /\ p d = true.
Proof.
  unfold first_doc. destruct (sql_min _ _) as [x |] eqn:E; [| done]. intros [= ->]. apply sql_min_in in E. apply list_elem_of_In, filter_In in E as [E Hp].
  apply andb_prop in Hp as [Hp Hl]. split_and!; [by apply list_elem_of_In | done | done].
Qed.
Lemma Lock_ok org id b d b' : db_sem (Lock org id) b (Ok d) b' -> b' = b /\ d ∈ kb_docs b /\ live d = true.
Proof. intros [(H1 & H2 & _)%first_doc_in ->]%query_ok. done. Qed.
Lemma reads_targets org unit dept : keeps eq (scopeTargetsExist org unit dept).
Proof. unfold scopeTargetsExist. solve_keeps. Qed.
Lemma validate_reads org req create w x w' : validateKnowledgeRequest org req create w = (x, w') ->
  w_data w = w_data w' /\ match x with inr req' => known_status (dr_Status req') = true | inl _ => True end.
Proof.
  unfold validateKnowledgeRequest. repeat match goal with |- context [if ?c then mret _ else _] => destruct c eqn:?; [intros [= <- <-]; done |] end.
  unfold mbind, db_bind. destruct (scopeTargetsExist _ _ _ w) as [ok w1] eqn:E. pose proof (reads_targets _ _ _ _ _ _ E) as Hw. intros [= <- <-]. split; [done |].
  destruct ok; [| done]. simpl. by apply negb_false_iff.
Qed.
Lemma validateManual_reads org req d : keeps eq (validateManualUpdate org req d).
Proof.
  unfold validateManualUpdate. pose proof (reads_targets org (sid_ID (dr_UnitID req)) (sid_ID (dr_DepartmentID req))) as H. solve_keeps.
Qed.
Lemma validateManual_ok org req d b u b' : db_sem (validateManualUpdate org req d) b (Ok u) b' -> b' = b /\ known_status (dr_Status req) = true.
Proof.
  intros H. split; [symmetry; by apply (keeps_sem eq _ _ _ _ (validateManual_reads org req d) H) |]. unfold validateManualUpdate in H.
  destruct (_ || _); [by apply db_sem_ret in H as [? _] |]. destruct (known_status (dr_Status req)); [done |]. by apply db_sem_ret in H as [? _].
Qed.
Lemma archived_status d s by_ : status_ok d -> known_status s = true -> by_ <> "" -> status_ok (SetArchivedState d s by_).
Proof.
  unfold known_status, status_ok. intros Hd Hs Hb. assert (Hs' : s = "" \/ s = KnowledgeStatusActive \/ s = KnowledgeStatusArchived).
  { apply orb_prop in Hs as [[H | H]%orb_prop | H]; apply String.eqb_eq in H; auto. }
  destruct Hd as [[E1 E2] | [[E1 E2] | [E1 E2]]], Hs' as [-> | [-> | ->]]; unfold SetArchivedState; simpl; rewrite ?E1, ?E2; simpl; auto.
Qed.
Lemma settled_status d : settled d -> status_ok d.
Proof. intros [_ _ _ H _]. unfold status_ok. tauto. Qed.
Lemma archived_same d s by_ : same_content d (SetArchivedState d s by_).
Proof. by split. Qed.
Lemma safe_update org user id req fresh ids now : safe (update_tx nfd mark letter digit lower Hash org user id req fresh ids now).
Proof.
  apply safe_transaction. intros b a b' Hm (d & b1 & (-> & Hd & Hl)%Lock_ok & H)%try_ok. pose proof (mi_settled b Hm d Hd Hl) as Hs. pose proof (settled_status d Hs) as Hst.
  destruct (match dr_ExpectedUpdatedAt req with Some t => _ | None => _ end); [by apply db_sem_ret in H as [? _] |]. destruct (String.eqb (kd_SourceType d) _) eqn:Em.
  - apply try_ok in H as (u & b1 & [-> Hk]%validateManual_ok & H).
    assert (Hst' : status_ok (SetArchivedState (with_request d req user) (dr_Status req) KnowledgeArchivedByUser)) by (apply archived_status; [exact Hst | done | done]).
    apply (ApplyScope_mirrored fresh now _ d b a b' Hm Hd Hl) in H; [exact H | by split |].
    destruct Hst' as [[E _] | Hst']; [| done]. exfalso. revert E. unfold SetArchivedState. simpl. destruct (se_status d Hs) as [[-> _] | [-> _]]; by destruct (String.eqb (dr_Status req) "") eqn:E; [| intros E'; rewrite E' in E].
  - destruct H as (fs & fs' & H). unfold mbind, db_bind in H. destruct (validateKnowledgeRequest org req false (World b fs)) as [v [b1 fs1]] eqn:Ev.
    apply validate_reads in Ev as [Eb Hv]. simpl in Eb. subst b1. destruct v as [msg | req']; [done |].
    eapply (Save_mirrored fresh ids now _ _ b (Ok a) b' Hm); [| | by exists fs1, fs'].
    + split; [done | by apply (archived_status (with_request d req' user)) |]. intros Ho. exfalso. apply (se_origin d Hs) in Ho. by rewrite Ho in Em.
    + done.
Qed.
Lemma safe_create fresh ids now org unit dept source title body user status : known_status status = true ->
  safe (Save fresh ids now (SetArchivedState (new_doc org unit dept source title [] body (Some user)) status KnowledgeArchivedByUser) (SectionsFor source title body)).
Proof.
  intros Hk b r b' Hm. apply Save_mirrored; [done | | done]. split; [done | | done]. apply archived_status; [by left | done | done].
Qed.
Lemma safe_delete org id : safe (transaction (d ←? Lock org id; _ ←? Remove d; mret (Ok d))).
Proof.
  apply safe_transaction. intros b a b' Hm (d & b1 & (-> & _ & _)%Lock_ok & H)%try_ok. apply try_ok in H as (u & b1 & H & [_ ->]%db_sem_ret). by eapply Remove_mirrored.
Qed.
Lemma safe_reindex org id ids : safe (transaction (d ←? Lock org id; _ ←? query (oldest_version id); Reindex ids d)).
Proof.
  apply safe_transaction. intros b a b' Hm (d & b1 & (-> & Hd & Hl)%Lock_ok & H)%try_ok. apply try_ok in H as (u & b1 & [_ ->]%query_ok & H). by eapply Reindex_mirrored.
Qed.
Lemma safe_reindex_tx org id stale ids : safe (reindex_tx nfd mark letter digit lower org id stale ids).
Proof.
  apply safe_transaction. intros b a b' Hm (d & b1 & (-> & Hd & Hl)%Lock_ok & H)%try_ok. apply try_ok in H as (n & b1 & Hn & H).
  assert (b1 = b) as -> by (destruct stale; [by apply query_ok in Hn as [_ ?] | by apply db_sem_ret in Hn as [_ ?]]).
  destruct (n =? 0); [by apply db_sem_ret in H as [_ ->] |]. apply try_ok in H as (k & b1 & H & [_ ->]%db_sem_ret). by eapply Reindex_mirrored.
Qed.
Lemma manual_pieces source title body : source = KnowledgeSourceManualHTML -> Chunk (SectionsFor KnowledgeSourceManualHTML title body) = Chunk (SectionsFor source title body).
Proof. by intros ->. Qed.
Lemma reactivated_status d : settled d ->
  (kd_Status (SetArchivedState d KnowledgeStatusActive KnowledgeArchivedByImport) = KnowledgeStatusActive /\ kd_ArchivedBy (SetArchivedState d KnowledgeStatusActive KnowledgeArchivedByImport) = "").
Proof. intros Hs. unfold SetArchivedState. destruct (se_status d Hs) as [[E1 E2] | [E1 E2]]; rewrite E1; simpl; auto. Qed.
Lemma safe_find org origin fresh ids now m dryRun : origin <> [] -> safe (find_tx nfd mark letter digit lower Hash org origin fresh ids now m dryRun).
Proof.
  intros Hne. apply safe_transaction. intros b a b' Hm (d & b1 & [Hq ->]%query_ok & H)%try_ok. apply first_doc_in in Hq as (Hd & Hl & [_ Ho%bool_decide_eq_true]%andb_prop).
  pose proof (mi_settled b Hm d Hd Hl) as Hs. pose proof (settled_status d Hs) as Hst. unfold upsert_found in H.
  set (re := String.eqb (kd_Status d) KnowledgeStatusArchived && _) in H. set (ch := negb (text_eqb (kd_ContentHash d) _)) in H.
  destruct (dryRun || _); [by apply db_sem_ret in H as [_ ->] |]. apply try_ok in H as (u & b1 & H & [_ ->]%db_sem_ret).
  set (d1 := if re then _ else d) in H. assert (Hd1 : same_content d d1 /\ status_ok d1).
  { unfold d1. destruct re; [| done]. split; [by split | right; left; by apply reactivated_status]. }
  destruct Hd1 as [Hsame Hst1]. destruct ch.
  - eapply Save_mirrored; [exact Hm | | | exact H].
    + split; [unfold live in *; simpl; by rewrite (sa_Deleted _ _ Hsame) | exact Hst1 |]. intros _. simpl. rewrite (sa_Source _ _ Hsame). apply (se_origin d Hs). by rewrite Ho.
    + apply manual_pieces. simpl. rewrite (sa_Source _ _ Hsame). apply (se_origin d Hs). by rewrite Ho.
  - eapply ApplyScope_mirrored; [exact Hm | exact Hd | done | exact Hsame | | exact H]. unfold d1 in *. destruct re; [left; by apply reactivated_status | apply Hs].
Qed.
Lemma safe_create_tx org unit dept origin fresh ids now m : safe (create_tx nfd mark letter digit lower Hash org unit dept origin fresh ids now m).
Proof.
  apply safe_transaction. intros b a b' Hm H. apply try_ok in H as (d & b1 & H & [_ ->]%db_sem_ret). eapply Save_mirrored; [exact Hm | | | exact H]; [| done].
  split; [done | by left | done].
Qed.
Lemma safe_archive org id fresh now : safe (archive_tx org id fresh now).
Proof.
  apply safe_transaction. intros b a b' Hm (d & b1 & (-> & Hd & Hl)%Lock_ok & H)%try_ok. destruct (String.eqb (kd_Status d) _) eqn:E; simpl in H; [| by apply db_sem_ret in H as [_ ->]].
  apply try_ok in H as (u & b1 & H & [_ ->]%db_sem_ret). eapply (ApplyScope_mirrored _ _ _ d b u b1 Hm Hd Hl); [by apply archived_same | | exact H].
  right. apply String.eqb_eq in E. unfold SetArchivedState. rewrite E. done.
Qed.

(** * Requests and imports *)
Definition safe_op X (op : kn_op X) : Prop := match op with KDo m => safe m | _ => True end.
Lemma safe_op_step X (op : kn_op X) s x s' : safe_op X op -> mirrored (kn_base s) -> kn_sem X op s x s' -> mirrored (kn_base s').
Proof. destruct op; simpl; intros H Hm; try (intros ->; done); [intros (a & _ & ->); done | intros (b & Hb & ->); by eapply H]. Qed.
Lemma only_ask {A} (p : Prog A) : only safe_op (ask p).
Proof. unfold ask. apply (only_lift _ (fun X (_ : acc_op X) => True)); [done |]. induction p; simpl; auto. Qed.
Lemma only_call_bind {X B} (op : kn_op X) (f : X -> KProg B) : safe_op X op -> (forall x, only safe_op (f x)) -> only safe_op (call op ≫= f).
Proof. done. Qed.
Lemma only_call {X} (op : kn_op X) : safe_op X op -> only safe_op (call op).
Proof. done. Qed.
Ltac solve_only :=
  repeat match goal with
  | |- only _ (ask _ ≫= _) => apply only_bind; [apply only_ask | intros ?]
  | |- only _ (call (KDo _) ≫= _) => apply only_call_bind; [| intros ?]
  | |- only _ (call _ ≫= _) => apply only_call_bind; [exact I | intros ?]
  | |- only _ (mret _) => exact I
  | |- only _ (match ?x with _ => _ end) => destruct x eqn:?
  end.
Definition forget {A} (p : KProg A) : KProg unit := _ ← p; mret tt.
(** Every request on the knowledge base that changes it, and an import. *)
Inductive knowledge_request : KProg unit -> Prop :=
  | req_create c body : knowledge_request (forget (CreateKnowledgeDocument nfd mark letter digit lower Hash c body))
  | req_update c id body : knowledge_request (forget (UpdateKnowledgeDocument nfd mark letter digit lower Hash c id body))
  | req_delete c id : knowledge_request (forget (DeleteKnowledgeDocument c id))
  | req_reindex c id : knowledge_request (forget (ReindexKnowledgeDocument nfd mark letter digit lower c id))
  | req_reindex_all c stale : knowledge_request (forget (ReindexKnowledge nfd mark letter digit lower c stale))
  | req_import org unit dept files dryRun : knowledge_request (forget (ImportManuals nfd mark letter digit lower Hash org unit dept files dryRun)).
Lemma only_forget {A} (p : KProg A) : only safe_op p -> only safe_op (forget p).
Proof. intros H. by apply only_bind. Qed.
Definition anytime (s s' : KState) : Prop := True.
#[local] Instance anytime_preorder : PreOrder anytime.
Proof. by split. Qed.
Definition indexed (s : KState) : Prop := mirrored (kn_base s).
Abbreviation guarded p := (forall s, guards kn_sem anytime indexed p s (fun _ _ => True)).
Lemma guarded_only {A} (p : KProg A) : only safe_op p -> guarded p.
Proof.
  intros H s. eapply (guards_only kn_sem anytime indexed safe_op); [| exact H | done]. intros X op s1 x s2 Hop Hm Hs. split; [done |]. by eapply safe_op_step.
Qed.
Lemma guarded_create c body : guarded (CreateKnowledgeDocument nfd mark letter digit lower Hash c body).
Proof.
  intros s. unfold CreateKnowledgeDocument. apply guards_bind. eapply (guards_only kn_sem anytime indexed safe_op); [| apply only_ask |].
  { intros X op s1 x s2 Hop Hm Hs. split; [done |]. by eapply safe_op_step. }
  intros [[org user] | e] s' _; [| done]. destruct body as [req |]; [| done]. intros s1 x s2 _ Hm (b & (fs & fs' & H) & ->). unfold mbind, db_bind in H.
  destruct (validateKnowledgeRequest org req true (World (kn_base s1) fs)) as [v [b1 fs1]] eqn:E. apply validate_reads in E as [E Hv]. simpl in E. subst b1.
  injection H as <- <- _. split_and!; [done | done |]. destruct v as [msg | req']; [done |]. apply guarded_only. change (known_status (dr_Status req') = true) in Hv.
  apply only_call_bind; [exact I | intros id]. apply only_call_bind; [exact I | intros ids]. apply only_call_bind; [exact I | intros now].
  apply only_call_bind; [by apply safe_create | intros r]. solve_only.
Qed.
Lemma only_update c id body : only safe_op (UpdateKnowledgeDocument nfd mark letter digit lower Hash c id body).
Proof. unfold UpdateKnowledgeDocument. solve_only. apply safe_update. Qed.
Lemma only_delete c id : only safe_op (DeleteKnowledgeDocument c id).
Proof. unfold DeleteKnowledgeDocument. solve_only. apply safe_delete. Qed.
Lemma only_reindex c id : only safe_op (ReindexKnowledgeDocument nfd mark letter digit lower c id).
Proof. unfold ReindexKnowledgeDocument. solve_only. apply safe_reindex. Qed.
Lemma only_reindex_docs org stale l d n k : only safe_op (reindex_docs nfd mark letter digit lower org stale l d n k).
Proof.
  revert d n k. induction l as [| id l IH]; intros d n k; cbn [reindex_docs]; [exact I |]. apply only_call_bind; [exact I | intros ids].
  apply only_call_bind; [apply safe_reindex_tx | intros r]. repeat case_match; try exact I; apply IH.
Qed.
Lemma only_reindex_all c stale : only safe_op (ReindexKnowledge nfd mark letter digit lower c stale).
Proof.
  unfold ReindexKnowledge, ReindexOrg. solve_only. apply only_bind; [| intros; solve_only]. apply only_call_bind; [apply safe_lookup | intros l].
  destruct l as [l |]; [| exact I]. apply only_bind; [apply only_reindex_docs | intros r]. solve_only; apply safe_lookup.
Qed.
Lemma origin_of_nonempty file m : origin_of file m <> [].
Proof. done. Qed.
Lemma only_upsert org unit dept origin m dryRun : origin <> [] -> only safe_op (upsertByOrigin nfd mark letter digit lower Hash org unit dept origin m dryRun).
Proof.
  intros Hne. assert (H : only safe_op (upsertOnce nfd mark letter digit lower Hash org unit dept origin m dryRun)).
  { unfold upsertOnce. do 3 (apply only_call_bind; [exact I | intros ?]). apply only_call_bind; [by apply safe_find | intros r]. repeat case_match; try exact I. apply only_call, safe_create_tx. }
  unfold upsertByOrigin. apply only_bind; [exact H |]. intros r. destruct (isUniqueViolation r); [exact H | exact I].
Qed.
Lemma only_archive org seen dryRun l archived : only safe_op (archive_docs org seen dryRun l archived).
Proof.
  revert archived. induction l as [| d l IH]; intros archived; cbn [archive_docs]; [exact I |]. destruct (existsb _ seen); [apply IH |]. destruct dryRun; [apply IH |].
  do 2 (apply only_call_bind; [exact I | intros ?]). apply only_call_bind; [apply safe_archive | intros r]. repeat case_match; try exact I; apply IH.
Qed.
Lemma only_import_docs org unit dept file dryRun l res : only safe_op (import_docs nfd mark letter digit lower Hash org unit dept file dryRun l res).
Proof.
  revert res. induction l as [| m l IH]; intros res; cbn [import_docs]; [exact I |]. apply only_bind; [by apply only_upsert |]. intros [a |]; [apply IH | exact I].
Qed.
Lemma only_import_files org unit dept dryRun files res : only safe_op (import_files nfd mark letter digit lower Hash org unit dept dryRun files res).
Proof.
  revert res. induction files as [| [file docs] files IH]; intros res; cbn [import_files]; [exact I |]. destruct docs as [[| m l] |]; [apply IH | | apply IH].
  apply only_bind; [apply only_import_docs |]. intros [r |]; [| exact I]. apply only_bind; [| intros [a |]; [apply IH | exact I]].
  unfold archiveOrphans. apply only_call_bind; [apply safe_lookup |]. intros [l' |]; [apply only_archive | exact I].
Qed.
Lemma guarded_request p : knowledge_request p -> guarded p.
Proof.
  intros []; [intros s; apply guards_bind; apply (guards_mono kn_sem anytime indexed _ s (fun _ _ => True)); [done | apply guarded_create] | apply guarded_only, only_forget..].
  - apply only_update.
  - apply only_delete.
  - apply only_reindex.
  - apply only_reindex_all.
  - unfold ImportManuals. destruct files; [exact I | apply only_import_files].
Qed.

Lemma pool_keeps s (ps : list (KProg unit)) s' ps' : indexed s -> Forall (fun p => guarded p) ps -> pool_steps kn_sem (s, ps) (s', ps') -> indexed s'.
Proof. intros Hm Hps Hsteps. by destruct (guards_sound kn_sem anytime indexed _ _ Hsteps Hm) as [_ H]; [eapply Forall_impl; [exact Hps |]; intros p Hp; apply Hp |]. Qed.

(** C31: the search index says what the documents say. However creations, edits, removals,
    reindexings and imports of knowledge documents are interleaved, wherever a statement fails,
    perhaps having been applied, and wherever a process stops, every live document has exactly
    the pieces of its own title and text, each with the document's organization, scope and
    status, and no piece is left of a document that is gone. *)
Theorem index_mirrors_documents s ps s' ps' :
  mirrored (kn_base s) -> Forall knowledge_request ps -> pool_steps kn_sem (s, ps) (s', ps') -> mirrored (kn_base s').
Proof.
  intros Hm Hps Hsteps. eapply pool_keeps; [exact Hm | | exact Hsteps]. eapply Forall_impl; [exact Hps |]. intros p Hp. by apply guarded_request.
Qed.
End Index.
