(* ===== verification/Briefing.v ===== *)
(** What a prompt is told from the knowledge base, and what a search answers
    ([internal/knowledge/assemble.go], [lexical.go], [internal/handlers/chatbot_knowledge.go]):
    only what is shared with the contact or the user, and no more than the budget. *)
From S2P Require Import Prelude Effects Sql GoText Accounts AccountsApi Permissions Runes Chunking SearchText Markdown Knowledge KnowledgeApi KnowledgeIndex Retrieval.

(** * The budget of a block *)
Definition used (l : list (Hit * text)) : Z := foldr (fun e n => rune_count (snd e) + n) 0 l.
Lemma used_app l m : used (l ++ m) = used l + used m.
Proof. induction l as [| e l IH]; [done |]. simpl. rewrite IH. lia. Qed.
(** What is shown of a hit: its text, or a beginning of it that ends between two words or at
    the last character there is room for. *)
Definition excerpt_of (e : Hit * text) : Prop :=
  let content := trim (ht_Content (fst e)) in
  content <> [] /\ (snd e = content \/ exists k, (k < length content)%nat /\ snd e = trim (take k content) ++ [ellipsis]).
Lemma cutAtWord_short s n : (length (cutAtWord s n) <= n)%nat.
Proof.
  unfold cutAtWord. destruct (length s <=? n)%nat eqn:E; [by apply Nat.leb_le |]. etrans; [apply trim_length |]. etrans; [rewrite length_take; apply Nat.le_min_l |].
  destruct (last_such _ _ _) as [i |] eqn:El; simpl; [apply last_such_some in El; lia | lia].
Qed.
Lemma cutAtWord_take s n : (n < length s)%nat -> exists k, (k < length s)%nat /\ cutAtWord s n = trim (take k s).
Proof.
  intros H. unfold cutAtWord. replace (length s <=? n)%nat with false by (symmetry; apply Nat.leb_gt; lia). eexists. split; [| reflexivity].
  destruct (last_such _ _ _) as [i |] eqn:El; simpl; [apply last_such_some in El; lia | lia].
Qed.
Definition frugal (l : list (Hit * text)) : Prop :=
  (length l <= MaxChunks)%nat /\ (forall id, (length (List.filter (of_document id) l) <= MaxPerDoc)%nat) /\ used l <= MaxChars + 1 /\ Forall excerpt_of l.
Lemma frugal_snoc l h t :
  frugal l -> (length l < MaxChunks)%nat -> (length (List.filter (of_document (ht_DocumentID h)) l) < MaxPerDoc)%nat ->
  used l + rune_count t <= MaxChars + 1 -> excerpt_of (h, t) -> frugal (l ++ [(h, t)]).
Proof.
  intros (H1 & H2 & H3 & H4) Hl Hd Hu He. unfold frugal. rewrite length_app, used_app. simpl. split_and!; [lia | | lia | apply Forall_app; by split; [| apply Forall_singleton]].
  intros id. rewrite List.filter_app, length_app. simpl. destruct (of_document id (h, t)) eqn:E; [| specialize (H2 id); simpl; lia].
  apply N.eqb_eq in E. simpl in E. subst id. simpl. lia.
Qed.
Lemma pick_spec hits l r :
  frugal l -> r = MaxChars - used l ->
  frugal (pick hits l r) /\ exists extra, pick hits l r = l ++ extra /\ map fst extra `sublist_of` hits.
Proof.
  revert l r. induction hits as [| h hits IH]; intros l r Hl Hr; cbn [pick]; [split; [done | exists []; by rewrite app_nil_r] |].
  assert (Hstop : frugal l /\ exists extra, l = l ++ extra /\ map fst extra `sublist_of` h :: hits).
  { split; [done |]. exists []. rewrite app_nil_r. split; [done | apply sublist_nil_l]. }
  destruct ((MaxChunks <=? length l)%nat || (r <=? 0)) eqn:E1; [exact Hstop |]. apply orb_false_iff in E1 as [E1%Nat.leb_gt E2%Z.leb_gt].
  destruct (negb (nonempty (trim (ht_Content h))) || _) eqn:E3.
  { destruct (IH l r Hl Hr) as [H (extra & He & Hs)]. split; [done |]. exists extra. split; [done | by apply sublist_cons]. }
  apply orb_false_iff in E3 as [E3%negb_false_iff%nonempty_true E4%Nat.leb_gt].
  assert (Hgo : forall t, excerpt_of (h, t) -> rune_count t <= r + 1 ->
    frugal (pick hits (l ++ [(h, t)]) (r - rune_count t)) /\ exists extra, pick hits (l ++ [(h, t)]) (r - rune_count t) = l ++ extra /\ map fst extra `sublist_of` h :: hits).
  { intros t Ht Hlen. destruct (IH (l ++ [(h, t)]) (r - rune_count t)) as [H (extra & He & Hs)].
    - apply frugal_snoc; try done. lia.
    - rewrite used_app. simpl. lia.
    - split; [done |]. exists ((h, t) :: extra). rewrite He, <- app_assoc. split; [done | by apply sublist_skip]. }
  destruct (r <? rune_count _) eqn:E5.
  - destruct (r <? minTailChar); [exact Hstop |]. apply Z.ltb_lt in E5. unfold rune_count in E5. apply Hgo.
    + split; [done |]. right. destruct (cutAtWord_take (trim (ht_Content h)) (Z.to_nat r)) as (k & Hk & Hc); [lia |]. exists k. simpl. by rewrite Hc.
    + unfold rune_count. rewrite length_app. pose proof (cutAtWord_short (trim (ht_Content h)) (Z.to_nat r)). simpl. lia.
  - apply Z.ltb_ge in E5. apply Hgo; [by split; [| left] | lia].
Qed.
Lemma frugal_nil : frugal [].
Proof. split_and!; [simpl; lia | intros id; simpl; lia | done | constructor]. Qed.

(** Whatever the search finds, the reference material of a prompt keeps to its budget: at
    most four excerpts, in the order they were found, at most two of one document, each the
    text of its hit or a beginning of it followed by an ellipsis, and 3001 characters of them
    together (one more than [MaxChars]: the ellipsis is not counted when the last one is cut). *)
Theorem prompt_within_budget hits :
  let taken := pick hits [] MaxChars in
  map fst taken `sublist_of` hits /\ (length taken <= MaxChunks)%nat /\
  (forall id, (length (List.filter (of_document id) taken) <= MaxPerDoc)%nat) /\
  used taken <= MaxChars + 1 /\ Forall excerpt_of taken /\
  bl_Sources (block_of taken) = map source_of taken.
Proof.
  intros taken. destruct (pick_spec hits [] MaxChars frugal_nil eq_refl) as [(H1 & H2 & H3 & H4) (extra & He & Hs)]. simpl in He.
  split_and!; [by rewrite <- He in Hs | done.. | by destruct taken].
Qed.
Definition long_hit (id : uuid) (n : nat) : Hit := MkHit id id (lit "Manual") [] (repeat 97 n) 1 "markdown" [] [].
Example budget_exceeded_by_one : used (pick [long_hit 1 2000; long_hit 2 1500] [] MaxChars) = 3001.
Proof. vm_compute. reflexivity. Qed.

(** * What is shared *)
(** For everybody, or for the very unit and department of the reader. *)
Definition meant_for (unit dept : option uuid) (d : KnowledgeDocument) : Prop :=
  (kd_UnitID d = None \/ kd_UnitID d = unit) /\ (kd_DepartmentID d = None \/ kd_DepartmentID d = dept).
Lemma null_or_spec a b : null_or a b = true -> a = None \/ a = b.
Proof. destruct a as [x |]; [| by left]. destruct b as [y |]; [| done]. intros ->%N.eqb_eq. by right. Qed.
(** The hit is a piece of a live, active document of the organization that a reader of the unit
    and department may be told. *)
Definition shared (b : KBase) (org : uuid) (unit dept : option uuid) (h : Hit) : Prop :=
  exists d p, d ∈ kb_docs b /\ live d = true /\ kd_ID d = ht_DocumentID h /\ kd_OrganizationID d = org /\ kd_Status d = KnowledgeStatusActive /\
    meant_for unit dept d /\ ht_Title h = kd_Title d /\ ht_Origin h = kd_Origin d /\
    p ∈ doc_pieces d /\ ht_Heading h = pc_Heading p /\ ht_Content h = pc_Content p.

Section Answers.
Context (nfd : text -> text) (mark letter digit : Z -> bool) (lower : Z -> Z) (Hash : text -> text -> text).
Context (ts_match : text -> KnowledgeChunk -> bool) (ts_rank : text -> KnowledgeChunk -> Z).
Abbreviation mirrored := (mirrored Hash).
Abbreviation Search := (Search nfd mark letter digit lower ts_match ts_rank).
Abbreviation Retrieve := (Retrieve nfd mark letter digit lower ts_match ts_rank).
Abbreviation run_query := (run_query ts_match ts_rank).

Lemma joined_in b c d : (c, d) ∈ joined b -> c ∈ kb_chunks b /\ d ∈ kb_docs b /\ live d = true /\ of_doc (kd_ID d) c = true.
Proof.
  intros (e & H & He)%list_elem_of_bind. apply list_elem_of_fmap in H as (q & [= <- <-] & Hq). apply list_elem_of_In, filter_In in Hq as [Hq [H1%N.eqb_eq H2]%andb_prop].
  split_and!; [done | by apply list_elem_of_In | done | by apply N.eqb_eq].
Qed.
Lemma piece_of b c d : mirrored b -> c ∈ kb_chunks b -> d ∈ kb_docs b -> live d = true -> of_doc (kd_ID d) c = true ->
  exists p, p ∈ doc_pieces d /\ kc_Heading c = pc_Heading p /\ kc_Content c = pc_Content p.
Proof.
  intros Hm Hc Hd Hl Ho. assert (H : content_of c ∈ map content_of (chunks_of (kd_ID d) b)).
  { apply list_elem_of_fmap. exists c. split; [done |]. apply list_elem_of_In, filter_In. split; [by apply list_elem_of_In | done]. }
  rewrite (mi_content Hash b Hm d Hd Hl) in H. apply list_elem_of_fmap in H as (p & [= _ E1 E2] & Hp). by exists p.
Qed.
Lemma hits_shared t q b l : mirrored b -> lexicalSQL ts_match ts_rank t q b = Ok l -> Forall (shared b (q_OrgID q) (q_UnitID q) (q_DepartmentID q)) l.
Proof.
  intros Hm [= <-]. apply Forall_forall. intros h ([c d] & -> & Hx)%list_elem_of_fmap.
  apply subseteq_take, sorted_in, list_elem_of_In, filter_In in Hx as [Hx%list_elem_of_In Hk]. simpl in Hk.
  apply joined_in in Hx as (Hc & Hd & Hl & Ho). apply andb_prop in Hk as [Hk _]. apply andb_prop in Hk as [Hk H4]. apply andb_prop in Hk as [Hk H3].
  apply andb_prop in Hk as [H1%N.eqb_eq H2%String.eqb_eq]. pose proof (mi_scope Hash b Hm d c Hd Hl Hc Ho) as Hs. unfold scope_of, doc_scope in Hs. injection Hs as E1 E2 E3 _ E5.
  destruct (piece_of b c d Hm Hc Hd Hl Ho) as (p & Hp & Ep1 & Ep2). exists d, p. apply null_or_spec in H3, H4. rewrite E2 in H3. rewrite E3 in H4.
  apply N.eqb_eq in Ho. split_and!; congruence || done.
Qed.

(** ** Retrieval *)
Section Seen.
(** The states of the knowledge base that statements see while the answer is composed. *)
Context (Seen : KBase -> Prop).
Definition sees X (op : kn_op X) : X -> Prop :=
  match op in kn_op X return X -> Prop with KDo m => fun x => exists b b', Seen b /\ mirrored b /\ db_sem m b x b' | _ => fun _ => True end.
Definition known (org : uuid) (unit dept : option uuid) (h : Hit) : Prop := exists b, Seen b /\ shared b org unit dept h.
Abbreviation any := (fun X (_ : kn_op X) (_ : list (Effects.event kn_op)) => True).
Abbreviation composes p g R := (extends any sees p g R).
Definition all_known (q : Query) (r : KRes (list Hit)) : Prop := match r with Ok l => Forall (known (q_OrgID q) (q_UnitID q) (q_DepartmentID q)) l | Err _ => True end.
Lemma run_known q t g : composes (run_query q t) g (fun r _ => all_known q r).
Proof.
  apply extends_call_end; [done |]. intros r (b & b' & Hb & Hm & [-> [-> | ->]]%db_sem_query); [| done]. simpl.
  eapply Forall_impl; [by apply (hits_shared t q b) |]. intros h Hh. by exists b.
Qed.
Lemma Retrieve_known q g : composes (Retrieve q) g (fun r _ => all_known q r).
Proof.
  unfold Retrieval.Retrieve. destruct (q_Relaxed q).
  - unfold relaxedRetrieve. destruct (PlainTerms _ _ _ _ _ (q_Text q)) as [| a l]; [apply extends_ret; constructor |].
    eapply extends_bind; [apply run_known |]. intros [hits | e] g1 _ Hhits; [| by apply extends_ret]. destruct (_ || _); [by apply extends_ret |].
    eapply extends_bind; [apply run_known |]. intros [more | e] g2 _ Hmore; [| by apply extends_ret]. apply extends_ret. simpl in *.
    assert (H : Forall (known (q_OrgID q) (q_UnitID q) (q_DepartmentID q)) (hits ++ sorted (fun x y => ht_Score y <? ht_Score x) (List.filter (unseen hits) more))).
    { apply Forall_app. split; [done |]. apply Forall_forall. intros h [Hh _]%sorted_in%list_elem_of_In%filter_In. eapply Forall_forall; [exact Hmore | by apply list_elem_of_In]. }
    destruct (_ && _); [| exact H]. apply Forall_take, H.
  - destruct (SearchForm _ _ _ _ _ (q_Text q)); [apply extends_ret; constructor | apply run_known].
Qed.
Lemma Search_known q g : composes (Search q) g (fun r _ => match r with Some r => all_known q r | None => True end).
Proof.
  unfold Retrieval.Search. destruct (trim (q_Text q)); [by apply extends_ret |]. eapply extends_bind; [apply Retrieve_known |].
  intros r g1 _ Hr. by apply extends_ret.
Qed.

Definition told (org : uuid) (unit dept : option uuid) (block : Block) : Prop :=
  exists taken, block = block_of taken /\ Forall excerpt_of taken /\ Forall (known org unit dept) (map fst taken).
Lemma told_nothing org unit dept : told org unit dept empty_block.
Proof. exists []. split_and!; [done | constructor | constructor]. Qed.
Lemma told_hits org unit dept hits : Forall (known org unit dept) hits -> told org unit dept (block_of (pick hits [] MaxChars)).
Proof.
  intros H. destruct (pick_spec hits [] MaxChars frugal_nil eq_refl) as [(_ & _ & _ & He) (extra & E & Hs)]. exists (pick hits [] MaxChars). split_and!; [done | done |].
  simpl in E. rewrite E. apply Forall_forall. intros h Hh. eapply Forall_forall; [exact H |]. by apply (sublist_subseteq _ _ Hs).
Qed.
Lemma Assemble_told q g :
  composes (Assemble nfd mark letter digit lower ts_match ts_rank q) g (fun r _ => match r with Ok b => told (q_OrgID q) (q_UnitID q) (q_DepartmentID q) b | Err _ => True end).
Proof.
  unfold Assemble. eapply extends_bind; [apply Search_known |]. intros r g1 _ Hr. apply extends_ret. destruct r as [[hits | e] |]; [by apply told_hits | done | apply told_nothing].
Qed.

(** C32: a chatbot tells a customer only what is shared with them. Whatever states of the base
    the statements see, each consistent ([mirrored]), and whatever of them fails, every excerpt
    in the prompt is of a piece of a live, active document of the organization, under its
    title, that the contact's unit and department may be told; when the contact cannot be read,
    or there is no session, only what is for everybody. *)
Theorem customers_told_what_is_shared org session message :
  ensures (fun _ _ _ => True) (trace_contract sees) (buildKnowledgeBlock nfd mark letter digit lower ts_match ts_rank org session message) []
    (fun block trace => exists scope, told org (fst scope) (snd scope) block /\
       (scope = (None, None) \/ exists sid contact, session = Some (sid, contact) /\ Effects.Ev (KContact contact org) (Ok scope) ∈ trace)).
Proof.
  eapply ensures_mono; [| eapply (extends_bind (fun _ _ _ => True) sees) with (P := fun a g => fst a = (None, None) \/ exists sid contact, session = Some (sid, contact) /\ Effects.Ev (KContact contact org) (Ok (fst a)) ∈ g)].
  - intros block trace [_ H]. exact H.
  - destruct session as [[sid contact] |]; [| apply extends_ret; by left]. apply extends_call; [done |]. intros c _. eapply extends_bind; [by apply (extends_only _ _ (fun _ _ => True)) |].
    intros previous g1 Hg _. apply extends_ret. destruct c as [s |]; [| by left]. right. exists sid, contact. split; [done |]. eapply later_in; [exact Hg | by left].
  - intros [[unit dept] previous] g1 _ Hscope. eapply extends_bind; [apply Assemble_told |]. intros r g2 Hg2 Hr. apply extends_ret. exists (unit, dept). split.
    + destruct r as [b |]; [exact Hr | apply told_nothing].
    + destruct Hscope as [E | (sid & contact & E & H)]; [by left |]. right. exists sid, contact. split; [done |]. by eapply later_in.
Qed.
End Seen.

(** * Staff *)
(** What they are answered is of documents they may read: hits of active ones of their unit and
    department, a document, the chunks of one. *)
Definition readable (b : KBase) (org : uuid) (acc : knowledgeAccess) (d : KnowledgeDocument) : Prop :=
  d ∈ kb_docs b /\ live d = true /\ kd_OrganizationID d = org /\
  (ka_Admin acc = true \/ (meant_for (ka_Unit acc) (ka_Dept acc) d /\ kd_Status d = KnowledgeStatusActive)).
Lemma restrict_spec acc d : restrict acc d = true -> ka_Admin acc = true \/ (meant_for (ka_Unit acc) (ka_Dept acc) d /\ kd_Status d = KnowledgeStatusActive).
Proof.
  unfold restrict. destruct (ka_Admin acc); [by left |]. intros [[H1%null_or_spec H2%null_or_spec]%andb_prop H3%String.eqb_eq]%andb_prop. right. by split.
Qed.
Definition reveals (b : KBase) (org : uuid) (acc : knowledgeAccess) (r : search_reply) : Prop :=
  match r with
  | SRefused _ => True
  | SHits l => Forall (shared b org (ka_Unit acc) (ka_Dept acc)) l
  | SDocument d => readable b org acc d
  | SChunks l => exists d, readable b org acc d /\ forall c, c ∈ l -> c ∈ kb_chunks b /\ scope_of c = doc_scope d /\ of_doc (kd_ID d) c = true
  end.
Inductive staff_read (c : Ctx) (params : option (option uuid * option uuid)) : KProg search_reply -> Prop :=
  | read_search q limit : staff_read c params (SearchKnowledge nfd mark letter digit lower ts_match ts_rank c params q limit)
  | read_document id : staff_read c params (GetKnowledgeDocument c params id)
  | read_chunks id : staff_read c params (ListKnowledgeChunks c params id).
Definition reads X (op : kn_op X) : Prop := match op with KDo m => keeps eq m | _ => True end.
Lemma reads_step X (op : kn_op X) s x s' : reads X op -> kn_sem X op s x s' -> kn_base s' = kn_base s.
Proof. destruct op; simpl; intros H; try (by intros ->); [by intros (a & _ & ->) | intros (b & Hb & ->); simpl; symmetry; by eapply keeps_sem]. Qed.
Lemma reads_sees b X (op : kn_op X) s x s' : reads X op -> kn_base s = b /\ mirrored b -> kn_sem X op s x s' -> sees (eq b) X op x /\ (kn_base s' = b /\ mirrored b).
Proof.
  intros Hr [Hb Hm] Hs. split; [| split; [by rewrite <- Hb; eapply reads_step | done]]. destruct op; try done. simpl in *. destruct Hs as (b' & Hs & _). exists b, b'. by rewrite Hb in Hs.
Qed.
Lemma reads_ask {A} (p : Prog A) : only reads (ask p).
Proof. unfold ask. apply (only_lift _ (fun X (_ : acc_op X) => True)); [done |]. induction p; simpl; auto. Qed.
Lemma reads_query {A} (f : KBase -> KRes A) : only reads (call (KDo (query f))).
Proof. split; [apply keeps_query, _ | done]. Qed.
Lemma reads_search q : only reads (Search q).
Proof.
  unfold Retrieval.Search. destruct (trim _); [done |]. apply only_bind; [| done]. unfold Retrieval.Retrieve. destruct (q_Relaxed _).
  - unfold relaxedRetrieve. destruct (PlainTerms _ _ _ _ _ _); [done |]. apply only_bind; [apply reads_query |]. intros [hits |]; [| done]. destruct (_ || _); [done |].
    apply only_bind; [apply reads_query |]. by intros [more |].
  - destruct (SearchForm _ _ _ _ _ _); [done | apply reads_query].
Qed.
Definition same_base (s s' : KState) : Prop := kn_base s' = kn_base s.
#[local] Instance same_base_preorder : PreOrder same_base.
Proof. unfold same_base. split; [done |]. intros s1 s2 s3 H1 H2. by rewrite H2. Qed.
Lemma reads_run {A} (p : KProg A) s a s' : only reads p -> runs kn_sem p s a s' -> kn_base s' = kn_base s.
Proof. intros Hp H. eapply (runs_relation kn_sem same_base reads); [| exact Hp | exact H]. intros. by eapply reads_step. Qed.
Lemma Search_runs s q hits s' : mirrored (kn_base s) -> runs kn_sem (Search q) s (Some (Ok hits)) s' ->
  kn_base s' = kn_base s /\ Forall (shared (kn_base s) (q_OrgID q) (q_UnitID q) (q_DepartmentID q)) hits.
Proof.
  intros Hm H. destruct (ensures_runs _ _ kn_sem (fun s' => kn_base s' = kn_base s /\ mirrored (kn_base s)) reads _ _ _ _ _ _ (reads_sees (kn_base s))
    (reads_search q) (Search_known (eq (kn_base s)) q []) (conj eq_refl Hm) H) as [[Hb _] (g & _ & Hk)].
  split; [done |]. eapply Forall_impl; [exact Hk |]. intros h (b & <- & Hh). exact Hh.
Qed.
Lemma first_doc_run p s r s' : runs kn_sem (call (KDo (query (first_doc p)))) s r s' ->
  kn_base s' = kn_base s /\ forall d, r = Ok d -> d ∈ kb_docs (kn_base s) /\ live d = true /\ p d = true.
Proof.
  intros (x & s1 & (b & [-> Hx]%db_sem_query & ->) & -> & ->). split; [done |]. intros d ->. destruct Hx as [Hx | Hx]; [| done]. by apply first_doc_in.
Qed.

(** What [resolveKnowledgeAccess] lets through, when it had [before] to look at. *)
Definition entitled (before : KState) (org user : uuid) (params : option (option uuid * option uuid)) (acc : knowledgeAccess) : Prop :=
  exists s, runs kn_sem (ask (knowledgeCapabilities user org)) before (ka_Admin acc, ka_Chooses acc) s /\
    if ka_Chooses acc then params = Some (ka_Unit acc, ka_Dept acc)
    else exists u, user_by_id user (st_acc (kn_acc s)) = Ok u /\ ka_Unit acc = us_UnitID u /\ ka_Dept acc = us_DepartmentID u.
Lemma resolve_entitled org user params s acc s' :
  runs kn_sem (resolveKnowledgeAccess org user params) s (inl acc) s' -> kn_base s' = kn_base s /\ entitled s org user params acc.
Proof.
  intros H. split; [eapply reads_run; [| exact H] |].
  - unfold resolveKnowledgeAccess. apply only_bind; [apply reads_ask |]. intros [admin chooses]. destruct params as [[unit dept] |]; [| done]. destruct chooses.
    + split; [| intros x; destruct x as [[] |]; done]. apply keeps_bind; [apply _ | apply reads_targets | intros ok; apply keeps_ret, _].
    + apply only_bind; [apply reads_ask |]. intros [u |]; [| done]. by destruct (_ || _).
  - unfold resolveKnowledgeAccess in H. apply runs_bind in H as ([admin chooses] & s1 & Hcap & H). destruct params as [[unit dept] |]; [| by destruct H]. destruct chooses.
    + destruct H as (ok & s2 & _ & H & _). destruct ok as [[] |]; try discriminate. injection H as <-. by exists s1.
    + apply runs_bind in H as (u & s2 & Hu & H). destruct u as [u |]; [| by destruct H]. destruct (_ || _); [by destruct H |]. destruct H as [[= <-] _].
      exists s1. split; [exact Hcap |]. exists u. destruct Hu as (x & s3 & (a & [-> Hx] & ->) & -> & ->). destruct Hx as [Hx | Hx]; [| done]. by rewrite Hx.
Qed.
(** Somebody [requireAuth] let in, and what they may read. *)
Definition admitted (s : KState) (c : Ctx) params (org : uuid) (acc : knowledgeAccess) : Prop :=
  exists user s1, runs kn_sem (ask (requireAuth c ResourceKnowledge ActionRead)) s (inl (org, user)) s1 /\ entitled s1 org user params acc.
Lemma findReadable_runs c params id s d s' :
  runs kn_sem (findReadableKnowledgeDocument c params id) s (inl d) s' ->
  kn_base s' = kn_base s /\ exists org acc, admitted s c params org acc /\ readable (kn_base s) org acc d.
Proof.
  intros (who & s1 & Hw & H)%runs_bind. pose proof (reads_run _ _ _ _ (reads_ask _) Hw) as Hb1. destruct who as [[org user] | e]; [| by destruct H].
  apply runs_bind in H as (acc & s2 & Ha & H). destruct acc as [acc | e]; [| by destruct H]. apply resolve_entitled in Ha as [Hb2 Ha]. destruct id as [id |]; [| by destruct H].
  apply runs_bind in H as (r & s3 & Hr & H). apply first_doc_run in Hr as [Hb3 Hr]. destruct r as [d' |]; [| by destruct H]. destruct H as [[= <-] <-].
  split; [congruence |]. exists org, acc. split; [by exists user, s1 |]. rewrite Hb2, Hb1 in Hr. destruct (Hr _ eq_refl) as (H1 & H2 & [[H3%restrict_spec _]%andb_prop H4%N.eqb_eq]%andb_prop). done.
Qed.

(** Staff read what they are entitled to. When a search, a document or its chunks are
    answered, the caller was let in with the permission to read the knowledge base of that
    organization, and everything answered is of live documents of it: all of them only for who
    may write them; else active ones for everybody or for the very unit and department that
    the caller's account has, or that they chose having the permission to choose. *)
Theorem staff_read_their_scope c params p s r s' :
  mirrored (kn_base s) -> staff_read c params p -> runs kn_sem p s r s' -> (forall e, r <> SRefused e) ->
  exists org acc, admitted s c params org acc /\ reveals (kn_base s) org acc r.
Proof.
  intros Hm Hp H Hne. destruct Hp as [q limit | id | id].
  - apply runs_bind in H as (who & s1 & Hw & H). pose proof (reads_run _ _ _ _ (reads_ask _) Hw) as Hb1. destruct who as [[org user] | e]; [| destruct H as [<- _]; by destruct (Hne (refusal e))].
    apply runs_bind in H as (acc & s2 & Ha & H). destruct acc as [acc | e]; [| destruct H as [<- _]; by destruct (Hne e)]. apply resolve_entitled in Ha as [Hb2 Ha].
    apply runs_bind in H as (hits & s3 & Hs & H). destruct hits as [[hits | e] |]; destruct H as [<- _]; [| by edestruct Hne..].
    apply Search_runs in Hs as [_ Hs]; [| by rewrite Hb2, Hb1]. exists org, acc. rewrite Hb2, Hb1 in Hs. by split; [exists user, s1 |].
  - apply runs_bind in H as (d & s1 & Hd & H). destruct d as [d | e]; destruct H as [<- _]; [| by edestruct Hne]. by apply findReadable_runs in Hd as [_ Hd].
  - apply runs_bind in H as (d & s1 & Hd & H). destruct d as [d | e]; [| destruct H as [<- _]; by destruct (Hne e)]. apply findReadable_runs in Hd as [Hb (org & acc & Ha & Hr)].
    destruct H as (l & s2 & (b & [-> Hl]%db_sem_query & ->) & H). destruct l as [l |]; destruct H as [<- _]; [| by edestruct Hne]. exists org, acc. split; [done |].
    exists d. split; [done |]. destruct Hl as [[= ->] | Hl]; [| done]. intros x Hx%sorted_in%list_elem_of_In%filter_In. destruct Hx as [Hx%list_elem_of_In Ho]. rewrite Hb in Hx.
    split_and!; [done | | done]. eapply (mi_scope Hash); [exact Hm | apply Hr | apply Hr | done | done].
Qed.
End Answers.
