(* ===== verification/KnowledgeRuns.v ===== *)
(** Concrete runs of the knowledge base: the witnesses of [KnowledgeIndex] and [Briefing]. *)
From S2P Require Import Prelude Effects Sql GoText GoAny Permissions Accounts Migration Access AccountsApi Tenancy Runes Chunking SearchText Markdown Knowledge KnowledgeApi KnowledgeIndex Retrieval Briefing.
From Stdlib Require Import Ascii.

(** * Operations that compute *)
(** ASCII: nothing to decompose, and letters with their lower cases. *)
Definition ascii_lower (c : Z) : Z := if (65 <=? c) && (c <=? 90) then c + 32 else c.
Definition ascii_letter (c : Z) : bool := (97 <=? ascii_lower c) && (ascii_lower c <=? 122).
Definition ascii_digit (c : Z) : bool := (48 <=? c) && (c <=? 57).
Definition same_text (t : text) : text := t.
Definition no_mark (c : Z) : bool := false.
Definition paired (a b : text) : text := a ++ b.
(** A chunk matches when it has every word of the query. *)
Definition has_words (t : text) (c : KnowledgeChunk) : bool := forallb (fun w => existsb (text_eqb w) (fields (kc_SearchHeading c ++ blank_rune :: kc_SearchText c))) (fields t).
Definition no_rank (t : text) (c : KnowledgeChunk) : Z := 0.
Definition next_doc (b : KBase) : positive := N.succ_pos (foldr N.max 0%N (map kd_ID (kb_docs b))).
Definition next_chunk (b : KBase) : uuid := (1 + foldr N.max 0 (map kc_ID (kb_chunks b)))%N.
Section Handle.
Context (contact_scope : uuid -> option uuid * option uuid).
Definition kn_handle X (op : kn_op X) : KState -> X * KState :=
  match op in kn_op X return KState -> X * KState with
  | KAsk op => fun s => let '(x, a) := acc_handle nobody _ op (kn_acc s) in (x, MkKState a (kn_base s))
  | KDo m => fun s => let '(x, w) := m (World (kn_base s) []) in (x, MkKState (kn_acc s) (w_data w))
  | KID => fun s => (next_doc (kn_base s), s)
  | KIDs => fun s => (fun i => (next_chunk (kn_base s) + N.of_nat i)%N, s)
  | KNow => fun s => (1000, s)
  | KAudit _ _ _ _ => fun s => (tt, s)
  | KContact id _ => fun s => (Ok (contact_scope id), s)
  | KMessages _ => fun s => (Ok [], s)
  | KEnabled _ => fun s => (true, s)
  end.
Lemma kn_handle_sem X (op : kn_op X) s : kn_sem X op s (fst (kn_handle X op s)) (snd (kn_handle X op s)).
Proof.
  destruct op; simpl; try done.
  - pose proof (acc_handle_sem nobody _ op (kn_acc s)) as H. destruct (acc_handle nobody _ op (kn_acc s)) as [x a]. by exists a.
  - destruct (m (World (kn_base s) [])) as [x [b fs]] eqn:E. exists b. split; [by exists [], fs | done].
Qed.
End Handle.

(** * An office that writes an article for unit 7 *)
Definition office_base : KBase := MkBase [] [] [MkUnit 7 1 false; MkUnit 8 1 false] [].
Definition office_kb : KState := MkKState office office_base.
Definition article : KnowledgeDocumentRequest :=
  MkDocRequest (lit "Returns") (lit "A refund takes five days.") "markdown" (MkScopeID true (Some 7%N)) (MkScopeID true None) "" None.
Abbreviation create := (CreateKnowledgeDocument same_text no_mark ascii_letter ascii_digit ascii_lower paired).
Abbreviation look := (SearchKnowledge same_text no_mark ascii_letter ascii_digit ascii_lower has_words no_rank).
Definition in_unit (id : uuid) (contact : uuid) : option uuid * option uuid := (Some id, None).
Definition write_article : KProg unit := forget (create (as_user 21) (Some article)).
Abbreviation run p s := (prog_run (kn_handle (in_unit 7)) p s).
Definition stocked : KState := snd (run write_article office_kb).
Lemma office_mirrored : mirrored paired office_base.
Proof. split; cbn; [apply NoDup_nil_2 | intros; exfalso; eapply not_elem_of_nil; eassumption..]. Qed.

Theorem index_mirrors_documents_witness :
  length (kb_chunks (kn_base stocked)) = 1%nat /\ mirrored paired (kn_base stocked).
Proof.
  split; [vm_compute; reflexivity |].
  apply (index_mirrors_documents same_text no_mark ascii_letter ascii_digit ascii_lower paired office_kb [write_article] stocked [Ret (fst (run write_article office_kb))]).
  - apply office_mirrored.
  - constructor; [apply req_create | constructor].
  - apply (prog_run_steps kn_sem (kn_handle (in_unit 7))); [apply kn_handle_sem | apply surjective_pairing].
Defined.

(** The seller, now in [unit], may read the knowledge base. *)
Definition reader (unit : uuid) : User := MkUser 22 1 "seller@office" "hash" "seller@office" (Some 12%N) "" true true false None (Some unit) None "" "" false.
Definition with_reader (unit : uuid) (d : Accounts) : Accounts :=
  MkAccounts (ac_orgs d) (ac_roles d) (ac_permissions d) (ac_links d ∪ list_to_set (holding 12 ["knowledge:read"])) [staff 21 11 "boss@office" false; reader unit] (ac_members d) (ac_uuids d).
Definition reading (unit : uuid) (b : KBase) : KState := MkKState (with_acc (with_reader unit (st_acc office)) office) b.
Lemma reading_base unit b : kn_base (reading unit b) = b.
Proof. reflexivity. Qed.
Abbreviation reading_in unit := (reading unit (kn_base stocked)).
Definition titles (r : search_reply) : option (list text) := match r with SHits l => Some (map ht_Title l) | _ => None end.
Definition ask_refund : KProg search_reply := look (as_user 22) (Some (None, None)) (lit "refund") 0.
(** Unit 7's article is found in unit 7 and not in unit 8; unit 7 is not for others to ask. *)
Example found_at_home : titles (fst (run ask_refund (reading_in 7))) = Some [lit "Returns"].
Proof. vm_compute. reflexivity. Qed.
Example not_found_elsewhere : titles (fst (run ask_refund (reading_in 8))) = Some [].
Proof. vm_compute. reflexivity. Qed.
Example others_not_asked : fst (run (look (as_user 22) (Some (Some 7%N, None)) (lit "refund") 0) (reading_in 8)) = SRefused (KRefused 403 "Insufficient permissions for this unit or department").
Proof. vm_compute. reflexivity. Qed.
(** The same for a customer of either unit. *)
Abbreviation brief := (buildKnowledgeBlock same_text no_mark ascii_letter ascii_digit ascii_lower has_words no_rank).
Definition told_in (unit : uuid) : list text := map so_Title (bl_Sources (fst (prog_run (kn_handle (in_unit unit)) (brief 1 (Some (5%N, 6%N)) (lit "E o refund?")) stocked))).
Example customer_told : (told_in 7, told_in 8) = ([lit "Returns"], []).
Proof. vm_compute. reflexivity. Qed.

Lemma stocked_mirrored : mirrored paired (kn_base stocked).
Proof.
  pose proof (prog_run_steps kn_sem (kn_handle (in_unit 7)) write_article office_kb (fst (run write_article office_kb)) stocked (kn_handle_sem _) (surjective_pairing _)) as H.
  apply (pool_keeps paired office_kb [write_article] stocked [Ret (fst (run write_article office_kb))]); [apply office_mirrored | | exact H].
  constructor; [apply (guarded_request same_text no_mark ascii_letter ascii_digit ascii_lower), req_create | constructor].
Qed.
Theorem staff_read_their_scope_witness :
  titles (fst (run ask_refund (reading_in 7))) = Some [lit "Returns"] /\
  exists org acc, admitted (reading_in 7) (as_user 22) (Some (None, None)) org acc /\ reveals (kn_base (reading_in 7)) org acc (fst (run ask_refund (reading_in 7))).
Proof.
  split; [vm_compute; reflexivity |].
  apply (staff_read_their_scope same_text no_mark ascii_letter ascii_digit ascii_lower paired has_words no_rank (as_user 22) (Some (None, None)) ask_refund (reading_in 7) _ (snd (run ask_refund (reading_in 7)))).
  - rewrite reading_base. apply stocked_mirrored.
  - apply read_search.
  - apply prog_run_runs, kn_handle_sem.
  - vm_compute. discriminate.
Defined.
