(* ===== verification/Campaigns.v ===== *)
(** Bulk campaigns ([internal/models/bulk.go], [internal/handlers/campaigns.go]): the tables they
    use, the statements on them, the queue of jobs, and what a program of the API or of the
    worker may do. *)
From S2P Require Import Prelude Effects Sql GoText GoAny Phone Accounts AccountsApi Templating.
From Stdlib Require Import Ascii.

(** * Tables *)
Definition CampaignStatusDraft := "draft".
Definition CampaignStatusScheduled := "scheduled".
Definition CampaignStatusQueued := "queued".
Definition CampaignStatusProcessing := "processing".
Definition CampaignStatusPaused := "paused".
Definition CampaignStatusCompleted := "completed".
Definition CampaignStatusCancelled := "cancelled".
Definition CampaignStatusFailed := "failed".
Definition MessageStatusPending := "pending".
Definition MessageStatusSent := "sent".
Definition MessageStatusDelivered := "delivered".
Definition MessageStatusRead := "read".
Definition MessageStatusFailed := "failed".

(** The header media of a campaign, and its four counters. *)
Record Media := MkMedia { md_ID : string; md_Filename : string; md_MimeType : string; md_LocalPath : string }.
Record Counts := MkCounts { cn_Sent : Z; cn_Delivered : Z; cn_Read : Z; cn_Failed : Z }.
Record Campaign := MkCampaign {
  ca_ID : uuid; ca_OrganizationID : uuid; ca_WhatsAppAccount : string; ca_Name : string; ca_TemplateID : uuid; ca_Media : Media; ca_Status : string;
  ca_TotalRecipients : Z; ca_Counts : Counts; ca_ScheduledAt : option instant; ca_StartedAt : option instant; ca_CompletedAt : option instant;
  ca_CreatedBy : uuid; ca_UpdatedByID : option uuid; ca_Deleted : bool }.
Record Recipient := MkRecipient {
  rc_ID : uuid; rc_CampaignID : uuid; rc_PhoneNumber : string; rc_RecipientName : string; rc_TemplateParams : amap; rc_HeaderParams : amap;
  rc_Status : string; rc_WhatsAppMessageID : string; rc_ErrorMessage : string;
  rc_SentAt : option instant; rc_DeliveredAt : option instant; rc_ReadAt : option instant; rc_Deleted : bool }.
(** Of a message, what a campaign writes; [ms_CampaignID] is the key [campaign_id] of its metadata. *)
Record CMessage := MkCMessage {
  ms_ID : uuid; ms_OrganizationID : uuid; ms_WhatsAppAccount : string; ms_ContactID : uuid; ms_WhatsAppMessageID : string; ms_Status : string; ms_ErrorMessage : string;
  ms_Content : string; ms_TemplateName : string; ms_TemplateParams : amap; ms_CampaignID : option uuid; ms_RecipientName : string; ms_Media : Media; ms_Deleted : bool }.
Record CContact := MkCContact {
  co_ID : uuid; co_OrganizationID : uuid; co_PhoneNumber : string; co_ProfileName : string; co_CreatedAt : instant; co_MarketingOptOut : bool;
  co_ContactType : string; co_UnitID : option uuid; co_DepartmentID : option uuid; co_Deleted : bool }.
Record CTemplate := MkCTemplate {
  tp_ID : uuid; tp_OrganizationID : uuid; tp_Name : string; tp_Language : string; tp_Category : string; tp_HeaderType : string; tp_HeaderContent : string;
  tp_BodyContent : string; tp_Buttons : list any; tp_Deleted : bool }.
Record CAccount := MkCAccount { wa_ID : uuid; wa_OrganizationID : uuid; wa_Name : string; wa_IsDefaultOutgoing : bool; wa_Deleted : bool }.
Record COccurrence := MkCOccurrence { oc_OrganizationID : uuid; oc_ContactID : uuid; oc_ClosedAt : option instant; oc_Deleted : bool }.
Record CBase := MkCBase {
  cb_campaigns : list Campaign; cb_recipients : list Recipient; cb_messages : list CMessage; cb_contacts : list CContact;
  cb_templates : list CTemplate; cb_accounts : list CAccount; cb_occurrences : list COccurrence }.
Definition set_campaigns f (b : CBase) : CBase := MkCBase (f (cb_campaigns b)) (cb_recipients b) (cb_messages b) (cb_contacts b) (cb_templates b) (cb_accounts b) (cb_occurrences b).
Definition set_recipients f (b : CBase) : CBase := MkCBase (cb_campaigns b) (f (cb_recipients b)) (cb_messages b) (cb_contacts b) (cb_templates b) (cb_accounts b) (cb_occurrences b).
Definition set_messages f (b : CBase) : CBase := MkCBase (cb_campaigns b) (cb_recipients b) (f (cb_messages b)) (cb_contacts b) (cb_templates b) (cb_accounts b) (cb_occurrences b).
Definition set_contacts f (b : CBase) : CBase := MkCBase (cb_campaigns b) (cb_recipients b) (cb_messages b) (f (cb_contacts b)) (cb_templates b) (cb_accounts b) (cb_occurrences b).

(** ** Columns *)
Definition with_status (s : string) (c : Campaign) : Campaign :=
  MkCampaign (ca_ID c) (ca_OrganizationID c) (ca_WhatsAppAccount c) (ca_Name c) (ca_TemplateID c) (ca_Media c) s (ca_TotalRecipients c) (ca_Counts c) (ca_ScheduledAt c) (ca_StartedAt c) (ca_CompletedAt c) (ca_CreatedBy c) (ca_UpdatedByID c) (ca_Deleted c).
Definition started (now : instant) (c : Campaign) : Campaign :=
  MkCampaign (ca_ID c) (ca_OrganizationID c) (ca_WhatsAppAccount c) (ca_Name c) (ca_TemplateID c) (ca_Media c) CampaignStatusProcessing (ca_TotalRecipients c) (ca_Counts c) (ca_ScheduledAt c) (Some now) (ca_CompletedAt c) (ca_CreatedBy c) (ca_UpdatedByID c) (ca_Deleted c).
Definition completed (now : instant) (c : Campaign) : Campaign :=
  MkCampaign (ca_ID c) (ca_OrganizationID c) (ca_WhatsAppAccount c) (ca_Name c) (ca_TemplateID c) (ca_Media c) CampaignStatusCompleted (ca_TotalRecipients c) (ca_Counts c) (ca_ScheduledAt c) (ca_StartedAt c) (Some now) (ca_CreatedBy c) (ca_UpdatedByID c) (ca_Deleted c).
Definition with_total (n : Z) (c : Campaign) : Campaign :=
  MkCampaign (ca_ID c) (ca_OrganizationID c) (ca_WhatsAppAccount c) (ca_Name c) (ca_TemplateID c) (ca_Media c) (ca_Status c) n (ca_Counts c) (ca_ScheduledAt c) (ca_StartedAt c) (ca_CompletedAt c) (ca_CreatedBy c) (ca_UpdatedByID c) (ca_Deleted c).
Definition with_counts (n : Counts) (c : Campaign) : Campaign :=
  MkCampaign (ca_ID c) (ca_OrganizationID c) (ca_WhatsAppAccount c) (ca_Name c) (ca_TemplateID c) (ca_Media c) (ca_Status c) (ca_TotalRecipients c) n (ca_ScheduledAt c) (ca_StartedAt c) (ca_CompletedAt c) (ca_CreatedBy c) (ca_UpdatedByID c) (ca_Deleted c).
Definition with_media (m : Media) (c : Campaign) : Campaign :=
  MkCampaign (ca_ID c) (ca_OrganizationID c) (ca_WhatsAppAccount c) (ca_Name c) (ca_TemplateID c) m (ca_Status c) (ca_TotalRecipients c) (ca_Counts c) (ca_ScheduledAt c) (ca_StartedAt c) (ca_CompletedAt c) (ca_CreatedBy c) (ca_UpdatedByID c) (ca_Deleted c).
Definition deleted_campaign (c : Campaign) : Campaign :=
  MkCampaign (ca_ID c) (ca_OrganizationID c) (ca_WhatsAppAccount c) (ca_Name c) (ca_TemplateID c) (ca_Media c) (ca_Status c) (ca_TotalRecipients c) (ca_Counts c) (ca_ScheduledAt c) (ca_StartedAt c) (ca_CompletedAt c) (ca_CreatedBy c) (ca_UpdatedByID c) true.
Inductive column := SentCount | DeliveredCount | ReadCount | FailedCount.
Definition plus_one (k : column) (n : Counts) : Counts :=
  match k with
  | SentCount => MkCounts (cn_Sent n + 1) (cn_Delivered n) (cn_Read n) (cn_Failed n)
  | DeliveredCount => MkCounts (cn_Sent n) (cn_Delivered n + 1) (cn_Read n) (cn_Failed n)
  | ReadCount => MkCounts (cn_Sent n) (cn_Delivered n) (cn_Read n + 1) (cn_Failed n)
  | FailedCount => MkCounts (cn_Sent n) (cn_Delivered n) (cn_Read n) (cn_Failed n + 1)
  end.
(** [status], the message id and the error as given ([None]: the column is not set). *)
Definition rc_update (status : string) (wamid : option string) (err : option string) (sent delivered read : option instant) (r : Recipient) : Recipient :=
  MkRecipient (rc_ID r) (rc_CampaignID r) (rc_PhoneNumber r) (rc_RecipientName r) (rc_TemplateParams r) (rc_HeaderParams r) status
    (default (rc_WhatsAppMessageID r) wamid) (default (rc_ErrorMessage r) err)
    (match sent with Some t => Some t | None => rc_SentAt r end) (match delivered with Some t => Some t | None => rc_DeliveredAt r end) (match read with Some t => Some t | None => rc_ReadAt r end) (rc_Deleted r).
Definition deleted_recipient (r : Recipient) : Recipient :=
  MkRecipient (rc_ID r) (rc_CampaignID r) (rc_PhoneNumber r) (rc_RecipientName r) (rc_TemplateParams r) (rc_HeaderParams r) (rc_Status r) (rc_WhatsAppMessageID r) (rc_ErrorMessage r) (rc_SentAt r) (rc_DeliveredAt r) (rc_ReadAt r) true.
Definition ms_update (status : string) (err : option string) (m : CMessage) : CMessage :=
  MkCMessage (ms_ID m) (ms_OrganizationID m) (ms_WhatsAppAccount m) (ms_ContactID m) (ms_WhatsAppMessageID m) status (default (ms_ErrorMessage m) err) (ms_Content m) (ms_TemplateName m) (ms_TemplateParams m) (ms_CampaignID m) (ms_RecipientName m) (ms_Media m) (ms_Deleted m).
Definition co_restored (c : CContact) : CContact :=
  MkCContact (co_ID c) (co_OrganizationID c) (co_PhoneNumber c) (co_ProfileName c) (co_CreatedAt c) (co_MarketingOptOut c) (co_ContactType c) (co_UnitID c) (co_DepartmentID c) false.
Definition co_named (name : string) (c : CContact) : CContact :=
  MkCContact (co_ID c) (co_OrganizationID c) (co_PhoneNumber c) name (co_CreatedAt c) (co_MarketingOptOut c) (co_ContactType c) (co_UnitID c) (co_DepartmentID c) (co_Deleted c).

(** ** Statements *)
Definition stmt (X : Type) : Type := CBase -> Res X * CBase.
Definition select {X} (f : CBase -> Res X) : stmt X := fun b => (f b, b).
Definition found {A} (o : option A) : Res A := match o with Some a => Ok a | None => Err ErrNotFound end.
Definition is_campaign (id : uuid) (c : Campaign) : bool := N.eqb (ca_ID c) id && negb (ca_Deleted c).
Definition is_recipient (id : uuid) (r : Recipient) : bool := N.eqb (rc_ID r) id && negb (rc_Deleted r).
Definition of_campaign (id : uuid) (r : Recipient) : bool := N.eqb (rc_CampaignID r) id && negb (rc_Deleted r).
Definition rc_is (status : string) (r : Recipient) : bool := String.eqb (rc_Status r) status.
Definition campaign_by_id (id : uuid) : stmt Campaign := select (fun b => found (sql_first (is_campaign id) (cb_campaigns b))).
Definition campaign_in (id org : uuid) : stmt Campaign := select (fun b => found (sql_first (fun c => is_campaign id c && N.eqb (ca_OrganizationID c) org) (cb_campaigns b))).
Definition template_in (id org : uuid) : stmt CTemplate := select (fun b => found (sql_first (fun t => N.eqb (tp_ID t) id && N.eqb (tp_OrganizationID t) org && negb (tp_Deleted t)) (cb_templates b))).
(** [Preload("Template")], and the template by its id alone. *)
Definition template_of (id : uuid) : stmt (option CTemplate) := select (fun b => Ok (sql_first (fun t => N.eqb (tp_ID t) id && negb (tp_Deleted t)) (cb_templates b))).
Definition account_named (name : string) (org : uuid) : stmt CAccount :=
  select (fun b => found (sql_first (fun a => String.eqb (wa_Name a) name && N.eqb (wa_OrganizationID a) org && negb (wa_Deleted a)) (cb_accounts b))).
Definition account_where (p : CAccount -> bool) (org : uuid) : stmt CAccount :=
  select (fun b => found (sql_first (fun a => N.eqb (wa_OrganizationID a) org && negb (wa_Deleted a) && p a) (cb_accounts b))).
Definition update_campaign (id : uuid) (f : Campaign -> Campaign) : stmt Z :=
  fun b => (Ok (sql_count (is_campaign id) (cb_campaigns b)), set_campaigns (sql_update (is_campaign id) f) b).
Definition recipients_where (id : uuid) (status : string) : stmt (list Recipient) := select (fun b => Ok (List.filter (fun r => of_campaign id r && rc_is status r) (cb_recipients b))).
Definition update_recipients (p : Recipient -> bool) (f : Recipient -> Recipient) : stmt Z :=
  fun b => (Ok (sql_count p (cb_recipients b)), set_recipients (sql_update p f) b).
Definition count_recipients (p : Recipient -> bool) : stmt Z := select (fun b => Ok (sql_count p (cb_recipients b))).
Definition insert_campaign (c : Campaign) : stmt unit :=
  fun b => if existsb (fun x => N.eqb (ca_ID x) (ca_ID c)) (cb_campaigns b) then (Err ErrUnique, b) else (Ok tt, set_campaigns (fun l => l ++ [c]) b).
(** [CreateInBatches]: one transaction for all the batches. *)
Definition insert_recipients (l : list Recipient) : stmt unit :=
  fun b => if existsb (fun r => existsb (fun x => N.eqb (rc_ID x) (rc_ID r)) (cb_recipients b)) l || negb (bool_decide (NoDup (map rc_ID l)))
           then (Err ErrUnique, b) else (Ok tt, set_recipients (fun l' => l' ++ l) b).
Definition insert_message (m : CMessage) : stmt unit :=
  fun b => if existsb (fun x => N.eqb (ms_ID x) (ms_ID m)) (cb_messages b) then (Err ErrUnique, b) else (Ok tt, set_messages (fun l => l ++ [m]) b).
Definition same_phone_row (org : uuid) (phone : string) (c : CContact) : bool := N.eqb (co_OrganizationID c) org && String.eqb (co_PhoneNumber c) phone.
(** The unique index of contacts on organization and phone number counts deleted rows. *)
Definition insert_contact (c : CContact) : stmt unit :=
  fun b => if existsb (fun x => N.eqb (co_ID x) (co_ID c) || same_phone_row (co_OrganizationID c) (co_PhoneNumber c) x) (cb_contacts b)
           then (Err ErrUnique, b) else (Ok tt, set_contacts (fun l => l ++ [c]) b).
Definition update_contacts (p : CContact -> bool) (f : CContact -> CContact) : stmt unit := fun b => (Ok tt, set_contacts (sql_update p f) b).
Definition contact_matches (org : uuid) (phone : string) (c : CContact) : bool := N.eqb (co_OrganizationID c) org && existsb (String.eqb (co_PhoneNumber c)) (phoneMatchSet phone).
Definition oldest (a b : CContact) : bool := co_CreatedAt a <=? co_CreatedAt b.
Definition contact_by_phone (org : uuid) (phone : string) : stmt CContact := select (fun b => found (sql_min oldest (List.filter (contact_matches org phone) (cb_contacts b)))).
Definition message_by_wamid (wamid : string) : stmt CMessage := select (fun b => found (sql_first (fun m => String.eqb (ms_WhatsAppMessageID m) wamid && negb (ms_Deleted m)) (cb_messages b))).
Definition update_messages (p : CMessage -> bool) (f : CMessage -> CMessage) : stmt Z := fun b => (Ok (sql_count p (cb_messages b)), set_messages (sql_update p f) b).

(** * The queue *)
Record RecipientJob := MkJob {
  jb_CampaignID : uuid; jb_RecipientID : uuid; jb_OrganizationID : uuid; jb_PhoneNumber : string; jb_RecipientName : string; jb_TemplateParams : amap; jb_HeaderParams : amap }.
(** An entry of the stream: its two values, the payload already decoded. *)
Record StreamEntry := MkEntry { se_Type : option string; se_Payload : option (option RecipientJob) }.
Definition JobTypeRecipient := "recipient".
Definition recipient_entry (j : RecipientJob) : StreamEntry := MkEntry (Some JobTypeRecipient) (Some (Some j)).
(** The stream, how much of it the group has delivered, the deliveries not acknowledged (the
    consumer group's pending list), and how many deliveries were of entries claimed back. *)
Record Stream := MkStream { sm_Entries : list StreamEntry; sm_Next : nat; sm_Pending : list nat; sm_Reclaims : nat }.
(** What WhatsApp was asked to send: with which account, to whom, for which campaign's job. *)
Record Sent := MkSent { sn_Account : CAccount; sn_Phone : string; sn_Template : string; sn_Language : string; sn_Components : list Component; sn_Job : RecipientJob }.
Record CState := MkCState { cs_acc : State; cs_base : CBase; cs_stream : Stream; cs_sent : list Sent }.
Definition with_base (b : CBase) (s : CState) : CState := MkCState (cs_acc s) b (cs_stream s) (cs_sent s).
Definition with_stream (q : Stream) (s : CState) : CState := MkCState (cs_acc s) (cs_base s) q (cs_sent s).
Definition xadd (l : list StreamEntry) (q : Stream) : Stream := MkStream (sm_Entries q ++ l) (sm_Next q) (sm_Pending q) (sm_Reclaims q).
Definition deliver_next (q : Stream) : Stream := MkStream (sm_Entries q) (S (sm_Next q)) (sm_Pending q ++ [sm_Next q]) (sm_Reclaims q).
Definition deliver_again (q : Stream) : Stream := MkStream (sm_Entries q) (sm_Next q) (sm_Pending q) (S (sm_Reclaims q)).
Definition xack (i : nat) (q : Stream) : Stream := MkStream (sm_Entries q) (sm_Next q) (List.filter (fun j => negb (Nat.eqb j i)) (sm_Pending q)) (sm_Reclaims q).

(** * Operations *)
Inductive cp_op : Type -> Type :=
  | CAsk {X} (op : acc_op X) : cp_op X
  | CDo {X} (f : stmt X) : cp_op (Res X)
  | CID : cp_op uuid
  | CIDs : cp_op (nat -> uuid)
  | CNow : cp_op instant
  | CNanos : cp_op (nat -> Z)
  | CAudit (org user id : uuid) (what : string) : cp_op unit
  (** Whether the organization masks phone numbers. *)
  | CMasks (org : uuid) : cp_op bool
  | CEnqueue (l : list StreamEntry) : cp_op bool
  | CCancelled : cp_op bool
  | CRead : cp_op (option (nat * StreamEntry))
  | CPending : cp_op (option (list nat))
  | CClaim (i : nat) : cp_op (option (list (nat * StreamEntry)))
  | CAck (i : nat) : cp_op unit
  | CSend (m : Sent) : cp_op (string + string)
  (** Uploading a file to WhatsApp: its media id; keeping a copy: its path. *)
  | CUpload (a : CAccount) (size : Z) (mime filename : string) : cp_op (option string)
  | CSaveMedia (campaign : uuid) (size : Z) (mime : string) : cp_op (option string)
  | CPublish (campaign org : uuid) (status : string) (n : Counts) : cp_op unit
  (** The consumption ledger of a campaign's message, and of a status event. *)
  | CUsage (message campaign : uuid) (failed : bool) : cp_op unit
  | CUsageEvent (wamid status : string) : cp_op unit
  (** What those who may see the conversation are told. *)
  | CStatusSeen (org contact message : uuid) (status : string) (err : string) : cp_op unit.
Abbreviation CProg := (prog cp_op).

(** A pipeline of XADDs may be cut short, and may report an error although it was carried out;
    a read may fail after the entry was delivered; a claim finds the entry pending or nothing;
    an acknowledgement may be lost.  Sending: WhatsApp may have the message although an error
    comes back. *)
Definition cp_sem X (op : cp_op X) : CState -> X -> CState -> Prop :=
  match op in cp_op X return CState -> X -> CState -> Prop with
  | CAsk op => fun s x s' => exists a, acc_sem _ op (cs_acc s) x a /\ s' = MkCState a (cs_base s) (cs_stream s) (cs_sent s)
  | CDo f => fun s x s' => exists b, db_sem (exec f) (cs_base s) x b /\ s' = with_base b s
  | CEnqueue l => fun s ok s' => exists k, (ok = true -> k = length l) /\ s' = with_stream (xadd (take k l) (cs_stream s)) s
  | CRead => fun s x s' =>
      (s' = s /\ x = None) \/
      exists e, sm_Entries (cs_stream s) !! sm_Next (cs_stream s) = Some e /\ s' = with_stream (deliver_next (cs_stream s)) s /\ (x = Some (sm_Next (cs_stream s), e) \/ x = None)
  | CPending => fun s x s' => s' = s /\ forall l, x = Some l -> l ⊆ sm_Pending (cs_stream s)
  | CClaim i => fun s x s' =>
      (s' = s /\ (x = None \/ x = Some [])) \/
      exists e, i ∈ sm_Pending (cs_stream s) /\ sm_Entries (cs_stream s) !! i = Some e /\ s' = with_stream (deliver_again (cs_stream s)) s /\ (x = Some [(i, e)] \/ x = None)
  | CAck i => fun s _ s' => s' = s \/ s' = with_stream (xack i (cs_stream s)) s
  | CSend m => fun s x s' => s' = MkCState (cs_acc s) (cs_base s) (cs_stream s) (cs_sent s ++ [m])
  | _ => fun s _ s' => s' = s
  end.
Definition ask {A} (p : Prog A) : CProg A := prog_lift (fun X => @CAsk X) p.
Definition sql {X} (f : stmt X) : CProg (Res X) := call (CDo f).
