(* ===== verification/CampaignApi.v ===== *)
(** The requests on campaigns ([internal/handlers/campaigns.go]), as programs over statements. *)
From S2P Require Import Prelude Effects Sql GoText GoAny Phone Accounts AccountsApi Templating Campaigns.
From Stdlib Require Import Ascii.

(** * Requests and answers *)
Record CampaignRequest := MkCampaignRequest { cq_Name : string; cq_WhatsAppAccount : string; cq_TemplateID : string; cq_HeaderMediaID : string; cq_ScheduledAt : option instant }.
Record RecipientRequest := MkRecipientRequest { rq_PhoneNumber : string; rq_RecipientName : string; rq_TemplateParams : amap; rq_HeaderParams : amap }.
Record SegmentRequest := MkSegment { sg_DDDs : list string; sg_ContactType : string; sg_UnitID : option string; sg_DepartmentID : option string; sg_DryRun : bool }.
Inductive cp_reply :=
  | CRefused (code : Z) (msg : string)
  | CCampaign (c : Campaign) (template : string)
  | CDone (msg : string)
  | CRetrying (count : nat)
  | CAdded (count : nat) (skipped : list string) (total : Z)
  | CListed (l : list Recipient)
  | CUploaded (m : Media).
Definition cp_refusal (r : reply) : cp_reply := match r with Reply code msg => CRefused code msg | _ => CRefused 500 "" end.
Definition CUnauthorized : cp_reply := CRefused 401 "Unauthorized".
Definition CInvalidBody : cp_reply := CRefused 400 "Invalid request body".
(** [parsePathUUID] and [findByIDAndOrg] of a campaign. *)
Definition own_campaign (id : option uuid) (org : uuid) : CProg (Campaign + cp_reply) :=
  match id with
  | None => mret (inr (CRefused 400 "Invalid campaign ID"))
  | Some id => r ← sql (campaign_in id org); mret match r with Ok c => inl c | Err _ => inr (CRefused 404 "Campaign not found") end
  end.
Definition job_for (campaign org : uuid) (r : Recipient) : RecipientJob :=
  MkJob campaign (rc_ID r) org (rc_PhoneNumber r) (rc_RecipientName r) (rc_TemplateParams r) (rc_HeaderParams r).
(** [EnqueueRecipients]: nothing is sent to Redis when there is nothing to enqueue. *)
Definition EnqueueRecipients (jobs : list RecipientJob) : CProg bool := match jobs with [] => mret true | _ => call (CEnqueue (map recipient_entry jobs)) end.
Definition EnqueueRecipient (job : RecipientJob) : CProg bool := call (CEnqueue [recipient_entry job]).
(** [strings.EqualFold] with a word of ASCII capitals. *)
Definition fold_rune (x : Z * string) : string :=
  let '(r, b) := x in
  if (97 <=? r) && (r <=? 122) then String (ascii_of_N (Z.to_N (r - 32))) "" else if r =? 8490 then "K" else if r =? 383 then "S" else b.
Definition equal_fold (s upper : string) : bool := String.eqb (str_concat (map fold_rune (runes s))) upper.
Definition is_marketing (category : string) : bool := equal_fold category "MARKETING".

(** * A campaign *)
Definition resolveWhatsAppAccount (org : uuid) (name : string) : CProg (option CAccount) :=
  if negb (String.eqb name "") then r ← sql (account_named name org); mret match r with Ok a => Some a | Err _ => None end
  else
    r ← sql (account_where wa_IsDefaultOutgoing org);
    match r with
    | Ok a => mret (Some a)
    | Err _ => r ← sql (account_where (fun _ => true) org); mret match r with Ok a => Some a | Err _ => None end
    end.

Section Api.
Context (parse_uuid : string -> option uuid).

Definition CreateCampaign (c : Ctx) (body : option CampaignRequest) : CProg cp_reply :=
  who ← ask (getOrgAndUserID c);
  match who, body with
  | None, _ => mret CUnauthorized
  | Some _, None => mret CInvalidBody
  | Some (org, user), Some req =>
      match parse_uuid (cq_TemplateID req) with
      | None => mret (CRefused 400 "Invalid template ID")
      | Some templateID =>
          t ← sql (template_in templateID org);
          match t with
          | Err _ => mret (CRefused 404 "Template not found")
          | Ok t =>
              a ← resolveWhatsAppAccount org (cq_WhatsAppAccount req);
              match a with
              | None => mret (CRefused 400 "WhatsApp account not found")
              | Some _ =>
                  id ← call CID;
                  let campaign := MkCampaign id org (cq_WhatsAppAccount req) (cq_Name req) templateID (MkMedia (cq_HeaderMediaID req) "" "" "") CampaignStatusDraft 0 (MkCounts 0 0 0 0)
                                             (cq_ScheduledAt req) None None user (Some user) false in
                  r ← sql (insert_campaign campaign);
                  match r with
                  | Err _ => mret (CRefused 500 "Failed to create campaign")
                  | Ok _ => _ ← call (CAudit org user id "created"); mret (CCampaign campaign (tp_Name t))
                  end
              end
          end
      end
  end.
(** The columns of an update: an absent template or account stays as it is. *)
Definition edited (req : CampaignRequest) (template : option uuid) (user : uuid) (c : Campaign) : Campaign :=
  MkCampaign (ca_ID c) (ca_OrganizationID c) (if String.eqb (cq_WhatsAppAccount req) "" then ca_WhatsAppAccount c else cq_WhatsAppAccount req) (cq_Name req)
    (default (ca_TemplateID c) template) (ca_Media c) (ca_Status c) (ca_TotalRecipients c) (ca_Counts c) (cq_ScheduledAt req) (ca_StartedAt c) (ca_CompletedAt c) (ca_CreatedBy c) (Some user) (ca_Deleted c).
Definition UpdateCampaign (c : Ctx) (id : option uuid) (body : option CampaignRequest) : CProg cp_reply :=
  who ← ask (getOrgAndUserID c);
  match who with
  | None => mret CUnauthorized
  | Some (org, user) =>
      own ← own_campaign id org;
      match own with
      | inr e => mret e
      | inl campaign =>
          if negb (String.eqb (ca_Status campaign) CampaignStatusDraft) then mret (CRefused 400 "Can only update draft campaigns")
          else
            match body with
            | None => mret CInvalidBody
            | Some req =>
                let template := if String.eqb (cq_TemplateID req) "" then Some None else option_map Some (parse_uuid (cq_TemplateID req)) in
                match template with
                | None => mret (CRefused 400 "Invalid template ID")
                | Some template =>
                    r ← sql (update_campaign (ca_ID campaign) (edited req template user));
                    match r with
                    | Err _ => mret (CRefused 500 "Failed to update campaign")
                    | Ok _ =>
                        again ← sql (campaign_by_id (ca_ID campaign));
                        let campaign := match again with Ok c => c | Err _ => edited req template user campaign end in
                        t ← sql (template_of (ca_TemplateID campaign));
                        _ ← call (CAudit org user (ca_ID campaign) "updated");
                        mret (CCampaign campaign match t with Ok (Some t) => tp_Name t | _ => "" end)
                    end
                end
            end
      end
  end.
Definition DeleteCampaign (c : Ctx) (id : option uuid) : CProg cp_reply :=
  who ← ask (getOrgAndUserID c);
  match who with
  | None => mret CUnauthorized
  | Some (org, user) =>
      own ← own_campaign id org;
      match own with
      | inr e => mret e
      | inl campaign =>
          if String.eqb (ca_Status campaign) CampaignStatusProcessing || String.eqb (ca_Status campaign) CampaignStatusQueued then mret (CRefused 400 "Cannot delete running campaign")
          else
            r ← sql (update_recipients (of_campaign (ca_ID campaign)) deleted_recipient);
            match r with
            | Err _ => mret (CRefused 500 "Failed to delete campaign")
            | Ok _ =>
                r ← sql (update_campaign (ca_ID campaign) deleted_campaign);
                match r with
                | Err _ => mret (CRefused 500 "Failed to delete campaign")
                | Ok _ => _ ← call (CAudit org user (ca_ID campaign) "deleted"); mret (CDone "Campaign deleted successfully")
                end
            end
      end
  end.

(** ** Running it *)
Definition may_start (c : Campaign) : bool := existsb (String.eqb (ca_Status c)) [CampaignStatusDraft; CampaignStatusScheduled; CampaignStatusPaused].
Definition template_exists (id org : uuid) : CProg bool := if N.eqb id nil_uuid then mret true else r ← sql (template_in id org); mret (is_ok r).
Definition StartCampaign (c : Ctx) (id : option uuid) : CProg cp_reply :=
  org ← ask (getOrgID c);
  match org with
  | None => mret CUnauthorized
  | Some org =>
      own ← own_campaign id org;
      match own with
      | inr e => mret e
      | inl campaign =>
          let id := ca_ID campaign in
          if negb (may_start campaign) then mret (CRefused 400 "Campaign cannot be started in current state")
          else
            rs ← sql (recipients_where id MessageStatusPending);
            match rs with
            | Err _ => mret (CRefused 500 "Failed to load recipients")
            | Ok [] => mret (CRefused 400 "Campaign has no pending recipients")
            | Ok recipients =>
                ok ← template_exists (ca_TemplateID campaign) org;
                if negb ok then mret (CRefused 400 "Campaign template no longer exists")
                else
                  now ← call CNow;
                  r ← sql (update_campaign id (started now));
                  match r with
                  | Err _ => mret (CRefused 500 "Failed to start campaign")
                  | Ok _ =>
                      ok ← EnqueueRecipients (map (job_for id org) recipients);
                      if (ok : bool) then mret (CDone "Campaign started")
                      else _ ← sql (update_campaign id (with_status CampaignStatusDraft)); mret (CRefused 500 "Failed to queue recipients")
                  end
            end
      end
  end.
Definition set_status (id : uuid) (status failure done_ : string) : CProg cp_reply :=
  r ← sql (update_campaign id (with_status status)); mret (if is_ok r then CDone done_ else CRefused 500 failure).
Definition PauseCampaign (c : Ctx) (id : option uuid) : CProg cp_reply :=
  org ← ask (getOrgID c);
  match org with
  | None => mret CUnauthorized
  | Some org =>
      own ← own_campaign id org;
      match own with
      | inr e => mret e
      | inl campaign =>
          if negb (String.eqb (ca_Status campaign) CampaignStatusProcessing || String.eqb (ca_Status campaign) CampaignStatusQueued) then mret (CRefused 400 "Campaign is not running")
          else set_status (ca_ID campaign) CampaignStatusPaused "Failed to pause campaign" "Campaign paused"
      end
  end.
Definition CancelCampaign (c : Ctx) (id : option uuid) : CProg cp_reply :=
  org ← ask (getOrgID c);
  match org with
  | None => mret CUnauthorized
  | Some org =>
      own ← own_campaign id org;
      match own with
      | inr e => mret e
      | inl campaign =>
          if String.eqb (ca_Status campaign) CampaignStatusCompleted || String.eqb (ca_Status campaign) CampaignStatusCancelled then mret (CRefused 400 "Campaign already finished")
          else set_status (ca_ID campaign) CampaignStatusCancelled "Failed to cancel campaign" "Campaign cancelled"
      end
  end.
Definition may_retry (c : Campaign) : bool := existsb (String.eqb (ca_Status c)) [CampaignStatusCompleted; CampaignStatusPaused; CampaignStatusFailed].
Definition campaign_message (id : uuid) (m : CMessage) : bool := bool_decide (ms_CampaignID m = Some id) && negb (ms_Deleted m).
Definition ms_in (statuses : list string) (m : CMessage) : bool := existsb (String.eqb (ms_Status m)) statuses.
Definition message_stats (id : uuid) : stmt Counts :=
  select (fun b => let ms := List.filter (campaign_message id) (cb_messages b) in
    Ok (MkCounts (sql_count (ms_in [MessageStatusSent; MessageStatusDelivered; MessageStatusRead]) ms) (sql_count (ms_in [MessageStatusDelivered; MessageStatusRead]) ms)
                 (sql_count (ms_in [MessageStatusRead]) ms) (sql_count (ms_in [MessageStatusFailed]) ms))).
Definition recalculateCampaignStats (id : uuid) : CProg unit :=
  s ← sql (message_stats id);
  match s with Err _ => mret tt | Ok n => _ ← sql (update_campaign id (with_counts n)); mret tt end.
Definition RetryFailed (c : Ctx) (id : option uuid) : CProg cp_reply :=
  org ← ask (getOrgID c);
  match org with
  | None => mret CUnauthorized
  | Some org =>
      own ← own_campaign id org;
      match own with
      | inr e => mret e
      | inl campaign =>
          let id := ca_ID campaign in
          if negb (may_retry campaign) then mret (CRefused 400 "Can only retry failed messages on completed, paused, or failed campaigns")
          else
            rs ← sql (recipients_where id MessageStatusFailed);
            match rs with
            | Err _ => mret (CRefused 500 "Failed to load failed recipients")
            | Ok [] => mret (CRefused 400 "No failed messages to retry")
            | Ok failed =>
                r ← sql (update_recipients (fun r => of_campaign id r && rc_is MessageStatusFailed r) (rc_update MessageStatusPending None (Some "") None None None));
                match r with
                | Err _ => mret (CRefused 500 "Failed to reset failed recipients")
                | Ok _ =>
                    _ ← sql (update_messages (fun m => campaign_message id m && ms_in [MessageStatusFailed] m) (ms_update MessageStatusPending (Some "")));
                    _ ← recalculateCampaignStats id;
                    r ← sql (update_campaign id (with_status CampaignStatusProcessing));
                    match r with
                    | Err _ => mret (CRefused 500 "Failed to update campaign")
                    | Ok _ =>
                        ok ← EnqueueRecipients (map (job_for id org) failed);
                        mret (if (ok : bool) then CRetrying (length failed) else CRefused 500 "Failed to queue recipients")
                    end
                end
            end
      end
  end.

(** ** Its recipients *)
Definition is_open (org : uuid) (o : COccurrence) : bool := N.eqb (oc_OrganizationID o) org && bool_decide (oc_ClosedAt o = None) && negb (oc_Deleted o).
Definition in_occurrence (org : uuid) (b : CBase) (c : CContact) : bool :=
  N.eqb (co_OrganizationID c) org && negb (co_Deleted c) && existsb (fun o => is_open org o && N.eqb (oc_ContactID o) (co_ID c)) (cb_occurrences b).
Definition activeOccurrencePhones (org : uuid) : stmt (list string) :=
  select (fun b => Ok (List.filter (in_occurrence org b) (cb_contacts b) ≫= fun c => PhoneIdentities (co_PhoneNumber c))).
Definition is_blocked (blocked : list string) (r : RecipientRequest) : bool := existsb (String.eqb (NormalizePhone (rq_PhoneNumber r))) blocked.
Definition new_recipient (campaign : uuid) (id : uuid) (r : RecipientRequest) : Recipient :=
  MkRecipient id campaign (rq_PhoneNumber r) (rq_RecipientName r) (rq_TemplateParams r) (rq_HeaderParams r) MessageStatusPending "" "" None None None false.
Definition addCampaignRecipients (org user : uuid) (campaign : Campaign) (reqs : list RecipientRequest) (dryRun : bool) : CProg cp_reply :=
  blocked ← sql (activeOccurrencePhones org);
  match blocked with
  | Err _ => mret (CRefused 500 "Failed to add recipients")
  | Ok blocked =>
      let skipped := map rq_PhoneNumber (List.filter (is_blocked blocked) reqs) in
      let kept := List.filter (fun r => negb (is_blocked blocked r)) reqs in
      if dryRun then mret (CAdded (length kept) skipped (ca_TotalRecipients campaign))
      else
        ids ← call CIDs;
        r ← (if bool_decide (kept = []) then mret (Ok tt) else sql (insert_recipients (imap (fun i => new_recipient (ca_ID campaign) (ids i)) kept)));
        match r with
        | Err _ => mret (CRefused 500 "Failed to add recipients")
        | Ok _ =>
            n ← sql (count_recipients (of_campaign (ca_ID campaign)));
            let total := match n with Ok n => n | Err _ => 0 end in
            _ ← sql (update_campaign (ca_ID campaign) (with_total total));
            _ ← call (CAudit org user (ca_ID campaign) "recipients_added");
            mret (CAdded (length kept) skipped total)
        end
  end.
Definition ImportRecipients (c : Ctx) (id : option uuid) (body : option (list RecipientRequest)) : CProg cp_reply :=
  who ← ask (getOrgAndUserID c);
  match who with
  | None => mret CUnauthorized
  | Some (org, user) =>
      own ← own_campaign id org;
      match own with
      | inr e => mret e
      | inl campaign =>
          if negb (String.eqb (ca_Status campaign) CampaignStatusDraft) then mret (CRefused 400 "Can only add recipients to draft campaigns")
          else match body with None => mret CInvalidBody | Some reqs => addCampaignRecipients org user campaign reqs false end
      end
  end.
(** [dddPattern]: two digits, the first not zero. *)
Definition is_ddd (s : string) : bool :=
  match s with String a (String b EmptyString) => is_digit a && negb (Ascii.eqb a "0") && is_digit b | _ => false end.
Definition valid_contact_type (s : string) : bool := existsb (String.eqb s) ["cliente"; "fornecedor"; "colaborador"].
Definition nonEmpty (o : option string) : option string := match o with Some s => if String.eqb s "" then None else Some s | None => None end.
Definition null_or_eq (o : option uuid) (x : option uuid) : bool := match o with None => true | Some u => bool_decide (x = Some u) end.
(** The WHERE clause of a segment; [optout]: opted-out contacts are left out. *)
Definition in_segment (org campaign : uuid) (req : SegmentRequest) (pl : orgPlacement) (optout : bool) (b : CBase) (c : CContact) : bool :=
  N.eqb (co_OrganizationID c) org && negb (co_Deleted c)
  && negb (existsb (fun r => of_campaign campaign r && String.eqb (NormalizePhone (rc_PhoneNumber r)) (NormalizePhone (co_PhoneNumber c))) (cb_recipients b))
  && (bool_decide (sg_DDDs req = []) || existsb (fun d => String.eqb (str_take 4 (NormalizePhone (co_PhoneNumber c))) ("55" +:+ d)) (sg_DDDs req))
  && (String.eqb (sg_ContactType req) "" || String.eqb (co_ContactType c) (sg_ContactType req))
  && null_or_eq (pl_UnitID pl) (co_UnitID c) && null_or_eq (pl_DepartmentID pl) (co_DepartmentID c)
  && (negb optout || negb (co_MarketingOptOut c)).
Definition segment (org campaign : uuid) (req : SegmentRequest) (pl : orgPlacement) (optout : bool) : stmt (list RecipientRequest) :=
  select (fun b => Ok (map (fun c => MkRecipientRequest (co_PhoneNumber c) (co_ProfileName c) [] []) (List.filter (in_segment org campaign req pl optout b) (cb_contacts b)))).
Definition AddRecipientsFromContacts (c : Ctx) (id : option uuid) (body : option SegmentRequest) : CProg cp_reply :=
  who ← ask (getOrgAndUserID c);
  match who with
  | None => mret CUnauthorized
  | Some (org, user) =>
      own ← own_campaign id org;
      match own with
      | inr e => mret e
      | inl campaign =>
          if negb (String.eqb (ca_Status campaign) CampaignStatusDraft) then mret (CRefused 400 "Can only add recipients to draft campaigns")
          else
            match body with
            | None => mret CInvalidBody
            | Some req =>
                match List.find (fun d => negb (is_ddd d)) (sg_DDDs req) with
                | Some ddd => mret (CRefused 400 ("Invalid DDD: " +:+ ddd))
                | None =>
                    if negb (String.eqb (sg_ContactType req) "") && negb (valid_contact_type (sg_ContactType req)) then mret (CRefused 400 "contact_type must be one of: cliente, fornecedor, colaborador")
                    else
                      pl ← ask (parseOrgPlacement parse_uuid org (nonEmpty (sg_UnitID req)) (nonEmpty (sg_DepartmentID req)));
                      match pl with
                      | inr e => mret (cp_refusal e)
                      | inl pl =>
                          if bool_decide (sg_DDDs req = []) && String.eqb (sg_ContactType req) "" && bool_decide (pl_UnitID pl = None) && bool_decide (pl_DepartmentID pl = None)
                          then mret (CRefused 400 "At least one filter is required: ddds, contact_type, unit_id or department_id")
                          else
                            t ← sql (template_of (ca_TemplateID campaign));
                            let optout := match t with Ok (Some t) => is_marketing (tp_Category t) | _ => false end in
                            rs ← sql (segment org (ca_ID campaign) req pl optout);
                            match rs with
                            | Err _ => mret (CRefused 500 "Failed to load contacts")
                            | Ok recs => addCampaignRecipients org user campaign recs (sg_DryRun req)
                            end
                      end
                end
            end
      end
  end.
Definition masked_recipient (r : Recipient) : Recipient :=
  MkRecipient (rc_ID r) (rc_CampaignID r) (MaskPhoneNumber (rc_PhoneNumber r)) (MaskIfPhoneNumber (rc_RecipientName r)) (rc_TemplateParams r) (rc_HeaderParams r) (rc_Status r) (rc_WhatsAppMessageID r) (rc_ErrorMessage r) (rc_SentAt r) (rc_DeliveredAt r) (rc_ReadAt r) (rc_Deleted r).
(** In the order of creation, which is the order of the table. *)
Definition GetCampaignRecipients (c : Ctx) (id : option uuid) : CProg cp_reply :=
  org ← ask (getOrgID c);
  match org with
  | None => mret CUnauthorized
  | Some org =>
      own ← own_campaign id org;
      match own with
      | inr e => mret e
      | inl campaign =>
          rs ← sql (select (fun b => Ok (List.filter (of_campaign (ca_ID campaign)) (cb_recipients b))));
          match rs with
          | Err _ => mret (CRefused 500 "Failed to list recipients")
          | Ok rs => masks ← call (CMasks org); mret (CListed (if (masks : bool) then map masked_recipient rs else rs))
          end
      end
  end.
Definition DeleteCampaignRecipient (c : Ctx) (id recipient : option uuid) : CProg cp_reply :=
  who ← ask (getOrgAndUserID c);
  match who with
  | None => mret CUnauthorized
  | Some (org, user) =>
      match id, recipient with
      | None, _ => mret (CRefused 400 "Invalid campaign ID")
      | _, None => mret (CRefused 400 "Invalid recipient ID")
      | Some _, Some recipient =>
          own ← own_campaign id org;
          match own with
          | inr e => mret e
          | inl campaign =>
              if negb (String.eqb (ca_Status campaign) CampaignStatusDraft) then mret (CRefused 400 "Can only delete recipients from draft campaigns")
              else
                let p := fun r => is_recipient recipient r && N.eqb (rc_CampaignID r) (ca_ID campaign) in
                _ ← sql (select (fun b => found (sql_first p (cb_recipients b))));
                r ← sql (update_recipients p deleted_recipient);
                match r with
                | Err _ => mret (CRefused 500 "Failed to delete recipient")
                | Ok n =>
                    if n =? 0 then mret (CRefused 404 "Recipient not found")
                    else
                      _ ← sql (update_campaign (ca_ID campaign) (fun c => with_total (ca_TotalRecipients c - 1) c));
                      _ ← call (CAudit org user (ca_ID campaign) "recipient_removed");
                      mret (CDone "Recipient deleted successfully")
                end
          end
      end
  end.

(** ** Its header media *)
Inductive upload :=
  | NoForm
  | NoFile
  | NotOpened
  | NotRead
  | File (size : Z) (content_type filename : string).
Definition maxMediaSize : Z := Z.shiftl 16 20.
Definition allowedMIME : list string :=
  ["image/jpeg"; "image/png"; "image/webp"; "video/mp4"; "video/3gpp"; "audio/aac"; "audio/mp4"; "audio/mpeg"; "audio/ogg"; "application/pdf";
   "application/vnd.openxmlformats-officedocument.spreadsheetml.sheet"; "application/vnd.openxmlformats-officedocument.wordprocessingml.document";
   "application/vnd.openxmlformats-officedocument.presentationml.presentation"].
Definition safe_rune (x : Z * string) : string :=
  let '(r, b) := x in
  if ((97 <=? r) && (r <=? 122)) || ((65 <=? r) && (r <=? 90)) || ((48 <=? r) && (r <=? 57)) || (r =? 46) || (r =? 95) || (r =? 45) then b else "_".
Definition sanitizeFilename (name : string) : string :=
  let name := str_take 255 (str_concat (map safe_rune (runes (base_name name)))) in
  if String.eqb name "" || String.eqb name "." || String.eqb name ".." then "unnamed" else name.
Definition has_media_header (t : option CTemplate) : bool :=
  match t with Some t => negb (String.eqb (tp_HeaderType t) "") && negb (String.eqb (tp_HeaderType t) "TEXT") | None => false end.
Definition UploadCampaignMedia (c : Ctx) (id : option uuid) (form : upload) : CProg cp_reply :=
  org ← ask (getOrgID c);
  match org with
  | None => mret CUnauthorized
  | Some org =>
      own ← own_campaign id org;
      match own with
      | inr e => mret e
      | inl campaign =>
          t ← sql (template_of (ca_TemplateID campaign));
          match t with
          | Err _ => mret (CRefused 404 "Campaign not found")
          | Ok t =>
              if negb (String.eqb (ca_Status campaign) CampaignStatusDraft) then mret (CRefused 400 "Can only upload media for draft campaigns")
              else if negb (has_media_header t) then mret (CRefused 400 "Template does not have a media header")
              else
                a ← resolveWhatsAppAccount org (ca_WhatsAppAccount campaign);
                match a, form with
                | None, _ => mret (CRefused 400 "WhatsApp account not found")
                | _, NoForm => mret (CRefused 400 "Invalid multipart form")
                | _, NoFile => mret (CRefused 400 "No file provided")
                | _, NotOpened => mret (CRefused 400 "Failed to open file")
                | _, NotRead => mret (CRefused 500 "Failed to read file")
                | Some a, File size content_type filename =>
                    if maxMediaSize <? size then mret (CRefused 400 "File too large. Maximum size is 16MB")
                    else
                      let mime := if String.eqb content_type "" then "application/octet-stream" else content_type in
                      if negb (existsb (String.eqb mime) allowedMIME) then mret (CRefused 400 ("Unsupported file type: " +:+ mime))
                      else
                        media ← call (CUpload a size mime filename);
                        match media with
                        | None => mret (CRefused 500 "Failed to upload media to WhatsApp")
                        | Some media =>
                            path ← call (CSaveMedia (ca_ID campaign) size mime);
                            let m := MkMedia media (sanitizeFilename filename) mime (default "" path) in
                            r ← sql (update_campaign (ca_ID campaign) (with_media m));
                            mret (if is_ok r then CUploaded (MkMedia media filename mime (default "" path)) else CRefused 500 "Failed to save media info")
                        end
                end
          end
      end
  end.
End Api.

Example sanitize_1 : map sanitizeFilename ["a b/c d.pdf"; "../.."; "/"; ""; "rel\x.pdf"; "é.png"] = ["c_d.pdf"; "unnamed"; "_"; "unnamed"; "rel_x.pdf"; "_.png"].
Proof. vm_compute. reflexivity. Qed.
Example fold_1 : map is_marketing ["marketing"; "Marketing"; "MARKETING"; "UTILITY"; "mar"] = [true; true; true; false; false].
Proof. vm_compute. reflexivity. Qed.
