(* ===== verification/CampaignWorker.v ===== *)
(** The worker that sends a campaign ([internal/worker/worker.go]) from the stream of jobs
    ([internal/queue/redis.go]), and the status events WhatsApp reports back
    ([internal/handlers/webhook.go]). *)
From S2P Require Import Prelude Effects Sql GoText GoAny Phone Accounts AccountsApi Templating Campaigns CampaignApi.
From Stdlib Require Import SpecFloat.

(** * Contacts ([internal/contactutil/contactutil.go]) *)
Definition contactByPhone (org : uuid) (phone : string) : CProg (Res CContact) := sql (contact_by_phone org phone).
Definition restore_contact (c : CContact) : CProg unit :=
  if co_Deleted c then _ ← sql (update_contacts (fun x => N.eqb (co_ID x) (co_ID c)) co_restored); mret tt else mret tt.
Definition rename_contact (c : CContact) (name : string) : CProg unit :=
  if negb (String.eqb name "") && negb (String.eqb (co_ProfileName c) name)
  then _ ← sql (update_contacts (fun x => N.eqb (co_ID x) (co_ID c) && negb (co_Deleted x)) (co_named name)); mret tt else mret tt.
Definition GetOrCreateContact (org : uuid) (phone name : string) : CProg (Res CContact) :=
  r ← contactByPhone org phone;
  match r with
  | Ok c => _ ← restore_contact c; _ ← rename_contact c name; mret (Ok c)
  | Err _ =>
      id ← call CID; now ← call CNow;
      let c := MkCContact id org (CanonicalPhone phone) name now false "cliente" None None false in
      r ← sql (insert_contact c);
      match r with
      | Ok _ => mret (Ok c)
      | Err e => raced ← contactByPhone org phone; match raced with Ok c => _ ← restore_contact c; mret (Ok c) | Err _ => mret (Err e) end
      end
  end.

(** * One job *)
(** How a handler ends: done, with an error, or in a panic nobody recovers. *)
Inductive outcome := JobDone | JobError | JobPanic.
#[global] Instance outcome_eq_dec : EqDecision outcome.
Proof. solve_decision. Defined.

Section Worker.
Context (FormatG : spec_float -> string).
Definition updateRecipientStatus (id : uuid) (status wamid err : string) : CProg unit :=
  now ← call CNow;
  _ ← sql (update_recipients (is_recipient id) (rc_update status (Some wamid) (if String.eqb err "" then None else Some err) (if String.eqb status MessageStatusSent then Some now else None) None None));
  mret tt.
Definition incrementCampaignCount (id : uuid) (k : column) : CProg unit :=
  _ ← sql (update_campaign id (fun c => with_counts (plus_one k (ca_Counts c)) c)); mret tt.
Definition publishCampaignStats (id org : uuid) : CProg unit :=
  r ← sql (campaign_by_id id);
  match r with Err _ => mret tt | Ok c => call (CPublish id org (ca_Status c) (ca_Counts c)) end.
Definition checkCampaignCompletion (id org : uuid) : CProg unit :=
  n ← sql (count_recipients (fun r => of_campaign id r && rc_is MessageStatusPending r));
  if match n with Ok n => n | Err _ => 0 end =? 0 then
    r ← sql (campaign_by_id id);
    match r with
    | Err _ => mret tt
    | Ok c =>
        if negb (String.eqb (ca_Status c) CampaignStatusProcessing) then mret tt
        else
          now ← call CNow;
          _ ← sql (update_campaign (ca_ID c) (completed now));
          call (CPublish id org CampaignStatusCompleted (ca_Counts c))
    end
  else publishCampaignStats id org.
(** The value of the variable of a text header, from the parameters of the header or of the body. *)
Definition worker_header (t : CTemplate) (job : RecipientJob) : gmap string string :=
  if String.eqb (tp_HeaderType t) "TEXT" then
    match ExtParamNames (tp_HeaderContent t) with
    | [name] =>
        match assoc name (jb_HeaderParams job) with
        | Some raw => {[name := sprint_v FormatG raw]}
        | None => match assoc name (jb_TemplateParams job) with Some raw => {[name := sprint_v FormatG raw]} | None => ∅ end
        end
    | _ => ∅
    end
  else ∅.
Definition worker_components (t : CTemplate) (job : RecipientJob) (media : Media) (nanos : nat -> Z) : option (list Component) :=
  cs ← BuildTemplateComponents (bodyParams FormatG (tp_BodyContent t) (jb_TemplateParams job)) (tp_HeaderType t) (tp_HeaderContent t) (worker_header t job) (md_ID media) (md_Filename media);
  Some (cs ++ AutoButtonComponents nanos (tp_Buttons t)).
(** The message id, or the text of the error. *)
Definition sendTemplateMessage (a : CAccount) (t : CTemplate) (job : RecipientJob) (media : Media) : CProg (string + string) :=
  nanos ← call CNanos;
  match worker_components t job media nanos with
  | None => mret (inr "failed to build template components")
  | Some cs => call (CSend (MkSent a (jb_PhoneNumber job) (tp_Name t) (tp_Language t) cs job))
  end.
Definition campaign_row (c : Campaign) (t : CTemplate) (job : RecipientJob) (contact : uuid) (id : uuid) (sent : string + string) : CMessage :=
  let media := if String.eqb (md_LocalPath (ca_Media c)) "" then MkMedia "" "" "" "" else ca_Media c in
  MkCMessage id (jb_OrganizationID job) (ca_WhatsAppAccount c) contact (match sent with inl w => w | inr _ => "" end)
    (match sent with inl _ => MessageStatusSent | inr _ => MessageStatusFailed end) (match sent with inl _ => "" | inr e => e end)
    (ReplaceWithJSONBParams FormatG (tp_BodyContent t) (tp_BodyContent t) (jb_TemplateParams job)) (tp_Name t) (jb_TemplateParams job) (Some (jb_CampaignID job)) (jb_RecipientName job)
    (MkMedia "" (md_Filename media) (md_MimeType media) (md_LocalPath media)) false.
Definition fail_recipient (job : RecipientJob) (why : string) : CProg outcome :=
  _ ← updateRecipientStatus (jb_RecipientID job) MessageStatusFailed "" why;
  _ ← incrementCampaignCount (jb_CampaignID job) FailedCount;
  mret JobDone.
(** What follows once the contact is there; the template of the campaign may be gone. *)
Definition send_to (c : Campaign) (template : option CTemplate) (a : CAccount) (contact : CContact) (job : RecipientJob) : CProg outcome :=
  match template with
  | None => mret JobPanic
  | Some t =>
      sent ← sendTemplateMessage a t job (ca_Media c);
      id ← call CID;
      _ ← match sent with
          | inr e => _ ← updateRecipientStatus (jb_RecipientID job) MessageStatusFailed "" e; incrementCampaignCount (jb_CampaignID job) FailedCount
          | inl wamid => _ ← updateRecipientStatus (jb_RecipientID job) MessageStatusSent wamid ""; incrementCampaignCount (jb_CampaignID job) SentCount
          end;
      r ← sql (insert_message (campaign_row c t job (co_ID contact) id sent));
      _ ← (if is_ok r then call (CUsage id (jb_CampaignID job) (match sent with inr _ => true | inl _ => false end)) else mret tt);
      _ ← checkCampaignCompletion (jb_CampaignID job) (jb_OrganizationID job);
      mret JobDone
  end.
Definition opted_out (contact : CContact) (template : option CTemplate) : bool :=
  co_MarketingOptOut contact && match template with Some t => is_marketing (tp_Category t) | None => false end.
Definition HandleRecipientJob (job : RecipientJob) : CProg outcome :=
  c ← sql (campaign_by_id (jb_CampaignID job));
  match c with
  | Err _ => mret JobError
  | Ok c =>
      t ← sql (template_of (ca_TemplateID c));
      match t with
      | Err _ => mret JobError
      | Ok template =>
          if String.eqb (ca_Status c) CampaignStatusPaused || String.eqb (ca_Status c) CampaignStatusCancelled then mret JobDone
          else
            a ← sql (account_named (ca_WhatsAppAccount c) (jb_OrganizationID job));
            match a with
            | Err _ => fail_recipient job "WhatsApp account not found"
            | Ok a =>
                contact ← GetOrCreateContact (jb_OrganizationID job) (jb_PhoneNumber job) (jb_RecipientName job);
                match contact with
                | Err _ => fail_recipient job "Failed to create contact"
                | Ok contact =>
                    if opted_out contact template then fail_recipient job "Contact opted out of marketing messages"
                    else send_to c template a contact job
                end
            end
      end
  end.

(** * The consumer *)
Definition processMessage (e : StreamEntry) : CProg outcome :=
  match se_Type e, se_Payload e with
  | None, _ | _, None => mret JobError
  | Some type, Some payload =>
      if String.eqb type JobTypeRecipient then match payload with None => mret JobError | Some job => HandleRecipientJob job end
      else mret JobError
  end.
(** [false]: the process is down. *)
Definition handle_entry (i : nat) (e : StreamEntry) : CProg bool :=
  o ← processMessage e;
  match o with JobDone => _ ← call (CAck i); mret true | JobError => mret true | JobPanic => mret false end.
Fixpoint handle_entries (l : list (nat * StreamEntry)) : CProg bool :=
  match l with [] => mret true | (i, e) :: l' => ok ← handle_entry i e; if (ok : bool) then handle_entries l' else mret false end.
Fixpoint claim_all (l : list nat) : CProg bool :=
  match l with
  | [] => mret true
  | i :: l' =>
      ms ← call (CClaim i);
      ok ← match ms with None => mret true | Some ms => handle_entries ms end;
      if (ok : bool) then claim_all l' else mret false
  end.
Definition claimPendingMessages : CProg bool :=
  p ← call CPending; match p with None => mret true | Some l => claim_all (take 100 l) end.
(** [rounds]: how often the consumer reads before it is stopped from outside. *)
Fixpoint consume_loop (rounds : nat) : CProg unit :=
  match rounds with
  | O => mret tt
  | S rounds' =>
      stop ← call CCancelled;
      if (stop : bool) then mret tt
      else
        m ← call CRead;
        match m with
        | None => consume_loop rounds'
        | Some (i, e) => ok ← handle_entry i e; if (ok : bool) then consume_loop rounds' else mret tt
        end
  end.
Definition Consume (rounds : nat) : CProg unit := ok ← claimPendingMessages; if (ok : bool) then consume_loop rounds else mret tt.
End Worker.

(** * What WhatsApp reports *)
Definition statusPriority (s : string) : Z :=
  if String.eqb s MessageStatusPending then 0 else if String.eqb s MessageStatusSent then 1 else if String.eqb s MessageStatusDelivered then 2
  else if String.eqb s MessageStatusRead then 3 else if String.eqb s MessageStatusFailed then 4 else -1.
Definition counted_status (s : string) : option column :=
  if String.eqb s MessageStatusDelivered then Some DeliveredCount else if String.eqb s MessageStatusRead then Some ReadCount
  else if String.eqb s MessageStatusFailed then Some FailedCount else None.
Definition incrementCampaignStat (id : uuid) (status : string) : CProg unit :=
  match counted_status status with
  | None => mret tt
  | Some k =>
      r ← sql (fun b => let b' := snd (update_campaign id (fun c => with_counts (plus_one k (ca_Counts c)) c) b) in (Ok (sql_first (is_campaign id) (cb_campaigns b')), b'));
      match r with Ok (Some c) => call (CPublish id (ca_OrganizationID c) (ca_Status c) (ca_Counts c)) | _ => mret tt end
  end.
Record StatusError := MkStatusError { er_Details : string; er_Message : string; er_Title : string }.
Definition error_text (e : StatusError) : string :=
  let t := if String.eqb (er_Details e) "" then er_Message e else er_Details e in
  if String.eqb t "" || String.eqb t (er_Title e) then er_Title e else t.
Definition known_status (s : string) : bool := existsb (String.eqb s) [MessageStatusSent; MessageStatusDelivered; MessageStatusRead; MessageStatusFailed].
(** Whether a message in a status takes another. *)
Definition progresses (current new : string) : bool := negb ((statusPriority new <=? statusPriority current) && negb (String.eqb new MessageStatusFailed)) && known_status new.
Definition status_error (status : string) (errors : list StatusError) : option string :=
  if String.eqb status MessageStatusFailed then match errors with e :: _ => Some (error_text e) | [] => None end else None.
Definition updateMessageStatus (wamid status : string) (errors : list StatusError) : CProg unit :=
  m ← sql (message_by_wamid wamid);
  match m with
  | Err _ => mret tt
  | Ok m =>
      if negb (progresses (ms_Status m) status) then mret tt
      else
        let err := status_error status errors in
        r ← sql (update_messages (fun x => N.eqb (ms_ID x) (ms_ID m) && negb (ms_Deleted x)) (ms_update status err));
        match r with
        | Err _ => mret tt
        | Ok _ =>
            _ ← match ms_CampaignID m with
                | None => mret tt
                | Some campaign =>
                    _ ← incrementCampaignStat campaign status;
                    now ← call CNow;
                    let shown := match err with Some e => if String.eqb e "" then None else Some e | None => None end in
                    _ ← sql (update_recipients (fun r => String.eqb (rc_WhatsAppMessageID r) wamid && negb (rc_Deleted r))
                               (rc_update status None shown None (if String.eqb status MessageStatusDelivered then Some now else None) (if String.eqb status MessageStatusRead then Some now else None)));
                    mret tt
                end;
            call (CStatusSeen (ms_OrganizationID m) (ms_ContactID m) (ms_ID m) status (default "" err))
        end
  end.
Definition processStatusUpdate (wamid status : string) (errors : list StatusError) : CProg unit :=
  _ ← call (CUsageEvent wamid status); updateMessageStatus wamid status errors.
