(* ===== verification/CampaignSends.v ===== *)
(** What a campaign sends: from whose account, to whom, how often, and who is spared. *)
From S2P Require Import Prelude Effects Sql GoText GoAny Phone Accounts AccountsApi Templating Campaigns CampaignApi CampaignWorker.
From Stdlib Require Import SpecFloat.

(** * Rows that stay

    A campaign keeps its id and organization, a recipient its id, campaign and number; rows are
    only deleted softly. *)
Definition owned (b : CBase) (id org : uuid) : Prop := exists c, c ∈ cb_campaigns b /\ ca_ID c = id /\ ca_OrganizationID c = org.
Definition belongs (b : CBase) (id campaign : uuid) (phone : string) : Prop := exists r, r ∈ cb_recipients b /\ rc_ID r = id /\ rc_CampaignID r = campaign /\ rc_PhoneNumber r = phone.
Record kept (b b' : CBase) : Prop := MkKept {
  kept_owned : forall id org, owned b id org -> owned b' id org;
  kept_belongs : forall id c p, belongs b id c p -> belongs b' id c p;
  kept_accounts : cb_accounts b' = cb_accounts b }.
#[global] Instance kept_preorder : PreOrder kept.
Proof.
  split; [by constructor |]. intros b1 b2 b3 [H1 H2 H3] [H4 H5 H6]. constructor; [by eauto.. | by etrans].
Qed.
(** The primary key of the campaigns. *)
Definition keyed (b : CBase) : Prop := NoDup (map ca_ID (cb_campaigns b)) /\ NoDup (map rc_ID (cb_recipients b)).
Record gentle {X} (f : stmt X) : Prop := MkGentle {
  gentle_kept : forall b, kept b (snd (f b));
  gentle_keyed : forall b, keyed b -> keyed (snd (f b)) }.
Lemma gentle_select {X} (f : CBase -> Res X) : gentle (select f).
Proof. by constructor. Qed.
Definition ca_key (c : Campaign) : uuid * uuid := (ca_ID c, ca_OrganizationID c).
Definition rc_key (r : Recipient) : uuid * uuid * string := (rc_ID r, rc_CampaignID r, rc_PhoneNumber r).
Lemma owned_keys b id org : owned b id org <-> (id, org) ∈ map ca_key (cb_campaigns b).
Proof.
  unfold owned. rewrite list_elem_of_fmap. unfold ca_key. split; [intros (c & H & <- & <-); by exists c | intros (c & [= -> ->] & H); by exists c].
Qed.
Lemma belongs_keys b id c p : belongs b id c p <-> (id, c, p) ∈ map rc_key (cb_recipients b).
Proof.
  unfold belongs. rewrite list_elem_of_fmap. unfold rc_key. split; [intros (r & H & <- & <- & <-); by exists r | intros (r & [= -> -> ->] & H); by exists r].
Qed.
Lemma kept_keys b b' : map ca_key (cb_campaigns b) ⊆ map ca_key (cb_campaigns b') -> map rc_key (cb_recipients b) ⊆ map rc_key (cb_recipients b') -> cb_accounts b' = cb_accounts b -> kept b b'.
Proof. intros H1 H2 H3. constructor; [intros ??; rewrite !owned_keys; apply H1 | intros ???; rewrite !belongs_keys; apply H2 | done]. Qed.
Lemma gentle_update_campaign id f : (forall c, ca_key (f c) = ca_key c) -> gentle (update_campaign id f).
Proof.
  intros H. constructor; intros b; simpl.
  - apply kept_keys; simpl; [by rewrite map_update_column | done | done].
  - unfold keyed. simpl. rewrite map_update_column; [done |]. intros c. pose proof (H c) as E. unfold ca_key in E. congruence.
Qed.
Lemma gentle_update_recipients p f : (forall r, rc_key (f r) = rc_key r) -> gentle (update_recipients p f).
Proof.
  intros H. constructor; intros b; simpl.
  - apply kept_keys; simpl; [done | by rewrite map_update_column | done].
  - unfold keyed. simpl. rewrite (map_update_column rc_ID); [done |]. intros c. pose proof (H c) as E. unfold rc_key in E. congruence.
Qed.
Lemma gentle_messages p f : gentle (update_messages p f).
Proof. constructor; intros b; [by apply kept_keys | done]. Qed.
Lemma gentle_contacts p f : gentle (update_contacts p f).
Proof. constructor; intros b; [by apply kept_keys | done]. Qed.
Lemma gentle_insert_message m : gentle (insert_message m).
Proof. unfold insert_message. constructor; intros b; destruct (existsb _ _); simpl; try done; by apply kept_keys. Qed.
Lemma gentle_insert_contact c : gentle (insert_contact c).
Proof. unfold insert_contact. constructor; intros b; destruct (existsb _ _); simpl; try done; by apply kept_keys. Qed.
Lemma gentle_insert_campaign c : gentle (insert_campaign c).
Proof.
  unfold insert_campaign. constructor; intros b; destruct (existsb _ _) eqn:E; simpl; try done.
  - apply kept_keys; simpl; [rewrite map_app; set_solver | done | done].
  - intros [H1 H2]. split; simpl; [| done]. rewrite map_app. apply NoDup_app. split_and!; [done | | apply NoDup_singleton].
    intros x (c' & -> & Hc)%list_elem_of_fmap Hx. simpl in Hx. apply list_elem_of_singleton in Hx. pose proof (existsb_not _ _ _ E Hc) as H. simpl in H. apply N.eqb_neq in H. done.
Qed.
Lemma gentle_insert_recipients l : gentle (insert_recipients l).
Proof.
  unfold insert_recipients. constructor; intros b; destruct (_ || _) eqn:E; simpl; try done.
  - apply kept_keys; simpl; [done | rewrite map_app; set_solver | done].
  - intros [H1 H2]. split; simpl; [done |]. apply orb_false_iff in E as [E Hd]. apply negb_false_iff, bool_decide_eq_true in Hd.
    rewrite map_app. apply NoDup_app. split_and!; [done | | done]. intros x (r & -> & Hr)%list_elem_of_fmap (r' & Hx & Hr')%list_elem_of_fmap.
    pose proof (existsb_not _ _ _ E Hr') as H. pose proof (existsb_not _ _ _ H Hr) as H'. simpl in H'. apply N.eqb_neq in H'. done.
Qed.
#[export] Hint Resolve gentle_select gentle_messages gentle_contacts gentle_insert_message gentle_insert_contact gentle_insert_campaign gentle_insert_recipients : whatc.

(** * Programs that enqueue and send nothing *)
Definition quiet X (op : cp_op X) : Prop := match op with CDo f => gentle f | CEnqueue _ => False | CSend _ => False | _ => True end.
Lemma quiet_ask {A} (p : Prog A) : only quiet (ask p).
Proof. unfold ask. apply (only_lift _ (fun X (_ : acc_op X) => True)); [done |]. induction p; simpl; auto. Qed.
Lemma quiet_bind {A B} (p : CProg A) (f : A -> CProg B) : only quiet p -> (forall a, only quiet (f a)) -> only quiet (p ≫= f).
Proof. apply only_bind. Qed.
Ltac solve_gentle :=
  first [ apply gentle_select | apply gentle_messages | apply gentle_contacts | apply gentle_insert_message | apply gentle_insert_contact | apply gentle_insert_campaign
        | apply gentle_insert_recipients | apply gentle_update_campaign; by intros [] | apply gentle_update_recipients; by intros [] ].
Ltac solve_quiet :=
  repeat match goal with
  | |- only _ (ask _) => apply quiet_ask
  | |- only _ (_ ≫= _) => apply quiet_bind; [| intros ?]
  | |- only _ (sql _) => split; [simpl; solve_gentle | intros ?; exact I]
  | |- only _ (call _) => split; [exact I | intros ?; exact I]
  | |- only _ (mret _) => exact I
  | |- only _ (match ?x with _ => _ end) => destruct x
  | |- only _ (if ?x then _ else _) => destruct x
  | |- only _ _ => solve [auto with whatc]
  end.
Lemma quiet_own id org : only quiet (own_campaign id org).
Proof. unfold own_campaign, campaign_in. solve_quiet. Qed.
Lemma quiet_account org name : only quiet (resolveWhatsAppAccount org name).
Proof. unfold resolveWhatsAppAccount, account_named, account_where. solve_quiet. Qed.
Lemma quiet_recalculate id : only quiet (recalculateCampaignStats id).
Proof. unfold recalculateCampaignStats, message_stats. solve_quiet. Qed.
Lemma quiet_set_status id s f d : only quiet (set_status id s f d).
Proof. unfold set_status. solve_quiet. Qed.
Lemma quiet_template id org : only quiet (template_exists id org).
Proof. unfold template_exists, template_in. solve_quiet. Qed.
#[local] Hint Resolve quiet_own quiet_account quiet_recalculate quiet_set_status quiet_template : whatc.
Lemma quiet_add org user c reqs dry : only quiet (addCampaignRecipients org user c reqs dry).
Proof. unfold addCampaignRecipients, activeOccurrencePhones, count_recipients. solve_quiet. Qed.
#[local] Hint Resolve quiet_add : whatc.
Section Quiet.
Context (parse_uuid : string -> option uuid).
Lemma quiet_create c body : only quiet (CreateCampaign parse_uuid c body).
Proof. unfold CreateCampaign, template_in. solve_quiet. Qed.
Lemma quiet_update c id body : only quiet (UpdateCampaign parse_uuid c id body).
Proof. unfold UpdateCampaign, campaign_by_id, template_of. solve_quiet. Qed.
Lemma quiet_delete c id : only quiet (DeleteCampaign c id).
Proof. unfold DeleteCampaign. solve_quiet. Qed.
Lemma quiet_pause c id : only quiet (PauseCampaign c id).
Proof. unfold PauseCampaign. solve_quiet. Qed.
Lemma quiet_cancel c id : only quiet (CancelCampaign c id).
Proof. unfold CancelCampaign. solve_quiet. Qed.
Lemma quiet_import c id body : only quiet (ImportRecipients c id body).
Proof. unfold ImportRecipients. solve_quiet. Qed.
Lemma quiet_segment c id body : only quiet (AddRecipientsFromContacts parse_uuid c id body).
Proof. unfold AddRecipientsFromContacts, template_of, segment. solve_quiet. Qed.
Lemma quiet_list c id : only quiet (GetCampaignRecipients c id).
Proof. unfold GetCampaignRecipients. solve_quiet. Qed.
Lemma quiet_remove c id r : only quiet (DeleteCampaignRecipient c id r).
Proof. unfold DeleteCampaignRecipient. solve_quiet. Qed.
Lemma quiet_upload c id form : only quiet (UploadCampaignMedia c id form).
Proof. unfold UploadCampaignMedia, template_of. solve_quiet. Qed.
End Quiet.
Lemma quiet_recipient_status id s w e : only quiet (updateRecipientStatus id s w e).
Proof. unfold updateRecipientStatus. solve_quiet. Qed.
Lemma quiet_count id k : only quiet (incrementCampaignCount id k).
Proof. unfold incrementCampaignCount. solve_quiet. Qed.
Lemma quiet_publish id org : only quiet (publishCampaignStats id org).
Proof. unfold publishCampaignStats, campaign_by_id. solve_quiet. Qed.
#[local] Hint Resolve quiet_recipient_status quiet_count quiet_publish : whatc.
Lemma quiet_completion id org : only quiet (checkCampaignCompletion id org).
Proof. unfold checkCampaignCompletion, count_recipients, campaign_by_id. solve_quiet. Qed.
Lemma quiet_contact org phone name : only quiet (GetOrCreateContact org phone name).
Proof. unfold GetOrCreateContact, contactByPhone, contact_by_phone, restore_contact, rename_contact. solve_quiet. Qed.
Lemma quiet_fail job why : only quiet (fail_recipient job why).
Proof. unfold fail_recipient. solve_quiet. Qed.
#[local] Hint Resolve quiet_completion quiet_contact quiet_fail : whatc.
Lemma gentle_stat k id : gentle (fun b => let b' := snd (update_campaign id (fun c => with_counts (plus_one k (ca_Counts c)) c) b) in (Ok (sql_first (is_campaign id) (cb_campaigns b')), b')).
Proof. destruct (gentle_update_campaign id (fun c => with_counts (plus_one k (ca_Counts c)) c)) as [H1 H2]; [by intros [] |]. by constructor. Qed.
Lemma quiet_stat id status : only quiet (incrementCampaignStat id status).
Proof. unfold incrementCampaignStat. destruct (counted_status status); [| exact I]. split; [apply gentle_stat |]. intros [[row |] |]; [split; [exact I | intros ?; exact I] | exact I | exact I]. Qed.
#[local] Hint Resolve quiet_stat : whatc.
Lemma quiet_status wamid status errors : only quiet (processStatusUpdate wamid status errors).
Proof. unfold processStatusUpdate, updateMessageStatus, message_by_wamid. solve_quiet. Qed.

(** * Jobs and messages that belong where they say *)
Definition genuine (b : CBase) (j : RecipientJob) : Prop :=
  owned b (jb_CampaignID j) (jb_OrganizationID j) /\ belongs b (jb_RecipientID j) (jb_CampaignID j) (jb_PhoneNumber j).
Definition genuine_entry (b : CBase) (e : StreamEntry) : Prop := forall j, se_Payload e = Some (Some j) -> genuine b j.
Definition genuine_sent (b : CBase) (m : Sent) : Prop :=
  genuine b (sn_Job m) /\ sn_Phone m = jb_PhoneNumber (sn_Job m) /\ sn_Account m ∈ cb_accounts b /\ wa_OrganizationID (sn_Account m) = jb_OrganizationID (sn_Job m).
Record sound (s : CState) : Prop := MkSound {
  sound_keyed : keyed (cs_base s);
  sound_entries : Forall (genuine_entry (cs_base s)) (sm_Entries (cs_stream s));
  sound_sent : Forall (genuine_sent (cs_base s)) (cs_sent s) }.
Record advanced (s s' : CState) : Prop := MkAdvanced {
  advanced_base : kept (cs_base s) (cs_base s');
  advanced_entries : sm_Entries (cs_stream s) `prefix_of` sm_Entries (cs_stream s') }.
#[global] Instance advanced_preorder : PreOrder advanced.
Proof.
  split; [by constructor |]. intros s1 s2 s3 [H1 H2] [H3 H4]. constructor; [by etrans | by etrans].
Qed.
Lemma genuine_kept b b' j : kept b b' -> genuine b j -> genuine b' j.
Proof. intros [H1 H2 _] [H3 H4]. split; [by apply H1 | by apply H2]. Qed.
Lemma entry_kept b b' e : kept b b' -> genuine_entry b e -> genuine_entry b' e.
Proof. intros Hk H j Hj. eapply genuine_kept; [exact Hk | by apply H]. Qed.
Lemma sent_kept b b' m : kept b b' -> genuine_sent b m -> genuine_sent b' m.
Proof. intros Hk (H1 & H2 & H3 & H4). split_and!; [by eapply genuine_kept | done | by rewrite (kept_accounts _ _ Hk) | done]. Qed.
Lemma sound_move s b : sound s -> kept (cs_base s) b -> keyed b -> advanced s (with_base b s) /\ sound (with_base b s).
Proof.
  intros [H1 H2 H3] Hk Hb. split; [by constructor |]. constructor; [done | |]; (eapply Forall_impl; [done |]; intros x Hx; simpl); [by eapply entry_kept | by eapply sent_kept].
Qed.
Lemma sound_stream s q : sound s -> sm_Entries q = sm_Entries (cs_stream s) -> advanced s (with_stream q s) /\ sound (with_stream q s).
Proof. intros [H1 H2 H3] E. split; [constructor; simpl; [reflexivity | by rewrite E] |]. constructor; simpl; [done | by rewrite E | done]. Qed.
Lemma gentle_step {X} (f : stmt X) s b x : gentle f -> sound s -> db_sem (exec f) (cs_base s) x b -> advanced s (with_base b s) /\ sound (with_base b s).
Proof.
  intros [Hk Hy] Hs [H | [_ [-> | ->]]]%db_sem_exec.
  - assert (b = snd (f (cs_base s))) as -> by by rewrite <- H. apply sound_move; [done | apply Hk | apply Hy, Hs].
  - apply sound_move; [done | reflexivity | apply Hs].
  - apply sound_move; [done | apply Hk | apply Hy, Hs].
Qed.
Lemma sound_same s : sound s -> advanced s s /\ sound s.
Proof. by split. Qed.
Lemma quiet_step X (op : cp_op X) s x s' : quiet X op -> sound s -> cp_sem X op s x s' -> advanced s s' /\ sound s'.
Proof.
  destruct op; simpl; intros Hq Hs; try done; try (intros ->; by apply sound_same).
  - intros (a & _ & ->). destruct Hs. by split.
  - intros (b & Hb & ->). by eapply gentle_step.
  - intros [[-> _] | (e & _ & -> & _)]; [by apply sound_same | by apply sound_stream].
  - intros [-> _]. by apply sound_same.
  - intros [[-> _] | (e & _ & _ & -> & _)]; [by apply sound_same | by apply sound_stream].
  - intros [-> | ->]; [by apply sound_same | by apply sound_stream].
Qed.
Abbreviation honest p s Q := (guards cp_sem advanced sound p s Q).
Lemma honest_quiet {A} (p : CProg A) s (Q : A -> CState -> Prop) : only quiet p -> (forall a s', advanced s s' -> Q a s') -> honest p s Q.
Proof. apply guards_only; [apply _ |]. intros X op s1 x s2 Hq Hs Hx. by eapply quiet_step. Qed.
Lemma honest_bind {A B} (p : CProg A) (f : A -> CProg B) s P Q : honest p s P -> (forall a s', advanced s s' -> P a s' -> honest (f a) s' Q) -> honest (p ≫= f) s Q.
Proof. intros Hp Hf. apply guards_bind. eapply guards_mono; [apply _ | | exact Hp]. done. Qed.
Lemma honest_quiet_bind {A B} (p : CProg A) (f : A -> CProg B) s Q : only quiet p -> (forall a s', advanced s s' -> honest (f a) s' Q) -> honest (p ≫= f) s Q.
Proof. intros Hp Hf. eapply (honest_bind _ _ _ (fun _ _ => True)); [by apply honest_quiet | eauto]. Qed.
(** A statement that reads: what it answers held in a state since. *)
Lemma honest_select {X B} (f : CBase -> Res X) (k : Res X -> CProg B) s Q :
  (forall x s', advanced s s' -> sound s' -> (forall a, x = Ok a -> f (cs_base s') = Ok a) -> honest (k x) s' Q) -> honest (sql (select f) ≫= k) s Q.
Proof.
  intros H. intros s1 x s2 H1 H2 (b & Hb & ->). apply db_sem_exec in Hb as Hb'. destruct (gentle_step _ _ _ _ (gentle_select f) H2 Hb) as [H3 H4]. split_and!; [done | done |].
  assert (E : b = cs_base s1) by (destruct Hb' as [[= _ ->] | [_ [-> | ->]]]; done). subst b. apply H; [by etrans | done |].
  intros a ->. destruct Hb' as [[= E] | [E _]]; [done | discriminate E].
Qed.
Lemma first_row_in {A} (p : A -> bool) l x : found (sql_first p l) = Ok x -> x ∈ l /\ p x = true.
Proof. unfold found, sql_first. destruct (List.find p l) as [y |] eqn:E; [| done]. intros [= ->]. apply List.find_some in E as [H1 H2]. split; [by apply list_elem_of_In | done]. Qed.
Lemma honest_own {B} id org (k : Campaign + cp_reply -> CProg B) s Q :
  (forall c s', advanced s s' -> sound s' -> owned (cs_base s') (ca_ID c) org -> honest (k (inl c)) s' Q) -> (forall e s', advanced s s' -> honest (k (inr e)) s' Q) -> honest (own_campaign id org ≫= k) s Q.
Proof.
  intros H1 H2. unfold own_campaign. destruct id as [id |]; [| by apply (H2 _ s)]. apply guards_bind. unfold campaign_in. apply honest_select. intros x s' Hs Hsd Hx. destruct x as [c | e].
  - simpl. apply H1; [done | done |]. pose proof (Hx c eq_refl) as E. apply first_row_in in E as [Hc Hp]. unfold is_campaign in Hp. bool_hyps. exists c. split_and!; [done | done |]. by apply N.eqb_eq.
  - by apply H2.
Qed.

(** ** Enqueueing *)
Lemma genuine_payload b j : genuine b j -> genuine_entry b (recipient_entry j).
Proof. intros H j' [= <-]. done. Qed.
Lemma honest_enqueue_bind {B} jobs (k : bool -> CProg B) s Q :
  (forall j, j ∈ jobs -> genuine (cs_base s) j) -> (forall ok s', advanced s s' -> honest (k ok) s' Q) -> honest (EnqueueRecipients jobs ≫= k) s Q.
Proof.
  intros Hj Hk. unfold EnqueueRecipients. destruct jobs as [| j jobs]; [by apply Hk |]. intros s1 x s2 H1 H2 (n & _ & ->).
  assert (Ha : advanced s1 (with_stream (xadd (take n (map recipient_entry (j :: jobs))) (cs_stream s1)) s1)) by (constructor; simpl; [reflexivity | by eexists]).
  split_and!; [done | | apply Hk; by etrans]. destruct H2 as [H3 H4 H5]. constructor; [done | | done]. apply Forall_app. split; [done |]. apply Forall_take, Forall_forall.
  intros e (j' & -> & Hj')%list_elem_of_fmap. apply genuine_payload. eapply genuine_kept; [apply H1 | by apply Hj].
Qed.
Definition all_of (b : CBase) (campaign : uuid) (l : list Recipient) : Prop := forall r, r ∈ l -> belongs b (rc_ID r) campaign (rc_PhoneNumber r).
Lemma where_all_of b id status l : snd (recipients_where id status b) = b /\ (fst (recipients_where id status b) = Ok l -> all_of b id l).
Proof.
  split; [done |]. unfold recipients_where, select. simpl. intros [= <-] r Hr. apply list_elem_of_In, List.filter_In in Hr as [Hr Hp]. apply list_elem_of_In in Hr.
  unfold of_campaign in Hp. bool_hyps. exists r. split_and!; [done | done | by apply N.eqb_eq | done].
Qed.
Lemma jobs_genuine b b' id org l j : owned b id org -> all_of b id l -> kept b b' -> j ∈ map (job_for id org) l -> genuine b' j.
Proof.
  intros Ho Ha Hk (r & -> & Hr)%list_elem_of_fmap. eapply genuine_kept; [exact Hk |]. split; simpl; [done | by apply Ha].
Qed.
Lemma all_of_kept b b' id l : kept b b' -> all_of b id l -> all_of b' id l.
Proof. intros [_ H _] Ha r Hr. by apply H, Ha. Qed.
Lemma honest_where {B} id status (k : Res (list Recipient) -> CProg B) s Q :
  (forall l s', advanced s s' -> all_of (cs_base s') id l -> honest (k (Ok l)) s' Q) -> (forall e s', honest (k (Err e)) s' Q) -> honest (sql (recipients_where id status) ≫= k) s Q.
Proof.
  intros H1 H2. unfold recipients_where. apply honest_select. intros [l | e] s' Hs Hsd Hx; [| apply H2]. apply H1; [done |]. pose proof (Hx l eq_refl) as E.
  destruct (where_all_of (cs_base s') id status l) as [_ Hw]. apply Hw. unfold recipients_where, select. simpl. by rewrite E.
Qed.
Abbreviation fine p := (forall s, honest p s (fun _ _ => True)).
Lemma fine_start c id : fine (StartCampaign c id).
Proof.
  intros s. unfold StartCampaign. apply honest_quiet_bind; [apply quiet_ask |]. intros [org |] s1 _; [| done]. apply honest_own; [| done]. intros campaign s2 _ _ Ho.
  destruct (may_start campaign); [| done]. cbn [negb]. apply honest_where; [| done]. intros [| r l] s3 H3 Hl; [done |]. cbv iota.
  apply honest_quiet_bind; [auto with whatc |]. intros ok s4 H4. destruct ok; [| done]. cbn [negb]. apply honest_quiet_bind; [by split |]. intros now s5 H5.
  apply honest_quiet_bind; [unfold started; solve_quiet |]. intros [n | e] s6 H6; [| done]. apply honest_enqueue_bind.
  - intros j. apply (jobs_genuine (cs_base s3)); [by apply H3 | done |]. assert (H : advanced s3 s6) by (do 2 (etrans; [done |]); done). apply H.
  - intros [|] s7 _; [done |]. apply honest_quiet_bind; [unfold with_status; solve_quiet | done].
Qed.
Lemma fine_retry c id : fine (RetryFailed c id).
Proof.
  intros s. unfold RetryFailed. apply honest_quiet_bind; [apply quiet_ask |]. intros [org |] s1 _; [| done]. apply honest_own; [| done]. intros campaign s2 _ _ Ho.
  destruct (may_retry campaign); [| done]. cbn [negb]. apply honest_where; [| done]. intros [| r l] s3 H3 Hl; [done |]. cbv iota.
  apply honest_quiet_bind; [unfold rc_update; solve_quiet |]. intros [n |] s4 H4; [| done].
  apply honest_quiet_bind; [solve_quiet |]. intros _ s5 H5. apply honest_quiet_bind; [auto with whatc |]. intros _ s6 H6.
  apply honest_quiet_bind; [unfold with_status; solve_quiet |]. intros [n' |] s7 H7; [| done]. apply honest_enqueue_bind; [| done].
  intros j. apply (jobs_genuine (cs_base s3)); [by apply H3 | done |]. assert (H : advanced s3 s7) by (do 3 (etrans; [done |]); done). apply H.
Qed.

(** ** The worker *)
Section Worker.
Context (FormatG : spec_float -> string).
Definition at_home (b : CBase) (a : CAccount) (org : uuid) : Prop := a ∈ cb_accounts b /\ wa_OrganizationID a = org.
Lemma at_home_kept b b' a org : kept b b' -> at_home b a org -> at_home b' a org.
Proof. intros Hk [H1 H2]. split; [by rewrite (kept_accounts _ _ Hk) | done]. Qed.
Lemma honest_send m s : genuine_sent (cs_base s) m -> honest (call (CSend m)) s (fun _ _ => True).
Proof.
  intros Hm s1 x s2 H1 [H2 H3 H4] ->. split_and!; [by constructor | | done]. constructor; simpl; [done | done |]. apply Forall_app. split; [done |]. constructor; [| done].
  eapply sent_kept; [apply H1 | done].
Qed.
Lemma quiet_insert_message m : only quiet (sql (insert_message m)).
Proof. solve_quiet. Qed.
Lemma honest_send_to c t a contact job s : genuine (cs_base s) job -> at_home (cs_base s) a (jb_OrganizationID job) -> honest (send_to FormatG c t a contact job) s (fun _ _ => True).
Proof.
  intros Hj [Ha1 Ha2]. unfold send_to. destruct t as [t |]; [| done]. eapply honest_bind.
  - instantiate (1 := fun _ _ => True). unfold sendTemplateMessage. apply honest_quiet_bind; [by split |]. intros nanos s1 H1. destruct (worker_components FormatG t job (ca_Media c) nanos) as [cs |]; [| done].
    apply honest_send. eapply sent_kept; [apply H1 |]. split_and!; [done | done | done | done].
  - intros sent s1 H1 _. apply honest_quiet; [| done]. solve_quiet.
Qed.
Lemma honest_handle job s : genuine (cs_base s) job -> honest (HandleRecipientJob FormatG job) s (fun _ _ => True).
Proof.
  intros Hj. unfold HandleRecipientJob. apply honest_quiet_bind; [unfold campaign_by_id; solve_quiet |]. intros [c |] s1 H1; [| done].
  apply honest_quiet_bind; [unfold template_of; solve_quiet |]. intros [t |] s2 H2; [| done]. destruct (_ || _); [done |].
  unfold account_named. apply honest_select. intros [a |] s3 H3 _ Ha; [| apply honest_quiet; [auto with whatc | done]].
  pose proof (Ha a eq_refl) as E. apply first_row_in in E as [Hin Hp]. bool_hyps.
  apply honest_quiet_bind; [auto with whatc |]. intros [contact |] s4 Hs4; [| apply honest_quiet; [auto with whatc | done]].
  destruct (opted_out contact t); [apply honest_quiet; [auto with whatc | done] |]. apply honest_send_to.
  - eapply genuine_kept; [| exact Hj]. assert (Hall : advanced s s4) by (do 3 (etrans; [done |]); done). apply Hall.
  - eapply at_home_kept; [apply Hs4 |]. split; [done | by apply N.eqb_eq].
Qed.
Lemma honest_entry i e s : genuine_entry (cs_base s) e -> honest (handle_entry FormatG i e) s (fun _ _ => True).
Proof.
  intros He. unfold handle_entry. eapply (honest_bind _ _ _ (fun _ _ => True)).
  - unfold processMessage. destruct (se_Type e) as [type |]; [| done]. destruct (se_Payload e) as [[job |] |] eqn:E; [| by destruct (String.eqb _ _) | done].
    destruct (String.eqb type JobTypeRecipient); [| done]. apply honest_handle. by apply He.
  - intros o s' _ _. destruct o; [apply honest_quiet; [| done] | done..]. split; [exact I | intros ?; exact I].
Qed.
Lemma entry_later s s' e : advanced s s' -> genuine_entry (cs_base s) e -> genuine_entry (cs_base s') e.
Proof. intros H. eapply entry_kept, H. Qed.
Lemma honest_entries l s : (forall i e, (i, e) ∈ l -> genuine_entry (cs_base s) e) -> honest (handle_entries FormatG l) s (fun _ _ => True).
Proof.
  revert s. induction l as [| [i e] l IH]; intros s Hl; [done |]. cbn [handle_entries]. eapply (honest_bind _ _ _ (fun _ _ => True)).
  - apply honest_entry, (Hl i). by left.
  - intros ok s' H1 _. destruct ok; [| done]. apply IH. intros j e' Hin. eapply entry_later; [exact H1 |]. apply (Hl j). by right.
Qed.
Lemma fine_claim_all l : fine (claim_all FormatG l).
Proof.
  induction l as [| i l IH]; intros s; [done |]. cbn [claim_all]. intros s1 x s2 H1 H2 Hx.
  destruct (quiet_step _ (CClaim i) s1 x s2 I H2 Hx) as [H3 H4]. split_and!; [done | done |]. eapply (honest_bind _ _ _ (fun _ _ => True)).
  - destruct x as [ms |]; [| done]. apply honest_entries. intros j e Hin. simpl in Hx. destruct Hx as [[_ [H | H]] | (e' & _ & He & -> & [H | H])]; simplify_eq; [set_solver |].
    apply list_elem_of_singleton in Hin as [= -> ->]. destruct H2 as [_ H2 _]. rewrite Forall_lookup in H2. by eapply H2.
  - intros ok s3 _ _. destruct ok; [apply IH | done].
Qed.
Lemma fine_loop rounds : fine (consume_loop FormatG rounds).
Proof.
  induction rounds as [| rounds IH]; intros s; [done |]. cbn [consume_loop]. apply honest_quiet_bind; [by split |]. intros stop s1 _. destruct stop; [done |].
  intros s2 x s3 H1 H2 Hx. destruct (quiet_step _ CRead s2 x s3 I H2 Hx) as [H3 H4]. split_and!; [done | done |]. destruct x as [[i e] |]; [| apply IH].
  eapply (honest_bind _ _ _ (fun _ _ => True)); [| intros ok s4 _ _; destruct ok; [apply IH | done]]. apply honest_entry.
  simpl in Hx. destruct Hx as [[_ H] | (e' & He & -> & [H | H])]; simplify_eq. destruct H2 as [_ H2 _]. rewrite Forall_lookup in H2. by eapply H2.
Qed.
Lemma fine_consume rounds : fine (Consume FormatG rounds).
Proof.
  intros s. unfold Consume, claimPendingMessages. eapply (honest_bind _ _ _ (fun _ _ => True)).
  - apply honest_quiet_bind; [by split |]. intros [l |] s1 _; [apply fine_claim_all | done].
  - intros ok s1 _ _. destruct ok; [apply fine_loop | done].
Qed.

(** * Everything at once *)
Context (parse_uuid : string -> option uuid).
Definition forget {A} (p : CProg A) : CProg unit := _ ← p; mret tt.
(** A request on campaigns, a worker's consumer, a status event. *)
Inductive campaign_work : CProg unit -> Prop :=
  | work_create c body : campaign_work (forget (CreateCampaign parse_uuid c body))
  | work_update c id body : campaign_work (forget (UpdateCampaign parse_uuid c id body))
  | work_delete c id : campaign_work (forget (DeleteCampaign c id))
  | work_start c id : campaign_work (forget (StartCampaign c id))
  | work_pause c id : campaign_work (forget (PauseCampaign c id))
  | work_cancel c id : campaign_work (forget (CancelCampaign c id))
  | work_retry c id : campaign_work (forget (RetryFailed c id))
  | work_import c id body : campaign_work (forget (ImportRecipients c id body))
  | work_segment c id body : campaign_work (forget (AddRecipientsFromContacts parse_uuid c id body))
  | work_list c id : campaign_work (forget (GetCampaignRecipients c id))
  | work_remove c id r : campaign_work (forget (DeleteCampaignRecipient c id r))
  | work_upload c id form : campaign_work (forget (UploadCampaignMedia c id form))
  | work_consume rounds : campaign_work (Consume FormatG rounds)
  | work_status wamid status errors : campaign_work (processStatusUpdate wamid status errors).
Lemma fine_quiet {A} (p : CProg A) : only quiet p -> fine p.
Proof. intros H s. by apply honest_quiet. Qed.
Lemma fine_forget {A} (p : CProg A) : fine p -> fine (forget p).
Proof. intros H s. eapply (honest_bind _ _ _ (fun _ _ => True)); [apply H | done]. Qed.
Lemma work_fine p : campaign_work p -> fine p.
Proof.
  destruct 1; [apply fine_forget.. | |].
  - apply fine_quiet, quiet_create.
  - apply fine_quiet, quiet_update.
  - apply fine_quiet, quiet_delete.
  - apply fine_start.
  - apply fine_quiet, quiet_pause.
  - apply fine_quiet, quiet_cancel.
  - apply fine_retry.
  - apply fine_quiet, quiet_import.
  - apply fine_quiet, quiet_segment.
  - apply fine_quiet, quiet_list.
  - apply fine_quiet, quiet_remove.
  - apply fine_quiet, quiet_upload.
  - apply fine_consume.
  - apply fine_quiet, quiet_status.
Qed.
Lemma work_sound s ps s' ps' : sound s -> Forall campaign_work ps -> pool_steps cp_sem (s, ps) (s', ps') -> sound s'.
Proof.
  intros Hs Hps Hsteps. destruct (guards_sound cp_sem advanced sound _ _ Hsteps Hs) as [_ H]; [| exact H]. eapply Forall_impl; [exact Hps |]. intros p Hp. by apply work_fine.
Qed.

(** C12: a campaign is sent by its own organization to its own recipients.  However the requests on
    campaigns, the workers and the status events are interleaved, wherever a statement, the queue
    or a process fails, every message WhatsApp was asked to send goes to the number of a recipient
    of one campaign, through an account of the organization that campaign is of. *)
Theorem campaigns_send_at_home s ps s' ps' :
  sound s -> Forall campaign_work ps -> pool_steps cp_sem (s, ps) (s', ps') ->
  forall m, m ∈ cs_sent s' -> exists c r, c ∈ cb_campaigns (cs_base s') /\ r ∈ cb_recipients (cs_base s') /\
    ca_ID c = jb_CampaignID (sn_Job m) /\ rc_ID r = jb_RecipientID (sn_Job m) /\ rc_CampaignID r = ca_ID c /\ sn_Phone m = rc_PhoneNumber r /\
    sn_Account m ∈ cb_accounts (cs_base s) /\ wa_OrganizationID (sn_Account m) = ca_OrganizationID c.
Proof.
  intros Hs Hps Hsteps m Hm. destruct (guards_sound cp_sem advanced sound _ _ Hsteps Hs) as [Ha Hs'].
  { eapply Forall_impl; [exact Hps |]. intros p Hp. by apply work_fine. }
  simpl in Ha, Hs'. destruct Hs' as [_ _ Hsent]. rewrite Forall_forall in Hsent.
  destruct (Hsent m Hm) as ((H1 & H2) & H3 & H4 & H5). destruct H1 as (c & Hc & Hid & Ho). destruct H2 as (r & Hr & Hrid & Hrc & Hp). exists c, r.
  rewrite (kept_accounts _ _ (advanced_base _ _ Ha)) in H4. split_and!; congruence || done.
Qed.

(** * How many messages *)
Definition cost X (op : cp_op X) : nat := match op with CSend _ => 1 | _ => 0 end.
Definition gain X (op : cp_op X) : X -> nat :=
  match op in cp_op X return X -> nat with
  | CRead => fun x => match x with Some _ => 1 | None => 0 end
  | CClaim _ => fun x => match x with Some l => length l | None => 0 end
  | _ => fun _ => 0
  end%nat.
Definition any_answer X (op : cp_op X) (x : X) : Prop := True.
Definition free X (op : cp_op X) : Prop := match op with CSend _ => False | _ => True end.
Abbreviation spends p n Q := (ensures (credit_pre cost) (credit_post cost gain any_answer) p n Q).
Lemma free_spends {A} (p : CProg A) n (Q : A -> nat -> Prop) : only free p -> (forall a n', (n <= n')%nat -> Q a n') -> spends p n Q.
Proof.
  revert n. induction p as [a | X op k IH]; intros n; [intros _ HQ; by apply HQ |]. intros [Hop Hk] HQ. assert (Hc : cost _ op = 0%nat) by (destruct op; done).
  split; [unfold credit_pre; lia |]. intros x n' [_ ->]. apply IH; [done |]. intros a n' Hn. apply HQ. lia.
Qed.
Lemma spends_bind {A B} (p : CProg A) (f : A -> CProg B) n m (Q : B -> nat -> Prop) : spends p n (fun _ n' => m <= n')%nat -> (forall a n', (m <= n')%nat -> spends (f a) n' Q) -> spends (p ≫= f) n Q.
Proof. intros Hp Hf. apply ensures_bind. eapply ensures_mono; [| exact Hp]. intros a n' Hn. by apply Hf. Qed.
Lemma spends_free_bind {A B} (p : CProg A) (f : A -> CProg B) n (Q : B -> nat -> Prop) : only free p -> (forall a n', (n <= n')%nat -> spends (f a) n' Q) -> spends (p ≫= f) n Q.
Proof. intros Hp Hf. apply (spends_bind _ _ _ n); [by apply free_spends | done]. Qed.
Lemma quiet_free {A} (p : CProg A) : only quiet p -> only free p.
Proof. apply only_mono. by intros X []. Qed.
Lemma spends_send_to c t a contact job n : (1 <= n)%nat -> spends (send_to FormatG c t a contact job) n (fun _ n' => n - 1 <= n')%nat.
Proof.
  intros Hn. unfold send_to. destruct t as [t |]; [| simpl; lia]. apply (spends_bind _ _ _ (n - 1)).
  - unfold sendTemplateMessage. apply spends_free_bind; [by split |]. intros nanos n' Hn'. destruct (worker_components FormatG t job (ca_Media c) nanos); [| simpl; lia].
    split; [unfold credit_pre; simpl; lia |]. intros x n'' [_ ->]. simpl. lia.
  - intros sent n' Hn'. apply free_spends; [apply quiet_free; solve_quiet | intros; lia].
Qed.
Lemma spends_handle job n : (1 <= n)%nat -> spends (HandleRecipientJob FormatG job) n (fun _ n' => n - 1 <= n')%nat.
Proof.
  intros Hn. unfold HandleRecipientJob. apply spends_free_bind; [by split |]. intros [c |] n1 H1; [| simpl; lia]. apply spends_free_bind; [by split |]. intros [t |] n2 H2; [| simpl; lia].
  destruct (_ || _); [simpl; lia |]. assert (Hfail : forall why n', (n <= n')%nat -> spends (fail_recipient job why) n' (fun _ n' => n - 1 <= n')%nat).
  { intros why n' Hn'. apply free_spends; [apply quiet_free; auto with whatc | intros; lia]. }
  apply spends_free_bind; [by split |]. intros [a |] n3 H3; [| apply Hfail; lia]. apply spends_free_bind; [apply quiet_free; auto with whatc |]. intros [contact |] n4 H4; [| apply Hfail; lia].
  destruct (opted_out contact t); [apply Hfail; lia |]. eapply ensures_mono; [| apply spends_send_to; lia]. simpl. intros. lia.
Qed.
Lemma spends_entry i e n : (1 <= n)%nat -> spends (handle_entry FormatG i e) n (fun _ n' => n - 1 <= n')%nat.
Proof.
  intros Hn. unfold handle_entry. apply (spends_bind _ _ _ (n - 1)).
  - unfold processMessage. destruct (se_Type e), (se_Payload e) as [[job |] |]; repeat case_match; simplify_eq; try (simpl; lia). by apply spends_handle.
  - intros [] n' Hn'; [| simpl; lia..]. apply free_spends; [by split | intros; lia].
Qed.
Lemma spends_entries l n : (length l <= n)%nat -> spends (handle_entries FormatG l) n (fun _ _ => True).
Proof.
  revert n. induction l as [| [i e] l IH]; intros n Hn; [done |]. cbn [handle_entries]. simpl in Hn. apply (spends_bind _ _ _ (n - 1)); [apply spends_entry; lia |].
  intros [] n' Hn'; [apply IH; lia | done].
Qed.
Lemma spends_claim_all l n : spends (claim_all FormatG l) n (fun _ _ => True).
Proof.
  revert n. induction l as [| i l IH]; intros n; [done |]. cbn [claim_all]. split; [unfold credit_pre; simpl; lia |]. intros x n' [_ ->].
  apply (spends_bind _ _ _ 0); [| intros [] n'' _; [apply IH | done]]. destruct x as [ms |]; [| simpl; lia].
  eapply ensures_mono; [| apply spends_entries; simpl; lia]. simpl. lia.
Qed.
Lemma spends_loop rounds n : spends (consume_loop FormatG rounds) n (fun _ _ => True).
Proof.
  revert n. induction rounds as [| rounds IH]; intros n; [done |]. cbn [consume_loop]. apply spends_free_bind; [by split |]. intros [] n1 _; [done |].
  split; [unfold credit_pre; simpl; lia |]. intros x n' [_ ->]. destruct x as [[i e] |]; [| apply IH]. apply (spends_bind _ _ _ 0); [| intros [] n2 _; [apply IH | done]].
  eapply ensures_mono; [| apply spends_entry; simpl; lia]. simpl. intros. lia.
Qed.
Lemma free_enqueue jobs : only free (EnqueueRecipients jobs).
Proof. destruct jobs; [exact I | by split]. Qed.
Lemma free_start c id : only free (StartCampaign c id).
Proof.
  unfold StartCampaign. apply only_bind; [apply quiet_free, quiet_ask |]. intros [org |]; [| exact I]. apply only_bind; [apply quiet_free; auto with whatc |]. intros [campaign | e]; [| exact I].
  destruct (negb _); [exact I |]. apply only_bind; [by split |]. intros [[| r l] | e]; [exact I | | exact I]. apply only_bind; [apply quiet_free; auto with whatc |]. intros [|]; [| exact I].
  apply only_bind; [by split |]. intros now. apply only_bind; [by split |]. intros [|]; [| exact I]. apply only_bind; [apply free_enqueue |]. intros [|]; [exact I |]. by split.
Qed.
Lemma free_retry c id : only free (RetryFailed c id).
Proof.
  unfold RetryFailed. apply only_bind; [apply quiet_free, quiet_ask |]. intros [org |]; [| exact I]. apply only_bind; [apply quiet_free; auto with whatc |]. intros [campaign | e]; [| exact I].
  destruct (negb _); [exact I |]. apply only_bind; [by split |]. intros [[| r l] | e]; [exact I | | exact I]. apply only_bind; [by split |]. intros [|]; [| exact I]. apply only_bind; [by split |]. intros _.
  apply only_bind; [apply quiet_free; auto with whatc |]. intros _. apply only_bind; [by split |]. intros [|]; [| exact I]. apply only_bind; [apply free_enqueue |]. intros ok. exact I.
Qed.
Lemma free_forget {A} (p : CProg A) : only free p -> spends (forget p) 0%nat (fun _ _ => True).
Proof. intros H. apply free_spends; [| done]. by apply only_bind. Qed.
Lemma work_spends p : campaign_work p -> spends p 0%nat (fun _ _ => True).
Proof.
  destruct 1; [apply free_forget.. | |].
  - apply quiet_free, quiet_create.
  - apply quiet_free, quiet_update.
  - apply quiet_free, quiet_delete.
  - apply free_start.
  - apply quiet_free, quiet_pause.
  - apply quiet_free, quiet_cancel.
  - apply free_retry.
  - apply quiet_free, quiet_import.
  - apply quiet_free, quiet_segment.
  - apply quiet_free, quiet_list.
  - apply quiet_free, quiet_remove.
  - apply quiet_free, quiet_upload.
  - unfold Consume, claimPendingMessages. apply (spends_bind _ _ _ 0); [| intros [] n _; [apply spends_loop | done]]. apply spends_free_bind; [by split |]. intros [l |] n _; [| simpl; lia].
    eapply ensures_mono; [| apply spends_claim_all]. simpl. intros. lia.
  - apply free_spends; [apply quiet_free, quiet_status | done].
Qed.
(** What the group has handed out: entries for the first time, and again. *)
Definition handed_out (s : CState) : nat := (sm_Next (cs_stream s) + sm_Reclaims (cs_stream s))%nat.
Definition within_stream (s : CState) : Prop := (sm_Next (cs_stream s) <= length (sm_Entries (cs_stream s)))%nat.
Lemma step_stream X (op : cp_op X) s x s' : cp_sem X op s x s' ->
  (length (cs_sent s') <= length (cs_sent s) + cost X op)%nat /\ (handed_out s + gain X op x <= handed_out s')%nat /\ (within_stream s -> within_stream s').
Proof.
  unfold handed_out, within_stream. destruct op; simpl; try (intros ->; lia).
  - intros (a & _ & ->). simpl. lia.
  - intros (b & _ & ->). simpl. lia.
  - intros (k & _ & ->). simpl. rewrite length_app. lia.
  - intros [[-> ->] | (e & He & -> & [-> | ->])]; simpl; [lia | |]; apply lookup_lt_Some in He; lia.
  - intros [-> _]. lia.
  - intros [[-> [-> | ->]] | (e & _ & He & -> & [-> | ->])]; simpl; lia.
  - intros [-> | ->]; simpl; lia.
  - intros ->. simpl. rewrite length_app. simpl. lia.
Qed.
(** C15: no message without a delivery.  However the requests, the workers and the status events are
    interleaved and wherever they stop, WhatsApp is asked to send at most one message for each
    time an entry of the queue was handed to a worker: one for each job ever enqueued, and one
    more for each time a job was claimed back from a worker that had not acknowledged it. *)
Theorem sends_bounded s ps s' ps' :
  within_stream s -> (length (cs_sent s) <= handed_out s)%nat -> Forall campaign_work ps -> pool_steps cp_sem (s, ps) (s', ps') ->
  (length (cs_sent s') <= length (sm_Entries (cs_stream s')) + sm_Reclaims (cs_stream s'))%nat.
Proof.
  intros Hw Hle Hps Hsteps.
  assert (Hb : (length (cs_sent s') <= handed_out s')%nat).
  { eapply (credits_sound cost gain any_answer cp_sem (fun _ => True) (fun s => length (cs_sent s)) handed_out); [done | done | | | done | exact Hle | | exact Hsteps].
    - intros X op s1 x s2 _ H. by destruct (step_stream _ _ _ _ _ H) as (H1 & _).
    - intros X op s1 x s2 _ H. by destruct (step_stream _ _ _ _ _ H) as (_ & H1 & _).
    - eapply Forall_impl; [exact Hps |]. intros p Hp. by apply work_spends. }
  assert (Hw' : within_stream s').
  { assert (H := pool_state_invariant cp_sem within_stream (s, ps) (s', ps')). apply H; [| done | done]. intros X op s1 x s2 Hx. by destruct (step_stream _ _ _ _ _ Hx) as (_ & _ & H1). }
  unfold handed_out, within_stream in *. lia.
Qed.
End Worker.
