(* ===== verification/CampaignRules.v ===== *)
(** The rules of a campaign: when the worker may send, and who is never added. *)
From S2P Require Import Prelude Effects Sql GoText GoAny Phone Accounts AccountsApi Templating Campaigns CampaignApi CampaignWorker CampaignSends.
From Stdlib Require Import SpecFloat.

(** * When the worker sends *)
Section Sending.
Context (FormatG : spec_float -> string).
Abbreviation trace := (list (Effects.event cp_op)).
Definition sends (e : Effects.event cp_op) : bool := match e with Ev op _ => match op with CSend _ => true | _ => false end end.
Definition unsent (g : trace) : Prop := forall e, e ∈ g -> sends e = false.
(** The contact of a job: found by its number, or just created. *)
Definition contact_known (job : RecipientJob) (contact : CContact) (g : trace) : Prop :=
  Ev (CDo (contact_by_phone (jb_OrganizationID job) (jb_PhoneNumber job))) (Ok contact) ∈ g \/ Ev (CDo (insert_contact contact)) (Ok tt) ∈ g.
Record justified (job : RecipientJob) (m : Sent) (g : trace) : Prop := MkJustified {
  jf_unsent : unsent g;
  jf_job : sn_Job m = job /\ sn_Phone m = jb_PhoneNumber job;
  jf_seen : exists c t contact nanos,
    Ev (CDo (campaign_by_id (jb_CampaignID job))) (Ok c) ∈ g /\ ca_Status c <> CampaignStatusPaused /\ ca_Status c <> CampaignStatusCancelled /\
    Ev (CDo (template_of (ca_TemplateID c))) (Ok (Some t)) ∈ g /\ sn_Template m = tp_Name t /\ sn_Language m = tp_Language t /\
    worker_components FormatG t job (ca_Media c) nanos = Some (sn_Components m) /\
    Ev (CDo (account_named (ca_WhatsAppAccount c) (jb_OrganizationID job))) (Ok (sn_Account m)) ∈ g /\
    contact_known job contact g /\ (co_MarketingOptOut contact = true -> is_marketing (tp_Category t) = false) }.
Definition only_justified (job : RecipientJob) X (op : cp_op X) (g : trace) : Prop := match op with CSend m => justified job m g | _ => True end.
Definition unconstrained X (op : cp_op X) (x : X) : Prop := True.
Abbreviation careful job p g Q := (ensures (only_justified job) (trace_contract unconstrained) p g Q).

Lemma unsent_cons {X} (op : cp_op X) x g : free X op -> unsent g -> unsent (Ev op x :: g).
Proof. intros Hf H e [-> | He]%elem_of_cons; [by destruct op | by apply H]. Qed.
Lemma careful_free job {A} (p : CProg A) g (Q : A -> trace -> Prop) : only free p -> unsent g -> (forall a g', later g g' -> unsent g' -> Q a g') -> careful job p g Q.
Proof.
  revert g. induction p as [a | X op k IH]; intros g; [intros _ Hu HQ; by apply HQ |]. intros [Hop Hk] Hu HQ. split; [by destruct op |]. intros x g' [-> _].
  apply IH; [done | by apply unsent_cons |]. intros a g' Hl. apply HQ. etrans; [apply later_cons | exact Hl].
Qed.
Lemma careful_free_bind job {A B} (p : CProg A) (f : A -> CProg B) g Q : only free p -> unsent g -> (forall a g', later g g' -> unsent g' -> careful job (f a) g' Q) -> careful job (p ≫= f) g Q.
Proof. intros. by apply ensures_bind, careful_free. Qed.
(** After the message. *)
Lemma careful_done job {A} (p : CProg A) g (Q : A -> trace -> Prop) : only free p -> (forall a g', Q a g') -> careful job p g Q.
Proof.
  revert g. induction p as [a | X op k IH]; intros g; [intros _ HQ; by apply HQ |]. intros [Hop Hk] HQ. split; [by destruct op |]. intros x g' _. by apply IH.
Qed.
Lemma careful_call job {X B} (op : cp_op X) (f : X -> CProg B) g Q : free X op -> unsent g -> (forall x, unsent (Ev op x :: g) -> careful job (f x) (Ev op x :: g) Q) -> careful job (call op ≫= f) g Q.
Proof. intros Hf Hu H. apply ensures_call_bind; [by destruct op |]. intros x g' [-> _]. by apply H, unsent_cons. Qed.
Lemma free_restore c : only free (restore_contact c).
Proof. unfold restore_contact. destruct (co_Deleted c); by split. Qed.
Lemma free_rename c n : only free (rename_contact c n).
Proof. unfold rename_contact. destruct (_ && _); by split. Qed.
Lemma careful_contact job g Q : unsent g -> (forall r g', later g g' -> unsent g' -> (forall c, r = Ok c -> contact_known job c g') -> Q r g') ->
  careful job (GetOrCreateContact (jb_OrganizationID job) (jb_PhoneNumber job) (jb_RecipientName job)) g Q.
Proof.
  intros Hu HQ. unfold GetOrCreateContact, contactByPhone, sql. apply careful_call; [done | done |]. intros x Hu1. destruct x as [c | e].
  - apply careful_free_bind; [apply free_restore | done |]. intros _ g1 Hl1 Hu2. apply careful_free_bind; [apply free_rename | done |]. intros _ g2 Hl2 Hu3.
    assert (Hl : later (Ev (CDo (contact_by_phone (jb_OrganizationID job) (jb_PhoneNumber job))) (Ok c) :: g) g2) by by etrans.
    apply HQ; [etrans; [apply later_cons | exact Hl] | done |]. intros c' [= <-]. left. eapply later_in; [exact Hl | by left].
  - apply careful_call; [done | done |]. intros id Hu2. apply careful_call; [done | done |]. intros now Hu3. apply careful_call; [done | done |]. intros r Hu4. destruct r as [[] | e'].
    + apply HQ; [by do 4 (etrans; [apply later_cons |]) | done |]. intros c' [= <-]. right. by left.
    + apply careful_call; [done | done |]. intros raced Hu5. destruct raced as [c | e2].
      * apply careful_free_bind; [apply free_restore | done |]. intros _ g1 Hl1 Hu6. apply HQ; [by do 5 (etrans; [apply later_cons |]) | done |].
        intros c' [= <-]. left. eapply later_in; [exact Hl1 | by left].
      * apply HQ; [by do 5 (etrans; [apply later_cons |]) | done | done].
Qed.
Lemma opted_out_marketing contact t : opted_out contact (Some t) = false -> co_MarketingOptOut contact = true -> is_marketing (tp_Category t) = false.
Proof. unfold opted_out. intros H E. by rewrite E in H. Qed.

(** C13: what a job may send.  Whatever the database, the queue and WhatsApp answer, the worker asks
    WhatsApp to send at most one message for a job it was handed: to the number of the job, once
    it has read the job's campaign and found it neither paused nor cancelled, with the campaign's
    template and the account of that name in the job's organization, and, when the template is
    marketing, once it has seen that the contact of the number has not opted out. *)
Theorem job_sends_justified job : ensures (only_justified job) (trace_contract unconstrained) (HandleRecipientJob FormatG job) [] (fun _ _ => True).
Proof.
  assert (Hfail : forall why g, careful job (fail_recipient job why) g (fun _ _ => True)) by (intros; by apply careful_done; [apply quiet_free, quiet_fail |]).
  unfold HandleRecipientJob, sql. apply careful_call; [done | by intros e He%not_elem_of_nil |]. intros [c | e] Hu1; [| done].
  apply careful_call; [done | done |]. intros [template | e] Hu2; [| done]. destruct (_ || _) eqn:Est; [done |]. apply orb_false_iff in Est as [Hp%String.eqb_neq Hc%String.eqb_neq].
  apply careful_call; [done | done |]. intros [a | e] Hu3; [| done]. set (g3 := Ev _ (Ok a) :: _) in *. apply ensures_bind. apply careful_contact; [done |]. intros r g4 Hl Hu4 Hk.
  destruct r as [contact | e]; [| done]. destruct (opted_out contact template) eqn:Eo; [done |]. unfold send_to. destruct template as [t |]; [| done].
  apply ensures_bind. unfold sendTemplateMessage. apply careful_call; [done | done |]. intros nanos Hu5. assert (Hrest : forall sent g, careful job
    (id ← call CID; _ ← match sent with
       | inr e => _ ← updateRecipientStatus (jb_RecipientID job) MessageStatusFailed "" e; incrementCampaignCount (jb_CampaignID job) FailedCount
       | inl wamid => _ ← updateRecipientStatus (jb_RecipientID job) MessageStatusSent wamid ""; incrementCampaignCount (jb_CampaignID job) SentCount end;
     r ← sql (insert_message (campaign_row FormatG c t job (co_ID contact) id sent));
     _ ← (if is_ok r then call (CUsage id (jb_CampaignID job) (match sent with inr _ => true | inl _ => false end)) else mret tt);
     _ ← checkCampaignCompletion (jb_CampaignID job) (jb_OrganizationID job); mret JobDone) g (fun _ _ => True)).
  { intros sent g. apply careful_done; [| done]. apply quiet_free. solve_quiet; auto using quiet_recipient_status, quiet_count, quiet_completion. }
  destruct (worker_components FormatG t job (ca_Media c) nanos) as [cs |] eqn:Ecs; [| apply Hrest]. split; [| intros x g' _; apply Hrest].
  assert (Hin : forall e, e ∈ g3 -> e ∈ Ev CNanos nanos :: g4) by (intros e He; apply elem_of_cons; right; by eapply later_in).
  constructor; [done | done |]. exists c, t, contact, nanos. split_and!; try done.
  - apply Hin. do 2 apply list_elem_of_further. by left.
  - apply Hin. apply list_elem_of_further. by left.
  - apply Hin. by left.
  - destruct (Hk contact eq_refl) as [H | H]; [left | right]; apply elem_of_cons; by right.
  - by apply opted_out_marketing.
Qed.
End Sending.

(** * Who is never added *)
(** The numbers of a subscriber, in full: as given, and with or without the ninth digit. *)
Definition full_numbers (phone : string) : list string :=
  let c := CanonicalPhone phone in let alt := brazilianMobileAlternate c in if String.eqb alt "" then [c] else [c; alt].
Definition same_subscriber (p q : string) : Prop := CanonicalPhone q ∈ full_numbers p.
Lemma identities_full p : PhoneIdentities p = full_numbers p ++ (full_numbers p ≫= bare_form).
Proof. unfold PhoneIdentities, full_numbers. by destruct (String.eqb (brazilianMobileAlternate (CanonicalPhone p)) ""). Qed.
Lemma normalized_identity p q : same_subscriber p q -> NormalizePhone q ∈ PhoneIdentities p.
Proof.
  unfold same_subscriber. rewrite identities_full. intros H. apply elem_of_app. unfold CanonicalPhone in H. destruct (_ && _ && _) eqn:E; [| by left].
  right. apply list_elem_of_bind. exists ("55" +:+ NormalizePhone q). split; [| done]. unfold bare_form. rewrite has_prefix_app. bool_hyps.
  assert (El : str_len ("55" +:+ NormalizePhone q) = 2 + str_len (NormalizePhone q)) by apply str_len_app. rewrite El.
  assert (Hl : (2 + str_len (NormalizePhone q) =? 12) || (2 + str_len (NormalizePhone q) =? 13) = true).
  { apply orb_true_iff in H0 as [H0 | H0]; bool_hyps; lia. }
  rewrite Hl. cbn [andb]. change 2%nat with (String.length "55"). rewrite str_drop_app. by left.
Qed.

Section Shield.
Context (parse_uuid : string -> option uuid).
(** A run that has only asked so far; one that has left the recipients alone. *)
Definition same_tables (s s' : CState) : Prop := cs_base s' = cs_base s.
Definition same_recipients (s s' : CState) : Prop := cb_recipients (cs_base s') = cb_recipients (cs_base s).
#[local] Instance same_tables_preorder : PreOrder same_tables.
Proof. split; [done |]. intros s1 s2 s3 H1 H2. unfold same_tables in *. congruence. Qed.
#[local] Instance same_recipients_preorder : PreOrder same_recipients.
Proof. split; [done |]. intros s1 s2 s3 H1 H2. unfold same_recipients in *. congruence. Qed.
Definition reads_only X (op : cp_op X) : Prop := match op with CDo f => exists g, f = select g | _ => True end.
Lemma reads_same X (op : cp_op X) s x s' : reads_only X op -> cp_sem X op s x s' -> same_tables s s'.
Proof.
  destruct op; simpl; intros Hp; try (intros ->; done).
  - by intros (a & _ & ->).
  - destruct Hp as [g ->]. intros (b & [H | [_ [-> | ->]]]%db_sem_exec & ->); [| done..]. unfold select in H. by simplify_eq.
  - by intros (k & _ & ->).
  - by intros [[-> _] | (e & _ & -> & _)].
  - by intros [-> _].
  - by intros [[-> _] | (e & _ & _ & -> & _)].
  - by intros [-> | ->].
Qed.
Definition spares X (op : cp_op X) : Prop := match op with CDo f => forall b, cb_recipients (snd (f b)) = cb_recipients b | _ => True end.
Lemma spares_step X (op : cp_op X) s x s' : spares X op -> cp_sem X op s x s' -> same_recipients s s'.
Proof.
  destruct op; simpl; intros Hp; try (intros ->; done).
  - by intros (a & _ & ->).
  - intros (b & [H | [_ [-> | ->]]]%db_sem_exec & ->); [| done | apply Hp]. specialize (Hp (cs_base s)). by rewrite <- H in Hp.
  - by intros (k & _ & ->).
  - by intros [[-> _] | (e & _ & -> & _)].
  - by intros [-> _].
  - by intros [[-> _] | (e & _ & _ & -> & _)].
  - by intros [-> | ->].
Qed.
Lemma runs_reads {A} (p : CProg A) s a s' : only reads_only p -> runs cp_sem p s a s' -> same_tables s s'.
Proof. apply (runs_relation cp_sem same_tables reads_only). intros X op s1 x s2. apply reads_same. Qed.
Lemma runs_spares {A} (p : CProg A) s a s' : only spares p -> runs cp_sem p s a s' -> same_recipients s s'.
Proof. apply (runs_relation cp_sem same_recipients spares). intros X op s1 x s2. apply spares_step. Qed.
Lemma reads_only_ask {A} (p : Prog A) : only reads_only (ask p).
Proof. unfold ask. apply (only_lift _ (fun X (_ : acc_op X) => True)); [done |]. induction p; simpl; auto. Qed.
Lemma reads_own id org : only reads_only (own_campaign id org).
Proof. unfold own_campaign. destruct id; [| exact I]. split; [by eexists | by intros [|]]. Qed.
Lemma own_found id org s c s' : runs cp_sem (own_campaign id org) s (inl c) s' -> c ∈ cb_campaigns (cs_base s) /\ ca_OrganizationID c = org.
Proof.
  unfold own_campaign. destruct id as [id |]; [| by intros [? _]]. intros (x & s1 & (b & Hb & ->) & Hr). destruct x as [c' | e]; simpl in Hr; destruct Hr as [E _]; simplify_eq.
  apply exec_ok_sem in Hb. unfold campaign_in, select in Hb. injection Hb as Hb _. apply first_row_in in Hb as [Hin Hp]. bool_hyps. split; [done | by apply N.eqb_eq].
Qed.
(** Nobody whose subscriber has an open occurrence. *)
Definition shields (org : uuid) (s : CState) (phone : string) : Prop :=
  forall c, c ∈ cb_contacts (cs_base s) -> in_occurrence org (cs_base s) c = true -> ~ same_subscriber (co_PhoneNumber c) phone.
Lemma is_blocked_spec org b r c : c ∈ cb_contacts b -> in_occurrence org b c = true -> same_subscriber (co_PhoneNumber c) (rq_PhoneNumber r) ->
  is_blocked (List.filter (in_occurrence org b) (cb_contacts b) ≫= fun c => PhoneIdentities (co_PhoneNumber c)) r = true.
Proof.
  intros Hc Ho Hs. unfold is_blocked. apply existsb_exists. exists (NormalizePhone (rq_PhoneNumber r)). split; [| apply String.eqb_refl]. apply list_elem_of_In, list_elem_of_bind.
  exists c. split; [by apply normalized_identity |]. apply list_elem_of_In, List.filter_In. split; [by apply list_elem_of_In | done].
Qed.
Lemma insert_new l b r' : r' ∈ cb_recipients (snd (insert_recipients l b)) -> r' ∈ cb_recipients b \/ r' ∈ l.
Proof. unfold insert_recipients. destruct (_ || _); simpl; [by left |]. intros [H | H]%elem_of_app; auto. Qed.
Lemma sql_inv {X} (f : stmt X) s x s' : cp_sem _ (CDo f) s x s' -> cb_recipients (cs_base s') = cb_recipients (cs_base s) \/ cb_recipients (cs_base s') = cb_recipients (snd (f (cs_base s))).
Proof. intros (b & [H | [_ [-> | ->]]]%db_sem_exec & ->); [right; by rewrite <- H | by left | by right]. Qed.
Definition spared (org campaign : uuid) (s : CState) (r : Recipient) : Prop :=
  rc_CampaignID r = campaign /\ rc_Status r = MessageStatusPending /\ shields org s (rc_PhoneNumber r).
Lemma runs_add org user campaign reqs dry s a s' : runs cp_sem (addCampaignRecipients org user campaign reqs dry) s a s' ->
  forall r, r ∈ cb_recipients (cs_base s') -> r ∈ cb_recipients (cs_base s) \/ spared org (ca_ID campaign) s r.
Proof.
  unfold addCampaignRecipients. intros (x & s1 & Hx & Hr)%runs_call_bind r Hin. assert (H1 : same_tables s s1) by (by eapply reads_same; [| exact Hx]; eexists).
  assert (Hsp : forall s2, same_recipients s1 s2 -> cb_recipients (cs_base s2) = cb_recipients (cs_base s)) by (intros s2 H2; unfold same_recipients in H2; congruence).
  destruct x as [blocked | e]; [| destruct Hr as [_ ->]; left; by rewrite (Hsp s1) in Hin]. destruct dry; [destruct Hr as [_ ->]; left; by rewrite (Hsp s1) in Hin |].
  apply runs_call_bind in Hr as (ids & s2 & -> & Hr). apply runs_bind in Hr as (res & s3 & Hins & Hr).
  assert (H3 : same_recipients s3 s').
  { eapply runs_spares; [| exact Hr]. destruct res; [| exact I]. repeat (split; [done |]; intros ?). exact I. }
  rewrite H3 in Hin. case_bool_decide; [destruct Hins as [_ ->]; left; by rewrite (Hsp s1) in Hin |]. destruct Hins as (y & s4 & Hy & [_ ->]).
  apply sql_inv in Hy as [E | E]; rewrite E in Hin; [left; by rewrite (Hsp s1) in Hin |]. apply insert_new in Hin as [Hin | Hin]; [left; by rewrite (Hsp s1) in Hin |]. right.
  apply elem_of_lookup_imap in Hin as (i & q & -> & Hq). apply list_elem_of_lookup_2, list_elem_of_In, List.filter_In in Hq as [_ Hq]. split_and!; [done | done |].
  intros c Hc Ho Hs. destruct Hx as (b & Hb & ->). apply exec_ok_sem in Hb. unfold activeOccurrencePhones, select in Hb. injection Hb as <- _.
  apply negb_true_iff in Hq. simpl in Hs. by rewrite (is_blocked_spec org (cs_base s) q c) in Hq.
Qed.
Lemma spared_tables org campaign s s1 r : same_tables s s1 -> spared org campaign s1 r -> spared org campaign s r.
Proof. intros E (H1 & H2 & H3). split_and!; [done | done |]. unfold shields in *. by rewrite E in H3. Qed.
(** The two requests that add recipients. *)
Inductive adding : CProg cp_reply -> Prop :=
  | adding_import c id body : adding (ImportRecipients c id body)
  | adding_segment c id body : adding (AddRecipientsFromContacts parse_uuid c id body).

(** Nobody whose complaint is being handled is added to a campaign.  Whatever fails, a recipient
    that an import or a segment adds is pending and of the campaign asked for, and its number is
    not that of a subscriber, with or without country code and ninth digit, whose contact has an
    open occurrence in the campaign's organization. *)
Theorem open_occurrences_spared p s reply s' :
  adding p -> runs cp_sem p s reply s' ->
  forall r, r ∈ cb_recipients (cs_base s') -> r ∈ cb_recipients (cs_base s) \/
    exists k, k ∈ cb_campaigns (cs_base s) /\ ca_ID k = rc_CampaignID r /\ rc_Status r = MessageStatusPending /\ ca_Status k = CampaignStatusDraft /\
      forall c, c ∈ cb_contacts (cs_base s) -> in_occurrence (ca_OrganizationID k) (cs_base s) c = true -> ~ same_subscriber (co_PhoneNumber c) (rc_PhoneNumber r).
Proof.
  intros Hp Hr r Hin.
  assert (Hend : forall s1 org user k reqs dry, same_tables s s1 -> k ∈ cb_campaigns (cs_base s) -> ca_OrganizationID k = org -> ca_Status k = CampaignStatusDraft ->
    runs cp_sem (addCampaignRecipients org user k reqs dry) s1 reply s' -> r ∈ cb_recipients (cs_base s) \/
    exists k, k ∈ cb_campaigns (cs_base s) /\ ca_ID k = rc_CampaignID r /\ rc_Status r = MessageStatusPending /\ ca_Status k = CampaignStatusDraft /\
      forall c, c ∈ cb_contacts (cs_base s) -> in_occurrence (ca_OrganizationID k) (cs_base s) c = true -> ~ same_subscriber (co_PhoneNumber c) (rc_PhoneNumber r)).
  { intros s1 org user k reqs dry Ht Hk <- Hst Hrun. apply runs_add with (r := r) in Hrun as [H | H]; [left; by rewrite Ht in H | right | done].
    apply (spared_tables _ _ s) in H as (H1 & H2 & H3); [| done]. by exists k. }
  assert (Hsame : forall s1, same_tables s s1 -> s' = s1 -> r ∈ cb_recipients (cs_base s)) by (intros s1 E ->; by rewrite E in Hin).
  destruct Hp as [c id body | c id body]; unfold ImportRecipients, AddRecipientsFromContacts in Hr; apply runs_bind in Hr as (who & s1 & Ha & Hr); apply runs_reads in Ha; [| apply reads_only_ask | | apply reads_only_ask].
  all: destruct who as [[org user] |]; [| destruct Hr as [_ Hr]; left; by eapply Hsame].
  all: apply runs_bind in Hr as (own & s2 & Ho & Hr); pose proof (runs_reads _ _ _ _ (reads_own id org) Ho) as Ho'; assert (H2 : same_tables s s2) by (by etrans).
  all: destruct own as [k | e]; [| destruct Hr as [_ Hr]; left; by eapply Hsame].
  all: apply own_found in Ho as [Hk Horg]; rewrite Ha in Hk; destruct (negb _) eqn:Est; [destruct Hr as [_ Hr]; left; by eapply Hsame |]; apply negb_false_iff, String.eqb_eq in Est.
  all: destruct body as [req |]; [| destruct Hr as [_ Hr]; left; by eapply Hsame].
  - by eapply Hend.
  - destruct (List.find _ _); [destruct Hr as [_ Hr]; left; by eapply Hsame |]. destruct (_ && _); [destruct Hr as [_ Hr]; left; by eapply Hsame |].
    apply runs_bind in Hr as (pl & s3 & Hpl & Hr). apply runs_reads in Hpl; [| apply reads_only_ask]. assert (H3 : same_tables s s3) by (by etrans).
    destruct pl as [pl | e]; [| destruct Hr as [_ Hr]; left; by eapply Hsame]. destruct (_ && _); [destruct Hr as [_ Hr]; left; by eapply Hsame |].
    apply runs_call_bind in Hr as (t & s4 & Ht & Hr). apply reads_same in Ht; [| by eexists]. apply runs_call_bind in Hr as (rs & s5 & Hrs & Hr). apply reads_same in Hrs; [| by eexists].
    assert (H5 : same_tables s s5) by (do 2 (etrans; [done |]); done). destruct rs as [recs | e]; [| destruct Hr as [_ Hr]; left; by eapply Hsame]. by eapply Hend.
Qed.
End Shield.
