(* ===== verification/CampaignJobs.v ===== *)
(** What one job leaves behind when the database answers: the recipient marked once and the campaign
    counting it once. *)
From S2P Require Import Prelude Effects Sql GoText GoAny Phone Accounts AccountsApi Templating Campaigns CampaignApi CampaignWorker.
From Stdlib Require Import SpecFloat.

(** The semantics in which every statement is carried out and answered. *)
Definition answered X (op : cp_op X) : CState -> X -> CState -> Prop :=
  match op in cp_op X return CState -> X -> CState -> Prop with
  | CDo f => fun s x s' => x = fst (f (cs_base s)) /\ s' = with_base (snd (f (cs_base s))) s
  | op => cp_sem _ op
  end.
Definition tally (s : CState) : list (uuid * bool * Counts) := map (fun c => (ca_ID c, ca_Deleted c, ca_Counts c)) (cb_campaigns (cs_base s)).
Definition counted (id : uuid) (k : column) (t : uuid * bool * Counts) : uuid * bool * Counts :=
  let '(i, d, n) := t in if N.eqb i id && negb d then (i, d, plus_one k n) else t.
(** Neither the recipients nor the counters have moved. *)
Record hands_off (s s' : CState) : Prop := MkHandsOff { ho_recipients : cb_recipients (cs_base s') = cb_recipients (cs_base s); ho_tally : tally s' = tally s }.
#[global] Instance hands_off_preorder : PreOrder hands_off.
Proof. split; [by constructor |]. intros s1 s2 s3 [H1 H2] [H3 H4]. constructor; congruence. Qed.
Definition leaves_alone X (op : cp_op X) : Prop :=
  match op with CDo f => forall b, cb_recipients (snd (f b)) = cb_recipients b /\ map (fun c => (ca_ID c, ca_Deleted c, ca_Counts c)) (cb_campaigns (snd (f b))) = map (fun c => (ca_ID c, ca_Deleted c, ca_Counts c)) (cb_campaigns b) | _ => True end.
Lemma leaves_step X (op : cp_op X) s x s' : leaves_alone X op -> answered X op s x s' -> hands_off s s'.
Proof.
  destruct op; simpl; intros Hp; try (intros ->; done).
  - by intros (a & _ & ->).
  - intros [_ ->]. destruct (Hp (cs_base s)) as [H1 H2]. by constructor.
  - by intros (k & _ & ->).
  - by intros [[-> _] | (e & _ & -> & _)].
  - by intros [-> _].
  - by intros [[-> _] | (e & _ & _ & -> & _)].
  - by intros [-> | ->].
Qed.
Abbreviation goes p s a s' := (runs answered p s a s').
Lemma runs_leaves {A} (p : CProg A) s a s' : only leaves_alone p -> goes p s a s' -> hands_off s s'.
Proof. apply (runs_relation answered hands_off leaves_alone). intros X op s1 x s2. apply leaves_step. Qed.
Lemma tally_update id (f : Campaign -> Campaign) l : (forall c, (ca_ID (f c), ca_Deleted (f c), ca_Counts (f c)) = (ca_ID c, ca_Deleted c, ca_Counts c)) ->
  map (fun c => (ca_ID c, ca_Deleted c, ca_Counts c)) (sql_update (is_campaign id) f l) = map (fun c => (ca_ID c, ca_Deleted c, ca_Counts c)) l.
Proof. intros H. unfold sql_update. rewrite map_map. apply map_ext. intros c. by destruct (is_campaign id c). Qed.
Ltac solve_leaves :=
  repeat match goal with
  | |- only _ (_ ≫= _) => apply only_bind; [| intros ?]
  | |- only _ (sql _) => split; [intros b; split; [try done | try done] | intros ?; exact I]
  | |- only _ (call _) => split; [exact I | intros ?; exact I]
  | |- only _ (mret _) => exact I
  | |- only _ (match ?x with _ => _ end) => destruct x
  | |- only _ (if ?x then _ else _) => destruct x
  | |- only _ _ => solve [auto with whatc]
  end.
Lemma leaves_contact org phone name : only leaves_alone (GetOrCreateContact org phone name).
Proof. unfold GetOrCreateContact, contactByPhone, restore_contact, rename_contact. solve_leaves; unfold insert_contact; by destruct (existsb _ _). Qed.
Lemma leaves_completion id org : only leaves_alone (checkCampaignCompletion id org).
Proof.
  unfold checkCampaignCompletion, publishCampaignStats. apply only_bind; [by split |]. intros n. destruct (_ =? 0).
  - apply only_bind; [by split |]. intros [c | e]; [| exact I]. destruct (negb _); [exact I |]. apply only_bind; [by split |]. intros now.
    apply only_bind; [| by intros; split]. split; [| done]. intros b. split; [done |]. simpl. by apply tally_update.
  - apply only_bind; [by split |]. intros [c | e]; [by split | exact I].
Qed.
Lemma leaves_send FormatG a t job media : only leaves_alone (sendTemplateMessage FormatG a t job media).
Proof. unfold sendTemplateMessage. solve_leaves. Qed.
#[local] Hint Resolve leaves_contact leaves_completion leaves_send : whatc.

(** ** Marking and counting *)
Record settled (job : RecipientJob) (status : string) (k : column) (wamid : string) (why : option string) (at_ : option instant) (s s' : CState) : Prop := MkSettled {
  st_recipients : cb_recipients (cs_base s') = sql_update (is_recipient (jb_RecipientID job)) (rc_update status (Some wamid) why at_ None None) (cb_recipients (cs_base s));
  st_tally : tally s' = map (counted (jb_CampaignID job) k) (tally s) }.
Lemma settled_around job status k wamid why at_ s s1 s2 s' : hands_off s s1 -> settled job status k wamid why at_ s1 s2 -> hands_off s2 s' -> settled job status k wamid why at_ s s'.
Proof. intros [H1 H2] [H3 H4] [H5 H6]. constructor; congruence. Qed.
Lemma goes_update id status wamid err s u s' : goes (updateRecipientStatus id status wamid err) s u s' ->
  exists now, cb_recipients (cs_base s') = sql_update (is_recipient id) (rc_update status (Some wamid) (if String.eqb err "" then None else Some err) (if String.eqb status MessageStatusSent then Some now else None) None None) (cb_recipients (cs_base s)) /\
  tally s' = tally s.
Proof. intros (now & s1 & -> & x & s2 & [-> ->] & [_ ->]). by exists now. Qed.
Lemma goes_count id k s u s' : goes (incrementCampaignCount id k) s u s' -> cb_recipients (cs_base s') = cb_recipients (cs_base s) /\ tally s' = map (counted id k) (tally s).
Proof.
  intros (x & s1 & [-> ->] & [_ ->]). split; [done |]. unfold tally. simpl. unfold sql_update. rewrite !map_map. apply map_ext. intros c. unfold counted, is_campaign. by destruct (_ && _).
Qed.
Lemma goes_mark job status wamid err k s s1 s' u v : goes (updateRecipientStatus (jb_RecipientID job) status wamid err) s u s1 -> goes (incrementCampaignCount (jb_CampaignID job) k) s1 v s' ->
  exists why at_, settled job status k wamid why at_ s s'.
Proof. intros H1 H2. apply goes_update in H1 as (now & E1 & E2). apply goes_count in H2 as [E3 E4]. do 2 eexists. constructor; [by rewrite E3 | by rewrite E4, E2]. Qed.
Definition marked (job : RecipientJob) (s s' : CState) : Prop :=
  (exists why at_, settled job MessageStatusFailed FailedCount "" why at_ s s') \/ (exists wamid why at_, settled job MessageStatusSent SentCount wamid why at_ s s').
Lemma marked_around job s s1 s2 s' : hands_off s s1 -> marked job s1 s2 -> hands_off s2 s' -> marked job s s'.
Proof.
  intros H1 [(why & at_ & H) | (w & why & at_ & H)] H3; [left; exists why, at_ | right; exists w, why, at_]; by eapply settled_around.
Qed.
Lemma goes_fail job why s o s' : goes (fail_recipient job why) s o s' -> o = JobDone /\ marked job s s'.
Proof.
  intros ([] & s1 & H1 & H2)%runs_bind. apply runs_bind in H2 as ([] & s2 & H2 & [<- ->]). split; [done |]. left. by eapply goes_mark.
Qed.
Section Jobs.
Context (FormatG : spec_float -> string).
Lemma goes_send_to c t a contact job s o s' : goes (send_to FormatG c (Some t) a contact job) s o s' -> o = JobDone /\ marked job s s'.
Proof.
  unfold send_to. intros (sent & s1 & H1 & H)%runs_bind. apply runs_leaves in H1; [| auto with whatc]. apply runs_call_bind in H as (id & s2 & -> & H).
  apply runs_bind in H as ([] & s3 & Hm & H). apply runs_bind in H as (r & s4 & Hr & H). apply runs_bind in H as ([] & s5 & Hu & H). apply runs_bind in H as ([] & s6 & Hc & [<- ->]). split; [done |].
  assert (Hrest : hands_off s3 s6).
  { transitivity s4; [eapply runs_leaves; [| exact Hr]; split; [| by intros] |].
    - intros b. unfold insert_message. by destruct (existsb _ _).
    - transitivity s5; [eapply runs_leaves; [| exact Hu]; destruct (is_ok r); [by split | exact I] |]. eapply runs_leaves; [| exact Hc]. auto with whatc. }
  eapply marked_around; [exact H1 | | exact Hrest]. destruct sent as [wamid | e]; apply runs_bind in Hm as ([] & s7 & Hm1 & Hm2).
  - right. exists wamid. by eapply goes_mark.
  - left. by eapply goes_mark.
Qed.

(** C14: a job that is due is settled once.  When the database answers, and the campaign, its template
    and a status other than paused or cancelled are there, the job ends, whatever WhatsApp and the
    queue say, with its recipient marked exactly once, as sent or as failed, that mark counted
    exactly once by its campaign, and every other recipient and counter as it was. *)
Theorem due_job_settled_once job c t s o s' :
  sql_first (is_campaign (jb_CampaignID job)) (cb_campaigns (cs_base s)) = Some c ->
  fst (template_of (ca_TemplateID c) (cs_base s)) = Ok (Some t) ->
  ca_Status c <> CampaignStatusPaused -> ca_Status c <> CampaignStatusCancelled ->
  goes (HandleRecipientJob FormatG job) s o s' ->
  o = JobDone /\ exists status k wamid why at_,
    (status = MessageStatusFailed /\ k = FailedCount \/ status = MessageStatusSent /\ k = SentCount) /\
    cb_recipients (cs_base s') = sql_update (is_recipient (jb_RecipientID job)) (rc_update status (Some wamid) why at_ None None) (cb_recipients (cs_base s)) /\
    tally s' = map (counted (jb_CampaignID job) k) (tally s).
Proof.
  intros Hc Ht Hp Hx H. assert (Hend : o = JobDone /\ marked job s s'); [| destruct Hend as [-> [(why & at_ & [H1 H2]) | (w & why & at_ & [H1 H2])]]; split; try done].
  2: by exists MessageStatusFailed, FailedCount, "", why, at_; auto.
  2: by exists MessageStatusSent, SentCount, w, why, at_; auto.
  unfold HandleRecipientJob in H. destruct H as (x & s1 & [-> ->] & H). unfold campaign_by_id, select in H. cbn [fst snd] in H. rewrite Hc in H. cbn [found] in H.
  destruct H as (x & s2 & [-> ->] & H). assert (Eb : with_base (cs_base s) s = s) by by destruct s.
  replace (snd (template_of (ca_TemplateID c) (cs_base (with_base (cs_base s) s)))) with (cs_base s) in H by done. rewrite !Eb in H. rewrite Ht in H.
  apply String.eqb_neq in Hp, Hx. rewrite Hp, Hx in H. cbn [orb] in H. destruct H as (x & s3 & [-> ->] & H). unfold account_named, select in H. cbn [snd] in H. rewrite Eb in H.
  cbn [fst] in H. destruct (found _) as [a | e]; cbn [prog_bind prog_mbind] in H; [| by apply goes_fail in H]. apply runs_bind in H as (r & s4 & Hr & H). apply runs_leaves in Hr; [| auto with whatc].
  assert (Hthen : o = JobDone /\ marked job s4 s').
  { destruct r as [contact | e]; [| by apply goes_fail in H]. destruct (opted_out contact (Some t)); [by apply goes_fail in H |]. by apply goes_send_to in H. }
  destruct Hthen as [-> Hm]. split; [done |]. eapply marked_around; [exact Hr | exact Hm | reflexivity].
Qed.
End Jobs.
