(* ===== verification/CampaignRuns.v ===== *)
(** Concrete runs of campaigns: the witnesses of [CampaignSends] and [CampaignRules], and what goes
    wrong in runs where nothing fails. *)
From S2P Require Import Prelude Effects Sql GoText GoAny Phone Permissions Accounts Migration Access AccountsApi Tenancy Templating Campaigns CampaignApi CampaignWorker CampaignSends CampaignRules CampaignJobs.
From Stdlib Require Import SpecFloat.

(** * Operations that compute *)
Definition next_id (b : CBase) : uuid :=
  (1 + foldr N.max 0 (map ca_ID (cb_campaigns b) ++ map rc_ID (cb_recipients b) ++ map ms_ID (cb_messages b) ++ map co_ID (cb_contacts b)))%N.
Definition cp_handle X (op : cp_op X) : CState -> X * CState :=
  match op in cp_op X return CState -> X * CState with
  | CAsk op => fun s => let '(x, a) := acc_handle nobody _ op (cs_acc s) in (x, MkCState a (cs_base s) (cs_stream s) (cs_sent s))
  | CDo f => fun s => (fst (f (cs_base s)), with_base (snd (f (cs_base s))) s)
  | CID => fun s => (next_id (cs_base s), s)
  | CIDs => fun s => (fun i => (next_id (cs_base s) + N.of_nat i)%N, s)
  | CNow => fun s => (0, s)
  | CNanos => fun s => (fun _ => 0, s)
  | CAudit _ _ _ _ => fun s => (tt, s)
  | CMasks _ => fun s => (false, s)
  | CEnqueue l => fun s => (true, with_stream (xadd l (cs_stream s)) s)
  | CCancelled => fun s => (false, s)
  | CRead => fun s => match sm_Entries (cs_stream s) !! sm_Next (cs_stream s) with
                      | Some e => (Some (sm_Next (cs_stream s), e), with_stream (deliver_next (cs_stream s)) s)
                      | None => (None, s)
                      end
  | CPending => fun s => (Some (sm_Pending (cs_stream s)), s)
  | CClaim i => fun s => match sm_Entries (cs_stream s) !! i with
                         | Some e => if decide (i ∈ sm_Pending (cs_stream s)) then (Some [(i, e)], with_stream (deliver_again (cs_stream s)) s) else (Some [], s)
                         | None => (Some [], s)
                         end
  | CAck i => fun s => (tt, with_stream (xack i (cs_stream s)) s)
  | CSend m => fun s => (inl ("wamid." +:+ itoa (Z.of_nat (length (cs_sent s)))), MkCState (cs_acc s) (cs_base s) (cs_stream s) (cs_sent s ++ [m]))
  | CUpload _ _ _ _ => fun s => (Some "media", s)
  | CSaveMedia _ _ _ => fun s => (Some "campaigns/media", s)
  | CPublish _ _ _ _ => fun s => (tt, s)
  | CUsage _ _ _ => fun s => (tt, s)
  | CUsageEvent _ _ => fun s => (tt, s)
  | CStatusSeen _ _ _ _ _ => fun s => (tt, s)
  end.
Lemma cp_handle_sem X (op : cp_op X) s : cp_sem X op s (fst (cp_handle X op s)) (snd (cp_handle X op s)).
Proof.
  destruct op; simpl; try done.
  - pose proof (acc_handle_sem nobody _ op (cs_acc s)) as H. destruct (acc_handle nobody _ op (cs_acc s)) as [x a]. by exists a.
  - exists (snd (f (cs_base s))). split; [| done]. apply db_sem_exec. left. by destruct (f (cs_base s)).
  - exists (length l). split; [done |]. by rewrite firstn_all.
  - destruct (sm_Entries (cs_stream s) !! sm_Next (cs_stream s)) as [e |] eqn:E; [right; exists e | left]; auto.
  - split; [done |]. intros l [= <-]. done.
  - destruct (sm_Entries (cs_stream s) !! i) as [e |] eqn:E; [| auto]. destruct (decide (i ∈ sm_Pending (cs_stream s))); [right; exists e | left]; auto.
  - by right.
Qed.
Abbreviation run p s := (prog_run cp_handle p s).

(** * A promotion for two customers *)
Definition seller : Ctx := MkCtx (Some 2%N) (Some 1%N) false None.
Definition no_media : Media := MkMedia "" "" "" "".
Definition promo : CTemplate := MkCTemplate 5 1 "promo" "pt_BR" "MARKETING" "" "" "Oi {{1}}" [] false.
Definition promo_campaign : Campaign := MkCampaign 7 1 "main" "June" 5 no_media CampaignStatusDraft 2 (MkCounts 0 0 0 0) None None None 2 (Some 2%N) false.
Definition customer (id : uuid) (phone name : string) : Recipient := new_recipient 7 id (MkRecipientRequest phone name [("1", AStr name)] []).
Definition shop : CBase :=
  MkCBase [promo_campaign] [customer 8 "5571991234567" "Ana"; customer 9 "5571997654321" "Bia"] [] [MkCContact 20 1 "5571991234567" "Ana" 0 false "cliente" None None false]
          [promo] [MkCAccount 3 1 "main" true false] [].
Definition shop_with (f : CBase -> CBase) : CState := MkCState office (f shop) (MkStream [] 0 [] 0) [].
Definition opening : CState := shop_with id.
Abbreviation start := (StartCampaign seller (Some 7%N)).
Abbreviation pause := (PauseCampaign seller (Some 7%N)).
Abbreviation cancel := (CancelCampaign seller (Some 7%N)).
Abbreviation work n := (Consume no_floats n).
Definition started_shop : CState := snd (run start opening).
Definition sent_to (s : CState) : list string := map sn_Phone (cs_sent s).
Definition the_status (s : CState) : option string := ca_Status <$> head (cb_campaigns (cs_base s)).
Definition the_counts (s : CState) : option Counts := ca_Counts <$> head (cb_campaigns (cs_base s)).
Example sent_and_completed :
  let s := snd (run (work 3) started_shop) in
  sent_to s = ["5571991234567"; "5571997654321"] /\ the_status s = Some CampaignStatusCompleted /\ the_counts s = Some (MkCounts 2 0 0 0) /\
  map ms_Content (cb_messages (cs_base s)) = ["Oi Ana"; "Oi Bia"].
Proof. vm_compute. done. Qed.
Lemma started_sound : sound started_shop.
Proof.
  constructor.
  - split; vm_compute; repeat constructor; set_solver.
  - assert (E : sm_Entries (cs_stream started_shop) = map recipient_entry (map (job_for 7 1) (cb_recipients shop))) by (vm_compute; reflexivity). rewrite E.
    assert (Hb : forall id c p, belongs shop id c p -> belongs (cs_base started_shop) id c p) by (intros id c p (r & Hr & H); exists r; split; [exact Hr | done]).
    apply Forall_forall. intros e (j & -> & (r & -> & Hr)%list_elem_of_fmap)%list_elem_of_fmap. apply genuine_payload. split.
    + eexists. split; [by left | by split].
    + apply Hb. exists r. split_and!; [done | done | | done]. simpl in Hr. set_solver.
  - constructor.
Qed.
Theorem campaigns_send_at_home_witness :
  sent_to (snd (run (work 3) started_shop)) = ["5571991234567"; "5571997654321"] /\
  forall m, m ∈ cs_sent (snd (run (work 3) started_shop)) -> exists c r, c ∈ cb_campaigns (cs_base (snd (run (work 3) started_shop))) /\ r ∈ cb_recipients (cs_base (snd (run (work 3) started_shop))) /\
    ca_ID c = jb_CampaignID (sn_Job m) /\ rc_ID r = jb_RecipientID (sn_Job m) /\ rc_CampaignID r = ca_ID c /\ sn_Phone m = rc_PhoneNumber r /\
    sn_Account m ∈ cb_accounts (cs_base started_shop) /\ wa_OrganizationID (sn_Account m) = ca_OrganizationID c.
Proof.
  split; [vm_compute; reflexivity |].
  apply (campaigns_send_at_home no_floats (fun _ => None) started_shop [work 3] (snd (run (work 3) started_shop)) [Ret (fst (run (work 3) started_shop))]).
  - apply started_sound.
  - constructor; [apply work_consume | constructor].
  - apply (prog_run_steps cp_sem cp_handle); [apply cp_handle_sem | apply surjective_pairing].
Defined.
Theorem sends_bounded_witness :
  length (cs_sent (snd (run (work 3) started_shop))) = 2%nat /\
  (length (cs_sent (snd (run (work 3) started_shop))) <= length (sm_Entries (cs_stream (snd (run (work 3) started_shop)))) + sm_Reclaims (cs_stream (snd (run (work 3) started_shop))))%nat.
Proof.
  split; [vm_compute; reflexivity |].
  apply (sends_bounded no_floats (fun _ => None) started_shop [work 3] (snd (run (work 3) started_shop)) [Ret (fst (run (work 3) started_shop))]).
  - apply Nat.le_0_l.
  - vm_compute. apply Nat.le_refl.
  - constructor; [apply work_consume | constructor].
  - apply (prog_run_steps cp_sem cp_handle); [apply cp_handle_sem | apply surjective_pairing].
Defined.

(** ** One job *)
Lemma cp_handle_answered X (op : cp_op X) s : answered X op s (fst (cp_handle X op s)) (snd (cp_handle X op s)).
Proof. pose proof (cp_handle_sem X op s) as H. by destruct op. Qed.
Definition first_job : RecipientJob := job_for 7 1 (customer 8 "5571991234567" "Ana").
Abbreviation handled := (run (HandleRecipientJob no_floats first_job) started_shop).
Theorem due_job_settled_once_witness :
  map rc_Status (cb_recipients (cs_base (snd handled))) = [MessageStatusSent; MessageStatusPending] /\
  fst handled = JobDone /\ exists status k wamid why at_,
    (status = MessageStatusFailed /\ k = FailedCount \/ status = MessageStatusSent /\ k = SentCount) /\
    cb_recipients (cs_base (snd handled)) = sql_update (is_recipient (jb_RecipientID first_job)) (rc_update status (Some wamid) why at_ None None) (cb_recipients (cs_base started_shop)) /\
    tally (snd handled) = map (counted (jb_CampaignID first_job) k) (tally started_shop).
Proof.
  split; [vm_compute; reflexivity |].
  apply (due_job_settled_once no_floats first_job (started 0 promo_campaign) promo started_shop (fst handled) (snd handled)); [vm_compute; reflexivity | vm_compute; reflexivity | vm_compute; discriminate | vm_compute; discriminate |].
  apply prog_run_runs, cp_handle_answered.
Defined.

(** ** Adding recipients *)
Definition with_complaint (b : CBase) : CBase :=
  MkCBase (cb_campaigns b) [] (cb_messages b) (cb_contacts b) (cb_templates b) (cb_accounts b) [MkCOccurrence 1 20 None false].
Definition complaining : CState := shop_with with_complaint.
Definition both : list RecipientRequest := [MkRecipientRequest "+55 71 9123-4567" "Ana" [] []; MkRecipientRequest "5571997654321" "Bia" [] []].
Abbreviation import := (ImportRecipients seller (Some 7%N) (Some both)).
Theorem open_occurrences_spared_witness :
  map rc_PhoneNumber (cb_recipients (cs_base (snd (run import complaining)))) = ["5571997654321"] /\
  forall r, r ∈ cb_recipients (cs_base (snd (run import complaining))) -> r ∈ cb_recipients (cs_base complaining) \/
    exists k, k ∈ cb_campaigns (cs_base complaining) /\ ca_ID k = rc_CampaignID r /\ rc_Status r = MessageStatusPending /\ ca_Status k = CampaignStatusDraft /\
      forall c, c ∈ cb_contacts (cs_base complaining) -> in_occurrence (ca_OrganizationID k) (cs_base complaining) c = true -> ~ same_subscriber (co_PhoneNumber c) (rc_PhoneNumber r).
Proof.
  split; [vm_compute; reflexivity |].
  apply (open_occurrences_spared (fun _ => None) import complaining (fst (run import complaining))).
  - apply adding_import.
  - apply prog_run_runs, cp_handle_sem.
Defined.

(** * What goes wrong *)
(** Pausing and starting again enqueues who is still pending once more; the worker does not look at
    the status of a recipient, and the campaign's being completed does not stop it. *)
Lemma paused_and_restarted_sends_twice :
  let s := snd (run (work 4) (snd (run start (snd (run pause started_shop))))) in
  sent_to s = ["5571991234567"; "5571997654321"; "5571991234567"; "5571997654321"] /\ the_counts s = Some (MkCounts 4 0 0 0).
Proof. vm_compute. done. Qed.
(** A campaign whose template is gone crashes the worker that takes its first job; the job is never
    acknowledged, and the worker started next claims it and crashes before it reads anything. *)
Definition without_template (s : CState) : CState :=
  with_base (MkCBase (cb_campaigns (cs_base s)) (cb_recipients (cs_base s)) [] (cb_contacts (cs_base s)) [] (cb_accounts (cs_base s)) []) s.
Lemma deleted_template_stops_the_queue :
  let s1 := snd (run (work 9) (without_template started_shop)) in let s2 := snd (run (work 9) s1) in
  sent_to s2 = [] /\ sm_Next (cs_stream s1) = 1%nat /\ sm_Next (cs_stream s2) = 1%nat /\ sm_Pending (cs_stream s2) = [0%nat] /\ length (sm_Entries (cs_stream s2)) = 2%nat.
Proof. vm_compute. done. Qed.
(** [UpdateCampaign] takes any template id, and starting does not look for the nil one. *)
Definition parse_nil (s : string) : option uuid := if String.eqb s "00000000-0000-0000-0000-000000000000" then Some nil_uuid else None.
Definition to_no_template : CampaignRequest := MkCampaignRequest "June" "" "00000000-0000-0000-0000-000000000000" "" None.
Lemma nil_template_starts_and_crashes :
  let s0 := snd (run (UpdateCampaign parse_nil seller (Some 7%N) (Some to_no_template)) opening) in let '(reply, s1) := run start s0 in
  reply = CDone "Campaign started" /\ sent_to (snd (run (work 9) s1)) = [] /\ sm_Next (cs_stream (snd (run (work 9) s1))) = 1%nat.
Proof. vm_compute. done. Qed.
(** A job that fails early, here for an opted-out contact, does not ask whether the campaign is
    complete: with the last job it stays in processing for good. *)
Definition opted (b : CBase) : CBase :=
  MkCBase (cb_campaigns b) [customer 8 "5571991234567" "Ana"] [] [MkCContact 20 1 "5571991234567" "Ana" 0 true "cliente" None None false] (cb_templates b) (cb_accounts b) [].
Lemma opted_out_leaves_it_processing :
  let s := snd (run (work 5) (snd (run start (shop_with opted)))) in
  sent_to s = [] /\ the_status s = Some CampaignStatusProcessing /\ map rc_Status (cb_recipients (cs_base s)) = [MessageStatusFailed] /\ the_counts s = Some (MkCounts 0 0 0 1).
Proof. vm_compute. done. Qed.
(** A failure WhatsApp reports twice is counted twice. *)
Definition failed_report : CProg unit := processStatusUpdate "wamid.0" MessageStatusFailed [].
Lemma failure_counted_twice :
  let s := snd (run failed_report (snd (run failed_report (snd (run (work 3) started_shop))))) in
  the_counts s = Some (MkCounts 2 0 0 2) /\ map ms_Status (cb_messages (cs_base s)) = [MessageStatusFailed; MessageStatusSent].
Proof. vm_compute. done. Qed.
(** Cancelling and pausing at once: the caller is told that the campaign is cancelled, and it is
    paused, so it can be started again. *)
Lemma cancelled_then_paused :
  exists s', pool_steps cp_sem (started_shop, [pause; cancel]) (s', [Ret (CDone "Campaign paused"); Ret (CDone "Campaign cancelled")]) /\ the_status s' = Some CampaignStatusPaused.
Proof.
  set (s1 := with_base (snd (update_campaign 7 (with_status CampaignStatusCancelled) (cs_base started_shop))) started_shop).
  set (s2 := with_base (snd (update_campaign 7 (with_status CampaignStatusPaused) (cs_base s1))) s1). exists s2. split; [| vm_compute; reflexivity].
  assert (Hq : forall X (f : stmt X) s, cp_sem _ (CDo f) s (fst (f (cs_base s))) (with_base (snd (f (cs_base s))) s)) by (intros X f s; apply (cp_handle_sem _ (CDo f) s)).
  eapply rtc_l; [apply (step_op cp_sem started_shop [] _ (CDo (campaign_in 7 1)) _ [cancel] _ _ (Hq _ _ _)) |].
  eapply rtc_l; [apply (step_op cp_sem _ [_] _ (CDo (campaign_in 7 1)) _ [] _ _ (Hq _ _ _)) |].
  eapply rtc_l; [apply (step_op cp_sem _ [_] _ (CDo (update_campaign 7 (with_status CampaignStatusCancelled))) _ [] _ _ (Hq _ _ _)) |].
  eapply rtc_l; [apply (step_op cp_sem _ [] _ (CDo (update_campaign 7 (with_status CampaignStatusPaused))) _ [_] _ _ (Hq _ _ _)) |].
  apply rtc_refl.
Qed.
