(* ===== verification/Occurrences.v ===== *)
(** Occurrences, the tracked cases of a contact ([internal/models/occurrences.go] and its
    siblings): the tables, the statements on them, and what a request may do. *)
From S2P Require Import Prelude Effects Sql GoText GoAny Visibility Accounts AccountsApi.

(** * Tables *)
Definition OccurrenceEventOpened := "opened".
Definition OccurrenceEventNote := "note".
Definition OccurrenceEventReply := "reply".
Definition OccurrenceEventStageChange := "stage_change".
Definition OccurrenceEventAssignment := "assignment".
Definition OccurrenceEventProtocolSent := "protocol_sent".
Definition OccurrenceEventClosed := "closed".
Definition OccurrenceEventProcessMessageUsed := "process_message_used".
Definition OccurrencePriorityLow := "low".
Definition OccurrencePriorityNormal := "normal".
Definition OccurrencePriorityHigh := "high".
Definition OccurrencePriorityUrgent := "urgent".

Record OccurrenceStage := MkStage {
  sg_ID : uuid; sg_OrganizationID : uuid; sg_Name : string; sg_Color : string; sg_Position : Z; sg_IsInitial : bool; sg_IsClosing : bool; sg_Deleted : bool }.
(** Of a case: its classification, its sale, its deadlines and first reply. *)
Record Labels := MkLabels { lb_UnitID : option uuid; lb_DepartmentID : option uuid; lb_CategoryID : option uuid; lb_WhatHappenedID : option uuid }.
Record Sale := MkSale { sa_SaleChannel : string; sa_InvoiceNumber : string; sa_PurchaseDate : option instant; sa_ProductDescription : string }.
Record SLATracking := MkSLA { sl_ResponseDeadline : option instant; sl_ResolutionDeadline : option instant; sl_FirstResponseAt : option instant; sl_FirstResponseByID : option uuid }.
Record Occurrence := MkOccurrence {
  o_ID : uuid; o_OrganizationID : uuid; o_ContactID : uuid; o_ProtocolNumber : string; o_Title : string; o_Description : string; o_StageID : uuid;
  o_Priority : string; o_AssignedUserID : option uuid; o_OpenedByUserID : uuid; o_OpenedAt : instant; o_ClosedAt : option instant;
  o_SourceTransferID : option uuid; o_Labels : Labels; o_ProcessID : option uuid; o_Source : string; o_Sale : Sale; o_SLA : SLATracking }.
(** [ev_Stages]: the two stages in the metadata of a change of stage. *)
Record OccurrenceEvent := MkEvent {
  ev_ID : uuid; ev_OrganizationID : uuid; ev_OccurrenceID : uuid; ev_Type : string; ev_Content : string; ev_Stages : option (uuid * uuid); ev_CreatedByID : option uuid; ev_CreatedAt : instant }.
Record OccurrenceCounter := MkCounter { ct_OrganizationID : uuid; ct_Year : Z; ct_LastSeq : Z }.
Record OccurrenceCategory := MkCategory { cg_ID : uuid; cg_OrganizationID : uuid; cg_Name : string; cg_ParentID : option uuid; cg_Position : Z; cg_IsActive : bool; cg_Deleted : bool }.
Record OccurrenceWhatHappened := MkReason { wh_ID : uuid; wh_OrganizationID : uuid; wh_Name : string; wh_Position : Z; wh_IsActive : bool; wh_CategoryID : option uuid; wh_Deleted : bool }.
Record OccurrenceProcess := MkProcess {
  pr_ID : uuid; pr_OrganizationID : uuid; pr_Name : string; pr_Description : string; pr_CategoryID : option uuid; pr_WhatHappenedID : option uuid; pr_DepartmentID : option uuid;
  pr_Guidance : string; pr_Restrictions : string; pr_EvidenceChecklist : list string; pr_RequiredFields : list string;
  pr_ResponseMinutes : option Z; pr_ResolutionMinutes : option Z; pr_Position : Z; pr_IsActive : bool; pr_Deleted : bool }.
Record OccurrenceProcessMessage := MkProcessMessage { pm_ID : uuid; pm_OrganizationID : uuid; pm_ProcessID : uuid; pm_Stage : string; pm_Content : string; pm_IsActive : bool; pm_Deleted : bool }.
(** [po_Scoped]: one of department, unit and category is set. *)
Record OccurrenceSLAPolicy := MkPolicy { po_ID : uuid; po_OrganizationID : uuid; po_Scoped : bool; po_Priority : string; po_ResponseMinutes : Z; po_ResolutionMinutes : Z; po_Deleted : bool }.
Record DocumentItem := MkItem { it_Code : string; it_Description : string; it_Quantity : string }.
(** A document is only deleted for good. *)
Record OccurrenceDocument := MkDocument {
  dc_ID : uuid; dc_OrganizationID : uuid; dc_OccurrenceID : uuid; dc_Type : string; dc_Number : string; dc_PurchaseDate : option instant; dc_Items : list DocumentItem;
  dc_AttachmentPath : string; dc_AttachmentName : string; dc_AttachmentMime : string; dc_CreatedByID : option uuid }.
Record OContact := MkOContact {
  kc_ID : uuid; kc_OrganizationID : uuid; kc_ProfileName : string; kc_WhatsAppAccount : string; kc_LastInboundAt : option instant;
  kc_AssignedUserID : option uuid; kc_TeamID : option uuid; kc_Deleted : bool }.
Record OTransfer := MkOTransfer { tf_ID : uuid; tf_OrganizationID : uuid; tf_TeamID : option uuid; tf_Deleted : bool }.
Record OTeam := MkOTeam { tm_ID : uuid; tm_OrganizationID : uuid; tm_UnitID : option uuid; tm_DepartmentID : option uuid; tm_Deleted : bool }.
Record OAccount := MkOAccount { oa_OrganizationID : uuid; oa_Name : string; oa_Deleted : bool }.
(** The catalogue an organization configures, and its cases. *)
Record Catalogue := MkCatalogue {
  ca_stages : list OccurrenceStage; ca_categories : list OccurrenceCategory; ca_reasons : list OccurrenceWhatHappened;
  ca_processes : list OccurrenceProcess; ca_messages : list OccurrenceProcessMessage; ca_policies : list OccurrenceSLAPolicy }.
Record Cases := MkCases { cs_occurrences : list Occurrence; cs_events : list OccurrenceEvent; cs_counters : list OccurrenceCounter; cs_documents : list OccurrenceDocument }.
Record Around := MkAround { ar_contacts : list OContact; ar_transfers : list OTransfer; ar_teams : list OTeam; ar_accounts : list OAccount }.
Record OBase := MkOBase { ob_cat : Catalogue; ob_cases : Cases; ob_around : Around }.
Abbreviation stages_of b := (ca_stages (ob_cat b)).
Abbreviation categories_of b := (ca_categories (ob_cat b)).
Abbreviation reasons_of b := (ca_reasons (ob_cat b)).
Abbreviation processes_of b := (ca_processes (ob_cat b)).
Abbreviation messages_of b := (ca_messages (ob_cat b)).
Abbreviation policies_of b := (ca_policies (ob_cat b)).
Abbreviation occurrences_of b := (cs_occurrences (ob_cases b)).
Abbreviation events_of b := (cs_events (ob_cases b)).
Abbreviation counters_of b := (cs_counters (ob_cases b)).
Abbreviation documents_of b := (cs_documents (ob_cases b)).
Definition set_cat f (b : OBase) : OBase := MkOBase (f (ob_cat b)) (ob_cases b) (ob_around b).
Definition set_cases f (b : OBase) : OBase := MkOBase (ob_cat b) (f (ob_cases b)) (ob_around b).
Definition set_stages f := set_cat (fun c => MkCatalogue (f (ca_stages c)) (ca_categories c) (ca_reasons c) (ca_processes c) (ca_messages c) (ca_policies c)).
Definition set_categories f := set_cat (fun c => MkCatalogue (ca_stages c) (f (ca_categories c)) (ca_reasons c) (ca_processes c) (ca_messages c) (ca_policies c)).
Definition set_reasons f := set_cat (fun c => MkCatalogue (ca_stages c) (ca_categories c) (f (ca_reasons c)) (ca_processes c) (ca_messages c) (ca_policies c)).
Definition set_processes f := set_cat (fun c => MkCatalogue (ca_stages c) (ca_categories c) (ca_reasons c) (f (ca_processes c)) (ca_messages c) (ca_policies c)).
Definition set_messages f := set_cat (fun c => MkCatalogue (ca_stages c) (ca_categories c) (ca_reasons c) (ca_processes c) (f (ca_messages c)) (ca_policies c)).
Definition set_policies f := set_cat (fun c => MkCatalogue (ca_stages c) (ca_categories c) (ca_reasons c) (ca_processes c) (ca_messages c) (f (ca_policies c))).
Definition set_occurrences f := set_cases (fun c => MkCases (f (cs_occurrences c)) (cs_events c) (cs_counters c) (cs_documents c)).
Definition set_events f := set_cases (fun c => MkCases (cs_occurrences c) (f (cs_events c)) (cs_counters c) (cs_documents c)).
Definition set_counters f := set_cases (fun c => MkCases (cs_occurrences c) (cs_events c) (f (cs_counters c)) (cs_documents c)).
Definition set_documents f := set_cases (fun c => MkCases (cs_occurrences c) (cs_events c) (cs_counters c) (f (cs_documents c))).

(** * Statements *)
Definition stmt (X : Type) : Type := OBase -> Res X * OBase.
Abbreviation ODb := (Db OBase).
Definition select {X} (f : OBase -> Res X) : stmt X := fun b => (f b, b).
Definition found {A} (o : option A) : Res A := match o with Some a => Ok a | None => Err ErrNotFound end.
(** [First] orders by the primary key. *)
Definition first_by {Row} (id : Row -> uuid) (p : Row -> bool) (l : list Row) : option Row := sql_min (fun a b => (id a <=? id b)%N) (List.filter p l).
Definition counted {Row} (p : Row -> bool) (l : list Row) : Res Z := Ok (sql_count p l).
Definition update_where {X} (set : (list X -> list X) -> OBase -> OBase) (p : X -> bool) (f : X -> X) : stmt unit := fun b => (Ok tt, set (sql_update p f) b).
Definition delete_where {X} (set : (list X -> list X) -> OBase -> OBase) (p : X -> bool) : stmt unit := fun b => (Ok tt, set (List.filter (fun r => negb (p r))) b).

(** ** The pipeline *)
Definition in_pipeline (org : uuid) (s : OccurrenceStage) : bool := N.eqb (sg_OrganizationID s) org && negb (sg_Deleted s).
Definition is_stage (id : uuid) (s : OccurrenceStage) : bool := N.eqb (sg_ID s) id && negb (sg_Deleted s).
Definition stage_in (id org : uuid) : stmt OccurrenceStage := select (fun b => found (sql_first (fun s => is_stage id s && N.eqb (sg_OrganizationID s) org) (stages_of b))).
Definition stage_by_id (id : uuid) : stmt OccurrenceStage := select (fun b => found (sql_first (is_stage id) (stages_of b))).
Definition count_stages (p : OccurrenceStage -> bool) : stmt Z := select (fun b => counted p (stages_of b)).
(** The partial unique index of stages on organization and name, and the primary key. *)
Definition stage_conflict (s x : OccurrenceStage) : bool :=
  N.eqb (sg_ID x) (sg_ID s) || (N.eqb (sg_OrganizationID x) (sg_OrganizationID s) && String.eqb (sg_Name x) (sg_Name s) && negb (sg_Deleted x) && negb (sg_Deleted s)).
(** An absent color is the column's default. *)
Definition stored_stage (s : OccurrenceStage) : OccurrenceStage :=
  MkStage (sg_ID s) (sg_OrganizationID s) (sg_Name s) (if String.eqb (sg_Color s) "" then "#6b7280" else sg_Color s) (sg_Position s) (sg_IsInitial s) (sg_IsClosing s) (sg_Deleted s).
Definition insert_stage (s : OccurrenceStage) : stmt unit :=
  fun b => if existsb (stage_conflict s) (stages_of b) then (Err ErrUnique, b) else (Ok tt, set_stages (fun l => l ++ [stored_stage s]) b).
(** [ON CONFLICT DO NOTHING]: the rows in conflict are left out. *)
Definition add_stage (l : list OccurrenceStage) (s : OccurrenceStage) : list OccurrenceStage := if existsb (stage_conflict s) l then l else l ++ [stored_stage s].
Definition insert_stages_quietly (new : list OccurrenceStage) : stmt unit := fun b => (Ok tt, set_stages (fun l => foldl add_stage l new) b).
Definition unset_initial (s : OccurrenceStage) : OccurrenceStage := MkStage (sg_ID s) (sg_OrganizationID s) (sg_Name s) (sg_Color s) (sg_Position s) false (sg_IsClosing s) (sg_Deleted s).
Definition deleted_stage (s : OccurrenceStage) : OccurrenceStage := MkStage (sg_ID s) (sg_OrganizationID s) (sg_Name s) (sg_Color s) (sg_Position s) (sg_IsInitial s) (sg_IsClosing s) true.
(** An update that may violate the index of names. *)
Definition update_stage (id : uuid) (f : OccurrenceStage -> OccurrenceStage) : stmt unit := fun b =>
  if existsb (fun s => is_stage id s && existsb (fun x => negb (N.eqb (sg_ID x) id) && stage_conflict (f s) x) (stages_of b)) (stages_of b)
  then (Err ErrUnique, b) else (Ok tt, set_stages (sql_update (is_stage id) f) b).

(** ** Categories and reasons *)
Definition is_category (id : uuid) (c : OccurrenceCategory) : bool := N.eqb (cg_ID c) id && negb (cg_Deleted c).
Definition category_in (id org : uuid) : stmt OccurrenceCategory := select (fun b => found (sql_first (fun c => is_category id c && N.eqb (cg_OrganizationID c) org) (categories_of b))).
Definition of_org_category (org : uuid) (c : OccurrenceCategory) : bool := N.eqb (cg_OrganizationID c) org && negb (cg_Deleted c).
Definition subcategory_of (id : uuid) (c : OccurrenceCategory) : bool := bool_decide (cg_ParentID c = Some id) && negb (cg_Deleted c).
(** The column [is_active] has the default [true], which gorm writes for a [false]. *)
Definition stored_category (c : OccurrenceCategory) : OccurrenceCategory := MkCategory (cg_ID c) (cg_OrganizationID c) (cg_Name c) (cg_ParentID c) (cg_Position c) true (cg_Deleted c).
Definition insert_categories (new : list OccurrenceCategory) : stmt unit := fun b =>
  if existsb (fun c => existsb (fun x => N.eqb (cg_ID x) (cg_ID c)) (categories_of b)) new || negb (bool_decide (NoDup (map cg_ID new)))
  then (Err ErrUnique, b) else (Ok tt, set_categories (fun l => l ++ map stored_category new) b).
Definition edit_category (name : string) (parent : option uuid) (position : Z) (active : option bool) (c : OccurrenceCategory) : OccurrenceCategory :=
  MkCategory (cg_ID c) (cg_OrganizationID c) name parent position (default (cg_IsActive c) active) (cg_Deleted c).
Definition deleted_category (c : OccurrenceCategory) : OccurrenceCategory := MkCategory (cg_ID c) (cg_OrganizationID c) (cg_Name c) (cg_ParentID c) (cg_Position c) (cg_IsActive c) true.
Definition is_reason (id : uuid) (w : OccurrenceWhatHappened) : bool := N.eqb (wh_ID w) id && negb (wh_Deleted w).
Definition reason_in (id org : uuid) : stmt OccurrenceWhatHappened := select (fun b => found (sql_first (fun w => is_reason id w && N.eqb (wh_OrganizationID w) org) (reasons_of b))).
Definition of_org_reason (org : uuid) (w : OccurrenceWhatHappened) : bool := N.eqb (wh_OrganizationID w) org && negb (wh_Deleted w).
Definition stored_reason (w : OccurrenceWhatHappened) : OccurrenceWhatHappened := MkReason (wh_ID w) (wh_OrganizationID w) (wh_Name w) (wh_Position w) true (wh_CategoryID w) (wh_Deleted w).
Definition insert_reasons (new : list OccurrenceWhatHappened) : stmt unit := fun b =>
  if existsb (fun w => existsb (fun x => N.eqb (wh_ID x) (wh_ID w)) (reasons_of b)) new || negb (bool_decide (NoDup (map wh_ID new)))
  then (Err ErrUnique, b) else (Ok tt, set_reasons (fun l => l ++ map stored_reason new) b).
Definition edit_reason (name : string) (position : Z) (category : option uuid) (active : option bool) (w : OccurrenceWhatHappened) : OccurrenceWhatHappened :=
  MkReason (wh_ID w) (wh_OrganizationID w) name position (default (wh_IsActive w) active) category (wh_Deleted w).
Definition deleted_reason (w : OccurrenceWhatHappened) : OccurrenceWhatHappened := MkReason (wh_ID w) (wh_OrganizationID w) (wh_Name w) (wh_Position w) (wh_IsActive w) (wh_CategoryID w) true.
Definition give_category (category : uuid) (w : OccurrenceWhatHappened) : OccurrenceWhatHappened :=
  MkReason (wh_ID w) (wh_OrganizationID w) (wh_Name w) (wh_Position w) (wh_IsActive w) (Some category) (wh_Deleted w).
(** [COALESCE(MAX(position), -1)]. *)
Definition max_position (l : list Z) : Z := match l with [] => -1 | p :: l' => foldr Z.max p l' end.

(** ** Processes and their messages *)
Definition is_process (id : uuid) (p : OccurrenceProcess) : bool := N.eqb (pr_ID p) id && negb (pr_Deleted p).
Definition process_in (id org : uuid) : stmt OccurrenceProcess := select (fun b => found (sql_first (fun p => is_process id p && N.eqb (pr_OrganizationID p) org) (processes_of b))).
Definition process_by_id (id : uuid) : stmt OccurrenceProcess := select (fun b => found (sql_first (is_process id) (processes_of b))).
Definition of_org_process (org : uuid) (p : OccurrenceProcess) : bool := N.eqb (pr_OrganizationID p) org && negb (pr_Deleted p).
Definition active_for (org reason : uuid) (p : OccurrenceProcess) : bool := of_org_process org p && bool_decide (pr_WhatHappenedID p = Some reason) && pr_IsActive p.
(** The partial unique index [idx_occ_process_what_happened], in which a NULL equals nothing;
    the violation of the primary key is another error. *)
Definition process_conflict (p x : OccurrenceProcess) : bool :=
  match pr_WhatHappenedID p with Some reason => active_for (pr_OrganizationID p) reason p && active_for (pr_OrganizationID p) reason x | None => false end.
Definition insert_process (p : OccurrenceProcess) : stmt unit := fun b =>
  if existsb (fun x => N.eqb (pr_ID x) (pr_ID p)) (processes_of b) then (Err ErrDb, b)
  else if existsb (process_conflict p) (processes_of b) then (Err ErrUnique, b) else (Ok tt, set_processes (fun l => l ++ [p]) b).
Definition update_process (id : uuid) (f : OccurrenceProcess -> OccurrenceProcess) : stmt unit := fun b =>
  if existsb (fun p => is_process id p && existsb (fun x => negb (N.eqb (pr_ID x) id) && process_conflict (f p) x) (processes_of b)) (processes_of b)
  then (Err ErrUnique, b) else (Ok tt, set_processes (sql_update (is_process id) f) b).
Definition deleted_process (p : OccurrenceProcess) : OccurrenceProcess :=
  MkProcess (pr_ID p) (pr_OrganizationID p) (pr_Name p) (pr_Description p) (pr_CategoryID p) (pr_WhatHappenedID p) (pr_DepartmentID p) (pr_Guidance p) (pr_Restrictions p)
    (pr_EvidenceChecklist p) (pr_RequiredFields p) (pr_ResponseMinutes p) (pr_ResolutionMinutes p) (pr_Position p) (pr_IsActive p) true.
Definition message_of (process : uuid) (m : OccurrenceProcessMessage) : bool := N.eqb (pm_ProcessID m) process && negb (pm_Deleted m).
Definition message_for (org process : uuid) (stage : string) (m : OccurrenceProcessMessage) : bool := N.eqb (pm_OrganizationID m) org && message_of process m && String.eqb (pm_Stage m) stage.
Definition message_conflict (m x : OccurrenceProcessMessage) : bool := N.eqb (pm_ID x) (pm_ID m) || (message_of (pm_ProcessID m) x && String.eqb (pm_Stage x) (pm_Stage m) && negb (pm_Deleted m)).
Definition insert_message (m : OccurrenceProcessMessage) : stmt unit := fun b =>
  if existsb (message_conflict m) (messages_of b) then (Err ErrUnique, b) else (Ok tt, set_messages (fun l => l ++ [m]) b).
Definition edit_message (content : string) (active : bool) (m : OccurrenceProcessMessage) : OccurrenceProcessMessage :=
  MkProcessMessage (pm_ID m) (pm_OrganizationID m) (pm_ProcessID m) (pm_Stage m) content active (pm_Deleted m).
Definition deleted_message (m : OccurrenceProcessMessage) : OccurrenceProcessMessage :=
  MkProcessMessage (pm_ID m) (pm_OrganizationID m) (pm_ProcessID m) (pm_Stage m) (pm_Content m) (pm_IsActive m) true.
Definition of_org_policy (org : uuid) (p : OccurrenceSLAPolicy) : bool := N.eqb (po_OrganizationID p) org && negb (po_Scoped p) && negb (po_Deleted p).
Definition policy_conflict (p x : OccurrenceSLAPolicy) : bool :=
  N.eqb (po_ID x) (po_ID p) || (of_org_policy (po_OrganizationID p) x && String.eqb (po_Priority x) (po_Priority p) && of_org_policy (po_OrganizationID p) p).
Definition add_policy (l : list OccurrenceSLAPolicy) (p : OccurrenceSLAPolicy) : list OccurrenceSLAPolicy := if existsb (policy_conflict p) l then l else l ++ [p].
Definition insert_policies_quietly (new : list OccurrenceSLAPolicy) : stmt unit := fun b => (Ok tt, set_policies (fun l => foldl add_policy l new) b).
Definition policy_minutes (response resolution : Z) (p : OccurrenceSLAPolicy) : OccurrenceSLAPolicy :=
  MkPolicy (po_ID p) (po_OrganizationID p) (po_Scoped p) (po_Priority p) response resolution (po_Deleted p).

(** ** Cases *)
Definition is_case (id : uuid) (o : Occurrence) : bool := N.eqb (o_ID o) id.
Definition case_in (id org : uuid) : stmt Occurrence := select (fun b => found (sql_first (fun o => is_case id o && N.eqb (o_OrganizationID o) org) (occurrences_of b))).
Definition case_by_id (id : uuid) : stmt Occurrence := select (fun b => found (sql_first (is_case id) (occurrences_of b))).
Definition count_cases (p : Occurrence -> bool) : stmt Z := select (fun b => counted p (occurrences_of b)).
(** The total unique index on organization and protocol, and the primary key. *)
Definition insert_case (o : Occurrence) : stmt unit := fun b =>
  if existsb (fun x => is_case (o_ID o) x || (N.eqb (o_OrganizationID x) (o_OrganizationID o) && String.eqb (o_ProtocolNumber x) (o_ProtocolNumber o))) (occurrences_of b)
  then (Err ErrUnique, b) else (Ok tt, set_occurrences (fun l => l ++ [o]) b).
Definition update_case (id : uuid) (f : Occurrence -> Occurrence) : stmt unit := update_where set_occurrences (is_case id) f.
Definition delete_case (id : uuid) : stmt unit := delete_where set_occurrences (is_case id).
Definition insert_event (e : OccurrenceEvent) : stmt unit := fun b =>
  if existsb (fun x => N.eqb (ev_ID x) (ev_ID e)) (events_of b) then (Err ErrUnique, b) else (Ok tt, set_events (fun l => l ++ [e]) b).
Definition delete_events (occurrence : uuid) : stmt unit := delete_where set_events (fun e => N.eqb (ev_OccurrenceID e) occurrence).
Definition is_counter (org : uuid) (year : Z) (c : OccurrenceCounter) : bool := N.eqb (ct_OrganizationID c) org && (ct_Year c =? year).
Definition counter_row (org : uuid) (year : Z) : stmt unit := fun b =>
  (Ok tt, if existsb (is_counter org year) (counters_of b) then b else set_counters (fun l => l ++ [MkCounter org year 0]) b).
Definition bumped (c : OccurrenceCounter) : OccurrenceCounter := MkCounter (ct_OrganizationID c) (ct_Year c) (ct_LastSeq c + 1).
(** [UPDATE ... RETURNING last_seq]; the column is a [bigint]. *)
Definition bump_counter (org : uuid) (year : Z) : stmt Z := fun b =>
  match sql_first (is_counter org year) (counters_of b) with
  | None => (Err ErrNotFound, b)
  | Some c => if ct_LastSeq c =? max_int64 then (Err ErrDb, b) else (Ok (ct_LastSeq c + 1), set_counters (sql_update (is_counter org year) bumped) b)
  end.
Definition is_document (id : uuid) (d : OccurrenceDocument) : bool := N.eqb (dc_ID d) id.
Definition document_of (occurrence : uuid) (d : OccurrenceDocument) : bool := N.eqb (dc_OccurrenceID d) occurrence.
Definition document_in (id occurrence org : uuid) : stmt OccurrenceDocument :=
  select (fun b => found (sql_first (fun d => is_document id d && document_of occurrence d && N.eqb (dc_OrganizationID d) org) (documents_of b))).
Definition insert_documents (new : list OccurrenceDocument) : stmt unit := fun b =>
  if existsb (fun d => existsb (is_document (dc_ID d)) (documents_of b)) new || negb (bool_decide (NoDup (map dc_ID new)))
  then (Err ErrUnique, b) else (Ok tt, set_documents (fun l => l ++ new) b).
Definition contact_in (id org : uuid) : stmt OContact :=
  select (fun b => found (sql_first (fun c => N.eqb (kc_ID c) id && N.eqb (kc_OrganizationID c) org && negb (kc_Deleted c)) (ar_contacts (ob_around b)))).
Definition transfer_in (id org : uuid) : stmt OTransfer :=
  select (fun b => found (sql_first (fun t => N.eqb (tf_ID t) id && N.eqb (tf_OrganizationID t) org && negb (tf_Deleted t)) (ar_transfers (ob_around b)))).
Definition team_by_id (id : uuid) : stmt OTeam := select (fun b => found (sql_first (fun t => N.eqb (tm_ID t) id && negb (tm_Deleted t)) (ar_teams (ob_around b)))).
Definition account_named (org : uuid) (name : string) : stmt OAccount :=
  select (fun b => found (sql_first (fun a => N.eqb (oa_OrganizationID a) org && String.eqb (oa_Name a) name && negb (oa_Deleted a)) (ar_accounts (ob_around b)))).

(** ** Columns of a case *)
Definition in_stage (stage : uuid) (closed : option instant) (o : Occurrence) : Occurrence :=
  MkOccurrence (o_ID o) (o_OrganizationID o) (o_ContactID o) (o_ProtocolNumber o) (o_Title o) (o_Description o) stage (o_Priority o) (o_AssignedUserID o) (o_OpenedByUserID o)
    (o_OpenedAt o) closed (o_SourceTransferID o) (o_Labels o) (o_ProcessID o) (o_Source o) (o_Sale o) (o_SLA o).
Definition with_sale (s : Sale) (o : Occurrence) : Occurrence :=
  MkOccurrence (o_ID o) (o_OrganizationID o) (o_ContactID o) (o_ProtocolNumber o) (o_Title o) (o_Description o) (o_StageID o) (o_Priority o) (o_AssignedUserID o) (o_OpenedByUserID o)
    (o_OpenedAt o) (o_ClosedAt o) (o_SourceTransferID o) (o_Labels o) (o_ProcessID o) (o_Source o) s (o_SLA o).
Definition with_sla (s : SLATracking) (o : Occurrence) : Occurrence :=
  MkOccurrence (o_ID o) (o_OrganizationID o) (o_ContactID o) (o_ProtocolNumber o) (o_Title o) (o_Description o) (o_StageID o) (o_Priority o) (o_AssignedUserID o) (o_OpenedByUserID o)
    (o_OpenedAt o) (o_ClosedAt o) (o_SourceTransferID o) (o_Labels o) (o_ProcessID o) (o_Source o) (o_Sale o) s.
Definition with_protocol (p : string) (o : Occurrence) : Occurrence :=
  MkOccurrence (o_ID o) (o_OrganizationID o) (o_ContactID o) p (o_Title o) (o_Description o) (o_StageID o) (o_Priority o) (o_AssignedUserID o) (o_OpenedByUserID o)
    (o_OpenedAt o) (o_ClosedAt o) (o_SourceTransferID o) (o_Labels o) (o_ProcessID o) (o_Source o) (o_Sale o) (o_SLA o).
(** The columns an edit sets ([None]: not set). *)
Record CaseEdit := MkEdit {
  ed_Title : string; ed_Description : option string; ed_Priority : option string; ed_Deadlines : option (instant * instant); ed_AssignedUserID : option (option uuid);
  ed_UnitID : option (option uuid); ed_DepartmentID : option (option uuid); ed_CategoryID : option (option uuid); ed_WhatHappenedID : option (option uuid) }.
Definition edited (e : CaseEdit) (o : Occurrence) : Occurrence :=
  MkOccurrence (o_ID o) (o_OrganizationID o) (o_ContactID o) (o_ProtocolNumber o) (ed_Title e) (default (o_Description o) (ed_Description e)) (o_StageID o)
    (default (o_Priority o) (ed_Priority e)) (default (o_AssignedUserID o) (ed_AssignedUserID e)) (o_OpenedByUserID o) (o_OpenedAt o) (o_ClosedAt o) (o_SourceTransferID o)
    (MkLabels (default (lb_UnitID (o_Labels o)) (ed_UnitID e)) (default (lb_DepartmentID (o_Labels o)) (ed_DepartmentID e))
              (default (lb_CategoryID (o_Labels o)) (ed_CategoryID e)) (default (lb_WhatHappenedID (o_Labels o)) (ed_WhatHappenedID e)))
    (o_ProcessID o) (o_Source o) (o_Sale o)
    (match ed_Deadlines e with
     | Some (rd, xd) => MkSLA (Some rd) (Some xd) (sl_FirstResponseAt (o_SLA o)) (sl_FirstResponseByID (o_SLA o))
     | None => o_SLA o
     end).

(** * Operations *)
Inductive case_notice := CaseChanged (o : Occurrence) | EventCreated (e : OccurrenceEvent).
(** A message handed to [SendOutgoingMessage]. *)
Record OSent := MkOSent { sn_Account : OAccount; sn_Contact : OContact; sn_Content : string; sn_SentBy : option uuid; sn_Occurrence : uuid }.
Record OState := MkOState { os_acc : State; os_base : OBase; os_files : gmap string string; os_sent : list OSent; os_vis : VisDb }.
Definition with_base (b : OBase) (s : OState) : OState := MkOState (os_acc s) b (os_files s) (os_sent s) (os_vis s).
Definition with_files f (s : OState) : OState := MkOState (os_acc s) (os_base s) f (os_sent s) (os_vis s).
(** The contact as the rule of visibility reads it. *)
Definition as_contact (c : OContact) : Contact := MkContact (kc_ID c) (kc_OrganizationID c) (kc_WhatsAppAccount c) (kc_AssignedUserID c) (kc_TeamID c).

Inductive oc_op : Type -> Type :=
  | OAsk {X} (op : acc_op X) : oc_op X
  | ODo {X} (f : stmt X) : oc_op (Res X)
  | OTx {X} (body : ODb (Res X)) : oc_op (Res X)
  | OID : oc_op uuid
  | OIDs : oc_op (nat -> uuid)
  | ONow : oc_op instant
  (** The year of the server's clock. *)
  | OYear : oc_op Z
  (** Whether a user may interact with a conversation, or see it. *)
  | OMay (interact : bool) (user org : uuid) (c : OContact) : oc_op bool
  (** The conversations of the organization a user may see, as the listings ask for them. *)
  | OScope (user org : uuid) : oc_op (OContact -> bool)
  | OUserName (user : uuid) : oc_op string
  | OUnitName (unit : uuid) : oc_op string
  | OSend (m : OSent) : oc_op bool
  | OBroadcast (org contact also : uuid) (m : case_notice) : oc_op unit
  | OAudit (org user : uuid) (resource : string) (id : uuid) (action : string) : oc_op unit
  (** The files of the attachments. *)
  | OMakeDir : oc_op bool
  | OWriteFile (path data : string) : oc_op bool
  | ORemoveFile (path : string) : oc_op unit
  | OReadFile (path : string) : oc_op (option string).
Abbreviation OProg := (prog oc_op).

(** The settings and the permissions a decision is made with come from caches that may be old.
    A message may have been sent although an error comes back; a write may leave the file
    truncated, and a file may fail to be removed. *)
Definition oc_sem X (op : oc_op X) : OState -> X -> OState -> Prop :=
  match op in oc_op X return OState -> X -> OState -> Prop with
  | OAsk op => fun s x s' => exists a, acc_sem _ op (os_acc s) x a /\ s' = MkOState a (os_base s) (os_files s) (os_sent s) (os_vis s)
  | ODo f => fun s x s' => exists b, db_sem (exec f) (os_base s) x b /\ s' = with_base b s
  | OTx body => fun s x s' => exists b, db_sem (transaction body) (os_base s) x b /\ s' = with_base b s
  | OID => fun s id s' => id <> nil_uuid /\ s' = s
  | OIDs => fun s ids s' => (forall i, ids i <> nil_uuid) /\ s' = s
  | OYear => fun s y s' => 0 <= y <= max_int64 /\ s' = s
  | OMay interact user org c => fun s x s' => s' = s /\ exists settings perms,
      x = (if interact then canInteractWithConversation else canViewConversation) (os_vis s) settings perms user org (as_contact c)
  | OScope user org => fun s x s' => s' = s /\ exists settings perms, x = fun c => scopeVisibleConversations (os_vis s) settings perms user org (as_contact c)
  | OSend m => fun s _ s' => s' = MkOState (os_acc s) (os_base s) (os_files s) (os_sent s ++ [m]) (os_vis s)
  | OWriteFile path data => fun s ok s' => (ok = true /\ s' = with_files (<[path := data]> (os_files s)) s) \/ (ok = false /\ (s' = s \/ exists part, s' = with_files (<[path := part]> (os_files s)) s))
  | ORemoveFile path => fun s _ s' => s' = s \/ s' = with_files (delete path (os_files s)) s
  | OReadFile path => fun s x s' => s' = s /\ (x = os_files s !! path \/ x = None)
  | _ => fun s _ s' => s' = s
  end.
Definition ask {A} (p : Prog A) : OProg A := prog_lift (fun X => @OAsk X) p.
Definition sql {X} (f : stmt X) : OProg (Res X) := call (ODo f).
Definition tx {X} (body : ODb (Res X)) : OProg (Res X) := call (OTx body).
