(* ===== verification/OccurrenceCatalogue.v ===== *)
(** The requests on the catalogue an organization configures for its occurrences: the pipeline
    ([internal/handlers/occurrence_stages.go], the stages of occurrence_protocol.go), categories,
    reasons, processes and their messages, and the deadlines of each priority. *)
From S2P Require Import Prelude Effects Sql GoText GoAny Visibility Permissions Accounts AccountsApi Occurrences.
From Stdlib Require Import Ascii.

(** * Answers *)
Inductive oc_reply :=
  | ORefused (code : Z) (msg : string)
  | ODeleted
  | OStage (s : OccurrenceStage)
  | OStages (l : list OccurrenceStage)
  | OCategory (c : OccurrenceCategory)
  | OCategories (l : list OccurrenceCategory)
  | OReason (w : OccurrenceWhatHappened)
  | OReasons (l : list OccurrenceWhatHappened)
  | OProcess (p : OccurrenceProcess)
  | OProcesses (l : list OccurrenceProcess)
  | OResolved (p : option OccurrenceProcess)
  | OMessage (m : OccurrenceProcessMessage)
  | OMessages (l : list OccurrenceProcessMessage)
  | OPolicy (p : OccurrenceSLAPolicy)
  | OPolicies (l : list OccurrenceSLAPolicy)
  | OCase (o : Occurrence) (documents : list OccurrenceDocument)
  | OCases (l : list Occurrence) (more : bool)
  | OEvent (e : OccurrenceEvent)
  | OEvents (l : list OccurrenceEvent)
  | ODocument (d : OccurrenceDocument)
  | ODocuments (l : list OccurrenceDocument)
  | OFile (mime data : string)
  | OPreview (content : string) (has_template is_fallback : bool)
  | OLogged
  | OSentTo (protocol : string).
Definition oc_refusal (r : reply) : oc_reply := match r with Reply code msg => ORefused code msg | _ => ORefused 500 "" end.
Definition OInvalidBody : oc_reply := ORefused 400 "Invalid request body".
Definition auth (c : Ctx) (resource action : string) : OProg ((uuid * uuid) + oc_reply) :=
  r ← ask (requireAuth c resource action); mret match r with inl who => inl who | inr e => inr (oc_refusal e) end.
Definition decoded {A} (body : option A) : OProg (A + oc_reply) := mret match body with Some a => inl a | None => inr OInvalidBody end.
Definition path_id (id : option uuid) (label : string) : OProg (uuid + oc_reply) :=
  mret match id with Some id => inl id | None => inr (ORefused 400 ("Invalid " +:+ label +:+ " ID")) end.
Definition sql_or {A} (f : stmt A) (code : Z) (msg : string) : OProg (A + oc_reply) :=
  r ← sql f; mret match r with Ok a => inl a | Err _ => inr (ORefused code msg) end.
Definition tx_or {A} (body : ODb (Res A)) (code : Z) (msg : string) : OProg (A + oc_reply) :=
  r ← tx body; mret match r with Ok a => inl a | Err _ => inr (ORefused code msg) end.
Definition require (ok : bool) (code : Z) (msg : string) : OProg (unit + oc_reply) := mret (if ok then inl tt else inr (ORefused code msg)).
(** A count whose error is not looked at. *)
Definition count_or_zero (f : stmt Z) : OProg Z := r ← sql f; mret match r with Ok n => n | Err _ => 0 end.
Definition by_position {Row} (position : Row -> Z) (l : list Row) : list Row := stable_sort (fun a b => position a <=? position b) l.

(** * The processes an organization starts with *)
Definition OccurrenceProcessMessageRegistration := "registration".
Definition OccurrenceProcessMessageDocuments := "documents".
Definition OccurrenceProcessMessageFollowUp := "follow_up".
Definition OccurrenceProcessMessageForwarding := "forwarding".
Definition OccurrenceProcessMessageClosing := "closing".
Record occurrenceProcessSeed := MkSeed {
  sd_name : string; sd_category : string; sd_whatHappened : string; sd_guidance : string; sd_restrictions : string; sd_evidence : list string; sd_required : list string;
  sd_responseMinutes : option Z; sd_resolutionMinutes : option Z; sd_registrationMessage : string; sd_documentsMessage : string }.
Definition lines (l : list string) : string := str_join (String "010" "") l.
Definition defaultOccurrenceProcesses : list occurrenceProcessSeed := [
  MkSeed "Devolução após 24h" "Devolução com Estorno" "Devolução Após 24h"
    (lines ["Registrar a solicitação e encaminhar para validação, sem prometer data de crédito.";
      "Abrir a solicitação de devolução no sistema.";
      "Encaminhar à supervisora geral de contas a receber para validação.";
      "Emitir o recibo de crédito, ou lançar como devolução a ser tratada no financeiro.";
      "Liberar o material de volta ao estoque."])
    (lines ["Cancelamento é direito seu.";
      "Você pode cancelar quando quiser.";
      "A gente troca sem problema."])
    ["Nota fiscal"; "Documento do titular"; "Comprovante de pagamento"] ["invoice_number"] (Some (72 * 60)) (None)
    (lines ["Olá, Sr.(a) [Nome]. Aqui é [Atendente], do Serviço de Atendimento ao Cliente do Atacadão dos Pisos.";
      "";
      "Recebemos seu contato referente à compra da nota fiscal [NF] e registramos o protocolo [Protocolo] para acompanhar sua solicitação.";
      "";
      "Para darmos andamento, pedimos o envio de:";
      "• nota fiscal da compra;";
      "• documento do titular;";
      "• confirmação de que o material não foi retirado;";
      "";
      "A partir do recebimento faremos a análise e retornaremos em até 1 dia útil com o encaminhamento do seu caso.";
      "";
      "As soluções possíveis para situações como a sua são:";
      "• devolução com emissão de recibo de crédito, válido por 90 dias;";
      "• devolução com estorno, conforme a forma de pagamento;";
      "• manutenção da compra, caso a solicitação esteja fora das condições;";
      "";
      "A definição depende da análise, por isso não conseguimos antecipar o resultado neste momento. Nossa equipe acompanhará todas as etapas e manterá você informado."])
    "";
  MkSeed "Material já separado ou em romaneio" "Reagendamento de Entrega" "Alteração de Pedido em Separação"
    (lines ["Conferir o material, reprogramar e confirmar a nova data por escrito.";
      "Conferir e devolver o material separado ao estoque.";
      "Retirar o pedido do romaneio da data original e reprogramar.";
      "Recalcular o frete pela nova quantidade e peso.";
      "Emitir a NF de ajuste.";
      "Confirmar a nova data com o cliente por escrito."])
    (lines ["Já está separado, não dá para mudar.";
      "A entrega continua na mesma data."])
    ["Nota fiscal"; "Documento do titular"; "Conferência do material separado"; "Romaneio da data agendada"] ["invoice_number"; "product_description"] (Some (8 * 60)) (None)
    (lines ["Olá, Sr.(a) [Nome]. Aqui é [Atendente], do Serviço de Atendimento ao Cliente do Atacadão dos Pisos.";
      "";
      "Recebemos seu contato referente à compra da nota fiscal [NF] e registramos o protocolo [Protocolo] para acompanhar sua solicitação.";
      "";
      "Para darmos andamento, pedimos o envio de:";
      "• nota fiscal da compra;";
      "• documento do titular;";
      "• indicação do produto desejado;";
      "";
      "A partir do recebimento faremos a análise e retornaremos em até 1 dia útil com o encaminhamento do seu caso.";
      "";
      "As soluções possíveis para situações como a sua são:";
      "• alteração do pedido com emissão de NF de ajuste;";
      "• alteração com cobrança ou estorno da diferença de frete;";
      "• manutenção do pedido original, se o produto desejado não tiver disponibilidade;";
      "";
      "A definição depende da análise, por isso não conseguimos antecipar o resultado neste momento. Nossa equipe acompanhará todas as etapas e manterá você informado."])
    "";
  MkSeed "Divergência no ato do recebimento" "Troca de Produto" "Quantidade Divergente"
    (lines ["Acionar operações no mesmo atendimento e retornar em 48 horas úteis.";
      "Acionar imediatamente a assistente de operações para a apuração.";
      "Conferir a NF contra o romaneio e contra o registro fotográfico da entrega.";
      "Quantidade a menor: incluir no registro da entrega para averiguação.";
      "Produto ou lote divergente: retornar todo o material e replanejar a entrega."])
    (lines ["A loja errou.";
      "O motorista errou.";
      "Você que escolheu errado."])
    ["Nota fiscal"; "Foto do produto recebido"; "Foto da etiqueta da caixa"; "Foto de todos os volumes"] ["invoice_number"; "product_description"] (Some (48 * 60)) (None)
    (lines ["Olá, Sr.(a) [Nome]. Aqui é [Atendente], do Serviço de Atendimento ao Cliente do Atacadão dos Pisos.";
      "";
      "Recebemos seu contato referente à compra da nota fiscal [NF] e registramos o protocolo [Protocolo] para acompanhar sua solicitação.";
      "";
      "Para darmos andamento, pedimos o envio de:";
      "• nota fiscal da compra;";
      "• fotos do produto recebido;";
      "• foto da etiqueta da caixa;";
      "• fotos de todos os volumes entregues;";
      "";
      "Pedimos que preserve o material e as embalagens até a conclusão da análise.";
      "";
      "A partir do recebimento faremos a análise e retornaremos em até 48 horas úteis com o encaminhamento do seu caso.";
      "";
      "As soluções possíveis para situações como a sua são:";
      "• reenvio do material correto, por nossa conta, quando a divergência for da entrega;";
      "• complementação da quantidade faltante;";
      "• abertura de troca, caso o cliente opte por outro produto;";
      "• manutenção da entrega, quando o material conferir com a nota fiscal;";
      "";
      "A definição depende da análise, por isso não conseguimos antecipar o resultado neste momento. Nossa equipe acompanhará todas as etapas e manterá você informado."])
    "";
  MkSeed "Avaria: comunicação e abertura" "Troca de Produto" "Produto com Avaria"
    (lines ["Registrar sem classificar a causa e informar o número do ticket ao cliente.";
      "Aplicar apenas a triagem de exclusão. O atendente NÃO classifica a causa.";
      "Abrir o ticket e informar o número ao cliente.";
      "Solicitar as fotos e a descrição.";
      "Puxar as imagens da entrega registradas no app do motorista."])
    (lines ["Vamos trocar seu produto.";
      "Realmente veio com defeito.";
      "Isso foi no transporte.";
      "A fábrica que resolve."])
    ["Fotos do produto"; "Fotos da embalagem"; "Nota fiscal"; "Quantidade afetada em m² e caixas"] ["invoice_number"; "product_description"] (Some (5 * 24 * 60)) (None)
    (lines ["Olá, Sr.(a) [Nome]. Aqui é [Atendente], do Serviço de Atendimento ao Cliente do Atacadão dos Pisos.";
      "";
      "Recebemos seu contato referente à compra da nota fiscal [NF] e registramos o protocolo [Protocolo] para acompanhar sua solicitação.";
      "";
      "Para darmos andamento, pedimos o envio de:";
      "• nota fiscal da compra;";
      "• fotos do produto;";
      "• fotos da embalagem;";
      "• quantidade de caixas afetadas;";
      "";
      "Importante: pedimos que NÃO utilize o material e que NÃO retire as peças da embalagem até a conclusão da análise.";
      "";
      "A partir do recebimento faremos a análise e retornaremos em até 5 dias úteis com o encaminhamento do seu caso.";
      "";
      "As soluções possíveis para situações como a sua são:";
      "• substituição do material avariado;";
      "• abatimento proporcional do preço;";
      "• restituição do valor pago;";
      "• conclusão de que não há avaria coberta, com apresentação das evidências;";
      "";
      "A definição depende da análise, por isso não conseguimos antecipar o resultado neste momento. Nossa equipe acompanhará todas as etapas e manterá você informado."])
    (lines ["Olá, Sr.(a) [Nome].";
      "";
      "Lamentamos o ocorrido e agradecemos por nos informar.";
      "";
      "Para darmos andamento, pedimos que nos encaminhe:";
      "• Nota Fiscal da compra;";
      "• fotos do produto;";
      "• fotos da embalagem;";
      "• a quantidade de caixas afetadas.";
      "";
      "Importante: pedimos que NÃO utilize o material e que NÃO retire as peças da embalagem até a conclusão da análise. Isso é necessário para preservar a avaliação e as alternativas do seu caso.";
      "";
      "Seu ticket será aberto e nossa equipe retornará em até 5 dias úteis com o encaminhamento."]);
  MkSeed "Desistência sem avaria" "Devolução com Estorno" "Desistência do Pedido"
    (lines ["Analisar as imagens antes de autorizar e explicar o prazo de devolução.";
      "Aplicar a triagem de exclusão antes de abrir o protocolo.";
      "Abrir o protocolo pelo WhatsApp da empresa.";
      "Analisar as condições de recebimento cruzando as imagens do cliente com as fotos do app do motorista.";
      "Autorizar ou recusar a devolução com base na análise de imagens."])
    (lines ["Você tem 7 dias de arrependimento.";
      "Trocamos qualquer produto.";
      "Pode trazer que a gente resolve."])
    ["Nota fiscal"; "Fotos das caixas fechadas"; "Registro do canal da venda"] ["invoice_number"; "sale_channel"] (Some (2 * 24 * 60)) (Some (5 * 24 * 60))
    (lines ["Olá, Sr.(a) [Nome]. Aqui é [Atendente], do Serviço de Atendimento ao Cliente do Atacadão dos Pisos.";
      "";
      "Recebemos seu contato referente à compra da nota fiscal [NF] e registramos o protocolo [Protocolo] para acompanhar sua solicitação.";
      "";
      "Para darmos andamento, pedimos o envio de:";
      "• nota fiscal da compra;";
      "• fotos das caixas fechadas;";
      "• foto da etiqueta de lote;";
      "";
      "A análise compara as imagens enviadas com o registro fotográfico feito na entrega.";
      "";
      "A partir do recebimento faremos a análise e retornaremos em até 2 dias úteis com o encaminhamento do seu caso.";
      "";
      "As soluções possíveis para situações como a sua são:";
      "• autorização da devolução, com entrega do material no ponto de saída em até 5 dias;";
      "• emissão de recibo de crédito após a conferência do material;";
      "• recusa da devolução, quando as condições do produto não permitirem;";
      "";
      "A definição depende da análise, por isso não conseguimos antecipar o resultado neste momento. Nossa equipe acompanhará todas as etapas e manterá você informado."])
    ""].

(** * The pipeline *)
Definition defaultStages (ids : nat -> uuid) (org : uuid) : list OccurrenceStage :=
  [MkStage (ids 0%nat) org "Aberto" "#3b82f6" 0 true false false; MkStage (ids 1%nat) org "Em análise" "#f59e0b" 1 false false false;
   MkStage (ids 2%nat) org "Aguardando cliente" "#a855f7" 2 false false false; MkStage (ids 3%nat) org "Resolvido" "#10b981" 3 false true false].
Definition ensureDefaultStages (org : uuid) : OProg (Res unit) :=
  n ← sql (count_stages (in_pipeline org));
  match n with
  | Err e => mret (Err e)
  | Ok n => if 0 <? n then mret (Ok tt) else ids ← call OIDs; sql (insert_stages_quietly (defaultStages ids org))
  end.
Definition stage_order (a b : OccurrenceStage) : bool := (sg_Position a <? sg_Position b) || ((sg_Position a =? sg_Position b) && (sg_ID a <=? sg_ID b)%N).
Definition first_initial (org : uuid) : stmt OccurrenceStage :=
  select (fun b => found (sql_min stage_order (List.filter (fun s => in_pipeline org s && sg_IsInitial s) (stages_of b)))).
Definition initialStage (org : uuid) : OProg (Res OccurrenceStage) :=
  r ← ensureDefaultStages org;
  match r with Err e => mret (Err e) | Ok _ => sql (first_initial org) end.
Definition ListOccurrenceStages (c : Ctx) : OProg oc_reply :=
  '(org, _) ←! auth c ResourceOccurrences ActionRead;
  r ← ensureDefaultStages org;
  match r with
  | Err _ => mret (ORefused 500 "Failed to load stages")
  | Ok _ =>
      l ←! sql_or (select (fun b => Ok (List.filter (in_pipeline org) (stages_of b)))) 500 "Failed to load stages";
      mret (OStages (by_position sg_Position l))
  end.
Record OccurrenceStageRequest := MkStageRequest { sq_Name : string; sq_Color : string; sq_Position : Z; sq_IsInitial : bool; sq_IsClosing : bool }.
Definition unsetOtherInitial (org keep : uuid) : ODb (Res unit) :=
  exec (update_where set_stages (fun s => in_pipeline org s && negb (N.eqb (sg_ID s) keep)) unset_initial).
Definition hasOtherClosingStage (org exclude : uuid) : OProg (Res bool) :=
  n ← sql (count_stages (fun s => in_pipeline org s && sg_IsClosing s && negb (N.eqb (sg_ID s) exclude)));
  mret match n with Ok n => Ok (0 <? n) | Err e => Err e end.
(** [stage] stops closing: another one has to. *)
Definition keep_a_closing (org stage : uuid) (failure : string) : OProg (unit + oc_reply) :=
  r ← hasOtherClosingStage org stage;
  mret match r with
       | Err _ => inr (ORefused 500 failure)
       | Ok false => inr (ORefused 409 "At least one closing stage is required")
       | Ok true => inl tt
       end.
Definition unique_name {A} (r : Res A) (failure : string) (k : A -> OProg oc_reply) : OProg oc_reply :=
  match r with
  | Ok a => k a
  | Err ErrUnique => mret (ORefused 409 "A stage with this name already exists")
  | Err _ => mret (ORefused 500 failure)
  end.
Definition CreateOccurrenceStage (c : Ctx) (body : option OccurrenceStageRequest) : OProg oc_reply :=
  '(org, _) ←! auth c ResourceOccurrenceStages ActionWrite;
  req ←! decoded body;
  _ ←! require (negb (String.eqb (sq_Name req) "")) 400 "name is required";
  _ ←! require (negb (sq_IsInitial req && sq_IsClosing req)) 400 "A stage cannot be both initial and closing";
  id ← call OID;
  let stage := MkStage id org (sq_Name req) (sq_Color req) (sq_Position req) (sq_IsInitial req) (sq_IsClosing req) false in
  r ← tx (_ ←? (if sq_IsInitial req then unsetOtherInitial org nil_uuid else mret (Ok tt)); exec (insert_stage stage));
  unique_name r "Failed to create stage" (fun _ => mret (OStage (stored_stage stage))).
Definition edit_stage (req : OccurrenceStageRequest) (s : OccurrenceStage) : OccurrenceStage :=
  MkStage (sg_ID s) (sg_OrganizationID s) (sq_Name req) (sq_Color req) (sq_Position req) (sq_IsInitial req) (sq_IsClosing req) (sg_Deleted s).
Definition UpdateOccurrenceStage (c : Ctx) (id : option uuid) (body : option OccurrenceStageRequest) : OProg oc_reply :=
  '(org, _) ←! auth c ResourceOccurrenceStages ActionWrite;
  id ←! path_id id "stage";
  stage ←! sql_or (stage_in id org) 404 "Stage not found";
  req ←! decoded body;
  _ ←! require (negb (String.eqb (sq_Name req) "")) 400 "name is required";
  _ ←! require (negb (sq_IsInitial req && sq_IsClosing req)) 400 "A stage cannot be both initial and closing";
  _ ←! require (negb (sg_IsInitial stage && negb (sq_IsInitial req))) 409 "An initial stage is required; mark another stage as initial instead";
  _ ←! (if sg_IsClosing stage && negb (sq_IsClosing req) then keep_a_closing org id "Failed to update stage" else mret (inl tt));
  r ← tx (_ ←? (if sq_IsInitial req then unsetOtherInitial org id else mret (Ok tt)); exec (update_stage (sg_ID stage) (edit_stage req)));
  unique_name r "Failed to update stage" (fun _ => mret (OStage (edit_stage req stage))).
Definition DeleteOccurrenceStage (c : Ctx) (id : option uuid) : OProg oc_reply :=
  '(org, _) ←! auth c ResourceOccurrenceStages ActionDelete;
  id ←! path_id id "stage";
  stage ←! sql_or (stage_in id org) 404 "Stage not found";
  inUse ←! sql_or (count_cases (fun o => N.eqb (o_OrganizationID o) org && N.eqb (o_StageID o) id)) 500 "Failed to delete stage";
  _ ←! require (negb (0 <? inUse)) 409 "Stage is in use by existing occurrences";
  _ ←! require (negb (sg_IsInitial stage)) 409 "Cannot delete the initial stage";
  _ ←! (if sg_IsClosing stage then keep_a_closing org id "Failed to delete stage" else mret (inl tt));
  _ ←! sql_or (update_where set_stages (is_stage (sg_ID stage)) deleted_stage) 500 "Failed to delete stage";
  mret ODeleted.

(** * Categories *)
Definition defaultCategories : list string :=
  ["Troca de Produto"; "Devolução com Estorno"; "Reagendamento de Entrega"; "Orientação Fiscal"; "Realizar Pedido"; "Segunda via de NFe"].
Definition ensureDefaultCategories (org : uuid) : OProg (Res unit) :=
  n ← sql (select (fun b => counted (of_org_category org) (categories_of b)));
  match n with
  | Err e => mret (Err e)
  | Ok n =>
      if 0 <? n then mret (Ok tt)
      else ids ← call OIDs; sql (insert_categories (imap (fun i name => MkCategory (ids i) org name None (Z.of_nat i) true false) defaultCategories))
  end.
Record OccurrenceCategoryRequest := MkCategoryRequest { cq_Name : string; cq_ParentID : option string; cq_Position : Z; cq_IsActive : option bool }.
Definition ListOccurrenceCategories (c : Ctx) : OProg oc_reply :=
  '(org, _) ←! auth c ResourceOccurrences ActionRead;
  r ← ensureDefaultCategories org;
  match r with
  | Err _ => mret (ORefused 500 "Failed to load categories")
  | Ok _ =>
      l ←! sql_or (select (fun b => Ok (List.filter (of_org_category org) (categories_of b)))) 500 "Failed to load categories";
      mret (OCategories (by_position cg_Position l))
  end.
Definition subcategories (id : uuid) : OProg Z := count_or_zero (select (fun b => counted (subcategory_of id) (categories_of b))).

Section Catalogue.
Context (parse_uuid : string -> option uuid).

Definition resolveCategoryParent (org : uuid) (raw : option string) : OProg (option uuid + oc_reply) :=
  match raw with
  | None => mret (inl None)
  | Some raw =>
      if String.eqb raw "" then mret (inl None)
      else
        match parse_uuid raw with
        | None => mret (inr (ORefused 400 "invalid parent_id"))
        | Some id =>
            r ← sql (category_in id org);
            mret match r with
                 | Err _ => inr (ORefused 400 "invalid parent_id")
                 | Ok parent => match cg_ParentID parent with Some _ => inr (ORefused 400 "a subcategory cannot itself have a parent") | None => inl (Some id) end
                 end
        end
  end.
Definition CreateOccurrenceCategory (c : Ctx) (body : option OccurrenceCategoryRequest) : OProg oc_reply :=
  '(org, _) ←! auth c ResourceOccurrenceCategories ActionWrite;
  req ←! decoded body;
  _ ←! require (negb (String.eqb (cq_Name req) "")) 400 "name is required";
  parent ←! resolveCategoryParent org (cq_ParentID req);
  id ← call OID;
  let category := MkCategory id org (cq_Name req) parent (cq_Position req) (default true (cq_IsActive req)) false in
  _ ←! sql_or (insert_categories [category]) 500 "Failed to create category";
  mret (OCategory (stored_category category)).
(** A category that gets a parent: not itself, and without subcategories of its own. *)
Definition may_be_nested (id : uuid) (parent : option uuid) : OProg (unit + oc_reply) :=
  match parent with
  | None => mret (inl tt)
  | Some p =>
      if N.eqb p id then mret (inr (ORefused 400 "A category cannot be its own parent"))
      else n ← subcategories id; require (negb (0 <? n)) 400 "category has subcategories and cannot become a subcategory itself"
  end.
Definition UpdateOccurrenceCategory (c : Ctx) (id : option uuid) (body : option OccurrenceCategoryRequest) : OProg oc_reply :=
  '(org, _) ←! auth c ResourceOccurrenceCategories ActionWrite;
  id ←! path_id id "category";
  category ←! sql_or (category_in id org) 404 "Category not found";
  req ←! decoded body;
  _ ←! require (negb (String.eqb (cq_Name req) "")) 400 "name is required";
  parent ←! resolveCategoryParent org (cq_ParentID req);
  _ ←! may_be_nested id parent;
  let edit := edit_category (cq_Name req) parent (cq_Position req) (cq_IsActive req) in
  _ ←! sql_or (update_where set_categories (is_category (cg_ID category)) edit) 500 "Failed to update category";
  mret (OCategory (edit category)).
Definition DeleteOccurrenceCategory (c : Ctx) (id : option uuid) : OProg oc_reply :=
  '(org, _) ←! auth c ResourceOccurrenceCategories ActionDelete;
  id ←! path_id id "category";
  category ←! sql_or (category_in id org) 404 "Category not found";
  n ← subcategories id;
  _ ←! require (negb (0 <? n)) 409 "Category has subcategories";
  n ← count_or_zero (count_cases (fun o => bool_decide (lb_CategoryID (o_Labels o) = Some id)));
  _ ←! require (negb (0 <? n)) 409 "Category is in use by existing occurrences";
  _ ←! sql_or (update_where set_categories (is_category (cg_ID category)) deleted_category) 500 "Failed to delete category";
  mret ODeleted.

(** * Reasons *)
Definition defaultWhatHappened : list string :=
  ["Atraso na Entrega"; "Produto com Avaria"; "Diferença de Tonalidade"; "Quantidade Divergente"; "Erro no cadastro Fiscal"; "Duvida sobre o Produto"].
Definition ensureDefaultWhatHappened (org : uuid) : OProg (Res unit) :=
  n ← sql (select (fun b => counted (of_org_reason org) (reasons_of b)));
  match n with
  | Err e => mret (Err e)
  | Ok n =>
      if 0 <? n then mret (Ok tt)
      else ids ← call OIDs; sql (insert_reasons (imap (fun i name => MkReason (ids i) org name (Z.of_nat i) true None false) defaultWhatHappened))
  end.
Record OccurrenceWhatHappenedRequest := MkReasonRequest { wq_Name : string; wq_Position : Z; wq_IsActive : option bool; wq_CategoryID : string }.
Definition resolveWhatHappenedCategory (org : uuid) (raw : string) : OProg (option uuid + oc_reply) :=
  if String.eqb raw "" then mret (inl None)
  else
    match parse_uuid raw with
    | None => mret (inr (ORefused 400 "Invalid category"))
    | Some id =>
        n ← count_or_zero (select (fun b => counted (fun c => is_category id c && N.eqb (cg_OrganizationID c) org) (categories_of b)));
        mret (if 0 <? n then inl (Some id) else inr (ORefused 400 "Invalid category"))
    end.
Definition ListOccurrenceWhatHappened (c : Ctx) : OProg oc_reply :=
  '(org, _) ←! auth c ResourceOccurrences ActionRead;
  r ← ensureDefaultWhatHappened org;
  match r with
  | Err _ => mret (ORefused 500 "Failed to load reasons")
  | Ok _ =>
      l ←! sql_or (select (fun b => Ok (List.filter (of_org_reason org) (reasons_of b)))) 500 "Failed to load reasons";
      mret (OReasons (by_position wh_Position l))
  end.
Definition CreateOccurrenceWhatHappened (c : Ctx) (body : option OccurrenceWhatHappenedRequest) : OProg oc_reply :=
  '(org, _) ←! auth c ResourceOccurrenceWhatHappened ActionWrite;
  req ←! decoded body;
  _ ←! require (negb (String.eqb (wq_Name req) "")) 400 "name is required";
  category ←! resolveWhatHappenedCategory org (wq_CategoryID req);
  id ← call OID;
  let reason := MkReason id org (wq_Name req) (wq_Position req) (default true (wq_IsActive req)) category false in
  _ ←! sql_or (insert_reasons [reason]) 500 "Failed to create reason";
  mret (OReason (stored_reason reason)).
Definition UpdateOccurrenceWhatHappened (c : Ctx) (id : option uuid) (body : option OccurrenceWhatHappenedRequest) : OProg oc_reply :=
  '(org, _) ←! auth c ResourceOccurrenceWhatHappened ActionWrite;
  id ←! path_id id "reason";
  reason ←! sql_or (reason_in id org) 404 "Reason not found";
  req ←! decoded body;
  _ ←! require (negb (String.eqb (wq_Name req) "")) 400 "name is required";
  category ←! resolveWhatHappenedCategory org (wq_CategoryID req);
  let edit := edit_reason (wq_Name req) (wq_Position req) category (wq_IsActive req) in
  _ ←! sql_or (update_where set_reasons (is_reason (wh_ID reason)) edit) 500 "Failed to update reason";
  mret (OReason (edit reason)).
Definition DeleteOccurrenceWhatHappened (c : Ctx) (id : option uuid) : OProg oc_reply :=
  '(org, _) ←! auth c ResourceOccurrenceWhatHappened ActionDelete;
  id ←! path_id id "reason";
  reason ←! sql_or (reason_in id org) 404 "Reason not found";
  n ← count_or_zero (count_cases (fun o => bool_decide (lb_WhatHappenedID (o_Labels o) = Some id)));
  _ ←! require (negb (0 <? n)) 409 "Reason is in use by existing occurrences";
  _ ←! sql_or (update_where set_reasons (is_reason (wh_ID reason)) deleted_reason) 500 "Failed to delete reason";
  mret ODeleted.

(** * Processes *)
Definition findOrCreateWhatHappened (org : uuid) (name : string) : OProg (Res OccurrenceWhatHappened) :=
  r ← ensureDefaultWhatHappened org;
  match r with
  | Err e => mret (Err e)
  | Ok _ =>
      existing ← sql (select (fun b => found (first_by wh_ID (fun w => of_org_reason org w && String.eqb (wh_Name w) name) (reasons_of b))));
      match existing with
      | Ok w => mret (Ok w)
      | Err ErrNotFound =>
          p ← sql (select (fun b => Ok (max_position (map wh_Position (List.filter (of_org_reason org) (reasons_of b))))));
          match p with
          | Err e => mret (Err e)
          | Ok p =>
              id ← call OID;
              let row := MkReason id org name (p + 1) true None false in
              r ← sql (insert_reasons [row]); mret match r with Ok _ => Ok row | Err e => Err e end
          end
      | Err e => mret (Err e)
      end
  end.
Definition findOrCreateCategory (org : uuid) (name : string) : OProg (Res OccurrenceCategory) :=
  r ← ensureDefaultCategories org;
  match r with
  | Err e => mret (Err e)
  | Ok _ =>
      existing ← sql (select (fun b => found (first_by cg_ID (fun c => of_org_category org c && String.eqb (cg_Name c) name) (categories_of b))));
      match existing with
      | Ok c => mret (Ok c)
      | Err ErrNotFound =>
          p ← sql (select (fun b => Ok (max_position (map cg_Position (List.filter (of_org_category org) (categories_of b))))));
          match p with
          | Err e => mret (Err e)
          | Ok p =>
              id ← call OID;
              let row := MkCategory id org name None (p + 1) true false in
              r ← sql (insert_categories [row]); mret match r with Ok _ => Ok row | Err e => Err e end
          end
      | Err e => mret (Err e)
      end
  end.
(** The category and the reason of each seed. *)
Fixpoint seed_references (org : uuid) (seeds : list occurrenceProcessSeed) : OProg (Res (list (uuid * uuid))) :=
  match seeds with
  | [] => mret (Ok [])
  | s :: seeds' =>
      category ← findOrCreateCategory org (sd_category s);
      match category with
      | Err e => mret (Err e)
      | Ok category =>
          reason ← findOrCreateWhatHappened org (sd_whatHappened s);
          match reason with
          | Err e => mret (Err e)
          | Ok reason =>
              rest ← seed_references org seeds';
              mret match rest with Ok l => Ok ((cg_ID category, wh_ID reason) :: l) | Err e => Err e end
          end
      end
  end.
Definition seeded_process (org : uuid) (ids : nat -> uuid) (i : nat) (s : occurrenceProcessSeed) (refs : uuid * uuid) : OccurrenceProcess :=
  MkProcess (ids (3 * i)%nat) org (sd_name s) "" (Some (fst refs)) (Some (snd refs)) None (sd_guidance s) (sd_restrictions s) (sd_evidence s) (sd_required s)
    (sd_responseMinutes s) (sd_resolutionMinutes s) (Z.of_nat i) true false.
Definition seeded_messages (org : uuid) (ids : nat -> uuid) (i : nat) (s : occurrenceProcessSeed) : list OccurrenceProcessMessage :=
  MkProcessMessage (ids (3 * i + 1)%nat) org (ids (3 * i)%nat) OccurrenceProcessMessageRegistration (sd_registrationMessage s) true false ::
  (if String.eqb (sd_documentsMessage s) "" then []
   else [MkProcessMessage (ids (3 * i + 2)%nat) org (ids (3 * i)%nat) OccurrenceProcessMessageDocuments (sd_documentsMessage s) true false]).
(** One INSERT of several rows. *)
Definition insert_messages (l : list OccurrenceProcessMessage) : stmt unit := fun b =>
  match foldl (fun r m => match r with (Ok _, b') => insert_message m b' | _ => r end) (Ok tt, b) l with (Ok _, b') => (Ok tt, b') | (Err e, _) => (Err e, b) end.
Fixpoint seed_processes (org : uuid) (ids : nat -> uuid) (i : nat) (l : list (occurrenceProcessSeed * (uuid * uuid))) : ODb (Res unit) :=
  match l with
  | [] => mret (Ok tt)
  | (s, refs) :: l' =>
      _ ←? exec (insert_process (seeded_process org ids i s refs));
      _ ←? exec (update_where set_reasons (fun w => is_reason (snd refs) w && bool_decide (wh_CategoryID w = None)) (give_category (fst refs)));
      _ ←? exec (insert_messages (seeded_messages org ids i s));
      seed_processes org ids (S i) l'
  end.
Definition count_processes (org : uuid) : stmt Z := select (fun b => counted (of_org_process org) (processes_of b)).
(** The advisory lock serializes the transactions, which are atomic here. *)
Definition ensureDefaultOccurrenceProcesses (org : uuid) : OProg (Res unit) :=
  n ← sql (count_processes org);
  match n with
  | Err e => mret (Err e)
  | Ok n =>
      if 0 <? n then mret (Ok tt)
      else
        refs ← seed_references org defaultOccurrenceProcesses;
        match refs with
        | Err e => mret (Err e)
        | Ok refs =>
            ids ← call OIDs;
            tx (n ←? exec (count_processes org); if 0 <? n then mret (Ok tt) else seed_processes org ids 0 (zip defaultOccurrenceProcesses refs))
        end
  end.
Record OccurrenceProcessRequest := MkProcessRequest {
  rq_Name : string; rq_Description : string; rq_CategoryID : option string; rq_WhatHappenedID : option string; rq_Guidance : string; rq_Restrictions : string;
  rq_EvidenceChecklist : list string; rq_RequiredFields : list string; rq_ResponseMinutes : option Z; rq_ResolutionMinutes : option Z;
  rq_DepartmentID : option string; rq_Position : Z; rq_IsActive : option bool }.
(** [parseOptionalOrgUUID]: [exists_] counts the rows of the table with the id in the organization. *)
Definition parseOptionalOrgUUID (raw : option string) (exists_ : uuid -> OProg (Res Z)) : OProg (option (option uuid)) :=
  match raw with
  | None => mret (Some None)
  | Some raw =>
      if String.eqb raw "" then mret (Some None)
      else
        match parse_uuid raw with
        | None => mret None
        | Some id => n ← exists_ id; mret match n with Ok n => if n =? 0 then None else Some (Some id) | Err _ => None end
        end
  end.
Record processRefs := MkRefs { rf_category : option uuid; rf_whatHappened : option uuid; rf_department : option uuid }.
Definition parseProcessRefs (req : OccurrenceProcessRequest) (org : uuid) : OProg (processRefs + oc_reply) :=
  category ← parseOptionalOrgUUID (rq_CategoryID req) (fun id => sql (select (fun b => counted (fun c => is_category id c && N.eqb (cg_OrganizationID c) org) (categories_of b))));
  match category with
  | None => mret (inr (ORefused 400 "Invalid category_id"))
  | Some category =>
      reason ← parseOptionalOrgUUID (rq_WhatHappenedID req) (fun id => sql (select (fun b => counted (fun w => is_reason id w && N.eqb (wh_OrganizationID w) org) (reasons_of b))));
      match reason with
      | None => mret (inr (ORefused 400 "Invalid what_happened_id"))
      | Some reason =>
          department ← parseOptionalOrgUUID (rq_DepartmentID req)
            (fun id => ask (call (AQuery (fun s => counted (fun d => N.eqb (un_ID d) id && N.eqb (un_OrganizationID d) org && negb (un_Deleted d)) (st_departments s)))));
          mret match department with None => inr (ORefused 400 "Invalid department_id") | Some department => inl (MkRefs category reason department) end
      end
  end.
Definition activeProcessExists := "an active process already exists for this reason".
(** The text of a database error is not kept. *)
Definition assertNoActiveProcessForReason (org : uuid) (reason exclude : option uuid) : OProg (unit + oc_reply) :=
  match reason with
  | None => mret (inl tt)
  | Some reason =>
      n ← sql (select (fun b => counted (fun p => active_for org reason p && match exclude with Some id => negb (N.eqb (pr_ID p) id) | None => true end) (processes_of b)));
      mret match n with
           | Err _ => inr (ORefused 409 "")
           | Ok n => if 0 <? n then inr (ORefused 409 activeProcessExists) else inl tt
           end
  end.
Definition reason_conflict {A} (r : Res A) (failure : string) (k : A -> OProg oc_reply) : OProg oc_reply :=
  match r with
  | Ok a => k a
  | Err ErrUnique => mret (ORefused 409 activeProcessExists)
  | Err _ => mret (ORefused 500 failure)
  end.
Definition ListOccurrenceProcesses (c : Ctx) : OProg oc_reply :=
  '(org, _) ←! auth c ResourceOccurrenceProcesses ActionRead;
  r ← ensureDefaultOccurrenceProcesses org;
  match r with
  | Err _ => mret (ORefused 500 "Failed to load processes")
  | Ok _ =>
      l ←! sql_or (select (fun b => Ok (List.filter (of_org_process org) (processes_of b)))) 500 "Failed to load processes";
      mret (OProcesses (by_position pr_Position l))
  end.
(** The columns of a request. *)
Definition process_columns (req : OccurrenceProcessRequest) (refs : processRefs) (active : bool) (id org : uuid) (deleted : bool) : OccurrenceProcess :=
  MkProcess id org (rq_Name req) (rq_Description req) (rf_category refs) (rf_whatHappened refs) (rf_department refs) (rq_Guidance req) (rq_Restrictions req)
    (rq_EvidenceChecklist req) (rq_RequiredFields req) (rq_ResponseMinutes req) (rq_ResolutionMinutes req) (rq_Position req) active deleted.
Definition audit (org user : uuid) (resource : string) (id : uuid) (action : string) : OProg unit := _ ← call (OUserName user); call (OAudit org user resource id action).
Definition CreateOccurrenceProcess (c : Ctx) (body : option OccurrenceProcessRequest) : OProg oc_reply :=
  '(org, user) ←! auth c ResourceOccurrenceProcesses ActionWrite;
  req ←! decoded body;
  _ ←! require (negb (String.eqb (rq_Name req) "")) 400 "name is required";
  refs ←! parseProcessRefs req org;
  let isActive := default true (rq_IsActive req) in
  _ ←! (if isActive then assertNoActiveProcessForReason org (rf_whatHappened refs) None else mret (inl tt));
  id ← call OID;
  let process := process_columns req refs isActive id org false in
  r ← sql (insert_process process);
  reason_conflict r "Failed to create process" (fun _ => _ ← audit org user ResourceOccurrenceProcesses id "created"; mret (OProcess process)).
Definition UpdateOccurrenceProcess (c : Ctx) (id : option uuid) (body : option OccurrenceProcessRequest) : OProg oc_reply :=
  '(org, user) ←! auth c ResourceOccurrenceProcesses ActionWrite;
  id ←! path_id id "process";
  process ←! sql_or (process_in id org) 404 "Process not found";
  req ←! decoded body;
  _ ←! require (negb (String.eqb (rq_Name req) "")) 400 "name is required";
  refs ←! parseProcessRefs req org;
  let isActive := default (pr_IsActive process) (rq_IsActive req) in
  _ ←! (if isActive then assertNoActiveProcessForReason org (rf_whatHappened refs) (Some id) else mret (inl tt));
  r ← sql (update_process (pr_ID process) (fun p => process_columns req refs isActive (pr_ID p) (pr_OrganizationID p) (pr_Deleted p)));
  reason_conflict r "Failed to update process" (fun _ =>
    updated ←! sql_or (process_by_id id) 500 "Failed to update process";
    _ ← audit org user ResourceOccurrenceProcesses (pr_ID updated) "updated"; mret (OProcess updated)).
Definition DeleteOccurrenceProcess (c : Ctx) (id : option uuid) : OProg oc_reply :=
  '(org, user) ←! auth c ResourceOccurrenceProcesses ActionDelete;
  id ←! path_id id "process";
  process ←! sql_or (process_in id org) 404 "Process not found";
  n ←! sql_or (count_cases (fun o => bool_decide (o_ProcessID o = Some id))) 500 "Failed to delete process";
  _ ←! require (negb (0 <? n)) 409 "Process is in use by existing occurrences";
  _ ←! tx_or (_ ←? exec (update_where set_messages (message_of id) deleted_message); exec (update_where set_processes (is_process (pr_ID process)) deleted_process))
             500 "Failed to delete process";
  _ ← audit org user ResourceOccurrenceProcesses id "deleted"; mret ODeleted.

(** ** Their messages *)
Definition ResolveOccurrenceProcess (c : Ctx) (what_happened_id : string) : OProg oc_reply :=
  '(org, _) ←! auth c ResourceOccurrences ActionRead;
  r ← ensureDefaultOccurrenceProcesses org;
  match r with
  | Err _ => mret (ORefused 500 "Failed to resolve process")
  | Ok _ =>
      _ ←! require (negb (String.eqb what_happened_id "")) 400 "what_happened_id is required";
      match parse_uuid what_happened_id with
      | None => mret (ORefused 400 "Invalid what_happened_id")
      | Some id =>
          r ← sql (select (fun b => found (first_by pr_ID (active_for org id) (processes_of b))));
          mret match r with
               | Ok p => OResolved (Some p)
               | Err ErrNotFound => OResolved None
               | Err _ => ORefused 500 "Failed to resolve process"
               end
      end
  end.
Definition ListOccurrenceProcessMessages (c : Ctx) (id : option uuid) : OProg oc_reply :=
  '(org, _) ←! auth c ResourceOccurrenceProcesses ActionRead;
  id ←! path_id id "process";
  _ ←! sql_or (process_in id org) 404 "Process not found";
  l ←! sql_or (select (fun b => Ok (List.filter (fun m => N.eqb (pm_OrganizationID m) org && message_of id m) (messages_of b)))) 500 "Failed to load messages";
  mret (OMessages l).
Definition validProcessMessageStage (stage : string) : bool :=
  existsb (String.eqb stage) [OccurrenceProcessMessageRegistration; OccurrenceProcessMessageDocuments; OccurrenceProcessMessageFollowUp; OccurrenceProcessMessageForwarding; OccurrenceProcessMessageClosing].
Record ProcessMessageRequest := MkMessageRequest { mq_Content : string; mq_IsActive : option bool }.
(** Any error of the first query sends it to the creation. *)
Definition UpsertOccurrenceProcessMessage (c : Ctx) (id : option uuid) (stage : string) (body : option ProcessMessageRequest) : OProg oc_reply :=
  '(org, user) ←! auth c ResourceOccurrenceProcesses ActionWrite;
  id ←! path_id id "process";
  _ ←! sql_or (process_in id org) 404 "Process not found";
  _ ←! require (validProcessMessageStage stage) 400 "Invalid stage";
  req ←! decoded body;
  _ ←! require (negb (String.eqb (mq_Content req) "")) 400 "content is required";
  let isActive := default true (mq_IsActive req) in
  _ ← call (OUserName user);
  existing ← sql (select (fun b => found (first_by pm_ID (message_for org id stage) (messages_of b))));
  match existing with
  | Err _ =>
      mid ← call OID;
      let message := MkProcessMessage mid org id stage (mq_Content req) isActive false in
      _ ←! sql_or (insert_message message) 500 "Failed to create message";
      _ ← call (OAudit org user ResourceOccurrenceProcesses id "created"); mret (OMessage message)
  | Ok m =>
      _ ←! sql_or (update_where set_messages (fun x => N.eqb (pm_ID x) (pm_ID m) && negb (pm_Deleted x)) (edit_message (mq_Content req) isActive)) 500 "Failed to update message";
      updated ←! sql_or (select (fun b => found (sql_first (fun x => N.eqb (pm_ID x) (pm_ID m) && negb (pm_Deleted x)) (messages_of b)))) 500 "Failed to update message";
      _ ← call (OAudit org user ResourceOccurrenceProcesses id "updated"); mret (OMessage updated)
  end.
End Catalogue.

(** * Deadlines *)
Definition defaultSLAPolicies (ids : nat -> uuid) (org : uuid) : list OccurrenceSLAPolicy :=
  [MkPolicy (ids 0%nat) org false OccurrencePriorityLow 480 1440 false; MkPolicy (ids 1%nat) org false OccurrencePriorityNormal 240 720 false;
   MkPolicy (ids 2%nat) org false OccurrencePriorityHigh 120 480 false; MkPolicy (ids 3%nat) org false OccurrencePriorityUrgent 30 240 false].
Definition ensureDefaultSLAPolicies (org : uuid) : OProg (Res unit) :=
  n ← sql (select (fun b => counted (of_org_policy org) (policies_of b)));
  match n with
  | Err e => mret (Err e)
  | Ok n => if 0 <? n then mret (Ok tt) else ids ← call OIDs; sql (insert_policies_quietly (defaultSLAPolicies ids org))
  end.
Definition policy_for (org : uuid) (priority : string) : stmt OccurrenceSLAPolicy :=
  select (fun b => found (first_by po_ID (fun p => of_org_policy org p && String.eqb (po_Priority p) priority) (policies_of b))).
Definition getSLAPolicy (org : uuid) (priority : string) : OProg (Res OccurrenceSLAPolicy) :=
  r ← ensureDefaultSLAPolicies org;
  match r with Err e => mret (Err e) | Ok _ => sql (policy_for org priority) end.
Definition resolveOccurrenceSLAMinutes (org : uuid) (priority : string) (process : option uuid) : OProg (Res (Z * Z)) :=
  policy ← getSLAPolicy org priority;
  match policy with
  | Err e => mret (Err e)
  | Ok policy =>
      match process with
      | None => mret (Ok (po_ResponseMinutes policy, po_ResolutionMinutes policy))
      | Some id =>
          p ← sql (process_in id org);
          mret (Ok match p with
                   | Err _ => (po_ResponseMinutes policy, po_ResolutionMinutes policy)
                   | Ok p => (default (po_ResponseMinutes policy) (pr_ResponseMinutes p), default (po_ResolutionMinutes policy) (pr_ResolutionMinutes p))
                   end)
      end
  end.
Definition ListOccurrenceSLAPolicies (c : Ctx) : OProg oc_reply :=
  '(org, _) ←! auth c ResourceOccurrences ActionRead;
  r ← ensureDefaultSLAPolicies org;
  match r with
  | Err _ => mret (ORefused 500 "Failed to load SLA policies")
  | Ok _ =>
      l ←! sql_or (select (fun b => Ok (List.filter (of_org_policy org) (policies_of b)))) 500 "Failed to load SLA policies";
      mret (OPolicies l)
  end.
Record UpsertSLAPolicyRequest := MkPolicyRequest { yq_ResponseMinutes : Z; yq_ResolutionMinutes : Z }.
Definition valid_priority (p : string) : bool := existsb (String.eqb p) [OccurrencePriorityLow; OccurrencePriorityNormal; OccurrencePriorityHigh; OccurrencePriorityUrgent].
Definition UpsertOccurrenceSLAPolicy (c : Ctx) (priority : string) (body : option UpsertSLAPolicyRequest) : OProg oc_reply :=
  '(org, _) ←! auth c ResourceOccurrenceSLAPolicies ActionWrite;
  _ ←! require (valid_priority priority) 400 "Invalid priority";
  req ←! decoded body;
  _ ←! require (negb ((yq_ResponseMinutes req <=? 0) || (yq_ResolutionMinutes req <=? 0))) 400 "response_minutes and resolution_minutes must be positive";
  r ← ensureDefaultSLAPolicies org;
  match r with
  | Err _ => mret (ORefused 500 "Failed to update SLA policy")
  | Ok _ =>
      _ ←! sql_or (update_where set_policies (fun p => of_org_policy org p && String.eqb (po_Priority p) priority) (policy_minutes (yq_ResponseMinutes req) (yq_ResolutionMinutes req)))
                  500 "Failed to update SLA policy";
      r ← getSLAPolicy org priority;
      mret match r with Ok p => OPolicy p | Err _ => ORefused 500 "Failed to reload SLA policy" end
  end.
