(* ===== verification/OccurrenceTexts.v ===== *)
(** The texts of an occurrence: its protocol number, the purchase documents and their summary
    ([internal/handlers/occurrence_protocol.go], [occurrence_documents.go]), and the variables of a
    suggested message ([occurrence_process_messages.go]). *)
From S2P Require Import Prelude GoText GoAny Occurrences.
From Stdlib Require Import Ascii SpecFloat.

(** * The protocol number: [%d-%06d] *)
Definition protocol_text (year seq : Z) : string := itoa year +:+ "-" +:+ pad6 (itoa seq).
Example protocol_1 : map (protocol_text 2026) [1; 42; 999999; 1000000] = ["2026-000001"; "2026-000042"; "2026-999999"; "2026-1000000"].
Proof. reflexivity. Qed.

(** * Documents *)
Definition OccurrenceDocumentNF := "nf".
Definition OccurrenceDocumentCupom := "cupom".
Record OccurrenceDocumentRequest := MkDocumentRequest { dq_Type : string; dq_Number : string; dq_PurchaseDate : string; dq_Items : list DocumentItem }.
Definition maxOccurrenceDocuments : Z := 20.
Definition maxOccurrenceDocumentItems : Z := 100.
Section Documents.
(** [time.ParseInLocation] of a date in the time zone of the organization. *)
Context (parse_date : string -> option instant).
Definition optional_date (s : string) : option (option instant) := if String.eqb s "" then Some None else match parse_date s with Some t => Some (Some t) | None => None end.
Definition kept_item (it : DocumentItem) : option DocumentItem :=
  let desc := trim_space (it_Description it) in
  if String.eqb desc "" then None else Some (MkItem (trim_space (it_Code it)) desc (trim_space (it_Quantity it))).
(** A row, without its id and its occurrence. *)
Definition buildOccurrenceDocument (org user : uuid) (req : OccurrenceDocumentRequest) : OccurrenceDocument + string :=
  if negb (String.eqb (dq_Type req) OccurrenceDocumentNF) && negb (String.eqb (dq_Type req) OccurrenceDocumentCupom) then inr "document type must be nf or cupom"
  else
    let number := trim_space (dq_Number req) in
    if 60 <? str_len number then inr "document number is too long"
    else
      match optional_date (dq_PurchaseDate req) with
      | None => inr "invalid purchase_date"
      | Some date =>
          if maxOccurrenceDocumentItems <? Z.of_nat (length (dq_Items req)) then inr "too many products"
          else inl (MkDocument nil_uuid org nil_uuid (dq_Type req) number date (omap kept_item (dq_Items req)) "" "" "" (Some user))
      end.
Fixpoint build_all (org user : uuid) (reqs : list OccurrenceDocumentRequest) : list OccurrenceDocument + string :=
  match reqs with
  | [] => inl []
  | req :: reqs' =>
      match buildOccurrenceDocument org user req with
      | inr e => inr e
      | inl d => match build_all org user reqs' with inr e => inr e | inl l => inl (d :: l) end
      end
  end.
Definition buildOccurrenceDocuments (org user : uuid) (reqs : list OccurrenceDocumentRequest) : list OccurrenceDocument + string :=
  if maxOccurrenceDocuments <? Z.of_nat (length reqs) then inr "too many documents" else build_all org user reqs.
End Documents.

(** ** Their summary *)
(** The bytes of a rune after [[]rune(s)]: those of U+FFFD for a byte that is no rune. *)
Definition replacement : string := String "239" (String "191" (String "189" "")).
Definition rune_bytes (x : Z * string) : string := if fst x =? rune_error then replacement else snd x.
Definition ellipsis : string := String "226" (String "128" (String "166" "")).
Definition truncateRunes (s : string) (n : Z) : string :=
  let r := runes s in
  if Z.of_nat (length r) <=? n then s else str_concat (map rune_bytes (take (Z.to_nat (n - 1)) r)) +:+ ellipsis.
Definition summaryNumberSep := ", ".
Definition summaryProductSep := "; ".
Definition documentProducts (d : OccurrenceDocument) : list string := List.filter (fun s => negb (String.eqb s "")) (map it_Description (dc_Items d)).
Definition earlier (d : option instant) (than : option instant) : bool :=
  match d, than with Some d, Some t => d <? t | Some _, None => true | None, _ => false end.
Definition earliest (date : option instant) (d : OccurrenceDocument) : option instant := if earlier (dc_PurchaseDate d) date then dc_PurchaseDate d else date.
Definition first_purchase (docs : list OccurrenceDocument) : option instant := foldl earliest None docs.
Definition summarizeOccurrenceDocuments (docs : list OccurrenceDocument) : string * option instant * string :=
  (truncateRunes (str_join summaryNumberSep (List.filter (fun s => negb (String.eqb s "")) (map dc_Number docs))) 255, first_purchase docs,
   truncateRunes (str_join summaryProductSep (docs ≫= documentProducts)) 255).
Definition push_byte (c : ascii) (l : list string) : list string := match l with h :: t => String c h :: t | [] => [] end.
(** [strings.Split] with a separator. *)
Fixpoint split_from (sep : string) (skip : nat) (s : string) : list string :=
  match s with
  | EmptyString => [""]
  | String c s' =>
      match skip with
      | S skip' => split_from sep skip' s'
      | O => if has_prefix sep s then "" :: split_from sep (String.length sep - 1) s' else push_byte c (split_from sep O s')
      end
  end.
Definition splitSummary (s sep : string) : list string := if String.eqb (trim_space s) "" then [] else split_from sep O s.
Definition containsString (l : list string) (v : string) : bool := existsb (String.eqb v) l.
Fixpoint removeOnce (l : list string) (v : string) : list string :=
  match l with [] => [] | x :: l' => if String.eqb x v then l' else x :: removeOnce l' v end.
(** The columns of the sale after a document was added, or removed with [remaining] left. *)
Definition updateSummaryForDocument (sale : Sale) (doc : OccurrenceDocument) (added : bool) (remaining : list OccurrenceDocument) : Sale :=
  let numbers := splitSummary (sa_InvoiceNumber sale) summaryNumberSep in
  let products := splitSummary (sa_ProductDescription sale) summaryProductSep in
  let '(numbers, products, date) :=
    if added then
      (if negb (String.eqb (dc_Number doc) "") && negb (containsString numbers (dc_Number doc)) then numbers ++ [dc_Number doc] else numbers,
       products ++ documentProducts doc, earliest (sa_PurchaseDate sale) doc)
    else
      (removeOnce numbers (dc_Number doc), foldl removeOnce products (documentProducts doc),
       match dc_PurchaseDate doc, sa_PurchaseDate sale with
       | Some d, Some t => if t =? d then first_purchase remaining else Some t
       | _, date => date
       end) in
  MkSale (sa_SaleChannel sale) (truncateRunes (str_join summaryNumberSep numbers) 255) date (truncateRunes (str_join summaryProductSep products) 255).
Example split_1 : map (split_from summaryProductSep 0) ["a; b; c"; "a;b"; "; "; ""; "a;; b"] = [["a"; "b"; "c"]; ["a;b"]; [""; ""]; [""]; ["a;"; "b"]].
Proof. reflexivity. Qed.

(** * A suggested message *)
(** [d.Hours()]. *)
Definition hours_of (d : duration) : spec_float := f64_add (f64_of_int (Z.quot d hour)) (f64_div (f64_of_int (Z.rem d hour)) (f64_of_int (60 * 60 * 1000000000))).
(** [int(math.Ceil(f))] of a finite number. *)
Definition f64_ceil (f : spec_float) : Z :=
  match f with
  | S754_finite s m e => let v := if s then Zneg m else Zpos m in if 0 <=? e then v * 2 ^ e else - ((- v) / 2 ^ (- e))
  | _ => 0
  end.
Definition formatProcessDeadline (remaining : duration) : string :=
  if remaining <=? 0 then "o mais breve possível"
  else if 24 * hour <=? remaining then
    let days := Z.quot remaining (24 * hour) in if 1 <? days then itoa days +:+ " dias" else "1 dia"
  else
    let hours := f64_ceil (hours_of remaining) in if 1 <? hours then itoa hours +:+ " horas" else "1 hora".
Example deadline_1 :
  map formatProcessDeadline [- hour; 1; hour; hour + 1; 23 * hour + 1; 24 * hour; 49 * hour; 72 * hour] =
  ["o mais breve possível"; "1 hora"; "1 hora"; "2 horas"; "24 horas"; "1 dia"; "2 dias"; "3 dias"].
Proof. vm_compute. reflexivity. Qed.
(** [strings.NewReplacer(pairs...).Replace]: one pass, the first pair that fits wins. *)
Fixpoint replace_pairs (pairs : list (string * string)) (skip : nat) (s : string) : string :=
  match s with
  | EmptyString => ""
  | String c s' =>
      match skip with
      | S skip' => replace_pairs pairs skip' s'
      | O =>
          match List.find (fun p => has_prefix (fst p) s) pairs with
          | Some (old, new) => new +:+ replace_pairs pairs (String.length old - 1) s'
          | None => String c (replace_pairs pairs O s')
          end
      end
  end.
Definition message_variables (name agent protocol invoice deadline unit : string) : list (string * string) :=
  List.filter (fun v => negb (String.eqb (trim_space (snd v)) ""))
    [("[Nome]", name); ("[Atendente]", agent); ("[Protocolo]", protocol); ("[NF]", invoice); ("[Prazo]", deadline); ("[Loja]", unit)].
Definition resolveProcessMessageVariables (content : string) (now : instant) (o : Occurrence) (contact_name unit_name agent : string) : string :=
  let deadline := match sl_ResponseDeadline (o_SLA o) with Some d => formatProcessDeadline (time_sub d now) | None => "" end in
  match message_variables contact_name agent (o_ProtocolNumber o) (sa_InvoiceNumber (o_Sale o)) deadline unit_name with
  | [] => content
  | pairs => replace_pairs pairs O content
  end.
Definition protocol_message (o : Occurrence) : string := "Seu protocolo de atendimento é " +:+ o_ProtocolNumber o +:+ ". Guarde este número para consultas futuras.".
(** The built-in text of a stage, if it has one. *)
Definition fallbackProcessMessage (stage : string) (o : Occurrence) : option string := if String.eqb stage "registration" then Some (protocol_message o) else None.
