(* ===== verification/OccurrenceApi.v ===== *)
(** The requests on occurrences ([internal/handlers/occurrences.go], [occurrence_protocol.go],
    [occurrence_documents.go], [occurrence_reply.go], [occurrence_send.go], and of
    [occurrence_process_messages.go] those about a case), as programs over statements. *)
From S2P Require Import Prelude Effects Sql GoText GoAny Visibility Permissions Accounts AccountsApi Occurrences OccurrenceCatalogue OccurrenceTexts.
From Stdlib Require Import Ascii.

(** * Requests *)
Record CreateOccurrenceRequest := MkCreateRequest {
  nq_ContactID : string; nq_Title : string; nq_Description : string; nq_Priority : string; nq_AssignedUserID : option string; nq_SourceTransferID : option string;
  nq_UnitID : option string; nq_DepartmentID : option string; nq_CategoryID : option string; nq_WhatHappenedID : option string; nq_ProcessID : option string;
  nq_SaleChannel : string; nq_InvoiceNumber : string; nq_PurchaseDate : string; nq_ProductDescription : string; nq_InternalNote : option string;
  nq_Documents : list OccurrenceDocumentRequest }.
Record UpdateOccurrenceRequest := MkUpdateRequest {
  eq_Title : string; eq_Description : option string; eq_Priority : string; eq_AssignedUserID : option string;
  eq_UnitID : option string; eq_DepartmentID : option string; eq_CategoryID : option string; eq_WhatHappenedID : option string }.
Definition occurrenceSaleChannels : list string := ["loja_fisica"; "whatsapp"; "telefone"; "site"].
Definition no_answer {A} (p : OProg A) : OProg unit := _ ← p; mret tt.
Definition log_event (id org occurrence : uuid) (kind content : string) (stages : option (uuid * uuid)) (user : uuid) (at_ : instant) : OccurrenceEvent :=
  MkEvent id org occurrence kind content stages (Some user) at_.
(** [a.DB.Create(&OccurrenceEvent{...})]. *)
Definition create_event (org occurrence : uuid) (kind content : string) (stages : option (uuid * uuid)) (user : uuid) : OProg (OccurrenceEvent * Res unit) :=
  id ← call OID; now ← call ONow;
  let e := log_event id org occurrence kind content stages user now in
  r ← sql (insert_event e); mret (e, r).
Definition broadcastOccurrenceMessage (org contact : uuid) (assigned : option uuid) (m : case_notice) : OProg unit := call (OBroadcast org contact (default nil_uuid assigned) m).

(** * The protocol *)
Definition nextProtocolNumber (org : uuid) (year : Z) : ODb (Res string) :=
  _ ←? exec (counter_row org year);
  seq ←? exec (bump_counter org year);
  mret (Ok (protocol_text year seq)).
(** The transaction that opens a case. *)
Definition opening (year : Z) (id : uuid) (now : instant) (o : Occurrence) : ODb (Res Occurrence) :=
  protocol ←? nextProtocolNumber (o_OrganizationID o) year;
  let o := with_protocol protocol o in
  _ ←? exec (insert_case o);
  _ ←? exec (insert_event (log_event id (o_OrganizationID o) (o_ID o) OccurrenceEventOpened (o_Title o) None (o_OpenedByUserID o) now));
  mret (Ok o).
Definition insertOccurrenceWithProtocol (o : Occurrence) : OProg (Res Occurrence) :=
  year ← call OYear; id ← call OID; now ← call ONow; tx (opening year id now o).

(** * The gate *)
Definition assigned_to (user : uuid) (o : Occurrence) : bool := bool_decide (o_AssignedUserID o = Some user).
Definition loadAuthorizedOccurrence (id : option uuid) (org user : uuid) (needInteract : bool) : OProg ((Occurrence * OContact) + oc_reply) :=
  or_refuse (path_id id "occurrence") (fun id =>
  or_refuse (sql_or (case_in id org) 404 "Occurrence not found") (fun occ =>
  or_refuse (sql_or (contact_in (o_ContactID occ) org) 404 "Contact not found") (fun contact =>
  allowed ← (if assigned_to user occ then mret true else call (OMay needInteract user org contact));
  mret (if (allowed : bool) then inl (occ, contact) else inr (ORefused 403 "You do not have access to this occurrence"))))).
(** [visibleOccurrences]. *)
Definition listed (scope : OContact -> bool) (user org : uuid) (contacts : list OContact) (o : Occurrence) : bool :=
  existsb (fun c => N.eqb (kc_ID c) (o_ContactID o) && N.eqb (kc_OrganizationID c) org && negb (kc_Deleted c) && scope c) contacts || assigned_to user o.

Section Api.
(** [uuid.Parse]; how the database reads an id and an ILIKE pattern; dates in the time zone of an
    organization; [time.Parse] of RFC 3339; [http.DetectContentType]. *)
Context (parse_uuid pg_uuid : string -> option uuid) (ilike : string -> string -> bool) (parse_date : uuid -> string -> option instant)
        (parse_rfc3339 : string -> option instant) (detect_content : string -> string).

(** * References of a request *)
Definition resolveAssignee (org : uuid) (raw : option string) : OProg (option uuid + oc_reply) :=
  match raw with
  | None => mret (inl None)
  | Some raw =>
      if String.eqb raw "" then mret (inl None)
      else
        match parse_uuid raw with
        | None => mret (inr (ORefused 400 "invalid assigned_user_id"))
        | Some id =>
            u ← ask (query_acc (first_user (fun u => N.eqb (us_ID u) id && N.eqb (us_OrganizationID u) org)));
            mret match u with Ok _ => inl (Some id) | Err _ => inr (ORefused 400 "assigned_user_id does not belong to this organization") end
        end
  end.
Definition org_unit (units : State -> list OrgUnit) (label : string) (org id : uuid) : OProg (unit + oc_reply) :=
  r ← ask (call (AQuery (unit_exists units id org))); mret match r with Ok _ => inl tt | Err _ => inr (ORefused 404 (label +:+ " not found")) end.
Definition unit_of := org_unit st_units "Unit".
Definition department_of := org_unit st_departments "Department".
Definition category_of (org id : uuid) : OProg (OccurrenceCategory + oc_reply) := sql_or (category_in id org) 404 "Category not found".
Definition reason_of (org id : uuid) : OProg (OccurrenceWhatHappened + oc_reply) := sql_or (reason_in id org) 404 "Reason not found".
Definition process_of (org id : uuid) : OProg (OccurrenceProcess + oc_reply) := sql_or (process_in id org) 404 "Process not found".
(** A reference of a new case: absent, or of a row of the organization. *)
Definition optional_ref {A} (raw : option string) (bad : string) (row : uuid -> OProg (A + oc_reply)) : OProg (option (uuid * A) + oc_reply) :=
  match raw with
  | None => mret (inl None)
  | Some raw =>
      if String.eqb raw "" then mret (inl None)
      else
        match parse_uuid raw with
        | None => mret (inr (ORefused 400 bad))
        | Some id => or_refuse (row id) (fun a => mret (inl (Some (id, a))))
        end
  end.
(** A reference of an edit: absent, cleared, or of a row of the organization. *)
Definition edited_ref {A} (raw : option string) (bad : string) (row : uuid -> OProg (A + oc_reply)) : OProg (option (option (uuid * A)) + oc_reply) :=
  match raw with
  | None => mret (inl None)
  | Some raw => or_refuse (optional_ref (Some raw) bad row) (fun r => mret (inl (Some r)))
  end.
Definition suggestedCategory (org : uuid) (reason : option OccurrenceWhatHappened) (process : option OccurrenceProcess) : OProg (option OccurrenceCategory) :=
  match match reason ≫= wh_CategoryID with Some id => Some id | None => process ≫= pr_CategoryID end with
  | None => mret None
  | Some id => r ← sql (category_in id org); mret match r with Ok c => Some c | Err _ => None end
  end.
Definition unitDepartmentFromTransfer (org transfer : uuid) : OProg (option uuid * option uuid) :=
  t ← sql (transfer_in transfer org);
  match t with
  | Err _ => mret (None, None)
  | Ok t =>
      match tf_TeamID t with
      | None => mret (None, None)
      | Some team => r ← sql (team_by_id team); mret match r with Ok tm => (tm_UnitID tm, tm_DepartmentID tm) | Err _ => (None, None) end
      end
  end.
(** [time.Duration(minutes) * time.Minute]. *)
Definition minutes_from (now : instant) (minutes : Z) : instant := now + wrap64 (minutes * minute).
Definition deadlines (org : uuid) (priority : string) (process : option uuid) : OProg (option (instant * instant)) :=
  r ← resolveOccurrenceSLAMinutes org priority process;
  match r with
  | Err _ => mret None
  | Ok (response, resolution) => now ← call ONow; mret (Some (minutes_from now response, minutes_from now resolution))
  end.

(** * Opening a case *)
Definition nonempty_or (s other : string) : string := if String.eqb s "" then other else s.
(** The sale of a request, with what its documents say where it says nothing. *)
Definition sale_of (req : CreateOccurrenceRequest) (date : option instant) (documents : list OccurrenceDocument) : Sale :=
  match documents with
  | [] => MkSale (nq_SaleChannel req) (nq_InvoiceNumber req) date (nq_ProductDescription req)
  | _ =>
      let '(invoice, docDate, product) := summarizeOccurrenceDocuments documents in
      MkSale (nq_SaleChannel req) (nonempty_or (nq_InvoiceNumber req) invoice) (match date with Some d => Some d | None => docDate end) (nonempty_or (nq_ProductDescription req) product)
  end.
Definition derived_title (title : string) (sale : Sale) (category : option OccurrenceCategory) : string :=
  if negb (String.eqb title "") then title
  else let product := nonempty_or (sa_ProductDescription sale) "Atendimento SAC" in
       match category with Some c => cg_Name c +:+ ": " +:+ product | None => product end.
Definition active_process (org id : uuid) : OProg (OccurrenceProcess + oc_reply) :=
  or_refuse (process_of org id) (fun p => or_refuse (require (pr_IsActive p) 400 "Process is inactive") (fun _ => mret (inl p))).
Definition stamped (ids : nat -> uuid) (occurrence : uuid) (i : nat) (d : OccurrenceDocument) : OccurrenceDocument :=
  MkDocument (ids i) (dc_OrganizationID d) occurrence (dc_Type d) (dc_Number d) (dc_PurchaseDate d) (dc_Items d) (dc_AttachmentPath d) (dc_AttachmentName d) (dc_AttachmentMime d) (dc_CreatedByID d).
(** The transfer a case comes from; an id that cannot be read is left out. *)
Definition source_transfer (raw : option string) : option uuid := match raw with Some raw => if String.eqb raw "" then None else parse_uuid raw | None => None end.
Definition CreateOccurrence (c : Ctx) (body : option CreateOccurrenceRequest) : OProg oc_reply :=
  '(org, user) ←! auth c ResourceOccurrences ActionWrite;
  req ←! decoded body;
  _ ←! require (String.eqb (nq_SaleChannel req) "" || existsb (String.eqb (nq_SaleChannel req)) occurrenceSaleChannels) 400 "Invalid sale_channel";
  date ←! mret match optional_date (parse_date org) (nq_PurchaseDate req) with Some d => inl d | None => inr (ORefused 400 "purchase_date must be YYYY-MM-DD") end;
  documents ←! mret match buildOccurrenceDocuments (parse_date org) org user (nq_Documents req) with inl l => inl l | inr e => inr (ORefused 400 e) end;
  let sale := sale_of req date documents in
  contactID ←! mret match parse_uuid (nq_ContactID req) with Some id => inl id | None => inr (ORefused 400 "Invalid contact_id") end;
  contact ←! sql_or (contact_in contactID org) 404 "Contact not found";
  may ← call (OMay true user org contact);
  _ ←! require may 403 "You do not have access to this conversation";
  stage ← initialStage org;
  match stage with
  | Err _ => mret (ORefused 500 "Failed to resolve initial stage")
  | Ok stage =>
      let priority := nonempty_or (nq_Priority req) OccurrencePriorityNormal in
      process ←! optional_ref (nq_ProcessID req) "Invalid process_id" (active_process org);
      due ← deadlines org priority (option_map fst process);
      assignee ←! (match nq_AssignedUserID req with None => mret (inl (Some user)) | raw => resolveAssignee org raw end);
      let source := source_transfer (nq_SourceTransferID req) in
      '(unit0, dept0) ← match source with Some t => unitDepartmentFromTransfer org t | None => mret (None, None) end;
      unit ←! optional_ref (nq_UnitID req) "Invalid unit_id" (unit_of org);
      dept ←! optional_ref (nq_DepartmentID req) "Invalid department_id" (department_of org);
      category ←! optional_ref (nq_CategoryID req) "Invalid category_id" (category_of org);
      reason ←! optional_ref (nq_WhatHappenedID req) "Invalid what_happened_id" (reason_of org);
      suggested ← match category with Some _ => mret None | None => suggestedCategory org (option_map snd reason) (option_map snd process) end;
      let chosen := match category with Some (_, cat) => Some cat | None => suggested end in
      let categoryID := match category with Some (id, _) => Some id | None => option_map cg_ID suggested end in
      id ← call OID; now ← call ONow;
      let labels := MkLabels (match unit with Some (u, _) => Some u | None => unit0 end) (match dept with Some (d, _) => Some d | None => dept0 end) categoryID (option_map fst reason) in
      let occ := MkOccurrence id org contactID "" (derived_title (nq_Title req) sale chosen) (nq_Description req) (sg_ID stage) priority assignee user now None
                              source labels (option_map fst process) (match source with Some _ => "whatsapp" | None => "manual" end) sale
                              (MkSLA (option_map fst due) (option_map snd due) None None) in
      r ← insertOccurrenceWithProtocol occ;
      match r with
      | Err _ => mret (ORefused 500 "Failed to create occurrence")
      | Ok occ =>
          ids ← call OIDs;
          let documents := imap (stamped ids (o_ID occ)) documents in
          _ ← match documents with [] => mret tt | _ => no_answer (sql (insert_documents documents)) end;
          _ ← match nq_InternalNote req with
              | Some note => if String.eqb note "" then mret tt else no_answer (create_event org (o_ID occ) OccurrenceEventNote note None user)
              | None => mret tt
              end;
          _ ← match o_AssignedUserID occ with Some u => no_answer (ask (query_acc (user_by_id u))) | None => mret tt end;
          _ ← broadcastOccurrenceMessage org (o_ContactID occ) (o_AssignedUserID occ) (CaseChanged occ);
          mret (OCase occ documents)
      end
  end.

(** * Reading them *)
Record CaseFilter := MkFilter {
  fl_StageID : string; fl_ContactID : string; fl_UnitID : string; fl_DepartmentID : string; fl_CategoryID : string; fl_WhatHappenedID : string;
  fl_Protocol : string; fl_Open : string; fl_ClosedSince : string; fl_Limit : Z; fl_Offset : Z }.
(** A filter on a column: absent, or the id to look for ([None]: the database cannot read it). *)
Definition by_id (raw : string) : option (option uuid) := if String.eqb raw "" then Some None else match pg_uuid raw with Some id => Some (Some id) | None => None end.
Definition column_is (wanted : option uuid) (column : option uuid) : bool := match wanted with None => true | Some id => bool_decide (column = Some id) end.
Definition newest (a b : Occurrence) : bool := o_OpenedAt b <=? o_OpenedAt a.
Definition ListOccurrences (c : Ctx) (f : CaseFilter) : OProg oc_reply :=
  '(org, user) ←! auth c ResourceOccurrences ActionRead;
  scope ← call (OScope user org);
  since ←! mret (if String.eqb (fl_ClosedSince f) "" then inl None
                 else match parse_rfc3339 (fl_ClosedSince f) with Some t => inl (Some t) | None => inr (ORefused 400 "closed_since must be an RFC3339 timestamp") end);
  match by_id (fl_StageID f), by_id (fl_ContactID f), by_id (fl_UnitID f), by_id (fl_DepartmentID f), by_id (fl_CategoryID f), by_id (fl_WhatHappenedID f) with
  | Some stage, Some contact, Some unit, Some dept, Some cat, Some wh =>
      let p := fun (b : OBase) o =>
        N.eqb (o_OrganizationID o) org && listed scope user org (ar_contacts (ob_around b)) o
        && column_is stage (Some (o_StageID o)) && column_is contact (Some (o_ContactID o)) && column_is unit (lb_UnitID (o_Labels o)) && column_is dept (lb_DepartmentID (o_Labels o))
        && column_is cat (lb_CategoryID (o_Labels o)) && column_is wh (lb_WhatHappenedID (o_Labels o))
        && (String.eqb (fl_Protocol f) "" || ilike (o_ProtocolNumber o) ("%" +:+ fl_Protocol f +:+ "%"))
        && (negb (String.eqb (fl_Open f) "true") || bool_decide (o_ClosedAt o = None))
        && match since with None => true | Some t => match o_ClosedAt o with Some x => t <=? x | None => false end end in
      l ←! sql_or (select (fun b => Ok (take (Z.to_nat (fl_Limit f)) (drop (Z.to_nat (fl_Offset f)) (stable_sort newest (List.filter (p b) (occurrences_of b))))))) 500 "Failed to list occurrences";
      mret (OCases l (Z.of_nat (length l) =? fl_Limit f))
  | _, _, _, _, _, _ => mret (ORefused 500 "Failed to list occurrences")
  end.
Definition ListContactOccurrences (c : Ctx) (id : option uuid) : OProg oc_reply :=
  '(org, user) ←! auth c ResourceOccurrences ActionRead;
  id ←! path_id id "contact";
  contact ←! sql_or (contact_in id org) 404 "Contact not found";
  may ← call (OMay false user org contact);
  _ ←! require may 403 "You do not have access to this conversation";
  l ←! sql_or (select (fun b => Ok (stable_sort newest (List.filter (fun o => N.eqb (o_OrganizationID o) org && N.eqb (o_ContactID o) id) (occurrences_of b))))) 500 "Failed to list occurrences";
  mret (OCases l false).
(** The row read again, or what is in memory when it cannot be. *)
Definition reloaded (o : Occurrence) : OProg Occurrence := r ← sql (case_by_id (o_ID o)); mret match r with Ok o' => o' | Err _ => o end.
Definition GetOccurrence (c : Ctx) (id : option uuid) : OProg oc_reply :=
  '(org, user) ←! auth c ResourceOccurrences ActionRead;
  '(occ, _) ←! loadAuthorizedOccurrence id org user false;
  occ ← reloaded occ; mret (OCase occ []).

(** * Editing *)
Definition UpdateOccurrence (c : Ctx) (id : option uuid) (body : option UpdateOccurrenceRequest) : OProg oc_reply :=
  '(org, user) ←! auth c ResourceOccurrences ActionWrite;
  '(occ, _) ←! loadAuthorizedOccurrence id org user true;
  req ←! decoded body;
  _ ←! require (negb (String.eqb (eq_Title req) "")) 400 "title is required";
  let reprioritised := negb (String.eqb (eq_Priority req) "") && negb (String.eqb (eq_Priority req) (o_Priority occ)) in
  due ← (if reprioritised then deadlines org (eq_Priority req) (o_ProcessID occ) else mret None);
  assignee ←! (match eq_AssignedUserID req with None => mret (inl None) | raw => or_refuse (resolveAssignee org raw) (fun a => mret (inl (Some a))) end);
  unit ←! edited_ref (eq_UnitID req) "Invalid unit_id" (unit_of org);
  dept ←! edited_ref (eq_DepartmentID req) "Invalid department_id" (department_of org);
  category ←! edited_ref (eq_CategoryID req) "Invalid category_id" (category_of org);
  reason ←! edited_ref (eq_WhatHappenedID req) "Invalid what_happened_id" (reason_of org);
  suggested ← match eq_CategoryID req, reason with None, Some (Some (_, wh)) => suggestedCategory org (Some wh) None | _, _ => mret None end;
  let ids {A} (r : option (option (uuid * A))) := option_map (option_map fst) r in
  let edit := MkEdit (eq_Title req) (eq_Description req) (if reprioritised then Some (eq_Priority req) else None) due assignee (ids unit) (ids dept)
                     (match category with Some _ => ids category | None => option_map (fun cat => Some (cg_ID cat)) suggested end) (ids reason) in
  _ ←! sql_or (update_case (o_ID occ) (edited edit)) 500 "Failed to update occurrence";
  _ ← (if match assignee with None => false | Some a => negb (bool_decide (a = o_AssignedUserID occ)) end
       then no_answer (create_event org (o_ID occ) OccurrenceEventAssignment "" None user) else mret tt);
  occ ← reloaded (edited edit occ);
  _ ← broadcastOccurrenceMessage org (o_ContactID occ) (o_AssignedUserID occ) (CaseChanged occ);
  mret (OCase occ []).
Definition removeOccurrenceAttachment (path : string) : OProg unit := if String.eqb path "" then mret tt else call (ORemoveFile path).
Definition attachments (occurrence : uuid) (b : OBase) : Res (list string) :=
  Ok (map dc_AttachmentPath (List.filter (fun d => document_of occurrence d && negb (String.eqb (dc_AttachmentPath d) "")) (documents_of b))).
Definition deleteOccurrenceDocuments (occurrence : uuid) : ODb (Res (list string)) :=
  paths ←? exec (select (attachments occurrence));
  _ ←? exec (delete_where set_documents (document_of occurrence));
  mret (Ok paths).
Definition deletion (occurrence : uuid) : ODb (Res (list string)) :=
  _ ←? exec (delete_events occurrence);
  paths ←? deleteOccurrenceDocuments occurrence;
  _ ←? exec (delete_case occurrence); mret (Ok paths).
Definition DeleteOccurrence (c : Ctx) (id : option uuid) : OProg oc_reply :=
  '(org, user) ←! auth c ResourceOccurrences ActionDelete;
  super ← ask (IsSuperAdmin user);
  _ ←! require super 403 "Only super admins can permanently delete occurrences";
  '(occ, _) ←! loadAuthorizedOccurrence id org user true;
  paths ←! tx_or (deletion (o_ID occ)) 500 "Failed to delete occurrence";
  _ ← foldr (fun p k => _ ← removeOccurrenceAttachment p; k) (mret tt) paths;
  _ ← audit org user "occurrence" (o_ID occ) "deleted";
  mret ODeleted.
Definition ChangeOccurrenceStage (c : Ctx) (id : option uuid) (body : option string) : OProg oc_reply :=
  '(org, user) ←! auth c ResourceOccurrences ActionWrite;
  '(occ, _) ←! loadAuthorizedOccurrence id org user true;
  raw ←! decoded body;
  stageID ←! mret match parse_uuid raw with Some s => inl s | None => inr (ORefused 400 "Invalid stage_id") end;
  target ←! sql_or (stage_in stageID org) 404 "Stage not found";
  if N.eqb (sg_ID target) (o_StageID occ) then mret (OCase occ [])
  else
    from ← sql (stage_by_id (o_StageID occ));
    let '(from_name, from_id) := match from with Ok s => (sg_Name s, sg_ID s) | Err _ => ("", nil_uuid) end in
    closed ← (if sg_IsClosing target then now ← call ONow; mret (Some now) else mret None);
    _ ←! sql_or (update_case (o_ID occ) (in_stage (sg_ID target) closed)) 500 "Failed to change stage";
    occ ← reloaded (in_stage (sg_ID target) closed occ);
    _ ← broadcastOccurrenceMessage org (o_ContactID occ) (o_AssignedUserID occ) (CaseChanged occ);
    '(e, r) ← create_event org (o_ID occ) OccurrenceEventStageChange (from_name +:+ " → " +:+ sg_Name target) (Some (from_id, sg_ID target)) user;
    _ ← match r with
        | Ok _ => _ ← call (OUserName user); broadcastOccurrenceMessage org (o_ContactID occ) (o_AssignedUserID occ) (EventCreated e)
        | Err _ => mret tt
        end;
    _ ← (if sg_IsClosing target then no_answer (create_event org (o_ID occ) OccurrenceEventClosed "" None user) else mret tt);
    mret (OCase occ []).

(** * The timeline *)
Definition oldest_event (a b : OccurrenceEvent) : bool := ev_CreatedAt a <=? ev_CreatedAt b.
Definition ListOccurrenceEvents (c : Ctx) (id : option uuid) : OProg oc_reply :=
  '(org, user) ←! auth c ResourceOccurrences ActionRead;
  '(occ, _) ←! loadAuthorizedOccurrence id org user false;
  l ←! sql_or (select (fun b => Ok (stable_sort oldest_event (List.filter (fun e => N.eqb (ev_OrganizationID e) org && N.eqb (ev_OccurrenceID e) (o_ID occ)) (events_of b))))) 500 "Failed to list events";
  mret (OEvents l).
Definition CreateOccurrenceEvent (c : Ctx) (id : option uuid) (body : option string) : OProg oc_reply :=
  '(org, user) ←! auth c ResourceOccurrences ActionWrite;
  '(occ, _) ←! loadAuthorizedOccurrence id org user true;
  content ←! decoded body;
  _ ←! require (negb (String.eqb content "")) 400 "content is required";
  '(e, r) ← create_event org (o_ID occ) OccurrenceEventNote content None user;
  match r with
  | Err _ => mret (ORefused 500 "Failed to create event")
  | Ok _ =>
      _ ← call (OUserName user);
      _ ← broadcastOccurrenceMessage org (o_ContactID occ) (o_AssignedUserID occ) (EventCreated e);
      mret (OEvent e)
  end.

(** * What is sent to the customer *)
Definition within_day (now last : instant) : bool := time_sub now last <? 24 * hour.
Definition serviceWindowOpen (c : OContact) : OProg bool :=
  match kc_LastInboundAt c with None => mret false | Some last => now ← call ONow; mret (within_day now last) end.
Definition open_window (c : OContact) : OProg (unit + oc_reply) :=
  ok ← serviceWindowOpen c; require ok 422 "The 24-hour service window is closed; only templates can be sent".
Definition account_of (org : uuid) (c : OContact) : OProg (OAccount + oc_reply) := sql_or (account_named org (kc_WhatsAppAccount c)) 400 "WhatsApp account not found for this contact".
(** Only on a case that had no reply when it was read. *)
Definition first_response (at_ : instant) (user : uuid) (o : Occurrence) : Occurrence :=
  with_sla (MkSLA (sl_ResponseDeadline (o_SLA o)) (sl_ResolutionDeadline (o_SLA o)) (Some at_) (Some user)) o.
Definition ReplyToOccurrence (c : Ctx) (id : option uuid) (body : option string) : OProg oc_reply :=
  '(org, user) ←! auth c ResourceOccurrences ActionWrite;
  '(occ, contact) ←! loadAuthorizedOccurrence id org user true;
  content ←! decoded body;
  _ ←! require (negb (String.eqb content "")) 400 "content is required";
  _ ←! open_window contact;
  account ←! account_of org contact;
  ok ← call (OSend (MkOSent account contact content (Some user) (o_ID occ)));
  _ ←! require ok 500 "Failed to send reply";
  '(e, _) ← create_event org (o_ID occ) OccurrenceEventReply content None user;
  _ ← match sl_FirstResponseAt (o_SLA occ) with
      | None => no_answer (sql (update_case (o_ID occ) (first_response (ev_CreatedAt e) user)))
      | Some _ => mret tt
      end;
  mret (OSentTo "").
Definition maxWhatsAppTextLength : Z := 4096.
(** The body: none, one that cannot be decoded, or a message. *)
Definition custom_message (body : option (option string)) : OProg (string + oc_reply) :=
  mret match body with
       | None => inl ""
       | Some None => inr (ORefused 400 "Invalid request body")
       | Some (Some m) =>
           let m := trim_space m in
           if maxWhatsAppTextLength <? Z.of_nat (length (runes m)) then inr (ORefused 400 "Message exceeds the 4096-character WhatsApp limit") else inl m
       end.
Definition SendOccurrenceProtocol (c : Ctx) (id : option uuid) (body : option (option string)) : OProg oc_reply :=
  '(org, user) ←! auth c ResourceOccurrences ActionWrite;
  '(occ, contact) ←! loadAuthorizedOccurrence id org user true;
  custom ←! custom_message body;
  _ ←! open_window contact;
  account ←! account_of org contact;
  ok ← call (OSend (MkOSent account contact (nonempty_or custom (protocol_message occ)) None (o_ID occ)));
  _ ←! require ok 500 "Failed to send protocol";
  _ ← create_event org (o_ID occ) OccurrenceEventProtocolSent (o_ProtocolNumber occ) None user;
  mret (OSentTo (o_ProtocolNumber occ)).
(** [Preload("Contact")]: by its id alone. *)
Definition contact_by_id (id : uuid) : stmt (option OContact) := select (fun b => Ok (sql_first (fun c => N.eqb (kc_ID c) id && negb (kc_Deleted c)) (ar_contacts (ob_around b)))).
Definition PreviewOccurrenceProcessMessage (c : Ctx) (id : option uuid) (stage occurrence_id : string) : OProg oc_reply :=
  '(org, user) ←! auth c ResourceOccurrences ActionRead;
  id ←! path_id id "process";
  _ ←! require (validProcessMessageStage stage) 400 "Invalid stage";
  occurrenceID ←! mret match parse_uuid occurrence_id with Some o => inl o | None => inr (ORefused 400 "Invalid occurrence_id") end;
  occ ←! sql_or (case_in occurrenceID org) 404 "Occurrence not found";
  contact ←! sql_or (contact_by_id (o_ContactID occ)) 404 "Occurrence not found";
  match contact with
  | None => mret (ORefused 404 "Contact not found")
  | Some contact =>
      allowed ← (if assigned_to user occ then mret true else call (OMay false user org contact));
      _ ←! require allowed 403 "You do not have access to this occurrence";
      _ ←! require (bool_decide (o_ProcessID occ = Some id)) 400 "This occurrence is not linked to the given process";
      t ← sql (select (fun b => found (first_by pm_ID (fun m => message_for org id stage m && pm_IsActive m) (messages_of b))));
      match t with
      | Ok t =>
          unit ← match lb_UnitID (o_Labels occ) with Some u => call (OUnitName u) | None => mret "" end;
          agent ← call (OUserName user); now ← call ONow;
          mret (OPreview (resolveProcessMessageVariables (pm_Content t) now occ (kc_ProfileName contact) unit agent) true false)
      | Err _ => mret match fallbackProcessMessage stage occ with Some text => OPreview text true true | None => OPreview "" false false end
      end
  end.
Definition LogOccurrenceProcessMessageUse (c : Ctx) (id : option uuid) (body : option string) : OProg oc_reply :=
  '(org, user) ←! auth c ResourceOccurrences ActionWrite;
  '(occ, _) ←! loadAuthorizedOccurrence id org user false;
  stage ←! decoded body;
  _ ←! require (validProcessMessageStage stage) 400 "Invalid stage";
  name ← match o_ProcessID occ with Some p => r ← sql (process_in p org); mret match r with Ok p => Some (pr_Name p) | Err _ => None end | None => mret None end;
  let used := "Mensagem de " +:+ stage +:+ " utilizada." in
  '(_, r) ← create_event org (o_ID occ) OccurrenceEventProcessMessageUsed (match name with Some n => used +:+ " Processo: " +:+ n +:+ "." | None => used end) None user;
  mret match r with Ok _ => OLogged | Err _ => ORefused 500 "Failed to log message use" end.

(** * Documents *)
Definition ListOccurrenceDocuments (c : Ctx) (id : option uuid) : OProg oc_reply :=
  '(org, user) ←! auth c ResourceOccurrences ActionRead;
  '(occ, _) ←! loadAuthorizedOccurrence id org user false;
  l ←! sql_or (select (fun b => Ok (List.filter (fun d => document_of (o_ID occ) d && N.eqb (dc_OrganizationID d) org) (documents_of b)))) 500 "Failed to load documents";
  mret (ODocuments l).
Definition adding (occ : Occurrence) (doc : OccurrenceDocument) : ODb (Res unit) :=
  _ ←? exec (insert_documents [doc]);
  exec (update_case (o_ID occ) (with_sale (updateSummaryForDocument (o_Sale occ) doc true []))).
Definition CreateOccurrenceDocument (c : Ctx) (id : option uuid) (body : option OccurrenceDocumentRequest) : OProg oc_reply :=
  '(org, user) ←! auth c ResourceOccurrences ActionWrite;
  '(occ, _) ←! loadAuthorizedOccurrence id org user true;
  req ←! decoded body;
  doc ←! mret match buildOccurrenceDocument (parse_date org) org user req with inl d => inl d | inr e => inr (ORefused 400 e) end;
  n ← count_or_zero (select (fun b => counted (document_of (o_ID occ)) (documents_of b)));
  _ ←! require (negb (maxOccurrenceDocuments <=? n)) 400 "too many documents";
  ids ← call OIDs;
  let doc := stamped ids (o_ID occ) 0 doc in
  _ ←! tx_or (adding occ doc) 500 "Failed to save document";
  mret (ODocument doc).
Definition loadOccurrenceDocument (id doc : option uuid) (org user : uuid) (needInteract : bool) : OProg (OccurrenceDocument + oc_reply) :=
  or_refuse (loadAuthorizedOccurrence id org user needInteract) (fun '(occ, _) =>
  or_refuse (path_id doc "document") (fun doc => sql_or (document_in doc (o_ID occ) org) 404 "Document not found")).
Definition removing (occ : Occurrence) (doc : OccurrenceDocument) : ODb (Res unit) :=
  _ ←? exec (delete_where set_documents (is_document (dc_ID doc)));
  remaining ←? exec (select (fun b => Ok (List.filter (document_of (dc_OccurrenceID doc)) (documents_of b))));
  exec (update_case (dc_OccurrenceID doc) (with_sale (updateSummaryForDocument (o_Sale occ) doc false remaining))).
Definition DeleteOccurrenceDocument (c : Ctx) (id doc : option uuid) : OProg oc_reply :=
  '(org, user) ←! auth c ResourceOccurrences ActionWrite;
  doc ←! loadOccurrenceDocument id doc org user true;
  occ ←! sql_or (case_by_id (dc_OccurrenceID doc)) 404 "Occurrence not found";
  _ ←! tx_or (removing occ doc) 500 "Failed to delete document";
  _ ← removeOccurrenceAttachment (dc_AttachmentPath doc);
  mret ODeleted.
Definition maxOccurrenceAttachmentSize : Z := Z.shiftl 10 20.
(** What the form holds. *)
Inductive attachment := NoFile | NotOpened | NotRead | Attached (data filename : string).
Definition occurrenceAttachmentMIME : list string := ["application/pdf"; "image/jpeg"; "image/png"; "image/webp"].
(** [strings.SplitN(s, ";", 2)[0]]. *)
Definition before_semicolon (s : string) : string := fst (str_span (fun c => negb (Ascii.eqb c ";")) s).
Definition with_attachment (path name mime : string) (d : OccurrenceDocument) : OccurrenceDocument :=
  MkDocument (dc_ID d) (dc_OrganizationID d) (dc_OccurrenceID d) (dc_Type d) (dc_Number d) (dc_PurchaseDate d) (dc_Items d) path name mime (dc_CreatedByID d).
Definition mime_extensions : list (string * string) :=
  [("image/jpeg", ".jpg"); ("image/png", ".png"); ("image/gif", ".gif"); ("image/webp", ".webp"); ("video/mp4", ".mp4"); ("video/3gpp", ".3gp"); ("audio/aac", ".aac"); ("audio/mp4", ".m4a");
   ("audio/mpeg", ".mp3"); ("audio/amr", ".amr"); ("audio/ogg", ".ogg"); ("application/pdf", ".pdf"); ("application/vnd.ms-powerpoint", ".ppt"); ("application/msword", ".doc");
   ("application/vnd.ms-excel", ".xls"); ("application/vnd.openxmlformats-officedocument.wordprocessingml", ".docx"); ("application/vnd.openxmlformats-officedocument.spreadsheetml", ".xlsx");
   ("application/vnd.openxmlformats-officedocument.presentationml", ".pptx"); ("text/plain", ".txt")].
Definition getExtensionFromMimeType (mime : string) : string := match List.find (fun e => has_prefix (fst e) mime) mime_extensions with Some (_, ext) => ext | None => "" end.
(** The text of an id. *)
Context (uuid_text : uuid -> string).
Definition attachment_path (id : uuid) (mime : string) : string := "occurrence-documents/" +:+ uuid_text id +:+ getExtensionFromMimeType mime.
Definition UploadOccurrenceDocumentAttachment (c : Ctx) (id doc : option uuid) (form : attachment) : OProg oc_reply :=
  '(org, user) ←! auth c ResourceOccurrences ActionWrite;
  doc ←! loadOccurrenceDocument id doc org user true;
  match form with
  | NoFile => mret (ORefused 400 "No file provided")
  | NotOpened => mret (ORefused 400 "Failed to open file")
  | NotRead => mret (ORefused 500 "Failed to read file")
  | Attached data filename =>
      _ ←! require (negb (maxOccurrenceAttachmentSize <? str_len data)) 400 "File too large. Maximum size is 10MB";
      let mime := before_semicolon (detect_content data) in
      _ ←! require (existsb (String.eqb mime) occurrenceAttachmentMIME) 400 "Only PDF or image files are allowed";
      ok ← call OMakeDir;
      _ ←! require ok 500 "Failed to save file";
      let path := attachment_path (dc_ID doc) mime in
      ok ← call (OWriteFile path data);
      _ ←! require ok 500 "Failed to save file";
      _ ← (if negb (String.eqb (dc_AttachmentPath doc) path) then removeOccurrenceAttachment (dc_AttachmentPath doc) else mret tt);
      let attach := with_attachment path (truncateRunes (base_name filename) 255) mime in
      r ← sql (update_where set_documents (is_document (dc_ID doc)) attach);
      match r with
      | Err _ => _ ← removeOccurrenceAttachment path; mret (ORefused 500 "Failed to save file")
      | Ok _ => mret (ODocument (attach doc))
      end
  end.
Definition ServeOccurrenceDocumentAttachment (c : Ctx) (id doc : option uuid) : OProg oc_reply :=
  '(org, user) ←! auth c ResourceOccurrences ActionRead;
  doc ←! loadOccurrenceDocument id doc org user false;
  _ ←! require (negb (String.eqb (dc_AttachmentPath doc) "")) 404 "No attachment";
  data ← call (OReadFile (dc_AttachmentPath doc));
  mret match data with Some data => OFile (dc_AttachmentMime doc) data | None => ORefused 404 "Attachment not found" end.
End Api.
