(* ===== verification/OccurrenceWarrants.v ===== *)
(** What a request on occurrences has seen before it changes anything: the case it loaded, that
    its user may touch it, and each row it refers to. The requests on the catalogue never touch a
    case: every one of them is tame. *)
From S2P Require Import Prelude Effects Sql GoText GoAny Visibility Permissions Accounts AccountsApi Occurrences OccurrenceCatalogue OccurrenceTexts OccurrenceApi.
From Stdlib Require Import Ascii.

(** * What the catalogue may do to a case

    Nothing; and its rows keep their ids and organizations. A [strict] change also leaves every
    stage closing or not as it is, and makes no stage both initial and closing. *)
Definition stage_key (s : OccurrenceStage) : uuid * uuid := (sg_ID s, sg_OrganizationID s).
Definition stage_flag (s : OccurrenceStage) : uuid * bool := (sg_ID s, sg_IsClosing s).
Definition category_key (c : OccurrenceCategory) : uuid * uuid := (cg_ID c, cg_OrganizationID c).
Definition reason_key (w : OccurrenceWhatHappened) : uuid * uuid := (wh_ID w, wh_OrganizationID w).
Definition process_key (p : OccurrenceProcess) : uuid * uuid := (pr_ID p, pr_OrganizationID p).
Definition never_both (s : OccurrenceStage) : Prop := sg_IsInitial s = true -> sg_IsClosing s = false.
Definition sane_stages (b : OBase) : Prop := NoDup (map sg_ID (stages_of b)) /\ Forall never_both (stages_of b).
Record kept_catalogue (strict : bool) (b b' : OBase) : Prop := MkKept {
  kept_stages : map stage_key (stages_of b) ⊆ map stage_key (stages_of b');
  kept_categories : map category_key (categories_of b) ⊆ map category_key (categories_of b');
  kept_reasons : map reason_key (reasons_of b) ⊆ map reason_key (reasons_of b');
  kept_processes : map process_key (processes_of b) ⊆ map process_key (processes_of b');
  kept_flags : strict = true -> map stage_flag (stages_of b) ⊆ map stage_flag (stages_of b');
  kept_sane : strict = true -> sane_stages b -> sane_stages b' }.
Record tame (strict : bool) (b b' : OBase) : Prop := MkTame {
  tame_cases : ob_cases b' = ob_cases b; tame_around : ob_around b' = ob_around b; tame_catalogue : kept_catalogue strict b b' }.
#[global] Instance kept_catalogue_preorder strict : PreOrder (kept_catalogue strict).
Proof. split; [by constructor |]. intros b1 b2 b3 [A1 A2 A3 A4 A5 A6] [B1 B2 B3 B4 B5 B6]. constructor; [etrans; eassumption.. | intros Hs; etrans; [by apply A5 | by apply B5] | auto]. Qed.
#[global] Instance tame_preorder strict : PreOrder (tame strict).
Proof. split; [by constructor |]. intros b1 b2 b3 [] []. constructor; [congruence.. | by etrans]. Qed.

(** * Warrants *)
Abbreviation trace := (list (Effects.event oc_op)).
Definition saw {X} (g : trace) (f : stmt X) (x : X) : Prop := Ev (ODo f) (Ok x) ∈ g.
(** A row of the organization with this id. *)
Definition seen {Row} (g : trace) (read : uuid -> uuid -> stmt Row) (key : Row -> uuid) (org : uuid) (id : uuid) : Prop :=
  exists i row, saw g (read i org) row /\ (id = i \/ id = key row).
Definition seen_unit (g : trace) (units : State -> list OrgUnit) (org id : uuid) : Prop := Ev (OAsk (AQuery (unit_exists units id org))) (Ok tt) ∈ g.
(** The unit or department of the team behind a transfer. *)
Definition seen_transfer (g : trace) (org : uuid) (id : option uuid) (of_team : OTeam -> option uuid) : Prop :=
  exists t tf team tm, saw g (transfer_in t org) tf /\ tf_TeamID tf = Some team /\ saw g (team_by_id team) tm /\ id = of_team tm.
Definition seen_user (g : trace) (org id : uuid) : Prop :=
  exists u, Ev (OAsk (AQuery (acc (first_user (fun u => N.eqb (us_ID u) id && N.eqb (us_OrganizationID u) org))))) (Ok u) ∈ g.
(** [holds P o]: whatever is there satisfies [P]. *)
Definition holds {A} (P : A -> Prop) (o : option A) : Prop := forall a, o = Some a -> P a.

Section Warrants.
(** Whether the stages keep their flags; who asks. *)
Context (strict : bool) (who : option uuid).

(** The case was read in the organization, with its contact, by somebody it is assigned to or who
    may interact with the conversation (see it, when not [interact]); or it was just opened. *)
Definition entitled (interact : bool) (g : trace) (org : uuid) (o : Occurrence) : Prop :=
  (exists id contact u, who = Some u /\ saw g (case_in id org) o /\ saw g (contact_in (o_ContactID o) org) contact /\
     (assigned_to u o = true \/ Ev (OMay interact u org contact) true ∈ g)) \/
  (exists year id now o', Ev (OTx (opening year id now o')) (Ok o) ∈ g /\ o_OrganizationID o' = org /\ who = Some (o_OpenedByUserID o')).
Record new_case (g : trace) (o : Occurrence) : Prop := MkNewCase {
  nc_user : who = Some (o_OpenedByUserID o);
  nc_contact : exists contact, saw g (contact_in (o_ContactID o) (o_OrganizationID o)) contact /\ Ev (OMay true (o_OpenedByUserID o) (o_OrganizationID o) contact) true ∈ g;
  nc_stage : exists st, saw g (first_initial (o_OrganizationID o)) st /\ o_StageID o = sg_ID st;
  nc_open : o_ClosedAt o = None;
  nc_assignee : holds (fun u => u = o_OpenedByUserID o \/ seen_user g (o_OrganizationID o) u) (o_AssignedUserID o);
  nc_unit : holds (fun u => seen_unit g st_units (o_OrganizationID o) u \/ seen_transfer g (o_OrganizationID o) (Some u) tm_UnitID) (lb_UnitID (o_Labels o));
  nc_department : holds (fun u => seen_unit g st_departments (o_OrganizationID o) u \/ seen_transfer g (o_OrganizationID o) (Some u) tm_DepartmentID) (lb_DepartmentID (o_Labels o));
  nc_category : holds (seen g category_in cg_ID (o_OrganizationID o)) (lb_CategoryID (o_Labels o));
  nc_reason : holds (seen g reason_in wh_ID (o_OrganizationID o)) (lb_WhatHappenedID (o_Labels o));
  nc_process : holds (seen g process_in pr_ID (o_OrganizationID o)) (o_ProcessID o) }.
(** The changes of the columns of a case. *)
Inductive warranted_edit (g : trace) (org : uuid) : (Occurrence -> Occurrence) -> Prop :=
  | we_edit e :
      holds (holds (seen_user g org)) (ed_AssignedUserID e) ->
      holds (holds (seen_unit g st_units org)) (ed_UnitID e) -> holds (holds (seen_unit g st_departments org)) (ed_DepartmentID e) ->
      holds (holds (seen g category_in cg_ID org)) (ed_CategoryID e) -> holds (holds (seen g reason_in wh_ID org)) (ed_WhatHappenedID e) ->
      warranted_edit g org (edited e)
  | we_stage id target closed : saw g (stage_in id org) target -> (is_Some closed <-> sg_IsClosing target = true) -> warranted_edit g org (in_stage (sg_ID target) closed)
  | we_response at_ u : who = Some u -> warranted_edit g org (first_response at_ u).
Inductive warranted_stmt (g : trace) : forall X, stmt X -> Prop :=
  | ws_read X (f : OBase -> Res X) : warranted_stmt g X (select f)
  | ws_catalogue X (f : stmt X) : (forall b, tame strict b (snd (f b))) -> warranted_stmt g X f
  | ws_case org o f : entitled true g org o -> warranted_edit g org f -> warranted_stmt g unit (update_case (o_ID o) f)
  | ws_event org o kind content stages u id now :
      entitled (negb (String.eqb kind OccurrenceEventProcessMessageUsed)) g org o -> who = Some u ->
      warranted_stmt g unit (insert_event (log_event id org (o_ID o) kind content stages u now))
  | ws_documents org o ids docs : entitled true g org o -> Forall (fun d => dc_OrganizationID d = org) docs -> warranted_stmt g unit (insert_documents (imap (stamped ids (o_ID o)) docs))
  | ws_attachment org o id d path name mime :
      entitled true g org o -> saw g (document_in id (o_ID o) org) d -> warranted_stmt g unit (update_where set_documents (is_document (dc_ID d)) (with_attachment path name mime)).
Inductive warranted_tx (g : trace) : forall X, ODb (Res X) -> Prop :=
  | wt_catalogue X (body : ODb (Res X)) : keeps (tame strict) body -> warranted_tx g X body
  | wt_open year id now o : Ev OYear year ∈ g -> new_case g o -> warranted_tx g Occurrence (opening year id now o)
  | wt_delete org o : entitled true g org o -> warranted_tx g (list string) (deletion (o_ID o))
  | wt_add org o ids i d : entitled true g org o -> dc_OrganizationID d = org -> warranted_tx g unit (adding o (stamped ids (o_ID o) i d))
  | wt_remove org o id d o' : entitled true g org o -> saw g (document_in id (o_ID o) org) d -> warranted_tx g unit (removing o' d).
(** The contact wrote in the last day, and the account is its account. *)
Definition warranted_send (g : trace) (m : OSent) : Prop :=
  exists org o id last now u, who = Some u /\ saw g (case_in id org) o /\ sn_Occurrence m = o_ID o /\ saw g (contact_in (o_ContactID o) org) (sn_Contact m) /\
    (assigned_to u o = true \/ Ev (OMay true u org (sn_Contact m)) true ∈ g) /\
    kc_LastInboundAt (sn_Contact m) = Some last /\ Ev ONow now ∈ g /\ within_day now last = true /\
    saw g (account_named org (kc_WhatsAppAccount (sn_Contact m))) (sn_Account m).
Definition reads_accounts X (op : acc_op X) : Prop :=
  match op with AQuery _ | ACacheGet _ _ | ACachePut _ _ _ => True | _ => False end.
Definition warranted X (op : oc_op X) (g : trace) : Prop :=
  match op in oc_op X return trace -> Prop with
  | OAsk op => fun _ => reads_accounts _ op
  | ODo f => fun g => warranted_stmt g _ f
  | OTx body => fun g => warranted_tx g _ body
  | OSend m => fun g => warranted_send g m
  | _ => fun _ => True
  end g.
End Warrants.

(** * Tame statements *)
Section Tame.
Context (strict : bool).
Abbreviation tame_stmt f := (forall b, tame strict b (snd (f b))).
Lemma tame_select {X} (f : OBase -> Res X) : tame_stmt (select f).
Proof. intros b. reflexivity. Qed.
(** Changes of one table of the catalogue other than the stages. *)
Lemma tame_other b b' : ob_cases b' = ob_cases b -> ob_around b' = ob_around b -> stages_of b' = stages_of b ->
  map category_key (categories_of b) ⊆ map category_key (categories_of b') -> map reason_key (reasons_of b) ⊆ map reason_key (reasons_of b') ->
  map process_key (processes_of b) ⊆ map process_key (processes_of b') -> tame strict b b'.
Proof. intros H1 H2 H3 H4 H5 H6. constructor; [done | done |]. constructor; rewrite ?H3; try done. unfold sane_stages. by rewrite H3. Qed.
Lemma tame_update_categories p f : (forall c, category_key (f c) = category_key c) -> tame_stmt (update_where set_categories p f).
Proof. intros H b. apply tame_other; simpl; try done. by rewrite map_update_column. Qed.
Lemma tame_insert_categories l : tame_stmt (insert_categories l).
Proof. intros b. unfold insert_categories. destruct (_ || _); simpl; [reflexivity |]. apply tame_other; simpl; try done. rewrite map_app. set_solver. Qed.
Lemma tame_update_reasons p f : (forall c, reason_key (f c) = reason_key c) -> tame_stmt (update_where set_reasons p f).
Proof. intros H b. apply tame_other; simpl; try done. by rewrite map_update_column. Qed.
Lemma tame_insert_reasons l : tame_stmt (insert_reasons l).
Proof. intros b. unfold insert_reasons. destruct (_ || _); simpl; [reflexivity |]. apply tame_other; simpl; try done. rewrite map_app. set_solver. Qed.
Lemma tame_update_processes p f : (forall c, process_key (f c) = process_key c) -> tame_stmt (update_where set_processes p f).
Proof. intros H b. apply tame_other; simpl; try done. by rewrite map_update_column. Qed.
Lemma tame_update_process id f : (forall c, process_key (f c) = process_key c) -> tame_stmt (update_process id f).
Proof. intros H b. unfold update_process. destruct (existsb _ _); simpl; [reflexivity |]. apply tame_other; simpl; try done. by rewrite map_update_column. Qed.
Lemma tame_insert_process p : tame_stmt (insert_process p).
Proof. intros b. unfold insert_process. destruct (existsb _ _); simpl; [reflexivity |]. destruct (existsb _ _); simpl; [reflexivity |]. apply tame_other; simpl; try done. rewrite map_app. set_solver. Qed.
Lemma tame_update_messages p f : tame_stmt (update_where set_messages p f).
Proof. intros b. by apply tame_other. Qed.
Lemma tame_insert_message m : tame_stmt (insert_message m).
Proof. intros b. unfold insert_message. destruct (existsb _ _); simpl; [reflexivity |]. by apply tame_other. Qed.
Lemma tame_insert_messages l : tame_stmt (insert_messages l).
Proof.
  assert (H : forall b0 l r, tame strict b0 (snd r) -> tame strict b0 (snd (foldl (fun r m => match r with (Ok _, b') => insert_message m b' | _ => r end) r l))).
  { intros b0 l0. induction l0 as [| m l0 IH]; intros [x b] Hr; [done |]. cbn [foldl]. apply IH. destruct x; [| done]. etrans; [exact Hr | apply tame_insert_message]. }
  intros b. unfold insert_messages. specialize (H b l (Ok tt, b)). destruct (foldl _ _ _) as [[[] | e] b'] eqn:E; simpl; [by apply H | reflexivity].
Qed.
Lemma tame_update_policies p f : tame_stmt (update_where set_policies p f).
Proof. intros b. by apply tame_other. Qed.
Lemma tame_insert_policies l : tame_stmt (insert_policies_quietly l).
Proof. intros b. by apply tame_other. Qed.
(** Stages. *)
Lemma tame_stages b l : map stage_key (stages_of b) ⊆ map stage_key l ->
  (strict = true -> map stage_flag (stages_of b) ⊆ map stage_flag l) -> (strict = true -> sane_stages b -> NoDup (map sg_ID l) /\ Forall never_both l) -> tame strict b (set_stages (fun _ => l) b).
Proof. intros H1 H2 H3. constructor; [done | done |]. by constructor. Qed.
Lemma tame_update_stages p f : (forall s, stage_key (f s) = stage_key s) -> (strict = true -> forall s, stage_flag (f s) = stage_flag s /\ (never_both s -> never_both (f s))) ->
  tame_stmt (update_where set_stages p f).
Proof.
  intros Hk Hf b. apply (tame_stages b (sql_update p f (stages_of b))); [by rewrite map_update_column | |].
  - intros Hs. rewrite map_update_column; [done |]. intros s. by apply Hf.
  - intros Hs [H1 H2]. split; [rewrite map_update_column; [done |]; intros s; specialize (Hk s); unfold stage_key in Hk; congruence |].
    apply Forall_forall. intros s (s0 & Hin & ->)%sql_update_in. rewrite Forall_forall in H2. specialize (H2 s0 Hin). destruct (p s0); [by apply Hf | done].
Qed.
Lemma tame_update_stage id f : (forall s, stage_key (f s) = stage_key s) -> strict = false -> tame_stmt (update_stage id f).
Proof.
  intros Hk Hf b. unfold update_stage. destruct (existsb _ _); simpl; [reflexivity |]. apply (tame_update_stages (is_stage id) f Hk). intros Hs. congruence.
Qed.
Lemma stored_key s : stage_key (stored_stage s) = stage_key s /\ stage_flag (stored_stage s) = stage_flag s /\ (never_both s -> never_both (stored_stage s)).
Proof. by split_and!. Qed.
Lemma tame_append b s : (forall x, x ∈ stages_of b -> sg_ID x <> sg_ID s) -> never_both s -> tame strict b (set_stages (fun l => l ++ [stored_stage s]) b).
Proof.
  intros Hid Hb. apply (tame_stages b (stages_of b ++ [stored_stage s])); [rewrite map_app; set_solver | intros _; rewrite map_app; set_solver |]. intros _ [H1 H2]. split.
  - rewrite map_app. apply NoDup_app. split_and!; [done | | apply NoDup_singleton]. intros i (x & -> & Hx)%list_elem_of_fmap Hi. simpl in Hi. apply list_elem_of_singleton in Hi. by apply (Hid x Hx).
  - apply Forall_app. split; [done |]. by constructor.
Qed.
Lemma conflict_id s x : stage_conflict s x = false -> sg_ID x <> sg_ID s.
Proof. unfold stage_conflict. intros [H _]%orb_false_iff. by apply N.eqb_neq. Qed.
Lemma tame_insert_stage s : never_both s -> tame_stmt (insert_stage s).
Proof.
  intros Hb b. unfold insert_stage. destruct (existsb _ _) eqn:E; simpl; [reflexivity |]. apply tame_append; [| done]. intros x Hx. apply conflict_id. by eapply existsb_not.
Qed.
Lemma tame_insert_stages l : Forall never_both l -> tame_stmt (insert_stages_quietly l).
Proof.
  intros Hl b. unfold insert_stages_quietly. simpl. enough (H : forall b', tame strict b b' -> tame strict b (set_stages (fun x => foldl add_stage x l) b')) by by apply H.
  induction Hl as [| s l Hs Hl IH]; intros b' Hb.
  - etrans; [exact Hb |]. constructor; [done | done |]. by constructor.
  - cbn [foldl]. change (set_stages (fun x => foldl add_stage (add_stage x s) l) b') with (set_stages (fun x => foldl add_stage x l) (set_stages (fun x => add_stage x s) b')).
    apply IH. etrans; [exact Hb |]. unfold add_stage. destruct (existsb (stage_conflict s) (stages_of b')) eqn:E.
    + assert (H : set_stages (fun x => if existsb (stage_conflict s) x then x else x ++ [stored_stage s]) b' = set_stages (fun _ => stages_of b') b') by (unfold set_stages, set_cat; simpl; by rewrite E).
      rewrite H. constructor; [done | done |]. by constructor.
    + assert (H : set_stages (fun x => if existsb (stage_conflict s) x then x else x ++ [stored_stage s]) b' = set_stages (fun l => l ++ [stored_stage s]) b') by (unfold set_stages, set_cat; simpl; by rewrite E).
      rewrite H. apply tame_append; [| done]. intros x Hx. apply conflict_id. by eapply existsb_not.
Qed.
Lemma tame_unset p : tame_stmt (update_where set_stages p unset_initial).
Proof. apply tame_update_stages; [done |]. intros _ s. split; [done |]. unfold never_both. simpl. done. Qed.
Lemma tame_delete_stage p : tame_stmt (update_where set_stages p deleted_stage).
Proof. by apply tame_update_stages. Qed.
Lemma keeps_tame {X} (f : stmt X) : tame_stmt f -> keeps (tame strict) (exec f).
Proof. intros H. apply keeps_exec; [apply _ | exact H]. Qed.

(** * Tame programs: nothing in the trace is needed *)
Definition quiet X (op : oc_op X) : Prop :=
  match op with OAsk op => reads_accounts _ op | ODo f => tame_stmt f | OTx body => keeps (tame strict) body | OSend _ => False | _ => True end.
Lemma quiet_warranted who X (op : oc_op X) g : quiet X op -> warranted strict who X op g.
Proof. destruct op; simpl; try done; intros H; [by apply ws_catalogue | by apply wt_catalogue]. Qed.
Lemma hushed_ask {A} (p : Prog A) : only reads_accounts p -> only quiet (ask p).
Proof. unfold ask. apply only_lift. done. Qed.
End Tame.

Lemma reads_permissions user org : only reads_accounts (getUserPermissionsCached user org).
Proof. unfold getUserPermissionsCached, loadRolePermissions, query_acc. solve_only. Qed.
#[export] Hint Resolve reads_permissions : whatc.
Lemma reads_super user : only reads_accounts (IsSuperAdmin user).
Proof. unfold IsSuperAdmin. solve_only. Qed.
#[export] Hint Resolve reads_super : whatc.
Lemma reads_org c : only reads_accounts (getOrgID c).
Proof. unfold getOrgID, query_acc. solve_only. Qed.
#[export] Hint Resolve reads_org : whatc.
Lemma reads_auth c r a : only reads_accounts (requireAuth c r a).
Proof. unfold requireAuth, getOrgAndUserID, AccountsApi.HasPermission. solve_only. Qed.
#[export] Hint Resolve reads_auth : whatc.
Ltac solve_tame :=
  first [ apply tame_select | apply tame_insert_categories | apply tame_insert_reasons | apply tame_insert_process | apply tame_update_messages | apply tame_insert_message | apply tame_insert_messages
        | apply tame_update_policies | apply tame_insert_policies | apply tame_unset | apply tame_delete_stage
        | apply tame_update_categories; by intros [] | apply tame_update_reasons; by intros [] | apply tame_update_processes; by intros [] | apply tame_update_process; by intros [] ].
Ltac solve_quiet :=
  repeat match goal with
  | |- only _ (ask _) => apply hushed_ask; solve [auto with whatc | solve_only]
  | |- only _ (answering _ _) => unfold answering
  | |- only _ (or_refuse _ _) => unfold or_refuse
  | |- only _ (_ ≫= _) => apply only_bind; [| intros ?]
  | |- only _ (sql _) => split; [cbn [quiet]; solve_tame | intros ?; exact I]
  | |- only _ (call _) => split; [exact I | intros ?; exact I]
  | |- only _ (mret _) => exact I
  | |- only _ (match ?x with _ => _ end) => destruct x
  | |- only _ (if ?x then _ else _) => destruct x
  | |- only _ _ => solve [auto with whatc]
  end.
Section QuietParts.
Context (strict : bool).
Abbreviation hushed p := (only (quiet strict) p).
Lemma quiet_auth c r a : hushed (auth c r a).
Proof. unfold auth. solve_quiet. Qed.
Lemma quiet_decoded {A} (body : option A) : hushed (decoded body).
Proof. exact I. Qed.
Lemma quiet_path id l : hushed (path_id id l).
Proof. exact I. Qed.
Lemma quiet_require ok code msg : hushed (require ok code msg).
Proof. exact I. Qed.
Lemma quiet_sql_or {A} (f : stmt A) code msg : (forall b, tame strict b (snd (f b))) -> hushed (sql_or f code msg).
Proof. intros H. unfold sql_or. apply only_bind; [by split | done]. Qed.
Lemma quiet_read_or {A} (f : OBase -> Res A) code msg : hushed (sql_or (select f) code msg).
Proof. apply quiet_sql_or. apply tame_select. Qed.
Lemma quiet_tx_or {A} (body : ODb (Res A)) code msg : keeps (tame strict) body -> hushed (tx_or body code msg).
Proof. intros H. unfold tx_or. apply only_bind; [by split | done]. Qed.
Lemma hushed_count p : hushed (count_or_zero (select p)).
Proof. unfold count_or_zero. solve_quiet. Qed.
Lemma quiet_audit org user r id a : hushed (audit org user r id a).
Proof. unfold audit. solve_quiet. Qed.
End QuietParts.
#[export] Hint Resolve quiet_auth quiet_decoded quiet_path quiet_require quiet_read_or hushed_count quiet_audit : whatc.

(** ** The catalogue *)
Section QuietCatalogue.
Context (parse_uuid : string -> option uuid) (strict : bool).
Abbreviation hushed p := (only (quiet strict) p).
Lemma default_stages_sane ids org : Forall never_both (defaultStages ids org).
Proof. by repeat constructor. Qed.
Lemma quiet_default_stages org : hushed (ensureDefaultStages org).
Proof.
  unfold ensureDefaultStages, count_stages. apply only_bind; [split; [cbn [quiet]; apply tame_select | intros; exact I] |]. intros [n |]; [| exact I]. destruct (0 <? n); [exact I |].
  apply only_bind; [by split |]. intros ids. split; [| intros; exact I]. cbn [quiet]. apply tame_insert_stages, default_stages_sane.
Qed.
#[local] Hint Resolve quiet_default_stages : whatc.
Lemma quiet_initial org : hushed (initialStage org).
Proof. unfold initialStage, first_initial. solve_quiet. Qed.
Lemma quiet_list_stages c : hushed (ListOccurrenceStages c).
Proof. unfold ListOccurrenceStages. solve_quiet. Qed.
Lemma quiet_closing org s f : hushed (keep_a_closing org s f).
Proof. unfold keep_a_closing, hasOtherClosingStage, count_stages. solve_quiet. Qed.
#[local] Hint Resolve quiet_closing : whatc.
Lemma quiet_unique {A} (r : Res A) f k : (forall a, hushed (k a)) -> hushed (unique_name r f k).
Proof. intros H. unfold unique_name. destruct r as [a | []]; [apply H | exact I..]. Qed.
Lemma quiet_create_stage c body : hushed (CreateOccurrenceStage c body).
Proof.
  unfold CreateOccurrenceStage, answering. apply only_bind; [apply quiet_auth |]. intros [[org u] |]; [| exact I]. apply only_bind; [exact I |]. intros [req |]; [| exact I].
  apply only_bind; [exact I |]. intros [_ |]; [| exact I]. unfold require. destruct (negb (sq_IsInitial req && sq_IsClosing req)) eqn:Hb; [| exact I].
  apply only_bind; [exact I |]. intros [_ |]; [| exact I]. apply only_bind; [by split |]. intros id. apply only_bind; [| intros r; by apply quiet_unique]. split; [| intros; exact I].
  apply keeps_try; [apply _ | | intros _; apply keeps_tame, tame_insert_stage].
  - destruct (sq_IsInitial req); [apply keeps_tame, tame_unset | apply keeps_ret, _].
  - unfold never_both. simpl. intros Hi. apply negb_true_iff in Hb. rewrite Hi in Hb. exact Hb.
Qed.
Lemma quiet_update_stage c id body : strict = false -> hushed (UpdateOccurrenceStage c id body).
Proof.
  intros Hs. unfold UpdateOccurrenceStage, stage_in. solve_quiet; [| by apply quiet_unique].
  split; [| intros; exact I]. apply keeps_try; [apply _ | | intros _; apply keeps_tame, tame_update_stage; [by intros [] | done]].
  unfold unsetOtherInitial. case_match; [apply keeps_tame, tame_unset | apply keeps_ret, _].
Qed.
Lemma quiet_delete_stage c id : hushed (DeleteOccurrenceStage c id).
Proof. unfold DeleteOccurrenceStage, stage_in, count_cases. solve_quiet. apply quiet_sql_or, tame_delete_stage. Qed.
Lemma quiet_default_categories org : hushed (ensureDefaultCategories org).
Proof. unfold ensureDefaultCategories. solve_quiet. Qed.
Lemma quiet_default_reasons org : hushed (ensureDefaultWhatHappened org).
Proof. unfold ensureDefaultWhatHappened. solve_quiet. Qed.
#[local] Hint Resolve quiet_default_categories quiet_default_reasons : whatc.
Lemma quiet_list_categories c : hushed (ListOccurrenceCategories c).
Proof. unfold ListOccurrenceCategories. solve_quiet. Qed.
Lemma quiet_parent org raw : hushed (resolveCategoryParent parse_uuid org raw).
Proof. unfold resolveCategoryParent, category_in. solve_quiet. Qed.
#[local] Hint Resolve quiet_parent : whatc.
Lemma quiet_create_category c body : hushed (CreateOccurrenceCategory parse_uuid c body).
Proof. unfold CreateOccurrenceCategory. solve_quiet. apply quiet_sql_or, tame_insert_categories. Qed.
Lemma quiet_nested id parent : hushed (may_be_nested id parent).
Proof. unfold may_be_nested, subcategories. solve_quiet. Qed.
#[local] Hint Resolve quiet_nested : whatc.
Lemma quiet_update_category c id body : hushed (UpdateOccurrenceCategory parse_uuid c id body).
Proof. unfold UpdateOccurrenceCategory, category_in. solve_quiet. apply quiet_sql_or, tame_update_categories. by intros []. Qed.
Lemma quiet_delete_category c id : hushed (DeleteOccurrenceCategory c id).
Proof. unfold DeleteOccurrenceCategory, category_in, subcategories, count_cases. solve_quiet. apply quiet_sql_or, tame_update_categories. by intros []. Qed.
Lemma quiet_list_reasons c : hushed (ListOccurrenceWhatHappened c).
Proof. unfold ListOccurrenceWhatHappened. solve_quiet. Qed.
Lemma quiet_reason_category org raw : hushed (resolveWhatHappenedCategory parse_uuid org raw).
Proof. unfold resolveWhatHappenedCategory. solve_quiet. Qed.
#[local] Hint Resolve quiet_reason_category : whatc.
Lemma quiet_create_reason c body : hushed (CreateOccurrenceWhatHappened parse_uuid c body).
Proof. unfold CreateOccurrenceWhatHappened. solve_quiet. apply quiet_sql_or, tame_insert_reasons. Qed.
Lemma quiet_update_reason c id body : hushed (UpdateOccurrenceWhatHappened parse_uuid c id body).
Proof. unfold UpdateOccurrenceWhatHappened, reason_in. solve_quiet. apply quiet_sql_or, tame_update_reasons. by intros []. Qed.
Lemma quiet_delete_reason c id : hushed (DeleteOccurrenceWhatHappened c id).
Proof. unfold DeleteOccurrenceWhatHappened, reason_in, count_cases. solve_quiet. apply quiet_sql_or, tame_update_reasons. by intros []. Qed.
Lemma quiet_seed_references org seeds : hushed (seed_references org seeds).
Proof.
  induction seeds as [| s seeds IH]; [exact I |]. cbn [seed_references]. unfold findOrCreateCategory, findOrCreateWhatHappened. solve_quiet.
Qed.
Lemma keeps_seed org ids i l : keeps (tame strict) (seed_processes org ids i l).
Proof.
  revert i. induction l as [| [s refs] l IH]; intros i; [apply keeps_ret, _ |]. cbn [seed_processes].
  apply keeps_try; [apply _ | apply keeps_tame, tame_insert_process |]. intros _. apply keeps_try; [apply _ | apply keeps_tame, tame_update_reasons; by intros [] |].
  intros _. apply keeps_try; [apply _ | apply keeps_tame, tame_insert_messages |]. intros _. apply IH.
Qed.
Lemma quiet_default_processes org : hushed (ensureDefaultOccurrenceProcesses org).
Proof.
  unfold ensureDefaultOccurrenceProcesses, count_processes. apply only_bind; [split; [cbn [quiet]; apply tame_select | intros; exact I] |]. intros [n |]; [| exact I]. destruct (0 <? n); [exact I |].
  apply only_bind; [apply quiet_seed_references |]. intros [refs |]; [| exact I]. apply only_bind; [by split |]. intros ids. split; [| intros; exact I].
  apply keeps_try; [apply _ | apply keeps_tame, tame_select |]. intros m. destruct (0 <? m); [apply keeps_ret, _ | apply keeps_seed].
Qed.
#[local] Hint Resolve quiet_default_processes : whatc.
Lemma quiet_list_processes c : hushed (ListOccurrenceProcesses c).
Proof. unfold ListOccurrenceProcesses. solve_quiet. Qed.
Lemma quiet_refs req org : hushed (parseProcessRefs parse_uuid req org).
Proof. unfold parseProcessRefs, parseOptionalOrgUUID. solve_quiet. Qed.
Lemma quiet_no_active org reason exclude : hushed (assertNoActiveProcessForReason org reason exclude).
Proof. unfold assertNoActiveProcessForReason. solve_quiet. Qed.
Lemma quiet_conflict {A} (r : Res A) f k : (forall a, hushed (k a)) -> hushed (reason_conflict r f k).
Proof. intros H. unfold reason_conflict. destruct r as [a | []]; [apply H | exact I..]. Qed.
#[local] Hint Resolve quiet_refs quiet_no_active : whatc.
Lemma quiet_create_process c body : hushed (CreateOccurrenceProcess parse_uuid c body).
Proof. unfold CreateOccurrenceProcess. solve_quiet. apply quiet_conflict. intros _. solve_quiet. Qed.
Lemma quiet_update_process c id body : hushed (UpdateOccurrenceProcess parse_uuid c id body).
Proof. unfold UpdateOccurrenceProcess, process_in. solve_quiet. apply quiet_conflict. intros _. unfold process_by_id. solve_quiet. Qed.
Lemma quiet_delete_process c id : hushed (DeleteOccurrenceProcess c id).
Proof.
  unfold DeleteOccurrenceProcess, process_in, count_cases. solve_quiet. apply quiet_tx_or. apply keeps_try; [apply _ | apply keeps_tame, tame_update_messages |].
  intros _. apply keeps_tame, tame_update_processes. by intros [].
Qed.
Lemma quiet_resolve c raw : hushed (ResolveOccurrenceProcess parse_uuid c raw).
Proof. unfold ResolveOccurrenceProcess. solve_quiet. Qed.
Lemma quiet_list_messages c id : hushed (ListOccurrenceProcessMessages c id).
Proof. unfold ListOccurrenceProcessMessages, process_in. solve_quiet. Qed.
Lemma quiet_upsert_message c id stage body : hushed (UpsertOccurrenceProcessMessage c id stage body).
Proof. unfold UpsertOccurrenceProcessMessage, process_in. solve_quiet; apply quiet_sql_or; solve_tame. Qed.
Lemma quiet_default_policies org : hushed (ensureDefaultSLAPolicies org).
Proof. unfold ensureDefaultSLAPolicies. solve_quiet. Qed.
#[local] Hint Resolve quiet_default_policies : whatc.
Lemma quiet_policy org p : hushed (getSLAPolicy org p).
Proof. unfold getSLAPolicy, policy_for. solve_quiet. Qed.
#[local] Hint Resolve quiet_policy : whatc.
Lemma quiet_minutes org p process : hushed (resolveOccurrenceSLAMinutes org p process).
Proof. unfold resolveOccurrenceSLAMinutes, process_in. solve_quiet. Qed.
Lemma quiet_list_policies c : hushed (ListOccurrenceSLAPolicies c).
Proof. unfold ListOccurrenceSLAPolicies. solve_quiet. Qed.
Lemma quiet_upsert_policy c p body : hushed (UpsertOccurrenceSLAPolicy c p body).
Proof. unfold UpsertOccurrenceSLAPolicy. solve_quiet. apply quiet_sql_or, tame_update_policies. Qed.
End QuietCatalogue.
