(* ===== verification/OccurrenceGate.v ===== *)
(** Who may change a case: every request on one has loaded it, in the organization of whoever asks,
    and found that they may touch it. *)
From S2P Require Import Prelude Effects Sql GoText GoAny Visibility Permissions Accounts AccountsApi Occurrences OccurrenceCatalogue OccurrenceTexts OccurrenceApi OccurrenceWarrants.
From Stdlib Require Import Ascii.

(** An answer the state could give. *)
Definition answerable X (op : oc_op X) (x : X) : Prop := exists s s', oc_sem X op s x s'.
Abbreviation gives strict who p g P := (extends (warranted strict who) answerable p g P).
Abbreviation ok strict who p g := (extends (warranted strict who) answerable p g (fun _ _ => True)).
Section Rules.
Context (strict : bool) (who : option uuid).
Lemma gives_mret {A} (a : A) g (P : A -> trace -> Prop) : P a g -> gives strict who (mret a) g P.
Proof. apply extends_ret. Qed.
Lemma ok_mret {A} (a : A) g : ok strict who (mret a) g.
Proof. by apply extends_ret. Qed.
Lemma ok_quiet {A} (p : OProg A) g : only (quiet strict) p -> ok strict who p g.
Proof. apply extends_only. intros X op g'. apply quiet_warranted. Qed.
Lemma ok_answering {A} (p : OProg (A + oc_reply)) k g (P : A + oc_reply -> trace -> Prop) :
  gives strict who p g P -> (forall a l, P (inl a) (l ++ g) -> ok strict who (k a) (l ++ g)) -> ok strict who (answering p k) g.
Proof. intros Hp Hk. eapply extends_bind; [exact Hp |]. intros [a | e] g' [l ->] Ha; [by apply Hk | apply ok_mret]. Qed.
Lemma ok_quiet_answering {A} (p : OProg (A + oc_reply)) k g : only (quiet strict) p -> (forall a l, ok strict who (k a) (l ++ g)) -> ok strict who (answering p k) g.
Proof. intros Hp Hk. eapply ok_answering; [by apply ok_quiet | auto]. Qed.
Lemma ok_quiet_bind {A B} (p : OProg A) (k : A -> OProg B) g : only (quiet strict) p -> (forall a l, ok strict who (k a) (l ++ g)) -> ok strict who (p ≫= k) g.
Proof. intros Hp Hk. eapply extends_bind; [by apply ok_quiet |]. intros a g' [l ->] _. apply Hk. Qed.
Lemma ok_mret_answering {A} (r : A + oc_reply) k g : (forall a, r = inl a -> ok strict who (k a) g) -> ok strict who (answering (mret r) k) g.
Proof. intros H. unfold answering. apply (extends_bind _ _ _ _ _ (fun x g' => x = r /\ g' = g)); [by apply extends_ret |]. intros x g' _ [-> ->]. destruct r; [by apply H | apply ok_mret]. Qed.
Lemma ok_require b code msg k g : (b = true -> ok strict who (k tt) g) -> ok strict who (answering (require b code msg) k) g.
Proof. intros H. apply ok_mret_answering. intros [] E. apply H. by destruct b. Qed.
Lemma gives_bind {A B} (p : OProg A) (k : A -> OProg B) g (P : A -> trace -> Prop) R :
  gives strict who p g P -> (forall a l, P a (l ++ g) -> gives strict who (k a) (l ++ g) R) -> gives strict who (p ≫= k) g R.
Proof. intros Hp Hk. eapply extends_bind; [exact Hp |]. intros a g' [l ->] Ha. by apply Hk. Qed.
Lemma gives_refuse {A B} (p : OProg (A + oc_reply)) (k : A -> OProg (B + oc_reply)) g (P : A + oc_reply -> trace -> Prop) (R : B + oc_reply -> trace -> Prop) :
  gives strict who p g P -> (forall a l, P (inl a) (l ++ g) -> gives strict who (k a) (l ++ g) R) -> (forall e g', R (inr e) g') -> gives strict who (or_refuse p k) g R.
Proof. intros Hp Hk He. eapply extends_bind; [exact Hp |]. intros [a | e] g' [l ->] Ha; [by apply Hk | by apply gives_mret]. Qed.
Lemma gives_weaken {A} (p : OProg A) g (P Q : A -> trace -> Prop) : gives strict who p g P -> (forall a l, P a (l ++ g) -> Q a (l ++ g)) -> gives strict who p g Q.
Proof. intros Hp H. eapply extends_mono; [| exact Hp]. intros a g' [l ->]. apply H. Qed.
Lemma ok_call {X B} (op : oc_op X) (k : X -> OProg B) g : warranted strict who X op g -> (forall x, answerable X op x -> ok strict who (k x) (Ev op x :: g)) -> ok strict who (call op ≫= k) g.
Proof. intros H Hk. by apply extends_call. Qed.
(** A read, with the row it gave. *)
Lemma gives_sql {X} (f : OBase -> Res X) g : gives strict who (sql (select f)) g (fun r g' => forall a, r = Ok a -> saw g' (select f) a).
Proof. apply extends_call_end; [apply ws_read |]. intros x _ a ->. by left. Qed.
Lemma gives_read {X} (f : OBase -> Res X) code msg g : gives strict who (sql_or (select f) code msg) g (fun r g' => forall a, r = inl a -> saw g' (select f) a).
Proof.
  unfold sql_or. eapply gives_bind; [apply gives_sql |]. intros r l H. apply gives_mret. intros a. destruct r as [b |]; [| done]. intros [= <-]. by apply H.
Qed.
Lemma gives_auth c r a g : gives strict (cx_UserID c) (auth c r a) g (fun x _ => forall org u, x = inl (org, u) -> cx_UserID c = Some u).
Proof.
  unfold auth.
  eapply (extends_bind _ _ _ _ _ (fun x _ => forall org u, x = inl (org, u) -> cx_UserID c = Some u)).
  - unfold ask, requireAuth, getOrgAndUserID. eapply extends_lift_bind.
    + eapply (extends_lift_bind _ _ _ _ _ _ (fun _ _ => True)); [apply (extends_only _ _ (quiet strict)); [intros; by apply quiet_warranted | apply hushed_ask, reads_org] |].
      intros org g' _ _. apply (extends_ret _ _ _ _ (fun x _ => forall o u, x = Some (o, u) -> cx_UserID c = Some u)). intros o u. destruct org; [| done]. simpl. destruct (cx_UserID c); [| done]. simpl. congruence.
    + intros [[org u] |] g' _ Hu; [| by apply extends_ret]. eapply (extends_lift_bind _ _ _ _ _ _ (fun _ _ => True)).
      * apply (extends_only _ _ (quiet strict)); [intros; by apply quiet_warranted |]. apply hushed_ask. unfold AccountsApi.HasPermission. solve_only.
      * intros b g'' _ _. apply extends_ret. destruct b; [| done]. intros o v [= <- <-]. by eapply Hu.
  - intros x g' _ Hx. apply extends_ret. intros org u. destruct x as [[o v] |]; [| done]. intros [= <- <-]. by eapply Hx.
Qed.

(** ** What was seen stays seen *)
Lemma saw_later {X} l g (f : stmt X) x : saw g f x -> saw (l ++ g) f x.
Proof. intros H. apply elem_of_app. by right. Qed.
Lemma saw_cons {X} e g (f : stmt X) x : saw g f x -> saw (e :: g) f x.
Proof. intros H. by apply elem_of_cons; right. Qed.
Definition loaded (interact : bool) (g : trace) (org user : uuid) (o : Occurrence) (contact : OContact) : Prop :=
  exists id, saw g (case_in id org) o /\ saw g (contact_in (o_ContactID o) org) contact /\ (assigned_to user o = true \/ Ev (OMay interact user org contact) true ∈ g).
Lemma loaded_grows interact g g' org user o contact : (forall e, e ∈ g -> e ∈ g') -> loaded interact g org user o contact -> loaded interact g' org user o contact.
Proof. intros Hg (id & H1 & H2 & H3). exists id. split_and!; [by apply Hg | by apply Hg |]. destruct H3 as [H3 | H3]; [by left | right; by apply Hg]. Qed.
Lemma loaded_entitled interact g org user o contact : who = Some user -> loaded interact g org user o contact -> entitled who interact g org o.
Proof. intros Hu (id & H1 & H2 & H3). left. by exists id, contact, user. Qed.
Lemma entitled_grows interact g g' org o : (forall e, e ∈ g -> e ∈ g') -> entitled who interact g org o -> entitled who interact g' org o.
Proof.
  intros Hg [(id & contact & u & H1 & H2 & H3 & H4) | (year & id & now & o' & H1 & H2)].
  - left. exists id, contact, u. split_and!; [done | by apply Hg | by apply Hg |]. destruct H4 as [H4 | H4]; [by left | right; by apply Hg].
  - right. exists year, id, now, o'. split; [by apply Hg | done].
Qed.
Lemma gives_load id org user interact g : gives strict who (loadAuthorizedOccurrence id org user interact) g (fun r g' => forall o contact, r = inl (o, contact) -> loaded interact g' org user o contact).
Proof.
  unfold loadAuthorizedOccurrence. eapply gives_refuse; [apply ok_quiet; exact I | | done]. intros i l _. eapply gives_refuse; [apply gives_read | | done].
  intros o l1 Ho. eapply gives_refuse; [apply gives_read | | done]. intros contact l2 Hc. specialize (Ho o eq_refl). specialize (Hc contact eq_refl).
  destruct (assigned_to user o) eqn:Ea.
  - apply gives_bind with (P := fun _ _ => True); [apply ok_mret |]. intros b l3 _. apply gives_mret. intros o' c'. destruct b; [| done]. intros [= <- <-].
    exists i. split_and!; [by do 2 apply saw_later | by apply saw_later | by left].
  - apply extends_call; [done |]. intros b _. apply gives_mret. intros o' c'. destruct b; [| done]. intros [= <- <-].
    exists i. split_and!; [by apply saw_cons, saw_later | by apply saw_cons | right; by left].
Qed.

(** ** Common parts *)
Lemma gives_reloaded o g : gives strict who (reloaded o) g (fun o' _ => o_ID o' = o_ID o).
Proof.
  unfold reloaded, case_by_id. apply extends_call; [apply ws_read |]. intros r (s & s' & Hr). apply gives_mret. destruct r as [o' |]; [| done].
  destruct Hr as (b & Hb%exec_ok_sem & _). unfold select in Hb. destruct (sql_first _ _) as [o1 |] eqn:E; [| done]. injection Hb as ->. apply find_some in E as [_ E]. by apply N.eqb_eq.
Qed.
Lemma ok_event interact org o kind content stages user g :
  entitled who interact g org o -> who = Some user -> interact = negb (String.eqb kind OccurrenceEventProcessMessageUsed) -> ok strict who (create_event org (o_ID o) kind content stages user) g.
Proof.
  intros He Hu ->. unfold create_event. apply ok_call; [done |]. intros id _. apply ok_call; [done |]. intros now _. apply ok_call; [| intros; apply ok_mret].
  apply (ws_event _ _ _ org); [| done]. eapply entitled_grows; [| exact He]. intros e H. by do 2 apply list_elem_of_further.
Qed.
Lemma ok_sql {X} (f : stmt X) g : warranted_stmt strict who g X f -> ok strict who (sql f) g.
Proof. intros H. by apply extends_call_end. Qed.
Lemma ok_sql_or {X} (f : stmt X) code msg g : warranted_stmt strict who g X f -> ok strict who (sql_or f code msg) g.
Proof. intros H. eapply gives_bind; [by apply ok_sql |]. intros. apply ok_mret. Qed.
Lemma ok_tx_or {X} (body : ODb (Res X)) code msg g : warranted_tx strict who g X body -> ok strict who (tx_or body code msg) g.
Proof. intros H. eapply (gives_bind _ _ _ (fun _ _ => True)); [by apply extends_call_end |]. intros. apply ok_mret. Qed.
Lemma ok_no_answer {A} (p : OProg A) g : ok strict who p g -> ok strict who (no_answer p) g.
Proof. intros H. eapply extends_bind; [exact H |]. intros. apply ok_mret. Qed.
Lemma ok_then {A B} (p : OProg A) (k : A -> OProg B) g : ok strict who p g -> (forall a l, ok strict who (k a) (l ++ g)) -> ok strict who (p ≫= k) g.
Proof. intros Hp Hk. eapply gives_bind; [exact Hp |]. auto. Qed.
Lemma quiet_broadcast org c a m : only (quiet strict) (broadcastOccurrenceMessage org c a m).
Proof. by split. Qed.
Lemma quiet_deadlines org p process : only (quiet strict) (deadlines org p process).
Proof. unfold deadlines. apply only_bind; [apply quiet_minutes |]. intros [[] |]; [| exact I]. by split. Qed.
Lemma hushed_remove path : only (quiet strict) (removeOccurrenceAttachment path).
Proof. unfold removeOccurrenceAttachment. destruct (String.eqb path ""); [exact I | by split]. Qed.
End Rules.
#[export] Hint Resolve quiet_broadcast quiet_deadlines hushed_remove : whatc.

(** * The requests *)
Ltac see := solve [repeat first [assumption | eassumption | apply list_elem_of_here | apply list_elem_of_further | (apply elem_of_app; right)]].
Ltac grow H := eapply entitled_grows; [| exact H]; intros ? ?; see.
Ltac auth_step := eapply ok_answering; [apply gives_auth |]; let Hu := fresh "Hu" in intros [? ?] ? Hu; specialize (Hu _ _ eq_refl); cbv beta iota.
Ltac load_step := eapply ok_answering; [apply gives_load |]; let Hl := fresh "Hl" in intros [? ?] ? Hl; specialize (Hl _ _ eq_refl); cbv beta iota.
Ltac quiet_step := first [apply ok_quiet_answering; [solve [auto with whatc | exact I] | intros ? ?]
                        | apply ok_quiet_bind; [solve [auto with whatc | apply quiet_broadcast | apply quiet_deadlines | by split | exact I] | intros ? ?]]; cbv beta iota.
Section Handlers.
Context (parse_uuid pg_uuid : string -> option uuid) (ilike : string -> string -> bool) (parse_date : uuid -> string -> option instant)
        (parse_rfc3339 : string -> option instant) (detect_content : string -> string) (uuid_text : uuid -> string).
Context (strict : bool) (c : Ctx).
Abbreviation who := (cx_UserID c).
Abbreviation fine p := (ok strict who p []).

Lemma fine_event id body : fine (CreateOccurrenceEvent c id body).
Proof.
  unfold CreateOccurrenceEvent. auth_step. load_step. apply (loaded_entitled _ _ _ _ _ _ _ Hu) in Hl as He. quiet_step. quiet_step.
  apply ok_then; [eapply ok_event; [grow He | done | done] |]. intros [e [|]] ?; [| apply ok_mret]. apply ok_quiet. solve_quiet.
Qed.
Lemma fine_log id body : fine (LogOccurrenceProcessMessageUse c id body).
Proof.
  unfold LogOccurrenceProcessMessageUse. auth_step. load_step. apply (loaded_entitled _ _ _ _ _ _ _ Hu) in Hl as He. quiet_step. quiet_step.
  apply ok_quiet_bind; [destruct (o_ProcessID _); unfold process_in; solve_quiet |]. intros name ?. cbv beta iota zeta.
  apply ok_then; [eapply ok_event; [grow He | done | done] |]. intros [e r] l'. apply ok_mret.
Qed.
Lemma fine_stage id body : fine (ChangeOccurrenceStage parse_uuid c id body).
Proof.
  unfold ChangeOccurrenceStage. auth_step. load_step. apply (loaded_entitled _ _ _ _ _ _ _ Hu) in Hl as He. quiet_step. quiet_step.
  eapply ok_answering; [apply gives_read |]. intros target ? Ht. specialize (Ht target eq_refl). destruct (N.eqb _ _); [apply ok_mret |].
  apply ok_quiet_bind; [unfold stage_by_id; solve_quiet |]. intros from ?. destruct (match from with Ok s => (sg_Name s, sg_ID s) | Err _ => ("", nil_uuid) end) as [from_name from_id].
  eapply (gives_bind _ _ _ _ _ (fun closed _ => is_Some closed <-> sg_IsClosing target = true)).
  { destruct (sg_IsClosing target); [| apply gives_mret; by split; [intros [? ?] |]]. apply extends_call; [done |]. intros now _. apply gives_mret. split; [done | by eexists]. }
  intros closed ? Hclosed. eapply ok_answering.
  - apply ok_sql_or. eapply ws_case; [grow He | eapply we_stage; [| done]]. do 2 apply saw_later. exact Ht.
  - intros _ ? _. eapply gives_bind; [apply gives_reloaded |]. intros o' ? Ho. simpl in Ho. quiet_step.
    apply ok_then; [rewrite Ho; eapply ok_event; [grow He | done | done] |]. intros [e r] ?. cbv beta iota. apply ok_then; [apply ok_quiet; destruct r; solve_quiet |]. intros _ ?.
    apply ok_then; [| intros; apply ok_mret]. destruct (sg_IsClosing target); [| apply ok_mret]. apply ok_no_answer. rewrite Ho. eapply ok_event; [grow He | done | done].
Qed.

(** Those that only read. *)
Lemma quiet_load id org user i : only (quiet strict) (loadAuthorizedOccurrence id org user i).
Proof. unfold loadAuthorizedOccurrence, case_in, contact_in. solve_quiet. Qed.
#[local] Hint Resolve quiet_load : whatc.
Lemma quiet_reloaded o : only (quiet strict) (reloaded o).
Proof. unfold reloaded, case_by_id. solve_quiet. Qed.
#[local] Hint Resolve quiet_reloaded : whatc.
Lemma quiet_cases f : only (quiet strict) (ListOccurrences pg_uuid ilike parse_rfc3339 c f).
Proof. unfold ListOccurrences. solve_quiet. Qed.
Lemma quiet_contact_cases id : only (quiet strict) (ListContactOccurrences c id).
Proof. unfold ListContactOccurrences, contact_in. solve_quiet. Qed.
Lemma quiet_get id : only (quiet strict) (GetOccurrence c id).
Proof. unfold GetOccurrence. solve_quiet. Qed.
Lemma quiet_events id : only (quiet strict) (ListOccurrenceEvents c id).
Proof. unfold ListOccurrenceEvents. solve_quiet. Qed.
Lemma quiet_preview id stage o : only (quiet strict) (PreviewOccurrenceProcessMessage parse_uuid c id stage o).
Proof. unfold PreviewOccurrenceProcessMessage, case_in, contact_by_id. solve_quiet. Qed.
Lemma quiet_documents id : only (quiet strict) (ListOccurrenceDocuments c id).
Proof. unfold ListOccurrenceDocuments. solve_quiet. Qed.
Lemma quiet_load_document id doc org user i : only (quiet strict) (loadOccurrenceDocument id doc org user i).
Proof. unfold loadOccurrenceDocument, document_in. solve_quiet. Qed.
#[local] Hint Resolve quiet_load_document : whatc.
Lemma quiet_serve id doc : only (quiet strict) (ServeOccurrenceDocumentAttachment c id doc).
Proof. unfold ServeOccurrenceDocumentAttachment. solve_quiet. Qed.

(** ** Editing *)
Lemma gives_assignee org raw g : gives strict who (resolveAssignee parse_uuid org raw) g (fun r g' => forall a, r = inl a -> holds (seen_user g' org) a).
Proof.
  unfold resolveAssignee. destruct raw as [raw |]; [| by apply gives_mret; intros a [= <-]]. destruct (String.eqb raw ""); [by apply gives_mret; intros a [= <-] |].
  destruct (parse_uuid raw) as [id |]; [| by apply gives_mret]. unfold ask, query_acc. simpl. apply extends_call; [done |]. intros r _. apply gives_mret. intros a. destruct r as [u |]; [| done].
  intros [= <-] id' [= <-]. exists u. by left.
Qed.
Definition row_seen {A} (seen_row : trace -> uuid -> Prop) (g : trace) (r : option (uuid * A)) : Prop := holds (fun x => seen_row g (fst x)) r.
Lemma gives_optional {A} raw bad (row : uuid -> OProg (A + oc_reply)) (seen_row : trace -> uuid -> Prop) g :
  (forall id g, gives strict who (row id) g (fun r g' => forall a, r = inl a -> seen_row g' id)) ->
  gives strict who (optional_ref parse_uuid raw bad row) g (fun r g' => forall x, r = inl x -> row_seen seen_row g' x).
Proof.
  intros Hrow. unfold optional_ref. destruct raw as [raw |]; [| by apply gives_mret; intros a [= <-]]. destruct (String.eqb raw ""); [by apply gives_mret; intros a [= <-] |].
  destruct (parse_uuid raw) as [id |]; [| by apply gives_mret]. eapply gives_refuse; [apply Hrow | | done]. intros a l Ha. apply gives_mret. intros x [= <-] y [= <-]. by eapply Ha.
Qed.
Lemma gives_edited {A} raw bad (row : uuid -> OProg (A + oc_reply)) (seen_row : trace -> uuid -> Prop) g :
  (forall id g, gives strict who (row id) g (fun r g' => forall a, r = inl a -> seen_row g' id)) ->
  gives strict who (edited_ref parse_uuid raw bad row) g (fun r g' => forall x, r = inl x -> holds (row_seen seen_row g') x).
Proof.
  intros Hrow. unfold edited_ref. destruct raw as [raw |]; [| by apply gives_mret; intros a [= <-]]. eapply gives_refuse; [by apply gives_optional | | done].
  intros x l Hx. apply gives_mret. intros y [= <-] z [= <-]. by apply Hx.
Qed.
Lemma gives_unit units label org id g : gives strict who (org_unit units label org id) g (fun r g' => forall a, r = inl a -> seen_unit g' units org id).
Proof. unfold org_unit, ask. simpl. apply extends_call; [done |]. intros r _. apply gives_mret. intros a. destruct r as [[] |]; [| done]. intros _. by left. Qed.
Lemma gives_row {Row} (f : uuid -> uuid -> stmt Row) (h : uuid -> uuid -> OBase -> Res Row) (key : Row -> uuid) code msg org id g :
  f = (fun i o => select (h i o)) -> gives strict who (sql_or (f id org) code msg) g (fun r g' => forall a, r = inl a -> seen g' f key org id).
Proof. intros ->. eapply gives_weaken; [apply gives_read |]. intros r l H a Ha. exists id, a. split; [by apply H | by left]. Qed.
Lemma gives_category org id g : gives strict who (category_of org id) g (fun r g' => forall a, r = inl a -> seen g' category_in cg_ID org id).
Proof. by apply (gives_row category_in (fun id org b => found (sql_first (fun c => is_category id c && N.eqb (cg_OrganizationID c) org) (categories_of b)))). Qed.
Lemma gives_reason org id g : gives strict who (reason_of org id) g (fun r g' => forall a, r = inl a -> seen g' reason_in wh_ID org id).
Proof. by apply (gives_row reason_in (fun id org b => found (sql_first (fun w => is_reason id w && N.eqb (wh_OrganizationID w) org) (reasons_of b)))). Qed.
Lemma gives_process org id g : gives strict who (active_process org id) g (fun r g' => forall a, r = inl a -> seen g' process_in pr_ID org id).
Proof.
  unfold active_process, process_of. eapply gives_refuse; [by apply (gives_row process_in (fun id org b => found (sql_first (fun p => is_process id p && N.eqb (pr_OrganizationID p) org) (processes_of b))) pr_ID) | | done].
  intros p l Hp. eapply gives_refuse; [apply ok_quiet; exact I | | done]. intros _ l' _. apply gives_mret. intros a _. destruct (Hp p eq_refl) as (i & row & H1 & H2). exists i, row. split; [by apply saw_later | done].
Qed.
Lemma gives_suggested org reason process g : gives strict who (suggestedCategory org reason process) g (fun r g' => forall cat, r = Some cat -> seen g' category_in cg_ID org (cg_ID cat)).
Proof.
  unfold suggestedCategory. destruct (match reason ≫= wh_CategoryID with Some id => Some id | None => process ≫= pr_CategoryID end) as [id |]; [| by apply gives_mret].
  eapply gives_bind; [apply gives_sql |]. intros r l H. apply gives_mret. intros cat. destruct r as [cat' |]; [| done]. intros [= ->]. exists id, cat. split; [by apply H | by right].
Qed.
Lemma seen_grows {Row} (read : uuid -> uuid -> stmt Row) key org id g g' : (forall e, e ∈ g -> e ∈ g') -> seen g read key org id -> seen g' read key org id.
Proof. intros Hg (i & row & H1 & H2). exists i, row. split; [by apply Hg | done]. Qed.
Lemma holds_map {A B} (P : A -> Prop) (Q : B -> Prop) (f : B -> A) o : holds Q o -> (forall b, Q b -> P (f b)) -> holds P (option_map f o).
Proof. intros H Hf a. destruct o as [b |]; [| done]. intros [= <-]. by apply Hf, H. Qed.
Lemma holds_mono {A} (P Q : A -> Prop) o : holds Q o -> (forall b, Q b -> P b) -> holds P o.
Proof. intros H Hf a Ha. by apply Hf, H. Qed.
Lemma fine_update id body : fine (UpdateOccurrence parse_uuid c id body).
Proof.
  unfold UpdateOccurrence. auth_step. load_step. apply (loaded_entitled _ _ _ _ _ _ _ Hu) in Hl as He. quiet_step. quiet_step. cbv zeta.
  apply ok_quiet_bind; [case_match; auto with whatc; exact I |]. intros due ?.
  eapply (ok_answering _ _ _ _ _ (fun r g' => forall a, r = inl a -> holds (holds (seen_user g' n)) a)).
  { destruct (eq_AssignedUserID a) as [raw |]; [| by apply gives_mret; intros x [= <-]]. eapply gives_refuse; [apply gives_assignee | | done]. intros x l' Hx. apply gives_mret. intros y [= <-] z [= <-]. by apply Hx. }
  intros assignee ? Ha. specialize (Ha _ eq_refl). eapply ok_answering; [apply gives_edited; intros; apply gives_unit |]. intros unit ? Hun. specialize (Hun _ eq_refl).
  eapply ok_answering; [apply gives_edited; intros; apply gives_unit |]. intros dept ? Hd. specialize (Hd _ eq_refl).
  eapply ok_answering; [apply gives_edited; intros; apply gives_category |]. intros category ? Hc. specialize (Hc _ eq_refl).
  eapply ok_answering; [apply gives_edited; intros; apply gives_reason |]. intros reason ? Hr. specialize (Hr _ eq_refl).
  eapply (gives_bind _ _ _ _ _ (fun r g' => forall cat, r = Some cat -> seen g' category_in cg_ID n (cg_ID cat))).
  { destruct (eq_CategoryID a), reason as [[[i wh] |] |]; try (by apply gives_mret). apply gives_suggested. }
  intros suggested ? Hs. eapply ok_answering.
  - apply ok_sql_or. eapply ws_case; [grow He |]. apply we_edit; simpl.
    + eapply holds_mono; [exact Ha |]. intros x Hx. eapply holds_mono; [exact Hx |]. intros y (u & H). exists u. see.
    + eapply holds_map; [exact Hun |]. intros x Hx. eapply holds_map; [exact Hx |]. intros y H. unfold seen_unit in *. see.
    + eapply holds_map; [exact Hd |]. intros x Hx. eapply holds_map; [exact Hx |]. intros y H. unfold seen_unit in *. see.
    + destruct category as [cat |]; [eapply holds_map; [exact Hc |]; intros x Hx; eapply holds_map; [exact Hx |]; intros y H; eapply seen_grows; [| exact H]; intros; see |].
      intros x. destruct suggested as [cat |]; [| done]. intros [= <-] y [= <-]. eapply seen_grows; [| by apply Hs]. intros; see.
    + eapply holds_map; [exact Hr |]. intros x Hx. eapply holds_map; [exact Hx |]. intros y H. eapply seen_grows; [| exact H]. intros; see.
  - intros _ ? _. apply ok_then; [case_match; [apply ok_no_answer; eapply ok_event; [grow He | done | done] | apply ok_mret] |]. intros _ ?.
    apply ok_quiet. solve_quiet.
Qed.
Lemma fine_delete id : fine (DeleteOccurrence c id).
Proof.
  unfold DeleteOccurrence. auth_step. apply ok_quiet_bind; [apply hushed_ask; auto with whatc |]. intros super ?. quiet_step. load_step. apply (loaded_entitled _ _ _ _ _ _ _ Hu) in Hl as He.
  eapply ok_answering; [apply ok_tx_or; eapply wt_delete; grow He |]. intros paths ? _. apply ok_quiet. solve_quiet.
  induction paths as [| p paths IH]; [exact I |]. simpl. solve_quiet.
Qed.

(** ** Sending *)
Lemma gives_window contact g : gives strict who (open_window contact) g (fun r g' => r = inl tt -> exists last now, kc_LastInboundAt contact = Some last /\ Ev ONow now ∈ g' /\ within_day now last = true).
Proof.
  unfold open_window, serviceWindowOpen. destruct (kc_LastInboundAt contact) as [last |].
  - eapply (gives_bind _ _ _ _ _ (fun ok g' => ok = true -> exists last' now, Some last = Some last' /\ Ev ONow now ∈ g' /\ within_day now last' = true)).
    + apply extends_call; [done |]. intros now _. apply gives_mret. intros H. exists last, now. split_and!; [done | by left | done].
    + intros ok l H. apply gives_mret. intros E. destruct ok; [| done]. by apply H.
  - apply (gives_bind _ _ _ _ _ (fun ok _ => ok = false)); [by apply gives_mret |]. intros ok l ->. by apply gives_mret.
Qed.
Lemma send_warranted g org user o contact account content by_ last now :
  who = Some user -> loaded true g org user o contact -> saw g (account_named org (kc_WhatsAppAccount contact)) account ->
  kc_LastInboundAt contact = Some last -> Ev ONow now ∈ g -> within_day now last = true -> warranted_send who g (MkOSent account contact content by_ (o_ID o)).
Proof. intros Hu (id & H1 & H2 & H3) Ha H4 H5 H6. by exists org, o, id, last, now, user. Qed.
Lemma fine_reply id body : fine (ReplyToOccurrence c id body).
Proof.
  unfold ReplyToOccurrence. auth_step. load_step. apply (loaded_entitled _ _ _ _ _ _ _ Hu) in Hl as He. quiet_step. quiet_step.
  eapply ok_answering; [apply gives_window |]. intros [] ? Hw. destruct (Hw eq_refl) as (last & now & H1 & H2 & H3). unfold account_of. eapply ok_answering; [apply gives_read |]. intros account ? Ha. specialize (Ha _ eq_refl).
  apply ok_call; [eapply (send_warranted _ _ _ _ _ _ _ _ last now); [done | eapply loaded_grows; [| exact Hl]; intros; see | exact Ha | done | see | exact H3] |]. intros sent _. quiet_step.
  apply ok_then; [eapply ok_event; [grow He | done | done] |]. intros [e r] ?. cbv beta iota. apply ok_then; [| intros; apply ok_mret].
  destruct (sl_FirstResponseAt (o_SLA o)); [apply ok_mret |]. apply ok_no_answer, ok_sql. eapply ws_case; [grow He | by apply we_response].
Qed.
Lemma fine_protocol id body : fine (SendOccurrenceProtocol c id body).
Proof.
  unfold SendOccurrenceProtocol. auth_step. load_step. apply (loaded_entitled _ _ _ _ _ _ _ Hu) in Hl as He. apply ok_quiet_answering; [exact I |]. intros custom ?.
  eapply ok_answering; [apply gives_window |]. intros [] ? Hw. destruct (Hw eq_refl) as (last & now & H1 & H2 & H3). unfold account_of. eapply ok_answering; [apply gives_read |]. intros account ? Ha. specialize (Ha _ eq_refl).
  apply ok_call; [eapply (send_warranted _ _ _ _ _ _ _ _ last now); [done | eapply loaded_grows; [| exact Hl]; intros; see | exact Ha | done | see | exact H3] |]. intros sent _. quiet_step.
  apply ok_then; [eapply ok_event; [grow He | done | done] |]. intros; apply ok_mret.
Qed.

(** ** Documents *)
Lemma built_org org user req d : buildOccurrenceDocument (parse_date org) org user req = inl d -> dc_OrganizationID d = org.
Proof. unfold buildOccurrenceDocument. repeat case_match; intros; simplify_eq; done. Qed.
Lemma fine_add id body : fine (CreateOccurrenceDocument parse_date c id body).
Proof.
  unfold CreateOccurrenceDocument. auth_step. load_step. apply (loaded_entitled _ _ _ _ _ _ _ Hu) in Hl as He. quiet_step.
  apply ok_mret_answering. intros d Hd. destruct (buildOccurrenceDocument _ _ _ _) as [d' |] eqn:Eb; [| done]. injection Hd as ->. apply built_org in Eb. quiet_step. quiet_step.
  apply ok_call; [done |]. intros ids _. cbv zeta. eapply ok_answering; [apply ok_tx_or; eapply wt_add; [grow He | done] |]. intros; apply ok_mret.
Qed.
Lemma gives_document id doc org user g : gives strict who (loadOccurrenceDocument id doc org user true) g
  (fun r g' => forall d, r = inl d -> exists o contact i, loaded true g' org user o contact /\ saw g' (document_in i (o_ID o) org) d).
Proof.
  unfold loadOccurrenceDocument. eapply gives_refuse; [apply gives_load | | done]. intros [o contact] l Hl. specialize (Hl _ _ eq_refl). eapply gives_refuse; [apply ok_quiet; exact I | | done].
  intros i l' _. eapply gives_weaken; [apply gives_read |]. intros r l2 H d Hd. exists o, contact, i. split; [| by apply H]. eapply loaded_grows; [| exact Hl]. intros; see.
Qed.
Lemma fine_remove id doc : fine (DeleteOccurrenceDocument c id doc).
Proof.
  unfold DeleteOccurrenceDocument. auth_step. eapply ok_answering; [apply gives_document |]. intros d ? Hd. destruct (Hd _ eq_refl) as (o & contact & i & Hl & Hs). apply (loaded_entitled _ _ _ _ _ _ _ Hu) in Hl as He.
  apply ok_quiet_answering; [unfold case_by_id; auto with whatc |]. intros o' ?. eapply ok_answering; [apply ok_tx_or; eapply wt_remove; [grow He | apply saw_later; exact Hs] |]. intros _ ? _. apply ok_quiet. solve_quiet.
Qed.
Lemma fine_upload id doc form : fine (UploadOccurrenceDocumentAttachment detect_content uuid_text c id doc form).
Proof.
  unfold UploadOccurrenceDocumentAttachment. auth_step. eapply ok_answering; [apply gives_document |]. intros d ? Hd. destruct (Hd _ eq_refl) as (o & contact & i & Hl & Hs). apply (loaded_entitled _ _ _ _ _ _ _ Hu) in Hl as He.
  destruct form; try apply ok_mret. quiet_step. cbv zeta. quiet_step. quiet_step. quiet_step. quiet_step. quiet_step.
  apply ok_quiet_bind; [case_match; [auto with whatc | exact I] |]. intros _ ?. apply ok_then; [apply ok_sql; eapply ws_attachment; [grow He | unfold saw in *; see] |].
  intros r ?. destruct r; [apply ok_mret |]. apply ok_quiet. solve_quiet.
Qed.

(** ** Opening *)
Lemma gives_initial org g : gives strict who (initialStage org) g (fun r g' => forall st, r = Ok st -> saw g' (first_initial org) st).
Proof.
  unfold initialStage. eapply gives_bind; [apply ok_quiet, quiet_default_stages |]. intros [_ | e] l _; [| by apply gives_mret]. apply gives_sql.
Qed.
Definition from_team (g : trace) (org : uuid) (r : option uuid * option uuid) : Prop :=
  holds (fun u => seen_transfer g org (Some u) tm_UnitID) (fst r) /\ holds (fun d => seen_transfer g org (Some d) tm_DepartmentID) (snd r).
Lemma gives_transfer org t g : gives strict who (unitDepartmentFromTransfer org t) g (fun r g' => from_team g' org r).
Proof.
  unfold unitDepartmentFromTransfer. eapply gives_bind; [apply gives_sql |]. intros [tf | e] l Ht; [| by apply gives_mret]. destruct (tf_TeamID tf) as [team |] eqn:Et; [| by apply gives_mret].
  eapply gives_bind; [apply gives_sql |]. intros [tm | e] l' Hm; [| by apply gives_mret]. apply gives_mret.
  split; intros u Hu; exists t, tf, team, tm; (split_and!; [apply saw_later; by apply Ht | exact Et | by apply Hm | done]).
Qed.
Lemma built_orgs org user l ds : buildOccurrenceDocuments (parse_date org) org user l = inl ds -> Forall (fun d => dc_OrganizationID d = org) ds.
Proof.
  unfold buildOccurrenceDocuments. destruct (_ <? _); [done |]. revert ds. induction l as [| q l IH]; intros ds; simpl; [by intros [= <-] |].
  destruct (buildOccurrenceDocument _ _ _ q) as [d |] eqn:Ed; [| done]. match goal with |- context [match ?x with _ => _ end] => destruct x as [ds' |] eqn:E; [| done] end.
  intros [= <-]. constructor; [by eapply built_org | by apply IH].
Qed.
Lemma from_team_grows g g' org r : (forall e, e ∈ g -> e ∈ g') -> from_team g org r -> from_team g' org r.
Proof.
  intros Hg [H1 H2]. split; [eapply holds_mono; [exact H1 |] | eapply holds_mono; [exact H2 |]]; intros u (t & tf & team & tm & A & B & C & D); exists t, tf, team, tm;
    (split_and!; [by apply Hg | exact B | by apply Hg | exact D]).
Qed.
Lemma holds_choice {A B} (P Q : A -> Prop) (o : option (A * B)) (d : option A) : holds (fun x => P (fst x)) o -> holds Q d -> holds (fun a => P a \/ Q a) (match o with Some (a, _) => Some a | None => d end).
Proof. intros H1 H2 a. destruct o as [[a' b] |]; [intros [= ->]; left; by apply (H1 (a, b)) | intros E; right; by apply H2]. Qed.
(** The new case, from what was seen. *)
Lemma opened_entitled year id now occ o g : Ev (OTx (opening year id now occ)) (Ok o) ∈ g -> cx_UserID c = Some (o_OpenedByUserID occ) -> entitled who true g (o_OrganizationID occ) o.
Proof. intros H Hu. right. by exists year, id, now, occ. Qed.
Lemma gives_opening occ g : new_case who g occ ->
  gives strict who (insertOccurrenceWithProtocol occ) g (fun r g' => forall o, r = Ok o -> entitled who true g' (o_OrganizationID occ) o).
Proof.
  intros Hn. unfold insertOccurrenceWithProtocol. apply extends_call; [done |]. intros year _. apply extends_call; [done |]. intros id _. apply extends_call; [done |]. intros now _.
  apply extends_call_end.
  - apply wt_open; [see |]. destruct Hn as [A (k & B1 & B2) (st & C1 & C2) D E F G H I J]. constructor; try done.
    + exists k. split; [unfold saw in *; see | see].
    + exists st. split; [unfold saw in *; see | done].
    + eapply holds_mono; [exact E |]. intros u [-> | (x & Hx)]; [by left | right; exists x; see].
    + eapply holds_mono; [exact F |]. intros u [Hx | (t & tf & team & tm & H1 & H2 & H3 & H4)]; [left; unfold seen_unit in *; see | right; exists t, tf, team, tm; unfold saw in *; split_and!; [see | done | see | done]].
    + eapply holds_mono; [exact G |]. intros u [Hx | (t & tf & team & tm & H1 & H2 & H3 & H4)]; [left; unfold seen_unit in *; see | right; exists t, tf, team, tm; unfold saw in *; split_and!; [see | done | see | done]].
    + eapply holds_mono; [exact H |]. intros u Hx. eapply seen_grows; [| exact Hx]. intros; see.
    + eapply holds_mono; [exact I |]. intros u Hx. eapply seen_grows; [| exact Hx]. intros; see.
    + eapply holds_mono; [exact J |]. intros u Hx. eapply seen_grows; [| exact Hx]. intros; see.
  - intros r _ o ->. eapply opened_entitled; [by left | by apply nc_user in Hn].
Qed.
Lemma ok_documents org o ids docs g : entitled who true g org o -> Forall (fun d => dc_OrganizationID d = org) docs ->
  ok strict who (match imap (stamped ids (o_ID o)) docs with [] => mret tt | _ => no_answer (sql (insert_documents (imap (stamped ids (o_ID o)) docs))) end) g.
Proof. intros He Hd. destruct (imap _ docs) eqn:E; [apply ok_mret |]. rewrite <- E. apply ok_no_answer, ok_sql. by apply (ws_documents _ _ _ org). Qed.
Lemma fine_create body : fine (CreateOccurrence parse_uuid parse_date c body).
Proof.
  unfold CreateOccurrence. auth_step. rename n into org, n0 into user. apply ok_quiet_answering; [exact I |]. intros req ?. quiet_step. apply ok_quiet_answering; [exact I |]. intros date ?.
  apply ok_mret_answering. intros docs Hdocs. destruct (buildOccurrenceDocuments _ _ _ _) as [docs' |] eqn:Eb; [| done]. injection Hdocs as ->. apply built_orgs in Eb. cbv zeta.
  apply ok_quiet_answering; [exact I |]. intros contactID ?. eapply ok_answering; [apply gives_read |]. intros contact ? Hcontact. specialize (Hcontact _ eq_refl).
  apply ok_call; [done |]. intros may _. apply ok_require. intros ->.
  eapply gives_bind; [apply gives_initial |]. intros [st | e] ? Hst; [| apply ok_mret]. specialize (Hst _ eq_refl).
  eapply ok_answering; [apply gives_optional; intros; apply gives_process |]. intros process ? Hprocess. specialize (Hprocess _ eq_refl).
  apply ok_quiet_bind; [apply quiet_deadlines |]. intros due ?.
  eapply (ok_answering _ _ _ _ _ (fun r g' => forall a, r = inl a -> holds (fun u => u = user \/ seen_user g' org u) a)).
  { destruct (nq_AssignedUserID req) as [raw |]; [| apply gives_mret; intros x [= <-] u [= <-]; by left]. eapply gives_weaken; [apply gives_assignee |].
    intros r later H x Hx. eapply holds_mono; [by apply H |]. intros u. by right. }
  intros assignee ? Ha. specialize (Ha _ eq_refl).
  eapply (gives_bind _ _ _ _ _ (fun r g' => from_team g' org r)). { destruct (source_transfer parse_uuid _); [apply gives_transfer | by apply gives_mret]. } intros [unit0 dept0] ? Hteam.
  eapply ok_answering; [apply gives_optional; intros; apply gives_unit |]. intros unit ? Hun. specialize (Hun _ eq_refl).
  eapply ok_answering; [apply gives_optional; intros; apply gives_unit |]. intros dept ? Hd. specialize (Hd _ eq_refl).
  eapply ok_answering; [apply gives_optional; intros; apply gives_category |]. intros category ? Hc. specialize (Hc _ eq_refl).
  eapply ok_answering; [apply gives_optional; intros; apply gives_reason |]. intros reason ? Hr. specialize (Hr _ eq_refl).
  eapply (gives_bind _ _ _ _ _ (fun r g' => forall cat, r = Some cat -> seen g' category_in cg_ID org (cg_ID cat))). { destruct category; [by apply gives_mret | apply gives_suggested]. }
  intros suggested ? Hs. apply ok_call; [done |]. intros id _. apply ok_call; [done |]. intros now _. cbv zeta.
  eapply gives_bind; [apply gives_opening |].
  { constructor; simpl.
    - exact Hu.
    - exists contact. split; [unfold saw in *; see | see].
    - exists st. split; [unfold saw in *; see | done].
    - done.
    - eapply holds_mono; [exact Ha |]. intros u [-> | (x & H)]; [by left | right; exists x; see].
    - apply holds_choice; [eapply holds_mono; [exact Hun |]; intros u H; unfold row_seen, seen_unit in *; see |].
      eapply from_team_grows in Hteam as [H _]; [exact H | intros; see].
    - apply holds_choice; [eapply holds_mono; [exact Hd |]; intros u H; unfold row_seen, seen_unit in *; see |].
      eapply from_team_grows in Hteam as [_ H]; [exact H | intros; see].
    - destruct category as [[i cat] |].
      + intros u [= <-]. eapply seen_grows; [| by apply (Hc (i, cat))]. intros; see.
      + eapply holds_map; [intros cat E; exact (Hs cat E) |]. intros cat H. eapply seen_grows; [| exact H]. intros; see.
    - eapply holds_map; [exact Hr |]. intros x H. eapply seen_grows; [| exact H]. intros; see.
    - eapply holds_map; [exact Hprocess |]. intros x H. eapply seen_grows; [| exact H]. intros; see. }
  intros [occ | e] ? He; [| apply ok_mret]. specialize (He _ eq_refl). simpl in He. apply ok_call; [done |]. intros ids _. cbv zeta.
  apply ok_then; [apply (ok_documents org); [grow He | done] |]. intros _ ?.
  apply ok_then; [destruct (nq_InternalNote req) as [note |]; [| apply ok_mret]; destruct (String.eqb note ""); [apply ok_mret | apply ok_no_answer; eapply ok_event; [grow He | done | done]] |]. intros _ ?.
  apply ok_quiet. apply only_bind; [destruct (o_AssignedUserID occ); [| exact I]; apply only_bind; [apply hushed_ask; unfold query_acc; solve_only | intros; exact I] |]. intros _. by split.
Qed.
End Handlers.
