(* ===== verification/OccurrenceRules.v ===== *)
(** What any request on occurrences may do: the requests, that every change of a case is one its
    user may make, and what an operation with its warrant does to the tables. *)
From S2P Require Import Prelude Effects Sql GoText GoAny Visibility Permissions Accounts AccountsApi Occurrences OccurrenceCatalogue OccurrenceTexts OccurrenceApi OccurrenceWarrants OccurrenceGate.

(** * The requests *)
Section Requests.
Context (parse_uuid pg_uuid : string -> option uuid) (ilike : string -> string -> bool) (parse_date : uuid -> string -> option instant)
        (parse_rfc3339 : string -> option instant) (detect_content : string -> string) (uuid_text : uuid -> string).
Inductive case_request (c : Ctx) : OProg oc_reply -> Prop :=
  | cr_create body : case_request c (CreateOccurrence parse_uuid parse_date c body)
  | cr_list f : case_request c (ListOccurrences pg_uuid ilike parse_rfc3339 c f)
  | cr_contact id : case_request c (ListContactOccurrences c id)
  | cr_get id : case_request c (GetOccurrence c id)
  | cr_update id body : case_request c (UpdateOccurrence parse_uuid c id body)
  | cr_delete id : case_request c (DeleteOccurrence c id)
  | cr_stage id body : case_request c (ChangeOccurrenceStage parse_uuid c id body)
  | cr_events id : case_request c (ListOccurrenceEvents c id)
  | cr_event id body : case_request c (CreateOccurrenceEvent c id body)
  | cr_reply id body : case_request c (ReplyToOccurrence c id body)
  | cr_protocol id body : case_request c (SendOccurrenceProtocol c id body)
  | cr_preview id stage o : case_request c (PreviewOccurrenceProcessMessage parse_uuid c id stage o)
  | cr_use id body : case_request c (LogOccurrenceProcessMessageUse c id body)
  | cr_documents id : case_request c (ListOccurrenceDocuments c id)
  | cr_add id body : case_request c (CreateOccurrenceDocument parse_date c id body)
  | cr_remove id doc : case_request c (DeleteOccurrenceDocument c id doc)
  | cr_upload id doc form : case_request c (UploadOccurrenceDocumentAttachment detect_content uuid_text c id doc form)
  | cr_serve id doc : case_request c (ServeOccurrenceDocumentAttachment c id doc).
(** On the catalogue, the edit of a stage apart. *)
Inductive catalogue_request (c : Ctx) : OProg oc_reply -> Prop :=
  | kr_stages : catalogue_request c (ListOccurrenceStages c)
  | kr_create_stage body : catalogue_request c (CreateOccurrenceStage c body)
  | kr_delete_stage id : catalogue_request c (DeleteOccurrenceStage c id)
  | kr_categories : catalogue_request c (ListOccurrenceCategories c)
  | kr_create_category body : catalogue_request c (CreateOccurrenceCategory parse_uuid c body)
  | kr_update_category id body : catalogue_request c (UpdateOccurrenceCategory parse_uuid c id body)
  | kr_delete_category id : catalogue_request c (DeleteOccurrenceCategory c id)
  | kr_reasons : catalogue_request c (ListOccurrenceWhatHappened c)
  | kr_create_reason body : catalogue_request c (CreateOccurrenceWhatHappened parse_uuid c body)
  | kr_update_reason id body : catalogue_request c (UpdateOccurrenceWhatHappened parse_uuid c id body)
  | kr_delete_reason id : catalogue_request c (DeleteOccurrenceWhatHappened c id)
  | kr_processes : catalogue_request c (ListOccurrenceProcesses c)
  | kr_create_process body : catalogue_request c (CreateOccurrenceProcess parse_uuid c body)
  | kr_update_process id body : catalogue_request c (UpdateOccurrenceProcess parse_uuid c id body)
  | kr_delete_process id : catalogue_request c (DeleteOccurrenceProcess c id)
  | kr_resolve reason : catalogue_request c (ResolveOccurrenceProcess parse_uuid c reason)
  | kr_messages id : catalogue_request c (ListOccurrenceProcessMessages c id)
  | kr_upsert_message id stage body : catalogue_request c (UpsertOccurrenceProcessMessage c id stage body)
  | kr_policies : catalogue_request c (ListOccurrenceSLAPolicies c)
  | kr_upsert_policy priority body : catalogue_request c (UpsertOccurrenceSLAPolicy c priority body).
(** Any request; a [strict] one is not the edit of a stage. *)
Inductive request (strict : bool) (c : Ctx) : OProg oc_reply -> Prop :=
  | rq_case p : case_request c p -> request strict c p
  | rq_catalogue p : catalogue_request c p -> request strict c p
  | rq_edit_stage id body : strict = false -> request strict c (UpdateOccurrenceStage c id body).

Lemma fine_case strict c p : case_request c p -> ok strict (cx_UserID c) p [].
Proof.
  destruct 1; auto using fine_create, fine_update, fine_delete, fine_stage, fine_event, fine_reply, fine_protocol, fine_log, fine_add, fine_remove, fine_upload;
    apply ok_quiet; auto using quiet_cases, quiet_contact_cases, quiet_get, quiet_events, quiet_preview, quiet_documents, quiet_serve.
Qed.
Lemma quiet_catalogue strict c p : catalogue_request c p -> only (quiet strict) p.
Proof.
  destruct 1; auto using quiet_list_stages, quiet_create_stage, quiet_delete_stage, quiet_list_categories, quiet_create_category, quiet_update_category, quiet_delete_category, quiet_list_reasons,
    quiet_create_reason, quiet_update_reason, quiet_delete_reason, quiet_list_processes, quiet_create_process, quiet_update_process, quiet_delete_process, quiet_resolve, quiet_list_messages,
    quiet_upsert_message, quiet_list_policies, quiet_upsert_policy.
Qed.
Lemma fine_request strict c p : request strict c p -> ok strict (cx_UserID c) p [].
Proof. destruct 1; [by apply fine_case | apply ok_quiet; by eapply quiet_catalogue | apply ok_quiet; by apply quiet_update_stage]. Qed.

(** C9: only who may touch a case changes it, and only with what it may refer to.  Whatever the
    database, the caches and the clocks answer, a request on occurrences changes a case (its
    columns, its timeline, its documents, its existence) only after it has read the case and its
    contact in one organization, for a user the case is assigned to or who may interact with the
    conversation; it opens one, in that organization, only on a conversation its user may interact
    with, in an initial stage it has read there; each unit, department, category, reason, process
    and agent it writes has been read in the organization; and it sends to the customer only from
    the account of the contact, in the 24 hours after their last message. *)
Theorem case_changes_authorized strict c p : request strict c p -> ensures (warranted strict (cx_UserID c)) (trace_contract answerable) p [] (fun _ _ => True).
Proof. intros H. eapply extends_ensures, fine_request, H. Qed.
End Requests.

(** * What a warranted operation does *)
(** The tables of accounts an occurrence refers to. *)
Definition same_accounts (s s' : OState) : Prop :=
  ac_users (st_acc (os_acc s')) = ac_users (st_acc (os_acc s)) /\ st_units (os_acc s') = st_units (os_acc s) /\ st_departments (os_acc s') = st_departments (os_acc s).
#[global] Instance same_accounts_preorder : PreOrder same_accounts.
Proof. split; [done |]. intros s1 s2 s3 (A & B & C) (D & E & F). unfold same_accounts. by rewrite D, E, F. Qed.
Abbreviation cases_of b := (occurrences_of b).
Section Changes.
Context (strict : bool) (who : option uuid) (g : trace) (b : OBase).
(** An edit may come from a warrant or set the sale alone. *)
Inductive change : OBase -> Prop :=
  | ch_tame b' : tame strict b b' -> change b'
  | ch_beside b' : ob_cat b' = ob_cat b -> ob_around b' = ob_around b -> cases_of b' = cases_of b -> counters_of b' = counters_of b -> change b'
  | ch_edit b' org o f : entitled who true g org o -> warranted_edit who g org f -> ob_cat b' = ob_cat b -> ob_around b' = ob_around b -> counters_of b' = counters_of b ->
      cases_of b' = sql_update (is_case (o_ID o)) f (cases_of b) -> change b'
  | ch_sale b' id sale : ob_cat b' = ob_cat b -> ob_around b' = ob_around b -> counters_of b' = counters_of b -> cases_of b' = sql_update (is_case id) (with_sale sale) (cases_of b) -> change b'
  | ch_delete b' id : ob_cat b' = ob_cat b -> ob_around b' = ob_around b -> counters_of b' = counters_of b -> cases_of b' = List.filter (fun o => negb (is_case id o)) (cases_of b) -> change b'
  | ch_open b' year o seq b2 : new_case who g o -> Ev OYear year ∈ g -> bump_counter (o_OrganizationID o) year (snd (counter_row (o_OrganizationID o) year b)) = (Ok seq, b2) ->
      existsb (is_case (o_ID o)) (cases_of b) = false -> ob_cat b' = ob_cat b -> ob_around b' = ob_around b -> counters_of b' = counters_of b2 ->
      cases_of b' = cases_of b ++ [with_protocol (protocol_text year seq) o] -> change b'.
End Changes.
Section ChangeOf.
Context (strict : bool) (who : option uuid).
Abbreviation changes g b b' := (change strict who g b b').
Lemma same_change g b : changes g b b.
Proof. apply ch_tame. reflexivity. Qed.
Lemma exec_change {X} (f : stmt X) g b r b' : (changes g b (snd (f b))) -> db_sem (exec f) b r b' -> changes g b b'.
Proof. intros H [E | [_ [-> | ->]]]%db_sem_exec; [by rewrite <- E in H | apply same_change | done]. Qed.
Lemma opening_change g year id now o b x b' : Ev OYear year ∈ g -> new_case who g o -> db_sem (opening year id now o) b (Ok x) b' -> changes g b b'.
Proof.
  intros Hy Hn. unfold opening, nextProtocolNumber. intros [(e & _ & ?) | (p & b2 & H1 & H)]%db_sem_try; [done |].
  apply db_sem_step in H1 as ([] & b0 & E0 & H1). apply db_sem_step in H1 as (seq & b1 & E1 & H1). apply db_sem_ret in H1 as [[= ->] ->].
  apply db_sem_step in H as ([] & b3 & E3 & H). apply db_sem_step in H as ([] & b4 & E4 & H). apply db_sem_ret in H as [_ ->].
  unfold insert_case in E3. destruct (existsb _ _) eqn:Ex; [done |]. injection E3 as <-. unfold insert_event in E4. destruct (existsb _ (events_of _)); [done |]. injection E4 as <-.
  assert (Hb0 : b0 = snd (counter_row (o_OrganizationID o) year b)) by by rewrite E0.
  assert (Hbase : ob_cat b1 = ob_cat b /\ ob_around b1 = ob_around b /\ cases_of b1 = cases_of b).
  { unfold bump_counter in E1. destruct (sql_first _ _) as [c |]; [| done]. destruct (ct_LastSeq c =? max_int64); [done |]. injection E1 as _ <-. rewrite Hb0. unfold counter_row. simpl. case_match; split_and!; done. }
  destruct Hbase as (A & B & C). eapply (ch_open _ _ _ _ _ year o seq b1); [done | done | by rewrite <- Hb0 | | exact A | exact B | done | simpl; by rewrite C].
  rewrite <- C. apply not_true_iff_false. intros (y & Hy1 & Hy2)%existsb_exists. apply not_true_iff_false in Ex. apply Ex, existsb_exists. exists y. split; [done |]. simpl. unfold is_case in *. simpl. by rewrite Hy2.
Qed.
Lemma deletion_change g id b x b' : db_sem (deletion id) b (Ok x) b' -> changes g b b'.
Proof.
  unfold deletion, deleteOccurrenceDocuments. intros H. apply db_sem_step in H as ([] & b1 & E1 & H). injection E1 as <-. apply db_sem_try in H as [(e & _ & ?) | (paths & b2 & H1 & H)]; [done |].
  apply db_sem_step in H1 as (l & b3 & E3 & H1). injection E3 as _ <-. apply db_sem_step in H1 as ([] & b4 & E4 & H1). injection E4 as <-. apply db_sem_ret in H1 as [_ ->].
  apply db_sem_step in H as ([] & b5 & E5 & H). injection E5 as <-. apply db_sem_ret in H as [_ ->]. by eapply (ch_delete _ _ _ _ _ id).
Qed.
Lemma adding_change g o d b x b' : db_sem (adding o d) b (Ok x) b' -> changes g b b'.
Proof.
  unfold adding. intros H. apply db_sem_step in H as ([] & b1 & E1 & H). apply exec_ok_sem in H. injection H as _ <-. unfold insert_documents in E1. destruct (_ || _); [done |]. injection E1 as <-.
  by eapply ch_sale.
Qed.
Lemma removing_change g o d b x b' : db_sem (removing o d) b (Ok x) b' -> changes g b b'.
Proof.
  unfold removing. intros H. apply db_sem_step in H as ([] & b1 & E1 & H). injection E1 as <-. apply db_sem_step in H as (l & b2 & E2 & H). injection E2 as _ <-. apply exec_ok_sem in H. injection H as _ <-.
  by eapply ch_sale.
Qed.
Lemma stmt_change g X (f : stmt X) b : warranted_stmt strict who g X f -> changes g b (snd (f b)).
Proof.
  destruct 1 as [X f | X f Ht | org o f He Hf | org o kind content stages u id now He Hu | org o ids docs He Hd | org o id d path name mime He Hs].
  - apply same_change.
  - apply ch_tame, Ht.
  - by eapply ch_edit.
  - unfold insert_event. destruct (existsb _ _); [apply same_change | by apply ch_beside].
  - unfold insert_documents. destruct (_ || _); [apply same_change | by apply ch_beside].
  - by apply ch_beside.
Qed.
Lemma tx_change g X (body : ODb (Res X)) b r b' : warranted_tx strict who g X body -> db_sem (transaction body) b r b' -> changes g b b'.
Proof.
  intros Hw [[-> _] | (a & Hm & _)]%db_sem_transaction; [apply same_change |].
  destruct Hw as [X body Hk | year id now o Hy Hn | org o He | org o ids i d He Hd | org o id d o' He Hs].
  - apply ch_tame. by eapply keeps_sem.
  - by eapply opening_change.
  - by eapply deletion_change.
  - by eapply adding_change.
  - by eapply removing_change.
Qed.
Lemma change_of X (op : oc_op X) g s x s' : warranted strict who X op g -> oc_sem X op s x s' -> changes g (os_base s) (os_base s') /\ same_accounts s s'.
Proof.
  destruct op; simpl; intros Hw Hs; try (subst s'; split; [apply same_change | done]).
  - destruct Hs as (a & Ha & ->). split; [apply same_change |]. unfold same_accounts. simpl. destruct op; try done; simpl in Ha.
    + by destruct Ha as [-> _].
    + by destruct Ha as [-> _].
    + by destruct Ha as [-> | ->].
  - destruct Hs as (b & Hb & ->). split; [| done]. eapply exec_change; [by apply stmt_change | exact Hb].
  - destruct Hs as (b & Hb & ->). split; [| done]. by eapply tx_change.
  - destruct Hs as [_ ->]. split; [apply same_change | done].
  - destruct Hs as [_ ->]. split; [apply same_change | done].
  - destruct Hs as [_ ->]. split; [apply same_change | done].
  - destruct Hs as [-> _]. split; [apply same_change | done].
  - destruct Hs as [-> _]. split; [apply same_change | done].
  - destruct Hs as [[_ ->] | [_ [-> | [part ->]]]]; (split; [apply same_change | done]).
  - destruct Hs as [-> | ->]; (split; [apply same_change | done]).
  - destruct Hs as [-> _]. split; [apply same_change | done].
Qed.
Lemma answers X (op : oc_op X) s x s' : oc_sem X op s x s' -> answerable X op x.
Proof. intros H. by exists s, s'. Qed.
End ChangeOf.

(** * Requests in any order *)
Section Pools.
Context (parse_uuid pg_uuid : string -> option uuid) (ilike : string -> string -> bool) (parse_date : uuid -> string -> option instant)
        (parse_rfc3339 : string -> option instant) (detect_content : string -> string) (uuid_text : uuid -> string).
Abbreviation requested strict := (fun p => exists c, request parse_uuid pg_uuid ilike parse_date parse_rfc3339 detect_content uuid_text strict c p).
Context {S : Type} (sem : forall X, oc_op X -> S -> X -> S -> Prop) (Hcon : forall X (op : oc_op X) s x s', sem X op s x s' -> answerable X op x).
Context (strict : bool) (R : S -> S -> Prop) `{!PreOrder R} (I : S -> Prop).
Context (Hstep : forall who X (op : oc_op X) g s x s', warranted strict who X op g -> (forall e, e ∈ g -> witnessed sem R I e s) -> I s -> sem X op s x s' -> R s s' /\ I s').
Lemma request_guards p s : requested strict p -> guards sem R I p s (fun _ _ => True).
Proof.
  intros [c Hp]. eapply (ensures_guards sem R I (warranted strict (cx_UserID c)) answerable); [exact Hcon | apply Hstep | eapply extends_ensures, fine_request, Hp |].
  intros e He. by apply not_elem_of_nil in He.
Qed.
Lemma requests_pool s ps : I s -> Forall (requested strict) ps -> guarded_pool sem R I (s, ps).
Proof. intros HI Hps. split; [exact HI |]. eapply Forall_impl; [exact Hps |]. intros p. apply request_guards. Qed.
Lemma requests_keep s ps c : I s -> Forall (requested strict) ps -> pool_steps sem (s, ps) c -> R s (fst c) /\ I (fst c) /\ guarded_pool sem R I c.
Proof. intros HI Hps H. apply (guards_steps sem R I) in H as [H1 H2]; [| by apply requests_pool]. by split_and!; [| apply H2 |]. Qed.
End Pools.
