(* ===== verification/OccurrenceProtocols.v ===== *)
(** The protocol numbers: one case has each, for good. *)
From S2P Require Import Prelude Effects Sql Numbering GoText GoAny Visibility Permissions Accounts AccountsApi Occurrences OccurrenceCatalogue OccurrenceTexts OccurrenceApi OccurrenceWarrants OccurrenceGate OccurrenceRules.
From Stdlib Require Import Ascii.

(** * The text determines the year and the number *)
Lemma digits_then_dash d d' r r' : str_forallb is_digit d = true -> str_forallb is_digit d' = true -> d +:+ "-" +:+ r = d' +:+ "-" +:+ r' -> d = d' /\ r = r'.
Proof.
  revert d'. induction d as [| a d IH]; intros [| a' d'] Hd Hd' E; [by injection E | injection E as <- _; done | injection E as -> _; done |].
  injection E as <- E. simpl in Hd, Hd'. apply andb_true_iff in Hd as [_ Hd], Hd' as [_ Hd']. destruct (IH d' Hd Hd' E) as [-> ->]. done.
Qed.
Lemma protocol_text_inj y y' n n' : 0 <= y <= max_int64 -> 0 <= y' <= max_int64 -> 0 <= n <= max_int64 -> 0 <= n' <= max_int64 ->
  protocol_text y n = protocol_text y' n' -> y = y' /\ n = n'.
Proof.
  intros Hy Hy' Hn Hn' E. apply digits_then_dash in E as [E1 E2]; [| apply itoa_digits; lia..]. split; [by apply itoa_inj | by apply pad6_inj].
Qed.

(** * The counters *)
#[global] Program Instance protocol_counters : CounterRows OccurrenceCounter (uuid * Z) :=
  {| keyed k c := is_counter (fst k) (snd k) c; seq_of := ct_LastSeq; new_counter k := MkCounter (fst k) (snd k) 0; bumped_row := bumped |}.
Next Obligation.
  intros [] [] c H H'. unfold is_counter in *. simpl in *. bool_hyps. repeat match goal with H : N.eqb _ _ = true |- _ => apply N.eqb_eq in H end. congruence.
Qed.
Solve All Obligations with done.
Abbreviation last_seq b := (last_of (counters_of b)).
Definition identity (o : Occurrence) : uuid * uuid * string := (o_ID o, o_OrganizationID o, o_ProtocolNumber o).
(** The same case, at two moments. *)
Definition same_case (o o' : Occurrence) : Prop := identity o = identity o'.
#[global] Instance same_case_preorder : PreOrder same_case.
Proof. split; [done |]. intros o1 o2 o3. unfold same_case. congruence. Qed.
#[global] Program Instance protocols : Tagging Occurrence (uuid * Z) (uuid * string) :=
  {| tag_of o := (o_OrganizationID o, o_ProtocolNumber o); tag_as k n := (fst k, protocol_text (snd k) n); proper_key k := int_range (snd k); became := same_case |}.
Next Obligation. unfold same_case, identity. congruence. Qed.
Next Obligation. unfold int_range. intros [org y] [org' y'] n n' Hy Hy' Hn Hn' E. simpl in *. injection E as -> E. by apply protocol_text_inj in E as [-> ->]. Qed.
Lemma edit_identity who g org f o : warranted_edit who g org f -> same_case o (f o).
Proof. by destruct 1. Qed.

(** * What a change does to them *)
Definition case_numbers (b : OBase) : Prop := numbered (last_seq b) (occurrences_of b).
Definition case_counting (b b' : OBase) : Prop := counting (last_seq b) (occurrences_of b) (last_seq b') (occurrences_of b').
Lemma counted_none b b' (f : Occurrence -> Occurrence) : case_numbers b -> counters_of b' = counters_of b ->
  (forall o, o ∈ occurrences_of b' -> exists o', o' ∈ occurrences_of b /\ o = f o') -> (forall o, same_case o (f o)) -> case_counting b b' /\ case_numbers b'.
Proof. intros Hn Hc Ho Hf. apply (counting_none _ _ _ _ f); [intros k; by rewrite Hc | done | intros; apply Hf | done]. Qed.
Lemma counted_update b b' p (f : Occurrence -> Occurrence) : case_numbers b -> counters_of b' = counters_of b ->
  occurrences_of b' = sql_update p f (occurrences_of b) -> (forall o, same_case o (f o)) -> case_counting b b' /\ case_numbers b'.
Proof.
  intros Hn Hc Ho Hf. apply (counted_none _ _ (fun o => if p o then f o else o)); [done | done | | intros o; by destruct (p o)].
  intros o. rewrite Ho. apply sql_update_in.
Qed.
Lemma counted_open b b' b2 year o seq : case_numbers b -> int_range year -> bump_counter (o_OrganizationID o) year (snd (counter_row (o_OrganizationID o) year b)) = (Ok seq, b2) ->
  counters_of b' = counters_of b2 -> occurrences_of b' = occurrences_of b ++ [with_protocol (protocol_text year seq) o] -> case_counting b b' /\ case_numbers b'.
Proof.
  intros Hn Hy Hb Hc Ho. set (k := (o_OrganizationID o, year)).
  assert (Hrow : counters_of (snd (counter_row (o_OrganizationID o) year b)) = with_row k (counters_of b)) by (unfold counter_row, with_row; simpl; by destruct (existsb _ _)).
  unfold bump_counter in Hb. rewrite Hrow in Hb. destruct (sql_first _ _) as [c |] eqn:E; [| done]. destruct (ct_LastSeq c =? max_int64) eqn:Em; [done |]. injection Hb as <- <-.
  destruct (last_next k (counters_of b) c) as (H1 & H2 & H3 & H4); [apply (nb_last _ _ Hn) | exact E | done |].
  unfold case_counting, case_numbers. rewrite Ho.
  replace (counters_of b') with (sql_update (keyed k) bumped_row (with_row k (counters_of b))) by by rewrite Hc, <- Hrow. by apply (counting_next _ _ _ k (ct_LastSeq c + 1)).
Qed.
Lemma counting_change strict who g b b' : case_numbers b -> (forall year, Ev OYear year ∈ g -> int_range year) -> change strict who g b b' -> case_counting b b' /\ case_numbers b'.
Proof.
  intros Hn Hy [d Ht | d _ _ Ho Hc | d org o f _ Hf _ _ Hc Ho | d id sale _ _ Hc Ho | d id _ _ Hc Ho | d year o seq b2 _ Hyear Hb _ _ _ Hc Ho].
  - apply (counted_none _ _ (fun o => o)); [done | by rewrite (tame_cases _ _ _ Ht) | | done]. rewrite (tame_cases _ _ _ Ht). intros o H. by exists o.
  - apply (counted_none _ _ (fun o => o)); [done | done | | done]. rewrite Ho. intros o H. by exists o.
  - eapply counted_update; [done | done | exact Ho |]. intros x. by eapply edit_identity.
  - by eapply counted_update.
  - apply (counted_none _ _ (fun o => o)); [done | done | | done]. rewrite Ho. intros o [Hx _]%list_elem_of_In%filter_In. exists o. split; [by apply list_elem_of_In | done].
  - eapply counted_open; [done | by apply Hy | done..].
Qed.

(** * Requests in any order *)
Definition numbered_state (s : OState) : Prop := case_numbers (os_base s).
Definition counting_state (s s' : OState) : Prop := case_counting (os_base s) (os_base s').
#[global] Instance counting_state_preorder : PreOrder counting_state.
Proof. split; [intros s; apply counting_refl | intros s1 s2 s3; apply counting_trans]. Qed.
Lemma counting_step strict who X (op : oc_op X) g s x s' : warranted strict who X op g -> (forall e, e ∈ g -> witnessed oc_sem counting_state numbered_state e s) -> numbered_state s -> oc_sem X op s x s' ->
  counting_state s s' /\ numbered_state s'.
Proof.
  intros Hw Hg Hn Hs. destruct (change_of _ _ _ _ _ _ _ _ Hw Hs) as [Hc _]. eapply counting_change; [done | | exact Hc].
  intros year Hy%Hg. destruct Hy as (s0 & s1 & _ & [H _] & _). exact H.
Qed.
Section Reissue.
Context (parse_uuid pg_uuid : string -> option uuid) (ilike : string -> string -> bool) (parse_date : uuid -> string -> option instant)
        (parse_rfc3339 : string -> option instant) (detect_content : string -> string) (uuid_text : uuid -> string).
(** C8: a protocol number is never issued again.  However the requests of any number of users on
    the occurrences of any organizations interleave, fail or crash, deletions included, a protocol
    number of an organization identifies one case for good: the case that has it at one moment and
    a case that has it at any later moment are the same. *)
Theorem protocols_never_reissued s ps c1 c2 o1 o2 : numbered_state s ->
  Forall (fun p => exists c, request parse_uuid pg_uuid ilike parse_date parse_rfc3339 detect_content uuid_text false c p) ps ->
  pool_steps oc_sem (s, ps) c1 -> pool_steps oc_sem c1 c2 ->
  o1 ∈ occurrences_of (os_base (fst c1)) -> o2 ∈ occurrences_of (os_base (fst c2)) ->
  o_OrganizationID o1 = o_OrganizationID o2 -> o_ProtocolNumber o1 = o_ProtocolNumber o2 -> o_ID o1 = o_ID o2.
Proof.
  intros Hn Hps H1 H2. destruct (requests_keep _ _ _ _ _ _ _ oc_sem answers false counting_state numbered_state (counting_step false) _ _ _ Hn Hps H1) as (_ & Hn1 & Hg).
  destruct (guards_steps oc_sem counting_state numbered_state _ _ H2 Hg) as [Hc _]. intros Ho1 Ho2 Eo Ep.
  assert (H : became o1 o2) by (eapply counting_same; [exact Hn1 | exact Hc | done | done |]; simpl; by rewrite Eo, Ep). simpl in H. unfold same_case, identity in H. congruence.
Qed.
End Reissue.
