(* ===== verification/OccurrenceHome.v ===== *)
(** Everything a case refers to is of its organization. *)
From S2P Require Import Prelude Effects Sql GoText GoAny Visibility Permissions Accounts AccountsApi Occurrences OccurrenceCatalogue OccurrenceTexts OccurrenceApi OccurrenceWarrants OccurrenceGate OccurrenceRules.

(** * At home *)
Definition unit_in (units : list OrgUnit) (org id : uuid) : Prop := exists u, u ∈ units /\ un_ID u = id /\ un_OrganizationID u = org.
Definition user_in (s : OState) (org id : uuid) : Prop := exists u, u ∈ ac_users (st_acc (os_acc s)) /\ us_ID u = id /\ us_OrganizationID u = org.
(** The unit or department of the team a transfer of the organization names: the team is read by its
    id, whatever its organization. *)
Definition of_a_transfer (of_team : OTeam -> option uuid) (s : OState) (org id : uuid) : Prop :=
  exists t m, t ∈ ar_transfers (ob_around (os_base s)) /\ m ∈ ar_teams (ob_around (os_base s)) /\
    tf_OrganizationID t = org /\ tf_TeamID t = Some (tm_ID m) /\ of_team m = Some id.
Record at_home (s : OState) (o : Occurrence) : Prop := MkHome {
  ho_contact : exists k, k ∈ ar_contacts (ob_around (os_base s)) /\ kc_ID k = o_ContactID o /\ kc_OrganizationID k = o_OrganizationID o;
  ho_stage : (o_StageID o, o_OrganizationID o) ∈ map stage_key (stages_of (os_base s));
  ho_unit : holds (fun id => unit_in (st_units (os_acc s)) (o_OrganizationID o) id \/ of_a_transfer tm_UnitID s (o_OrganizationID o) id) (lb_UnitID (o_Labels o));
  ho_department : holds (fun id => unit_in (st_departments (os_acc s)) (o_OrganizationID o) id \/ of_a_transfer tm_DepartmentID s (o_OrganizationID o) id) (lb_DepartmentID (o_Labels o));
  ho_category : holds (fun id => (id, o_OrganizationID o) ∈ map category_key (categories_of (os_base s))) (lb_CategoryID (o_Labels o));
  ho_reason : holds (fun id => (id, o_OrganizationID o) ∈ map reason_key (reasons_of (os_base s))) (lb_WhatHappenedID (o_Labels o));
  ho_process : holds (fun id => (id, o_OrganizationID o) ∈ map process_key (processes_of (os_base s))) (o_ProcessID o);
  ho_assignee : holds (fun u => u = o_OpenedByUserID o \/ user_in s (o_OrganizationID o) u) (o_AssignedUserID o) }.
(** * States that remember the ids of their cases

    [uuid.New] does not give an id again: a case is not opened under the id of another, even of
    one that was deleted. *)
Abbreviation Remembering := (OState * list uuid)%type.
Definition remembering_sem X (op : oc_op X) (s : Remembering) (x : X) (s' : Remembering) : Prop :=
  oc_sem X op (fst s) x (fst s') /\ snd s' = snd s ++ map o_ID (occurrences_of (os_base (fst s'))) /\
  forall o, o ∈ occurrences_of (os_base (fst s')) -> o_ID o ∈ map o_ID (occurrences_of (os_base (fst s))) \/ o_ID o ∉ snd s.
Definition owner (o : Occurrence) : uuid * uuid := (o_ID o, o_OrganizationID o).
Record homely (s : Remembering) : Prop := MkHomely {
  hm_cases : forall o, o ∈ occurrences_of (os_base (fst s)) -> at_home (fst s) o;
  hm_ids : forall o, o ∈ occurrences_of (os_base (fst s)) -> o_ID o ∈ snd s;
  hm_owner : forall o o', o ∈ occurrences_of (os_base (fst s)) -> o' ∈ occurrences_of (os_base (fst s)) -> o_ID o = o_ID o' -> o_OrganizationID o = o_OrganizationID o' }.
Record onward (s s' : Remembering) : Prop := MkOnward {
  on_accounts : same_accounts (fst s) (fst s');
  on_around : ob_around (os_base (fst s')) = ob_around (os_base (fst s));
  on_catalogue : kept_catalogue false (os_base (fst s)) (os_base (fst s'));
  on_ids : snd s ⊆ snd s';
  on_owner : forall o, o ∈ occurrences_of (os_base (fst s')) -> o_ID o ∈ snd s -> owner o ∈ map owner (occurrences_of (os_base (fst s))) }.
#[global] Instance onward_preorder : PreOrder onward.
Proof.
  split; [intros s; constructor; [reflexivity | done | reflexivity | done | intros o Ho _; apply list_elem_of_fmap; by exists o] |].
  intros s1 s2 s3 [A1 A2 A3 A4 A5] [B1 B2 B3 B4 B5]. constructor; [by etrans | congruence | by etrans | by etrans |]. intros o Ho Hid.
  pose proof (B5 o Ho (A4 _ Hid)) as (o2 & E & Ho2)%list_elem_of_fmap. unfold owner in *. rewrite E. injection E as E1 E2. apply A5; [done | by rewrite <- E1].
Qed.
Lemma holds_imp {A} (P Q : A -> Prop) o : holds P o -> (forall a, P a -> Q a) -> holds Q o.
Proof. intros H HPQ a Ha. by apply HPQ, H. Qed.
Lemma at_home_later s s' o : onward s s' -> at_home (fst s) o -> at_home (fst s') o.
Proof.
  intros [(A1 & A2 & A3) B [C1 C2 C3 C4 _ _] _ _] [H1 H2 H3 H4 H5 H6 H7 H8].
  unfold of_a_transfer in *. constructor; unfold of_a_transfer; rewrite ?B, ?A2, ?A3; try done; [by apply C1 | eapply holds_imp; [exact H5 | auto] | eapply holds_imp; [exact H6 | auto] | eapply holds_imp; [exact H7 | auto] |].
  eapply holds_imp; [exact H8 |]. intros u [Hu | Hu]; [by left | right]. unfold user_in. by rewrite A1.
Qed.

(** * What was seen is still so *)
Section Seen.
Context (g : trace) (s : Remembering).
Context (Hg : forall e, e ∈ g -> witnessed remembering_sem onward homely e s).
Lemma saw_past {X} (h : OBase -> Res X) x : saw g (select h) x -> exists s0, homely s0 /\ onward s0 s /\ h (os_base (fst s0)) = Ok x.
Proof.
  intros H%Hg. destruct H as (s0 & s1 & Hh & ((b & Hb & _) & _) & H1 & H2). exists s0. split_and!; [done | by etrans |]. apply exec_ok_sem in Hb. unfold select in Hb. congruence.
Qed.
Lemma found_first {Row} (p : Row -> bool) l r : found (sql_first p l) = Ok r -> r ∈ l /\ p r = true.
Proof. unfold found, sql_first. destruct (List.find p l) as [x |] eqn:E; [| done]. intros [= ->]. apply find_some in E as [E%list_elem_of_In H]. by split. Qed.
(** A row read by its id and organization. *)
Lemma seen_key {Row} (table : OBase -> list Row) (live : uuid -> Row -> bool) (key org_of : Row -> uuid) org id :
  (forall i r, live i r = true -> key r = i) ->
  seen g (fun i o => select (fun b => found (sql_first (fun r => live i r && N.eqb (org_of r) o) (table b)))) key org id ->
  (forall s0, onward s0 s -> map (fun r => (key r, org_of r)) (table (os_base (fst s0))) ⊆ map (fun r => (key r, org_of r)) (table (os_base (fst s)))) ->
  (id, org) ∈ map (fun r => (key r, org_of r)) (table (os_base (fst s))).
Proof.
  intros Hlive (i & r & Hr & Hid) Hkeep. apply saw_past in Hr as (s0 & _ & H1 & [Hin [Hl Ho%N.eqb_eq]%andb_true_iff]%found_first). apply (Hkeep s0 H1), list_elem_of_fmap. exists r.
  split; [| done]. rewrite (Hlive i r Hl), Ho in *. by destruct Hid as [-> | ->].
Qed.
Lemma seen_category org id : seen g category_in cg_ID org id -> (id, org) ∈ map category_key (categories_of (os_base (fst s))).
Proof. intros H. apply (seen_key (fun b => categories_of b) is_category cg_ID cg_OrganizationID); [by intros i r [E%N.eqb_eq _]%andb_true_iff | exact H |]. intros s0 H1. apply (kept_categories _ _ _ (on_catalogue _ _ H1)). Qed.
Lemma seen_reason org id : seen g reason_in wh_ID org id -> (id, org) ∈ map reason_key (reasons_of (os_base (fst s))).
Proof. intros H. apply (seen_key (fun b => reasons_of b) is_reason wh_ID wh_OrganizationID); [by intros i r [E%N.eqb_eq _]%andb_true_iff | exact H |]. intros s0 H1. apply (kept_reasons _ _ _ (on_catalogue _ _ H1)). Qed.
Lemma seen_process org id : seen g process_in pr_ID org id -> (id, org) ∈ map process_key (processes_of (os_base (fst s))).
Proof. intros H. apply (seen_key (fun b => processes_of b) is_process pr_ID pr_OrganizationID); [by intros i r [E%N.eqb_eq _]%andb_true_iff | exact H |]. intros s0 H1. apply (kept_processes _ _ _ (on_catalogue _ _ H1)). Qed.
Lemma saw_stage id org st : saw g (stage_in id org) st -> (sg_ID st, org) ∈ map stage_key (stages_of (os_base (fst s))).
Proof.
  intros H. apply (seen_key (fun b => stages_of b) is_stage sg_ID sg_OrganizationID); [by intros i r [E%N.eqb_eq _]%andb_true_iff | exists id, st; split; [exact H | by right] |].
  intros s0 H1. apply (kept_stages _ _ _ (on_catalogue _ _ H1)).
Qed.
Lemma saw_initial org st : saw g (first_initial org) st -> (sg_ID st, org) ∈ map stage_key (stages_of (os_base (fst s))).
Proof.
  intros (s0 & _ & H1 & H2)%saw_past. apply (kept_stages _ _ _ (on_catalogue _ _ H1)), list_elem_of_fmap. exists st. unfold found in H2. destruct (sql_min _ _) as [x |] eqn:E; [| done]. injection H2 as ->.
  apply sql_min_in, list_elem_of_In, filter_In in E as [Hin [[Ho%N.eqb_eq _]%andb_true_iff _]%andb_true_iff]. split; [unfold stage_key; by rewrite Ho | by apply list_elem_of_In].
Qed.
Lemma saw_contact id org k : saw g (contact_in id org) k -> exists k', k' ∈ ar_contacts (ob_around (os_base (fst s))) /\ kc_ID k' = id /\ kc_OrganizationID k' = org.
Proof. intros (s0 & _ & H1 & [Hin [[H2%N.eqb_eq H3%N.eqb_eq]%andb_true_iff _]%andb_true_iff]%found_first)%saw_past. rewrite (on_around _ _ H1). by exists k. Qed.
Lemma seen_unit_in units org id : seen_unit g units org id -> (forall s0, onward s0 s -> units (os_acc (fst s)) = units (os_acc (fst s0))) -> unit_in (units (os_acc (fst s))) org id.
Proof.
  intros H%Hg Hkeep. destruct H as (s0 & s1 & _ & ((a & [-> Ha] & _) & _) & H1 & H2). rewrite (Hkeep s0) by by etrans. destruct Ha as [Ha | Ha]; [| done].
  unfold unit_exists in Ha. destruct (existsb _ _) eqn:E; [| done]. apply existsb_exists in E as (u & Hu%list_elem_of_In & [[E1%N.eqb_eq E2%N.eqb_eq]%andb_true_iff _]%andb_true_iff). by exists u.
Qed.
Lemma seen_user_in org id : seen_user g org id -> user_in (fst s) org id.
Proof.
  intros (u & H%Hg). destruct H as (s0 & s1 & _ & ((a & [-> Ha] & _) & _) & H1 & H2). assert (H3 : onward s0 s) by by etrans. destruct (on_accounts _ _ H3) as [Hu _].
  destruct Ha as [Ha | Ha]; [| done]. unfold acc, first_user, first_user_unscoped in Ha. destruct (sql_min _ _) as [x |] eqn:E; [| done]. injection Ha as ->.
  apply sql_min_in, list_elem_of_In, filter_In in E as [Hin [[E1%N.eqb_eq E2%N.eqb_eq]%andb_true_iff _]%andb_true_iff]. exists x. rewrite Hu. split_and!; [by apply list_elem_of_In | done | done].
Qed.
Lemma seen_transfer_in org id (of_team : OTeam -> option uuid) : seen_transfer g org (Some id) of_team -> of_a_transfer of_team (fst s) org id.
Proof.
  intros (t & tf & team & tm & Ht & Eteam & Hm & Eid). apply saw_past in Ht as (s0 & _ & H1 & [Hin [[_ Ho%N.eqb_eq]%andb_true_iff _]%andb_true_iff]%found_first).
  apply saw_past in Hm as (s1 & _ & H2 & [Hin' [Htm%N.eqb_eq _]%andb_true_iff]%found_first). rewrite <- (on_around _ _ H1) in Hin. rewrite <- (on_around _ _ H2) in Hin'.
  exists tf, tm. split_and!; [done | done | done | by rewrite Eteam, Htm | done].
Qed.
(** The case a goroutine read is the one with its id, and no other organization has it. *)
Lemma entitled_org who interact org o x : homely s -> entitled who interact g org o -> x ∈ occurrences_of (os_base (fst s)) -> o_ID x = o_ID o -> o_OrganizationID x = org.
Proof.
  intros Hs [(id & contact & u & _ & Ho & _) | (year & id & now & o' & Ho & <- & _)] Hx Eid.
  - apply saw_past in Ho as (s0 & Hh & H1 & [Hin [_ Eo%N.eqb_eq]%andb_true_iff]%found_first). assert (Hid : o_ID x ∈ snd s0) by (rewrite Eid; by apply (hm_ids _ Hh)).
    apply (on_owner _ _ H1 x Hx) in Hid as (y & E & Hy)%list_elem_of_fmap. injection E as E1 E2. rewrite E2, <- Eo. apply (hm_owner _ Hh); congruence.
  - apply Hg in Ho as (s0 & s1 & Hh & ((b & Hb & Hs1) & Hids & _) & H1 & H2). destruct s1 as [s1 u1]. simpl in Hs1, Hids. subst s1 u1. apply db_sem_transaction in Hb as [[_ ?] | (a & Hb & [[= <-] | ?])]; [done | | done].
    unfold opening in Hb. apply db_sem_try in Hb as [(e & _ & ?) | (p & b1 & _ & Hb)]; [done |]. apply db_sem_step in Hb as ([] & b2 & E2 & Hb). apply db_sem_step in Hb as ([] & b3 & E3 & Hb). apply db_sem_ret in Hb as [[= ->] ->].
    unfold insert_case in E2. destruct (existsb _ (occurrences_of b1)) eqn:Ex; [done |]. injection E2 as <-. unfold insert_event in E3. destruct (existsb _ (events_of _)); [done |]. injection E3 as <-.
    set (new := with_protocol p o') in *. assert (Hid : o_ID x ∈ snd s0 ++ map o_ID (occurrences_of b1 ++ [new])).
    { rewrite Eid. apply elem_of_app; right. apply list_elem_of_fmap. exists new. split; [done |]. apply elem_of_app; right. by left. }
    apply (on_owner _ _ H2 x Hx) in Hid as (y & E & Hy)%list_elem_of_fmap. injection E as E1 E2. rewrite E2. cbn in Hy. apply elem_of_app in Hy as [Hy | ->%list_elem_of_singleton]; [| done].
    pose proof (existsb_not _ _ _ Ex Hy) as [Hne _]%orb_false_iff. apply N.eqb_neq in Hne. exfalso. apply Hne. change (o_ID y = o_ID new). congruence.
Qed.
End Seen.

(** * What a change does *)
Section Step.
Context (who : option uuid) (g : trace) (s s' : Remembering).
Context (Hg : forall e, e ∈ g -> witnessed remembering_sem onward homely e s) (Hs : homely s).
Context (Hacc : same_accounts (fst s) (fst s')) (Hids : snd s' = snd s ++ map o_ID (occurrences_of (os_base (fst s')))).
Lemma home_kept : ob_around (os_base (fst s')) = ob_around (os_base (fst s)) -> kept_catalogue false (os_base (fst s)) (os_base (fst s')) ->
  map owner (occurrences_of (os_base (fst s'))) ⊆ map owner (occurrences_of (os_base (fst s))) -> (forall o, o ∈ occurrences_of (os_base (fst s')) -> at_home (fst s) o) -> onward s s' /\ homely s'.
Proof.
  intros Ha Hc Ho Hh. assert (Hon : onward s s').
  { constructor; [done | done | done | rewrite Hids; intros i Hi; apply elem_of_app; by left |]. intros o Hin _. apply Ho, list_elem_of_fmap. by exists o. }
  split; [exact Hon |]. constructor.
  - intros o Hin. apply (at_home_later s); [done | by apply Hh].
  - intros o Hin. rewrite Hids. apply elem_of_app. right. apply list_elem_of_fmap. by exists o.
  - intros o o' Hin Hin' E. assert (H : owner o ∈ map owner (occurrences_of (os_base (fst s)))) by (apply Ho, list_elem_of_fmap; by exists o).
    assert (H' : owner o' ∈ map owner (occurrences_of (os_base (fst s)))) by (apply Ho, list_elem_of_fmap; by exists o').
    apply list_elem_of_fmap in H as (y & Ey & Hy), H' as (y' & Ey' & Hy'). injection Ey as E1 E2. injection Ey' as E1' E2'. rewrite E2, E2'. apply (hm_owner _ Hs); congruence.
Qed.
Lemma edit_home org f x : warranted_edit who g org f -> o_OrganizationID x = org -> at_home (fst s) x -> at_home (fst s) (f x).
Proof.
  intros [e Ha Hu Hd Hc Hr | id target closed Ht _ | at_ u _] <- [H1 H2 H3 H4 H5 H6 H7 H8]; [| | by constructor].
  - constructor; simpl; try done.
    + destruct (ed_UnitID e) as [u |]; [| done]. eapply holds_imp; [by apply (Hu u) |]. intros i Hi. left. apply (seen_unit_in g s Hg _ _ _ Hi). intros s0 H. apply (on_accounts _ _ H).
    + destruct (ed_DepartmentID e) as [u |]; [| done]. eapply holds_imp; [by apply (Hd u) |]. intros i Hi. left. apply (seen_unit_in g s Hg _ _ _ Hi). intros s0 H. apply (on_accounts _ _ H).
    + destruct (ed_CategoryID e) as [u |]; [| done]. eapply holds_imp; [by apply (Hc u) |]. intros i. by apply (seen_category g).
    + destruct (ed_WhatHappenedID e) as [u |]; [| done]. eapply holds_imp; [by apply (Hr u) |]. intros i. by apply (seen_reason g).
    + destruct (ed_AssignedUserID e) as [u |]; [| done]. eapply holds_imp; [by apply (Ha u) |]. intros i Hi. right. by apply (seen_user_in g s Hg).
  - constructor; simpl; try done. by apply (saw_stage g s Hg) in Ht.
Qed.
Lemma new_home o : new_case who g o -> at_home (fst s) o.
Proof.
  intros [Hu (k & Hk & _) (st & Hst & Est) _ Ha Hun Hd Hc Hr Hp]. constructor.
  - by apply (saw_contact g s Hg) in Hk.
  - rewrite Est. by apply (saw_initial g s Hg).
  - eapply holds_imp; [exact Hun |]. intros i [Hi | Hi].
    + left. apply (seen_unit_in g s Hg _ _ _ Hi). intros s0 H. apply (on_accounts _ _ H).
    + right. by apply (seen_transfer_in g s Hg).
  - eapply holds_imp; [exact Hd |]. intros i [Hi | Hi].
    + left. apply (seen_unit_in g s Hg _ _ _ Hi). intros s0 H. apply (on_accounts _ _ H).
    + right. by apply (seen_transfer_in g s Hg).
  - eapply holds_imp; [exact Hc |]. intros i. by apply (seen_category g).
  - eapply holds_imp; [exact Hr |]. intros i. by apply (seen_reason g).
  - eapply holds_imp; [exact Hp |]. intros i. by apply (seen_process g).
  - eapply holds_imp; [exact Ha |]. intros i [Hi | Hi]; [by left | right; by apply (seen_user_in g s Hg)].
Qed.
End Step.
Lemma home_protocol s o p : at_home s o -> at_home s (with_protocol p o).
Proof. by intros []. Qed.
Lemma homely_step who X (op : oc_op X) g s x s' : warranted false who X op g -> (forall e, e ∈ g -> witnessed remembering_sem onward homely e s) -> homely s -> remembering_sem X op s x s' -> onward s s' /\ homely s'.
Proof.
  intros Hw Hg Hs (Hsem & Hids & Hnew). destruct (change_of _ _ _ _ _ _ _ _ Hw Hsem) as [Hc Hacc].
  assert (Hupd : forall p f, ob_cat (os_base (fst s')) = ob_cat (os_base (fst s)) -> ob_around (os_base (fst s')) = ob_around (os_base (fst s)) ->
    occurrences_of (os_base (fst s')) = sql_update p f (occurrences_of (os_base (fst s))) -> (forall o, owner (f o) = owner o) ->
    (forall o, o ∈ occurrences_of (os_base (fst s)) -> p o = true -> at_home (fst s) o -> at_home (fst s) (f o)) -> onward s s' /\ homely s').
  { intros p f A B C D E. apply home_kept; [done | done | done | done | split; rewrite ?A; done | by rewrite C, map_update_column |]. intros o Ho. rewrite C in Ho. apply sql_update_in in Ho as (o0 & Ho0 & ->).
    pose proof (hm_cases _ Hs o0 Ho0). destruct (p o0) eqn:Ep; [by apply E | done]. }
  remember (os_base (fst s')) as b' eqn:Eb in Hc. destruct Hc as [d Ht | d A B C _ | d org o f He Hf A B _ C | d id sale A B _ C | d id A B _ C | d year o seq b2 Hn _ _ Hex A B _ C]; subst d.
  - apply home_kept; [done | done | done | apply Ht | apply Ht | by rewrite (tame_cases _ _ _ Ht) |]. rewrite (tame_cases _ _ _ Ht). apply (hm_cases _ Hs).
  - apply home_kept; [done | done | done | done | split; rewrite ?A; done | by rewrite C |]. rewrite C. apply (hm_cases _ Hs).
  - apply (Hupd _ _ A B C).
    + intros x0. by destruct Hf.
    + intros x0 Hx0 Ex%N.eqb_eq Hh. by eapply (edit_home who g s Hg org); [exact Hf | eapply entitled_org |].
  - apply (Hupd _ _ A B C); [done |]. intros x0 _ _ []. by constructor.
  - apply home_kept; [done | done | done | done | split; rewrite ?A; done | |]; rewrite C.
    + intros i (y & -> & Hy)%list_elem_of_fmap. apply list_elem_of_In, filter_In in Hy as [Hy%list_elem_of_In _]. apply list_elem_of_fmap. by exists y.
    + intros o Ho. apply list_elem_of_In, filter_In in Ho as [Ho%list_elem_of_In _]. by apply (hm_cases _ Hs).
  - assert (Hfresh : forall y, y ∈ occurrences_of (os_base (fst s)) -> o_ID y <> o_ID o).
    { intros y Hy. pose proof (existsb_not _ _ _ Hex Hy) as H. by apply N.eqb_neq in H. }
    assert (Hon : onward s s').
    { constructor; [done | done | split; rewrite ?A; done | rewrite Hids; intros i Hi; apply elem_of_app; by left |]. intros y Hy Hid. rewrite C in Hy. destruct (Hnew y) as [H | H]; [by rewrite C | | done].
      apply elem_of_app in Hy as [Hy | ->%list_elem_of_singleton]; [apply list_elem_of_fmap; by exists y |]. exfalso. apply list_elem_of_fmap in H as (z & Ez & Hz). by apply (Hfresh z Hz). }
    split; [exact Hon |]. constructor.
    + intros y Hy. apply (at_home_later s); [done |]. rewrite C in Hy. apply elem_of_app in Hy as [Hy | ->%list_elem_of_singleton]; [by apply (hm_cases _ Hs) |]. by eapply home_protocol, new_home.
    + intros y Hy. rewrite Hids. apply elem_of_app. right. apply list_elem_of_fmap. by exists y.
    + rewrite C. intros y y' [Hy | ->%list_elem_of_singleton]%elem_of_app [Hy' | ->%list_elem_of_singleton]%elem_of_app E; [by apply (hm_owner _ Hs) | | | done]; exfalso.
      * by apply (Hfresh y Hy).
      * by apply (Hfresh y' Hy').
Qed.

Lemma remembering_answers X (op : oc_op X) s x s' : remembering_sem X op s x s' -> answerable X op x.
Proof. intros [H _]. by eapply answers. Qed.
Section Home.
Context (parse_uuid pg_uuid : string -> option uuid) (ilike : string -> string -> bool) (parse_date : uuid -> string -> option instant)
        (parse_rfc3339 : string -> option instant) (detect_content : string -> string) (uuid_text : uuid -> string).
(** C10: a case refers only to what is of its organization, its unit and department apart when they
    come from a transfer.  However the requests of any number of users on the occurrences of any
    organizations interleave, fail or crash: the contact, the stage, the category, the reason and
    the process of every case are of the organization of the case, and whoever it is assigned to is
    a user of it or the one who opened the case; its unit and its department are of the organization,
    or are those of a team that a transfer of the organization names (which the code reads by its id
    alone, whatever organization the team is of). Ids are not given twice. *)
Theorem occurrence_references_stay_home s ids ps c' o : homely (s, ids) ->
  Forall (fun p => exists c, request parse_uuid pg_uuid ilike parse_date parse_rfc3339 detect_content uuid_text false c p) ps ->
  pool_steps remembering_sem ((s, ids), ps) c' -> o ∈ occurrences_of (os_base (fst (fst c'))) -> at_home (fst (fst c')) o.
Proof.
  intros Hs Hps H Ho. destruct (requests_keep _ _ _ _ _ _ _ remembering_sem remembering_answers false onward homely homely_step _ _ _ Hs Hps H) as (_ & Hh & _). by apply (hm_cases _ Hh).
Qed.
End Home.
