(* ===== verification/OccurrenceStages.v ===== *)
(** The pipeline: when a case is closed, and what keeps a pipeline usable. *)
From S2P Require Import Prelude Effects Sql GoText GoAny Visibility Permissions Accounts AccountsApi Occurrences OccurrenceCatalogue OccurrenceTexts OccurrenceApi OccurrenceWarrants OccurrenceGate OccurrenceRules.

(** * Closed, if and only if in a closing stage *)
Definition settled_case (b : OBase) (o : Occurrence) : Prop := exists flag, (o_StageID o, flag) ∈ map stage_flag (stages_of b) /\ (is_Some (o_ClosedAt o) <-> flag = true).
Record settled (s : OState) : Prop := MkSettled {
  se_stages : sane_stages (os_base s);
  se_cases : forall o, o ∈ occurrences_of (os_base s) -> settled_case (os_base s) o }.
Definition flags_kept (s s' : OState) : Prop := kept_catalogue true (os_base s) (os_base s').
#[global] Instance flags_kept_preorder : PreOrder flags_kept.
Proof. split; [intros s; unfold flags_kept; reflexivity |]. intros s1 s2 s3. unfold flags_kept. apply transitivity. Qed.
Lemma settled_later b b' o : kept_catalogue true b b' -> settled_case b o -> settled_case b' o.
Proof. intros H (flag & H1 & H2). exists flag. split; [by apply (kept_flags _ _ _ H) | done]. Qed.
Section Settled.
Context (g : trace) (s : OState) (Hg : forall e, e ∈ g -> witnessed oc_sem flags_kept settled e s).
Lemma saw_flag (h : OBase -> Res OccurrenceStage) st : saw g (select h) st -> (forall b, h b = Ok st -> st ∈ stages_of b) -> (sg_ID st, sg_IsClosing st) ∈ map stage_flag (stages_of (os_base s)) /\ never_both st.
Proof.
  intros H%Hg Hh. destruct H as (s0 & s1 & [[_ Hb] _] & (b & Hsem%exec_ok_sem & ->) & H1 & H2). assert (Hin : st ∈ stages_of (os_base s0)) by (apply Hh; unfold select in Hsem; congruence).
  split; [| by eapply Forall_forall in Hb]. assert (H3 : flags_kept s0 s) by by etrans. apply (kept_flags _ _ _ H3 eq_refl), list_elem_of_fmap. by exists st.
Qed.
Lemma edit_settled who org f o : warranted_edit who g org f -> settled_case (os_base s) o -> settled_case (os_base s) (f o).
Proof.
  intros [e _ _ _ _ _ | id target closed Ht Hclosed | at_ u _]; [done | | done]. intros _. apply saw_flag in Ht as [Ht _]; [by exists (sg_IsClosing target) |].
  intros b. unfold found, sql_first. destruct (List.find _ _) eqn:E; [| done]. intros [= ->]. by apply find_some in E as [E%list_elem_of_In _].
Qed.
Lemma new_settled who o p : new_case who g o -> settled_case (os_base s) (with_protocol p o).
Proof.
  intros [_ _ (st & Hst & E) Hopen _ _ _ _ _ _]. exists (sg_IsClosing st). simpl.
  assert (Hin : forall b, found (sql_min stage_order (List.filter (fun s => in_pipeline (o_OrganizationID o) s && sg_IsInitial s) (stages_of b))) = Ok st -> st ∈ stages_of b /\ sg_IsInitial st = true).
  { intros b. unfold found. destruct (sql_min _ _) eqn:Em; [| done]. intros [= ->]. apply sql_min_in, list_elem_of_In, filter_In in Em as [H [_ H']%andb_true_iff]. split; [by apply list_elem_of_In | done]. }
  assert (Hi : sg_IsInitial st = true).
  { pose proof Hst as H%Hg. destruct H as (s0 & s1 & _ & (b & Hsem%exec_ok_sem & _) & _). unfold first_initial, select in Hsem. eapply (Hin (os_base s0)). congruence. }
  apply saw_flag in Hst as [H1 H2]; [| intros b H; by eapply Hin]. rewrite E, Hopen. split; [done |]. rewrite (H2 Hi). by split; [intros [? ?] |].
Qed.
End Settled.
Lemma settled_step who X (op : oc_op X) g s x s' : warranted true who X op g -> (forall e, e ∈ g -> witnessed oc_sem flags_kept settled e s) -> settled s -> oc_sem X op s x s' -> flags_kept s s' /\ settled s'.
Proof.
  intros Hw Hg [Hs Hc] Hsem. destruct (change_of _ _ _ _ _ _ _ _ Hw Hsem) as [H _].
  enough (Hk : flags_kept s s' /\ forall o, o ∈ occurrences_of (os_base s') -> settled_case (os_base s) o).
  { destruct Hk as [Hk Ho]. split; [exact Hk |]. constructor; [by apply (kept_sane _ _ _ Hk) |]. intros o Hin. eapply settled_later; [exact Hk | by apply Ho]. }
  unfold flags_kept. remember (os_base s') as b' eqn:Eb. destruct H as [d Ht | d A B C _ | d org o f _ Hf A _ _ C | d id sale A _ _ C | d id A _ _ C | d year o seq b2 Hn _ _ _ A _ _ C].
  - split; [apply Ht |]. by rewrite (tame_cases _ _ _ Ht).
  - split; [split; rewrite ?A; try done; unfold sane_stages; by rewrite A | by rewrite C].
  - split; [split; rewrite ?A; try done; unfold sane_stages; by rewrite A |]. rewrite C. intros x0 (y & Hy & ->)%sql_update_in. destruct (is_case _ y); [| by apply Hc]. eapply edit_settled; [exact Hg | exact Hf | by apply Hc].
  - split; [split; rewrite ?A; try done; unfold sane_stages; by rewrite A |]. rewrite C. intros x0 (y & Hy & ->)%sql_update_in. apply Hc in Hy. by destruct (is_case _ y).
  - split; [split; rewrite ?A; try done; unfold sane_stages; by rewrite A |]. rewrite C. intros x0 Hx. apply list_elem_of_In, filter_In in Hx as [Hx%list_elem_of_In _]. by apply Hc.
  - split; [split; rewrite ?A; try done; unfold sane_stages; by rewrite A |]. rewrite C. intros x0 [Hx | ->%list_elem_of_singleton]%elem_of_app; [by apply Hc | by eapply new_settled].
Qed.
Section Closed.
Context (parse_uuid pg_uuid : string -> option uuid) (ilike : string -> string -> bool) (parse_date : uuid -> string -> option instant)
        (parse_rfc3339 : string -> option instant) (detect_content : string -> string) (uuid_text : uuid -> string).
(** C11: a case is closed when it is in a closing stage, and only then.  However requests interleave,
    fail or crash, as long as none edits a stage of the pipeline (stages may be created and deleted),
    every case is in a stage that exists, and it has a time of closing exactly when that stage is a
    closing one. *)
Theorem closed_iff_in_closing_stage s ps c' o : settled s ->
  Forall (fun p => exists c, request parse_uuid pg_uuid ilike parse_date parse_rfc3339 detect_content uuid_text true c p) ps ->
  pool_steps oc_sem (s, ps) c' -> o ∈ occurrences_of (os_base (fst c')) ->
  exists st, st ∈ stages_of (os_base (fst c')) /\ sg_ID st = o_StageID o /\ (is_Some (o_ClosedAt o) <-> sg_IsClosing st = true) /\
    forall st', st' ∈ stages_of (os_base (fst c')) -> sg_ID st' = o_StageID o -> st' = st.
Proof.
  intros Hs Hps H Ho. destruct (requests_keep _ _ _ _ _ _ _ oc_sem answers true flags_kept settled settled_step _ _ _ Hs Hps H) as (_ & [[Hnd _] Hc] & _).
  destruct (Hc o Ho) as (flag & (st & E & Hst)%list_elem_of_fmap & Hclosed). injection E as E1 E2. exists st. rewrite E2 in Hclosed. split_and!; try done.
  intros st' Hst' E'. eapply NoDup_map_inj; [exact Hnd | done | done | congruence].
Qed.
End Closed.
