(* ===== verification/OccurrencePipeline.v ===== *)
(** The requests on the stages of a pipeline, one after the other: what keeps it usable. *)
From S2P Require Import Prelude Effects Sql GoText GoAny Visibility Permissions Accounts AccountsApi Occurrences OccurrenceCatalogue OccurrenceTexts OccurrenceApi OccurrenceWarrants OccurrenceGate.

(** * A sound pipeline *)
Definition pipeline (org : uuid) (b : OBase) : list OccurrenceStage := List.filter (in_pipeline org) (stages_of b).
Record sound (l : list OccurrenceStage) : Prop := MkSound {
  so_names : NoDup (map sg_Name l);
  so_initial : sql_count sg_IsInitial l = 1;
  so_closing : 0 < sql_count sg_IsClosing l;
  so_never : Forall never_both l }.
(** The stages have ids of their own. *)
Definition stage_ids (b : OBase) : Prop := NoDup (map sg_ID (stages_of b)) /\ nil_uuid ∉ map sg_ID (stages_of b).
Definition piped (org : uuid) (b : OBase) : Prop := stage_ids b /\ sound (pipeline org b).

(** ** Updates of a list of stages *)
Definition same_place (f : OccurrenceStage -> OccurrenceStage) : Prop := forall s, sg_ID (f s) = sg_ID s /\ sg_OrganizationID (f s) = sg_OrganizationID s /\ sg_Deleted (f s) = sg_Deleted s.
Lemma filter_update (p q : OccurrenceStage -> bool) f l : (forall s, q (f s) = q s) -> List.filter q (sql_update p f l) = sql_update p f (List.filter q l).
Proof. intros H. induction l as [| s l IH]; [done |]. simpl. replace (q (if p s then f s else s)) with (q s) by (destruct (p s); [by rewrite H | done]). destruct (q s); simpl; by rewrite IH. Qed.
Lemma pipeline_update org p f b : same_place f -> pipeline org (set_stages (sql_update p f) b) = sql_update p f (pipeline org b).
Proof. intros H. apply filter_update. intros s. unfold in_pipeline. by destruct (H s) as (_ & -> & ->). Qed.
Lemma ids_update p f b : same_place f -> stage_ids b -> stage_ids (set_stages (sql_update p f) b).
Proof. intros H Hb. unfold stage_ids. simpl. by rewrite map_update_column by (intros s; apply H). Qed.
Lemma elsewhere org p f (l : list OccurrenceStage) : (forall s, s ∈ l -> in_pipeline org s = true -> p s = false) -> (forall s, in_pipeline org s = false -> in_pipeline org (f s) = false) -> List.filter (in_pipeline org) (sql_update p f l) = List.filter (in_pipeline org) l.
Proof.
  intros Hp Hf. induction l as [| s l IH]; [done |]. simpl. rewrite IH by (intros x Hx; apply Hp; by right). destruct (p s) eqn:Ep; [| done].
  destruct (in_pipeline org s) eqn:Es; [| by rewrite Hf]. rewrite Hp in Ep; [done | by left | done].
Qed.
Lemma count_filter_update p q f (l : list OccurrenceStage) : (forall s, s ∈ l -> q s = true -> p (f s) = p s) -> sql_count p (sql_update q f l) = sql_count p l.
Proof. intros H. apply sql_count_update. intros s Hs. destruct (q s) eqn:E; [by apply H | done]. Qed.
(** One stage initial, the others not. *)
Lemma unset_count keep l : sql_count sg_IsInitial (sql_update (fun s => negb (N.eqb (sg_ID s) keep)) unset_initial l) = sql_count (fun s => N.eqb (sg_ID s) keep && sg_IsInitial s) l.
Proof. induction l as [| s l IH]; [done |]. simpl. rewrite !sql_count_cons, IH. destruct (N.eqb (sg_ID s) keep); simpl; [by destruct (sg_IsInitial s) | done]. Qed.
Lemma unset_where org keep (l : list OccurrenceStage) : (forall s, s ∈ l -> in_pipeline org s = true) -> sql_update (fun s => in_pipeline org s && negb (N.eqb (sg_ID s) keep)) unset_initial l = sql_update (fun s => negb (N.eqb (sg_ID s) keep)) unset_initial l.
Proof. intros H. unfold sql_update. apply map_ext_in. intros s Hs. by rewrite H by by apply list_elem_of_In. Qed.
Lemma pipeline_in org b s : s ∈ pipeline org b <-> s ∈ stages_of b /\ in_pipeline org s = true.
Proof. unfold pipeline. rewrite !list_elem_of_In, filter_In. done. Qed.

(** ** Parts of the transactions *)
Lemma sound_unset keep (l : list OccurrenceStage) : sound l -> let l' := sql_update (fun s => negb (N.eqb (sg_ID s) keep)) unset_initial l in
  NoDup (map sg_Name l') /\ sql_count sg_IsClosing l' = sql_count sg_IsClosing l /\ Forall never_both l'.
Proof.
  intros [H1 H2 H3 H4]. split_and!; [by rewrite map_update_column | by apply sql_count_update; intros s _; destruct (negb _) |].
  apply Forall_forall. intros s (x & Hx & ->)%sql_update_in. rewrite Forall_forall in H4. specialize (H4 x Hx). by destruct (negb _).
Qed.
Definition unset_in (org keep : uuid) (b : OBase) : OBase := set_stages (sql_update (fun s => in_pipeline org s && negb (N.eqb (sg_ID s) keep)) unset_initial) b.
Lemma unset_ids org keep b : stage_ids b -> stage_ids (unset_in org keep b).
Proof. by apply ids_update. Qed.
Lemma unset_here org keep b : pipeline org (unset_in org keep b) = sql_update (fun s => negb (N.eqb (sg_ID s) keep)) unset_initial (pipeline org b).
Proof. unfold unset_in. rewrite pipeline_update by done. apply unset_where. intros s. by rewrite pipeline_in; intros [_ H]. Qed.
Lemma unset_elsewhere org org' keep b : org <> org' -> pipeline org (unset_in org' keep b) = pipeline org b.
Proof.
  intros Hne. apply elsewhere; [| done]. intros s _ [H _]%andb_true_iff. unfold in_pipeline. apply N.eqb_eq in H. rewrite H. apply N.eqb_neq in Hne. by rewrite Hne.
Qed.
Lemma append_pipeline org s b : pipeline org (set_stages (fun l => l ++ [s]) b) = pipeline org b ++ (if in_pipeline org s then [s] else []).
Proof. unfold pipeline. simpl. rewrite List.filter_app. simpl. by destruct (in_pipeline org s). Qed.
Lemma append_ids s b : stage_ids b -> sg_ID s <> nil_uuid -> (forall x, x ∈ stages_of b -> sg_ID x <> sg_ID s) -> stage_ids (set_stages (fun l => l ++ [stored_stage s]) b).
Proof.
  intros [H1 H2] Hs Hx. unfold stage_ids. simpl. rewrite map_app. split.
  - apply NoDup_app. split_and!; [done | | apply NoDup_singleton]. intros i (x & -> & Hin)%list_elem_of_fmap Hi%list_elem_of_singleton. by apply (Hx x).
  - intros [H | H%list_elem_of_singleton]%elem_of_app; [done |]. by apply Hs.
Qed.
(** ** Creating *)
Lemma insert_keeps org b s b' : insert_stage s b = (Ok tt, b') -> stage_ids b -> sg_ID s <> nil_uuid ->
  stage_ids b' /\ (in_pipeline org s = false -> pipeline org b' = pipeline org b) /\
  (in_pipeline org s = true -> pipeline org b' = pipeline org b ++ [stored_stage s] /\ (NoDup (map sg_Name (pipeline org b)) -> NoDup (map sg_Name (pipeline org b')))).
Proof.
  unfold insert_stage. destruct (existsb _ _) eqn:E; [done |]. intros [= <-] Hids Hnil. rewrite append_pipeline. change (in_pipeline org (stored_stage s)) with (in_pipeline org s).
  split_and!; [apply append_ids; [done | done |]; intros x Hx; apply conflict_id; by eapply existsb_not | intros ->; by rewrite app_nil_r |].
  intros Hp. rewrite Hp. split; [done |]. intros Hn. rewrite map_app. apply NoDup_app. split_and!; [done | | apply NoDup_singleton].
  intros n (x & -> & [Hin Hx]%pipeline_in)%list_elem_of_fmap Hi%list_elem_of_singleton. pose proof (existsb_not _ _ _ E Hin) as Hc. unfold stage_conflict in Hc. apply orb_false_iff in Hc as [_ Hc].
  unfold in_pipeline in *. simpl in Hi. apply andb_true_iff in Hx as [Hx1%N.eqb_eq Hx2], Hp as [Hp1%N.eqb_eq Hp2]. rewrite Hx1, Hp1, Hi, N.eqb_refl, String.eqb_refl, Hx2, Hp2 in Hc. done.
Qed.
Lemma piped_create org keep b b' s (ini : bool) : insert_stage s (if ini then unset_in (sg_OrganizationID s) keep b else b) = (Ok tt, b') ->
  keep = nil_uuid -> sg_ID s <> nil_uuid -> sg_Deleted s = false -> sg_IsInitial s = ini -> never_both s -> piped org b -> piped org b'.
Proof.
  intros Hb -> Hs Hd Hi Hnb [Hids Hso]. set (b1 := if ini then _ else b) in *. assert (Hids1 : stage_ids b1) by (unfold b1; destruct ini; [by apply unset_ids | done]).
  destruct (insert_keeps org _ _ _ Hb Hids1 Hs) as (Hids' & Hout & Hin). split; [exact Hids' |].
  destruct (in_pipeline org s) eqn:Ep.
  - assert (Eorg : sg_OrganizationID s = org) by (unfold in_pipeline in Ep; by apply andb_true_iff in Ep as [Ep%N.eqb_eq _]). destruct (Hin eq_refl) as [El Hn]. rewrite El in *.
    assert (Hnew : forall p, sql_count p (pipeline org b1 ++ [stored_stage s]) = sql_count p (pipeline org b1) + (if p (stored_stage s) then 1 else 0)) by (intros p; rewrite sql_count_app, sql_count_cons; change (sql_count p []) with 0; lia).
    subst org. destruct ini; subst b1.
    + rewrite unset_here in *. destruct (sound_unset nil_uuid _ Hso) as (A & B & C). constructor; [by apply Hn | rewrite Hnew | rewrite Hnew, B | apply Forall_app; split; [done | by constructor]].
      * rewrite unset_count. simpl. rewrite Hi. replace (sql_count _ (pipeline _ b)) with 0; [done |]. symmetry. apply sql_count_zero. intros x [Hx _]%pipeline_in.
        destruct (N.eqb (sg_ID x) nil_uuid) eqn:E; [| done]. apply N.eqb_eq in E. destruct Hids as [_ Hnil]. exfalso. apply Hnil, list_elem_of_fmap. by exists x.
      * pose proof (so_closing _ Hso). set (u := sg_IsClosing _). destruct u; lia.
    + destruct Hso as [A B C D]. constructor; [by apply Hn | rewrite Hnew, B; simpl; by rewrite Hi | rewrite Hnew; set (u := sg_IsClosing _); destruct u; lia | apply Forall_app; split; [done | by constructor]].
  - rewrite Hout by done. assert (Hne : org <> sg_OrganizationID s) by (intros ->; unfold in_pipeline in Ep; by rewrite N.eqb_refl, Hd in Ep).
    unfold b1. destruct ini; [by rewrite unset_elsewhere | done].
Qed.
(** ** Updating and deleting the stage [st] *)
Lemma only_stage b st s : stage_ids b -> st ∈ stages_of b -> s ∈ stages_of b -> is_stage (sg_ID st) s = true -> s = st.
Proof. intros [H _] H1 H2 [E%N.eqb_eq _]%andb_true_iff. by eapply NoDup_map_inj. Qed.
Lemma names_update id n f l : (forall s, sg_Name (f s) = n) -> NoDup (map sg_ID l) -> NoDup (map sg_Name l) -> (forall x, x ∈ l -> sg_ID x <> id -> sg_Name x <> n) ->
  NoDup (map sg_Name (sql_update (fun s => N.eqb (sg_ID s) id) f l)).
Proof.
  intros Hf. induction l as [| a l IH]; intros Hid Hn Hx; [constructor |]. inversion_clear Hid as [| ? ? Ha Hid']. inversion_clear Hn as [| ? ? Hna Hn']. simpl. constructor.
  - intros (y & Ey & (x & Hin & ->)%sql_update_in)%list_elem_of_fmap. destruct (N.eqb (sg_ID a) id) eqn:Ea.
    + apply N.eqb_eq in Ea. rewrite Hf in Ey. assert (Hne : sg_ID x <> id) by (intros E; apply Ha, list_elem_of_fmap; exists x; split; [congruence | done]). apply N.eqb_neq in Hne as E. rewrite E in Ey.
      by apply (Hx x); [right | | ].
    + destruct (N.eqb (sg_ID x) id) eqn:E.
      * rewrite Hf in Ey. apply (Hx a); [by left | by apply N.eqb_neq | done].
      * apply Hna, list_elem_of_fmap. by exists x.
  - apply IH; [done | done |]. intros x H. apply Hx. by right.
Qed.
Lemma filter_sublist {A} (p : A -> bool) l : List.filter p l `sublist_of` l.
Proof. induction l as [| x l IH]; [constructor |]. simpl. destruct (p x); [by apply sublist_skip | by apply sublist_cons]. Qed.
Section Updating.
Context (b b' : OBase) (st : OccurrenceStage) (req : OccurrenceStageRequest).
Abbreviation id := (sg_ID st).
Abbreviation b1 := (if sq_IsInitial req then unset_in (sg_OrganizationID st) id b else b).
Context (Hst : st ∈ stages_of b) (Hlive : sg_Deleted st = false) (Hids : stage_ids b) (Hb : update_stage id (edit_stage req) b1 = (Ok tt, b')).
Lemma updated_stages : b' = set_stages (sql_update (is_stage id) (edit_stage req)) b1 /\
  forall s x, s ∈ stages_of b1 -> is_stage id s = true -> x ∈ stages_of b1 -> sg_ID x <> id -> stage_conflict (edit_stage req s) x = false.
Proof.
  unfold update_stage in Hb. destruct (existsb _ (stages_of b1)) eqn:E; [done |]. injection Hb as <-. split; [done |]. intros s x Hs Hi Hx Hne.
  pose proof (existsb_not _ _ _ E Hs) as H. apply N.eqb_neq in Hne. cbv beta in H. rewrite Hi in H. pose proof (existsb_not _ _ _ H Hx) as H'. simpl in H'. by rewrite Hne in H'.
Qed.
Lemma unset_stage s : s ∈ stages_of b1 -> exists s0, s0 ∈ stages_of b /\ sg_ID s = sg_ID s0 /\ sg_OrganizationID s = sg_OrganizationID s0 /\ sg_Deleted s = sg_Deleted s0 /\ sg_Name s = sg_Name s0.
Proof. destruct (sq_IsInitial req); [| by exists s]. intros (s0 & Hs0 & ->)%sql_update_in. exists s0. by destruct (_ && _). Qed.
Lemma update_elsewhere org : org <> sg_OrganizationID st -> pipeline org b' = pipeline org b.
Proof.
  intros Hne. destruct updated_stages as [Eb _]. rewrite Eb. transitivity (pipeline org b1); [| by destruct (sq_IsInitial req); [rewrite unset_elsewhere |]].
  apply elsewhere; [| by intros []]. intros s Hs [Ho%N.eqb_eq Hd]%andb_true_iff. destruct (is_stage id s) eqn:Ei; [| done]. destruct (unset_stage s Hs) as (s0 & H0 & E1 & E2 & E3 & _).
  assert (s0 = st) as -> by (apply (only_stage b); [done | done | done |]; unfold is_stage in *; by rewrite <- E1, <- E3). congruence.
Qed.
Lemma update_here (l := pipeline (sg_OrganizationID st) b) :
  pipeline (sg_OrganizationID st) b' = sql_update (fun s => N.eqb (sg_ID s) id) (edit_stage req) (if sq_IsInitial req then sql_update (fun s => negb (N.eqb (sg_ID s) id)) unset_initial l else l).
Proof.
  destruct updated_stages as [Eb _]. rewrite Eb. rewrite pipeline_update by by intros []. replace (if sq_IsInitial req then sql_update _ unset_initial l else l) with (pipeline (sg_OrganizationID st) b1).
  - unfold sql_update. apply map_ext_in. intros s [_ Hs]%list_elem_of_In%pipeline_in. unfold in_pipeline, is_stage in *. apply andb_true_iff in Hs as [_ Hs]. by rewrite Hs, andb_true_r.
  - destruct (sq_IsInitial req); [apply unset_here | done].
Qed.
Lemma st_here : st ∈ pipeline (sg_OrganizationID st) b.
Proof. apply pipeline_in. split; [done |]. unfold in_pipeline. by rewrite N.eqb_refl, Hlive. Qed.
Lemma update_names : NoDup (map sg_Name (pipeline (sg_OrganizationID st) b)) -> NoDup (map sg_Name (pipeline (sg_OrganizationID st) b')).
Proof.
  intros Hn. rewrite update_here. set (l1 := if sq_IsInitial req then _ else _). assert (E : map sg_Name l1 = map sg_Name (pipeline (sg_OrganizationID st) b) /\ map sg_ID l1 = map sg_ID (pipeline (sg_OrganizationID st) b)).
  { subst l1. destruct (sq_IsInitial req); [by rewrite !map_update_column | done]. } destruct E as [E1 E2]. apply (names_update id (sq_Name req)); [done | rewrite E2 | by rewrite E1 |].
  - destruct Hids as [H _]. eapply sublist_NoDup; [exact H |]. apply (fmap_sublist sg_ID). apply filter_sublist.
  - assert (Hl1 : l1 = pipeline (sg_OrganizationID st) b1) by (subst l1; destruct (sq_IsInitial req); [by rewrite unset_here | done]). rewrite Hl1. intros x [Hx Hp]%pipeline_in Hne En.
    assert (Hst1 : exists s, s ∈ stages_of b1 /\ is_stage id s = true /\ sg_OrganizationID s = sg_OrganizationID st).
    { destruct (sq_IsInitial req); [| exists st; split_and!; [done | unfold is_stage; by rewrite N.eqb_refl, Hlive | done]].
      exists st. split_and!; [| unfold is_stage; by rewrite N.eqb_refl, Hlive | done]. apply list_elem_of_fmap. exists st. split; [| done]. by rewrite N.eqb_refl, andb_false_r. }
    destruct Hst1 as (s & Hs & Hi & Eo). destruct updated_stages as [_ Hc]. specialize (Hc s x Hs Hi Hx Hne). unfold stage_conflict in Hc. simpl in Hc. apply orb_false_iff in Hc as [_ Hc].
    unfold in_pipeline, is_stage in *. apply andb_true_iff in Hp as [Hp1%N.eqb_eq Hp2], Hi as [_ Hi]. rewrite Eo, Hp1, En, N.eqb_refl, String.eqb_refl, Hp2, Hi in Hc. done.
Qed.
End Updating.
Lemma one_with_id (st : OccurrenceStage) l : NoDup (map sg_ID l) -> st ∈ l -> sql_count (fun s => N.eqb (sg_ID s) (sg_ID st)) l = 1.
Proof.
  induction l as [| s l IH]; [by intros _ ?%not_elem_of_nil |]. rewrite sql_count_cons. intros Hn Hin. inversion_clear Hn as [| ? ? Hs Hn']. apply elem_of_cons in Hin as [<- | Hin].
  - rewrite N.eqb_refl. replace (sql_count _ l) with 0; [done |]. symmetry. apply sql_count_zero. intros x Hx. apply N.eqb_neq. intros E. apply Hs, list_elem_of_fmap. by exists x.
  - rewrite IH by done. destruct (N.eqb_spec (sg_ID s) (sg_ID st)) as [E |]; [| done]. exfalso. apply Hs, list_elem_of_fmap. by exists st.
Qed.
Lemma initial_with_id id req l : sq_IsInitial req = true ->
  sql_count sg_IsInitial (sql_update (fun s => N.eqb (sg_ID s) id) (edit_stage req) (sql_update (fun s => negb (N.eqb (sg_ID s) id)) unset_initial l)) = sql_count (fun s => N.eqb (sg_ID s) id) l.
Proof. intros H. induction l as [| s l IH]; [done |]. simpl. rewrite !sql_count_cons, IH. destruct (N.eqb (sg_ID s) id) eqn:E; simpl; rewrite E; simpl; [by rewrite H | done]. Qed.
Lemma pipeline_ids org b : stage_ids b -> NoDup (map sg_ID (pipeline org b)).
Proof. intros [H _]. eapply sublist_NoDup; [exact H |]. apply (fmap_sublist sg_ID), filter_sublist. Qed.
Lemma piped_update org b b' st req : st ∈ stages_of b -> sg_Deleted st = false ->
  update_stage (sg_ID st) (edit_stage req) (if sq_IsInitial req then unset_in (sg_OrganizationID st) (sg_ID st) b else b) = (Ok tt, b') ->
  sq_IsInitial req && sq_IsClosing req = false -> sg_IsInitial st && negb (sq_IsInitial req) = false ->
  (sg_IsClosing st && negb (sq_IsClosing req) = true -> exists x, x ∈ pipeline (sg_OrganizationID st) b /\ sg_IsClosing x = true /\ sg_ID x <> sg_ID st) ->
  piped org b -> piped org b'.
Proof.
  intros Hst Hlive Hb Hboth Hini Hclo [Hids Hso]. destruct (updated_stages _ _ _ _ Hb) as [Eb _]. split; [rewrite Eb; apply ids_update; [by intros [] |]; destruct (sq_IsInitial req); [by apply unset_ids | done] |].
  destruct (decide (org = sg_OrganizationID st)) as [-> | Hne]; [| by rewrite (update_elsewhere b b' st req)]. pose proof (st_here b st Hst Hlive) as Hin.
  assert (Hone : forall s, s ∈ pipeline (sg_OrganizationID st) b -> N.eqb (sg_ID s) (sg_ID st) = true -> s = st).
  { intros s [Hs _]%pipeline_in E%N.eqb_eq. destruct Hids as [Hids _]. by eapply NoDup_map_inj. }
  constructor; [apply (update_names b b' st req); [done.. | apply Hso] | | |]; rewrite (update_here b b' st req) by done.
  - destruct (sq_IsInitial req) eqn:Ei.
    + rewrite initial_with_id by done. apply one_with_id; [by apply pipeline_ids | done].
    + rewrite sql_count_update; [apply Hso |]. intros s Hs. destruct (N.eqb _ _) eqn:E; [| done]. rewrite (Hone s Hs E). simpl. rewrite Ei. simpl in Hini. by rewrite andb_true_r in Hini.
  - apply sql_count_pos. set (l1 := if sq_IsInitial req then _ else _).
    assert (Hkeep : forall x, x ∈ pipeline (sg_OrganizationID st) b -> exists y, y ∈ l1 /\ sg_ID y = sg_ID x /\ sg_IsClosing y = sg_IsClosing x).
    { intros x Hx. subst l1. destruct (sq_IsInitial req); [| by exists x]. exists (if negb (N.eqb (sg_ID x) (sg_ID st)) then unset_initial x else x). split; [apply list_elem_of_fmap; by exists x |]. by destruct (N.eqb _ _). }
    destruct (sq_IsClosing req) eqn:Ec.
    + destruct (Hkeep st Hin) as (y & Hy & E1 & _). exists (edit_stage req y). split; [apply list_elem_of_fmap; exists y; split; [by rewrite E1, N.eqb_refl | done] | done].
    + assert (Hx : exists x, x ∈ pipeline (sg_OrganizationID st) b /\ sg_IsClosing x = true /\ sg_ID x <> sg_ID st).
      { destruct (sg_IsClosing st) eqn:Es; [by apply Hclo |]. destruct (proj1 (sql_count_pos _ _) (so_closing _ Hso)) as (x & Hx & Hcx). exists x. split_and!; [done | done |].
        intros E. apply N.eqb_eq in E. rewrite (Hone x Hx E) in Hcx. congruence. }
      destruct Hx as (x & Hx & Hcx & Hne). destruct (Hkeep x Hx) as (y & Hy & E1 & E2). exists y. split; [| congruence]. apply list_elem_of_fmap. exists y. split; [| done]. rewrite E1. apply N.eqb_neq in Hne. by rewrite Hne.
  - pose proof (so_never _ Hso) as Hnb. rewrite Forall_forall in Hnb. apply Forall_forall. intros y (x & Hx & ->)%sql_update_in. destruct (N.eqb _ _); [unfold never_both; simpl; intros E; by rewrite E in Hboth |].
    destruct (sq_IsInitial req); [| by apply Hnb]. apply sql_update_in in Hx as (z & Hz & ->). specialize (Hnb z Hz). by destruct (N.eqb (sg_ID z) (sg_ID st)).
Qed.
Lemma piped_delete org b st : st ∈ stages_of b -> sg_Deleted st = false -> sg_IsInitial st = false ->
  (sg_IsClosing st = true -> exists x, x ∈ pipeline (sg_OrganizationID st) b /\ sg_IsClosing x = true /\ sg_ID x <> sg_ID st) ->
  piped org b -> piped org (set_stages (sql_update (is_stage (sg_ID st)) deleted_stage) b).
Proof.
  intros Hst Hlive Hini Hclo [Hids Hso]. split; [unfold stage_ids; simpl; by rewrite map_update_column |].
  assert (El : pipeline org (set_stages (sql_update (is_stage (sg_ID st)) deleted_stage) b) = List.filter (fun s => negb (is_stage (sg_ID st) s)) (pipeline org b)).
  { unfold pipeline. simpl. generalize (stages_of b); intros l; induction l as [| s l IH]; [done |]. simpl. rewrite IH. destruct (is_stage (sg_ID st) s) eqn:E; simpl.
    - unfold in_pipeline at 1. simpl. rewrite andb_false_r. destruct (in_pipeline org s); simpl; [by rewrite E | done].
    - destruct (in_pipeline org s); simpl; [by rewrite E | done]. }
  assert (Hone : forall s, s ∈ pipeline org b -> is_stage (sg_ID st) s = true -> s = st) by (intros s [Hs _]%pipeline_in E; by apply (only_stage b)).
  rewrite El. destruct Hso as [A B C D]. constructor.
  - eapply sublist_NoDup; [exact A |]. apply (fmap_sublist sg_Name), filter_sublist.
  - unfold sql_count in *. rewrite <- B. do 2 f_equal. revert Hone. generalize (pipeline org b). intros l. induction l as [| s l IH]; intros Hone; [done |]. simpl.
    specialize (IH (fun x Hx => Hone x (list_elem_of_further _ _ _ Hx))). destruct (is_stage (sg_ID st) s) eqn:E; simpl; [rewrite (Hone s (list_elem_of_here _ _) E), Hini; exact IH |].
    destruct (sg_IsInitial s); [by f_equal | exact IH].
  - apply sql_count_pos in C as (x & Hx & Hcx). apply sql_count_pos. destruct (is_stage (sg_ID st) x) eqn:E.
    + pose proof (Hone x Hx E) as ->. destruct (Hclo Hcx) as (y & Hy & Hcy & Hne). assert (Eo : sg_OrganizationID st = org) by (apply pipeline_in in Hx as [_ Hx]; unfold in_pipeline in Hx; by apply andb_true_iff in Hx as [Hx%N.eqb_eq _]).
      rewrite Eo in Hy. exists y. split; [| done]. apply list_elem_of_In, filter_In. split; [by apply list_elem_of_In |]. unfold is_stage. apply N.eqb_neq in Hne. by rewrite Hne.
    + exists x. split; [| done]. apply list_elem_of_In, filter_In. split; [by apply list_elem_of_In | by rewrite E].
  - apply Forall_forall. intros x [Hx%list_elem_of_In _]%list_elem_of_In%filter_In. by eapply Forall_forall in D.
Qed.

(** * Requests running alone *)
Definition leaves {A} (b : OBase) (p : OProg A) (Q : OBase -> Prop) : Prop := forall s a s', os_base s = b -> runs oc_sem p s a s' -> Q (os_base s').
Definition still X (op : oc_op X) : Prop := match op with ODo f => forall b, snd (f b) = b | OTx _ => False | _ => True end.
Lemma still_base X (op : oc_op X) s x s' : still X op -> oc_sem X op s x s' -> os_base s' = os_base s.
Proof.
  destruct op; simpl; intros Hp Hs; try (by subst s'); try done.
  - by destruct Hs as (a & _ & ->).
  - destruct Hs as (b & [E | [_ [-> | ->]]]%db_sem_exec & ->); [| done | apply Hp]. specialize (Hp (os_base s)). by rewrite <- E in Hp.
  - by destruct Hs as [_ ->].
  - by destruct Hs as [_ ->].
  - by destruct Hs as [_ ->].
  - by destruct Hs as [-> _].
  - by destruct Hs as [-> _].
  - by destruct Hs as [[_ ->] | [_ [-> | [part ->]]]].
  - by destruct Hs as [-> | ->].
  - by destruct Hs as [-> _].
Qed.
Definition same_base (s s' : OState) : Prop := os_base s' = os_base s.
#[local] Instance same_base_preorder : PreOrder same_base.
Proof. split; [done |]. intros s1 s2 s3 H1 H2. unfold same_base in *. congruence. Qed.
Lemma runs_still {A} (p : OProg A) s a s' : only still p -> runs oc_sem p s a s' -> os_base s' = os_base s.
Proof. apply (runs_relation oc_sem same_base still). intros X op s1 x s2. apply still_base. Qed.
Section Alone.
Context (b : OBase) (Q : OBase -> Prop) (HQ : Q b).
Lemma leaves_still {A} (p : OProg A) : only still p -> leaves b p Q.
Proof. intros Hp s a s' Hb Hr. apply runs_still in Hr as ->; [| done]. by rewrite Hb. Qed.
Lemma leaves_still_bind {A B} (p : OProg A) (k : A -> OProg B) : only still p -> (forall a, leaves b (k a) Q) -> leaves b (p ≫= k) Q.
Proof. intros Hp Hk s a s' Hb (x & s1 & Hx & Hr)%runs_bind. apply runs_still in Hx; [| done]. apply (Hk x s1 a); [congruence | done]. Qed.
Lemma leaves_still_answering {A} (p : OProg (A + oc_reply)) k : only still p -> (forall a, leaves b (k a) Q) -> leaves b (answering p k) Q.
Proof. intros Hp Hk. apply leaves_still_bind; [done |]. intros [a | e]; [apply Hk | by apply leaves_still]. Qed.
Lemma leaves_value {A} (r : A + oc_reply) k : (forall a, r = inl a -> leaves b (k a) Q) -> leaves b (answering (mret r) k) Q.
Proof. intros H s a s' Hb Hr. destruct r as [x |]; [by eapply (H x) |]. eapply (leaves_still (mret o)); [exact I | done | exact Hr]. Qed.
Lemma leaves_require ok code msg k : (ok = true -> leaves b (k tt) Q) -> leaves b (answering (require ok code msg) k) Q.
Proof. intros H. apply leaves_value. intros [] E. apply H. by destruct ok. Qed.
Lemma leaves_read {X} (h : OBase -> Res X) code msg k : (forall x, h b = Ok x -> leaves b (k x) Q) -> leaves b (answering (sql_or (select h) code msg) k) Q.
Proof.
  intros Hk s a s' Hb (x & s1 & Hx & Hr)%runs_bind. apply runs_call_bind in Hx as (r & s2 & (b1 & Hsem & ->) & Hx). destruct Hx as [Hx ->]. rewrite Hb in Hsem.
  destruct r as [y | e]; subst x.
  - apply exec_ok_sem in Hsem. injection Hsem as Hy <-. by apply (Hk y Hy _ a s') in Hr.
  - apply db_sem_exec in Hsem as [E | [_ [-> | ->]]]; [injection E as _ -> | |]; by destruct Hr as [_ ->].
Qed.
Lemma leaves_tx {X A} (body : ODb (Res X)) (k : Res X -> OProg A) : (forall x b' r, db_sem body b (Ok x) b' -> leaves b' (k r) Q) -> (forall r, leaves b (k r) Q) -> leaves b (tx body ≫= k) Q.
Proof.
  intros H1 H2 s a s' Hb (r & s1 & (b1 & Hsem & ->) & Hr)%runs_call_bind. rewrite Hb in Hsem. apply db_sem_transaction in Hsem as [[-> _] | (x & Hx & _)]; [by apply (H2 r) in Hr | by apply (H1 x b1 r Hx) in Hr].
Qed.
Lemma leaves_sql {X A} (f : stmt X) (k : Res X -> OProg A) : (forall r, leaves (snd (f b)) (k r) Q) -> (forall r, leaves b (k r) Q) -> leaves b (sql f ≫= k) Q.
Proof.
  intros H1 H2 s a s' Hb (r & s1 & (b1 & Hsem & ->) & Hr)%runs_call_bind. rewrite Hb in Hsem. apply db_sem_exec in Hsem as [E | [_ [-> | ->]]]; [| by apply (H2 r) in Hr | by apply (H1 r) in Hr].
  apply (H1 r) in Hr; [done |]. simpl. by rewrite <- E.
Qed.
End Alone.
Lemma still_ask {A} (p : Prog A) : only still (ask p).
Proof. unfold ask. apply (only_lift _ (fun X (_ : acc_op X) => True)); [done |]. induction p; simpl; auto. Qed.
Lemma still_auth c r a : only still (auth c r a).
Proof. unfold auth. apply only_bind; [apply still_ask | intros; exact I]. Qed.
Section Handlers.
Context (org : uuid).
Abbreviation sound_after b p := (leaves b p (piped org)).
Lemma leaves_id {A} b (k : uuid -> OProg A) Q : (forall id, id <> nil_uuid -> leaves b (k id) Q) -> leaves b (call OID ≫= k) Q.
Proof. intros H s a s' Hb (id & s1 & [Hid ->] & Hr)%runs_call_bind. by apply (H id Hid s a). Qed.
Lemma leaves_ids {A} b (k : (nat -> uuid) -> OProg A) Q : (forall ids, (forall i, ids i <> nil_uuid) -> leaves b (k ids) Q) -> leaves b (call OIDs ≫= k) Q.
Proof. intros H s a s' Hb (id & s1 & [Hid ->] & Hr)%runs_call_bind. by apply (H id Hid s a). Qed.
Lemma piped_seed b l : Forall (fun s => sg_OrganizationID s <> org /\ sg_ID s <> nil_uuid) l -> piped org b -> piped org (snd (insert_stages_quietly l b)).
Proof.
  unfold insert_stages_quietly. simpl. intros Hl. revert b. induction Hl as [| s l [Ho Hn] Hl IH]; intros b Hb; [by destruct Hb |]. cbn [foldl].
  change (piped org (set_stages (fun x => foldl add_stage x l) (set_stages (fun x => add_stage x s) b))). apply IH. unfold add_stage.
  destruct (existsb (stage_conflict s) (stages_of b)) eqn:E.
  - replace (set_stages _ b) with b; [done |]. destruct b as [[] ? ?]. unfold set_stages, set_cat. simpl in *. by rewrite E.
  - replace (set_stages _ b) with (set_stages (fun l => l ++ [stored_stage s]) b) by (unfold set_stages, set_cat; simpl; by rewrite E). destruct Hb as [H1 H2]. split; [apply append_ids; [done | done |]; intros x Hx; apply conflict_id; by eapply existsb_not |].
    rewrite append_pipeline. unfold in_pipeline. simpl. apply N.eqb_neq in Ho. rewrite Ho. simpl. by rewrite app_nil_r.
Qed.
Lemma count_stages_of b : sound (pipeline org b) -> 0 < sql_count (in_pipeline org) (stages_of b).
Proof. intros H. apply sql_count_pos. destruct (proj1 (sql_count_pos _ _) (so_closing _ H)) as (s & [Hs Hp]%pipeline_in & _). by exists s. Qed.
Lemma sound_seeding orgR b : piped org b -> sound_after b (ensureDefaultStages orgR).
Proof.
  intros Hb. unfold ensureDefaultStages, count_stages. intros s a s' Es (r & s1 & (b1 & Hsem & ->) & Hr)%runs_call_bind. rewrite Es in Hsem.
  assert (Hsame : b1 = b) by by (apply db_sem_exec in Hsem as [[= _ ->] | [_ [-> | ->]]]). subst b1. destruct r as [n | e]; [| by destruct Hr as [_ ->]]. destruct (0 <? n) eqn:En; [by destruct Hr as [_ ->] |].
  revert Hr. apply (leaves_ids b); [| done]. intros ids Hids. eapply (leaves_sql b _ _ mret); intros r; apply leaves_still; try exact I; [| done]. apply piped_seed; [| done].
  assert (Hne : orgR <> org).
  { intros ->. apply exec_ok_sem in Hsem. injection Hsem as Hn. pose proof (count_stages_of b (proj2 Hb)). lia. }
  unfold defaultStages. repeat constructor; simpl; auto.
Qed.
Lemma sound_closing b orgR id failure (k : unit -> OProg oc_reply) : piped org b ->
  ((exists x, x ∈ pipeline orgR b /\ sg_IsClosing x = true /\ sg_ID x <> id) -> sound_after b (k tt)) -> sound_after b (answering (keep_a_closing orgR id failure) k).
Proof.
  intros Hb Hk s a s' Es (r & s1 & Hx & Hr)%runs_bind. unfold keep_a_closing, hasOtherClosingStage, count_stages in Hx. apply runs_bind in Hx as (r2 & s2 & Hx & Hx').
  apply runs_call_bind in Hx as (n & s3 & (b1 & Hsem & ->) & [Hn ->]). destruct Hx' as [<- ->]. rewrite Es in Hsem. assert (Hsame : b1 = b) by by (apply db_sem_exec in Hsem as [[= _ ->] | [_ [-> | ->]]]). subst b1.
  destruct n as [n | e]; subst r2; [| by destruct Hr as [_ ->]]. apply exec_ok_sem in Hsem. injection Hsem as Hn. destruct (0 <? n) eqn:En; [| by destruct Hr as [_ ->]].
  apply Hk in Hr; [done | | done]. assert (Hpos : 0 < n) by lia. rewrite <- Hn in Hpos. apply sql_count_pos in Hpos as (x & Hx & [[Hp Hc]%andb_true_iff Hne%negb_true_iff%N.eqb_neq]%andb_true_iff). exists x.
  split_and!; [by apply pipeline_in | done | done].
Qed.
Lemma found_stage b id orgR st : found (sql_first (fun s => is_stage id s && N.eqb (sg_OrganizationID s) orgR) (stages_of b)) = Ok st -> st ∈ stages_of b /\ sg_Deleted st = false /\ sg_ID st = id /\ sg_OrganizationID st = orgR.
Proof.
  unfold found, sql_first. destruct (List.find _ _) eqn:E; [| done]. intros [= ->]. apply find_some in E as [Hin%list_elem_of_In [[E1%N.eqb_eq E2%negb_true_iff]%andb_true_iff E3%N.eqb_eq]%andb_true_iff]. by split_and!.
Qed.
Lemma sound_list b c : piped org b -> sound_after b (ListOccurrenceStages c).
Proof.
  intros Hb. unfold ListOccurrenceStages. apply leaves_still_answering; [done | apply still_auth |]. intros [orgR u] s a s' Es (r & s1 & Hx & Hr)%runs_bind. apply (sound_seeding orgR b Hb) in Hx; [| done].
  assert (He : only still (match r with Err _ => mret (ORefused 500 "Failed to load stages") | Ok _ => answering (sql_or (select (fun b => Ok (List.filter (in_pipeline orgR) (stages_of b)))) 500 "Failed to load stages") (fun l => mret (OStages (by_position sg_Position l))) end)).
  { destruct r; [| exact I]. unfold answering, sql_or. split; [done |]. intros [x | e]; exact I. }
  by apply runs_still in Hr as ->.
Qed.
Lemma sound_unique {A} b (r : Res A) f k : piped org b -> (forall a, only still (k a)) -> sound_after b (unique_name r f k).
Proof. intros Hb Hk. apply leaves_still; [done |]. unfold unique_name. destruct r as [a | []]; [apply Hk | exact I..]. Qed.
Lemma sound_create b c body : piped org b -> sound_after b (CreateOccurrenceStage c body).
Proof.
  intros Hb. unfold CreateOccurrenceStage. apply leaves_still_answering; [done | apply still_auth |]. intros [orgR u]. apply leaves_still_answering; [done | exact I |]. intros req.
  apply leaves_require; [done |]. intros _. apply leaves_require; [done |]. intros Hboth. apply leaves_id. intros id Hid. apply leaves_tx; [| intros r; by apply sound_unique].
  intros [] b' r Hsem. apply sound_unique; [| done]. set (stage := MkStage _ _ _ _ _ _ _ _) in *.
  assert (Hins : insert_stage stage (if sq_IsInitial req then unset_in (sg_OrganizationID stage) nil_uuid b else b) = (Ok tt, b')).
  { destruct (sq_IsInitial req) eqn:Ei.
    - unfold unsetOtherInitial in Hsem. apply db_sem_try in Hsem as [(e & _ & ?) | ([] & b1 & H1%exec_ok_sem & H2%exec_ok_sem)]; [done |]. injection H1 as <-. exact H2.
    - apply db_sem_try in Hsem as [(e & _ & ?) | ([] & b1 & [_ ->]%db_sem_ret & H2%exec_ok_sem)]; [done |]. exact H2. }
  apply (piped_create org nil_uuid b b' stage (sq_IsInitial req)); try done. unfold never_both. simpl. intros E. rewrite E in Hboth. by destruct (sq_IsClosing req).
Qed.
Lemma sound_update b c id body : piped org b -> sound_after b (UpdateOccurrenceStage c id body).
Proof.
  intros Hb. unfold UpdateOccurrenceStage. apply leaves_still_answering; [done | apply still_auth |]. intros [orgR u]. apply leaves_still_answering; [done | exact I |]. intros i.
  apply leaves_read; [done |]. intros st (Hst & Hlive & <- & <-)%found_stage. apply leaves_still_answering; [done | exact I |]. intros req.
  apply leaves_require; [done |]. intros _. apply leaves_require; [done |]. intros Hboth%negb_true_iff. apply leaves_require; [done |]. intros Hini%negb_true_iff.
  assert (Htx : (sg_IsClosing st && negb (sq_IsClosing req) = true -> exists x, x ∈ pipeline (sg_OrganizationID st) b /\ sg_IsClosing x = true /\ sg_ID x <> sg_ID st) -> forall k : Res unit -> OProg oc_reply, (forall r, only still (k r)) ->
    sound_after b (tx (_ ←? (if sq_IsInitial req then unsetOtherInitial (sg_OrganizationID st) (sg_ID st) else mret (Ok tt)); exec (update_stage (sg_ID st) (edit_stage req))) ≫= k)).
  { intros Hclo k Hk. apply leaves_tx; [| intros r; by apply leaves_still]. intros [] b' r Hsem. apply leaves_still; [| apply Hk]. apply (piped_update org b b' st req); try done.
    destruct (sq_IsInitial req) eqn:Ei.
    - unfold unsetOtherInitial in Hsem. apply db_sem_try in Hsem as [(e & _ & ?) | ([] & b1 & H1%exec_ok_sem & H2%exec_ok_sem)]; [done |]. injection H1 as <-. exact H2.
    - apply db_sem_try in Hsem as [(e & _ & ?) | ([] & b1 & [_ ->]%db_sem_ret & H2%exec_ok_sem)]; [done |]. exact H2. }
  assert (Hend : forall r : Res unit, only still (unique_name r "Failed to update stage" (fun _ => mret (OStage (edit_stage req st))))) by by intros [a | []].
  destruct (sg_IsClosing st && negb (sq_IsClosing req)) eqn:Ec.
  - apply sound_closing; [done |]. intros Hx. by apply Htx.
  - apply leaves_value; [done |]. intros [] _. by apply Htx.
Qed.
Lemma sound_delete b c id : piped org b -> sound_after b (DeleteOccurrenceStage c id).
Proof.
  intros Hb. unfold DeleteOccurrenceStage. apply leaves_still_answering; [done | apply still_auth |]. intros [orgR u]. apply leaves_still_answering; [done | exact I |]. intros i.
  apply leaves_read; [done |]. intros st (Hst & Hlive & <- & <-)%found_stage. apply leaves_read; [done |]. intros n _. apply leaves_require; [done |]. intros _. apply leaves_require; [done |]. intros Hini%negb_true_iff.
  assert (Hdel : (sg_IsClosing st = true -> exists x, x ∈ pipeline (sg_OrganizationID st) b /\ sg_IsClosing x = true /\ sg_ID x <> sg_ID st) ->
    sound_after b (answering (sql_or (update_where set_stages (is_stage (sg_ID st)) deleted_stage) 500 "Failed to delete stage") (fun _ => mret ODeleted))).
  { intros Hclo s a s' Es (r & s1 & Hx & Hr)%runs_bind. assert (Hb1 : piped org (os_base s1)).
    { revert Hx. apply (leaves_sql b); [| | done]; intros x; apply leaves_still; try exact I; [by apply piped_delete | done]. }
    by destruct r; destruct Hr as [_ ->]. }
  destruct (sg_IsClosing st) eqn:Ec; [apply sound_closing; [done |]; intros Hx; by apply Hdel | apply leaves_value; [done |]; intros [] _; by apply Hdel].
Qed.
End Handlers.
(** The requests on the stages, in any order, each running alone. *)
Inductive stage_request (c : Ctx) : OProg oc_reply -> Prop :=
  | sr_list : stage_request c (ListOccurrenceStages c)
  | sr_create body : stage_request c (CreateOccurrenceStage c body)
  | sr_update id body : stage_request c (UpdateOccurrenceStage c id body)
  | sr_delete id : stage_request c (DeleteOccurrenceStage c id).
Definition stage_run (s s' : OState) : Prop := exists c p r, stage_request c p /\ runs oc_sem p s r s'.
(** A pipeline stays sound.  Requests on the stages of any organizations, one after the other,
    whatever fails in them, leave the sound pipeline of an organization sound: names that differ,
    exactly one initial stage, at least one closing stage, none that is both; so the stage new cases
    start in is always found. *)
Theorem pipeline_stays_sound org s s' : stage_ids (os_base s) -> sound (pipeline org (os_base s)) -> rtc stage_run s s' ->
  sound (pipeline org (os_base s')) /\ exists st, st ∈ pipeline org (os_base s') /\ sg_IsInitial st = true /\ first_initial org (os_base s') = (Ok st, os_base s').
Proof.
  intros Hids Hso H. assert (Hp : piped org (os_base s')).
  { assert (Hp : piped org (os_base s)) by by split. clear Hids Hso. induction H as [s | s1 s2 s3 (c & p & r & Hreq & Hr) _ IH]; [done |]. apply IH.
    destruct Hreq; [by eapply (sound_list org _ c Hp) | by eapply (sound_create org _ c body Hp) | by eapply (sound_update org _ c id body Hp) | by eapply (sound_delete org _ c id Hp)]. }
  destruct Hp as [_ Hp]. split; [done |]. unfold first_initial, select. destruct (sql_min stage_order _) as [st |] eqn:E.
  - exists st. pose proof (sql_min_in _ _ _ E) as Hin. apply list_elem_of_In, filter_In in Hin as [Hin [H1 H2]%andb_true_iff]. split_and!; [apply pipeline_in; split; [by apply list_elem_of_In | done] | done | done].
  - exfalso. apply sql_min_none in E. assert (Hpos : 0 < sql_count sg_IsInitial (pipeline org (os_base s'))) by (rewrite (so_initial _ Hp); lia). apply sql_count_pos in Hpos as (x & [Hx Hpx]%pipeline_in & Hi).
    assert (Hin : x ∈ List.filter (fun s => in_pipeline org s && sg_IsInitial s) (stages_of (os_base s'))) by (apply list_elem_of_In, filter_In; split; [by apply list_elem_of_In | by rewrite Hpx]).
    rewrite E in Hin. by apply not_elem_of_nil in Hin.
Qed.
