(* ===== verification/OccurrenceRuns.v ===== *)
(** Concrete runs of occurrences: the witnesses of the files before, and what goes wrong in runs
    where nothing fails. *)
From S2P Require Import Prelude Effects Sql GoText GoAny Visibility Permissions Accounts Migration Access AccountsApi Tenancy Occurrences OccurrenceCatalogue OccurrenceTexts OccurrenceApi OccurrenceWarrants OccurrenceGate OccurrenceRules OccurrenceProtocols OccurrenceHome OccurrenceStages OccurrencePipeline.
From Stdlib Require Import Ascii.

(** * Operations that compute *)
Definition all_ids (b : OBase) : list uuid := map sg_ID (stages_of b) ++ map o_ID (occurrences_of b) ++ map ev_ID (events_of b) ++ map dc_ID (documents_of b) ++ map cg_ID (categories_of b) ++ map po_ID (policies_of b).
Definition next_id (b : OBase) : uuid := (1 + foldr N.max 0 (all_ids b))%N.
Lemma next_id_nonnil b n : (next_id b + n)%N <> nil_uuid.
Proof. unfold next_id, nil_uuid. lia. Qed.
Definition oc_handle X (op : oc_op X) : OState -> X * OState :=
  match op in oc_op X return OState -> X * OState with
  | OAsk op => fun s => let '(x, a) := acc_handle nobody _ op (os_acc s) in (x, MkOState a (os_base s) (os_files s) (os_sent s) (os_vis s))
  | ODo f => fun s => (fst (f (os_base s)), with_base (snd (f (os_base s))) s)
  | OTx body => fun s => let '(x, w) := transaction body (World (os_base s) []) in (x, with_base (w_data w) s)
  | OID => fun s => (next_id (os_base s), s)
  | OIDs => fun s => (fun i => (next_id (os_base s) + N.of_nat i)%N, s)
  | ONow => fun s => (hour, s)
  | OYear => fun s => (2026, s)
  | OMay interact user org c => fun s => ((if interact then canInteractWithConversation else canViewConversation) (os_vis s) None (Some (MkPerms true [])) user org (as_contact c), s)
  | OScope user org => fun s => (fun c => scopeVisibleConversations (os_vis s) None (Some (MkPerms true [])) user org (as_contact c), s)
  | OUserName _ => fun s => ("Ana", s)
  | OUnitName _ => fun s => ("Centro", s)
  | OSend m => fun s => (true, MkOState (os_acc s) (os_base s) (os_files s) (os_sent s ++ [m]) (os_vis s))
  | OBroadcast _ _ _ _ => fun s => (tt, s)
  | OAudit _ _ _ _ _ => fun s => (tt, s)
  | OMakeDir => fun s => (true, s)
  | OWriteFile path data => fun s => (true, with_files (<[path := data]> (os_files s)) s)
  | ORemoveFile path => fun s => (tt, with_files (delete path (os_files s)) s)
  | OReadFile path => fun s => (os_files s !! path, s)
  end.
Lemma oc_handle_sem X (op : oc_op X) s : oc_sem X op s (fst (oc_handle X op s)) (snd (oc_handle X op s)).
Proof.
  destruct op; simpl; try done; auto.
  - pose proof (acc_handle_sem nobody _ op (os_acc s)) as H. destruct (acc_handle nobody _ op (os_acc s)) as [x a]. by exists a.
  - exists (snd (f (os_base s))). split; [| done]. apply db_sem_exec. left. by destruct (f (os_base s)).
  - destruct (transaction body (World (os_base s) [])) as [x [d fs]] eqn:E. exists d. split; [by exists [], fs | done].
  - split; [| done]. pose proof (next_id_nonnil (os_base s) 0). by rewrite N.add_0_r in H.
  - split; [| done]. intros i. apply next_id_nonnil.
  - split; [done |]. by exists None, (Some (MkPerms true [])).
  - split; [done |]. by exists None, (Some (MkPerms true [])).
Qed.
Abbreviation run p s := (prog_run oc_handle p s).
(** A run that checks, at each step, that no case takes the id of one there was. *)
Definition new_ids_fresh (s s' : Remembering) : bool :=
  forallb (fun o => existsb (N.eqb (o_ID o)) (map o_ID (occurrences_of (os_base (fst s)))) || negb (existsb (N.eqb (o_ID o)) (snd s))) (occurrences_of (os_base (fst s'))).
Fixpoint remembering_run {A} (p : OProg A) (s : Remembering) : option (A * Remembering) :=
  match p with
  | Ret a => Some (a, s)
  | Do op k => let '(x, s1) := oc_handle _ op (fst s) in let s' := (s1, snd s ++ map o_ID (occurrences_of (os_base s1))) in
               if new_ids_fresh s s' then remembering_run (k x) s' else None
  end.
Lemma existsb_id i l : existsb (N.eqb i) l = true <-> i ∈ l.
Proof. rewrite existsb_exists, list_elem_of_In. split; [intros (x & Hx & E%N.eqb_eq); by subst | intros H; exists i; split; [done | by apply N.eqb_eq]]. Qed.
Lemma fresh_ids s s' : new_ids_fresh s s' = true -> forall o, o ∈ occurrences_of (os_base (fst s')) -> o_ID o ∈ map o_ID (occurrences_of (os_base (fst s))) \/ o_ID o ∉ snd s.
Proof.
  unfold new_ids_fresh. rewrite forallb_forall. intros H o Ho%list_elem_of_In. specialize (H o Ho). cbv beta in H. apply orb_true_iff in H as [H | H]; [left; by apply existsb_id | right].
  intros Hin%existsb_id. by rewrite Hin in H.
Qed.
Lemma remembering_run_steps {A} (p : OProg A) s a s' : remembering_run p s = Some (a, s') -> pool_steps remembering_sem (s, [p]) (s', [Ret a]).
Proof.
  revert s. induction p as [b | X op k IH]; intros s H; simpl in H; [injection H as -> ->; constructor |].
  pose proof (oc_handle_sem X op (fst s)) as Hs. destruct (oc_handle X op (fst s)) as [x s1]. destruct (new_ids_fresh _ _) eqn:E; [| done].
  eapply rtc_l; [| by apply (IH x)]. apply (step_op remembering_sem s [] X op k [] x). split; [exact Hs | split; [done | by apply fresh_ids]].
Qed.

(** * A shop with a customer *)
Definition number (s : string) : option uuid := Z.to_N <$> atoi s.
Definition no_text (a b : string) : bool := true.
Definition no_date (org : uuid) (s : string) : option instant := None.
Definition no_time (s : string) : option instant := None.
Definition pdf (s : string) : string := "application/pdf".
Definition digits (id : uuid) : string := itoa (Z.of_N id).
(** The administrator 21 is a super admin. *)
Definition headquarters : State :=
  with_acc (MkAccounts (ac_orgs (st_acc office)) (ac_roles (st_acc office)) (ac_permissions (st_acc office)) (ac_links (st_acc office))
                       [staff 21 11 "boss@office" true; staff 22 12 "seller@office" false] (ac_members (st_acc office)) []) office.
Definition boss : Ctx := as_user 21.
Definition nothing_configured : Catalogue := MkCatalogue [] [] [] [] [] [].
Definition customers : Around := MkAround [MkOContact 50 1 "Bia" "main" (Some 0) None None false] [] [] [MkOAccount 1 "main" false].
Definition shop : OState := MkOState headquarters (MkOBase nothing_configured (MkCases [] [] [] []) customers) ∅ [] (MkVisDb [] [] []).
Definition complaint (invoice : string) : CreateOccurrenceRequest :=
  MkCreateRequest "50" "Defeito" "" "" None None None None None None None "" invoice "" "" None [].
Abbreviation open invoice := (CreateOccurrence number no_date boss (Some (complaint invoice))).
Abbreviation to_stage case_ stage := (ChangeOccurrenceStage number boss (Some case_) (Some stage)).
Abbreviation any_request := (request number number no_text no_date no_time pdf digits).
Definition opened : OState := snd (run (open "") shop).
(** Cases as protocol, stage, and whether closed. *)
Definition cases_seen (s : OState) : list (string * uuid * bool) := map (fun o => (o_ProtocolNumber o, o_StageID o, bool_decide (is_Some (o_ClosedAt o)))) (occurrences_of (os_base s)).
Example opened_case : cases_seen opened = [("2026-000001", 1%N, false)] /\ map ev_Type (events_of (os_base opened)) = ["opened"].
Proof. vm_compute. done. Qed.
Definition the_case : uuid := 9.
Example case_closed : map o_ID (occurrences_of (os_base opened)) = [the_case] /\ cases_seen (snd (run (to_stage the_case "4") opened)) = [("2026-000001", 4%N, true)].
Proof. vm_compute. done. Qed.
(** One of several goroutines runs to its end while the others wait. *)
Lemma run_in_pool {A} (p : OProg A) s a s' pre post : prog_run oc_handle p s = (a, s') -> pool_steps oc_sem (s, pre ++ p :: post) (s', pre ++ Ret a :: post).
Proof.
  revert s. induction p as [b | X op k IH]; intros s H; simpl in H; [injection H as -> ->; constructor |].
  pose proof (oc_handle_sem X op s) as Hs. destruct (oc_handle X op s) as [x s1]. eapply rtc_l; [by apply (step_op oc_sem s pre X op k post x s1) | by apply (IH x)].
Qed.
Lemma run_pair_in_pool {A} (p : OProg A) s pre post : pool_steps oc_sem (s, pre ++ p :: post) (snd (run p s), pre ++ Ret (fst (run p s)) :: post).
Proof. apply run_in_pool, surjective_pairing. Qed.

(** * Witnesses *)
Theorem case_changes_authorized_witness :
  any_request false boss (open "") /\ ensures (warranted false (cx_UserID boss)) (trace_contract answerable) (open "") [] (fun _ _ => True).
Proof.
  assert (H : any_request false boss (open "")) by by apply rq_case, cr_create. split; [exact H |].
  apply (case_changes_authorized number number no_text no_date no_time pdf digits false boss (open "") H).
Defined.
Definition opened_again : OState := snd (run (open "") opened).
Example opened_twice : cases_seen opened_again = [("2026-000001", 1%N, false); ("2026-000002", 1%N, false)].
Proof. vm_compute. done. Qed.
(** A deleted case takes its number with it. *)
Example number_not_reused : cases_seen (snd (run (open "") (snd (run (DeleteOccurrence boss (Some the_case)) opened)))) = [("2026-000002", 1%N, false)].
Proof. vm_compute. done. Qed.
Lemma no_cases o : o ∈ occurrences_of (os_base shop) -> False.
Proof. apply not_elem_of_nil. Qed.
Lemma shop_numbered : numbered_state shop.
Proof. constructor; [intros; vm_compute; split; discriminate | intros; exfalso; eapply no_cases; eassumption..]. Qed.
Definition first_case (s : OState) : Occurrence := default (with_protocol "" (MkOccurrence 0 0 0 "" "" "" 0 "" None 0 0 None None (MkLabels None None None None) None "" (MkSale "" "" None "") (MkSLA None None None None))) (head (occurrences_of (os_base s))).
Theorem protocols_never_reissued_witness :
  o_ProtocolNumber (first_case opened) = "2026-000001" /\ o_ProtocolNumber (first_case opened_again) = "2026-000001" /\ o_ID (first_case opened) = o_ID (first_case opened_again).
Proof.
  split; [vm_compute; reflexivity |]. split; [vm_compute; reflexivity |].
  apply (protocols_never_reissued number number no_text no_date no_time pdf digits shop [open ""; open ""] (opened, [Ret (fst (run (open "") shop)); open ""])
           (opened_again, [Ret (fst (run (open "") shop)); Ret (fst (run (open "") opened))])).
  - apply shop_numbered.
  - repeat constructor; exists boss; by apply rq_case, cr_create.
  - apply (run_pair_in_pool (open "") shop [] [open ""]).
  - apply (run_pair_in_pool (open "") opened [Ret (fst (run (open "") shop))] []).
  - vm_compute. by left.
  - vm_compute. by left.
  - vm_compute. reflexivity.
  - vm_compute. reflexivity.
Defined.
Definition opened_remembering : Remembering := match remembering_run (open "") (shop, []) with Some (_, s) => s | None => (shop, []) end.
Lemma shop_homely : homely (shop, []).
Proof. constructor; intros; exfalso; eapply no_cases; eassumption. Qed.
Theorem occurrence_references_stay_home_witness :
  o_AssignedUserID (first_case (fst opened_remembering)) = Some 21%N /\ at_home (fst opened_remembering) (first_case (fst opened_remembering)).
Proof.
  split; [vm_compute; reflexivity |].
  apply (occurrence_references_stay_home number number no_text no_date no_time pdf digits shop [] [open ""] (opened_remembering, [Ret (fst (run (open "") shop))])).
  - apply shop_homely.
  - repeat constructor. exists boss. by apply rq_case, cr_create.
  - apply remembering_run_steps. vm_compute. reflexivity.
  - vm_compute. by left.
Defined.
Definition closed : OState := snd (run (to_stage the_case "4") opened).
Lemma shop_settled : settled shop.
Proof. constructor; [split; constructor | intros o []%no_cases]. Qed.
Theorem closed_iff_in_closing_stage_witness :
  is_Some (o_ClosedAt (first_case closed)) /\ exists st, st ∈ stages_of (os_base closed) /\ sg_ID st = o_StageID (first_case closed) /\ (is_Some (o_ClosedAt (first_case closed)) <-> sg_IsClosing st = true) /\
    forall st', st' ∈ stages_of (os_base closed) -> sg_ID st' = o_StageID (first_case closed) -> st' = st.
Proof.
  split; [vm_compute; by eexists |].
  apply (closed_iff_in_closing_stage number number no_text no_date no_time pdf digits shop [open ""; to_stage the_case "4"] (closed, [Ret (fst (run (open "") shop)); Ret (fst (run (to_stage the_case "4") opened))])).
  - apply shop_settled.
  - repeat constructor; exists boss; apply rq_case; [apply cr_create | apply cr_stage].
  - etrans; [apply (run_pair_in_pool (open "") shop [] [to_stage the_case "4"]) | apply (run_pair_in_pool (to_stage the_case "4") opened [Ret (fst (run (open "") shop))] [])].
  - vm_compute. by left.
Defined.
(** A new initial stage takes the place of the one there was. *)
Definition triage : OccurrenceStageRequest := MkStageRequest "Triagem" "" 9 true false.
Abbreviation add_stage_request req := (CreateOccurrenceStage boss (Some req)).
Definition triaged : OState := snd (run (add_stage_request triage) opened).
Theorem pipeline_stays_sound_witness :
  map (fun s => (sg_Name s, sg_IsInitial s)) (pipeline 1 (os_base triaged)) = [("Aberto", false); ("Em análise", false); ("Aguardando cliente", false); ("Resolvido", false); ("Triagem", true)] /\
  sound (pipeline 1 (os_base triaged)) /\ exists st, st ∈ pipeline 1 (os_base triaged) /\ sg_IsInitial st = true /\ first_initial 1 (os_base triaged) = (Ok st, os_base triaged).
Proof.
  split; [vm_compute; reflexivity |]. apply (pipeline_stays_sound 1 opened triaged).
  - apply (bool_decide_unpack _). vm_compute. exact I.
  - constructor; [apply (bool_decide_unpack _); vm_compute; exact I | vm_compute; reflexivity | vm_compute; reflexivity |].
    apply Forall_forall. intros s Hs. assert (Hb : forallb (fun s => negb (sg_IsInitial s && sg_IsClosing s)) (pipeline 1 (os_base opened)) = true) by (vm_compute; reflexivity).
    rewrite forallb_forall in Hb. apply list_elem_of_In, Hb in Hs. unfold never_both. by destruct (sg_IsInitial s), (sg_IsClosing s).
  - apply rtc_once. exists boss, (add_stage_request triage), (fst (run (add_stage_request triage) opened)). split; [apply sr_create |]. apply (prog_run_runs oc_sem oc_handle). apply oc_handle_sem.
Defined.

(** * What goes wrong *)
(** The stage of a closed case, edited, is not closing any more: the case stays closed in an open
    stage. *)
Definition solved : OccurrenceStageRequest := MkStageRequest "Encerrado" "" 10 false true.
Abbreviation edit_stage_request id req := (UpdateOccurrenceStage boss (Some id) (Some req)).
Lemma edited_stage_leaves_case_closed :
  exists s, s = snd (run (edit_stage_request 4%N (MkStageRequest "Resolvido" "" 3 false false)) (snd (run (add_stage_request solved) closed))) /\
    cases_seen s = [("2026-000001", 4%N, true)] /\ exists st, st ∈ stages_of (os_base s) /\ sg_ID st = 4%N /\ sg_IsClosing st = false.
Proof. eexists. split; [reflexivity |]. split; [vm_compute; reflexivity |]. eexists. split; [vm_compute; do 3 apply list_elem_of_further; left | vm_compute; done]. Qed.
(** A pipeline whose first request is the creation of a stage never gets the default ones: no case
    can be opened. *)
Lemma first_stage_by_hand_stops_cases :
  let s := snd (run (add_stage_request (MkStageRequest "Triagem" "" 0 false false)) shop) in
  map sg_Name (pipeline 1 (os_base s)) = ["Triagem"] /\ fst (run (open "") s) = ORefused 500 "Failed to resolve initial stage".
Proof. vm_compute. done. Qed.
(** A transfer names a team of another organization (a flow is configured with any id): the case
    opened from it is given that organization's unit. *)
Definition foreign_team : OState :=
  MkOState headquarters (MkOBase nothing_configured (MkCases [] [] [] [])
    (MkAround (ar_contacts customers) [MkOTransfer 70 1 (Some 60%N) false] [MkOTeam 60 2 (Some 99%N) None false] (ar_accounts customers))) ∅ [] (MkVisDb [] [] []).
Definition from_transfer : CreateOccurrenceRequest := MkCreateRequest "50" "Defeito" "" "" None (Some "70") None None None None None "" "" "" "" None [].
Lemma foreign_unit_labels_case :
  map (fun o => (o_OrganizationID o, lb_UnitID (o_Labels o))) (occurrences_of (os_base (snd (run (CreateOccurrence number no_date boss (Some from_transfer)) foreign_team)))) = [(1%N, Some 99%N)].
Proof. vm_compute. done. Qed.
(** The number typed when a case was opened goes with a document that bears it. *)
Definition typed_case : OState := snd (run (open "123") shop).
Definition receipt : OccurrenceDocumentRequest := MkDocumentRequest "nf" "123" "" [].
Definition with_receipt : OState := snd (run (CreateOccurrenceDocument no_date boss (Some the_case) (Some receipt)) typed_case).
Definition invoices (s : OState) : list string := map (fun o => sa_InvoiceNumber (o_Sale o)) (occurrences_of (os_base s)).
Lemma typed_invoice_removed :
  invoices typed_case = ["123"] /\ invoices with_receipt = ["123"] /\
  invoices (snd (run (DeleteOccurrenceDocument boss (Some the_case) (dc_ID <$> head (documents_of (os_base with_receipt)))) with_receipt)) = [""].
Proof. vm_compute. done. Qed.
