(* ===== verification/Sales.v ===== *)
(** Sales opportunities, the funnel of a contact ([internal/models/sales_opportunity.go],
    [sales_opportunity_xprocess_link.go]): the tables, the statements on them, and the operations
    of the goroutines that work on them. *)
From S2P Require Import Prelude Effects Sql GoText GoAny Visibility Permissions Accounts AccountsApi.
From Stdlib Require Import SpecFloat.

(** * Tables *)
Inductive SalesOpportunityStage := Potencial | AbrirOrcamento | Direcionada.
Inductive SalesOpportunityStatus := Aberta | Convertida | Perdida | Cancelada.
Inductive SalesDirecionamento := Visita | ByWhatsApp.
Inductive SalesConversionSource := ConversionManual | ConversionXProcess.
Inductive SalesOpportunityEventType := SaleOpened | SaleStageChanged | SaleDirecionamentoChanged | SaleConverted | SaleLost | SaleCancelled | SaleRetriggered | SaleXProcessLinked.
Inductive SalesOpportunityEventSource := SourceManual | SourceXProcess | SourceSystem.
#[global] Instance stage_eq_dec : EqDecision SalesOpportunityStage.
Proof. solve_decision. Defined.
#[global] Instance status_eq_dec : EqDecision SalesOpportunityStatus.
Proof. solve_decision. Defined.
#[global] Instance direcionamento_eq_dec : EqDecision SalesDirecionamento.
Proof. solve_decision. Defined.
#[global] Instance sale_event_eq_dec : EqDecision SalesOpportunityEventType.
Proof. solve_decision. Defined.
Definition stage_name (s : SalesOpportunityStage) : string := match s with Potencial => "potencial" | AbrirOrcamento => "abrir_orcamento" | Direcionada => "direcionada" end.
Definition status_name (s : SalesOpportunityStatus) : string := match s with Aberta => "aberta" | Convertida => "convertida" | Perdida => "perdida" | Cancelada => "cancelada" end.
Definition direcionamento_name (d : SalesDirecionamento) : string := match d with Visita => "visita" | ByWhatsApp => "whatsapp" end.
Definition ValidSalesLossReasons : list string := ["cliente_desistiu"; "preco"; "prazo"; "indisponibilidade"; "comprou_concorrente"; "sem_retorno"; "problema_comercial"; "outro"].
Definition SalesUnitsOfMeasure : list string := ["UN"; "M"; "M2"; "KG"; "PCT"; "CX"].
Definition IsValid (u : string) : bool := existsb (String.eqb u) SalesUnitsOfMeasure.

(** An opportunity in parts: what it is from its opening on, where it is in the funnel, what is
    expected of it and what came of it, the X2 order it points to, and how it ended. Quantities
    are [numeric(14,3)]: thousandths. *)
Record Origin := MkOrigin { so_ID : uuid; so_OrganizationID : uuid; so_OpportunityNumber : string; so_ContactID : uuid; so_SourceTransferID : option uuid; so_OpenedAt : instant }.
Record Funnel := MkFunnel {
  fu_Stage : SalesOpportunityStage; fu_StageChangedAt : instant; fu_Direcionamento : option SalesDirecionamento; fu_SLABreached : bool; fu_SLABreachedAt : option instant }.
Record Expected := MkExpected { ex_Interest : string; ex_EstimatedValue : option spec_float; ex_EstimatedQuantity : option Z; ex_UnitOfMeasure : option string }.
Record Realized := MkRealized { re_RealizedValue : option spec_float; re_RealizedQuantity : option Z }.
Record Pointer := MkPointer { px_NumPedido : option string; px_Documento : option string }.
Record Outcome := MkOutcome {
  ou_Status : SalesOpportunityStatus; ou_ConversionSource : option SalesConversionSource; ou_LossReason : option string; ou_LossNotes : string;
  ou_ConvertedAt : option instant; ou_LostAt : option instant; ou_CancelledAt : option instant }.
Record SalesOpportunity := MkOpp {
  so_origin : Origin; so_AssignedUserID : option uuid; so_funnel : Funnel; so_expected : Expected; so_realized : Realized; so_pointer : Pointer; so_outcome : Outcome }.
Abbreviation opp_ID o := (so_ID (so_origin o)).
Abbreviation opp_org o := (so_OrganizationID (so_origin o)).
Abbreviation opp_number o := (so_OpportunityNumber (so_origin o)).
Abbreviation opp_contact o := (so_ContactID (so_origin o)).
Abbreviation opp_status o := (ou_Status (so_outcome o)).
Abbreviation opp_stage o := (fu_Stage (so_funnel o)).
Record SalesOpportunityEvent := MkSaleEvent {
  sv_ID : uuid; sv_OrganizationID : uuid; sv_SalesOpportunityID : uuid; sv_Type : SalesOpportunityEventType;
  sv_FromStage : option SalesOpportunityStage; sv_ToStage : option SalesOpportunityStage; sv_Source : SalesOpportunityEventSource; sv_CreatedByID : option uuid; sv_CreatedAt : instant }.
Record SalesOpportunityCounter := MkSaleCounter { sc_OrganizationID : uuid; sc_Day : string; sc_LastSeq : Z }.
(** One line of an X2 order ([pkg/xprocess]). *)
Record PedidoItem := MkPedidoItem {
  pi_CodEmpresa : string; pi_NumPedido : string; pi_CodCliente : string; pi_CodVendedor : string; pi_Status : string; pi_Total : string; pi_VlFrete : string; pi_DataVenda : option string }.
(** What X2 said of the order of a link. *)
Record X2Order := MkX2Order {
  xo_CodEmpresa : option string; xo_CodVendedor : option string; xo_StatusXProcess : option string; xo_ValorVendido : option spec_float; xo_ValorFrete : option spec_float; xo_Itens : list PedidoItem }.
Record SalesOpportunityXProcessLink := MkLink {
  xl_ID : uuid; xl_OrganizationID : uuid; xl_SalesOpportunityID : uuid; xl_NumPedido : string; xl_Documento : string; xl_order : X2Order; xl_LinkSource : string; xl_MatchReason : string;
  xl_LastCheckedAt : option instant; xl_FirstClosedAt : option instant; xl_ConsecutiveNotFound : Z; xl_ResolvedAt : option instant; xl_CreatedAt : instant }.
(** Of the tables around: contacts (an absent document is the empty text), units, teams and the
    X2 instance of each organization. *)
Record FContact := MkFContact { fc_ID : uuid; fc_OrganizationID : uuid; fc_AssignedUserID : option uuid; fc_CPFCNPJ : string; fc_Deleted : bool }.
Record FUnit := MkFUnit { nu_ID : uuid; nu_OrganizationID : uuid; nu_Name : string; nu_XProcessCodEmpresa : option string; nu_Deleted : bool }.
Record FTeam := MkFTeam { fm_ID : uuid; fm_UnitID : option uuid; fm_Deleted : bool }.
Record XProcessIntegration := MkIntegration { xi_OrganizationID : uuid; xi_BaseURL : string; xi_APIKey : string; xi_IsActive : bool; xi_Deleted : bool }.
(** [sr_indexed]: the unique index of open links exists (the migration leaves it out when there are
    duplicates already). *)
Record Surroundings := MkSurroundings { sr_units : list FUnit; sr_teams : list FTeam; sr_integrations : list XProcessIntegration; sr_indexed : bool }.
(** Opportunities, events and links are only deleted for good. *)
Record FBase := MkFBase {
  fb_opps : list SalesOpportunity; fb_events : list SalesOpportunityEvent; fb_counters : list SalesOpportunityCounter; fb_links : list SalesOpportunityXProcessLink;
  fb_contacts : list FContact; fb_around : Surroundings }.
Definition set_opps f (b : FBase) : FBase := MkFBase (f (fb_opps b)) (fb_events b) (fb_counters b) (fb_links b) (fb_contacts b) (fb_around b).
Definition set_events f (b : FBase) : FBase := MkFBase (fb_opps b) (f (fb_events b)) (fb_counters b) (fb_links b) (fb_contacts b) (fb_around b).
Definition set_counters f (b : FBase) : FBase := MkFBase (fb_opps b) (fb_events b) (f (fb_counters b)) (fb_links b) (fb_contacts b) (fb_around b).
Definition set_links f (b : FBase) : FBase := MkFBase (fb_opps b) (fb_events b) (fb_counters b) (f (fb_links b)) (fb_contacts b) (fb_around b).
Definition set_contacts f (b : FBase) : FBase := MkFBase (fb_opps b) (fb_events b) (fb_counters b) (fb_links b) (f (fb_contacts b)) (fb_around b).

(** ** Columns *)
Definition with_assigned a (o : SalesOpportunity) : SalesOpportunity := MkOpp (so_origin o) a (so_funnel o) (so_expected o) (so_realized o) (so_pointer o) (so_outcome o).
Definition with_funnel f (o : SalesOpportunity) : SalesOpportunity := MkOpp (so_origin o) (so_AssignedUserID o) f (so_expected o) (so_realized o) (so_pointer o) (so_outcome o).
Definition with_expected e (o : SalesOpportunity) : SalesOpportunity := MkOpp (so_origin o) (so_AssignedUserID o) (so_funnel o) e (so_realized o) (so_pointer o) (so_outcome o).
Definition with_realized r (o : SalesOpportunity) : SalesOpportunity := MkOpp (so_origin o) (so_AssignedUserID o) (so_funnel o) (so_expected o) r (so_pointer o) (so_outcome o).
Definition with_pointer p (o : SalesOpportunity) : SalesOpportunity := MkOpp (so_origin o) (so_AssignedUserID o) (so_funnel o) (so_expected o) (so_realized o) p (so_outcome o).
Definition with_outcome u (o : SalesOpportunity) : SalesOpportunity := MkOpp (so_origin o) (so_AssignedUserID o) (so_funnel o) (so_expected o) (so_realized o) (so_pointer o) u.
Definition with_number n (o : SalesOpportunity) : SalesOpportunity :=
  let g := so_origin o in MkOpp (MkOrigin (so_ID g) (so_OrganizationID g) n (so_ContactID g) (so_SourceTransferID g) (so_OpenedAt g)) (so_AssignedUserID o) (so_funnel o) (so_expected o) (so_realized o) (so_pointer o) (so_outcome o).
Definition unbreached (o : SalesOpportunity) : Funnel := let f := so_funnel o in MkFunnel (fu_Stage f) (fu_StageChangedAt f) (fu_Direcionamento f) false (fu_SLABreachedAt f).
(** The given ones replace the stored ones. *)
Definition realized_or (r : Realized) (o : SalesOpportunity) : Realized :=
  MkRealized (match re_RealizedValue r with Some v => Some v | None => re_RealizedValue (so_realized o) end) (match re_RealizedQuantity r with Some q => Some q | None => re_RealizedQuantity (so_realized o) end).

(** * Statements *)

(** The columns an edit sets ([None]: not set). *)
Record DetailEdit := MkDetails {
  de_Interest : option string; de_EstimatedValue : option spec_float; de_EstimatedQuantity : option Z; de_UnitOfMeasure : option (option string); de_Realized : Realized }.
(** The updates of [sales_opportunities]. *)
Inductive change :=
  | ToStage (id : uuid) (stage : SalesOpportunityStage) (now : instant)
  | ToDirection (id : uuid) (d : SalesDirecionamento)
  | ToDetails (id : uuid) (required : SalesOpportunityStatus) (e : DetailEdit)
  | ToConverted (id : uuid) (source : SalesConversionSource) (now : instant) (r : Realized)
  | ToLost (id : uuid) (reason notes : string) (now : instant)
  | ToCancelled (id : uuid) (now : instant)
  | ToRealized (id org : uuid) (total : spec_float)
  | ToAgent (id agent : uuid)
  | ToPointer (id : uuid) (num documento : string)
  | ToBreached (org : uuid) (now : instant).
Definition is_opp (id : uuid) (o : SalesOpportunity) : bool := N.eqb (opp_ID o) id.
Definition in_status (s : SalesOpportunityStatus) (o : SalesOpportunity) : bool := bool_decide (opp_status o = s).
(** As PostgreSQL compares [numeric]: [NaN] equals itself. *)
Definition numeric_eq (a b : spec_float) : bool := match a, b with S754_nan, S754_nan => true | _, _ => SFeqb a b end.
Definition distinct_from (stored : option spec_float) (v : spec_float) : bool := match stored with Some x => negb (numeric_eq x v) | None => true end.
Definition change_where (c : change) (o : SalesOpportunity) : bool :=
  match c with
  | ToStage id _ _ | ToDirection id _ | ToConverted id _ _ _ | ToLost id _ _ _ => is_opp id o && in_status Aberta o
  | ToDetails id required _ => is_opp id o && in_status required o
  | ToCancelled id _ => is_opp id o && in_status Convertida o
  | ToRealized id org total => is_opp id o && N.eqb (opp_org o) org && in_status Convertida o && distinct_from (re_RealizedValue (so_realized o)) total
  | ToAgent id _ => is_opp id o && bool_decide (so_AssignedUserID o = None)
  | ToPointer id _ _ => is_opp id o
  | ToBreached org now =>
      N.eqb (opp_org o) org && bool_decide (opp_stage o = Direcionada) && in_status Aberta o && (fu_StageChangedAt (so_funnel o) <? now - 7 * 24 * hour) && negb (fu_SLABreached (so_funnel o))
  end.
Definition change_set (c : change) (o : SalesOpportunity) : SalesOpportunity :=
  let f := so_funnel o in let u := so_outcome o in
  match c with
  | ToStage _ stage now =>
      with_funnel (MkFunnel stage now (fu_Direcionamento f) (if decide (stage = Direcionada) then fu_SLABreached f else false) (fu_SLABreachedAt f)) o
  | ToDirection _ d => with_funnel (MkFunnel (fu_Stage f) (fu_StageChangedAt f) (Some d) (fu_SLABreached f) (fu_SLABreachedAt f)) o
  | ToDetails _ _ e =>
      let x := so_expected o in
      with_realized (realized_or (de_Realized e) o)
        (with_expected (MkExpected (default (ex_Interest x) (de_Interest e)) (match de_EstimatedValue e with Some v => Some v | None => ex_EstimatedValue x end)
                                   (match de_EstimatedQuantity e with Some q => Some q | None => ex_EstimatedQuantity x end) (default (ex_UnitOfMeasure x) (de_UnitOfMeasure e))) o)
  | ToConverted _ source now r =>
      with_realized (realized_or r o)
        (with_funnel (unbreached o) (with_outcome (MkOutcome Convertida (Some source) (ou_LossReason u) (ou_LossNotes u) (Some now) (ou_LostAt u) (ou_CancelledAt u)) o))
  | ToLost _ reason notes now =>
      with_funnel (unbreached o) (with_outcome (MkOutcome Perdida (ou_ConversionSource u) (Some reason) notes (ou_ConvertedAt u) (Some now) (ou_CancelledAt u)) o)
  | ToCancelled _ now => with_outcome (MkOutcome Cancelada (ou_ConversionSource u) (ou_LossReason u) (ou_LossNotes u) (ou_ConvertedAt u) (ou_LostAt u) (Some now)) o
  | ToRealized _ _ total => with_realized (MkRealized (Some total) (re_RealizedQuantity (so_realized o))) o
  | ToAgent _ agent => with_assigned (Some agent) o
  | ToPointer _ num documento => with_pointer (MkPointer (Some num) (Some documento)) o
  | ToBreached _ now => with_funnel (MkFunnel (fu_Stage f) (fu_StageChangedAt f) (fu_Direcionamento f) true (Some now)) o
  end.
Definition apply_change (c : change) (b : FBase) : Res Z * FBase :=
  (Ok (sql_count (change_where c) (fb_opps b)), set_opps (sql_update (change_where c) (change_set c)) b).

(** What a check of a link writes: when, how often X2 did not know it, and what it answered (the
    company apart, since the write is repeated without it). *)
Record X2Found := MkFound { xf_CodVendedor : string; xf_Status : string; xf_ValorTotal : spec_float; xf_ValorFrete : spec_float; xf_Itens : list PedidoItem }.
Record LinkCheck := MkCheck {
  lc_LastCheckedAt : instant; lc_NotFound : option Z; lc_CodEmpresa : option string; lc_Found : option X2Found; lc_FirstClosedAt : option instant; lc_ResolvedAt : option instant }.
Definition or_kept {A} (new old : option A) : option A := match new with Some a => Some a | None => old end.
Definition checked (c : LinkCheck) (l : SalesOpportunityXProcessLink) : SalesOpportunityXProcessLink :=
  let o := xl_order l in
  MkLink (xl_ID l) (xl_OrganizationID l) (xl_SalesOpportunityID l) (xl_NumPedido l) (xl_Documento l)
    (match lc_Found c with
     | Some x => MkX2Order (or_kept (lc_CodEmpresa c) (xo_CodEmpresa o)) (Some (xf_CodVendedor x)) (Some (xf_Status x)) (Some (xf_ValorTotal x)) (Some (xf_ValorFrete x)) (xf_Itens x)
     | None => o
     end)
    (xl_LinkSource l) (xl_MatchReason l) (Some (lc_LastCheckedAt c)) (or_kept (lc_FirstClosedAt c) (xl_FirstClosedAt l)) (default (xl_ConsecutiveNotFound l) (lc_NotFound c))
    (or_kept (lc_ResolvedAt c) (xl_ResolvedAt l)) (xl_CreatedAt l).
Definition is_link (id : uuid) (l : SalesOpportunityXProcessLink) : bool := N.eqb (xl_ID l) id.
Definition open_link (l : SalesOpportunityXProcessLink) : bool := bool_decide (xl_ResolvedAt l = None).
(** The partial unique index of open links on organization, company and number. *)
Definition link_conflict (l x : SalesOpportunityXProcessLink) : bool :=
  match xo_CodEmpresa (xl_order l) with
  | Some cod =>
      open_link l && open_link x && N.eqb (xl_OrganizationID x) (xl_OrganizationID l) && bool_decide (xo_CodEmpresa (xl_order x) = Some cod) && String.eqb (xl_NumPedido x) (xl_NumPedido l)
  | None => false
  end.
Definition held (l : SalesOpportunityXProcessLink) (b : FBase) : bool :=
  sr_indexed (fb_around b) && existsb (fun x => negb (is_link (xl_ID l) x) && link_conflict l x) (fb_links b).
(** The default of [link_source]. *)
Definition stored_link (l : SalesOpportunityXProcessLink) : SalesOpportunityXProcessLink :=
  MkLink (xl_ID l) (xl_OrganizationID l) (xl_SalesOpportunityID l) (xl_NumPedido l) (xl_Documento l) (xl_order l) (if String.eqb (xl_LinkSource l) "" then "agent" else xl_LinkSource l)
    (xl_MatchReason l) (xl_LastCheckedAt l) (xl_FirstClosedAt l) (xl_ConsecutiveNotFound l) (xl_ResolvedAt l) (xl_CreatedAt l).
Definition insert_link (l : SalesOpportunityXProcessLink) (b : FBase) : Res unit * FBase :=
  if existsb (is_link (xl_ID l)) (fb_links b) || held l b then (Err ErrUnique, b) else (Ok tt, set_links (fun k => k ++ [stored_link l]) b).
Definition update_link (id : uuid) (p : SalesOpportunityXProcessLink -> bool) (f : SalesOpportunityXProcessLink -> SalesOpportunityXProcessLink) (b : FBase) : Res Z * FBase :=
  let hit := fun l => is_link id l && p l in
  if existsb (fun l => hit l && held (f l) b) (fb_links b) then (Err ErrUnique, b) else (Ok (sql_count hit (fb_links b)), set_links (sql_update hit f) b).
(** While it is open, another order may be typed over it. *)
Definition registered (num documento : string) (l : SalesOpportunityXProcessLink) : SalesOpportunityXProcessLink :=
  MkLink (xl_ID l) (xl_OrganizationID l) (xl_SalesOpportunityID l) num documento (xl_order l) (xl_LinkSource l) (xl_MatchReason l) None (xl_FirstClosedAt l) 0 (xl_ResolvedAt l) (xl_CreatedAt l).
Definition insert_event (e : SalesOpportunityEvent) (b : FBase) : Res unit * FBase :=
  if existsb (fun x => N.eqb (sv_ID x) (sv_ID e)) (fb_events b) then (Err ErrUnique, b) else (Ok tt, set_events (fun l => l ++ [e]) b).
(** The document of a contact that has none. *)
Definition documented (id : uuid) (c : FContact) : bool := N.eqb (fc_ID c) id && String.eqb (fc_CPFCNPJ c) "" && negb (fc_Deleted c).
Definition with_document (d : string) (c : FContact) : FContact := MkFContact (fc_ID c) (fc_OrganizationID c) (fc_AssignedUserID c) d (fc_Deleted c).

Inductive fwrite : Type -> Type :=
  | WChange (c : change) : fwrite Z
  | WEvent (e : SalesOpportunityEvent) : fwrite unit
  | WLink (l : SalesOpportunityXProcessLink) : fwrite unit
  | WRegister (id : uuid) (num documento : string) : fwrite Z
  | WCheck (id : uuid) (c : LinkCheck) : fwrite Z
  | WDocument (contact : uuid) (documento : string) : fwrite unit.
Definition fdo {X} (w : fwrite X) : FBase -> Res X * FBase :=
  match w with
  | WChange c => apply_change c
  | WEvent e => insert_event e
  | WLink l => insert_link l
  | WRegister id num documento => update_link id open_link (registered num documento)
  | WCheck id c => update_link id (fun _ => true) (checked c)
  | WDocument contact d => fun b => (Ok tt, set_contacts (sql_update (documented contact) (with_document d)) b)
  end.

(** ** Transactions *)
Abbreviation FDb := (Db FBase).
Definition is_sale_counter (org : uuid) (day : string) (c : SalesOpportunityCounter) : bool := N.eqb (sc_OrganizationID c) org && String.eqb (sc_Day c) day.
Definition sale_counter_row (org : uuid) (day : string) (b : FBase) : Res unit * FBase :=
  (Ok tt, if existsb (is_sale_counter org day) (fb_counters b) then b else set_counters (fun l => l ++ [MkSaleCounter org day 0]) b).
Definition sale_bumped (c : SalesOpportunityCounter) : SalesOpportunityCounter := MkSaleCounter (sc_OrganizationID c) (sc_Day c) (sc_LastSeq c + 1).
(** [UPDATE ... RETURNING last_seq]; the column is a [bigint]. *)
Definition bump_sale_counter (org : uuid) (day : string) (b : FBase) : Res Z * FBase :=
  match sql_first (is_sale_counter org day) (fb_counters b) with
  | None => (Err ErrNotFound, b)
  | Some c => if sc_LastSeq c =? max_int64 then (Err ErrDb, b) else (Ok (sc_LastSeq c + 1), set_counters (sql_update (is_sale_counter org day) sale_bumped) b)
  end.
Definition number_text (day : string) (seq : Z) : string := "OPP-" +:+ day +:+ "-" +:+ pad6 (itoa seq).
Example number_1 : map (number_text "20260105") [1; 1234567] = ["OPP-20260105-000001"; "OPP-20260105-1234567"].
Proof. reflexivity. Qed.
Definition nextOpportunityNumber (org : uuid) (day : string) : FDb (Res string) :=
  _ ←? exec (sale_counter_row org day);
  seq ←? exec (bump_sale_counter org day);
  mret (Ok (number_text day seq)).
(** The primary key, the index of numbers, and the one of open opportunities per contact. *)
Definition opp_conflict (o x : SalesOpportunity) : bool :=
  is_opp (opp_ID o) x || (N.eqb (opp_org x) (opp_org o) && String.eqb (opp_number x) (opp_number o)) ||
  (N.eqb (opp_org x) (opp_org o) && N.eqb (opp_contact x) (opp_contact o) && in_status Aberta x && in_status Aberta o).
Definition insert_opp (o : SalesOpportunity) (b : FBase) : Res unit * FBase :=
  if existsb (opp_conflict o) (fb_opps b) then (Err ErrUnique, b) else (Ok tt, set_opps (fun l => l ++ [o]) b).
Definition sale_event (id org opp : uuid) (kind : SalesOpportunityEventType) (from to : option SalesOpportunityStage) (source : SalesOpportunityEventSource) (by_ : option uuid) (now : instant) : SalesOpportunityEvent :=
  MkSaleEvent id org opp kind from to source by_ now.
Definition of_opp_event (id : uuid) (e : SalesOpportunityEvent) : bool := N.eqb (sv_SalesOpportunityID e) id.
Definition of_opp_link (id : uuid) (l : SalesOpportunityXProcessLink) : bool := N.eqb (xl_SalesOpportunityID l) id.
Definition unless {A} (p : A -> bool) (l : list A) : list A := List.filter (fun a => negb (p a)) l.

Inductive ftransaction : Type -> Type :=
  | TOpen (day : string) (event : uuid) (now : instant) (source : SalesOpportunityEventSource) (o : SalesOpportunity) : ftransaction SalesOpportunity
  | TDelete (id : uuid) : ftransaction unit
  | TLinked (l : SalesOpportunityXProcessLink) (e : SalesOpportunityEvent) : ftransaction unit.
Definition fbody {X} (t : ftransaction X) : FDb (Res X) :=
  match t with
  | TOpen day event now source o =>
      number ←? nextOpportunityNumber (opp_org o) day;
      let o := with_number number o in
      _ ←? exec (insert_opp o);
      _ ←? exec (insert_event (sale_event event (opp_org o) (opp_ID o) SaleOpened None None source None now));
      mret (Ok o)
  | TDelete id =>
      _ ←? exec (fun b => (Ok tt, set_events (unless (of_opp_event id)) b));
      _ ←? exec (fun b => (Ok tt, set_links (unless (of_opp_link id)) b));
      exec (fun b => (Ok tt, set_opps (unless (is_opp id)) b))
  | TLinked l e =>
      _ ←? exec (insert_link l);
      _ ←? exec (apply_change (ToPointer (xl_SalesOpportunityID l) (xl_NumPedido l) (xl_Documento l)));
      exec (insert_event e)
  end.

(** * Operations *)
Record FState := MkFState { fs_acc : State; fs_base : FBase; fs_vis : VisDb }.
(** What is asked of an X2 instance: an order by its number and the document of its customer, the
    code of a customer, the lines a customer bought. The answer is a status and a body, or nothing
    (the request failed or took too long). *)
Inductive x2_request := AskPedido (num documento : string) | AskCliente (documento : string) | AskVendas (codCliente : string) (limit : Z).
Inductive fs_op : Type -> Type :=
  | FAsk {X} (op : acc_op X) : fs_op X
  | FRead {X} (f : FState -> Res X) : fs_op (Res X)
  | FWrite {X} (w : fwrite X) : fs_op (Res X)
  | FTx {X} (t : ftransaction X) : fs_op (Res X)
  | FID : fs_op uuid
  | FNow : fs_op instant
  (** The day of the server's clock, as [20060102]. *)
  | FDay : fs_op string
  (** [canViewTeamMember]: no, when the count fails. *)
  | FMate (viewer owner : uuid) : fs_op bool
  | FX2 (i : XProcessIntegration) (q : x2_request) : fs_op (option (Z * string))
  | FAudit (org user id : uuid) : fs_op unit.
Abbreviation FProg := (prog fs_op).
Definition with_fbase (b : FBase) (s : FState) : FState := MkFState (fs_acc s) b (fs_vis s).
Definition fs_sem X (op : fs_op X) : FState -> X -> FState -> Prop :=
  match op in fs_op X return FState -> X -> FState -> Prop with
  | FAsk op => fun s x s' => exists a, acc_sem _ op (fs_acc s) x a /\ s' = MkFState a (fs_base s) (fs_vis s)
  | FRead f => fun s x s' => s' = s /\ (x = f s \/ x = Err ErrDb)
  | FWrite w => fun s x s' => exists b, db_sem (exec (fdo w)) (fs_base s) x b /\ s' = with_fbase b s
  | FTx t => fun s x s' => exists b, db_sem (transaction (fbody t)) (fs_base s) x b /\ s' = with_fbase b s
  | FDay => fun s x s' => String.length x = 8%nat /\ s' = s
  | FMate viewer owner => fun s x s' => s' = s /\ (x = canViewTeamMember (fs_vis s) viewer owner \/ x = false)
  | _ => fun s _ s' => s' = s
  end.
Definition asking {A} (p : Prog A) : FProg A := prog_lift (fun X => @FAsk X) p.
Definition reading {X} (f : FBase -> Res X) : FProg (Res X) := call (FRead (fun s => f (fs_base s))).
Definition writing {X} (w : fwrite X) : FProg (Res X) := call (FWrite w).
Definition changing (c : change) : FProg (Res Z) := writing (WChange c).
