(* ===== verification/SalesApi.v ===== *)
(** The requests on sales opportunities ([internal/handlers/sales_opportunities.go],
    [sales_opportunity_quantities.go], [sales_opportunity_summary.go], and the registration of
    [sales_opportunity_xprocess_link.go]), the entry of the chatbot and the pickup of an agent. *)
From S2P Require Import Prelude Effects Sql GoText GoAny Visibility Permissions Accounts AccountsApi Phone Sales.
From Stdlib Require Import SpecFloat.

(** * Numbers of a request *)
Definition f64_sub : spec_float -> spec_float -> spec_float := SFsub 53 1024.
Definition maxSalesQuantity : spec_float := S754_finite false 6553599999999934 (-16).
Definition maxSalesMoney : spec_float := f64_of_int 10000000000000.
Definition f64_micro : spec_float := S754_finite false 4722366482869645 (-72).
Definition is_nan (f : spec_float) : bool := match f with S754_nan => true | _ => false end.
Definition is_inf (f : spec_float) : bool := match f with S754_infinity _ => true | _ => false end.
(** The integer nearest to [m * 2 ^ e * k], halves away from zero. *)
Definition nearest (k m e : Z) : Z := if 0 <=? e then m * k * 2 ^ e else (2 * m * k + 2 ^ (- e)) / 2 ^ (1 - e).
Definition nearest_of (k : Z) (f : spec_float) : Z :=
  match f with S754_finite s m e => (if s then Z.opp else id) (nearest k (Zpos m) e) | _ => 0 end.
(** [math.Round] of a finite number. *)
Definition f64_round (f : spec_float) : spec_float := f64_of_int (nearest_of 1 f).
Definition validSalesQuantity (q : spec_float) : bool :=
  if is_nan q || is_inf q || SFltb q f64_zero || SFltb maxSalesQuantity q then false
  else let t := f64_mul q (f64_of_int 1000) in SFltb (SFabs (f64_sub t (f64_round t))) f64_micro.
Definition validSalesMoney (v : spec_float) : bool := negb (is_nan v) && negb (is_inf v) && SFleb f64_zero v && SFleb v maxSalesMoney.
(** What a [numeric(14,3)] column keeps of a number, in thousandths. *)
Definition thousandths (q : spec_float) : Z := nearest_of 1000 q.
Definition all_given {A} (p : A -> bool) (l : list (option A)) : bool := forallb (fun o => match o with Some a => p a | None => true end) l.
Definition validateSalesQuantities (estimatedValue estimatedQty realizedValue realizedQty : option spec_float) : string :=
  if negb (all_given validSalesMoney [estimatedValue; realizedValue]) then "values must be non-negative numbers"
  else if negb (all_given validSalesQuantity [estimatedQty; realizedQty]) then "quantities must be non-negative with at most 3 decimal places"
  else "".
(** Whether it was sent, the unit ([None] clears it), or nothing for an unknown one. *)
Definition parseSalesUnit (raw : option string) : option (bool * option string) :=
  match raw with
  | None => Some (false, None)
  | Some u => if String.eqb u "" then Some (true, None) else if IsValid u then Some (true, Some u) else None
  end.
Definition half : spec_float := S754_finite false 4503599627370496 (-53).
Example quantity_1 : map validSalesQuantity [half; f64_of_int 3; f64_mul half (f64_of_int 7); S754_nan; S754_zero true; maxSalesQuantity; f64_of_int (-1); f64_of_int 100000000000; f64_mul f64_micro f64_micro] =
  [true; true; true; false; true; true; false; false; true].
Proof. vm_compute. reflexivity. Qed.
Example quantity_2 : map thousandths [half; f64_of_int 3; maxSalesQuantity; f64_mul f64_micro f64_micro] = [500; 3000; 99999999999999; 0].
Proof. vm_compute. reflexivity. Qed.

(** * Answers *)
Inductive salesScopeLevel := salesScopeAll | salesScopeTeam | salesScopeOwn.
Record Summary := MkSummary {
  sm_total : Z; sm_abertas : Z; sm_potencial : Z; sm_sem_direcionamento : Z; sm_sla_breached : Z; sm_convertida : Z; sm_perdida : Z;
  sm_conversion_rate : spec_float; sm_valor_prospecto : spec_float; sm_valor_convertido : spec_float; sm_valor_perdido : spec_float }.
Record LinkView := MkLinkView { lv_link : SalesOpportunityXProcessLink; lv_unit : option FUnit; lv_PendingReview : bool }.
Record Candidate := MkCandidate { cd_NumPedido : string; cd_CodEmpresa : string; cd_UnitName : string; cd_Status : string; cd_ValorVendido : spec_float; cd_DataVenda : instant }.
Inductive fs_reply :=
  | FRefused (code : Z) (msg : string)
  | FDeleted
  | FOpp (o : SalesOpportunity)
  | FOpps (l : list SalesOpportunity) (total : Z) (more : bool)
  | FEvents (l : list SalesOpportunityEvent)
  | FSummary (s : Summary)
  | FScope (level : salesScopeLevel) (sellers units : list (uuid * string))
  | FLink (v : LinkView)
  | FCandidates (l : list Candidate).
Definition fs_refusal (r : reply) : fs_reply := match r with Reply code msg => FRefused code msg | _ => FRefused 500 "" end.
Definition fs_auth (c : Ctx) (action : string) : FProg ((uuid * uuid) + fs_reply) :=
  r ← asking (requireAuth c ResourceSalesOpportunities action); mret match r with inl who => inl who | inr e => inr (fs_refusal e) end.
Definition fs_decoded {A} (body : option A) : FProg (A + fs_reply) := mret match body with Some a => inl a | None => inr (FRefused 400 "Invalid request body") end.
Definition fs_require (ok : bool) (code : Z) (msg : string) : FProg (unit + fs_reply) := mret (if ok then inl tt else inr (FRefused code msg)).
Definition fs_or {A} (p : FProg (Res A)) (code : Z) (msg : string) : FProg (A + fs_reply) := r ← p; mret match r with Ok a => inl a | Err _ => inr (FRefused code msg) end.

(** * Reading *)
Definition found_row {A} (o : option A) : Res A := match o with Some a => Ok a | None => Err ErrNotFound end.
Definition opp_in (id org : uuid) (b : FBase) : Res SalesOpportunity := found_row (sql_first (fun o => is_opp id o && N.eqb (opp_org o) org) (fb_opps b)).
Definition opp_by_id (id : uuid) (b : FBase) : Res SalesOpportunity := found_row (sql_first (is_opp id) (fb_opps b)).
Definition open_opp (org contact : uuid) (o : SalesOpportunity) : bool := N.eqb (opp_org o) org && N.eqb (opp_contact o) contact && in_status Aberta o.
Definition open_of (c : FContact) (b : FBase) : Res SalesOpportunity := found_row (sql_first (open_opp (fc_OrganizationID c) (fc_ID c)) (fb_opps b)).
Definition fcontact_in (id org : uuid) (b : FBase) : Res FContact :=
  found_row (sql_first (fun c => N.eqb (fc_ID c) id && N.eqb (fc_OrganizationID c) org && negb (fc_Deleted c)) (fb_contacts b)).
(** The row read again, or what is in memory when it cannot be. *)
Definition reread (o : SalesOpportunity) : FProg SalesOpportunity := r ← reading (opp_by_id (opp_ID o)); mret match r with Ok o' => o' | Err _ => o end.
(** [a.DB.Create(&SalesOpportunityEvent{...})]. *)
Definition new_event (org opp : uuid) (kind : SalesOpportunityEventType) (from to : option SalesOpportunityStage) (source : SalesOpportunityEventSource) (by_ : option uuid) : FProg (Res unit) :=
  id ← call FID; now ← call FNow; writing (WEvent (sale_event id org opp kind from to source by_ now)).

(** * The single entry *)
Definition retriggered (o : SalesOpportunity) (org : uuid) (source : SalesOpportunityEventSource) : FProg (Res SalesOpportunity) :=
  r ← new_event org (opp_ID o) SaleRetriggered None None source None; mret match r with Ok _ => Ok o | Err e => Err e end.
Definition fresh_opp (id : uuid) (now : instant) (c : FContact) (transfer : option uuid) (interest : string) (value : option spec_float) (assigned : option uuid) : SalesOpportunity :=
  MkOpp (MkOrigin id (fc_OrganizationID c) "" (fc_ID c) transfer now) assigned (MkFunnel Potencial now None false None) (MkExpected interest value None None)
    (MkRealized None None) (MkPointer None None) (MkOutcome Aberta None None "" None None None).
Definition createOrRetriggerSalesOpportunity (c : FContact) (transfer : option uuid) (source : SalesOpportunityEventSource) (interest : string) (value : option spec_float)
    (override : option uuid) (apply : list (SalesOpportunity -> SalesOpportunity)) : FProg (Res SalesOpportunity) :=
  let org := fc_OrganizationID c in
  existing ← reading (open_of c);
  match existing with
  | Ok o => retriggered o org source
  | Err ErrNotFound =>
      id ← call FID; now ← call FNow;
      let opp := foldl (fun o f => f o) (fresh_opp id now c transfer interest value (match override with Some u => Some u | None => fc_AssignedUserID c end)) apply in
      day ← call FDay; event ← call FID; at_ ← call FNow;
      r ← call (FTx (TOpen day event at_ source opp));
      match r with
      | Ok o => mret (Ok o)
      | Err ErrUnique =>
          winner ← reading (open_of c);
          match winner with Ok w => retriggered w org source | Err e => mret (Err e) end
      | Err e => mret (Err e)
      end
  | Err e => mret (Err e)
  end.
(** The click on a button of the chatbot that opens an opportunity. *)
Definition create_opportunity (c : FContact) : FProg unit := _ ← createOrRetriggerSalesOpportunity c None SourceSystem "" None None []; mret tt.
Record createSalesOpportunityRequest := MkCreateSale {
  cq_ContactID : uuid; cq_Interest : string; cq_EstimatedValue : option spec_float; cq_EstimatedQuantity : option spec_float; cq_UnitOfMeasure : option string }.
Definition unit_refusal : string := "unit_of_measure must be one of: UN, M, M2, KG, PCT, CX".
Definition with_quantity (q : option Z) (unit : option string) (o : SalesOpportunity) : SalesOpportunity :=
  with_expected (MkExpected (ex_Interest (so_expected o)) (ex_EstimatedValue (so_expected o)) q unit) o.
Definition CreateSalesOpportunity (c : Ctx) (body : option createSalesOpportunityRequest) : FProg fs_reply :=
  '(org, user) ←! fs_auth c ActionWrite;
  req ←! fs_decoded body;
  _ ←! fs_require (negb (N.eqb (cq_ContactID req) nil_uuid)) 400 "contact_id is required";
  contact ←! fs_or (reading (fcontact_in (cq_ContactID req) org)) 404 "Contact not found";
  let msg := validateSalesQuantities (cq_EstimatedValue req) (cq_EstimatedQuantity req) None None in
  _ ←! fs_require (String.eqb msg "") 400 msg;
  '(_, unit) ←! mret match parseSalesUnit (cq_UnitOfMeasure req) with Some x => inl x | None => inr (FRefused 400 unit_refusal) end;
  opp ←! fs_or (createOrRetriggerSalesOpportunity contact None SourceManual (cq_Interest req) (cq_EstimatedValue req) (Some user)
                  [with_quantity (thousandths <$> cq_EstimatedQuantity req) unit]) 500 "Failed to create opportunity";
  opp ← reread opp; mret (FOpp opp).
(** The agent who picks up a conversation inherits an opportunity nobody has. *)
Definition assignOpenSalesOpportunityToAgent (c : FContact) (agent : uuid) : FProg unit :=
  r ← reading (open_of c);
  match r with
  | Ok o => if decide (so_AssignedUserID o = None) then _ ← changing (ToAgent (opp_ID o) agent); mret tt else mret tt
  | Err _ => mret tt
  end.

(** * Who sees what *)
Definition salesScope (user org : uuid) : FProg salesScopeLevel :=
  all ← asking (HasPermission user ResourceSalesOpportunities ActionViewAll org);
  if (all : bool) then mret salesScopeAll
  else team ← asking (HasPermission user ResourceSalesOpportunities ActionViewTeam org); mret (if (team : bool) then salesScopeTeam else salesScopeOwn).
Definition salesTeamMates (vis : VisDb) (user : uuid) : list uuid :=
  map mb_UserID (List.filter (fun m => existsb (N.eqb (mb_TeamID m)) (teams_of vis user) && negb (mb_Deleted m)) (v_members vis)).
Definition visibleSalesOpportunities (level : salesScopeLevel) (vis : VisDb) (user : uuid) (o : SalesOpportunity) : bool :=
  match level with
  | salesScopeAll => true
  | salesScopeTeam => is_user user (so_AssignedUserID o) || in_list (so_AssignedUserID o) (salesTeamMates vis user)
  | salesScopeOwn => is_user user (so_AssignedUserID o)
  end.
Definition canSeeSalesOpportunity (o : SalesOpportunity) (user org : uuid) : FProg bool :=
  level ← salesScope user org;
  match level, so_AssignedUserID o with
  | salesScopeAll, _ => mret true
  | _, None => mret false
  | salesScopeTeam, Some owner => if N.eqb owner user then mret true else call (FMate user owner)
  | salesScopeOwn, Some owner => mret (N.eqb owner user)
  end.
Definition fs_path_id (id : option uuid) : FProg (uuid + fs_reply) := mret match id with Some id => inl id | None => inr (FRefused 400 "Invalid sales opportunity ID") end.
Definition loadAuthorizedSalesOpportunity (id : option uuid) (org user : uuid) : FProg (SalesOpportunity + fs_reply) :=
  or_refuse (fs_path_id id) (fun id =>
  or_refuse (fs_or (reading (opp_in id org)) 404 "Sales opportunity not found") (fun o =>
  ok ← canSeeSalesOpportunity o user org;
  mret (if (ok : bool) then inl o else inr (FRefused 403 "Insufficient permissions")))).

Section Api.
(** How the database reads an id and adds amounts up; the first and the last moment of a day in an
    organization's time zone. *)
Context (pg_uuid : string -> option uuid) (numeric_sum : list spec_float -> spec_float) (parse_day : uuid -> string -> option (instant * instant)).

(** * Listings *)
(** A filter on an id: absent, or what to look for; nothing when the database cannot read it. *)
Definition wanted (raw : string) : option (option uuid) := if String.eqb raw "" then Some None else match pg_uuid raw with Some id => Some (Some id) | None => None end.
(** Sellers of a store: the unit of their team, also of a deleted one. *)
Definition storeSellers (s : FState) (unit : uuid) : list uuid :=
  map mb_UserID (List.filter (fun m => negb (mb_Deleted m) && existsb (fun t => N.eqb (fm_ID t) (mb_TeamID m) && bool_decide (fm_UnitID t = Some unit)) (sr_teams (fb_around (fs_base s)))) (v_members (fs_vis s))).
Definition filterSalesOpportunities (s : FState) (seller unit : option uuid) (o : SalesOpportunity) : bool :=
  match seller with Some u => is_user u (so_AssignedUserID o) | None => true end &&
  match unit with Some u => in_list (so_AssignedUserID o) (storeSellers s u) | None => true end.
Record SaleFilter := MkSaleFilter {
  sf_AssignedUserID : string; sf_UnitID : string; sf_Stage : string; sf_Status : string; sf_ContactID : string; sf_From : string; sf_To : string; sf_Limit : Z; sf_Offset : Z }.
(** The rows of the organization a user sees, with the filters shared by list and summary. *)
Definition shown (f : SaleFilter) (level : salesScopeLevel) (user org : uuid) (s : FState) : Res (list SalesOpportunity) :=
  match wanted (sf_AssignedUserID f), wanted (sf_UnitID f) with
  | Some seller, Some unit =>
      Ok (List.filter (fun o => N.eqb (opp_org o) org && visibleSalesOpportunities level (fs_vis s) user o && filterSalesOpportunities s seller unit o) (fb_opps (fs_base s)))
  | _, _ => Err ErrDb
  end.
Definition matching (f : SaleFilter) (l : list SalesOpportunity) : Res (list SalesOpportunity) :=
  match wanted (sf_ContactID f) with
  | Some contact =>
      Ok (List.filter (fun o => (String.eqb (sf_Stage f) "" || String.eqb (stage_name (opp_stage o)) (sf_Stage f)) && (String.eqb (sf_Status f) "" || String.eqb (status_name (opp_status o)) (sf_Status f)) &&
                                match contact with Some c => N.eqb (opp_contact o) c | None => true end) l)
  | None => Err ErrDb
  end.
Definition res_bind {A B} (r : Res A) (k : A -> Res B) : Res B := match r with Ok a => k a | Err e => Err e end.
Definition newest_opened (a b : SalesOpportunity) : bool := so_OpenedAt (so_origin b) <=? so_OpenedAt (so_origin a).
Definition ListSalesOpportunities (c : Ctx) (f : SaleFilter) : FProg fs_reply :=
  '(org, user) ←! fs_auth c ActionRead;
  level ← salesScope user org;
  let rows := fun s => res_bind (shown f level user org s) (matching f) in
  total ←! fs_or (call (FRead (fun s => res_bind (rows s) (fun l => Ok (Z.of_nat (length l)))))) 500 "Failed to count sales opportunities";
  l ←! fs_or (call (FRead (fun s => res_bind (rows s) (fun l => Ok (take (Z.to_nat (sf_Limit f)) (drop (Z.to_nat (sf_Offset f)) (stable_sort newest_opened l))))))) 500 "Failed to list sales opportunities";
  mret (FOpps l total (sf_Offset f + Z.of_nat (length l) <? total)).
Definition GetSalesOpportunity (c : Ctx) (id : option uuid) : FProg fs_reply :=
  '(org, user) ←! fs_auth c ActionRead;
  o ←! loadAuthorizedSalesOpportunity id org user;
  mret (FOpp o).
Definition oldest_event_first (a b : SalesOpportunityEvent) : bool := sv_CreatedAt a <=? sv_CreatedAt b.
Definition ListSalesOpportunityEvents (c : Ctx) (id : option uuid) : FProg fs_reply :=
  '(org, user) ←! fs_auth c ActionRead;
  o ←! loadAuthorizedSalesOpportunity id org user;
  l ←! fs_or (reading (fun b => Ok (stable_sort oldest_event_first (List.filter (of_opp_event (opp_ID o)) (fb_events b))))) 500 "Failed to list events";
  mret (FEvents l).
(** The conversion rate: converted of those that closed, in per cent. *)
Definition conversionRate (converted lost : Z) : spec_float :=
  if 0 <? converted + lost then f64_mul (f64_div (f64_of_int converted) (f64_of_int (converted + lost))) (f64_of_int 100) else f64_zero.
Definition within (period : option (instant * instant)) (at_ : option instant) : bool :=
  match period with Some (start, stop) => match at_ with Some t => (start <=? t) && (t <? stop) | None => false end | None => true end.
Definition value_of (l : list SalesOpportunity) : spec_float := numeric_sum (omap (fun o => ex_EstimatedValue (so_expected o)) l).
Definition GetSalesOpportunitiesSummary (c : Ctx) (f : SaleFilter) : FProg fs_reply :=
  '(org, user) ←! fs_auth c ActionRead;
  period ←! mret (if String.eqb (sf_From f) "" || String.eqb (sf_To f) "" then inl None
                  else match parse_day org (sf_From f) with
                       | None => inr (FRefused 400 "Invalid start date format. Use YYYY-MM-DD")
                       | Some (start, _) => match parse_day org (sf_To f) with
                                            | None => inr (FRefused 400 "Invalid end date format. Use YYYY-MM-DD")
                                            | Some (_, stop) => inl (Some (start, stop))
                                            end
                       end);
  let rows := fun p => level ← salesScope user org; call (FRead (fun s => res_bind (shown f level user org s) (fun l => Ok (List.filter p l)))) in
  let count := fun p => r ← rows p; mret match r with Ok l => Ok (Z.of_nat (length l)) | Err e => Err e end in
  open ← rows (in_status Aberta);
  converted ← rows (fun o => in_status Convertida o && within period (ou_ConvertedAt (so_outcome o)));
  lost ← rows (fun o => in_status Perdida o && within period (ou_LostAt (so_outcome o)));
  total ← count (fun _ => true);
  potencial ← count (fun o => in_status Aberta o && bool_decide (opp_stage o = Potencial));
  undirected ← count (fun o => in_status Aberta o && bool_decide (fu_Direcionamento (so_funnel o) = None));
  breached ← count (fun o => in_status Aberta o && fu_SLABreached (so_funnel o));
  match open, converted, lost, total, potencial, undirected, breached with
  | Ok open, Ok converted, Ok lost, Ok total, Ok potencial, Ok undirected, Ok breached =>
      let n {A} (l : list A) := Z.of_nat (length l) in
      mret (FSummary (MkSummary total (n open) potencial undirected breached (n converted) (n lost) (conversionRate (n converted) (n lost)) (value_of open) (value_of converted) (value_of lost)))
  | _, _, _, _, _, _, _ => mret (FRefused 500 "Failed to summarize sales opportunities")
  end.
(** The sellers and stores a screen may offer: everybody, the team mates, or nobody. *)
Definition sellers_offered (level : salesScopeLevel) (user org : uuid) (s : FState) : Res (list (uuid * string)) :=
  let d := st_acc (fs_acc s) in
  let members := map uo_UserID (List.filter (fun m => N.eqb (uo_OrganizationID m) org && negb (uo_Deleted m)) (ac_members d)) in
  let p u := (N.eqb (us_OrganizationID u) org || existsb (N.eqb (us_ID u)) members) && us_IsActive u && negb (us_Deleted u) &&
             match level with salesScopeTeam => existsb (N.eqb (us_ID u)) (salesTeamMates (fs_vis s) user) | _ => true end in
  Ok (map (fun u => (us_ID u, us_FullName u)) (List.filter p (ac_users d))).
Definition units_offered (level : salesScopeLevel) (user org : uuid) (s : FState) : Res (list (uuid * string)) :=
  let sr := fb_around (fs_base s) in
  let mine := omap fm_UnitID (List.filter (fun t => existsb (N.eqb (fm_ID t)) (teams_of (fs_vis s) user) && negb (fm_Deleted t)) (sr_teams sr)) in
  let p u := N.eqb (nu_OrganizationID u) org && negb (nu_Deleted u) && match level with salesScopeTeam => existsb (N.eqb (nu_ID u)) mine | _ => true end in
  Ok (map (fun u => (nu_ID u, nu_Name u)) (List.filter p (sr_units sr))).
Definition by_name (before : string -> string -> bool) (r : Res (list (uuid * string))) : Res (list (uuid * string)) :=
  res_bind r (fun l => Ok (stable_sort (fun a b => before (snd a) (snd b)) l)).
(** [before]: how the database orders names. *)
Definition GetSalesOpportunitiesScope (before : string -> string -> bool) (c : Ctx) : FProg fs_reply :=
  '(org, user) ←! fs_auth c ActionRead;
  level ← salesScope user org;
  match level with
  | salesScopeOwn => mret (FScope level [] [])
  | _ =>
      sellers ←! fs_or (call (FRead (fun s => by_name before (sellers_offered level user org s)))) 500 "Failed to load sellers";
      units ←! fs_or (call (FRead (fun s => by_name before (units_offered level user org s)))) 500 "Failed to load stores";
      mret (FScope level sellers units)
  end.
End Api.

(** * Changing them *)
Definition stage_of (raw : string) : option SalesOpportunityStage := List.find (fun s => String.eqb (stage_name s) raw) [Potencial; AbrirOrcamento; Direcionada].
Definition direcionamento_of (raw : string) : option SalesDirecionamento := List.find (fun d => String.eqb (direcionamento_name d) raw) [Visita; ByWhatsApp].
(** An update that must have found its row, as the row was when it was read. *)
Definition changed_one (c : change) (failed closed : string) : FProg (unit + fs_reply) :=
  r ← changing c;
  mret match r with Err _ => inr (FRefused 500 failed) | Ok n => if n =? 0 then inr (FRefused 400 closed) else inl tt end.
Definition only_open (o : SalesOpportunity) (msg : string) : FProg (unit + fs_reply) := fs_require (in_status Aberta o) 400 msg.
Definition recorded (p : FProg (Res unit)) : FProg (unit + fs_reply) := fs_or p 500 "Failed to record event".
Definition ChangeSalesOpportunityStage (c : Ctx) (id : option uuid) (body : option string) : FProg fs_reply :=
  '(org, user) ←! fs_auth c ActionWrite;
  o ←! loadAuthorizedSalesOpportunity id org user;
  let closed := "Only open opportunities can change stage" in
  _ ←! only_open o closed;
  raw ←! fs_decoded body;
  stage ←! mret match stage_of raw with Some s => inl s | None => inr (FRefused 400 "Invalid stage") end;
  _ ←! fs_require (negb (bool_decide (stage = Direcionada) && bool_decide (fu_Direcionamento (so_funnel o) = None))) 400 "direcionamento is required before entering direcionada";
  if decide (stage = opp_stage o) then mret (FOpp o)
  else
    now ← call FNow;
    _ ←! changed_one (ToStage (opp_ID o) stage now) "Failed to change stage" closed;
    _ ←! recorded (new_event org (opp_ID o) SaleStageChanged (Some (opp_stage o)) (Some stage) SourceManual (Some user));
    o ← reread o; mret (FOpp o).
Definition ChangeSalesOpportunityDirecionamento (c : Ctx) (id : option uuid) (body : option string) : FProg fs_reply :=
  '(org, user) ←! fs_auth c ActionWrite;
  o ←! loadAuthorizedSalesOpportunity id org user;
  let closed := "Only open opportunities can change direcionamento" in
  _ ←! only_open o closed;
  raw ←! fs_decoded body;
  d ←! mret match direcionamento_of raw with Some d => inl d | None => inr (FRefused 400 "Invalid direcionamento") end;
  if decide (fu_Direcionamento (so_funnel o) = Some d) then mret (FOpp o)
  else
    _ ←! changed_one (ToDirection (opp_ID o) d) "Failed to change direcionamento" closed;
    _ ←! recorded (new_event org (opp_ID o) SaleDirecionamentoChanged None None SourceManual (Some user));
    o ← reread o; mret (FOpp o).

Record updateSalesOpportunityDetailsRequest := MkDetailsRequest {
  dq_Interest : option string; dq_EstimatedValue : option spec_float; dq_EstimatedQuantity : option spec_float; dq_UnitOfMeasure : option string;
  dq_RealizedValue : option spec_float; dq_RealizedQuantity : option spec_float }.
Definition given {A} (o : option A) : bool := match o with Some _ => true | None => false end.
Definition touchesRealized (req : updateSalesOpportunityDetailsRequest) : bool := given (dq_RealizedValue req) || given (dq_RealizedQuantity req).
Definition touchesExpected (req : updateSalesOpportunityDetailsRequest) : bool :=
  given (dq_Interest req) || given (dq_EstimatedValue req) || given (dq_EstimatedQuantity req) || given (dq_UnitOfMeasure req).
(** The status the row must still have, or the refusal. *)
Definition editable (o : SalesOpportunity) (req : updateSalesOpportunityDetailsRequest) : SalesOpportunityStatus + fs_reply :=
  let only_open := inr (FRefused 400 "Only open opportunities can be edited") in
  match opp_status o with
  | Aberta => if touchesRealized req then inr (FRefused 400 "Realized values can only be set on converted opportunities") else inl Aberta
  | Convertida => if touchesRealized req then (if touchesExpected req then only_open else inl Convertida) else only_open
  | _ => only_open
  end.
Definition UpdateSalesOpportunityDetails (c : Ctx) (id : option uuid) (body : option updateSalesOpportunityDetailsRequest) : FProg fs_reply :=
  '(org, user) ←! fs_auth c ActionWrite;
  o ←! loadAuthorizedSalesOpportunity id org user;
  req ←! fs_decoded body;
  required ←! mret (editable o req);
  let msg := validateSalesQuantities (dq_EstimatedValue req) (dq_EstimatedQuantity req) (dq_RealizedValue req) (dq_RealizedQuantity req) in
  _ ←! fs_require (String.eqb msg "") 400 msg;
  '(unitSet, unit) ←! mret match parseSalesUnit (dq_UnitOfMeasure req) with Some x => inl x | None => inr (FRefused 400 unit_refusal) end;
  if negb (touchesExpected req || touchesRealized req) then mret (FOpp o)
  else
    let edit := MkDetails (dq_Interest req) (dq_EstimatedValue req) (thousandths <$> dq_EstimatedQuantity req) (if (unitSet : bool) then Some unit else None)
                          (MkRealized (dq_RealizedValue req) (thousandths <$> dq_RealizedQuantity req)) in
    _ ←! changed_one (ToDetails (opp_ID o) required edit) "Failed to update opportunity" "Only open opportunities can be edited";
    o ← reread o; mret (FOpp o).

(** ** Closing *)
(** [None]: no body at all. *)
Definition ConvertSalesOpportunity (c : Ctx) (id : option uuid) (body : option (option (option spec_float * option spec_float))) : FProg fs_reply :=
  '(org, user) ←! fs_auth c ActionWrite;
  o ←! loadAuthorizedSalesOpportunity id org user;
  let closed := "Only open opportunities can be converted" in
  _ ←! only_open o closed;
  '(value, quantity) ←! match body with
                        | None => mret (inl (None, None))
                        | Some body =>
                            or_refuse (fs_decoded body) (fun req =>
                            let msg := validateSalesQuantities None None (fst req) (snd req) in
                            or_refuse (fs_require (String.eqb msg "") 400 msg) (fun _ => mret (inl req)))
                        end;
  now ← call FNow;
  _ ←! changed_one (ToConverted (opp_ID o) ConversionManual now (MkRealized value (thousandths <$> quantity))) "Failed to convert opportunity" closed;
  _ ←! recorded (new_event org (opp_ID o) SaleConverted None None SourceManual (Some user));
  o ← reread o; mret (FOpp o).
Definition LoseSalesOpportunity (c : Ctx) (id : option uuid) (body : option (string * string)) : FProg fs_reply :=
  '(org, user) ←! fs_auth c ActionWrite;
  o ←! loadAuthorizedSalesOpportunity id org user;
  let closed := "Only open opportunities can be marked lost" in
  _ ←! only_open o closed;
  '(reason, notes) ←! fs_decoded body;
  _ ←! fs_require (existsb (String.eqb reason) ValidSalesLossReasons) 400 "loss_reason is required and must be a valid reason";
  now ← call FNow;
  _ ←! changed_one (ToLost (opp_ID o) reason notes now) "Failed to mark opportunity lost" closed;
  _ ←! recorded (new_event org (opp_ID o) SaleLost None None SourceManual (Some user));
  o ← reread o; mret (FOpp o).
Definition DeleteSalesOpportunity (c : Ctx) (id : option uuid) : FProg fs_reply :=
  '(org, user) ←! fs_auth c ActionDelete;
  super ← asking (IsSuperAdmin user);
  _ ←! fs_require super 403 "Only super admins can permanently delete sales opportunities";
  o ←! loadAuthorizedSalesOpportunity id org user;
  _ ←! fs_or (call (FTx (TDelete (opp_ID o)))) 500 "Failed to delete sales opportunity";
  _ ← call (FAudit org user (opp_ID o)); mret FDeleted.

(** * The order of X2, registered by hand *)
Definition or_closed (s : SalesOpportunityStatus) : bool := match s with Aberta | Convertida => true | _ => false end.
Definition tracked_elsewhere (org opp : uuid) (num documento : string) (l : SalesOpportunityXProcessLink) : bool :=
  N.eqb (xl_OrganizationID l) org && String.eqb (xl_NumPedido l) num && String.eqb (xl_Documento l) documento && negb (of_opp_link opp l).
Definition no_order : X2Order := MkX2Order None None None None None [].
Definition create_link (org opp : uuid) (num documento : string) : FProg (unit + fs_reply) :=
  id ← call FID; now ← call FNow;
  fs_or (writing (WLink (MkLink id org opp num documento no_order "" "" None None 0 None now))) 500 "Failed to create link".
(** [First] orders by the primary key. *)
Definition first_link (p : SalesOpportunityXProcessLink -> bool) (b : FBase) : Res SalesOpportunityXProcessLink :=
  found_row (sql_min (fun x y => (xl_ID x <=? xl_ID y)%N) (List.filter p (fb_links b))).
Definition document_refusal : string := "documento must be a valid CPF (11 digits) or CNPJ (14 digits)".
Definition UpsertSalesOpportunityXProcessLink (c : Ctx) (id : option uuid) (body : option (string * string)) : FProg fs_reply :=
  '(org, user) ←! fs_auth c ActionWrite;
  o ←! loadAuthorizedSalesOpportunity id org user;
  _ ←! fs_require (or_closed (opp_status o)) 400 "Only open or converted opportunities can be linked to an X2 order";
  '(num, raw) ←! fs_decoded body;
  _ ←! fs_require (negb (String.eqb num "")) 400 "num_pedido is required";
  documento ←! mret match NormalizeDocumento raw with inl d => if String.eqb d "" then inr (FRefused 400 document_refusal) else inl d | inr _ => inr (FRefused 400 document_refusal) end;
  taken ← reading (fun b => Ok (sql_count (tracked_elsewhere org (opp_ID o) num documento) (fb_links b)));
  _ ←! fs_require (match taken with Ok n => n <=? 0 | Err _ => true end) 409 "This X2 order is already linked to another opportunity";
  open ← reading (first_link (fun l => of_opp_link (opp_ID o) l && open_link l));
  _ ←! match open with
       | Ok l =>
           r ← writing (WRegister (xl_ID l) num documento);
           match r with
           | Err _ => mret (inr (FRefused 500 "Failed to update link"))
           | Ok n => if n =? 0 then create_link org (opp_ID o) num documento else mret (inl tt)
           end
       | Err _ => create_link org (opp_ID o) num documento
       end;
  _ ←! fs_or (changing (ToPointer (opp_ID o) num documento)) 500 "Failed to update opportunity";
  _ ← writing (WDocument (opp_contact o) documento);
  o ← reread o; mret (FOpp o).
Definition xprocessNotFoundReviewThreshold : Z := 5.
(** The open one, else the newest. *)
Definition current_first (a b : SalesOpportunityXProcessLink) : bool :=
  match open_link a, open_link b with
  | true, false => true
  | false, true => false
  | _, _ => if xl_CreatedAt a =? xl_CreatedAt b then (xl_ID a <=? xl_ID b)%N else xl_CreatedAt b <? xl_CreatedAt a
  end.
(** The units of some companies; the last row of a company wins, and a failure gives none. *)
Definition unitsByXProcessCode (org : uuid) (codes : list string) : FProg (string -> option FUnit) :=
  match List.filter (fun c => negb (String.eqb c "")) codes with
  | [] => mret (fun _ => None)
  | cleaned =>
      r ← reading (fun b => Ok (List.filter (fun u => N.eqb (nu_OrganizationID u) org && negb (nu_Deleted u) &&
                                                     match nu_XProcessCodEmpresa u with Some c => existsb (String.eqb c) cleaned | None => false end) (sr_units (fb_around b))));
      mret (fun code => match r with Ok l => List.find (fun u => bool_decide (nu_XProcessCodEmpresa u = Some code)) (reverse l) | Err _ => None end)
  end.
Definition GetSalesOpportunityXProcessLink (c : Ctx) (id : option uuid) : FProg fs_reply :=
  '(org, user) ←! fs_auth c ActionRead;
  o ←! loadAuthorizedSalesOpportunity id org user;
  l ←! fs_or (reading (fun b => found_row (sql_min current_first (List.filter (of_opp_link (opp_ID o)) (fb_links b))))) 404 "No X2 link registered for this opportunity";
  u ← match xo_CodEmpresa (xl_order l) with Some cod => units ← unitsByXProcessCode org [cod]; mret (units cod) | None => mret None end;
  mret (FLink (MkLinkView l u (open_link l && (xprocessNotFoundReviewThreshold <=? xl_ConsecutiveNotFound l)))).
(** The pass of the SLA processor ([sla_processor.go]). *)
Definition processSalesOpportunitySLA (org : uuid) (now : instant) : FProg unit := _ ← changing (ToBreached org now); mret tt.
