(* ===== verification/SalesOrders.v ===== *)
(** The orders of the X2 ERP: the client ([pkg/xprocess/client.go]), the candidates of an
    opportunity ([sales_opportunity_xprocess_candidates.go]), the daily reconciliation of links
    ([xprocess_reconciler.go]) and the discovery of orders nobody linked ([xprocess_discovery.go]):
    an order is linked to an opportunity only when there is no doubt which one it belongs to, and
    never by the order in which the candidates come. *)
From S2P Require Import Prelude Effects Sql GoText GoAny Visibility Permissions Accounts AccountsApi Phone Sales SalesApi.
From Stdlib Require Import SpecFloat Ascii.

(** * The client *)
Inductive x2_error := ErrPedidoNaoEncontrado | ErrClienteNaoEncontrado | ErrX2.
Abbreviation X2Res := (result x2_error).
(** [strings.Replace(s, ",", ".", 1)]. *)
Fixpoint dotted (s : string) : string :=
  match s with EmptyString => EmptyString | String c s' => if Ascii.eqb c "," then String "." s' else String c (dotted s') end.
Record PedidoResumo := MkResumo {
  pr_NumPedido : string; pr_CodCliente : string; pr_CodEmpresa : string; pr_CodVendedor : string; pr_Status : string; pr_DataVenda : option string;
  pr_ValorTotal : spec_float; pr_ValorFrete : spec_float; pr_Itens : list PedidoItem }.

Section Orders.
(** [strconv.ParseFloat]; [encoding/json] of the three answers; [time.Parse] of a sale date; the
    day of an instant in the application's time zone; a date as [2006-01-02]. *)
Context (parse_float : string -> option spec_float) (decode_pedido : string -> option (list PedidoItem)) (decode_clientes : string -> option (list string))
        (decode_vendas : string -> option (list PedidoItem)) (parse_sale : string -> option instant) (local_day : instant -> Z) (date_text : instant -> string).
Definition ParseDecimalBR (s : string) : option spec_float := parse_float (dotted s).

(** ** Questions *)
Definition answered {A} (decode : string -> option A) (r : option (Z * string)) : X2Res A :=
  match r with
  | Some (status, body) => if (200 <=? status) && (status <? 300) then match decode body with Some a => Ok a | None => Err ErrX2 end else Err ErrX2
  | None => Err ErrX2
  end.
Definition ConsultarPedido (i : XProcessIntegration) (num documento : string) : FProg (X2Res (list PedidoItem)) :=
  r ← call (FX2 i (AskPedido num documento));
  mret match r with Some (404, _) => Err ErrPedidoNaoEncontrado | _ => answered decode_pedido r end.
Definition ConsultarClientePorDocumento (i : XProcessIntegration) (documento : string) : FProg (X2Res string) :=
  r ← call (FX2 i (AskCliente documento));
  mret match answered decode_clientes r with Ok [] => Err ErrClienteNaoEncontrado | Ok (cod :: _) => Ok cod | Err e => Err e end.
Definition ListarVendasPorCliente (i : XProcessIntegration) (codCliente : string) (limit : Z) : FProg (X2Res (list PedidoItem)) :=
  r ← call (FX2 i (AskVendas codCliente limit)); mret (answered decode_vendas r).
Fixpoint sum_totals (acc : spec_float) (items : list PedidoItem) : option spec_float :=
  match items with [] => Some acc | i :: l => v ← ParseDecimalBR (pi_Total i); sum_totals (f64_add acc v) l end.
(** A freight that cannot be read counts as zero. *)
Definition add_freight (acc : spec_float) (i : PedidoItem) : spec_float := match ParseDecimalBR (pi_VlFrete i) with Some f => f64_add acc f | None => acc end.
Definition SummarizePedido (items : list PedidoItem) : option PedidoResumo :=
  match items with
  | [] => None
  | i :: _ =>
      total ← sum_totals f64_zero items;
      Some (MkResumo (pi_NumPedido i) (pi_CodCliente i) (pi_CodEmpresa i) (pi_CodVendedor i) (pi_Status i) (pi_DataVenda i) total (foldl add_freight f64_zero items) items)
  end.
Definition order_key (i : PedidoItem) : string := pi_CodEmpresa i +:+ "|" +:+ pi_NumPedido i.
(** The keys in the order of their first lines. *)
Definition order_keys (items : list PedidoItem) : list string := foldl (fun keys i => if existsb (String.eqb (order_key i)) keys then keys else keys ++ [order_key i]) [] items.
Definition GroupPedidos (items : list PedidoItem) : option (list PedidoResumo) :=
  mapM (fun k => SummarizePedido (List.filter (fun i => String.eqb (order_key i) k) items)) (order_keys items).
Definition xprocessVendasLimit : Z := 1000.
(** The orders of the customer with a document, and whether the list may be cut. *)
Definition findXProcessOrders (i : XProcessIntegration) (documento : string) (limit : Z) : FProg (X2Res (list PedidoResumo * bool)) :=
  cod ← ConsultarClientePorDocumento i documento;
  match cod with
  | Err e => mret (Err e)
  | Ok cod =>
      items ← ListarVendasPorCliente i cod limit;
      mret match items with
           | Err e => Err e
           | Ok items => match GroupPedidos items with Some orders => Ok (orders, limit <=? Z.of_nat (length items)) | None => Err ErrX2 end
           end
  end.

(** * Which order belongs to which opportunity *)
Definition xprocessDiscoveryWindow : duration := 7 * 24 * hour.
Definition xprocessDiscoverableStatus (status : string) : bool := existsb (String.eqb status) ["SEPARACAO"; "SEPARADO"; "FECHADO"].
Definition parseXProcessDataVenda (raw : option string) : option instant := match raw with Some s => if String.eqb s "" then None else parse_sale s | None => None end.
(** Days, not instants; the sale's is the one written. *)
Definition saleOnOrAfterOpening (sale opened : instant) : bool := local_day opened <=? sale / (24 * hour).
Definition sellerCompatible (oppSeller : option string) (orderSeller : string) : bool :=
  let opp := match oppSeller with Some s => trim_space s | None => "" end in
  let order := trim_space orderSeller in
  String.eqb opp "" || String.eqb order "" || String.eqb opp order.
(** An opportunity with the X2 code of its owner. *)
Record Competitor := MkCompetitor { cp_opp : SalesOpportunity; cp_seller : option string }.
Record xprocessMatch := MkMatch { mt_opp : SalesOpportunity; mt_order : PedidoResumo; mt_reason : string }.
Definition candidate_sale (comps : list Competitor) (o : PedidoResumo) (claimed : bool) : option instant :=
  if negb (xprocessDiscoverableStatus (pr_Status o)) || claimed then None
  else sale ← parseXProcessDataVenda (pr_DataVenda o);
       if existsb (fun c => saleOnOrAfterOpening sale (so_OpenedAt (so_origin (cp_opp c)))) comps then Some sale else None.
Definition candidates_of (orders : list (PedidoResumo * bool)) (comps : list Competitor) : list (PedidoResumo * instant) :=
  omap (fun x => sale ← candidate_sale comps (fst x) (snd x); Some (fst x, sale)) orders.
Definition eligible (order : PedidoResumo) (sale : instant) (c : Competitor) : bool :=
  saleOnOrAfterOpening sale (so_OpenedAt (so_origin (cp_opp c))) && sellerCompatible (cp_seller c) (pr_CodVendedor order).
Definition recently_converted (o : SalesOpportunity) (now : instant) : bool :=
  in_status Convertida o && match ou_ConvertedAt (so_outcome o) with Some t => now - xprocessDiscoveryWindow <=? t | None => false end.
Definition match_reason (order : PedidoResumo) (sale : instant) (seller : option string) : string :=
  "único pedido candidato e única oportunidade elegível do documento; venda de " +:+ date_text sale +:+ " em ou após a abertura; " +:+
  (let order := trim_space (pr_CodVendedor order) in
   if match seller with Some s => negb (String.eqb (trim_space s) "") | None => false end && negb (String.eqb order "")
   then "vendedor " +:+ order +:+ " compatível" else "vendedor não verificado (sem código em um dos lados)").
(** The orders come with whether a link tracks them already. *)
Definition decideXProcessMatch (orders : list (PedidoResumo * bool)) (comps : list Competitor) (now : instant) : option xprocessMatch :=
  match candidates_of orders comps with
  | [(order, sale)] =>
      match List.filter (eligible order sale) comps with
      | [c] => if recently_converted (cp_opp c) now then Some (MkMatch (cp_opp c) order (match_reason order sale (cp_seller c))) else None
      | _ => None
      end
  | _ => None
  end.

(** * Reconciling a link *)
Definition xprocessClosedGracePeriod : duration := 7 * 24 * hour.
Definition just_checked (now : instant) (notfound : option Z) : LinkCheck := MkCheck now notfound None None None None.
Definition check_link (id : uuid) (c : LinkCheck) : FProg unit := _ ← writing (WCheck id c); mret tt.
(** Another opportunity's older link has the same order. *)
Definition older_link (l : SalesOpportunityXProcessLink) (codEmpresa : string) (x : SalesOpportunityXProcessLink) : bool :=
  N.eqb (xl_OrganizationID x) (xl_OrganizationID l) && String.eqb (xl_NumPedido x) (xl_NumPedido l) && negb (of_opp_link (xl_SalesOpportunityID l) x) &&
  (bool_decide (xo_CodEmpresa (xl_order x) = Some codEmpresa) || (bool_decide (xo_CodEmpresa (xl_order x) = None) && String.eqb (xl_Documento x) (xl_Documento l))) &&
  ((xl_CreatedAt x <? xl_CreatedAt l) || ((xl_CreatedAt x =? xl_CreatedAt l) && (xl_ID x <? xl_ID l)%N)).
(** A count that fails reads as zero. *)
Definition some_link (p : SalesOpportunityXProcessLink -> bool) : FProg bool :=
  n ← reading (fun b => Ok (sql_count p (fb_links b))); mret match n with Ok n => 0 <? n | Err _ => false end.
Definition xprocessOrderHeldByOlderLink (l : SalesOpportunityXProcessLink) (codEmpresa : string) : FProg bool := some_link (older_link l codEmpresa).
(** A transition that is recorded only when it was the one that happened. *)
Definition x2_transition (o : SalesOpportunity) (l : SalesOpportunityXProcessLink) (c : instant -> change) (kind : SalesOpportunityEventType) : FProg unit :=
  now ← call FNow; r ← changing (c now);
  match r with
  | Ok n => if n =? 0 then mret tt else _ ← new_event (xl_OrganizationID l) (opp_ID o) kind None None SourceXProcess None; mret tt
  | Err _ => mret tt
  end.
Definition convertXProcessOpportunity (o : SalesOpportunity) (l : SalesOpportunityXProcessLink) : FProg unit :=
  x2_transition o l (fun now => ToConverted (opp_ID o) ConversionXProcess now (MkRealized None None)) SaleConverted.
Definition loseXProcessOpportunity (o : SalesOpportunity) (l : SalesOpportunityXProcessLink) : FProg unit :=
  x2_transition o l (ToLost (opp_ID o) "outro" ("Cancelado no X2 (pedido " +:+ xl_NumPedido l +:+ ")")) SaleLost.
Definition cancelXProcessOpportunity (o : SalesOpportunity) (l : SalesOpportunityXProcessLink) : FProg unit := x2_transition o l (ToCancelled (opp_ID o)) SaleCancelled.
Definition setRealizedValueFromXProcess (o : SalesOpportunity) (total : spec_float) : FProg unit :=
  if SFleb total f64_zero then mret tt else _ ← changing (ToRealized (opp_ID o) (opp_org o) total); mret tt.
(** The order was sold: the opportunity is converted and has its value. *)
Definition sold (o : SalesOpportunity) (l : SalesOpportunityXProcessLink) (total : spec_float) : FProg unit :=
  _ ← (if in_status Aberta o then convertXProcessOpportunity o l else mret tt);
  setRealizedValueFromXProcess o total.
(** What follows from the status of the order, and when the link saw it closed first and is done. *)
Definition follow_order (o : SalesOpportunity) (l : SalesOpportunityXProcessLink) (r : PedidoResumo) (now : instant) : FProg (option instant * option instant) :=
  if String.eqb (pr_Status r) "SEPARACAO" || String.eqb (pr_Status r) "SEPARADO" then _ ← sold o l (pr_ValorTotal r); mret (None, None)
  else if String.eqb (pr_Status r) "FECHADO" then
    _ ← sold o l (pr_ValorTotal r);
    let first := default now (xl_FirstClosedAt l) in
    mret (match xl_FirstClosedAt l with None => Some now | Some _ => None end, if first + xprocessClosedGracePeriod <? now then Some now else None)
  else if String.eqb (pr_Status r) "CANCELADO" then
    _ ← match opp_status o with
        | Convertida => cancelXProcessOpportunity o l
        | Aberta => loseXProcessOpportunity o l
        | _ => mret tt
        end;
    mret (None, Some now)
  else mret (None, None).
Definition found_order (r : PedidoResumo) : X2Found := MkFound (pr_CodVendedor r) (pr_Status r) (pr_ValorTotal r) (pr_ValorFrete r) (pr_Itens r).
Definition order_check (now : instant) (company : option string) (r : PedidoResumo) (first resolved : option instant) : LinkCheck :=
  MkCheck now (Some 0) company (Some (found_order r)) first resolved.
Definition reconcileXProcessLink (i : XProcessIntegration) (l : SalesOpportunityXProcessLink) : FProg unit :=
  now ← call FNow;
  items ← ConsultarPedido i (xl_NumPedido l) (xl_Documento l);
  match items with
  | Err ErrPedidoNaoEncontrado => check_link (xl_ID l) (just_checked now (Some (xl_ConsecutiveNotFound l + 1)))
  | Err _ => check_link (xl_ID l) (just_checked now None)
  | Ok items =>
      match SummarizePedido items with
      | None => check_link (xl_ID l) (just_checked now None)
      | Some r =>
          opp ← reading (opp_by_id (xl_SalesOpportunityID l));
          match opp with
          | Err _ => mret tt
          | Ok o =>
              held ← xprocessOrderHeldByOlderLink l (pr_CodEmpresa r);
              if (held : bool) then check_link (xl_ID l) (just_checked now None)
              else
                '(first, resolved) ← follow_order o l r now;
                w ← writing (WCheck (xl_ID l) (order_check now (Some (pr_CodEmpresa r)) r first resolved));
                match w with
                | Err ErrUnique => check_link (xl_ID l) (order_check now None r first resolved)
                | _ => mret tt
                end
          end
      end
  end.

(** * Discovery *)
Definition contact_of (o : SalesOpportunity) (b : FBase) : option FContact := sql_first (fun c => N.eqb (fc_ID c) (opp_contact o) && negb (fc_Deleted c)) (fb_contacts b).
Definition normal_document (raw : string) : option string := match NormalizeDocumento raw with inl d => if String.eqb d "" then None else Some d | inr _ => None end.
Definition oppDocumento (o : SalesOpportunity) (c : option FContact) : string :=
  match px_Documento (so_pointer o) ≫= normal_document with
  | Some d => d
  | None => default "" (c ≫= fun c => normal_document (fc_CPFCNPJ c))
  end.
Definition noLinkYet (b : FBase) (o : SalesOpportunity) : bool := negb (existsb (of_opp_link (opp_ID o)) (fb_links b)).
Definition xprocessOrderClaimed (org : uuid) (codEmpresa num documento : string) : FProg bool :=
  some_link (fun l => N.eqb (xl_OrganizationID l) org && String.eqb (xl_NumPedido l) num && (bool_decide (xo_CodEmpresa (xl_order l) = Some codEmpresa) || String.eqb (xl_Documento l) documento)).
(** Asked of the orders whose status could open a link. *)
Fixpoint claims (org : uuid) (documento : string) (orders : list PedidoResumo) : FProg (list (PedidoResumo * bool)) :=
  match orders with
  | [] => mret []
  | o :: rest =>
      c ← (if xprocessDiscoverableStatus (pr_Status o) then xprocessOrderClaimed org (pr_CodEmpresa o) (pr_NumPedido o) documento else mret false);
      l ← claims org documento rest; mret ((o, c) :: l)
  end.
Definition discovered_link (id org : uuid) (m : xprocessMatch) (documento : string) (now : instant) : SalesOpportunityXProcessLink :=
  let r := mt_order m in
  MkLink id org (opp_ID (mt_opp m)) (pr_NumPedido r) documento (MkX2Order (Some (pr_CodEmpresa r)) (Some (pr_CodVendedor r)) None None None []) "auto" (mt_reason m) None None 0 None now.
Definition createDiscoveredXProcessLink (org : uuid) (m : xprocessMatch) (documento : string) : FProg (option SalesOpportunityXProcessLink) :=
  id ← call FID; event ← call FID; now ← call FNow;
  let l := discovered_link id org m documento now in
  r ← call (FTx (TLinked l (sale_event event org (opp_ID (mt_opp m)) SaleXProcessLinked None None SourceXProcess None now)));
  mret match r with Ok _ => Some l | Err _ => None end.
(** The open or converted opportunities of a document without a link, with their sellers. *)
Definition competitors (org : uuid) (documento : string) (s : FState) : list Competitor :=
  let b := fs_base s in
  let document o c := match px_Documento (so_pointer o) with Some d => if String.eqb d "" then fc_CPFCNPJ c else d | None => fc_CPFCNPJ c end in
  let p o := N.eqb (opp_org o) org && (in_status Aberta o || in_status Convertida o) && noLinkYet b o &&
             match contact_of o b with Some c => String.eqb (document o c) documento | None => false end in
  map (fun o => MkCompetitor o (so_AssignedUserID o ≫= fun u =>
         sql_first (fun r => N.eqb (us_ID r) u && negb (us_Deleted r)) (ac_users (st_acc (fs_acc s))) ≫= us_XProcessSellerCode)) (List.filter p (fb_opps b)).
(** A conversion past the window does not compete. *)
Definition in_pool (now : instant) (c : Competitor) : bool :=
  in_status Aberta (cp_opp c) || match ou_ConvertedAt (so_outcome (cp_opp c)) with Some t => now - xprocessDiscoveryWindow <=? t | None => false end.
Definition discoverForDocumento (i : XProcessIntegration) (org : uuid) (documento : string) (now : instant) : FProg bool :=
  r ← call (FRead (fun s => Ok (competitors org documento s)));
  match r with
  | Err _ => mret false
  | Ok l =>
      match List.filter (in_pool now) l with
      | [] => mret false
      | comps =>
          found ← findXProcessOrders i documento xprocessVendasLimit;
          match found with
          | Err _ => mret false
          | Ok (_, true) => mret false
          | Ok (orders, false) =>
              orders ← claims org documento orders;
              match decideXProcessMatch orders comps now with
              | None => mret false
              | Some m =>
                  link ← createDiscoveredXProcessLink org m documento;
                  match link with None => mret false | Some l => _ ← reconcileXProcessLink i l; mret true end
              end
          end
      end
  end.
Fixpoint each {A} (f : A -> FProg unit) (l : list A) : FProg unit := match l with [] => mret tt | a :: l' => _ ← f a; each f l' end.
(** The documents of opportunities converted in the window and without a link. *)
Definition seeds (org : uuid) (now : instant) (b : FBase) : list string :=
  omap (fun o => let d := oppDocumento o (contact_of o b) in if String.eqb d "" then None else Some d)
    (List.filter (fun o => N.eqb (opp_org o) org && recently_converted o now && noLinkYet b o) (fb_opps b)).
Definition discoverXProcessOrders (i : XProcessIntegration) (org : uuid) : FProg unit :=
  now ← call FNow;
  r ← reading (fun b => Ok (seeds org now b));
  match r with
  | Err _ => mret tt
  | Ok documentos => each (fun d => _ ← discoverForDocumento i org d now; mret tt) (stable_sort str_le (remove_dups documentos))
  end.

(** * The sweep *)
Definition sweep_organization (discovery : bool) (i : XProcessIntegration) : FProg unit :=
  r ← reading (fun b => Ok (List.filter (fun l => N.eqb (xl_OrganizationID l) (xi_OrganizationID i) && open_link l) (fb_links b)));
  match r with
  | Err _ => mret tt
  | Ok links =>
      _ ← each (reconcileXProcessLink i) links;
      if discovery then discoverXProcessOrders i (xi_OrganizationID i) else mret tt
  end.
Definition RunXProcessReconciliation (discovery : bool) : FProg unit :=
  r ← reading (fun b => Ok (List.filter (fun i => xi_IsActive i && negb (xi_Deleted i)) (sr_integrations (fb_around b))));
  match r with Ok l => each (sweep_organization discovery) l | Err _ => mret tt end.
(** A tick at some hour of some day of the operation: what the last run's day becomes. *)
Definition maybeRun (triggerHour : Z) (lastRunDate today : string) (hour : Z) : option string :=
  if (hour <? triggerHour) || String.eqb lastRunDate today then None else Some today.

(** * Candidates shown to an agent *)
Definition ListSalesOpportunityXProcessCandidates (c : Ctx) (id : option uuid) : FProg fs_reply :=
  '(org, user) ←! fs_auth c ActionRead;
  o ←! loadAuthorizedSalesOpportunity id org user;
  contact ← reading (fun b => Ok (contact_of o b));
  let documento := oppDocumento o (match contact with Ok k => k | Err _ => None end) in
  if negb (or_closed (opp_status o)) || String.eqb documento "" then mret (FCandidates [])
  else
    integ ← reading (fun b => found_row (sql_first (fun i => N.eqb (xi_OrganizationID i) org && xi_IsActive i && negb (xi_Deleted i)) (sr_integrations (fb_around b))));
    match integ with
    | Err _ => mret (FCandidates [])
    | Ok i =>
        found ← findXProcessOrders i documento xprocessVendasLimit;
        match found with
        | Err _ => mret (FCandidates [])
        | Ok (orders, _) =>
            tracked ← reading (fun b => Ok (map xl_NumPedido (List.filter (fun l => N.eqb (xl_OrganizationID l) org && String.eqb (xl_Documento l) documento) (fb_links b))));
            units ← unitsByXProcessCode org (map pr_CodEmpresa orders);
            let known := match tracked with Ok l => l | Err _ => [] end in
            mret (FCandidates (omap (fun r =>
              if existsb (String.eqb (pr_NumPedido r)) known then None
              else sale ← parseXProcessDataVenda (pr_DataVenda r);
                   if saleOnOrAfterOpening sale (so_OpenedAt (so_origin o))
                   then Some (MkCandidate (pr_NumPedido r) (pr_CodEmpresa r) (match units (pr_CodEmpresa r) with Some u => nu_Name u | None => "" end) (pr_Status r) (pr_ValorTotal r) sale)
                   else None) orders))
        end
    end.
End Orders.

(** * The only one *)
(** [x] is at one place of [l], and nothing else there passes [p]. *)
Definition only_one {A} (p : A -> Prop) (l : list A) (x : A) : Prop := exists l1 l2, l = l1 ++ x :: l2 /\ p x /\ Forall (fun y => ~ p y) (l1 ++ l2).
Lemma omap_only {A B} (f : A -> option B) l y : omap f l = [y] <-> exists x, f x = Some y /\ only_one (fun x => is_Some (f x)) l x.
Proof.
  assert (Hnil : forall l, omap f l = [] <-> Forall (fun x => ~ is_Some (f x)) l).
  { clear. induction l as [| x l IH]; [split; constructor |]. simpl. destruct (f x) eqn:E; simpl.
    - split; [done |]. intros [H _]%Forall_cons. rewrite E in H. destruct H. by eexists.
    - rewrite IH. rewrite Forall_cons. rewrite E. split; [split; [intros [? ?]; done | done] | by intros [_ ?]]. }
  split.
  - induction l as [| x l IH]; [done |]. simpl. destruct (f x) as [z |] eqn:E; simpl.
    + intros [= -> Hl%Hnil]. exists x. split; [done |]. exists [], l. split_and!; [done | by eexists | done].
    + intros H. destruct (IH H) as (a & Ha & l1 & l2 & -> & Hs & Hn). exists a. split; [done |]. exists (x :: l1), l2. split_and!; [done | done |]. simpl. constructor; [rewrite E; by intros [? ?] | done].
  - intros (x & Hx & l1 & l2 & -> & _ & [H1%Hnil H2%Hnil]%Forall_app). rewrite omap_app, H1. simpl. rewrite Hx. f_equal. exact H2.
Qed.
Lemma filter_only {A} (p : A -> bool) l x : List.filter p l = [x] <-> only_one (fun y => p y = true) l x.
Proof.
  assert (Hnil : forall l, List.filter p l = [] <-> Forall (fun y => ~ p y = true) l).
  { clear. induction l as [| x l IH]; [split; constructor |]. simpl. rewrite Forall_cons. destruct (p x); [split; [done | by intros [[] _]] |]. rewrite IH. split; [by split | by intros [_ ?]]. }
  split.
  - induction l as [| y l IH]; [done |]. simpl. destruct (p y) eqn:E.
    + intros [= -> Hl%Hnil]. by exists [], l.
    + intros H. destruct (IH H) as (l1 & l2 & -> & Hx & Hn). exists (y :: l1), l2. split_and!; [done | done |]. simpl. constructor; [by rewrite E | done].
  - intros (l1 & l2 & -> & Hx & [H1%Hnil H2%Hnil]%Forall_app). rewrite List.filter_app. simpl. by rewrite H1, Hx, H2.
Qed.
Lemma only_one_iff {A} (p q : A -> Prop) l x : (forall y, p y <-> q y) -> only_one p l x <-> only_one q l x.
Proof.
  intros H. assert (Hd : forall p q : A -> Prop, (forall y, p y <-> q y) -> only_one p l x -> only_one q l x); [| split; apply Hd; firstorder].
  clear. intros p q H (l1 & l2 & E & Hx & Hl). exists l1, l2. split_and!; [done | by apply H |]. eapply Forall_impl; [exact Hl |]. intros y Hy Hq. by apply Hy, H.
Qed.
Lemma existsb_perm {A} (p : A -> bool) l l' : l ≡ₚ l' -> existsb p l = existsb p l'.
Proof. induction 1; simpl; [done | congruence | by destruct (p x), (p y) | congruence]. Qed.
Lemma list_filter_perm {A} (p : A -> bool) l l' : l ≡ₚ l' -> List.filter p l ≡ₚ List.filter p l'.
Proof. induction 1; simpl; [done | destruct (p x); [by constructor | done] | destruct (p x), (p y); [apply perm_swap | done..] | by etrans]. Qed.

Section Match.
Context (parse_sale : string -> option instant) (local_day : instant -> Z) (date_text : instant -> string).
Abbreviation decide_match := (decideXProcessMatch parse_sale local_day date_text).
Abbreviation sold_since := (saleOnOrAfterOpening local_day).
(** An order that could be linked: its status says so, no link has it, and it was sold on or after
    the day of the opening of one of the opportunities. *)
Definition linkable (comps : list Competitor) (order : PedidoResumo) (claimed : bool) (sale : instant) : Prop :=
  xprocessDiscoverableStatus (pr_Status order) = true /\ claimed = false /\ parseXProcessDataVenda parse_sale (pr_DataVenda order) = Some sale /\
  exists c, c ∈ comps /\ sold_since sale (so_OpenedAt (so_origin (cp_opp c))) = true.
(** An opportunity it could belong to: opened before, and of the same seller when both have a code. *)
Definition fitting (order : PedidoResumo) (sale : instant) (c : Competitor) : Prop :=
  sold_since sale (so_OpenedAt (so_origin (cp_opp c))) = true /\ sellerCompatible (cp_seller c) (pr_CodVendedor order) = true.
Lemma candidate_linkable comps order claimed sale : candidate_sale parse_sale local_day comps order claimed = Some sale <-> linkable comps order claimed sale.
Proof.
  unfold candidate_sale, linkable. destruct (xprocessDiscoverableStatus _), claimed; simpl; try (split; [done | by intros (? & ? & _)]).
  destruct (parseXProcessDataVenda _ _) as [t |] eqn:E; simpl; [| split; [done | by intros (_ & _ & ? & _)]]. destruct (existsb _ comps) eqn:Ex.
  - split; [| by intros (_ & _ & [= ->] & _)]. intros [= ->]. split_and!; try done. apply existsb_exists in Ex as (c & Hc & H). exists c. split; [by apply list_elem_of_In | done].
  - split; [done |]. intros (_ & _ & [= ->] & c & Hc & H). by rewrite (existsb_not _ _ _ Ex Hc) in H.
Qed.
Lemma fitting_eligible order sale c : eligible local_day order sale c = true <-> fitting order sale c.
Proof. apply andb_true_iff. Qed.

Lemma candidates_only orders comps order sale : candidates_of parse_sale local_day orders comps = [(order, sale)] <->
  exists claimed, linkable comps order claimed sale /\ only_one (fun x => exists t, linkable comps (fst x) (snd x) t) orders (order, claimed).
Proof.
  unfold candidates_of. rewrite omap_only.
  assert (Hf : forall x r t, (sale ← candidate_sale parse_sale local_day comps (fst x) (snd x); Some (fst x, sale)) = Some (r, t) <-> fst x = r /\ linkable comps (fst x) (snd x) t).
  { intros x r t. rewrite <- candidate_linkable. destruct (candidate_sale _ _ _ _ _) as [t' |]; simpl; [| by split; intros; destruct_and?]. split; [by intros [= -> ->] | by intros [-> [= ->]]]. }
  assert (Hs : forall x, is_Some (sale ← candidate_sale parse_sale local_day comps (fst x) (snd x); Some (fst x, sale)) <-> exists t, linkable comps (fst x) (snd x) t).
  { intros x. split; [intros [[r t] H%Hf]; exists t; by destruct H | intros [t H]; exists (fst x, t); by apply Hf]. }
  split.
  - intros ([r claimed] & [E H]%Hf & Ho). simpl in *. subst r. exists claimed. split; [done |]. eapply only_one_iff; [| exact Ho]. intros y. symmetry. apply Hs.
  - intros (claimed & H & Ho). exists (order, claimed). split; [by apply Hf |]. eapply only_one_iff; [| exact Ho]. apply Hs.
Qed.
Lemma decide_only orders comps now opp order : (exists reason, decide_match orders comps now = Some (MkMatch opp order reason)) <->
  exists claimed sale seller, linkable comps order claimed sale /\ only_one (fun x => exists t, linkable comps (fst x) (snd x) t) orders (order, claimed) /\
    only_one (fitting order sale) comps (MkCompetitor opp seller) /\ recently_converted opp now = true.
Proof.
  unfold decideXProcessMatch. split.
  - intros [reason H]. destruct (candidates_of _ _ _ _) as [| [r sale] []] eqn:Ec; [done | | done]. apply candidates_only in Ec as (claimed & H1 & H2).
    destruct (List.filter _ _) as [| c []] eqn:Ef; [done | | done]. apply filter_only in Ef. destruct (recently_converted _ _) eqn:Er; [| done]. injection H as <- <- _.
    exists claimed, sale, (cp_seller c). split_and!; [done | done | | done]. replace (MkCompetitor (cp_opp c) (cp_seller c)) with c by by destruct c. eapply only_one_iff; [| exact Ef].
    intros y. symmetry. apply fitting_eligible.
  - intros (claimed & sale & seller & H1 & H2 & H3 & H4). eexists. assert (Ec : candidates_of parse_sale local_day orders comps = [(order, sale)]) by (apply candidates_only; by exists claimed).
    assert (Ef : List.filter (eligible local_day order sale) comps = [MkCompetitor opp seller]).
    { apply filter_only. eapply only_one_iff; [| exact H3]. intros y. apply fitting_eligible. }
    rewrite Ec, Ef. simpl. by rewrite H4.
Qed.
Lemma singleton_perm {A B} (k : A -> option B) (l l' : list A) : l ≡ₚ l' -> match l with [x] => k x | _ => None end = match l' with [x] => k x | _ => None end.
Proof.
  intros H. pose proof (Permutation_length H) as E. destruct l as [| x [| y l]], l' as [| x' [| y' l']]; try done. by apply Permutation_singleton_inj in H as ->.
Qed.
Lemma decide_perm orders comps now orders' comps' : orders' ≡ₚ orders -> comps' ≡ₚ comps -> decide_match orders' comps' now = decide_match orders comps now.
Proof.
  intros Ho Hc. unfold decideXProcessMatch.
  assert (Hs : forall l, candidates_of parse_sale local_day l comps' = candidates_of parse_sale local_day l comps).
  { intros l. unfold candidates_of. induction l as [| [r c] l IH]; [done |]. cbn. unfold candidate_sale. destruct (_ || c); [exact IH |]. destruct (parseXProcessDataVenda _ _) as [t |]; [| exact IH].
    simpl. rewrite (existsb_perm _ _ _ Hc). by destruct (existsb _ comps); simpl; [f_equal |]. }
  rewrite Hs. assert (Hk : candidates_of parse_sale local_day orders' comps ≡ₚ candidates_of parse_sale local_day orders comps) by (unfold candidates_of; by rewrite Ho).
  set (k := fun (cs : list Competitor) (x : PedidoResumo * instant) => match List.filter (eligible local_day (fst x) (snd x)) cs with
    | [c] => if recently_converted (cp_opp c) now then Some (MkMatch (cp_opp c) (fst x) (match_reason date_text (fst x) (snd x) (cp_seller c))) else None | _ => None end).
  assert (Hkk : forall x, k comps' x = k comps x) by (intros x; apply singleton_perm, list_filter_perm, Hc).
  transitivity (match candidates_of parse_sale local_day orders' comps with [x] => k comps' x | _ => None end); [by destruct (candidates_of _ _ orders' _) as [| [] []] |].
  rewrite (singleton_perm (k comps') _ _ Hk). destruct (candidates_of _ _ orders _) as [| [r t] []]; [done | apply Hkk | done].
Qed.

(** C7: orders are linked only without doubt.  A match is decided exactly when one of the customer's
    orders, and no other, could be linked (its status says it was sold, no link has it, it was sold
    on or after the day one of the opportunities was opened); one of the opportunities, and no other,
    was opened by then and has a compatible seller; and that opportunity was converted in the last
    seven days. The decision does not depend on the order in which the ERP lists the orders or the
    database the opportunities. *)
Theorem match_without_doubt orders comps now :
  (forall order opp, (exists reason, decide_match orders comps now = Some (MkMatch opp order reason)) <->
    exists claimed sale seller, linkable comps order claimed sale /\ only_one (fun x => exists t, linkable comps (fst x) (snd x) t) orders (order, claimed) /\
      only_one (fitting order sale) comps (MkCompetitor opp seller) /\ recently_converted opp now = true) /\
  forall orders' comps', orders' ≡ₚ orders -> comps' ≡ₚ comps -> decide_match orders' comps' now = decide_match orders comps now.
Proof.
  split; [intros order opp; apply decide_only | by apply decide_perm].
Qed.
End Match.
