(* ===== verification/SalesRules.v ===== *)
(** What a goroutine has seen before it touches the sales opportunities: the opportunity it loaded,
    that its user may see and write it, and what a change of stage needs. Every request, and every
    job of the system, touches them with such a warrant. *)
From S2P Require Import Prelude Effects Sql GoText GoAny Visibility Permissions Accounts AccountsApi Phone Sales SalesApi SalesOrders.

(** * The answers a part of a program was given

    [replay f p l a]: [l], newest first, are the operations of [p] (run by a larger program through
    [f]) with their answers, and [a] is what [p] returned. *)
Fixpoint replay {Op Op' : Type -> Type} (f : forall X, Op X -> Op' X) {A} (p : prog Op A) (l : list (Effects.event Op')) (a : A) : Prop :=
  match p with
  | Ret b => l = [] /\ a = b
  | Do op k => exists x l', l = l' ++ [Ev (f _ op) x] /\ replay f (k x) l' a
  end.
Lemma replay_bind {Op Op' : Type -> Type} (f : forall X, Op X -> Op' X) {A B} (p : prog Op A) (k : A -> prog Op B) l b :
  replay f (p ≫= k) l b -> exists a l1 l2, l = l2 ++ l1 /\ replay f p l1 a /\ replay f (k a) l2 b.
Proof.
  revert l. induction p as [a | X op q IH]; intros l H; [by exists a, [], l; rewrite app_nil_r |].
  destruct H as (x & l' & -> & H). apply IH in H as (a & l1 & l2 & -> & H1 & H2). exists a, (l1 ++ [Ev (f X op) x]), l2.
  split_and!; [by rewrite app_assoc | by exists x, l1 | done].
Qed.
Lemma extends_replay {Op Op' : Type -> Type} (f : forall X, Op X -> Op' X) pre contract {A} (p : prog Op A) g :
  (forall X (op : Op X) g, pre X (f X op) g) -> extends pre contract (prog_lift f p) g (fun a g' => exists l, g' = l ++ g /\ replay f p l a).
Proof.
  intros Hpre. unfold extends. assert (H : forall g, ensures pre (trace_contract contract) (prog_lift f p) g (fun a g' => exists l, g' = l ++ g /\ replay f p l a)).
  { clear g. induction p as [a | X op k IH]; intros g; [exists []; done |]. split; [apply Hpre |]. intros x g' [-> _].
    eapply ensures_mono; [| apply IH]. intros a g' (l & -> & Hl). exists (l ++ [Ev (f X op) x]). split; [by rewrite <- app_assoc | by exists x, l]. }
  eapply ensures_mono; [| apply H]. intros a g' (l & -> & Hl). split; [by exists l | by exists l].
Qed.

(** * Warrants *)
Abbreviation trace := (list (Effects.event fs_op)).
Definition saw {X} (g : trace) (f : FBase -> Res X) (x : X) : Prop := Ev (FRead (fun s => f (fs_base s))) (Ok x) ∈ g.
Definition told {A} (g : trace) (p : Prog A) (a : A) : Prop := exists l1 l2 l3, g = l1 ++ l2 ++ l3 /\ replay (fun X => @FAsk X) p l2 a.
(** The permission was asked for in the organization, and the answer was yes. *)
Definition granted (g : trace) (user : uuid) (action : string) (org : uuid) : Prop := told g (HasPermission user ResourceSalesOpportunities action org) true.
(** It is theirs, or of a team mate and they may see their teams', or they may see all. *)
Definition sees (g : trace) (user org : uuid) (o : SalesOpportunity) : Prop :=
  granted g user ActionViewAll org \/ so_AssignedUserID o = Some user \/
  (exists owner, so_AssignedUserID o = Some owner /\ granted g user ActionViewTeam org /\ Ev (FMate user owner) true ∈ g).
(** The opportunity was read in the organization, and is one its user sees. *)
Definition entitled (g : trace) (action : string) (user org : uuid) (o : SalesOpportunity) : Prop :=
  granted g user action org /\ (exists id, saw g (opp_in id org) o) /\ sees g user org o.
Inductive actor := ByUser (user : option uuid) | BySystem.
(** What only a person does, and to which opportunity. *)
Definition by_hand (c : change) : option uuid :=
  match c with
  | ToStage id _ _ | ToDirection id _ | ToDetails id _ _ | ToConverted id ConversionManual _ _ | ToLost id _ _ _ | ToPointer id _ _ => Some id
  | _ => None
  end.
(** Whatever asks: a stage that needs a direction follows a look at one that has it; an edit keeps
    to the columns of the status it requires; a loss has one of the reasons. *)
Definition proper_edit (required : SalesOpportunityStatus) (e : DetailEdit) : Prop :=
  (required = Aberta /\ de_Realized e = MkRealized None None) \/
  (required = Convertida /\ de_Interest e = None /\ de_EstimatedValue e = None /\ de_EstimatedQuantity e = None /\ de_UnitOfMeasure e = None).
Definition proper_change (g : trace) (c : change) : Prop :=
  match c with
  | ToStage id Direcionada _ => exists id' org o, saw g (opp_in id' org) o /\ opp_ID o = id /\ fu_Direcionamento (so_funnel o) <> None
  | ToDetails _ required e => proper_edit required e
  | ToLost _ reason _ _ => existsb (String.eqb reason) ValidSalesLossReasons = true
  | _ => True
  end.
Definition newborn (o : SalesOpportunity) : Prop :=
  opp_status o = Aberta /\ so_outcome o = MkOutcome Aberta None None "" None None None /\ so_realized o = MkRealized None None /\
  opp_stage o = Potencial /\ fu_Direcionamento (so_funnel o) = None /\ fu_SLABreached (so_funnel o) = false.

Section Warrants.
(** Whether nothing is deleted; who asks. *)
Context (lasting : bool) (a : actor).
Definition of_user (P : uuid -> Prop) : Prop := match a with ByUser who => exists user, who = Some user /\ P user | BySystem => True end.
Definition system_only : Prop := a = BySystem.
Definition in_charge (g : trace) (id : uuid) : Prop := of_user (fun user => exists org o, entitled g ActionWrite user org o /\ opp_ID o = id).
(** The open opportunity of a contact of the organization, which somebody who may write wanted opened. *)
Definition wanted_again (g : trace) (id : uuid) : Prop :=
  of_user (fun user => exists org k c o, granted g user ActionWrite org /\ saw g (fcontact_in k org) c /\ saw g (open_of c) o /\ opp_ID o = id).
Definition warranted_write {X} (g : trace) (w : fwrite X) : Prop :=
  match w with
  | WChange c => proper_change g c /\ (system_only \/ exists id, by_hand c = Some id /\ in_charge g id)
  | WEvent e => in_charge g (sv_SalesOpportunityID e) \/ (sv_Type e = SaleRetriggered /\ wanted_again g (sv_SalesOpportunityID e))
  | WLink l => in_charge g (xl_SalesOpportunityID l)
  | WRegister id _ _ => exists l, xl_ID l = id /\ in_charge g (xl_SalesOpportunityID l)
  | WCheck _ _ => system_only
  | WDocument contact _ => of_user (fun user => exists org o, entitled g ActionWrite user org o /\ opp_contact o = contact)
  end.
Definition warranted_tx {X} (g : trace) (t : ftransaction X) : Prop :=
  match t with
  | TOpen day _ _ _ o =>
      newborn o /\ Ev FDay day ∈ g /\
      of_user (fun user => exists k c, granted g user ActionWrite (opp_org o) /\ saw g (fcontact_in k (opp_org o)) c /\ opp_contact o = fc_ID c /\ so_AssignedUserID o = Some user)
  | TDelete id => lasting = false /\ of_user (fun user => told g (IsSuperAdmin user) true /\ exists org o, entitled g ActionDelete user org o /\ opp_ID o = id)
  | TLinked _ _ => system_only
  end.
Definition warranted X (op : fs_op X) (g : trace) : Prop :=
  match op in fs_op X return trace -> Prop with
  | FWrite w => fun g => warranted_write g w
  | FTx t => fun g => warranted_tx g t
  | _ => fun _ => True
  end g.
End Warrants.

(** An answer the state could give. *)
Definition fs_answerable X (op : fs_op X) (x : X) : Prop := exists s s', fs_sem X op s x s'.
Abbreviation gives L a p g P := (extends (warranted L a) fs_answerable p g P).
Abbreviation ok L a p g := (extends (warranted L a) fs_answerable p g (fun _ _ => True)).
(** Operations that leave the tables of the opportunities alone. *)
Definition plain X (op : fs_op X) : Prop := match op with FWrite _ | FTx _ => False | _ => True end.

(** ** What was seen stays seen *)
Lemma told_later {A} g g' (p : Prog A) a : later g g' -> told g p a -> told g' p a.
Proof. intros [l ->] (l1 & l2 & l3 & -> & H). exists (l ++ l1), l2, l3. split; [by rewrite <- app_assoc | done]. Qed.
Lemma fs_saw_later {X} g g' (f : FBase -> Res X) x : later g g' -> saw g f x -> saw g' f x.
Proof. apply later_in. Qed.
Lemma sees_later g g' user org o : later g g' -> sees g user org o -> sees g' user org o.
Proof.
  intros Hl [H | [H | (owner & H1 & H2 & H3)]]; [left; by eapply told_later | by right; left | right; right; exists owner].
  split_and!; [done | by eapply told_later | by eapply later_in].
Qed.
Lemma entitled_later g g' action user org o : later g g' -> entitled g action user org o -> entitled g' action user org o.
Proof. intros Hl (H1 & [id H2] & H3). split_and!; [by eapply told_later | exists id; by eapply fs_saw_later | by eapply sees_later]. Qed.

Section Rules.
Context (L : bool) (a : actor).
Lemma plain_warranted X (op : fs_op X) g : plain X op -> warranted L a X op g.
Proof. by destruct op. Qed.
Lemma ok_plain {A} (p : FProg A) g : only plain p -> ok L a p g.
Proof. apply extends_only. apply plain_warranted. Qed.
Lemma ok_plain_bind {A B} (p : FProg A) (k : A -> FProg B) g : only plain p -> (forall x g', later g g' -> ok L a (k x) g') -> ok L a (p ≫= k) g.
Proof. intros Hp Hk. eapply extends_bind; [by apply ok_plain |]. auto. Qed.
Lemma fs_ok_answering {A} (p : FProg (A + fs_reply)) k g (P : A + fs_reply -> trace -> Prop) :
  gives L a p g P -> (forall x g', later g g' -> P (inl x) g' -> ok L a (k x) g') -> ok L a (answering p k) g.
Proof. intros Hp Hk. by eapply extends_answering. Qed.
Lemma ok_plain_answering {A} (p : FProg (A + fs_reply)) k g : only plain p -> (forall x g', later g g' -> ok L a (k x) g') -> ok L a (answering p k) g.
Proof. intros Hp Hk. eapply fs_ok_answering; [by apply ok_plain | auto]. Qed.
Lemma fs_ok_mret {A} (x : A) g : ok L a (mret x) g.
Proof. by apply extends_ret. Qed.
Lemma fs_ok_mret_answering {A} (r : A + fs_reply) k g : (forall x, r = inl x -> ok L a (k x) g) -> ok L a (answering (mret r) k) g.
Proof. intros H. destruct r; [by apply H | apply fs_ok_mret]. Qed.
Lemma fs_ok_require b code msg k g : (b = true -> ok L a (k tt) g) -> ok L a (answering (fs_require b code msg) k) g.
Proof. intros H. apply fs_ok_mret_answering. intros [] E. apply H. by destruct b. Qed.
(** A read, with the row it gave. *)
Lemma gives_reading {X} (f : FBase -> Res X) g : gives L a (reading f) g (fun r g' => forall x, r = Ok x -> saw g' f x).
Proof. apply extends_call_end; [done |]. intros r _ x ->. by left. Qed.
Lemma gives_or {X} (p : FProg (Res X)) code msg g (P : X -> trace -> Prop) :
  gives L a p g (fun r g' => forall x, r = Ok x -> P x g') -> gives L a (fs_or p code msg) g (fun r g' => forall x, r = inl x -> P x g').
Proof. intros Hp. eapply extends_bind; [exact Hp |]. intros r g' _ H. apply extends_ret. intros x E. apply H. destruct r; [by injection E as -> | done]. Qed.
Lemma ok_or {X} (p : FProg (Res X)) code msg g : ok L a p g -> ok L a (fs_or p code msg) g.
Proof. intros Hp. eapply extends_bind; [exact Hp |]. intros r g' _ _. apply fs_ok_mret. Qed.
Lemma ok_writing {X} (w : fwrite X) g : warranted_write a g w -> ok L a (writing w) g.
Proof. intros H. by apply extends_call_end. Qed.
Lemma ok_changed_one c failed closed g : warranted_write a g (WChange c) -> ok L a (changed_one c failed closed) g.
Proof. intros H. eapply extends_bind; [by apply ok_writing |]. intros r g' _ _. apply fs_ok_mret. Qed.
Lemma ok_new_event org id kind from to src by_ g :
  (forall g', later g g' -> in_charge a g' id \/ (kind = SaleRetriggered /\ wanted_again a g' id)) -> ok L a (new_event org id kind from to src by_) g.
Proof.
  intros H. unfold new_event. apply extends_call; [done |]. intros x _. apply extends_call; [done |]. intros now _. apply ok_writing, H. by eexists [_; _].
Qed.
Lemma plain_reread o : only plain (reread o).
Proof. unfold reread, reading. solve_only. Qed.

(** ** Who sees what *)
Lemma gives_asking {A} (p : Prog A) g : gives L a (asking p) g (fun x g' => told g' p x).
Proof.
  eapply extends_mono; [| apply extends_replay; done]. intros x g' _ (l & -> & H). exists [], l, g. split; [done | exact H].
Qed.
Lemma gives_scope user org g : gives L a (salesScope user org) g (fun level g' =>
  match level with salesScopeAll => granted g' user ActionViewAll org | salesScopeTeam => granted g' user ActionViewTeam org | salesScopeOwn => True end).
Proof.
  unfold salesScope. eapply extends_bind; [apply gives_asking |]. intros [] g1 _ H1; [by apply extends_ret |].
  eapply extends_bind; [apply gives_asking |]. intros [] g2 _ H2; by apply extends_ret.
Qed.
Lemma gives_see o user org g : gives L a (canSeeSalesOpportunity o user org) g (fun b g' => b = true -> sees g' user org o).
Proof.
  unfold canSeeSalesOpportunity. eapply extends_bind; [apply gives_scope |]. intros level g1 _ H1.
  destruct level; [apply extends_ret; intros _; by left | |]; (destruct (so_AssignedUserID o) as [owner |] eqn:Eo; [| by apply extends_ret]).
  - destruct (N.eqb owner user) eqn:E; [apply extends_ret; intros _; right; left; apply N.eqb_eq in E; congruence |].
    apply extends_call_end; [done |]. intros b _ ->. right; right. exists owner. split_and!; [done | | by left].
    eapply told_later; [apply later_cons | exact H1].
  - apply extends_ret. intros E%N.eqb_eq. right; left. congruence.
Qed.
Lemma fs_gives_load action id org user g : granted g user action org ->
  gives L a (loadAuthorizedSalesOpportunity id org user) g (fun r g' => forall o, r = inl o -> entitled g' action user org o).
Proof.
  intros Hg. unfold loadAuthorizedSalesOpportunity, fs_path_id. destruct id as [id |]; [| by apply extends_ret].
  apply (extends_refuse _ _ _ _ _ (fun r g' => r = inl id /\ g' = g)); [by apply extends_ret | | by intros ? ? ? [? _]]. intros i _ _ [[= ->] ->].
  eapply extends_refuse; [apply (gives_or _ _ _ _ (fun o g' => saw g' (opp_in id org) o)), gives_reading | | done].
  intros o g1 H1 Ho. eapply extends_bind; [apply gives_see |]. intros b g2 H2 Hb. apply extends_ret. intros o'. destruct b; [| done]. intros [= <-].
  split_and!; [eapply told_later; [| exact Hg]; by etrans | exists id; eapply fs_saw_later; [done | by apply Ho] | by apply Hb].
Qed.
End Rules.

Lemma fs_gives_auth L c action g : gives L (ByUser (cx_UserID c)) (fs_auth c action) g (fun r g' => forall org user, r = inl (org, user) -> cx_UserID c = Some user /\ granted g' user action org).
Proof.
  unfold fs_auth. eapply extends_bind; [apply gives_asking |]. intros r g' _ (l1 & l2 & l3 & -> & H). apply extends_ret. intros org user E.
  destruct r as [[org' user'] | e]; [injection E as -> -> | done].
  unfold requireAuth in H. apply replay_bind in H as (who & k1 & k2 & -> & Hw & H). destruct who as [[org' user'] |]; [| by destruct H as [_ ?]].
  apply replay_bind in H as (b & k3 & k4 & -> & Hp & H). destruct H as [-> Hb]. destruct b; [| done]. injection Hb as -> ->.
  split.
  - unfold getOrgAndUserID in Hw. apply replay_bind in Hw as (o & k5 & k6 & -> & _ & [_ Hw]). destruct o; [| done]. simpl in Hw. destruct (cx_UserID c); [| done]. simpl in Hw. congruence.
  - exists l1, k3, (k1 ++ l3). split; [by rewrite <- app_assoc | done].
Qed.

(** * The requests *)
Lemma fs_fine_request L c action k g : (forall org user g', later g g' -> cx_UserID c = Some user -> granted g' user action org -> ok L (ByUser (cx_UserID c)) (k (org, user)) g') ->
  ok L (ByUser (cx_UserID c)) (answering (fs_auth c action) k) g.
Proof. intros H. eapply fs_ok_answering; [apply fs_gives_auth |]. intros [org user] g' Hl Hg. destruct (Hg org user eq_refl) as [Hu Hp]. by apply H. Qed.
Lemma fine_loaded L a action id org user k g : granted g user action org -> (forall o g', later g g' -> entitled g' action user org o -> ok L a (k o) g') ->
  ok L a (answering (loadAuthorizedSalesOpportunity id org user) k) g.
Proof. intros Hg H. eapply fs_ok_answering; [by apply fs_gives_load |]. intros o g' Hl Ho. apply H; [done | by apply Ho]. Qed.
Lemma entitled_in_charge who user g org o id : who = Some user -> entitled g ActionWrite user org o -> opp_ID o = id -> in_charge (ByUser who) g id.
Proof. intros -> H E. exists user. split; [done |]. by exists org, o. Qed.
(** The next steps that ask for nothing. *)
Ltac onward :=
  repeat match goal with
  | |- ok _ _ (mret _) _ => apply fs_ok_mret
  | |- ok _ _ (answering (fs_require _ _ _) _) _ => apply fs_ok_require; intros ?
  | |- ok _ _ (answering (only_open _ _) _) _ => apply fs_ok_require; intros ?
  | |- ok _ _ (answering (fs_decoded _) _) _ => apply fs_ok_mret_answering; intros ? ?
  | |- ok _ _ (answering (mret _) _) _ => apply fs_ok_mret_answering; intros ? ?
  | |- ok _ _ (reread _ ≫= _) _ => apply ok_plain_bind; [apply plain_reread | intros ? ? ?]
  | |- ok _ _ (call FNow ≫= _) _ => apply ok_plain_bind; [by split | intros ? ? ?]
  | |- ok _ _ (if ?b then _ else _) _ => destruct b
  | |- ok _ _ (let x := _ in _) _ => cbv zeta
  | |- ok _ _ (let '(_, _) := ?p in _) _ => destruct p
  end.
Ltac see := solve [assumption | reflexivity | eauto 4 using later_preorder | repeat (etrans; [eassumption |]); first [eassumption | reflexivity]].
Lemma fine_reading L c id g : ok L (ByUser (cx_UserID c)) (GetSalesOpportunity c id) g.
Proof. apply fs_fine_request. intros org user g1 _ _ Hg. apply (fine_loaded _ _ ActionRead); [done |]. intros o g2 _ _. onward. Qed.
Lemma only_scope user org : only plain (salesScope user org).
Proof.
  unfold salesScope, asking. assert (H : forall A (p : Prog A), only plain (prog_lift (fun X => @FAsk X) p)).
  { intros A p. apply (only_lift _ (fun _ _ => True)); [done |]. induction p; [exact I | by split]. }
  apply only_bind; [apply H |]. intros []; [exact I |]. apply only_bind; [apply H |]. intros []; exact I.
Qed.
Section Closing.
Context (L : bool) (who : option uuid) (user org : uuid) (o : SalesOpportunity) (Hwho : who = Some user).
Lemma ok_by_hand c failed closed k g : entitled g ActionWrite user org o -> proper_change g c -> by_hand c = Some (opp_ID o) ->
  (forall x g', later g g' -> ok L (ByUser who) (k x) g') -> ok L (ByUser who) (answering (changed_one c failed closed) k) g.
Proof.
  intros He Hp Hc Hk. eapply fs_ok_answering; [apply ok_changed_one; split; [done |] | auto]. right. exists (opp_ID o). split; [done |]. by eapply entitled_in_charge.
Qed.
Lemma ok_reread g : ok L (ByUser who) (o ← reread o; mret (FOpp o)) g.
Proof. onward. Qed.
Lemma ok_recorded kind from to source by_ g : entitled g ActionWrite user org o ->
  ok L (ByUser who) (_ ←! recorded (new_event org (opp_ID o) kind from to source by_); o ← reread o; mret (FOpp o)) g.
Proof.
  intros He. eapply fs_ok_answering; [apply ok_or, ok_new_event | intros; onward]. intros g' Hl. left. eapply entitled_in_charge; [done | by eapply entitled_later | done].
Qed.
End Closing.
Ltac grow H := eapply entitled_later; [| exact H]; see.
Ltac by_hand He := eapply ok_by_hand; [done | grow He | try done | done | intros ? ? ?].
Lemma fs_fine_stage L c id body g : ok L (ByUser (cx_UserID c)) (ChangeSalesOpportunityStage c id body) g.
Proof.
  apply fs_fine_request. intros org user g1 _ Hu Hg. apply (fine_loaded _ _ ActionWrite); [done |]. intros o g2 _ He. onward.
  match goal with H : negb (bool_decide (?x = Direcionada) && _) = true |- _ => rename x into stage; rename H into Hd end.
  by_hand He; [| eapply ok_recorded; [done | grow He]].
  destruct stage; [done | done |]. destruct He as (_ & [i Hi] & _). exists i, org, o. split_and!; [by eapply fs_saw_later | done |].
  intros E. rewrite E in Hd. by rewrite !bool_decide_true in Hd.
Qed.
Lemma fine_direction L c id body g : ok L (ByUser (cx_UserID c)) (ChangeSalesOpportunityDirecionamento c id body) g.
Proof.
  apply fs_fine_request. intros org user g1 _ Hu Hg. apply (fine_loaded _ _ ActionWrite); [done |]. intros o g2 _ He. onward.
  by_hand He. eapply ok_recorded; [done | grow He].
Qed.
(** An edit keeps to the columns its status has. *)
Lemma editable_proper o req required unitSet unit : editable o req = inl required -> parseSalesUnit (dq_UnitOfMeasure req) = Some (unitSet, unit) ->
  proper_edit required (MkDetails (dq_Interest req) (dq_EstimatedValue req) (thousandths <$> dq_EstimatedQuantity req) (if unitSet then Some unit else None)
                                  (MkRealized (dq_RealizedValue req) (thousandths <$> dq_RealizedQuantity req))).
Proof.
  unfold editable, touchesRealized, touchesExpected, proper_edit. intros H Hu.
  destruct (opp_status o); [left | right | done | done]; destruct (dq_RealizedValue req), (dq_RealizedQuantity req); simpl in *; try done; try (by simplify_eq);
    destruct (dq_Interest req), (dq_EstimatedValue req), (dq_EstimatedQuantity req), (dq_UnitOfMeasure req); simpl in *; try done; by simplify_eq.
Qed.
Lemma fine_details L c id body g : ok L (ByUser (cx_UserID c)) (UpdateSalesOpportunityDetails c id body) g.
Proof.
  apply fs_fine_request. intros org user g1 _ Hu Hg. apply (fine_loaded _ _ ActionWrite); [done |]. intros o g2 _ He. onward.
  by_hand He; [| intros; onward]. simpl. eapply editable_proper; [eassumption |]. by destruct (parseSalesUnit _); simplify_eq.
Qed.
Lemma fine_convert L c id body g : ok L (ByUser (cx_UserID c)) (ConvertSalesOpportunity c id body) g.
Proof.
  apply fs_fine_request. intros org user g1 _ Hu Hg. apply (fine_loaded _ _ ActionWrite); [done |]. intros o g2 _ He. onward.
  apply ok_plain_answering.
  - destruct body as [[req |] |]; [| exact I | exact I]. unfold or_refuse, fs_decoded, fs_require. solve_only.
  - intros [value quantity] g3 H3. onward. by_hand He. eapply ok_recorded; [done | grow He].
Qed.
Lemma fine_lose L c id body g : ok L (ByUser (cx_UserID c)) (LoseSalesOpportunity c id body) g.
Proof.
  apply fs_fine_request. intros org user g1 _ Hu Hg. apply (fine_loaded _ _ ActionWrite); [done |]. intros o g2 _ He. onward.
  by_hand He. eapply ok_recorded; [done | grow He].
Qed.
Lemma fs_fine_delete c id g : ok false (ByUser (cx_UserID c)) (DeleteSalesOpportunity c id) g.
Proof.
  apply fs_fine_request. intros org user g1 _ Hu Hg. eapply extends_bind; [apply gives_asking |]. intros super g2 H2 Hs. apply fs_ok_require. intros ->.
  apply (fine_loaded _ _ ActionDelete); [by eapply told_later |]. intros o g3 H3 He.
  eapply fs_ok_answering; [apply ok_or | intros; apply ok_plain_bind; [by split | intros; onward]].
  apply extends_call_end; [| done]. split; [done |]. exists user. split; [done |]. split; [by eapply told_later | by exists org, o].
Qed.

(** ** The single entry *)
Ltac by_cons := repeat (etrans; [| apply later_cons]); first [reflexivity | eassumption].
Definition fills (f : SalesOpportunity -> SalesOpportunity) : Prop := forall o, exists e, f o = with_expected e o.
Lemma fills_all fs o : Forall fills fs -> exists e, foldl (fun o f => f o) o fs = with_expected e o.
Proof.
  intros H. revert o. induction H as [| f fs Hf _ IH]; intros o; [exists (so_expected o); by destruct o |]. simpl. destruct (Hf o) as [e ->].
  destruct (IH (with_expected e o)) as [e' ->]. by exists e'.
Qed.
Section Entry.
Context (L : bool) (a : actor) (c : FContact) (transfer : option uuid) (source : SalesOpportunityEventSource) (interest : string) (value : option SpecFloat.spec_float)
        (override : option uuid) (apply : list (SalesOpportunity -> SalesOpportunity)) (Happly : Forall fills apply) (g : trace).
Let org := fc_OrganizationID c.
(** Who asks may write, and found the contact in their organization; the new one is theirs. *)
Context (Hasked : of_user a (fun user => exists k, granted g user ActionWrite org /\ saw g (fcontact_in k org) c /\ override = Some user)).
Lemma ok_again g' o : later g g' -> saw g' (open_of c) o -> ok L a (retriggered o org source) g'.
Proof.
  intros Hl Ho. eapply extends_bind; [apply ok_new_event | intros; apply fs_ok_mret]. intros g2 H2. right. split; [done |].
  unfold wanted_again, of_user in *. destruct a as [who |]; [| done]. destruct Hasked as (user & Hu & k & H3 & H4 & _). exists user. split; [done |].
  exists org, k, c, o. split_and!; [eapply told_later; [| exact H3] | eapply fs_saw_later; [| exact H4] | eapply fs_saw_later; [| exact Ho] | done]; see.
Qed.
Lemma ok_entry : ok L a (createOrRetriggerSalesOpportunity c transfer source interest value override apply) g.
Proof.
  unfold createOrRetriggerSalesOpportunity. fold org. eapply extends_bind; [apply gives_reading |]. intros [o | e] g1 H1 Ho; [by apply ok_again, Ho |].
  destruct e; try apply fs_ok_mret. apply extends_call; [done |]. intros id _. apply extends_call; [done |]. intros now _.
  destruct (fills_all apply (fresh_opp id now c transfer interest value (match override with Some u => Some u | None => fc_AssignedUserID c end)) Happly) as [ex ->].
  apply extends_call; [done |]. intros day _. apply extends_call; [done |]. intros event _. apply extends_call; [done |]. intros at_ _. apply extends_call.
  - split_and!; [by split_and! | right; right; by left |]. unfold of_user in *. destruct a as [who |]; [| done]. destruct Hasked as (user & Hu & k & H3 & H4 & ->).
    exists user. split; [done |]. exists k, c. split_and!; [eapply told_later; [| exact H3] | eapply fs_saw_later; [| exact H4] | done | done]; by_cons.
  - intros r _. destruct r as [o | []]; try apply fs_ok_mret. eapply extends_bind; [apply gives_reading |]. intros [w | e] g2 H2 Hw; [| apply fs_ok_mret].
    apply ok_again; [| by apply Hw]. etrans; [| exact H2]. by_cons.
Qed.
End Entry.
Lemma fcontact_in_spec k org b c : fcontact_in k org b = Ok c -> c ∈ fb_contacts b /\ fc_ID c = k /\ fc_OrganizationID c = org.
Proof.
  unfold fcontact_in, found_row, sql_first. destruct (List.find _ _) as [x |] eqn:E; [| done]. intros [= ->]. apply find_some in E as [H1%list_elem_of_In H2].
  apply andb_true_iff in H2 as [[H2%N.eqb_eq H3%N.eqb_eq]%andb_true_iff _]. done.
Qed.
Lemma answerable_read {X} (f : FState -> Res X) x : fs_answerable _ (FRead f) (Ok x) -> exists s, f s = Ok x.
Proof. intros (s & s' & _ & [H | H]); [| done]. exists s. done. Qed.
Lemma fs_fine_create L c body g : ok L (ByUser (cx_UserID c)) (CreateSalesOpportunity c body) g.
Proof.
  apply fs_fine_request. intros org user g1 _ Hu Hg. onward.
  eapply (fs_ok_answering _ _ _ _ _ (fun r g' => forall k, r = inl k -> saw g' (fcontact_in (cq_ContactID x) org) k /\ fc_OrganizationID k = org)).
  - eapply extends_bind; [apply (extends_call_end _ _ _ _ (fun r g' => forall k, r = Ok k -> saw g' (fcontact_in (cq_ContactID x) org) k /\ fc_OrganizationID k = org)); [done |] |].
    + intros r Hr k ->. split; [by left |]. apply answerable_read in Hr as [s Hs]. by apply fcontact_in_spec in Hs as (_ & _ & ?).
    + intros r g2 _ Hr. apply extends_ret. intros k E. destruct r; [injection E as ->; by apply Hr | done].
  - intros k g2 H2 Hk. destruct (Hk k eq_refl) as [Hk1 Hk2]. onward. eapply fs_ok_answering; [apply ok_or, ok_entry | intros; onward].
    + constructor; [| constructor]. intros z. by eexists.
    + exists user. split; [done |]. rewrite Hk2. exists (cq_ContactID x). split_and!; [by eapply told_later | done | done].
Qed.

(** ** The order of X2, by hand *)
Lemma first_link_spec p b l : first_link p b = Ok l -> l ∈ fb_links b /\ p l = true.
Proof.
  unfold first_link, found_row. destruct (sql_min _ _) as [x |] eqn:E; [| done]. intros [= ->]. apply sql_min_in in E.
  apply list_elem_of_In, filter_In in E as [E1%list_elem_of_In E2]. done.
Qed.
Section Registering.
Context (L : bool) (who : option uuid) (user org : uuid) (o : SalesOpportunity) (Hwho : who = Some user).
Lemma ok_create_link num documento g : entitled g ActionWrite user org o -> ok L (ByUser who) (create_link org (opp_ID o) num documento) g.
Proof.
  intros He. unfold create_link. apply extends_call; [done |]. intros id _. apply extends_call; [done |]. intros now _. apply ok_or, ok_writing.
  eapply entitled_in_charge; [done | eapply entitled_later; [| exact He]; by_cons | done].
Qed.
Lemma ok_register l num documento g : entitled g ActionWrite user org o -> of_opp_link (opp_ID o) l = true -> warranted_write (ByUser who) g (WRegister (xl_ID l) num documento).
Proof. intros He El%N.eqb_eq. exists l. split; [done |]. rewrite El. by eapply entitled_in_charge. Qed.
End Registering.
Lemma fine_upsert L c id body g : ok L (ByUser (cx_UserID c)) (UpsertSalesOpportunityXProcessLink c id body) g.
Proof.
  apply fs_fine_request. intros org user g1 _ Hu Hg. apply (fine_loaded _ _ ActionWrite); [done |]. intros o g2 _ He. onward. apply ok_plain_bind; [by split |]. intros taken g3 H3. onward.
  match goal with |- context [create_link org (opp_ID o) ?n ?d] => set (num := n); set (documento := d) end.
  eapply extends_bind; [apply (extends_call_end _ _ _ _ (fun r g' => forall l, r = Ok l -> of_opp_link (opp_ID o) l = true)); [done |] |].
  - intros r Hr l ->. apply answerable_read in Hr as [st Hs]. apply first_link_spec in Hs as [_ Hs]. by apply andb_true_iff in Hs as [? _].
  - intros open g4 Hl4 Hopen. eapply fs_ok_answering; [instantiate (1 := fun _ _ => True); destruct open as [l |]; [| eapply ok_create_link; [done | grow He]] |].
    + eapply extends_bind; [apply ok_writing; eapply ok_register; [done | grow He | by apply Hopen] |]. intros r g5 Hl5 _. destruct r as [n |]; [| apply fs_ok_mret].
      destruct (n =? 0); [eapply ok_create_link; [done | grow He] | apply fs_ok_mret].
    + intros _ g5 Hl5 _. eapply fs_ok_answering.
      * apply ok_or, ok_writing. split; [done |]. right. exists (opp_ID o). split; [done |]. eapply entitled_in_charge; [done | grow He | done].
      * intros _ g6 Hl6 _. eapply extends_bind; [apply ok_writing | intros; onward]. exists user. split; [done |]. exists org, o. split; [grow He | done].
Qed.

(** ** Reading *)
Lemma only_asking {A} (p : Prog A) : only plain (asking p).
Proof. apply (only_lift _ (fun _ _ => True)); [done |]. induction p; [exact I | by split]. Qed.
Lemma only_auth c action : only plain (fs_auth c action).
Proof. apply only_bind; [apply only_asking | intros; exact I]. Qed.
Lemma only_answering {Op : Type -> Type} {P : forall X, Op X -> Prop} {R A} (p : prog Op (A + R)) (k : A -> prog Op R) : only P p -> (forall x, only P (k x)) -> only P (answering p k).
Proof. intros Hp Hk. apply only_bind; [done |]. intros [x | e]; [apply Hk | exact I]. Qed.
Lemma only_load id org user : only plain (loadAuthorizedSalesOpportunity id org user).
Proof.
  unfold loadAuthorizedSalesOpportunity, or_refuse. apply only_bind; [exact I |]. intros [i |]; [| exact I]. apply only_bind; [by split |]. intros [o |]; [| exact I].
  apply only_bind; [| intros; exact I]. apply only_bind; [apply only_scope |]. intros level. destruct level; [exact I | |]; (destruct (so_AssignedUserID o); [| exact I]); [| exact I].
  destruct (N.eqb _ _); [exact I | by split].
Qed.
Lemma only_or {A} (p : FProg (Res A)) code msg : only plain p -> only plain (fs_or p code msg).
Proof. intros H. apply only_bind; [done | intros; exact I]. Qed.
Lemma only_reading {X} (f : FBase -> Res X) : only plain (reading f).
Proof. by split. Qed.
#[export] Hint Resolve only_auth only_load only_scope only_reading only_asking : whatc.
Ltac reads :=
  repeat match goal with
  | |- only _ (answering _ _) => apply only_answering; [| intros ?]
  | |- only _ (fs_or _ _ _) => apply only_or
  | |- only _ (fs_require _ _ _) => exact I
  | |- only _ (reading _) => apply only_reading
  | |- only _ (match ?x with _ => _ end) => destruct x
  | |- only _ (let x := _ in _) => cbv beta zeta
  | |- only _ (_ ≫= _) => apply only_bind; [| intros ?]
  | |- only _ (call _) => by split
  | |- only _ (mret _) => exact I
  | |- only _ _ => solve [auto with whatc]
  end.
Lemma only_units org codes : only plain (unitsByXProcessCode org codes).
Proof. unfold unitsByXProcessCode. destruct (List.filter _ codes); reads. Qed.
#[export] Hint Resolve only_units : whatc.
Section Reading.
Context (pg_uuid : string -> option uuid) (numeric_sum : list SpecFloat.spec_float -> SpecFloat.spec_float) (parse_day : uuid -> string -> option (instant * instant)).
Lemma reads_list c f : only plain (ListSalesOpportunities pg_uuid c f).
Proof. unfold ListSalesOpportunities. reads. Qed.
Lemma reads_summary c f : only plain (GetSalesOpportunitiesSummary pg_uuid numeric_sum parse_day c f).
Proof. unfold GetSalesOpportunitiesSummary. reads. repeat break_match; exact I. Qed.
Lemma reads_events c id : only plain (ListSalesOpportunityEvents c id).
Proof. unfold ListSalesOpportunityEvents. reads. Qed.
Lemma reads_scope before c : only plain (GetSalesOpportunitiesScope before c).
Proof. unfold GetSalesOpportunitiesScope. reads. Qed.
Lemma reads_link c id : only plain (GetSalesOpportunityXProcessLink c id).
Proof. unfold GetSalesOpportunityXProcessLink. reads. Qed.
End Reading.

(** ** The system's jobs *)
Section System.
Context (parse_float : string -> option SpecFloat.spec_float) (decode_pedido : string -> option (list PedidoItem)) (decode_clientes : string -> option (list string))
        (decode_vendas : string -> option (list PedidoItem)) (parse_sale : string -> option instant) (local_day : instant -> Z) (date_text : instant -> string).
(** What the system may do without looking. *)
Definition routine X (op : fs_op X) : Prop :=
  match op with
  | FWrite (WChange (ToStage _ _ _)) | FWrite (WChange (ToDetails _ _ _)) => False
  | FWrite (WChange (ToLost _ reason _ _)) => existsb (String.eqb reason) ValidSalesLossReasons = true
  | FTx (TOpen _ _ _ _ _) | FTx (TDelete _) => False
  | _ => True
  end.
Lemma routine_warranted L X (op : fs_op X) g : routine X op -> warranted L BySystem X op g.
Proof.
  destruct op as [| | X w | X t | | | | | |]; try done; [destruct w as [[] | | | | |] | destruct t]; simpl; try done; intros H.
  all: try (split; [first [exact H | exact I] | by left]); try done; try (by left); try (by exists (MkLink id 0 0 "" "" no_order "" "" None None 0 None 0)).
Qed.
Lemma plain_routine X (op : fs_op X) : plain X op -> routine X op.
Proof. by destruct op. Qed.
Lemma routine_event org id kind from to src by_ : only routine (new_event org id kind from to src by_).
Proof. by split_and!. Qed.
Lemma routine_check id c : only routine (check_link id c).
Proof. by split_and!. Qed.
Lemma routine_transition o l c kind : (forall now, match c now with ToStage _ _ _ | ToDetails _ _ _ => False | ToLost _ reason _ _ => existsb (String.eqb reason) ValidSalesLossReasons = true | _ => True end) -> only routine (x2_transition o l c kind).
Proof.
  intros H. unfold x2_transition. apply only_bind; [by split |]. intros now. apply only_bind; [split; [specialize (H now); simpl; by destruct (c now) | intros; exact I] |].
  intros [n |]; [| exact I]. destruct (n =? 0); [exact I |]. apply only_bind; [apply routine_event | intros; exact I].
Qed.
Lemma routine_sold o l total : only routine (sold o l total).
Proof.
  unfold sold, setRealizedValueFromXProcess. apply only_bind; [destruct (in_status Aberta o); [by apply routine_transition | exact I] |]. intros _.
  destruct (SpecFloat.SFleb total f64_zero); [exact I | by split_and!].
Qed.
Lemma routine_follow o l r now : only routine (follow_order o l r now).
Proof.
  unfold follow_order. destruct (_ || _); [apply only_bind; [apply routine_sold | intros; exact I] |].
  destruct (String.eqb _ "FECHADO"); [apply only_bind; [apply routine_sold | intros; exact I] |]. destruct (String.eqb _ "CANCELADO"); [| exact I].
  apply only_bind; [| intros; exact I]. destruct (opp_status o); try exact I; by apply routine_transition.
Qed.
Lemma routine_some_link p : only routine (some_link p).
Proof. by split_and!. Qed.
Lemma routine_reconcile i l : only routine (reconcileXProcessLink parse_float decode_pedido i l).
Proof.
  unfold reconcileXProcessLink. apply only_bind; [by split |]. intros now. apply only_bind; [by split_and! |]. intros [items | e]; [| destruct e; apply routine_check].
  destruct (SummarizePedido parse_float items) as [r |]; [| apply routine_check]. apply only_bind; [by split_and! |]. intros [o |]; [| exact I].
  apply only_bind; [apply routine_some_link |]. intros []; [apply routine_check |]. apply only_bind; [apply routine_follow |]. intros [first resolved].
  apply only_bind; [by split |]. intros [n | e]; [exact I | destruct e; try exact I; apply routine_check].
Qed.
Lemma routine_find i d limit : only routine (findXProcessOrders parse_float decode_clientes decode_vendas i d limit).
Proof. unfold findXProcessOrders. apply only_bind; [by split_and! |]. intros [cod |]; [| exact I]. apply only_bind; [by split_and! | intros; exact I]. Qed.
Lemma routine_claims org d l : only routine (claims org d l).
Proof.
  induction l as [| o l IH]; [exact I |]. simpl. apply only_bind; [destruct (xprocessDiscoverableStatus _); [apply routine_some_link | exact I] |]. intros c.
  apply only_bind; [exact IH | intros; exact I].
Qed.
Lemma routine_each {A} (f : A -> FProg unit) l : (forall x, only routine (f x)) -> only routine (each f l).
Proof. intros H. induction l as [| x l IH]; [exact I |]. apply only_bind; [apply H | intros; exact IH]. Qed.
Abbreviation discover_for := (discoverForDocumento parse_float decode_pedido decode_clientes decode_vendas parse_sale local_day date_text).
Abbreviation sweep := (RunXProcessReconciliation parse_float decode_pedido decode_clientes decode_vendas parse_sale local_day date_text).
Lemma routine_discover i org d now : only routine (discover_for i org d now).
Proof.
  unfold discoverForDocumento. apply only_bind; [by split |]. intros [l |]; [| exact I]. destruct (List.filter _ l) as [| c comps]; [exact I |].
  apply only_bind; [apply routine_find |]. intros [[orders []] |]; [exact I | | exact I]. apply only_bind; [apply routine_claims |]. intros claimed.
  destruct (decideXProcessMatch _ _ _ _ _ _) as [m |]; [| exact I]. apply only_bind; [by split_and! |]. intros [k |]; [| exact I].
  apply only_bind; [apply routine_reconcile | intros; exact I].
Qed.
Lemma routine_sweep discovery : only routine (sweep discovery).
Proof.
  unfold RunXProcessReconciliation. apply only_bind; [by split |]. intros [l |]; [| exact I]. apply routine_each. intros i. unfold sweep_organization. apply only_bind; [by split |].
  intros [links |]; [| exact I]. apply only_bind; [apply routine_each, routine_reconcile |]. intros _. destruct discovery; [| exact I].
  unfold discoverXProcessOrders. apply only_bind; [by split |]. intros now. apply only_bind; [by split |]. intros [docs |]; [| exact I]. apply routine_each. intros d.
  apply only_bind; [apply routine_discover | intros; exact I].
Qed.
Lemma routine_assign c agent : only routine (assignOpenSalesOpportunityToAgent c agent).
Proof. apply only_bind; [by split |]. intros [o |]; [| exact I]. destruct (decide _); [by split_and! | exact I]. Qed.
Lemma routine_sla org now : only routine (processSalesOpportunitySLA org now).
Proof. by split_and!. Qed.
Lemma reads_candidates c id : only plain (ListSalesOpportunityXProcessCandidates parse_float decode_clientes decode_vendas parse_sale local_day c id).
Proof.
  unfold ListSalesOpportunityXProcessCandidates. reads; try (by split_and!). unfold findXProcessOrders, ConsultarClientePorDocumento, ListarVendasPorCliente. reads.
Qed.

(** * Everything that works on opportunities *)
Context (pg_uuid : string -> option uuid) (numeric_sum : list SpecFloat.spec_float -> SpecFloat.spec_float) (parse_day : uuid -> string -> option (instant * instant)).
Inductive sale_request (c : Ctx) : FProg fs_reply -> Prop :=
  | sr_create body : sale_request c (CreateSalesOpportunity c body)
  | sr_list f : sale_request c (ListSalesOpportunities pg_uuid c f)
  | sr_get id : sale_request c (GetSalesOpportunity c id)
  | sr_events id : sale_request c (ListSalesOpportunityEvents c id)
  | sr_summary f : sale_request c (GetSalesOpportunitiesSummary pg_uuid numeric_sum parse_day c f)
  | sr_scope before : sale_request c (GetSalesOpportunitiesScope before c)
  | sr_stage id body : sale_request c (ChangeSalesOpportunityStage c id body)
  | sr_direction id body : sale_request c (ChangeSalesOpportunityDirecionamento c id body)
  | sr_details id body : sale_request c (UpdateSalesOpportunityDetails c id body)
  | sr_convert id body : sale_request c (ConvertSalesOpportunity c id body)
  | sr_lose id body : sale_request c (LoseSalesOpportunity c id body)
  | sr_link id : sale_request c (GetSalesOpportunityXProcessLink c id)
  | sr_upsert id body : sale_request c (UpsertSalesOpportunityXProcessLink c id body)
  | sr_candidates id : sale_request c (ListSalesOpportunityXProcessCandidates parse_float decode_clientes decode_vendas parse_sale local_day c id).
Inductive sale_job : FProg unit -> Prop :=
  | sj_chatbot c : sale_job (create_opportunity c)
  | sj_pickup c agent : sale_job (assignOpenSalesOpportunityToAgent c agent)
  | sj_sla org now : sale_job (processSalesOpportunitySLA org now)
  | sj_sweep discovery : sale_job (sweep discovery).
Definition silently {A} (p : FProg A) : FProg unit := _ ← p; mret tt.
(** What runs; nothing is deleted when it is [lasting]. *)
Inductive sale_goroutine (lasting : bool) : actor -> FProg unit -> Prop :=
  | sg_request c p : sale_request c p -> sale_goroutine lasting (ByUser (cx_UserID c)) (silently p)
  | sg_delete c id : lasting = false -> sale_goroutine lasting (ByUser (cx_UserID c)) (silently (DeleteSalesOpportunity c id))
  | sg_job p : sale_job p -> sale_goroutine lasting BySystem p.
Lemma request_warranted L c p g : sale_request c p -> ok L (ByUser (cx_UserID c)) p g.
Proof.
  destruct 1; [apply fs_fine_create | apply ok_plain, reads_list | apply fine_reading | apply ok_plain, reads_events | apply ok_plain, reads_summary | apply ok_plain, reads_scope | apply fs_fine_stage | apply fine_direction |
    apply fine_details | apply fine_convert | apply fine_lose | apply ok_plain, reads_link | apply fine_upsert | apply ok_plain, reads_candidates].
Qed.
Lemma job_warranted L p g : sale_job p -> ok L BySystem p g.
Proof.
  assert (Hr : forall q : FProg unit, only routine q -> ok L BySystem q g) by (intros q; apply extends_only; apply routine_warranted).
  destruct 1; [| apply Hr, routine_assign | apply Hr, routine_sla | apply Hr, routine_sweep].
  eapply extends_bind; [apply ok_entry; [constructor | exact I] | intros; apply fs_ok_mret].
Qed.
(** Whoever touches an opportunity was entitled to. *)
Lemma goroutine_warranted L a p g : sale_goroutine L a p -> ok L a p g.
Proof.
  destruct 1 as [c p H | c id -> | p H].
  - eapply extends_bind; [by apply request_warranted | intros; apply fs_ok_mret].
  - eapply extends_bind; [apply fs_fine_delete | intros; apply fs_ok_mret].
  - by apply job_warranted.
Qed.
(** C4: only who may touch an opportunity changes it.  Whatever the database, the clocks and the
    ERP answer, a request changes an opportunity (its stage, direction, figures, outcome, order or
    existence), or writes in its timeline, only for a user who was granted the action in an
    organization, after the opportunity was read in that organization and its user was granted to
    see all opportunities, or is its owner, or is a team mate of its owner granted to see the team's;
    only a super admin deletes one; a new one belongs to who asked, for a contact of their
    organization. Also the system's jobs enter the last stage only after a look at a given direction,
    edit only the columns of the status they require, and lose an opportunity for a known reason. *)
Theorem sale_changes_authorized L a p : sale_goroutine L a p -> ensures (warranted L a) (trace_contract fs_answerable) p [] (fun _ _ => True).
Proof. intros H. eapply extends_ensures, goroutine_warranted, H. Qed.
End System.
