(* ===== verification/SalesLives.v ===== *)
(** The life of an opportunity: what may become of it, that its number stays its own, what holds of
    all of them at any moment, and that every operation with its warrant keeps it. Then, however
    requests, jobs and deletions interleave: its life under one number, and what
    holds of all of them. *)
From S2P Require Import Prelude Effects Sql Numbering GoText GoAny Visibility Permissions Accounts AccountsApi Phone Sales SalesApi SalesOrders SalesRules.
From Stdlib Require Import SpecFloat.

(** * What may become of an opportunity *)
Definition leads (s s' : SalesOpportunityStatus) : bool :=
  match s, s' with
  | Aberta, _ | Convertida, (Convertida | Cancelada) | Perdida, Perdida | Cancelada, Cancelada => true
  | _, _ => false
  end.
Definition final (s : SalesOpportunityStatus) : Prop := s = Perdida \/ s = Cancelada.
(** What it was opened with stays. It is closed once, and a conversion may only be cancelled. Who
    has it and its direction are never taken back. Once closed it keeps its place in the funnel,
    what was expected, and how it closed; once lost or cancelled also what was realized. *)
Record evolves (o o' : SalesOpportunity) : Prop := MkEvolves {
  ev_origin : so_origin o' = so_origin o;
  ev_status : leads (opp_status o) (opp_status o') = true;
  ev_agent : forall u, so_AssignedUserID o = Some u -> so_AssignedUserID o' = Some u;
  ev_direction : is_Some (fu_Direcionamento (so_funnel o)) -> is_Some (fu_Direcionamento (so_funnel o'));
  ev_closed : opp_status o <> Aberta -> so_funnel o' = so_funnel o /\ so_expected o' = so_expected o /\
    ou_ConversionSource (so_outcome o') = ou_ConversionSource (so_outcome o) /\ ou_ConvertedAt (so_outcome o') = ou_ConvertedAt (so_outcome o) /\
    ou_LossReason (so_outcome o') = ou_LossReason (so_outcome o) /\ ou_LostAt (so_outcome o') = ou_LostAt (so_outcome o);
  ev_final : final (opp_status o) -> so_outcome o' = so_outcome o /\ so_realized o' = so_realized o }.
Lemma leads_trans s1 s2 s3 : leads s1 s2 = true -> leads s2 s3 = true -> leads s1 s3 = true.
Proof. by destruct s1, s2, s3. Qed.
Lemma leads_closed s s' : leads s s' = true -> s <> Aberta -> s' <> Aberta.
Proof. by destruct s, s'. Qed.
#[global] Instance evolves_preorder : PreOrder evolves.
Proof.
  split; [intros o; split; auto; by destruct (opp_status o) |]. intros o1 o2 o3 [A1 A2 A3 A4 A5 A6] [B1 B2 B3 B4 B5 B6]. split; [congruence | by eapply leads_trans | auto | auto | |].
  - intros H. destruct (A5 H) as (? & ? & ? & ? & ? & ?), (B5 (leads_closed _ _ A2 H)) as (? & ? & ? & ? & ? & ?). split_and!; congruence.
  - intros H. destruct (A6 H) as [E1 E2]. rewrite <- E1, <- E2. apply B6. by rewrite E1.
Qed.

(** ** Every update lets it evolve *)
(** An edit keeps to the columns of the status it requires. *)
Definition plain_change (c : change) : Prop := match c with ToDetails _ required e => proper_edit required e | _ => True end.
Lemma change_evolves c o : plain_change c -> change_where c o = true -> evolves o (change_set c o).
Proof.
  intros Hp Hw.
  assert (Hs : match c with
               | ToStage _ _ _ | ToDirection _ _ | ToConverted _ _ _ _ | ToLost _ _ _ _ | ToBreached _ _ => opp_status o = Aberta
               | ToDetails _ required _ => opp_status o = required
               | ToCancelled _ _ | ToRealized _ _ _ => opp_status o = Convertida
               | ToAgent _ _ => so_AssignedUserID o = None
               | ToPointer _ _ _ => True
               end).
  { destruct c; simpl in *; unfold in_status in *; bool_hyps; done. }
  clear Hw. unfold final. destruct c as [| | | | | | | | |]; cbn in *; split; cbn; rewrite ?Hs; try done; try (by intros [? | ?]); try congruence; try (by destruct (opp_status o)); auto.
  - by destruct Hp as [[-> _] | [-> _]].
  - intros H. destruct Hp as [[-> _] | (_ & -> & -> & -> & ->)]; [done |]. by destruct (so_expected o).
  - by destruct Hp as [[-> _] | [-> _]]; intros [? | ?].
Qed.

(** * Numbers *)
#[global] Program Instance sale_counters : CounterRows SalesOpportunityCounter (uuid * string) :=
  {| keyed k c := is_sale_counter (fst k) (snd k) c; seq_of := sc_LastSeq; new_counter k := MkSaleCounter (fst k) (snd k) 0; bumped_row := sale_bumped |}.
Next Obligation.
  intros [] [] c [H1%N.eqb_eq H2%String.eqb_eq]%andb_true_iff [H3%N.eqb_eq H4%String.eqb_eq]%andb_true_iff. simpl in *. congruence.
Qed.
Solve All Obligations with done.
Lemma number_text_inj d d' n n' : String.length d = 8%nat -> String.length d' = 8%nat -> int_range n -> int_range n' -> number_text d n = number_text d' n' -> d = d' /\ n = n'.
Proof.
  unfold number_text, int_range. intros Hd Hd' Hn Hn' E. injection E as E.
  do 8 (destruct d as [| ? d]; [done |]; destruct d' as [| ? d']; [done |]). destruct d, d'; [| done..]. simpl in E. injection E as -> -> -> -> -> -> -> -> E.
  apply pad6_inj in E as ->; done.
Qed.
#[global] Program Instance sale_numbers : Tagging SalesOpportunity (uuid * string) (uuid * string) :=
  {| tag_of o := (opp_org o, opp_number o); tag_as k n := (fst k, number_text (snd k) n); proper_key k := String.length (snd k) = 8%nat; became := evolves |}.
Next Obligation. intros o o' H. simpl. by rewrite (ev_origin _ _ H). Qed.
Next Obligation. intros [org d] [org' d'] n n' Hd Hd' Hn Hn' E. simpl in *. assert (org = org') as -> by congruence. assert (E' : number_text d n = number_text d' n') by congruence. by apply number_text_inj in E' as [-> ->]. Qed.
Definition opp_numbers (b : FBase) : Prop := numbered (last_of (fb_counters b)) (fb_opps b).
Definition opp_history (b b' : FBase) : Prop := counting (last_of (fb_counters b)) (fb_opps b) (last_of (fb_counters b')) (fb_opps b').
Abbreviation tracked b b' := (opp_history b b' /\ opp_numbers b').
#[global] Instance opp_history_preorder : PreOrder opp_history.
Proof. split; [intros b; apply counting_refl | intros b1 b2 b3; apply counting_trans]. Qed.
Lemma tracked_none b b' (f : SalesOpportunity -> SalesOpportunity) : opp_numbers b -> fb_counters b' = fb_counters b ->
  (forall o, o ∈ fb_opps b' -> exists o', o' ∈ fb_opps b /\ o = f o') -> (forall o, evolves o (f o)) -> tracked b b'.
Proof. intros Hn Hc Ho Hf. apply (counting_none _ _ _ _ f); [intros k; by rewrite Hc | done | intros; apply Hf | done]. Qed.
Lemma tracked_same b b' : opp_numbers b -> fb_counters b' = fb_counters b -> fb_opps b' = fb_opps b -> tracked b b'.
Proof. intros Hn Hc Ho. apply (tracked_none _ _ id); [done | done | rewrite Ho; intros o H; by exists o | done]. Qed.
Lemma tracked_change b c : opp_numbers b -> plain_change c -> tracked b (snd (apply_change c b)).
Proof.
  intros Hn Hp. apply (tracked_none _ _ (fun o => if change_where c o then change_set c o else o)); [done | done | intros o; apply sql_update_in |].
  intros o. destruct (change_where c o) eqn:E; [by apply change_evolves | done].
Qed.
Lemma tracked_write {X} (w : fwrite X) b : opp_numbers b -> match w with WChange c => plain_change c | _ => True end -> tracked b (snd (fdo w b)).
Proof.
  intros Hn. destruct w; simpl; [by apply tracked_change | intros _..]; unfold insert_event, insert_link, update_link; repeat break_match; by apply tracked_same.
Qed.

(** ** Transactions *)
(** What the opening of an opportunity did. *)
Record opened (day : string) (o : SalesOpportunity) (b b' : FBase) (n : Z) : Prop := MkOpened {
  od_row : fb_opps b' = fb_opps b ++ [with_number (number_text day n) o];
  od_new : existsb (opp_conflict (with_number (number_text day n) o)) (fb_opps b) = false;
  od_counter : exists c, sql_first (keyed (opp_org o, day)) (with_row (opp_org o, day) (fb_counters b)) = Some c /\ (sc_LastSeq c =? max_int64) = false /\ n = sc_LastSeq c + 1 /\
    fb_counters b' = sql_update (keyed (opp_org o, day)) bumped_row (with_row (opp_org o, day) (fb_counters b)) }.
Lemma opening_opened day event now source o b r b' : db_sem (fbody (TOpen day event now source o)) b (Ok r) b' -> exists n, opened day o b b' n.
Proof.
  unfold fbody, nextOpportunityNumber. intros [(e & _ & ?) | (number & b3 & H1 & H)]%db_sem_try; [done |].
  apply db_sem_step in H1 as ([] & b1 & E1 & H1). apply db_sem_step in H1 as (seq & b2 & E2 & H1). apply db_sem_ret in H1 as [[= ->] ->]. cbv zeta in H.
  apply db_sem_step in H as ([] & b4 & E4 & H). apply db_sem_step in H as ([] & b5 & E5 & H). apply db_sem_ret in H as [_ ->].
  injection E1 as <-. set (k := (opp_org o, day)).
  assert (Hrow : forall b1, b1 = (if existsb (is_sale_counter (opp_org o) day) (fb_counters b) then b else set_counters (fun l => l ++ [MkSaleCounter (opp_org o) day 0]) b) ->
                 fb_counters b1 = with_row k (fb_counters b) /\ fb_opps b1 = fb_opps b) by (intros b1 ->; unfold with_row; change (keyed k) with (is_sale_counter (opp_org o) day); by destruct (existsb _ _)).
  destruct (Hrow _ eq_refl) as [Hc Ho]. clear Hrow. unfold bump_sale_counter in E2. rewrite Hc in E2. destruct (sql_first _ _) as [c |] eqn:Ec; [| done].
  destruct (sc_LastSeq c =? max_int64) eqn:Em; [done |]. injection E2 as <- <-. unfold insert_opp in E4. destruct (existsb _ _) eqn:Ex; [done |]. injection E4 as <-.
  unfold insert_event in E5. destruct (existsb _ (fb_events _)); [done |]. injection E5 as <-. exists (sc_LastSeq c + 1). split; cbn.
  - by rewrite Ho.
  - cbn in Ex. by rewrite Ho in Ex.
  - exists c. split_and!; [exact Ec | done | done | by rewrite Hc].
Qed.
Lemma deletion_deleted id b x b' : db_sem (fbody (TDelete id)) b (Ok x) b' -> fb_counters b' = fb_counters b /\ fb_opps b' = unless (is_opp id) (fb_opps b).
Proof.
  intros H. apply db_sem_step in H as (? & b1 & E1 & H). apply db_sem_step in H as (? & b2 & E2 & H). apply exec_ok_sem in H. by simplify_eq/=.
Qed.
Lemma linked_pointed l e b x b' : db_sem (fbody (TLinked l e)) b (Ok x) b' -> fb_counters b' = fb_counters b /\
  fb_opps b' = fb_opps (snd (apply_change (ToPointer (xl_SalesOpportunityID l) (xl_NumPedido l) (xl_Documento l)) b)).
Proof.
  intros H. apply db_sem_step in H as (? & b1 & E1 & H). apply db_sem_step in H as (? & b2 & E2 & H). apply exec_ok_sem in H.
  unfold apply_change in E2. injection E2 as _ <-. unfold insert_link in E1. destruct (_ || _); [done |]. injection E1 as _ <-. unfold insert_event in H. destruct (existsb _ _); [done |]. by injection H as _ <-.
Qed.

(** * A sound opportunity *)
Definition no_outcome : Outcome := MkOutcome Aberta None None "" None None None.
(** The columns of an outcome are those of its status. *)
Definition outcome_fits (u : Outcome) : Prop :=
  match ou_Status u with
  | Aberta => u = no_outcome
  | Convertida => is_Some (ou_ConvertedAt u) /\ is_Some (ou_ConversionSource u) /\ ou_LostAt u = None /\ ou_LossReason u = None /\ ou_CancelledAt u = None
  | Perdida => ou_ConvertedAt u = None /\ ou_ConversionSource u = None /\ is_Some (ou_LostAt u) /\ (exists r, ou_LossReason u = Some r /\ r ∈ ValidSalesLossReasons) /\ ou_CancelledAt u = None
  | Cancelada => is_Some (ou_ConvertedAt u) /\ is_Some (ou_ConversionSource u) /\ ou_LostAt u = None /\ ou_LossReason u = None /\ is_Some (ou_CancelledAt u)
  end.
(** Only what was converted has something realized; only an open and directed one is late. *)
Record sane (o : SalesOpportunity) : Prop := MkSane {
  sn_outcome : outcome_fits (so_outcome o);
  sn_realized : ou_ConvertedAt (so_outcome o) = None -> so_realized o = MkRealized None None;
  sn_late : fu_SLABreached (so_funnel o) = true -> opp_status o = Aberta /\ opp_stage o = Direcionada /\ is_Some (fu_SLABreachedAt (so_funnel o)) }.
Definition sound_change (c : change) : Prop := plain_change c /\ match c with ToLost _ reason _ _ => existsb (String.eqb reason) ValidSalesLossReasons = true | _ => True end.
Lemma proper_sound g c : proper_change g c -> sound_change c.
Proof. by destruct c. Qed.
Lemma newborn_sane o : newborn o -> sane o.
Proof. intros (E1 & E2 & E3 & E4 & E5 & E6). split; [rewrite E2; done | done | by rewrite E6]. Qed.
Lemma valid_reason r : existsb (String.eqb r) ValidSalesLossReasons = true -> r ∈ ValidSalesLossReasons.
Proof. intros (x & Hx & E%String.eqb_eq)%existsb_exists. subst. by apply list_elem_of_In. Qed.
(** Open exactly when nothing has come of it. *)
Lemma outcome_open u : outcome_fits u -> ou_Status u = Aberta -> u = no_outcome.
Proof. unfold outcome_fits. intros H E. by rewrite E in H. Qed.
Lemma sane_not_late o : sane o -> opp_status o <> Aberta -> fu_SLABreached (so_funnel o) = false.
Proof. intros [_ _ H] Hs. destruct (fu_SLABreached _); [| done]. by destruct (H eq_refl). Qed.
Lemma sane_change c o : sound_change c -> change_where c o = true -> sane o -> sane (change_set c o).
Proof.
  intros [Hp Hr] Hw [S1 S2 S3]. destruct o as [g a [st at_ d late lateat] x r p [s src why notes conv lost canc]]. unfold outcome_fits in S1. cbn in *.
  destruct c; cbn in *; unfold in_status in *; cbn in *; bool_hyps; subst; cbn in *; (split; unfold outcome_fits; cbn; try done).
  all: unfold no_outcome, proper_edit, realized_or in *; try (intros; destruct_and?; simplify_eq/=; first [done | split_and!; eauto using valid_reason; done]).
  - case_decide; [| done]. intros Hl. by destruct (S3 Hl) as (_ & _ & ?).
  - destruct Hp as [[-> E] | [-> _]]; [| intros ->; by destruct S1 as [[? ?] _]]. rewrite E. simpl. injection S1 as -> -> -> -> -> ->. intros _. by rewrite S2.
  - intros Hl. by destruct (S3 Hl).
Qed.

(** * What an operation with its warrant does to them *)
Section Moves.
Context (lasting : bool) (a : actor) (g : trace) (b : FBase).
Inductive move : FBase -> Prop :=
  | mv_none b' : fb_counters b' = fb_counters b -> fb_opps b' = fb_opps b -> move b'
  | mv_change b' c : proper_change g c -> fb_counters b' = fb_counters b -> fb_opps b' = sql_update (change_where c) (change_set c) (fb_opps b) -> move b'
  | mv_open b' day o n : newborn o -> Ev FDay day ∈ g -> opened day o b b' n -> move b'
  | mv_delete b' id : lasting = false -> fb_counters b' = fb_counters b -> fb_opps b' = unless (is_opp id) (fb_opps b) -> move b'.
Lemma write_move {X} (w : fwrite X) r b' : warranted_write a g w -> db_sem (exec (fdo w)) b r b' -> move b'.
Proof.
  intros Hw H. assert (Hm : move (snd (fdo w b))).
  { destruct w; simpl in *; [by eapply mv_change; [apply Hw | ..] | ..]; unfold insert_event, insert_link, update_link; repeat break_match; by apply mv_none. }
  apply db_sem_exec in H as [E | [_ [-> | ->]]]; [by rewrite <- E in Hm | by apply mv_none | done].
Qed.
Lemma tx_move {X} (t : ftransaction X) r b' : warranted_tx lasting a g t -> db_sem (transaction (fbody t)) b r b' -> move b'.
Proof.
  intros Hw [[-> _] | (y & Hm & _)]%db_sem_transaction; [by apply mv_none |]. destruct t.
  - apply opening_opened in Hm as [n Hm]. destruct Hw as (H1 & H2 & _). by eapply mv_open.
  - apply deletion_deleted in Hm as [H1 H2]. destruct Hw as [Hl _]. by eapply mv_delete.
  - apply linked_pointed in Hm as [H1 H2]. by apply (mv_change _ (ToPointer (xl_SalesOpportunityID l) (xl_NumPedido l) (xl_Documento l))).
Qed.
End Moves.
Lemma move_of lasting a X (op : fs_op X) g s x s' : warranted lasting a X op g -> fs_sem X op s x s' -> move lasting g (fs_base s) (fs_base s').
Proof.
  destruct op; simpl; intros Hw Hs; try (subst s'; by apply mv_none).
  - destruct Hs as (y & _ & ->). by apply mv_none.
  - destruct Hs as [-> _]. by apply mv_none.
  - destruct Hs as (b & Hb & ->). by eapply write_move.
  - destruct Hs as (b & Hb & ->). by eapply tx_move.
  - destruct Hs as [_ ->]. by apply mv_none.
  - destruct Hs as [-> _]. by apply mv_none.
Qed.

(** * The tables *)
Definition live (b : FBase) (o : SalesOpportunity) : Prop := o ∈ fb_opps b /\ opp_status o = Aberta.
Record well_formed (lasting : bool) (b : FBase) : Prop := MkWellFormed {
  wf_numbers : opp_numbers b;
  wf_ids : NoDup (map (fun o => opp_ID o) (fb_opps b));
  wf_live : forall o o', live b o -> live b o' -> opp_org o = opp_org o' -> opp_contact o = opp_contact o' -> o = o';
  wf_sane : forall o, o ∈ fb_opps b -> sane o;
  wf_directed : lasting = true -> forall o, o ∈ fb_opps b -> opp_stage o = Direcionada -> is_Some (fu_Direcionamento (so_funnel o)) }.
(** From one moment to a later one. *)
Record onward (lasting : bool) (b b' : FBase) : Prop := MkOnward {
  on_history : opp_history b b';
  on_lasting : lasting = true -> forall o, o ∈ fb_opps b -> exists o', o' ∈ fb_opps b' /\ evolves o o' }.
#[global] Instance onward_preorder lasting : PreOrder (onward lasting).
Proof.
  split; [intros b; split; [reflexivity | intros _ o Ho; by exists o] |]. intros b1 b2 b3 [A1 A2] [B1 B2]. split; [by etrans |]. intros L o Ho.
  destruct (A2 L o Ho) as (o' & Ho' & E). destruct (B2 L o' Ho') as (o'' & Ho'' & E'). exists o''. split; [done | by etrans].
Qed.
Lemma evolves_live o o' : evolves o o' -> opp_status o' = Aberta -> opp_status o = Aberta.
Proof. intros H E. pose proof (ev_status _ _ H) as Hl. rewrite E in Hl. by destruct (opp_status o). Qed.
Section Updates.
Context (lasting : bool) (b b' : FBase) (f : SalesOpportunity -> SalesOpportunity) (Hwf : well_formed lasting b) (Hc : fb_counters b' = fb_counters b) (Ho : fb_opps b' = map f (fb_opps b))
        (Hf : forall o, evolves o (f o)) (Hsane : forall o, sane o -> sane (f o))
        (Hdir : lasting = true -> forall o, o ∈ fb_opps b -> opp_stage (f o) = Direcionada -> is_Some (fu_Direcionamento (so_funnel (f o)))).
Lemma update_from o' : o' ∈ fb_opps b' -> exists o, o ∈ fb_opps b /\ o' = f o.
Proof. rewrite Ho. intros (o & -> & H)%list_elem_of_fmap. by exists o. Qed.
Lemma sale_update_keeps : onward lasting b b' /\ well_formed lasting b'.
Proof.
  destruct Hwf as [H1 H2 H3 H4 H5]. destruct (tracked_none b b' f H1 Hc update_from Hf) as [A B]. split; [split; [done |] | split; [done | | | |]].
  - intros _ o H. exists (f o). split; [| apply Hf]. rewrite Ho. apply list_elem_of_fmap. by exists o.
  - rewrite Ho, map_map. erewrite map_ext; [exact H2 |]. intros o. simpl. by rewrite (ev_origin _ _ (Hf o)).
  - intros ? ? [(o & Hi & ->)%update_from Hs] [(o2 & Hi2 & ->)%update_from Hs2]. rewrite (ev_origin _ _ (Hf o)), (ev_origin _ _ (Hf o2)). intros E1 E2.
    f_equal. apply H3; try done; (split; [done |]; eapply evolves_live; [apply Hf | done]).
  - intros ? (o & Hi & ->)%update_from. by apply Hsane, H4.
  - intros L ? (o & Hi & ->)%update_from. by apply Hdir.
Qed.
End Updates.
Lemma tracked_open day o b b' n : opp_numbers b -> String.length day = 8%nat -> opened day o b b' n -> opp_history b b' /\ opp_numbers b'.
Proof.
  intros Hn Hd [Hrow _ (c & Hc & Em & -> & Hb)]. set (k := (opp_org o, day)) in *.
  destruct (last_next k (fb_counters b) c) as (H1 & H2 & H3 & H4); [apply (nb_last _ _ Hn) | done | done |].
  unfold opp_history, opp_numbers. rewrite Hrow, Hb. by apply (counting_next _ _ _ k (sc_LastSeq c + 1)).
Qed.
Lemma open_keeps lasting b b' day o n : well_formed lasting b -> newborn o -> String.length day = 8%nat -> opened day o b b' n -> onward lasting b b' /\ well_formed lasting b'.
Proof.
  intros [H1 H2 H3 H4 H5] Hb Hd Hop. destruct (tracked_open _ _ _ _ _ H1 Hd Hop) as [A B]. destruct Hop as [Ho Hnew _]. set (x := with_number (number_text day n) o) in *.
  assert (Hx : sane x) by by apply newborn_sane.
  assert (Hother : forall y, y ∈ fb_opps b -> opp_ID y <> opp_ID x /\ (opp_status y = Aberta -> opp_org y = opp_org x -> opp_contact y = opp_contact x -> False)).
  { intros y Hy. pose proof (existsb_not _ _ _ Hnew Hy) as E. unfold opp_conflict, is_opp in E. apply orb_false_iff in E as [[E1%N.eqb_neq _]%orb_false_iff E3]. split; [done |].
    intros Es Eo Ec. rewrite Eo, Ec, !N.eqb_refl in E3. assert (Ex : opp_status x = Aberta) by apply Hb. unfold in_status in E3. rewrite Es, Ex in E3. done. }
  split; [split; [done |] | split; [done | | | |]]; rewrite ?Ho.
  - intros _ y Hy. exists y. split; [apply elem_of_app; by left | done].
  - rewrite map_app. apply NoDup_app. split_and!; [done | | by apply NoDup_singleton]. intros i (y & -> & Hy)%list_elem_of_fmap E%list_elem_of_singleton. by destruct (Hother y Hy).
  - intros y z [Hy Hsy] [Hz Hsz] Eo Ec. rewrite Ho in Hy, Hz.
    apply elem_of_app in Hy as [Hy | ->%list_elem_of_singleton], Hz as [Hz | ->%list_elem_of_singleton]; [by apply H3 | | | done].
    + by destruct (Hother y Hy) as [_ []].
    + by destruct (Hother z Hz) as [_ []].
  - intros y [Hy | ->%list_elem_of_singleton]%elem_of_app; [by apply H4 | done].
  - intros L y [Hy | ->%list_elem_of_singleton]%elem_of_app; [by apply H5 |]. destruct Hb as (_ & _ & _ & E & _). cbn. by rewrite E.
Qed.
Lemma unless_in {A} (p : A -> bool) l x : x ∈ unless p l -> x ∈ l.
Proof. unfold unless. rewrite !list_elem_of_In, filter_In. by intros [? _]. Qed.
Lemma unless_map {A B} (g : A -> B) p (l : list A) : NoDup (map g l) -> NoDup (map g (unless p l)).
Proof.
  unfold unless. induction l as [| x l IH]; [done |]. simpl. intros [Hx Hl]%NoDup_cons. destruct (negb (p x)); [| by apply IH]. constructor; [| by apply IH].
  intros (y & E & Hy%unless_in)%list_elem_of_fmap. apply Hx, list_elem_of_fmap. by exists y.
Qed.
Lemma delete_keeps lasting b b' id : lasting = false -> well_formed lasting b -> fb_counters b' = fb_counters b -> fb_opps b' = unless (is_opp id) (fb_opps b) -> onward lasting b b' /\ well_formed lasting b'.
Proof.
  intros ->. intros [H1 H2 H3 H4 H5] Hc Ho. assert (Hin : forall o, o ∈ fb_opps b' -> o ∈ fb_opps b) by (intros o; rewrite Ho; apply unless_in).
  destruct (tracked_none b b' (fun o => o) H1 Hc) as [A B]; [intros o H; exists o; auto | done |]. split; [done | split; [done | | | auto | done]].
  - rewrite Ho. by apply unless_map.
  - intros o o' [Hi Hs] [Hi' Hs']. apply H3; split; auto.
Qed.

(** * Every operation keeps them *)
Section Steps.
Context (lasting : bool).
Definition sound_state (s : FState) : Prop := well_formed lasting (fs_base s).
Definition onward_state (s s' : FState) : Prop := onward lasting (fs_base s) (fs_base s').
#[global] Instance onward_state_preorder : PreOrder onward_state.
Proof. split; [intros s; unfold onward_state; reflexivity |]. intros s1 s2 s3. apply onward_preorder. Qed.
Abbreviation recalled := (witnessed fs_sem onward_state sound_state).
(** A direction seen once is there, as long as nothing is deleted. *)
Lemma direction_stays g s id org o r : lasting = true -> (forall e, e ∈ g -> recalled e s) -> sound_state s -> saw g (opp_in id org) o -> is_Some (fu_Direcionamento (so_funnel o)) ->
  r ∈ fb_opps (fs_base s) -> opp_ID r = opp_ID o -> is_Some (fu_Direcionamento (so_funnel r)).
Proof.
  intros L Hg Hs Hsaw Hd Hr Eid. apply Hg in Hsaw. destruct Hsaw as (s0 & s1 & _ & (-> & [E | E]) & Hrs & Hrs'); [| done].
  assert (Ho : o ∈ fb_opps (fs_base s0)).
  { symmetry in E. unfold opp_in, found_row, sql_first in E. destruct (List.find _ _) as [y |] eqn:Ef; [| done]. injection E as <-. apply find_some in Ef as [Ef _]. by apply list_elem_of_In. }
  destruct (on_lasting _ _ _ Hrs' L o Ho) as (o' & Ho' & Hev). replace r with o'; [by apply (ev_direction _ _ Hev) |].
  eapply (NoDup_map_inj (fun o => opp_ID o)); [apply (wf_ids _ _ Hs) | done | done |]. simpl. by rewrite (ev_origin _ _ Hev).
Qed.
Lemma change_keeps g s b' c : (forall e, e ∈ g -> recalled e s) -> sound_state s -> proper_change g c -> fb_counters b' = fb_counters (fs_base s) ->
  fb_opps b' = sql_update (change_where c) (change_set c) (fb_opps (fs_base s)) -> onward lasting (fs_base s) b' /\ well_formed lasting b'.
Proof.
  intros Hg Hs Hp Hc Ho. pose proof (proper_sound _ _ Hp) as Hsc. apply (sale_update_keeps _ _ _ (fun o => if change_where c o then change_set c o else o)); [done | done | exact Ho | | |].
  - intros o. destruct (change_where c o) eqn:E; [apply change_evolves; [apply Hsc | done] | done].
  - intros o. destruct (change_where c o) eqn:E; [by apply sane_change | done].
  - intros L o Hi. pose proof (wf_directed _ _ Hs L o Hi) as Hd. destruct (change_where c o) eqn:E; [| exact Hd].
    destruct c as [id stage now | | | | | | | | |]; try exact Hd; [| by eexists]. cbn. intros ->. destruct Hp as (id' & org & o0 & Hsaw & Eid & H0). simpl in E. bool_hyps.
    eapply direction_stays; [done | done | done | exact Hsaw | by destruct (fu_Direcionamento (so_funnel o0)) | done |]. rewrite Eid. by apply N.eqb_eq.
Qed.
Lemma sale_step a X (op : fs_op X) g s x s' : warranted lasting a X op g -> (forall e, e ∈ g -> recalled e s) -> sound_state s -> fs_sem X op s x s' -> onward_state s s' /\ sound_state s'.
Proof.
  intros Hw Hg Hs Hsem. unfold onward_state, sound_state. destruct (move_of _ _ _ _ _ _ _ _ Hw Hsem) as [b' Hc Ho | b' c Hp Hc Ho | b' day o n Hb Hd Hop | b' id L Hc Ho].
  - apply (sale_update_keeps _ _ _ (fun o => o)); [done | done | by rewrite map_id | done | done |]. intros L o. by apply (wf_directed _ _ Hs L).
  - by eapply change_keeps.
  - eapply open_keeps; [done | done | | exact Hop]. apply Hg in Hd. by destruct Hd as (s0 & s1 & _ & [H _] & _).
  - by eapply delete_keeps.
Qed.
End Steps.

Section Lives.
Context (parse_float : string -> option spec_float) (decode_pedido : string -> option (list PedidoItem)) (decode_clientes : string -> option (list string))
        (decode_vendas : string -> option (list PedidoItem)) (parse_sale : string -> option instant) (local_day : instant -> Z) (date_text : instant -> string)
        (pg_uuid : string -> option uuid) (numeric_sum : list spec_float -> spec_float) (parse_day : uuid -> string -> option (instant * instant)).
Abbreviation goroutine := (sale_goroutine parse_float decode_pedido decode_clientes decode_vendas parse_sale local_day date_text pg_uuid numeric_sum parse_day).
Abbreviation goroutines lasting := (Forall (fun p => exists a, goroutine lasting a p)).

(** * All of them together *)
Lemma goroutine_guards lasting p s : (exists a, goroutine lasting a p) -> guards fs_sem (onward_state lasting) (sound_state lasting) p s (fun _ _ => True).
Proof.
  intros [a Hp]. eapply (ensures_guards fs_sem (onward_state lasting) (sound_state lasting) (warranted lasting a) fs_answerable).
  - intros X op s0 x s1 H. by exists s0, s1.
  - intros X op g s0 x s1. apply sale_step.
  - eapply extends_ensures, goroutine_warranted, Hp.
  - intros e He. by apply not_elem_of_nil in He.
Qed.
Lemma goroutines_keep lasting s ps c : sound_state lasting s -> goroutines lasting ps -> pool_steps fs_sem (s, ps) c ->
  guarded_pool fs_sem (onward_state lasting) (sound_state lasting) c.
Proof.
  intros Hs Hps H. eapply (guards_steps fs_sem (onward_state lasting) (sound_state lasting)) in H; [by destruct H as [_ H] |].
  split; [done |]. eapply Forall_impl; [exact Hps |]. intros p. apply goroutine_guards.
Qed.

(** C3: an opportunity lives one life under one number.  However the requests of any users, the
    chatbot, the pickups of agents, the passes of the SLA and of the ERP's reconciliation interleave,
    fail or crash, deletions included: an opportunity and one that has the same number in the same
    organization at any later time are the same one, opened for the same contact; it has gone only
    from open to converted or lost and from converted to cancelled; it never lost its owner or its
    direction; and from its closing on its stage, what was expected of it and how it closed are
    unchanged, and once lost or cancelled also what was realized. *)
Theorem opportunity_history s ps c1 c2 o1 o2 : sound_state false s -> goroutines false ps -> pool_steps fs_sem (s, ps) c1 -> pool_steps fs_sem c1 c2 ->
  o1 ∈ fb_opps (fs_base (fst c1)) -> o2 ∈ fb_opps (fs_base (fst c2)) -> opp_org o1 = opp_org o2 -> opp_number o1 = opp_number o2 -> evolves o1 o2.
Proof.
  intros Hs Hps H1 H2 Ho1 Ho2 Eo En. pose proof (goroutines_keep _ _ _ _ Hs Hps H1) as Hg.
  destruct (guards_steps fs_sem (onward_state false) (sound_state false) _ _ H2 Hg) as [[Hc _] _]. assert (H : became o1 o2); [| exact H].
  eapply counting_same; [apply (wf_numbers _ _ (proj1 Hg)) | exact Hc | done | done |]. simpl. by rewrite Eo, En.
Qed.

(** C6: a contact has one open opportunity, and every one is what its status says.  Under the same
    interleavings: of the opportunities of a contact in an organization at most one is open; an open
    one has no outcome and nothing realized; a converted one has a time and a source of conversion,
    a lost one a time and one of the known reasons and nothing realized, a cancelled one also its
    conversion; only an open one in the last stage is marked late; and as long as nothing is deleted
    every one in the last stage has a direction. *)
Theorem opportunities_stay_sound lasting s ps c o : sound_state lasting s -> goroutines lasting ps -> pool_steps fs_sem (s, ps) c -> o ∈ fb_opps (fs_base (fst c)) ->
  sane o /\ (lasting = true -> opp_stage o = Direcionada -> is_Some (fu_Direcionamento (so_funnel o))) /\
  forall o', o' ∈ fb_opps (fs_base (fst c)) -> opp_org o' = opp_org o -> opp_contact o' = opp_contact o -> opp_status o = Aberta -> opp_status o' = Aberta -> o' = o.
Proof.
  intros Hs Hps H Ho. destruct (goroutines_keep _ _ _ _ Hs Hps H) as [[H1 H2 H3 H4 H5] _]. split_and!; [by apply H4 | intros L; by apply H5 |].
  intros o' Ho' Eo Ec S S'. by apply H3.
Qed.
End Lives.
