(* ===== verification/SalesTimeline.v ===== *)
(** The timeline of an opportunity: its conversion, its loss and its cancellation are recorded once,
    and only when they happened. *)
From S2P Require Import Prelude Effects Sql Numbering GoText GoAny Visibility Permissions Accounts AccountsApi Phone Sales SalesApi SalesOrders SalesRules SalesLives.
From Stdlib Require Import SpecFloat.

(** * What a closing costs *)
Definition closes (kind : SalesOpportunityEventType) (c : change) : option uuid :=
  match kind, c with
  | SaleConverted, ToConverted id _ _ _ | SaleLost, ToLost id _ _ _ | SaleCancelled, ToCancelled id _ => Some id
  | _, _ => None
  end.
Definition closing (kind : SalesOpportunityEventType) : Prop := kind = SaleConverted \/ kind = SaleLost \/ kind = SaleCancelled.
Definition marked (kind : SalesOpportunityEventType) (o : SalesOpportunity) : bool :=
  match kind with
  | SaleConverted => given (ou_ConvertedAt (so_outcome o))
  | SaleLost => given (ou_LostAt (so_outcome o))
  | SaleCancelled => given (ou_CancelledAt (so_outcome o))
  | _ => false
  end.
Section Kind.
Context (kind : SalesOpportunityEventType) (Hkind : closing kind) (id : uuid).
Definition hits (e : SalesOpportunityEvent) : bool := N.eqb (sv_SalesOpportunityID e) id && bool_decide (sv_Type e = kind).
Definition entry_cost X (op : fs_op X) : nat := match op with FWrite (WEvent e) | FTx (TLinked _ e) => if hits e then 1 else 0 | _ => 0 end.
Definition write_gain {X} (w : fwrite X) : Res X -> nat :=
  match w in fwrite Y return Res Y -> nat with
  | WChange c => fun r => match r with Ok n => if (0 <? n) && bool_decide (closes kind c = Some id) then 1%nat else 0%nat | Err _ => 0%nat end
  | _ => fun _ => 0%nat
  end.
Definition entry_gain X (op : fs_op X) : X -> nat := match op in fs_op X return X -> nat with FWrite w => write_gain w | _ => fun _ => 0%nat end.
Definition entries (b : FBase) : nat := length (List.filter hits (fb_events b)).

(** ** The operations *)
Lemma marked_stays c o : marked kind o = true -> marked kind (change_set c o) = true.
Proof. destruct Hkind as [-> | [-> | ->]]; by destruct c. Qed.
(** What changed hands was not marked before. *)
Lemma marked_once c o : sane o -> closes kind c = Some id -> change_where c o = true -> is_opp id o = true /\ marked kind o = false /\ marked kind (change_set c o) = true.
Proof.
  intros [Hs _ _] Hc Hw. unfold outcome_fits in Hs. destruct Hkind as [-> | [-> | ->]], c; try done; injection Hc as ->; simpl in *; unfold in_status in Hw; bool_hyps;
    match goal with H : opp_status o = _ |- _ => rewrite H in Hs end; (split_and!; [done | | done]); [by rewrite Hs | by rewrite Hs |].
  by destruct Hs as (_ & _ & _ & _ & ->).
Qed.
Lemma same_id c o : is_opp id (change_set c o) = is_opp id o.
Proof. by destruct c. Qed.
Definition mark_count (l : list SalesOpportunity) : nat := length (List.filter (fun o => is_opp id o && marked kind o) l).
Lemma mark_count_update c l : (forall o, o ∈ l -> sane o) ->
  (mark_count l + (if bool_decide (closes kind c = Some id) then length (List.filter (change_where c) l) else 0) <= mark_count (sql_update (change_where c) (change_set c) l))%nat.
Proof.
  unfold mark_count. induction l as [| o l IH]; intros Hs; [by case_bool_decide |]. specialize (IH (fun o' H => Hs o' (list_elem_of_further _ _ _ H))). simpl.
  destruct (change_where c o) eqn:Ew; simpl.
  - rewrite same_id. pose proof (marked_stays c o) as Hm. case_bool_decide as Hc; simpl.
    + destruct (marked_once c o (Hs o (list_elem_of_here _ _)) Hc Ew) as (-> & -> & ->). simpl. lia.
    + destruct (is_opp id o); simpl; [| exact IH]. destruct (marked kind o); [rewrite Hm by done; simpl; lia |]. destruct (marked kind _); simpl; lia.
  - destruct (is_opp id o && marked kind o); simpl; lia.
Qed.
Definition marks (b : FBase) : nat := mark_count (fb_opps b).
(** Operations with a warrant, while nothing is deleted. *)
Definition lasting_op X (op : fs_op X) : Prop := exists a g, warranted true a X op g.
Definition lasting_sem X (op : fs_op X) (s : FState) (x : X) (s' : FState) : Prop := lasting_op X op /\ fs_sem X op s x s'.
Definition all_sane (s : FState) : Prop := forall o, o ∈ fb_opps (fs_base s) -> sane o.
Lemma lasting_sane X (op : fs_op X) s x s' : all_sane s -> lasting_sem X op s x s' -> all_sane s'.
Proof.
  intros Hs [(a & g & Hw) Hsem] o. destruct (move_of _ _ _ _ _ _ _ _ Hw Hsem) as [b' _ Ho | b' c Hp _ Ho | b' day y n Hb _ Hop | b' i L _ _]; [rewrite Ho; apply Hs | | | done].
  - rewrite Ho. intros (y & Hy & ->)%sql_update_in. destruct (change_where c y) eqn:E; [| by apply Hs]. apply sane_change; [by eapply proper_sound | done | by apply Hs].
  - rewrite (od_row _ _ _ _ _ Hop). intros [Hy | ->%list_elem_of_singleton]%elem_of_app; [by apply Hs |]. by apply newborn_sane.
Qed.
Lemma event_entries e b : (entries (snd (insert_event e b)) <= entries b + (if hits e then 1 else 0))%nat.
Proof. unfold entries, insert_event. destruct (existsb _ _); simpl; [lia |]. rewrite List.filter_app, length_app. simpl. destruct (hits e); simpl; lia. Qed.
Lemma write_entries {X} (w : fwrite X) b : (entries (snd (fdo w b)) <= entries b + entry_cost _ (FWrite w))%nat.
Proof. destruct w; simpl; [| apply event_entries | ..]; unfold insert_link, update_link; repeat break_match; unfold entries; simpl; lia. Qed.
Lemma tx_entries {X} (t : ftransaction X) b x b' : db_sem (fbody t) b (Ok x) b' -> match t with TDelete _ => False | _ => True end -> (entries b' <= entries b + entry_cost _ (FTx t))%nat.
Proof.
  destruct t; [| done |]; intros H _.
  - unfold fbody, nextOpportunityNumber in H. apply db_sem_try in H as [(e & _ & ?) | (number & b3 & H1 & H)]; [done |].
    apply db_sem_step in H1 as ([] & b1 & E1 & H1). apply db_sem_step in H1 as (seq & b2 & E2 & H1). apply db_sem_ret in H1 as [_ ->].
    apply db_sem_step in H as ([] & b4 & E4 & H). apply db_sem_step in H as ([] & b5 & E5 & H). apply db_sem_ret in H as [_ ->].
    match type of E5 with insert_event ?e b4 = _ => pose proof (event_entries e b4) as He; assert (hits e = false) as Hh end.
    { unfold hits. rewrite bool_decide_false; [apply andb_false_r |]. by destruct Hkind as [-> | [-> | ->]]. }
    rewrite E5, Hh in He. cbn in He. etrans; [exact He |]. cbn.
    unfold insert_opp in E4. destruct (existsb _ _); [done |]. injection E4 as <-. unfold bump_sale_counter in E2. injection E1 as <-. destruct (sql_first _ _); [| done]. destruct (_ =? max_int64); [done |].
    injection E2 as _ <-. unfold entries. cbn. destruct (existsb _ _); simpl; lia.
  - apply db_sem_step in H as (? & b1 & E1 & H). apply db_sem_step in H as (? & b2 & E2 & H). apply exec_ok_sem in H. apply (f_equal snd) in H. simpl in H. subst b'. etrans; [apply event_entries |].
    simpl. injection E2 as _ <-. unfold insert_link in E1. destruct (_ || _); [done |]. injection E1 as _ <-. done.
Qed.
Lemma op_entries X (op : fs_op X) s x s' : lasting_sem X op s x s' -> (entries (fs_base s') <= entries (fs_base s) + entry_cost _ op)%nat.
Proof.
  intros [(a & g & Hw) H]. destruct op; simpl in H; try (subst s'; lia).
  - destruct H as (y & _ & ->). simpl. lia.
  - destruct H as [-> _]. lia.
  - destruct H as (b & [E | [_ [-> | ->]]]%db_sem_exec & ->); [| simpl; lia | apply write_entries]. apply (f_equal snd) in E. simpl in E. subst b. apply write_entries.
  - destruct H as (b & [[-> _] | (y & Hb & _)]%db_sem_transaction & ->); [simpl; lia |]. eapply tx_entries; [exact Hb |]. destruct t; try done. by destruct Hw.
  - destruct H as [_ ->]. lia.
  - destruct H as [-> _]. lia.
Qed.
(** The writes that are no change of an opportunity. *)
Lemma other_writes {X} (w : fwrite X) b : match w with WChange _ => False | _ => True end -> fb_opps (snd (fdo w b)) = fb_opps b.
Proof. destruct w; [done | intros _..]; simpl; unfold insert_event, insert_link, update_link; by repeat break_match. Qed.
Lemma write_marks {X} (w : fwrite X) b r b' : (forall o, o ∈ fb_opps b -> sane o) -> db_sem (exec (fdo w)) b r b' -> (marks b + write_gain w r <= marks b')%nat.
Proof.
  intros Hs H%db_sem_exec. unfold marks. assert (Hb : fb_opps b' = fb_opps b \/ fb_opps b' = fb_opps (snd (fdo w b))) by (destruct H as [<- | [_ [-> | ->]]]; auto).
  pose proof (other_writes w b) as Ho. destruct w as [c | e | l | i n d | i c | i d]; try (simpl; destruct Hb as [-> | ->]; [lia | rewrite Ho by done; lia]). clear Ho Hb.
  pose proof (mark_count_update c (fb_opps b) Hs) as Hm. simpl in *. destruct H as [[= -> ->] | [-> [-> | ->]]]; simpl; [| lia..].
  unfold sql_count. destruct (0 <? _) eqn:E; [| simpl; lia]. apply Z.ltb_lt in E. case_bool_decide; simpl in *; lia.
Qed.
Lemma op_marks X (op : fs_op X) s x s' : all_sane s -> lasting_sem X op s x s' -> (marks (fs_base s) + entry_gain _ op x <= marks (fs_base s'))%nat.
Proof.
  intros Hs [(a & g & Hw) H]. destruct op; simpl in H; try (subst s'; simpl; lia).
  - destruct H as (y & _ & ->). simpl. lia.
  - destruct H as [-> _]. simpl. lia.
  - destruct H as (b & H & ->). by apply write_marks.
  - destruct H as (b & [[-> _] | (y & Hb & _)]%db_sem_transaction & ->); [simpl; lia |]. simpl. unfold marks. destruct t; [| by destruct Hw |].
    + apply opening_opened in Hb as [n [-> _ _]]. unfold mark_count. rewrite List.filter_app, length_app. lia.
    + apply linked_pointed in Hb as [_ ->]. pose proof (mark_count_update (ToPointer (xl_SalesOpportunityID l) (xl_NumPedido l) (xl_Documento l)) _ Hs). simpl. lia.
  - destruct H as [_ ->]. simpl. lia.
  - destruct H as [-> _]. simpl. lia.
Qed.

(** ** The programs *)
Definition free X (op : fs_op X) : Prop := entry_cost X op = 0%nat.
Abbreviation spends p n Q := (ensures (credit_pre entry_cost) (credit_post entry_cost entry_gain fs_answerable) p n Q).
Abbreviation thrifty p n := (spends p n (fun _ _ => True)).
Lemma thrifty_free {A B} (p : FProg A) (k : A -> FProg B) n (Q : B -> nat -> Prop) : only free p -> (forall x n', (n <= n')%nat -> spends (k x) n' Q) -> spends (p ≫= k) n Q.
Proof.
  revert n. induction p as [x | X op q IH]; intros n; [intros _ H; by apply H |]. intros [Hop Hq] HQ. unfold free in Hop. split; [unfold credit_pre; lia |].
  intros x n' [_ ->]. apply (IH x); [apply Hq |]. intros y n2 Hn2. apply HQ. lia.
Qed.
Lemma free_thrifty {A} (p : FProg A) n : only free p -> thrifty p n.
Proof. revert n. induction p as [x | X op q IH]; intros n; [done |]. intros [Hop Hq]. unfold free in Hop. split; [unfold credit_pre; lia |]. intros x n' _. apply IH, Hq. Qed.
Lemma thrifty_answering {A} (p : FProg (A + fs_reply)) (k : A -> FProg fs_reply) n : only free p -> (forall x n', (n <= n')%nat -> thrifty (k x) n') -> thrifty (answering p k) n.
Proof. intros Hp Hk. apply thrifty_free; [done |]. intros [x | e] n' Hn'; [by apply Hk | done]. Qed.
Lemma thrifty_bind {A B} (p : FProg A) (k : A -> FProg B) n : thrifty p n -> (forall x n', thrifty (k x) n') -> thrifty (p ≫= k) n.
Proof. intros Hp Hk. apply ensures_bind. eapply ensures_mono; [| exact Hp]. intros x n' _. apply Hk. Qed.
Lemma plain_free X (op : fs_op X) : plain X op -> free X op.
Proof. by destruct op. Qed.
Lemma only_plain_free {A} (p : FProg A) : only plain p -> only free p.
Proof. apply only_mono. intros X op. apply plain_free. Qed.
Lemma change_free c : only free (changing c).
Proof. by split. Qed.
Lemma event_free org i kind' from to src by_ : kind' <> kind -> only free (new_event org i kind' from to src by_).
Proof. intros H. split_and!; [done |]. intros e. split; [done |]. intros now. split; [| done]. unfold free. simpl. unfold hits. simpl. by rewrite (bool_decide_false _ H), andb_false_r. Qed.
(** The entry of what has just happened. *)
Lemma event_paid org i from to src by_ n : (i = id -> (1 <= n)%nat) -> thrifty (new_event org i kind from to src by_) n.
Proof.
  intros Hn. unfold new_event. apply thrifty_free; [by split |]. intros e n1 H1. apply thrifty_free; [by split |]. intros now n2 H2. split; [| done].
  unfold credit_pre. simpl. unfold hits. simpl. destruct (N.eqb_spec i id) as [E |]; [specialize (Hn E); destruct (_ && _); lia | simpl; lia].
Qed.
Lemma new_event_thrifty org i kind' from to src by_ n : (kind' = kind -> i = id -> (1 <= n)%nat) -> thrifty (new_event org i kind' from to src by_) n.
Proof. intros H. destruct (decide (kind' = kind)) as [-> | Hk]; [apply event_paid; auto | by apply free_thrifty, event_free]. Qed.
Lemma counted_rows c m : fs_answerable _ (FWrite (WChange c)) (Ok m) -> 0 <= m.
Proof. intros (s0 & s1 & b & [[= -> _] | [? _]]%db_sem_exec & _); [apply sql_count_nonneg | done]. Qed.
Lemma change_then {B} c kind' i (k : Res Z -> FProg B) n : closes kind' c = Some i ->
  (forall r n', (forall m, r = Ok m -> m <> 0 -> kind' = kind -> i = id -> (1 <= n')%nat) -> thrifty (k r) n') -> thrifty (changing c ≫= k) n.
Proof.
  intros Hc Hk. split; [unfold credit_pre; simpl; lia |]. intros r n' [Hr ->]. apply Hk. intros m -> Hm -> ->. apply counted_rows in Hr. simpl.
  rewrite (proj2 (Z.ltb_lt 0 m)) by lia. rewrite bool_decide_true by done. simpl. lia.
Qed.
Lemma closed_then c kind' o org by_ failed refused n : closes kind' c = Some (opp_ID o) ->
  thrifty (_ ←! changed_one c failed refused; _ ←! recorded (new_event org (opp_ID o) kind' None None SourceManual by_); o ← reread o; mret (FOpp o)) n.
Proof.
  intros Hc. refine (change_then c kind' (opp_ID o) (fun r => answering (mret match r with Err _ => inr (FRefused 500 failed) | Ok n => if n =? 0 then inr (FRefused 400 refused) else inl tt end) _) n Hc _).
  intros [m | e] n' Hn'; [| done]. destruct (Z.eqb_spec m 0) as [| Hm]; [done |].
  cbn [answering]. change (thrifty (_ ←! recorded (new_event org (opp_ID o) kind' None None SourceManual by_); o ← reread o; mret (FOpp o)) n').
  apply thrifty_bind; [apply thrifty_bind; [apply new_event_thrifty; by eapply Hn' | intros; exact I] |].
  intros [u | e] n2; [| exact I]. apply thrifty_free; [apply only_plain_free, plain_reread | intros; exact I].
Qed.
Ltac thrift :=
  repeat match goal with
  | |- thrifty (mret _) _ => exact I
  | |- thrifty (answering _ _) _ => apply thrifty_answering; [apply only_plain_free; first [exact I | solve [reads]] | intros ? ? ?]
  | |- thrifty (call _ ≫= _) _ => apply thrifty_free; [by split | intros ? ? ?]
  | |- thrifty (let x := _ in _) _ => cbv zeta
  | |- thrifty (let '(_, _) := ?p in _) _ => destruct p
  end.
Lemma thrifty_convert c i body n : thrifty (ConvertSalesOpportunity c i body) n.
Proof.
  unfold ConvertSalesOpportunity. thrift. apply thrifty_answering.
  - apply only_plain_free. destruct body as [[req |] |]; [| exact I | exact I]. unfold or_refuse, fs_decoded, fs_require. solve_only.
  - intros [value quantity] n2 _. thrift. by apply closed_then.
Qed.
Lemma thrifty_lose c i body n : thrifty (LoseSalesOpportunity c i body) n.
Proof. unfold LoseSalesOpportunity. thrift. by apply closed_then. Qed.
Lemma not_closing kind' : match kind' with SaleConverted | SaleLost | SaleCancelled => False | _ => True end -> kind' <> kind.
Proof. by destruct Hkind as [-> | [-> | ->]]; destruct kind'. Qed.
Lemma writing_free {X} (w : fwrite X) : match w with WEvent _ => False | _ => True end -> only free (writing w).
Proof. by destruct w. Qed.
Ltac frees :=
  repeat match goal with
  | |- only _ (answering _ _) => apply only_answering; [| intros ?]
  | |- only _ (new_event _ _ _ _ _ _ _) => by apply event_free, not_closing
  | |- only _ (changing _) => by split
  | |- only _ (changed_one _ _ _) => by split
  | |- only _ (writing _) => by apply writing_free
  | |- only _ (mret _) => exact I
  | |- only _ (call _) => by split
  | |- only _ (let x := _ in _) => cbv beta zeta
  | |- only _ _ => solve [apply only_plain_free; first [exact I | apply plain_reread | reads; fail]]
  | |- only _ (fs_or _ _ _) => unfold fs_or
  | |- only _ (recorded _) => unfold recorded
  | |- only _ (_ ≫= _) => apply only_bind; [| intros ?]
  | |- only _ (match ?x with _ => _ end) => destruct x
  end.
Lemma free_entry c transfer source interest value override apply_ : only free (createOrRetriggerSalesOpportunity c transfer source interest value override apply_).
Proof. unfold createOrRetriggerSalesOpportunity, retriggered. frees. Qed.
Lemma free_create c body : only free (CreateSalesOpportunity c body).
Proof. unfold CreateSalesOpportunity. frees. apply free_entry. Qed.
Lemma free_stage c i body : only free (ChangeSalesOpportunityStage c i body).
Proof. unfold ChangeSalesOpportunityStage. frees. Qed.
Lemma free_direction c i body : only free (ChangeSalesOpportunityDirecionamento c i body).
Proof. unfold ChangeSalesOpportunityDirecionamento. frees. Qed.
Lemma free_details c i body : only free (UpdateSalesOpportunityDetails c i body).
Proof. unfold UpdateSalesOpportunityDetails. frees. Qed.
Lemma free_upsert c i body : only free (UpsertSalesOpportunityXProcessLink c i body).
Proof. unfold UpsertSalesOpportunityXProcessLink, create_link. frees. Qed.

(** ** The jobs of the system *)
Lemma thrifty_transition o l c kind' n : (forall now, closes kind' (c now) = Some (opp_ID o)) -> thrifty (x2_transition o l c kind') n.
Proof.
  intros Hc. unfold x2_transition. apply thrifty_free; [by split |]. intros now n1 _. apply (change_then _ kind' (opp_ID o)); [done |].
  intros [m | e] n2 Hn2; [| exact I]. destruct (Z.eqb_spec m 0) as [| Hm]; [exact I |]. apply thrifty_bind; [| intros; exact I]. apply new_event_thrifty. by eapply Hn2.
Qed.
Lemma thrifty_sold o l total n : thrifty (sold o l total) n.
Proof.
  unfold sold, setRealizedValueFromXProcess, convertXProcessOpportunity. apply thrifty_bind.
  - destruct (in_status Aberta o); [| exact I]. by apply thrifty_transition.
  - intros _ n1. destruct (SFleb total f64_zero); [exact I |]. apply free_thrifty. by split_and!.
Qed.
Lemma thrifty_follow o l r now n : thrifty (follow_order o l r now) n.
Proof.
  unfold follow_order. destruct (_ || _); [apply thrifty_bind; [by apply thrifty_sold | intros; exact I] |].
  destruct (String.eqb _ "FECHADO"); [apply thrifty_bind; [by apply thrifty_sold | intros; exact I] |]. destruct (String.eqb _ "CANCELADO"); [| exact I].
  apply thrifty_bind; [| intros; exact I]. unfold cancelXProcessOpportunity, loseXProcessOpportunity. destruct (opp_status o); try exact I; by apply thrifty_transition.
Qed.
Lemma check_free i c : only free (check_link i c).
Proof. by split_and!. Qed.
Lemma link_check_free i c : only free (writing (WCheck i c)).
Proof. by split. Qed.
Context (parse_float : string -> option spec_float) (decode_pedido : string -> option (list PedidoItem)) (decode_clientes : string -> option (list string))
        (decode_vendas : string -> option (list PedidoItem)) (parse_sale : string -> option instant) (local_day : instant -> Z) (date_text : instant -> string).
Lemma thrifty_reconcile i l n : thrifty (reconcileXProcessLink parse_float decode_pedido i l) n.
Proof.
  unfold reconcileXProcessLink. apply thrifty_free; [by split |]. intros now n1 _. apply thrifty_free; [by split_and! |].
  intros [items | e] n2 _; [| destruct e; apply free_thrifty, check_free]. destruct (SummarizePedido parse_float items) as [r |]; [| apply free_thrifty, check_free].
  apply thrifty_free; [by split_and! |]. intros [o | e] n3 _; [| exact I].
  apply thrifty_free; [by split_and! |]. intros [] n4 _; [apply free_thrifty, check_free |]. apply thrifty_bind; [apply thrifty_follow |]. intros [first resolved] n5.
  apply thrifty_free; [apply link_check_free |]. intros [m | e] n6 _; [exact I | destruct e; try exact I; apply free_thrifty, check_free].
Qed.
Lemma thrifty_each {A} (f : A -> FProg unit) l n : (forall x n, thrifty (f x) n) -> thrifty (each f l) n.
Proof. intros H. revert n. induction l as [| x l IH]; intros n; [exact I |]. apply thrifty_bind; [apply H | intros; apply IH]. Qed.
Lemma claims_free org d l : only free (claims org d l).
Proof.
  induction l as [| o l IH]; [exact I |]. simpl. apply only_bind; [destruct (xprocessDiscoverableStatus _); [by split_and! | exact I] |]. intros c.
  apply only_bind; [exact IH | intros; exact I].
Qed.
Lemma find_free i d limit : only free (findXProcessOrders parse_float decode_clientes decode_vendas i d limit).
Proof. unfold findXProcessOrders. apply only_bind; [by split_and! |]. intros [cod |]; [| exact I]. apply only_bind; [by split_and! | intros; exact I]. Qed.
Lemma created_free org m d : only free (createDiscoveredXProcessLink org m d).
Proof.
  unfold createDiscoveredXProcessLink. do 3 (apply only_bind; [by split | intros ?]). apply only_bind; [| intros; exact I]. split; [| done]. unfold free. simpl. unfold hits.
  simpl. rewrite bool_decide_false; [by rewrite andb_false_r |]. by apply not_closing.
Qed.
Lemma thrifty_discover i org d now n : thrifty (discoverForDocumento parse_float decode_pedido decode_clientes decode_vendas parse_sale local_day date_text i org d now) n.
Proof.
  unfold discoverForDocumento. apply thrifty_free; [by split |]. intros [l |] n1 _; [| exact I]. destruct (List.filter _ l) as [| c comps]; [exact I |].
  apply thrifty_free; [apply find_free |]. intros [[orders []] |] n2 _; [exact I | | exact I]. apply thrifty_free; [apply claims_free |]. intros claimed n3 _.
  destruct (decideXProcessMatch _ _ _ _ _ _) as [m |]; [| exact I]. apply thrifty_free; [apply created_free |]. intros [k |] n4 _; [| exact I].
  apply thrifty_bind; [apply thrifty_reconcile | intros; exact I].
Qed.
Lemma thrifty_sweep discovery n : thrifty (RunXProcessReconciliation parse_float decode_pedido decode_clientes decode_vendas parse_sale local_day date_text discovery) n.
Proof.
  unfold RunXProcessReconciliation. apply thrifty_free; [by split |]. intros [l |] n1 _; [| exact I]. apply thrifty_each. intros i n2. unfold sweep_organization. apply thrifty_free; [by split |].
  intros [links |] n3 _; [| exact I]. apply thrifty_bind; [apply thrifty_each; apply thrifty_reconcile |]. intros _ n4. destruct discovery; [| exact I].
  unfold discoverXProcessOrders. apply thrifty_free; [by split |]. intros now n5 _. apply thrifty_free; [by split |]. intros [docs |] n6 _; [| exact I]. apply thrifty_each. intros d n7.
  apply thrifty_bind; [apply thrifty_discover | intros; exact I].
Qed.
Context (pg_uuid : string -> option uuid) (numeric_sum : list spec_float -> spec_float) (parse_day : uuid -> string -> option (instant * instant)).
Abbreviation goroutine := (sale_goroutine parse_float decode_pedido decode_clientes decode_vendas parse_sale local_day date_text pg_uuid numeric_sum parse_day).
Lemma goroutine_thrifty a p : goroutine true a p -> thrifty p 0%nat.
Proof.
  destruct 1 as [c p Hp | c i | p Hp]; [| done |].
  - apply thrifty_bind; [| intros; exact I]. destruct Hp.
    all: try (apply free_thrifty; auto using free_create, free_stage, free_direction, free_details, free_upsert; fail).
    all: try (apply free_thrifty, only_plain_free; auto using reads_list, reads_events, reads_summary, reads_scope, reads_link, reads_candidates; fail).
    + apply free_thrifty, only_plain_free. unfold GetSalesOpportunity. reads.
    + apply thrifty_convert.
    + apply thrifty_lose.
  - destruct Hp; [| | | apply thrifty_sweep].
    + apply free_thrifty. apply only_bind; [apply free_entry | intros; exact I].
    + apply free_thrifty. apply only_bind; [by split |]. intros [o |]; [| exact I]. destruct (decide _); [by split_and! | exact I].
    + apply free_thrifty. by split_and!.
Qed.
End Kind.

(** * The timeline *)
Section Timeline.
Context (parse_float : string -> option spec_float) (decode_pedido : string -> option (list PedidoItem)) (decode_clientes : string -> option (list string))
        (decode_vendas : string -> option (list PedidoItem)) (parse_sale : string -> option instant) (local_day : instant -> Z) (date_text : instant -> string)
        (pg_uuid : string -> option uuid) (numeric_sum : list spec_float -> spec_float) (parse_day : uuid -> string -> option (instant * instant)).
Abbreviation goroutines lasting := (Forall (fun p => exists a, sale_goroutine parse_float decode_pedido decode_clientes decode_vendas parse_sale local_day date_text pg_uuid numeric_sum parse_day lasting a p)).
Lemma nonempty_filter (id : uuid) (p : SalesOpportunity -> bool) l : (0 < length (List.filter (fun o => is_opp id o && p o) l))%nat -> exists o, o ∈ l /\ opp_ID o = id /\ p o = true.
Proof.
  intros H. destruct (List.filter _ l) as [| o k] eqn:E; [simpl in H; lia |]. assert (Hin : In o (List.filter (fun o => is_opp id o && p o) l)) by (rewrite E; by left).
  apply filter_In in Hin as [Ho [H1%N.eqb_eq H2]%andb_true_iff]. exists o. split_and!; [by apply list_elem_of_In | done | done].
Qed.
Lemma one_by_id (id : uuid) (p : SalesOpportunity -> bool) l : NoDup (map (fun o => opp_ID o) l) -> (length (List.filter (fun o => is_opp id o && p o) l) <= 1)%nat.
Proof.
  induction l as [| o l IH]; [simpl; lia |]. simpl. intros [Ho Hl]%NoDup_cons. destruct (is_opp id o && p o) eqn:E; [| by apply IH]. apply andb_true_iff in E as [E%N.eqb_eq _].
  assert (Hz : length (List.filter (fun o => is_opp id o && p o) l) = 0%nat); [| simpl; lia]. destruct (decide (0 < length (List.filter (fun o => is_opp id o && p o) l))%nat) as [Hpos |]; [| lia].
  apply nonempty_filter in Hpos as (x & Hx & Ex & _). destruct Ho. apply list_elem_of_fmap. exists x. split; [by rewrite Ex | done].
Qed.
(** Every closing of the timeline is one of the opportunity's, and there is at most one. *)
Definition timeline_true (b : FBase) : Prop := forall kind id, closing kind -> (entries kind id b <= marks kind id b)%nat.
(** C5: the timeline tells each closing once, and only if it happened.  As long as nothing is
    deleted, however requests, the chatbot, pickups, the SLA and the reconciliation with the ERP
    interleave, fail or crash: an opportunity has at most one entry of its conversion, one of its
    loss and one of its cancellation, each only if it was converted, lost or cancelled. *)
Theorem closings_recorded_once s ps c kind id : sound_state true s -> timeline_true (fs_base s) -> goroutines true ps -> pool_steps fs_sem (s, ps) c -> closing kind ->
  (entries kind id (fs_base (fst c)) <= 1)%nat /\
  ((0 < entries kind id (fs_base (fst c)))%nat -> exists o, o ∈ fb_opps (fs_base (fst c)) /\ opp_ID o = id /\ marked kind o = true).
Proof.
  intros Hs Ht Hps H Hk. assert (Hle : (entries kind id (fs_base (fst c)) <= marks kind id (fs_base (fst c)))%nat).
  { assert (Hsteps : pool_steps lasting_sem (s, ps) c).
    { eapply class_pool; [| exact H |]; [intros X op s0 x s1 Hx; instantiate (1 := fs_answerable); by exists s0, s1 |].
      eapply Forall_impl; [exact Hps |]. intros p [a Hp]. eapply (trace_keeps_to _ _ (warranted true a) _ []); [| eapply extends_ensures, goroutine_warranted, Hp]. intros X op g Hw. by exists a, g. }
    destruct c as [s' ps']. eapply (credits_sound (entry_cost kind id) (entry_gain kind id) fs_answerable lasting_sem all_sane (fun s => entries kind id (fs_base s)) (fun s => marks kind id (fs_base s))); [| | | | | | | exact Hsteps].
    - intros X op s1 x s2 _ [_ Hx]. by exists s1, s2.
    - intros X op s1 x s2. apply lasting_sane.
    - intros X op s1 x s2 _. by apply op_entries.
    - intros X op s1 x s2. by apply op_marks.
    - intros o. apply (wf_sane _ _ Hs).
    - by apply Ht.
    - eapply Forall_impl; [exact Hps |]. intros p [a Hp]. by eapply goroutine_thrifty. }
  pose proof (goroutines_keep _ _ _ _ _ _ _ _ _ _ _ _ _ _ Hs Hps H) as [Hwf _]. pose proof (wf_ids _ _ Hwf) as Hids. unfold marks, mark_count in *.
  pose proof (one_by_id id (marked kind) _ Hids) as Hone. split; [lia |]. intros H0. apply nonempty_filter. lia.
Qed.
End Timeline.
