(* ===== verification/SalesRuns.v ===== *)
(** Concrete runs of sales opportunities: the witnesses of the files before, and what goes wrong in
    runs where nothing fails. *)
From S2P Require Import OccurrenceRuns.
From S2P Require Import Prelude Effects Sql Numbering GoText GoAny Visibility Permissions Accounts Migration Access AccountsApi Tenancy Phone Sales SalesApi SalesOrders SalesRules SalesLives SalesTimeline.
From Stdlib Require Import SpecFloat.

(** * Operations that compute *)
Definition fs_next_id (b : FBase) : uuid :=
  (1 + foldr N.max 0 (map (fun o => opp_ID o) (fb_opps b) ++ map sv_ID (fb_events b) ++ map xl_ID (fb_links b)))%N.
(** An ERP that knows nothing. *)
Definition fs_handle X (op : fs_op X) : FState -> X * FState :=
  match op in fs_op X return FState -> X * FState with
  | FAsk op => fun s => let '(x, a) := acc_handle nobody _ op (fs_acc s) in (x, MkFState a (fs_base s) (fs_vis s))
  | FRead f => fun s => (f s, s)
  | FWrite w => fun s => (fst (fdo w (fs_base s)), with_fbase (snd (fdo w (fs_base s))) s)
  | FTx t => fun s => let '(x, w) := transaction (fbody t) (World (fs_base s) []) in (x, with_fbase (w_data w) s)
  | FID => fun s => (fs_next_id (fs_base s), s)
  | FNow => fun s => (hour, s)
  | FDay => fun s => ("20260105", s)
  | FMate viewer owner => fun s => (canViewTeamMember (fs_vis s) viewer owner, s)
  | FX2 _ _ => fun s => (None, s)
  | FAudit _ _ _ => fun s => (tt, s)
  end.
Lemma fs_handle_sem X (op : fs_op X) s : fs_sem X op s (fst (fs_handle X op s)) (snd (fs_handle X op s)).
Proof.
  destruct op; simpl; try done; auto.
  - pose proof (acc_handle_sem nobody _ op (fs_acc s)) as H. destruct (acc_handle nobody _ op (fs_acc s)) as [x a]. by exists a.
  - exists (snd (fdo w (fs_base s))). split; [| done]. apply db_sem_exec. left. by destruct (fdo w (fs_base s)).
  - destruct (transaction (fbody t) (World (fs_base s) [])) as [x [d fs]] eqn:E. exists d. split; [by exists [], fs | done].
Qed.
(** Goroutines that take turns: whose is the next operation. *)
Fixpoint turns {A} (schedule : list nat) (c : FState * list (FProg A)) : FState * list (FProg A) :=
  match schedule with
  | [] => c
  | i :: rest =>
      turns rest match snd c !! i with
                 | Some (Do op k) => let '(x, s') := fs_handle _ op (fst c) in (s', <[i := k x]> (snd c))
                 | _ => c
                 end
  end.
Lemma turns_steps {A} schedule (c : FState * list (FProg A)) : pool_steps fs_sem c (turns schedule c).
Proof.
  revert c. induction schedule as [| i rest IH]; intros [s ps]; [constructor |]. simpl. destruct (ps !! i) as [[x | X op k] |] eqn:E; try apply IH.
  pose proof (fs_handle_sem X op s) as Hs. destruct (fs_handle X op s) as [x s']. eapply rtc_l; [| apply IH].
  rewrite <- (take_drop_middle ps i _ E) at 1. rewrite insert_take_drop by by eapply lookup_lt_Some. by apply (step_op fs_sem s _ X op k _ x s').
Qed.
(** One after the other, each to its end. *)
Definition in_turn (n : nat) : list nat := concat (map (replicate 200) (seq 0 n)).

(** * A shop with a customer *)
Definition no_parse (s : string) : option spec_float := None.
Definition no_items (s : string) : option (list PedidoItem) := None.
Definition no_clients (s : string) : option (list string) := None.
Definition sold_at (s : string) : option instant := if String.eqb s "2026-01-06" then Some (2 * 24 * hour) else None.
Definition utc_day (t : instant) : Z := t / (24 * hour).
Definition day_text (t : instant) : string := itoa (t / (24 * hour)).
Definition no_sum (l : list spec_float) : spec_float := f64_zero.
Definition no_period (org : uuid) (s : string) : option (instant * instant) := None.
Abbreviation goroutine lasting := (sale_goroutine no_parse no_items no_clients no_items sold_at utc_day day_text number no_sum no_period lasting).
Definition counter_bia : FContact := MkFContact 50 1 None "" false.
Definition counter : FState := MkFState headquarters (MkFBase [] [] [] [] [counter_bia] (MkSurroundings [] [] [] true)) (MkVisDb [] [] []).
Definition ask_open : FProg unit := silently (CreateSalesOpportunity boss (Some (MkCreateSale 50 "Piso" None (Some half) (Some "M2")))).
Definition ask_convert : FProg unit := silently (ConvertSalesOpportunity boss (Some 1%N) None).
Definition ask_cancelled_twice : list (FProg unit) := [ask_open; ask_convert; ask_open].
Definition summary_of (s : FState) : list (string * SalesOpportunityStatus * option Z) := map (fun o => (opp_number o, opp_status o, ex_EstimatedQuantity (so_expected o))) (fb_opps (fs_base s)).
Definition kinds_of (s : FState) : list SalesOpportunityEventType := map sv_Type (fb_events (fs_base s)).
Example open_and_convert :
  summary_of (fst (turns (in_turn 2) (counter, [ask_open; ask_convert]))) = [("OPP-20260105-000001", Convertida, Some 500)] /\
  kinds_of (fst (turns (in_turn 2) (counter, [ask_open; ask_convert]))) = [SaleOpened; SaleConverted].
Proof. vm_compute. done. Qed.

(** * Witnesses *)
Lemma counter_sound lasting : sound_state lasting counter.
Proof.
  split; simpl; [split; simpl | constructor | ..]; intros.
  - unfold last_of, int_range, max_int64. simpl. lia.
  - exfalso. by eapply not_elem_of_nil.
  - exfalso. by eapply not_elem_of_nil.
  - match goal with H : live _ _ |- _ => destruct H as [H _] end. exfalso. by eapply not_elem_of_nil.
  - exfalso. by eapply not_elem_of_nil.
  - exfalso. by eapply not_elem_of_nil.
Qed.
Lemma asked_open lasting : exists a, goroutine lasting a ask_open.
Proof. exists (ByUser (cx_UserID boss)). apply sg_request, sr_create. Qed.
Lemma asked_convert lasting : exists a, goroutine lasting a ask_convert.
Proof. exists (ByUser (cx_UserID boss)). apply sg_request, sr_convert. Qed.
Definition both : list (FProg unit) := [ask_open; ask_convert].
Lemma asked_both lasting : Forall (fun p => exists a, goroutine lasting a p) both.
Proof. repeat constructor; [apply asked_open | apply asked_convert]. Qed.
Definition when_open : FState * list (FProg unit) := turns (replicate 200 0%nat) (counter, both).
Definition when_sold : FState * list (FProg unit) := turns (replicate 200 1%nat) when_open.
Lemma sold_steps : pool_steps fs_sem (counter, both) when_sold.
Proof. transitivity when_open; [exact (turns_steps (replicate 200 0%nat) (counter, both)) | exact (turns_steps (replicate 200 1%nat) when_open)]. Qed.
Definition the_opp (s : FState) : SalesOpportunity := default (fresh_opp 0 0 counter_bia None "" None None) (head (fb_opps (fs_base s))).
Theorem sale_changes_authorized_witness :
  goroutine false (ByUser (cx_UserID boss)) ask_open /\ ensures (warranted false (ByUser (cx_UserID boss))) (trace_contract fs_answerable) ask_open [] (fun _ _ => True).
Proof.
  assert (H : goroutine false (ByUser (cx_UserID boss)) ask_open) by apply sg_request, sr_create. split; [exact H |].
  apply (sale_changes_authorized no_parse no_items no_clients no_items sold_at utc_day day_text number no_sum no_period false (ByUser (cx_UserID boss)) ask_open H).
Defined.
Theorem opportunity_history_witness :
  opp_number (the_opp (fst when_open)) = "OPP-20260105-000001" /\ opp_status (the_opp (fst when_open)) = Aberta /\ opp_status (the_opp (fst when_sold)) = Convertida /\
  evolves (the_opp (fst when_open)) (the_opp (fst when_sold)).
Proof.
  split; [vm_compute; reflexivity |]. split; [vm_compute; reflexivity |]. split; [vm_compute; reflexivity |].
  apply (opportunity_history no_parse no_items no_clients no_items sold_at utc_day day_text number no_sum no_period counter both when_open when_sold).
  - apply counter_sound.
  - apply asked_both.
  - apply turns_steps.
  - apply turns_steps.
  - vm_compute. by left.
  - vm_compute. by left.
  - vm_compute. reflexivity.
  - vm_compute. reflexivity.
Defined.
Theorem opportunities_stay_sound_witness :
  opp_status (the_opp (fst when_sold)) = Convertida /\ sane (the_opp (fst when_sold)) /\
  (true = true -> opp_stage (the_opp (fst when_sold)) = Direcionada -> is_Some (fu_Direcionamento (so_funnel (the_opp (fst when_sold))))) /\
  forall o', o' ∈ fb_opps (fs_base (fst when_sold)) -> opp_org o' = opp_org (the_opp (fst when_sold)) -> opp_contact o' = opp_contact (the_opp (fst when_sold)) ->
    opp_status (the_opp (fst when_sold)) = Aberta -> opp_status o' = Aberta -> o' = the_opp (fst when_sold).
Proof.
  split; [vm_compute; reflexivity |].
  apply (opportunities_stay_sound no_parse no_items no_clients no_items sold_at utc_day day_text number no_sum no_period true counter both when_sold (the_opp (fst when_sold))).
  - apply counter_sound.
  - apply asked_both.
  - apply sold_steps.
  - vm_compute. by left.
Defined.
Theorem closings_recorded_once_witness :
  entries SaleConverted 1 (fs_base (fst when_sold)) = 1%nat /\ (entries SaleConverted 1 (fs_base (fst when_sold)) <= 1)%nat /\
  ((0 < entries SaleConverted 1 (fs_base (fst when_sold)))%nat -> exists o, o ∈ fb_opps (fs_base (fst when_sold)) /\ opp_ID o = 1%N /\ marked SaleConverted o = true).
Proof.
  split; [vm_compute; reflexivity |].
  apply (closings_recorded_once no_parse no_items no_clients no_items sold_at utc_day day_text number no_sum no_period counter both when_sold SaleConverted 1%N).
  - apply counter_sound.
  - intros kind id _. vm_compute. lia.
  - apply asked_both.
  - apply sold_steps.
  - by left.
Defined.
(** An order sold the day after, and a second one that is only quoted. *)
Definition order_of (num status : string) : PedidoResumo := MkResumo num "7" "1" "12" status (Some "2026-01-06") f64_zero f64_zero [].
Definition shelf : list (PedidoResumo * bool) := [(order_of "100" "FECHADO", false); (order_of "101" "ORCAMENTO", false)].
Definition rivals (s : FState) : list Competitor := [MkCompetitor (the_opp s) (Some "12")].
Theorem match_without_doubt_witness :
  (exists reason, decideXProcessMatch sold_at utc_day day_text shelf (rivals (fst when_sold)) (2 * hour) = Some (MkMatch (the_opp (fst when_sold)) (order_of "100" "FECHADO") reason)) /\
  decideXProcessMatch sold_at utc_day day_text (reverse shelf) (rivals (fst when_sold)) (2 * hour) = decideXProcessMatch sold_at utc_day day_text shelf (rivals (fst when_sold)) (2 * hour).
Proof.
  split; [eexists; vm_compute; reflexivity |].
  apply (match_without_doubt sold_at utc_day day_text shelf (rivals (fst when_sold)) (2 * hour)); [apply reverse_Permutation | reflexivity].
Defined.

(** * What goes wrong *)
(** A quantity finer than three decimals is accepted, and kept as zero. *)
Lemma fine_quantity_rounded :
  let q := f64_mul f64_micro f64_micro in SFeqb q f64_zero = false /\ validSalesQuantity q = true /\ thousandths q = 0.
Proof. vm_compute. done. Qed.
(** Two agents register an order for one opportunity at once: both links are open. *)
Definition register (num : string) : FProg unit := silently (UpsertSalesOpportunityXProcessLink boss (Some 1%N) (Some (num, "52998224725"))).
Definition agents : list (FProg unit) := [register "100"; register "200"].
Definition links_of (s : FState) : list (uuid * string * bool) := map (fun l => (xl_SalesOpportunityID l, xl_NumPedido l, open_link l)) (fb_links (fs_base s)).
Lemma two_open_links :
  links_of (fst (turns (in_turn 2) (fst when_open, agents))) = [(1%N, "200", true)] /\
  links_of (fst (turns (replicate 5 0%nat ++ replicate 200 1%nat ++ replicate 200 0%nat) (fst when_open, agents))) = [(1%N, "200", true); (1%N, "100", true)].
Proof. vm_compute. done. Qed.
